(* ===== verification/_CoqProject ===== *)
-Q . S2P
Prelude.v
SchedO1.v
Mem.v
Kstring.v
Spinlock.v
Kalloc.v
Pgtbl.v
Uvm.v
Ucopy.v
Ucow.v
Ufork.v
Ufree.v
Vmspec.v
Ring.v
Blk.v
Bio.v
Log.v
Txn.v
Cbuf.v
Umem.v
Pipe.v
Vmuser.v
Runset.v
Ptable.v
Proc.v
Procsum.v
Procinv.v
Threads.v
Store.v
Fs.v
Fsalloc.v
Fsmap.v
Fsread.v
Fswrite.v
Fsspec.v
Fsdir.v
Ulib.v
Printf.v
Grep.v
Net.v
Netsum.v
Netown.v
Netspec.v
Netudp.v
Console.v
File.v
Filespec.v
Sysfile.v
Fdref.v
Umalloc.v
Umallocspec.v
Sem.v
Semspec.v
Virtio.v
Virtiospec.v
Virtioref.v
Sh.v
Shspec.v
Shparse.v
Shrun.v
Trap.v
Trapspec.v
Trapfault.v
Trapuser.v
