(* ===== verification/Prelude.v ===== *)
(** * BirdOS: a verification development

    BirdOS is an operating system for RISC-V derived from xv6: a kernel in C under
    [src/kernel/], user programs under [src/user/], and the tool that makes the disk
    image, [src/mkfs/]. This library models it as Rocq functions and step relations
    and proves what its parts promise to each other.

    ** The program, and how its parts meet

    - Physical pages come from [mm/kalloc.c]; [mm/vm.c] builds page tables in them and
      is the only way to user memory.
    - [proc/proc.c] runs processes from the queues of [proc/sched_o1.c]; every part
      waits through its [sleep] and [wakeup], under the locks of [lock/].
    - The disk driver moves blocks; [filesystem/bio.c] caches them, [filesystem/log.c]
      groups writes into transactions, [filesystem/fs.c] builds files and directories
      on them, [filesystem/file.c] and [sysfile.c] give them to processes, beside pipes,
      the console and the sockets of [network/] and [sysnet.c].
    - [interrupt/trap.c] takes system calls, interrupts and page faults to these parts
      and goes back to user mode.
    - User programs call the kernel through [ulib.c], [umalloc.c] and [printf.c]; the
      shell, [sh.c], starts the others.

    ** Conventions

    A C integer is a [Z], with its width written where the source truncates. Memory
    is bytes by address ([Mem.v]), or a record where the layout plays no part. Code
    that changes state is a function in the monad [M] of this file: [Ret] with a value
    and a state, [Panic] for the kernel's [panic], [Fault] for an access outside an
    object, and [NoFuel]. A loop that is not structurally recursive has fuel; the
    fuel is computed from the state, next to the loop is said why it is enough, and
    the theorems say that the result is [Ret]. Code that runs concurrently is a step
    relation whose steps are the regions between operations on locks. A pointer into
    a table is an index.

    ** Which file models what

    - This file: machine integers, the monad, arrays, and lemmas on lists; [Mem.v]: byte
      memory; [Kstring.v]: [lib/string.c].
    - [Spinlock.v]: [lock/spinlock.c], CPUs interleaved at every instruction on a lock.
    - [Kalloc.v]: [mm/kalloc.c]. [Pgtbl.v], [Uvm.v]: [mm/vm.c]. [Ucopy.v], [Ucow.v],
      [Ufork.v], [Ufree.v]: lemmas on copying, copy-on-write, fork and release of an
      address space; [Vmspec.v]: their theorems; [Umem.v], [Vmuser.v]: the interface that
      the rest of the kernel sees of user memory, and that [vm.c] implements it.
    - [SchedO1.v]: [proc/sched_o1.c]; [Runset.v]: its queues as a set. [Ptable.v], [Proc.v]:
      [struct proc] and [proc/proc.c]; [Procsum.v], [Procinv.v]: the process table under
      concurrency; [Threads.v]: [clone] and [join]. [Sem.v], [Semspec.v]: the semaphores of
      [sysproc.c]. [Cbuf.v], [Pipe.v]: [proc/pipe.c].
    - [Virtio.v], [Virtiospec.v], [Virtioref.v]: [driver/virtio_disk.c], with processes, the
      interrupt handler and the device interleaved.
    - [Ring.v], [Blk.v], [Bio.v]: [filesystem/bio.c], [lock/sleeplock.c] and the interface
      of the cache. [Log.v], [Txn.v]: [filesystem/log.c]. [Store.v]: the disk inside a
      transaction. [Fs.v]: [filesystem/fs.c]; [Fsalloc.v], [Fsmap.v], [Fsread.v], [Fswrite.v],
      [Fsspec.v], [Fsdir.v]: its theorems. [File.v], [Filespec.v]: [filesystem/file.c].
      [Sysfile.v], [Fdref.v]: [sysfile.c] and the argument fetching of [syscall.c].
    - [Net.v], [Netsum.v], [Netown.v], [Netspec.v], [Netudp.v]: [network/net.c], the rings of
      [network/e1000.c], and [sysnet.c]. [Console.v]: [driver/console.c], [driver/uart.c].
    - [Ulib.v], [Printf.v], [Grep.v], [Umalloc.v], [Umallocspec.v]: the programs of
      [user/program/] of these names, and the kernel's [lib/printf.c]. [Sh.v], [Shspec.v],
      [Shparse.v], [Shrun.v]: [sh.c], its parser on the bytes of the line and the system
      calls of its commands as a tree.
    - [Trap.v]: [interrupt/trap.c], [syscall] and the alarm calls of [sysproc.c];
      [Trapspec.v]: the return to user mode and alarms; [Trapfault.v]: page faults;
      [Trapuser.v]: their theorems. The handlers of devices, [wakeup], the tick of the
      scheduler and [yield] are events there, and the other system calls a parameter.

    ** What the theorems show

    - Storage: a commit is atomic under crashes, also during recovery
      ([Txn.commit_crash_atomic]); [end_op] commits what the calls wrote
      ([end_op_commits]); the cache returns what was last written ([Bio.bread_latest]);
      files and directories are byte strings and maps ([Fsspec.writei_updates],
      [write_read_roundtrip], [readi_delivers], [inode_roundtrip], [balloc_first_free],
      [Fsdir.dirlookup_finds], [dirlink_inserts]); a write through a descriptor is
      durable, of any size while there are free blocks, and stays within its
      transactions if free blocks are not too scattered ([Filespec.filewrite_durable]);
      descriptors never dangle ([Fdref.fd_refcounts_exact]). The disk driver reads and
      writes the blocks it is asked for ([Virtioref.virtio_refines]); it is not stuck if
      nothing completes between the handler's loop and its acknowledgement
      ([virtio_progress]), and otherwise can be ([lost_interrupt]).
    - Memory: a page is given out once ([Kalloc.kalloc_exclusive]); [fork] shares pages so
      that writable ones become private copies and read-only ones stay shared
      ([Vmspec.uvmcopy_forks], [copyout_isolated]); growing is all or
      nothing, freeing leaks nothing ([uvmalloc_all_or_nothing], [uvmfree_releases]);
      [malloc] and [free] keep blocks apart and join free ones
      ([Umallocspec.malloc_allocates], [free_reclaims]).
    - Traps: a page fault gives the program its page, and fails only when memory is out
      ([Trapuser.page_fault_resolved]); a page of a mapped file has the bytes of the file,
      at the right place if the area starts on a page, and a refused access gets a page
      of zeros ([mmap_fault_delivers]); an alarm resumes the program with every register but [a0]
      ([alarm_transparent]).
    - Concurrency: locks exclude ([Spinlock.spinlock_mutual_exclusion]); the process table
      is consistent and no exit of a child or a thread is missed
      ([Procinv.proc_states_consistent], [wait_never_misses_exit], [process_tree_sound]),
      as long as pids last and no process is created between the two regions of a
      [clone], where the code goes wrong ([clone_race]); pipes are queues and lose no wakeup
      ([Pipe.pipe_fifo], [pipe_no_lost_wakeup]); nor do semaphores
      ([Semspec.sem_no_lost_wakeup]).
    - Scheduling, network, console, programs: the scheduler takes the smallest dynamic
      priority first, where its documents say the highest
      ([SchedO1.runq_pick_refines], [sched_tick_refines]); [Netudp.udp_delivery], [net_rx_safe];
      [Console.console_line_editing], [consoleread_line];
      [Grep.grep_prints_matching_lines], [match_decides]; [Printf.printf_reference],
      [printint_roundtrip]. The shell's parser decides its grammar
      ([Shparse.parsecmd_decides], [parse_print_roundtrip]), and a session starts the
      programs of a reference semantics ([Shrun.shell_starts]).
    - Where the code falls short: [Txn.log_reservation_short], [Kalloc.kalloc_steal_deadlock],
      [Semspec.sem_deadlock], [Trapuser.mmap_store_panics], [Procinv.clone_race],
      [Virtioref.lost_interrupt].

    ** Bounds and fuel

    In [Procinv.v] [exit] is cut at each call into the file system, where it can sleep.
    Sizes are those of the headers: 64 processes, 30 buffers, 13 buckets, blocks of
    1024 bytes, 8 CPUs, 128 semaphores. Searches through linked structures have the
    number of their nodes as fuel; copies have the number of pages; [malloc] twice the
    number of blocks that fit below the break; the matcher of [grep] a measure of
    pattern and text; the parser of the shell four times the length of the line; string
    functions the length of the string.

    ** Not modelled

    - Assembly ([asm/], [initcode.S], [usys.pl]) and the code that only programs devices or
      starts the machine: [start.c], [main.c], [interrupt/plic.c], [network/pci.c],
      [uartinit], [e1000_init].
    - Left out, though they are C code like the rest: [proc/exec.c], [proc/messagequeue.c],
      [mm/sharemem.c], and the calls of [sysproc.c] other than those of the semaphores,
      [sys_sbrk] and the alarm. The schedulers of [proc.c] that are not called, and
      [driver/ramdisk.c], which nothing calls.
    - [mkfs/mkfs.c], which runs on the host: the file system's theorems assume a volume
      that is well formed. [uthread.c], which rests on an assembly routine.
    - User programs that are a few system calls, and the tests under [user/test/];
      [grind.c] calls at random. *)

From stdpp Require Export base tactics numbers strings option sets gmap list.
#[export] Set Default Goal Selector "!".

Declare Scope kernel_scope.
Delimit Scope kernel_scope with kernel.
#[global] Open Scope kernel_scope.
#[global] Open Scope Z_scope.

(** ** Machine integers

    Every C integer is a [Z]; the width is written where the source truncates
    or wraps around. Signed arithmetic wraps the way the RV64 [addw]/[subw]
    instructions the compiler emits do. *)
Definition u8 (x : Z) : Z := x mod 2 ^ 8.
Definition u16 (x : Z) : Z := x mod 2 ^ 16.
Definition u32 (x : Z) : Z := x mod 2 ^ 32.
Definition u64 (x : Z) : Z := x mod 2 ^ 64.
Definition s8 (x : Z) : Z := (x + 2 ^ 7) mod 2 ^ 8 - 2 ^ 7.
Definition s16 (x : Z) : Z := (x + 2 ^ 15) mod 2 ^ 16 - 2 ^ 15.
Definition s32 (x : Z) : Z := (x + 2 ^ 31) mod 2 ^ 32 - 2 ^ 31.

(** ** Outcomes and the kernel monad

    A C function is a state transformer whose result is one of
    - [Ret a s]: it returned [a] leaving the state [s];
    - [Panic m]: it called [panic(m)], which prints and never returns;
    - [Fault]: it made an access the C abstract machine does not define
      (a null or out-of-range pointer);
    - [NoFuel]: the fuel of a loop ran out (theorems show it does not). *)
Inductive outcome (S A : Type) : Type :=
| Ret (a : A) (s : S)
| Panic (msg : string)
| Fault
| NoFuel.
Arguments Ret {S A} a s.
Arguments Panic {S A} msg.
Arguments Fault {S A}.
Arguments NoFuel {S A}.

(** The returned value. *)
Definition value {S A} (o : outcome S A) : option A := match o with Ret a _ => Some a | _ => None end.

Definition M (S A : Type) : Type := S -> outcome S A.

Definition ret {S A} (a : A) : M S A := fun s => Ret a s.

Definition bind {S A B} (m : M S A) (k : A -> M S B) : M S B := fun s =>
  match m s with
  | Ret a s' => k a s'
  | Panic e => Panic e
  | Fault => Fault
  | NoFuel => NoFuel
  end.

Definition panic {S A} (msg : string) : M S A := fun _ => Panic msg.
Definition fault {S A} : M S A := fun _ => Fault.
Definition nofuel {S A} : M S A := fun _ => NoFuel.
Definition get {S} : M S S := fun s => Ret s s.
Definition gets {S A} (f : S -> A) : M S A := fun s => Ret (f s) s.
Definition put {S} (s : S) : M S unit := fun _ => Ret tt s.
Definition modify {S} (f : S -> S) : M S unit := fun s => Ret tt (f s).
Definition when {S} (b : bool) (m : M S unit) : M S unit := if b then m else ret tt.

(** A pointer or array access: [None] faults. *)
Definition deref {S A} (o : option A) : M S A :=
  match o with Some a => ret a | None => fault end.

Notation "'let*' x ':=' m 'in' k" := (bind m (fun x => k))
  (at level 10, x name, m at level 100, k at level 200) : kernel_scope.
Notation "'let*' ' p ':=' m 'in' k" := (bind m (fun x => match x with p => k end))
  (at level 10, p pattern, m at level 100, k at level 200) : kernel_scope.
Notation "m ;;; k" := (bind m (fun _ => k))
  (at level 100, right associativity) : kernel_scope.

(** [for (i = lo; i < lo + n; i++) body(i)]: the loops of the source whose
    bounds are fixed before the loop starts. *)
Fixpoint for_loop {S} (n : nat) (lo : Z) (body : Z -> M S unit) : M S unit :=
  match n with
  | O => ret tt
  | S n' => body lo ;;; for_loop n' (lo + 1) body
  end.

(** An operation on a component [T] of a larger state [S]. *)
Definition zoom {S T A} (proj : S -> T) (upd : T -> S -> S) (m : M T A) : M S A := fun s =>
  match m (proj s) with
  | Ret a t => Ret a (upd t s)
  | Panic e => Panic e
  | Fault => Fault
  | NoFuel => NoFuel
  end.

(** ** Arrays indexed by C integers *)
Definition aget {A} (l : list A) (i : Z) : option A :=
  if i <? 0 then None else l !! Z.to_nat i.
Definition aset {A} (l : list A) (i : Z) (x : A) : list A :=
  if i <? 0 then l else <[Z.to_nat i := x]> l.
Definition alen {A} (l : list A) : Z := Z.of_nat (length l).

(** ** Automation *)
Create HintDb kernel discriminated.
Create Rewrite HintDb kernel.
Create HintDb kernel_unfold discriminated.
#[export] Hint Unfold ret bind panic fault nofuel get gets put modify when deref zoom : kernel_unfold.

(** Unfold the monad in the goal and in the hypotheses. *)
Ltac munfold := autounfold with kernel_unfold in *; simpl in *.

(** Split the booleans of the code into propositions. *)
Ltac bool_cases :=
  repeat match goal with
  | H : (_ && _)%bool = true |- _ => apply andb_prop in H as [? ?]
  | H : (_ && _)%bool = false |- _ => apply andb_false_iff in H
  | H : (_ || _)%bool = false |- _ => apply orb_false_iff in H as [? ?]
  | H : (_ || _)%bool = true |- _ => apply orb_true_iff in H
  | H : negb _ = true |- _ => apply negb_true_iff in H
  | H : negb _ = false |- _ => apply negb_false_iff in H
  | H : (_ =? _) = true |- _ => apply Z.eqb_eq in H
  | H : (_ =? _) = false |- _ => apply Z.eqb_neq in H
  | H : (_ <? _) = true |- _ => apply Z.ltb_lt in H
  | H : (_ <? _) = false |- _ => apply Z.ltb_ge in H
  | H : (_ <=? _) = true |- _ => apply Z.leb_le in H
  | H : (_ <=? _) = false |- _ => apply Z.leb_gt in H
  end.

(** Case analysis on the comparisons of the goal. *)
Ltac zcases :=
  repeat match goal with
  | |- context [?a =? ?b] => destruct (Z.eqb_spec a b)
  | |- context [?a <? ?b] => destruct (Z.ltb_spec a b)
  | |- context [?a <=? ?b] => destruct (Z.leb_spec a b)
  end.

(** Linear arithmetic with divisions by constants. *)
Ltac dlia := Z.div_mod_to_equations; lia.

(** ** Lemmas on the monad *)
Section monad.
Context {S A B : Type}.
Implicit Types (m : M S A) (k : A -> M S B) (s : S).

Lemma bind_Ret m k s a s' : m s = Ret a s' -> bind m k s = k a s'.
Proof. intros H. unfold bind. by rewrite H. Qed.

Lemma bind_Ret_inv m k s b s'' :
  bind m k s = Ret b s'' -> exists a s', m s = Ret a s' /\ k a s' = Ret b s''.
Proof. unfold bind. destruct (m s) eqn:E; intros H; naive_solver. Qed.

Lemma zoom_Ret {T} (proj : S -> T) (upd : T -> S -> S) (mt : M T A) s a t :
  mt (proj s) = Ret a t -> zoom proj upd mt s = Ret a (upd t s).
Proof. intros H. unfold zoom. by rewrite H. Qed.
End monad.

(** An invariant of a counted loop; each iteration returns, so the loop does. *)
Lemma for_loop_inv {S} (P : Z -> S -> Prop) (body : Z -> M S unit) n : forall lo s,
  P lo s ->
  (forall i s, lo <= i < lo + Z.of_nat n -> P i s ->
     exists s', body i s = Ret tt s' /\ P (i + 1) s') ->
  exists s', for_loop n lo body s = Ret tt s' /\ P (lo + Z.of_nat n) s'.
Proof.
  induction n as [|n IH]; intros lo s H0 Hstep.
  - exists s. rewrite Z.add_0_r. done.
  - destruct (Hstep lo s) as (s1 & Hrun & H1); [lia|done|].
    destruct (IH (lo + 1) s1) as (s2 & Hrun2 & H2); [done|intros; apply Hstep; [lia|done]|].
    exists s2. simpl. rewrite (bind_Ret _ _ _ _ _ Hrun). split; [done|].
    by replace (lo + Z.of_nat (Datatypes.S n)) with (lo + 1 + Z.of_nat n) by lia.
Qed.

(** The same for a loop that is known to have returned. *)
Lemma for_loop_ret {S} (P : Z -> S -> Prop) (body : Z -> M S unit) n : forall lo s s',
  P lo s ->
  (forall i s s', lo <= i < lo + Z.of_nat n -> P i s -> body i s = Ret tt s' -> P (i + 1) s') ->
  for_loop n lo body s = Ret tt s' -> P (lo + Z.of_nat n) s'.
Proof.
  induction n as [|n IH]; intros lo s s' H0 Hstep Hrun.
  - injection Hrun as <-. by rewrite Z.add_0_r.
  - simpl in Hrun. apply bind_Ret_inv in Hrun as ([] & s1 & Hb & Hrun).
    replace (lo + Z.of_nat (Datatypes.S n)) with (lo + 1 + Z.of_nat n) by lia.
    apply (IH (lo + 1) s1 s'); [apply (Hstep lo s s1); [lia|done..]|intros i t t' Hi; apply Hstep; lia|done].
Qed.

(** Invert the binds of a hypothesis [m s = Ret a s']. *)
Ltac inv_bind H :=
  repeat match type of H with
  | bind _ _ _ = Ret _ _ =>
      let a := fresh "a" in let s := fresh "s" in let E := fresh "E" in
      apply bind_Ret_inv in H as (a & s & E & H)
  end.

(** One step of symbolic execution: run the head of a bind by a lemma. *)
Ltac run lem := erewrite bind_Ret; [ | solve [eapply lem; simpl; eauto with kernel] ]; cbv beta; simpl.
Ltac run_last lem := erewrite lem; [ | solve [simpl; eauto with kernel] .. ]; simpl.

(** ** Lemmas on machine integers *)
Lemma u8_range x : 0 <= u8 x < 256.
Proof. apply Z.mod_pos_bound. lia. Qed.
Lemma u16_range x : 0 <= u16 x < 65536.
Proof. apply Z.mod_pos_bound. lia. Qed.
Lemma u32_range x : 0 <= u32 x < 2 ^ 32.
Proof. apply Z.mod_pos_bound. lia. Qed.
Lemma u64_range x : 0 <= u64 x < 2 ^ 64.
Proof. apply Z.mod_pos_bound. lia. Qed.
Lemma s32_range x : - 2 ^ 31 <= s32 x < 2 ^ 31.
Proof. unfold s32. pose proof (Z.mod_pos_bound (x + 2 ^ 31) (2 ^ 32)). lia. Qed.
Lemma u8_small x : 0 <= x < 256 -> u8 x = x.
Proof. apply Z.mod_small. Qed.
Lemma u16_small x : 0 <= x < 65536 -> u16 x = x.
Proof. apply Z.mod_small. Qed.
Lemma u32_small x : 0 <= x < 2 ^ 32 -> u32 x = x.
Proof. apply Z.mod_small. Qed.
Lemma u64_small x : 0 <= x < 2 ^ 64 -> u64 x = x.
Proof. apply Z.mod_small. Qed.
Lemma s16_small x : - 2 ^ 15 <= x < 2 ^ 15 -> s16 x = x.
Proof. intros. unfold s16. rewrite Z.mod_small; lia. Qed.
Lemma s32_small x : - 2 ^ 31 <= x < 2 ^ 31 -> s32 x = x.
Proof. intros. unfold s32. rewrite Z.mod_small; lia. Qed.
Lemma land_le_l a b : 0 <= a -> Z.land a b <= a.
Proof.
  intros Ha. assert (0 <= a - Z.land a b); [|lia].
  rewrite Z.sub_nocarry_ldiff; [apply Z.ldiff_nonneg; lia|].
  apply Z.bits_inj'. intros n Hn. rewrite Z.ldiff_spec, Z.land_spec, Z.bits_0.
  by destruct (Z.testbit a n), (Z.testbit b n).
Qed.
#[export] Hint Resolve u8_range u16_range u32_range u64_range s32_range : kernel.

(** ** Lemmas on arrays *)
Section arrays.
Context {A : Type}.
Implicit Types (l : list A) (i j : Z) (x : A).

Lemma alen_aset l i x : alen (aset l i x) = alen l.
Proof. unfold alen, aset. destruct (i <? 0); [done|]. by rewrite length_insert. Qed.

Lemma aget_aset_eq l i x : 0 <= i < alen l -> aget (aset l i x) i = Some x.
Proof.
  unfold aget, aset, alen. intros H. destruct (Z.ltb_spec i 0); [lia|].
  apply list_lookup_insert_eq. lia.
Qed.

Lemma aget_aset_ne l i j x : i <> j -> 0 <= i -> aget (aset l i x) j = aget l j.
Proof.
  unfold aget, aset. intros H ?. destruct (Z.ltb_spec j 0), (Z.ltb_spec i 0); try done.
  apply list_lookup_insert_ne. lia.
Qed.

Lemma aget_Some l i x : aget l i = Some x -> 0 <= i < alen l.
Proof.
  unfold aget, alen. destruct (Z.ltb_spec i 0); [done|]. intros ?%lookup_lt_Some. lia.
Qed.

Lemma aget_is_Some l i : 0 <= i < alen l -> is_Some (aget l i).
Proof.
  unfold aget, alen. intros. destruct (Z.ltb_spec i 0); [lia|]. apply lookup_lt_is_Some. lia.
Qed.
End arrays.
#[export] Hint Rewrite @alen_aset : kernel.

Lemma aget_of_nat {A} (l : list A) n : aget l (Z.of_nat n) = l !! n.
Proof. unfold aget. destruct (Z.ltb_spec (Z.of_nat n) 0); [lia|]. by rewrite Nat2Z.id. Qed.
Lemma aset_of_nat {A} (l : list A) n x : aset l (Z.of_nat n) x = <[n := x]> l.
Proof. unfold aset. destruct (Z.ltb_spec (Z.of_nat n) 0); [lia|]. by rewrite Nat2Z.id. Qed.

(** ** Lemmas on lists *)
Lemma head_lookup {A} (l : list A) : head l = l !! 0%nat.
Proof. by destruct l. Qed.

Lemma app_cons_app_inv {A} (l1 l2 a b : list A) q :
  l1 ++ l2 = a ++ q :: b ->
  (exists c, l1 = a ++ q :: c /\ b = c ++ l2) \/ (exists c, a = l1 ++ c /\ l2 = c ++ q :: b).
Proof.
  intros H. apply app_eq_inv in H as [(k & -> & H)|(k & -> & H)].
  - destruct k as [|y k]; simpl in H.
    + right. exists []. by rewrite !app_nil_r.
    + injection H as <- ->. left. exists k. by rewrite <- ?app_assoc.
  - right. eauto.
Qed.

Lemma last_elem {A} (l : list A) x : last l = Some x -> x ∈ l.
Proof. intros (l' & ->)%last_Some. apply elem_of_app. right. by apply list_elem_of_singleton. Qed.
Lemma head_elem {A} (l : list A) x : head l = Some x -> x ∈ l.
Proof. destruct l; simpl; [done|]. intros [= ->]. apply list_elem_of_here. Qed.

Lemma last_app_cons {A} (l1 l2 : list A) q : last (l1 ++ q :: l2) = last (q :: l2).
Proof.
  induction l1 as [|a l1 IH]; [done|]. rewrite <- IH. simpl. by destruct l1.
Qed.

Lemma NoDup_last_split {A} (l1 l2 : list A) q :
  NoDup (l1 ++ q :: l2) -> last (l1 ++ q :: l2) = Some q -> l2 = [].
Proof.
  intros Hnd. rewrite last_app_cons. destruct l2 as [|z l2]; [done|]. intros Hlast.
  apply NoDup_app in Hnd as (_ & _ & Hnd). apply NoDup_cons in Hnd as [Hq _].
  destruct Hq. by apply last_elem.
Qed.

Lemma NoDup_head_split {A} (l1 l2 : list A) q :
  NoDup (l1 ++ q :: l2) -> head (l1 ++ q :: l2) = Some q -> l1 = [].
Proof.
  intros Hnd. destruct l1 as [|z l1]; [done|]. simpl. intros [= ->].
  apply NoDup_cons in Hnd as [[] _]. apply elem_of_app. right. apply list_elem_of_here.
Qed.

Lemma list_insert_cases {A} (l : list A) i j x y :
  <[i := x]> l !! j = Some y -> (j = i /\ y = x) \/ (j <> i /\ l !! j = Some y).
Proof.
  intros Hj. destruct (decide (j = i)) as [->|Hne].
  - pose proof (lookup_lt_Some _ _ _ Hj) as Hlt. rewrite length_insert in Hlt.
    rewrite list_lookup_insert_eq in Hj by done. injection Hj as <-. auto.
  - rewrite list_lookup_insert_ne in Hj by done. auto.
Qed.

Lemma concat_remove_perm {A} (ls : list (list A)) i l1 l2 x :
  ls !! i = Some (l1 ++ x :: l2) -> x :: concat (<[i := l1 ++ l2]> ls) ≡ₚ concat ls.
Proof.
  revert i. induction ls as [|l ls IH]; intros [|i] H; simpl in *; [done..| |].
  - injection H as ->. rewrite <- !app_assoc. simpl. by rewrite Permutation_middle.
  - rewrite <- (IH i H). by rewrite <- Permutation_middle.
Qed.

Lemma concat_snoc_perm {A} (ls : list (list A)) i l x :
  ls !! i = Some l -> concat (<[i := l ++ [x]]> ls) ≡ₚ x :: concat ls.
Proof.
  revert i. induction ls as [|l' ls IH]; intros [|i] H; simpl in *; [done..| |].
  - injection H as ->. rewrite <- app_assoc. simpl. by rewrite Permutation_middle.
  - rewrite (IH i H). by rewrite <- Permutation_middle.
Qed.

Lemma NoDup_bounded_length (l : list nat) n :
  NoDup l -> (forall x, x ∈ l -> (x < n)%nat) -> (length l <= n)%nat.
Proof.
  intros Hnd Hlt. rewrite <- (length_seq n 0). apply submseteq_length, NoDup_submseteq; [done|].
  intros x Hx. apply elem_of_seq. specialize (Hlt x Hx). lia.
Qed.

Lemma elem_concat {A} (ls : list (list A)) x :
  x ∈ concat ls <-> exists i l, ls !! i = Some l /\ x ∈ l.
Proof.
  induction ls as [|l ls IH]; simpl.
  - split; [by intros ?%not_elem_of_nil|]. intros (i & l & H & _). by destruct i.
  - rewrite elem_of_app, IH. split.
    + intros [Hx|(i & l' & Hi & Hx)]; [by exists 0%nat, l|by exists (S i), l'].
    + intros ([|i] & l' & Hi & Hx); simpl in Hi; [left; by injection Hi as ->|right; eauto].
Qed.
Lemma elem_concat_lookup {A} (ls : list (list A)) i l x : ls !! i = Some l -> x ∈ l -> x ∈ concat ls.
Proof. intros. apply elem_concat. eauto. Qed.

Lemma concat_cons_perm {A} (ls : list (list A)) i l x :
  ls !! i = Some l -> concat (<[i := x :: l]> ls) ≡ₚ x :: concat ls.
Proof.
  intros H. rewrite <- (concat_remove_perm (<[i := x :: l]> ls) i [] l x); simpl.
  - rewrite list_insert_insert_eq. by rewrite list_insert_id.
  - apply list_lookup_insert_eq. by eapply lookup_lt_Some.
Qed.

Lemma concat_disjoint {A} (ls : list (list A)) k k' l l' x :
  NoDup (concat ls) -> ls !! k = Some l -> ls !! k' = Some l' -> k <> k' -> x ∈ l -> x ∈ l' -> False.
Proof.
  revert k k'. induction ls as [|h ls IH]; intros k k' Hnd Hk Hk' Hne Hx Hx'; [done|].
  simpl in Hnd. apply NoDup_app in Hnd as (_ & Hd & Hnd). destruct k as [|k], k' as [|k']; simpl in *.
  - done.
  - injection Hk as ->. eapply Hd; [done|]. by eapply elem_concat_lookup.
  - injection Hk' as ->. eapply Hd; [done|]. by eapply elem_concat_lookup.
  - eapply IH; [done|done|exact Hk'|lia|done|done].
Qed.
