(* ===== verification/SchedO1.v ===== *)
(** The O(1) scheduler's run queue (kernel/proc/sched_o1.c).

    Module [SchedO1] models the 21 doubly linked ready queues threaded through
    the process table, their occupancy bitmap, the de Bruijn [ctz64], the aging
    formula [runq_dyn] and the operations [runq_init], [runq_enqueue],
    [runq_remove], [runq_pick] and [sched_tick]. The representation predicate
    [rq_repr] relates the pointer structure to 21 lists of processes, and the
    theorems show that every operation refines its effect on those lists. *)

From S2P Require Import Prelude.

Module SchedO1.

Definition RUNQ_LEN : Z := 21.
Definition NPROC : nat := 64.

(** The scheduling fields of [struct proc]; a [struct proc *] is an index
    into [proc[NPROC]], [None] the null pointer. *)
Record sproc : Type := SProc {
  priority : Z;
  wait_time : Z;
  cpu_time : Z;
  dyn_priority : Z;
  run_next : option nat;
  run_prev : option nat;
  on_runq : bool
}.

Definition set_wait_time (w : Z) (p : sproc) : sproc :=
  SProc (priority p) w (cpu_time p) (dyn_priority p) (run_next p) (run_prev p) (on_runq p).
Definition set_cpu_time (c : Z) (p : sproc) : sproc :=
  SProc (priority p) (wait_time p) c (dyn_priority p) (run_next p) (run_prev p) (on_runq p).
Definition set_priority (x : Z) (p : sproc) : sproc :=
  SProc x (wait_time p) (cpu_time p) (dyn_priority p) (run_next p) (run_prev p) (on_runq p).
Definition set_dyn_priority (d : Z) (p : sproc) : sproc :=
  SProc (priority p) (wait_time p) (cpu_time p) d (run_next p) (run_prev p) (on_runq p).
Definition set_run_next (n : option nat) (p : sproc) : sproc :=
  SProc (priority p) (wait_time p) (cpu_time p) (dyn_priority p) n (run_prev p) (on_runq p).
Definition set_run_prev (n : option nat) (p : sproc) : sproc :=
  SProc (priority p) (wait_time p) (cpu_time p) (dyn_priority p) (run_next p) n (on_runq p).
Definition set_on_runq (b : bool) (p : sproc) : sproc :=
  SProc (priority p) (wait_time p) (cpu_time p) (dyn_priority p) (run_next p) (run_prev p) b.

(** The globals of sched_o1.c and the process table. *)
Record runq : Type := RunQ {
  procs : list sproc;
  runq_head : list (option nat);
  runq_tail : list (option nat);
  runq_bitmap : Z
}.

Definition set_procs (ps : list sproc) (st : runq) : runq :=
  RunQ ps (runq_head st) (runq_tail st) (runq_bitmap st).
Definition set_heads (hs : list (option nat)) (st : runq) : runq :=
  RunQ (procs st) hs (runq_tail st) (runq_bitmap st).
Definition set_tails (ts : list (option nat)) (st : runq) : runq :=
  RunQ (procs st) (runq_head st) ts (runq_bitmap st).
Definition set_bitmap (b : Z) (st : runq) : runq :=
  RunQ (procs st) (runq_head st) (runq_tail st) b.

(** [*p], [p->f = v], [runq_head[i]] and [runq_tail[i]]. *)
Definition getp (p : nat) : M runq sproc := fun st => deref (procs st !! p) st.
Definition modp (p : nat) (f : sproc -> sproc) : M runq unit :=
  getp p ;;; modify (fun st => set_procs (alter f p (procs st)) st).
Definition get_head (i : Z) : M runq (option nat) := fun st => deref (aget (runq_head st) i) st.
Definition get_tail (i : Z) : M runq (option nat) := fun st => deref (aget (runq_tail st) i) st.
Definition put_head (i : Z) (p : option nat) : M runq unit :=
  get_head i ;;; modify (fun st => set_heads (aset (runq_head st) i p) st).
Definition put_tail (i : Z) (p : option nat) : M runq unit :=
  get_tail i ;;; modify (fun st => set_tails (aset (runq_tail st) i p) st).

(** [ctz64]: the position of the lowest set bit, by a de Bruijn table. *)
Definition ctz_tbl : list Z :=
  [ 0;  1; 48;  2; 57; 49; 28;  3; 61; 58; 50; 42; 38; 29; 17;  4;
   62; 55; 59; 36; 53; 51; 43; 22; 45; 39; 33; 30; 24; 18; 12;  5;
   63; 47; 56; 27; 60; 41; 37; 16; 54; 35; 52; 21; 44; 32; 23; 11;
   46; 26; 40; 15; 34; 20; 31; 10; 25; 14; 19;  9; 13;  8;  7;  6].

Definition debruijn : Z := 0x03f79d71b4cb0a89.

Definition ctz64 {S} (x : Z) : M S Z :=
  deref (aget ctz_tbl (Z.shiftr (u64 (Z.land x (u64 (- x)) * debruijn)) 58)).

(** [runq_dyn]: base priority plus waiting credit minus CPU usage, clamped. *)
Definition runq_dyn (p : sproc) : Z :=
  let d := s32 (s32 (priority p + wait_time p ÷ 5) - cpu_time p ÷ 5) in
  let d := if d <? 0 then 0 else d in
  if RUNQ_LEN - 1 <? d then RUNQ_LEN - 1 else d.

Definition runq_init : M runq unit :=
  for_loop 21 0 (fun i => put_tail i None ;;; put_head i None) ;;;
  modify (set_bitmap 0).

Definition runq_enqueue (p : nat) : M runq unit :=
  let* x := getp p in
  if on_runq x then ret tt
  else
    let i := runq_dyn x in
    modp p (set_dyn_priority i) ;;;
    modp p (set_run_next None) ;;;
    let* t := get_tail i in
    modp p (set_run_prev t) ;;;
    let* t := get_tail i in
    match t with
    | Some q => modp q (set_run_next (Some p))
    | None => put_head i (Some p)
    end ;;;
    put_tail i (Some p) ;;;
    modify (fun st => set_bitmap (u64 (Z.lor (runq_bitmap st) (Z.shiftl 1 i))) st) ;;;
    modp p (set_on_runq true).

Definition runq_remove (p : nat) : M runq unit :=
  let* x := getp p in
  if negb (on_runq x) then ret tt
  else
    let i := dyn_priority x in
    let nx := run_next x in
    let pr := run_prev x in
    match pr with
    | Some q => modp q (set_run_next nx)
    | None => put_head i nx
    end ;;;
    match nx with
    | Some q => modp q (set_run_prev pr)
    | None => put_tail i pr
    end ;;;
    modp p (set_run_prev None) ;;;
    modp p (set_run_next None) ;;;
    modp p (set_on_runq false) ;;;
    let* h := get_head i in
    match h with
    | None =>
        modify (fun st =>
          set_bitmap (Z.land (runq_bitmap st) (u64 (Z.lnot (Z.shiftl 1 i)))) st)
    | Some _ => ret tt
    end.

Definition runq_pick : M runq (option nat) :=
  let* bm := gets runq_bitmap in
  if bm =? 0 then ret None
  else
    let* i := ctz64 bm in
    let* h := get_head i in
    match h with
    | None => fault
    | Some p => runq_remove p ;;; ret (Some p)
    end.

(** [for (p = runq_head[i]; p != 0; p = p->run_next) p->wait_time++] *)
Fixpoint age_queue (fuel : nat) (p : option nat) : M runq unit :=
  match p with
  | None => ret tt
  | Some p =>
      match fuel with
      | O => nofuel
      | S fuel =>
          modp p (fun x => set_wait_time (s32 (wait_time x + 1)) x) ;;;
          let* x := getp p in age_queue fuel (run_next x)
      end
  end.

(** The inner [while] of step 2: move the processes of bucket [i] whose
    dynamic priority is no longer [i]. *)
Fixpoint rebucket_queue (fuel : nat) (i : Z) (p : option nat) : M runq unit :=
  match p with
  | None => ret tt
  | Some p =>
      match fuel with
      | O => nofuel
      | S fuel =>
          let* x := getp p in
          let nx := run_next x in
          when (negb (runq_dyn x =? i)) (runq_remove p ;;; runq_enqueue p) ;;;
          rebucket_queue fuel i nx
      end
  end.

(** [sched_tick] with [r] the process running on this CPU ([mycpu()->proc]).
    A queue holds at most [NPROC] processes, so that is fuel enough. *)
Definition sched_tick (r : option nat) : M runq unit :=
  for_loop 21 0 (fun i => let* h := get_head i in age_queue NPROC h) ;;;
  for_loop 21 0 (fun i => let* h := get_head i in rebucket_queue NPROC i h) ;;;
  match r with
  | None => ret tt
  | Some r => modp r (fun x => set_cpu_time (s32 (cpu_time x + 1)) x)
  end.

(** ** Lowest set bit *)

Lemma land_opp_odd y : Z.odd y = true -> Z.land y (- y) = 1.
Proof.
  intros Hodd. apply Z.odd_spec in Hodd as [q ->].
  replace (- (2 * q + 1)) with (Z.lnot (2 * q)) by (unfold Z.lnot; lia).
  apply Z.bits_inj'. intros n Hn. rewrite Z.land_spec, Z.lnot_spec by done.
  destruct (decide (n = 0)) as [->|].
  - by rewrite Z.testbit_odd_0, Z.testbit_even_0.
  - replace n with (Z.succ (n - 1)) by lia.
    rewrite Z.testbit_odd_succ, Z.testbit_even_succ by lia.
    rewrite andb_negb_r. symmetry.
    change 1 with (2 ^ 0). apply Z.pow2_bits_false. lia.
Qed.

(** [x & -x] isolates the lowest set bit. *)
Lemma land_opp_lowest x k :
  0 <= k -> Z.testbit x k = true -> (forall j, 0 <= j < k -> Z.testbit x j = false) ->
  Z.land x (- x) = 2 ^ k.
Proof.
  intros Hk Hbit Hlow.
  assert (x = Z.shiftl (Z.shiftr x k) k) as Hx.
  { apply Z.bits_inj'. intros n Hn. rewrite Z.shiftl_spec by done.
    destruct (decide (n < k)).
    - rewrite Hlow by lia. by rewrite Z.testbit_neg_r by lia.
    - rewrite Z.shiftr_spec by lia. f_equal. lia. }
  assert (- x = Z.shiftl (- Z.shiftr x k) k) as Hox.
  { rewrite Hx at 1. rewrite !Z.shiftl_mul_pow2 by done. lia. }
  rewrite Hox. rewrite Hx at 1. rewrite <- Z.shiftl_land, land_opp_odd.
  - by rewrite Z.shiftl_1_l.
  - rewrite <- Z.bit0_odd, Z.shiftr_spec by lia. by rewrite Z.add_0_l.
Qed.

Lemma land_u64_opp x : 0 <= x < 2 ^ 64 -> Z.land x (u64 (- x)) = Z.land x (- x).
Proof.
  intros Hx. unfold u64. rewrite <- Z.land_ones by lia.
  rewrite (Z.land_comm (- x)), Z.land_assoc, Z.land_ones, Z.mod_small by lia. done.
Qed.

(** The multiplication maps the 64 powers of two to 64 distinct table slots. *)
Definition ctz_index (k : nat) : Z := Z.shiftr (u64 (2 ^ Z.of_nat k * debruijn)) 58.
Lemma ctz_tbl_complete :
  forallb (fun k => match aget ctz_tbl (ctz_index k) with
                    | Some v => v =? Z.of_nat k | None => false end) (seq 0 64) = true.
Proof. vm_compute. reflexivity. Qed.

Lemma ctz64_lowest {S} x k (s : S) :
  0 <= x < 2 ^ 64 -> (k < 64)%nat -> Z.testbit x (Z.of_nat k) = true ->
  (forall j, 0 <= j < Z.of_nat k -> Z.testbit x j = false) ->
  ctz64 x s = Ret (Z.of_nat k) s.
Proof.
  intros Hx Hk Hbit Hlow. unfold ctz64.
  rewrite land_u64_opp, (land_opp_lowest x (Z.of_nat k)) by (done || lia).
  change (Z.shiftr _ _) with (ctz_index k).
  pose proof ctz_tbl_complete as Hall. rewrite forallb_forall in Hall.
  specialize (Hall k). destruct (aget ctz_tbl (ctz_index k)) as [v|].
  - unfold deref, ret. f_equal. apply Z.eqb_eq, Hall, in_seq. lia.
  - discriminate Hall. apply in_seq. lia.
Qed.

(** ** Representation: 21 lists of processes *)

(** The links of process [p] standing between [l1] and [l2] in bucket [i]. *)
Definition node_ok (ps : list sproc) (i : nat) (l1 : list nat) (p : nat) (l2 : list nat) : Prop :=
  exists x, ps !! p = Some x /\ on_runq x = true /\ dyn_priority x = Z.of_nat i /\
    run_prev x = last l1 /\ run_next x = head l2.

Record rq_repr (st : runq) (qs : list (list nat)) : Prop := {
  rr_procs : length (procs st) = NPROC;
  rr_heads : length (runq_head st) = 21%nat;
  rr_tails : length (runq_tail st) = 21%nat;
  rr_len : length qs = 21%nat;
  rr_head : forall i l, qs !! i = Some l -> runq_head st !! i = Some (head l);
  rr_tail : forall i l, qs !! i = Some l -> runq_tail st !! i = Some (last l);
  rr_node : forall i l1 p l2, qs !! i = Some (l1 ++ p :: l2) -> node_ok (procs st) i l1 p l2;
  rr_nodup : forall i l, qs !! i = Some l -> NoDup l;
  rr_on : forall p x, procs st !! p = Some x -> on_runq x = true ->
            exists i l, qs !! i = Some l /\ p ∈ l;
  rr_bits : forall i l, qs !! i = Some l ->
            Z.testbit (runq_bitmap st) (Z.of_nat i) = negb (bool_decide (l = []));
  rr_bound : 0 <= runq_bitmap st < 2 ^ 21
}.

(** The accounting fields an operation on the queues leaves alone. *)
Definition accounting (x : sproc) : Z * Z * Z := (priority x, wait_time x, cpu_time x).
Definition same_accounting (st st' : runq) : Prop :=
  forall q, accounting <$> (procs st !! q) = accounting <$> (procs st' !! q).

Lemma runq_dyn_range p : 0 <= runq_dyn p <= 20.
Proof. unfold runq_dyn, RUNQ_LEN. zcases; lia. Qed.

Lemma runq_dyn_accounting x y : accounting x = accounting y -> runq_dyn x = runq_dyn y.
Proof. destruct x, y. unfold accounting. simpl. by intros [= -> -> ->]. Qed.

Section repr.
Context (st : runq) (qs : list (list nat)) (Hr : rq_repr st qs).

Lemma rr_elem i l p : qs !! i = Some l -> p ∈ l ->
  exists x, procs st !! p = Some x /\ on_runq x = true /\ dyn_priority x = Z.of_nat i.
Proof.
  intros Hi Hp. apply list_elem_of_split in Hp as (l1 & l2 & ->).
  destruct (rr_node _ _ Hr _ _ _ _ Hi) as (x & ? & ? & ? & _). eauto.
Qed.

(** A process on a queue is in the bucket [dyn_priority] names. *)
Lemma rr_find p x : procs st !! p = Some x -> on_runq x = true ->
  exists i l1 l2, qs !! i = Some (l1 ++ p :: l2) /\ dyn_priority x = Z.of_nat i /\
    run_prev x = last l1 /\ run_next x = head l2.
Proof.
  intros Hx Hon. destruct (rr_on _ _ Hr _ _ Hx Hon) as (i & l & Hi & Hp).
  apply list_elem_of_split in Hp as (l1 & l2 & ->).
  destruct (rr_node _ _ Hr _ _ _ _ Hi) as (x' & Hx' & _ & ? & ? & ?).
  rewrite Hx in Hx'. injection Hx' as <-. exists i, l1, l2. auto.
Qed.

Lemma rr_same_bucket i j l l' p : qs !! i = Some l -> qs !! j = Some l' -> p ∈ l -> p ∈ l' -> i = j.
Proof.
  intros Hi Hj Hp Hp'.
  destruct (rr_elem _ _ _ Hi Hp) as (x & Hx & _ & Hd).
  destruct (rr_elem _ _ _ Hj Hp') as (y & Hy & _ & Hd'). naive_solver lia.
Qed.

Lemma rr_not_on p x i l : procs st !! p = Some x -> on_runq x = false -> qs !! i = Some l -> p ∉ l.
Proof.
  intros Hx Hoff Hi Hp. destruct (rr_elem _ _ _ Hi Hp) as (y & Hy & Hon & _). congruence.
Qed.
End repr.

(** ** Running the primitive steps *)
Lemma getp_Ret p x st : procs st !! p = Some x -> getp p st = Ret x st.
Proof. intros H. unfold getp. by rewrite H. Qed.

Lemma modp_Ret p f st :
  is_Some (procs st !! p) -> modp p f st = Ret tt (set_procs (alter f p (procs st)) st).
Proof. intros [x Hx]. unfold modp. by rewrite (bind_Ret _ _ _ _ _ (getp_Ret _ _ _ Hx)). Qed.

Lemma get_head_Ret i h st : runq_head st !! i = Some h -> get_head (Z.of_nat i) st = Ret h st.
Proof. intros H. unfold get_head. by rewrite aget_of_nat, H. Qed.

Lemma get_tail_Ret i t st : runq_tail st !! i = Some t -> get_tail (Z.of_nat i) st = Ret t st.
Proof. intros H. unfold get_tail. by rewrite aget_of_nat, H. Qed.

Lemma put_head_Ret i h st : is_Some (runq_head st !! i) ->
  put_head (Z.of_nat i) h st = Ret tt (set_heads (<[i := h]> (runq_head st)) st).
Proof.
  intros [x Hx]. unfold put_head. rewrite (bind_Ret _ _ _ _ _ (get_head_Ret _ _ _ Hx)).
  unfold modify. by rewrite aset_of_nat.
Qed.

Lemma put_tail_Ret i h st : is_Some (runq_tail st !! i) ->
  put_tail (Z.of_nat i) h st = Ret tt (set_tails (<[i := h]> (runq_tail st)) st).
Proof.
  intros [x Hx]. unfold put_tail. rewrite (bind_Ret _ _ _ _ _ (get_tail_Ret _ _ _ Hx)).
  unfold modify. by rewrite aset_of_nat.
Qed.

Lemma alter_is_Some {A} (f : A -> A) p q (l : list A) :
  is_Some (l !! q) -> is_Some (alter f p l !! q).
Proof. rewrite list_lookup_alter. intros [x Hx]. case_decide; subst; rewrite Hx; eauto. Qed.
#[local] Hint Resolve alter_is_Some mk_is_Some : kernel.

(** ** Enqueue *)

(** The state [runq_enqueue] leaves, with [t] the old tail of bucket [i]. *)
Definition enqueued (i : nat) (p : nat) (t : option nat) (st : runq) : runq :=
  let ps := alter (set_run_prev t) p (alter (set_run_next None) p
              (alter (set_dyn_priority (Z.of_nat i)) p (procs st))) in
  RunQ
    (alter (set_on_runq true) p
      match t with Some q => alter (set_run_next (Some p)) q ps | None => ps end)
    match t with Some _ => runq_head st | None => <[i := Some p]> (runq_head st) end
    (<[i := Some p]> (runq_tail st))
    (u64 (Z.lor (runq_bitmap st) (Z.shiftl 1 (Z.of_nat i)))).

Lemma runq_enqueue_run st p x i t :
  procs st !! p = Some x -> on_runq x = false -> runq_dyn x = Z.of_nat i ->
  is_Some (runq_head st !! i) -> runq_tail st !! i = Some t ->
  (forall q, t = Some q -> is_Some (procs st !! q)) ->
  runq_enqueue p st = Ret tt (enqueued i p t st).
Proof.
  intros Hx Hoff Hi Hh Ht Hq. unfold runq_enqueue. run getp_Ret. rewrite Hoff, Hi.
  do 2 run modp_Ret. run get_tail_Ret. run modp_Ret. run get_tail_Ret.
  destruct t as [q|].
  - pose proof (Hq q eq_refl). run modp_Ret. run put_tail_Ret.
    unfold modify, bind. run_last modp_Ret. done.
  - run put_head_Ret. run put_tail_Ret. unfold modify, bind. run_last modp_Ret. done.
Qed.

Lemma enqueued_self i p t st x :
  procs st !! p = Some x -> t <> Some p ->
  procs (enqueued i p t st) !! p =
    Some (SProc (priority x) (wait_time x) (cpu_time x) (Z.of_nat i) None t true).
Proof.
  intros Hx Ht. unfold enqueued. simpl. rewrite list_lookup_alter_eq.
  destruct t as [q|]; rewrite ?list_lookup_alter_ne by congruence;
    rewrite !list_lookup_alter_eq, Hx; done.
Qed.

Lemma enqueued_tail i p q st :
  p <> q -> procs (enqueued i p (Some q) st) !! q = set_run_next (Some p) <$> procs st !! q.
Proof.
  intros Hne. unfold enqueued. simpl. rewrite list_lookup_alter_ne by done.
  rewrite list_lookup_alter_eq. by rewrite !list_lookup_alter_ne by done.
Qed.

Lemma enqueued_other i p t q st :
  p <> q -> t <> Some q -> procs (enqueued i p t st) !! q = procs st !! q.
Proof.
  intros Hne Ht. unfold enqueued. simpl. rewrite list_lookup_alter_ne by done.
  destruct t; by rewrite !list_lookup_alter_ne by congruence.
Qed.

Lemma enqueued_bits i st qs :
  rq_repr st qs -> (i < 21)%nat ->
  let bm := u64 (Z.lor (runq_bitmap st) (Z.shiftl 1 (Z.of_nat i))) in
  0 <= bm < 2 ^ 21 /\
  forall j : nat, Z.testbit bm (Z.of_nat j) = (bool_decide (j = i) || Z.testbit (runq_bitmap st) (Z.of_nat j))%bool.
Proof.
  intros Hr Hi. simpl. pose proof (rr_bound _ _ Hr) as Hb.
  assert (0 <= Z.lor (runq_bitmap st) (Z.shiftl 1 (Z.of_nat i)) < 2 ^ 21) as Hor.
  { split; [apply Z.lor_nonneg; split; [lia|]; apply Z.shiftl_nonneg; lia|].
    apply Z.log2_lt_cancel. rewrite Z.log2_pow2, Z.log2_lor, Z.log2_shiftl by
      (try apply Z.shiftl_nonneg; lia).
    apply Z.max_lub_lt; [|change (Z.log2 1) with 0; lia].
    destruct (decide (runq_bitmap st = 0)) as [->|]; [done|].
    apply Z.log2_lt_pow2; lia. }
  rewrite u64_small by lia. split; [done|]. intros j.
  rewrite Z.lor_spec, Z.shiftl_1_l, Z.pow2_bits_eqb, orb_comm by lia. f_equal.
  apply Bool.eq_iff_eq_true. rewrite Z.eqb_eq, bool_decide_eq_true. lia.
Qed.

Section enqueue.
Context (st : runq) (qs : list (list nat)) (p i : nat) (x : sproc) (l : list nat).
Hypothesis Hr : rq_repr st qs.
Hypothesis Hx : procs st !! p = Some x.
Hypothesis Hoff : on_runq x = false.
Hypothesis Hi : qs !! i = Some l.
Let st' := enqueued i p (last l) st.

Lemma enqueue_p_notin : forall j l', qs !! j = Some l' -> p ∉ l'.
Proof. intros. by eapply rr_not_on. Qed.

Lemma enqueue_tail_ne : last l <> Some p.
Proof. intros H%last_elem. by apply (enqueue_p_notin i l). Qed.

Lemma enqueue_node_old j l1 q l2 :
  qs !! j = Some (l1 ++ q :: l2) -> (j = i -> l2 <> []) -> node_ok (procs st') j l1 q l2.
Proof.
  intros Hj Hl2. destruct (rr_node _ _ Hr _ _ _ _ Hj) as (y & Hy & Hon & Hd & Hp & Hn).
  assert (p <> q) by (intros <-; eapply (enqueue_p_notin j); [done|set_solver]).
  assert (last l <> Some q) as Hlast.
  { intros Hq. pose proof (last_elem _ _ Hq) as Hql.
    assert (j = i) as ->.
    { eapply (rr_same_bucket st qs Hr); [done|done| |done]. set_solver. }
    apply (Hl2 eq_refl). rewrite Hi in Hj. injection Hj as El. rewrite El in Hq.
    apply (NoDup_last_split l1 l2 q); [|done].
    rewrite <- El. by apply (rr_nodup _ _ Hr i). }
  exists y. unfold st'. rewrite enqueued_other by done. auto.
Qed.

Lemma enqueue_node_last l1 q : l = l1 ++ [q] -> node_ok (procs st') i l1 q [p].
Proof.
  intros El. pose proof Hi as Hi'. rewrite El in Hi'.
  destruct (rr_node _ _ Hr _ _ _ _ Hi') as (y & Hy & Hon & Hd & Hp & Hn).
  assert (p <> q) by (intros <-; eapply (enqueue_p_notin i); [done|set_solver]).
  exists (set_run_next (Some p) y). unfold st'. rewrite El, last_snoc, enqueued_tail, Hy by done. auto.
Qed.

Lemma enqueue_lt : (i < 21)%nat.
Proof. pose proof (lookup_lt_Some _ _ _ Hi) as Hlt. by rewrite (rr_len _ _ Hr) in Hlt. Qed.

Lemma enqueue_nodes j l1 q l2 :
  <[i := l ++ [p]]> qs !! j = Some (l1 ++ q :: l2) -> node_ok (procs st') j l1 q l2.
Proof.
  intros [[-> El]|[Hne Hj]]%list_insert_cases; [|by apply enqueue_node_old].
  apply eq_sym, app_cons_app_inv in El as [(c & El & ->)|(c & -> & Hc)].
  - destruct c as [|z c]; [by apply enqueue_node_last|].
    pose proof Hi as Hi'. rewrite El in Hi'. by apply (enqueue_node_old _ _ _ _ Hi').
  - destruct c as [|? [|]]; simpl in Hc; [|done..]. injection Hc as <- <-. rewrite app_nil_r.
    eexists. split; [by apply (enqueued_self _ _ _ _ x); [|apply enqueue_tail_ne]|]. done.
Qed.

Lemma enqueue_on q y : procs st' !! q = Some y -> on_runq y = true ->
  exists j l', <[i := l ++ [p]]> qs !! j = Some l' /\ q ∈ l'.
Proof.
  intros Hq Hon.
  assert (<[i := l ++ [p]]> qs !! i = Some (l ++ [p])) as Hnew.
  { apply list_lookup_insert_eq. rewrite (rr_len _ _ Hr). apply enqueue_lt. }
  destruct (decide (p = q)) as [<-|Hne].
  { exists i, (l ++ [p]). split; [done|]. apply elem_of_app. right. by apply list_elem_of_singleton. }
  assert (exists y', procs st !! q = Some y' /\ on_runq y' = true) as (y' & Hy' & Hon').
  { unfold st' in Hq. destruct (decide (last l = Some q)) as [El|].
    - rewrite El, enqueued_tail in Hq by done.
      destruct (procs st !! q) as [z|]; [|done]. injection Hq as <-. eauto.
    - rewrite enqueued_other in Hq by done. eauto. }
  destruct (rr_on _ _ Hr _ _ Hy' Hon') as (j & l' & Hj & Hin).
  destruct (decide (j = i)) as [->|].
  - exists i, (l ++ [p]). rewrite Hi in Hj. injection Hj as ->. split; [done|].
    apply elem_of_app. by left.
  - exists j, l'. by rewrite list_lookup_insert_ne.
Qed.

Lemma enqueued_repr : rq_repr st' (<[i := l ++ [p]]> qs).
Proof.
  pose proof enqueue_lt as Hlt. pose proof (enqueued_bits i st qs Hr Hlt) as [Hbd Hbits].
  constructor; try done.
  - unfold st', enqueued. simpl. destruct (last l); rewrite !length_alter; apply Hr.
  - unfold st', enqueued. simpl. destruct (last l); rewrite ?length_insert; apply Hr.
  - unfold st', enqueued. simpl. rewrite length_insert. apply Hr.
  - rewrite length_insert. apply Hr.
  - intros j l' [[-> ->]|[Hne Hj]]%list_insert_cases; unfold st', enqueued; simpl.
    + rewrite head_snoc. destruct (last l) eqn:El.
      * rewrite (rr_head _ _ Hr _ _ Hi). f_equal. by destruct l.
      * apply last_None in El. rewrite El. simpl.
        apply list_lookup_insert_eq. rewrite (rr_heads _ _ Hr). lia.
    + destruct (last l); [|rewrite list_lookup_insert_ne by done]; by apply Hr.
  - intros j l' [[-> ->]|[Hne Hj]]%list_insert_cases; unfold st', enqueued; simpl.
    + rewrite last_snoc. apply list_lookup_insert_eq. rewrite (rr_tails _ _ Hr). lia.
    + rewrite list_lookup_insert_ne by done. by apply Hr.
  - apply enqueue_nodes.
  - intros j l' [[-> ->]|[Hne Hj]]%list_insert_cases; [|by eapply (rr_nodup _ _ Hr)].
    apply NoDup_app. split; [by eapply (rr_nodup _ _ Hr)|]. split; [|apply NoDup_singleton].
    intros z Hz ->%list_elem_of_singleton. by apply (enqueue_p_notin i l).
  - apply enqueue_on.
  - intros j l' [[-> ->]|[Hne Hj]]%list_insert_cases; unfold st', enqueued; cbn [runq_bitmap]; rewrite Hbits.
    + rewrite bool_decide_true by done. by destruct l.
    + rewrite bool_decide_false by done. by apply Hr.
Qed.

Lemma enqueued_accounting : same_accounting st st'.
Proof.
  intros q. destruct (decide (p = q)) as [<-|Hne].
  - unfold st'. rewrite (enqueued_self _ _ _ _ x) by (done || apply enqueue_tail_ne). by rewrite Hx.
  - unfold st'. destruct (decide (last l = Some q)) as [El|].
    + rewrite El, enqueued_tail by done. by destruct (procs st !! q).
    + by rewrite enqueued_other.
Qed.
End enqueue.

(** ** Remove *)

(** The state [runq_remove] leaves, with [pr] and [nx] the neighbours of [p]. *)
Definition removed (i : nat) (p : nat) (pr nx : option nat) (st : runq) : runq :=
  let ps1 := match pr with Some q => alter (set_run_next nx) q (procs st) | None => procs st end in
  let ps2 := match nx with Some q => alter (set_run_prev pr) q ps1 | None => ps1 end in
  let hs := match pr with Some _ => runq_head st | None => <[i := nx]> (runq_head st) end in
  RunQ
    (alter (set_on_runq false) p (alter (set_run_next None) p (alter (set_run_prev None) p ps2)))
    hs
    match nx with Some _ => runq_tail st | None => <[i := pr]> (runq_tail st) end
    match hs !! i with
    | Some None => Z.land (runq_bitmap st) (u64 (Z.lnot (Z.shiftl 1 (Z.of_nat i))))
    | _ => runq_bitmap st
    end.

Lemma runq_remove_run st p x i :
  procs st !! p = Some x -> on_runq x = true -> dyn_priority x = Z.of_nat i ->
  is_Some (runq_head st !! i) -> is_Some (runq_tail st !! i) ->
  (forall q, run_prev x = Some q -> is_Some (procs st !! q)) ->
  (forall q, run_next x = Some q -> is_Some (procs st !! q)) ->
  runq_remove p st = Ret tt (removed i p (run_prev x) (run_next x) st).
Proof.
  intros Hx Hon Hi Hh Ht Hpr Hnx. unfold runq_remove, removed. run getp_Ret.
  rewrite Hon, Hi. simpl. pose proof (lookup_lt_is_Some_1 _ _ Hh) as Hlt.
  destruct (run_prev x) as [q|].
  - pose proof (Hpr q eq_refl). destruct Hh as [h Hh]. run modp_Ret.
    destruct (run_next x) as [q'|].
    + pose proof (Hnx q' eq_refl). do 4 run modp_Ret. run get_head_Ret.
      rewrite Hh. by destruct h.
    + run put_tail_Ret. do 3 run modp_Ret. run get_head_Ret. rewrite Hh. by destruct h.
  - run put_head_Ret.
    assert (<[i := run_next x]> (runq_head st) !! i = Some (run_next x)) as Hnew
      by (by apply list_lookup_insert_eq).
    rewrite Hnew. destruct (run_next x) as [q'|].
    + pose proof (Hnx q' eq_refl). do 4 run modp_Ret. by run get_head_Ret.
    + run put_tail_Ret. do 3 run modp_Ret. by run get_head_Ret.
Qed.

(** What removing [p] does to another process [q]. *)
Definition relink (pr nx : option nat) (q : nat) (y : sproc) : sproc :=
  let y := if decide (pr = Some q) then set_run_next nx y else y in
  if decide (nx = Some q) then set_run_prev pr y else y.

Lemma removed_other i p pr nx q st :
  p <> q -> procs (removed i p pr nx st) !! q = relink pr nx q <$> procs st !! q.
Proof.
  intros Hne. unfold removed, relink. simpl. rewrite !list_lookup_alter_ne by done.
  destruct nx as [n|], pr as [r|]; rewrite ?list_lookup_alter;
    repeat (case_decide; simplify_eq); rewrite ?list_lookup_alter;
    repeat (case_decide; simplify_eq); by destruct (procs st !! q).
Qed.

Lemma removed_self i p pr nx st x :
  procs st !! p = Some x -> pr <> Some p -> nx <> Some p ->
  procs (removed i p pr nx st) !! p =
    Some (SProc (priority x) (wait_time x) (cpu_time x) (dyn_priority x) None None false).
Proof.
  intros Hx Hpr Hnx. unfold removed. simpl. rewrite !list_lookup_alter_eq.
  destruct nx, pr; rewrite ?list_lookup_alter_ne by congruence; by rewrite Hx.
Qed.

Lemma relink_fields pr nx q y :
  on_runq (relink pr nx q y) = on_runq y /\ dyn_priority (relink pr nx q y) = dyn_priority y /\
  accounting (relink pr nx q y) = accounting y.
Proof. unfold relink. by repeat case_decide. Qed.

Lemma removed_bits i st qs b :
  rq_repr st qs -> (i < 21)%nat ->
  let bm := if b : bool then Z.land (runq_bitmap st) (u64 (Z.lnot (Z.shiftl 1 (Z.of_nat i))))
            else runq_bitmap st in
  0 <= bm < 2 ^ 21 /\
  forall j : nat, Z.testbit bm (Z.of_nat j) =
    (negb (b && bool_decide (j = i)) && Z.testbit (runq_bitmap st) (Z.of_nat j))%bool.
Proof.
  intros Hr Hi bm. pose proof (rr_bound _ _ Hr) as Hb. subst bm. destruct b; simpl; [|done].
  assert (forall j : nat, Z.testbit (Z.land (runq_bitmap st) (u64 (Z.lnot (Z.shiftl 1 (Z.of_nat i)))))
    (Z.of_nat j) = (negb (bool_decide (j = i)) && Z.testbit (runq_bitmap st) (Z.of_nat j))%bool) as Hbits.
  { intros j. unfold u64. rewrite Z.land_spec, <- Z.land_ones, Z.land_spec, Z.lnot_spec by lia.
    rewrite Z.shiftl_1_l, Z.pow2_bits_eqb by lia.
    replace (Z.of_nat i =? Z.of_nat j) with (bool_decide (j = i)) by
      (apply Bool.eq_iff_eq_true; rewrite Z.eqb_eq, bool_decide_eq_true; lia).
    destruct (decide (j < 64)%nat).
    - rewrite (Z.ones_spec_low 64) by lia. by rewrite andb_true_r, andb_comm.
    - rewrite (Z.bits_above_log2 (runq_bitmap st)); [by rewrite !andb_false_r|lia|].
      destruct (decide (runq_bitmap st = 0)) as [->|]; [simpl; lia|].
      assert (Z.log2 (runq_bitmap st) < 21); [|lia]. apply Z.log2_lt_pow2; lia. }
  split; [|done]. split; [apply Z.land_nonneg; lia|].
  eapply Z.le_lt_trans; [|exact (proj2 Hb)].
  apply land_le_l. lia.
Qed.

Section remove.
Context (st : runq) (qs : list (list nat)) (p i : nat) (x : sproc) (l1 l2 : list nat).
Hypothesis Hr : rq_repr st qs.
Hypothesis Hx : procs st !! p = Some x.
Hypothesis Hi : qs !! i = Some (l1 ++ p :: l2).
Let st' := removed i p (last l1) (head l2) st.
Let qs' := <[i := l1 ++ l2]> qs.

Lemma remove_nodup : NoDup (l1 ++ p :: l2).
Proof. by apply (rr_nodup _ _ Hr i). Qed.

Lemma remove_notin : p ∉ l1 ++ l2.
Proof.
  pose proof remove_nodup as H. rewrite <- Permutation_middle in H. by apply NoDup_cons in H as [H _].
Qed.

Lemma remove_neighbours : last l1 <> Some p /\ head l2 <> Some p.
Proof.
  pose proof remove_notin as Hn. rewrite elem_of_app in Hn.
  split; [intros H%last_elem|intros H%head_elem]; tauto.
Qed.

Lemma remove_lt : (i < 21)%nat.
Proof. pose proof (lookup_lt_Some _ _ _ Hi) as Hlt. by rewrite (rr_len _ _ Hr) in Hlt. Qed.

(** A neighbour of [p] is in the bucket of [p]. *)
Lemma remove_other_bucket j l q :
  qs !! j = Some l -> q ∈ l -> j <> i -> last l1 <> Some q /\ head l2 <> Some q.
Proof.
  intros Hj Hq Hne.
  split; [intros H%last_elem|intros H%head_elem]; apply Hne;
    eapply (rr_same_bucket st qs Hr); try done; apply elem_of_app; rewrite elem_of_cons; tauto.
Qed.

Lemma remove_node_before a q c :
  l1 = a ++ q :: c -> node_ok (procs st') i a q (c ++ l2).
Proof.
  intros El. pose proof remove_nodup as Hnd. pose proof remove_notin as Hn.
  assert (qs !! i = Some (a ++ q :: (c ++ p :: l2))) as Hq
    by (by rewrite Hi, El, <- app_assoc).
  destruct (rr_node _ _ Hr _ _ _ _ Hq) as (y & Hy & Hon & Hd & Hp & Hnx).
  assert (p <> q) as Hpq by (intros <-; apply Hn; rewrite El, !elem_of_app, elem_of_cons; tauto).
  assert (head l2 <> Some q) as Hh.
  { intros H%head_elem. apply NoDup_app in Hnd as (_ & Hnd & _). apply (Hnd q);
      [rewrite El|]; rewrite ?elem_of_app, !elem_of_cons; tauto. }
  exists (relink (last l1) (head l2) q y).
  split; [unfold st'; by rewrite removed_other, Hy|].
  destruct (relink_fields (last l1) (head l2) q y) as (-> & -> & _). split; [done|]. split; [done|].
  unfold relink. rewrite (decide_False (P := head l2 = Some q)) by done.
  destruct c as [|z c]; simpl in *.
  - rewrite El, last_snoc, decide_True by done. done.
  - rewrite decide_False; [done|]. rewrite El. intros H.
    apply NoDup_app in Hnd as (Hnd & _). rewrite El in Hnd. by apply NoDup_last_split in H.
Qed.

Lemma remove_node_after a q b :
  l2 = a ++ q :: b -> node_ok (procs st') i (l1 ++ a) q b.
Proof.
  intros El. pose proof remove_nodup as Hnd. pose proof remove_notin as Hn.
  assert (qs !! i = Some ((l1 ++ p :: a) ++ q :: b)) as Hq
    by (by rewrite Hi, El, <- app_assoc).
  destruct (rr_node _ _ Hr _ _ _ _ Hq) as (y & Hy & Hon & Hd & Hp & Hnx).
  assert (p <> q) as Hpq by (intros <-; apply Hn; rewrite El, !elem_of_app, elem_of_cons; tauto).
  assert (last l1 <> Some q) as Hl.
  { intros H%last_elem. apply NoDup_app in Hnd as (_ & Hnd & _). apply (Hnd q);
      [done|]; rewrite El, elem_of_cons, elem_of_app, elem_of_cons; tauto. }
  exists (relink (last l1) (head l2) q y).
  split; [unfold st'; by rewrite removed_other, Hy|].
  destruct (relink_fields (last l1) (head l2) q y) as (-> & -> & _). split; [done|]. split; [done|].
  unfold relink. rewrite (decide_False (P := last l1 = Some q)) by done.
  destruct a as [|z a].
  - rewrite El, decide_True by done. simpl. by rewrite app_nil_r.
  - rewrite decide_False.
    + rewrite Hp, !last_app_cons. done.
    + rewrite El. simpl. intros [= ->]. apply NoDup_app in Hnd as (_ & _ & Hnd).
      apply NoDup_cons in Hnd as [_ Hnd]. rewrite El in Hnd.
      apply NoDup_cons in Hnd as [[] _]. apply elem_of_app. right. apply list_elem_of_here.
Qed.

Lemma remove_nodes j a q b : qs' !! j = Some (a ++ q :: b) -> node_ok (procs st') j a q b.
Proof.
  intros [[-> El]|[Hne Hj]]%list_insert_cases.
  - apply eq_sym, app_cons_app_inv in El as [(c & El & ->)|(c & -> & El)].
    + by apply remove_node_before.
    + by apply remove_node_after.
  - destruct (rr_node _ _ Hr _ _ _ _ Hj) as (y & Hy & Hon & Hd & Hp & Hnx).
    assert (q ∈ a ++ q :: b) as Hq by (apply elem_of_app; right; apply list_elem_of_here).
    destruct (remove_other_bucket j _ q Hj Hq Hne) as [Hl Hh].
    assert (p <> q) as Hpq.
    { intros <-. apply Hne. eapply (rr_same_bucket st qs Hr); try done.
      apply elem_of_app. right. apply list_elem_of_here. }
    exists (relink (last l1) (head l2) q y).
    split; [unfold st'; by rewrite removed_other, Hy|].
    unfold relink. rewrite !decide_False by done. done.
Qed.

Lemma remove_head_new :
  runq_head st' !! i = Some (head (l1 ++ l2)) /\ runq_tail st' !! i = Some (last (l1 ++ l2)).
Proof.
  pose proof remove_lt as Hlt. pose proof (rr_head _ _ Hr _ _ Hi) as Hh.
  pose proof (rr_tail _ _ Hr _ _ Hi) as Ht. unfold st', removed. simpl. split.
  - destruct (last l1) eqn:El.
    + rewrite Hh. f_equal. by destruct l1.
    + apply last_None in El. rewrite El. simpl.
      apply list_lookup_insert_eq. rewrite (rr_heads _ _ Hr). lia.
  - destruct l2 as [|z l2'] eqn:El; simpl.
    + rewrite app_nil_r. apply list_lookup_insert_eq. rewrite (rr_tails _ _ Hr). lia.
    + rewrite Ht, !last_app_cons. done.
Qed.

Lemma remove_on q y : procs st' !! q = Some y -> on_runq y = true ->
  exists j l', qs' !! j = Some l' /\ q ∈ l'.
Proof.
  intros Hq Hon. destruct remove_neighbours as [Hpr Hnx].
  destruct (decide (p = q)) as [<-|Hne].
  { unfold st' in Hq. rewrite (removed_self _ _ _ _ _ x) in Hq by done. by injection Hq as <-. }
  unfold st' in Hq. rewrite removed_other in Hq by done.
  destruct (procs st !! q) as [y'|] eqn:Hy'; [|done]. injection Hq as <-.
  destruct (relink_fields (last l1) (head l2) q y') as (Hon' & _). rewrite Hon' in Hon.
  destruct (rr_on _ _ Hr _ _ Hy' Hon) as (j & l' & Hj & Hin).
  unfold qs'. destruct (decide (j = i)) as [->|].
  - exists i, (l1 ++ l2). split; [apply list_lookup_insert_eq; rewrite (rr_len _ _ Hr); apply remove_lt|].
    rewrite Hi in Hj. injection Hj as <-.
    rewrite elem_of_app, elem_of_cons in Hin. rewrite elem_of_app.
    destruct Hin as [?|[->|?]]; [by left|done|by right].
  - exists j, l'. by rewrite list_lookup_insert_ne.
Qed.

Lemma remove_bitmap :
  runq_bitmap st' = if bool_decide (l1 ++ l2 = [])
    then Z.land (runq_bitmap st) (u64 (Z.lnot (Z.shiftl 1 (Z.of_nat i)))) else runq_bitmap st.
Proof.
  destruct remove_head_new as [Hh _]. unfold st', removed in Hh |- *. simpl in Hh |- *.
  rewrite Hh. by destruct (l1 ++ l2).
Qed.

Lemma removed_repr : rq_repr st' qs'.
Proof.
  pose proof remove_lt as Hlt. destruct remove_head_new as [Hnh Hnt].
  destruct (removed_bits i st qs (bool_decide (l1 ++ l2 = [])) Hr Hlt) as [Hbd Hbits].
  rewrite <- remove_bitmap in Hbd, Hbits.
  constructor; try done.
  - unfold st', removed. simpl. destruct (last l1), (head l2); rewrite !length_alter; apply Hr.
  - unfold st', removed. simpl. destruct (last l1); rewrite ?length_insert; apply Hr.
  - unfold st', removed. simpl. destruct (head l2); rewrite ?length_insert; apply Hr.
  - unfold qs'. rewrite length_insert. apply Hr.
  - intros j l' [[-> ->]|[Hne Hj]]%list_insert_cases; [done|].
    unfold st', removed; simpl. destruct (last l1); [|rewrite list_lookup_insert_ne by done]; by apply Hr.
  - intros j l' [[-> ->]|[Hne Hj]]%list_insert_cases; [done|].
    unfold st', removed; simpl. destruct (head l2); [|rewrite list_lookup_insert_ne by done]; by apply Hr.
  - apply remove_nodes.
  - intros j l' [[-> ->]|[Hne Hj]]%list_insert_cases; [|by eapply (rr_nodup _ _ Hr)].
    pose proof remove_nodup as H. rewrite <- Permutation_middle in H. by apply NoDup_cons in H as [_ H].
  - apply remove_on.
  - intros j l' [[-> ->]|[Hne Hj]]%list_insert_cases; rewrite Hbits.
    + rewrite (rr_bits _ _ Hr _ _ Hi), (bool_decide_true (i = i)) by done.
      rewrite andb_true_r, (bool_decide_false (l1 ++ p :: l2 = [])) by (by destruct l1).
      by rewrite andb_true_r.
    + rewrite (bool_decide_false (j = i)) by done. rewrite andb_false_r. by apply Hr.
Qed.

Lemma removed_accounting : same_accounting st st'.
Proof.
  destruct remove_neighbours as [Hpr Hnx]. intros q. unfold st'. destruct (decide (p = q)) as [<-|Hne].
  - by rewrite (removed_self _ _ _ _ _ x), Hx.
  - rewrite removed_other by done. destruct (procs st !! q) as [y|]; [|done]. simpl.
    by destruct (relink_fields (last l1) (head l2) q y) as (_ & _ & ->).
Qed.
End remove.

(** ** Refinement of the operations *)

(** The effect of [runq_enqueue]. *)
Lemma runq_enqueue_spec st qs p x :
  rq_repr st qs -> procs st !! p = Some x ->
  exists st', runq_enqueue p st = Ret tt st' /\ same_accounting st st' /\
    if on_runq x then st' = st
    else exists l, qs !! Z.to_nat (runq_dyn x) = Some l /\
         rq_repr st' (<[Z.to_nat (runq_dyn x) := l ++ [p]]> qs).
Proof.
  intros Hr Hx. destruct (on_runq x) eqn:Hon.
  { exists st. unfold runq_enqueue. run getp_Ret. rewrite Hon. done. }
  pose proof (runq_dyn_range x) as Hd. set (i := Z.to_nat (runq_dyn x)).
  assert ((i < length qs)%nat) as Hlt by (rewrite (rr_len _ _ Hr); lia).
  destruct (lookup_lt_is_Some_2 _ _ Hlt) as [l Hi].
  exists (enqueued i p (last l) st). split; [|split].
  - apply (runq_enqueue_run st p x); try done; [lia| | |].
    + rewrite (rr_head _ _ Hr _ _ Hi). eauto.
    + by apply Hr.
    + intros q Hq%last_elem. destruct (rr_elem _ _ Hr _ _ _ Hi Hq) as (y & -> & _). eauto.
  - by eapply enqueued_accounting.
  - exists l. split; [done|]. by eapply enqueued_repr.
Qed.

(** The effect of [runq_remove] on a queued process. *)
Lemma runq_remove_spec st qs p x :
  rq_repr st qs -> procs st !! p = Some x -> on_runq x = true ->
  exists i l1 l2, qs !! i = Some (l1 ++ p :: l2) /\ dyn_priority x = Z.of_nat i /\
    run_next x = head l2 /\
    runq_remove p st = Ret tt (removed i p (last l1) (head l2) st) /\
    rq_repr (removed i p (last l1) (head l2) st) (<[i := l1 ++ l2]> qs) /\
    same_accounting st (removed i p (last l1) (head l2) st).
Proof.
  intros Hr Hx Hon. destruct (rr_find _ _ Hr _ _ Hx Hon) as (i & l1 & l2 & Hi & Hd & Hp & Hn).
  exists i, l1, l2. split; [done|]. split; [done|]. split; [done|]. split; [|split].
  - rewrite <- Hp, <- Hn. apply (runq_remove_run st p x i); try done.
    + rewrite (rr_head _ _ Hr _ _ Hi). eauto.
    + rewrite (rr_tail _ _ Hr _ _ Hi). eauto.
    + rewrite Hp. intros q Hq%last_elem.
      destruct (rr_elem _ _ Hr _ _ q Hi) as (y & -> & _); [apply elem_of_app; by left|eauto].
    + rewrite Hn. intros q Hq%head_elem.
      destruct (rr_elem _ _ Hr _ _ q Hi) as (y & -> & _);
        [rewrite elem_of_app, elem_of_cons; tauto|eauto].
  - by eapply removed_repr.
  - by eapply removed_accounting.
Qed.

(** The first non-empty bucket is the lowest bit of the bitmap. *)
Lemma ctz64_first_bucket st qs i l :
  rq_repr st qs -> qs !! i = Some l -> l <> [] ->
  (forall j l', (j < i)%nat -> qs !! j = Some l' -> l' = []) ->
  forall s : runq, ctz64 (runq_bitmap st) s = Ret (Z.of_nat i) s.
Proof.
  intros Hr Hi Hne Hlow s. pose proof (rr_bound _ _ Hr).
  pose proof (lookup_lt_Some _ _ _ Hi) as Hlt. rewrite (rr_len _ _ Hr) in Hlt.
  apply ctz64_lowest; [lia|lia| |].
  - by rewrite (rr_bits _ _ Hr _ _ Hi), bool_decide_false.
  - intros j Hj. rewrite <- (Z2Nat.id j) by lia.
    assert ((Z.to_nat j < length qs)%nat) as Hjl by (rewrite (rr_len _ _ Hr); lia).
    destruct (lookup_lt_is_Some_2 _ _ Hjl) as [l' Hl'].
    rewrite (rr_bits _ _ Hr _ _ Hl'), bool_decide_true; [done|]. eapply Hlow; [|done]. lia.
Qed.

Lemma rr_empty_bitmap st qs :
  rq_repr st qs -> runq_bitmap st = 0 <-> forall i l, qs !! i = Some l -> l = [].
Proof.
  intros Hr. split.
  - intros Hz i l Hi. pose proof (rr_bits _ _ Hr _ _ Hi) as Hb. rewrite Hz, Z.bits_0 in Hb.
    symmetry in Hb. apply negb_false_iff, bool_decide_eq_true in Hb. done.
  - intros Hall. pose proof (rr_bound _ _ Hr). apply Z.bits_inj'. intros n Hn. rewrite Z.bits_0.
    destruct (decide (n < 21)).
    + rewrite <- (Z2Nat.id n) by lia.
      assert ((Z.to_nat n < length qs)%nat) as Hjl by (rewrite (rr_len _ _ Hr); lia).
      destruct (lookup_lt_is_Some_2 _ _ Hjl) as [l' Hl'].
      rewrite (rr_bits _ _ Hr _ _ Hl'), bool_decide_true; [done|]. by eapply Hall.
    + destruct (decide (runq_bitmap st = 0)) as [->|]; [apply Z.bits_0|].
      apply Z.bits_above_log2; [lia|]. assert (Z.log2 (runq_bitmap st) < 21); [|lia].
      apply Z.log2_lt_pow2; lia.
Qed.

(** The effect of [runq_pick]. *)
Lemma runq_pick_spec st qs :
  rq_repr st qs ->
  (runq_pick st = Ret None st /\ forall i l, qs !! i = Some l -> l = []) \/
  (exists i p l st', runq_pick st = Ret (Some p) st' /\ qs !! i = Some (p :: l) /\
     (forall j l', (j < i)%nat -> qs !! j = Some l' -> l' = []) /\
     rq_repr st' (<[i := l]> qs) /\ same_accounting st st').
Proof.
  intros Hr. unfold runq_pick. destruct (decide (runq_bitmap st = 0)) as [Hz|Hnz].
  { left. unfold gets, bind. rewrite Hz. simpl. split; [done|]. by apply (rr_empty_bitmap st). }
  right. destruct (list_find (fun l : list nat => l <> []) qs) as [[i l]|] eqn:Hf.
  2:{ destruct Hnz. apply (rr_empty_bitmap _ _ Hr). intros i l Hi.
      apply list_find_None in Hf. rewrite Forall_lookup in Hf. specialize (Hf _ _ Hi).
      destruct l; [done|]. destruct Hf. done. }
  apply list_find_Some in Hf as (Hi & Hne & Hlow). destruct l as [|p l]; [done|].
  assert (forall j l', (j < i)%nat -> qs !! j = Some l' -> l' = []) as Hlow'.
  { intros j l' Hj Hl'. specialize (Hlow _ _ Hl' Hj). destruct l'; [done|]. by destruct Hlow. }
  destruct (rr_node _ _ Hr i [] p l Hi) as (x & Hx & Hon & Hd & _).
  destruct (runq_remove_spec _ _ _ _ Hr Hx Hon) as (j & l1 & l2 & Hj & Hdj & _ & Hrun & Hr' & Hacc).
  assert (j = i) as -> by lia. rewrite Hi in Hj. injection Hj as Hl.
  assert (l1 = [] /\ l2 = l) as [-> ->].
  { pose proof (rr_nodup _ _ Hr _ _ Hi) as Hnd. rewrite Hl in Hnd.
    apply NoDup_head_split in Hnd; [|by rewrite <- Hl]. subst. simpl in Hl. naive_solver. }
  exists i, p, l. eexists. split; [|split; [done|split; [done|split; [exact Hr'|exact Hacc]]]].
  unfold gets at 1. unfold bind at 1. rewrite (proj2 (Z.eqb_neq _ _) Hnz).
  erewrite bind_Ret; [|by apply (ctz64_first_bucket st qs i (p :: l))].
  erewrite bind_Ret; [|by apply get_head_Ret, (rr_head _ _ Hr _ _ Hi)]. simpl.
  by erewrite bind_Ret.
Qed.

(** ** Initialisation *)
Lemma rq_repr_empty st :
  length (procs st) = NPROC -> length (runq_head st) = 21%nat -> length (runq_tail st) = 21%nat ->
  (forall p x, procs st !! p = Some x -> on_runq x = false) ->
  (forall j, (j < 21)%nat -> runq_head st !! j = Some None /\ runq_tail st !! j = Some None) ->
  runq_bitmap st = 0 -> rq_repr st (replicate 21 []).
Proof.
  intros Hp Hh Ht Hoff Hall Hbm.
  assert (forall i l, replicate 21 (@nil nat) !! i = Some l -> l = [] /\ (i < 21)%nat) as Hrep
    by (intros i l Hi%lookup_replicate; done).
  constructor; try done.
  - intros i l [-> Hi]%Hrep. by apply Hall.
  - intros i l [-> Hi]%Hrep. by apply Hall.
  - intros i l1 p l2 [Hl _]%Hrep. by destruct l1.
  - intros i l [-> _]%Hrep. constructor.
  - intros p x Hx Hon. by rewrite (Hoff _ _ Hx) in Hon.
  - intros i l [-> _]%Hrep. by rewrite Hbm, Z.bits_0.
  - rewrite Hbm. lia.
Qed.

Lemma runq_init_refines st :
  length (procs st) = NPROC -> length (runq_head st) = 21%nat -> length (runq_tail st) = 21%nat ->
  (forall p x, procs st !! p = Some x -> on_runq x = false) ->
  exists st', runq_init st = Ret tt st' /\ procs st' = procs st /\ rq_repr st' (replicate 21 []).
Proof.
  intros Hp Hh Ht Hoff. unfold runq_init.
  destruct (for_loop_inv (fun i s => procs s = procs st /\ length (runq_head s) = 21%nat /\
      length (runq_tail s) = 21%nat /\
      forall j : nat, Z.of_nat j < i -> runq_head s !! j = Some None /\ runq_tail s !! j = Some None)
    (fun i => put_tail i None ;;; put_head i None) 21 0 st) as (s & Hrun & Hps & Hh' & Ht' & Hall).
  { repeat split; try done; lia. }
  { intros i s Hi (Hps & Hh' & Ht' & Hall). rewrite <- (Z2Nat.id i) by lia.
    set (n := Z.to_nat i). assert ((n < 21)%nat) by lia.
    assert (is_Some (runq_head s !! n)) by (apply lookup_lt_is_Some_2; lia).
    assert (is_Some (runq_tail s !! n)) by (apply lookup_lt_is_Some_2; lia).
    run put_tail_Ret. run_last put_head_Ret.
    eexists. split; [done|]. simpl. rewrite !length_insert. repeat split; try done.
    all: destruct (decide (j = n)) as [->|]; [by apply list_lookup_insert_eq; lia|].
    all: rewrite list_lookup_insert_ne by done; apply Hall; lia. }
  exists (set_bitmap 0 s). rewrite (bind_Ret _ _ _ _ _ Hrun). split; [done|]. split; [done|].
  apply rq_repr_empty; simpl; try done; try congruence.
  - intros p x. rewrite Hps. apply Hoff.
  - intros j Hj. apply Hall. lia.
Qed.

(** ** The clock tick *)

(** The representation only depends on the link fields of the processes. *)
Definition links (x : sproc) := (dyn_priority x, run_next x, run_prev x, on_runq x).
Definition same_links (st st' : runq) : Prop :=
  forall q, links <$> (procs st' !! q) = links <$> (procs st !! q).

Lemma rq_repr_links st qs ps :
  rq_repr st qs -> same_links st (set_procs ps st) -> rq_repr (set_procs ps st) qs.
Proof.
  intros Hr Hl. unfold same_links in Hl. simpl in Hl.
  assert (forall q x, procs st !! q = Some x -> exists y, ps !! q = Some y /\ links y = links x) as Hl1.
  { intros q x Hq. specialize (Hl q). rewrite Hq in Hl. destruct (ps !! q); [|done].
    injection Hl as ?. unfold links. eexists. split; [done|]. congruence. }
  constructor; simpl; try apply Hr.
  - rewrite <- (rr_procs _ _ Hr).
    assert (forall n, is_Some (ps !! n) <-> is_Some (procs st !! n)) as Hs.
    { intros n. rewrite <- (fmap_is_Some links), Hl. apply fmap_is_Some. }
    destruct (Nat.lt_trichotomy (length ps) (length (procs st))) as [Hlt|[?|Hlt]]; [|done|].
    + apply lookup_lt_is_Some_2, Hs, lookup_lt_is_Some_1 in Hlt. lia.
    + apply lookup_lt_is_Some_2, Hs, lookup_lt_is_Some_1 in Hlt. lia.
  - intros i l1 p l2 Hi. destruct (rr_node _ _ Hr _ _ _ _ Hi) as (x & Hx & ? & ? & ? & ?).
    destruct (Hl1 _ _ Hx) as (y & Hy & Hlk). injection Hlk as ? ? ? ?.
    exists y. repeat split; congruence.
  - intros p y Hy Hon. specialize (Hl p). rewrite Hy in Hl.
    destruct (procs st !! p) as [x|] eqn:Hx; [|done]. injection Hl as ? ? ? ?.
    apply (rr_on _ _ Hr p x); congruence.
Qed.

Definition aged (x : sproc) : sproc := set_wait_time (s32 (wait_time x + 1)) x.

(** The walk of step 1 along the rest [l2] of a bucket ages exactly [l2]. *)
Lemma age_queue_spec l2 : forall fuel i l1 st qs,
  rq_repr st qs -> qs !! i = Some (l1 ++ l2) -> (length l2 <= fuel)%nat ->
  exists ps, age_queue fuel (head l2) st = Ret tt (set_procs ps st) /\
    rq_repr (set_procs ps st) qs /\
    forall q, ps !! q = (if decide (q ∈ l2) then aged else id) <$> procs st !! q.
Proof.
  induction l2 as [|p l2 IH]; intros fuel i l1 st qs Hr Hi Hf.
  { exists (procs st). destruct st. destruct fuel; simpl; (split; [done|]); (split; [done|]);
      intros q; by rewrite option_fmap_id. }
  destruct fuel as [|fuel]; simpl in Hf; [lia|]. simpl.
  destruct (rr_node _ _ Hr _ _ _ _ Hi) as (x & Hx & Hon & Hd & Hp & Hn).
  change (fun x0 : sproc => set_wait_time (s32 (wait_time x0 + 1)) x0) with aged.
  run modp_Ret. set (ps1 := alter aged p (procs st)).
  assert (ps1 !! p = Some (aged x)) as Hx1 by (unfold ps1; by rewrite list_lookup_alter_eq, Hx).
  run getp_Ret. rewrite Hn.
  assert (rq_repr (set_procs ps1 st) qs) as Hr1.
  { apply rq_repr_links; [done|]. intros q. simpl. unfold ps1. rewrite list_lookup_alter.
    case_decide; [subst|done]. by destruct (procs st !! q). }
  assert (qs !! i = Some ((l1 ++ [p]) ++ l2)) as Hi1 by (by rewrite <- app_assoc).
  destruct (IH fuel i (l1 ++ [p]) (set_procs ps1 st) qs Hr1 Hi1) as (ps & Hrun & Hr2 & Hps); [lia|].
  exists ps. split; [done|]. split; [done|]. intros q. rewrite Hps. simpl. unfold ps1.
  rewrite list_lookup_alter. pose proof (rr_nodup _ _ Hr _ _ Hi) as Hnd.
  apply NoDup_app in Hnd as (_ & _ & Hnd). apply NoDup_cons in Hnd as [Hnp _].
  destruct (decide (p = q)) as [<-|Hne].
  - rewrite decide_False, decide_True by (done || apply list_elem_of_here). by destruct (procs st !! p).
  - rewrite (decide_ext (q ∈ p :: l2) (q ∈ l2)); [done|]. rewrite elem_of_cons.
    split; [by intros [->|?]|by right].
Qed.

Lemma rr_bucket_length st qs i l : rq_repr st qs -> qs !! i = Some l -> (length l <= NPROC)%nat.
Proof.
  intros Hr Hi. apply NoDup_bounded_length; [by eapply rr_nodup|].
  intros p Hp. destruct (rr_elem _ _ Hr _ _ _ Hi Hp) as (x & Hx & _).
  rewrite <- (rr_procs _ _ Hr). by eapply lookup_lt_Some.
Qed.

(** Step 1 of the tick: every queued process has waited one tick more. *)
Lemma age_all st qs :
  rq_repr st qs ->
  exists ps, for_loop 21 0 (fun i => let* h := get_head i in age_queue NPROC h) st =
      Ret tt (set_procs ps st) /\ rq_repr (set_procs ps st) qs /\
    forall q x, procs st !! q = Some x -> ps !! q = Some (if on_runq x then aged x else x).
Proof.
  intros Hr.
  destruct (for_loop_inv (fun n s => exists ps, s = set_procs ps st /\ rq_repr s qs /\
      forall q x, procs st !! q = Some x ->
        ps !! q = Some (if on_runq x && (dyn_priority x <? n) then aged x else x)%bool)
    (fun i => let* h := get_head i in age_queue NPROC h) 21 0 st) as (s & Hrun & ps & -> & Hr' & Hps).
  - exists (procs st). split; [by destruct st|]. split; [done|]. intros q x Hq. rewrite Hq.
    destruct (on_runq x) eqn:Hon; [|done].
    destruct (rr_find _ _ Hr _ _ Hq Hon) as (i & ? & ? & _ & -> & _). simpl.
    destruct (Z.ltb_spec (Z.of_nat i) 0); [lia|done].
  - intros i s Hi (ps & -> & Hr1 & Hps). destruct (Z_of_nat_complete i) as [n ->]; [lia|].
    assert (is_Some (qs !! n)) as [l Hl] by (apply lookup_lt_is_Some_2; rewrite (rr_len _ _ Hr); lia).
    erewrite bind_Ret; [|by apply get_head_Ret, (rr_head _ _ Hr1 _ _ Hl)]. cbv beta.
    destruct (age_queue_spec l NPROC n [] _ _ Hr1 Hl (rr_bucket_length _ _ _ _ Hr1 Hl))
      as (ps' & Hrun & Hr2 & Hps').
    exists (set_procs ps' st). split; [done|]. exists ps'. split; [done|]. split; [done|].
    intros q x Hq. rewrite Hps'. simpl. rewrite (Hps _ _ Hq). simpl. f_equal.
    destruct (on_runq x) eqn:Hon; simpl.
    + destruct (rr_find _ _ Hr _ _ Hq Hon) as (j & l1 & l2 & Hj & Hd & _).
      destruct (decide (q ∈ l)) as [Hin|Hnin].
      * assert (j = n) as ->. { eapply (rr_same_bucket _ _ Hr); try done.
          apply elem_of_app. right. apply list_elem_of_here. }
        destruct (Z.ltb_spec (dyn_priority x) (Z.of_nat n)), (Z.ltb_spec (dyn_priority x) (Z.of_nat n + 1));
          (lia || done).
      * assert (j <> n). { intros ->. rewrite Hl in Hj. injection Hj as ->. apply Hnin, elem_of_app.
          right. apply list_elem_of_here. }
        destruct (Z.ltb_spec (dyn_priority x) (Z.of_nat n)), (Z.ltb_spec (dyn_priority x) (Z.of_nat n + 1));
          (lia || done).
    + rewrite decide_False; [done|]. by apply (rr_not_on st qs Hr q x n l).
  - exists ps. split; [done|]. split; [done|]. intros q x Hq. rewrite (Hps _ _ Hq).
    destruct (on_runq x) eqn:Hon; [|done]. destruct (rr_find _ _ Hr _ _ Hq Hon) as (i & ? & ? & Hi & -> & _).
    apply lookup_lt_Some in Hi. rewrite (rr_len _ _ Hr) in Hi. simpl.
    destruct (Z.ltb_spec (Z.of_nat i) (0 + Z.of_nat 21)); [done|lia].
Qed.

(** Every process of bucket [i] has dynamic priority [i]. *)
Definition bucket_sorted (st : runq) (i : nat) (l : list nat) : Prop :=
  forall p x, p ∈ l -> procs st !! p = Some x -> runq_dyn x = Z.of_nat i.

Lemma bucket_sorted_accounting st st' i l :
  same_accounting st st' -> bucket_sorted st i l -> bucket_sorted st' i l.
Proof.
  intros Ha Hs p x Hp Hx. specialize (Ha p). rewrite Hx in Ha.
  destruct (procs st !! p) as [y|] eqn:Hy; [|done]. injection Ha as ?.
  rewrite <- (Hs p y Hp Hy). apply runq_dyn_accounting. unfold accounting. congruence.
Qed.

Lemma same_accounting_trans s1 s2 s3 :
  same_accounting s1 s2 -> same_accounting s2 s3 -> same_accounting s1 s3.
Proof. intros H1 H2 q. by rewrite H1. Qed.

(** One move of step 2: a process whose dynamic priority changed goes from
    bucket [i] to the tail of the bucket it now belongs to. *)
Lemma rebucket_move st qs i l1 p l2 x :
  rq_repr st qs -> qs !! i = Some (l1 ++ p :: l2) -> procs st !! p = Some x ->
  runq_dyn x <> Z.of_nat i ->
  exists st' j lj, (runq_remove p ;;; runq_enqueue p) st = Ret tt st' /\
    runq_dyn x = Z.of_nat j /\ j <> i /\ qs !! j = Some lj /\
    rq_repr st' (<[j := lj ++ [p]]> (<[i := l1 ++ l2]> qs)) /\ same_accounting st st'.
Proof.
  intros Hr Hi Hx Hne. destruct (rr_node _ _ Hr _ _ _ _ Hi) as (x' & Hx' & Hon & Hd & _).
  rewrite Hx in Hx'. injection Hx' as <-.
  destruct (runq_remove_spec _ _ _ _ Hr Hx Hon) as (i' & l1' & l2' & Hi' & Hd' & _ & Hrun & Hr1 & Ha1).
  assert (i' = i) as -> by lia. rewrite Hi in Hi'. injection Hi' as El.
  pose proof (rr_nodup _ _ Hr _ _ Hi) as Hnd.
  assert (l1' ++ l2' = l1 ++ l2) as El'.
  { apply app_cons_app_inv in El as [(c & -> & ->)|(c & Hc1 & Hc2)].
    - exfalso. rewrite <- app_assoc in Hnd. apply NoDup_app in Hnd as (_ & _ & Hnd). simpl in Hnd.
      apply NoDup_cons in Hnd as [[] _]. apply elem_of_app. right. apply list_elem_of_here.
    - destruct c as [|z c]; simpl in Hc2.
      + rewrite app_nil_r in Hc1. subst. by injection Hc2 as ->.
      + exfalso. injection Hc2 as <- ->. apply NoDup_app in Hnd as (_ & _ & Hnd).
        apply NoDup_cons in Hnd as [[] _]. apply elem_of_app. right. apply list_elem_of_here. }
  set (s1 := removed i p (last l1') (head l2') st) in *.
  destruct (procs s1 !! p) as [y|] eqn:Hy.
  2:{ specialize (Ha1 p). by rewrite Hx, Hy in Ha1. }
  assert (on_runq y = false) as Hoff.
  { assert (last l1' <> Some p /\ head l2' <> Some p) as [Hn1 Hn2].
    { eapply (remove_neighbours st qs p i); [done|]. by rewrite Hi, El. }
    unfold s1 in Hy. rewrite (removed_self _ _ _ _ _ x) in Hy by done. by injection Hy as <-. }
  assert (runq_dyn y = runq_dyn x) as Hdy.
  { apply runq_dyn_accounting. specialize (Ha1 p). rewrite Hx, Hy in Ha1.
    injection Ha1 as ?. unfold accounting. congruence. }
  destruct (runq_enqueue_spec _ _ _ _ Hr1 Hy) as (st' & Hrun2 & Ha2 & Hres). rewrite Hoff, Hdy in Hres.
  pose proof (runq_dyn_range x). destruct Hres as (lj & Hj & Hr2).
  rewrite list_lookup_insert_ne in Hj by lia.
  exists st', (Z.to_nat (runq_dyn x)), lj. split; [by rewrite (bind_Ret _ _ _ _ _ Hrun)|].
  split; [lia|]. split; [lia|]. split; [done|]. rewrite <- El'. split; [done|].
  by eapply same_accounting_trans.
Qed.

Lemma perm_move {A} (ls : list (list A)) i j l1 p l2 lj :
  ls !! i = Some (l1 ++ p :: l2) -> j <> i -> ls !! j = Some lj ->
  concat (<[j := lj ++ [p]]> (<[i := l1 ++ l2]> ls)) ≡ₚ concat ls.
Proof.
  intros Hi Hne Hj. rewrite (concat_snoc_perm _ j lj).
  - by apply concat_remove_perm.
  - by rewrite list_lookup_insert_ne.
Qed.

(** The inner loop of step 2 on the rest [l2] of bucket [i]. *)
Lemma rebucket_queue_spec l2 : forall fuel i l1 st qs,
  rq_repr st qs -> qs !! i = Some (l1 ++ l2) -> (length l2 <= fuel)%nat ->
  bucket_sorted st i l1 ->
  (forall j l, (j < i)%nat -> qs !! j = Some l -> bucket_sorted st j l) ->
  exists st' qs', rebucket_queue fuel (Z.of_nat i) (head l2) st = Ret tt st' /\
    rq_repr st' qs' /\ same_accounting st st' /\ concat qs' ≡ₚ concat qs /\
    (forall j l, (j <= i)%nat -> qs' !! j = Some l -> bucket_sorted st' j l).
Proof.
  induction l2 as [|p l2 IH]; intros fuel i l1 st qs Hr Hi Hf Hl1 Hlow.
  { exists st, qs. rewrite app_nil_r in Hi. split; [by destruct fuel|]. split; [done|]. split; [done|].
    split; [done|]. intros j l Hj Hl. destruct (decide (j = i)) as [->|]; [naive_solver|].
    apply Hlow; [lia|done]. }
  destruct fuel as [|fuel]; simpl in Hf; [lia|]. simpl.
  destruct (rr_node _ _ Hr _ _ _ _ Hi) as (x & Hx & Hon & Hd & Hp & Hn).
  run getp_Ret. rewrite Hn. destruct (Z.eqb_spec (runq_dyn x) (Z.of_nat i)) as [Heq|Hne]; simpl.
  - unfold ret, bind. apply (IH fuel i (l1 ++ [p])); try done; [by rewrite <- app_assoc|lia|].
    intros q y [Hq| ->%list_elem_of_singleton]%elem_of_app Hy; [by eapply Hl1|congruence].
  - destruct (rebucket_move _ _ _ _ _ _ _ Hr Hi Hx Hne) as (s1 & j & lj & Hrun & Hdj & Hji & Hj & Hr1 & Ha1).
    unfold when. rewrite (bind_Ret _ _ _ _ _ Hrun).
    set (qs1 := <[j := lj ++ [p]]> (<[i := l1 ++ l2]> qs)) in *.
    pose proof (lookup_lt_Some _ _ _ Hi) as Hilt.
    assert (qs1 !! i = Some (l1 ++ l2)) as Hi1.
    { unfold qs1. rewrite list_lookup_insert_ne by done. by apply list_lookup_insert_eq. }
    destruct (IH fuel i l1 s1 qs1 Hr1 Hi1) as (st' & qs' & Hrun' & Hr' & Ha' & Hperm & Hs); [lia| | |].
    + by eapply bucket_sorted_accounting.
    + intros j' l Hj' [[-> ->]|[Hne' [[-> ->]|[_ Hl]]%list_insert_cases]]%list_insert_cases; [|lia|].
      * apply (bucket_sorted_accounting st); [done|].
        intros q y [Hq| ->%list_elem_of_singleton]%elem_of_app Hy; [by eapply Hlow|congruence].
      * eapply bucket_sorted_accounting; [done|]. by apply Hlow.
    + exists st', qs'. split; [done|]. split; [done|]. split; [by eapply same_accounting_trans|].
      split; [|done]. rewrite Hperm. by apply perm_move.
Qed.

(** Step 2 of the tick: every bucket holds exactly the processes whose dynamic
    priority is its index. *)
Lemma rebucket_all st qs :
  rq_repr st qs ->
  exists st' qs', for_loop 21 0 (fun i => let* h := get_head i in rebucket_queue NPROC i h) st = Ret tt st' /\
    rq_repr st' qs' /\ same_accounting st st' /\ concat qs' ≡ₚ concat qs /\
    forall j l, qs' !! j = Some l -> bucket_sorted st' j l.
Proof.
  intros Hr.
  destruct (for_loop_inv (fun n s => exists qs', rq_repr s qs' /\ same_accounting st s /\
      concat qs' ≡ₚ concat qs /\
      forall j l, Z.of_nat j < n -> qs' !! j = Some l -> bucket_sorted s j l)
    (fun i => let* h := get_head i in rebucket_queue NPROC i h) 21 0 st)
    as (st' & Hrun & qs' & Hr' & Ha & Hperm & Hs).
  - exists qs. split; [done|]. split; [done|]. split; [done|]. lia.
  - intros i s Hi (qs1 & Hr1 & Ha1 & Hp1 & Hs1). destruct (Z_of_nat_complete i) as [n ->]; [lia|].
    assert (is_Some (qs1 !! n)) as [l Hl] by (apply lookup_lt_is_Some_2; rewrite (rr_len _ _ Hr1); lia).
    erewrite bind_Ret; [|by apply get_head_Ret, (rr_head _ _ Hr1 _ _ Hl)]. cbv beta.
    destruct (rebucket_queue_spec l NPROC n [] s qs1) as (s2 & qs2 & Hrun & Hr2 & Ha2 & Hp2 & Hs2);
      [done|done|by eapply rr_bucket_length| | |].
    + intros p x Hp. by apply not_elem_of_nil in Hp.
    + intros j l' Hj. apply Hs1. lia.
    + exists s2. split; [done|]. exists qs2. split; [done|]. split; [by eapply same_accounting_trans|].
      split; [by rewrite Hp2|]. intros j l' Hj. apply Hs2. lia.
  - exists st', qs'. split; [done|]. split; [done|]. split; [done|]. split; [done|].
    intros j l Hl. apply Hs; [|done]. apply lookup_lt_Some in Hl. rewrite (rr_len _ _ Hr') in Hl. lia.
Qed.

(** The accounting a tick leaves a process with. *)
Definition ticked (r : option nat) (q : nat) (x : sproc) : Z * Z * Z :=
  (priority x,
   if on_runq x then s32 (wait_time x + 1) else wait_time x,
   if decide (r = Some q) then s32 (cpu_time x + 1) else cpu_time x).

(** The effect of a clock tick. *)
Lemma sched_tick_spec st qs r :
  rq_repr st qs -> (forall p, r = Some p -> (p < NPROC)%nat) ->
  exists st' qs', sched_tick r st = Ret tt st' /\ rq_repr st' qs' /\
    concat qs' ≡ₚ concat qs /\
    (forall q x, procs st !! q = Some x -> accounting <$> procs st' !! q = Some (ticked r q x)) /\
    (forall i l p x, qs' !! i = Some l -> p ∈ l -> r <> Some p ->
       procs st' !! p = Some x -> runq_dyn x = Z.of_nat i).
Proof.
  intros Hr Hrun. unfold sched_tick.
  destruct (age_all st qs Hr) as (ps & Hage & Hr1 & Hps). rewrite (bind_Ret _ _ _ _ _ Hage).
  destruct (rebucket_all _ _ Hr1) as (s2 & qs2 & Hreb & Hr2 & Ha2 & Hp2 & Hs2).
  rewrite (bind_Ret _ _ _ _ _ Hreb).
  assert (forall q x, procs st !! q = Some x -> accounting <$> procs s2 !! q = Some (ticked None q x)) as Hacc.
  { intros q x Hq. rewrite <- (Ha2 q). simpl. rewrite (Hps _ _ Hq). simpl. f_equal.
    unfold ticked. by destruct (on_runq x). }
  destruct r as [r|].
  - assert (is_Some (procs s2 !! r)) as [y Hy].
    { apply lookup_lt_is_Some_2. rewrite (rr_procs _ _ Hr2). by apply Hrun. }
    set (f := fun x : sproc => set_cpu_time (s32 (cpu_time x + 1)) x).
    rewrite modp_Ret by eauto. eexists _, qs2. split; [done|]. split; [|split; [done|split]].
    + apply rq_repr_links; [done|]. intros q. simpl. rewrite list_lookup_alter.
      case_decide; [subst|done]. by destruct (procs s2 !! q).
    + intros q x Hq. simpl. rewrite list_lookup_alter. specialize (Hacc _ _ Hq).
      unfold ticked in *. destruct (decide (r = q)) as [<-|Hne].
      * rewrite decide_True by done. rewrite Hy in Hacc |- *. injection Hacc as ? ? ?.
        simpl. unfold accounting. simpl. congruence.
      * rewrite decide_False by congruence. done.
    + intros i l p x Hi Hp Hne. simpl. rewrite list_lookup_alter_ne by congruence. by eapply Hs2.
  - exists s2, qs2. split; [done|]. split; [done|]. split; [done|]. split; [done|].
    intros i l p x Hi Hp _. by eapply Hs2.
Qed.

(** A clock tick returns, keeps the set of queued processes, adds one tick
    of waiting time to each of them and one tick of CPU time to the running
    process, and leaves every queued process that is not running in the bucket
    of its dynamic priority. *)
Theorem sched_tick_refines st qs r :
  rq_repr st qs -> (forall p, r = Some p -> (p < NPROC)%nat) ->
  exists st' qs', sched_tick r st = Ret tt st' /\ rq_repr st' qs' /\
    concat qs' ≡ₚ concat qs /\
    (forall q x, procs st !! q = Some x -> accounting <$> procs st' !! q = Some (ticked r q x)) /\
    (forall i l p x, qs' !! i = Some l -> p ∈ l -> r <> Some p ->
       procs st' !! p = Some x -> runq_dyn x = Z.of_nat i).
Proof. apply sched_tick_spec. Qed.

(** [ctz64] returns the position of the lowest set bit of every non-zero
    64-bit word: the multiplication by the de Bruijn constant and the table
    lookup are correct on all of them. *)
Theorem ctz64_correct x :
  0 < x < 2 ^ 64 ->
  exists k, ctz64 x tt = Ret k tt /\ 0 <= k < 64 /\ Z.testbit x k = true /\
    forall j, 0 <= j < k -> Z.testbit x j = false.
Proof.
  intros Hx.
  destruct (list_find (fun k : nat => Z.testbit x (Z.of_nat k) = true) (seq 0 64)) as [[i k]|] eqn:Hf.
  - apply list_find_Some in Hf as (Hi & Hbit & Hlow). apply lookup_seq in Hi as [-> Hi]. cbn [Nat.add] in *.
    assert (forall j, 0 <= j < Z.of_nat i -> Z.testbit x j = false) as Hlow'.
    { intros j Hj. apply not_true_is_false. rewrite <- (Z2Nat.id j) by lia.
      apply (Hlow (Z.to_nat j)); [|lia]. apply lookup_seq. lia. }
    exists (Z.of_nat i). split; [|split; [lia|done]]. by apply ctz64_lowest; try lia.
  - exfalso. apply list_find_None in Hf. rewrite Forall_forall in Hf.
    assert (x = 0); [|lia]. apply Z.bits_inj'. intros n Hn. rewrite Z.bits_0.
    destruct (decide (n < 64)).
    + apply not_true_is_false. rewrite <- (Z2Nat.id n) by lia. apply Hf, elem_of_seq. lia.
    + apply Z.bits_above_log2; [lia|]. assert (Z.log2 x < 64); [|lia]. apply Z.log2_lt_pow2; lia.
Qed.

(** The abstract effect of [runq_enqueue]: a process that is not queued is
    appended to the bucket of its dynamic priority, one that is queued stays
    where it is; the accounting fields do not change and no access faults. *)
Theorem runq_enqueue_refines st qs p x :
  rq_repr st qs -> procs st !! p = Some x ->
  exists st', runq_enqueue p st = Ret tt st' /\ same_accounting st st' /\
    if on_runq x then st' = st
    else exists l, qs !! Z.to_nat (runq_dyn x) = Some l /\
         rq_repr st' (<[Z.to_nat (runq_dyn x) := l ++ [p]]> qs).
Proof. apply runq_enqueue_spec. Qed.

(** C32: [runq_pick] returns null exactly when every bucket is empty; otherwise
    it takes the head of the lowest-numbered non-empty bucket off its queue. This
    is the process with the smallest dynamic priority. The comments of
    [runq_pick] and [sched_tick] and docs/document say that the process with the
    highest dynamic priority runs first: the theorem shows that the code does the
    reverse. *)
Theorem runq_pick_refines st qs :
  rq_repr st qs ->
  (runq_pick st = Ret None st /\ forall i l, qs !! i = Some l -> l = []) \/
  (exists i p l st', runq_pick st = Ret (Some p) st' /\ qs !! i = Some (p :: l) /\
     (forall j l', (j < i)%nat -> qs !! j = Some l' -> l' = []) /\
     rq_repr st' (<[i := l]> qs) /\ same_accounting st st').
Proof. apply runq_pick_spec. Qed.

(** ** What the aging formula and the bucket order do together *)

(** Waiting never lowers the dynamic priority. *)
Lemma runq_dyn_aged x :
  0 <= wait_time x < 2 ^ 31 - 1 -> - 2 ^ 30 <= priority x < 2 ^ 30 -> 0 <= cpu_time x < 2 ^ 31 ->
  runq_dyn x <= runq_dyn (aged x).
Proof.
  intros Hw Hp Hc. unfold runq_dyn, aged. simpl. rewrite (s32_small (wait_time x + 1)) by lia.
  rewrite !Z.quot_div_nonneg by lia.
  assert (0 <= wait_time x / 5 < 2 ^ 29) by (split; [apply Z.div_pos; lia|apply Z.div_lt_upper_bound; lia]).
  assert (0 <= (wait_time x + 1) / 5 < 2 ^ 29) by (split; [apply Z.div_pos; lia|apply Z.div_lt_upper_bound; lia]).
  assert (0 <= cpu_time x / 5 < 2 ^ 29) by (split; [apply Z.div_pos; lia|apply Z.div_lt_upper_bound; lia]).
  assert (wait_time x / 5 <= (wait_time x + 1) / 5) by (apply Z.div_le_mono; lia).
  rewrite !s32_small by (rewrite ?s32_small; lia). unfold RUNQ_LEN.
  destruct (Z.ltb_spec (priority x + wait_time x / 5 - cpu_time x / 5) 0),
    (Z.ltb_spec (priority x + (wait_time x + 1) / 5 - cpu_time x / 5) 0); zcases; lia.
Qed.

(** The process [runq_pick] selects has the smallest dynamic priority of
    all queued processes. Since waiting only raises the dynamic priority
    ([runq_dyn_aged]), a process that waits moves behind the others: the order
    is the reverse of the one the aging formula and the comments intend. *)
Theorem runq_pick_least st qs p st' q y :
  rq_repr st qs -> runq_pick st = Ret (Some p) st' ->
  procs st !! q = Some y -> on_runq y = true ->
  exists x, procs st !! p = Some x /\ on_runq x = true /\ dyn_priority x <= dyn_priority y.
Proof.
  intros Hr Hpick Hy Hon.
  destruct (runq_pick_spec st qs Hr) as [[Hn _]|(i & p' & l & s' & Hrun & Hi & Hlow & _)];
    [congruence|]. rewrite Hpick in Hrun. injection Hrun as <- <-.
  destruct (rr_elem _ _ Hr i (p :: l) p Hi) as (x & Hx & Hox & Hd); [apply list_elem_of_here|].
  exists x. split; [done|]. split; [done|].
  destruct (rr_find _ _ Hr _ _ Hy Hon) as (j & l1 & l2 & Hj & Hdj & _).
  destruct (decide (j < i)%nat) as [Hlt|]; [|lia].
  specialize (Hlow _ _ Hlt Hj). by destruct l1.
Qed.

(** ** Concrete run queues *)

(** The table at boot, and after process 3 then process 5 (with a higher
    static priority) became runnable. *)
Definition boot_proc : sproc := SProc 10 0 0 10 None None false.
Definition boot_rq : runq := RunQ (replicate 64 boot_proc) (replicate 21 None) (replicate 21 None) 0.
Definition one_rq : runq := enqueued 10 3 None boot_rq.

Lemma boot_repr : rq_repr boot_rq (replicate 21 []).
Proof.
  apply rq_repr_empty; try done.
  - intros p x Hx. unfold boot_rq in Hx. cbn [procs] in Hx.
    apply lookup_replicate in Hx as [-> _]. done.
  - intros j Hj. unfold boot_rq. cbn [runq_head runq_tail]. split; by apply lookup_replicate_2.
Qed.

Lemma one_repr : rq_repr one_rq (<[10%nat := [3%nat]]> (replicate 21 [])).
Proof. apply (enqueued_repr boot_rq (replicate 21 []) 3 10 boot_proc []); [apply boot_repr|done..]. Qed.

Lemma ctz64_correct_witness :
  0 < 0x500 < 2 ^ 64 /\
  exists k, ctz64 0x500 tt = Ret k tt /\ 0 <= k < 64 /\ Z.testbit 0x500 k = true /\
    forall j, 0 <= j < k -> Z.testbit 0x500 j = false.
Proof. split; [lia|]. apply (ctz64_correct 0x500). lia. Defined.

Lemma runq_enqueue_refines_witness :
  rq_repr boot_rq (replicate 21 []) /\
  exists st', runq_enqueue 3 boot_rq = Ret tt st' /\ same_accounting boot_rq st' /\
    exists l, replicate 21 [] !! Z.to_nat (runq_dyn boot_proc) = Some l /\
      rq_repr st' (<[Z.to_nat (runq_dyn boot_proc) := l ++ [3%nat]]> (replicate 21 [])).
Proof.
  split; [apply boot_repr|].
  apply (runq_enqueue_refines boot_rq (replicate 21 []) 3 boot_proc); [apply boot_repr|reflexivity].
Defined.

Lemma runq_pick_refines_witness :
  let qs := <[10%nat := [3%nat]]> (replicate 21 []) in
  rq_repr one_rq qs /\
  ((runq_pick one_rq = Ret None one_rq /\ forall i l, qs !! i = Some l -> l = []) \/
   (exists i p l st', runq_pick one_rq = Ret (Some p) st' /\ qs !! i = Some (p :: l) /\
     (forall j l', (j < i)%nat -> qs !! j = Some l' -> l' = []) /\
     rq_repr st' (<[i := l]> qs) /\ same_accounting one_rq st')).
Proof. split; [apply one_repr|]. apply (runq_pick_refines one_rq _). apply one_repr. Defined.

Lemma sched_tick_refines_witness :
  let qs := <[10%nat := [3%nat]]> (replicate 21 []) in
  exists st' qs', sched_tick (Some 7%nat) one_rq = Ret tt st' /\ rq_repr st' qs' /\
    concat qs' ≡ₚ concat qs /\
    (forall q x, procs one_rq !! q = Some x ->
       accounting <$> procs st' !! q = Some (ticked (Some 7%nat) q x)) /\
    (forall i l p x, qs' !! i = Some l -> p ∈ l -> Some 7%nat <> Some p ->
       procs st' !! p = Some x -> runq_dyn x = Z.of_nat i).
Proof.
  apply (sched_tick_refines one_rq _ (Some 7%nat)); [apply one_repr|].
  intros p [= <-]. unfold NPROC. lia.
Defined.

Lemma runq_pick_least_witness :
  exists st', runq_pick one_rq = Ret (Some 3%nat) st' /\
  exists x, procs one_rq !! 3%nat = Some x /\ on_runq x = true /\ dyn_priority x <= 10.
Proof.
  eexists. split; [vm_compute; reflexivity|].
  apply (runq_pick_least one_rq _ 3%nat
           match runq_pick one_rq with Ret _ s => s | _ => one_rq end 3%nat
           (SProc 10 0 0 10 None None true) one_repr);
    vm_compute; reflexivity.
Defined.

(** The inversion on a concrete queue: process 4 with static priority 0 is
    selected before process 5 with static priority 20. *)
Example low_priority_first :
  match (modp 5 (set_priority 20) ;;; modp 4 (set_priority 0) ;;;
         runq_enqueue 5 ;;; runq_enqueue 4 ;;; runq_pick) boot_rq with
  | Ret p _ => p = Some 4%nat
  | _ => False
  end.
Proof. vm_compute. reflexivity. Qed.

End SchedO1.
