(* ===== verification/Mem.v ===== *)
(** Byte-addressed physical memory.

    [mem] is the RAM the kernel's pointers address: a byte (0..255) for every
    address. [load]/[store] read and write little-endian integers of [n] bytes,
    as the RISC-V loads and stores of the compiled code do. The lemmas give the
    read-over-write laws the components on top of it use. *)

From S2P Require Import Prelude.

Definition mem : Type := Z -> Z.

Definition upd (m : mem) (a v : Z) : mem := fun x => if x =? a then u8 v else m x.

Fixpoint load (n : nat) (m : mem) (a : Z) : Z :=
  match n with
  | O => 0
  | S n => m a + 256 * load n m (a + 1)
  end.

Fixpoint store (n : nat) (m : mem) (a v : Z) : mem :=
  match n with
  | O => m
  | S n => upd (store n m (a + 1) (v / 256)) a v
  end.

Definition load64 : mem -> Z -> Z := load 8.
Definition store64 : mem -> Z -> Z -> mem := store 8.
Definition load32 : mem -> Z -> Z := load 4.
Definition store32 : mem -> Z -> Z -> mem := store 4.
Definition load16 : mem -> Z -> Z := load 2.
Definition store16 : mem -> Z -> Z -> mem := store 2.

(** The [n] bytes at [a], and writing a list of bytes. *)
Fixpoint bytes (n : nat) (m : mem) (a : Z) : list Z :=
  match n with
  | O => []
  | S n => m a :: bytes n m (a + 1)
  end.

Fixpoint put_bytes (m : mem) (a : Z) (l : list Z) : mem :=
  match l with
  | [] => m
  | b :: l => put_bytes (upd m a b) (a + 1) l
  end.

(** Every address holds a byte. *)
Definition mem_ok (m : mem) : Prop := forall a, 0 <= m a < 256.

(** The two memories agree on [n] bytes from [a]. *)
Definition agree (m m' : mem) (a n : Z) : Prop := forall x, a <= x < a + n -> m' x = m x.

Lemma upd_eq m a v : upd m a v a = u8 v.
Proof. unfold upd. by rewrite Z.eqb_refl. Qed.
Lemma upd_ne m a v x : x <> a -> upd m a v x = m x.
Proof. unfold upd. intros. by rewrite (proj2 (Z.eqb_neq _ _)). Qed.

Lemma upd_ok m a v : mem_ok m -> mem_ok (upd m a v).
Proof. intros H x. unfold upd. destruct (x =? a); [apply u8_range|apply H]. Qed.
#[export] Hint Resolve upd_ok : kernel.

Lemma store_ok n : forall m a v, mem_ok m -> mem_ok (store n m a v).
Proof. induction n as [|n IH]; simpl; auto with kernel. Qed.
#[export] Hint Resolve store_ok : kernel.

Lemma load_range n m a : mem_ok m -> 0 <= load n m a < 256 ^ Z.of_nat n.
Proof.
  intros Hm. revert a. induction n as [|n IH]; intros a; [done|].
  cbn [load]. rewrite Nat2Z.inj_succ, Z.pow_succ_r by lia.
  specialize (IH (a + 1)). specialize (Hm a). nia.
Qed.

Lemma load64_range m a : mem_ok m -> 0 <= load64 m a < 2 ^ 64.
Proof. intros Hm. by pose proof (load_range 8 m a Hm). Qed.

Lemma load_ext n : forall m m' a, agree m m' a (Z.of_nat n) -> load n m' a = load n m a.
Proof.
  induction n as [|n IH]; intros m m' a H; [done|]. cbn [load].
  rewrite H, (IH m m' (a + 1)); [done| |lia]. intros x Hx. apply H. lia.
Qed.

Lemma store_out n : forall m a v x, ~ (a <= x < a + Z.of_nat n) -> store n m a v x = m x.
Proof.
  induction n as [|n IH]; intros m a v x Hx; [done|]. cbn [store].
  rewrite upd_ne by lia. apply IH. lia.
Qed.

Lemma load_store_eq n : forall m a v, load n (store n m a v) a = v mod 256 ^ Z.of_nat n.
Proof.
  induction n as [|n IH]; intros m a v; [by rewrite Z.mod_1_r|].
  cbn [load store]. rewrite upd_eq.
  rewrite (load_ext n (store n m (a + 1) (v / 256))) by (intros x Hx; apply upd_ne; lia).
  rewrite IH, Nat2Z.inj_succ, Z.pow_succ_r by lia. unfold u8. change (2 ^ 8) with 256.
  rewrite Z.rem_mul_r; lia.
Qed.

Lemma load_store_ne n k m a b v :
  a + Z.of_nat n <= b \/ b + Z.of_nat k <= a -> load n (store k m b v) a = load n m a.
Proof. intros H. apply load_ext. intros x Hx. apply store_out. lia. Qed.

Lemma load64_store64_eq m a v : 0 <= v < 2 ^ 64 -> load64 (store64 m a v) a = v.
Proof. intros Hv. unfold load64, store64. rewrite load_store_eq. by apply Z.mod_small. Qed.

Lemma load64_store64_ne m a b v : a + 8 <= b \/ b + 8 <= a -> load64 (store64 m b v) a = load64 m a.
Proof. intros H. apply load_store_ne. lia. Qed.

Lemma load64_ext m m' a : agree m m' a 8 -> load64 m' a = load64 m a.
Proof. apply (load_ext 8). Qed.

Lemma length_bytes n : forall m a, length (bytes n m a) = n.
Proof. induction n as [|n IH]; intros; simpl; auto. Qed.

Lemma bytes_ext n : forall m m' a, agree m m' a (Z.of_nat n) -> bytes n m' a = bytes n m a.
Proof.
  induction n as [|n IH]; intros m m' a H; [done|]. cbn [bytes].
  rewrite H, (IH m m' (a + 1)); [done| |lia]. intros x Hx. apply H. lia.
Qed.

Lemma bytes_lookup n m a i : (i < n)%nat -> bytes n m a !! i = Some (m (a + Z.of_nat i)).
Proof.
  revert a i. induction n as [|n IH]; intros a i Hi; [lia|].
  destruct i as [|i]; simpl; [by rewrite Z.add_0_r|]. rewrite IH by lia. do 2 f_equal. lia.
Qed.

Lemma put_bytes_out l : forall m a x,
  ~ (a <= x < a + Z.of_nat (length l)) -> put_bytes m a l x = m x.
Proof.
  induction l as [|b l IH]; intros m a x Hx; [done|]. cbn [put_bytes length] in *.
  rewrite IH by lia. apply upd_ne. lia.
Qed.

Lemma put_bytes_in l : forall m a i b,
  l !! i = Some b -> put_bytes m a l (a + Z.of_nat i) = u8 b.
Proof.
  induction l as [|b' l IH]; intros m a i b Hi; [done|]. destruct i as [|i]; simpl in *.
  - injection Hi as ->. rewrite put_bytes_out by lia. rewrite Z.add_0_r. apply upd_eq.
  - replace (a + Z.of_nat (S i)) with (a + 1 + Z.of_nat i) by lia. by apply IH.
Qed.

Lemma put_bytes_ok l : forall m a, mem_ok m -> mem_ok (put_bytes m a l).
Proof. induction l as [|b l IH]; intros m a Hm; [done|]. cbn [put_bytes]. by apply IH, upd_ok. Qed.

Lemma bytes_put_out n m a l o : o + Z.of_nat n <= a \/ a + Z.of_nat (length l) <= o -> bytes n (put_bytes m a l) o = bytes n m o.
Proof. intros H. apply bytes_ext. intros x Hx. apply put_bytes_out. lia. Qed.
Lemma bytes_put_in n m a l k : Forall (fun b => 0 <= b < 256) l -> (k + n <= length l)%nat -> bytes n (put_bytes m a l) (a + Z.of_nat k) = take n (drop k l).
Proof.
  intros Hl Hk. apply list_eq. intros i. destruct (decide (i < n)%nat) as [Hi|Hi].
  - rewrite bytes_lookup by done. rewrite lookup_take_lt, lookup_drop by done. destruct (lookup_lt_is_Some_2 l (k + i)) as [b Hb]; [lia|].
    rewrite Hb. rewrite <- Z.add_assoc, <- Nat2Z.inj_add. rewrite (put_bytes_in _ _ _ _ b Hb). rewrite Forall_lookup in Hl. specialize (Hl _ _ Hb).
    cbv beta in Hl. by rewrite u8_small.
  - rewrite !lookup_ge_None_2; [done| |]; rewrite ?length_take, ?length_drop, ?length_bytes; lia.
Qed.

Lemma s32_u32 v : - 2 ^ 31 <= v < 2 ^ 31 -> s32 (v mod 2 ^ 32) = v.
Proof. intros Hv. unfold s32. rewrite Z.add_mod_idemp_l by lia. rewrite Z.mod_small by lia. lia. Qed.

Lemma load32_store32_eq m a v : load32 (store32 m a v) a = v mod 2 ^ 32.
Proof. unfold load32, store32. by rewrite load_store_eq. Qed.
Lemma load32_store32_ne m a b v : a + 4 <= b \/ b + 4 <= a -> load32 (store32 m b v) a = load32 m a.
Proof. intros Hab. unfold load32, store32. apply load_store_ne. lia. Qed.
