(* ===== verification/Kstring.v ===== *)
(** The kernel's string library (kernel/lib/string.c).

    Module [Kstring] models [memset], [memcmp], [memmove], [memcpy], [strncmp],
    [strncpy], [safestrcpy] and [strlen] as the loops of the source over byte
    memory, pointers being addresses, so overlapping arguments behave as they
    do in the code. [char] is unsigned on RISC-V. *)

From S2P Require Import Prelude Mem.

Module Kstring.

(** [for (i = 0; i < n; i++) cdst[i] = c] *)
Fixpoint memset_from (n : nat) (m : mem) (dst c : Z) : mem :=
  match n with
  | O => m
  | S n => memset_from n (upd m dst c) (dst + 1) c
  end.
Definition memset (m : mem) (dst c n : Z) : mem := memset_from (Z.to_nat n) m dst c.

Fixpoint memcmp_from (n : nat) (m : mem) (s1 s2 : Z) : Z :=
  match n with
  | O => 0
  | S n => if negb (m s1 =? m s2) then m s1 - m s2 else memcmp_from n m (s1 + 1) (s2 + 1)
  end.
Definition memcmp (m : mem) (v1 v2 n : Z) : Z := memcmp_from (Z.to_nat n) m v1 v2.

(** [while (n-- > 0) *--d = *--s] with [d], [s] one past the end *)
Fixpoint move_down (n : nat) (m : mem) (d s : Z) : mem :=
  match n with
  | O => m
  | S n => move_down n (upd m (d - 1) (m (s - 1))) (d - 1) (s - 1)
  end.
(** [while (n-- > 0) *d++ = *s++] *)
Fixpoint move_up (n : nat) (m : mem) (d s : Z) : mem :=
  match n with
  | O => m
  | S n => move_up n (upd m d (m s)) (d + 1) (s + 1)
  end.
Definition memmove (m : mem) (dst src n : Z) : mem :=
  if (src <? dst) && (dst <? src + n)
  then move_down (Z.to_nat n) m (dst + n) (src + n)
  else move_up (Z.to_nat n) m dst src.
Definition memcpy (m : mem) (dst src n : Z) : mem := memmove m dst src n.

Fixpoint strncmp_from (n : nat) (m : mem) (p q : Z) : Z :=
  match n with
  | O => 0
  | S n =>
      if negb (m p =? 0) && (m p =? m q) then strncmp_from n m (p + 1) (q + 1)
      else m p - m q
  end.
Definition strncmp (m : mem) (p q n : Z) : Z := strncmp_from (Z.to_nat n) m p q.

(** The second loop of [strncpy]: [while (n-- > 0) *s++ = 0]. *)
Fixpoint zero_fill (n : nat) (m : mem) (s : Z) : mem :=
  match n with
  | O => m
  | S n => zero_fill n (upd m s 0) (s + 1)
  end.
Fixpoint strncpy_from (n : nat) (m : mem) (s t : Z) : mem :=
  match n with
  | O => m
  | S n =>
      let c := m t in
      let m := upd m s c in
      if c =? 0 then zero_fill n m (s + 1) else strncpy_from n m (s + 1) (t + 1)
  end.
Definition strncpy (m : mem) (s t n : Z) : mem := strncpy_from (Z.to_nat n) m s t.

(** [while (--n > 0 && ( *s++ = *t++ ) != 0) ; *s = 0] with [n] the count left
    after the decrement. *)
Fixpoint safestrcpy_from (n : nat) (m : mem) (s t : Z) : mem :=
  match n with
  | O => upd m s 0
  | S n =>
      let c := m t in
      let m := upd m s c in
      if c =? 0 then upd m (s + 1) 0 else safestrcpy_from n m (s + 1) (t + 1)
  end.
Definition safestrcpy (m : mem) (s t n : Z) : mem :=
  if n <=? 0 then m else safestrcpy_from (Z.to_nat (n - 1)) m s t.

(** [for (n = 0; s[n]; n++)], with fuel for the unbounded scan. *)
Fixpoint strlen_from (fuel : nat) (m : mem) (s n : Z) : option Z :=
  match fuel with
  | O => None
  | S fuel => if m (s + n) =? 0 then Some n else strlen_from fuel m s (n + 1)
  end.
Definition strlen (fuel : nat) (m : mem) (s : Z) : option Z := strlen_from fuel m s 0.

(** ** Byte-level behaviour *)

Lemma memset_from_spec n : forall m dst c x,
  memset_from n m dst c x = if (dst <=? x) && (x <? dst + Z.of_nat n) then u8 c else m x.
Proof.
  induction n as [|n IH]; intros m dst c x; cbn [memset_from].
  - destruct (Z.leb_spec dst x), (Z.ltb_spec x (dst + Z.of_nat 0)); simpl; (lia || done).
  - rewrite IH. unfold upd.
    destruct (Z.leb_spec (dst + 1) x), (Z.ltb_spec x (dst + 1 + Z.of_nat n)),
      (Z.leb_spec dst x), (Z.ltb_spec x (dst + Z.of_nat (S n))), (Z.eqb_spec x dst);
      simpl; (lia || done).
Qed.

Lemma memset_spec m dst c n x :
  0 <= n -> memset m dst c n x = if (dst <=? x) && (x <? dst + n) then u8 c else m x.
Proof. intros. unfold memset. by rewrite memset_from_spec, Z2Nat.id. Qed.

Lemma memset_ok m dst c n : mem_ok m -> mem_ok (memset m dst c n).
Proof.
  intros Hm x. unfold memset. rewrite memset_from_spec. destruct (_ && _); [apply u8_range|apply Hm].
Qed.
#[export] Hint Resolve memset_ok : kernel.

Lemma move_up_spec n : forall m d s x,
  mem_ok m -> d <= s \/ s + Z.of_nat n <= d ->
  move_up n m d s x = if (d <=? x) && (x <? d + Z.of_nat n) then m (s + (x - d)) else m x.
Proof.
  induction n as [|n IH]; intros m d s x Hm H; cbn [move_up].
  - destruct (Z.leb_spec d x), (Z.ltb_spec x (d + Z.of_nat 0)); simpl; (lia || done).
  - rewrite IH by (auto with kernel; lia). rewrite Nat2Z.inj_succ in *.
    destruct (Z.leb_spec (d + 1) x), (Z.ltb_spec x (d + 1 + Z.of_nat n)),
      (Z.leb_spec d x), (Z.ltb_spec x (d + Z.succ (Z.of_nat n))); simpl; try lia.
    + rewrite upd_ne by lia. f_equal. lia.
    + by rewrite upd_ne by lia.
    + replace x with d by lia. rewrite upd_eq, u8_small by apply Hm. f_equal. lia.
    + by rewrite upd_ne by lia.
Qed.

Lemma move_down_spec n : forall m d s x,
  mem_ok m -> s <= d ->
  move_down n m d s x =
    if (d - Z.of_nat n <=? x) && (x <? d) then m (s - (d - x)) else m x.
Proof.
  induction n as [|n IH]; intros m d s x Hm H; cbn [move_down].
  - destruct (Z.leb_spec (d - Z.of_nat 0) x), (Z.ltb_spec x d); simpl; (lia || done).
  - rewrite IH by (auto with kernel; lia). rewrite Nat2Z.inj_succ in *.
    destruct (Z.leb_spec (d - 1 - Z.of_nat n) x), (Z.ltb_spec x (d - 1)),
      (Z.leb_spec (d - Z.succ (Z.of_nat n)) x), (Z.ltb_spec x d); simpl; try lia.
    + rewrite upd_ne by lia. f_equal. lia.
    + replace x with (d - 1) by lia. rewrite upd_eq, u8_small by apply Hm. f_equal. lia.
    + by rewrite upd_ne by lia.
    + by rewrite upd_ne by lia.
Qed.

Lemma memmove_spec m dst src n x :
  mem_ok m -> 0 <= n ->
  memmove m dst src n x = if (dst <=? x) && (x <? dst + n) then m (src + (x - dst)) else m x.
Proof.
  intros Hm Hn. unfold memmove.
  destruct (Z.ltb_spec src dst), (Z.ltb_spec dst (src + n)); simpl.
  - rewrite move_down_spec, Z2Nat.id by (done || lia). replace (dst + n - n) with dst by lia.
    destruct (_ && _); [f_equal; lia|done].
  - rewrite move_up_spec, Z2Nat.id by (try rewrite Z2Nat.id; done || lia). done.
  - rewrite move_up_spec, Z2Nat.id by (try rewrite Z2Nat.id; done || lia). done.
  - rewrite move_up_spec, Z2Nat.id by (try rewrite Z2Nat.id; done || lia). done.
Qed.

Lemma memmove_ok m dst src n : mem_ok m -> 0 <= n -> mem_ok (memmove m dst src n).
Proof. intros Hm Hn x. rewrite memmove_spec by done. destruct (_ && _); apply Hm. Qed.
#[export] Hint Resolve memmove_ok : kernel.

(** ** C strings *)

(** The bytes [l], none of them NUL, followed by a NUL at [a]. *)
Fixpoint cstr (m : mem) (a : Z) (l : list Z) : Prop :=
  match l with
  | [] => m a = 0
  | b :: l => m a = b /\ 0 < b < 256 /\ cstr m (a + 1) l
  end.

Lemma cstr_ext l : forall m m' a,
  agree m m' a (Z.of_nat (length l) + 1) -> cstr m a l -> cstr m' a l.
Proof.
  induction l as [|b l IH]; intros m m' a Hag; cbn [cstr length].
  - intros <-. apply Hag. simpl. lia.
  - intros (Ha & Hb & Hl). rewrite Hag by lia. split; [done|]. split; [done|].
    apply (IH m m'); [|done]. intros x Hx. apply Hag. cbn [length]. lia.
Qed.

Lemma safestrcpy_from_spec k : forall m s t l,
  cstr m t l -> s + Z.of_nat k + 1 <= t \/ t + Z.of_nat (length l) + 1 <= s ->
  cstr (safestrcpy_from k m s t) s (take k l) /\
  forall x, ~ (s <= x < s + Z.of_nat k + 1) -> safestrcpy_from k m s t x = m x.
Proof.
  induction k as [|k IH]; intros m s t l Hl Hdis; cbn [safestrcpy_from].
  { split; [apply upd_eq|]. intros x Hx. apply upd_ne. lia. }
  destruct l as [|b l]; cbn [cstr length take] in *.
  - rewrite Hl. cbn. split.
    + rewrite upd_ne by lia. apply upd_eq.
    + intros x Hx. rewrite !upd_ne by lia. done.
  - destruct Hl as (Hb & Hr & Hl). rewrite Hb. rewrite (proj2 (Z.eqb_neq b 0)) by lia.
    destruct (IH (upd m s b) (s + 1) (t + 1) l) as [H1 H2].
    { eapply cstr_ext; [|exact Hl]. intros x Hx. apply upd_ne. lia. }
    { lia. }
    split.
    + split; [|by split]. rewrite H2 by lia. rewrite upd_eq. by apply u8_small; lia.
    + intros x Hx. rewrite H2 by lia. apply upd_ne. lia.
Qed.

Lemma zero_fill_spec n : forall m s x,
  zero_fill n m s x = if (s <=? x) && (x <? s + Z.of_nat n) then 0 else m x.
Proof.
  intros m s x. transitivity (memset_from n m s 0 x); [|by rewrite memset_from_spec].
  revert m s. induction n as [|n IH]; intros m s; [done|]. apply IH.
Qed.

Lemma strncpy_from_spec n : forall m s t l,
  cstr m t l -> s + Z.of_nat n <= t \/ t + Z.of_nat (length l) + 1 <= s ->
  (forall i, (i < n)%nat -> strncpy_from n m s t (s + Z.of_nat i) = default 0 (l !! i)) /\
  forall x, ~ (s <= x < s + Z.of_nat n) -> strncpy_from n m s t x = m x.
Proof.
  induction n as [|n IH]; intros m s t l Hl Hdis; cbn [strncpy_from].
  { split; [lia|done]. }
  destruct l as [|b l]; cbn [cstr length] in *.
  - rewrite Hl. cbn [Z.eqb]. split.
    + intros i Hi. rewrite zero_fill_spec. destruct i as [|i].
      * rewrite (proj2 (Z.leb_gt _ _)) by lia. cbn. rewrite Z.add_0_r. apply upd_eq.
      * rewrite (proj2 (Z.leb_le _ _)), (proj2 (Z.ltb_lt _ _)) by lia. done.
    + intros x Hx. rewrite zero_fill_spec.
      destruct (Z.leb_spec (s + 1) x), (Z.ltb_spec x (s + 1 + Z.of_nat n)); cbn; try lia;
        apply upd_ne; lia.
  - destruct Hl as (Hb & Hr & Hl). rewrite Hb. rewrite (proj2 (Z.eqb_neq b 0)) by lia.
    destruct (IH (upd m s b) (s + 1) (t + 1) l) as [H1 H2].
    { eapply cstr_ext; [|exact Hl]. intros x Hx. apply upd_ne. lia. }
    { lia. }
    split.
    + intros i Hi. destruct i as [|i]; simpl.
      * rewrite Z.add_0_r, H2 by lia. rewrite upd_eq. apply u8_small. lia.
      * replace (s + Z.of_nat (S i)) with (s + 1 + Z.of_nat i) by lia. apply H1. lia.
    + intros x Hx. rewrite H2 by lia. apply upd_ne. lia.
Qed.

Lemma strncmp_from_spec n : forall m p q l1 l2,
  cstr m p l1 -> cstr m q l2 -> strncmp_from n m p q = 0 <-> take n l1 = take n l2.
Proof.
  induction n as [|n IH]; intros m p q l1 l2 H1 H2; cbn [strncmp_from take]; [done|].
  destruct l1 as [|a l1], l2 as [|b l2]; cbn [cstr take] in *.
  - rewrite H1, H2. done.
  - destruct H2 as (H2 & ? & _). rewrite H1, H2. cbn. split; [lia|done].
  - destruct H1 as (H1 & ? & _). rewrite H1, H2. rewrite (proj2 (Z.eqb_neq a 0)) by lia. cbn.
    split; [lia|done].
  - destruct H1 as (H1 & Ha & Hl1), H2 as (H2 & Hb & Hl2). rewrite H1, H2.
    rewrite (proj2 (Z.eqb_neq a 0)) by lia. cbn. destruct (Z.eqb_spec a b) as [->|Hne].
    + rewrite (IH m (p + 1) (q + 1) l1 l2) by done. split; [by intros ->|by intros [=]].
    + split; [lia|]. intros [=]. done.
Qed.

Lemma strlen_from_spec l : forall fuel m s n,
  cstr m (s + n) l -> (length l < fuel)%nat ->
  strlen_from fuel m s n = Some (n + Z.of_nat (length l)).
Proof.
  induction l as [|b l IH]; intros [|fuel] m s n Hl Hf; cbn [length strlen_from cstr] in *; try lia.
  - rewrite Hl. cbn. f_equal. lia.
  - destruct Hl as (Hb & Hr & Hl). rewrite Hb, (proj2 (Z.eqb_neq b 0)) by lia.
    rewrite (IH fuel m s (n + 1)); [f_equal; lia| |lia]. by rewrite Z.add_assoc.
Qed.

(** [memmove] copies the [n] source bytes as they were before the call,
    whatever the overlap of the two ranges, and changes no other byte. *)
Theorem memmove_overlap_safe m dst src n :
  mem_ok m -> 0 <= n < 2 ^ 32 ->
  (forall i, 0 <= i < n -> memmove m dst src n (dst + i) = m (src + i)) /\
  (forall x, ~ (dst <= x < dst + n) -> memmove m dst src n x = m x).
Proof.
  intros Hm Hn. split; intros x Hx; rewrite memmove_spec by (done || lia).
  - rewrite (proj2 (Z.leb_le _ _)), (proj2 (Z.ltb_lt _ _)) by lia. cbn. f_equal. lia.
  - destruct (Z.leb_spec dst x), (Z.ltb_spec x (dst + n)); cbn; (lia || done).
Qed.

(** [safestrcpy] leaves in its [n]-byte buffer a NUL-terminated string, the
    longest prefix of the source that fits, and writes nothing outside it. *)
Theorem safestrcpy_terminates m s t n l :
  cstr m t l -> 0 < n < 2 ^ 31 -> s + n <= t \/ t + Z.of_nat (length l) + 1 <= s ->
  cstr (safestrcpy m s t n) s (take (Z.to_nat (n - 1)) l) /\
  (forall x, ~ (s <= x < s + n) -> safestrcpy m s t n x = m x).
Proof.
  intros Hl Hn Hdis. unfold safestrcpy. rewrite (proj2 (Z.leb_gt n 0)) by lia.
  destruct (safestrcpy_from_spec (Z.to_nat (n - 1)) m s t l Hl) as [H1 H2]; [lia|].
  split; [done|]. intros x Hx. apply H2. lia.
Qed.

(** [strncpy] fills exactly the [n] bytes of its buffer with the string
    padded with NULs, and [strncmp] of two strings is 0 exactly when their
    first [n] characters are the same; directory entries rely on both. *)
Theorem strncpy_strncmp_correct m s t n l l' q :
  cstr m t l -> cstr m q l' -> 0 <= n < 2 ^ 31 ->
  s + n <= t \/ t + Z.of_nat (length l) + 1 <= s ->
  (forall i, 0 <= i < n -> strncpy m s t n (s + i) = default 0 (l !! Z.to_nat i)) /\
  (forall x, ~ (s <= x < s + n) -> strncpy m s t n x = m x) /\
  (strncmp m t q n = 0 <-> take (Z.to_nat n) l = take (Z.to_nat n) l').
Proof.
  intros Hl Hl' Hn Hdis.
  destruct (strncpy_from_spec (Z.to_nat n) m s t l Hl) as [H1 H2]; [lia|]. split_and!.
  - intros i Hi. unfold strncpy. rewrite <- H1 by lia. f_equal. lia.
  - intros x Hx. apply H2. lia.
  - by apply strncmp_from_spec.
Qed.

(** Bytes ["kernel"] at 100, ["kern"] at 120, zero elsewhere. *)
Definition demo_mem : mem :=
  put_bytes (put_bytes (fun _ => 0) 100 [107; 101; 114; 110; 101; 108]) 120 [107; 101; 114; 110].

Lemma demo_mem_ok : mem_ok demo_mem.
Proof.
  intros a. unfold demo_mem, put_bytes. repeat (apply upd_ok; intros b; revert b). done.
Qed.

Lemma memmove_overlap_safe_witness :
  memmove demo_mem 102 100 4 (102 + 3) = demo_mem (100 + 3).
Proof. apply (memmove_overlap_safe demo_mem 102 100 4); [apply demo_mem_ok|lia|lia]. Defined.

Lemma safestrcpy_terminates_witness : cstr (safestrcpy demo_mem 200 100 5) 200 [107; 101; 114; 110].
Proof.
  apply (safestrcpy_terminates demo_mem 200 100 5 [107; 101; 114; 110; 101; 108]).
  - vm_compute. repeat split; done.
  - lia.
  - simpl. lia.
Defined.

Lemma strncpy_strncmp_correct_witness : strncmp demo_mem 100 120 4 = 0.
Proof.
  apply (strncpy_strncmp_correct demo_mem 200 100 4 [107; 101; 114; 110; 101; 108]
           [107; 101; 114; 110] 120).
  - vm_compute. repeat split; done.
  - vm_compute. repeat split; done.
  - lia.
  - simpl. lia.
  - reflexivity.
Defined.

End Kstring.
