(* ===== verification/Spinlock.v ===== *)
(** Spin locks and interrupt nesting (kernel/lock/spinlock.c).

    Module [Spinlock] models [initlock], [acquire], [release], [holding],
    [push_off] and [pop_off] for any number of CPUs that interleave at every
    shared memory access. A C function is the sequence of the atomic steps its
    statements make ([instr]), a CPU is its [struct cpu] fields, its interrupt
    enable bit and the code it has left, and one [step] runs one atomic step of
    one CPU. Every other component treats a critical section as one atomic
    transition; the theorems here are what justifies it. *)

From S2P Require Import Prelude.

Module Spinlock.

(** [struct spinlock]; [cpu] is the index of the holding [struct cpu]. *)
Record spinlock := mk_spinlock { locked : Z; cpu : option nat }.

Definition initlock : spinlock := mk_spinlock 0 None.

(** The atomic steps. Interrupt state and [struct cpu] are private to a CPU,
    so [push_off] and [pop_off] are one step each. *)
Inductive instr :=
| IPush                      (* push_off() *)
| IAcqCheck (l : nat)        (* if (holding(lk)) panic("acquire") *)
| ITas (l : nat)             (* one round of while (test_and_set(...) != 0) *)
| ISetCpu (l : nat)          (* lk->cpu = mycpu() *)
| IRelCheck (l : nat)        (* if (!holding(lk)) panic("release") *)
| IClrCpu (l : nat)          (* lk->cpu = 0 *)
| IUnlock (l : nat)          (* __sync_lock_release(&lk->locked) *)
| IPop                       (* pop_off() *)
| IIntr (b : bool).          (* intr_on() / intr_off() *)

(** [struct cpu]'s [noff] and [intena], the interrupt enable bit of sstatus
    and the code the CPU has left to run. *)
Record cpust := mk_cpust { noff : Z; intena : bool; sie : bool; code : list instr }.

Record sys := mk_sys { locks : nat -> spinlock; cpus : nat -> cpust }.

Definition fupd {A} (f : nat -> A) (i : nat) (x : A) : nat -> A :=
  fun j => if decide (j = i) then x else f j.

Definition set_cpu (c : nat) (x : cpust) (s : sys) : sys := mk_sys (locks s) (fupd (cpus s) c x).
Definition set_lock (l : nat) (x : spinlock) (s : sys) : sys := mk_sys (fupd (locks s) l x) (cpus s).
Definition with_code (k : list instr) (x : cpust) : cpust := mk_cpust (noff x) (intena x) (sie x) k.

Definition holding (s : sys) (c l : nat) : bool :=
  negb (locked (locks s l) =? 0) && bool_decide (cpu (locks s l) = Some c).

Definition push_off (x : cpust) : cpust :=
  let old := sie x in
  mk_cpust (s32 (noff x + 1)) (if noff x =? 0 then old else intena x) false (code x).

Definition pop_off (x : cpust) : outcome unit cpust :=
  if sie x then Panic "pop_off - interruptible"
  else if noff x <? 1 then Panic "pop_off"
  else
    let n := noff x - 1 in
    Ret (mk_cpust n (intena x) (if (n =? 0) && intena x then true else sie x) (code x)) tt.

Definition acquire (l : nat) : list instr := [IPush; IAcqCheck l; ITas l; ISetCpu l].
Definition release (l : nat) : list instr := [IRelCheck l; IClrCpu l; IUnlock l; IPop].

(** One atomic step of CPU [c]; [k] is the rest of its code. *)
Definition exec (c : nat) (i : instr) (k : list instr) : M sys unit := fun s =>
  let x := cpus s c in
  let next := set_cpu c (with_code k x) in
  match i with
  | IPush => Ret tt (set_cpu c (with_code k (push_off x)) s)
  | IAcqCheck l => if holding s c l then Panic "acquire" else Ret tt (next s)
  | ITas l =>
      let s' := set_lock l (mk_spinlock 1 (cpu (locks s l))) s in
      if locked (locks s l) =? 0 then Ret tt (next s') else Ret tt s'
  | ISetCpu l => Ret tt (next (set_lock l (mk_spinlock (locked (locks s l)) (Some c)) s))
  | IRelCheck l => if holding s c l then Ret tt (next s) else Panic "release"
  | IClrCpu l => Ret tt (next (set_lock l (mk_spinlock (locked (locks s l)) None) s))
  | IUnlock l => Ret tt (next (set_lock l (mk_spinlock 0 (cpu (locks s l))) s))
  | IPop =>
      match pop_off x with
      | Ret x' _ => Ret tt (set_cpu c (with_code k x') s)
      | Panic e => Panic e
      | _ => Fault
      end
  | IIntr b => Ret tt (set_cpu c (mk_cpust (noff x) (intena x) b k) s)
  end.

Definition step (c : nat) : M sys unit := fun s =>
  match code (cpus s c) with
  | [] => Ret tt s
  | i :: k => exec c i k s
  end.

(** A schedule is the sequence of the CPUs that take a step. *)
Fixpoint run (sched : list nat) : M sys unit :=
  match sched with
  | [] => ret tt
  | c :: sched => step c ;;; run sched
  end.

(** ** Client programs *)

Inductive call := CAcquire (l : nat) | CRelease (l : nat) | CPush | CPop | CIntr (b : bool).

Definition call_code (k : call) : list instr :=
  match k with
  | CAcquire l => acquire l
  | CRelease l => release l
  | CPush => [IPush]
  | CPop => [IPop]
  | CIntr b => [IIntr b]
  end.

Definition compile (cs : list call) : list instr := concat (map call_code cs).

(** The discipline of the kernel's callers: a CPU acquires locks it does not
    hold, releases locks it holds, matches [pop_off] with [push_off], and
    switches interrupts directly only outside of both. [d] counts the explicit
    [push_off]s and [h] lists the locks held. *)
Fixpoint disciplined (d : nat) (h : list nat) (cs : list call) : Prop :=
  match cs with
  | [] => True
  | CAcquire l :: cs => (l ∉ h) /\ disciplined d (l :: h) cs
  | CRelease l :: cs => (l ∈ h) /\ disciplined d (filter (.≠ l) h) cs
  | CPush :: cs => disciplined (S d) h cs
  | CPop :: cs => match d with O => False | S d => disciplined d h cs end
  | CIntr _ :: cs => d = O /\ h = [] /\ disciplined d h cs
  end.

(** The interrupt state a program leaves behind: what it last set. *)
Fixpoint last_intr (b : bool) (cs : list call) : bool :=
  match cs with
  | [] => b
  | CIntr b :: cs => last_intr b cs
  | _ :: cs => last_intr b cs
  end.

Definition boot (progs : nat -> list call) (b : nat -> bool) : sys :=
  mk_sys (fun _ => initlock) (fun c => mk_cpust 0 false (b c) (compile (progs c))).

(** ** The invariant *)

(** What a CPU is in the middle of: nothing, an [acquire] that has disabled
    interrupts ([TPend]), or a window in which it owns [l] without being
    recorded in [lk->cpu]. *)
Inductive trans := TNone | TPend | TOwn (l : nat).

Record ghost := mk_ghost { gd : nat; gh : list nat; gt : trans; gi : bool; gcs : list call }.

Definition owns (g : ghost) (l : nat) : Prop := l ∈ gh g \/ gt g = TOwn l.

Definition transient (t : trans) : nat := match t with TNone => 0 | _ => 1 end.

Inductive code_ok : ghost -> list instr -> Prop :=
| ok_calls d h i cs : disciplined d h cs -> code_ok (mk_ghost d h TNone i cs) (compile cs)
| ok_check d h i l cs : l ∉ h -> disciplined d (l :: h) cs ->
    code_ok (mk_ghost d h TPend i cs) (IAcqCheck l :: ITas l :: ISetCpu l :: compile cs)
| ok_tas d h i l cs : l ∉ h -> disciplined d (l :: h) cs ->
    code_ok (mk_ghost d h TPend i cs) (ITas l :: ISetCpu l :: compile cs)
| ok_set d h i l cs : l ∉ h -> disciplined d (l :: h) cs ->
    code_ok (mk_ghost d h (TOwn l) i cs) (ISetCpu l :: compile cs)
| ok_clr d h i l cs : l ∈ h -> disciplined d (filter (.≠ l) h) cs ->
    code_ok (mk_ghost d h TNone i cs) (IClrCpu l :: IUnlock l :: IPop :: compile cs)
| ok_unlock d h i l cs : l ∉ h -> disciplined d h cs ->
    code_ok (mk_ghost d h (TOwn l) i cs) (IUnlock l :: IPop :: compile cs).

Definition depth (g : ghost) : Z := Z.of_nat (gd g + length (gh g) + transient (gt g)).

Record cpu_ok (s : sys) (c : nat) (g : ghost) (fin : bool) : Prop := {
  ck_code : code_ok g (code (cpus s c));
  ck_nodup : NoDup (gh g);
  ck_rec : forall l, cpu (locks s l) = Some c <-> l ∈ gh g;
  ck_noff : noff (cpus s c) = depth g;
  ck_small : noff (cpus s c) + Z.of_nat (length (code (cpus s c))) < 2 ^ 31;
  ck_intr : if noff (cpus s c) =? 0 then sie (cpus s c) = gi g
            else sie (cpus s c) = false /\ intena (cpus s c) = gi g;
  ck_fin : last_intr (gi g) (gcs g) = fin }.

Definition lock_ok (s : sys) (G : nat -> ghost) (l : nat) : Prop :=
  (locked (locks s l) = 0 /\ forall c, ~ owns (G c) l) \/
  (locked (locks s l) = 1 /\ exists c, owns (G c) l /\ forall c', owns (G c') l -> c' = c).

Definition sys_inv (fin : nat -> bool) (s : sys) : Prop :=
  exists G, (forall c, cpu_ok s c (G c) (fin c)) /\ (forall l, lock_ok s G l).

(** ** Preservation *)

Lemma fupd_eq {A} (f : nat -> A) i x : fupd f i x i = x.
Proof. unfold fupd. by rewrite decide_True. Qed.
Lemma fupd_ne {A} (f : nat -> A) i j x : j <> i -> fupd f i x j = f j.
Proof. intros. unfold fupd. by rewrite decide_False. Qed.

Section preservation.
Context (fin : nat -> bool) (s : sys) (G : nat -> ghost) (c : nat).
Hypothesis Hcpu : forall c, cpu_ok s c (G c) (fin c).
Hypothesis Hlock : forall l, lock_ok s G l.

(** The locks the step does not touch, or touches without changing who owns
    them, keep their invariant. *)
Lemma lock_ok_same s' g' l :
  locked (locks s' l) = locked (locks s l) -> (owns g' l <-> owns (G c) l) ->
  lock_ok s' (fupd G c g') l.
Proof.
  intros Hl Ho.
  assert (Hoo : forall c', owns (fupd G c g' c') l <-> owns (G c') l).
  { intros c'. destruct (decide (c' = c)) as [->|]; [by rewrite fupd_eq|by rewrite fupd_ne]. }
  unfold lock_ok. rewrite Hl. destruct (Hlock l) as [[Hz Hn]|[Ho1 (c0 & Hc0 & Hu)]].
  - left. split; [done|]. intros c'. rewrite Hoo. apply Hn.
  - right. split; [done|]. exists c0. rewrite Hoo. split; [done|]. intros c'. rewrite Hoo. apply Hu.
Qed.

Lemma lock_ok_taken s' g' l :
  locked (locks s l) = 0 -> locked (locks s' l) = 1 -> owns g' l -> lock_ok s' (fupd G c g') l.
Proof.
  intros Hz Hone Ho. right. split; [done|]. exists c. rewrite fupd_eq. split; [done|].
  intros c' Hc'. destruct (decide (c' = c)) as [|Hne]; [done|]. rewrite fupd_ne in Hc' by done.
  destruct (Hlock l) as [[_ Hn]|[? _]]; [by destruct (Hn c')|lia].
Qed.

Lemma lock_ok_freed s' g' l :
  owns (G c) l -> locked (locks s' l) = 0 -> ~ owns g' l -> lock_ok s' (fupd G c g') l.
Proof.
  intros Ho Hz Hn. left. split; [done|]. intros c' Hc'.
  destruct (decide (c' = c)) as [->|Hne]; [by rewrite fupd_eq in Hc'|].
  rewrite fupd_ne in Hc' by done. destruct (Hlock l) as [[_ Hn']|(_ & c0 & _ & Hu)].
  - by apply (Hn' c).
  - apply Hne. by rewrite (Hu c' Hc'), (Hu c Ho).
Qed.

(** A step that keeps [lk->cpu] of every lock for the other CPUs. *)
Lemma sys_inv_step s' g' :
  cpu_ok s' c g' (fin c) ->
  (forall c', c' <> c -> cpus s' c' = cpus s c') ->
  (forall c' l, c' <> c -> cpu (locks s' l) = Some c' <-> cpu (locks s l) = Some c') ->
  (forall l, lock_ok s' (fupd G c g') l) -> sys_inv fin s'.
Proof.
  intros Hc Hrest Hrec Hl. exists (fupd G c g'). split; [|done]. intros c'.
  destruct (decide (c' = c)) as [->|Hne]; [by rewrite fupd_eq|]. rewrite fupd_ne by done.
  destruct (Hcpu c') as [H1 H2 H3 H4 H5 H6 H7]. rewrite <- (Hrest c' Hne) in *.
  split; try done. intros l. by rewrite Hrec.
Qed.

(** A step that changes only the CPU itself. *)
Lemma sys_inv_local x g' :
  code_ok g' (code x) -> gh g' = gh (G c) -> (forall l, gt g' = TOwn l <-> gt (G c) = TOwn l) ->
  noff x = depth g' -> noff x + Z.of_nat (length (code x)) < 2 ^ 31 ->
  (if noff x =? 0 then sie x = gi g' else sie x = false /\ intena x = gi g') ->
  last_intr (gi g') (gcs g') = fin c ->
  sys_inv fin (set_cpu c x s).
Proof.
  intros Hcode Hh Ht Hn Hsm Hi Hf. apply (sys_inv_step _ g').
  - destruct (Hcpu c). split; simpl; rewrite ?fupd_eq; try done; rewrite Hh; done.
  - intros c' Hc'. by apply fupd_ne.
  - done.
  - intros l. apply lock_ok_same; [done|]. unfold owns. by rewrite Hh, Ht.
Qed.

(** The same code position with a step of [lk->cpu]/[locked] of lock [l]. *)
Lemma sys_inv_lock l lk k g' :
  code_ok g' k -> NoDup (gh g') -> depth g' = noff (cpus s c) ->
  (length k <= length (code (cpus s c)))%nat ->
  (cpu lk = Some c <-> l ∈ gh g') -> (forall l', l' <> l -> l' ∈ gh g' <-> l' ∈ gh (G c)) ->
  (forall l', gt g' = TOwn l' -> l' = l) -> (forall l', gt (G c) = TOwn l' -> l' = l) ->
  (forall c', c' <> c -> cpu lk = Some c' <-> cpu (locks s l) = Some c') ->
  gi g' = gi (G c) -> last_intr (gi g') (gcs g') = fin c ->
  lock_ok (set_cpu c (with_code k (cpus s c)) (set_lock l lk s)) (fupd G c g') l ->
  sys_inv fin (set_cpu c (with_code k (cpus s c)) (set_lock l lk s)).
Proof.
  intros Hcode Hnd Hdep Hlen Hrec Hh Ht Ht' Hother Hgi Hfin Hl. destruct (Hcpu c) as [H1 H2 H3 H4 Hs H5 H6].
  apply (sys_inv_step _ g').
  - split; simpl; rewrite ?fupd_eq; simpl; rewrite ?Hgi, ?Hdep; try done; [|lia|by rewrite Hgi in Hfin].
    intros l'. destruct (decide (l' = l)) as [->|Hne]; [by rewrite fupd_eq|].
    rewrite fupd_ne, Hh by done. apply H3.
  - intros c' Hc'. by apply fupd_ne.
  - intros c' l' Hc'. simpl. destruct (decide (l' = l)) as [->|Hne]; [by rewrite fupd_eq, Hother|].
    by rewrite fupd_ne.
  - intros l'. destruct (decide (l' = l)) as [->|Hne]; [done|]. apply lock_ok_same.
    { simpl. by rewrite fupd_ne. }
    unfold owns. rewrite Hh by done.
    split; (intros [?|E]; [by left|]); exfalso; [by apply Hne, Ht|by apply Hne, Ht'].
Qed.

End preservation.

(** ** One step *)

Lemma holding_spec fin s G c l :
  (forall c, cpu_ok s c (G c) (fin c)) -> (forall l, lock_ok s G l) ->
  holding s c l = bool_decide (l ∈ gh (G c)).
Proof.
  intros Hcpu Hlock. unfold holding. destruct (Hcpu c) as [_ _ Hrec _ _ _ _].
  rewrite (bool_decide_ext _ _ (Hrec l)). case_bool_decide as Hin; [|by rewrite andb_false_r].
  destruct (Hlock l) as [[_ Hn]|[-> _]]; [|done]. destruct (Hn c). by left.
Qed.

Lemma length_compile_cons cl cs :
  length (compile (cl :: cs)) = (length (call_code cl) + length (compile cs))%nat.
Proof. unfold compile. simpl. by rewrite length_app. Qed.

Section steps.
Context (fin : nat -> bool) (s : sys) (G : nat -> ghost) (c : nat).
Hypothesis Hcpu : forall c, cpu_ok s c (G c) (fin c).
Hypothesis Hlock : forall l, lock_ok s G l.

Definition progresses : Prop := exists s', step c s = Ret tt s' /\ sys_inv fin s'.

(** [push_off] as the first step of [acquire], or called directly. *)
Lemma step_push k g' :
  code (cpus s c) = IPush :: k -> code_ok g' k -> gh g' = gh (G c) -> gt (G c) = TNone ->
  (forall l, gt g' <> TOwn l) -> depth g' = depth (G c) + 1 -> gi g' = gi (G c) ->
  last_intr (gi g') (gcs g') = fin c -> progresses.
Proof.
  intros Hcode Hok Hh Ht Ht' Hd Hgi Hfin. destruct (Hcpu c) as [H1 H2 H3 H4 Hs H5 H6].
  rewrite Hcode in Hs. simpl in Hs. assert (0 <= depth (G c)) by (unfold depth; lia).
  eexists. split; [unfold step; rewrite Hcode; reflexivity|].
  eapply (sys_inv_local fin s G c Hcpu Hlock _ g'); simpl; try done.
  - intros l. rewrite Ht. split; [intros E; by destruct (Ht' l)|done].
  - rewrite s32_small by lia. lia.
  - rewrite s32_small by lia. lia.
  - rewrite s32_small by lia. rewrite (proj2 (Z.eqb_neq (noff (cpus s c) + 1) 0)) by lia.
    split; [done|]. rewrite Hgi. destruct (noff (cpus s c) =? 0); [done|]. apply H5.
Qed.

Lemma step_call cl cs d h i :
  G c = mk_ghost d h TNone i (cl :: cs) -> code (cpus s c) = compile (cl :: cs) ->
  disciplined d h (cl :: cs) -> progresses.
Proof.
  intros HG Hcode Hd. destruct (Hcpu c) as [H1 H2 H3 H4 Hs H5 H6]. rewrite HG in *.
  simpl in H2, H3, H5, H6. unfold depth in H4. simpl in H4.
  destruct cl as [l|l| | |b]; simpl in Hd; cbn [last_intr] in H6.
  - destruct Hd as [Hl Hd].
    eapply (step_push _ (mk_ghost d h TPend i cs) Hcode); try rewrite HG; try done.
    + by constructor.
    + unfold depth. simpl. lia.
  - destruct Hd as [Hl Hd]. eexists. split.
    { unfold step. rewrite Hcode. simpl. rewrite (holding_spec fin s G c l Hcpu Hlock), HG.
      rewrite bool_decide_true by done. reflexivity. }
    eapply (sys_inv_local fin s G c Hcpu Hlock _ (mk_ghost d h TNone i cs)); try rewrite HG; simpl; try done.
    + by constructor.
    + rewrite Hcode, length_compile_cons in Hs. simpl in Hs. fold (compile cs). lia.
  - eapply (step_push _ (mk_ghost (S d) h TNone i cs) Hcode); try rewrite HG; try done.
    + by constructor.
    + unfold depth. simpl. lia.
  - destruct d as [|d]; [done|]. simpl in H4. rewrite (proj2 (Z.eqb_neq _ 0)) in H5 by lia.
    destruct H5 as [H5 H7]. eexists. split.
    { unfold step. rewrite (Hcode : _ = IPop :: compile cs). simpl. unfold pop_off.
      rewrite H5, (proj2 (Z.ltb_ge _ _)) by lia. reflexivity. }
    eapply (sys_inv_local fin s G c Hcpu Hlock _ (mk_ghost d h TNone i cs)); try rewrite HG; simpl; try done.
    + by constructor.
    + unfold depth. simpl. lia.
    + rewrite Hcode, length_compile_cons in Hs. simpl in Hs. fold (compile cs). lia.
    + rewrite H7. destruct (_ =? 0) eqn:E; simpl; destruct i; done.
  - destruct Hd as (-> & -> & Hd). simpl in H4. rewrite H4 in H5. eexists. split.
    { unfold step. rewrite (Hcode : _ = IIntr b :: compile cs). reflexivity. }
    eapply (sys_inv_local fin s G c Hcpu Hlock _ (mk_ghost 0 [] TNone b cs)); try rewrite HG; simpl; try done.
    + by constructor.
    + rewrite Hcode, length_compile_cons in Hs. simpl in Hs. fold (compile cs). lia.
    + by rewrite H4.
Qed.

Lemma step_tas d h i l cs :
  G c = mk_ghost d h TPend i cs -> code (cpus s c) = ITas l :: ISetCpu l :: compile cs ->
  l ∉ h -> disciplined d (l :: h) cs -> progresses.
Proof.
  intros HG Hcode Hl Hd. pose proof (Hcpu c) as [H1 H2 H3 H4 Hs H5 H6]. rewrite HG in *.
  simpl in H2, H3, H5, H6. unfold progresses, step. rewrite Hcode. simpl.
  destruct (Z.eqb_spec (locked (locks s l)) 0) as [Hz|Hnz].
  - eexists. split; [reflexivity|].
    eapply (sys_inv_lock fin s G c Hcpu Hlock l _ _ (mk_ghost d h (TOwn l) i cs)); try rewrite HG; try done.
    + by constructor.
    + rewrite Hcode. simpl. lia.
    + simpl. by rewrite H3.
    + simpl. by intros l' [= ->].
    + eapply (lock_ok_taken s G c Hlock); [done|simpl; by rewrite fupd_eq|by right].
  - eexists. split; [reflexivity|]. destruct (Hlock l) as [[? _]|[Hone Hx]]; [lia|].
    exists G. split.
    + intros c'. destruct (Hcpu c') as [K1 K2 K3 K4 Ks K5 K6]. split; try done.
      intros l'. simpl. unfold fupd. case_decide; [subst|]; apply K3.
    + intros l'. unfold lock_ok. simpl. unfold fupd. case_decide as El.
      * rewrite El. simpl. by right.
      * apply Hlock.
Qed.

Lemma step_window d h i l cs :
  G c = mk_ghost d h (TOwn l) i cs -> l ∉ h ->
  (code (cpus s c) = ISetCpu l :: compile cs /\ disciplined d (l :: h) cs) \/
  (code (cpus s c) = IUnlock l :: IPop :: compile cs /\ disciplined d h cs) -> progresses.
Proof.
  intros HG Hl Hcase. pose proof (Hcpu c) as [H1 H2 H3 H4 Hs H5 H6]. rewrite HG in *.
  simpl in H2, H3, H5, H6. unfold depth in H4; simpl in H4.
  assert (Hown : owns (G c) l) by (rewrite HG; by right).
  assert (Hnone : cpu (locks s l) = None).
  { destruct (cpu (locks s l)) as [c'|] eqn:E; [|done]. destruct (Hcpu c') as [_ _ K _ _ _ _].
    assert (Hc' : owns (G c') l) by (left; by apply K).
    destruct (Hlock l) as [[_ Hn]|(_ & c0 & _ & Hu)]; [by destruct (Hn c)|].
    assert (c' = c) as -> by (by rewrite (Hu c' Hc'), (Hu c Hown)). by rewrite HG in K; apply K in E. }
  destruct Hcase as [[Hcode Hd]|[Hcode Hd]]; unfold progresses, step; rewrite Hcode; simpl.
  - eexists. split; [reflexivity|].
    eapply (sys_inv_lock fin s G c Hcpu Hlock l _ _ (mk_ghost d (l :: h) TNone i cs)); try rewrite HG; simpl; try done.
    + by constructor.
    + by apply NoDup_cons.
    + rewrite H4. unfold depth. simpl. lia.
    + rewrite Hcode. simpl. lia.
    + split; [intros _; apply list_elem_of_here|done].
    + intros l' Hne. rewrite elem_of_cons. split; [by intros [?|?]|by right].
    + by intros l' [= ->].
    + intros c' Hc'. rewrite Hnone. split; [by intros [= ?]|done].
    + eapply (lock_ok_same s G c Hlock); [simpl; by rewrite fupd_eq|].
      rewrite HG. unfold owns; simpl. split; [by right|]. intros _. left. apply list_elem_of_here.
  - eexists. split; [reflexivity|].
    eapply (sys_inv_lock fin s G c Hcpu Hlock l _ _ (mk_ghost (S d) h TNone i (CPop :: cs))); try rewrite HG; simpl; try done.
    + exact (ok_calls (S d) h i (CPop :: cs) Hd).
    + rewrite H4. unfold depth. simpl. lia.
    + rewrite Hcode. simpl. lia.
    + by intros l' [= ->].
    + eapply (lock_ok_freed s G c Hlock); [done|simpl; by rewrite fupd_eq|].
      intros [?|?]; done.
Qed.

Lemma step_clr d h i l cs :
  G c = mk_ghost d h TNone i cs -> code (cpus s c) = IClrCpu l :: IUnlock l :: IPop :: compile cs ->
  l ∈ h -> disciplined d (filter (.≠ l) h) cs -> progresses.
Proof.
  intros HG Hcode Hl Hd. pose proof (Hcpu c) as [H1 H2 H3 H4 Hs H5 H6]. rewrite HG in *.
  simpl in H2, H3, H5, H6. unfold depth in H4; simpl in H4.
  assert (Hh : forall l', l' ∈ filter (.≠ l) h <-> l' <> l /\ l' ∈ h)
    by (intros l'; by rewrite list_elem_of_filter).
  assert (Hlen : length h = S (length (filter (.≠ l) h))).
  { assert (h ≡ₚ l :: filter (.≠ l) h) as ->%Permutation_length; [|done].
    apply NoDup_Permutation; [done| |].
    - apply NoDup_cons. rewrite Hh. split; [naive_solver|by apply NoDup_filter].
    - intros l'. rewrite elem_of_cons, Hh. destruct (decide (l' = l)); naive_solver. }
  unfold progresses, step. rewrite Hcode. simpl. eexists. split; [reflexivity|].
  eapply (sys_inv_lock fin s G c Hcpu Hlock l _ _ (mk_ghost d (filter (.≠ l) h) (TOwn l) i cs));
    try rewrite HG; simpl; try done.
  - constructor; [rewrite Hh; naive_solver|done].
  - by apply NoDup_filter.
  - rewrite H4. unfold depth. simpl. lia.
  - rewrite Hcode. simpl. lia.
  - rewrite Hh. naive_solver.
  - intros l' Hne. rewrite Hh. naive_solver.
  - by intros l' [= ->].
  - intros c' Hne. split; [done|]. intros E. apply (H3 l) in Hl. congruence.
  - eapply (lock_ok_same s G c Hlock); [simpl; by rewrite fupd_eq|].
    rewrite HG. unfold owns; simpl. split; [by left|by right].
Qed.

Lemma step_progresses : progresses.
Proof.
  pose proof (Hcpu c) as [Hok _ _ Hn Hs Hi Hfin].
  destruct (G c) as [d h t i cs] eqn:HG.
  remember (mk_ghost d h t i cs) as g eqn:Eg. remember (code (cpus s c)) as k eqn:Ek.
  destruct Hok as [d' h' i' cs' Hd|d' h' i' l cs' Hl Hd|d' h' i' l cs' Hl Hd|d' h' i' l cs' Hl Hd
    |d' h' i' l cs' Hl Hd|d' h' i' l cs' Hl Hd]; injection Eg as -> -> <- -> ->; symmetry in Ek.
  - destruct cs as [|cl cs]; [|by eapply step_call].
    exists s. split; [unfold step; by rewrite Ek|]. by exists G.
  - unfold progresses, step. rewrite Ek. simpl.
    rewrite (holding_spec fin s G c l Hcpu Hlock), HG, bool_decide_false by done.
    eexists. split; [reflexivity|].
    eapply (sys_inv_local fin s G c Hcpu Hlock _ (mk_ghost d h TPend i cs)); try rewrite HG; try done.
    + by constructor.
    + simpl. simpl in Hs. fold (compile cs). lia.
  - by eapply step_tas.
  - eapply step_window; eauto.
  - by eapply step_clr.
  - eapply step_window; eauto.
Qed.

End steps.

Lemma run_inv fin sched : forall s,
  sys_inv fin s -> exists s', run sched s = Ret tt s' /\ sys_inv fin s'.
Proof.
  induction sched as [|c sched IH]; intros s Hinv; [by exists s|].
  destruct Hinv as (G & Hcpu & Hlock).
  destruct (step_progresses fin s G c Hcpu Hlock) as (s1 & Hs1 & Hinv1).
  destruct (IH s1 Hinv1) as (s2 & Hs2 & Hinv2). exists s2. split; [|done].
  simpl. by rewrite (bind_Ret _ _ _ _ _ Hs1).
Qed.

(** Every CPU's program obeys the discipline and is shorter than 2^31 steps. *)
Definition clients_ok (progs : nat -> list call) : Prop :=
  forall c, disciplined 0 [] (progs c) /\ Z.of_nat (length (compile (progs c))) < 2 ^ 31.

Lemma boot_inv progs b :
  clients_ok progs -> sys_inv (fun c => last_intr (b c) (progs c)) (boot progs b).
Proof.
  intros Hok. exists (fun c => mk_ghost 0 [] TNone (b c) (progs c)). split.
  - intros c. destruct (Hok c). split; simpl; try done.
    + by constructor.
    + constructor.
    + intros l. split; [done|]. intros H'. inversion H'.
  - intros l. left. split; [done|]. intros c [H|H]; [inversion H|done].
Qed.

(** CPU [c] is between the swap that takes [l] and the swap that frees it. *)
Definition in_section (s : sys) (c l : nat) : Prop :=
  holding s c l = true \/ head (code (cpus s c)) = Some (ISetCpu l) \/
  head (code (cpus s c)) = Some (IUnlock l).

Lemma compile_head cs i : head (compile cs) = Some i ->
  (forall l, i <> ISetCpu l) /\ (forall l, i <> IUnlock l).
Proof. destruct cs as [|[]]; simpl; intros [=]; subst; done. Qed.

Lemma in_section_owns fin s G c l :
  (forall c, cpu_ok s c (G c) (fin c)) -> (forall l, lock_ok s G l) ->
  in_section s c l -> owns (G c) l.
Proof.
  intros Hcpu Hlock. pose proof (Hcpu c) as [Hok _ _ _ _ _ _]. intros [H|H].
  - rewrite (holding_spec fin s G c l Hcpu Hlock) in H. apply bool_decide_eq_true in H. by left.
  - destruct Hok; simpl in H; (destruct H as [H|H]; try (by inversion H)).
    + destruct (compile_head _ _ H) as [Hn _]. by destruct (Hn l).
    + destruct (compile_head _ _ H) as [_ Hn]. by destruct (Hn l).
    + injection H as ->. by right.
    + injection H as ->. by right.
Qed.

Lemma owns_depth g l : owns g l -> 1 <= depth g.
Proof.
  unfold depth. intros [H|H].
  - destruct (gh g) as [|? h]; [inversion H|]. simpl. lia.
  - rewrite H. simpl. lia.
Qed.

(** C8: whatever the interleaving of the CPUs, disciplined code never panics in
    the lock code, at most one CPU at a time is inside the section a spin lock
    protects, interrupts are off on that CPU, and a CPU that has left all its
    sections has the interrupt state it last asked for. *)
Theorem spinlock_mutual_exclusion progs b sched :
  clients_ok progs ->
  exists s, run sched (boot progs b) = Ret tt s /\
    (forall c c' l, in_section s c l -> in_section s c' l -> c = c') /\
    (forall c l, in_section s c l -> sie (cpus s c) = false /\ 1 <= noff (cpus s c)) /\
    (forall c, code (cpus s c) = [] -> noff (cpus s c) = 0 ->
       sie (cpus s c) = last_intr (b c) (progs c)).
Proof.
  intros Hok. destruct (run_inv _ sched _ (boot_inv progs b Hok)) as (s & Hrun & G & Hcpu & Hlock).
  exists s. split_and!; [done| | |].
  - intros c c' l H1%(in_section_owns _ s G _ _ Hcpu Hlock) H2%(in_section_owns _ s G _ _ Hcpu Hlock).
    destruct (Hlock l) as [[_ Hn]|(_ & c0 & _ & Hu)]; [by destruct (Hn c)|].
    by rewrite (Hu c H1), (Hu c' H2).
  - intros c l H1%(in_section_owns _ s G _ _ Hcpu Hlock). apply owns_depth in H1.
    destruct (Hcpu c) as [_ _ _ Hn _ Hi _]. rewrite Hn in *.
    rewrite (proj2 (Z.eqb_neq _ 0)) in Hi by lia. split; [apply Hi|done].
  - intros c Hc Hn. destruct (Hcpu c) as [Hcode _ _ _ _ Hi Hf]. rewrite Hn in Hi. simpl in Hi.
    rewrite Hi, <- Hf. rewrite Hc in Hcode. remember [] as k eqn:Ek.
    destruct Hcode as [d h i cs| | | | |]; try done. simpl. by destruct cs as [|[]].
Qed.

(** The errors the lock code checks for: acquiring a lock the CPU already
    holds and releasing one it does not hold panic, and so does a [pop_off]
    without its [push_off] or with interrupts on. *)
Theorem spinlock_misuse_panics s c l k :
  (code (cpus s c) = acquire l ++ k -> holding s c l = true ->
     run [c; c] s = Panic "acquire") /\
  (code (cpus s c) = release l ++ k -> holding s c l = false -> step c s = Panic "release") /\
  (code (cpus s c) = IPop :: k -> sie (cpus s c) = true ->
     step c s = Panic "pop_off - interruptible") /\
  (code (cpus s c) = IPop :: k -> sie (cpus s c) = false -> noff (cpus s c) < 1 ->
     step c s = Panic "pop_off").
Proof.
  split_and!.
  - intros Hc Hh. simpl. unfold bind. unfold step at 1. rewrite Hc. simpl. unfold step. simpl.
    rewrite fupd_eq. simpl. unfold holding in *. simpl. by rewrite Hh.
  - intros Hc Hh. unfold step. rewrite Hc. simpl. by rewrite Hh.
  - intros Hc Hs. unfold step. rewrite Hc. simpl. unfold pop_off. by rewrite Hs.
  - intros Hc Hs Hn. unfold step. rewrite Hc. simpl. unfold pop_off.
    by rewrite Hs, (proj2 (Z.ltb_lt _ _)).
Qed.

(** Two CPUs that take locks 0 and 1 around their work. *)
Definition demo_progs (c : nat) : list call :=
  match c with
  | 0%nat => [CAcquire 0; CAcquire 1; CRelease 1; CRelease 0]
  | 1%nat => [CPush; CAcquire 0; CRelease 0; CPop]
  | _ => []
  end.

Lemma demo_progs_ok : clients_ok demo_progs.
Proof.
  intros [|[|c]]; split; try (vm_compute; done); simpl; repeat split; try set_solver.
Qed.

Lemma spinlock_mutual_exclusion_witness :
  exists s, run [0; 0; 1; 0; 1; 1; 1; 0]%nat (boot demo_progs (fun _ => true)) = Ret tt s /\
    holding s 0 0 = true /\ forall c, in_section s c 0 -> c = 0%nat.
Proof.
  destruct (spinlock_mutual_exclusion demo_progs (fun _ => true) [0; 0; 1; 0; 1; 1; 1; 0]%nat
    demo_progs_ok) as (s & Hrun & Hex & _).
  exists s. split; [exact Hrun|]. vm_compute in Hrun. injection Hrun as <-.
  split; [reflexivity|]. intros c Hc. apply (Hex c 0%nat 0%nat); [exact Hc|]. left. reflexivity.
Defined.

Lemma spinlock_misuse_panics_witness :
  step 0 (boot (fun _ => [CRelease 3]) (fun _ => true)) = Panic "release".
Proof.
  apply (spinlock_misuse_panics (boot (fun _ => [CRelease 3]) (fun _ => true)) 0 3 []); reflexivity.
Defined.

End Spinlock.
