(* ===== verification/Kalloc.v ===== *)
(** The physical page allocator (kernel/mm/kalloc.c).

    Module [Kalloc] models [kinit], [freerange], [kfree], [kalloc], [freebytes],
    [krefcnt] and [kaddrefcnt]: one free list per CPU threaded through the free
    pages themselves, stealing from the other CPUs, and the reference counts of
    copy-on-write. The copy-on-write functions of the same file walk page
    tables and are in [Vm]. [kend] is the linker's symbol [end]. *)

From S2P Require Import Prelude Mem Kstring Spinlock.
Import Kstring.

Module Kalloc.

Definition PGSIZE : Z := 4096.
Definition KERNBASE : Z := 0x80000000.
Definition PHYSTOP : Z := KERNBASE + 128 * 1024 * 1024.
Definition NCPU : nat := 8.

Definition PGROUNDUP (sz : Z) : Z := Z.land (sz + PGSIZE - 1) (Z.lnot (PGSIZE - 1)).
Definition PGROUNDDOWN (a : Z) : Z := Z.land a (Z.lnot (PGSIZE - 1)).

(** Physical memory, [kmem[i].freelist] for each CPU, and [ref.cnt]. *)
Record kst := mk_kst { ram : mem; freelist : list Z; cnt : Z -> Z }.

Definition set_ram (m : mem) (s : kst) : kst := mk_kst m (freelist s) (cnt s).
Definition set_freelist (l : list Z) (s : kst) : kst := mk_kst (ram s) l (cnt s).
Definition set_cnt (i v : Z) (s : kst) : kst :=
  mk_kst (ram s) (freelist s) (fun j => if j =? i then v else cnt s j).

(** [ref.cnt[(uint64)pa / PGSIZE]], an array of [PHYSTOP / PGSIZE] ints. *)
Definition get_ref (pa : Z) : M kst Z :=
  let i := pa / PGSIZE in
  if (i <? 0) || (PHYSTOP / PGSIZE <=? i) then fault else gets (fun s => cnt s i).
Definition put_ref (pa v : Z) : M kst unit :=
  let i := pa / PGSIZE in
  if (i <? 0) || (PHYSTOP / PGSIZE <=? i) then fault else modify (set_cnt i v).

Definition get_freelist (id : nat) : M kst Z := let* s := get in deref (freelist s !! id).
Definition put_freelist (id : nat) (h : Z) : M kst unit :=
  let* s := get in
  let* _ := deref (freelist s !! id) in
  put (set_freelist (<[id := h]> (freelist s)) s).

Definition bad_page (kend pa : Z) : bool :=
  negb (pa mod PGSIZE =? 0) || (pa <? kend) || (PHYSTOP <=? pa).

Definition kfree (kend : Z) (id : nat) (pa : Z) : M kst unit :=
  if bad_page kend pa then panic "kfree"
  else
    let* n := get_ref pa in
    let n := s32 (n - 1) in
    put_ref pa n ;;;
    if n =? 0 then
      modify (fun s => set_ram (memset (ram s) pa 1 PGSIZE) s) ;;;
      let* h := get_freelist id in
      modify (fun s => set_ram (store64 (ram s) pa h) s) ;;;
      put_freelist id pa
    else ret tt.

(** Take the first page of list [i]: [r = freelist; freelist = r->next;
    ref.cnt[r] = 1]. *)
Definition pop_page (i : nat) (r : Z) : M kst unit :=
  let* next := gets (fun s => load64 (ram s) r) in
  put_freelist i next ;;;
  put_ref r 1.

(** The stealing loop [for (antid = 0; antid < NCPU; antid++)]; [r] is the
    variable the loop leaves behind. *)
Fixpoint steal (n : nat) (antid id : nat) (r : Z) : M kst Z :=
  match n with
  | O => ret r
  | S n =>
      if bool_decide (antid = id) then steal n (S antid) id r
      else
        let* r := get_freelist antid in
        if negb (r =? 0) then pop_page antid r ;;; ret r
        else steal n (S antid) id r
  end.

Definition kalloc (id : nat) : M kst Z :=
  let* r := get_freelist id in
  let* r :=
    if negb (r =? 0) then pop_page id r ;;; ret r
    else steal NCPU 0 id r in
  when (negb (r =? 0)) (modify (fun s => set_ram (memset (ram s) r 5 PGSIZE) s)) ;;;
  ret r.

(** [for (; p + PGSIZE <= pa_end; p += PGSIZE)] *)
Fixpoint freerange_from (fuel : nat) (kend : Z) (id : nat) (p pa_end : Z) : M kst unit :=
  match fuel with
  | O => nofuel
  | S fuel =>
      if p + PGSIZE <=? pa_end then
        put_ref p 1 ;;;
        kfree kend id p ;;;
        freerange_from fuel kend id (p + PGSIZE) pa_end
      else ret tt
  end.
Definition freerange (kend : Z) (id : nat) (pa_start pa_end : Z) : M kst unit :=
  let p := PGROUNDUP pa_start in
  freerange_from (S (Z.to_nat ((pa_end - p) / PGSIZE))) kend id p pa_end.

Definition kinit (kend : Z) (id : nat) : M kst unit := freerange kend id kend PHYSTOP.

(** [while (p) { *dst += PGSIZE; p = p->next; }] *)
Fixpoint count_list (fuel : nat) (m : mem) (p dst : Z) : option Z :=
  match fuel with
  | O => None
  | S fuel => if p =? 0 then Some dst else count_list fuel m (load64 m p) (u64 (dst + PGSIZE))
  end.
(** A list never has more pages than there are page frames below [PHYSTOP]. *)
Definition list_fuel : nat := S (Z.to_nat ((PHYSTOP - KERNBASE) / PGSIZE)).
Fixpoint freebytes_from (n i : nat) (dst : Z) : M kst Z :=
  match n with
  | O => ret dst
  | S n =>
      let* p := get_freelist i in
      let* m := gets ram in
      match count_list list_fuel m p dst with
      | Some dst => freebytes_from n (S i) dst
      | None => nofuel
      end
  end.
Definition freebytes : M kst Z := freebytes_from 8 0 0.

Definition krefcnt (pa : Z) : M kst Z := get_ref pa.

Definition kaddrefcnt (kend pa : Z) : M kst Z :=
  if bad_page kend pa then ret (-1)
  else
    let* n := get_ref pa in
    put_ref pa (s32 (n + 1)) ;;;
    ret 0.

(** ** Representation *)

(** The page frames from [kend] up to [hi]. *)
Definition page_ok (kend hi p : Z) : Prop := p mod PGSIZE = 0 /\ kend <= p < hi.

(** The free pages [l] linked through their first word, from [h]. *)
Fixpoint chain (m : mem) (h : Z) (l : list Z) : Prop :=
  match l with
  | [] => h = 0
  | p :: l => h = p /\ chain m (load64 m p) l
  end.

(** [ls] are the pages of each CPU's free list. Every page frame is on exactly
    one list when its count is 0, and on none when it is positive. *)
Record alloc_inv (kend hi : Z) (s : kst) (ls : list (list Z)) : Prop := {
  ai_ram : mem_ok (ram s);
  ai_heads : length (freelist s) = NCPU;
  ai_lists : length ls = NCPU;
  ai_chain : forall i h l, freelist s !! i = Some h -> ls !! i = Some l -> chain (ram s) h l;
  ai_nodup : NoDup (concat ls);
  ai_page : forall p, p ∈ concat ls -> page_ok kend hi p;
  ai_free : forall p, page_ok kend hi p -> p ∈ concat ls <-> cnt s (p / PGSIZE) = 0;
  ai_cnt : forall p, page_ok kend hi p -> 0 <= cnt s (p / PGSIZE) < 2 ^ 31 }.

(** The linker places [end] inside RAM. *)
Definition kend_ok (kend : Z) : Prop := KERNBASE <= kend < PHYSTOP.

(** ** Page arithmetic *)

Lemma page_split p : p mod PGSIZE = 0 -> p = PGSIZE * (p / PGSIZE).
Proof. intros H. unfold PGSIZE in *. dlia. Qed.

(** The fuel of a loop that advances by one page. *)
Lemma fuel_step x y fuel :
  (Z.to_nat (x / PGSIZE) < S fuel)%nat -> y = x - PGSIZE -> PGSIZE <= x ->
  (Z.to_nat (y / PGSIZE) < fuel)%nat.
Proof.
  intros Hf -> Hx. replace (x / PGSIZE) with ((x - PGSIZE) / PGSIZE + 1) in Hf by (unfold PGSIZE; dlia).
  assert (0 <= (x - PGSIZE) / PGSIZE) by (apply Z.div_pos; unfold PGSIZE in *; lia). lia.
Qed.

Lemma page_disjoint p q :
  p mod PGSIZE = 0 -> q mod PGSIZE = 0 -> p <> q -> p + PGSIZE <= q \/ q + PGSIZE <= p.
Proof. unfold PGSIZE. dlia. Qed.

Lemma page_index_inj p q :
  p mod PGSIZE = 0 -> q mod PGSIZE = 0 -> p / PGSIZE = q / PGSIZE -> p = q.
Proof. unfold PGSIZE. dlia. Qed.

Lemma PGROUNDDOWN_spec a : PGROUNDDOWN a = a - a mod PGSIZE.
Proof.
  unfold PGROUNDDOWN. change (PGSIZE - 1) with (Z.ones 12). rewrite <- Z.ldiff_land.
  rewrite Z.ldiff_ones_r, Z.shiftr_div_pow2, Z.shiftl_mul_pow2 by lia. unfold PGSIZE.
  change (2 ^ 12) with 4096. dlia.
Qed.
Lemma PGROUNDUP_spec a : PGROUNDUP a = a + PGSIZE - 1 - (a + PGSIZE - 1) mod PGSIZE.
Proof. unfold PGROUNDUP. apply PGROUNDDOWN_spec. Qed.
Lemma PGROUNDUP_bounds a : a <= PGROUNDUP a < a + PGSIZE /\ PGROUNDUP a mod PGSIZE = 0.
Proof. rewrite PGROUNDUP_spec. unfold PGSIZE. dlia. Qed.
Lemma PGROUNDDOWN_bounds a : a - PGSIZE < PGROUNDDOWN a <= a /\ PGROUNDDOWN a mod PGSIZE = 0.
Proof. rewrite PGROUNDDOWN_spec. unfold PGSIZE. dlia. Qed.

Lemma bad_page_spec kend hi p :
  kend_ok kend -> hi <= PHYSTOP -> page_ok kend hi p -> bad_page kend p = false.
Proof.
  intros Hk Hhi [Hm Hp]. unfold bad_page. rewrite Hm.
  rewrite (proj2 (Z.ltb_ge _ _)), (proj2 (Z.leb_gt _ _)) by lia. done.
Qed.

Lemma bad_page_false kend p : bad_page kend p = false -> page_ok kend PHYSTOP p.
Proof. unfold bad_page. intros H. bool_cases. split; [done|lia]. Qed.

(** ** Memory accesses *)

Lemma get_ref_run kend hi p s :
  kend_ok kend -> hi <= PHYSTOP -> page_ok kend hi p ->
  get_ref p s = Ret (cnt s (p / PGSIZE)) s.
Proof.
  intros Hk Hhi [Hm Hp]. unfold get_ref. unfold kend_ok, KERNBASE in Hk.
  rewrite (proj2 (Z.ltb_ge _ _)), (proj2 (Z.leb_gt _ _)); [done| |unfold PGSIZE; dlia].
  unfold PHYSTOP, KERNBASE, PGSIZE in *. dlia.
Qed.
Lemma put_ref_run kend hi p v s :
  kend_ok kend -> hi <= PHYSTOP -> page_ok kend hi p ->
  put_ref p v s = Ret tt (set_cnt (p / PGSIZE) v s).
Proof.
  intros Hk Hhi [Hm Hp]. unfold put_ref. unfold kend_ok, KERNBASE in Hk.
  rewrite (proj2 (Z.ltb_ge _ _)), (proj2 (Z.leb_gt _ _)); [done| |unfold PGSIZE; dlia].
  unfold PHYSTOP, KERNBASE, PGSIZE in *. dlia.
Qed.
Lemma get_freelist_run id s h : freelist s !! id = Some h -> get_freelist id s = Ret h s.
Proof. intros H. unfold get_freelist. munfold. by rewrite H. Qed.
Lemma put_freelist_run id s h h' :
  freelist s !! id = Some h' ->
  put_freelist id h s = Ret tt (set_freelist (<[id := h]> (freelist s)) s).
Proof. intros H. unfold put_freelist. munfold. by rewrite H. Qed.

Lemma chain_frame l : forall m m' h,
  (forall p, p ∈ l -> agree m m' p 8) -> chain m h l -> chain m' h l.
Proof.
  induction l as [|p l IH]; intros m m' h Hag; [done|]. intros [-> Hc]. split; [done|].
  rewrite (load64_ext m m') by (apply Hag; set_solver).
  apply (IH m m'); [|done]. intros q Hq. apply Hag. set_solver.
Qed.

(** ** The operations on the representation *)

Section spec.
Context (kend hi : Z).
Hypothesis Hkend : kend_ok kend.
Hypothesis Hhi : hi <= PHYSTOP.
Implicit Types (s : kst) (ls : list (list Z)) (p : Z).

Lemma page_nonzero p : page_ok kend hi p -> p <> 0.
Proof. intros [_ Hp]. unfold kend_ok, KERNBASE in Hkend. lia. Qed.

Lemma page_u64 p : page_ok kend hi p -> 0 <= p < 2 ^ 64.
Proof. intros [_ Hp]. unfold kend_ok, KERNBASE, PHYSTOP in *. unfold KERNBASE in *. lia. Qed.

Lemma cnt_set_ne s p q v :
  page_ok kend hi p -> page_ok kend hi q -> p <> q ->
  cnt (set_cnt (p / PGSIZE) v s) (q / PGSIZE) = cnt s (q / PGSIZE).
Proof.
  intros [Hp _] [Hq _] Hne. simpl. rewrite (proj2 (Z.eqb_neq _ _)); [done|].
  intros E. by apply Hne, page_index_inj.
Qed.
Lemma cnt_set_eq s p v : cnt (set_cnt (p / PGSIZE) v s) (p / PGSIZE) = v.
Proof. simpl. by rewrite Z.eqb_refl. Qed.

(** A page in use keeps being in use when its count stays positive. *)
Lemma inv_set_cnt s ls p v :
  alloc_inv kend hi s ls -> page_ok kend hi p -> p ∉ concat ls -> 0 < v < 2 ^ 31 ->
  alloc_inv kend hi (set_cnt (p / PGSIZE) v s) ls.
Proof.
  intros [] Hp Hnin Hv. split; try done; intros q Hq.
  - destruct (decide (q = p)) as [->|Hne]; [rewrite cnt_set_eq; split; [done|lia]|].
    rewrite cnt_set_ne by done. by apply ai_free0.
  - destruct (decide (q = p)) as [->|Hne]; [rewrite cnt_set_eq; lia|].
    rewrite cnt_set_ne by done. by apply ai_cnt0.
Qed.

(** Writing inside a page that is on no free list. *)
Lemma inv_write s ls p m' :
  alloc_inv kend hi s ls -> page_ok kend hi p -> p ∉ concat ls -> mem_ok m' ->
  (forall x, ~ (p <= x < p + PGSIZE) -> m' x = ram s x) ->
  alloc_inv kend hi (set_ram m' s) ls.
Proof.
  intros [] Hp Hnin Hm' Hfr. split; try done. intros i h l Hh Hl.
  eapply chain_frame; [|by eapply ai_chain0]. intros q Hq x Hx. simpl. apply Hfr.
  pose proof (elem_concat_lookup _ _ _ _ Hl Hq) as Hin.
  destruct (page_disjoint p q); [apply Hp|by apply ai_page0|by intros ->| |]; unfold PGSIZE in *; lia.
Qed.

(** The state after a page's last reference is freed. *)
Definition freed (s : kst) (id : nat) (pa h : Z) : kst :=
  mk_kst (store64 (memset (ram s) pa 1 PGSIZE) pa h) (<[id := pa]> (freelist s))
    (cnt (set_cnt (pa / PGSIZE) 0 s)).

Lemma kfree_last_run s id pa h :
  page_ok kend hi pa -> cnt s (pa / PGSIZE) = 1 -> freelist s !! id = Some h ->
  kfree kend id pa s = Ret tt (freed s id pa h).
Proof.
  intros Hp Hc Hh. unfold kfree. rewrite (bad_page_spec kend hi) by done.
  rewrite (bind_Ret _ _ _ _ _ (get_ref_run kend hi pa s Hkend Hhi Hp)), Hc. simpl.
  rewrite (bind_Ret _ _ _ _ _ (put_ref_run kend hi pa _ s Hkend Hhi Hp)). simpl.
  unfold bind at 1. simpl.
  erewrite bind_Ret by (by apply get_freelist_run). unfold bind at 1. simpl.
  by erewrite put_freelist_run.
Qed.

Lemma kfree_shared_run s id pa :
  page_ok kend hi pa -> 1 < cnt s (pa / PGSIZE) < 2 ^ 31 ->
  kfree kend id pa s = Ret tt (set_cnt (pa / PGSIZE) (cnt s (pa / PGSIZE) - 1) s).
Proof.
  intros Hp Hc. unfold kfree. rewrite (bad_page_spec kend hi) by done.
  rewrite (bind_Ret _ _ _ _ _ (get_ref_run kend hi pa s Hkend Hhi Hp)). simpl.
  rewrite (bind_Ret _ _ _ _ _ (put_ref_run kend hi pa _ s Hkend Hhi Hp)).
  rewrite s32_small by lia. by rewrite (proj2 (Z.eqb_neq _ _)) by lia.
Qed.

Lemma freed_inv s ls id pa h l :
  alloc_inv kend hi s ls -> page_ok kend hi pa -> 0 < cnt s (pa / PGSIZE) ->
  freelist s !! id = Some h -> ls !! id = Some l ->
  alloc_inv kend hi (freed s id pa h) (<[id := pa :: l]> ls).
Proof.
  intros Hinv Hp Hc Hh Hl. pose proof Hinv as [].
  assert (Hnin : pa ∉ concat ls) by (rewrite ai_free0 by done; lia).
  assert (Hh64 : 0 <= h < 2 ^ 64).
  { specialize (ai_chain0 id h l Hh Hl). destruct l as [|q l]; simpl in ai_chain0; [lia|].
    destruct ai_chain0 as [-> _]. apply page_u64, ai_page0. eapply elem_concat_lookup; [done|set_solver]. }
  assert (Hout : forall x, ~ (pa <= x < pa + PGSIZE) -> ram (freed s id pa h) x = ram s x).
  { intros x Hx. simpl. unfold store64. rewrite store_out by (unfold PGSIZE in Hx; lia).
    rewrite memset_spec by (unfold PGSIZE; lia).
    destruct (Z.leb_spec pa x), (Z.ltb_spec x (pa + PGSIZE)); simpl; (lia || done). }
  assert (Hold : forall i l', ls !! i = Some l' -> forall q, q ∈ l' -> agree (ram s) (ram (freed s id pa h)) q 8).
  { intros i l' Hi q Hq x Hx. apply Hout. pose proof (elem_concat_lookup _ _ _ _ Hi Hq).
    destruct (page_disjoint pa q); [apply Hp|by apply ai_page0|by intros ->| |]; unfold PGSIZE in *; lia. }
  assert (Hperm : concat (<[id := pa :: l]> ls) ≡ₚ pa :: concat ls) by (by apply concat_cons_perm).
  split.
  - unfold freed, store64. cbn [ram]. auto with kernel.
  - simpl. by rewrite length_insert.
  - by rewrite length_insert.
  - intros i h' l' Hi Hi'. apply list_insert_cases in Hi' as [[-> ->]|[Hne Hi']].
    + apply list_insert_cases in Hi as [[_ ->]|[? ?]]; [|done]. split; [done|].
      simpl. rewrite load64_store64_eq by done. eapply chain_frame; [by eapply Hold|by eapply ai_chain0].
    + apply list_insert_cases in Hi as [[-> _]|[_ Hi]]; [done|].
      eapply chain_frame; [by eapply Hold|by eapply ai_chain0].
  - rewrite Hperm. by apply NoDup_cons.
  - intros q. rewrite Hperm, elem_of_cons. intros [->|Hq]; [done|by apply ai_page0].
  - intros q Hq. rewrite Hperm, elem_of_cons. destruct (decide (q = pa)) as [->|Hne].
    + unfold freed. simpl. rewrite Z.eqb_refl. naive_solver.
    + unfold freed. cbn [cnt]. rewrite cnt_set_ne by done. rewrite <- ai_free0 by done. naive_solver.
  - intros q Hq. unfold freed. cbn [cnt]. destruct (decide (q = pa)) as [->|Hne].
    + rewrite cnt_set_eq. lia.
    + rewrite cnt_set_ne by done. by apply ai_cnt0.
Qed.

End spec.

(** ** Allocation *)

(** The state after [r] was taken from list [j], and after it was filled. *)
Definition popped (s : kst) (j : nat) (r : Z) : kst :=
  set_cnt (r / PGSIZE) 1 (set_freelist (<[j := load64 (ram s) r]> (freelist s)) s).
Definition taken (s : kst) (j : nat) (r : Z) : kst :=
  set_ram (memset (ram s) r 5 PGSIZE) (popped s j r).

(** Which page is handed out: the first of the CPU's own list, else the first
    of the lowest-numbered other CPU that has one. *)
Fixpoint pick_from (n antid id : nat) (ls : list (list Z)) : option (nat * Z) :=
  match n with
  | O => None
  | S n =>
      match ls !! antid with
      | Some (r :: _) => if bool_decide (antid = id) then pick_from n (S antid) id ls else Some (antid, r)
      | _ => pick_from n (S antid) id ls
      end
  end.
Definition pick (id : nat) (ls : list (list Z)) : option (nat * Z) :=
  match ls !! id with
  | Some (r :: _) => Some (id, r)
  | _ => pick_from NCPU 0 id ls
  end.

Lemma pick_from_Some n : forall antid id ls j r,
  pick_from n antid id ls = Some (j, r) -> exists l, ls !! j = Some (r :: l).
Proof.
  induction n as [|n IH]; intros antid id ls j r; simpl; [done|].
  destruct (ls !! antid) as [[|q l]|] eqn:E; [apply IH| |apply IH].
  case_bool_decide; [apply IH|]. intros [= <- <-]. eauto.
Qed.
Lemma pick_Some id ls j r : pick id ls = Some (j, r) -> exists l, ls !! j = Some (r :: l).
Proof.
  unfold pick. destruct (ls !! id) as [[|q l]|] eqn:E; try apply pick_from_Some.
  intros [= <- <-]. eauto.
Qed.

Lemma pick_from_None n : forall antid id ls j l,
  pick_from n antid id ls = None -> (antid <= j < antid + n)%nat -> j <> id ->
  ls !! j = Some l -> l = [].
Proof.
  induction n as [|n IH]; intros antid id ls j l; simpl; [lia|]. intros Hp Hj Hne Hl.
  destruct (decide (j = antid)) as [->|Hja].
  - rewrite Hl in Hp. destruct l as [|q l]; [done|]. by rewrite bool_decide_false in Hp.
  - apply (IH (S antid) id ls j l); [|lia|done|done].
    destruct (ls !! antid) as [[|q l']|]; [done| |done]. by case_bool_decide.
Qed.
Lemma pick_None id ls : length ls = NCPU -> pick id ls = None -> concat ls = [].
Proof.
  intros Hlen Hp.
  destruct (concat ls) as [|x xs] eqn:E; [done|].
  assert (x ∈ concat ls) as (i & l & Hi & Hx)%elem_concat by (rewrite E; set_solver).
  unfold pick in Hp. destruct (decide (i = id)) as [->|Hne].
  - rewrite Hi in Hp. destruct l; [by apply not_elem_of_nil in Hx|done].
  - assert (l = []) as ->; [|by apply not_elem_of_nil in Hx].
    apply (pick_from_None NCPU 0 id ls i l); try done.
    + destruct (ls !! id) as [[|q l']|]; done.
    + apply lookup_lt_Some in Hi. rewrite Hlen in Hi. lia.
Qed.

Section alloc.
Context (kend hi : Z).
Hypothesis Hkend : kend_ok kend.
Hypothesis Hhi : hi <= PHYSTOP.
Implicit Types (s : kst) (ls : list (list Z)).

Lemma inv_head s ls i :
  alloc_inv kend hi s ls -> (i < NCPU)%nat ->
  exists h l, freelist s !! i = Some h /\ ls !! i = Some l /\ chain (ram s) h l /\
    (forall p, p ∈ l -> page_ok kend hi p) /\ (h = 0 <-> l = []).
Proof.
  intros [] Hi.
  destruct (lookup_lt_is_Some_2 (freelist s) i) as [h Hh]; [lia|].
  destruct (lookup_lt_is_Some_2 ls i) as [l Hl]; [lia|].
  exists h, l. assert (Hpg : forall p, p ∈ l -> page_ok kend hi p).
  { intros p Hp. apply ai_page0. by eapply elem_concat_lookup. }
  split_and!; eauto. specialize (ai_chain0 i h l Hh Hl).
  destruct l as [|p l]; simpl in *; [done|]. destruct ai_chain0 as [-> _].
  split; [|done]. intros ->. edestruct (page_nonzero kend hi Hkend 0); [apply Hpg; set_solver|done].
Qed.

Lemma pop_page_run s ls i r l :
  alloc_inv kend hi s ls -> ls !! i = Some (r :: l) -> pop_page i r s = Ret tt (popped s i r).
Proof.
  intros Hinv Hl. destruct (inv_head s ls i Hinv) as (h & l' & Hh & Hl' & Hc & Hpg & _).
  { apply lookup_lt_Some in Hl. by destruct Hinv as [_ _ <- _ _ _ _ _]. }
  assert (l' = r :: l) as -> by congruence. unfold pop_page, bind at 1. simpl.
  erewrite bind_Ret by (by eapply put_freelist_run).
  eapply put_ref_run; [done|done|]. apply Hpg. set_solver.
Qed.

Lemma popped_inv s ls j r l :
  alloc_inv kend hi s ls -> ls !! j = Some (r :: l) ->
  alloc_inv kend hi (popped s j r) (<[j := l]> ls).
Proof.
  intros Hinv Hl. pose proof Hinv as [].
  pose proof (concat_remove_perm ls j [] l r Hl) as Hperm. simpl in Hperm.
  assert (Hr : page_ok kend hi r) by (apply ai_page0; rewrite <- Hperm; set_solver).
  assert (Hnd : NoDup (r :: concat (<[j := l]> ls))) by (by rewrite Hperm).
  apply NoDup_cons in Hnd as [Hnin Hnd].
  split; simpl; try done.
  - by rewrite length_insert.
  - by rewrite length_insert.
  - intros i h l' Hi Hi'. apply list_insert_cases in Hi' as [[-> ->]|[Hne Hi']].
    + apply list_insert_cases in Hi as [[_ ->]|[? ?]]; [|done].
      destruct (lookup_lt_is_Some_2 (freelist s) j) as [h' Hh'].
      { apply lookup_lt_Some in Hl. lia. }
      by destruct (ai_chain0 j h' (r :: l) Hh' Hl) as [-> ?].
    + apply list_insert_cases in Hi as [[-> _]|[_ Hi]]; [done|]. by eapply ai_chain0.
  - intros p Hp. apply ai_page0. rewrite <- Hperm. set_solver.
  - intros p Hp. destruct (Z.eqb_spec (p / PGSIZE) (r / PGSIZE)) as [E|Hne].
    + apply page_index_inj in E; [|apply Hp|apply Hr]. subst p. done.
    + rewrite <- ai_free0, <- Hperm, elem_of_cons by done. naive_solver.
  - intros p Hp. destruct (_ =? _); [lia|by apply ai_cnt0].
Qed.

Lemma steal_run s ls id : alloc_inv kend hi s ls ->
  forall n antid, (antid + n <= NCPU)%nat ->
  steal n antid id 0 s =
    match pick_from n antid id ls with Some (j, r) => Ret r (popped s j r) | None => Ret 0 s end.
Proof.
  intros Hinv. induction n as [|n IH]; intros antid Hn; [done|]. cbn [steal pick_from].
  destruct (inv_head s ls antid Hinv) as (h & l & Hh & Hl & Hc & Hpg & Hz); [lia|]. rewrite Hl.
  case_bool_decide as E.
  { rewrite IH by lia. by destruct l. }
  rewrite (bind_Ret _ _ _ _ _ (get_freelist_run _ _ _ Hh)). destruct l as [|r l].
  - rewrite (proj2 Hz) by done. simpl. apply IH. lia.
  - destruct Hc as [-> Hc]. rewrite (proj2 (Z.eqb_neq r 0)) by naive_solver. simpl.
    by rewrite (bind_Ret _ _ _ _ _ (pop_page_run _ _ _ _ _ Hinv Hl)).
Qed.

Lemma kalloc_spec s ls id :
  alloc_inv kend hi s ls -> (id < NCPU)%nat ->
  match pick id ls with
  | Some (j, r) => kalloc id s = Ret r (taken s j r) /\ page_ok kend hi r /\
      exists l, ls !! j = Some (r :: l) /\ alloc_inv kend hi (taken s j r) (<[j := l]> ls)
  | None => kalloc id s = Ret 0 s /\ concat ls = []
  end.
Proof.
  intros Hinv Hid.
  assert (Hrun : (let* r := get_freelist id in
      if negb (r =? 0) then pop_page id r ;;; ret r else steal NCPU 0 id r) s =
    match pick id ls with Some (j, r) => Ret r (popped s j r) | None => Ret 0 s end).
  { destruct (inv_head s ls id Hinv Hid) as (h & l & Hh & Hl & Hc & Hpg & Hz).
    rewrite (bind_Ret _ _ _ _ _ (get_freelist_run _ _ _ Hh)). unfold pick. rewrite Hl.
    destruct l as [|r l].
    - rewrite (proj2 Hz) by done. cbn [negb Z.eqb]. by apply steal_run.
    - destruct Hc as [-> Hc]. rewrite (proj2 (Z.eqb_neq r 0)) by naive_solver. cbn [negb].
      by rewrite (bind_Ret _ _ _ _ _ (pop_page_run _ _ _ _ _ Hinv Hl)). }
  assert (Hk : kalloc id s = (let* r := (let* r := get_freelist id in
      if negb (r =? 0) then pop_page id r ;;; ret r else steal NCPU 0 id r) in
    when (negb (r =? 0)) (modify (fun s => set_ram (memset (ram s) r 5 PGSIZE) s)) ;;; ret r) s).
  { unfold kalloc, bind. by destruct (get_freelist id s). }
  destruct (pick id ls) as [[j r]|] eqn:Ep.
  - destruct (pick_Some _ _ _ _ Ep) as [l Hl]. pose proof (popped_inv s ls j r l Hinv Hl) as Hpop.
    assert (Hr : page_ok kend hi r) by (eapply ai_page; [exact Hinv|eapply elem_concat_lookup; [exact Hl|set_solver]]).
    rewrite Hk, (bind_Ret _ _ _ _ _ Hrun).
    rewrite (proj2 (Z.eqb_neq r 0)) by (by eapply page_nonzero).
    split; [done|]. split; [done|]. exists l. split; [done|].
    apply (inv_write kend hi (popped s j r) _ r); [done|done| | |].
    + rewrite (ai_free _ _ _ _ Hpop) by done. simpl. rewrite Z.eqb_refl. done.
    + apply memset_ok, (ai_ram _ _ _ _ Hinv).
    + intros x Hx. simpl. rewrite memset_spec by (unfold PGSIZE; lia).
      destruct (Z.leb_spec r x), (Z.ltb_spec x (r + PGSIZE)); simpl; (lia || done).
  - rewrite Hk, (bind_Ret _ _ _ _ _ Hrun). split; [done|]. eapply pick_None; [|done].
    apply (ai_lists _ _ _ _ Hinv).
Qed.

End alloc.

(** ** Start-up *)

Definition boot_kst (m : mem) : kst := mk_kst m (replicate NCPU 0) (fun _ => 0).

(** Every page frame below [hi] is on a free list. *)
Definition all_free (kend hi : Z) (ls : list (list Z)) : Prop :=
  forall p, page_ok kend hi p -> p ∈ concat ls.

Section startup.
Context (kend : Z).
Hypothesis Hkend : kend_ok kend.

Lemma inv_extend s ls p :
  alloc_inv kend p s ls -> p mod PGSIZE = 0 -> kend <= p ->
  alloc_inv kend (p + PGSIZE) (set_cnt (p / PGSIZE) 1 s) ls.
Proof.
  intros [] Hm Hp.
  assert (Hpg : forall q, page_ok kend (p + PGSIZE) q -> q = p \/ (page_ok kend p q /\ q <> p)).
  { intros q [Hq1 Hq2]. destruct (decide (q = p)); [by left|right]. split; [|done]. split; [done|].
    destruct (page_disjoint p q); unfold PGSIZE in *; try done; lia. }
  assert (Hnin : p ∉ concat ls) by (intros [_ ?]%ai_page0; lia).
  assert (Hcnt : forall q, q <> p -> q mod PGSIZE = 0 ->
    cnt (set_cnt (p / PGSIZE) 1 s) (q / PGSIZE) = cnt s (q / PGSIZE)).
  { intros q Hne Hq. simpl. rewrite (proj2 (Z.eqb_neq _ _)); [done|]. intros E. by apply Hne, page_index_inj. }
  split; try done.
  - intros q Hq. destruct (ai_page0 q Hq) as [? ?]. split; [done|]. unfold PGSIZE. lia.
  - intros q [->|[Hq Hne]]%Hpg; [rewrite cnt_set_eq; split; [done|lia]|].
    rewrite Hcnt by (done || apply Hq). by apply ai_free0.
  - intros q [->|[Hq Hne]]%Hpg; [rewrite cnt_set_eq; lia|].
    rewrite Hcnt by (done || apply Hq). by apply ai_cnt0.
Qed.

Lemma freerange_from_spec id pa_end : (id < NCPU)%nat -> pa_end <= PHYSTOP ->
  pa_end mod PGSIZE = 0 -> forall fuel p s ls,
  alloc_inv kend p s ls -> all_free kend p ls -> p mod PGSIZE = 0 -> kend <= p <= pa_end ->
  (Z.to_nat ((pa_end - p) / PGSIZE) < fuel)%nat ->
  exists s' ls', freerange_from fuel kend id p pa_end s = Ret tt s' /\
    alloc_inv kend pa_end s' ls' /\ all_free kend pa_end ls'.
Proof.
  intros Hid Hend Hendm fuel. induction fuel as [|fuel IH]; intros p s ls Hinv Hall Hm Hp Hf; [lia|].
  cbn [freerange_from]. destruct (Z.leb_spec (p + PGSIZE) pa_end) as [Hle|Hgt].
  2:{ exists s, ls. replace pa_end with p; [done|]. unfold PGSIZE in *. dlia. }
  assert (Hpg : page_ok kend (p + PGSIZE) p) by (split; [done|unfold PGSIZE; lia]).
  rewrite (bind_Ret _ _ _ _ _ (put_ref_run kend _ p 1 s Hkend (Z.le_trans _ _ _ Hle Hend) Hpg)).
  pose proof (inv_extend s ls p Hinv Hm (proj1 Hp)) as Hinv1.
  set (s1 := set_cnt (p / PGSIZE) 1 s) in *.
  destruct (inv_head kend _ Hkend (Z.le_trans _ _ _ Hle Hend) s1 ls id Hinv1 Hid) as (h & l & Hh & Hl & _).
  assert (Hc1 : cnt s1 (p / PGSIZE) = 1) by apply cnt_set_eq.
  rewrite (bind_Ret _ _ _ _ _ (kfree_last_run kend _ Hkend (Z.le_trans _ _ _ Hle Hend) s1 id p h Hpg Hc1 Hh)).
  apply (IH (p + PGSIZE) _ (<[id := p :: l]> ls)).
  - apply freed_inv; try done; lia.
  - intros q Hq. rewrite (concat_cons_perm ls id l p Hl), elem_of_cons.
    destruct (decide (q = p)) as [|Hne]; [by left|right]. apply Hall. destruct Hq as [Hq1 Hq2].
    split; [done|]. destruct (page_disjoint p q); unfold PGSIZE in *; try done; lia.
  - unfold PGSIZE in *. dlia.
  - unfold PGSIZE in *. lia.
  - eapply fuel_step; [exact Hf|lia|lia].
Qed.

Lemma kinit_spec id m : (id < NCPU)%nat -> mem_ok m ->
  exists s ls, kinit kend id (boot_kst m) = Ret tt s /\
    alloc_inv kend PHYSTOP s ls /\ all_free kend PHYSTOP ls.
Proof.
  intros Hid Hm. pose proof (PGROUNDUP_bounds kend) as [Hb Hb2].
  assert (Hnone : forall p, ~ page_ok kend (PGROUNDUP kend) p).
  { intros p [Hp1 Hp2]. destruct (page_disjoint p (PGROUNDUP kend)); unfold PGSIZE in *; try done; lia. }
  unfold kinit, freerange.
  apply (freerange_from_spec id PHYSTOP Hid (Z.le_refl _) eq_refl _ _ _ (replicate NCPU [])); try done.
  - split; try done.
    + intros i h l Hi Hl. apply lookup_replicate in Hi as [-> _], Hl as [-> _]. done.
    + constructor.
    + intros p Hp. by apply not_elem_of_nil in Hp.
    + intros p Hp. by destruct (Hnone p).
  - intros p Hp. by destruct (Hnone p).
  - split; [lia|]. unfold kend_ok, PHYSTOP, KERNBASE, PGSIZE in *. dlia.
  - lia.
Qed.

(** *** Counting the free memory *)

Lemma free_length hi s ls : hi <= PHYSTOP -> alloc_inv kend hi s ls -> (length (concat ls) < list_fuel)%nat.
Proof.
  intros Hhi []. unfold list_fuel.
  rewrite <- (length_map (fun p => Z.to_nat ((p - KERNBASE) / PGSIZE))).
  apply Nat.lt_succ_r, NoDup_bounded_length.
  - apply NoDup_fmap_2_strong; [|done]. intros p q Hp%ai_page0 Hq%ai_page0 E.
    destruct Hp as [Hp1 Hp2], Hq as [Hq1 Hq2].
    unfold kend_ok, PGSIZE, PHYSTOP, KERNBASE in *. dlia.
  - intros x (p & -> & Hp%ai_page0)%list_elem_of_fmap. destruct Hp as [Hp1 Hp2].
    unfold kend_ok, PGSIZE, PHYSTOP, KERNBASE in *. dlia.
Qed.

Lemma count_list_spec m l : forall fuel h dst,
  chain m h l -> (forall p, p ∈ l -> p <> 0) -> (length l < fuel)%nat ->
  0 <= dst -> dst + PGSIZE * Z.of_nat (length l) < 2 ^ 64 ->
  count_list fuel m h dst = Some (dst + PGSIZE * Z.of_nat (length l)).
Proof.
  induction l as [|p l IH]; intros [|fuel] h dst Hc Hnz Hf Hd Hlt; cbn [length count_list] in *; try lia.
  - rewrite Hc. simpl. f_equal. lia.
  - destruct Hc as [-> Hc]. rewrite (proj2 (Z.eqb_neq p 0)) by (apply Hnz; set_solver).
    unfold PGSIZE in *. rewrite u64_small by lia. rewrite (IH fuel); [f_equal; lia|done| |lia..].
    intros q Hq. apply Hnz. set_solver.
Qed.

Lemma freebytes_from_spec hi s ls : hi <= PHYSTOP -> alloc_inv kend hi s ls ->
  forall n i dst, (i + n <= NCPU)%nat -> 0 <= dst ->
  dst + PGSIZE * Z.of_nat (length (concat (drop i ls))) < 2 ^ 64 -> (i + n = NCPU)%nat ->
  freebytes_from n i dst s = Ret (dst + PGSIZE * Z.of_nat (length (concat (drop i ls)))) s.
Proof.
  intros Hhi Hinv. induction n as [|n IH]; intros i dst Hi Hd Hlt He.
  - rewrite drop_ge by (rewrite (ai_lists _ _ _ _ Hinv); lia). simpl. unfold ret. f_equal. lia.
  - cbn [freebytes_from].
    destruct (inv_head kend hi Hkend Hhi s ls i Hinv) as (h & l & Hh & Hl & Hc & Hpg & _); [lia|].
    rewrite (bind_Ret _ _ _ _ _ (get_freelist_run _ _ _ Hh)). unfold bind at 1. cbn [gets].
    pose proof (drop_S ls l i Hl) as Hds. rewrite Hds in *. cbn [concat] in Hlt |- *.
    rewrite length_app in *. pose proof (free_length hi s ls Hhi Hinv) as Hfl.
    rewrite <- (take_drop i ls), Hds, concat_app, length_app in Hfl. cbn [concat] in Hfl. rewrite length_app in Hfl.
    unfold gets. rewrite (count_list_spec _ l _ _ dst Hc);
      [| |lia|done|unfold PGSIZE in *; lia].
    + rewrite IH; unfold PGSIZE in *; try lia. f_equal. lia.
    + intros p Hp. eapply page_nonzero; [done|by apply Hpg].
Qed.

Lemma freebytes_spec hi s ls : hi <= PHYSTOP -> alloc_inv kend hi s ls ->
  freebytes s = Ret (PGSIZE * Z.of_nat (length (concat ls))) s.
Proof.
  intros Hhi Hinv. unfold freebytes. pose proof (free_length hi s ls Hhi Hinv) as Hl.
  rewrite (freebytes_from_spec hi s ls Hhi Hinv 8 0 0); rewrite ?drop_0; try done; try lia.
  unfold list_fuel in Hl. replace ((PHYSTOP - KERNBASE) / PGSIZE) with 32768 in Hl by reflexivity.
  unfold PGSIZE. lia.
Qed.

End startup.

(** ** Clients of the allocator

    [own p] is the number of references the rest of the kernel holds to page
    [p]. A client may allocate on any CPU, add a reference to or free a page it
    has a reference to, and write anywhere inside such a page. *)
Definition own_upd (own : Z -> Z) (p v : Z) : Z -> Z := fun q => if q =? p then v else own q.

Inductive cstep (kend : Z) : (Z -> Z) * kst -> (Z -> Z) * kst -> Prop :=
| cs_alloc own s id r s' : (id < NCPU)%nat -> kalloc id s = Ret r s' -> r <> 0 ->
    cstep kend (own, s) (own_upd own r 1, s')
| cs_none own s id s' : (id < NCPU)%nat -> kalloc id s = Ret 0 s' -> cstep kend (own, s) (own, s')
| cs_free own s id p s' : (id < NCPU)%nat -> page_ok kend PHYSTOP p -> 0 < own p ->
    kfree kend id p s = Ret tt s' -> cstep kend (own, s) (own_upd own p (own p - 1), s')
| cs_ref own s p s' : page_ok kend PHYSTOP p -> 0 < own p < 2 ^ 31 - 1 ->
    kaddrefcnt kend p s = Ret 0 s' -> cstep kend (own, s) (own_upd own p (own p + 1), s')
| cs_write own s p m : page_ok kend PHYSTOP p -> 0 < own p -> mem_ok m ->
    (forall x, ~ (p <= x < p + PGSIZE) -> m x = ram s x) ->
    cstep kend (own, s) (own, set_ram m s).

Definition client_inv (kend : Z) (own : Z -> Z) (s : kst) (ls : list (list Z)) : Prop :=
  alloc_inv kend PHYSTOP s ls /\
  forall p, page_ok kend PHYSTOP p -> cnt s (p / PGSIZE) = own p.

Section clients.
Context (kend : Z).
Hypothesis Hkend : kend_ok kend.

Lemma kaddrefcnt_run s p :
  page_ok kend PHYSTOP p -> 0 <= cnt s (p / PGSIZE) < 2 ^ 31 - 1 ->
  kaddrefcnt kend p s = Ret 0 (set_cnt (p / PGSIZE) (cnt s (p / PGSIZE) + 1) s).
Proof.
  intros Hp Hc. unfold kaddrefcnt. rewrite (bad_page_spec kend PHYSTOP) by done.
  rewrite (bind_Ret _ _ _ _ _ (get_ref_run kend PHYSTOP p s Hkend (Z.le_refl _) Hp)).
  rewrite (bind_Ret _ _ _ _ _ (put_ref_run kend PHYSTOP p _ s Hkend (Z.le_refl _) Hp)).
  rewrite s32_small by lia. done.
Qed.

(** Counts that agree with the owners still do after one is changed in both. *)
Lemma own_upd_agrees own s s' p v :
  page_ok kend PHYSTOP p -> (forall i, cnt s' i = cnt (set_cnt (p / PGSIZE) v s) i) ->
  (forall q, page_ok kend PHYSTOP q -> cnt s (q / PGSIZE) = own q) ->
  forall q, page_ok kend PHYSTOP q -> cnt s' (q / PGSIZE) = own_upd own p v q.
Proof.
  intros Hp Hs' Ho q Hq. rewrite Hs'. unfold own_upd. destruct (Z.eqb_spec q p) as [->|Hne].
  - apply cnt_set_eq.
  - rewrite (cnt_set_ne kend PHYSTOP) by (done || congruence). by apply Ho.
Qed.

Lemma kfree_spec s ls id pa :
  alloc_inv kend PHYSTOP s ls -> (id < NCPU)%nat -> page_ok kend PHYSTOP pa ->
  0 < cnt s (pa / PGSIZE) ->
  exists s' ls', kfree kend id pa s = Ret tt s' /\ alloc_inv kend PHYSTOP s' ls' /\
    (forall i, cnt s' i = cnt (set_cnt (pa / PGSIZE) (cnt s (pa / PGSIZE) - 1) s) i) /\
    (forall x, ~ (pa <= x < pa + PGSIZE) -> ram s' x = ram s x).
Proof.
  intros Hinv Hid Hp Hc. pose proof (ai_cnt _ _ _ _ Hinv pa Hp) as Hr.
  destruct (decide (cnt s (pa / PGSIZE) = 1)) as [E|E].
  - destruct (inv_head kend PHYSTOP Hkend (Z.le_refl _) s ls id Hinv Hid) as (h & l & Hh & Hl & _).
    exists (freed s id pa h), (<[id := pa :: l]> ls). split_and!.
    + by eapply (kfree_last_run kend PHYSTOP).
    + apply freed_inv; done.
    + rewrite E. done.
    + intros x Hx. simpl. unfold store64. rewrite store_out by (unfold PGSIZE in Hx; lia).
      rewrite memset_spec by (unfold PGSIZE; lia).
      destruct (Z.leb_spec pa x), (Z.ltb_spec x (pa + PGSIZE)); simpl; (lia || done).
  - eexists _, ls. split_and!; [eapply (kfree_shared_run kend PHYSTOP); try done; lia| |done|done].
    eapply inv_set_cnt; try done; [|lia]. rewrite (ai_free _ _ _ _ Hinv) by done. lia.
Qed.

Lemma cstep_inv own s own' s' ls :
  client_inv kend own s ls -> cstep kend (own, s) (own', s') -> exists ls', client_inv kend own' s' ls'.
Proof.
  intros [Hinv Hown] Hs. inversion Hs as [? ? id r ? Hid Hr Hnz|? ? id ? Hid Hr|? ? id p ? Hid Hp Ho Hr
    |? ? p ? Hp Ho Hr|? ? p m Hp Ho Hm Hfr]; subst.
  - pose proof (kalloc_spec kend PHYSTOP Hkend (Z.le_refl _) s ls id Hinv Hid) as Hk.
    destruct (pick id ls) as [[j q]|]; [|by destruct Hk as [Hk _]; rewrite Hk in Hr; injection Hr as <-].
    destruct Hk as (Hk & Hpq & l & Hl & Hinv'). rewrite Hk in Hr. injection Hr as -> <-.
    eexists. split; [done|]. by eapply (own_upd_agrees own s).
  - pose proof (kalloc_spec kend PHYSTOP Hkend (Z.le_refl _) s ls id Hinv Hid) as Hk.
    destruct (pick id ls) as [[j q]|].
    + destruct Hk as (Hk & Hpq & _). rewrite Hk in Hr. injection Hr as -> _.
      by apply (page_nonzero kend PHYSTOP Hkend) in Hpq.
    + destruct Hk as [Hk _]. rewrite Hk in Hr. injection Hr as <-. by exists ls.
  - destruct (kfree_spec s ls id p Hinv Hid Hp) as (s1 & ls1 & Hk & Hinv1 & Hcnt & _).
    { by rewrite Hown. }
    rewrite Hk in Hr. injection Hr as <-. exists ls1. split; [done|].
    eapply (own_upd_agrees own s); [done| |done]. by rewrite <- Hown.
  - rewrite kaddrefcnt_run in Hr by (done || rewrite Hown by done; lia). injection Hr as <-.
    exists ls. split.
    + eapply inv_set_cnt; try done; rewrite ?(ai_free _ _ _ _ Hinv) by done; rewrite Hown by done; lia.
    + eapply (own_upd_agrees own s); [done| |done]. by rewrite <- Hown.
  - exists ls. split; [|done]. eapply inv_write; try done.
    rewrite (ai_free _ _ _ _ Hinv), Hown by done. lia.
Qed.

Lemma clients_inv own s own' s' ls :
  client_inv kend own s ls -> rtc (cstep kend) (own, s) (own', s') ->
  exists ls', client_inv kend own' s' ls'.
Proof.
  intros Hinv Hr. remember (own, s) as x eqn:Ex. remember (own', s') as y eqn:Ey.
  revert own s ls Hinv Ex. induction Hr as [x|x [own1 s1] y Hs Hr IH]; intros own s ls Hinv ->.
  - injection Ey as <- <-. eauto.
  - destruct (cstep_inv own s own1 s1 ls Hinv Hs) as [ls1 Hinv1]. by eapply IH.
Qed.

End clients.

(** What a caller of [kalloc] relies on. *)
Record fresh_page (kend : Z) (s : kst) (r : Z) (s' : kst) : Prop := {
  fp_page : page_ok kend PHYSTOP r;
  fp_free : cnt s (r / PGSIZE) = 0;
  fp_cnt : forall i, cnt s' i = cnt (set_cnt (r / PGSIZE) 1 s) i;
  fp_ram : forall x, ~ (r <= x < r + PGSIZE) -> ram s' x = ram s x;
  fp_inv : exists ls, alloc_inv kend PHYSTOP s' ls }.

Lemma kalloc_any kend s ls id :
  kend_ok kend -> alloc_inv kend PHYSTOP s ls -> (id < NCPU)%nat ->
  exists r s', kalloc id s = Ret r s' /\
    ((r = 0 /\ s' = s /\ forall p, page_ok kend PHYSTOP p -> 0 < cnt s (p / PGSIZE)) \/
     (r <> 0 /\ fresh_page kend s r s')).
Proof.
  intros Hk Hinv Hid. pose proof (kalloc_spec kend PHYSTOP Hk (Z.le_refl _) s ls id Hinv Hid) as Ha.
  destruct (pick id ls) as [[j r]|].
  - destruct Ha as (Ha & Hp & l & Hl & Hinv'). eexists r, _. split; [done|]. right.
    split; [by eapply page_nonzero|]. split; [done| |done| |eauto].
    + apply (ai_free _ _ _ _ Hinv); [done|]. eapply elem_concat_lookup; [done|set_solver].
    + intros x Hx. simpl. rewrite memset_spec by (unfold PGSIZE; lia).
      destruct (Z.leb_spec r x), (Z.ltb_spec x (r + PGSIZE)); simpl; (lia || done).
  - destruct Ha as [Ha Hnil]. exists 0, s. split; [done|]. left. split_and!; [done..|]. intros p Hp.
    pose proof (ai_cnt _ _ _ _ Hinv p Hp). pose proof (ai_free _ _ _ _ Hinv p Hp) as Hf.
    rewrite Hnil in Hf. destruct (decide (cnt s (p / PGSIZE) = 0)) as [E|]; [|lia].
    apply Hf in E. by apply not_elem_of_nil in E.
Qed.

(** A page frame as its owner sees it right after [kinit]: nobody owns it. *)
Definition nobody : Z -> Z := fun _ => 0.

(** C7: after [kinit], through any sequence of allocations, references, frees
    and writes to owned pages on any CPUs, [kalloc] returns: 0 only when every
    page frame is owned, and otherwise a page frame nobody owns, leaving the
    contents of every other page as they were. *)
Theorem kalloc_exclusive kend id0 m s0 own s id :
  kend_ok kend -> (id0 < NCPU)%nat -> (id < NCPU)%nat -> mem_ok m ->
  kinit kend id0 (boot_kst m) = Ret tt s0 ->
  rtc (cstep kend) (nobody, s0) (own, s) ->
  exists r s', kalloc id s = Ret r s' /\
    (r = 0 -> forall p, page_ok kend PHYSTOP p -> 0 < own p) /\
    (r <> 0 -> page_ok kend PHYSTOP r /\ own r = 0 /\
       forall x, ~ (r <= x < r + PGSIZE) -> ram s' x = ram s x).
Proof.
  intros Hk Hid0 Hid Hm Hinit Hr.
  destruct (kinit_spec kend Hk id0 m Hid0 Hm) as (s1 & ls1 & Hs1 & Hinv1 & Hall).
  rewrite Hinit in Hs1. injection Hs1 as <-.
  assert (Hc0 : client_inv kend nobody s0 ls1).
  { split; [done|]. intros p Hp. by apply (ai_free _ _ _ _ Hinv1), Hall. }
  destruct (clients_inv kend Hk _ _ _ _ _ Hc0 Hr) as (ls & Hinv & Hown).
  destruct (kalloc_any kend s ls id Hk Hinv Hid) as (r & s' & Ha & Hcase).
  exists r, s'. split; [done|]. destruct Hcase as [(-> & -> & Hfull)|(Hnz & [])].
  - split; [|done]. intros _ p Hp. rewrite <- Hown by done. by apply Hfull.
  - split; [done|]. intros _. split; [done|]. split; [by rewrite <- Hown|done].
Qed.

(** [kfree] drops one reference; it never disturbs another page's count or
    contents, the page goes on a free list exactly when it was the last
    reference, and the total [freebytes] reports then grows by one page. *)
Theorem kfree_last_reference kend s ls id pa :
  kend_ok kend -> alloc_inv kend PHYSTOP s ls -> (id < NCPU)%nat -> page_ok kend PHYSTOP pa ->
  0 < cnt s (pa / PGSIZE) ->
  exists s' n, kfree kend id pa s = Ret tt s' /\ freebytes s = Ret n s /\
    freebytes s' = Ret (if cnt s (pa / PGSIZE) =? 1 then n + PGSIZE else n) s' /\
    (forall i, cnt s' i = cnt (set_cnt (pa / PGSIZE) (cnt s (pa / PGSIZE) - 1) s) i) /\
    (forall x, ~ (pa <= x < pa + PGSIZE) -> ram s' x = ram s x).
Proof.
  intros Hk Hinv Hid Hp Hc.
  destruct (kfree_spec kend Hk s ls id pa Hinv Hid Hp Hc) as (s' & ls' & Hrun & Hinv' & Hcnt & Hram).
  exists s', (PGSIZE * Z.of_nat (length (concat ls))). split; [done|].
  split; [by eapply (freebytes_spec kend Hk PHYSTOP)|].
  rewrite (freebytes_spec kend Hk PHYSTOP s' ls') by done. split; [|done]. f_equal.
  assert (Hfree : forall q, q ∈ concat ls' <-> q ∈ concat ls \/ (q = pa /\ cnt s (pa / PGSIZE) = 1)).
  { intros q. destruct (decide (page_ok kend PHYSTOP q)) as [Hq|Hq].
    - rewrite (ai_free _ _ _ _ Hinv'), (ai_free _ _ _ _ Hinv), Hcnt by done.
      destruct (decide (q = pa)) as [->|Hne].
      + rewrite cnt_set_eq. lia.
      + rewrite (cnt_set_ne kend PHYSTOP) by (done || congruence). naive_solver.
    - split; [by intros ?%(ai_page _ _ _ _ Hinv')|].
      intros [?%(ai_page _ _ _ _ Hinv)|[-> _]]; done. }
  destruct (Z.eqb_spec (cnt s (pa / PGSIZE)) 1) as [E|E].
  - assert (concat ls' ≡ₚ pa :: concat ls) as ->%Permutation_length; [|simpl; unfold PGSIZE; lia].
    apply NoDup_Permutation; [apply Hinv'| |].
    + apply NoDup_cons. split; [|apply Hinv]. rewrite (ai_free _ _ _ _ Hinv) by done. lia.
    + intros q. rewrite Hfree, elem_of_cons. naive_solver.
  - assert (concat ls' ≡ₚ concat ls) as ->%Permutation_length; [|done].
    apply NoDup_Permutation; [apply Hinv'|apply Hinv|]. intros q. rewrite Hfree. naive_solver.
Qed.

(** ** The locks of [kalloc]

    The lock operations [kalloc] makes on a CPU whose search finds every free
    list empty: its own list's lock is held while each other one is taken.
    Lock [i] is [kmem[i].lock]. *)
Definition kalloc_locks (id : nat) : list Spinlock.call :=
  [Spinlock.CPush; Spinlock.CAcquire id] ++
  concat (map (fun antid => if bool_decide (antid = id) then []
                            else [Spinlock.CAcquire antid; Spinlock.CRelease antid]) (seq 0 NCPU)) ++
  [Spinlock.CRelease id; Spinlock.CPop].

(** CPUs 0 and 1 call [kalloc] at the same time; the others are idle. *)
Definition two_callers (c : nat) : list Spinlock.call :=
  match c with 0%nat | 1%nat => kalloc_locks c | _ => [] end.

(** CPU 0 spins for lock 1 and CPU 1 for lock 0, both taken. *)
Definition stuck (k0 k1 : list Spinlock.instr) (s : Spinlock.sys) : Prop :=
  Spinlock.code (Spinlock.cpus s 0%nat) = Spinlock.ITas 1 :: k0 /\
  Spinlock.code (Spinlock.cpus s 1%nat) = Spinlock.ITas 0 :: k1 /\
  Spinlock.locked (Spinlock.locks s 0%nat) = 1 /\ Spinlock.locked (Spinlock.locks s 1%nat) = 1 /\
  forall c, (2 <= c)%nat -> Spinlock.code (Spinlock.cpus s c) = [].

Lemma stuck_step k0 k1 s c :
  stuck k0 k1 s -> exists s', Spinlock.step c s = Ret tt s' /\ stuck k0 k1 s'.
Proof.
  intros (H0 & H1 & HL0 & HL1 & Hr). unfold Spinlock.step. destruct c as [|[|c]].
  - rewrite H0. simpl. rewrite HL1. eexists. split; [reflexivity|]. split_and!; done.
  - rewrite H1. simpl. rewrite HL0. eexists. split; [reflexivity|]. split_and!; done.
  - rewrite Hr by lia. by exists s.
Qed.

Lemma stuck_run k0 k1 sched : forall s,
  stuck k0 k1 s -> exists s', Spinlock.run sched s = Ret tt s' /\ stuck k0 k1 s'.
Proof.
  induction sched as [|c sched IH]; intros s Hs; [by exists s|].
  destruct (stuck_step k0 k1 s c Hs) as (s1 & Hs1 & Hst).
  destruct (IH s1 Hst) as (s2 & Hs2 & Hst2). exists s2. split; [|done].
  simpl. by rewrite (bind_Ret _ _ _ _ _ Hs1).
Qed.

(** Two CPUs that both find their own list empty can deadlock: each holds
    its own list's lock while it spins for the other's, and from there no
    schedule ever lets either of them return from [kalloc]. *)
Theorem kalloc_steal_deadlock :
  exists sched s, Spinlock.run sched (Spinlock.boot two_callers (fun _ => true)) = Ret tt s /\
    forall sched', exists s', Spinlock.run sched' s = Ret tt s' /\
      Spinlock.code (Spinlock.cpus s' 0%nat) <> [] /\ Spinlock.code (Spinlock.cpus s' 1%nat) <> [].
Proof.
  exists [0; 0; 0; 0; 0; 1; 1; 1; 1; 1; 0; 0; 1; 1]%nat.
  eexists. split; [vm_compute; reflexivity|]. intros sched'.
  match goal with |- context [Spinlock.run _ ?s] =>
    destruct (stuck_run (tail (Spinlock.code (Spinlock.cpus s 0%nat)))
                        (tail (Spinlock.code (Spinlock.cpus s 1%nat))) sched' s) as (s' & Hrun & Hst)
  end.
  - split_and!; [reflexivity..|]. intros [|[|c]] Hc; [lia|lia|reflexivity].
  - exists s'. split; [exact Hrun|]. destruct Hst as (E0 & E1 & _). by rewrite E0, E1.
Qed.

(** ** Witnesses *)
Definition demo_end : Z := PHYSTOP - 3 * PGSIZE + 100.

Lemma kalloc_exclusive_witness :
  exists s0 r s', kinit demo_end 0 (boot_kst (fun _ => 0)) = Ret tt s0 /\ kalloc 3 s0 = Ret r s' /\
    (r <> 0 -> page_ok demo_end PHYSTOP r).
Proof.
  assert (Hk : kend_ok demo_end) by done.
  destruct (kinit_spec demo_end Hk 0 (fun _ => 0)) as (s0 & ls & Hs0 & _); [unfold NCPU; lia|done|].
  destruct (kalloc_exclusive demo_end 0 (fun _ => 0) s0 nobody s0 3) as (r & s' & Hr & _ & Hp);
    [done|unfold NCPU; lia|unfold NCPU; lia|done|done|apply rtc_refl|].
  exists s0, r, s'. split; [exact Hs0|]. split; [exact Hr|]. intros Hnz. by apply Hp.
Defined.

(** Every page frame is in use, with one reference. *)
Definition full_kst : kst := mk_kst (fun _ => 0) (replicate NCPU 0) (fun _ => 1).

Lemma full_inv : alloc_inv demo_end PHYSTOP full_kst (replicate NCPU []).
Proof.
  split; try done.
  - intros i h l Hi Hl. apply lookup_replicate in Hi as [-> _], Hl as [-> _]. done.
  - constructor.
  - intros p Hp. by apply not_elem_of_nil in Hp.
  - intros p Hp. split; [by intros ?%not_elem_of_nil|done].
Qed.

Lemma kfree_last_reference_witness :
  exists s' n, kfree demo_end 2 (PHYSTOP - PGSIZE) full_kst = Ret tt s' /\
    freebytes full_kst = Ret n full_kst /\ freebytes s' = Ret (n + PGSIZE) s'.
Proof.
  destruct (kfree_last_reference demo_end full_kst (replicate NCPU []) 2 (PHYSTOP - PGSIZE))
    as (s' & n & H1 & H2 & H3 & _).
  - done.
  - apply full_inv.
  - unfold NCPU. lia.
  - split; [reflexivity|done].
  - reflexivity.
  - exists s', n. split; [exact H1|]. split; [exact H2|exact H3].
Defined.

End Kalloc.
