(* ===== verification/Pgtbl.v ===== *)
(** Sv39 page tables in physical memory (kernel/mm/vm.c, first part).

    Module [Pgtbl] models [walk], [walkaddr], [mappages], [kvmmap], [kvmpa],
    [kvminit], [uvmunmap], [uvmcreate] and [uvmclear], with the PTE macros of
    kernel/include/riscv.h. Page tables are the bytes of the pages they occupy;
    the ghost tree [pt] names those pages, and [lk] is the leaf PTE a virtual
    address selects, which is what every operation is specified by. Kernel
    pointers are direct-mapped addresses; an access outside RAM faults. *)

From S2P Require Import Prelude Mem Kstring Kalloc.
Import Kstring Kalloc.

Module Pgtbl.

Definition PTE_V : Z := 1.
Definition PTE_R : Z := 2.
Definition PTE_W : Z := 4.
Definition PTE_X : Z := 8.
Definition PTE_U : Z := 16.
Definition PTE_F : Z := 256.
Definition MAXVA : Z := 2 ^ 38.
Definition PA2PTE (pa : Z) : Z := Z.shiftl (Z.shiftr pa 12) 10.
Definition PTE2PA (pte : Z) : Z := u64 (Z.shiftl (Z.shiftr pte 10) 12).
Definition PTE_FLAGS (pte : Z) : Z := Z.land pte 0x3FF.
Definition PXSHIFT (level : Z) : Z := 12 + 9 * level.
Definition PX (level va : Z) : Z := Z.land (Z.shiftr va (PXSHIFT level)) 0x1FF.

(** A flag of a PTE. *)
Definition has (pte flag : Z) : bool := negb (Z.land pte flag =? 0).

#[global] Arguments PX : simpl never.
#[global] Arguments PA2PTE : simpl never.
#[global] Arguments PTE2PA : simpl never.
#[global] Arguments PTE_FLAGS : simpl never.
#[global] Arguments has : simpl never.

(** ** Memory accesses of the kernel *)
Definition in_ram (a n : Z) : bool := (KERNBASE <=? a) && (a + n <=? PHYSTOP).
Definition rd64 (a : Z) : M kst Z := if in_ram a 8 then gets (fun s => load64 (ram s) a) else fault.
Definition wr64 (a v : Z) : M kst unit :=
  if in_ram a 8 then modify (fun s => set_ram (store64 (ram s) a v) s) else fault.
Definition kmemset (a c n : Z) : M kst unit :=
  if in_ram a n then modify (fun s => set_ram (memset (ram s) a c n) s) else fault.
Definition kmemmove (d a n : Z) : M kst unit :=
  if in_ram d n && in_ram a n then modify (fun s => set_ram (memmove (ram s) d a n) s) else fault.

Section code.
(** The linker's [end], and the CPU the code runs on. *)
Context (kend : Z) (id : nat).

(** [for (level = 2; level > 0; level--)], then [&pagetable[PX(0, va)]]. *)
Fixpoint walk_levels (level : nat) (pagetable va : Z) (alloc : bool) : M kst Z :=
  match level with
  | O => ret (pagetable + 8 * PX 0 va)
  | S l =>
      let pte := pagetable + 8 * PX (Z.of_nat level) va in
      let* e := rd64 pte in
      if has e PTE_V then walk_levels l (PTE2PA e) va alloc
      else if negb alloc then ret 0
      else
        let* r := kalloc id in
        if r =? 0 then ret 0
        else
          kmemset r 0 PGSIZE ;;;
          wr64 pte (Z.lor (PA2PTE r) PTE_V) ;;;
          walk_levels l r va alloc
  end.
Definition walk (pagetable va : Z) (alloc : bool) : M kst Z :=
  if MAXVA <=? va then panic "walk" else walk_levels 2 pagetable va alloc.

Definition walkaddr (pagetable va : Z) : M kst Z :=
  if MAXVA <=? va then ret 0
  else
    let* pte := walk pagetable va false in
    if pte =? 0 then ret 0
    else
      let* e := rd64 pte in
      if negb (has e PTE_V) then ret 0
      else if negb (has e PTE_U) then ret 0
      else ret (PTE2PA e).

(** The [for (;;)] of [mappages]. *)
Fixpoint mappages_loop (fuel : nat) (pagetable a last pa perm : Z) : M kst Z :=
  match fuel with
  | O => nofuel
  | S fuel =>
      let* pte := walk pagetable a true in
      if pte =? 0 then ret (-1)
      else
        let* e := rd64 pte in
        if has e PTE_V then panic "remap"
        else
          wr64 pte (Z.lor (Z.lor (PA2PTE pa) perm) PTE_V) ;;;
          if a =? last then ret 0
          else mappages_loop fuel pagetable (u64 (a + PGSIZE)) last (u64 (pa + PGSIZE)) perm
  end.
(** The loop ends at [last] when it is ahead, and in [walk]'s panic at [MAXVA]
    when it is behind (a size of 0). *)
Definition mappages_fuel (a last : Z) : nat :=
  if a <=? last then S (Z.to_nat ((last - a) / PGSIZE)) else S (S (Z.to_nat ((MAXVA - a) / PGSIZE))).
Definition mappages (pagetable va size pa perm : Z) : M kst Z :=
  let a := PGROUNDDOWN va in
  let last := PGROUNDDOWN (u64 (va + size - 1)) in
  mappages_loop (mappages_fuel a last) pagetable a last pa perm.

Definition kvmmap (kernel_pagetable va pa sz perm : Z) : M kst unit :=
  let* r := mappages kernel_pagetable va sz pa perm in
  if negb (r =? 0) then panic "kvmmap" else ret tt.

Definition kvmpa (kernel_pagetable va : Z) : M kst Z :=
  let off := va mod PGSIZE in
  let* pte := walk kernel_pagetable va false in
  if pte =? 0 then panic "kvmpa"
  else
    let* e := rd64 pte in
    if negb (has e PTE_V) then panic "kvmpa" else ret (u64 (PTE2PA e + off)).

(** The kernel's direct map; [etext] and [trampoline] are linker symbols. *)
Definition UART0 : Z := 0x10000000.
Definition VIRTIO0 : Z := 0x10001000.
Definition CLINT : Z := 0x2000000.
Definition PLIC : Z := 0x0c000000.
Definition TRAMPOLINE : Z := MAXVA - PGSIZE.
Definition TRAPFRAME : Z := TRAMPOLINE - PGSIZE.
Definition kvminit (etext trampoline : Z) : M kst Z :=
  let* k := kalloc id in
  kmemset k 0 PGSIZE ;;;
  kvmmap k UART0 UART0 PGSIZE (Z.lor PTE_R PTE_W) ;;;
  kvmmap k VIRTIO0 VIRTIO0 PGSIZE (Z.lor PTE_R PTE_W) ;;;
  kvmmap k 0x30000000 0x30000000 0x10000000 (Z.lor PTE_R PTE_W) ;;;
  kvmmap k 0x40000000 0x40000000 0x20000 (Z.lor PTE_R PTE_W) ;;;
  kvmmap k CLINT CLINT 0x10000 (Z.lor PTE_R PTE_W) ;;;
  kvmmap k PLIC PLIC 0x400000 (Z.lor PTE_R PTE_W) ;;;
  kvmmap k KERNBASE KERNBASE (u64 (etext - KERNBASE)) (Z.lor PTE_R PTE_X) ;;;
  kvmmap k etext etext (u64 (PHYSTOP - etext)) (Z.lor PTE_R PTE_W) ;;;
  kvmmap k TRAMPOLINE trampoline PGSIZE (Z.lor PTE_R PTE_X) ;;;
  ret k.

(** One round of the loop of [uvmunmap], at page [a]. *)
Definition unmap_page (pagetable a : Z) (do_free : bool) : M kst unit :=
  let* pte := walk pagetable a false in
  if pte =? 0 then ret tt
  else
    let* e := rd64 pte in
    if negb (has e PTE_V) then ret tt
    else if PTE_FLAGS e =? PTE_V then panic "uvmunmap: not a leaf"
    else
      when do_free (kfree kend id (PTE2PA e)) ;;;
      wr64 pte 0.
(** [for (a = va; a < va + npages * PGSIZE; a += PGSIZE)] *)
Fixpoint uvmunmap_loop (fuel : nat) (pagetable a stop : Z) (do_free : bool) : M kst unit :=
  match fuel with
  | O => nofuel
  | S fuel =>
      if a <? stop then
        unmap_page pagetable a do_free ;;;
        uvmunmap_loop fuel pagetable (u64 (a + PGSIZE)) stop do_free
      else ret tt
  end.
Definition uvmunmap (pagetable va npages : Z) (do_free : bool) : M kst unit :=
  if negb (va mod PGSIZE =? 0) then panic "uvmunmap: not aligned"
  else uvmunmap_loop (S (Z.to_nat npages)) pagetable va (u64 (va + u64 (npages * PGSIZE))) do_free.

Definition uvmcreate : M kst Z :=
  let* pagetable := kalloc id in
  if pagetable =? 0 then ret 0
  else kmemset pagetable 0 PGSIZE ;;; ret pagetable.

Definition uvmclear (pagetable va : Z) : M kst unit :=
  let* pte := walk pagetable va false in
  if pte =? 0 then panic "uvmclear"
  else
    let* e := rd64 pte in
    wr64 pte (Z.land e (Z.lnot PTE_U)).

End code.

(** ** PTE arithmetic *)

Lemma land_low k f n : 0 <= n -> 0 <= f < 2 ^ n -> Z.land (Z.shiftl k n) f = 0.
Proof.
  intros Hn Hf. apply Z.bits_inj'. intros i Hi. rewrite Z.land_spec, Z.bits_0.
  destruct (Z.lt_ge_cases i n).
  - rewrite Z.shiftl_spec_low by done. done.
  - rewrite <- (Z.mod_small f (2 ^ n)), Z.mod_pow2_bits_high by lia. apply andb_false_r.
Qed.

Lemma lor_low k f n : 0 <= n -> 0 <= f < 2 ^ n -> Z.lor (Z.shiftl k n) f = k * 2 ^ n + f.
Proof.
  intros Hn Hf. rewrite <- Z.lxor_lor, <- Z.add_nocarry_lxor by (by apply land_low).
  by rewrite Z.shiftl_mul_pow2.
Qed.

Lemma lor_flags a b : 0 <= a < 1024 -> 0 <= b < 1024 -> 0 <= Z.lor a b < 1024.
Proof.
  intros Ha Hb. assert (Hn : 0 <= Z.lor a b) by (apply Z.lor_nonneg; lia). split; [done|].
  assert (Hl : forall x, 0 <= x < 1024 -> Z.log2 x < 10).
  { intros x Hx. destruct (Z.eq_dec x 0) as [->|]; [done|]. apply Z.log2_lt_pow2; lia. }
  destruct (Z.eq_dec (Z.lor a b) 0) as [->|]; [lia|]. apply (Z.log2_lt_pow2 _ 10); [lia|].
  rewrite Z.log2_lor by lia. apply Z.max_lub_lt; auto.
Qed.

(** A PTE for page [p] with flags [f]. *)
Definition mk_pte (p f : Z) : Z := Z.lor (PA2PTE p) f.

#[global] Arguments mk_pte : simpl never.

Lemma mk_pte_val p f : 0 <= p -> 0 <= f < 1024 -> mk_pte p f = p / 4096 * 1024 + f.
Proof.
  intros Hp Hf. unfold mk_pte, PA2PTE. rewrite (lor_low _ f 10) by lia.
  by rewrite Z.shiftr_div_pow2 by lia.
Qed.

Lemma mk_pte_range p f : 0 <= p < 2 ^ 56 -> 0 <= f < 1024 -> 0 <= mk_pte p f < 2 ^ 64.
Proof. intros Hp Hf. rewrite mk_pte_val by lia. dlia. Qed.

Lemma mk_pte_has p f b : 0 <= p -> 0 <= b < 1024 -> has (mk_pte p f) b = has f b.
Proof.
  intros Hp Hb. unfold has, mk_pte, PA2PTE. rewrite Z.land_lor_distr_l, (land_low _ b 10) by lia.
  done.
Qed.

Lemma mk_pte_pa p f : p mod PGSIZE = 0 -> 0 <= p < 2 ^ 56 -> 0 <= f < 1024 -> PTE2PA (mk_pte p f) = p.
Proof.
  intros Hm Hp Hf. unfold PTE2PA. rewrite mk_pte_val by lia.
  rewrite Z.shiftl_mul_pow2, Z.shiftr_div_pow2 by lia. unfold PGSIZE in Hm.
  change (2 ^ 10) with 1024. change (2 ^ 12) with 4096.
  replace ((p / 4096 * 1024 + f) / 1024 * 4096) with p by dlia. apply u64_small. lia.
Qed.

Lemma PTE_FLAGS_range e : 0 <= PTE_FLAGS e < 1024.
Proof.
  unfold PTE_FLAGS. change 0x3FF with (Z.ones 10). rewrite Z.land_ones by lia.
  apply Z.mod_pos_bound. lia.
Qed.

Lemma PTE_FLAGS_has e b : 0 <= b < 1024 -> has (PTE_FLAGS e) b = has e b.
Proof.
  intros Hb. unfold has, PTE_FLAGS. rewrite <- Z.land_assoc. do 3 f_equal.
  change 0x3FF with (Z.ones 10). rewrite Z.land_comm, Z.land_ones by lia. by apply Z.mod_small.
Qed.

Lemma mk_pte_flags p f : 0 <= p -> 0 <= f < 1024 -> PTE_FLAGS (mk_pte p f) = f.
Proof.
  intros Hp Hf. unfold PTE_FLAGS. change 0x3FF with (Z.ones 10). rewrite Z.land_ones by lia.
  rewrite mk_pte_val by lia. change (2 ^ 10) with 1024. dlia.
Qed.

(** Any PTE below 2^54 is the PTE of the page and flags it encodes. *)
Lemma mk_pte_eta e : 0 <= e < 2 ^ 54 -> mk_pte (PTE2PA e) (PTE_FLAGS e) = e.
Proof.
  intros He. unfold PTE2PA. rewrite Z.shiftl_mul_pow2, Z.shiftr_div_pow2 by lia.
  rewrite u64_small by dlia. rewrite mk_pte_val by (apply PTE_FLAGS_range || dlia).
  unfold PTE_FLAGS. change 0x3FF with (Z.ones 10). rewrite Z.land_ones by lia.
  change (2 ^ 10) with 1024. change (2 ^ 12) with 4096. dlia.
Qed.

Lemma PTE2PA_nonneg e : 0 <= PTE2PA e.
Proof. unfold PTE2PA, u64. apply Z.mod_pos_bound. lia. Qed.

Lemma PTE2PA_aligned e : 0 <= e < 2 ^ 62 -> PTE2PA e mod PGSIZE = 0.
Proof.
  intros He. unfold PTE2PA, u64, PGSIZE. rewrite Z.shiftl_mul_pow2, Z.shiftr_div_pow2 by lia.
  dlia.
Qed.

Lemma PX_val l va : 0 <= l -> 0 <= va -> PX l va = va / 2 ^ (12 + 9 * l) mod 512.
Proof.
  intros Hl Hva. unfold PX, PXSHIFT. rewrite Z.shiftr_div_pow2 by lia.
  change 0x1FF with (Z.ones 9). by rewrite Z.land_ones by lia.
Qed.

Lemma PX_range l va : 0 <= PX l va < 512.
Proof.
  unfold PX. change 0x1FF with (Z.ones 9). rewrite Z.land_ones by lia. apply Z.mod_pos_bound. lia.
Qed.
#[local] Hint Resolve PX_range : kernel.

(** The page number of an address is its three indices. *)
Definition vpn (va : Z) : Z := va / PGSIZE.
Lemma vpn_PX va : 0 <= va < MAXVA -> vpn va = PX 2 va * 2 ^ 18 + PX 1 va * 2 ^ 9 + PX 0 va.
Proof.
  intros Hva. rewrite !PX_val by lia. unfold vpn, PGSIZE, MAXVA in *. cbn [Z.mul Z.add Pos.mul Pos.add].
  change (2 ^ 12) with 4096. change (2 ^ 21) with 2097152. change (2 ^ 30) with 1073741824.
  change (2 ^ 18) with 262144. change (2 ^ 9) with 512. dlia.
Qed.
Lemma vpn_PX_inj va va' :
  0 <= va < MAXVA -> 0 <= va' < MAXVA -> PX 2 va = PX 2 va' -> PX 1 va = PX 1 va' ->
  PX 0 va = PX 0 va' -> vpn va = vpn va'.
Proof. intros H H' E2 E1 E0. rewrite !vpn_PX by done. by rewrite E2, E1, E0. Qed.
Lemma vpn_PX_eq l va va' :
  0 <= l -> 0 <= va < MAXVA -> 0 <= va' < MAXVA -> vpn va = vpn va' -> PX l va = PX l va'.
Proof.
  intros Hl H H' E. rewrite !PX_val by lia. unfold vpn, PGSIZE in E.
  rewrite !Z.pow_add_r, <- !Z.div_div by lia. change (2 ^ 12) with 4096. by rewrite E.
Qed.

(** ** The pages of a page table *)

Record pt := mk_pt { root : Z; mid : gmap Z Z; low : gmap (Z * Z) Z }.

Inductive node := Root | Mid (i : Z) | Low (i j : Z).
#[global] Instance node_eq_dec : EqDecision node.
Proof. solve_decision. Defined.

Definition node_page (P : pt) (n : node) : option Z :=
  match n with
  | Root => Some (root P)
  | Mid i => mid P !! i
  | Low i j => low P !! (i, j)
  end.

Definition pte_addr (P : pt) (va : Z) : option Z :=
  match low P !! (PX 2 va, PX 1 va) with Some p => Some (p + 8 * PX 0 va) | None => None end.

(** The leaf PTE of [va]; 0 where the table has no page for it. *)
Definition lk (m : mem) (P : pt) (va : Z) : Z :=
  match pte_addr P va with Some a => load64 m a | None => 0 end.

(** The entry [e] of an inner page refers to the child [c]. *)
Definition entry_ok (e : Z) (c : option Z) : Prop :=
  match c with Some p => e = mk_pte p PTE_V | None => has e PTE_V = false end.

(** The address of the entry that refers to node [n], in its parent's page. *)
Definition entry_addr (P : pt) (n : node) : option Z :=
  match n with
  | Root => None
  | Mid i => Some (root P + 8 * i)
  | Low i j => match mid P !! i with Some p => Some (p + 8 * j) | None => None end
  end.
Definition in_table (n : node) : Prop :=
  match n with Root => True | Mid i => 0 <= i < 512 | Low i j => 0 <= i < 512 /\ 0 <= j < 512 end.

Record pt_inv (kend : Z) (m : mem) (P : pt) : Prop := {
  pi_page : forall n p, node_page P n = Some p -> page_ok kend PHYSTOP p /\ in_table n;
  pi_inj : forall n n' p, node_page P n = Some p -> node_page P n' = Some p -> n = n';
  pi_entry : forall n a, in_table n -> entry_addr P n = Some a ->
    entry_ok (load64 m a) (node_page P n);
  pi_dom : forall i j p, low P !! (i, j) = Some p -> is_Some (mid P !! i) }.

(** The page table [P] in an allocator state: its pages are in use. *)
Definition vm_inv (kend : Z) (s : kst) (P : pt) : Prop :=
  (exists ls, alloc_inv kend PHYSTOP s ls) /\ pt_inv kend (ram s) P /\
  forall n p, node_page P n = Some p -> 0 < cnt s (p / PGSIZE).

(** Address [x] is neither in a page of [P] nor in a free page frame. *)
Definition outside (kend : Z) (s : kst) (P : pt) (x : Z) : Prop :=
  forall q, page_ok kend PHYSTOP q -> q <= x < q + PGSIZE ->
    0 < cnt s (q / PGSIZE) /\ forall n, node_page P n <> Some q.

(** What an operation on [P] leaves alone: the contents of everything outside
    and the counts of the pages in use. *)
Record framed (kend : Z) (s s' : kst) (P : pt) : Prop := {
  fr_ram : forall x, outside kend s P x -> ram s' x = ram s x;
  fr_cnt : forall q, page_ok kend PHYSTOP q -> 0 < cnt s (q / PGSIZE) ->
    cnt s' (q / PGSIZE) = cnt s (q / PGSIZE) }.

(** [P'] has the pages of [P], and new ones that were free in [s]. *)
Record extends (kend : Z) (s : kst) (P P' : pt) : Prop := {
  ex_old : forall n p, node_page P n = Some p -> node_page P' n = Some p;
  ex_new : forall n p, node_page P' n = Some p -> node_page P n = Some p \/ cnt s (p / PGSIZE) = 0 }.

(** ** Walking *)

(** Entries lie inside their parent's page. *)
Lemma entry_parent P n a :
  in_table n -> entry_addr P n = Some a ->
  exists n' p i, n' <> n /\ node_page P n' = Some p /\ a = p + 8 * i /\ 0 <= i < 512 /\
    (forall x y, n' <> Low x y).
Proof.
  destruct n as [|i|i j]; simpl; intros Hn H; [done| |].
  - injection H as <-. by exists Root, (root P), i.
  - destruct (mid P !! i) as [p|] eqn:E; [|done]. injection H as <-. exists (Mid i), p, j. split_and!; (done || lia).
Qed.

Section walking.
Context (kend : Z) (id : nat).
Hypothesis Hkend : kend_ok kend.
Implicit Types (s : kst) (P : pt) (m : mem).

Lemma page_small p : page_ok kend PHYSTOP p -> 0 <= p < 2 ^ 56.
Proof. intros [_ Hp]. unfold kend_ok, PHYSTOP, KERNBASE in *. lia. Qed.

Lemma in_ram_page p off n :
  page_ok kend PHYSTOP p -> 0 <= off -> off + n <= PGSIZE -> in_ram (p + off) n = true.
Proof.
  intros [Hm Hp] Ho Hn. unfold in_ram. unfold kend_ok in Hkend.
  assert (p + PGSIZE <= PHYSTOP).
  { destruct (page_disjoint p PHYSTOP); [done|reflexivity|lia|done|]. unfold PGSIZE in *. lia. }
  rewrite (proj2 (Z.leb_le _ _)), (proj2 (Z.leb_le _ _)) by lia. done.
Qed.

Lemma entry_in_ram m P n a :
  pt_inv kend m P -> in_table n -> entry_addr P n = Some a -> in_ram a 8 = true.
Proof.
  intros Hpt Hn Ha. destruct (entry_parent P n a Hn Ha) as (n' & p & i & _ & Hp & -> & Hi & _).
  apply in_ram_page; [by eapply pi_page|lia|unfold PGSIZE; lia].
Qed.

(** Bytes of different pages of the table are different. *)
Lemma node_disjoint m P n n' p p' :
  pt_inv kend m P -> node_page P n = Some p -> node_page P n' = Some p' -> n <> n' ->
  p + PGSIZE <= p' \/ p' + PGSIZE <= p.
Proof using Type.
  intros Hpt Hn Hn' Hne.
  destruct (pi_page _ _ _ Hpt _ _ Hn) as [[Hm _] _], (pi_page _ _ _ Hpt _ _ Hn') as [[Hm' _] _].
  apply page_disjoint; [done|done|]. intros ->. by eapply Hne, pi_inj.
Qed.

Lemma entry_disjoint m P n n' a a' :
  pt_inv kend m P -> in_table n -> in_table n' -> entry_addr P n = Some a ->
  entry_addr P n' = Some a' -> n <> n' -> a + 8 <= a' \/ a' + 8 <= a.
Proof using Type.
  intros Hpt Hi Hi' Ha Ha' Hne.
  assert (Hdec : forall k, in_table k -> forall b, entry_addr P k = Some b ->
    exists c p i, node_page P c = Some p /\ b = p + 8 * i /\ 0 <= i < 512 /\
      k = match c with Root => Mid i | Mid x => Low x i | Low _ _ => Root end).
  { intros [|i|i j] Hk b Hb; simpl in Hb, Hk; [done| |].
    - injection Hb as <-. by exists Root, (root P), i.
    - destruct (mid P !! i) as [p|] eqn:E; [|done]. injection Hb as <-. exists (Mid i), p, j. split_and!; (done || lia). }
  destruct (Hdec n Hi a Ha) as (c & p & i & Hc & -> & Hir & Hn).
  destruct (Hdec n' Hi' a' Ha') as (c' & p' & i' & Hc' & -> & Hir' & Hn').
  destruct (decide (c = c')) as [<-|Hcc].
  - assert (p' = p) as -> by congruence. destruct (decide (i = i')) as [<-|]; [congruence|lia].
  - destruct (node_disjoint m P c c' p p' Hpt Hc Hc' Hcc); unfold PGSIZE in *; lia.
Qed.

Lemma rd64_run a s : in_ram a 8 = true -> rd64 a s = Ret (load64 (ram s) a) s.
Proof using Type. intros H. unfold rd64. by rewrite H. Qed.
Lemma wr64_run a v s : in_ram a 8 = true -> wr64 a v s = Ret tt (set_ram (store64 (ram s) a v) s).
Proof using Type. intros H. unfold wr64. by rewrite H. Qed.
Lemma kmemset_run a c n s : in_ram a n = true -> kmemset a c n s = Ret tt (set_ram (memset (ram s) a c n) s).
Proof using Type. intros H. unfold kmemset. by rewrite H. Qed.
Lemma kmemmove_run d a n s : in_ram d n = true -> in_ram a n = true ->
  kmemmove d a n s = Ret tt (set_ram (memmove (ram s) d a n) s).
Proof using Type. intros H H'. unfold kmemmove. by rewrite H, H'. Qed.

Lemma pte_V_has p : 0 <= p -> has (mk_pte p PTE_V) PTE_V = true.
Proof using Type. intros Hp. rewrite mk_pte_has by (unfold PTE_V; lia). done. Qed.

(** The node of [va] at each level, and the address [walk] has reached there. *)
Definition va_node (level : nat) (va : Z) : node :=
  match level with
  | 2%nat => Root
  | 1%nat => Mid (PX 2 va)
  | _ => Low (PX 2 va) (PX 1 va)
  end.

Lemma va_node_entry level va P p :
  (level = 1 \/ level = 2)%nat -> node_page P (va_node level va) = Some p ->
  entry_addr P (va_node (pred level) va) = Some (p + 8 * PX (Z.of_nat level) va) /\
  in_table (va_node (pred level) va).
Proof using Type.
  pose proof (PX_range 1 va). pose proof (PX_range 2 va).
  intros [->| ->] Hp; cbn in Hp |- *; [by rewrite Hp|]. by injection Hp as ->.
Qed.

(** One level of [walk] when the child exists. *)
Lemma walk_levels_down level va P s p c alloc :
  pt_inv kend (ram s) P -> (level = 1 \/ level = 2)%nat ->
  node_page P (va_node level va) = Some p -> node_page P (va_node (pred level) va) = Some c ->
  walk_levels id level p va alloc s = walk_levels id (pred level) c va alloc s.
Proof.
  intros Hpt Hl Hp Hc. destruct (va_node_entry level va P p Hl Hp) as [Ha Hin].
  pose proof (pi_entry _ _ _ Hpt _ _ Hin Ha) as He. rewrite Hc in He. simpl in He.
  pose proof (pi_page _ _ _ Hpt _ _ Hc) as [Hpc _]. pose proof (page_small c Hpc).
  destruct level as [|l]; [lia|]. cbn [walk_levels].
  rewrite (bind_Ret _ _ _ _ _ (rd64_run _ s (entry_in_ram _ _ _ _ Hpt Hin Ha))), He.
  rewrite pte_V_has by lia. rewrite mk_pte_pa; [done|apply Hpc|done|unfold PTE_V; lia].
Qed.

Lemma walk_ro s P va :
  pt_inv kend (ram s) P -> 0 <= va < MAXVA ->
  walk id (root P) va false s = Ret (default 0 (pte_addr P va)) s.
Proof.
  intros Hpt Hva. unfold walk. rewrite (proj2 (Z.leb_gt _ _)) by lia.
  assert (Hno : forall level p, (level = 1 \/ level = 2)%nat ->
    node_page P (va_node level va) = Some p -> node_page P (va_node (pred level) va) = None ->
    walk_levels id level p va false s = Ret 0 s).
  { intros level p Hl Hp Hc. destruct (va_node_entry level va P p Hl Hp) as [Ha Hin].
    pose proof (pi_entry _ _ _ Hpt _ _ Hin Ha) as He. rewrite Hc in He. simpl in He.
    destruct level as [|l]; [lia|]. cbn [walk_levels].
    by rewrite (bind_Ret _ _ _ _ _ (rd64_run _ s (entry_in_ram _ _ _ _ Hpt Hin Ha))), He. }
  unfold pte_addr. destruct (node_page P (va_node 1 va)) as [p1|] eqn:E1.
  - rewrite (walk_levels_down 2 va P s (root P) p1) by (done || by right). cbn [pred].
    destruct (node_page P (va_node 0 va)) as [p0|] eqn:E0.
    + rewrite (walk_levels_down 1 va P s p1 p0) by (done || by left). cbn [node_page va_node] in E0. by rewrite E0.
    + rewrite (Hno 1%nat p1) by (done || by left). cbn [node_page va_node] in E0. by rewrite E0.
  - rewrite (Hno 2%nat (root P)) by (done || by right).
    cbn [node_page va_node] in E1. destruct (low P !! (PX 2 va, PX 1 va)) as [p0|] eqn:E0; [|done].
    apply (pi_dom _ _ _ Hpt) in E0. rewrite E1 in E0. by destruct E0.
Qed.

Lemma pte_addr_in_ram m P va a : pt_inv kend m P -> pte_addr P va = Some a -> in_ram a 8 = true.
Proof.
  intros Hpt. unfold pte_addr. destruct (low P !! _) as [p|] eqn:E; [|done]. intros [= <-].
  pose proof (PX_range 0 va).
  apply in_ram_page; [eapply (pi_page _ _ _ Hpt (Low _ _)); done|lia|unfold PGSIZE; lia].
Qed.
Lemma pte_addr_nonzero m P va a : pt_inv kend m P -> pte_addr P va = Some a -> a <> 0.
Proof.
  intros Hpt Ha. pose proof (pte_addr_in_ram _ _ _ _ Hpt Ha) as H. unfold in_ram in H. bool_cases.
  unfold KERNBASE in *. lia.
Qed.

End walking.

(** ** Writing leaf PTEs *)

Section leaves.
Context (kend : Z) (id : nat).
Hypothesis Hkend : kend_ok kend.
Implicit Types (s : kst) (P : pt) (m : mem).

Lemma pt_inv_ext m m' P :
  pt_inv kend m P ->
  (forall n a, in_table n -> entry_addr P n = Some a -> agree m m' a 8) -> pt_inv kend m' P.
Proof using Type.
  intros [Hpg Hinj He Hd] Hag. split; try done. intros n a Hn Ha.
  rewrite (load64_ext m m') by (by eapply Hag). by apply He.
Qed.

Lemma pte_addr_page P va a :
  pte_addr P va = Some a -> exists p, node_page P (Low (PX 2 va) (PX 1 va)) = Some p /\
    a = p + 8 * PX 0 va.
Proof using Type. unfold pte_addr. simpl. destruct (low P !! _) as [p|]; [|done]. intros [= <-]. eauto. Qed.

Lemma leaf_entry_disjoint m P va n a b :
  pt_inv kend m P -> pte_addr P va = Some a -> in_table n -> entry_addr P n = Some b ->
  a + 8 <= b \/ b + 8 <= a.
Proof using Type.
  intros Hpt Ha Hn Hb. destruct (pte_addr_page _ _ _ Ha) as (p & Hp & ->).
  destruct (entry_parent P n b Hn Hb) as (n' & q & i & _ & Hq & -> & Hi & Hlow).
  pose proof (PX_range 0 va).
  destruct (node_disjoint kend m P _ n' p q Hpt Hp Hq); [by intros <-; eapply Hlow| |];
    unfold PGSIZE in *; lia.
Qed.

Lemma leaf_disjoint m P va va' a a' :
  pt_inv kend m P -> 0 <= va < MAXVA -> 0 <= va' < MAXVA ->
  pte_addr P va = Some a -> pte_addr P va' = Some a' -> vpn va <> vpn va' ->
  a + 8 <= a' \/ a' + 8 <= a.
Proof using Type.
  intros Hpt Hva Hva' Ha Ha' Hne. destruct (pte_addr_page _ _ _ Ha) as (p & Hp & ->).
  destruct (pte_addr_page _ _ _ Ha') as (p' & Hp' & ->).
  pose proof (PX_range 0 va). pose proof (PX_range 0 va').
  destruct (decide (Low (PX 2 va) (PX 1 va) = Low (PX 2 va') (PX 1 va'))) as [E|Hn].
  - rewrite E in Hp. assert (p' = p) as -> by congruence. injection E as E2 E1.
    destruct (decide (PX 0 va = PX 0 va')) as [E0|]; [|lia]. by destruct Hne; apply vpn_PX_inj.
  - destruct (node_disjoint kend m P _ _ p p' Hpt Hp Hp' Hn); unfold PGSIZE in *; lia.
Qed.

Lemma pte_addr_vpn P va va' :
  0 <= va < MAXVA -> 0 <= va' < MAXVA -> vpn va = vpn va' -> pte_addr P va = pte_addr P va'.
Proof using Type.
  intros Hva Hva' E. unfold pte_addr.
  by rewrite (vpn_PX_eq 2 va va'), (vpn_PX_eq 1 va va'), (vpn_PX_eq 0 va va').
Qed.
Lemma lk_vpn m P va va' :
  0 <= va < MAXVA -> 0 <= va' < MAXVA -> vpn va = vpn va' -> lk m P va = lk m P va'.
Proof using Type. intros Hva Hva' E. unfold lk. by rewrite (pte_addr_vpn P va va'). Qed.

(** Writing the leaf PTE of [va] changes the translation of its page only. *)
Lemma lk_store m P va a v va' :
  pt_inv kend m P -> 0 <= va < MAXVA -> 0 <= va' < MAXVA -> pte_addr P va = Some a ->
  0 <= v < 2 ^ 64 -> lk (store64 m a v) P va' = if vpn va' =? vpn va then v else lk m P va'.
Proof using Type.
  intros Hpt Hva Hva' Ha Hv. unfold lk. destruct (Z.eqb_spec (vpn va') (vpn va)) as [E|Hne].
  - rewrite (pte_addr_vpn P va' va), Ha by done. by apply load64_store64_eq.
  - destruct (pte_addr P va') as [a'|] eqn:E; [|done]. apply load64_store64_ne.
    by destruct (leaf_disjoint m P va' va a' a Hpt Hva' Hva E Ha Hne); [left|right].
Qed.

(** Changing memory inside a page in use that holds no entry of [P]. *)
Lemma vm_inv_write s P p m' :
  vm_inv kend s P -> page_ok kend PHYSTOP p -> 0 < cnt s (p / PGSIZE) -> mem_ok m' ->
  (forall x, ~ (p <= x < p + PGSIZE) -> m' x = ram s x) ->
  pt_inv kend m' P -> vm_inv kend (set_ram m' s) P.
Proof using Type.
  intros ([ls Hal] & Hpt & Huse) Hp Hc Hm Hfr Hpt'. split_and!; [|done|done].
  exists ls. eapply inv_write; try done. rewrite (ai_free _ _ _ _ Hal) by done. lia.
Qed.

Lemma vm_inv_pte s P va a v :
  vm_inv kend s P -> pte_addr P va = Some a ->
  vm_inv kend (set_ram (store64 (ram s) a v) s) P /\
  framed kend s (set_ram (store64 (ram s) a v) s) P.
Proof using Type.
  intros Hvm Ha. pose proof Hvm as ([ls Hal] & Hpt & Huse).
  destruct (pte_addr_page _ _ _ Ha) as (p & Hp & ->). pose proof (PX_range 0 va).
  assert (Hout : forall x, ~ (p <= x < p + PGSIZE) ->
    store64 (ram s) (p + 8 * PX 0 va) v x = ram s x).
  { intros x Hx. apply store_out. unfold PGSIZE in Hx. lia. }
  split.
  - eapply vm_inv_write; [done|by eapply pi_page|by eapply Huse| |done|].
    + apply store_ok, (ai_ram _ _ _ _ Hal).
    + eapply pt_inv_ext; [done|]. intros n b Hn Hb x Hx. apply store_out.
      destruct (leaf_entry_disjoint (ram s) P va n _ b Hpt Ha Hn Hb); lia.
  - split; [|done]. intros x Hx. simpl. apply Hout. intros Hin.
    destruct (Hx p (proj1 (pi_page _ _ _ Hpt _ _ Hp)) Hin) as [_ Hn]. by eapply Hn.
Qed.

End leaves.

(** ** Growing the tree *)

Definition pt_add (P : pt) (n : node) (r : Z) : pt :=
  match n with
  | Root => P
  | Mid i => mk_pt (root P) (<[i := r]> (mid P)) (low P)
  | Low i j => mk_pt (root P) (mid P) (<[(i, j) := r]> (low P))
  end.

Lemma node_page_add P n r n' :
  n <> Root -> node_page (pt_add P n r) n' = if decide (n' = n) then Some r else node_page P n'.
Proof.
  intros Hn. destruct n as [|i|i j]; [done| |]; destruct n' as [|i'|i' j'];
    cbn [pt_add node_page root mid low]; try (by rewrite decide_False).
  - destruct (decide (Mid i' = Mid i)) as [[= ->]|Hne]; [by rewrite lookup_insert_eq|].
    rewrite lookup_insert_ne by congruence. done.
  - destruct (decide (Low i' j' = Low i j)) as [[= -> ->]|Hne]; [by rewrite lookup_insert_eq|].
    rewrite lookup_insert_ne by congruence. done.
Qed.

(** The entries of the new page, if it is an inner one. *)
Lemma entry_addr_add P n r n' a :
  n <> Root -> entry_addr (pt_add P n r) n' = Some a ->
  entry_addr P n' = Some a \/ (exists i j, n = Mid i /\ n' = Low i j /\ a = r + 8 * j).
Proof.
  intros Hn. destruct n as [|i|i j]; [done| |]; destruct n' as [|i'|i' j'];
    cbn [pt_add entry_addr root mid low]; try (by left).
  destruct (decide (i' = i)) as [->|Hne].
  - rewrite lookup_insert_eq. intros [= <-]. right. eauto.
  - rewrite lookup_insert_ne by done. by left.
Qed.

Lemma load64_zero m a : (forall x, a <= x < a + 8 -> m x = 0) -> load64 m a = 0.
Proof. intros H. rewrite (load64_ext (fun _ => 0) m); [done|]. intros x Hx. by apply H. Qed.

Section grow.
Context (kend : Z) (s s1 : kst) (P : pt) (n : node) (a r : Z).
Hypothesis Hkend : kend_ok kend.
Hypothesis Hvm : vm_inv kend s P.
Hypothesis Hroot : n <> Root.
Hypothesis Hin : in_table n.
Hypothesis Ha : entry_addr P n = Some a.
Hypothesis Hnone : node_page P n = None.
Hypothesis Hfresh : fresh_page kend s r s1.

(** The new page is zeroed and linked into its parent. *)
Definition grown : kst := set_ram (store64 (memset (ram s1) r 0 PGSIZE) a (mk_pte r PTE_V)) s1.

Lemma grow_new n' p : node_page P n' = Some p -> p <> r.
Proof using Hvm Hfresh.
  intros Hp ->. destruct Hvm as (_ & _ & Huse). pose proof (Huse _ _ Hp).
  pose proof (fp_free _ _ _ _ Hfresh). lia.
Qed.

Lemma grow_page_disjoint n' p : node_page P n' = Some p -> p + PGSIZE <= r \/ r + PGSIZE <= p.
Proof using Hvm Hfresh.
  intros Hp. apply page_disjoint; [|apply (fp_page _ _ _ _ Hfresh)|by eapply grow_new].
  destruct Hvm as (_ & Hpt & _). by apply (pi_page _ _ _ Hpt) in Hp as [[? _] _].
Qed.

Lemma grow_parent : exists n' p, node_page P n' = Some p /\ p <= a /\ a + 8 <= p + PGSIZE.
Proof using Hin Ha.
  destruct (entry_parent P n a Hin Ha) as (n' & p & i & _ & Hp & -> & Hi & _).
  exists n', p. unfold PGSIZE. split; [done|lia].
Qed.

Lemma grown_new x : r <= x < r + PGSIZE -> ram grown x = 0.
Proof using Hvm Hfresh Hin Ha.
  intros Hx. destruct grow_parent as (n' & p & Hp & Hl & Hu).
  simpl. destruct (grow_page_disjoint n' p Hp); unfold store64;
    rewrite store_out by lia; rewrite memset_spec by (unfold PGSIZE; lia);
    rewrite (proj2 (Z.leb_le _ _)), (proj2 (Z.ltb_lt _ _)) by lia; done.
Qed.

Lemma grown_old x : ~ (r <= x < r + PGSIZE) -> ~ (a <= x < a + 8) -> ram grown x = ram s x.
Proof using Hfresh.
  intros Hx Hxa. simpl. unfold store64. rewrite store_out by done.
  rewrite memset_spec by (unfold PGSIZE; lia). rewrite <- (fp_ram _ _ _ _ Hfresh) by done.
  destruct (Z.leb_spec r x), (Z.ltb_spec x (r + PGSIZE)); simpl; (lia || done).
Qed.

Lemma grown_entry : load64 (ram grown) a = mk_pte r PTE_V.
Proof using Hfresh Hkend.
  simpl. apply load64_store64_eq, mk_pte_range; [|unfold PTE_V; lia].
  eapply page_small; [done|apply (fp_page _ _ _ _ Hfresh)].
Qed.

(** Words in old pages other than the new entry are unchanged. *)
Lemma grown_load n' p b :
  node_page P n' = Some p -> p <= b -> b + 8 <= p + PGSIZE -> a + 8 <= b \/ b + 8 <= a ->
  load64 (ram grown) b = load64 (ram s) b.
Proof using Hvm Hfresh.
  intros Hp Hl Hu Hd. apply load64_ext. intros x Hx.
  apply grown_old; [|lia]. destruct (grow_page_disjoint n' p Hp); lia.
Qed.

Lemma grown_pt : pt_inv kend (ram grown) (pt_add P n r).
Proof using Hvm Hfresh Hin Ha Hkend Hroot Hnone.
  destruct Hvm as (_ & Hpt & Huse). split.
  - intros n' p. rewrite node_page_add by done. case_decide as E.
    + intros [= <-]. subst n'. split; [apply (fp_page _ _ _ _ Hfresh)|done].
    + by apply (pi_page _ _ _ Hpt).
  - intros n1 n2 p. rewrite !node_page_add by done. case_decide as E1; case_decide as E2; [congruence|..].
    + intros [= <-] H2. by destruct (grow_new n2 r H2).
    + intros H1 [= <-]. by destruct (grow_new n1 r H1).
    + by apply (pi_inj _ _ _ Hpt).
  - intros n' b Hn' Hb. rewrite node_page_add by done.
    destruct (entry_addr_add P n r n' b Hroot Hb) as [Hb'|(i & j & Hni & -> & ->)].
    + case_decide as E.
      * subst n'. assert (b = a) as -> by congruence. apply grown_entry.
      * destruct (entry_parent P n' b Hn' Hb') as (c & p & i & _ & Hp & -> & Hi & _).
        rewrite (grown_load c p); [|done|lia|unfold PGSIZE; lia|].
        -- by apply (pi_entry _ _ _ Hpt).
        -- destruct (entry_disjoint kend (ram s) P n n' a (p + 8 * i) Hpt); (done || congruence || lia).
    + rewrite decide_False by congruence. destruct Hn' as [_ Hj].
      assert (node_page P (Low i j) = None) as ->.
      { simpl. destruct (low P !! (i, j)) as [p|] eqn:E; [|done].
        apply (pi_dom _ _ _ Hpt) in E as [q Hq].
        pose proof Hnone as Hn0. rewrite Hni in Hn0. simpl in Hn0. congruence. }
      rewrite load64_zero; [done|]. intros x Hx. apply grown_new. unfold PGSIZE. lia.
  - pose proof Hroot as Hroot'. pose proof Ha as Ha'. clear - Hpt Hroot' Ha'.
    intros i j p. destruct n as [|i'|i' j']; [done| |]; cbn [pt_add mid low].
    + intros Hp. destruct (decide (i = i')) as [->|Hne]; [by rewrite lookup_insert_eq|].
      rewrite lookup_insert_ne by done. by eapply (pi_dom _ _ _ Hpt).
    + destruct (decide ((i, j) = (i', j'))) as [[= -> ->]|Hne].
      * intros _. simpl in Ha'. by destruct (mid P !! i').
      * rewrite lookup_insert_ne by done. by eapply (pi_dom _ _ _ Hpt).
Qed.

Lemma grown_cnt q : page_ok kend PHYSTOP q -> 0 < cnt s (q / PGSIZE) ->
  cnt grown (q / PGSIZE) = cnt s (q / PGSIZE).
Proof using Hfresh Hkend.
  intros Hq Hc. simpl. rewrite (fp_cnt _ _ _ _ Hfresh).
  eapply (cnt_set_ne kend PHYSTOP); [apply (fp_page _ _ _ _ Hfresh)|done|].
  intros <-. rewrite (fp_free _ _ _ _ Hfresh) in Hc. lia.
Qed.

Lemma grown_vm : vm_inv kend grown (pt_add P n r).
Proof using Hvm Hfresh Hin Ha Hkend Hroot Hnone.
  pose proof Hvm as (_ & Hpt & Huse). split_and!; [|apply grown_pt|].
  - destruct (fp_inv _ _ _ _ Hfresh) as [ls Hls]. exists ls.
    assert (Hnot : forall q, page_ok kend PHYSTOP q -> 0 < cnt s1 (q / PGSIZE) -> q ∉ concat ls).
    { intros q Hq Hc. rewrite (ai_free _ _ _ _ Hls) by done. lia. }
    pose proof (fp_page _ _ _ _ Hfresh) as Hr.
    assert (Hz : alloc_inv kend PHYSTOP (set_ram (memset (ram s1) r 0 PGSIZE) s1) ls).
    { apply (inv_write _ _ s1 ls r); [done|done| |apply memset_ok, Hls|].
      - apply Hnot; [done|]. rewrite (fp_cnt _ _ _ _ Hfresh), cnt_set_eq. lia.
      - intros x Hx. rewrite memset_spec by (unfold PGSIZE; lia).
        destruct (Z.leb_spec r x), (Z.ltb_spec x (r + PGSIZE)); simpl; (lia || done). }
    destruct grow_parent as (n' & p & Hp & Hl & Hu).
    pose proof (pi_page _ _ _ Hpt _ _ Hp) as [Hpp _].
    apply (inv_write _ _ (set_ram (memset (ram s1) r 0 PGSIZE) s1) ls p); [done|done| | |].
    + apply Hnot; [done|]. pose proof (grown_cnt p Hpp (Huse _ _ Hp)) as Hc. simpl in Hc. rewrite Hc.
      by eapply Huse.
    + apply store_ok, Hz.
    + intros x Hx. apply store_out. lia.
  - intros n' p. rewrite node_page_add by done. case_decide as E.
    + intros [= <-]. simpl. rewrite (fp_cnt _ _ _ _ Hfresh), cnt_set_eq. lia.
    + intros Hp. rewrite grown_cnt; [by eapply Huse|by eapply pi_page|by eapply Huse].
Qed.

Lemma grown_frame : extends kend s P (pt_add P n r) /\ framed kend s grown P.
Proof using Hvm Hfresh Hin Ha Hkend Hroot Hnone.
  pose proof Hvm as (_ & Hpt & Huse). split.
  - split; intros n' p; rewrite node_page_add by done; case_decide as E.
    + subst n'. by rewrite Hnone.
    + done.
    + intros [= <-]. right. apply (fp_free _ _ _ _ Hfresh).
    + by left.
  - split; [|apply grown_cnt]. intros x Hx. apply grown_old.
    + intros Hxr. destruct (Hx r (fp_page _ _ _ _ Hfresh) Hxr) as [Hc _].
      rewrite (fp_free _ _ _ _ Hfresh) in Hc. lia.
    + intros Hxa. destruct grow_parent as (n' & p & Hp & Hl & Hu).
      destruct (Hx p (proj1 (pi_page _ _ _ Hpt _ _ Hp))) as [_ Hn]; [lia|]. by eapply Hn.
Qed.

Lemma grown_leak q : page_ok kend PHYSTOP q -> cnt s (q / PGSIZE) = 0 ->
  cnt grown (q / PGSIZE) = 0 \/ exists n', node_page (pt_add P n r) n' = Some q.
Proof using Hfresh Hroot Hkend.
  intros Hq Hz. destruct (decide (q = r)) as [->|Hne].
  - right. exists n. rewrite node_page_add by done. by rewrite decide_True.
  - left. simpl. rewrite (fp_cnt _ _ _ _ Hfresh), <- Hz.
    eapply (cnt_set_ne kend PHYSTOP); [apply (fp_page _ _ _ _ Hfresh)|done|congruence].
Qed.

Lemma grown_lk va : lk (ram grown) (pt_add P n r) va = lk (ram s) P va.
Proof using Hvm Hfresh Hin Ha Hkend Hroot Hnone.
  pose proof Hvm as (_ & Hpt & Huse). unfold lk, pte_addr. pose proof (PX_range 0 va).
  pose proof (node_page_add P n r (Low (PX 2 va) (PX 1 va)) Hroot) as Hn. cbn [node_page] in Hn.
  rewrite Hn. case_decide as E.
  - assert (low P !! (PX 2 va, PX 1 va) = None) as ->.
    { rewrite <- E in Hnone. exact Hnone. }
    apply load64_zero. intros x Hx. apply grown_new. unfold PGSIZE. lia.
  - destruct (low P !! (PX 2 va, PX 1 va)) as [p|] eqn:Ep; [|done].
    apply (grown_load (Low (PX 2 va) (PX 1 va)) p); [done|lia|unfold PGSIZE; lia|].
    destruct (leaf_entry_disjoint kend (ram s) P va n (p + 8 * PX 0 va) a Hpt);
      [unfold pte_addr; by rewrite Ep|done|done|by right|by left].
Qed.

End grow.

(** ** Steps on a page table *)

(** From [s] with table [P] to [s'] with table [P']: the invariant holds, the
    tree only grew, by pages that were free, and nothing else changed. *)
Record vstep (kend : Z) (s : kst) (P : pt) (s' : kst) (P' : pt) : Prop := {
  vs_inv : vm_inv kend s' P';
  vs_ext : extends kend s P P';
  vs_fr : framed kend s s' P;
  vs_leak : forall q, page_ok kend PHYSTOP q -> cnt s (q / PGSIZE) = 0 ->
    cnt s' (q / PGSIZE) = 0 \/ exists n, node_page P' n = Some q }.

Lemma vstep_refl kend s P : vm_inv kend s P -> vstep kend s P s P.
Proof. intros H. split; [done|split; auto|by split|by left]. Qed.

Lemma vm_cnt_nonneg kend s P q : vm_inv kend s P -> page_ok kend PHYSTOP q -> 0 <= cnt s (q / PGSIZE).
Proof. intros ([ls Hls] & _) Hq. by apply (ai_cnt _ _ _ _ Hls). Qed.

Lemma vstep_outside kend s P s' P' x :
  vstep kend s P s' P' -> outside kend s P x -> outside kend s' P' x.
Proof.
  intros [Hinv [Ho Hn] [Hram Hcnt] _] Hx q Hq Hxq. destruct (Hx q Hq Hxq) as [Hc Hno].
  rewrite Hcnt by done. split; [done|]. intros n E. destruct (Hn n q E); [by eapply Hno|lia].
Qed.

Lemma vstep_trans kend s P s1 P1 s2 P2 :
  vm_inv kend s P -> vstep kend s P s1 P1 -> vstep kend s1 P1 s2 P2 -> vstep kend s P s2 P2.
Proof.
  intros Hvm H1 H2. pose proof H1 as [Hi1 [Ho1 Hn1] [Hr1 Hc1] Hl1]. pose proof H2 as [Hi2 [Ho2 Hn2] [Hr2 Hc2] Hl2].
  split; [done|split|split|].
  - intros n p Hp. by apply Ho2, Ho1.
  - intros n p Hp. destruct (Hn2 n p Hp) as [Hp1|Hz]; [by apply Hn1|]. right.
    assert (Hpg : page_ok kend PHYSTOP p) by (destruct Hi2 as (_ & Hpt & _); by eapply pi_page).
    pose proof (vm_cnt_nonneg _ _ _ _ Hvm Hpg).
    destruct (decide (cnt s (p / PGSIZE) = 0)); [done|]. rewrite Hc1 in Hz by (done || lia). done.
  - intros x Hx. rewrite Hr2 by (by eapply vstep_outside). by apply Hr1.
  - intros q Hq Hc. rewrite Hc2; [by apply Hc1|done|by rewrite Hc1].
  - intros q Hq Hz. destruct (Hl1 q Hq Hz) as [Hz1|[n Hn]]; [by apply Hl2|].
    right. exists n. by apply Ho2.
Qed.

Lemma vstep_root kend s P s' P' : vstep kend s P s' P' -> root P' = root P.
Proof. intros [_ [Ho _] _ _]. specialize (Ho Root (root P) eq_refl). simpl in Ho. congruence. Qed.

Lemma vstep_pte_addr kend s P s' P' va a :
  vstep kend s P s' P' -> pte_addr P va = Some a -> pte_addr P' va = Some a.
Proof.
  intros [_ [Ho _] _ _]. unfold pte_addr.
  destruct (low P !! (PX 2 va, PX 1 va)) as [p|] eqn:E; [|done].
  specialize (Ho (Low (PX 2 va) (PX 1 va)) p E). simpl in Ho. by rewrite Ho.
Qed.

Section walkalloc.
Context (kend : Z) (id : nat).
Hypothesis Hkend : kend_ok kend.
Hypothesis Hid : (id < NCPU)%nat.
Implicit Types (s : kst) (P : pt).

(** From level [level] with table page [p] down to the leaf: 0 when memory ran
    out, else the address of the leaf PTE. No leaf PTE changes. *)
Lemma walk_levels_alloc va level : forall s P p,
  vm_inv kend s P -> (level <= 2)%nat -> node_page P (va_node level va) = Some p ->
  exists r s' P', walk_levels id level p va true s = Ret r s' /\ vstep kend s P s' P' /\
    (r = 0 \/ pte_addr P' va = Some r) /\ forall va', lk (ram s') P' va' = lk (ram s) P va'.
Proof.
  induction level as [|l IH]; intros s P p Hvm Hl Hp.
  { exists (p + 8 * PX 0 va), s, P. split; [done|]. split; [by apply vstep_refl|]. split; [|done].
    right. unfold pte_addr. cbn [va_node node_page] in Hp. by rewrite Hp. }
  pose proof Hvm as ([ls Hls] & Hpt & Huse).
  assert (Hlev : (S l = 1 \/ S l = 2)%nat) by lia.
  destruct (node_page P (va_node l va)) as [c|] eqn:Ec.
  { rewrite (walk_levels_down kend id Hkend (S l) va P s p c) by done. by apply IH; [|lia|]. }
  destruct (va_node_entry (S l) va P p Hlev Hp) as [Ha Hin]. cbn [pred] in Ha, Hin.
  pose proof (pi_entry _ _ _ Hpt _ _ Hin Ha) as He. rewrite Ec in He. simpl in He.
  pose proof (entry_in_ram kend Hkend _ _ _ _ Hpt Hin Ha) as Hram. cbn [walk_levels].
  rewrite (bind_Ret _ _ _ _ _ (rd64_run _ s Hram)), He. cbn [negb].
  destruct (kalloc_any kend s ls id Hkend Hls Hid) as (r & s1 & Hk & [(-> & -> & _)|(Hnz & Hfr)]);
    rewrite (bind_Ret _ _ _ _ _ Hk).
  { exists 0, s, P. split; [done|]. split; [by apply vstep_refl|]. split; [by left|done]. }
  rewrite (proj2 (Z.eqb_neq r 0)) by done.
  assert (Hroot : va_node l va <> Root) by (destruct Hlev as [[= ->]|[= ->]]; done).
  pose proof (in_ram_page kend Hkend r 0 PGSIZE (fp_page _ _ _ _ Hfr) (Z.le_refl _) (Z.le_refl _)) as Hr.
  rewrite Z.add_0_r in Hr.
  rewrite (bind_Ret _ _ _ _ _ (kmemset_run r 0 PGSIZE s1 Hr)).
  rewrite (bind_Ret _ _ _ _ _ (wr64_run _ _ (set_ram (memset (ram s1) r 0 PGSIZE) s1) Hram)).
  pose proof (grown_vm kend s s1 P _ _ r Hkend Hvm Hroot Hin Ha Ec Hfr) as Hg1.
  destruct (grown_frame kend s s1 P _ _ r Hkend Hvm Hroot Hin Ha Ec Hfr) as [Hg2 Hg3].
  pose proof (grown_lk kend s s1 P _ _ r Hkend Hvm Hroot Hin Ha Ec Hfr) as Hg4.
  destruct (IH _ _ r Hg1) as (q & s2 & P2 & Hrun & Hst & Hq & Hlk); [lia| |].
  { rewrite node_page_add by done. by rewrite decide_True. }
  exists q, s2, P2. split; [done|]. split; [|split; [done|]].
  - eapply vstep_trans; [done| |done]. split; [done..|]. intros q0 Hq0 Hz.
    by eapply grown_leak.
  - intros va'. rewrite Hlk. apply Hg4.
Qed.

Lemma walk_alloc s P va :
  vm_inv kend s P -> 0 <= va < MAXVA ->
  exists r s' P', walk id (root P) va true s = Ret r s' /\ vstep kend s P s' P' /\
    (r = 0 \/ pte_addr P' va = Some r) /\ forall va', lk (ram s') P' va' = lk (ram s) P va'.
Proof.
  intros Hvm Hva. unfold walk. rewrite (proj2 (Z.leb_gt _ _)) by lia. by apply walk_levels_alloc; [|lia|].
Qed.

End walkalloc.

(** ** Mapping *)

(** The leaf PTEs [f] after the pages from [a] to [b] are mapped to [pa] on. *)
Definition mapped (f : Z -> Z) (a b pa flags : Z) (va : Z) : Z :=
  if (a <=? va) && (va <? b) then mk_pte (pa + (PGROUNDDOWN va - a)) flags else f va.

Lemma vpn_page a va : a mod PGSIZE = 0 -> vpn va = vpn a <-> a <= va < a + PGSIZE.
Proof. unfold vpn, PGSIZE. intros H. split; dlia. Qed.

Lemma vstep_pte kend s P va a v :
  vm_inv kend s P -> pte_addr P va = Some a ->
  vstep kend s P (set_ram (store64 (ram s) a v) s) P.
Proof. intros Hvm Ha. destruct (vm_inv_pte kend s P va a v Hvm Ha). split; [done|split; auto|done|by left]. Qed.

Section mapping.
Context (kend : Z) (id : nat).
Hypothesis Hkend : kend_ok kend.
Hypothesis Hid : (id < NCPU)%nat.
Implicit Types (s : kst) (P : pt).

(** One round of the loop: out of memory, or the page at [a] is mapped. *)
Lemma map_round s P a :
  vm_inv kend s P -> a mod PGSIZE = 0 -> 0 <= a < MAXVA -> has (lk (ram s) P a) PTE_V = false ->
  exists s1 P1, vstep kend s P s1 P1 /\
   ((walk id (root P) a true s = Ret 0 s1 /\ forall va, lk (ram s1) P1 va = lk (ram s) P va) \/
    exists pte, walk id (root P) a true s = Ret pte s1 /\ pte <> 0 /\ in_ram pte 8 = true /\
      has (load64 (ram s1) pte) PTE_V = false /\
      forall v, 0 <= v < 2 ^ 64 ->
        let s2 := set_ram (store64 (ram s1) pte v) s1 in
        vstep kend s P s2 P1 /\
        forall va, 0 <= va < MAXVA ->
          lk (ram s2) P1 va = if (a <=? va) && (va <? a + PGSIZE) then v else lk (ram s) P va).
Proof using Hkend Hid.
  intros Hvm Hm Ha Hinv.
  destruct (walk_alloc kend id Hkend Hid s P a Hvm Ha) as (r & s1 & P1 & Hrun & Hst & Hr & Hlk).
  exists s1, P1. split; [done|]. destruct (decide (r = 0)) as [->|Hnz]; [by left|right].
  destruct Hr as [|Hr]; [done|]. pose proof (vs_inv _ _ _ _ _ Hst) as Hvm1.
  pose proof Hvm1 as (_ & Hpt1 & _).
  exists r. split_and!; [done|done|by eapply pte_addr_in_ram| |].
  - specialize (Hlk a). unfold lk in Hlk at 1. rewrite Hr in Hlk. by rewrite Hlk.
  - intros v Hv. split; [eapply vstep_trans; [done|done|by eapply vstep_pte]|].
    intros va Hva. cbn [ram set_ram]. rewrite (lk_store kend _ P1 a r v va) by done. rewrite Hlk.
    pose proof (vpn_page a va Hm) as Hv1. destruct (Z.eqb_spec (vpn va) (vpn a)) as [E|E].
    + apply Hv1 in E. by rewrite (proj2 (Z.leb_le _ _)), (proj2 (Z.ltb_lt _ _)) by lia.
    + destruct (Z.leb_spec a va), (Z.ltb_spec va (a + PGSIZE)); simpl; try done. lia.
Qed.

Lemma mapped_cons f g a b pa flags :
  a mod PGSIZE = 0 -> a + PGSIZE <= b ->
  (forall va, 0 <= va < MAXVA ->
    f va = if (a <=? va) && (va <? a + PGSIZE) then mk_pte pa flags else g va) ->
  forall va, 0 <= va < MAXVA -> mapped f (a + PGSIZE) b (pa + PGSIZE) flags va = mapped g a b pa flags va.
Proof.
  intros Hm Hb Hf va Hva. unfold mapped. rewrite Hf by done. rewrite PGROUNDDOWN_spec.
  destruct (Z.leb_spec (a + PGSIZE) va), (Z.ltb_spec va b), (Z.leb_spec a va),
    (Z.ltb_spec va (a + PGSIZE)); cbn [andb]; try lia; try done; f_equal; unfold PGSIZE in *; dlia.
Qed.

Lemma mappages_loop_spec perm last : last mod PGSIZE = 0 -> last < MAXVA -> 0 <= perm < 1024 ->
  forall fuel s P a pa,
  vm_inv kend s P -> a mod PGSIZE = 0 -> 0 <= a <= last -> 0 <= pa -> pa + (last - a) < 2 ^ 56 ->
  (Z.to_nat ((last - a) / PGSIZE) < fuel)%nat ->
  (forall va, a <= va < last + PGSIZE -> has (lk (ram s) P va) PTE_V = false) ->
  exists r s' P' b, mappages_loop id fuel (root P) a last pa perm s = Ret r s' /\
    vstep kend s P s' P' /\
    (r = 0 /\ b = last + PGSIZE \/ r = -1 /\ a <= b <= last /\ b mod PGSIZE = 0) /\
    forall va, 0 <= va < MAXVA ->
      lk (ram s') P' va = mapped (lk (ram s) P) a b pa (Z.lor perm PTE_V) va.
Proof using Hkend Hid.
  intros Hlm Hlast Hperm fuel. induction fuel as [|fuel IH]; intros s P a pa Hvm Hm Ha Hpa Hpb Hf Hinv;
    [lia|]. cbn [mappages_loop].
  assert (Hflags : 0 <= Z.lor perm PTE_V < 1024) by (apply lor_flags; unfold PTE_V; lia).
  destruct (map_round s P a Hvm Hm) as (s1 & P1 & Hst & Hcase); [lia|apply Hinv; unfold PGSIZE; lia|].
  destruct Hcase as [[Hw Hlk]|(pte & Hw & Hnz & Hram & Hnv & Hset)];
    rewrite (bind_Ret _ _ _ _ _ Hw).
  { exists (-1), s1, P1, a. split; [done|]. split; [done|]. split; [right; split; [done|lia]|].
    intros va Hva. rewrite Hlk. unfold mapped.
    destruct (Z.leb_spec a va), (Z.ltb_spec va a); simpl; (done || lia). }
  rewrite (proj2 (Z.eqb_neq pte 0)) by done.
  rewrite (bind_Ret _ _ _ _ _ (rd64_run _ s1 Hram)), Hnv.
  rewrite (bind_Ret _ _ _ _ _ (wr64_run _ _ s1 Hram)). rewrite <- Z.lor_assoc.
  destruct (Hset (mk_pte pa (Z.lor perm PTE_V))) as [Hst2 Hlk2]; [apply mk_pte_range; lia|].
  fold (mk_pte pa (Z.lor perm PTE_V)) in *. cbv zeta in Hst2, Hlk2.
  set (s2 := set_ram _ s1) in *. destruct (Z.eqb_spec a last) as [->|Hne].
  - exists 0, s2, P1, (last + PGSIZE). split; [done|]. split; [done|]. split; [by left|].
    intros va Hva. rewrite Hlk2 by done. unfold mapped.
    destruct (Z.leb_spec last va), (Z.ltb_spec va (last + PGSIZE)); cbn [andb]; try done.
    f_equal. rewrite PGROUNDDOWN_spec. unfold PGSIZE in *. dlia.
  - assert (Hstep : a + PGSIZE <= last) by (destruct (page_disjoint a last Hm Hlm Hne); unfold PGSIZE in *; lia).
    rewrite (u64_small (a + PGSIZE)), (u64_small (pa + PGSIZE)) by (unfold PGSIZE, MAXVA in *; lia).
    rewrite <- (vstep_root _ _ _ _ _ Hst2).
    destruct (IH s2 P1 (a + PGSIZE) (pa + PGSIZE)) as (r & s3 & P3 & b & Hrun & Hst3 & Hr & Hlk3).
    + apply Hst2.
    + unfold PGSIZE in *. dlia.
    + unfold PGSIZE in *. lia.
    + unfold PGSIZE. lia.
    + unfold PGSIZE in *. lia.
    + eapply fuel_step; [exact Hf|lia|lia].
    + intros va Hva. rewrite Hlk2 by (unfold PGSIZE, MAXVA in *; dlia).
      rewrite (proj2 (Z.ltb_ge va (a + PGSIZE))) by lia. rewrite andb_false_r.
      apply Hinv. unfold PGSIZE in *. lia.
    + exists r, s3, P3, b. split; [done|]. split; [by eapply vstep_trans|].
      split; [unfold PGSIZE in *; lia|]. intros va Hva. rewrite Hlk3 by done.
      apply mapped_cons; [done|unfold PGSIZE in *; lia|done|done].
Qed.

Lemma mappages_spec s P va size pa perm :
  vm_inv kend s P -> 0 <= va -> 0 < size -> va + size <= MAXVA -> 0 <= pa -> pa + size < 2 ^ 55 ->
  0 <= perm < 1024 ->
  (forall v, PGROUNDDOWN va <= v < PGROUNDUP (va + size) -> has (lk (ram s) P v) PTE_V = false) ->
  exists r s' P' b, mappages id (root P) va size pa perm s = Ret r s' /\ vstep kend s P s' P' /\
    (r = 0 /\ b = PGROUNDUP (va + size) \/
     r = -1 /\ PGROUNDDOWN va <= b < PGROUNDUP (va + size) /\ b mod PGSIZE = 0) /\
    forall v, 0 <= v < MAXVA ->
      lk (ram s') P' v = mapped (lk (ram s) P) (PGROUNDDOWN va) b pa (Z.lor perm PTE_V) v.
Proof using Hkend Hid.
  intros Hvm Hva Hsz Hend Hpa Hpb Hperm Hinv. unfold mappages.
  pose proof (PGROUNDDOWN_bounds va) as [Hb1 Hb2].
  rewrite u64_small by (unfold MAXVA in *; lia).
  pose proof (PGROUNDDOWN_bounds (va + size - 1)) as [Hc1 Hc2].
  assert (Hup : PGROUNDUP (va + size) = PGROUNDDOWN (va + size - 1) + PGSIZE).
  { rewrite PGROUNDUP_spec, PGROUNDDOWN_spec. unfold PGSIZE. dlia. }
  assert (Hle : PGROUNDDOWN va <= PGROUNDDOWN (va + size - 1)).
  { rewrite !PGROUNDDOWN_spec. unfold PGSIZE. dlia. }
  assert (H0 : 0 <= PGROUNDDOWN va) by (rewrite PGROUNDDOWN_spec; unfold PGSIZE; dlia).
  unfold mappages_fuel. rewrite (proj2 (Z.leb_le _ _)) by done. rewrite Hup in *.
  destruct (mappages_loop_spec perm _ Hc2 ltac:(lia) Hperm
    (S (Z.to_nat ((PGROUNDDOWN (va + size - 1) - PGROUNDDOWN va) / PGSIZE))) s P (PGROUNDDOWN va) pa)
    as (r & s' & P' & b & Hrun & Hst & Hr & Hlk); try done; try (unfold PGSIZE in *; lia).
  exists r, s', P', b. split; [done|]. split; [done|]. split; [|done].
  unfold PGSIZE in *. lia.
Qed.

End mapping.

(** No page frame is free. *)
Definition mem_full (kend : Z) (s : kst) : Prop := forall p, page_ok kend PHYSTOP p -> 0 < cnt s (p / PGSIZE).

Section full.
Context (kend : Z) (id : nat).
Hypothesis Hkend : kend_ok kend.
Hypothesis Hid : (id < NCPU)%nat.

(** A walk that may allocate fails only when memory is out. *)
Lemma walk_levels_full va level : forall s P p s', vm_inv kend s P -> (level <= 2)%nat -> node_page P (va_node level va) = Some p -> walk_levels id level p va true s = Ret 0 s' -> mem_full kend s'.
Proof using Hkend Hid.
  induction level as [|l IH]; intros s P p s' Hvm Hl Hp R; pose proof Hvm as ([ls Hls] & Hpt & _).
  { cbn [va_node node_page] in Hp. injection R as E _. exfalso. apply (pte_addr_nonzero kend Hkend (ram s) P va (p + 8 * PX 0 va) Hpt); [unfold pte_addr; by rewrite Hp|done]. }
  assert (Hlev : (S l = 1 \/ S l = 2)%nat) by lia. destruct (node_page P (va_node l va)) as [c|] eqn:Ec.
  { rewrite (walk_levels_down kend id Hkend (S l) va P s p c) in R by done. by eapply (IH s P c); [|lia| |]. }
  destruct (va_node_entry (S l) va P p Hlev Hp) as [Ha Hin]. cbn [pred] in Ha, Hin. pose proof (pi_entry _ _ _ Hpt _ _ Hin Ha) as He. rewrite Ec in He. simpl in He.
  pose proof (entry_in_ram kend Hkend _ _ _ _ Hpt Hin Ha) as Hram. cbn [walk_levels] in R. rewrite (bind_Ret _ _ _ _ _ (rd64_run _ s Hram)), He in R. cbn [negb] in R.
  destruct (kalloc_any kend s ls id Hkend Hls Hid) as (r & s1 & Hk & [(-> & -> & Hf)|(Hnz & Hfr)]); rewrite (bind_Ret _ _ _ _ _ Hk) in R; [by injection R as <-|].
  rewrite (proj2 (Z.eqb_neq r 0)) in R by done. assert (Hroot : va_node l va <> Root) by (destruct Hlev as [[= ->]|[= ->]]; done).
  pose proof (in_ram_page kend Hkend r 0 PGSIZE (fp_page _ _ _ _ Hfr) (Z.le_refl _) (Z.le_refl _)) as Hr. rewrite Z.add_0_r in Hr.
  rewrite (bind_Ret _ _ _ _ _ (kmemset_run r 0 PGSIZE s1 Hr)) in R. rewrite (bind_Ret _ _ _ _ _ (wr64_run _ _ (set_ram (memset (ram s1) r 0 PGSIZE) s1) Hram)) in R.
  pose proof (grown_vm kend s s1 P _ _ r Hkend Hvm Hroot Hin Ha Ec Hfr) as Hg. eapply (IH _ _ r s' Hg); [lia| |exact R]. rewrite node_page_add by done. by rewrite decide_True.
Qed.
Lemma mappages_full s P a r perm s' : vm_inv kend s P -> a mod PGSIZE = 0 -> 0 <= a < MAXVA -> 0 <= r < 2 ^ 55 -> 0 <= perm < 1024 -> has (lk (ram s) P a) PTE_V = false -> mappages id (root P) a PGSIZE r perm s = Ret (-1) s' -> mem_full kend s'.
Proof using Hkend Hid.
  intros Hvm Hm Ha Hr Hp Hv R. unfold mappages in R. assert (E1 : PGROUNDDOWN a = a) by (rewrite PGROUNDDOWN_spec; lia).
  assert (E2 : PGROUNDDOWN (u64 (a + PGSIZE - 1)) = a) by (rewrite u64_small by (unfold MAXVA, PGSIZE in *; lia); rewrite PGROUNDDOWN_spec; unfold PGSIZE in *; dlia).
  rewrite E1, E2 in R. unfold mappages_fuel in R. rewrite (proj2 (Z.leb_le a a)) in R by lia. cbn [mappages_loop] in R.
  destruct (map_round kend id Hkend Hid s P a Hvm Hm Ha Hv) as (s1 & P1 & _ & [[Hw _]|(pte & Hw & Hnz & Hram & Hnv & _)]); rewrite (bind_Ret _ _ _ _ _ Hw) in R.
  - injection R as <-. unfold walk in Hw. rewrite (proj2 (Z.leb_gt _ _)) in Hw by lia. by eapply (walk_levels_full a 2 s P (root P)); [|lia| |].
  - rewrite (proj2 (Z.eqb_neq pte 0)) in R by done. rewrite (bind_Ret _ _ _ _ _ (rd64_run _ s1 Hram)), Hnv in R. rewrite (bind_Ret _ _ _ _ _ (wr64_run _ _ s1 Hram)), Z.eqb_refl in R. done.
Qed.
End full.

End Pgtbl.
