(* ===== verification/Uvm.v ===== *)
(** User address spaces (kernel/mm/vm.c, second part; the copy-on-write half of
    kernel/mm/kalloc.c).

    Module [Uvm] models [uvminit], [uvmalloc], [uvmdealloc], [freewalk],
    [uvmfree], [uvmcopy], [copyout], [copyin], [copyinstr], [cowpage] and
    [cowalloc] over the page tables of [Pgtbl]. *)

From S2P Require Import Prelude Mem Kstring Kalloc Pgtbl.
Import Kstring Kalloc Pgtbl.

Module Uvm.

Section code.
(** The linker's [end], and the CPU the code runs on. *)
Context (kend : Z) (id : nat).

Definition PTE_RWXU : Z := Z.lor (Z.lor (Z.lor PTE_W PTE_X) PTE_R) PTE_U.

Definition uvminit (pagetable src sz : Z) : M kst unit :=
  if PGSIZE <=? sz then panic "inituvm: more than a page"
  else
    let* mem := kalloc id in
    kmemset mem 0 PGSIZE ;;;
    let* _ := mappages id pagetable 0 PGSIZE mem PTE_RWXU in
    kmemmove mem src sz.

Definition uvmdealloc (pagetable oldsz newsz : Z) : M kst Z :=
  if oldsz <=? newsz then ret oldsz
  else
    when (PGROUNDUP newsz <? PGROUNDUP oldsz)
      (uvmunmap kend id pagetable (PGROUNDUP newsz)
         (s32 ((PGROUNDUP oldsz - PGROUNDUP newsz) / PGSIZE)) true) ;;;
    ret newsz.

(** [for (a = oldsz; a < newsz; a += PGSIZE)]; [oldsz] is already rounded. *)
Fixpoint uvmalloc_loop (fuel : nat) (pagetable oldsz a newsz : Z) : M kst Z :=
  match fuel with
  | O => nofuel
  | S fuel =>
      if a <? newsz then
        let* mem := kalloc id in
        if mem =? 0 then uvmdealloc pagetable a oldsz ;;; ret 0
        else
          kmemset mem 0 PGSIZE ;;;
          let* r := mappages id pagetable a PGSIZE mem PTE_RWXU in
          if negb (r =? 0) then
            kfree kend id mem ;;;
            uvmdealloc pagetable a oldsz ;;;
            ret 0
          else uvmalloc_loop fuel pagetable oldsz (u64 (a + PGSIZE)) newsz
      else ret newsz
  end.
Definition uvmalloc (pagetable oldsz newsz : Z) : M kst Z :=
  if newsz <? oldsz then ret oldsz
  else
    let oldsz := PGROUNDUP oldsz in
    uvmalloc_loop (S (Z.to_nat ((newsz - oldsz + PGSIZE - 1) / PGSIZE))) pagetable oldsz oldsz newsz.

(** Page tables are at most three levels deep; [depth] bounds the recursion. *)
Fixpoint freewalk (depth : nat) (pagetable : Z) : M kst unit :=
  match depth with
  | O => nofuel
  | S depth =>
      for_loop 512 0 (fun i =>
        let* pte := rd64 (pagetable + 8 * i) in
        if has pte PTE_V && negb (has pte (Z.lor (Z.lor PTE_R PTE_W) PTE_X)) then
          freewalk depth (PTE2PA pte) ;;;
          wr64 (pagetable + 8 * i) 0
        else ret tt) ;;;
      kfree kend id pagetable
  end.

Definition uvmfree (pagetable sz : Z) : M kst unit :=
  when (0 <? sz) (uvmunmap kend id pagetable 0 (PGROUNDUP sz / PGSIZE) true) ;;;
  freewalk 3 pagetable.

(** [for (i = 0; i < sz; i += PGSIZE)] *)
Fixpoint uvmcopy_loop (fuel : nat) (old new i sz : Z) : M kst Z :=
  match fuel with
  | O => nofuel
  | S fuel =>
      if i <? sz then
        let next := uvmcopy_loop fuel old new (u64 (i + PGSIZE)) sz in
        let* pte := walk id old i false in
        if pte =? 0 then next
        else
          let* e := rd64 pte in
          if negb (has e PTE_V) then next
          else
            let pa := PTE2PA e in
            let flags := PTE_FLAGS e in
            let* flags :=
              if has flags PTE_W then
                let flags := Z.land (Z.lor flags PTE_F) (Z.lnot PTE_W) in
                wr64 pte (Z.lor (PA2PTE pa) flags) ;;;
                ret flags
              else ret flags in
            let* r := mappages id new i PGSIZE pa flags in
            if negb (r =? 0) then
              uvmunmap kend id new 0 (i / PGSIZE) true ;;;
              ret (-1)
            else
              let* _ := kaddrefcnt kend pa in
              next
      else ret 0
  end.
Definition uvmcopy (old new sz : Z) : M kst Z :=
  uvmcopy_loop (S (Z.to_nat ((sz + PGSIZE - 1) / PGSIZE))) old new 0 sz.

Definition cowpage (pagetable va : Z) : M kst Z :=
  if MAXVA <=? va then ret (-1)
  else
    let* pte := walk id pagetable va false in
    if pte =? 0 then ret (-1)
    else
      let* e := rd64 pte in
      if negb (has e PTE_V) then ret (-1)
      else ret (if has e PTE_F then 0 else -1).

Definition cowalloc (pagetable va : Z) : M kst Z :=
  if negb (va mod PGSIZE =? 0) then ret 0
  else
    let* pa := walkaddr id pagetable va in
    if pa =? 0 then ret 0
    else
      let* pte := walk id pagetable va false in
      let* n := krefcnt pa in
      if n =? 1 then
        let* e := rd64 pte in
        wr64 pte (Z.lor e PTE_W) ;;;
        let* e := rd64 pte in
        wr64 pte (Z.land e (Z.lnot PTE_F)) ;;;
        ret pa
      else
        let* mem := kalloc id in
        if mem =? 0 then ret 0
        else
          kmemmove mem pa PGSIZE ;;;
          let* e := rd64 pte in
          wr64 pte (Z.land e (Z.lnot PTE_V)) ;;;
          let* e := rd64 pte in
          let* r := mappages id pagetable va PGSIZE mem
                      (Z.land (Z.lor (PTE_FLAGS e) PTE_W) (Z.lnot PTE_F)) in
          if negb (r =? 0) then
            kfree kend id mem ;;;
            let* e := rd64 pte in
            wr64 pte (Z.lor e PTE_V) ;;;
            ret 0
          else
            kfree kend id (PGROUNDDOWN pa) ;;;
            ret mem.

(** [while (len > 0)]; every round finishes a page, so the number of pages the
    range touches bounds the loops of the three copies. *)
Definition copy_fuel (len : Z) : nat := S (S (S (Z.to_nat (len / PGSIZE)))).

Fixpoint copyout_loop (fuel : nat) (pagetable dstva src len : Z) : M kst Z :=
  match fuel with
  | O => nofuel
  | S fuel =>
      if 0 <? len then
        let va0 := PGROUNDDOWN dstva in
        let* pa0 := walkaddr id pagetable va0 in
        let* c := cowpage pagetable va0 in
        let* pa0 := if c =? 0 then cowalloc pagetable va0 else ret pa0 in
        if pa0 =? 0 then ret (-1)
        else
          let n := PGSIZE - (dstva - va0) in
          let n := if len <? n then len else n in
          kmemmove (pa0 + (dstva - va0)) src n ;;;
          copyout_loop fuel pagetable (u64 (va0 + PGSIZE)) (u64 (src + n)) (len - n)
      else ret 0
  end.
Definition copyout (pagetable dstva src len : Z) : M kst Z :=
  copyout_loop (copy_fuel len) pagetable dstva src len.

Fixpoint copyin_loop (fuel : nat) (pagetable dst srcva len : Z) : M kst Z :=
  match fuel with
  | O => nofuel
  | S fuel =>
      if 0 <? len then
        let va0 := PGROUNDDOWN srcva in
        let* pa0 := walkaddr id pagetable va0 in
        if pa0 =? 0 then ret (-1)
        else
          let n := PGSIZE - (srcva - va0) in
          let n := if len <? n then len else n in
          kmemmove dst (pa0 + (srcva - va0)) n ;;;
          copyin_loop fuel pagetable (u64 (dst + n)) (u64 (va0 + PGSIZE)) (len - n)
      else ret 0
  end.
Definition copyin (pagetable dst srcva len : Z) : M kst Z :=
  copyin_loop (copy_fuel len) pagetable dst srcva len.

(** The inner [while (n > 0)] of [copyinstr]: the bytes of one page. Returns
    [got_null] and the [dst] and [max] it leaves. *)
Definition rd8 (a : Z) : M kst Z := if in_ram a 1 then gets (fun s => ram s a) else fault.
Definition wr8 (a v : Z) : M kst unit :=
  if in_ram a 1 then modify (fun s => set_ram (upd (ram s) a v) s) else fault.
Fixpoint copyinstr_page (n : nat) (p dst max : Z) : M kst (bool * Z * Z) :=
  match n with
  | O => ret (false, dst, max)
  | S n =>
      let* c := rd8 p in
      if c =? 0 then wr8 dst 0 ;;; ret (true, dst, max)
      else wr8 dst c ;;; copyinstr_page n (p + 1) (dst + 1) (max - 1)
  end.
Fixpoint copyinstr_loop (fuel : nat) (pagetable dst srcva max : Z) : M kst Z :=
  match fuel with
  | O => nofuel
  | S fuel =>
      if 0 <? max then
        let va0 := PGROUNDDOWN srcva in
        let* pa0 := walkaddr id pagetable va0 in
        if pa0 =? 0 then ret (-1)
        else
          let n := PGSIZE - (srcva - va0) in
          let n := if max <? n then max else n in
          let* '(got_null, dst, max) := copyinstr_page (Z.to_nat n) (pa0 + (srcva - va0)) dst max in
          if got_null then ret 0 else copyinstr_loop fuel pagetable dst (u64 (va0 + PGSIZE)) max
      else ret (-1)
  end.
Definition copyinstr (pagetable dst srcva max : Z) : M kst Z :=
  copyinstr_loop (copy_fuel max) pagetable dst srcva max.

End code.

(** ** What an operation touches *)

(** Only the pages of [T] and free pages change, from [s] to [s']. *)
Record frame_on (kend : Z) (T : Z -> Prop) (s s' : kst) : Prop := {
  fo_ram : forall x, (forall q, page_ok kend PHYSTOP q -> q <= x < q + PGSIZE ->
    0 < cnt s (q / PGSIZE) /\ ~ T q) -> ram s' x = ram s x;
  fo_cnt : forall q, page_ok kend PHYSTOP q -> 0 < cnt s (q / PGSIZE) -> ~ T q ->
    cnt s' (q / PGSIZE) = cnt s (q / PGSIZE) }.

Lemma frame_refl kend T s : frame_on kend T s s.
Proof. by split. Qed.

Lemma frame_trans kend T T1 s s1 s2 :
  frame_on kend T s s1 -> frame_on kend T1 s1 s2 ->
  (forall q, page_ok kend PHYSTOP q -> 0 < cnt s (q / PGSIZE) -> T1 q -> T q) ->
  frame_on kend T s s2.
Proof.
  intros [R1 C1] [R2 C2] HT. split.
  - intros x Hx. rewrite R2, R1; [done|done|]. intros q Hq Hxq. destruct (Hx q Hq Hxq) as [Hc Hn].
    rewrite C1 by done. split; [done|]. intros HT1. by apply Hn, HT.
  - intros q Hq Hc Hn. rewrite C2, C1; [done..| |].
    + by rewrite C1.
    + intros HT1. by apply Hn, HT.
Qed.

Lemma frame_weaken kend (T T1 : Z -> Prop) s s1 :
  frame_on kend T1 s s1 -> (forall q, page_ok kend PHYSTOP q -> 0 < cnt s (q / PGSIZE) -> T1 q -> T q) ->
  frame_on kend T s s1.
Proof. intros H HT. eapply frame_trans; [apply frame_refl|exact H|done]. Qed.

(** The pages of a page table. *)
Definition is_node (P : pt) (q : Z) : Prop := exists n, node_page P n = Some q.

Lemma framed_on kend s s' P : framed kend s s' P -> frame_on kend (is_node P) s s'.
Proof.
  intros [R C]. split; [|auto]. intros x Hx. apply R. intros q Hq Hxq.
  destruct (Hx q Hq Hxq) as [Hc Hn]. split; [done|]. intros n E. apply Hn. by exists n.
Qed.

(** The contents of a page the operation does not touch. *)
Lemma frame_page kend T s s' p x :
  frame_on kend T s s' -> page_ok kend PHYSTOP p -> 0 < cnt s (p / PGSIZE) -> ~ T p ->
  p <= x < p + PGSIZE -> ram s' x = ram s x.
Proof.
  intros [R _] Hp Hc Hn Hx. apply R. intros q Hq Hxq. assert (q = p) as ->; [|done].
  destruct (decide (q = p)) as [|Hne]; [done|]. destruct Hp as [Hp _], Hq as [Hq _].
  destruct (page_disjoint q p); (done || lia).
Qed.

(** A page table that shares no page with what is touched keeps its mapping. *)
Lemma frame_pt kend T s s' P :
  frame_on kend T s s' -> vm_inv kend s P -> (exists ls, alloc_inv kend PHYSTOP s' ls) ->
  (forall q, is_node P q -> ~ T q) ->
  vm_inv kend s' P /\ forall va, lk (ram s') P va = lk (ram s) P va.
Proof.
  intros Hfr ([ls Hls] & Hpt & Huse) Hal' HT.
  assert (Hload : forall n p a, node_page P n = Some p -> p <= a -> a + 8 <= p + PGSIZE ->
    load64 (ram s') a = load64 (ram s) a).
  { intros n p a Hp Hl Hu. apply load64_ext. intros x Hx.
    eapply frame_page; [done|by eapply pi_page|by eapply Huse|apply HT; by exists n|lia]. }
  split.
  - split_and!; [done| |].
    + destruct Hpt as [Hpg Hinj He Hd]. split; try done. intros n a Hn Ha.
      destruct (entry_parent P n a Hn Ha) as (n' & p & i & _ & Hp & -> & Hi & _).
      rewrite (Hload n' p); [|done|lia|unfold PGSIZE; lia]. by apply He.
    + intros n p Hp. rewrite (fo_cnt _ _ _ _ Hfr); [by eapply Huse|by eapply pi_page|by eapply Huse|].
      apply HT. by exists n.
  - intros va. unfold lk. destruct (pte_addr P va) as [a|] eqn:E; [|done].
    destruct (pte_addr_page _ _ _ E) as (p & Hp & ->). pose proof (PX_range 0 va).
    eapply Hload; [exact Hp|lia|unfold PGSIZE; lia].
Qed.

(** ** User address spaces *)

(** A leaf PTE of user memory: a page frame in use that is not part of the page
    table, with flags that make it a leaf. *)
Record leaf_ok (kend : Z) (s : kst) (P : pt) (e : Z) : Prop := {
  lf_eta : mk_pte (PTE2PA e) (PTE_FLAGS e) = e;
  lf_flags : PTE_FLAGS e <> PTE_V;
  lf_page : page_ok kend PHYSTOP (PTE2PA e);
  lf_cnt : 0 < cnt s (PTE2PA e / PGSIZE);
  lf_node : ~ is_node P (PTE2PA e) }.

(** User memory lies below the trapframe; what is mapped above it is not
    accessible to the user. Different user pages are different page frames. *)
Record uspace (kend : Z) (s : kst) (P : pt) : Prop := {
  us_vm : vm_inv kend s P;
  us_leaf : forall va, 0 <= va < TRAPFRAME -> has (lk (ram s) P va) PTE_V = true ->
    leaf_ok kend s P (lk (ram s) P va);
  us_inj : forall va va', 0 <= va < TRAPFRAME -> 0 <= va' < TRAPFRAME ->
    has (lk (ram s) P va) PTE_V = true -> has (lk (ram s) P va') PTE_V = true ->
    PTE2PA (lk (ram s) P va) = PTE2PA (lk (ram s) P va') -> vpn va = vpn va';
  us_high : forall va, TRAPFRAME <= va < MAXVA -> has (lk (ram s) P va) PTE_V = true ->
    has (lk (ram s) P va) PTE_U = false }.

Lemma trapframe_maxva : TRAPFRAME = MAXVA - 2 * PGSIZE.
Proof. reflexivity. Qed.

(** The page frame user address [va] is mapped to. *)
Definition upage (m : mem) (P : pt) (va : Z) : option Z :=
  if has (lk m P va) PTE_V then Some (PTE2PA (lk m P va)) else None.

(** The byte the user reads at [va]. *)
Definition umem (m : mem) (P : pt) (va : Z) : option Z :=
  let e := lk m P va in
  if (va <? MAXVA) && has e PTE_V && has e PTE_U then Some (m (PTE2PA e + va mod PGSIZE)) else None.

(** ** Unmapping *)

(** [q] is mapped by user memory in [[a, b)]. *)
Definition maps (m : mem) (P : pt) (a b q : Z) : Prop := exists va, a <= va < b /\ upage m P va = Some q.

Lemma upage_vpn m P va va' :
  0 <= va < MAXVA -> 0 <= va' < MAXVA -> vpn va = vpn va' -> upage m P va = upage m P va'.
Proof. intros H H' E. unfold upage. by rewrite (lk_vpn m P va va'). Qed.

Lemma maps_page m P a q :
  a mod PGSIZE = 0 -> 0 <= a < TRAPFRAME -> maps m P a (a + PGSIZE) q <-> upage m P a = Some q.
Proof.
  intros Hm Ha. rewrite trapframe_maxva in Ha. split.
  - intros (va & Hva & Hq). rewrite <- (upage_vpn m P va a); [done|unfold PGSIZE in *; lia..|].
    by apply vpn_page.
  - intros Hq. exists a. unfold PGSIZE. split; [lia|done].
Qed.

Lemma has_0 b : has 0 b = false.
Proof. reflexivity. Qed.

Section unmap.
Context (kend : Z).
Implicit Types (s : kst) (P : pt).

(** The mapping [P] of [s] without the pages in [[a, b)], in [s']. *)
Record unmapped s P a b s' : Prop := {
  um_space : uspace kend s' P;
  um_lk : forall va, 0 <= va < MAXVA -> lk (ram s') P va =
    if (a <=? va) && (va <? b) && has (lk (ram s) P va) PTE_V then 0 else lk (ram s) P va;
  um_dec : forall q, page_ok kend PHYSTOP q -> maps (ram s) P a b q ->
    cnt s' (q / PGSIZE) = cnt s (q / PGSIZE) - 1;
  um_keep : forall q, page_ok kend PHYSTOP q -> ~ maps (ram s) P a b q ->
    cnt s' (q / PGSIZE) = cnt s (q / PGSIZE);
  um_ram : forall x, (forall q, page_ok kend PHYSTOP q -> q <= x < q + PGSIZE ->
    0 < cnt s (q / PGSIZE) /\ ~ is_node P q /\ (maps (ram s) P a b q -> 1 < cnt s (q / PGSIZE))) ->
    ram s' x = ram s x }.

Lemma um_frame s P a b s' :
  unmapped s P a b s' -> frame_on kend (fun q => is_node P q \/ maps (ram s) P a b q) s s'.
Proof using Type.
  intros [_ _ _ K R]. split.
  - intros x Hx. apply R. intros q Hq Hxq. destruct (Hx q Hq Hxq) as [Hc Hn].
    split_and!; [done|tauto|]. intros M. by destruct Hn; right.
  - intros q Hq _ Hn. apply K; [done|tauto].
Qed.

Lemma unmapped_none s P a b :
  uspace kend s P -> (forall va, a <= va < b -> has (lk (ram s) P va) PTE_V = false) ->
  unmapped s P a b s.
Proof using Type.
  intros Hus Hno. split; try done.
  - intros va Hva. destruct (Z.leb_spec a va), (Z.ltb_spec va b); simpl; try done.
    by rewrite Hno by lia.
  - intros q Hq (va & Hva & E). unfold upage in E. by rewrite Hno in E by done.
Qed.

(** Clearing the PTE of [a] after its page was freed. *)
Lemma clear_leaf s P a s1 pte :
  let pa := PTE2PA (lk (ram s) P a) in
  uspace kend s P -> a mod PGSIZE = 0 -> 0 <= a < TRAPFRAME -> pte_addr P a = Some pte ->
  has (lk (ram s) P a) PTE_V = true -> vm_inv kend s1 P ->
  (forall va, lk (ram s1) P va = lk (ram s) P va) ->
  (forall q, page_ok kend PHYSTOP q ->
     cnt s1 (q / PGSIZE) = if q =? pa then cnt s (q / PGSIZE) - 1 else cnt s (q / PGSIZE)) ->
  let s2 := set_ram (store64 (ram s1) pte 0) s1 in
  uspace kend s2 P /\
  forall va, 0 <= va < MAXVA -> lk (ram s2) P va = if vpn va =? vpn a then 0 else lk (ram s) P va.
Proof using Type.
  intros pa [Hvm Hleaf Hinj Hhigh] Hm Ha Ep Hv Hvm1 Hlk1 Hcnt1 s2.
  pose proof (vs_inv _ _ _ _ _ (vstep_pte kend s1 P a pte 0 Hvm1 Ep)) as Hvm2.
  assert (HaM : 0 <= a < MAXVA) by (rewrite trapframe_maxva in Ha; unfold PGSIZE in *; lia).
  assert (Hlk2 : forall va, 0 <= va < MAXVA -> lk (ram s2) P va = if vpn va =? vpn a then 0 else lk (ram s) P va).
  { intros va Hva. unfold s2. cbn [ram set_ram]. pose proof Hvm1 as (_ & Hpt1 & _).
    rewrite (lk_store kend _ P a pte 0 va) by (done || lia). by rewrite Hlk1. }
  assert (Hother : forall va, 0 <= va < TRAPFRAME -> has (lk (ram s2) P va) PTE_V = true ->
    lk (ram s2) P va = lk (ram s) P va /\ vpn va <> vpn a).
  { intros va Hva. rewrite trapframe_maxva in Hva. rewrite Hlk2 by (unfold PGSIZE in *; lia).
    destruct (Z.eqb_spec (vpn va) (vpn a)) as [E|E]; [by rewrite has_0|done]. }
  split; [|done]. split; [done|..].
  - intros va Hva Hv'. destruct (Hother va Hva Hv') as [E Hne]. rewrite E in *.
    destruct (Hleaf va Hva Hv') as [K1 K2 K3 K4 K5]. split; try done.
    change (cnt s2) with (cnt s1). rewrite Hcnt1 by done.
    rewrite (proj2 (Z.eqb_neq _ _)); [done|]. intros Epa. by apply Hne, Hinj.
  - intros va va' Hva Hva' Hv1 Hv2.
    destruct (Hother va Hva Hv1) as [E1 _], (Hother va' Hva' Hv2) as [E2 _].
    rewrite E1, E2 in *. by apply Hinj.
  - intros va Hva. pose proof Hva as Hva'. rewrite trapframe_maxva in Hva'.
    rewrite Hlk2 by (unfold PGSIZE, MAXVA in *; lia).
    destruct (_ =? _); [by rewrite has_0|]. by apply Hhigh.
Qed.

(** Whether a page is mapped in a range is decidable, page by page. *)
Lemma maps_dec s P a b q : 0 <= a -> b <= TRAPFRAME -> maps (ram s) P a b q \/ ~ maps (ram s) P a b q.
Proof using Type.
  intros Ha Hb. set (f := fun n : nat => bool_decide (upage (ram s) P (a + Z.of_nat n) = Some q)).
  destruct (existsb f (seq 0 (Z.to_nat (b - a)))) eqn:E; [left|right].
  - apply existsb_exists in E as (n & Hn & Hf). apply in_seq in Hn. apply bool_decide_eq_true in Hf.
    exists (a + Z.of_nat n). split; [lia|done].
  - intros (va & Hva & Hq). apply not_true_iff_false in E. apply E, existsb_exists.
    exists (Z.to_nat (va - a)). split; [apply in_seq; lia|]. apply bool_decide_eq_true.
    by replace (a + Z.of_nat (Z.to_nat (va - a))) with va by lia.
Qed.

(** Two adjacent ranges. *)
Lemma unmapped_app s P a b c s1 s2 :
  0 <= a -> a <= b <= c -> c <= TRAPFRAME -> b mod PGSIZE = 0 ->
  unmapped s P a b s1 -> unmapped s1 P b c s2 -> uspace kend s P -> unmapped s P a c s2.
Proof using Type.
  intros Ha Hb Hc Hbm [U1 L1 D1 K1 R1] [U2 L2 D2 K2 R2] Hus. rewrite trapframe_maxva in Hc.
  assert (Hpost : forall va, b <= va < c -> upage (ram s1) P va = upage (ram s) P va).
  { intros va Hva. unfold upage. rewrite L1 by (unfold PGSIZE in *; lia).
    rewrite (proj2 (Z.ltb_ge va b)) by lia. rewrite andb_false_r. done. }
  assert (Hm2 : forall q, maps (ram s1) P b c q <-> maps (ram s) P b c q).
  { intros q. split; intros (va & Hva & E); exists va; (split; [done|]); by rewrite Hpost in *. }
  assert (Hcat : forall q, maps (ram s) P a c q <-> maps (ram s) P a b q \/ maps (ram s) P b c q).
  { intros q. split.
    - intros (va & Hva & E). destruct (Z.lt_ge_cases va b); [left|right]; exists va; (split; [lia|done]).
    - intros [(va & Hva & E)|(va & Hva & E)]; exists va; (split; [lia|done]). }
  assert (Hdis : forall q, maps (ram s) P a b q -> maps (ram s) P b c q -> False).
  { intros q (va & Hva & E) (va' & Hva' & E'). unfold upage in E, E'.
    destruct (has (lk (ram s) P va) PTE_V) eqn:V1; [|done].
    destruct (has (lk (ram s) P va') PTE_V) eqn:V2; [|done].
    assert (vpn va = vpn va') as Ev; [|unfold vpn, PGSIZE in *; dlia].
    apply (us_inj _ _ _ Hus); try (rewrite trapframe_maxva; unfold PGSIZE in *; lia); congruence. }
  split; [done|..].
  - intros va Hva. rewrite L2, L1 by done.
    destruct (Z.leb_spec a va), (Z.ltb_spec va b), (Z.leb_spec b va), (Z.ltb_spec va c);
      cbn [andb]; try lia; try done.
  - intros q Hq Hmap. apply Hcat in Hmap as [M|M].
    + rewrite K2, D1; [done|done|done|done|]. intros M'%Hm2. by eapply Hdis.
    + rewrite D2, K1; [done|done| |done|by apply Hm2]. intros M'. by eapply Hdis.
  - intros q Hq Hmap. rewrite K2, K1; [done|done| |done|].
    + intros M. by apply Hmap, Hcat; left.
    + intros M%Hm2. by apply Hmap, Hcat; right.
  - intros x Hx. rewrite R2, R1; [done|..]; intros q Hq Hxq; destruct (Hx q Hq Hxq) as (Hcq & Hn & Hmq).
    + split_and!; [done|done|]. intros M. apply Hmq, Hcat. by left.
    + rewrite Hm2. destruct (maps_dec s P a b q) as [M|M]; [lia|rewrite trapframe_maxva; lia|..].
      * specialize (D1 q Hq M). pose proof (Hmq (proj2 (Hcat q) (or_introl M))).
        split_and!; [lia|done|]. intros M'. by destruct (Hdis q M M').
      * rewrite K1 by done. split_and!; [done|done|]. intros M'. apply Hmq, Hcat. by right.
Qed.

Context (id : nat).
Hypothesis Hkend : kend_ok kend.
Hypothesis Hid : (id < NCPU)%nat.

(** The effect of [kfree] on an address space, before its PTE is cleared. *)
Lemma kfree_leaf s P a :
  uspace kend s P -> 0 <= a < TRAPFRAME -> has (lk (ram s) P a) PTE_V = true ->
  let pa := PTE2PA (lk (ram s) P a) in
  exists s1, kfree kend id pa s = Ret tt s1 /\ vm_inv kend s1 P /\
    (forall va, lk (ram s1) P va = lk (ram s) P va) /\
    (forall q, page_ok kend PHYSTOP q ->
       cnt s1 (q / PGSIZE) = if q =? pa then cnt s (q / PGSIZE) - 1 else cnt s (q / PGSIZE)) /\
    frame_on kend (fun q => q = pa) s s1 /\ (1 < cnt s (pa / PGSIZE) -> ram s1 = ram s).
Proof using Hkend Hid.
  intros [Hvm Hleaf Hinj Hhigh] Ha Hv pa. destruct (Hleaf a Ha Hv) as [Heta Hfl Hpg Hc Hnode].
  pose proof Hvm as ([ls Hls] & Hpt & Huse).
  destruct (kfree_spec kend Hkend s ls id pa Hls Hid Hpg Hc) as (s1 & ls1 & Hrun & Hls1 & Hcnt & Hram).
  assert (Hcq : forall q, page_ok kend PHYSTOP q ->
    cnt s1 (q / PGSIZE) = if q =? pa then cnt s (q / PGSIZE) - 1 else cnt s (q / PGSIZE)).
  { intros q Hq. rewrite Hcnt. destruct (Z.eqb_spec q pa) as [->|Hne]; [apply cnt_set_eq|].
    apply (cnt_set_ne kend PHYSTOP); (done || congruence). }
  assert (Hfr : frame_on kend (fun q => q = pa) s s1).
  { split.
    - intros x Hx. apply Hram. intros Hin. by destruct (Hx pa Hpg Hin).
    - intros q Hq _ Hne. rewrite Hcq by done. by rewrite (proj2 (Z.eqb_neq _ _)). }
  destruct (frame_pt kend _ s s1 P Hfr Hvm) as [Hvm1 Hlk1]; [by exists ls1|by intros q Hq ->|].
  exists s1. split_and!; try done. intros Hc1. pose proof (ai_cnt _ _ _ _ Hls pa Hpg) as Hr.
  rewrite (kfree_shared_run kend PHYSTOP Hkend (Z.le_refl _) s id pa) in Hrun by (done || lia). by injection Hrun as <-.
Qed.

(** The page range of one round, from the effect of that round. *)
Lemma unmapped_round s P a s1 pte :
  uspace kend s P -> a mod PGSIZE = 0 -> 0 <= a < TRAPFRAME -> pte_addr P a = Some pte ->
  has (lk (ram s) P a) PTE_V = true -> kfree kend id (PTE2PA (lk (ram s) P a)) s = Ret tt s1 ->
  unmapped s P a (a + PGSIZE) (set_ram (store64 (ram s1) pte 0) s1).
Proof using Hkend Hid.
  intros Hus Hm Ha Ep Hv Hk.
  destruct (kfree_leaf s P a Hus Ha Hv) as (s1' & Hk' & Hvm1 & Hlk1 & Hcnt1 & Hfr1 & Hsh).
  rewrite Hk in Hk'. injection Hk' as <-.
  pose proof (vs_fr _ _ _ _ _ (vstep_pte kend s1 P a pte 0 Hvm1 Ep)) as Hfr2.
  destruct (clear_leaf s P a s1 pte Hus Hm Ha Ep Hv Hvm1 Hlk1 Hcnt1) as [Hus2 Hlk2].
  assert (Hmaps : forall q, maps (ram s) P a (a + PGSIZE) q <-> q = PTE2PA (lk (ram s) P a)).
  { intros q. rewrite maps_page by done. unfold upage. rewrite Hv. split; [by intros [= <-]|by intros ->]. }
  split; [done|..].
  - intros va Hva. rewrite Hlk2 by done. pose proof (vpn_page a va Hm) as Hvp.
    destruct (Z.eqb_spec (vpn va) (vpn a)) as [E|E].
    + rewrite (lk_vpn (ram s) P va a), Hv by (done || (rewrite trapframe_maxva in Ha; unfold PGSIZE in *; lia)).
      apply Hvp in E. by rewrite (proj2 (Z.leb_le _ _)), (proj2 (Z.ltb_lt _ _)) by lia.
    + destruct (Z.leb_spec a va), (Z.ltb_spec va (a + PGSIZE)); cbn [andb]; try done. lia.
  - intros q Hq Hmap%Hmaps. change (cnt (set_ram _ s1)) with (cnt s1). rewrite Hcnt1 by done.
    by rewrite (proj2 (Z.eqb_eq _ _)).
  - intros q Hq Hmap. change (cnt (set_ram _ s1)) with (cnt s1). rewrite Hcnt1 by done.
    rewrite (proj2 (Z.eqb_neq _ _)); [done|]. intros ->. by apply Hmap, Hmaps.
  - intros x Hx. set (pa := PTE2PA (lk (ram s) P a)) in *.
    assert (Hpg : page_ok kend PHYSTOP pa) by apply (us_leaf _ _ _ Hus a Ha Hv).
    rewrite (fo_ram _ _ _ _ (framed_on _ _ _ _ Hfr2)).
    + destruct (Z.lt_ge_cases 1 (cnt s (pa / PGSIZE))) as [Hc|Hc]; [by rewrite Hsh|].
      apply (fo_ram _ _ _ _ Hfr1). intros q Hq Hxq. destruct (Hx q Hq Hxq) as (Hcq & _ & Hmq).
      split; [done|]. intros ->. specialize (Hmq (proj2 (Hmaps pa) eq_refl)). lia.
    + intros q Hq Hxq. destruct (Hx q Hq Hxq) as (Hcq & Hnq & Hmq). split; [|done].
      rewrite Hcnt1 by done. destruct (Z.eqb_spec q pa) as [->|]; [|done].
      specialize (Hmq (proj2 (Hmaps pa) eq_refl)). lia.
Qed.

Lemma unmap_page_spec s P a :
  uspace kend s P -> a mod PGSIZE = 0 -> 0 <= a < TRAPFRAME ->
  exists s', unmap_page kend id (root P) a true s = Ret tt s' /\ unmapped s P a (a + PGSIZE) s'.
Proof using Hkend Hid.
  intros Hus Hm Ha. pose proof Hus as [Hvm Hleaf _ _]. pose proof Hvm as (_ & Hpt & _).
  assert (HaM : 0 <= a < MAXVA) by (rewrite trapframe_maxva in Ha; unfold PGSIZE in *; lia).
  unfold unmap_page. rewrite (bind_Ret _ _ _ _ _ (walk_ro kend id Hkend s P a Hpt HaM)).
  destruct (pte_addr P a) as [pte|] eqn:Ep; simpl.
  2:{ exists s. split; [done|]. apply unmapped_none; [done|]. intros va Hva.
      rewrite (lk_vpn (ram s) P va a); [unfold lk; by rewrite Ep| |done|by apply vpn_page].
      rewrite trapframe_maxva in Ha. unfold PGSIZE in *. lia. }
  rewrite (proj2 (Z.eqb_neq pte 0)) by (by eapply pte_addr_nonzero).
  pose proof (pte_addr_in_ram kend Hkend _ _ _ _ Hpt Ep) as Hr.
  rewrite (bind_Ret _ _ _ _ _ (rd64_run pte s Hr)).
  assert (He : load64 (ram s) pte = lk (ram s) P a) by (unfold lk; by rewrite Ep). rewrite He.
  destruct (has (lk (ram s) P a) PTE_V) eqn:Hv; cbn [negb].
  2:{ exists s. split; [done|]. apply unmapped_none; [done|]. intros va Hva.
      rewrite (lk_vpn (ram s) P va a); [done| |done|by apply vpn_page].
      rewrite trapframe_maxva in Ha. unfold PGSIZE in *. lia. }
  rewrite (proj2 (Z.eqb_neq _ _) (lf_flags _ _ _ _ (Hleaf a Ha Hv))). cbn [when].
  destruct (kfree_leaf s P a Hus Ha Hv) as (s1 & Hk & _).
  rewrite (bind_Ret _ _ _ _ _ Hk), (wr64_run pte 0 s1 Hr).
  eexists. split; [reflexivity|]. by apply unmapped_round.
Qed.

Lemma uvmunmap_loop_spec P stop : stop <= TRAPFRAME -> stop mod PGSIZE = 0 -> forall fuel s a,
  uspace kend s P -> a mod PGSIZE = 0 -> 0 <= a <= stop ->
  (Z.to_nat ((stop - a) / PGSIZE) < fuel)%nat ->
  exists s', uvmunmap_loop kend id fuel (root P) a stop true s = Ret tt s' /\ unmapped s P a stop s'.
Proof using Hkend Hid.
  intros Hs Hsm fuel. induction fuel as [|fuel IH]; intros s a Hus Hm Ha Hf; [lia|].
  cbn [uvmunmap_loop]. destruct (Z.ltb_spec a stop) as [Hlt|Hge].
  2:{ exists s. split; [done|]. apply unmapped_none; [done|]. lia. }
  destruct (unmap_page_spec s P a Hus Hm) as (s1 & Hrun1 & Hum1); [lia|].
  rewrite (bind_Ret _ _ _ _ _ Hrun1).
  rewrite trapframe_maxva in Hs.
  assert (Hstep : a + PGSIZE <= stop).
  { destruct (page_disjoint a stop); [done..|lia|done|]. unfold PGSIZE in *. lia. }
  rewrite u64_small by (unfold MAXVA, PGSIZE in *; lia).
  destruct (IH s1 (a + PGSIZE)) as (s2 & Hrun2 & Hum2).
  - apply Hum1.
  - unfold PGSIZE in *. dlia.
  - unfold PGSIZE in *. lia.
  - eapply fuel_step; [exact Hf|lia|lia].
  - exists s2. split; [done|].
    apply (unmapped_app s P a (a + PGSIZE) stop s1 s2); try done; try (unfold PGSIZE in *; lia).
    + unfold PGSIZE in *. dlia.
Qed.

Lemma uvmunmap_spec s P va npages :
  uspace kend s P -> va mod PGSIZE = 0 -> 0 <= va -> 0 <= npages -> va + npages * PGSIZE <= TRAPFRAME ->
  exists s', uvmunmap kend id (root P) va npages true s = Ret tt s' /\
    unmapped s P va (va + npages * PGSIZE) s'.
Proof using Hkend Hid.
  intros Hus Hm Hva Hn Hend. unfold uvmunmap. rewrite Hm. cbn [negb Z.eqb].
  pose proof Hend as Hend'. rewrite trapframe_maxva in Hend'.
  rewrite !u64_small by (rewrite ?u64_small; unfold MAXVA, PGSIZE in *; lia).
  apply uvmunmap_loop_spec; try done.
  - unfold PGSIZE in *. dlia.
  - unfold PGSIZE in *. lia.
  - replace ((va + npages * PGSIZE - va) / PGSIZE) with npages by (unfold PGSIZE; dlia). lia.
Qed.

End unmap.

(** ** Adding pages *)

Section addpages.
Context (kend : Z).
Implicit Types (s : kst) (P : pt).

(** Growing a page table without changing a leaf PTE. *)
Lemma vstep_not_node s P s' P' q :
  vstep kend s P s' P' -> 0 < cnt s (q / PGSIZE) -> ~ is_node P q -> ~ is_node P' q.
Proof using Type.
  intros [_ [_ Hn] _ _] Hc Hno [n E]. destruct (Hn n q E) as [E'|E']; [by apply Hno; exists n|lia].
Qed.

Lemma leaf_vstep s P s' P' e :
  leaf_ok kend s P e -> vstep kend s P s' P' -> leaf_ok kend s' P' e.
Proof using Type.
  intros [K1 K2 K3 K4 K5] Hst. split; try done.
  - by rewrite (fr_cnt _ _ _ _ (vs_fr _ _ _ _ _ Hst)).
  - by eapply vstep_not_node.
Qed.

Lemma uspace_vstep s P s' P' :
  uspace kend s P -> vstep kend s P s' P' ->
  (forall va, 0 <= va < MAXVA -> lk (ram s') P' va = lk (ram s) P va) -> uspace kend s' P'.
Proof using Type.
  intros [Hvm Hleaf Hinj Hhigh] Hst Hlk. pose proof trapframe_maxva as Ht.
  assert (HM : forall va, 0 <= va < TRAPFRAME -> 0 <= va < MAXVA) by (unfold PGSIZE in *; lia).
  split; [apply Hst|..].
  - intros va Hva. rewrite Hlk by auto. intros Hv. eapply leaf_vstep; [by apply Hleaf|done].
  - intros va va' Hva Hva'. rewrite !Hlk by auto. by apply Hinj.
  - intros va Hva. rewrite Hlk; [by apply Hhigh|]. unfold PGSIZE, MAXVA in *. lia.
Qed.

(** Mapping page [r], mapped nowhere else, with flags [f] at page [a]. *)
Lemma uspace_add s P s' P' a r f :
  uspace kend s P -> vstep kend s P s' P' -> a mod PGSIZE = 0 -> 0 <= a < TRAPFRAME ->
  page_ok kend PHYSTOP r -> 0 < cnt s (r / PGSIZE) -> ~ is_node P r -> kend_ok kend ->
  (forall va, 0 <= va < TRAPFRAME -> has (lk (ram s) P va) PTE_V = true -> vpn va <> vpn a ->
     PTE2PA (lk (ram s) P va) <> r) ->
  0 <= f < 1024 -> f <> PTE_V ->
  (forall va, 0 <= va < MAXVA -> lk (ram s') P' va =
     if (a <=? va) && (va <? a + PGSIZE) then mk_pte r f else lk (ram s) P va) ->
  uspace kend s' P'.
Proof using Type.
  intros [Hvm Hleaf Hinj Hhigh] Hst Hm Ha Hr Hc Hnode Hkend Hfresh Hf HfV Hlk.
  pose proof trapframe_maxva as Ht. pose proof (page_small kend Hkend r Hr) as Hrs.
  assert (HM : forall va, 0 <= va < TRAPFRAME -> 0 <= va < MAXVA) by (unfold PGSIZE in *; lia).
  assert (Hpa : PTE2PA (mk_pte r f) = r) by (apply mk_pte_pa; [apply Hr|done|done]).
  assert (Hcase : forall va, 0 <= va < TRAPFRAME ->
    (vpn va = vpn a /\ lk (ram s') P' va = mk_pte r f) \/
    (vpn va <> vpn a /\ lk (ram s') P' va = lk (ram s) P va)).
  { intros va Hva. rewrite Hlk by auto. pose proof (vpn_page a va Hm) as Hv.
    destruct (Z.leb_spec a va), (Z.ltb_spec va (a + PGSIZE)); cbn [andb];
      [left|right|right|right]; (split; [lia|done]). }
  split; [apply Hst|..].
  - intros va Hva Hv. destruct (Hcase va Hva) as [[_ E]|[_ E]]; rewrite E in *.
    + split; rewrite ?Hpa, ?mk_pte_flags by lia; try done.
      * by rewrite (fr_cnt _ _ _ _ (vs_fr _ _ _ _ _ Hst)).
      * by eapply vstep_not_node.
    + eapply leaf_vstep; [by apply Hleaf|done].
  - intros va va' Hva Hva' Hv Hv'.
    destruct (Hcase va Hva) as [[V E]|[V E]], (Hcase va' Hva') as [[V' E']|[V' E']];
      rewrite E, E' in *; rewrite ?Hpa; intros Epa.
    + congruence.
    + by destruct (Hfresh va' Hva' Hv' V').
    + by destruct (Hfresh va Hva Hv V).
    + by apply Hinj.
  - intros va Hva. rewrite Hlk by (unfold PGSIZE, MAXVA in *; lia).
    rewrite (proj2 (Z.ltb_ge va (a + PGSIZE))); [rewrite andb_false_r; by apply Hhigh|].
    assert (TRAPFRAME mod PGSIZE = 0) by done.
    destruct (page_disjoint a TRAPFRAME); [done..|lia|lia|]. unfold PGSIZE in *. lia.
Qed.

End addpages.

(** ** Fresh zeroed pages *)

Section fresh.
Context (kend : Z).
Hypothesis Hkend : kend_ok kend.
Implicit Types (s : kst) (P : pt).

(** A state that differs from [s] only in pages that were free in it. *)
Lemma uspace_frame s P s' T :
  uspace kend s P -> frame_on kend T s s' -> (exists ls, alloc_inv kend PHYSTOP s' ls) ->
  (forall q, is_node P q -> ~ T q) ->
  (forall va q, 0 <= va < TRAPFRAME -> upage (ram s) P va = Some q -> 0 < cnt s' (q / PGSIZE)) ->
  uspace kend s' P /\ forall va, lk (ram s') P va = lk (ram s) P va.
Proof using Type.
  intros [Hvm Hleaf Hinj Hhigh] Hfr Hal HT Hc. destruct (frame_pt kend T s s' P Hfr Hvm Hal HT) as [Hvm' Hlk].
  split; [|done]. split; [done|..].
  - intros va Hva. rewrite Hlk. intros Hv. destruct (Hleaf va Hva Hv). split; try done.
    apply (Hc va); [done|]. unfold upage. by rewrite Hv.
  - intros va va' Hva Hva'. rewrite !Hlk. by apply Hinj.
  - intros va Hva. rewrite Hlk. by apply Hhigh.
Qed.

(** [kalloc] followed by writes to the new page only. *)
Lemma fresh_written s P r s1 m' :
  uspace kend s P -> fresh_page kend s r s1 -> mem_ok m' ->
  (forall x, ~ (r <= x < r + PGSIZE) -> m' x = ram s1 x) ->
  let s2 := set_ram m' s1 in
  uspace kend s2 P /\ (forall va, lk (ram s2) P va = lk (ram s) P va) /\
  cnt s2 (r / PGSIZE) = 1 /\ ~ is_node P r /\
  (forall va, 0 <= va < TRAPFRAME -> has (lk (ram s) P va) PTE_V = true -> PTE2PA (lk (ram s) P va) <> r) /\
  frame_on kend (fun _ => False) s s2.
Proof using Hkend.
  intros Hus Hfr Hm' Hout s2. pose proof Hus as [Hvm Hleaf _ _]. pose proof Hvm as (_ & Hpt & Huse).
  pose proof Hfr as [Hr Hfree Hcnt Hram [ls Hls]].
  assert (Hother : forall q, page_ok kend PHYSTOP q -> 0 < cnt s (q / PGSIZE) ->
    cnt s2 (q / PGSIZE) = cnt s (q / PGSIZE)).
  { intros q Hq Hc. simpl. rewrite Hcnt. eapply (cnt_set_ne kend PHYSTOP); [done|done|].
    intros <-. lia. }
  assert (Hc1 : cnt s2 (r / PGSIZE) = 1) by (simpl; rewrite Hcnt; apply cnt_set_eq).
  assert (Hfr2 : frame_on kend (fun _ => False) s s2).
  { split; [|auto]. intros x Hx. assert (Hxr : ~ (r <= x < r + PGSIZE)).
    { intros Hin. destruct (Hx r Hr Hin). lia. }
    simpl. rewrite Hout by done. by apply Hram. }
  assert (Hal2 : exists ls, alloc_inv kend PHYSTOP s2 ls).
  { exists ls. eapply (inv_write _ _ s1 ls r); [done|done| |done|done].
    rewrite (ai_free _ _ _ _ Hls) by done. change (cnt s1) with (cnt s2). lia. }
  destruct (uspace_frame s P s2 (fun _ => False) Hus Hfr2 Hal2) as [Hus2 Hlk2]; [tauto| |].
  { intros va q Hva E. unfold upage in E. destruct (has (lk (ram s) P va) PTE_V) eqn:Hv; [|done].
    injection E as <-. destruct (Hleaf va Hva Hv). by rewrite Hother. }
  split_and!; try done.
  - intros [n E]. pose proof (Huse n r E). lia.
  - intros va Hva Hv <-. destruct (Hleaf va Hva Hv). lia.
Qed.

(** [kalloc] followed by [memset(mem, 0, PGSIZE)]. *)
Lemma fresh_zeroed s P r s1 :
  uspace kend s P -> fresh_page kend s r s1 ->
  let s2 := set_ram (memset (ram s1) r 0 PGSIZE) s1 in
  kmemset r 0 PGSIZE s1 = Ret tt s2 /\ uspace kend s2 P /\
  (forall va, lk (ram s2) P va = lk (ram s) P va) /\
  cnt s2 (r / PGSIZE) = 1 /\ ~ is_node P r /\
  (forall va, 0 <= va < TRAPFRAME -> has (lk (ram s) P va) PTE_V = true -> PTE2PA (lk (ram s) P va) <> r) /\
  (forall x, r <= x < r + PGSIZE -> ram s2 x = 0) /\ frame_on kend (fun _ => False) s s2.
Proof using Hkend.
  intros Hus Hfr s2. pose proof (fp_inv _ _ _ _ Hfr) as [ls Hls]. pose proof (fp_page _ _ _ _ Hfr) as Hr.
  assert (Hset : forall x, memset (ram s1) r 0 PGSIZE x = if (r <=? x) && (x <? r + PGSIZE) then 0 else ram s1 x)
    by (intros x; apply memset_spec; unfold PGSIZE; lia).
  destruct (fresh_written s P r s1 (memset (ram s1) r 0 PGSIZE) Hus Hfr) as (H1 & H2 & H3 & H4 & H5 & H6).
  { apply memset_ok, Hls. }
  { intros x Hx. rewrite Hset. destruct (Z.leb_spec r x), (Z.ltb_spec x (r + PGSIZE)); cbn [andb]; (lia || done). }
  split_and!; try done.
  - apply kmemset_run. pose proof (in_ram_page kend Hkend r 0 PGSIZE Hr). rewrite Z.add_0_r in *.
    unfold PGSIZE in *. auto with lia.
  - intros x Hx. simpl. rewrite Hset, (proj2 (Z.leb_le _ _)), (proj2 (Z.ltb_lt _ _)) by lia. reflexivity.
Qed.

End fresh.

(** ** Growing a process *)

Section growing.
Context (kend : Z).
Hypothesis Hkend : kend_ok kend.
Implicit Types (s : kst) (P : pt).

Definition RWXUV : Z := Z.lor PTE_RWXU PTE_V.

(** From [s0] with table [P0] to [s] with table [P], the user pages [[a, b)]
    were mapped to zeroed page frames that were free. *)
Record fresh_range (s0 : kst) (P0 : pt) (a b : Z) (s : kst) (P : pt) : Prop := {
  fg_space : uspace kend s P;
  fg_ext : extends kend s0 P0 P;
  fg_frame : frame_on kend (is_node P0) s0 s;
  fg_out : forall va, 0 <= va < MAXVA -> ~ (a <= va < b) -> lk (ram s) P va = lk (ram s0) P0 va;
  fg_in : forall va, a <= va < b -> exists r, lk (ram s) P va = mk_pte r RWXUV /\
    page_ok kend PHYSTOP r /\ cnt s0 (r / PGSIZE) = 0 /\ cnt s (r / PGSIZE) = 1 /\
    forall x, r <= x < r + PGSIZE -> ram s x = 0;
  fg_leak : forall q, page_ok kend PHYSTOP q -> cnt s0 (q / PGSIZE) = 0 ->
    cnt s (q / PGSIZE) = 0 \/ is_node P q \/ maps (ram s) P a b q }.

Lemma fresh_range_refl s P a : uspace kend s P -> fresh_range s P a a s P.
Proof using Type.
  intros Hus. split; [done|split; auto|apply frame_refl|done|lia|by left].
Qed.

(** A page that is free now was free at the start. *)
Lemma free_before s0 P0 s P r :
  vm_inv kend s0 P0 -> vm_inv kend s P -> extends kend s0 P0 P -> frame_on kend (is_node P0) s0 s ->
  page_ok kend PHYSTOP r -> cnt s (r / PGSIZE) = 0 -> cnt s0 (r / PGSIZE) = 0.
Proof using Type.
  intros Hvm0 (_ & _ & Huse) [Ho _] [_ Hc] Hr Hz. pose proof (vm_cnt_nonneg _ _ _ _ Hvm0 Hr) as Hnn.
  destruct (decide (cnt s0 (r / PGSIZE) = 0)) as [|Hnz]; [done|].
  rewrite Hc in Hz; [done|done|lia|]. intros [n Hn]. pose proof (Huse n r (Ho n r Hn)). lia.
Qed.

Lemma extends_frame s0 P0 s P s' P' :
  vm_inv kend s0 P0 -> vm_inv kend s P -> vm_inv kend s' P' ->
  extends kend s0 P0 P -> extends kend s P P' -> frame_on kend (is_node P0) s0 s -> extends kend s0 P0 P'.
Proof using Type.
  intros Hvm0 Hvm (_ & Hpt' & _) Hext Hext' Hfr. split; intros n p Hp.
  - by apply (ex_old _ _ _ _ Hext'), (ex_old _ _ _ _ Hext).
  - destruct (ex_new _ _ _ _ Hext' n p Hp) as [Hp'|Hp']; [by apply (ex_new _ _ _ _ Hext)|].
    right. eapply free_before; [done|exact Hvm|done|done| |done]. by eapply pi_page.
Qed.

(** A page of the range after a step that only touches the page table. *)
Lemma fresh_page_keep s0 P0 a b s P s' va :
  fresh_range s0 P0 a b s P -> frame_on kend (is_node P) s s' -> 0 <= a -> b <= TRAPFRAME -> a <= va < b ->
  exists r, lk (ram s) P va = mk_pte r RWXUV /\ page_ok kend PHYSTOP r /\
    cnt s0 (r / PGSIZE) = 0 /\ cnt s' (r / PGSIZE) = 1 /\
    forall x, r <= x < r + PGSIZE -> ram s' x = 0.
Proof using Hkend.
  intros [Hus _ _ _ Hin _] Hfr Ha Hb Hva. destruct (Hin va Hva) as (r & Er & Hr & Hr0 & Hr1 & Hrz).
  exists r. pose proof (page_small kend Hkend r Hr) as Hrs.
  assert (Hval : has (lk (ram s) P va) PTE_V = true) by (rewrite Er, mk_pte_has by (unfold PTE_V; lia); done).
  destruct (us_leaf _ _ _ Hus va ltac:(lia) Hval) as [_ _ _ _ Hrn].
  rewrite Er, mk_pte_pa in Hrn by (try apply Hr; done). split_and!; try done.
  - by rewrite (fo_cnt _ _ _ _ Hfr) by (done || lia).
  - intros x Hx. rewrite (frame_page kend _ s s' r x Hfr) by (done || lia). by apply Hrz.
Qed.

(** The whole range after such a step. *)
Lemma fresh_range_keep s0 P0 a b s P s' P' :
  vm_inv kend s0 P0 -> 0 <= a -> b <= TRAPFRAME ->
  fresh_range s0 P0 a b s P -> uspace kend s' P' -> extends kend s P P' ->
  frame_on kend (is_node P) s s' ->
  (forall va, 0 <= va < MAXVA -> lk (ram s') P' va = lk (ram s) P va) ->
  (forall q, page_ok kend PHYSTOP q -> cnt s (q / PGSIZE) = 0 -> cnt s' (q / PGSIZE) = 0 \/ is_node P' q) ->
  fresh_range s0 P0 a b s' P'.
Proof using Hkend.
  intros Hvm0 Ha Hb Hfg Hus' Hext' Hfr' Hlk' Hleak'. pose proof Hfg as [Hus Hext Hfr Hout Hin Hleak].
  pose proof trapframe_maxva as Ht. split; [done|..].
  - eapply extends_frame; [done|apply Hus|apply Hus'|done..].
  - eapply frame_trans; [exact Hfr|exact Hfr'|]. intros q Hq Hc [n E]. exists n.
    destruct (ex_new _ _ _ _ Hext n q E); [done|lia].
  - intros va Hva Hno. rewrite Hlk' by done. by apply Hout.
  - intros va Hva. rewrite Hlk' by (unfold PGSIZE in *; lia). by eapply fresh_page_keep.
  - intros q Hq Hq0. destruct (Hleak q Hq Hq0) as [Hc|[[n E]|(va & Hva & E)]].
    + destruct (Hleak' q Hq Hc); [by left|right; by left].
    + right. left. exists n. by apply (ex_old _ _ _ _ Hext').
    + right. right. exists va. split; [done|]. unfold upage in *. by rewrite Hlk' by (unfold PGSIZE in *; lia).
Qed.

Lemma fresh_leak_snoc s0 P0 a b s P r s2 s3 P3 :
  fresh_range s0 P0 a b s P -> 0 <= a <= b -> b < TRAPFRAME -> page_ok kend PHYSTOP r ->
  (forall i, cnt s2 i = cnt (set_cnt (r / PGSIZE) 1 s) i) ->
  (forall va, lk (ram s2) P va = lk (ram s) P va) -> vstep kend s2 P s3 P3 ->
  (forall va, 0 <= va < MAXVA -> lk (ram s3) P3 va =
     if (b <=? va) && (va <? b + PGSIZE) then mk_pte r RWXUV else lk (ram s2) P va) ->
  forall q, page_ok kend PHYSTOP q -> cnt s0 (q / PGSIZE) = 0 ->
    cnt s3 (q / PGSIZE) = 0 \/ is_node P3 q \/ maps (ram s3) P3 a (b + PGSIZE) q.
Proof using Hkend.
  intros [_ _ _ _ _ Hleak] Hab Hb Hr Hcnt Hlk2 Hst Hlk3 q Hq Hq0. pose proof trapframe_maxva as Ht.
  pose proof (page_small kend Hkend r Hr) as Hrs. destruct (decide (q = r)) as [->|Hne].
  - right. right. exists b. split; [unfold PGSIZE; lia|]. unfold upage. rewrite Hlk3 by (unfold PGSIZE in *; lia).
    rewrite (proj2 (Z.leb_le _ _)), (proj2 (Z.ltb_lt _ _)) by (unfold PGSIZE; lia). cbn [andb].
    rewrite mk_pte_has by (unfold PTE_V; lia). rewrite mk_pte_pa by (try apply Hr; done). done.
  - destruct (Hleak q Hq Hq0) as [Hc|[[n E]|(va & Hva & E)]].
    + assert (Hcq : cnt s2 (q / PGSIZE) = 0) by (rewrite Hcnt, (cnt_set_ne kend PHYSTOP) by (done || congruence); done).
      destruct (vs_leak _ _ _ _ _ Hst q Hq Hcq) as [?|?]; [by left|right; by left].
    + right. left. exists n. by apply (ex_old _ _ _ _ (vs_ext _ _ _ _ _ Hst)).
    + right. right. exists va. split; [unfold PGSIZE; lia|]. unfold upage in *.
      rewrite Hlk3 by (unfold PGSIZE in *; lia). rewrite (proj2 (Z.leb_gt b va)) by lia.
      cbn [andb]. by rewrite Hlk2.
Qed.

(** One more page: [mappages] of a fresh zeroed page at [b] succeeded. *)
Lemma fresh_range_snoc s0 P0 a b s P r s2 s3 P3 :
  vm_inv kend s0 P0 -> fresh_range s0 P0 a b s P -> a mod PGSIZE = 0 -> b mod PGSIZE = 0 -> 0 <= a <= b -> b < TRAPFRAME ->
  page_ok kend PHYSTOP r -> cnt s (r / PGSIZE) = 0 ->
  (forall i, cnt s2 i = cnt (set_cnt (r / PGSIZE) 1 s) i) ->
  uspace kend s2 P -> (forall va, lk (ram s2) P va = lk (ram s) P va) ->
  (forall x, r <= x < r + PGSIZE -> ram s2 x = 0) -> frame_on kend (fun _ => False) s s2 ->
  vstep kend s2 P s3 P3 ->
  (forall va, 0 <= va < MAXVA -> lk (ram s3) P3 va =
     if (b <=? va) && (va <? b + PGSIZE) then mk_pte r RWXUV else lk (ram s2) P va) ->
  fresh_range s0 P0 a (b + PGSIZE) s3 P3.
Proof using Hkend.
  intros Hvm0 Hfg Ham Hm Hab Hb Hr Hz Hcnt Hus2 Hlk2 Hzero Hfr2 Hst Hlk3.
  pose proof Hfg as [Hus Hext Hfr Hout Hin Hleak].
  pose proof trapframe_maxva as Ht. pose proof (us_vm _ _ _ Hus) as Hvm.
  pose proof (page_small kend Hkend r Hr) as Hrs.
  assert (Hc2 : cnt s2 (r / PGSIZE) = 1) by (rewrite Hcnt; apply cnt_set_eq).
  assert (Hnode : ~ is_node P r).
  { intros [n E]. destruct Hvm as (_ & _ & Huse). pose proof (Huse n r E). lia. }
  assert (Hfr3 : frame_on kend (is_node P) s2 s3) by (apply framed_on, Hst).
  assert (Hfr4 : frame_on kend (is_node P) s s3).
  { eapply frame_trans; [eapply frame_weaken; [exact Hfr2|tauto]|exact Hfr3|done]. }
  split.
  - eapply (uspace_add kend s2 P s3 P3 b r RWXUV); try done; [lia|lia|].
    intros va Hva. rewrite Hlk2. intros Hv _ <-.
    pose proof (lf_cnt _ _ _ _ (us_leaf _ _ _ Hus va Hva Hv)). lia.
  - eapply extends_frame; [done|exact Hvm|apply Hst|done| |done].
    split; [apply (vs_ext _ _ _ _ _ Hst)|]. intros n p Hp.
    destruct (ex_new _ _ _ _ (vs_ext _ _ _ _ _ Hst) n p Hp) as [?|Hp']; [by left|right].
    assert (Hpp : page_ok kend PHYSTOP p) by (destruct (vs_inv _ _ _ _ _ Hst) as (_ & Hpt3 & _); by eapply pi_page).
    destruct (decide (p = r)) as [->|Hne]; [lia|].
    by rewrite Hcnt, (cnt_set_ne kend PHYSTOP) in Hp' by (done || congruence).
  - eapply frame_trans; [exact Hfr|exact Hfr4|]. intros q Hq Hc [n E]. exists n.
    destruct (ex_new _ _ _ _ Hext n q E); [done|lia].
  - intros va Hva Hno. rewrite Hlk3 by done. rewrite Hlk2. unfold PGSIZE in *.
    destruct (Z.leb_spec b va), (Z.ltb_spec va (b + 4096)); simpl; try lia; apply Hout; lia.
  - intros va Hva. rewrite Hlk3 by (unfold PGSIZE in *; lia). destruct (Z.leb_spec b va) as [Hbv|Hbv]; cbn [andb].
    + rewrite (proj2 (Z.ltb_lt _ _)) by lia. exists r. split_and!; try done.
      * by eapply free_before.
      * by rewrite (fo_cnt _ _ _ _ Hfr3) by (done || lia).
      * intros x Hx. rewrite (frame_page kend _ s2 s3 r x Hfr3); (done || lia || by apply Hzero).
    + rewrite Hlk2. eapply fresh_page_keep; [exact Hfg|exact Hfr4|lia..].
  - by eapply (fresh_leak_snoc s0 P0 a b s P r s2 s3 P3).
Qed.

(** Undoing a fresh range: what is left is the page-table pages. *)
Record undone (s0 : kst) (P0 : pt) (s : kst) (P : pt) : Prop := {
  ud_space : uspace kend s P;
  ud_ext : extends kend s0 P0 P;
  ud_frame : frame_on kend (is_node P0) s0 s;
  ud_page : forall va, 0 <= va < MAXVA -> upage (ram s) P va = upage (ram s0) P0 va;
  ud_leak : forall q, page_ok kend PHYSTOP q -> cnt s0 (q / PGSIZE) = 0 ->
    cnt s (q / PGSIZE) = 0 \/ is_node P q }.

Lemma fresh_range_undo s0 P0 a b s P s' :
  vm_inv kend s0 P0 -> 0 <= a -> b <= MAXVA -> fresh_range s0 P0 a b s P -> unmapped kend s P a b s' ->
  (forall va, a <= va < b -> has (lk (ram s0) P0 va) PTE_V = false) -> undone s0 P0 s' P.
Proof using Hkend.
  intros Hvm0 Ha Hb [Hus Hext Hfr Hout Hin Hleak] Hum Hno. pose proof Hum as [U L D K _].
  apply um_frame in Hum as F.
  assert (Hfree : forall q, maps (ram s) P a b q -> cnt s0 (q / PGSIZE) = 0 /\ cnt s (q / PGSIZE) = 1).
  { intros q (va & Hva & E). destruct (Hin va Hva) as (r & Er & Hr & Hr0 & Hr1 & _).
    unfold upage in E. rewrite Er in E. pose proof (page_small kend Hkend r Hr).
    rewrite mk_pte_has in E by (unfold PTE_V; lia). simpl in E.
    rewrite mk_pte_pa in E by (try apply Hr; done). by injection E as <-. }
  split; [done|done|..].
  - eapply frame_trans; [exact Hfr|exact F|]. intros q Hq Hc [[n E]|M].
    + exists n. destruct (ex_new _ _ _ _ Hext n q E); [done|lia].
    + apply Hfree in M. lia.
  - intros va Hva. unfold upage. rewrite L by done.
    destruct (Z.leb_spec a va), (Z.ltb_spec va b); simpl; try (rewrite Hout by lia; done).
    rewrite Hno by lia. destruct (has (lk (ram s) P va) PTE_V) eqn:E; [done|by rewrite E].
  - intros q Hq Hq0. destruct (Hleak q Hq Hq0) as [Hc|[Hn|M]]; [|by right|].
    + left. rewrite K; [done|done|]. intros M. apply Hfree in M. lia.
    + left. rewrite D by done. apply Hfree in M. lia.
Qed.

Context (id : nat).
Hypothesis Hid : (id < NCPU)%nat.

(** [uvmdealloc(pagetable, a, oldsz)] on the way out of [uvmalloc]. *)
Lemma uvmdealloc_spec s P a b :
  uspace kend s P -> a mod PGSIZE = 0 -> b mod PGSIZE = 0 -> 0 <= a <= b -> b <= TRAPFRAME ->
  exists s' r, uvmdealloc kend id (root P) b a s = Ret r s' /\ unmapped kend s P a b s'.
Proof using Hkend Hid.
  intros Hus Ham Hbm Hab Hb. unfold uvmdealloc. destruct (Z.leb_spec b a).
  { exists s. eexists. split; [done|]. apply unmapped_none; [done|lia]. }
  assert (Hra : forall c, c mod PGSIZE = 0 -> PGROUNDUP c = c).
  { intros c Hc. rewrite PGROUNDUP_spec. unfold PGSIZE in *. dlia. }
  rewrite !Hra by done. rewrite (proj2 (Z.ltb_lt a b)) by lia. cbn [when].
  rewrite trapframe_maxva in Hb.
  assert (Hn : (b - a) / PGSIZE * PGSIZE = b - a) by (unfold PGSIZE in *; dlia).
  assert (0 <= (b - a) / PGSIZE < 2 ^ 31) by (unfold PGSIZE, MAXVA in *; dlia).
  rewrite s32_small by lia.
  destruct (uvmunmap_spec kend id Hkend Hid s P a ((b - a) / PGSIZE) Hus Ham) as (s' & Hrun & Hum);
    [lia|lia|rewrite trapframe_maxva; lia|].
  rewrite (bind_Ret _ _ _ _ _ Hrun). exists s', a. split; [done|].
  by replace (a + (b - a) / PGSIZE * PGSIZE) with b in Hum by lia.
Qed.

(** [mappages] failed after growing the table, and the page is given back. *)
Lemma fresh_free s0 P0 a b s P r s2 s3 P3 :
  vm_inv kend s0 P0 -> 0 <= a <= b -> b < TRAPFRAME -> fresh_range s0 P0 a b s P ->
  page_ok kend PHYSTOP r -> cnt s (r / PGSIZE) = 0 ->
  (forall i, cnt s2 i = cnt (set_cnt (r / PGSIZE) 1 s) i) -> uspace kend s2 P -> ~ is_node P r ->
  (forall va, lk (ram s2) P va = lk (ram s) P va) -> frame_on kend (fun _ => False) s s2 ->
  (forall va, 0 <= va < TRAPFRAME -> has (lk (ram s) P va) PTE_V = true -> PTE2PA (lk (ram s) P va) <> r) ->
  vstep kend s2 P s3 P3 -> (forall va, 0 <= va < MAXVA -> lk (ram s3) P3 va = lk (ram s2) P va) ->
  exists s4, kfree kend id r s3 = Ret tt s4 /\ fresh_range s0 P0 a b s4 P3.
Proof using Hkend Hid.
  intros Hvm0 Hab Hb Hfg Hr Hz Hcnt Hus2 Hnode Hlk2 Hfr2 Hneq Hst Hlk3.
  pose proof trapframe_maxva as Ht. assert (Hc2 : cnt s2 (r / PGSIZE) = 1) by (rewrite Hcnt; apply cnt_set_eq).
  pose proof (uspace_vstep kend s2 P s3 P3 Hus2 Hst Hlk3) as Hus3.
  pose proof (us_vm _ _ _ Hus3) as ([ls3 Hls3] & _ & _).
  assert (Hc3 : cnt s3 (r / PGSIZE) = 1) by (rewrite (fr_cnt _ _ _ _ (vs_fr _ _ _ _ _ Hst)); (done || lia)).
  destruct (kfree_spec kend Hkend s3 ls3 id r Hls3 Hid Hr) as (s4 & ls4 & Hrun & Hls4 & Hcnt4 & Hram4); [lia|].
  exists s4. split; [done|].
  assert (Hcq : forall q, page_ok kend PHYSTOP q -> q <> r -> cnt s4 (q / PGSIZE) = cnt s3 (q / PGSIZE)).
  { intros q Hq Hne. rewrite Hcnt4. apply (cnt_set_ne kend PHYSTOP); (done || congruence). }
  assert (Hfr4 : frame_on kend (fun q => q = r) s3 s4).
  { split; [|auto]. intros x Hx. apply Hram4. intros Hin. by destruct (Hx r Hr Hin). }
  assert (Hn3 : ~ is_node P3 r) by (eapply vstep_not_node; [done|lia|done]).
  destruct (uspace_frame kend s3 P3 s4 _ Hus3 Hfr4) as [Hus4 Hlk4]; [by exists ls4|by intros q Hq ->| |].
  { intros va q Hva E. unfold upage in E.
    destruct (has (lk (ram s3) P3 va) PTE_V) eqn:Hv; [|done]. injection E as <-.
    destruct (us_leaf _ _ _ Hus3 va Hva Hv) as [_ _ Hpg Hc _]. rewrite Hcq; [done|done|].
    rewrite Hlk3, Hlk2 in * by (unfold PGSIZE in *; lia). by apply Hneq. }
  eapply (fresh_range_keep s0 P0 a b s P); try done; [lia|lia| | | |].
  - split; [apply (vs_ext _ _ _ _ _ Hst)|]. intros n p Hp.
    destruct (ex_new _ _ _ _ (vs_ext _ _ _ _ _ Hst) n p Hp) as [?|Hp']; [by left|right].
    assert (p <> r) by (intros ->; lia).
    assert (page_ok kend PHYSTOP p) by (destruct (vs_inv _ _ _ _ _ Hst) as (_ & Hpt3 & _); by eapply pi_page).
    by rewrite Hcnt, (cnt_set_ne kend PHYSTOP) in Hp' by (done || congruence).
  - eapply (frame_weaken kend _ (fun q => is_node P q \/ q = r)).
    2:{ intros q Hq Hc [?|Eq]; [done|]. rewrite Eq in Hc. lia. }
    eapply frame_trans; [eapply frame_weaken; [exact Hfr2|tauto]| |intros q _ _ T; exact T].
    eapply frame_trans; [eapply frame_weaken; [apply framed_on, Hst|by left]|exact Hfr4|by right].
  - intros va Hva. by rewrite Hlk4, Hlk3, Hlk2.
  - intros q Hq Hc. destruct (decide (q = r)) as [->|Hne].
    + left. rewrite Hcnt4, cnt_set_eq. lia.
    + rewrite Hcq by done.
      destruct (vs_leak _ _ _ _ _ Hst q Hq) as [?|?]; [|by left|by right].
      by rewrite Hcnt, (cnt_set_ne kend PHYSTOP) by (done || congruence).
Qed.

(** One round of [uvmalloc]: out of memory for the page or for its table, or
    one more fresh page. *)
Lemma uvmalloc_round s0 P0 a b s P :
  vm_inv kend s0 P0 -> fresh_range s0 P0 a b s P -> a mod PGSIZE = 0 -> b mod PGSIZE = 0 -> 0 <= a <= b -> b < TRAPFRAME ->
  (forall va, b <= va < b + PGSIZE -> has (lk (ram s0) P0 va) PTE_V = false) ->
  exists r s1, kalloc id s = Ret r s1 /\
   ((r = 0 /\ s1 = s) \/
    (r <> 0 /\ exists s2, kmemset r 0 PGSIZE s1 = Ret tt s2 /\
      exists c s3 P3, mappages id (root P) b PGSIZE r PTE_RWXU s2 = Ret c s3 /\ root P3 = root P /\
        ((c = 0 /\ fresh_range s0 P0 a (b + PGSIZE) s3 P3) \/
         (c = -1 /\ exists s4, kfree kend id r s3 = Ret tt s4 /\ fresh_range s0 P0 a b s4 P3)))).
Proof using Hkend Hid.
  intros Hvm0 Hfg Ham Hm Hab Hb Hno. pose proof Hfg as [Hus Hext Hfr Hout Hin Hleak].
  pose proof trapframe_maxva as Ht. pose proof (us_vm _ _ _ Hus) as ([ls Hls] & Hpt & Huse).
  destruct (kalloc_any kend s ls id Hkend Hls Hid) as (r & s1 & Hk & Hcase). exists r, s1. split; [done|].
  destruct Hcase as [(-> & -> & _)|(Hnz & Hfp)]; [by left|right]. split; [done|].
  destruct (fresh_zeroed kend Hkend s P r s1 Hus Hfp)
    as (Hset & Hus2 & Hlk2 & Hc2 & Hnode & Hneq & Hzero & Hfr2).
  eexists. split; [done|]. pose proof Hfp as [Hr Hz Hcnt _ _].
  set (s2 := set_ram (memset (ram s1) r 0 PGSIZE) s1) in *.
  assert (Hup : PGROUNDUP (b + PGSIZE) = b + PGSIZE) by (rewrite PGROUNDUP_spec; unfold PGSIZE in *; dlia).
  assert (Hdn : PGROUNDDOWN b = b) by (rewrite PGROUNDDOWN_spec; lia).
  pose proof (page_small kend Hkend r Hr) as Hrs.
  assert (r < PHYSTOP) by apply Hr.
  destruct (mappages_spec kend id Hkend Hid s2 P b PGSIZE r PTE_RWXU) as (c & s3 & P3 & e & Hrun & Hst & Hc & Hlk3);
    try (unfold PGSIZE, PHYSTOP, KERNBASE in *; lia); [apply Hus2|done| |].
  { rewrite Hup, Hdn. intros v Hv. rewrite Hlk2, Hout; [by apply Hno|unfold PGSIZE in *; lia|lia]. }
  exists c, s3, P3. split; [done|]. split; [by eapply vstep_root|]. rewrite Hup, Hdn in *.
  destruct Hc as [[-> ->]|(-> & He & Hem)]; [left|right]; (split; [done|]).
  - eapply (fresh_range_snoc s0 P0 a b s P r s2 s3 P3); try done. intros va Hva. rewrite Hlk3 by done. unfold mapped.
    destruct (Z.leb_spec b va), (Z.ltb_spec va (b + PGSIZE)); cbn [andb]; try done.
    f_equal. rewrite PGROUNDDOWN_spec. unfold PGSIZE in *. dlia.
  - assert (e = b) as -> by (unfold PGSIZE in *; dlia).
    assert (Hlk : forall va, 0 <= va < MAXVA -> lk (ram s3) P3 va = lk (ram s2) P va).
    { intros va Hva. rewrite Hlk3 by done. unfold mapped.
      destruct (Z.leb_spec b va), (Z.ltb_spec va b); cbn [andb]; (done || lia). }
    eapply (fresh_free s0 P0 a b s P r s2 s3 P3); try done; lia.
Qed.

Lemma uvmalloc_loop_spec s0 P0 a newsz :
  vm_inv kend s0 P0 -> a mod PGSIZE = 0 -> 0 <= a -> PGROUNDUP newsz <= TRAPFRAME ->
  (forall va, a <= va < PGROUNDUP newsz -> has (lk (ram s0) P0 va) PTE_V = false) ->
  forall fuel b s P, fresh_range s0 P0 a b s P -> root P = root P0 -> b mod PGSIZE = 0 -> a <= b ->
  b <= PGROUNDUP newsz \/ b = a ->
  (Z.to_nat ((newsz - b + PGSIZE - 1) / PGSIZE) < fuel)%nat ->
  exists r s' P', uvmalloc_loop kend id fuel (root P) a b newsz s = Ret r s' /\
    ((r = newsz /\ exists c, fresh_range s0 P0 a c s' P' /\ (c = PGROUNDUP newsz \/ c = a /\ newsz <= a)) \/
     (r = 0 /\ undone s0 P0 s' P')).
Proof using Hkend Hid.
  intros Hvm0 Ham Ha Hn Hno fuel. pose proof (PGROUNDUP_bounds newsz) as [Hnb Hnm].
  pose proof trapframe_maxva as Ht. pose proof Hn as Hn'. rewrite Ht in Hn'.
  induction fuel as [|fuel IH]; intros b s P Hfg HP Hbm Hab Hb Hf; [lia|]. cbn [uvmalloc_loop].
  destruct (Z.ltb_spec b newsz) as [Hlt|Hge].
  2:{ exists newsz, s, P. split; [done|]. left. split; [done|]. exists b. split; [done|].
      destruct (decide (b = a)) as [->|]; [by right|]. left. unfold PGSIZE in *. dlia. }
  assert (Hbn : b + PGSIZE <= PGROUNDUP newsz).
  { destruct (page_disjoint b (PGROUNDUP newsz)); [done..|lia|done|]. unfold PGSIZE in *. lia. }
  assert (Hgive : forall s1, fresh_range s0 P0 a b s1 P -> exists s', (uvmdealloc kend id (root P) b a ;;; ret 0) s1 = Ret 0 s' /\ undone s0 P0 s' P).
  { intros s1 Hfg1. destruct (uvmdealloc_spec s1 P a b) as (s' & r & Hrun & Hum); [apply Hfg1|done|done|lia| |].
    { unfold PGSIZE in *. lia. }
    exists s'. rewrite (bind_Ret _ _ _ _ _ Hrun). split; [done|].
    eapply (fresh_range_undo s0 P0 a b s1 P s'); try done; [unfold PGSIZE in *; lia|].
    intros va Hva. apply Hno. lia. }
  destruct (uvmalloc_round s0 P0 a b s P) as (r & s1 & Hk & Hcase); try done.
  { unfold PGSIZE in *. lia. }
  { intros va Hva. apply Hno. lia. }
  rewrite (bind_Ret _ _ _ _ _ Hk). destruct Hcase as [[-> ->]|(Hnz & s2 & Hset & c & s3 & P3 & Hmap & HP3 & Hc)].
  { destruct (Hgive s Hfg) as (s' & Hrun & Hud). exists 0, s', P. split; [done|]. by right. }
  rewrite (proj2 (Z.eqb_neq r 0)) by done.
  rewrite (bind_Ret _ _ _ _ _ Hset), (bind_Ret _ _ _ _ _ Hmap).
  destruct Hc as [[-> Hfg3]|(-> & s4 & Hfree & Hfg4)]; cbn [negb Z.eqb].
  - rewrite u64_small by (unfold PGSIZE, MAXVA in *; lia). rewrite <- HP3.
    apply IH; try done; [by rewrite HP3|unfold PGSIZE in *; dlia|unfold PGSIZE; lia|by left|].
    eapply fuel_step; [exact Hf|lia|unfold PGSIZE in *; lia].
  - rewrite (bind_Ret _ _ _ _ _ Hfree).
    destruct (uvmdealloc_spec s4 P3 a b) as (s' & r' & Hrun & Hum); [apply Hfg4|done|done|lia| |].
    { unfold PGSIZE in *. lia. }
    rewrite <- HP3. exists 0, s', P3. rewrite (bind_Ret _ _ _ _ _ Hrun). split; [done|]. right. split; [done|].
    eapply (fresh_range_undo s0 P0 a b s4 P3 s'); try done; [unfold PGSIZE in *; lia|].
    intros va Hva. apply Hno. lia.
Qed.

End growing.

(** ** Reading through the page table *)

Section access.
Context (kend : Z).
Hypothesis Hkend : kend_ok kend.
Implicit Types (s : kst) (P : pt).

(** The page the kernel reaches through [walkaddr]: 0 when the user may not. *)
Definition uaddr (m : mem) (P : pt) (va : Z) : Z :=
  let e := lk m P va in
  if (va <? MAXVA) && has e PTE_V && has e PTE_U then PTE2PA e else 0.

Lemma rd_leaf s P va a :
  pt_inv kend (ram s) P -> pte_addr P va = Some a -> rd64 a s = Ret (lk (ram s) P va) s.
Proof using Hkend.
  intros Hpt Ha. rewrite rd64_run by (by eapply pte_addr_in_ram). unfold lk. by rewrite Ha.
Qed.

Lemma walkaddr_spec id s P va :
  pt_inv kend (ram s) P -> 0 <= va -> walkaddr id (root P) va s = Ret (uaddr (ram s) P va) s.
Proof using Hkend.
  intros Hpt Hva. unfold walkaddr, uaddr. destruct (Z.leb_spec MAXVA va) as [Hge|Hlt].
  { by rewrite (proj2 (Z.ltb_ge _ _)) by lia. }
  rewrite (proj2 (Z.ltb_lt va MAXVA)) by lia. cbn [andb].
  rewrite (bind_Ret _ _ _ _ _ (walk_ro kend id Hkend s P va Hpt ltac:(lia))).
  destruct (pte_addr P va) as [a|] eqn:Ea; simpl.
  - rewrite (proj2 (Z.eqb_neq a 0)) by (by eapply pte_addr_nonzero).
    rewrite (bind_Ret _ _ _ _ _ (rd_leaf s P va a Hpt Ea)).
    by destruct (has (lk (ram s) P va) PTE_V), (has (lk (ram s) P va) PTE_U).
  - unfold lk. by rewrite Ea.
Qed.

(** A user page the kernel may access is a page frame in use. *)
Lemma uaddr_page s P va :
  uspace kend s P -> 0 <= va -> uaddr (ram s) P va <> 0 ->
  va < TRAPFRAME /\ has (lk (ram s) P va) PTE_V = true /\ has (lk (ram s) P va) PTE_U = true /\
  uaddr (ram s) P va = PTE2PA (lk (ram s) P va) /\ leaf_ok kend s P (lk (ram s) P va).
Proof using Type.
  intros [Hvm Hleaf Hinj Hhigh] Hva. unfold uaddr.
  destruct (Z.ltb_spec va MAXVA), (has (lk (ram s) P va) PTE_V) eqn:Hv,
    (has (lk (ram s) P va) PTE_U) eqn:Hu; cbn [andb]; try done. intros _.
  assert (va < TRAPFRAME).
  { destruct (Z.lt_ge_cases va TRAPFRAME); [done|]. rewrite Hhigh in Hu; [done|lia|done]. }
  split_and!; try done. by apply Hleaf.
Qed.

Lemma umem_uaddr s P va :
  uspace kend s P -> 0 <= va ->
  umem (ram s) P va = if uaddr (ram s) P va =? 0 then None
                      else Some (ram s (uaddr (ram s) P va + va mod PGSIZE)).
Proof using Hkend.
  intros Hus Hva. destruct (Z.eqb_spec (uaddr (ram s) P va) 0) as [E|E].
  - unfold umem. unfold uaddr in E. destruct ((va <? MAXVA) && _ && _) eqn:Eb; [|done]. exfalso.
    apply andb_prop in Eb as [[Hm%Z.ltb_lt Hv]%andb_prop Hu].
    assert (va < TRAPFRAME).
    { destruct (Z.lt_ge_cases va TRAPFRAME); [done|]. by rewrite (us_high _ _ _ Hus) in Hu by (done || lia). }
    eapply (page_nonzero kend PHYSTOP Hkend); [|exact E]. by apply (us_leaf _ _ _ Hus).
  - destruct (uaddr_page s P va Hus Hva E) as (Ht & Hv & Hu & -> & _). unfold umem.
    pose proof trapframe_maxva. rewrite Hv, Hu, (proj2 (Z.ltb_lt va MAXVA)) by (unfold PGSIZE in *; lia). done.
Qed.

Lemma uaddr_vpn m P va va' :
  0 <= va -> 0 <= va' -> vpn va = vpn va' -> uaddr m P va = uaddr m P va'.
Proof using Type.
  intros H H' E. unfold uaddr. assert ((va <? MAXVA) = (va' <? MAXVA)) as ->.
  { unfold vpn, PGSIZE, MAXVA in *. destruct (Z.ltb_spec va (2 ^ 38)), (Z.ltb_spec va' (2 ^ 38)); try done; dlia. }
  destruct (Z.ltb_spec va' MAXVA); [|done].
  rewrite (lk_vpn m P va va'); [done| |lia|done].
  unfold vpn, PGSIZE, MAXVA in *. dlia.
Qed.

(** Writing the bytes [W], in pages in use outside the page table. *)
Lemma uspace_write s P (W : Z -> Prop) m' :
  uspace kend s P -> mem_ok m' -> (forall x, ~ W x -> m' x = ram s x) ->
  (forall x q, W x -> page_ok kend PHYSTOP q -> q <= x < q + PGSIZE ->
     0 < cnt s (q / PGSIZE) /\ ~ is_node P q) ->
  uspace kend (set_ram m' s) P /\ forall va, lk m' P va = lk (ram s) P va.
Proof using Type.
  intros Hus Hm HW Hok. pose proof Hus as [Hvm Hleaf Hinj Hhigh]. pose proof Hvm as ([ls Hls] & Hpt & Huse).
  assert (Hkeep : forall q x, page_ok kend PHYSTOP q -> cnt s (q / PGSIZE) = 0 \/ is_node P q ->
    q <= x < q + PGSIZE -> m' x = ram s x).
  { intros q x Hq Hcase Hx. apply HW. intros HWx. destruct (Hok x q HWx Hq Hx) as [Hc Hn].
    destruct Hcase; [lia|done]. }
  assert (Hload : forall n p a, node_page P n = Some p -> p <= a -> a + 8 <= p + PGSIZE ->
    load64 m' a = load64 (ram s) a).
  { intros n p a Hp Hl Hu. apply load64_ext. intros x Hx.
    apply (Hkeep p); [by eapply pi_page|right; by exists n|lia]. }
  assert (Hlk : forall va, lk m' P va = lk (ram s) P va).
  { intros va. unfold lk. destruct (pte_addr P va) as [a|] eqn:E; [|done].
    destruct (pte_addr_page _ _ _ E) as (p & Hp & ->). pose proof (PX_range 0 va).
    eapply Hload; [exact Hp|lia|unfold PGSIZE; lia]. }
  split; [|done]. split.
  - split_and!; [|destruct Hpt as [Hpg Hpi He Hd]; split; try done|done].
    + exists ls. destruct Hls. split; try done. intros i h l Hh Hl.
      eapply chain_frame; [|by eapply ai_chain0]. intros q Hq x Hx. simpl.
      pose proof (elem_concat_lookup _ _ _ _ Hl Hq) as Hin. pose proof (ai_page0 q Hin) as Hqp.
      apply (Hkeep q); [done|left; by apply ai_free0|unfold PGSIZE; lia].
    + intros n a Hn Ha. destruct (entry_parent P n a Hn Ha) as (n' & p & i & _ & Hp & -> & Hi & _).
      simpl. rewrite (Hload n' p); [|done|lia|unfold PGSIZE; lia]. by apply He.
  - intros va Hva. simpl. rewrite Hlk. intros Hv. by destruct (Hleaf va Hva Hv).
  - intros va va' Hva Hva'. simpl. rewrite !Hlk. by apply Hinj.
  - intros va Hva. simpl. rewrite Hlk. by apply Hhigh.
Qed.

End access.

End Uvm.
