(* ===== verification/Ucopy.v ===== *)
(** Moving data between the kernel and user address spaces.

    Theorems on [copyin], [copyinstr], [copyout], [cowalloc] and [uvmcopy] of
    module [Uvm]: what is copied, exactly when the copies fail, and the
    isolation copy-on-write gives to address spaces that share page frames. *)

From S2P Require Import Prelude Mem Kstring Kalloc Pgtbl Uvm.
Import Kstring Kalloc Pgtbl Uvm.

Module Ucopy.

(** A kernel buffer: RAM in use that is neither page table nor user memory. *)
Definition kbuf (kend : Z) (s : kst) (P : pt) (a n : Z) : Prop :=
  in_ram a n = true /\
  forall x q, a <= x < a + n -> page_ok kend PHYSTOP q -> q <= x < q + PGSIZE ->
    0 < cnt s (q / PGSIZE) /\ ~ is_node P q /\ ~ maps (ram s) P 0 TRAPFRAME q.

Lemma in_ram_sub a n i k : in_ram a n = true -> 0 <= i -> i + k <= n -> in_ram (a + i) k = true.
Proof.
  unfold in_ram. intros H Hi Hk. apply andb_prop in H as [H1%Z.leb_le H2%Z.leb_le].
  by rewrite (proj2 (Z.leb_le _ _)), (proj2 (Z.leb_le _ _)) by lia.
Qed.

Lemma kbuf_sub kend s P a n i k : kbuf kend s P a n -> 0 <= i -> i + k <= n -> kbuf kend s P (a + i) k.
Proof.
  intros [Hr Hb] Hi Hk. split; [by eapply in_ram_sub|]. intros x q Hx. apply Hb. lia.
Qed.

Section reading.
Context (kend : Z).
Hypothesis Hkend : kend_ok kend.
Implicit Types (s : kst) (P : pt) (m : mem).

(** Writing into a kernel buffer changes nothing the user can see. *)
Lemma kbuf_write s P a n m' :
  uspace kend s P -> kbuf kend s P a n -> mem_ok m' ->
  (forall x, ~ (a <= x < a + n) -> m' x = ram s x) ->
  uspace kend (set_ram m' s) P /\ (forall va, lk m' P va = lk (ram s) P va) /\
  (forall va, 0 <= va -> umem m' P va = umem (ram s) P va).
Proof using Hkend.
  intros Hus [Hr Hb] Hm Hout.
  destruct (uspace_write kend s P (fun x => a <= x < a + n) m' Hus Hm Hout) as [Hus' Hlk].
  { intros x q Hx Hq Hxq. by destruct (Hb x q Hx Hq Hxq) as (? & ? & _). }
  split_and!; [done|done|]. intros va Hva.
  pose proof (umem_uaddr kend Hkend _ P va Hus' Hva) as E1. pose proof (umem_uaddr kend Hkend s P va Hus Hva) as E2.
  assert (Hua : uaddr (ram (set_ram m' s)) P va = uaddr (ram s) P va)
    by (unfold uaddr; cbn [ram set_ram]; by rewrite Hlk).
  rewrite Hua in E1. rewrite E2. cbn [ram set_ram] in E1. rewrite E1.
  destruct (Z.eqb_spec (uaddr (ram s) P va) 0) as [|Hnz]; [done|]. f_equal. apply Hout. intros Hin.
  destruct (uaddr_page kend s P va Hus Hva Hnz) as (Ht & Hv & _ & Hp & Hl). rewrite Hp in *.
  assert (Hoff : 0 <= va mod PGSIZE < PGSIZE) by (apply Z.mod_pos_bound; unfold PGSIZE; lia).
  edestruct (Hb _ _ Hin (lf_page _ _ _ _ Hl)) as (_ & _ & Hn); [lia|]. apply Hn.
  exists va. split; [lia|]. unfold upage. by rewrite Hv.
Qed.

Lemma kbuf_set s P m' b k :
  (forall va, lk m' P va = lk (ram s) P va) -> kbuf kend s P b k -> kbuf kend (set_ram m' s) P b k.
Proof using Type.
  intros Hlk [Hr Hb]. split; [done|]. intros x q Hx Hq Hxq. destruct (Hb x q Hx Hq Hxq) as (? & ? & Hn).
  split_and!; [done|done|]. intros (va & Hva & E). apply Hn. exists va. split; [done|].
  unfold upage in *. cbn [ram set_ram] in E. by rewrite Hlk in E.
Qed.

(** The part of the range [va, va + len) in the first page. *)
Lemma page_chunk va len :
  0 <= va -> 0 < len -> let va0 := PGROUNDDOWN va in
  let n := PGSIZE - (va - va0) in let n := if len <? n then len else n in
  0 < n <= len /\ va - va0 = va mod PGSIZE /\ 0 <= va0 /\ (va - va0) + n <= PGSIZE /\ va0 mod PGSIZE = 0 /\
  (forall i, 0 <= i < n -> vpn (va + i) = vpn va0 /\ (va + i) mod PGSIZE = va mod PGSIZE + i) /\
  (n < len -> va0 + PGSIZE = va + n).
Proof using Type.
  intros Hva Hlen va0 n0 n. assert (E : va - va0 = va mod PGSIZE) by (unfold va0; rewrite PGROUNDDOWN_spec; lia).
  pose proof (Z.mod_pos_bound va PGSIZE ltac:(unfold PGSIZE; lia)) as Hb.
  assert (Hn : 0 < n <= len /\ (va - va0) + n <= PGSIZE).
  { unfold n, n0. destruct (Z.ltb_spec len (PGSIZE - (va - va0))); lia. }
  assert (Hm : va0 mod PGSIZE = 0) by apply PGROUNDDOWN_bounds.
  assert (H0 : 0 <= va0) by (unfold PGSIZE in *; dlia).
  split_and!; try lia.
  - intros i Hi. assert (Hr : va0 <= va + i < va0 + PGSIZE) by lia. split; [by apply vpn_page|].
    unfold PGSIZE in *. dlia.
  - unfold n, n0. destruct (Z.ltb_spec len (PGSIZE - (va - va0))); lia.
Qed.

(** The rounds a copy of [len] bytes at [va] makes. *)
Definition rounds (va len : Z) : nat := Z.to_nat ((va mod PGSIZE + len + PGSIZE - 1) / PGSIZE).

Lemma rounds_step va va' len n fuel :
  (rounds va len < S fuel)%nat -> 0 < n <= len -> (n < len -> va' = va + n) -> va' mod PGSIZE = 0 ->
  va mod PGSIZE + n <= PGSIZE -> (n < len -> va mod PGSIZE + n = PGSIZE) ->
  (rounds va' (len - n) < fuel)%nat.
Proof using Type.
  unfold rounds. intros Hf Hn Hva' Hm Hp Hfull. rewrite Hm.
  pose proof (Z.mod_pos_bound va PGSIZE ltac:(unfold PGSIZE; lia)).
  destruct (Z.eq_dec n len) as [->|Hne].
  - replace ((0 + (len - len) + PGSIZE - 1) / PGSIZE) with 0 by (unfold PGSIZE; dlia).
    assert (1 <= (va mod PGSIZE + len + PGSIZE - 1) / PGSIZE); [|lia].
    apply Z.div_le_lower_bound; unfold PGSIZE in *; lia.
  - eapply fuel_step; [exact Hf|lia|unfold PGSIZE in *; lia].
Qed.

Lemma rounds_fuel va len : 0 <= len -> (rounds va len < copy_fuel len)%nat.
Proof using Type.
  intros Hl. unfold rounds, copy_fuel.
  pose proof (Z.mod_pos_bound va PGSIZE ltac:(unfold PGSIZE; lia)).
  assert ((va mod PGSIZE + len + PGSIZE - 1) / PGSIZE <= len / PGSIZE + 2) by (unfold PGSIZE in *; dlia).
  assert (0 <= len / PGSIZE) by (apply Z.div_pos; unfold PGSIZE; lia). lia.
Qed.

(** What a copy from user memory did: [k] bytes from [srcva] are at [dst]. *)
Definition copied_in (s : kst) (P : pt) (dst srcva k : Z) (m' : mem) : Prop :=
  mem_ok m' /\ (forall i, 0 <= i < k -> umem (ram s) P (srcva + i) = Some (m' (dst + i))) /\
  (forall x, ~ (dst <= x < dst + k) -> m' x = ram s x).

(** [memmove] from the user page at [va0] into the kernel buffer. *)
Lemma copyin_chunk s P dst srcva len :
  uspace kend s P -> kbuf kend s P dst len -> 0 <= srcva -> 0 < len ->
  let va0 := PGROUNDDOWN srcva in
  let n := PGSIZE - (srcva - va0) in let n := if len <? n then len else n in
  let pa0 := uaddr (ram s) P va0 in
  pa0 <> 0 ->
  let m' := memmove (ram s) dst (pa0 + (srcva - va0)) n in
  kmemmove dst (pa0 + (srcva - va0)) n s = Ret tt (set_ram m' s) /\ copied_in s P dst srcva n m'.
Proof using Hkend.
  intros Hus Hbuf Hva Hlen va0 n0 n pa0 Hnz m'.
  destruct (page_chunk srcva len Hva Hlen) as (Hn & Hoff & H0 & Hfit & Hm0 & Hpg & _).
  fold va0 n0 n in Hn, Hoff, H0, Hfit, Hm0, Hpg.
  destruct (uaddr_page kend s P va0 Hus H0 Hnz) as (_ & _ & _ & Hp & Hl). fold pa0 in Hp.
  assert (Hmem : mem_ok (ram s)) by (destruct (us_vm _ _ _ Hus) as ([ls Hls] & _); apply Hls).
  pose proof (Z.mod_pos_bound srcva PGSIZE ltac:(unfold PGSIZE; lia)).
  split; [|split_and!].
  - apply kmemmove_run.
    + rewrite <- (Z.add_0_r dst). eapply in_ram_sub; [apply Hbuf|lia|lia].
    + rewrite Hp. eapply in_ram_page; [done|apply Hl|lia|lia].
  - apply memmove_ok; [done|lia].
  - intros i Hi. destruct (Hpg i Hi) as [Hv Hmod].
    rewrite (umem_uaddr kend Hkend s P (srcva + i)) by (done || lia).
    rewrite (uaddr_vpn (ram s) P (srcva + i) va0) by (done || lia). fold pa0.
    rewrite (proj2 (Z.eqb_neq pa0 0)) by done. f_equal. unfold m'. rewrite memmove_spec by (done || lia).
    rewrite (proj2 (Z.leb_le _ _)), (proj2 (Z.ltb_lt _ _)) by lia. cbn [andb]. f_equal. lia.
  - intros x Hx. unfold m'. rewrite memmove_spec by (done || lia).
    destruct (Z.leb_spec dst x), (Z.ltb_spec x (dst + n)); cbn [andb]; (lia || done).
Qed.

(** Two consecutive copies. *)
Lemma copied_in_app s P dst srcva n k m1 m2 :
  uspace kend s P -> kbuf kend s P dst (n + k) -> 0 <= srcva -> 0 <= n -> 0 <= k ->
  copied_in s P dst srcva n m1 -> copied_in (set_ram m1 s) P (dst + n) (srcva + n) k m2 ->
  copied_in s P dst srcva (n + k) m2.
Proof using Hkend.
  intros Hus Hbuf Hva Hn Hk (Hm1 & Hc1 & Ho1) (Hm2 & Hc2 & Ho2). cbn [ram set_ram] in *.
  assert (Hb1 : kbuf kend s P dst n) by (rewrite <- (Z.add_0_r dst); eapply kbuf_sub; [exact Hbuf|lia|lia]).
  destruct (kbuf_write s P dst n m1 Hus Hb1 Hm1 Ho1) as (_ & _ & Hum).
  split_and!; [done| |].
  - intros i Hi. destruct (Z.lt_ge_cases i n).
    + rewrite Ho2 by lia. apply Hc1. lia.
    + specialize (Hc2 (i - n) ltac:(lia)). rewrite Hum in Hc2 by lia.
      by replace (srcva + n + (i - n)) with (srcva + i) in Hc2 by lia;
      replace (dst + n + (i - n)) with (dst + i) in Hc2 by lia.
  - intros x Hx. rewrite Ho2 by lia. apply Ho1. lia.
Qed.

Lemma copyin_loop_spec id P fuel : forall s dst srcva len,
  uspace kend s P -> kbuf kend s P dst len -> 0 <= srcva -> 0 <= len -> (rounds srcva len < fuel)%nat ->
  exists r m' k, copyin_loop id fuel (root P) dst srcva len s = Ret r (set_ram m' s) /\
    0 <= k <= len /\ copied_in s P dst srcva k m' /\
    (r = 0 /\ k = len \/ r = -1 /\ k < len /\ umem (ram s) P (srcva + k) = None).
Proof using Hkend.
  induction fuel as [|fuel IH]; intros s dst srcva len Hus Hbuf Hva Hlen Hf; [lia|]. cbn [copyin_loop].
  assert (Hmem : mem_ok (ram s)) by (destruct (us_vm _ _ _ Hus) as ([ls Hls] & _); apply Hls).
  assert (Hnone : copied_in s P dst srcva 0 (ram s)) by (split_and!; [done|lia|done]).
  assert (Hsame : set_ram (ram s) s = s) by (by destruct s).
  destruct (Z.ltb_spec 0 len) as [Hpos|Hz].
  2:{ exists 0, (ram s), 0. rewrite Hsame. split; [done|]. split; [lia|]. split; [done|left; lia]. }
  destruct (page_chunk srcva len Hva Hpos) as (Hn & Hoff & H0 & Hfit & Hm0 & Hpg & Hnext).
  pose proof Hus as [(_ & Hpt & _) _ _ _].
  rewrite (bind_Ret _ _ _ _ _ (walkaddr_spec kend Hkend id s P (PGROUNDDOWN srcva) Hpt H0)).
  destruct (Z.eqb_spec (uaddr (ram s) P (PGROUNDDOWN srcva)) 0) as [E|E].
  { exists (-1), (ram s), 0. rewrite Hsame. split; [done|]. split; [lia|]. split; [done|]. right.
    split_and!; [done|lia|]. rewrite Z.add_0_r, (umem_uaddr kend Hkend) by done.
    destruct (Hpg 0 ltac:(lia)) as [Hv _]. rewrite Z.add_0_r in Hv.
    by rewrite (uaddr_vpn (ram s) P srcva (PGROUNDDOWN srcva)), E by done. }
  destruct (copyin_chunk s P dst srcva len Hus Hbuf Hva Hpos E) as [Hrun Hcp].
  set (n := if len <? _ then len else _) in *. rewrite (bind_Ret _ _ _ _ _ Hrun).
  set (m1 := memmove _ _ _ _) in *. pose proof Hcp as (Hm1 & _ & Ho1).
  assert (Hb1 : kbuf kend s P dst n) by (rewrite <- (Z.add_0_r dst); eapply kbuf_sub; [exact Hbuf|lia|lia]).
  destruct (kbuf_write s P dst n m1 Hus Hb1 Hm1 Ho1) as (Hus1 & Hlk1 & Hum1).
  destruct (uaddr_page kend s P _ Hus H0 E) as (Ht & _). pose proof trapframe_maxva as HT.
  assert (Hd : 0 <= dst + n < 2 ^ 64).
  { pose proof (proj1 Hbuf) as Hr. unfold in_ram in Hr. apply andb_prop in Hr as [Hr1%Z.leb_le Hr2%Z.leb_le].
    unfold PHYSTOP, KERNBASE in *. lia. }
  rewrite (u64_small (dst + n)), (u64_small (PGROUNDDOWN srcva + PGSIZE)) by (unfold MAXVA, PGSIZE in *; lia).
  destruct (IH (set_ram m1 s) (dst + n) (PGROUNDDOWN srcva + PGSIZE) (len - n)) as (r & m2 & k & Hrun2 & Hk & Hcp2 & Hr).
  - done.
  - apply kbuf_set; [done|]. eapply kbuf_sub; [exact Hbuf|lia|lia].
  - unfold PGSIZE. lia.
  - lia.
  - eapply rounds_step; [exact Hf|lia|lia|unfold PGSIZE in *; dlia|lia|lia].
  - exists r, m2, (n + k). split; [done|]. split; [lia|].
    destruct (Z.eq_dec n len) as [Enl|Hne].
    + assert (k = 0) as -> by lia. split; [|left; lia]. rewrite Z.add_0_r.
      destruct Hcp as (_ & Hc1 & _), Hcp2 as (Hm2 & _ & Ho2). cbn [ram set_ram] in Ho2.
      split_and!; [done| |].
      * intros i Hi. rewrite Ho2 by lia. by apply Hc1.
      * intros x Hx. rewrite Ho2 by lia. by apply Ho1.
    + rewrite Hnext in * by lia. split.
      * eapply copied_in_app; try done; try lia. rewrite <- (Z.add_0_r dst). eapply kbuf_sub; [exact Hbuf|lia|lia].
      * destruct Hr as [[-> ->]|(-> & Hlt & Hu)]; [left; lia|right]. split_and!; [done|lia|].
        cbn [ram set_ram] in Hu. rewrite Hum1 in Hu by lia. by rewrite Z.add_assoc.
Qed.

End reading.

(** ** Strings *)

Section strings.
Context (kend : Z).
Hypothesis Hkend : kend_ok kend.
Implicit Types (s : kst) (P : pt) (m : mem).

(** The inner loop copies [j] bytes that are not NUL, and the NUL if it ends
    at one. *)
Lemma copyinstr_page_spec n : forall s p dst max,
  mem_ok (ram s) -> in_ram p (Z.of_nat n) = true -> in_ram dst (Z.of_nat n) = true ->
  p + Z.of_nat n <= dst \/ dst + Z.of_nat n <= p ->
  exists m' j (got : bool), copyinstr_page n p dst max s = Ret (got, dst + j, max - j) (set_ram m' s) /\
    mem_ok m' /\ 0 <= j <= Z.of_nat n /\
    (forall i, 0 <= i < j -> ram s (p + i) <> 0) /\
    (if got then j < Z.of_nat n /\ ram s (p + j) = 0 else j = Z.of_nat n) /\
    (let k := if got then j + 1 else j in
     (forall i, 0 <= i < k -> m' (dst + i) = ram s (p + i)) /\
     forall x, ~ (dst <= x < dst + k) -> m' x = ram s x).
Proof using Type.
  induction n as [|n IH]; intros s p dst max Hm Hp Hd Hdis.
  { exists (ram s), 0, false. rewrite Z.add_0_r, Z.sub_0_r. split; [by destruct s|].
    cbn. split_and!; try done; try lia; intros; lia. }
  cbn [copyinstr_page]. unfold rd8, wr8.
  assert (Hp1 : in_ram p 1 = true) by (rewrite <- (Z.add_0_r p); eapply in_ram_sub; [exact Hp|lia|lia]).
  assert (Hd1 : in_ram dst 1 = true) by (rewrite <- (Z.add_0_r dst); eapply in_ram_sub; [exact Hd|lia|lia]).
  rewrite Hp1, Hd1. unfold bind at 1. unfold gets. destruct (Z.eqb_spec (ram s p) 0) as [Ez|Enz].
  - exists (upd (ram s) dst 0), 0, true. unfold bind, modify, ret. rewrite Z.add_0_r, Z.sub_0_r.
    split_and!; try done; try lia; auto with kernel.
    + by rewrite Z.add_0_r.
    + intros i Hi. replace i with 0 by lia. rewrite !Z.add_0_r, upd_eq. by rewrite Ez.
    + intros x Hx. apply upd_ne. lia.
  - unfold bind at 1. unfold modify.
    set (m1 := upd (ram s) dst (ram s p)).
    assert (Hm1 : mem_ok m1) by (apply upd_ok, Hm).
    destruct (IH (set_ram m1 s) (p + 1) (dst + 1) (max - 1)) as (m' & j & got & Hrun & Hm' & Hj & Hnz & Hend & Hc & Ho).
    + done.
    + eapply in_ram_sub; [exact Hp|lia|lia].
    + eapply in_ram_sub; [exact Hd|lia|lia].
    + lia.
    + cbn [ram set_ram] in *. exists m', (j + 1), got. rewrite Hrun.
      assert (Hsrc : forall i, 0 <= i < Z.of_nat n -> m1 (p + 1 + i) = ram s (p + (i + 1))).
      { intros i Hi. unfold m1. rewrite upd_ne by lia. f_equal. lia. }
      split; [by rewrite <- !Z.sub_add_distr, <- !Z.add_assoc, (Z.add_comm 1 j)|].
      split_and!; [done|lia|lia| | | |].
      * intros i Hi. destruct (Z.eq_dec i 0) as [->|]; [by rewrite Z.add_0_r|].
        specialize (Hnz (i - 1) ltac:(lia)). rewrite Hsrc in Hnz by lia. by replace (i - 1 + 1) with i in Hnz by lia.
      * destruct got; [|lia]. destruct Hend as [H1 H2]. split; [lia|]. by rewrite <- Hsrc by lia.
      * intros i Hi. destruct (Z.eq_dec i 0) as [->|].
        -- rewrite !Z.add_0_r, Ho by lia. unfold m1. rewrite upd_eq. apply u8_small, Hm.
        -- specialize (Hc (i - 1) ltac:(destruct got; lia)). replace (dst + 1 + (i - 1)) with (dst + i) in Hc by lia.
           rewrite Hc, Hsrc; [f_equal; lia|]. destruct got; lia.
      * intros x Hx. rewrite Ho by (destruct got; lia). unfold m1. apply upd_ne. destruct got; lia.
Qed.

(** The bytes copied so far, none NUL, or the string with its NUL. *)
Definition string_in (max : Z) s P (dst srcva r k : Z) m' : Prop :=
  0 <= k <= max /\ copied_in s P dst srcva k m' /\
  ((r = 0 /\ 0 < k /\ m' (dst + (k - 1)) = 0 /\ forall i, 0 <= i < k - 1 -> m' (dst + i) <> 0) \/
   (r = -1 /\ (forall i, 0 <= i < k -> m' (dst + i) <> 0) /\
    (k = max \/ umem (ram s) P (srcva + k) = None))).

(** One page of [copyinstr]. *)
Lemma copyinstr_chunk s P dst srcva max :
  uspace kend s P -> kbuf kend s P dst max -> 0 <= srcva -> 0 < max ->
  let va0 := PGROUNDDOWN srcva in
  let n := PGSIZE - (srcva - va0) in let n := if max <? n then max else n in
  let pa0 := uaddr (ram s) P va0 in
  pa0 <> 0 ->
  exists m' j (got : bool),
    copyinstr_page (Z.to_nat n) (pa0 + (srcva - va0)) dst max s = Ret (got, dst + j, max - j) (set_ram m' s) /\
    (if got then string_in max s P dst srcva 0 (j + 1) m' /\ j < n
     else j = n /\ copied_in s P dst srcva n m' /\ forall i, 0 <= i < n -> m' (dst + i) <> 0).
Proof using Hkend.
  intros Hus Hbuf Hva Hlen va0 n0 n pa0 Hnz.
  destruct (page_chunk srcva max Hva Hlen) as (Hn & Hoff & H0 & Hfit & Hm0 & Hpg & _).
  fold va0 n0 n in Hn, Hoff, H0, Hfit, Hm0, Hpg.
  destruct (uaddr_page kend s P va0 Hus H0 Hnz) as (Ht & Hv & _ & Hp & Hl). fold pa0 in Hp.
  assert (Hmem : mem_ok (ram s)) by (destruct (us_vm _ _ _ Hus) as ([ls Hls] & _); apply Hls).
  pose proof (Z.mod_pos_bound srcva PGSIZE ltac:(unfold PGSIZE; lia)) as Hmod.
  assert (Hdis : pa0 + (srcva - va0) + n <= dst \/ dst + n <= pa0 + (srcva - va0)).
  { destruct (Z.lt_ge_cases dst (pa0 + (srcva - va0) + n)) as [H1|H1]; [|by left].
    destruct (Z.lt_ge_cases (pa0 + (srcva - va0)) (dst + n)) as [H2|H2]; [exfalso|by right].
    set (x := Z.max dst (pa0 + (srcva - va0))).
    destruct (proj2 Hbuf x pa0) as (_ & _ & Hno); [lia|rewrite Hp; apply Hl|lia|].
    apply Hno. exists va0. split; [lia|]. unfold upage. by rewrite Hv, Hp. }
  destruct (copyinstr_page_spec (Z.to_nat n) s (pa0 + (srcva - va0)) dst max Hmem)
    as (m' & j & got & Hrun & Hm' & Hj & Hnul & Hend & Hc & Ho); rewrite ?Z2Nat.id in * by lia; try done.
  { rewrite Hp. eapply in_ram_page; [done|apply Hl|lia|lia]. }
  { rewrite <- (Z.add_0_r dst). eapply in_ram_sub; [apply Hbuf|lia|lia]. }
  exists m', j, got. split; [done|].
  assert (Hum : forall i, 0 <= i < n -> umem (ram s) P (srcva + i) = Some (ram s (pa0 + (srcva - va0) + i))).
  { intros i Hi. destruct (Hpg i Hi) as [Hvp Hmo].
    rewrite (umem_uaddr kend Hkend s P (srcva + i)) by (done || lia).
    rewrite (uaddr_vpn (ram s) P (srcva + i) va0) by (done || lia). fold pa0.
    rewrite (proj2 (Z.eqb_neq pa0 0)) by done. do 2 f_equal. lia. }
  destruct got.
  - destruct Hend as [Hjn Hz]. split; [|done]. split; [lia|]. split.
    + split_and!; [done| |done]. intros i Hi. rewrite Hc by done. apply Hum. lia.
    + left. replace (j + 1 - 1) with j by lia. split_and!; [done|lia| |].
      * rewrite Hc by lia. done.
      * intros i Hi. rewrite Hc by lia. apply Hnul. lia.
  - subst j. split; [done|]. split.
    + split_and!; [done| |done]. intros i Hi. rewrite Hc by done. by apply Hum.
    + intros i Hi. rewrite Hc by done. by apply Hnul.
Qed.

(** A page without NUL, then the rest. *)
Lemma string_in_app s P dst srcva max n k r va' m1 m2 :
  uspace kend s P -> kbuf kend s P dst max -> 0 <= srcva -> 0 < n <= max -> (n < max -> va' = srcva + n) ->
  copied_in s P dst srcva n m1 -> (forall i, 0 <= i < n -> m1 (dst + i) <> 0) ->
  0 <= k <= max - n -> copied_in (set_ram m1 s) P (dst + n) va' k m2 ->
  ((r = 0 /\ 0 < k /\ m2 (dst + n + (k - 1)) = 0 /\ forall i, 0 <= i < k - 1 -> m2 (dst + n + i) <> 0) \/
   (r = -1 /\ (forall i, 0 <= i < k -> m2 (dst + n + i) <> 0) /\
    (k = max - n \/ umem (ram (set_ram m1 s)) P (va' + k) = None))) ->
  (forall va, 0 <= va -> umem m1 P va = umem (ram s) P va) ->
  string_in max s P dst srcva r (n + k) m2.
Proof using Hkend.
  intros Hus Hbuf Hva Hn Hva' Hcp Hnz Hk Hcp2 Hr Hum1. split; [lia|].
  assert (Hkeep : forall i, 0 <= i < n -> m2 (dst + i) <> 0).
  { intros i Hi. destruct Hcp2 as (_ & _ & Ho2). rewrite Ho2 by lia. by apply Hnz. }
  assert (Hall : forall j, (forall i, 0 <= i < j -> m2 (dst + n + i) <> 0) ->
    forall i, 0 <= i < n + j -> m2 (dst + i) <> 0).
  { intros j Hj i Hi. destruct (Z.lt_ge_cases i n); [apply Hkeep; lia|].
    replace (dst + i) with (dst + n + (i - n)) by lia. apply Hj. lia. }
  split.
  - destruct (Z.eq_dec n max) as [Enm|Hne].
    + assert (k = 0) as -> by lia. rewrite Z.add_0_r. destruct Hcp as (_ & Hc1 & Ho1), Hcp2 as (Hm2 & _ & Ho2).
      cbn [ram set_ram] in Ho2. split_and!; [done| |].
      * intros i Hi. rewrite Ho2 by lia. by apply Hc1.
      * intros x Hx. rewrite Ho2 by lia. by apply Ho1.
    + rewrite Hva' in * by lia. eapply (copied_in_app kend Hkend); try done; try lia.
      rewrite <- (Z.add_0_r dst). eapply kbuf_sub; [exact Hbuf|lia|lia].
  - destruct Hr as [(-> & Hk0 & Hz & Hi)|(-> & Hi & Hend)]; [left|right].
    + split_and!; [done|lia| |].
      * by replace (dst + (n + k - 1)) with (dst + n + (k - 1)) by lia.
      * intros i Hir. apply (Hall (k - 1)); [done|lia].
    + split_and!; [done|by apply Hall|]. destruct (Z.eq_dec (n + k) max) as [|Hne]; [by left|right].
      destruct Hend as [|Hu]; [lia|]. cbn [ram set_ram] in Hu. rewrite Hva' in Hu by lia.
      rewrite Hum1 in Hu by lia. by rewrite Z.add_assoc.
Qed.

Lemma copyinstr_loop_spec id P fuel : forall s dst srcva max,
  uspace kend s P -> kbuf kend s P dst max -> 0 <= srcva -> 0 <= max -> (rounds srcva max < fuel)%nat ->
  exists r m' k, copyinstr_loop id fuel (root P) dst srcva max s = Ret r (set_ram m' s) /\
    string_in max s P dst srcva r k m'.
Proof using Hkend.
  induction fuel as [|fuel IH]; intros s dst srcva max Hus Hbuf Hva Hlen Hf; [lia|]. cbn [copyinstr_loop].
  assert (Hmem : mem_ok (ram s)) by (destruct (us_vm _ _ _ Hus) as ([ls Hls] & _); apply Hls).
  assert (Hnone : copied_in s P dst srcva 0 (ram s)) by (split_and!; [done|lia|done]).
  assert (Hsame : set_ram (ram s) s = s) by (by destruct s).
  destruct (Z.ltb_spec 0 max) as [Hpos|Hz].
  2:{ exists (-1), (ram s), 0. rewrite Hsame. split; [done|]. split; [lia|]. split; [done|right].
      split_and!; [done|lia|left; lia]. }
  destruct (page_chunk srcva max Hva Hpos) as (Hn & Hoff & H0 & Hfit & Hm0 & Hpg & Hnext).
  pose proof Hus as [(_ & Hpt & _) _ _ _].
  rewrite (bind_Ret _ _ _ _ _ (walkaddr_spec kend Hkend id s P (PGROUNDDOWN srcva) Hpt H0)).
  destruct (Z.eqb_spec (uaddr (ram s) P (PGROUNDDOWN srcva)) 0) as [E|E].
  { exists (-1), (ram s), 0. rewrite Hsame. split; [done|]. split; [lia|]. split; [done|right].
    split_and!; [done|lia|right]. rewrite Z.add_0_r, (umem_uaddr kend Hkend) by done.
    destruct (Hpg 0 ltac:(lia)) as [Hv _]. rewrite Z.add_0_r in Hv.
    by rewrite (uaddr_vpn (ram s) P srcva (PGROUNDDOWN srcva)), E by done. }
  destruct (copyinstr_chunk s P dst srcva max Hus Hbuf Hva Hpos E) as (m1 & j & got & Hrun & Hgot).
  set (n := if max <? _ then max else _) in *. rewrite (bind_Ret _ _ _ _ _ Hrun).
  destruct got; [exists 0, m1, (j + 1); by destruct Hgot|]. destruct Hgot as (-> & Hcp & Hnz).
  pose proof Hcp as (Hm1 & _ & Ho1).
  assert (Hb1 : kbuf kend s P dst n) by (rewrite <- (Z.add_0_r dst); eapply kbuf_sub; [exact Hbuf|lia|lia]).
  destruct (kbuf_write kend Hkend s P dst n m1 Hus Hb1 Hm1 Ho1) as (Hus1 & Hlk1 & Hum1).
  destruct (uaddr_page kend s P _ Hus H0 E) as (Ht & _). pose proof trapframe_maxva as HT.
  rewrite (u64_small (PGROUNDDOWN srcva + PGSIZE)) by (unfold MAXVA, PGSIZE in *; lia).
  destruct (IH (set_ram m1 s) (dst + n) (PGROUNDDOWN srcva + PGSIZE) (max - n)) as (r & m2 & k & Hrun2 & Hk & Hcp2 & Hr).
  - done.
  - apply kbuf_set; [done|]. eapply kbuf_sub; [exact Hbuf|lia|lia].
  - unfold PGSIZE. lia.
  - lia.
  - eapply rounds_step; [exact Hf|lia|lia|unfold PGSIZE in *; dlia|lia|lia].
  - exists r, m2, (n + k). split; [done|]. apply (string_in_app s P dst srcva max n k r (PGROUNDDOWN srcva + PGSIZE) m1 m2); try done; lia.
Qed.

End strings.

End Ucopy.
