(* ===== verification/Ucow.v ===== *)
(** Copy-on-write.

    Theorems on [cowalloc], [copyout] and [uvmcopy] of module [Uvm]: a page is
    made private before the kernel writes through it, so a write to one address
    space never shows in another one that shares page frames with it. *)

From S2P Require Import Prelude Mem Kstring Kalloc Pgtbl Uvm Ucopy.
Import Kstring Kalloc Pgtbl Uvm Ucopy.

Module Ucow.

(** ** Flags *)

Lemma has_bit x k : 0 <= k -> has x (2 ^ k) = Z.testbit x k.
Proof.
  intros Hk. unfold has. destruct (Z.testbit x k) eqn:E.
  - apply negb_true_iff, Z.eqb_neq. intros H.
    assert (Hb : Z.testbit (Z.land x (2 ^ k)) k = true) by (rewrite Z.land_spec, E, Z.pow2_bits_true; done).
    rewrite H, Z.bits_0 in Hb. done.
  - apply negb_false_iff, Z.eqb_eq. apply Z.bits_inj'. intros n Hn. rewrite Z.land_spec, Z.bits_0.
    destruct (decide (n = k)) as [->|Hne]; [by rewrite E|].
    rewrite Z.pow2_bits_false by done. apply andb_false_r.
Qed.

(** A flag is set, cleared or kept by [|] and [& ~]. *)
Lemma has_lor x y k : 0 <= k -> has (Z.lor x y) (2 ^ k) = has x (2 ^ k) || has y (2 ^ k).
Proof. intros Hk. rewrite !has_bit by done. apply Z.lor_spec. Qed.
Lemma has_clear x y k : 0 <= k -> has (Z.land x (Z.lnot y)) (2 ^ k) = has x (2 ^ k) && negb (has y (2 ^ k)).
Proof. intros Hk. rewrite !has_bit by done. rewrite Z.land_spec, Z.lnot_spec by done. done. Qed.

Lemma clear_flags f b : 0 <= f < 1024 -> 0 <= Z.land f (Z.lnot b) < 1024.
Proof. intros Hf. split; [apply Z.land_nonneg; lia|]. pose proof (land_le_l f (Z.lnot b)). lia. Qed.

Lemma mk_pte_lor p f b : Z.lor (mk_pte p f) b = mk_pte p (Z.lor f b).
Proof. unfold mk_pte. by rewrite Z.lor_assoc. Qed.

Lemma mk_pte_clear p f b : 0 <= b < 1024 -> Z.land (mk_pte p f) (Z.lnot b) = mk_pte p (Z.land f (Z.lnot b)).
Proof.
  intros Hb. unfold mk_pte. rewrite Z.land_lor_distr_l. f_equal. rewrite <- Z.ldiff_land.
  unfold PA2PTE. apply Z.bits_inj'. intros n Hn. rewrite Z.ldiff_spec.
  pose proof (land_low (Z.shiftr p 12) b 10 ltac:(lia) ltac:(lia)) as H.
  assert (Hbit : Z.testbit (Z.land (Z.shiftl (Z.shiftr p 12) 10) b) n = false) by (by rewrite H, Z.bits_0).
  rewrite Z.land_spec in Hbit. by destruct (Z.testbit (Z.shiftl _ _) n), (Z.testbit b n).
Qed.

Ltac flag_bits :=
  unfold PTE_V, PTE_R, PTE_W, PTE_X, PTE_U, PTE_F in *;
  change 1 with (2 ^ 0); change 4 with (2 ^ 2); change 16 with (2 ^ 4); change 256 with (2 ^ 8);
  rewrite ?has_clear, ?has_lor by lia.

(** The flags of a private writable page made from a copy-on-write one. *)
Definition unshare (f : Z) : Z := Z.land (Z.lor f PTE_W) (Z.lnot PTE_F).

Lemma unshare_range f : 0 <= f < 1024 -> 0 <= unshare f < 1024.
Proof. intros Hf. apply clear_flags, lor_flags; unfold PTE_W; lia. Qed.
Lemma unshare_has f k : 0 <= k ->
  has (unshare f) (2 ^ k) = (has f (2 ^ k) || has PTE_W (2 ^ k)) && negb (has PTE_F (2 ^ k)).
Proof. intros Hk. unfold unshare. by rewrite has_clear, has_lor. Qed.

(** [cowalloc] clears [PTE_V] before it maps the copy and [mappages] sets it
    again: the flags are the same as when the page is taken over in place. *)
Lemma unshare_remap f : has f PTE_V = true ->
  Z.lor (Z.land (Z.lor (Z.land f (Z.lnot PTE_V)) PTE_W) (Z.lnot PTE_F)) PTE_V = unshare f.
Proof.
  intros Hv. unfold PTE_V in Hv. change 1 with (2 ^ 0) in Hv. rewrite has_bit in Hv by lia.
  unfold unshare. apply Z.bits_inj'. intros n Hn. unfold PTE_V, PTE_W, PTE_F.
  rewrite !Z.lor_spec, !Z.land_spec, !Z.lor_spec, !Z.land_spec, !Z.lnot_spec by done.
  change 1 with (2 ^ 0). change 4 with (2 ^ 2). change 256 with (2 ^ 8).
  rewrite !Z.pow2_bits_eqb by lia. destruct (Z.eqb_spec 0 n) as [<-|H0].
  - rewrite Hv. done.
  - cbn [negb orb andb]. by rewrite andb_true_r, orb_false_r.
Qed.

(** ** Walking an existing path *)

Section walk_exists.
Context (kend : Z) (id : nat).
Hypothesis Hkend : kend_ok kend.
Implicit Types (s : kst) (P : pt).

Lemma walk_exists s P va a alloc :
  pt_inv kend (ram s) P -> 0 <= va < MAXVA -> pte_addr P va = Some a ->
  walk id (root P) va alloc s = Ret a s.
Proof using Hkend.
  intros Hpt Hva Ha. unfold walk. rewrite (proj2 (Z.leb_gt _ _)) by lia.
  destruct (pte_addr_page _ _ _ Ha) as (p0 & Hp0 & ->).
  destruct (pi_dom _ _ _ Hpt _ _ _ Hp0) as [p1 Hp1].
  rewrite (walk_levels_down kend id Hkend 2 va P s (root P) p1) by (done || by right). cbn [pred].
  by rewrite (walk_levels_down kend id Hkend 1 va P s p1 p0) by (done || by left).
Qed.

(** [mappages] of one page whose leaf table exists. *)
Lemma mappages_exists s P va a pa perm :
  pt_inv kend (ram s) P -> 0 <= va < MAXVA -> va mod PGSIZE = 0 -> pte_addr P va = Some a ->
  has (lk (ram s) P va) PTE_V = false ->
  mappages id (root P) va PGSIZE pa perm s =
    Ret 0 (set_ram (store64 (ram s) a (mk_pte pa (Z.lor perm PTE_V))) s).
Proof using Hkend.
  intros Hpt Hva Hm Ha Hv. unfold mappages.
  assert (E1 : PGROUNDDOWN va = va) by (rewrite PGROUNDDOWN_spec; lia).
  assert (E2 : PGROUNDDOWN (u64 (va + PGSIZE - 1)) = va).
  { rewrite u64_small by (unfold MAXVA, PGSIZE in *; lia). rewrite PGROUNDDOWN_spec. unfold PGSIZE in *. dlia. }
  rewrite E1, E2. unfold mappages_fuel. rewrite (proj2 (Z.leb_le va va)) by lia. cbn [mappages_loop].
  rewrite (bind_Ret _ _ _ _ _ (walk_exists s P va a true Hpt Hva Ha)).
  rewrite (proj2 (Z.eqb_neq a 0)) by (by eapply pte_addr_nonzero).
  rewrite (bind_Ret _ _ _ _ _ (rd_leaf kend Hkend s P va a Hpt Ha)), Hv.
  rewrite (bind_Ret _ _ _ _ _ (wr64_run a _ s (pte_addr_in_ram kend Hkend _ _ _ _ Hpt Ha))).
  rewrite Z.eqb_refl. unfold mk_pte. by rewrite Z.lor_assoc.
Qed.

Lemma cowpage_spec s P va :
  pt_inv kend (ram s) P -> 0 <= va < MAXVA ->
  cowpage id (root P) va s =
    Ret (if has (lk (ram s) P va) PTE_V && has (lk (ram s) P va) PTE_F then 0 else -1) s.
Proof using Hkend.
  intros Hpt Hva. unfold cowpage. rewrite (proj2 (Z.leb_gt _ _)) by lia.
  rewrite (bind_Ret _ _ _ _ _ (walk_ro kend id Hkend s P va Hpt Hva)).
  destruct (pte_addr P va) as [a|] eqn:Ea; simpl.
  - rewrite (proj2 (Z.eqb_neq a 0)) by (by eapply pte_addr_nonzero).
    rewrite (bind_Ret _ _ _ _ _ (rd_leaf kend Hkend s P va a Hpt Ea)).
    by destruct (has (lk (ram s) P va) PTE_V), (has (lk (ram s) P va) PTE_F).
  - unfold lk. by rewrite Ea.
Qed.

End walk_exists.

(** ** Making a page private *)

Section cow.
Context (kend : Z).
Hypothesis Hkend : kend_ok kend.
Implicit Types (s : kst) (P : pt).

(** [cowalloc] gave user page [va] the page frame [r]: same bytes, writable,
    one reference, and no byte of a page in use outside the table changed. *)
Record cowed s P va s' r : Prop := {
  cw_space : uspace kend s' P;
  cw_lk : forall va', 0 <= va' < MAXVA -> lk (ram s') P va' =
    if vpn va' =? vpn va then mk_pte r (unshare (PTE_FLAGS (lk (ram s) P va))) else lk (ram s) P va';
  cw_page : page_ok kend PHYSTOP r;
  cw_one : cnt s' (r / PGSIZE) = 1;
  cw_bytes : forall i, 0 <= i < PGSIZE -> ram s' (r + i) = ram s (PTE2PA (lk (ram s) P va) + i);
  cw_which : r = PTE2PA (lk (ram s) P va) /\ cnt s (r / PGSIZE) = 1 \/
    cnt s (r / PGSIZE) = 0 /\ 1 < cnt s (PTE2PA (lk (ram s) P va) / PGSIZE) /\
    cnt s' (PTE2PA (lk (ram s) P va) / PGSIZE) = cnt s (PTE2PA (lk (ram s) P va) / PGSIZE) - 1;
  cw_cnt : forall q, page_ok kend PHYSTOP q -> q <> PTE2PA (lk (ram s) P va) -> q <> r ->
    cnt s' (q / PGSIZE) = cnt s (q / PGSIZE);
  cw_ram : forall x, (forall q, page_ok kend PHYSTOP q -> q <= x < q + PGSIZE ->
    0 < cnt s (q / PGSIZE) /\ ~ is_node P q) -> ram s' x = ram s x }.

(** The bytes of a page in use outside the table, under a page-table step. *)
Lemma vstep_bytes s P s' P' p i :
  vstep kend s P s' P' -> page_ok kend PHYSTOP p -> 0 < cnt s (p / PGSIZE) -> ~ is_node P p ->
  0 <= i < PGSIZE -> ram s' (p + i) = ram s (p + i).
Proof using Type.
  intros Hst Hp Hc Hn Hi. eapply (frame_page kend (is_node P)); [apply framed_on, Hst|done|done|done|lia].
Qed.

(** The last reference: the page is taken over in place. *)
Lemma cow_in_place s P va a e2 :
  uspace kend s P -> va mod PGSIZE = 0 -> 0 <= va < TRAPFRAME -> pte_addr P va = Some a ->
  let e := lk (ram s) P va in
  has e PTE_V = true -> cnt s (PTE2PA e / PGSIZE) = 1 ->
  e2 = mk_pte (PTE2PA e) (unshare (PTE_FLAGS e)) ->
  let s1 := set_ram (store64 (ram s) a (Z.lor e PTE_W)) s in
  cowed s P va (set_ram (store64 (ram s1) a e2) s1) (PTE2PA e).
Proof using Hkend.
  intros Hus Hm Hva Ha e Hv Hc He2 s1. pose proof trapframe_maxva as Ht.
  destruct (us_leaf _ _ _ Hus va Hva Hv) as [Heta Hfl Hpg _ Hnode]. fold e in Heta, Hfl, Hpg, Hnode.
  pose proof (PTE_FLAGS_range e) as Hfr. pose proof (unshare_range _ Hfr) as Hur.
  pose proof (page_small kend Hkend _ Hpg) as Hps.
  pose proof (vstep_pte kend s P va a (Z.lor e PTE_W) (us_vm _ _ _ Hus) Ha) as Hst1. fold s1 in Hst1.
  pose proof (vstep_pte kend s1 P va a e2 (vs_inv _ _ _ _ _ Hst1) Ha) as Hst2.
  set (s2 := set_ram (store64 (ram s1) a e2) s1) in *.
  pose proof (vstep_trans kend s P s1 P s2 P (us_vm _ _ _ Hus) Hst1 Hst2) as Hst.
  assert (HvaM : 0 <= va < MAXVA) by (unfold PGSIZE in *; lia).
  assert (Hlk : forall va', 0 <= va' < MAXVA -> lk (ram s2) P va' = if vpn va' =? vpn va then e2 else lk (ram s) P va').
  { intros va' Hva'. change (ram s2) with (store64 (ram s1) a e2). destruct (vs_inv _ _ _ _ _ Hst1) as (_ & Hpt1 & _).
    rewrite (lk_store kend _ P va a e2 va' Hpt1) by (done || (rewrite He2; by apply mk_pte_range)).
    destruct (Z.eqb_spec (vpn va') (vpn va)); [done|]. destruct (us_vm _ _ _ Hus) as (_ & Hpt & _).
    change (ram s1) with (store64 (ram s) a (Z.lor e PTE_W)).
    rewrite (lk_store kend _ P va a _ va' Hpt); [by rewrite (proj2 (Z.eqb_neq _ _))|done|done|done|].
    rewrite <- Heta, mk_pte_lor. apply mk_pte_range; [done|]. apply lor_flags; [done|unfold PTE_W; lia]. }
  split; try done.
  - eapply (uspace_add kend s P s2 P va (PTE2PA e) (unshare (PTE_FLAGS e))); try done.
    + lia.
    + intros va' Hva' Hv' Hne E. by apply Hne, (us_inj _ _ _ Hus).
    + intros E. assert (Hw : has (unshare (PTE_FLAGS e)) PTE_W = true).
      { unfold unshare. flag_bits. by rewrite orb_true_r. }
      rewrite E in Hw. done.
    + intros va' Hva'. rewrite Hlk, He2 by done. pose proof (vpn_page va va' Hm) as Hvp.
      destruct (Z.eqb_spec (vpn va') (vpn va)) as [E|E].
      * apply Hvp in E. by rewrite (proj2 (Z.leb_le _ _)), (proj2 (Z.ltb_lt _ _)) by lia.
      * destruct (Z.leb_spec va va'), (Z.ltb_spec va' (va + PGSIZE)); cbn [andb]; try done. lia.
  - intros va' Hva'. rewrite Hlk by done. by rewrite He2.
  - intros i Hi. fold e. eapply vstep_bytes; [exact Hst|done|lia|done|done].
  - by left.
  - intros x Hx. apply (fr_ram _ _ _ _ (vs_fr _ _ _ _ _ Hst)). intros q Hq Hxq.
    destruct (Hx q Hq Hxq) as [? Hn]. split; [done|]. intros n E. apply Hn. by exists n.
Qed.

(** A shared page: the copy [r] is mapped in its place. [s2] is the state with
    the filled copy, [s3] the one with [PTE_V] cleared, [s4] the one with the
    copy mapped. *)
Lemma cow_remap P va a r s2 :
  uspace kend s2 P -> va mod PGSIZE = 0 -> 0 <= va < TRAPFRAME -> pte_addr P va = Some a ->
  let e := lk (ram s2) P va in
  let f := unshare (PTE_FLAGS e) in
  has e PTE_V = true -> page_ok kend PHYSTOP r -> 0 < cnt s2 (r / PGSIZE) -> ~ is_node P r ->
  (forall va', 0 <= va' < TRAPFRAME -> has (lk (ram s2) P va') PTE_V = true -> PTE2PA (lk (ram s2) P va') <> r) ->
  let s3 := set_ram (store64 (ram s2) a (Z.land e (Z.lnot PTE_V))) s2 in
  let s4 := set_ram (store64 (ram s3) a (mk_pte r f)) s3 in
  lk (ram s3) P va = Z.land e (Z.lnot PTE_V) /\
  pt_inv kend (ram s3) P /\ vstep kend s2 P s4 P /\ uspace kend s4 P /\
  forall va', 0 <= va' < MAXVA -> lk (ram s4) P va' = if vpn va' =? vpn va then mk_pte r f else lk (ram s2) P va'.
Proof using Hkend.
  intros Hus Hm Hva Ha e f Hv Hr Hc Hnode Hneq s3 s4. pose proof trapframe_maxva as Ht.
  destruct (us_leaf _ _ _ Hus va Hva Hv) as [Heta Hfl Hpg _ _]. fold e in Heta, Hfl, Hpg.
  pose proof (PTE_FLAGS_range e) as Hfr. pose proof (unshare_range _ Hfr) as Hur.
  pose proof (page_small kend Hkend _ Hr) as Hrs. pose proof (page_small kend Hkend _ Hpg) as Hps.
  assert (HvaM : 0 <= va < MAXVA) by (unfold PGSIZE in *; lia).
  assert (He3 : 0 <= Z.land e (Z.lnot PTE_V) < 2 ^ 64).
  { rewrite <- Heta, mk_pte_clear by (unfold PTE_V; lia). apply mk_pte_range; [done|by apply clear_flags]. }
  pose proof (us_vm _ _ _ Hus) as (_ & Hpt2 & _).
  pose proof (vstep_pte kend s2 P va a (Z.land e (Z.lnot PTE_V)) (us_vm _ _ _ Hus) Ha) as Hst3. fold s3 in Hst3.
  pose proof (vs_inv _ _ _ _ _ Hst3) as (_ & Hpt3 & _).
  pose proof (vstep_pte kend s3 P va a (mk_pte r f) (vs_inv _ _ _ _ _ Hst3) Ha) as Hst4. fold s4 in Hst4.
  pose proof (vstep_trans kend s2 P s3 P s4 P (us_vm _ _ _ Hus) Hst3 Hst4) as Hst.
  assert (Hlk : forall va', 0 <= va' < MAXVA -> lk (ram s4) P va' = if vpn va' =? vpn va then mk_pte r f else lk (ram s2) P va').
  { intros va' Hva'. change (ram s4) with (store64 (ram s3) a (mk_pte r f)).
    rewrite (lk_store kend _ P va a _ va' Hpt3) by (done || by apply mk_pte_range).
    destruct (Z.eqb_spec (vpn va') (vpn va)); [done|].
    change (ram s3) with (store64 (ram s2) a (Z.land e (Z.lnot PTE_V))).
    rewrite (lk_store kend _ P va a _ va' Hpt2) by done. by rewrite (proj2 (Z.eqb_neq _ _)). }
  split_and!; try done.
  - change (ram s3) with (store64 (ram s2) a (Z.land e (Z.lnot PTE_V))).
    rewrite (lk_store kend _ P va a _ va Hpt2) by done. by rewrite Z.eqb_refl.
  - eapply (uspace_add kend s2 P s4 P va r f); try done.
    + intros va' Hva' Hv' _. by apply Hneq.
    + intros E. assert (Hw : has f PTE_W = true) by (unfold f, unshare; flag_bits; by rewrite orb_true_r).
      rewrite E in Hw. done.
    + intros va' Hva'. rewrite Hlk by done. pose proof (vpn_page va va' Hm) as Hvp.
      destruct (Z.eqb_spec (vpn va') (vpn va)) as [E|E].
      * apply Hvp in E. by rewrite (proj2 (Z.leb_le _ _)), (proj2 (Z.ltb_lt _ _)) by lia.
      * destruct (Z.leb_spec va va'), (Z.ltb_spec va' (va + PGSIZE)); cbn [andb]; try done. lia.
Qed.

(** Changing the count of a page in use to another positive one. *)
Lemma uspace_setcnt s P pa v :
  uspace kend s P -> page_ok kend PHYSTOP pa -> 0 < cnt s (pa / PGSIZE) -> 0 < v < 2 ^ 31 ->
  uspace kend (set_cnt (pa / PGSIZE) v s) P.
Proof using Hkend.
  intros Hus Hpa Hc Hv. pose proof (us_vm _ _ _ Hus) as ([ls Hls] & _).
  set (s' := set_cnt _ _ s).
  assert (Hcq : forall q, page_ok kend PHYSTOP q -> q <> pa -> cnt s' (q / PGSIZE) = cnt s (q / PGSIZE)).
  { intros q Hq Hne. apply (cnt_set_ne kend PHYSTOP); (done || congruence). }
  assert (Hc1 : cnt s' (pa / PGSIZE) = v) by apply cnt_set_eq.
  destruct Hus as [(_ & Hpt & Huse) Hleaf Hinj Hhigh].
  split; [split_and!; [|done|]|..]; try done.
  - exists ls. eapply inv_set_cnt; try done. rewrite (ai_free _ _ _ _ Hls) by done. lia.
  - intros n p Hp. destruct (decide (p = pa)) as [->|Hne]; [lia|].
    rewrite Hcq; [by eapply Huse|by eapply pi_page|done].
  - intros va Hva Hv'. destruct (Hleaf va Hva Hv') as [K1 K2 K3 K4 K5]. split; try done.
    change (ram s') with (ram s). destruct (decide (PTE2PA (lk (ram s) P va) = pa)) as [->|Hne]; [lia|].
    by rewrite Hcq.
Qed.

Lemma cow_copied s P va a r s1 :
  uspace kend s P -> va mod PGSIZE = 0 -> 0 <= va < TRAPFRAME -> pte_addr P va = Some a ->
  let e := lk (ram s) P va in
  let pa := PTE2PA e in
  has e PTE_V = true -> 1 < cnt s (pa / PGSIZE) -> fresh_page kend s r s1 ->
  let s2 := set_ram (memmove (ram s1) r pa PGSIZE) s1 in
  let s3 := set_ram (store64 (ram s2) a (Z.land e (Z.lnot PTE_V))) s2 in
  let s4 := set_ram (store64 (ram s3) a (mk_pte r (unshare (PTE_FLAGS e)))) s3 in
  let s5 := set_cnt (pa / PGSIZE) (cnt s (pa / PGSIZE) - 1) s4 in
  uspace kend s2 P /\ lk (ram s2) P va = e /\
  lk (ram s3) P va = Z.land e (Z.lnot PTE_V) /\ pt_inv kend (ram s3) P /\
  cnt s4 (pa / PGSIZE) = cnt s (pa / PGSIZE) /\ cowed s P va s5 r.
Proof using Hkend.
  intros Hus Hm Hva Ha e pa Hv Hc Hfp s2 s3 s4 s5.
  destruct (us_leaf _ _ _ Hus va Hva Hv) as [Heta _ Hpg _ Hnode]. fold e pa in Heta, Hpg, Hnode.
  pose proof Hfp as [Hr Hfree Hcnt Hram1 [ls1 Hls1]].
  assert (Hdis : r <> pa) by (intros ->; lia).
  assert (Hmv : forall x, memmove (ram s1) r pa PGSIZE x =
    if (r <=? x) && (x <? r + PGSIZE) then ram s1 (pa + (x - r)) else ram s1 x).
  { intros x. apply memmove_spec; [apply Hls1|unfold PGSIZE; lia]. }
  destruct (fresh_written kend Hkend s P r s1 (memmove (ram s1) r pa PGSIZE) Hus Hfp)
    as (Hus2 & Hlk2 & Hc2 & Hn2 & Hne2 & Hfr2).
  { apply memmove_ok; [apply Hls1|unfold PGSIZE; lia]. }
  { intros x Hx. rewrite Hmv. destruct (Z.leb_spec r x), (Z.ltb_spec x (r + PGSIZE)); cbn [andb]; (lia || done). }
  fold s2 in Hus2, Hlk2, Hc2, Hfr2.
  pose proof (cow_remap P va a r s2 Hus2 Hm Hva Ha) as Hre. rewrite (Hlk2 va) in Hre.
  destruct Hre as (Hl3 & Hpt3 & Hst & Hus4 & Hlk4); [done|done|lia|done|by intros va' Hva'; rewrite Hlk2; apply Hne2|].
  fold e s3 s4 in Hl3, Hpt3, Hst, Hus4, Hlk4.
  assert (Hcpa : cnt s4 (pa / PGSIZE) = cnt s (pa / PGSIZE)).
  { change (cnt s4) with (cnt s2). apply (fo_cnt _ _ _ _ Hfr2); [done|lia|tauto]. }
  assert (Hcr : forall q, page_ok kend PHYSTOP q -> q <> pa -> cnt s5 (q / PGSIZE) = cnt s1 (q / PGSIZE)).
  { intros q Hq Hne. change (cnt s1) with (cnt s4). apply (cnt_set_ne kend PHYSTOP); (done || congruence). }
  split_and!; [done|apply Hlk2|done|done|done|]. split; try done.
  - apply uspace_setcnt; [done|done|lia|].
    pose proof (us_vm _ _ _ Hus) as ([ls Hls] & _). pose proof (ai_cnt _ _ _ _ Hls pa Hpg). lia.
  - intros va' Hva'. change (ram s5) with (ram s4). rewrite Hlk4 by done. by rewrite Hlk2.
  - rewrite Hcr by done. exact Hc2.
  - intros i Hi. change (ram s5) with (ram s4). rewrite (vstep_bytes s2 P s4 P r i Hst) by (done || lia).
    change (ram s2) with (memmove (ram s1) r pa PGSIZE). rewrite Hmv.
    rewrite (proj2 (Z.leb_le _ _)), (proj2 (Z.ltb_lt _ _)) by lia. cbn [andb].
    replace (pa + (r + i - r)) with (pa + i) by lia. fold e pa. apply Hram1.
    destruct (page_disjoint r pa); [apply Hr|apply Hpg|done|lia|lia].
  - right. fold e pa. split_and!; [done|done|]. apply cnt_set_eq.
  - intros q Hq Hn Hnr. rewrite Hcr by done. rewrite Hcnt. apply (cnt_set_ne kend PHYSTOP); (done || congruence).
  - intros x Hx. change (ram s5) with (ram s4).
    rewrite (fr_ram _ _ _ _ (vs_fr _ _ _ _ _ Hst)).
    + apply (fo_ram _ _ _ _ Hfr2). intros q Hq Hxq. destruct (Hx q Hq Hxq). tauto.
    + intros q Hq Hxq. destruct (Hx q Hq Hxq) as [H1 H2].
      rewrite (fo_cnt _ _ _ _ Hfr2) by (done || tauto). split; [done|]. intros n E. apply H2. by exists n.
Qed.

Lemma cowalloc_spec id s P va :
  (id < NCPU)%nat -> uspace kend s P -> va mod PGSIZE = 0 -> 0 <= va < TRAPFRAME ->
  has (lk (ram s) P va) PTE_V = true -> has (lk (ram s) P va) PTE_U = true ->
  exists r s', cowalloc kend id (root P) va s = Ret r s' /\
    ((r = 0 /\ s' = s /\ forall p, page_ok kend PHYSTOP p -> 0 < cnt s (p / PGSIZE)) \/
     (r <> 0 /\ cowed s P va s' r)).
Proof using Hkend.
  intros Hid Hus Hm Hva Hv Hu. pose proof trapframe_maxva as Ht.
  assert (HvaM : 0 <= va < MAXVA) by (unfold PGSIZE in *; lia).
  pose proof (us_vm _ _ _ Hus) as ([ls Hls] & Hpt & _).
  destruct (us_leaf _ _ _ Hus va Hva Hv) as [Heta Hfl Hpg Hcp Hnode].
  destruct (pte_addr P va) as [a|] eqn:Ea; [|unfold lk in Hv; by rewrite Ea in Hv].
  pose proof (pte_addr_in_ram kend Hkend _ _ _ _ Hpt Ea) as Hram.
  set (e := lk (ram s) P va) in *. set (pa := PTE2PA e) in *.
  pose proof (PTE_FLAGS_range e) as Hfr. pose proof (page_small kend Hkend _ Hpg) as Hps.
  unfold cowalloc. rewrite Hm. cbn [negb Z.eqb].
  rewrite (bind_Ret _ _ _ _ _ (walkaddr_spec kend Hkend id s P va Hpt (proj1 Hva))).
  assert (uaddr (ram s) P va = pa) as ->.
  { unfold uaddr. fold e. by rewrite Hv, Hu, (proj2 (Z.ltb_lt va MAXVA)) by lia. }
  rewrite (proj2 (Z.eqb_neq pa 0)) by (by eapply page_nonzero).
  rewrite (bind_Ret _ _ _ _ _ (walk_exists kend id Hkend s P va a false Hpt HvaM Ea)).
  rewrite (bind_Ret _ _ _ _ _ (get_ref_run kend PHYSTOP pa s Hkend (Z.le_refl _) Hpg : krefcnt pa s = _)).
  destruct (Z.eqb_spec (cnt s (pa / PGSIZE)) 1) as [E1|E1].
  - rewrite (bind_Ret _ _ _ _ _ (rd_leaf kend Hkend s P va a Hpt Ea)).
    rewrite (bind_Ret _ _ _ _ _ (wr64_run a _ s Hram)). fold e.
    pose proof (vstep_pte kend s P va a (Z.lor e PTE_W) (us_vm _ _ _ Hus) Ea) as Hst1.
    rewrite (bind_Ret _ _ _ _ _ (rd_leaf kend Hkend _ P va a (proj1 (proj2 (vs_inv _ _ _ _ _ Hst1))) Ea)).
    rewrite (bind_Ret _ _ _ _ _ (wr64_run a _ _ Hram)).
    eexists pa, _. split; [reflexivity|]. right. split; [by eapply page_nonzero|].
    eapply cow_in_place; try done. cbn [ram set_ram].
    rewrite (lk_store kend _ P va a _ va Hpt HvaM HvaM Ea), Z.eqb_refl.
    + rewrite <- Heta at 1. rewrite mk_pte_lor, mk_pte_clear by (unfold PTE_F; lia). done.
    + rewrite <- Heta, mk_pte_lor. apply mk_pte_range; [done|]. apply lor_flags; [done|unfold PTE_W; lia].
  - destruct (kalloc_any kend s ls id Hkend Hls Hid) as (r & s1 & Hk & [(-> & -> & Hfull)|(Hnz & Hfp)]);
      rewrite (bind_Ret _ _ _ _ _ Hk); [by exists 0, s; split; [|left]|].
    rewrite (proj2 (Z.eqb_neq r 0)) by done.
    destruct (cow_copied s P va a r s1 Hus Hm Hva Ea Hv ltac:(fold e pa; lia) Hfp)
      as (Hus2 & Hl2 & Hl3 & Hpt3 & Hc4 & Hcw). fold e pa in Hus2, Hl2, Hl3, Hpt3, Hc4, Hcw.
    assert (Hr0 : forall p, page_ok kend PHYSTOP p -> in_ram p PGSIZE = true).
    { intros p Hp. rewrite <- (Z.add_0_r p). eapply in_ram_page; [done|done|lia|unfold PGSIZE; lia]. }
    rewrite (bind_Ret _ _ _ _ _ (kmemmove_run r pa PGSIZE s1 (Hr0 r (fp_page _ _ _ _ Hfp)) (Hr0 pa Hpg))).
    set (s2 := set_ram (memmove _ _ _ _) s1) in *. pose proof (us_vm _ _ _ Hus2) as (_ & Hpt2 & _).
    rewrite (bind_Ret _ _ _ _ _ (rd_leaf kend Hkend s2 P va a Hpt2 Ea)), Hl2.
    rewrite (bind_Ret _ _ _ _ _ (wr64_run a _ s2 Hram)). set (s3 := set_ram _ s2) in *.
    rewrite (bind_Ret _ _ _ _ _ (rd_leaf kend Hkend s3 P va a Hpt3 Ea)), Hl3.
    assert (Hf3 : PTE_FLAGS (Z.land e (Z.lnot PTE_V)) = Z.land (PTE_FLAGS e) (Z.lnot PTE_V)).
    { rewrite <- Heta at 1. rewrite mk_pte_clear by (unfold PTE_V; lia).
      apply mk_pte_flags; [lia|by apply clear_flags]. }
    erewrite bind_Ret; [|apply (mappages_exists kend id Hkend s3 P va a r _ Hpt3 HvaM Hm Ea)].
    2:{ rewrite Hl3. flag_bits. by rewrite andb_false_r. }
    cbn [negb Z.eqb]. rewrite Hf3, unshare_remap by (by rewrite PTE_FLAGS_has by (unfold PTE_V; lia)).
    set (s4 := set_ram _ s3) in *.
    assert (PGROUNDDOWN pa = pa) as -> by (rewrite PGROUNDDOWN_spec; pose proof (proj1 Hpg); lia).
    assert (1 < cnt s4 (pa / PGSIZE) < 2 ^ 31).
    { rewrite Hc4. pose proof (ai_cnt _ _ _ _ Hls pa Hpg). lia. }
    rewrite (bind_Ret _ _ _ _ _ (kfree_shared_run kend PHYSTOP Hkend (Z.le_refl _) s4 id pa Hpg ltac:(lia))).
    eexists r, _. split; [reflexivity|]. right. split; [done|]. by rewrite Hc4.
Qed.

End cow.

(** ** Writing through the page table *)

(** A page the kernel must not change when it writes to address space [P]: in
    use, not part of the page table, and not mapped by [P] unless shared. *)
Definition protected (kend : Z) (s : kst) (P : pt) (q : Z) : Prop :=
  0 < cnt s (q / PGSIZE) /\ ~ is_node P q /\
  (~ maps (ram s) P 0 TRAPFRAME q \/ 1 < cnt s (q / PGSIZE)).

(** The protected pages stay protected and keep their contents, and memory that
    is in no page frame (the kernel's own data) does not change. No page in use
    is freed or gets another reference, and [P] moves to fresh pages only. *)
Record keeps (kend : Z) (s : kst) (P : pt) (s' : kst) : Prop := {
  kp_page : forall q, page_ok kend PHYSTOP q -> protected kend s P q -> protected kend s' P q;
  kp_ram : forall x, (forall q, page_ok kend PHYSTOP q -> q <= x < q + PGSIZE -> protected kend s P q) ->
    ram s' x = ram s x;
  kp_cnt : forall q, page_ok kend PHYSTOP q -> 0 < cnt s (q / PGSIZE) -> 0 < cnt s' (q / PGSIZE) <= cnt s (q / PGSIZE);
  kp_own : forall q va, page_ok kend PHYSTOP q -> 0 <= va < TRAPFRAME -> upage (ram s') P va = Some q ->
    0 < cnt s (q / PGSIZE) -> upage (ram s) P va = Some q /\ cnt s' (q / PGSIZE) = cnt s (q / PGSIZE) }.

Lemma keeps_refl kend s P : keeps kend s P s.
Proof. split; (done || lia). Qed.

Lemma keeps_trans kend s P s1 s2 : keeps kend s P s1 -> keeps kend s1 P s2 -> keeps kend s P s2.
Proof.
  intros [P1 R1 C1 O1] [P2 R2 C2 O2]. split; [auto|..].
  - intros x Hx. rewrite R2, R1; [done|done|]. intros q Hq Hxq. auto.
  - intros q Hq Hc. specialize (C1 q Hq Hc). specialize (C2 q Hq). lia.
  - intros q va Hq Hva E Hc. pose proof (C1 q Hq Hc). destruct (O2 q va Hq Hva E) as [E1 ->]; [lia|]. by apply O1.
Qed.

(** Copy-on-write discipline: a user page with more than one reference is
    marked [PTE_F]. *)
Definition cow_ok (s : kst) (P : pt) : Prop :=
  forall va, 0 <= va < TRAPFRAME -> has (lk (ram s) P va) PTE_V = true ->
    1 < cnt s (PTE2PA (lk (ram s) P va) / PGSIZE) -> has (lk (ram s) P va) PTE_F = true.

Section copyout.
Context (kend : Z).
Hypothesis Hkend : kend_ok kend.
Implicit Types (s : kst) (P : pt).

Lemma maps_lk s P q va :
  0 <= va < TRAPFRAME -> has (lk (ram s) P va) PTE_V = true -> PTE2PA (lk (ram s) P va) = q ->
  maps (ram s) P 0 TRAPFRAME q.
Proof using Type. intros Hva Hv <-. exists va. split; [done|]. unfold upage. by rewrite Hv. Qed.

Lemma maps_inv s P q :
  maps (ram s) P 0 TRAPFRAME q ->
  exists va, 0 <= va < TRAPFRAME /\ has (lk (ram s) P va) PTE_V = true /\ PTE2PA (lk (ram s) P va) = q.
Proof using Type.
  intros (va & Hva & E). unfold upage in E. destruct (has (lk (ram s) P va) PTE_V) eqn:Hv; [|done].
  injection E as <-. by exists va.
Qed.

Lemma cowed_keeps s P va s' r :
  uspace kend s P -> 0 <= va < TRAPFRAME -> has (lk (ram s) P va) PTE_V = true ->
  cowed kend s P va s' r -> PTE2PA (mk_pte r (unshare (PTE_FLAGS (lk (ram s) P va)))) = r ->
  (forall va', 0 <= va' < TRAPFRAME -> has (lk (ram s) P va') PTE_V = true -> vpn va' <> vpn va ->
    PTE2PA (lk (ram s) P va') <> PTE2PA (lk (ram s) P va)) ->
  keeps kend s P s'.
Proof using Hkend.
  intros Hus Hva Hv [Hsp Hlk Hpg Hone Hby Hwh Hcnt Hram] HP Hother. pose proof trapframe_maxva as Ht.
  set (e := lk (ram s) P va) in *. set (pa := PTE2PA e) in *.
  assert (Hmap : maps (ram s) P 0 TRAPFRAME pa) by (by eapply maps_lk).
  split.
  - intros q Hq (Hc & Hn & Hcase). split_and!; [|done|].
    + destruct (decide (q = r)) as [->|Hqr]; [lia|]. destruct (decide (q = pa)) as [->|Hqp]; [|by rewrite Hcnt].
      destruct Hwh as [[? _]|(_ & H1 & ->)]; [congruence|lia].
    + destruct (decide (q = pa)) as [->|Hqp].
      * left. destruct Hwh as [[-> Hc1]|(Hz & H1 & H2)].
        -- destruct Hcase as [|H1]; [done|lia].
        -- intros (va' & Hva' & Hv' & E)%maps_inv. rewrite Hlk in Hv', E by (unfold PGSIZE in *; lia).
           destruct (Z.eqb_spec (vpn va') (vpn va)) as [|Hne]; [|by apply (Hother va' Hva' Hv')].
           rewrite HP in E. subst r. lia.
      * destruct Hcase as [Hno|H1].
        -- left. intros (va' & Hva' & Hv' & E)%maps_inv. rewrite Hlk in Hv', E by (unfold PGSIZE in *; lia).
           destruct (Z.eqb_spec (vpn va') (vpn va)) as [|Hne]; [|by apply Hno; eapply maps_lk].
           rewrite HP in E. subst r. destruct Hwh as [[? _]|(Hz & _)]; [congruence|lia].
        -- right. destruct (decide (q = r)) as [->|Hqr]; [destruct Hwh as [[? _]|(Hz & _)]; [congruence|lia]|].
           by rewrite Hcnt.
  - intros x Hx. apply Hram. intros q Hq Hxq. by destruct (Hx q Hq Hxq) as (? & ? & _).
  - intros q Hq Hc. destruct (decide (q = pa)) as [->|Hqp].
    + destruct Hwh as [[<- Hc1]|(_ & H1 & ->)]; lia.
    + destruct (decide (q = r)) as [->|Hqr]; [destruct Hwh as [[? _]|(Hz & _)]; [congruence|lia]|].
      rewrite Hcnt by done. lia.
  - intros q va' Hq Hva' E Hc. unfold upage in *. rewrite Hlk in E by (unfold PGSIZE in *; lia).
    destruct (Z.eqb_spec (vpn va') (vpn va)) as [Ev|Hne].
    + destruct (has (mk_pte r _) PTE_V); [|done]. rewrite HP in E. injection E as <-.
      destruct Hwh as [[-> Hc1]|(Hz & _)]; [|lia].
      rewrite (lk_vpn (ram s) P va' va) by (done || (unfold PGSIZE in *; lia)). fold e. rewrite Hv. fold pa. by rewrite Hone, Hc1.
    + split; [done|]. destruct (has (lk (ram s) P va') PTE_V) eqn:Hv'; [|done]. injection E as <-.
      apply Hcnt; [done|by apply Hother|]. intros Er. destruct Hwh as [[Epa _]|(Hz & _)].
      * apply (Hother va' Hva' Hv' Hne). by rewrite Er.
      * rewrite Er in Hc. lia.
Qed.

(** Everything the user and other address spaces can observe is the same after
    a page was made private. *)
Lemma cowed_effect s P va s' r :
  uspace kend s P -> va mod PGSIZE = 0 -> 0 <= va < TRAPFRAME ->
  has (lk (ram s) P va) PTE_V = true -> has (lk (ram s) P va) PTE_U = true ->
  cowed kend s P va s' r -> cow_ok s P ->
  cow_ok s' P /\ keeps kend s P s' /\ uaddr (ram s') P va = r /\
  forall va', 0 <= va' -> umem (ram s') P va' = umem (ram s) P va'.
Proof using Hkend.
  intros Hus Hm Hva Hv Hu [Hsp Hlk Hpg Hone Hby Hwh Hcnt Hram] Hcow. pose proof trapframe_maxva as Ht.
  set (e := lk (ram s) P va) in *. set (pa := PTE2PA e) in *.
  destruct (us_leaf _ _ _ Hus va Hva Hv) as [Heta Hfl Hpp Hcp Hnode]. fold e pa in Heta, Hfl, Hpp, Hcp, Hnode.
  pose proof (PTE_FLAGS_range e) as Hfr. pose proof (unshare_range _ Hfr) as Hur.
  pose proof (page_small kend Hkend _ Hpg) as Hps.
  assert (HvaM : 0 <= va < MAXVA) by (unfold PGSIZE in *; lia).
  assert (Hf : forall k, 0 <= k < 10 -> has (mk_pte r (unshare (PTE_FLAGS e))) (2 ^ k) = has (unshare (PTE_FLAGS e)) (2 ^ k)).
  { intros k Hk. apply mk_pte_has; [lia|]. pose proof (Z.pow_lt_mono_r 2 k 10). pose proof (Z.pow_pos_nonneg 2 k). lia. }
  assert (HV : has (mk_pte r (unshare (PTE_FLAGS e))) PTE_V = true).
  { unfold PTE_V. change 1 with (2 ^ 0). rewrite Hf, unshare_has by lia.
    change (2 ^ 0) with PTE_V. by rewrite PTE_FLAGS_has, Hv by (unfold PTE_V; lia). }
  assert (HU : has (mk_pte r (unshare (PTE_FLAGS e))) PTE_U = true).
  { unfold PTE_U. change 16 with (2 ^ 4). rewrite Hf, unshare_has by lia.
    change (2 ^ 4) with PTE_U. by rewrite PTE_FLAGS_has, Hu by (unfold PTE_U; lia). }
  assert (HP : PTE2PA (mk_pte r (unshare (PTE_FLAGS e))) = r) by (apply mk_pte_pa; [apply Hpg|done|done]).
  assert (Hcase : forall va', 0 <= va' < TRAPFRAME ->
    vpn va' = vpn va /\ lk (ram s') P va' = mk_pte r (unshare (PTE_FLAGS e)) \/
    vpn va' <> vpn va /\ lk (ram s') P va' = lk (ram s) P va').
  { intros va' Hva'. rewrite Hlk by (unfold PGSIZE in *; lia).
    destruct (Z.eqb_spec (vpn va') (vpn va)); [left|right]; done. }
  (* the old page is not mapped any more once it was replaced *)
  assert (Hother : forall va', 0 <= va' < TRAPFRAME -> has (lk (ram s) P va') PTE_V = true -> vpn va' <> vpn va ->
    PTE2PA (lk (ram s) P va') <> pa /\ PTE2PA (lk (ram s) P va') <> r).
  { intros va' Hva' Hv' Hne. assert (Hn : PTE2PA (lk (ram s) P va') <> pa) by (intros E; by apply Hne, (us_inj _ _ _ Hus)).
    split; [done|]. destruct Hwh as [[-> _]|(Hz & _)]; [done|]. intros E.
    pose proof (lf_cnt _ _ _ _ (us_leaf _ _ _ Hus va' Hva' Hv')). rewrite E in *. lia. }
  split_and!.
  - intros va' Hva' Hv' Hc. destruct (Hcase va' Hva') as [[_ E]|[Hne E]]; rewrite E in *.
    + rewrite HP, Hone in Hc. lia.
    + destruct (Hother va' Hva' Hv' Hne) as [H1 H2].
      rewrite Hcnt in Hc; [by apply Hcow|by apply (us_leaf _ _ _ Hus)|done|done].
  - apply (cowed_keeps s P va s' r); try done. intros va' Hva' Hv' Hne. by apply Hother.
  - unfold uaddr. rewrite Hlk, Z.eqb_refl by done. by rewrite HV, HU, HP, (proj2 (Z.ltb_lt va MAXVA)) by lia.
  - intros va' Hva'. unfold umem. destruct (Z.ltb_spec va' MAXVA) as [HM|]; [|done]. rewrite Hlk by lia.
    pose proof (Z.mod_pos_bound va' PGSIZE ltac:(unfold PGSIZE; lia)) as Hmod.
    destruct (Z.eqb_spec (vpn va') (vpn va)) as [E|Hne].
    + rewrite HV, HU, HP. rewrite (lk_vpn (ram s) P va' va) by (done || lia). fold e. rewrite Hv, Hu. cbn [andb].
      f_equal. by apply Hby.
    + destruct (has (lk (ram s) P va') PTE_V) eqn:Hv', (has (lk (ram s) P va') PTE_U) eqn:Hu'; cbn [andb]; try done.
      assert (Hva'' : 0 <= va' < TRAPFRAME).
      { destruct (Z.lt_ge_cases va' TRAPFRAME); [lia|]. rewrite (us_high _ _ _ Hus) in Hu' by (done || lia). done. }
      f_equal. apply Hram. destruct (us_leaf _ _ _ Hus va' Hva'' Hv') as [_ _ K3 K4 K5].
      intros q Hq Hxq. assert (q = PTE2PA (lk (ram s) P va')) as ->; [|done].
      destruct (decide (q = PTE2PA (lk (ram s) P va'))) as [|Hqn]; [done|].
      destruct (page_disjoint q (PTE2PA (lk (ram s) P va'))); [apply Hq|apply K3|done|lia|lia].
Qed.

(** The page frame [copyout] writes to: none, or a private one. *)
Definition copyout_page id P va0 : M kst Z :=
  let* pa0 := walkaddr id (root P) va0 in
  let* c := cowpage id (root P) va0 in
  if c =? 0 then cowalloc kend id (root P) va0 else ret pa0.

Lemma copyout_page_spec id s P va0 :
  (id < NCPU)%nat -> uspace kend s P -> cow_ok s P -> va0 mod PGSIZE = 0 -> 0 <= va0 ->
  exists p s', copyout_page id P va0 s = Ret p s' /\
    ((p = 0 /\ s' = s /\ (uaddr (ram s) P va0 = 0 \/ forall p, page_ok kend PHYSTOP p -> 0 < cnt s (p / PGSIZE))) \/
     (p <> 0 /\ va0 < TRAPFRAME /\ uspace kend s' P /\ cow_ok s' P /\ keeps kend s P s' /\
      uaddr (ram s') P va0 = p /\ cnt s' (p / PGSIZE) = 1 /\
      forall va', 0 <= va' -> umem (ram s') P va' = umem (ram s) P va')).
Proof using Hkend.
  intros Hid Hus Hcow Hm Hva. pose proof (us_vm _ _ _ Hus) as (_ & Hpt & _). pose proof trapframe_maxva as Ht.
  unfold copyout_page. rewrite (bind_Ret _ _ _ _ _ (walkaddr_spec kend Hkend id s P va0 Hpt Hva)).
  destruct (decide (uaddr (ram s) P va0 = 0)) as [Ez|Enz].
  { exists 0, s. split; [|left; split_and!; [done|done|by left]]. rewrite Ez.
    destruct (Z.lt_ge_cases va0 MAXVA) as [HM|HM].
    - rewrite (bind_Ret _ _ _ _ _ (cowpage_spec kend id Hkend s P va0 Hpt ltac:(lia))).
      destruct (has (lk (ram s) P va0) PTE_V && has (lk (ram s) P va0) PTE_F); [|done]. cbn [Z.eqb].
      unfold cowalloc. rewrite Hm. cbn [negb Z.eqb].
      rewrite (bind_Ret _ _ _ _ _ (walkaddr_spec kend Hkend id s P va0 Hpt Hva)). by rewrite Ez.
    - unfold cowpage. rewrite (proj2 (Z.leb_le _ _)) by lia. done. }
  destruct (uaddr_page kend s P va0 Hus Hva Enz) as (HT & Hv & Hu & Hua & Hl).
  rewrite (bind_Ret _ _ _ _ _ (cowpage_spec kend id Hkend s P va0 Hpt ltac:(unfold PGSIZE in *; lia))).
  rewrite Hv. cbn [andb]. destruct (has (lk (ram s) P va0) PTE_F) eqn:HF; cbn [Z.eqb].
  - destruct (cowalloc_spec kend Hkend id s P va0 Hid Hus Hm ltac:(lia) Hv Hu)
      as (r & s' & Hrun & [(-> & -> & Hfull)|(Hnz & Hcw)]).
    + exists 0, s. split; [done|left]. split_and!; [done|done|by right].
    + exists r, s'. split; [done|right].
      destruct (cowed_effect s P va0 s' r Hus Hm ltac:(lia) Hv Hu Hcw Hcow) as (H1 & H2 & H3 & H4).
      split_and!; try done; apply Hcw.
  - exists (uaddr (ram s) P va0), s. split; [done|right].
    split_and!; try done; try apply keeps_refl. rewrite Hua.
    destruct (decide (cnt s (PTE2PA (lk (ram s) P va0) / PGSIZE) = 1)) as [|Hne]; [done|].
    rewrite Hcow in HF; [done|lia|done|]. pose proof (lf_cnt _ _ _ _ Hl). lia.
Qed.

(** Writing [n] bytes at offset [off] of the private page of [va0]. *)
Lemma copyout_write s P va0 off src n :
  uspace kend s P -> cow_ok s P -> 0 <= va0 < TRAPFRAME -> va0 mod PGSIZE = 0 ->
  let p := uaddr (ram s) P va0 in
  p <> 0 -> cnt s (p / PGSIZE) = 1 -> 0 <= off -> 0 <= n -> off + n <= PGSIZE -> in_ram src n = true ->
  let s' := set_ram (memmove (ram s) (p + off) src n) s in
  kmemmove (p + off) src n s = Ret tt s' /\ uspace kend s' P /\ cow_ok s' P /\ keeps kend s P s' /\
  forall va, 0 <= va -> umem (ram s') P va =
    if (va0 + off <=? va) && (va <? va0 + off + n) then Some (ram s (src + (va - (va0 + off)))) else umem (ram s) P va.
Proof using Hkend.
  intros Hus Hcow Hva Hm p Hnz Hc Hoff Hn Hfit Hsrc s'. pose proof trapframe_maxva as Ht.
  destruct (uaddr_page kend s P va0 Hus (proj1 Hva) Hnz) as (_ & Hv & Hu & Hp & Hl). fold p in Hp.
  destruct Hl as [Heta Hfl Hpg Hcp Hnode]. rewrite <- Hp in *.
  assert (Hmem : mem_ok (ram s)) by (destruct (us_vm _ _ _ Hus) as ([ls Hls] & _); apply Hls).
  assert (Hmv : forall x, ram s' x = if (p + off <=? x) && (x <? p + off + n) then ram s (src + (x - (p + off))) else ram s x)
    by (intros x; by apply memmove_spec).
  assert (Hin : forall x q, p + off <= x < p + off + n -> page_ok kend PHYSTOP q -> q <= x < q + PGSIZE -> q = p).
  { intros x q Hx Hq Hxq. destruct (decide (q = p)) as [|Hne]; [done|].
    destruct (page_disjoint q p); [apply Hq|apply Hpg|done|lia|lia]. }
  destruct (uspace_write kend s P (fun x => p + off <= x < p + off + n) (ram s') Hus) as [Hus' Hlk].
  { apply memmove_ok; done. }
  { intros x Hx. rewrite Hmv. destruct (Z.leb_spec (p + off) x), (Z.ltb_spec x (p + off + n)); cbn [andb]; (lia || done). }
  { intros x q Hx Hq Hxq. rewrite (Hin x q Hx Hq Hxq). split; [lia|done]. }
  change (set_ram (ram s') s) with s' in Hus'.
  assert (Hprot : ~ protected kend s P p).
  { intros (_ & _ & [Hno|H1]); [|lia]. by apply Hno, (maps_lk s P p va0). }
  split_and!; [|done|..].
  - apply kmemmove_run; [by eapply in_ram_page|done].
  - intros va Hva' Hv'. rewrite Hlk in *. by apply Hcow.
  - split.
    + intros q Hq (H1 & H2 & H3). split_and!; [done|done|]. destruct H3 as [H3|H3]; [left|by right].
      intros (va & Hva' & E). apply H3. exists va. split; [done|]. unfold upage in *. by rewrite Hlk in E.
    + intros x Hx. rewrite Hmv.
      destruct (Z.leb_spec (p + off) x), (Z.ltb_spec x (p + off + n)); cbn [andb]; try done.
      destruct Hprot. apply Hx; [done|lia].
    + intros q Hq Hc'. change (cnt s') with (cnt s). lia.
    + intros q va Hq Hva' E _. split; [|done]. unfold upage in *. by rewrite Hlk in E.
  - intros va Hva'. rewrite (umem_uaddr kend Hkend s' P va Hus' Hva'), (umem_uaddr kend Hkend s P va Hus Hva').
    assert (uaddr (ram s') P va = uaddr (ram s) P va) as -> by (unfold uaddr; by rewrite Hlk).
    pose proof (Z.mod_pos_bound va PGSIZE ltac:(unfold PGSIZE; lia)) as Hmod.
    pose proof (vpn_page va0 va Hm) as Hvp.
    destruct (decide (vpn va = vpn va0)) as [E|E].
    + rewrite (uaddr_vpn (ram s) P va va0) by (done || lia). fold p. rewrite (proj2 (Z.eqb_neq p 0)) by done.
      apply Hvp in E. assert (va mod PGSIZE = va - va0) as -> by (unfold PGSIZE in *; dlia). rewrite Hmv.
      destruct (Z.leb_spec (va0 + off) va), (Z.ltb_spec va (va0 + off + n)),
        (Z.leb_spec (p + off) (p + (va - va0))), (Z.ltb_spec (p + (va - va0)) (p + off + n)); cbn [andb]; try lia; try done.
      do 2 f_equal. lia.
    + assert (((va0 + off <=? va) && (va <? va0 + off + n)) = false) as ->.
      { destruct (Z.leb_spec (va0 + off) va), (Z.ltb_spec va (va0 + off + n)); cbn [andb]; try done. lia. }
      destruct (Z.eqb_spec (uaddr (ram s) P va) 0) as [|Hnz']; [done|]. f_equal. rewrite Hmv.
      destruct (uaddr_page kend s P va Hus Hva' Hnz') as (HT' & Hv' & _ & Hp' & Hl').
      destruct (Z.leb_spec (p + off) (uaddr (ram s) P va + va mod PGSIZE)),
        (Z.ltb_spec (uaddr (ram s) P va + va mod PGSIZE) (p + off + n)); cbn [andb]; try done.
      exfalso. apply E, (us_inj _ _ _ Hus); [lia|done|done|done|]. rewrite <- Hp, <- Hp'.
      apply (Hin (uaddr (ram s) P va + va mod PGSIZE)); [lia|rewrite Hp'; apply Hl'|lia].
Qed.

(** A source buffer [copyout] may read: RAM that it never writes to. *)
Definition ksrc s P a n : Prop :=
  in_ram a n = true /\
  forall x q, a <= x < a + n -> page_ok kend PHYSTOP q -> q <= x < q + PGSIZE -> protected kend s P q.

Lemma ksrc_step s P s' a n i k :
  keeps kend s P s' -> ksrc s P a n -> 0 <= i -> i + k <= n ->
  ksrc s' P (a + i) k /\ forall x, a <= x < a + n -> ram s' x = ram s x.
Proof using Type.
  intros [Hp Hr _ _] [Hin Hs] Hi Hk. split; [split; [by eapply in_ram_sub|]|].
  - intros x q Hx Hq Hxq. apply Hp; [done|]. eapply Hs; [|done|done]. lia.
  - intros x Hx. apply Hr. intros q Hq Hxq. by eapply Hs.
Qed.

Lemma copyout_loop_eq id fuel P dstva src len s :
  copyout_loop kend id (S fuel) (root P) dstva src len s =
  if 0 <? len then
    let va0 := PGROUNDDOWN dstva in
    (let* pa0 := copyout_page id P va0 in
     if pa0 =? 0 then ret (-1)
     else
       let n := PGSIZE - (dstva - va0) in
       let n := if len <? n then len else n in
       kmemmove (pa0 + (dstva - va0)) src n ;;;
       copyout_loop kend id fuel (root P) (u64 (va0 + PGSIZE)) (u64 (src + n)) (len - n)) s
  else Ret 0 s.
Proof using Type.
  cbn [copyout_loop]. destruct (0 <? len); [|done]. cbv zeta. unfold copyout_page, bind.
  destruct (walkaddr id (root P) (PGROUNDDOWN dstva) s) as [a s1| | |]; try done.
  by destruct (cowpage id (root P) (PGROUNDDOWN dstva) s1) as [c s2| | |].
Qed.

(** What [copyout] did to the user's memory: [k] bytes were written. *)
Definition written s P s' (dstva src k : Z) : Prop :=
  forall va, 0 <= va -> umem (ram s') P va =
    if (dstva <=? va) && (va <? dstva + k) then Some (ram s (src + (va - dstva))) else umem (ram s) P va.

Lemma written_app s P s2 s3 dstva src len n k r va' :
  0 <= dstva -> 0 < n <= len -> (n < len -> va' = dstva + n) -> 0 <= k <= len - n ->
  (forall x, src <= x < src + len -> ram s2 x = ram s x) ->
  written s P s2 dstva src n -> written s2 P s3 va' (src + n) k ->
  (r = 0 /\ k = len - n \/
   r = -1 /\ k < len - n /\ (umem (ram s2) P (va' + k) = None \/
                            forall p, page_ok kend PHYSTOP p -> 0 < cnt s3 (p / PGSIZE))) ->
  written s P s3 dstva src (n + k) /\
  (r = 0 /\ n + k = len \/
   r = -1 /\ n + k < len /\ (umem (ram s) P (dstva + (n + k)) = None \/
                            forall p, page_ok kend PHYSTOP p -> 0 < cnt s3 (p / PGSIZE))).
Proof using Type.
  intros Hva Hn Hva' Hk Hsb Hw1 Hw2 Hr. destruct (Z.eq_dec n len) as [->|Hne].
  - assert (k = 0) as -> by lia. rewrite Z.add_0_r. split; [|left; lia].
    intros va Hva''. rewrite Hw2, Hw1 by done.
    destruct (Z.leb_spec va' va), (Z.ltb_spec va (va' + 0)); cbn [andb]; (lia || done).
  - rewrite Hva' in * by lia. split.
    + intros va Hva''. rewrite Hw2, Hw1 by done.
      destruct (Z.leb_spec (dstva + n) va), (Z.ltb_spec va (dstva + n + k)), (Z.leb_spec dstva va),
        (Z.ltb_spec va (dstva + n)), (Z.ltb_spec va (dstva + (n + k))); cbn [andb]; try lia; try done.
      f_equal. rewrite Hsb by lia. f_equal. lia.
    + destruct Hr as [[-> ->]|(-> & Hlt & Hwhy)]; [left; lia|right]. split_and!; [done|lia|].
      destruct Hwhy as [Hu|]; [left|by right]. rewrite Hw1 in Hu by lia.
      rewrite (proj2 (Z.ltb_ge _ (dstva + n))), andb_false_r in Hu by lia. by rewrite Z.add_assoc.
Qed.

Lemma copyout_loop_spec id P : (id < NCPU)%nat -> forall fuel s dstva src len,
  uspace kend s P -> cow_ok s P -> ksrc s P src len -> 0 <= dstva -> 0 <= len -> (rounds dstva len < fuel)%nat ->
  exists r s' k, copyout_loop kend id fuel (root P) dstva src len s = Ret r s' /\
    uspace kend s' P /\ cow_ok s' P /\ keeps kend s P s' /\ 0 <= k <= len /\ written s P s' dstva src k /\
    (r = 0 /\ k = len \/
     r = -1 /\ k < len /\ (umem (ram s) P (dstva + k) = None \/
                          forall p, page_ok kend PHYSTOP p -> 0 < cnt s' (p / PGSIZE))).
Proof using Hkend.
  intros Hid. induction fuel as [|fuel IH]; intros s dstva src len Hus Hcow Hsrc Hva Hlen Hf; [lia|].
  rewrite copyout_loop_eq.
  assert (Hnone : forall k, k = 0 -> written s P s dstva src k).
  { intros k -> va Hva'. destruct (Z.leb_spec dstva va), (Z.ltb_spec va (dstva + 0)); cbn [andb]; (lia || done). }
  destruct (Z.ltb_spec 0 len) as [Hpos|Hz].
  2:{ exists 0, s, 0. split_and!; try done; try apply keeps_refl; try (by apply Hnone); lia. }
  destruct (page_chunk dstva len Hva Hpos) as (Hn & Hoff & H0 & Hfit & Hm0 & Hpg & Hnext). cbv zeta in *.
  set (va0 := PGROUNDDOWN dstva) in *. set (n := if len <? _ then len else _) in *.
  pose proof (Z.mod_pos_bound dstva PGSIZE ltac:(unfold PGSIZE; lia)) as Hmod.
  destruct (copyout_page_spec id s P va0 Hid Hus Hcow Hm0 H0) as (p & s1 & Hrun1 & [(-> & -> & Hwhy)|Hok]);
    rewrite (bind_Ret _ _ _ _ _ Hrun1).
  { exists (-1), s, 0. split_and!; try done; try apply keeps_refl; try (by apply Hnone); try lia. right.
    split_and!; [done|lia|]. destruct Hwhy as [Ez|Hfull]; [left|by right].
    rewrite Z.add_0_r, (umem_uaddr kend Hkend) by done.
    destruct (Hpg 0 ltac:(lia)) as [Hv _]. rewrite Z.add_0_r in Hv.
    by rewrite (uaddr_vpn (ram s) P dstva va0), Ez by done. }
  destruct Hok as (Hnz & HT & Hus1 & Hcow1 & Hk1 & Hua1 & Hc1 & Hum1).
  rewrite (proj2 (Z.eqb_neq p 0)) by done.
  destruct (ksrc_step s P s1 src len 0 n Hk1 Hsrc) as [Hsrc1 Hsb1]; [lia|lia|]. rewrite Z.add_0_r in Hsrc1.
  destruct (copyout_write s1 P va0 (dstva - va0) src n Hus1 Hcow1 ltac:(lia) Hm0) as (Hrun2 & Hus2 & Hcow2 & Hk2 & Hw2);
    rewrite ?Hua1 in *; try done; try lia; [apply Hsrc1|].
  rewrite (bind_Ret _ _ _ _ _ Hrun2). set (s2 := set_ram _ s1) in *.
  pose proof (keeps_trans kend s P s1 s2 Hk1 Hk2) as Hk12. pose proof trapframe_maxva as Ht.
  destruct (ksrc_step s P s2 src len n (len - n) Hk12 Hsrc) as [Hsrc2 Hsb2]; [lia|lia|].
  assert (Hd : 0 <= src + n < 2 ^ 64).
  { pose proof (proj1 Hsrc) as Hr. unfold in_ram in Hr. apply andb_prop in Hr as [Hr1%Z.leb_le Hr2%Z.leb_le].
    unfold PHYSTOP, KERNBASE in *. lia. }
  rewrite (u64_small (src + n)), (u64_small (va0 + PGSIZE)) by (unfold MAXVA, PGSIZE in *; lia).
  destruct (IH s2 (va0 + PGSIZE) (src + n) (len - n)) as (r & s3 & k & Hrun3 & Hus3 & Hcow3 & Hk3 & Hk & Hw3 & Hr).
  - done.
  - done.
  - done.
  - unfold PGSIZE. lia.
  - lia.
  - eapply rounds_step; [exact Hf|lia|lia|unfold PGSIZE in *; dlia|lia|lia].
  - exists r, s3, (n + k). split; [done|]. split; [done|]. split; [done|].
    split; [by eapply keeps_trans|]. split; [lia|].
    assert (Hw12 : written s P s2 dstva src n).
    { intros va Hva'. rewrite Hw2 by done. replace (va0 + (dstva - va0)) with dstva by lia. rewrite Hum1 by done.
      destruct (Z.leb_spec dstva va), (Z.ltb_spec va (dstva + n)); cbn [andb]; try done. f_equal. apply Hsb1. lia. }
    by eapply (written_app s P s2 s3 dstva src len n k r (va0 + PGSIZE)).
Qed.

End copyout.

(** ** Address spaces that share page frames *)

(** Everything [Q] uses is protected from writes to [P]. *)
Record separate (kend : Z) (s : kst) (P Q : pt) : Prop := {
  sp_node : forall q, is_node Q q -> protected kend s P q;
  sp_page : forall va q, 0 <= va < TRAPFRAME -> upage (ram s) Q va = Some q -> protected kend s P q }.

Section isolation.
Context (kend : Z).
Hypothesis Hkend : kend_ok kend.
Implicit Types (s : kst) (P Q : pt).

Lemma keeps_page s P s' q x :
  keeps kend s P s' -> page_ok kend PHYSTOP q -> protected kend s P q -> q <= x < q + PGSIZE ->
  ram s' x = ram s x.
Proof using Type.
  intros [_ R _ _] Hq Hp Hx. apply R. intros q' Hq' Hx'. assert (q' = q) as ->; [|done].
  destruct (decide (q' = q)) as [|Hne]; [done|].
  destruct (page_disjoint q' q); [apply Hq'|apply Hq|done|lia|lia].
Qed.

(** An operation on [P] that keeps the protected pages does not show in [Q]. *)
Lemma keeps_isolated s P s' Q :
  keeps kend s P s' -> uspace kend s Q -> (exists ls, alloc_inv kend PHYSTOP s' ls) -> separate kend s P Q ->
  uspace kend s' Q /\ separate kend s' P Q /\ (forall va, lk (ram s') Q va = lk (ram s) Q va) /\
  forall va, 0 <= va -> umem (ram s') Q va = umem (ram s) Q va.
Proof using Hkend.
  intros Hk Hus Hal [Hnd Hpgs]. pose proof Hus as [(_ & Hpt & Huse) Hleaf Hinj Hhigh].
  assert (Hload : forall n p a, node_page Q n = Some p -> p <= a -> a + 8 <= p + PGSIZE ->
    load64 (ram s') a = load64 (ram s) a).
  { intros n p a Hp Hl Hu. apply load64_ext. intros x Hx.
    eapply keeps_page; [done|by eapply pi_page|apply Hnd; by exists n|lia]. }
  assert (Hlk : forall va, lk (ram s') Q va = lk (ram s) Q va).
  { intros va. unfold lk. destruct (pte_addr Q va) as [a|] eqn:E; [|done].
    destruct (pte_addr_page _ _ _ E) as (p & Hp & ->). pose proof (PX_range 0 va).
    eapply Hload; [exact Hp|lia|unfold PGSIZE; lia]. }
  assert (Hpp : forall va, 0 <= va < TRAPFRAME -> has (lk (ram s) Q va) PTE_V = true ->
    protected kend s P (PTE2PA (lk (ram s) Q va))).
  { intros va Hva Hv. apply (Hpgs va); [done|]. unfold upage. by rewrite Hv. }
  split_and!.
  - split.
    + split_and!; [done| |].
      * destruct Hpt as [Hpg Hpi He Hd]. split; try done. intros n a Hn Ha.
        destruct (entry_parent Q n a Hn Ha) as (n' & p & i & _ & Hp & -> & Hi & _).
        rewrite (Hload n' p); [|done|lia|unfold PGSIZE; lia]. by apply He.
      * intros n p Hp. apply (kp_page _ _ _ _ Hk); [by eapply pi_page|]. apply Hnd. by exists n.
    + intros va Hva. rewrite Hlk. intros Hv. destruct (Hleaf va Hva Hv). split; try done.
      by apply (kp_page _ _ _ _ Hk), Hpp.
    + intros va va' Hva Hva'. rewrite !Hlk. by apply Hinj.
    + intros va Hva. rewrite Hlk. by apply Hhigh.
  - split.
    + intros q [n Hn]. apply (kp_page _ _ _ _ Hk); [by eapply pi_page|]. apply Hnd. by exists n.
    + intros va q Hva E. unfold upage in E. rewrite Hlk in E. apply (kp_page _ _ _ _ Hk); [|by eapply Hpgs].
      destruct (has (lk (ram s) Q va) PTE_V) eqn:Hv; [|done]. injection E as <-. by apply Hleaf.
  - done.
  - intros va Hva. unfold umem. rewrite Hlk. destruct (Z.ltb_spec va MAXVA); [|done].
    destruct (has (lk (ram s) Q va) PTE_V) eqn:Hv, (has (lk (ram s) Q va) PTE_U) eqn:Hu; cbn [andb]; try done.
    assert (va < TRAPFRAME).
    { destruct (Z.lt_ge_cases va TRAPFRAME); [done|]. rewrite Hhigh in Hu by (done || lia). done. }
    f_equal. pose proof (Z.mod_pos_bound va PGSIZE ltac:(unfold PGSIZE; lia)).
    eapply keeps_page; [done|by apply Hleaf|by apply Hpp|lia].
Qed.

(** Two address spaces that may share page frames copy-on-write. *)
Record cow_pair s P Q : Prop := {
  cp_P : uspace kend s P;
  cp_Q : uspace kend s Q;
  cp_cowP : cow_ok s P;
  cp_cowQ : cow_ok s Q;
  cp_PQ : separate kend s P Q;
  cp_QP : separate kend s Q P }.

Lemma cow_pair_sym s P Q : cow_pair s P Q -> cow_pair s Q P.
Proof using Type. by intros []. Qed.

(** Writing to one of them keeps the pair. *)
Lemma cow_pair_keeps s P Q s' :
  cow_pair s P Q -> keeps kend s P s' -> uspace kend s' P -> cow_ok s' P ->
  cow_pair s' P Q /\ forall va, 0 <= va -> umem (ram s') Q va = umem (ram s) Q va.
Proof using Hkend.
  intros [HP HQ HcP HcQ HPQ HQP] Hk HP' HcP'.
  destruct (keeps_isolated s P s' Q Hk HQ) as (HQ' & HPQ' & Hlk & Hum);
    [by destruct (us_vm _ _ _ HP') as (? & _)|done|].
  assert (Hmaps : forall q, maps (ram s') Q 0 TRAPFRAME q -> maps (ram s) Q 0 TRAPFRAME q).
  { intros q (va & Hva & E). exists va. split; [done|]. unfold upage in *. by rewrite Hlk in E. }
  assert (HpgQ : forall q, maps (ram s) Q 0 TRAPFRAME q -> page_ok kend PHYSTOP q /\ 0 < cnt s (q / PGSIZE)).
  { intros q (va & Hva & Hv & <-)%maps_inv. by destruct (us_leaf _ _ _ HQ va Hva Hv). }
  split; [|done]. split; try done.
  - intros va Hva. rewrite Hlk. intros Hv Hc. apply HcQ; [done|done|].
    destruct (us_leaf _ _ _ HQ va Hva Hv) as [_ _ Kp Kc _]. pose proof (kp_cnt _ _ _ _ Hk _ Kp Kc). lia.
  - destruct HQP as [Hnd Hpg]. split.
    + intros q Hq. destruct (Hnd q Hq) as (Hc & Hn & _). pose proof Hq as [n En].
      pose proof (us_vm _ _ _ HP') as (_ & Hpt' & Huse'). pose proof (us_vm _ _ _ HP) as (_ & Hpt & _).
      split_and!; [by eapply Huse'|done|left]. intros M%Hmaps.
      destruct M as (va & Hva & E). apply (sp_page _ _ _ _ HPQ va q Hva) in E as (_ & Hno & _). by apply Hno.
    + intros va q Hva E. pose proof E as E'. unfold upage in E'.
      destruct (has (lk (ram s') P va) PTE_V) eqn:Hv; [|done]. injection E' as Eq.
      destruct (us_leaf _ _ _ HP' va Hva Hv) as [_ _ Kp Kc Kn]. rewrite Eq in *. split_and!; [done|..].
      * intros [n En]. pose proof (us_vm _ _ _ HQ) as (_ & _ & HuseQ).
        destruct (kp_own _ _ _ _ Hk q va Kp Hva E) as [E1 _]; [by eapply HuseQ|].
        destruct (Hpg va q Hva E1) as (_ & Hno & _). apply Hno. by exists n.
      * destruct (maps_dec s' Q 0 TRAPFRAME q) as [M|M]; [done|done| |by left].
        apply Hmaps in M. destruct (HpgQ q M) as [_ Hc].
        destruct (kp_own _ _ _ _ Hk q va Kp Hva E Hc) as [E1 Ec]. rewrite Ec.
        destruct (Hpg va q Hva E1) as (_ & _ & [Hno|H1]); [done|by right].
Qed.

End isolation.

(** ** Fork *)

(** The flags and the PTE both address spaces have after [uvmcopy]. *)
Definition cowflags (f : Z) : Z :=
  if has f PTE_W then Z.land (Z.lor f PTE_F) (Z.lnot PTE_W) else f.
Definition share (e : Z) : Z := mk_pte (PTE2PA e) (cowflags (PTE_FLAGS e)).

Lemma cowflags_range f : 0 <= f < 1024 -> 0 <= cowflags f < 1024.
Proof.
  intros Hf. unfold cowflags. destruct (has f PTE_W); [|done].
  apply clear_flags, lor_flags; unfold PTE_F; lia.
Qed.
Lemma cowflags_V f : has (cowflags f) PTE_V = has f PTE_V.
Proof. unfold cowflags. destruct (has f PTE_W); [|done]. flag_bits. by rewrite orb_false_r, andb_true_r. Qed.
Lemma cowflags_U f : has (cowflags f) PTE_U = has f PTE_U.
Proof. unfold cowflags. destruct (has f PTE_W); [|done]. flag_bits. by rewrite orb_false_r, andb_true_r. Qed.
Lemma cowflags_F f : has (cowflags f) PTE_F = has f PTE_W || has f PTE_F.
Proof.
  unfold cowflags. destruct (has f PTE_W); [|done]. flag_bits. by rewrite orb_true_r.
Qed.
Lemma cowflags_leaf f : f <> PTE_V -> cowflags f <> PTE_V.
Proof.
  intros Hf E. pose proof (cowflags_F f) as HF. rewrite E in HF. cbn in HF.
  unfold cowflags in E. destruct (has f PTE_W); [done|by destruct Hf].
Qed.

(** Setting [PTE_V] again changes nothing. *)
Lemma lor_V f : has f PTE_V = true -> Z.lor f PTE_V = f.
Proof.
  unfold PTE_V. change 1 with (2 ^ 0). rewrite has_bit by lia. intros Hv. apply Z.bits_inj'. intros n Hn.
  rewrite Z.lor_spec, Z.pow2_bits_eqb by lia. destruct (Z.eqb_spec 0 n) as [<-|]; [by rewrite Hv|].
  by rewrite orb_false_r.
Qed.

End Ucow.
