(* ===== verification/Ufork.v ===== *)
(** Duplicating an address space.

    [uvmcopy] of module [Uvm]: the child sees the parent's memory through the
    same page frames, and writes of the kernel to either of the two never show
    in the other. When memory runs out the child is empty again and every
    reference count is back to what it was. *)

From S2P Require Import Prelude Mem Kstring Kalloc Pgtbl Uvm Ucopy Ucow.
Import Kstring Kalloc Pgtbl Uvm Ucopy Ucow.

Module Ufork.

(** The child's table as [proc_pagetable] makes it: no user page, and no page
    in common with the parent. *)
Record fork_pre (kend : Z) (s : kst) (P Q : pt) : Prop := {
  fp_parent : uspace kend s P;
  fp_child : uspace kend s Q;
  fp_empty : forall va, 0 <= va < TRAPFRAME -> has (lk (ram s) Q va) PTE_V = false;
  fp_disjoint : forall q, is_node P q -> ~ is_node Q q;
  fp_user : forall va, 0 <= va < TRAPFRAME -> has (lk (ram s) P va) PTE_V = true ->
    ~ is_node Q (PTE2PA (lk (ram s) P va));
  fp_bound : forall va, 0 <= va < TRAPFRAME -> has (lk (ram s) P va) PTE_V = true ->
    cnt s (PTE2PA (lk (ram s) P va) / PGSIZE) < 2 ^ 31 - 1 }.

(** After the pages below [i] were shared: [s] and the child's table [Q]. *)
Record forked (kend : Z) (s0 : kst) (P Q0 : pt) (i : Z) (s : kst) (Q : pt) : Prop := {
  fk_parent : uspace kend s P;
  fk_child : uspace kend s Q;
  fk_root : root Q = root Q0;
  fk_disjoint : forall q, is_node P q -> ~ is_node Q q;
  fk_node : forall q, is_node Q q -> is_node Q0 q \/ cnt s0 (q / PGSIZE) = 0;
  fk_lkP : forall va, 0 <= va < MAXVA -> lk (ram s) P va =
    if (va <? i) && has (lk (ram s0) P va) PTE_V then share (lk (ram s0) P va) else lk (ram s0) P va;
  fk_lkQ : forall va, 0 <= va < MAXVA -> lk (ram s) Q va =
    if (va <? i) && has (lk (ram s0) P va) PTE_V then share (lk (ram s0) P va) else lk (ram s0) Q0 va;
  fk_inc : forall q, page_ok kend PHYSTOP q -> maps (ram s0) P 0 i q ->
    cnt s (q / PGSIZE) = cnt s0 (q / PGSIZE) + 1;
  fk_cnt : forall q, page_ok kend PHYSTOP q -> 0 < cnt s0 (q / PGSIZE) -> ~ maps (ram s0) P 0 i q ->
    cnt s (q / PGSIZE) = cnt s0 (q / PGSIZE);
  fk_use : forall q, page_ok kend PHYSTOP q -> 0 < cnt s0 (q / PGSIZE) -> 0 < cnt s (q / PGSIZE);
  fk_ram : forall x, (forall q, page_ok kend PHYSTOP q -> q <= x < q + PGSIZE ->
    0 < cnt s0 (q / PGSIZE) /\ ~ is_node P q /\ ~ is_node Q0 q) -> ram s x = ram s0 x }.

(** [uvmcopy] gave up: the child maps nothing, and no reference was kept. The
    parent's PTEs are as before or marked copy-on-write. *)
Record fork_failed (kend : Z) (s0 : kst) (P Q0 : pt) (s : kst) (Q : pt) : Prop := {
  ff_parent : uspace kend s P;
  ff_child : uspace kend s Q;
  ff_root : root Q = root Q0;
  ff_empty : forall va, 0 <= va < TRAPFRAME -> has (lk (ram s) Q va) PTE_V = false;
  ff_lkP : forall va, 0 <= va < MAXVA -> lk (ram s) P va = lk (ram s0) P va \/
    has (lk (ram s0) P va) PTE_V = true /\ lk (ram s) P va = share (lk (ram s0) P va);
  ff_cnt : forall q, page_ok kend PHYSTOP q -> 0 < cnt s0 (q / PGSIZE) -> cnt s (q / PGSIZE) = cnt s0 (q / PGSIZE);
  ff_full : mem_full kend s;
  ff_ram : forall x, (forall q, page_ok kend PHYSTOP q -> q <= x < q + PGSIZE ->
    0 < cnt s0 (q / PGSIZE) /\ ~ is_node P q /\ ~ is_node Q0 q) -> ram s x = ram s0 x }.

(** Sharing keeps a page valid and accessible to the user, and marks it when it
    was writable. *)
Lemma share_V e : has (share e) PTE_V = has e PTE_V.
Proof.
  unfold share. rewrite mk_pte_has by (apply PTE2PA_nonneg || (unfold PTE_V; lia)).
  by rewrite cowflags_V, PTE_FLAGS_has by (unfold PTE_V; lia).
Qed.
Lemma share_U e : has (share e) PTE_U = has e PTE_U.
Proof.
  unfold share. rewrite mk_pte_has by (apply PTE2PA_nonneg || (unfold PTE_U; lia)).
  by rewrite cowflags_U, PTE_FLAGS_has by (unfold PTE_U; lia).
Qed.
Lemma share_F e : has (share e) PTE_F = has e PTE_W || has e PTE_F.
Proof.
  unfold share. rewrite mk_pte_has by (apply PTE2PA_nonneg || (unfold PTE_F; lia)).
  by rewrite cowflags_F, !PTE_FLAGS_has by (unfold PTE_F, PTE_W; lia).
Qed.

Lemma share_flag e b : b = PTE_R \/ b = PTE_X -> has (share e) b = has e b.
Proof.
  intros Hb. assert (0 <= b < 1024) by (destruct Hb as [-> | ->]; unfold PTE_R, PTE_X; lia). unfold share. rewrite mk_pte_has by (apply PTE2PA_nonneg || lia). unfold cowflags. destruct (has (PTE_FLAGS e) PTE_W); [|by rewrite PTE_FLAGS_has by lia].
  rewrite <- (PTE_FLAGS_has e b) by lia. destruct Hb as [-> | ->]; unfold PTE_R, PTE_X, PTE_W, PTE_F; [change 2 with (2 ^ 1)|change 8 with (2 ^ 3)]; change 4 with (2 ^ 2); change 256 with (2 ^ 8); rewrite has_clear, has_lor by lia; by rewrite orb_false_r, andb_true_r.
Qed.
Lemma share_W e : has (share e) PTE_W = false.
Proof.
  unfold share. rewrite mk_pte_has by (apply PTE2PA_nonneg || (unfold PTE_W; lia)). unfold cowflags. destruct (has (PTE_FLAGS e) PTE_W) eqn:E; [|done]. flag_bits. by rewrite andb_false_r.
Qed.

Section fork.
Context (kend : Z).
Hypothesis Hkend : kend_ok kend.
Context (s0 : kst) (P Q0 : pt).
Hypothesis Hpre : fork_pre kend s0 P Q0.
Implicit Types (s : kst) (Q : pt).

Lemma forked_0 : forked kend s0 P Q0 0 s0 Q0.
Proof using Hpre.
  destruct Hpre. split; try done.
  - by left.
  - intros va Hva. by rewrite (proj2 (Z.ltb_ge va 0)) by lia.
  - intros va Hva. by rewrite (proj2 (Z.ltb_ge va 0)) by lia.
  - intros q Hq (va & Hva & _). lia.
Qed.

(** The page at [i] is not mapped in the parent. *)
Lemma forked_skip i s Q :
  forked kend s0 P Q0 i s Q -> i mod PGSIZE = 0 -> 0 <= i < TRAPFRAME ->
  has (lk (ram s0) P i) PTE_V = false -> forked kend s0 P Q0 (i + PGSIZE) s Q.
Proof using Hpre.
  intros [] Hm Hi Hno. pose proof trapframe_maxva as Ht.
  assert (Hsame : forall va, i <= va < i + PGSIZE -> has (lk (ram s0) P va) PTE_V = false).
  { intros va Hva. rewrite (lk_vpn (ram s0) P va i); [done|unfold PGSIZE in *; lia..|]. by apply vpn_page. }
  assert (Hb : forall va, (va <? i + PGSIZE) && has (lk (ram s0) P va) PTE_V = (va <? i) && has (lk (ram s0) P va) PTE_V).
  { intros va. destruct (Z.ltb_spec va i), (Z.ltb_spec va (i + PGSIZE)); cbn [andb]; try done;
      try (unfold PGSIZE in *; lia). apply Hsame. lia. }
  assert (Hmaps : forall q, maps (ram s0) P 0 (i + PGSIZE) q <-> maps (ram s0) P 0 i q).
  { intros q. split; intros (va & Hva & E).
    - destruct (Z.lt_ge_cases va i); [exists va; split; [lia|done]|]. unfold upage in E. rewrite Hsame in E by lia. done.
    - exists va. split; [unfold PGSIZE; lia|done]. }
  split; try done.
  - intros va Hva. rewrite Hb. auto.
  - intros va Hva. rewrite Hb. auto.
  - intros q Hq Hmp. apply fk_inc0; [done|]. by apply Hmaps.
  - intros q Hq Hc Hmp. apply fk_cnt0; [done|done|]. by rewrite <- Hmaps.
Qed.

(** Marking the parent's page at [i] copy-on-write. *)
Lemma fork_mark i s Q a :
  forked kend s0 P Q0 i s Q -> i mod PGSIZE = 0 -> 0 <= i < TRAPFRAME ->
  let e := lk (ram s0) P i in
  has e PTE_V = true -> pte_addr P i = Some a ->
  let s1 := set_ram (store64 (ram s) a (share e)) s in
  uspace kend s1 P /\ uspace kend s1 Q /\
  (forall va, 0 <= va < MAXVA -> lk (ram s1) P va =
     if (i <=? va) && (va <? i + PGSIZE) then share e else lk (ram s) P va) /\
  (forall va, lk (ram s1) Q va = lk (ram s) Q va) /\ frame_on kend (is_node P) s s1.
Proof using Hpre Hkend.
  intros Hfk Hm Hi e Hv Ha s1. pose proof Hfk as [HP HQ Hrt Hdis Hnd HlkP HlkQ Hinc Hcnt Huse Hram].
  pose proof trapframe_maxva as Ht. assert (HiM : 0 <= i < MAXVA) by (unfold PGSIZE in *; lia).
  assert (Hei : lk (ram s) P i = e) by (rewrite HlkP, (proj2 (Z.ltb_ge i i)) by lia; done).
  assert (Hvi : has (lk (ram s) P i) PTE_V = true) by (by rewrite Hei).
  destruct (us_leaf _ _ _ HP i Hi Hvi) as [Heta Hfl Hpg Hc Hnode]. rewrite Hei in *.
  pose proof (PTE_FLAGS_range e) as Hfr. pose proof (cowflags_range _ Hfr) as Hcr.
  pose proof (page_small kend Hkend _ Hpg) as Hps. pose proof (us_vm _ _ _ HP) as HvmP.
  pose proof (vstep_pte kend s P i a (share e) HvmP Ha) as Hst. fold s1 in Hst.
  assert (Hlk1 : forall va, 0 <= va < MAXVA -> lk (ram s1) P va =
     if (i <=? va) && (va <? i + PGSIZE) then share e else lk (ram s) P va).
  { intros va Hva. unfold s1. cbn [ram set_ram]. destruct HvmP as (_ & HptP & _).
    rewrite (lk_store kend _ P i a (share e) va HptP HiM Hva Ha (mk_pte_range _ _ Hps Hcr)).
    pose proof (vpn_page i va Hm) as Hvp. destruct (Z.eqb_spec (vpn va) (vpn i)) as [E|E].
    - apply Hvp in E. by rewrite (proj2 (Z.leb_le _ _)), (proj2 (Z.ltb_lt _ _)) by lia.
    - destruct (Z.leb_spec i va), (Z.ltb_spec va (i + PGSIZE)); cbn [andb]; try done. lia. }
  assert (Hfr1 : frame_on kend (is_node P) s s1) by (apply framed_on, Hst).
  assert (HQ1 : uspace kend s1 Q /\ forall va, lk (ram s1) Q va = lk (ram s) Q va).
  { eapply (uspace_frame kend s Q s1 (is_node P)); [done|done|by destruct (vs_inv _ _ _ _ _ Hst) as (? & _)| |].
    - intros q HqQ HqP. by eapply Hdis.
    - intros va q Hva E. unfold upage in E. destruct (has (lk (ram s) Q va) PTE_V) eqn:Hv'; [|done].
      injection E as <-. apply (us_leaf _ _ _ HQ va Hva Hv'). }
  destruct HQ1 as [HQ1 HlkQ1]. split_and!; try done.
  eapply (uspace_add kend s P s1 P i (PTE2PA e) (cowflags (PTE_FLAGS e))); try done.
  - intros va Hva Hv' Hne E. apply Hne, (us_inj _ _ _ HP); [done|done|done|by rewrite Hei|by rewrite Hei].
  - by apply cowflags_leaf.
Qed.

(** The parent's page at [i] is marked, and nothing else changed. *)
Record marked i s Q s1 : Prop := {
  mk_P : uspace kend s1 P;
  mk_Q : uspace kend s1 Q;
  mk_lkP : forall va, 0 <= va < MAXVA -> lk (ram s1) P va =
     if (i <=? va) && (va <? i + PGSIZE) then share (lk (ram s0) P i) else lk (ram s) P va;
  mk_lkQ : forall va, lk (ram s1) Q va = lk (ram s) Q va;
  mk_cnt : forall q, cnt s1 q = cnt s q;
  mk_frame : frame_on kend (is_node P) s s1 }.

(** The page-table entry [uvmcopy] reads and marks in the parent. *)
Definition mark_pte pte e : M kst Z :=
  if has (PTE_FLAGS e) PTE_W then
    wr64 pte (Z.lor (PA2PTE (PTE2PA e)) (Z.land (Z.lor (PTE_FLAGS e) PTE_F) (Z.lnot PTE_W))) ;;;
    ret (Z.land (Z.lor (PTE_FLAGS e) PTE_F) (Z.lnot PTE_W))
  else ret (PTE_FLAGS e).

Lemma mark_pte_spec i s Q a :
  forked kend s0 P Q0 i s Q -> i mod PGSIZE = 0 -> 0 <= i < TRAPFRAME ->
  let e := lk (ram s0) P i in
  has e PTE_V = true -> pte_addr P i = Some a ->
  exists s1, mark_pte a e s = Ret (cowflags (PTE_FLAGS e)) s1 /\ marked i s Q s1.
Proof using Hpre Hkend.
  intros Hfk Hm Hi e Hv Ha. pose proof Hfk as [HP HQ _ _ _ HlkP _ _ _ _ _].
  pose proof (us_vm _ _ _ HP) as (_ & HptP & _). unfold mark_pte, cowflags.
  destruct (has (PTE_FLAGS e) PTE_W) eqn:HW.
  - rewrite (bind_Ret _ _ _ _ _ (wr64_run a _ s (pte_addr_in_ram kend Hkend _ _ _ _ HptP Ha))).
    eexists. split; [reflexivity|].
    destruct (fork_mark i s Q a Hfk Hm Hi Hv Ha) as (H1 & H2 & H3 & H4 & H5).
    fold e in H1, H2, H3, H4, H5. unfold share, cowflags, mk_pte in H1, H2, H3, H4, H5.
    rewrite HW in H1, H2, H3, H4, H5. split; try done.
    intros va Hva. rewrite H3 by done. unfold share, cowflags, mk_pte. fold e. by rewrite HW.
  - exists s. split; [done|]. split; try done; try apply frame_refl. intros va Hva.
    pose proof trapframe_maxva as Ht.
    destruct (Z.leb_spec i va), (Z.ltb_spec va (i + PGSIZE)); cbn [andb]; try done.
    assert (Hei : lk (ram s) P i = e).
    { rewrite HlkP, (proj2 (Z.ltb_ge i i)) by (unfold PGSIZE in *; lia). done. }
    rewrite (lk_vpn (ram s) P va i); [|done|unfold PGSIZE in *; lia|by apply vpn_page].
    rewrite Hei. fold e. unfold share, cowflags. rewrite HW. symmetry. rewrite <- Hei.
    apply (us_leaf _ _ _ HP i Hi). by rewrite Hei.
Qed.

(** Mapping the shared page in the child. *)
Lemma fork_map id i s Q s1 :
  (id < NCPU)%nat -> forked kend s0 P Q0 i s Q -> marked i s Q s1 -> i mod PGSIZE = 0 -> 0 <= i < TRAPFRAME ->
  let e := lk (ram s0) P i in
  has e PTE_V = true ->
  exists r s2 Q2, mappages id (root Q) i PGSIZE (PTE2PA e) (cowflags (PTE_FLAGS e)) s1 = Ret r s2 /\
    vstep kend s1 Q s2 Q2 /\ uspace kend s2 P /\ uspace kend s2 Q2 /\
    (forall va, lk (ram s2) P va = lk (ram s1) P va) /\
    (r = 0 /\ (forall va, 0 <= va < MAXVA -> lk (ram s2) Q2 va =
        if (i <=? va) && (va <? i + PGSIZE) then share e else lk (ram s) Q va) \/
     r = -1 /\ mem_full kend s2 /\ (forall va, 0 <= va < MAXVA -> lk (ram s2) Q2 va = lk (ram s) Q va)).
Proof using Hpre Hkend.
  intros Hid Hfk [HP1 HQ1 HlkP1 HlkQ1 Hcnt1 Hfr1] Hm Hi e Hv.
  pose proof Hfk as [HP HQ Hrt Hdis Hnd HlkP HlkQ Hinc Hcnt Huse Hram].
  pose proof trapframe_maxva as Ht. assert (HiM : 0 <= i < MAXVA) by (unfold PGSIZE in *; lia).
  assert (Hei : lk (ram s) P i = e) by (rewrite HlkP, (proj2 (Z.ltb_ge i i)) by lia; done).
  destruct (us_leaf _ _ _ HP i Hi) as [Heta Hfl Hpg Hc Hnode]; [by rewrite Hei|]. rewrite Hei in *.
  pose proof (PTE_FLAGS_range e) as Hfr. pose proof (cowflags_range _ Hfr) as Hcr.
  pose proof (page_small kend Hkend _ Hpg) as Hps. assert (PTE2PA e < PHYSTOP) by apply Hpg.
  assert (Hup : PGROUNDUP (i + PGSIZE) = i + PGSIZE) by (rewrite PGROUNDUP_spec; unfold PGSIZE in *; dlia).
  assert (Hdn : PGROUNDDOWN i = i) by (rewrite PGROUNDDOWN_spec; lia).
  assert (HQi : forall v, i <= v < i + PGSIZE -> lk (ram s) Q v = lk (ram s0) Q0 v /\ has (lk (ram s0) Q0 v) PTE_V = false).
  { intros v Hv'. assert (v < TRAPFRAME).
    { destruct (page_disjoint i TRAPFRAME); [done..|lia| |]; unfold PGSIZE in *; lia. }
    rewrite HlkQ, (proj2 (Z.ltb_ge v i)) by (unfold PGSIZE in *; lia). split; [done|]. apply (fp_empty _ _ _ _ Hpre). lia. }
  destruct (mappages_spec kend id Hkend Hid s1 Q i PGSIZE (PTE2PA e) (cowflags (PTE_FLAGS e)))
    as (r & s2 & Q2 & b & Hrun & Hst & Hr & Hlk2); try (unfold PGSIZE, PHYSTOP, KERNBASE in *; lia).
  { apply HQ1. }
  { rewrite Hup, Hdn. intros v Hv'. rewrite HlkQ1. destruct (HQi v Hv') as [-> ?]. done. }
  rewrite Hup, Hdn in *. exists r, s2, Q2. split; [done|]. split; [done|].
  assert (HP2 : uspace kend s2 P /\ forall va, lk (ram s2) P va = lk (ram s1) P va).
  { eapply (uspace_frame kend s1 P s2 (is_node Q)); [done|apply framed_on, Hst|by destruct (vs_inv _ _ _ _ _ Hst) as (? & _)| |].
    - intros q HqP HqQ. by eapply Hdis.
    - intros va q Hva E. unfold upage in E. destruct (has (lk (ram s1) P va) PTE_V) eqn:Hv'; [|done].
      injection E as <-. destruct (us_leaf _ _ _ HP1 va Hva Hv') as [_ _ K3 K4 _].
      by rewrite (fr_cnt _ _ _ _ (vs_fr _ _ _ _ _ Hst)). }
  destruct HP2 as [HP2 HlkP2]. split; [done|].
  destruct Hr as [[-> ->]|(-> & Hb & Hbm)].
  - assert (Hlk2' : forall va, 0 <= va < MAXVA -> lk (ram s2) Q2 va =
      if (i <=? va) && (va <? i + PGSIZE) then share e else lk (ram s) Q va).
    { intros va Hva. rewrite Hlk2 by done. unfold mapped. rewrite HlkQ1.
      destruct (Z.leb_spec i va), (Z.ltb_spec va (i + PGSIZE)); cbn [andb]; try done. unfold share.
      rewrite lor_V by (rewrite cowflags_V, PTE_FLAGS_has by (unfold PTE_V; lia); done).
      f_equal. rewrite PGROUNDDOWN_spec. unfold PGSIZE in *. dlia. }
    split; [|split; [done|by left]].
    eapply (uspace_add kend s1 Q s2 Q2 i (PTE2PA e) (cowflags (PTE_FLAGS e))); try done.
    + by rewrite Hcnt1.
    + intros Hn. destruct (Hnd _ Hn) as [Hn0|Hz]; [by eapply (fp_user _ _ _ _ Hpre)|].
      pose proof (lf_cnt _ _ _ _ (us_leaf _ _ _ (fp_parent _ _ _ _ Hpre) i Hi Hv)) as Hc0. fold e in Hc0. lia.
    + intros va Hva Hv' Hne E. rewrite HlkQ1, HlkQ in Hv', E by (unfold PGSIZE in *; lia).
      destruct ((va <? i) && has (lk (ram s0) P va) PTE_V) eqn:Eb.
      * apply andb_prop in Eb as [_ Eb]. unfold share in E.
        destruct (us_leaf _ _ _ (fp_parent _ _ _ _ Hpre) va Hva Eb) as [_ _ Kp _ _].
        rewrite mk_pte_pa in E; [|apply Kp|by apply (page_small kend Hkend)|apply cowflags_range, PTE_FLAGS_range].
        apply Hne. by apply (us_inj _ _ _ (fp_parent _ _ _ _ Hpre)).
      * rewrite (fp_empty _ _ _ _ Hpre) in Hv' by done. done.
    + by apply cowflags_leaf.
    + intros va Hva. rewrite Hlk2' by done. by rewrite HlkQ1.
  - assert (b = i) as -> by (unfold PGSIZE in *; dlia).
    assert (Hlk2' : forall va, 0 <= va < MAXVA -> lk (ram s2) Q2 va = lk (ram s) Q va).
    { intros va Hva. rewrite Hlk2 by done. unfold mapped. rewrite HlkQ1.
      destruct (Z.leb_spec i va), (Z.ltb_spec va i); cbn [andb]; (done || lia). }
    split; [|split; [done|right]].
    + eapply (uspace_vstep kend s1 Q s2 Q2); [done|done|]. intros va Hva. by rewrite Hlk2', HlkQ1.
    + split_and!; [done| |done]. eapply (mappages_full kend id Hkend Hid s1 Q i (PTE2PA e) (cowflags (PTE_FLAGS e))); [apply HQ1|done|done|unfold PHYSTOP, KERNBASE, PGSIZE in *; lia|done| |done].
      rewrite HlkQ1. destruct (HQi i ltac:(unfold PGSIZE; lia)) as [-> ?]. done.
Qed.

Lemma share_pa va :
  0 <= va < TRAPFRAME -> has (lk (ram s0) P va) PTE_V = true ->
  PTE2PA (share (lk (ram s0) P va)) = PTE2PA (lk (ram s0) P va).
Proof using Hpre Hkend.
  intros Hva Hv. destruct (us_leaf _ _ _ (fp_parent _ _ _ _ Hpre) va Hva Hv) as [_ _ Kp _ _].
  unfold share. apply mk_pte_pa; [apply Kp|by apply (page_small kend Hkend)|apply cowflags_range, PTE_FLAGS_range].
Qed.

(** The parent maps page [i] nowhere below [i]. *)
Lemma not_below i : i mod PGSIZE = 0 -> 0 <= i < TRAPFRAME -> has (lk (ram s0) P i) PTE_V = true ->
  ~ maps (ram s0) P 0 i (PTE2PA (lk (ram s0) P i)).
Proof using Hpre.
  intros Hm Hi Hv (va & Hva & E). unfold upage in E.
  destruct (has (lk (ram s0) P va) PTE_V) eqn:Hv'; [|done]. injection E as E.
  assert (Ev : vpn va = vpn i) by (apply (us_inj _ _ _ (fp_parent _ _ _ _ Hpre)); (done || lia)).
  apply vpn_page in Ev; [lia|done].
Qed.

Lemma maps_snoc i q : i mod PGSIZE = 0 -> 0 <= i < TRAPFRAME -> has (lk (ram s0) P i) PTE_V = true ->
  maps (ram s0) P 0 (i + PGSIZE) q <-> maps (ram s0) P 0 i q \/ q = PTE2PA (lk (ram s0) P i).
Proof using Type.
  intros Hm Hi Hv. pose proof trapframe_maxva as Ht. split.
  - intros (va & Hva & E). destruct (Z.lt_ge_cases va i); [left; exists va; split; [lia|done]|right].
    rewrite (upage_vpn (ram s0) P va i) in E; [|unfold PGSIZE in *; lia..|apply vpn_page; (done || lia)].
    unfold upage in E. rewrite Hv in E. by injection E.
  - intros [(va & Hva & E)| ->]; [exists va; split; [unfold PGSIZE; lia|done]|].
    exists i. split; [unfold PGSIZE; lia|]. unfold upage. by rewrite Hv.
Qed.

(** One more page of a table that shares the pages below [i]. *)
Lemma shared_snoc i (L d : Z -> Z) :
  i mod PGSIZE = 0 -> 0 <= i < TRAPFRAME -> has (lk (ram s0) P i) PTE_V = true ->
  (forall va, 0 <= va < MAXVA -> L va =
     if (i <=? va) && (va <? i + PGSIZE) then share (lk (ram s0) P i)
     else if (va <? i) && has (lk (ram s0) P va) PTE_V then share (lk (ram s0) P va) else d va) ->
  forall va, 0 <= va < MAXVA -> L va =
     if (va <? i + PGSIZE) && has (lk (ram s0) P va) PTE_V then share (lk (ram s0) P va) else d va.
Proof using Type.
  intros Hm Hi Hv HL va Hva. rewrite HL by done. pose proof trapframe_maxva as Ht.
  destruct (Z.leb_spec i va), (Z.ltb_spec va (i + PGSIZE)), (Z.ltb_spec va i); cbn [andb];
    try done; try (unfold PGSIZE in *; lia).
  rewrite (lk_vpn (ram s0) P va i); [by rewrite Hv|done|unfold PGSIZE in *; lia|apply vpn_page; (done || lia)].
Qed.

(** The parent's pages are in use, and stay so. *)
Lemma maps_used i q : i < TRAPFRAME -> maps (ram s0) P 0 i q -> page_ok kend PHYSTOP q /\ 0 < cnt s0 (q / PGSIZE).
Proof using Hpre.
  intros Hi (va & Hva & E). unfold upage in E. destruct (has (lk (ram s0) P va) PTE_V) eqn:Hv; [|done].
  injection E as <-. by destruct (us_leaf _ _ _ (fp_parent _ _ _ _ Hpre) va ltac:(lia) Hv).
Qed.

Section step.
Context (i : Z) (s : kst) (Q : pt) (s1 s2 : kst) (Q2 : pt).
Hypothesis Hfk : forked kend s0 P Q0 i s Q.
Hypothesis Hmk : marked i s Q s1.
Hypothesis Hst : vstep kend s1 Q s2 Q2.

Lemma step_cnt q : page_ok kend PHYSTOP q -> 0 < cnt s0 (q / PGSIZE) -> cnt s2 (q / PGSIZE) = cnt s (q / PGSIZE).
Proof using Hfk Hmk Hst.
  intros Hq Hc. apply (fk_use _ _ _ _ _ _ _ Hfk) in Hc; [|done].
  rewrite (fr_cnt _ _ _ _ (vs_fr _ _ _ _ _ Hst)), (mk_cnt _ _ _ _ Hmk); [done|done|by rewrite (mk_cnt _ _ _ _ Hmk)].
Qed.

Lemma step_disjoint q : is_node P q -> ~ is_node Q2 q.
Proof using Hfk Hmk Hst.
  intros HqP. eapply vstep_not_node; [done| |by apply (fk_disjoint _ _ _ _ _ _ _ Hfk)].
  destruct HqP as [n Hn]. destruct (us_vm _ _ _ (mk_P _ _ _ _ Hmk)) as (_ & _ & Hu1). by eapply Hu1.
Qed.

Lemma step_node q : is_node Q2 q -> is_node Q0 q \/ cnt s0 (q / PGSIZE) = 0.
Proof using Hfk Hmk Hst Hpre.
  intros [n Hn]. destruct (ex_new _ _ _ _ (vs_ext _ _ _ _ _ Hst) n q Hn) as [Hn'|Hz].
  - apply (fk_node _ _ _ _ _ _ _ Hfk). by exists n.
  - right. destruct (vs_inv _ _ _ _ _ Hst) as (_ & Hpt2 & _).
    assert (Hq : page_ok kend PHYSTOP q) by (by eapply pi_page).
    rewrite (mk_cnt _ _ _ _ Hmk) in Hz. pose proof (vm_cnt_nonneg _ _ _ _ (us_vm _ _ _ (fp_parent _ _ _ _ Hpre)) Hq).
    destruct (decide (cnt s0 (q / PGSIZE) = 0)); [done|].
    pose proof (fk_use _ _ _ _ _ _ _ Hfk q Hq). lia.
Qed.

Lemma step_ram x :
  (forall q, page_ok kend PHYSTOP q -> q <= x < q + PGSIZE ->
    0 < cnt s0 (q / PGSIZE) /\ ~ is_node P q /\ ~ is_node Q0 q) -> ram s2 x = ram s0 x.
Proof using Hfk Hmk Hst.
  intros Hx. pose proof Hfk as [_ _ _ _ Hnd _ _ _ _ Huse Hram].
  rewrite (fo_ram _ _ _ _ (framed_on _ _ _ _ (vs_fr _ _ _ _ _ Hst))).
  - rewrite (fo_ram _ _ _ _ (mk_frame _ _ _ _ Hmk)); [by apply Hram|]. intros q Hq Hxq.
    destruct (Hx q Hq Hxq) as (? & ? & ?). split; [by apply Huse|done].
  - intros q Hq Hxq. destruct (Hx q Hq Hxq) as (Hc & _ & Hn0). rewrite (mk_cnt _ _ _ _ Hmk).
    split; [by apply Huse|]. intros Hn. destruct (Hnd q Hn); [done|lia].
Qed.

(** The page at [i] is shared: mapped in the child and counted. *)
Lemma fork_step :
  i mod PGSIZE = 0 -> 0 <= i < TRAPFRAME -> let pa := PTE2PA (lk (ram s0) P i) in
  has (lk (ram s0) P i) PTE_V = true -> uspace kend s2 P -> uspace kend s2 Q2 ->
  (forall va, lk (ram s2) P va = lk (ram s1) P va) ->
  (forall va, 0 <= va < MAXVA -> lk (ram s2) Q2 va =
      if (i <=? va) && (va <? i + PGSIZE) then share (lk (ram s0) P i) else lk (ram s) Q va) ->
  exists s3, kaddrefcnt kend pa s2 = Ret 0 s3 /\ forked kend s0 P Q0 (i + PGSIZE) s3 Q2.
Proof using Hpre Hkend Hfk Hmk Hst.
  intros Hm Hi pa Hv HP2 HQ2 HlkP2 HlkQ2.
  pose proof Hfk as [HP HQ Hrt Hdis Hnd HlkP HlkQ Hinc Hcnt Huse Hram].
  destruct (us_leaf _ _ _ (fp_parent _ _ _ _ Hpre) i Hi Hv) as [_ _ Hpg Hc0 _]. fold pa in Hpg, Hc0.
  pose proof (fp_bound _ _ _ _ Hpre i Hi Hv) as Hbd. fold pa in Hbd.
  assert (Hnb : ~ maps (ram s0) P 0 i pa) by (by apply not_below).
  assert (Hc2pa : cnt s2 (pa / PGSIZE) = cnt s0 (pa / PGSIZE)) by (rewrite step_cnt, Hcnt by done; done).
  eexists. split; [apply kaddrefcnt_run; [done|done|lia]|]. set (s3 := set_cnt (pa / PGSIZE) _ s2).
  assert (Hc3 : forall q, page_ok kend PHYSTOP q -> 0 < cnt s0 (q / PGSIZE) -> q <> pa ->
    cnt s3 (q / PGSIZE) = cnt s (q / PGSIZE)).
  { intros q Hq Hc Hne. rewrite <- step_cnt by done. apply (cnt_set_ne kend PHYSTOP); (done || congruence). }
  assert (Hc3pa : cnt s3 (pa / PGSIZE) = cnt s0 (pa / PGSIZE) + 1) by (unfold s3; rewrite cnt_set_eq; lia).
  split.
  - apply uspace_setcnt; [done|done|done|lia|lia].
  - apply uspace_setcnt; [done|done|done|lia|lia].
  - by rewrite (vstep_root _ _ _ _ _ Hst).
  - apply step_disjoint.
  - apply step_node.
  - apply shared_snoc; [done..|]. intros va Hva. change (ram s3) with (ram s2).
    by rewrite HlkP2, (mk_lkP _ _ _ _ Hmk), HlkP by done.
  - apply shared_snoc; [done..|]. intros va Hva. change (ram s3) with (ram s2). by rewrite HlkQ2, HlkQ by done.
  - intros q Hq [Hmp| ->]%maps_snoc; [|done..]. destruct (maps_used i q) as [_ Hc]; [lia|done|].
    rewrite Hc3; [by apply Hinc|done|done|by intros ->].
  - intros q Hq Hc Hmp. rewrite maps_snoc in Hmp by done. apply Decidable.not_or in Hmp as [Hmp Hne].
    by rewrite Hc3, Hcnt.
  - intros q Hq Hc. destruct (decide (q = pa)) as [->|Hne]; [lia|]. rewrite Hc3 by done. by apply Huse.
  - intros x Hx. by apply step_ram.
Qed.

(** What the child maps below [i] is what the parent maps there. *)
Lemma step_maps q :
  i <= TRAPFRAME -> (forall va, 0 <= va < MAXVA -> lk (ram s2) Q2 va = lk (ram s) Q va) ->
  maps (ram s2) Q2 0 i q <-> maps (ram s0) P 0 i q.
Proof using Hpre Hkend Hfk.
  intros Hi Hlk. pose proof trapframe_maxva as Ht.
  assert (Hup : forall va, 0 <= va < i -> upage (ram s2) Q2 va = upage (ram s0) P va).
  { intros va Hva. unfold upage. rewrite Hlk, (fk_lkQ _ _ _ _ _ _ _ Hfk), (proj2 (Z.ltb_lt va i)) by (unfold PGSIZE in *; lia).
    cbn [andb]. destruct (has (lk (ram s0) P va) PTE_V) eqn:Hv.
    - by rewrite share_pa, share_V, Hv by (done || lia).
    - by rewrite (fp_empty _ _ _ _ Hpre) by lia. }
  split; intros (va & Hva & E); exists va; (split; [done|]); by rewrite Hup in *.
Qed.

(** Mapping page [i] in the child failed: the pages below it are given back. *)
Lemma fork_undo id :
  (id < NCPU)%nat -> i mod PGSIZE = 0 -> 0 <= i < TRAPFRAME ->
  has (lk (ram s0) P i) PTE_V = true -> uspace kend s2 P -> uspace kend s2 Q2 -> mem_full kend s2 ->
  (forall va, lk (ram s2) P va = lk (ram s1) P va) ->
  (forall va, 0 <= va < MAXVA -> lk (ram s2) Q2 va = lk (ram s) Q va) ->
  exists s3, uvmunmap kend id (root Q) 0 (i / PGSIZE) true s2 = Ret tt s3 /\ fork_failed kend s0 P Q0 s3 Q2.
Proof using Hpre Hkend Hfk Hmk Hst.
  intros Hid Hm Hi Hv HP2 HQ2 Hfull HlkP2 HlkQ2. pose proof trapframe_maxva as Ht.
  pose proof Hfk as [HP HQ Hrt Hdis Hnd HlkP HlkQ Hinc Hcnt Huse Hram].
  rewrite <- (vstep_root _ _ _ _ _ Hst).
  assert (Hii : 0 + i / PGSIZE * PGSIZE = i) by (unfold PGSIZE in *; dlia).
  destruct (uvmunmap_spec kend id Hkend Hid s2 Q2 0 (i / PGSIZE) HQ2 eq_refl (Z.le_refl _)) as (s3 & Hrun & Hum);
    [apply Z.div_pos; unfold PGSIZE; lia|lia|]. rewrite Hii in Hum.
  exists s3. split; [done|]. pose proof (um_frame _ _ _ _ _ _ Hum) as Hfr. pose proof Hum as [HQ3 HlkQ3 Hdec Hkeep Hram3].
  pose proof (fun q => step_maps q ltac:(lia) HlkQ2) as Hmp.
  assert (Hc3 : forall q, page_ok kend PHYSTOP q -> 0 < cnt s0 (q / PGSIZE) -> cnt s3 (q / PGSIZE) = cnt s0 (q / PGSIZE)).
  { intros q Hq Hc. destruct (maps_dec s0 P 0 i q) as [M|M]; [lia..| |].
    - rewrite Hdec, step_cnt, Hinc by (done || by apply Hmp). lia.
    - rewrite Hkeep, step_cnt, Hcnt by (done || by rewrite Hmp). done. }
  destruct (uspace_frame kend s2 P s3 _ HP2 Hfr) as [HP3 HlkP3].
  { by destruct (us_vm _ _ _ HQ3) as (? & _). }
  { intros q HqP [HqQ|M]; [by apply (step_disjoint q HqP)|]. apply Hmp in M as (va & Hva & E). unfold upage in E.
    destruct (has (lk (ram s0) P va) PTE_V) eqn:Hv'; [|done]. injection E as <-.
    by apply (lf_node _ _ _ _ (us_leaf _ _ _ (fp_parent _ _ _ _ Hpre) va ltac:(lia) Hv')). }
  { intros va q Hva E. unfold upage in E. destruct (has (lk (ram s2) P va) PTE_V) eqn:Hv'; [|done]. injection E as <-.
    destruct (us_leaf _ _ _ HP2 va Hva Hv') as [_ _ Kp Kc _].
    destruct (maps_dec s0 P 0 i (PTE2PA (lk (ram s2) P va))) as [M|M]; [lia..| |].
    - destruct (maps_used i _ ltac:(lia) M) as [_ ?]. by rewrite Hc3.
    - rewrite Hkeep by (done || by rewrite Hmp). done. }
  split; try done.
  - by rewrite (vstep_root _ _ _ _ _ Hst).
  - intros va Hva. rewrite HlkQ3, HlkQ2, HlkQ by (unfold PGSIZE in *; lia).
    rewrite (proj2 (Z.leb_le 0 va)) by lia. cbn [andb].
    destruct (Z.ltb_spec va i); cbn [andb]; [|by apply (fp_empty _ _ _ _ Hpre)].
    destruct (has (lk (ram s0) P va) PTE_V); [destruct (has (share _) PTE_V) eqn:E; [apply has_0|done]|].
    rewrite (fp_empty _ _ _ _ Hpre) by done. by apply (fp_empty _ _ _ _ Hpre).
  - intros va Hva. rewrite HlkP3, HlkP2, (mk_lkP _ _ _ _ Hmk), HlkP by done.
    destruct ((i <=? va) && (va <? i + PGSIZE)) eqn:Eb.
    + right. apply andb_prop in Eb as [E1%Z.leb_le E2%Z.ltb_lt].
      rewrite (lk_vpn (ram s0) P va i); [done|done|unfold PGSIZE in *; lia|apply vpn_page; (done || lia)].
    + destruct (va <? i); cbn [andb]; [|by left]. destruct (has (lk (ram s0) P va) PTE_V); [by right|by left].
  - intros q Hq. destruct (decide (0 < cnt s0 (q / PGSIZE))) as [Hc|Hc]; [by rewrite Hc3|]. rewrite Hkeep; [by apply Hfull|done|].
    rewrite Hmp. intros M. by destruct (maps_used i q ltac:(lia) M).
  - intros x Hx. rewrite Hram3; [by apply step_ram|]. intros q Hq Hxq. destruct (Hx q Hq Hxq) as (Hc & HnP & Hn0).
    rewrite step_cnt by done. split_and!; [by apply Huse| |].
    + intros Hn. destruct (step_node q Hn); [done|lia].
    + rewrite Hmp. intros M. rewrite Hinc by done. lia.
Qed.
End step.

Lemma uvmcopy_loop_eq id fuel new i sz s :
  uvmcopy_loop kend id (S fuel) (root P) new i sz s =
  if i <? sz then
    let next := uvmcopy_loop kend id fuel (root P) new (u64 (i + PGSIZE)) sz in
    (let* pte := walk id (root P) i false in
     if pte =? 0 then next
     else
       let* e := rd64 pte in
       if negb (has e PTE_V) then next
       else
         let* flags := mark_pte pte e in
         let* r := mappages id new i PGSIZE (PTE2PA e) flags in
         if negb (r =? 0) then uvmunmap kend id new 0 (i / PGSIZE) true ;;; ret (-1)
         else let* _ := kaddrefcnt kend (PTE2PA e) in next) s
  else Ret 0 s.
Proof using Type. cbn [uvmcopy_loop]. by destruct (i <? sz). Qed.

(** One round: skip the page, share it, or give up. *)
Lemma uvmcopy_round id fuel i sz s Q :
  (id < NCPU)%nat -> forked kend s0 P Q0 i s Q -> i mod PGSIZE = 0 -> 0 <= i < TRAPFRAME -> i < sz ->
  (exists s3 Q3, forked kend s0 P Q0 (i + PGSIZE) s3 Q3 /\
     uvmcopy_loop kend id (S fuel) (root P) (root Q0) i sz s =
     uvmcopy_loop kend id fuel (root P) (root Q0) (i + PGSIZE) sz s3) \/
  (exists s3 Q3, uvmcopy_loop kend id (S fuel) (root P) (root Q0) i sz s = Ret (-1) s3 /\
     fork_failed kend s0 P Q0 s3 Q3).
Proof using Hpre Hkend.
  intros Hid Hfk Hm Hi Hlt. pose proof trapframe_maxva as Ht.
  assert (HiM : 0 <= i < MAXVA) by (unfold PGSIZE in *; lia).
  pose proof (us_vm _ _ _ (fk_parent _ _ _ _ _ _ _ Hfk)) as (_ & Hpt & _).
  pose proof (us_vm _ _ _ (fp_parent _ _ _ _ Hpre)) as (_ & Hpt0 & _).
  rewrite uvmcopy_loop_eq, (proj2 (Z.ltb_lt i sz)) by done. cbv zeta.
  rewrite (bind_Ret _ _ _ _ _ (walk_ro kend id Hkend s P i Hpt HiM)).
  rewrite u64_small by (unfold PGSIZE, MAXVA in *; lia).
  assert (Hei : lk (ram s) P i = lk (ram s0) P i).
  { by rewrite (fk_lkP _ _ _ _ _ _ _ Hfk), (proj2 (Z.ltb_ge i i)) by lia. }
  destruct (pte_addr P i) as [a|] eqn:Ea; cbn [from_option].
  2:{ left. exists s, Q. split; [|done]. apply forked_skip; [done|done|done|]. unfold lk. by rewrite Ea. }
  change (Datatypes.id a) with a. rewrite (proj2 (Z.eqb_neq a 0)) by (by eapply pte_addr_nonzero).
  rewrite (bind_Ret _ _ _ _ _ (rd64_run a s (pte_addr_in_ram kend Hkend _ _ _ _ Hpt Ea))).
  assert (load64 (ram s) a = lk (ram s0) P i) as -> by (rewrite <- Hei; unfold lk; by rewrite Ea).
  destruct (has (lk (ram s0) P i) PTE_V) eqn:Hv; cbn [negb].
  2:{ left. exists s, Q. split; [|done]. by apply forked_skip. }
  destruct (mark_pte_spec i s Q a Hfk Hm Hi Hv Ea) as (s1 & Hrun1 & Hmk). rewrite (bind_Ret _ _ _ _ _ Hrun1).
  destruct (fork_map id i s Q s1 Hid Hfk Hmk Hm Hi Hv) as (r & s2 & Q2 & Hrun2 & Hst & HP2 & HQ2 & HlkP2 & Hr).
  rewrite (fk_root _ _ _ _ _ _ _ Hfk) in Hrun2. rewrite (bind_Ret _ _ _ _ _ Hrun2).
  destruct Hr as [[-> HlkQ2]|(-> & Hfull & HlkQ2)]; cbn [Z.eqb negb].
  - destruct (fork_step i s Q s1 s2 Q2 Hfk Hmk Hst Hm Hi Hv HP2 HQ2 HlkP2 HlkQ2) as (s3 & Hrun3 & Hfk3).
    left. exists s3, Q2. split; [done|]. by rewrite (bind_Ret _ _ _ _ _ Hrun3).
  - destruct (fork_undo i s Q s1 s2 Q2 Hfk Hmk Hst id Hid Hm Hi Hv HP2 HQ2 Hfull HlkP2 HlkQ2) as (s3 & Hrun3 & Hff).
    rewrite (fk_root _ _ _ _ _ _ _ Hfk) in Hrun3.
    right. exists s3, Q2. split; [|done]. by rewrite (bind_Ret _ _ _ _ _ Hrun3).
Qed.

Lemma uvmcopy_loop_spec id sz : (id < NCPU)%nat -> sz <= TRAPFRAME -> forall fuel i s Q,
  forked kend s0 P Q0 i s Q -> i mod PGSIZE = 0 -> 0 <= i <= PGROUNDUP sz ->
  (Z.to_nat ((PGROUNDUP sz - i) / PGSIZE) < fuel)%nat ->
  exists r s' Q', uvmcopy_loop kend id fuel (root P) (root Q0) i sz s = Ret r s' /\
    (r = 0 /\ forked kend s0 P Q0 (PGROUNDUP sz) s' Q' \/ r = -1 /\ fork_failed kend s0 P Q0 s' Q').
Proof using Hpre Hkend.
  intros Hid Hsz. pose proof (PGROUNDUP_spec sz) as Hup.
  induction fuel as [|fuel IH]; intros i s Q Hfk Hm Hi Hf; [lia|].
  destruct (Z.lt_ge_cases i sz) as [Hlt|Hge].
  - assert (Hstep : i + PGSIZE <= PGROUNDUP sz) by (unfold PGSIZE in *; dlia).
    destruct (uvmcopy_round id fuel i sz s Q Hid Hfk Hm ltac:(lia) Hlt) as [(s3 & Q3 & Hfk3 & ->)|(s3 & Q3 & -> & Hff)].
    + apply (IH _ s3 Q3); [done|unfold PGSIZE in *; dlia|unfold PGSIZE in *; lia|].
      eapply fuel_step; [exact Hf|lia|lia].
    + exists (-1), s3, Q3. split; [done|by right].
  - exists 0, s, Q. rewrite uvmcopy_loop_eq, (proj2 (Z.ltb_ge i sz)) by lia. split; [done|left]. split; [done|].
    assert (PGROUNDUP sz = i) as -> by (unfold PGSIZE in *; dlia). done.
Qed.

Lemma uvmcopy_run id sz : (id < NCPU)%nat -> 0 <= sz <= TRAPFRAME ->
  exists r s' Q', uvmcopy kend id (root P) (root Q0) sz s0 = Ret r s' /\
    (r = 0 /\ forked kend s0 P Q0 (PGROUNDUP sz) s' Q' \/ r = -1 /\ fork_failed kend s0 P Q0 s' Q').
Proof using Hpre Hkend.
  intros Hid Hsz. unfold uvmcopy. apply (uvmcopy_loop_spec id sz Hid (proj2 Hsz) _ 0 s0 Q0); [apply forked_0|done|..].
  - rewrite PGROUNDUP_spec. unfold PGSIZE. dlia.
  - rewrite PGROUNDUP_spec. unfold PGSIZE.
    replace ((sz + 4096 - 1 - (sz + 4096 - 1) mod 4096 - 0) / 4096) with ((sz + 4096 - 1) / 4096) by dlia. lia.
Qed.

End fork.

(** ** What the two address spaces see *)

Section view.
Context (kend : Z).
Hypothesis Hkend : kend_ok kend.
Context (s0 : kst) (P Q0 : pt).
Hypothesis Hpre : fork_pre kend s0 P Q0.
Implicit Types (s : kst) (Q R : pt).

(** The contents of the parent's pages. *)
Lemma user_ram m va x :
  (forall x, (forall q, page_ok kend PHYSTOP q -> q <= x < q + PGSIZE ->
    0 < cnt s0 (q / PGSIZE) /\ ~ is_node P q /\ ~ is_node Q0 q) -> m x = ram s0 x) ->
  0 <= va < TRAPFRAME -> has (lk (ram s0) P va) PTE_V = true -> 0 <= x < PGSIZE ->
  m (PTE2PA (lk (ram s0) P va) + x) = ram s0 (PTE2PA (lk (ram s0) P va) + x).
Proof using Hpre.
  intros Hm Hva Hv Hx. destruct (us_leaf _ _ _ (fp_parent _ _ _ _ Hpre) va Hva Hv) as [_ _ Kp Kc Kn].
  apply Hm. intros q Hq Hxq. assert (q = PTE2PA (lk (ram s0) P va)) as ->.
  { destruct (decide (q = PTE2PA (lk (ram s0) P va))) as [|Hne]; [done|].
    destruct (page_disjoint q (PTE2PA (lk (ram s0) P va))); [apply Hq|apply Kp|done|lia|lia]. }
  split_and!; [done|done|by apply (fp_user _ _ _ _ Hpre)].
Qed.

(** An address that is mapped as in the parent, or shared, reads the same. *)
Lemma umem_same m R va :
  (forall x, (forall q, page_ok kend PHYSTOP q -> q <= x < q + PGSIZE ->
    0 < cnt s0 (q / PGSIZE) /\ ~ is_node P q /\ ~ is_node Q0 q) -> m x = ram s0 x) -> 0 <= va ->
  (va < MAXVA -> lk m R va = lk (ram s0) P va \/
    has (lk (ram s0) P va) PTE_V = true /\ lk m R va = share (lk (ram s0) P va)) ->
  umem m R va = umem (ram s0) P va.
Proof using Hpre Hkend.
  intros Hm Hva Hl. unfold umem. destruct (Z.ltb_spec va MAXVA) as [HM|]; [|done]. cbn [andb].
  assert (E : has (lk m R va) PTE_V = has (lk (ram s0) P va) PTE_V /\ has (lk m R va) PTE_U = has (lk (ram s0) P va) PTE_U).
  { destruct (Hl HM) as [->|[_ ->]]; [done|]. by rewrite share_V, share_U. }
  destruct E as [-> ->].
  destruct (has (lk (ram s0) P va) PTE_V) eqn:Hv, (has (lk (ram s0) P va) PTE_U) eqn:Hu; cbn [andb]; try done.
  assert (HT : va < TRAPFRAME).
  { destruct (Z.lt_ge_cases va TRAPFRAME); [done|].
    rewrite (us_high _ _ _ (fp_parent _ _ _ _ Hpre)) in Hu by (done || lia). done. }
  assert (PTE2PA (lk m R va) = PTE2PA (lk (ram s0) P va)) as ->.
  { destruct (Hl HM) as [->|[_ ->]]; [done|]. apply (share_pa kend Hkend s0 P Q0 Hpre); [lia|done]. }
  f_equal. apply user_ram; [done|lia|done|]. apply Z.mod_pos_bound. unfold PGSIZE. lia.
Qed.

Context (i : Z) (s : kst) (Q : pt).
Hypothesis Hi : 0 <= i <= TRAPFRAME.
Hypothesis Hfk : forked kend s0 P Q0 i s Q.

Lemma forked_parent va : 0 <= va -> umem (ram s) P va = umem (ram s0) P va.
Proof using Hpre Hkend Hfk.
  intros Hva. apply umem_same; [apply Hfk|done|]. intros HM. rewrite (fk_lkP _ _ _ _ _ _ _ Hfk) by lia.
  destruct (va <? i); cbn [andb]; [|by left]. destruct (has (lk (ram s0) P va) PTE_V); [by right|by left].
Qed.

Lemma forked_child va : 0 <= va -> umem (ram s) Q va = if va <? i then umem (ram s0) P va else None.
Proof using Hpre Hkend Hfk Hi.
  intros Hva. pose proof trapframe_maxva as Ht. destruct (Z.ltb_spec va i) as [Hlt|Hge].
  - destruct (has (lk (ram s0) P va) PTE_V) eqn:Hv.
    + apply umem_same; [apply Hfk|done|]. intros HM. right. split; [done|].
      by rewrite (fk_lkQ _ _ _ _ _ _ _ Hfk), (proj2 (Z.ltb_lt _ _)), Hv by lia.
    + unfold umem. rewrite (fk_lkQ _ _ _ _ _ _ _ Hfk) by (unfold PGSIZE in *; lia). rewrite Hv, andb_false_r.
      rewrite (fp_empty _ _ _ _ Hpre) by lia. by rewrite andb_false_r.
  - unfold umem. destruct (Z.ltb_spec va MAXVA) as [HM|]; [|done]. cbn [andb].
    rewrite (fk_lkQ _ _ _ _ _ _ _ Hfk), (proj2 (Z.ltb_ge _ _)) by lia. cbn [andb].
    destruct (Z.lt_ge_cases va TRAPFRAME); [by rewrite (fp_empty _ _ _ _ Hpre) by lia|].
    destruct (has (lk (ram s0) Q0 va) PTE_V) eqn:Hv; [|done].
    by rewrite (us_high _ _ _ (fp_child _ _ _ _ Hpre)) by (done || lia).
Qed.

(** Which pages the two map. *)
Lemma forked_pageP va q : 0 <= va < TRAPFRAME -> upage (ram s) P va = Some q <-> upage (ram s0) P va = Some q.
Proof using Hpre Hkend Hfk.
  intros Hva. pose proof trapframe_maxva as Ht. unfold upage. rewrite (fk_lkP _ _ _ _ _ _ _ Hfk) by (unfold PGSIZE in *; lia).
  destruct ((va <? i) && has (lk (ram s0) P va) PTE_V) eqn:E; [|done]. apply andb_prop in E as [_ Hv].
  by rewrite share_V, (share_pa kend Hkend s0 P Q0 Hpre) by done.
Qed.

Lemma forked_pageQ va q : 0 <= va < TRAPFRAME ->
  upage (ram s) Q va = Some q <-> va < i /\ upage (ram s0) P va = Some q.
Proof using Hpre Hkend Hfk Hi.
  intros Hva. pose proof trapframe_maxva as Ht. unfold upage. rewrite (fk_lkQ _ _ _ _ _ _ _ Hfk) by (unfold PGSIZE in *; lia).
  destruct (Z.ltb_spec va i); cbn [andb].
  - destruct (has (lk (ram s0) P va) PTE_V) eqn:Hv.
    + rewrite share_V, Hv, (share_pa kend Hkend s0 P Q0 Hpre) by done. tauto.
    + rewrite (fp_empty _ _ _ _ Hpre) by lia. split; [done|by intros [_ ?]].
  - rewrite (fp_empty _ _ _ _ Hpre) by lia. split; [done|lia].
Qed.

(** Copy-on-write pages only, as in every address space built by [uvmalloc]. *)
Hypothesis Hcow : cow_ok s0 P.
Hypothesis HWF : forall va, 0 <= va < TRAPFRAME -> has (lk (ram s0) P va) PTE_V = true ->
  has (lk (ram s0) P va) PTE_W || has (lk (ram s0) P va) PTE_F = true.

Hypothesis Him : i mod PGSIZE = 0.

(** The parent's pages: in use, not part of a page table, and shared below [i]. *)
Lemma forked_leaf va q : 0 <= va < TRAPFRAME -> upage (ram s0) P va = Some q ->
  page_ok kend PHYSTOP q /\ 0 < cnt s (q / PGSIZE) /\ ~ is_node P q /\ ~ is_node Q q /\
  if va <? i then 1 < cnt s (q / PGSIZE)
  else cnt s (q / PGSIZE) = cnt s0 (q / PGSIZE) /\ ~ maps (ram s0) P 0 i q.
Proof using Hpre Hfk Hi Him.
  intros Hva E. pose proof E as E1. unfold upage in E. destruct (has (lk (ram s0) P va) PTE_V) eqn:Hv; [|done].
  injection E as Eq. destruct (us_leaf _ _ _ (fp_parent _ _ _ _ Hpre) va Hva Hv) as [_ _ Kp Kc Kn]. rewrite Eq in *.
  split_and!; try done.
  - by apply (fk_use _ _ _ _ _ _ _ Hfk).
  - intros Hn. destruct (fk_node _ _ _ _ _ _ _ Hfk _ Hn) as [Hn0|Hz]; [|lia].
    apply (fp_user _ _ _ _ Hpre va Hva Hv). by rewrite Eq.
  - destruct (Z.ltb_spec va i) as [Hlt|Hge].
    + rewrite (fk_inc _ _ _ _ _ _ _ Hfk); [lia|done|]. exists va. split; [lia|done].
    + assert (Hno : ~ maps (ram s0) P 0 i q); [|split; [by apply (fk_cnt _ _ _ _ _ _ _ Hfk)|done]].
      intros (va' & Hva' & E'). unfold upage in E'.
      destruct (has (lk (ram s0) P va') PTE_V) eqn:Hv'; [|done]. injection E' as E'.
      assert (Ev : vpn va' = vpn va) by (apply (us_inj _ _ _ (fp_parent _ _ _ _ Hpre)); (congruence || lia)).
      unfold vpn, PGSIZE in *. dlia.
Qed.

Lemma forked_cow : cow_ok s P /\ cow_ok s Q.
Proof using Hpre Hkend Hfk Hi Him Hcow HWF.
  pose proof trapframe_maxva as Ht. split.
  - intros va Hva. rewrite (fk_lkP _ _ _ _ _ _ _ Hfk) by (unfold PGSIZE in *; lia).
    destruct ((va <? i) && has (lk (ram s0) P va) PTE_V) eqn:E.
    + apply andb_prop in E as [_ Hv]. intros _ _. rewrite share_F. by apply HWF.
    + intros Hv Hc. rewrite Hv, andb_true_r in E. apply Hcow; [done|done|].
      destruct (forked_leaf va (PTE2PA (lk (ram s0) P va)) Hva) as (_ & _ & _ & _ & Hx).
      { unfold upage. by rewrite Hv. }
      rewrite E in Hx. lia.
  - intros va Hva Hv _. rewrite (fk_lkQ _ _ _ _ _ _ _ Hfk) in * by (unfold PGSIZE in *; lia).
    destruct ((va <? i) && has (lk (ram s0) P va) PTE_V) eqn:E; [|by rewrite (fp_empty _ _ _ _ Hpre) in Hv].
    apply andb_prop in E as [_ Hv']. rewrite share_F. by apply HWF.
Qed.

Lemma forked_pair : cow_pair kend s P Q.
Proof using Hpre Hkend Hfk Hi Him Hcow HWF.
  pose proof Hfk as [HP HQ _ Hdis _ _ _ _ _ _ _].
  assert (HmP : forall q, maps (ram s) P 0 TRAPFRAME q -> maps (ram s0) P 0 TRAPFRAME q).
  { intros q (va & Hva & E). exists va. split; [done|]. by apply forked_pageP. }
  assert (HmQ : forall q, maps (ram s) Q 0 TRAPFRAME q -> maps (ram s0) P 0 i q).
  { intros q (va & Hva & E). apply forked_pageQ in E as [Hlt E]; [|done]. exists va. split; [lia|done]. }
  split; [done|done|apply forked_cow|apply forked_cow|split|split].
  - intros q Hq. split_and!; [|by intros HqP; apply (Hdis q HqP)|].
    + pose proof (us_vm _ _ _ HQ) as (_ & _ & Huse). destruct Hq as [n Hn]. by eapply Huse.
    + left. intros (va & Hva & E)%HmP. by destruct (forked_leaf va q Hva E) as (_ & _ & _ & ? & _).
  - intros va q Hva [Hlt E]%forked_pageQ; [|done]. destruct (forked_leaf va q Hva E) as (_ & ? & ? & _ & Hx).
    rewrite (proj2 (Z.ltb_lt _ _)) in Hx by done. split_and!; [done|done|by right].
  - intros q Hq. split_and!; [|by apply Hdis|].
    + pose proof (us_vm _ _ _ HP) as (_ & _ & Huse). destruct Hq as [n Hn]. by eapply Huse.
    + left. intros (va & Hva & E)%HmQ. by destruct (forked_leaf va q ltac:(lia) E) as (_ & _ & ? & _).
  - intros va q Hva E%forked_pageP; [|done]. destruct (forked_leaf va q Hva E) as (_ & ? & _ & ? & Hx).
    split_and!; [done|done|]. destruct (va <? i); [by right|left]. intros M%HmQ. tauto.
Qed.

End view.

End Ufork.
