(* ===== verification/Ufree.v ===== *)
(** Releasing an address space.

    [uvmfree] and [freewalk] of module [Uvm]: every user page and every page of
    the page table loses exactly one reference, and no other page does. *)

From S2P Require Import Prelude Mem Kstring Kalloc Pgtbl Uvm.
Import Kstring Kalloc Pgtbl Uvm.

Module Ufree.

Lemma page_of_unique kend p q x :
  page_ok kend PHYSTOP p -> page_ok kend PHYSTOP q -> p <= x < p + PGSIZE -> q <= x < q + PGSIZE -> p = q.
Proof.
  intros [Hp _] [Hq _] Hx Hx'. destruct (decide (p = q)) as [|Hne]; [done|].
  destruct (page_disjoint p q); (done || lia).
Qed.

Section freewalk.
Context (kend : Z) (id : nat).
Hypothesis Hkend : kend_ok kend.
Hypothesis Hid : (id < NCPU)%nat.
Implicit Types (s : kst) (D : Z -> Prop).

(** The pages in [D] lost a reference; nothing outside them changed. *)
Record freed s D s' : Prop := {
  fd_inv : exists ls, alloc_inv kend PHYSTOP s' ls;
  fd_dec : forall q, page_ok kend PHYSTOP q -> D q -> cnt s' (q / PGSIZE) = cnt s (q / PGSIZE) - 1;
  fd_keep : forall q, page_ok kend PHYSTOP q -> ~ D q -> cnt s' (q / PGSIZE) = cnt s (q / PGSIZE);
  fd_ram : forall x, (forall q, page_ok kend PHYSTOP q -> q <= x < q + PGSIZE -> ~ D q) -> ram s' x = ram s x }.

(** [s] looks like [s0] on the pages in [D]. *)
Definition same_on D s0 s : Prop :=
  (forall q, page_ok kend PHYSTOP q -> D q -> cnt s (q / PGSIZE) = cnt s0 (q / PGSIZE)) /\
  forall x q, page_ok kend PHYSTOP q -> D q -> q <= x < q + PGSIZE -> ram s x = ram s0 x.

(** [freewalk] of the page [p], as [s0] has it, releases the pages in [D]. *)
Definition frees d p D s0 : Prop :=
  forall s, (exists ls, alloc_inv kend PHYSTOP s ls) -> same_on D s0 s ->
    exists s', freewalk kend id d p s = Ret tt s' /\ freed s D s'.

Section level.
Context (d : nat) (s0 : kst) (p : Z) (child : Z -> option Z) (sub : Z -> Z -> Prop).
Hypothesis Hp : page_ok kend PHYSTOP p.
Hypothesis Hpc : 0 < cnt s0 (p / PGSIZE).
Hypothesis Hentry : forall i, 0 <= i < 512 -> entry_ok (load64 (ram s0) (p + 8 * i)) (child i).
Hypothesis Hchild : forall i c, 0 <= i < 512 -> child i = Some c ->
  page_ok kend PHYSTOP c /\ frees d c (sub i) s0.
Hypothesis Hsub : forall i q, sub i q -> page_ok kend PHYSTOP q /\ 0 < cnt s0 (q / PGSIZE) /\ q <> p.
Hypothesis Hdis : forall i j q, sub i q -> sub j q -> i = j.

(** The pages below the first [n] entries. *)
Definition below n q : Prop := exists i, 0 <= i < n /\ is_Some (child i) /\ sub i q.

Lemma below_S n q : 0 <= n ->
  below (n + 1) q <-> below n q \/ is_Some (child n) /\ sub n q.
Proof using Hid.
  intros Hn. split.
  - intros (i & Hi & Hc & Hs). destruct (decide (i = n)) as [->|]; [by right|]. left. exists i. split; [lia|done].
  - intros [(i & Hi & Hc & Hs)|[Hc Hs]]; [exists i|exists n]; (split; [lia|done]).
Qed.

(** The loop has handled the first [n] entries of the page. *)
Record level_inv s1 n s : Prop := {
  lv_inv : exists ls, alloc_inv kend PHYSTOP s ls;
  lv_dec : forall q, page_ok kend PHYSTOP q -> below n q -> cnt s (q / PGSIZE) = cnt s1 (q / PGSIZE) - 1;
  lv_keep : forall q, page_ok kend PHYSTOP q -> ~ below n q -> cnt s (q / PGSIZE) = cnt s1 (q / PGSIZE);
  lv_ram : forall x, (forall q, page_ok kend PHYSTOP q -> q <= x < q + PGSIZE -> ~ below n q) ->
    ~ (p <= x < p + 8 * n) -> ram s x = ram s1 x }.

Lemma page_not_below n : ~ below n p.
Proof using Hsub. intros (i & _ & _ & Hs). by apply Hsub in Hs as (_ & _ & ?). Qed.

Lemma level_entry s1 n s :
  level_inv s1 n s -> (forall x, p <= x < p + PGSIZE -> ram s1 x = ram s0 x) -> 0 <= n < 512 ->
  load64 (ram s) (p + 8 * n) = load64 (ram s0) (p + 8 * n).
Proof using Hsub Hp Hid.
  intros [_ _ _ Hram] Hs1 Hn. apply load64_ext. intros x Hx.
  rewrite Hram; [apply Hs1; unfold PGSIZE; lia| |lia]. intros q Hq Hxq.
  rewrite (page_of_unique kend q p x) by (done || (unfold PGSIZE; lia)). apply page_not_below.
Qed.

(** A child and its subtree are released, and the entry is cleared. *)
Lemma level_child s1 n s c :
  same_on (fun q => q = p \/ below 512 q) s0 s1 -> level_inv s1 n s -> 0 <= n < 512 -> child n = Some c ->
  exists s', (freewalk kend id d c ;;; wr64 (p + 8 * n) 0) s = Ret tt s' /\ level_inv s1 (n + 1) s'.
Proof using Hkend Hid Hp Hpc Hchild Hsub Hdis.
  intros [Hsc Hsr] [Hinv Hdec Hkeep Hram] Hn Hc.
  destruct (Hchild n c Hn Hc) as [Hcp Hfr].
  assert (Hin : forall q, sub n q -> below 512 q /\ ~ below n q).
  { intros q Hq. split; [by exists n|]. intros (i & Hi & _ & Hq'). pose proof (Hdis _ _ _ Hq Hq'). lia. }
  destruct (Hfr s) as (s2 & Hrun & [[ls2 Hls2] Hdec2 Hkeep2 Hram2]); [done| |].
  { split.
    - intros q Hq Hs. destruct (Hin q Hs). rewrite Hkeep, Hsc; (done || by right).
    - intros x q Hq Hs Hx. destruct (Hin q Hs). destruct (Hsub n q Hs) as (_ & _ & Hne). rewrite Hram.
      + apply (Hsr x q); (done || by right).
      + intros q' Hq' Hx'. by rewrite (page_of_unique kend q' q x).
      + intros Hx'. apply Hne, (page_of_unique kend q p x); (done || unfold PGSIZE; lia). }
  assert (Hps : ~ sub n p) by (intros Hs; by apply Hsub in Hs as (_ & _ & ?)).
  assert (Hcp2 : 0 < cnt s2 (p / PGSIZE)).
  { rewrite Hkeep2, Hkeep, Hsc; [done|done|by left|done|apply page_not_below|done|done]. }
  rewrite (bind_Ret _ _ _ _ _ Hrun), wr64_run by (apply (in_ram_page kend Hkend); [done|lia|unfold PGSIZE; lia]).
  eexists. split; [reflexivity|]. split.
  - exists ls2. apply (inv_write _ _ s2 ls2 p); [done|done| | |].
    + rewrite (ai_free _ _ _ _ Hls2) by done. lia.
    + apply store_ok, Hls2.
    + intros x Hx. cbn [ram]. unfold store64. apply store_out. unfold PGSIZE in Hx. lia.
  - intros q Hq [Hb|[_ Hs]]%below_S; [| |lia].
    + cbn [cnt set_ram]. rewrite Hkeep2, Hdec; (done || intros Hs; by destruct (Hin q Hs)).
    + cbn [cnt set_ram]. destruct (Hin q Hs). by rewrite Hdec2, Hkeep.
  - intros q Hq Hb. rewrite below_S in Hb by lia. cbn [cnt set_ram].
    rewrite Hkeep2, Hkeep; [done|done|tauto|done|]. intros Hs. apply Hb. right. by rewrite Hc.
  - intros x Hx Hxp. cbn [ram set_ram]. unfold store64. rewrite store_out by lia.
    rewrite Hram2, Hram; [done| |lia|].
    + intros q Hq Hxq Hb. apply (Hx q Hq Hxq), below_S; [lia|by left].
    + intros q Hq Hxq Hs. apply (Hx q Hq Hxq), below_S; [lia|]. right. by rewrite Hc.
Qed.

(** One page of the table and everything below it. *)
Lemma walk_frees : frees (S d) p (fun q => q = p \/ below 512 q) s0.
Proof using Hkend Hid Hp Hpc Hentry Hchild Hsub Hdis.
  intros s1 Hinv1 Hsame. pose proof Hsame as [Hsc Hsr]. cbn [freewalk].
  destruct (for_loop_inv (level_inv s1) (fun i =>
        let* pte := rd64 (p + 8 * i) in
        if has pte PTE_V && negb (has pte (Z.lor (Z.lor PTE_R PTE_W) PTE_X)) then
          freewalk kend id d (PTE2PA pte) ;;; wr64 (p + 8 * i) 0
        else ret tt) 512 0 s1) as (s2 & Hrun & Hlv).
  - split; [done| |done|done]. intros q Hq (i & Hi & _). lia.
  - intros n s Hn Hlv. change (0 + Z.of_nat 512) with 512 in Hn.
    rewrite (bind_Ret _ _ _ _ _ (rd64_run _ s (in_ram_page kend Hkend p (8 * n) 8 Hp ltac:(lia) ltac:(unfold PGSIZE; lia)))).
    rewrite (level_entry s1 n s Hlv) by (done || by intros x Hx; apply (Hsr x p); [done|left|]).
    pose proof (Hentry n Hn) as He. destruct (child n) as [c|] eqn:Hc; cbn [entry_ok] in He.
    + destruct (Hchild n c Hn Hc) as [Hcp _]. pose proof (page_small kend Hkend c Hcp) as Hcs.
      rewrite He, !mk_pte_has, mk_pte_pa by (try apply Hcp; unfold PTE_V; (lia || done || (cbn; lia))).
      cbn [has]. by apply level_child.
    + rewrite He. exists s. split; [done|]. destruct Hlv as [L1 L2 L3 L4].
      assert (Hb : forall q, below (n + 1) q <-> below n q).
      { intros q. rewrite below_S by lia. rewrite Hc. split; [|by left]. intros [|[[? [=]] _]]. done. }
      split; [done|..].
      * intros q Hq Hq'. by apply L2, Hb.
      * intros q Hq Hq'. apply L3; [done|]. by rewrite <- Hb.
      * intros x Hx Hxp. apply L4; [|lia]. intros q Hq Hxq. rewrite <- Hb. by apply Hx.
  - change (0 + Z.of_nat 512) with 512 in Hlv. rewrite (bind_Ret _ _ _ _ _ Hrun).
    destruct Hlv as [[ls2 Hls2] L2 L3 L4].
    destruct (kfree_spec kend Hkend s2 ls2 id p Hls2 Hid Hp) as (s3 & ls3 & Hk & Hls3 & Hcnt & Hram).
    { rewrite L3, Hsc; [done|done|by left|done|apply page_not_below]. }
    exists s3. split; [done|]. split; [by exists ls3|..].
    + intros q Hq [->|Hb]; rewrite Hcnt.
      * rewrite cnt_set_eq, L3; [done|done|apply page_not_below].
      * rewrite (cnt_set_ne kend PHYSTOP); [by apply L2|done|done|]. intros <-. by apply page_not_below in Hb.
    + intros q Hq Hn. rewrite Hcnt, (cnt_set_ne kend PHYSTOP); [apply L3; tauto|done|done|]. intros <-. tauto.
    + intros x Hx. assert (Hxp : ~ (p <= x < p + PGSIZE)) by (intros Hx'; apply (Hx p Hp Hx'); by left).
      rewrite Hram by done. apply L4; [|unfold PGSIZE in *; lia]. intros q Hq Hxq Hb. apply (Hx q Hq Hxq). by right.
Qed.
End level.

(** ** The three levels *)

Lemma frees_ext d p D D' s0 : (forall q, D q <-> D' q) -> frees d p D s0 -> frees d p D' s0.
Proof using Type.
  intros E Hf s Hinv [Hc Hr]. destruct (Hf s Hinv) as (s' & Hrun & [F1 F2 F3 F4]).
  { split; [intros q Hq Hd; by apply Hc, E|intros x q Hq Hd; apply (Hr x q Hq), E, Hd]. }
  exists s'. split; [done|]. split; [done|..].
  - intros q Hq Hd. by apply F2, E.
  - intros q Hq Hd. apply F3; [done|]. by rewrite E.
  - intros x Hx. apply F4. intros q Hq Hxq. rewrite E. by apply Hx.
Qed.

Section tree.
Context (s0 : kst) (P : pt).
Hypothesis Hvm : vm_inv kend s0 P.
Hypothesis Hbare : forall i j p k, low P !! (i, j) = Some p -> 0 <= k < 512 ->
  has (load64 (ram s0) (p + 8 * k)) PTE_V = false.

Lemma node_used n p : node_page P n = Some p -> page_ok kend PHYSTOP p /\ 0 < cnt s0 (p / PGSIZE) /\ in_table n.
Proof using Hvm.
  intros Hn. destruct Hvm as (_ & Hpt & Huse). destruct (pi_page _ _ _ Hpt n p Hn). split_and!; [done|by eapply Huse|done].
Qed.

Lemma low_frees i j p : low P !! (i, j) = Some p -> frees 1 p (fun q => q = p) s0.
Proof using Hkend Hid Hvm Hbare.
  intros Hl. destruct (node_used (Low i j) p Hl) as (Hp & Hc & _).
  eapply frees_ext; [|apply (walk_frees 0 s0 p (fun _ => None) (fun _ _ => False)); try done].
  - intros q. split; [|by left]. intros [|(k & _ & [? [=]] & _)]. done.
  - intros k Hk. by eapply Hbare.
Qed.

Lemma mid_frees i p : mid P !! i = Some p -> frees 2 p (fun q => q = p \/ exists j, low P !! (i, j) = Some q) s0.
Proof using Hkend Hid Hvm Hbare.
  intros Hm. destruct (node_used (Mid i) p Hm) as (Hp & Hc & Hi). pose proof Hvm as (_ & Hpt & _).
  assert (Hin : forall j q, low P !! (i, j) = Some q -> 0 <= j < 512) by (intros j q Hl; apply (node_used (Low i j) q Hl)).
  eapply frees_ext; [|apply (walk_frees 1 s0 p (fun j => low P !! (i, j)) (fun j q => low P !! (i, j) = Some q)); try done].
  - intros q. split.
    + intros [->|(j & _ & _ & Hl)]; [by left|right; by exists j].
    + intros [->|[j Hl]]; [by left|right]. exists j. split; [by eapply Hin|done].
  - intros j Hj. apply (pi_entry _ _ _ Hpt (Low i j)); [done|]. cbn [entry_addr]. by rewrite Hm.
  - intros j c Hj Hl. split; [by apply (node_used (Low i j) c Hl)|].
    eapply frees_ext; [|by eapply low_frees]. intros q. rewrite Hl. split; [by intros ->|by intros [= ->]].
  - intros j q Hl. destruct (node_used (Low i j) q Hl) as (? & ? & _). split_and!; try done. intros ->.
    by pose proof (pi_inj _ _ _ Hpt (Low i j) (Mid i) p Hl Hm).
  - intros j j' q Hl Hl'. by injection (pi_inj _ _ _ Hpt (Low i j) (Low i j') q Hl Hl').
Qed.

(** All pages of the table are released. *)
Lemma root_frees : frees 3 (root P) (is_node P) s0.
Proof using Hkend Hid Hvm Hbare.
  destruct (node_used Root (root P) eq_refl) as (Hp & Hc & _). pose proof Hvm as (_ & Hpt & _).
  set (sub := fun i q => mid P !! i = Some q \/ exists j, low P !! (i, j) = Some q).
  assert (Hsub : forall i q, sub i q -> exists n, node_page P n = Some q /\
    match n with Root => False | Mid i' | Low i' _ => i' = i end).
  { intros i q [Hm|[j Hl]]; [by exists (Mid i)|by exists (Low i j)]. }
  eapply frees_ext; [|apply (walk_frees 2 s0 (root P) (fun i => mid P !! i) sub); try done].
  - intros q. split.
    + intros [->|(i & _ & _ & Hs)]; [by exists Root|]. destruct (Hsub i q Hs) as (n & Hn & _). by exists n.
    + intros [[|i|i j] Hn]; [left; by injection Hn|right..]; exists i; cbn in Hn.
      * split; [by apply (node_used (Mid i) q Hn)|]. split; [by exists q|by left].
      * split; [by apply (node_used (Low i j) q Hn)|]. split; [by eapply pi_dom|right; by exists j].
  - intros i Hi. by apply (pi_entry _ _ _ Hpt (Mid i)).
  - intros i c Hi Hm. split; [by apply (node_used (Mid i) c Hm)|].
    eapply frees_ext; [|by eapply mid_frees]. intros q. unfold sub. rewrite Hm.
    split; intros [Hq|Hq]; try (by right); left; congruence.
  - intros i q Hs. destruct (Hsub i q Hs) as (n & Hn & Hi). destruct (node_used n q Hn) as (? & ? & _).
    split_and!; try done. intros ->. rewrite (pi_inj _ _ _ Hpt n Root (root P) Hn eq_refl) in Hi. done.
  - intros i j q Hs Hs'. destruct (Hsub i q Hs) as (n & Hn & Hi), (Hsub j q Hs') as (n' & Hn' & Hj).
    rewrite (pi_inj _ _ _ Hpt n n' q Hn Hn') in Hi. destruct n'; by subst.
Qed.
End tree.

(** Every leaf PTE belongs to an address below MAXVA, so an address space that
    maps nothing has only invalid ones. *)
Lemma bare_leaves m P :
  (forall i p, mid P !! i = Some p -> i < 256) -> pt_inv kend m P ->
  (forall va, 0 <= va < MAXVA -> has (lk m P va) PTE_V = false) ->
  forall i j p k, low P !! (i, j) = Some p -> 0 <= k < 512 -> has (load64 m (p + 8 * k)) PTE_V = false.
Proof using Hid.
  intros H256 Hpt Hno i j p k Hl Hk. destruct (pi_page _ _ _ Hpt (Low i j) p Hl) as [_ [Hi Hj]].
  destruct (pi_dom _ _ _ Hpt i j p Hl) as [q Hq]. apply H256 in Hq.
  set (va := i * 2 ^ 30 + j * 2 ^ 21 + k * 2 ^ 12).
  assert (Hva : 0 <= va < MAXVA) by (unfold va, MAXVA; lia).
  assert (H2 : PX 2 va = i) by (rewrite PX_val by lia; unfold va; change (2 ^ (12 + 9 * 2)) with (2 ^ 30); dlia).
  assert (H1 : PX 1 va = j) by (rewrite PX_val by lia; unfold va; change (2 ^ (12 + 9 * 1)) with (2 ^ 21); dlia).
  assert (H0 : PX 0 va = k) by (rewrite PX_val by lia; unfold va; change (2 ^ (12 + 9 * 0)) with (2 ^ 12); dlia).
  specialize (Hno va Hva). unfold lk, pte_addr in Hno. by rewrite H2, H1, Hl, H0 in Hno.
Qed.

(** The address space [P] of [s] is gone in [s']: its pages lost one reference,
    and no other page changed, the shared ones included. *)
Record released s P s' : Prop := {
  re_inv : exists ls, alloc_inv kend PHYSTOP s' ls;
  re_dec : forall q, page_ok kend PHYSTOP q -> is_node P q \/ maps (ram s) P 0 TRAPFRAME q ->
    cnt s' (q / PGSIZE) = cnt s (q / PGSIZE) - 1;
  re_keep : forall q, page_ok kend PHYSTOP q -> ~ is_node P q -> ~ maps (ram s) P 0 TRAPFRAME q ->
    cnt s' (q / PGSIZE) = cnt s (q / PGSIZE);
  re_ram : forall x, (forall q, page_ok kend PHYSTOP q -> q <= x < q + PGSIZE ->
    0 < cnt s (q / PGSIZE) /\ ~ is_node P q /\ (maps (ram s) P 0 TRAPFRAME q -> 1 < cnt s (q / PGSIZE))) ->
    ram s' x = ram s x }.

(** Nothing is left of an address space whose size covers what it maps. *)
Lemma uvmfree_run s P sz :
  uspace kend s P -> 0 <= sz <= TRAPFRAME -> (forall i p, mid P !! i = Some p -> i < 256) ->
  (forall va, sz <= va < MAXVA -> upage (ram s) P va = None) ->
  exists s', uvmfree kend id (root P) sz s = Ret tt s' /\ released s P s'.
Proof using Hkend Hid.
  intros Hus Hsz H256 Hno. pose proof trapframe_maxva as Ht.
  pose proof (PGROUNDUP_bounds sz) as [Hub Hum]. set (e := PGROUNDUP sz) in *.
  assert (HeT : e <= TRAPFRAME).
  { unfold e. rewrite PGROUNDUP_spec. assert (TRAPFRAME mod PGSIZE = 0) by done. unfold PGSIZE in *. dlia. }
  assert (Hv : forall va, sz <= va < MAXVA -> has (lk (ram s) P va) PTE_V = false).
  { intros va Hva. specialize (Hno va Hva). unfold upage in Hno. by destruct (has (lk (ram s) P va) PTE_V). }
  assert (Hstep : exists s1, when (0 <? sz) (uvmunmap kend id (root P) 0 (e / PGSIZE) true) s = Ret tt s1 /\
    unmapped kend s P 0 e s1).
  { destruct (Z.ltb_spec 0 sz); cbn [when].
    - assert (Ee : 0 + e / PGSIZE * PGSIZE = e) by (unfold PGSIZE in *; dlia).
      pose proof (uvmunmap_spec kend id Hkend Hid s P 0 (e / PGSIZE) Hus eq_refl (Z.le_refl _)) as Hu.
      rewrite Ee in Hu. apply Hu; [apply Z.div_pos; unfold PGSIZE in *; lia|done].
    - exists s. split; [done|]. apply unmapped_none; [done|]. intros va Hva. apply Hv. unfold PGSIZE in *. lia. }
  destruct Hstep as (s1 & Hrun1 & Hun). pose proof Hun as [Hus1 Hlk1 Hdec Hkeep Hram1].
  pose proof (us_vm _ _ _ Hus1) as Hvm1. pose proof Hvm1 as (Hal1 & Hpt1 & _).
  destruct (root_frees s1 P Hvm1) with (s := s1) as (s2 & Hrun2 & [F1 F2 F3 F4]); [|done|by split|].
  { eapply bare_leaves; [done|done|]. intros va Hva. rewrite Hlk1 by done. rewrite (proj2 (Z.leb_le 0 va)) by lia. cbn [andb].
    destruct (Z.ltb_spec va e) as [Hlt|Hge]; cbn [andb]; [|apply Hv; lia].
    destruct (has (lk (ram s) P va) PTE_V) eqn:E; [apply has_0|done]. }
  exists s2. unfold uvmfree. fold e. rewrite (bind_Ret _ _ _ _ _ Hrun1). split; [done|].
  assert (Hmp : forall q, maps (ram s) P 0 TRAPFRAME q <-> maps (ram s) P 0 e q).
  { intros q. split; intros (va & Hva & E); exists va; (split; [|done]); [|lia].
    split; [lia|]. destruct (Z.lt_ge_cases va e); [done|]. rewrite Hno in E by (unfold PGSIZE in *; lia). done. }
  assert (Hnm : forall q, is_node P q -> ~ maps (ram s) P 0 e q).
  { intros q Hn (va & Hva & E). unfold upage in E. destruct (has (lk (ram s) P va) PTE_V) eqn:E'; [|done]. injection E as <-.
    by apply (lf_node _ _ _ _ (us_leaf _ _ _ Hus va ltac:(lia) E')). }
  split; [done|..].
  - intros q Hq [Hn|Hm%Hmp].
    + rewrite F2, Hkeep; (done || by apply Hnm).
    + rewrite F3, Hdec; (done || intros Hn; by apply (Hnm q)).
  - intros q Hq Hn Hm. rewrite F3, Hkeep; [done|done| |done|done]. by rewrite <- Hmp.
  - intros x Hx. rewrite F4, Hram1; [done|..].
    + intros q Hq Hxq. rewrite <- Hmp. by apply Hx.
    + intros q Hq Hxq Hn. by apply (Hx q Hq Hxq).
Qed.

End freewalk.
End Ufree.
