(* ===== verification/Vmspec.v ===== *)
(** What the virtual-memory system promises to the rest of the kernel.

    The theorems about [src/kernel/mm/vm.c] and the copy-on-write half of
    [src/kernel/mm/kalloc.c], in terms of the user's view [umem] of an address
    space, and a small concrete machine state they are applied to. *)

From S2P Require Import Prelude Mem Kstring Kalloc Pgtbl Uvm Ucopy Ucow Ufork Ufree.
Import Kstring Kalloc Pgtbl Uvm Ucopy Ucow Ufork Ufree.

Module Vmspec.

(** Every user page can be written, if need be after a copy. *)
Definition writable (s : kst) (P : pt) : Prop :=
  forall va, 0 <= va < TRAPFRAME -> has (lk (ram s) P va) PTE_V = true ->
    has (lk (ram s) P va) PTE_W || has (lk (ram s) P va) PTE_F = true.

Lemma PGROUNDUP_trapframe sz : sz <= TRAPFRAME -> PGROUNDUP sz <= TRAPFRAME.
Proof.
  intros H. rewrite PGROUNDUP_spec. assert (TRAPFRAME mod PGSIZE = 0) by done. unfold PGSIZE in *. dlia.
Qed.

(** What an address space reads is determined by its PTEs, when the operation
    leaves its pages alone. *)
Lemma umem_frame kend s P s' P' va :
  uspace kend s P -> frame_on kend (is_node P) s s' -> 0 <= va ->
  (va < MAXVA -> lk (ram s') P' va = lk (ram s) P va) -> umem (ram s') P' va = umem (ram s) P va.
Proof.
  intros Hus Hfr Hva Hlk. unfold umem. destruct (Z.ltb_spec va MAXVA) as [HM|]; [|done].
  rewrite Hlk by done. cbn [andb].
  destruct (has (lk (ram s) P va) PTE_V) eqn:Hv, (has (lk (ram s) P va) PTE_U) eqn:Hu; cbn [andb]; try done.
  assert (HT : 0 <= va < TRAPFRAME).
  { destruct (Z.lt_ge_cases va TRAPFRAME); [lia|]. rewrite (us_high _ _ _ Hus) in Hu by (done || lia). done. }
  destruct (us_leaf _ _ _ Hus va HT Hv) as [_ _ Kp Kc Kn]. f_equal.
  pose proof (Z.mod_pos_bound va PGSIZE ltac:(unfold PGSIZE; lia)). eapply frame_page; [done|exact Kp|done|done|lia].
Qed.

Lemma extends_root kend s P P' : extends kend s P P' -> root P' = root P.
Proof. intros [Ho _]. by injection (Ho Root (root P) eq_refl). Qed.

Lemma dealloc_run kend id s P oldsz newsz :
  kend_ok kend -> (id < NCPU)%nat -> uspace kend s P -> 0 <= newsz <= oldsz -> oldsz <= TRAPFRAME ->
  exists s', uvmdealloc kend id (root P) oldsz newsz s = Ret newsz s' /\
    unmapped kend s P (PGROUNDUP newsz) (PGROUNDUP oldsz) s'.
Proof.
  intros Hk Hid Hus Hn Ho. pose proof (PGROUNDUP_bounds newsz) as [Hnb Hnm]. pose proof (PGROUNDUP_bounds oldsz) as [Hob Hom].
  pose proof (PGROUNDUP_trapframe oldsz Ho) as HT. pose proof trapframe_maxva as Ht. unfold uvmdealloc.
  set (a := PGROUNDUP newsz) in *. set (b := PGROUNDUP oldsz) in *. destruct (Z.leb_spec oldsz newsz) as [Hle|Hlt].
  { assert (newsz = oldsz) as -> by lia. exists s. split; [done|]. apply unmapped_none; [done|]. fold a b. lia. }
  destruct (Z.ltb_spec a b) as [Hab|Hab]; cbn [when].
  2:{ exists s. split; [done|]. apply unmapped_none; [done|]. lia. }
  assert (Hq : a + (b - a) / PGSIZE * PGSIZE = b) by (unfold PGSIZE in *; dlia).
  assert (0 <= (b - a) / PGSIZE < 2 ^ 31) by (unfold PGSIZE, MAXVA in *; dlia). rewrite s32_small by lia.
  destruct (uvmunmap_spec kend id Hk Hid s P a ((b - a) / PGSIZE) Hus Hnm) as (s' & Hrun & Hun); [lia|lia|lia|].
  rewrite Hq in Hun. exists s'. by rewrite (bind_Ret _ _ _ _ _ Hrun).
Qed.

Lemma unmapped_umem kend s P a b s' va :
  uspace kend s P -> 0 <= a -> b <= TRAPFRAME -> a mod PGSIZE = 0 -> b mod PGSIZE = 0 -> unmapped kend s P a b s' -> 0 <= va ->
  umem (ram s') P va = if (a <=? va) && (va <? b) then None else umem (ram s) P va.
Proof.
  intros Hus Ha Hb Ham Hbm Hun Hva. pose proof (um_frame _ _ _ _ _ _ Hun) as Hfr. destruct Hun as [_ Hlk _ _ _].
  pose proof trapframe_maxva as Ht. unfold umem. destruct (Z.ltb_spec va MAXVA) as [HM|HM].
  2:{ rewrite (proj2 (Z.ltb_ge va b)) by (unfold PGSIZE in *; lia). by rewrite andb_false_r. }
  rewrite Hlk by lia. destruct ((a <=? va) && (va <? b)) eqn:E; cbn [andb].
  - destruct (has (lk (ram s) P va) PTE_V) eqn:Hv; [by rewrite has_0|by rewrite Hv].
  - destruct (has (lk (ram s) P va) PTE_V) eqn:Hv, (has (lk (ram s) P va) PTE_U) eqn:Hu; cbn [andb]; try done.
    assert (HT : 0 <= va < TRAPFRAME).
    { destruct (Z.lt_ge_cases va TRAPFRAME); [lia|]. rewrite (us_high _ _ _ Hus) in Hu by (done || lia). done. }
    destruct (us_leaf _ _ _ Hus va HT Hv) as [_ _ Kp Kc Kn]. f_equal.
    pose proof (Z.mod_pos_bound va PGSIZE ltac:(unfold PGSIZE; lia)).
    eapply frame_page; [done|exact Kp|done| |lia]. intros [Hn|(va' & Hva' & E')]; [done|]. unfold upage in E'.
    destruct (has (lk (ram s) P va') PTE_V) eqn:Hv'; [|done]. injection E' as E'.
    assert (Ev : vpn va' = vpn va) by (apply (us_inj _ _ _ Hus); (done || lia)).
    destruct (Z.leb_spec a va), (Z.ltb_spec va b); cbn [andb] in E; try done; unfold vpn, PGSIZE in *; dlia.
Qed.

(** The PTE [e'] that parent and child have for a page of the parent with PTE [e]: the
    same frame, never writable; a page that was writable becomes copy-on-write, and one
    that was not keeps its flags. *)
Record shared_pte (e e' : Z) : Prop := {
  sh_pa : PTE2PA e' = PTE2PA e;
  sh_W : has e' PTE_W = false;
  sh_F : has e' PTE_F = has e PTE_W || has e PTE_F;
  sh_rest : forall b, b = PTE_V \/ b = PTE_U \/ b = PTE_R \/ b = PTE_X -> has e' b = has e b }.

Lemma forked_shared kend s P Q i s' Q' va : kend_ok kend -> fork_pre kend s P Q -> forked kend s P Q i s' Q' -> 0 <= va < i -> i <= TRAPFRAME ->
  has (lk (ram s) P va) PTE_V = true ->
  shared_pte (lk (ram s) P va) (lk (ram s') P va) /\ lk (ram s') Q' va = lk (ram s') P va /\
  cnt s' (PTE2PA (lk (ram s) P va) / PGSIZE) = cnt s (PTE2PA (lk (ram s) P va) / PGSIZE) + 1.
Proof.
  intros Hk Hpre Hfk Hva Hi Hv. pose proof trapframe_maxva as Ht. assert (HM : 0 <= va < MAXVA) by (unfold PGSIZE in *; lia).
  rewrite (fk_lkQ _ _ _ _ _ _ _ Hfk), (fk_lkP _ _ _ _ _ _ _ Hfk) by done. rewrite (proj2 (Z.ltb_lt va i)), Hv by lia. cbn [andb]. split_and!; [split|done|].
  - apply (share_pa kend Hk s P Q Hpre); [lia|done].
  - apply share_W.
  - apply share_F.
  - intros b [-> |[-> |Hb]]; [apply share_V|apply share_U|by apply share_flag].
  - destruct (us_leaf _ _ _ (fp_parent _ _ _ _ Hpre) va ltac:(lia) Hv) as [_ _ Kp _ _]. apply (fk_inc _ _ _ _ _ _ _ Hfk); [done|]. exists va. split; [lia|]. unfold upage. by rewrite Hv.
Qed.

(** C2: [fork]'s [uvmcopy] into an empty page table always returns. When it succeeds, the
    child reads exactly what the parent reads below the copied size, every page of the
    parent there is in both page tables in the same frame with one more reference and is
    writable in neither: a page that was writable is copy-on-write in both, and a
    read-only page, such as one of a mapped file, keeps its flags. If all pages of the
    parent were writable or copy-on-write, the two are then a copy-on-write pair, which
    the kernel keeps apart. It fails only when no page frame is free; then the child maps
    nothing and every reference count is what it was. The parent's memory reads as before
    in both cases. *)
Theorem uvmcopy_forks kend id s P Q sz :
  kend_ok kend -> (id < NCPU)%nat -> fork_pre kend s P Q -> 0 <= sz <= TRAPFRAME ->
  exists r s' Q', uvmcopy kend id (root P) (root Q) sz s = Ret r s' /\ root Q' = root Q /\ uspace kend s' P /\ uspace kend s' Q' /\
    (forall va, 0 <= va -> umem (ram s') P va = umem (ram s) P va) /\
    (r = 0 /\
       (forall va, 0 <= va -> umem (ram s') Q' va = if va <? PGROUNDUP sz then umem (ram s) P va else None) /\
       (forall va, 0 <= va < PGROUNDUP sz -> has (lk (ram s) P va) PTE_V = true ->
          shared_pte (lk (ram s) P va) (lk (ram s') P va) /\ lk (ram s') Q' va = lk (ram s') P va /\
          cnt s' (PTE2PA (lk (ram s) P va) / PGSIZE) = cnt s (PTE2PA (lk (ram s) P va) / PGSIZE) + 1) /\
       (cow_ok s P -> writable s P -> cow_pair kend s' P Q') \/
     r = -1 /\ mem_full kend s' /\
       (forall va, 0 <= va < TRAPFRAME -> upage (ram s') Q' va = None) /\
       forall q, page_ok kend PHYSTOP q -> 0 < cnt s (q / PGSIZE) -> cnt s' (q / PGSIZE) = cnt s (q / PGSIZE)).
Proof.
  intros Hk Hid Hpre Hsz.
  destruct (uvmcopy_run kend Hk s P Q Hpre id sz Hid Hsz) as (r & s' & Q' & Hrun & Hr).
  pose proof (PGROUNDUP_bounds sz) as [Hub Hum]. pose proof (PGROUNDUP_trapframe sz (proj2 Hsz)) as HT.
  exists r, s', Q'. split; [done|]. destruct Hr as [[-> Hfk]|[-> Hff]].
  - split_and!; [apply Hfk|apply Hfk|apply Hfk|by eapply forked_parent|left]. split_and!; [done|..].
    + intros va Hva. by eapply (forked_child kend Hk s P Q Hpre (PGROUNDUP sz)); [lia|..].
    + intros va Hva Hv. by apply (forked_shared kend s P Q (PGROUNDUP sz)).
    + intros Hcow HWF. by eapply (forked_pair kend Hk s P Q Hpre (PGROUNDUP sz)); [lia|..].
  - destruct Hff as [F1 F2 F3 F4 F5 F6 F7 F8]. split_and!; [done|done|done| |right; split_and!; try done].
    + intros va Hva. eapply (umem_same kend Hk s P Q Hpre); [done|done|]. intros. by apply F5.
    + intros va Hva. unfold upage. by rewrite F4.
Qed.

(** C5: writing [len] bytes to user memory with [copyout] always returns and
    stores the bytes up to the first address it cannot write; it gives up only
    at an address the user has not mapped, or when memory is exhausted. The
    other address space of a copy-on-write pair never sees the write, and the
    two are still a pair. *)
Theorem copyout_isolated kend id s P Q dstva src len :
  kend_ok kend -> (id < NCPU)%nat -> cow_pair kend s P Q -> ksrc kend s P src len -> 0 <= dstva -> 0 <= len ->
  exists r s' k, copyout kend id (root P) dstva src len s = Ret r s' /\ 0 <= k <= len /\
    cow_pair kend s' P Q /\
    (forall va, 0 <= va -> umem (ram s') Q va = umem (ram s) Q va) /\
    (forall va, 0 <= va -> umem (ram s') P va =
       if (dstva <=? va) && (va <? dstva + k) then Some (ram s (src + (va - dstva))) else umem (ram s) P va) /\
    (r = 0 /\ k = len \/
     r = -1 /\ k < len /\ (umem (ram s) P (dstva + k) = None \/
                          forall p, page_ok kend PHYSTOP p -> 0 < cnt s' (p / PGSIZE))).
Proof.
  intros Hk Hid Hpair Hsrc Hva Hlen.
  destruct (copyout_loop_spec kend Hk id P Hid (copy_fuel len) s dstva src len) as
    (r & s' & k & Hrun & Hus & Hcow & Hkp & Hkr & Hw & Hr); try apply Hpair; try done.
  { by apply rounds_fuel. }
  destruct (cow_pair_keeps kend Hk s P Q s' Hpair Hkp Hus Hcow) as [Hpair' Hq].
  exists r, s', k. split; [done|]. split; [done|]. by split_and!.
Qed.

(** [copyin] always returns, fills the buffer with the user's bytes up to
    the first address the user has not mapped, and changes nothing else. *)
Theorem copyin_reads kend id s P dst srcva len :
  kend_ok kend -> uspace kend s P -> kbuf kend s P dst len -> 0 <= srcva -> 0 <= len ->
  exists r m' k, copyin id (root P) dst srcva len s = Ret r (set_ram m' s) /\ 0 <= k <= len /\
    (forall i, 0 <= i < k -> umem (ram s) P (srcva + i) = Some (m' (dst + i))) /\
    (forall x, ~ (dst <= x < dst + k) -> m' x = ram s x) /\
    (r = 0 /\ k = len \/ r = -1 /\ k < len /\ umem (ram s) P (srcva + k) = None).
Proof.
  intros Hk Hus Hbuf Hva Hlen.
  destruct (copyin_loop_spec kend Hk id P (copy_fuel len) s dst srcva len) as (r & m' & k & Hrun & Hkr & (_ & H1 & H2) & Hr);
    try done; [by apply rounds_fuel|]. by exists r, m', k.
Qed.

(** [copyinstr] always returns. On success the buffer holds the user's
    string with its terminating zero, within [max] bytes; it fails only when
    no zero is found in [max] bytes or before the first unmapped address. *)
Theorem copyinstr_reads kend id s P dst srcva max :
  kend_ok kend -> uspace kend s P -> kbuf kend s P dst max -> 0 <= srcva -> 0 <= max ->
  exists r m' k, copyinstr id (root P) dst srcva max s = Ret r (set_ram m' s) /\ 0 <= k <= max /\
    (forall i, 0 <= i < k -> umem (ram s) P (srcva + i) = Some (m' (dst + i))) /\
    (forall x, ~ (dst <= x < dst + k) -> m' x = ram s x) /\
    (r = 0 /\ 0 < k /\ m' (dst + (k - 1)) = 0 /\ (forall i, 0 <= i < k - 1 -> m' (dst + i) <> 0) \/
     r = -1 /\ (forall i, 0 <= i < k -> m' (dst + i) <> 0) /\ (k = max \/ umem (ram s) P (srcva + k) = None)).
Proof.
  intros Hk Hus Hbuf Hva Hlen.
  destruct (copyinstr_loop_spec kend Hk id P (copy_fuel max) s dst srcva max) as (r & m' & k & Hrun & Hkr & (_ & H1 & H2) & Hr);
    try done; [by apply rounds_fuel|]. by exists r, m', k.
Qed.

(** C35: growing an address space is all or nothing. [uvmalloc] returns the new
    size with a zeroed page of its own behind every new address, or 0 with the
    mapping and every page in use as before. *)
Theorem uvmalloc_all_or_nothing kend id s P oldsz newsz :
  kend_ok kend -> (id < NCPU)%nat -> uspace kend s P -> 0 <= oldsz <= newsz -> newsz <= TRAPFRAME ->
  (forall va, PGROUNDUP oldsz <= va < PGROUNDUP newsz -> upage (ram s) P va = None) ->
  exists r s' P', uvmalloc kend id (root P) oldsz newsz s = Ret r s' /\ root P' = root P /\ uspace kend s' P' /\
    frame_on kend (is_node P) s s' /\
    (r = newsz /\ (forall va, 0 <= va -> umem (ram s') P' va =
       if (PGROUNDUP oldsz <=? va) && (va <? PGROUNDUP newsz) then Some 0 else umem (ram s) P va) \/
     r = 0 /\ (forall va, 0 <= va < MAXVA -> upage (ram s') P' va = upage (ram s) P va) /\
       forall q, page_ok kend PHYSTOP q -> cnt s (q / PGSIZE) = 0 -> cnt s' (q / PGSIZE) = 0 \/ is_node P' q).
Proof.
  intros Hk Hid Hus Ho Hn Hno. pose proof (PGROUNDUP_bounds oldsz) as [Hob Hom].
  pose proof (PGROUNDUP_trapframe newsz Hn) as HT. pose proof trapframe_maxva as Ht. set (a := PGROUNDUP oldsz) in *.
  assert (Hv : forall va, a <= va < PGROUNDUP newsz -> has (lk (ram s) P va) PTE_V = false).
  { intros va Hva. specialize (Hno va Hva). unfold upage in Hno. by destruct (has (lk (ram s) P va) PTE_V). }
  destruct (uvmalloc_loop_spec kend Hk id Hid s P a newsz (us_vm _ _ _ Hus) Hom ltac:(unfold PGSIZE in *; lia) HT Hv
    (S (Z.to_nat ((newsz - a + PGSIZE - 1) / PGSIZE))) a s P) as (r & s' & P' & Hrun & Hr);
    [by apply fresh_range_refl|done|done|lia|by right|lia|].
  exists r, s', P'. unfold uvmalloc. rewrite (proj2 (Z.ltb_ge newsz oldsz)) by lia. fold a. split; [done|].
  destruct Hr as [(-> & c & Hfg & Hc)|(-> & Hud)].
  - destruct Hfg as [G1 G2 G3 G4 G5 G6]. split; [by apply (extends_root kend s)|]. split; [done|]. split; [done|].
    left. split; [done|]. intros va Hva. pose proof (PGROUNDUP_bounds newsz) as [Hnb Hnm].
    assert (Hac : (a <=? va) && (va <? PGROUNDUP newsz) = (a <=? va) && (va <? c)).
    { destruct Hc as [->|[-> Hle]]; [done|]. assert (PGROUNDUP newsz <= a) by (unfold PGSIZE in *; dlia).
      destruct (Z.leb_spec a va), (Z.ltb_spec va (PGROUNDUP newsz)), (Z.ltb_spec va a); cbn [andb]; (lia || done). }
    rewrite Hac. destruct ((a <=? va) && (va <? c)) eqn:E.
    + apply andb_prop in E as [E1%Z.leb_le E2%Z.ltb_lt]. destruct (G5 va (conj E1 E2)) as (p & Ep & Hp & _ & _ & Hz).
      pose proof (page_small kend Hk p Hp). assert (va < MAXVA) by (destruct Hc as [->|[-> ?]]; unfold PGSIZE in *; lia).
      unfold umem. rewrite Ep, (proj2 (Z.ltb_lt va MAXVA)), !mk_pte_has, mk_pte_pa
        by (try apply Hp; (done || (unfold PTE_V, PTE_U; lia))).
      cbn. rewrite Hz; [done|]. pose proof (Z.mod_pos_bound va PGSIZE ltac:(unfold PGSIZE; lia)). lia.
    + eapply umem_frame; [done|done|done|]. intros HM. apply G4; [lia|].
      destruct (Z.leb_spec a va), (Z.ltb_spec va c); cbn [andb] in E; (done || lia).
  - destruct Hud as [U1 U2 U3 U4 U5]. split; [by apply (extends_root kend s)|]. split; [done|]. split; [done|]. by right.
Qed.

(** Shrinking an address space. [uvmdealloc] returns the new size, drops one
    reference to each page it unmaps, and leaves the rest of the user's memory
    as it was. *)
Theorem uvmdealloc_shrinks kend id s P oldsz newsz :
  kend_ok kend -> (id < NCPU)%nat -> uspace kend s P -> 0 <= newsz <= oldsz -> oldsz <= TRAPFRAME ->
  exists s', uvmdealloc kend id (root P) oldsz newsz s = Ret newsz s' /\ uspace kend s' P /\
    (forall va, 0 <= va -> umem (ram s') P va =
       if (PGROUNDUP newsz <=? va) && (va <? PGROUNDUP oldsz) then None else umem (ram s) P va) /\
    (forall q, page_ok kend PHYSTOP q -> maps (ram s) P (PGROUNDUP newsz) (PGROUNDUP oldsz) q ->
       cnt s' (q / PGSIZE) = cnt s (q / PGSIZE) - 1) /\
    (forall q, page_ok kend PHYSTOP q -> ~ maps (ram s) P (PGROUNDUP newsz) (PGROUNDUP oldsz) q ->
       cnt s' (q / PGSIZE) = cnt s (q / PGSIZE)).
Proof.
  intros Hk Hid Hus Hn Ho. destruct (dealloc_run kend id s P oldsz newsz) as (s' & Hrun & Hun); [done..|].
  exists s'. split; [done|]. pose proof (um_frame _ _ _ _ _ _ Hun) as Hfr. pose proof Hun as [U1 U2 U3 U4 U5].
  split; [done|]. split; [|done]. intros va Hva.
  pose proof (PGROUNDUP_bounds newsz) as [Hnb Hnm]. pose proof (PGROUNDUP_bounds oldsz) as [_ Hom].
  eapply unmapped_umem; [done|lia|by apply PGROUNDUP_trapframe|done|done|done|done].
Qed.

(** C36: [uvmfree] returns every page of an address space: user pages and the
    pages of the page table lose one reference each, no other page does, and
    pages that are still shared keep their contents. *)
Theorem uvmfree_releases kend id s P sz :
  kend_ok kend -> (id < NCPU)%nat -> uspace kend s P -> 0 <= sz <= TRAPFRAME ->
  (forall i p, mid P !! i = Some p -> i < 256) -> (forall va, sz <= va < MAXVA -> upage (ram s) P va = None) ->
  exists s', uvmfree kend id (root P) sz s = Ret tt s' /\
    (exists ls, alloc_inv kend PHYSTOP s' ls) /\
    (forall q, page_ok kend PHYSTOP q -> is_node P q \/ maps (ram s) P 0 TRAPFRAME q ->
       cnt s' (q / PGSIZE) = cnt s (q / PGSIZE) - 1) /\
    (forall q, page_ok kend PHYSTOP q -> ~ is_node P q -> ~ maps (ram s) P 0 TRAPFRAME q ->
       cnt s' (q / PGSIZE) = cnt s (q / PGSIZE)) /\
    (forall x, (forall q, page_ok kend PHYSTOP q -> q <= x < q + PGSIZE ->
       0 < cnt s (q / PGSIZE) /\ ~ is_node P q /\ (maps (ram s) P 0 TRAPFRAME q -> 1 < cnt s (q / PGSIZE))) ->
       ram s' x = ram s x).
Proof.
  intros Hk Hid Hus Hsz H256 Hno. destruct (uvmfree_run kend id Hk Hid s P sz Hus Hsz H256 Hno) as (s' & Hrun & []).
  exists s'. by split_and!.
Qed.

(** ** A small machine

    Seven page frames: the parent's table (root, middle and leaf page), its only
    user page, the child's root page, and two free ones. *)
Definition pg (k : Z) : Z := PHYSTOP - k * PGSIZE.
Definition demo_kend : Z := pg 7.
Definition demo_leaf : Z := mk_pte (pg 4) (Z.lor PTE_RWXU PTE_V).
Definition demo_ram : mem :=
  store64 (store64 (store64 (store64 (fun _ => 0)
    (pg 1) (mk_pte (pg 2) PTE_V)) (pg 2) (mk_pte (pg 3) PTE_V)) (pg 3) demo_leaf) (pg 6) (pg 7).
Definition demo_cnt (i : Z) : Z := if i <=? pg 6 / PGSIZE then 0 else 1.
Definition demo_kst : kst := mk_kst demo_ram (pg 6 :: replicate 7 0) demo_cnt.
Definition demo_parent : pt := mk_pt (pg 1) {[0 := pg 2]} {[(0, 0) := pg 3]}.
Definition demo_child : pt := mk_pt (pg 5) ∅ ∅.

Lemma demo_kend_ok : kend_ok demo_kend.
Proof. done. Qed.

Lemma demo_page p : page_ok demo_kend PHYSTOP p <-> exists k, p = pg k /\ 1 <= k <= 7.
Proof.
  unfold page_ok, demo_kend, pg. assert (PHYSTOP mod PGSIZE = 0) by done. split.
  - intros [Hm Hp]. exists ((PHYSTOP - p) / PGSIZE). unfold PGSIZE in *. dlia.
  - intros (k & -> & Hk). unfold PGSIZE in *. dlia.
Qed.

Lemma demo_cnt_pg k : 1 <= k <= 7 -> demo_cnt (pg k / PGSIZE) = if k <=? 5 then 1 else 0.
Proof.
  intros Hk. assert (k = 1 \/ k = 2 \/ k = 3 \/ k = 4 \/ k = 5 \/ k = 6 \/ k = 7)
    as [->|[->|[->|[->|[->|[->| ->]]]]]] by lia; reflexivity.
Qed.

(** The words of the machine's memory. *)
Lemma demo_load k j : 1 <= k <= 7 -> 0 <= j < 512 -> load64 demo_ram (pg k + 8 * j) =
  if j =? 0 then
    if k =? 1 then mk_pte (pg 2) PTE_V else if k =? 2 then mk_pte (pg 3) PTE_V
    else if k =? 3 then demo_leaf else if k =? 6 then pg 7 else 0
  else 0.
Proof.
  intros Hk Hj. unfold demo_ram.
  assert (Hz : load64 (fun _ => 0) (pg k + 8 * j) = 0) by reflexivity.
  destruct (Z.eqb_spec j 0) as [->|Hj0].
  - rewrite Z.add_0_r. assert (k = 1 \/ k = 2 \/ k = 3 \/ k = 4 \/ k = 5 \/ k = 6 \/ k = 7)
      as [->|[->|[->|[->|[->|[->| ->]]]]]] by lia; reflexivity.
  - rewrite !load64_store64_ne; [done|..]; unfold pg, PGSIZE; lia.
Qed.

Lemma demo_alloc : alloc_inv demo_kend PHYSTOP demo_kst ([pg 6; pg 7] :: replicate 7 []).
Proof.
  split; try reflexivity.
  - unfold demo_kst, demo_ram. cbn [ram]. repeat apply store_ok. intros a. lia.
  - intros [|i] h l Hi Hl; cbn [freelist demo_kst] in Hi.
    + injection Hi as <-. injection Hl as <-. split; [done|]. cbn [ram demo_kst].
      assert (load64 demo_ram (pg 6) = pg 7) as -> by reflexivity. split; [done|]. reflexivity.
    + change (replicate 7 0 !! i = Some h) in Hi. change (replicate 7 (@nil Z) !! i = Some l) in Hl.
      apply lookup_replicate in Hi as [-> _], Hl as [-> _]. done.
  - change (NoDup [pg 6; pg 7]). apply (bool_decide_unpack _). by vm_compute.
  - change (forall p, p ∈ [pg 6; pg 7] -> page_ok demo_kend PHYSTOP p). intros p Hp. apply demo_page.
    apply elem_of_cons in Hp as [->|Hp]; [exists 6; split; [done|lia]|].
    apply list_elem_of_singleton in Hp as ->. exists 7. split; [done|lia].
  - change (forall p, page_ok demo_kend PHYSTOP p -> p ∈ [pg 6; pg 7] <-> demo_cnt (p / PGSIZE) = 0).
    intros p (k & -> & Hk)%demo_page. rewrite demo_cnt_pg by done.
    rewrite !elem_of_cons, elem_of_nil. unfold pg, PGSIZE. destruct (Z.leb_spec k 5); lia.
  - intros p (k & -> & Hk)%demo_page. cbn [cnt demo_kst]. rewrite demo_cnt_pg by done. destruct (k <=? 5); lia.
Qed.

Lemma demo_used k : 1 <= k <= 5 -> page_ok demo_kend PHYSTOP (pg k) /\ cnt demo_kst (pg k / PGSIZE) = 1.
Proof.
  intros Hk. split; [apply demo_page; exists k; split; [done|lia]|]. cbn [cnt demo_kst]. rewrite demo_cnt_pg by lia.
  by rewrite (proj2 (Z.leb_le _ _)) by lia.
Qed.

Lemma pg_inj j k : pg j = pg k -> j = k.
Proof. unfold pg, PGSIZE. lia. Qed.

Lemma demo_nodeP n p : node_page demo_parent n = Some p <->
  n = Root /\ p = pg 1 \/ n = Mid 0 /\ p = pg 2 \/ n = Low 0 0 /\ p = pg 3.
Proof.
  destruct n as [|i|i j]; cbn [node_page demo_parent root mid low].
  - split; [intros [= <-]; by left|]. by intros [[_ ->]|[[? _]|[? _]]].
  - rewrite lookup_singleton_Some. split; [intros [<- <-]; by right; left|]. by intros [[? _]|[[[= ->] ->]|[? _]]].
  - rewrite lookup_singleton_Some. split; [intros [[= <- <-] <-]; by right; right|].
    by intros [[? _]|[[? _]|[[= -> ->] ->]]].
Qed.

Lemma demo_nodeQ n p : node_page demo_child n = Some p <-> n = Root /\ p = pg 5.
Proof.
  destruct n as [|i|i j]; cbn [node_page demo_child root mid low].
  - split; [by intros [= <-]|by intros [_ ->]].
  - rewrite lookup_empty. split; [done|by intros [? _]].
  - rewrite lookup_empty. split; [done|by intros [? _]].
Qed.

Lemma demo_vmP : vm_inv demo_kend demo_kst demo_parent.
Proof.
  assert (Hn : forall n p, node_page demo_parent n = Some p ->
    page_ok demo_kend PHYSTOP p /\ cnt demo_kst (p / PGSIZE) = 1 /\ in_table n).
  { intros n p [[-> ->]|[[-> ->]|[-> ->]]]%demo_nodeP.
    - destruct (demo_used 1); [lia|]. done.
    - destruct (demo_used 2); [lia|]. done.
    - destruct (demo_used 3); [lia|]. done. }
  split_and!; [eexists; apply demo_alloc| |intros n p Hp; destruct (Hn n p Hp) as (_ & -> & _); lia].
  split.
  - intros n p Hp. by destruct (Hn n p Hp) as (? & _ & ?).
  - intros n n' p [[-> ->]|[[-> ->]|[-> ->]]]%demo_nodeP [[-> E]|[[-> E]|[-> E]]]%demo_nodeP; apply pg_inj in E; done.
  - intros [|i|i j] a Hin Ha; cbn [entry_addr demo_parent root mid] in Ha; [done|..].
    + injection Ha as <-. cbn in Hin. change (ram demo_kst) with demo_ram. rewrite (demo_load 1 i) by lia.
      cbn [node_page demo_parent mid]. destruct (Z.eqb_spec i 0) as [->|Hne]; [done|].
      by rewrite lookup_singleton_ne by congruence.
    + destruct Hin as [Hi Hj]. destruct (decide (i = 0)) as [->|Hne]; [|by rewrite lookup_singleton_ne in Ha by congruence].
      rewrite lookup_singleton_eq in Ha. injection Ha as <-. change (ram demo_kst) with demo_ram.
      rewrite (demo_load 2 j) by lia. cbn [node_page demo_parent low].
      destruct (Z.eqb_spec j 0) as [->|Hne]; [done|]. by rewrite lookup_singleton_ne by congruence.
  - intros i j p Hl. cbn [demo_parent low] in Hl. apply lookup_singleton_Some in Hl as [[= <- <-] _]. by eexists.
Qed.

(** The parent maps the page at 0 and nothing else; the child maps nothing. *)
Lemma demo_lkP va : 0 <= va < MAXVA ->
  lk demo_ram demo_parent va = if vpn va =? 0 then demo_leaf else 0.
Proof.
  intros Hva. pose proof (PX_range 0 va) as H0. pose proof (PX_range 1 va) as H1. pose proof (PX_range 2 va) as H2.
  rewrite vpn_PX by done. unfold lk, pte_addr. cbn [demo_parent low].
  destruct (decide ((0, 0) = (PX 2 va, PX 1 va))) as [[= E2 E1]|Hne].
  - rewrite <- E2, <- E1, lookup_singleton_eq, (demo_load 3) by lia.
    destruct (Z.eqb_spec (PX 0 va) 0) as [->|Hn0]; [done|]. by rewrite (proj2 (Z.eqb_neq _ _)) by lia.
  - rewrite lookup_singleton_ne by done. rewrite (proj2 (Z.eqb_neq _ _)); [done|]. intros E. apply Hne. f_equal; lia.
Qed.

Lemma demo_lkQ m va : lk m demo_child va = 0.
Proof. unfold lk, pte_addr. cbn [demo_child low]. by rewrite lookup_empty. Qed.

Lemma demo_vmQ : vm_inv demo_kend demo_kst demo_child.
Proof.
  destruct (demo_used 5) as [H5 C5]; [lia|].
  split_and!; [eexists; apply demo_alloc| |intros n p [-> ->]%demo_nodeQ; lia]. split.
  - by intros n p [-> ->]%demo_nodeQ.
  - by intros n n' p [-> ->]%demo_nodeQ [-> _]%demo_nodeQ.
  - intros [|i|i j] a Hin Ha; cbn [entry_addr demo_child root mid] in Ha; [done| |by rewrite lookup_empty in Ha].
    injection Ha as <-. cbn in Hin. change (ram demo_kst) with demo_ram. rewrite (demo_load 5 i) by lia.
    cbn [node_page demo_child mid]. rewrite lookup_empty. by destruct (i =? 0).
  - intros i j p Hl. cbn [demo_child low] in Hl. by rewrite lookup_empty in Hl.
Qed.

(** The only valid PTE of the parent. *)
Lemma demo_valid va : 0 <= va < MAXVA -> has (lk demo_ram demo_parent va) PTE_V = true ->
  lk demo_ram demo_parent va = demo_leaf /\ vpn va = 0.
Proof. intros Hva. rewrite demo_lkP by done. by destruct (Z.eqb_spec (vpn va) 0). Qed.

Lemma demo_leaf_pa : PTE2PA demo_leaf = pg 4.
Proof. done. Qed.

Lemma demo_uspaceP : uspace demo_kend demo_kst demo_parent.
Proof.
  pose proof trapframe_maxva as Ht. destruct (demo_used 4) as [H4 C4]; [lia|].
  split; [apply demo_vmP|..]; change (ram demo_kst) with demo_ram.
  - intros va Hva Hv. apply demo_valid in Hv as [-> _]; [|unfold PGSIZE in *; lia].
    split; rewrite ?demo_leaf_pa; [done|done|done|lia|].
    intros [n [[_ E]|[[_ E]|[_ E]]]%demo_nodeP]; by apply pg_inj in E.
  - intros va va' Hva Hva' Hv Hv' _.
    apply demo_valid in Hv as [_ ->]; [|unfold PGSIZE in *; lia]. by apply demo_valid in Hv' as [_ ->]; [|unfold PGSIZE in *; lia].
  - intros va Hva Hv. apply demo_valid in Hv as [_ E]; [|unfold MAXVA, PGSIZE in *; lia].
    unfold vpn, PGSIZE, MAXVA in *. dlia.
Qed.

Lemma demo_uspaceQ : uspace demo_kend demo_kst demo_child.
Proof.
  split; [apply demo_vmQ|..].
  - intros va _. by rewrite demo_lkQ.
  - intros va va' _ _. by rewrite demo_lkQ.
  - intros va _. by rewrite demo_lkQ.
Qed.

Lemma demo_cow : cow_ok demo_kst demo_parent /\ writable demo_kst demo_parent.
Proof.
  pose proof trapframe_maxva as Ht. destruct (demo_used 4) as [H4 C4]; [lia|].
  split; intros va Hva Hv; change (ram demo_kst) with demo_ram in *;
    (apply demo_valid in Hv as [-> _]; [|unfold PGSIZE in *; lia]); [|done].
  rewrite demo_leaf_pa. lia.
Qed.

Lemma demo_fork_pre : fork_pre demo_kend demo_kst demo_parent demo_child.
Proof.
  pose proof trapframe_maxva as Ht. destruct (demo_used 4) as [H4 C4]; [lia|].
  split; [apply demo_uspaceP|apply demo_uspaceQ|..]; change (ram demo_kst) with demo_ram.
  - intros va _. by rewrite demo_lkQ.
  - intros q [n Hn] [n' [_ ->]%demo_nodeQ]. apply demo_nodeP in Hn as [[_ E]|[[_ E]|[_ E]]]; by apply pg_inj in E.
  - intros va Hva Hv [n [_ E]%demo_nodeQ]. apply demo_valid in Hv as [El _]; [|unfold PGSIZE in *; lia].
    rewrite El, demo_leaf_pa in E. by apply pg_inj in E.
  - intros va Hva Hv. apply demo_valid in Hv as [-> _]; [|unfold PGSIZE in *; lia]. rewrite demo_leaf_pa. lia.
Qed.

(** A kernel buffer below the page frames. *)
Lemma demo_kbuf P n : 0 <= n <= PGSIZE -> kbuf demo_kend demo_kst P KERNBASE n /\ ksrc demo_kend demo_kst P KERNBASE n.
Proof.
  intros Hn. assert (Hr : in_ram KERNBASE n = true).
  { unfold in_ram. by rewrite (proj2 (Z.leb_le _ _)), (proj2 (Z.leb_le _ _)) by (unfold PHYSTOP, KERNBASE, PGSIZE in *; lia). }
  split; (split; [done|]); intros x q Hx [_ Hq] Hxq; unfold demo_kend, pg, PHYSTOP, KERNBASE, PGSIZE in *; lia.
Qed.

(** Before the fork the two are a copy-on-write pair that shares nothing. *)
Lemma demo_pair : cow_pair demo_kend demo_kst demo_parent demo_child.
Proof.
  pose proof demo_fork_pre as [HP HQ He Hdis Husr _].
  assert (Hno : forall q, ~ maps (ram demo_kst) demo_child 0 TRAPFRAME q).
  { intros q (va & Hva & E). unfold upage in E. by rewrite demo_lkQ in E. }
  split; [done|done|apply demo_cow|by intros va Hva Hv; rewrite demo_lkQ in Hv|split|split].
  - intros q [n [_ ->]%demo_nodeQ]. destruct (demo_used 5) as [H5 C5]; [lia|]. split_and!; [lia|..].
    + intros Hn. apply (Hdis _ Hn). by exists Root.
    + left. intros (va & Hva & Hv & E)%maps_inv. apply (Husr va Hva Hv). rewrite E. by exists Root.
  - intros va q Hva E. destruct (Hno q). by exists va.
  - intros q Hq. split_and!; [|by apply Hdis|by left]. destruct Hq as [n Hn].
    pose proof (us_vm _ _ _ HP) as (_ & _ & Huse). by eapply Huse.
  - intros va q Hva E. unfold upage in E. destruct (has (lk (ram demo_kst) demo_parent va) PTE_V) eqn:Hv; [|done].
    injection E as <-. destruct (us_leaf _ _ _ HP va Hva Hv). split_and!; [done|by apply Husr|by left].
Qed.

Lemma uvmcopy_forks_witness :
  exists s' Q, uvmcopy demo_kend 0 (pg 1) (pg 5) PGSIZE demo_kst = Ret 0 s' /\
    cow_pair demo_kend s' demo_parent Q /\ umem (ram s') Q 5 = umem demo_ram demo_parent 5.
Proof.
  destruct demo_cow as [Hc Hw].
  destruct (uvmcopy_forks demo_kend 0 demo_kst demo_parent demo_child PGSIZE)
    as (r & s' & Q & Hrun & _ & _ & _ & _ & Hr);
    [apply demo_kend_ok|unfold NCPU; lia|apply demo_fork_pre|unfold TRAPFRAME, TRAMPOLINE, MAXVA, PGSIZE; lia|].
  assert (Hv : value (uvmcopy demo_kend 0 (pg 1) (pg 5) PGSIZE demo_kst) = Some 0) by (by vm_compute).
  change (root demo_parent) with (pg 1) in Hrun. change (root demo_child) with (pg 5) in Hrun.
  rewrite Hrun in Hv. injection Hv as ->.
  destruct Hr as [(_ & Hu & _ & Hp)|(E & _)]; [|discriminate E].
  exists s', Q. split; [exact Hrun|].
  split; [exact (Hp Hc Hw)|].
  rewrite Hu by lia. reflexivity.
Defined.

Lemma copyout_isolated_witness :
  exists s', copyout demo_kend 0 (pg 1) 8 KERNBASE 16 demo_kst = Ret 0 s' /\
    cow_pair demo_kend s' demo_parent demo_child.
Proof.
  destruct (copyout_isolated demo_kend 0 demo_kst demo_parent demo_child 8 KERNBASE 16)
    as (r & s' & k & Hrun & _ & Hp & _);
    [apply demo_kend_ok|unfold NCPU; lia|apply demo_pair|apply demo_kbuf; unfold PGSIZE; lia|lia|lia|].
  assert (Hv : value (copyout demo_kend 0 (pg 1) 8 KERNBASE 16 demo_kst) = Some 0) by (by vm_compute).
  change (root demo_parent) with (pg 1) in Hrun. rewrite Hrun in Hv. injection Hv as ->.
  exists s'. split; [exact Hrun|exact Hp].
Defined.

Lemma copyin_reads_witness :
  exists m', copyin 0 (pg 1) KERNBASE 8 16 demo_kst = Ret 0 (set_ram m' demo_kst) /\
    forall i, 0 <= i < 16 -> umem demo_ram demo_parent (8 + i) = Some (m' (KERNBASE + i)).
Proof.
  destruct (copyin_reads demo_kend 0 demo_kst demo_parent KERNBASE 8 16) as (r & m' & k & Hrun & _ & Hm & _ & Hr);
    [apply demo_kend_ok|apply demo_uspaceP|apply demo_kbuf; unfold PGSIZE; lia|lia|lia|].
  assert (Hv : value (copyin 0 (pg 1) KERNBASE 8 16 demo_kst) = Some 0) by (by vm_compute).
  change (root demo_parent) with (pg 1) in Hrun. rewrite Hrun in Hv. injection Hv as ->.
  destruct Hr as [[_ ->]|[E _]]; [|discriminate E].
  exists m'. split; [exact Hrun|exact Hm].
Defined.

Lemma copyinstr_reads_witness :
  exists m', copyinstr 0 (pg 1) KERNBASE 8 16 demo_kst = Ret 0 (set_ram m' demo_kst).
Proof.
  destruct (copyinstr_reads demo_kend 0 demo_kst demo_parent KERNBASE 8 16) as (r & m' & k & Hrun & _);
    [apply demo_kend_ok|apply demo_uspaceP|apply demo_kbuf; unfold PGSIZE; lia|lia|lia|].
  assert (Hv : value (copyinstr 0 (pg 1) KERNBASE 8 16 demo_kst) = Some 0) by (by vm_compute).
  change (root demo_parent) with (pg 1) in Hrun. rewrite Hrun in Hv. injection Hv as ->. exists m'. exact Hrun.
Defined.

Lemma uvmalloc_all_or_nothing_witness :
  exists s' P', uvmalloc demo_kend 0 (pg 1) PGSIZE (2 * PGSIZE) demo_kst = Ret (2 * PGSIZE) s' /\
    umem (ram s') P' (PGSIZE + 1) = Some 0.
Proof.
  destruct (uvmalloc_all_or_nothing demo_kend 0 demo_kst demo_parent PGSIZE (2 * PGSIZE))
    as (r & s' & P' & Hrun & _ & _ & _ & Hr);
    [apply demo_kend_ok|unfold NCPU; lia|apply demo_uspaceP|unfold PGSIZE; lia|unfold TRAPFRAME, TRAMPOLINE, MAXVA, PGSIZE; lia| |].
  { intros va Hva. unfold upage. change (ram demo_kst) with demo_ram.
    change (PGROUNDUP PGSIZE) with 4096 in Hva. change (PGROUNDUP (2 * PGSIZE)) with 8192 in Hva.
    rewrite demo_lkP by (unfold MAXVA; lia). rewrite (proj2 (Z.eqb_neq _ _)); [done|]. unfold vpn, PGSIZE. dlia. }
  assert (Hv : value (uvmalloc demo_kend 0 (pg 1) PGSIZE (2 * PGSIZE) demo_kst) = Some (2 * PGSIZE)) by (by vm_compute).
  change (root demo_parent) with (pg 1) in Hrun. rewrite Hrun in Hv. injection Hv as ->.
  destruct Hr as [[_ Hu]|[E _]]; [|discriminate E].
  exists s', P'. split; [exact Hrun|]. rewrite Hu by (unfold PGSIZE; lia). reflexivity.
Defined.

Lemma uvmdealloc_shrinks_witness :
  exists s', uvmdealloc demo_kend 0 (pg 1) PGSIZE 0 demo_kst = Ret 0 s' /\ umem (ram s') demo_parent 5 = None.
Proof.
  destruct (uvmdealloc_shrinks demo_kend 0 demo_kst demo_parent PGSIZE 0) as (s' & Hrun & _ & Hu & _);
    [apply demo_kend_ok|unfold NCPU; lia|apply demo_uspaceP|unfold PGSIZE; lia|unfold TRAPFRAME, TRAMPOLINE, MAXVA, PGSIZE; lia|].
  exists s'. split; [exact Hrun|]. rewrite Hu by lia. reflexivity.
Defined.

Lemma uvmfree_releases_witness :
  exists s', uvmfree demo_kend 0 (pg 1) PGSIZE demo_kst = Ret tt s' /\ cnt s' (pg 2 / PGSIZE) = 0.
Proof.
  destruct (demo_used 2) as [H2 C2]; [lia|].
  destruct (uvmfree_releases demo_kend 0 demo_kst demo_parent PGSIZE) as (s' & Hrun & _ & Hd & _);
    [apply demo_kend_ok|unfold NCPU; lia|apply demo_uspaceP|unfold TRAPFRAME, TRAMPOLINE, MAXVA, PGSIZE; lia| | |].
  - intros i p Hm. cbn [demo_parent mid] in Hm. apply lookup_singleton_Some in Hm as [<- _]. lia.
  - intros va Hva. unfold upage. change (ram demo_kst) with demo_ram. unfold PGSIZE in Hva.
    rewrite demo_lkP by lia. rewrite (proj2 (Z.eqb_neq _ _)); [done|]. unfold vpn, PGSIZE. dlia.
  - exists s'. split; [exact Hrun|]. rewrite Hd, C2; [reflexivity|exact H2|]. left. by exists (Mid 0).
Defined.

End Vmspec.
