(* ===== verification/Ring.v ===== *)
(** Circular doubly linked lists with a head node.

    The pointer structure of the buffer cache's hash buckets: [next] and [prev]
    fields of a set of nodes. [ring nx pv h l] says that the nodes [l] hang on
    the head [h] in this order. *)

From stdpp Require Import functions.
From S2P Require Import Prelude.

Module Ring.

Section ring.
Context {N : Type} `{EqDecision N}.
Implicit Types (nx pv : N -> N) (h a b : N) (l : list N).

(** [a]'s successors are [l], linked in both directions. *)
Fixpoint links nx pv a l : Prop :=
  match l with
  | [] => True
  | b :: l => nx a = b /\ pv b = a /\ links nx pv b l
  end.

Definition ring nx pv h l : Prop := NoDup (h :: l) /\ links nx pv h (l ++ [h]).

(** Unlinking [b]: [b->next->prev = b->prev; b->prev->next = b->next]. *)
Definition unlink_next nx pv b : N -> N := <[pv b := nx b]> nx.
Definition unlink_prev nx pv b : N -> N := <[nx b := pv b]> pv.

(** Inserting [b] after the head. *)
Definition insert_next nx h b : N -> N := <[h := b]> (<[b := nx h]> nx).
Definition insert_prev nx pv h b : N -> N := <[nx h := b]> (<[b := h]> pv).

Lemma links_app nx pv a l1 b l2 :
  links nx pv a (l1 ++ b :: l2) <-> links nx pv a (l1 ++ [b]) /\ links nx pv b l2.
Proof. revert a. induction l1 as [|c l1 IH]; intros a; simpl; [tauto|]. rewrite IH. tauto. Qed.

(** The links of [a], [l] only depend on the [next] of all but the last node and
    on the [prev] of all but the first. *)
Lemma links_ext nx pv nx' pv' a l b :
  (forall c, c ∈ a :: l -> nx' c = nx c) -> (forall c, c ∈ l ++ [b] -> pv' c = pv c) ->
  links nx pv a (l ++ [b]) -> links nx' pv' a (l ++ [b]).
Proof.
  revert a. induction l as [|c l IH]; intros a Hn Hp; simpl.
  - intros (H1 & H2 & _). rewrite Hn, Hp by set_solver. done.
  - intros (H1 & H2 & H3). rewrite Hn, Hp by set_solver. split_and!; [done|done|].
    apply IH; [|intros; apply Hp; set_solver|done]. intros d Hd. apply Hn. set_solver.
Qed.

Lemma ring_next nx pv h l : ring nx pv h l -> nx h = default h (head l).
Proof. intros [_ H]. destruct l; simpl in *; tauto. Qed.

(** The node after [a] in the ring. *)
Lemma ring_after nx pv h l1 a l2 : ring nx pv h (l1 ++ a :: l2) -> nx a = default h (head l2).
Proof.
  intros [_ H]. rewrite <- app_assoc in H. simpl in H. apply links_app in H as [_ H].
  destruct l2; simpl in *; tauto.
Qed.

(** The neighbours of a node are nodes of the ring, and not the node itself. *)
Lemma ring_neighbours nx pv h l1 b l2 :
  ring nx pv h (l1 ++ b :: l2) ->
  pv b ∈ h :: l1 ++ b :: l2 /\ nx b ∈ h :: l1 ++ b :: l2 /\ nx b <> b.
Proof.
  intros Hr. pose proof (ring_after _ _ _ _ _ _ Hr) as Hn. destruct Hr as [Hnd Hli].
  rewrite <- app_assoc in Hli. simpl in Hli. apply links_app in Hli as [Ha _].
  apply NoDup_cons in Hnd as [Hh Hd]. apply NoDup_app in Hd as (_ & _ & Hd). apply NoDup_cons in Hd as [Hd _].
  split_and!.
  - destruct l1 as [|c l1 _] using rev_ind; [simpl in Ha; destruct Ha as (_ & -> & _); set_solver|].
    rewrite <- app_assoc in Ha. simpl in Ha. apply links_app in Ha as [_ (_ & -> & _)]. set_solver.
  - rewrite Hn. destruct l2; simpl; set_solver.
  - rewrite Hn. destruct l2; simpl; set_solver.
Qed.

(** Other rings do not see an update of this one. *)
Lemma ring_frame nx pv nx' pv' h l (D : N -> Prop) :
  (forall c, ~ D c -> nx' c = nx c /\ pv' c = pv c) -> (forall c, c ∈ h :: l -> ~ D c) ->
  ring nx pv h l -> ring nx' pv' h l.
Proof.
  intros HD Hl [Hnd Hli]. split; [done|]. eapply links_ext; [| |exact Hli].
  - intros c Hc. by apply HD, Hl.
  - intros c Hc. apply HD, Hl. set_solver.
Qed.

Lemma NoDup_remove_mid h l1 b l2 : NoDup (h :: l1 ++ b :: l2) -> NoDup (h :: l1 ++ l2) /\ b ∉ h :: l1 ++ l2.
Proof.
  intros Hnd. apply NoDup_cons in Hnd as [H1 H2]. apply NoDup_app in H2 as (H2 & H3 & H4).
  apply NoDup_cons in H4 as [H4 H5]. split; [|set_solver].
  apply NoDup_cons. split; [set_solver|]. apply NoDup_app. set_solver.
Qed.

Lemma ring_unlink nx pv h l1 b l2 :
  ring nx pv h (l1 ++ b :: l2) ->
  ring (unlink_next nx pv b) (unlink_prev nx pv b) h (l1 ++ l2).
Proof.
  intros [Hnd Hli]. destruct (NoDup_remove_mid h l1 b l2 Hnd) as [Hnd' Hne]. split; [done|].
  rewrite <- app_assoc in Hli |- *. simpl in Hli. apply links_app in Hli as [Ha Hb].
  unfold unlink_next, unlink_prev.
  apply NoDup_cons in Hnd' as [Hh Hd]. apply NoDup_app in Hd as (Hd1 & Hd2 & Hd3).
  destruct l1 as [|c l1 _] using rev_ind.
  - simpl in Ha. destruct Ha as (_ & -> & _). destruct l2 as [|d l2]; simpl in Hb |- *.
    + destruct Hb as (-> & _ & _). by rewrite !fn_lookup_insert.
    + destruct Hb as (-> & _ & Hb). rewrite !fn_lookup_insert. split_and!; [done|done|].
      apply NoDup_cons in Hd3 as [Hd3 _].
      eapply links_ext; [| |exact Hb]; intros e He; apply fn_lookup_insert_ne; set_solver.
  - rewrite <- !app_assoc in *. simpl in Ha |- *. apply links_app in Ha as [Ha (_ & -> & _)].
    apply NoDup_app in Hd1 as (Hd1 & Hd4 & _).
    destruct l2 as [|d l2]; simpl in Hb |- *; destruct Hb as (-> & _ & Hb).
    + apply links_app. split; [|simpl; by rewrite !fn_lookup_insert].
      eapply links_ext; [| |exact Ha]; intros e He; apply fn_lookup_insert_ne; set_solver.
    + apply NoDup_cons in Hd3 as [Hd3 Hd5]. apply links_app. split.
      * eapply links_ext; [| |exact Ha]; intros e He; apply fn_lookup_insert_ne; set_solver.
      * simpl. rewrite !fn_lookup_insert. split_and!; [done|done|].
        eapply links_ext; [| |exact Hb]; intros e He; apply fn_lookup_insert_ne; set_solver.
Qed.

Lemma ring_insert nx pv h b l :
  ring nx pv h l -> b ∉ h :: l -> ring (insert_next nx h b) (insert_prev nx pv h b) h (b :: l).
Proof.
  intros [Hnd Hli] Hb. split.
  { apply NoDup_cons in Hnd as [H1 H2]. apply NoDup_cons. split; [set_solver|]. apply NoDup_cons. set_solver. }
  unfold insert_next, insert_prev.
  assert (Hn : nx h = default h (head l)) by (by eapply ring_next). rewrite Hn.
  assert (Hbh : b <> h) by set_solver.
  simpl. rewrite fn_lookup_insert. split; [done|]. split.
  - destruct l as [|d l]; simpl; rewrite fn_lookup_insert_ne by set_solver; by rewrite fn_lookup_insert.
  - destruct l as [|d l]; simpl.
    + rewrite fn_lookup_insert_ne by done. rewrite !fn_lookup_insert. done.
    + rewrite fn_lookup_insert_ne by done. rewrite !fn_lookup_insert. split_and!; [done|done|].
      simpl in Hli. destruct Hli as (_ & _ & Hli). eapply links_ext; [| |exact Hli].
      * intros e He. rewrite !fn_lookup_insert_ne; [done|set_solver|].
        apply NoDup_cons in Hnd as [Hh _]. set_solver.
      * intros e He. apply NoDup_cons in Hnd as [Hh Hd]. apply NoDup_cons in Hd as [Hd _].
        rewrite !fn_lookup_insert_ne; [done|set_solver|set_solver].
Qed.

End ring.

End Ring.
