(* ===== verification/Blk.v ===== *)
(** The interface of the buffer cache.

    What [src/kernel/filesystem/bio.c] promises to the log and the file system:
    operations on buffers, and laws that describe them by the contents of the
    blocks, the buffers a process holds, and the references that keep a block in
    the cache. *)

From stdpp Require Import functions.
From S2P Require Import Prelude Mem.

Module Blk.

Definition NBUF : nat := 30.
Definition ROOTDEV : Z := 1.
Definition BSIZE : Z := 1024.

(** The contents of a disk block, by byte offset. *)
Abbreviation block := mem.

(** References to block [n] that no process holds. *)
Definition pinv (pin : gmap Z Z) (n : Z) : Z := default 0 (pin !! n).
Definition pin_add (n d : Z) (pin : gmap Z Z) : gmap Z Z :=
  if pinv pin n + d =? 0 then delete n pin else <[n := pinv pin n + d]> pin.

(** The blocks whose buffers cannot be recycled. *)
Definition busy (H : list (nat * Z)) (pin : gmap Z Z) : gset Z := dom pin ∪ list_to_set (H.*2).

(** [rep s vw dk H pin w]: reading block [n] gives [vw n], the disk holds
    [dk n]; the process holds the locked buffers [H], each with its block
    number; block [n] has [pinv pin n] other references; and [w] are the writes
    the disk has completed, oldest first. *)
Class BlockCache (S : Type) := {
  bread : Z -> Z -> M S nat;
  bwrite : nat -> M S unit;
  brelse : nat -> M S unit;
  bpin : nat -> M S unit;
  bunpin : nat -> M S unit;
  bblockno : nat -> M S Z;
  bdata : nat -> M S block;
  set_bdata : nat -> block -> M S unit;
  rep : S -> (Z -> block) -> (Z -> block) -> list (nat * Z) -> gmap Z Z -> list (Z * block) -> Prop;
  rep_perm : forall s vw dk H H' pin w, rep s vw dk H pin w -> H ≡ₚ H' -> rep s vw dk H' pin w;
  rep_ext : forall s vw vw' dk dk' H pin w, rep s vw dk H pin w ->
    (forall n, vw' n = vw n) -> (forall n, dk' n = dk n) -> rep s vw' dk' H pin w;
  rep_clean : forall s vw dk H pin w n, rep s vw dk H pin w -> n ∉ H.*2 -> pinv pin n = 0 -> vw n = dk n;
  bread_ok : forall s vw dk H pin w n, rep s vw dk H pin w ->
    n ∉ H.*2 -> (forall j m, (j, m) ∈ H -> pinv pin m <> -1) -> n ∈ dom pin \/ (size (busy H pin) < NBUF)%nat ->
    exists i s', bread ROOTDEV n s = Ret i s' /\ rep s' vw dk ((i, n) :: H) pin w;
  bblockno_ok : forall s vw dk H pin w i n, rep s vw dk H pin w -> (i, n) ∈ H -> bblockno i s = Ret n s;
  bdata_ok : forall s vw dk H pin w i n, rep s vw dk H pin w -> (i, n) ∈ H -> bdata i s = Ret (vw n) s;
  set_bdata_ok : forall s vw dk H pin w i n d, rep s vw dk H pin w -> (i, n) ∈ H ->
    exists s', set_bdata i d s = Ret tt s' /\ rep s' (<[n := d]> vw) dk H pin w;
  bwrite_ok : forall s vw dk H pin w i n, rep s vw dk H pin w -> (i, n) ∈ H ->
    exists s', bwrite i s = Ret tt s' /\ rep s' vw (<[n := vw n]> dk) H pin (w ++ [(n, vw n)]);
  brelse_ok : forall s vw dk H pin w i n, rep s vw dk ((i, n) :: H) pin w -> (pinv pin n = 0 -> vw n = dk n) ->
    exists s', brelse i s = Ret tt s' /\ rep s' vw dk H pin w;
  bpin_ok : forall s vw dk H pin w i n, rep s vw dk H pin w -> (i, n) ∈ H -> pinv pin n < 2 ^ 31 - 1 ->
    exists s', bpin i s = Ret tt s' /\ rep s' vw dk H (pin_add n 1 pin) w;
  bunpin_ok : forall s vw dk H pin w i n, rep s vw dk H pin w -> (i, n) ∈ H -> 0 <= pinv pin n ->
    exists s', bunpin i s = Ret tt s' /\ rep s' vw dk H (pin_add n (-1) pin) w;
  rep_writes : forall s vw dk H pin w vw' dk' H' pin' w', rep s vw dk H pin w -> rep s vw' dk' H' pin' w' -> w = w' }.

Lemma pinv_add_eq n d pin : pinv (pin_add n d pin) n = pinv pin n + d.
Proof.
  unfold pin_add. destruct (Z.eqb_spec (pinv pin n + d) 0) as [E|E]; unfold pinv at 1.
  - by rewrite lookup_delete_eq.
  - by rewrite lookup_insert_eq.
Qed.
Lemma pinv_add_ne n m d pin : m <> n -> pinv (pin_add n d pin) m = pinv pin m.
Proof.
  intros Hne. unfold pin_add. destruct (_ =? 0); unfold pinv at 1.
  - by rewrite lookup_delete_ne.
  - by rewrite lookup_insert_ne.
Qed.

Lemma pinv_dom n pin : pinv pin n <> 0 -> n ∈ dom pin.
Proof. unfold pinv. intros Hn. apply elem_of_dom. destruct (pin !! n); [by eexists|done]. Qed.

(** Block writes, oldest first. *)
Definition apply_writes (ws : list (Z * block)) (d : Z -> block) : Z -> block :=
  foldl (fun d x => <[x.1 := x.2]> d) d ws.

Lemma apply_snoc ws x d : apply_writes (ws ++ [x]) d = <[x.1 := x.2]> (apply_writes ws d).
Proof. unfold apply_writes. by rewrite foldl_app. Qed.
Lemma apply_app ws ws' d : apply_writes (ws ++ ws') d = apply_writes ws' (apply_writes ws d).
Proof. apply foldl_app. Qed.
Lemma apply_one x d : apply_writes [x] d = <[x.1 := x.2]> d.
Proof. done. Qed.
Lemma apply_ne ws d n : n ∉ ws.*1 -> apply_writes ws d n = d n.
Proof.
  revert d. induction ws as [|[m x] ws IH]; intros d Hn; [done|]. simpl in *.
  apply not_elem_of_cons in Hn as [Hne Hn]. change (apply_writes ws (<[m := x]> d) n = d n).
  rewrite IH by done. by apply fn_lookup_insert_ne.
Qed.
(** The only write to a block is what it holds. *)
Lemma apply_eq ws d n x : NoDup (ws.*1) -> (n, x) ∈ ws -> apply_writes ws d n = x.
Proof.
  revert d. induction ws as [|[m y] ws IH]; intros d Hnd Hin; [by apply not_elem_of_nil in Hin|].
  simpl in Hnd. apply NoDup_cons in Hnd as [Hm Hnd]. change (apply_writes ws (<[m := y]> d) n = x).
  apply elem_of_cons in Hin as [[= -> ->]|Hin]; [|by apply IH].
  rewrite apply_ne by done. by rewrite fn_lookup_insert.
Qed.
Lemma apply_ext ws d d' : (forall n, d' n = d n) -> forall n, apply_writes ws d' n = apply_writes ws d n.
Proof.
  revert d d'. induction ws as [|[m y] ws IH]; intros d d' Hd n; [apply Hd|].
  change (apply_writes ws (<[m := y]> d') n = apply_writes ws (<[m := y]> d) n). apply IH. intros k.
  destruct (decide (k = m)) as [->|Hne]; [by rewrite !fn_lookup_insert|]. by rewrite !fn_lookup_insert_ne.
Qed.

(** A held buffer is one of the references that keep its block busy. *)
Lemma busy_nil pin : busy [] pin = dom pin.
Proof. unfold busy. set_solver. Qed.

(** One reference less to each of the blocks [bs]. *)
Definition unpin (bs : list Z) (pin : gmap Z Z) : gmap Z Z := foldl (fun p b => pin_add b (-1) p) pin bs.

Lemma unpin_snoc bs b pin : unpin (bs ++ [b]) pin = pin_add b (-1) (unpin bs pin).
Proof. unfold unpin. by rewrite foldl_app. Qed.

Lemma pin_add_dom n d pin : dom (pin_add n d pin) ⊆ dom pin ∪ {[n]}.
Proof. unfold pin_add. destruct (_ =? 0); [rewrite dom_delete|rewrite dom_insert]; set_solver. Qed.

Lemma unpin_dom bs pin : dom (unpin bs pin) ⊆ dom pin ∪ list_to_set bs.
Proof.
  induction bs as [|b bs IH] using rev_ind; [set_solver|]. rewrite unpin_snoc, list_to_set_app.
  pose proof (pin_add_dom b (-1) (unpin bs pin)). set_solver.
Qed.

Lemma unpin_ne bs pin n : n ∉ bs -> pinv (unpin bs pin) n = pinv pin n.
Proof.
  induction bs as [|b bs IH] using rev_ind; [done|]. rewrite unpin_snoc. intros Hn.
  apply not_elem_of_app in Hn as [Hn Hb]. rewrite pinv_add_ne, IH by set_solver. done.
Qed.

Lemma unpin_eq bs pin n : NoDup bs -> n ∈ bs -> pinv (unpin bs pin) n = pinv pin n - 1.
Proof.
  induction bs as [|b bs IH] using rev_ind; [by intros _ ?%not_elem_of_nil|]. rewrite unpin_snoc. intros Hnd Hn.
  apply NoDup_app in Hnd as (Hnd & Hd & _). destruct (decide (n = b)) as [->|Hne].
  - rewrite pinv_add_eq, unpin_ne; [lia|]. intros Hb. by apply (Hd b Hb); left.
  - rewrite pinv_add_ne by done. apply IH; [done|]. apply elem_of_app in Hn as [|Hn]; [done|].
    by apply list_elem_of_singleton in Hn.
Qed.

(** Holding one buffer besides the pinned ones, with a block to spare. *)
Lemma busy_one i m pin (B : gset Z) b :
  dom pin ⊆ B -> b ∉ dom pin -> b ∈ B -> (size B < NBUF)%nat -> (size (busy [(i, m)] pin) < NBUF)%nat.
Proof.
  intros Hsub Hb HB Hsz. unfold busy. simpl.
  assert (H1 : dom pin ⊆ B ∖ {[b]}) by set_solver. apply subseteq_size in H1.
  rewrite size_difference in H1 by set_solver. rewrite size_singleton in H1.
  assert (H2 : (size (dom pin ∪ ({[m]} ∪ ∅) : gset Z) <= size (dom pin) + 1)%nat).
  { rewrite size_union_alt. assert (H3 : (({[m]} ∪ ∅) ∖ dom pin : gset Z) ⊆ {[m]}) by set_solver.
    apply subseteq_size in H3. rewrite size_singleton in H3. lia. }
  assert (0 < size B)%nat. { destruct (decide (size B = 0)%nat) as [E|]; [|lia]. apply size_empty_inv in E. set_solver. }
  lia.
Qed.

Lemma NoDup_take_lookup {A} (l : list A) t x : NoDup l -> l !! t = Some x -> x ∉ take t l.
Proof.
  intros Hnd Hx Hin. apply list_elem_of_lookup in Hin as [j Hj]. apply lookup_take_Some in Hj as [Hj Hlt].
  pose proof (NoDup_lookup _ _ _ _ Hnd Hj Hx). lia.
Qed.

Lemma elem_of_take_1 {A} (l : list A) t x : x ∈ take t l -> x ∈ l.
Proof. intros Hin. rewrite <- (take_drop t l). apply elem_of_app. by left. Qed.

End Blk.
