(* ===== verification/Bio.v ===== *)
(** The buffer cache, [src/kernel/filesystem/bio.c], with its sleep locks,
    [src/kernel/lock/sleeplock.c].

    Thirty buffers hang on thirteen hash buckets, each a circular doubly linked
    list with a head node; a buffer is found by its block number and recycled by
    its time stamp. The operations run one at a time for the process [bpid]; a
    bucket's spin lock is held for the whole of its critical section. *)

From stdpp Require Import functions.
From S2P Require Import Prelude Mem Ring Blk.
Import Ring Blk.

Module Bio.

Definition NBUCKET : Z := 13.
Definition HASH (id : Z) : Z := id mod NBUCKET.

Record sleeplock := mk_sl { sl_locked : Z; sl_pid : Z }.

Record buf := mk_buf {
  b_valid : Z;
  b_dev : Z;
  b_blockno : Z;
  b_lock : sleeplock;
  b_refcnt : Z;
  b_data : block;
  b_timestamp : Z }.

(** A pointer to a node of a bucket: its head, or a buffer. *)
Inductive bptr := Bhead (k : Z) | Bbuf (i : nat).
#[global] Instance bptr_eq_dec : EqDecision bptr.
Proof. solve_decision. Defined.

(** [nxt] and [prv] are the [next] and [prev] fields of all nodes. [disk] is the
    block device and [wlog] the writes it has completed, oldest first. *)
Record bst := mk_bst {
  bufs : list buf;
  nxt : bptr -> bptr;
  prv : bptr -> bptr;
  disk : Z -> block;
  wlog : list (Z * block);
  bticks : Z;
  bpid : Z }.

Definition set_bufs (x : list buf) (s : bst) : bst := mk_bst x (nxt s) (prv s) (disk s) (wlog s) (bticks s) (bpid s).
Definition set_nxt (p q : bptr) (s : bst) : bst :=
  mk_bst (bufs s) (<[p := q]> (nxt s)) (prv s) (disk s) (wlog s) (bticks s) (bpid s).
Definition set_prv (p q : bptr) (s : bst) : bst :=
  mk_bst (bufs s) (nxt s) (<[p := q]> (prv s)) (disk s) (wlog s) (bticks s) (bpid s).

Definition getb (i : nat) : M bst buf := fun s => match bufs s !! i with Some b => Ret b s | None => Fault end.
Definition modb (i : nat) (f : buf -> buf) : M bst unit := fun s =>
  match bufs s !! i with Some b => Ret tt (set_bufs (<[i := f b]> (bufs s)) s) | None => Fault end.

Definition with_valid v b := mk_buf v (b_dev b) (b_blockno b) (b_lock b) (b_refcnt b) (b_data b) (b_timestamp b).
Definition with_lock l b := mk_buf (b_valid b) (b_dev b) (b_blockno b) l (b_refcnt b) (b_data b) (b_timestamp b).
Definition with_refcnt r b := mk_buf (b_valid b) (b_dev b) (b_blockno b) (b_lock b) r (b_data b) (b_timestamp b).
Definition with_data d b := mk_buf (b_valid b) (b_dev b) (b_blockno b) (b_lock b) (b_refcnt b) d (b_timestamp b).
Definition with_timestamp t b := mk_buf (b_valid b) (b_dev b) (b_blockno b) (b_lock b) (b_refcnt b) (b_data b) t.
Definition with_block d n b := mk_buf (b_valid b) d n (b_lock b) (b_refcnt b) (b_data b) (b_timestamp b).

(** ** Sleep locks

    A process that finds the lock taken sleeps until it is woken with the lock
    free; with no other process to run, it never returns. *)
Definition initsleeplock : sleeplock := mk_sl 0 0.
Definition acquiresleep (i : nat) : M bst unit :=
  let* b := getb i in
  if sl_locked (b_lock b) =? 0 then let* pid := gets bpid in modb i (with_lock (mk_sl 1 pid))
  else nofuel.
Definition releasesleep (i : nat) : M bst unit := modb i (with_lock (mk_sl 0 0)).
Definition holdingsleep (i : nat) : M bst bool :=
  let* b := getb i in
  let* pid := gets bpid in
  ret (negb (sl_locked (b_lock b) =? 0) && (sl_pid (b_lock b) =? pid)).

(** ** Bucket lists *)

(** [b->next = head.next; b->prev = &head; head.next->prev = b; head.next = b] *)
Definition push_head (k : Z) (i : nat) (s : bst) : bst :=
  let s := set_nxt (Bbuf i) (nxt s (Bhead k)) s in
  let s := set_prv (Bbuf i) (Bhead k) s in
  let s := set_prv (nxt s (Bhead k)) (Bbuf i) s in
  set_nxt (Bhead k) (Bbuf i) s.

(** [b->next->prev = b->prev; b->prev->next = b->next] *)
Definition unlink (i : nat) (s : bst) : bst :=
  let s := set_prv (nxt s (Bbuf i)) (prv s (Bbuf i)) s in
  set_nxt (prv s (Bbuf i)) (nxt s (Bbuf i)) s.

(** The state of the zeroed [bcache]. *)
Definition bss_buf : buf := mk_buf 0 0 0 (mk_sl 0 0) 0 (fun _ => 0) 0.

Definition binit : M bst unit :=
  for_loop (Z.to_nat NBUCKET) 0 (fun i =>
    modify (set_prv (Bhead i) (Bhead i)) ;;;
    modify (set_nxt (Bhead i) (Bhead i))) ;;;
  for_loop NBUF 0 (fun b =>
    modify (push_head 0 (Z.to_nat b)) ;;;
    modb (Z.to_nat b) (with_lock initsleeplock)).

(** ** Looking up and recycling buffers *)

(** [for (b = head.next; b != &head; b = b->next)], looking for the block. *)
Fixpoint find_buf (fuel : nat) (k : Z) (dev blockno : Z) (p : bptr) : M bst (option nat) :=
  match fuel with
  | O => nofuel
  | S fuel =>
      if decide (p = Bhead k) then ret None
      else
        match p with
        | Bhead _ => fault
        | Bbuf i =>
            let* b := getb i in
            if (b_dev b =? dev) && (b_blockno b =? blockno) then ret (Some i)
            else let* q := gets (fun s => nxt s p) in find_buf fuel k dev blockno q
        end
  end.

(** The same loop, keeping the unreferenced buffer with the oldest time stamp. *)
Fixpoint find_lru (fuel : nat) (k : Z) (best : option nat) (p : bptr) : M bst (option nat) :=
  match fuel with
  | O => nofuel
  | S fuel =>
      if decide (p = Bhead k) then ret best
      else
        match p with
        | Bhead _ => fault
        | Bbuf i =>
            let* tmp := getb i in
            let* best :=
              if b_refcnt tmp =? 0 then
                match best with
                | None => ret (Some i)
                | Some j =>
                    let* b := getb j in
                    ret (if b_timestamp tmp <? b_timestamp b then Some i else best)
                end
              else ret best in
            let* q := gets (fun s => nxt s p) in
            find_lru fuel k best q
        end
  end.

Definition ring_fuel : nat := S NBUF.

(** [b->timestamp = ticks] *)
Definition stamp (i : nat) : M bst unit := let* t := gets bticks in modb i (with_timestamp t).

(** [for (i = bid, cycle = 0; cycle != NBUCKET; i = (i + 1) % NBUCKET)]. The
    process holds no bucket lock but [bid]'s, so [holding] is false for the
    others. *)
Fixpoint recycle (cycles : nat) (dev blockno bid i : Z) : M bst nat :=
  match cycles with
  | O => panic "bget: no buffers"
  | S cycles =>
      let* first := gets (fun s => nxt s (Bhead i)) in
      let* r := find_lru ring_fuel i None first in
      match r with
      | Some b =>
          when (negb (i =? bid)) (modify (unlink b) ;;; modify (push_head bid b)) ;;;
          modb b (with_block dev blockno) ;;;
          modb b (with_valid 0) ;;;
          modb b (with_refcnt 1) ;;;
          stamp b ;;;
          acquiresleep b ;;;
          ret b
      | None => recycle cycles dev blockno bid ((i + 1) mod NBUCKET)
      end
  end.

Definition bget (dev blockno : Z) : M bst nat :=
  let bid := HASH blockno in
  let* first := gets (fun s => nxt s (Bhead bid)) in
  let* r := find_buf ring_fuel bid dev blockno first in
  match r with
  | Some i =>
      modb i (fun b => with_refcnt (u32 (b_refcnt b + 1)) b) ;;;
      stamp i ;;;
      acquiresleep i ;;;
      ret i
  | None => recycle (Z.to_nat NBUCKET) dev blockno bid bid
  end.

(** A completed request of the disk driver, [virtio_disk_rw]: the block device
    has one block per number, whatever [b->dev] is. *)
Definition disk_read (i : nat) : M bst unit :=
  let* b := getb i in
  let* d := gets (fun s => disk s (b_blockno b)) in
  modb i (with_data d).
Definition disk_write (i : nat) : M bst unit :=
  let* b := getb i in
  modify (fun s => mk_bst (bufs s) (nxt s) (prv s) (<[b_blockno b := b_data b]> (disk s))
                     (wlog s ++ [(b_blockno b, b_data b)]) (bticks s) (bpid s)).

Definition bread (dev blockno : Z) : M bst nat :=
  let* i := bget dev blockno in
  let* b := getb i in
  when (b_valid b =? 0) (disk_read i ;;; modb i (with_valid 1)) ;;;
  ret i.

Definition bwrite (i : nat) : M bst unit :=
  let* h := holdingsleep i in
  if negb h then panic "bwrite" else disk_write i.

Definition brelse (i : nat) : M bst unit :=
  let* h := holdingsleep i in
  if negb h then panic "brelse"
  else
    releasesleep i ;;;
    modb i (fun b => with_refcnt (u32 (b_refcnt b - 1)) b) ;;;
    stamp i.

Definition bpin (i : nat) : M bst unit := modb i (fun b => with_refcnt (u32 (b_refcnt b + 1)) b).
Definition bunpin (i : nat) : M bst unit := modb i (fun b => with_refcnt (u32 (b_refcnt b - 1)) b).

(** The users of a buffer read and write its data in place. *)
Definition bdata (i : nat) : M bst block := let* b := getb i in ret (b_data b).
Definition set_bdata (i : nat) (d : block) : M bst unit := modb i (with_data d).

(** ** The structure of the cache *)

Definition ref_ptrs (l : list nat) : list bptr := Bbuf <$> l.

(** [ls] are the buffers of each bucket in list order. *)
Record cinv (s : bst) (ls : list (list nat)) : Prop := {
  ci_len : length (bufs s) = NBUF;
  ci_lists : Z.of_nat (length ls) = NBUCKET;
  ci_ring : forall k l, ls !! k = Some l -> ring (nxt s) (prv s) (Bhead (Z.of_nat k)) (ref_ptrs l);
  ci_perm : concat ls ≡ₚ seq 0 NBUF;
  ci_hash : forall k l i b, ls !! k = Some l -> i ∈ l -> bufs s !! i = Some b -> HASH (b_blockno b) = Z.of_nat k;
  ci_dev : forall i b, bufs s !! i = Some b -> b_dev b = 0 \/ b_dev b = ROOTDEV;
  ci_uniq : forall i j b c, bufs s !! i = Some b -> bufs s !! j = Some c ->
    b_dev b = ROOTDEV -> b_dev c = ROOTDEV -> b_blockno b = b_blockno c -> i = j }.

Lemma getb_run s i b : bufs s !! i = Some b -> getb i s = Ret b s.
Proof. intros H. unfold getb. by rewrite H. Qed.
Lemma modb_run s i f b : bufs s !! i = Some b -> modb i f s = Ret tt (set_bufs (<[i := f b]> (bufs s)) s).
Proof. intros H. unfold modb. by rewrite H. Qed.
Lemma set_bufs_twice x y s : set_bufs x (set_bufs y s) = set_bufs x s.
Proof. done. Qed.

Section structure.
Context (s : bst) (ls : list (list nat)).
Hypothesis Hinv : cinv s ls.

Lemma bucket_some k : 0 <= k < NBUCKET -> exists l, ls !! Z.to_nat k = Some l.
Proof using Hinv.
  intros Hk. apply lookup_lt_is_Some. pose proof (ci_lists _ _ Hinv). lia.
Qed.

Lemma buffer_some i : (i < NBUF)%nat -> exists b, bufs s !! i = Some b.
Proof using Hinv. intros Hi. apply lookup_lt_is_Some. by rewrite (ci_len _ _ Hinv). Qed.

Lemma listed i : (i < NBUF)%nat -> exists k l, ls !! k = Some l /\ i ∈ l.
Proof using Hinv.
  intros Hi. assert (H : i ∈ concat ls) by (rewrite (ci_perm _ _ Hinv); apply elem_of_seq; lia).
  by apply elem_concat in H.
Qed.

Lemma listed_lt k l i : ls !! k = Some l -> i ∈ l -> (i < NBUF)%nat.
Proof using Hinv.
  intros Hk Hi. assert (H : i ∈ concat ls) by (by eapply elem_concat_lookup).
  rewrite (ci_perm _ _ Hinv) in H. apply elem_of_seq in H. lia.
Qed.

Lemma bucket_length k l : ls !! k = Some l -> (length l <= NBUF)%nat.
Proof using Hinv.
  intros Hk. assert (NoDup l).
  { pose proof (proj1 (ci_ring _ _ Hinv k l Hk)) as Hnd. apply NoDup_cons in Hnd as [_ Hnd].
    by apply (NoDup_fmap_1 Bbuf). }
  assert (Hs : l ⊆+ seq 0 NBUF).
  { apply NoDup_submseteq; [done|]. intros i Hi. apply elem_of_seq. pose proof (listed_lt k l i Hk Hi). lia. }
  apply submseteq_length in Hs. by rewrite length_seq in Hs.
Qed.

(** A buffer is on one list only. *)
Lemma listed_once k k' l l' i : ls !! k = Some l -> ls !! k' = Some l' -> i ∈ l -> i ∈ l' -> k = k'.
Proof using Hinv.
  intros Hk Hk' Hi Hi'. assert (Hnd : NoDup (concat ls)) by (rewrite (ci_perm _ _ Hinv); apply NoDup_seq).
  destruct (decide (k = k')) as [|Hne]; [done|]. exfalso.
  eapply (concat_disjoint ls k k'); eauto.
Qed.

Lemma suffix_ptr k l l1 l2 : ls !! k = Some l -> l = l1 ++ l2 ->
  (match last l1 with Some a => nxt s (Bbuf a) | None => nxt s (Bhead (Z.of_nat k)) end) =
  default (Bhead (Z.of_nat k)) (Bbuf <$> head l2).
Proof using Hinv.
  intros Hk ->. pose proof (ci_ring _ _ Hinv _ _ Hk) as Hr. unfold ref_ptrs in Hr.
  rewrite fmap_app in Hr. destruct l1 as [|a l1 _] using rev_ind.
  - simpl. rewrite (ring_next _ _ _ _ Hr). simpl. by destruct l2.
  - rewrite last_snoc. rewrite fmap_app, <- app_assoc in Hr. simpl in Hr.
    rewrite (ring_after _ _ _ _ _ _ Hr). by destruct l2.
Qed.

(** The lookup loop returns a buffer for the block, if the bucket has one. *)
Lemma find_buf_run k l dev blockno : ls !! k = Some l -> forall l2 l1 fuel,
  l = l1 ++ l2 -> (length l2 < fuel)%nat ->
  exists r, find_buf fuel (Z.of_nat k) dev blockno (default (Bhead (Z.of_nat k)) (Bbuf <$> head l2)) s = Ret r s /\
    match r with
    | Some i => i ∈ l2 /\ exists b, bufs s !! i = Some b /\ b_dev b = dev /\ b_blockno b = blockno
    | None => forall i b, i ∈ l2 -> bufs s !! i = Some b -> ~ (b_dev b = dev /\ b_blockno b = blockno)
    end.
Proof using Hinv.
  intros Hk l2. induction l2 as [|i l2 IH]; intros l1 fuel Hl Hf; (destruct fuel as [|fuel]; [simpl in Hf; lia|]).
  - exists None. simpl. rewrite decide_True by done. split; [done|]. intros i b Hi. by apply not_elem_of_nil in Hi.
  - simpl.
    destruct (buffer_some i) as [b Hb]; [eapply listed_lt; [done|]; subst l; set_solver|].
    rewrite (bind_Ret _ _ _ _ _ (getb_run _ _ _ Hb)).
    destruct ((b_dev b =? dev) && (b_blockno b =? blockno)) eqn:E.
    + exists (Some i). bool_cases. split; [done|]. split; [set_solver|by exists b].
    + pose proof (suffix_ptr k l (l1 ++ [i]) l2 Hk) as Hp. rewrite last_snoc in Hp.
      unfold bind, gets. rewrite Hp by (by rewrite <- app_assoc).
      destruct (IH (l1 ++ [i]) fuel) as (r & Hr & Hspec); [by rewrite <- app_assoc|simpl in Hf; lia|].
      exists r. split; [exact Hr|]. destruct r as [j|].
      * destruct Hspec as [Hj Hx]. split; [set_solver|done].
      * intros j c [->|Hj]%elem_of_cons Hc; [|by apply (Hspec j c)].
        rewrite Hb in Hc. injection Hc as <-. bool_cases. destruct E; bool_cases; tauto.
Qed.

(** The recycling loop picks an unreferenced buffer with the oldest stamp. *)
Definition lru_of (l : list nat) (r : option nat) : Prop :=
  match r with
  | Some i => exists b, bufs s !! i = Some b /\ b_refcnt b = 0 /\ i ∈ l /\
      forall j c, j ∈ l -> bufs s !! j = Some c -> b_refcnt c = 0 -> b_timestamp b <= b_timestamp c
  | None => forall j c, j ∈ l -> bufs s !! j = Some c -> b_refcnt c <> 0
  end.

Lemma lru_step l best i b : bufs s !! i = Some b -> lru_of l best ->
  exists best', (if b_refcnt b =? 0 then
     match best with
     | None => ret (Some i)
     | Some j => let* c := getb j in ret (if b_timestamp b <? b_timestamp c then Some i else best)
     end else ret best) s = Ret best' s /\ lru_of (l ++ [i]) best'.
Proof using Hinv.
  intros Hb Hl. destruct (Z.eqb_spec (b_refcnt b) 0) as [E|E].
  - destruct best as [j|].
    + destruct Hl as (c & Hc & Hz & Hj & Hmin). rewrite (bind_Ret _ _ _ _ _ (getb_run _ _ _ Hc)).
      destruct (Z.ltb_spec (b_timestamp b) (b_timestamp c)); eexists; (split; [reflexivity|]).
      * exists b. split_and!; [done|done|set_solver|]. intros m e Hm He Hz'.
        apply elem_of_app in Hm as [Hm|Hm]; [pose proof (Hmin m e Hm He Hz'); lia|].
        apply list_elem_of_singleton in Hm as ->. rewrite Hb in He. injection He as <-. lia.
      * exists c. split_and!; [done|done|set_solver|]. intros m e Hm He Hz'.
        apply elem_of_app in Hm as [Hm|Hm]; [by eapply Hmin|].
        apply list_elem_of_singleton in Hm as ->. rewrite Hb in He. injection He as <-. lia.
    + exists (Some i). split; [done|]. exists b. split_and!; [done|done|set_solver|].
      intros m e Hm He Hz. apply elem_of_app in Hm as [Hm|Hm]; [by destruct (Hl m e Hm He)|].
      apply list_elem_of_singleton in Hm as ->. rewrite Hb in He. injection He as <-. lia.
  - exists best. split; [done|]. destruct best as [j|].
    + destruct Hl as (c & Hc & Hz & Hj & Hmin). exists c. split_and!; [done|done|set_solver|].
      intros m e Hm He Hz'. apply elem_of_app in Hm as [Hm|Hm]; [by eapply Hmin|].
      apply list_elem_of_singleton in Hm as ->. rewrite Hb in He. injection He as <-. done.
    + intros m e Hm He. apply elem_of_app in Hm as [Hm|Hm]; [by eapply Hl|].
      apply list_elem_of_singleton in Hm as ->. rewrite Hb in He. by injection He as <-.
Qed.

Lemma find_lru_run k l : ls !! k = Some l -> forall l2 l1 fuel best,
  l = l1 ++ l2 -> (length l2 < fuel)%nat -> lru_of l1 best ->
  exists r, find_lru fuel (Z.of_nat k) best (default (Bhead (Z.of_nat k)) (Bbuf <$> head l2)) s = Ret r s /\ lru_of l r.
Proof using Hinv.
  intros Hk l2. induction l2 as [|i l2 IH]; intros l1 fuel best Hl Hf Hb; (destruct fuel as [|fuel]; [simpl in Hf; lia|]).
  - exists best. simpl. rewrite decide_True by done. rewrite app_nil_r in Hl. by subst.
  - simpl.
    destruct (buffer_some i) as [b Hbi]; [eapply listed_lt; [done|]; subst l; set_solver|].
    rewrite (bind_Ret _ _ _ _ _ (getb_run _ _ _ Hbi)).
    destruct (lru_step l1 best i b Hbi Hb) as (best' & Hrun & Hb'). rewrite (bind_Ret _ _ _ _ _ Hrun).
    pose proof (suffix_ptr k l (l1 ++ [i]) l2 Hk) as Hp. rewrite last_snoc in Hp.
    unfold bind, gets. rewrite Hp by (by rewrite <- app_assoc).
    apply (IH (l1 ++ [i])); [by rewrite <- app_assoc|simpl in Hf; lia|done].
Qed.

End structure.

(** ** Moving buffers between buckets *)

Definition rings (nx pv : bptr -> bptr) (ls : list (list nat)) : Prop :=
  forall k l, ls !! k = Some l -> ring nx pv (Bhead (Z.of_nat k)) (ref_ptrs l).

Lemma elem_ptrs p k l : p ∈ Bhead k :: ref_ptrs l <-> p = Bhead k \/ exists i, p = Bbuf i /\ i ∈ l.
Proof. unfold ref_ptrs. rewrite elem_of_cons, list_elem_of_fmap. done. Qed.

(** Different buckets share no node. *)
Lemma buckets_disjoint ls j k l l' p :
  NoDup (concat ls) -> ls !! j = Some l -> ls !! k = Some l' -> j <> k ->
  p ∈ Bhead (Z.of_nat j) :: ref_ptrs l -> p ∈ Bhead (Z.of_nat k) :: ref_ptrs l' -> False.
Proof.
  intros Hnd Hj Hk Hne [->|(i & -> & Hi)]%elem_ptrs [Hp|(i' & Hp & Hi')]%elem_ptrs; try done.
  - injection Hp as E. lia.
  - injection Hp as ->. by eapply (concat_disjoint ls j k).
Qed.

Lemma rings_unlink nx pv ls k l1 v l2 :
  NoDup (concat ls) -> rings nx pv ls -> ls !! k = Some (l1 ++ v :: l2) ->
  rings (unlink_next nx pv (Bbuf v)) (unlink_prev nx pv (Bbuf v)) (<[k := l1 ++ l2]> ls).
Proof.
  intros Hnd Hr Hk j l Hj. pose proof (Hr k _ Hk) as Rk. unfold ref_ptrs in Rk. rewrite fmap_app in Rk. simpl in Rk.
  apply list_lookup_insert_Some in Hj as [(<- & <- & _)|[Hjk Hj]].
  - unfold ref_ptrs. rewrite fmap_app. by apply ring_unlink.
  - destruct (ring_neighbours _ _ _ _ _ _ Rk) as (Hp & Hn & _).
    eapply (ring_frame nx pv _ _ _ _ (fun c => c ∈ Bhead (Z.of_nat k) :: ref_ptrs (l1 ++ v :: l2))); [| |by apply Hr].
    + intros c Hc. unfold ref_ptrs in Hc. rewrite fmap_app in Hc. simpl in Hc.
      unfold unlink_next, unlink_prev. by rewrite !fn_lookup_insert_ne by (intros <-; by apply Hc).
    + intros c Hc Hc'. by eapply (buckets_disjoint ls j k).
Qed.

Lemma rings_push nx pv ls k l v :
  NoDup (concat ls) -> rings nx pv ls -> ls !! k = Some l -> v ∉ concat ls ->
  rings (insert_next nx (Bhead (Z.of_nat k)) (Bbuf v)) (insert_prev nx pv (Bhead (Z.of_nat k)) (Bbuf v)) (<[k := v :: l]> ls).
Proof.
  intros Hnd Hr Hk Hv. set (h := Bhead (Z.of_nat k)). pose proof (Hr k l Hk) as Rk. fold h in Rk.
  assert (Hout : forall j l', ls !! j = Some l' -> Bbuf v ∉ Bhead (Z.of_nat j) :: ref_ptrs l').
  { intros j l' Hj [[=]|(i & [= <-] & Hi)]%elem_ptrs. by eapply Hv, elem_concat_lookup. }
  assert (Hhd : nx h ∈ h :: ref_ptrs l).
  { rewrite (ring_next _ _ _ _ Rk). destruct l; simpl; [by left|by right; left]. }
  intros j l' Hj. apply list_lookup_insert_Some in Hj as [(<- & <- & _)|[Hjk Hj]].
  - apply ring_insert; [exact Rk|by apply Hout].
  - eapply (ring_frame nx pv _ _ _ _ (fun c => c = Bbuf v \/ c ∈ h :: ref_ptrs l)); [| |by apply Hr].
    + intros c Hc. unfold insert_next, insert_prev.
      rewrite !fn_lookup_insert_ne; try done; intros <-; apply Hc; first [by left|by right; left|by right].
    + intros c Hc [->|Hc']; [by eapply Hout|]. by eapply (buckets_disjoint ls j k).
Qed.

Lemma push_head_links k v s :
  nxt (push_head k v s) = insert_next (nxt s) (Bhead k) (Bbuf v) /\
  prv (push_head k v s) = insert_prev (nxt s) (prv s) (Bhead k) (Bbuf v).
Proof. unfold push_head, insert_next, insert_prev. cbn [nxt prv set_nxt set_prv]. by rewrite fn_lookup_insert_ne. Qed.

Lemma unlink_links v s :
  nxt s (Bbuf v) <> Bbuf v ->
  nxt (unlink v s) = unlink_next (nxt s) (prv s) (Bbuf v) /\ prv (unlink v s) = unlink_prev (nxt s) (prv s) (Bbuf v).
Proof. intros H. unfold unlink, unlink_next, unlink_prev. cbn [nxt prv set_nxt set_prv]. by rewrite fn_lookup_insert_ne. Qed.

(** Changing a buffer but not the block it is for. *)
Lemma cinv_buf s ls i b b' :
  cinv s ls -> bufs s !! i = Some b -> b_dev b' = b_dev b -> b_blockno b' = b_blockno b ->
  cinv (set_bufs (<[i := b']> (bufs s)) s) ls.
Proof.
  intros [C1 C2 C3 C4 C5 C6 C7] Hb Hd Hn.
  assert (Hl : forall j c, <[i := b']> (bufs s) !! j = Some c ->
    exists c0, bufs s !! j = Some c0 /\ b_dev c = b_dev c0 /\ b_blockno c = b_blockno c0).
  { intros j c Hc. apply list_lookup_insert_Some in Hc as [(-> & <- & _)|[_ Hc]]; [by exists b|by exists c]. }
  split; try done.
  - simpl. by rewrite length_insert.
  - intros k l j c Hk Hj Hc. destruct (Hl j c Hc) as (c0 & Hc0 & _ & ->). by eapply C5.
  - intros j c Hc. destruct (Hl j c Hc) as (c0 & Hc0 & -> & _). by eapply C6.
  - intros j j' c c' Hc Hc'. destruct (Hl j c Hc) as (c0 & Hc0 & -> & ->), (Hl j' c' Hc') as (c0' & Hc0' & -> & ->).
    by eapply C7.
Qed.

(** The buffer [v] of bucket [k] is recycled for a block of bucket [bid]. *)
Definition moved (k bid : nat) (v : nat) (s : bst) : bst :=
  if negb (Z.of_nat k =? Z.of_nat bid) then push_head (Z.of_nat bid) v (unlink v s) else s.

Lemma moved_rings s ls v k bid l :
  cinv s ls -> ls !! k = Some l -> v ∈ l -> (bid < length ls)%nat ->
  exists ls', rings (nxt (moved k bid v s)) (prv (moved k bid v s)) ls' /\ length ls' = length ls /\
    concat ls' ≡ₚ concat ls /\ (exists l', ls' !! bid = Some l' /\ v ∈ l') /\
    (forall j l' i, ls' !! j = Some l' -> i ∈ l' -> i <> v -> exists l0, ls !! j = Some l0 /\ i ∈ l0) /\
    (forall j l', ls' !! j = Some l' -> v ∈ l' -> j = bid).
Proof.
  intros Hinv Hk Hv Hb. assert (Hnd : NoDup (concat ls)) by (rewrite (ci_perm _ _ Hinv); apply NoDup_seq).
  unfold moved. destruct (Z.eqb_spec (Z.of_nat k) (Z.of_nat bid)) as [E|E]; cbn [negb].
  { assert (k = bid) as -> by lia. exists ls. split; [exact (ci_ring _ _ Hinv)|]. split_and!; try done; [by exists l|by eauto|].
    intros j l' Hj Hv'. by eapply (listed_once s ls Hinv). }
  apply list_elem_of_split in Hv as (l1 & l2 & ->).
  destruct (lookup_lt_is_Some_2 ls bid Hb) as [lb Hlb].
  assert (Hrm : v :: concat (<[k := l1 ++ l2]> ls) ≡ₚ concat ls) by (by apply concat_remove_perm).
  assert (Hv1 : v ∉ concat (<[k := l1 ++ l2]> ls)) by (rewrite <- Hrm in Hnd; by apply NoDup_cons in Hnd as [? _]).
  assert (Hnd1 : NoDup (concat (<[k := l1 ++ l2]> ls))) by (rewrite <- Hrm in Hnd; by apply NoDup_cons in Hnd as [_ ?]).
  assert (Hlb1 : <[k := l1 ++ l2]> ls !! bid = Some lb) by (rewrite list_lookup_insert_ne; [done|lia]).
  pose proof (rings_unlink _ _ _ _ _ _ _ Hnd (ci_ring _ _ Hinv) Hk) as R1.
  assert (Hnv : nxt s (Bbuf v) <> Bbuf v).
  { pose proof (ci_ring _ _ Hinv _ _ Hk) as Rk. unfold ref_ptrs in Rk. rewrite fmap_app in Rk. simpl in Rk.
    by apply ring_neighbours in Rk as (_ & _ & ?). }
  destruct (unlink_links v s Hnv) as [E1 E2]. rewrite <- E1, <- E2 in R1. pose proof (rings_push _ _ _ _ _ _ Hnd1 R1 Hlb1 Hv1) as R2.
  destruct (push_head_links (Z.of_nat bid) v (unlink v s)) as [E3 E4]. rewrite <- E3, <- E4 in R2.
  exists (<[bid := v :: lb]> (<[k := l1 ++ l2]> ls)). split; [exact R2|].
  assert (Hlen : (bid < length (<[k := l1 ++ l2]> ls))%nat) by (by rewrite length_insert).
  split_and!.
  - by rewrite !length_insert.
  - rewrite (concat_cons_perm _ _ _ _ Hlb1). exact Hrm.
  - exists (v :: lb). split; [by apply list_lookup_insert_eq|by left].
  - intros j l' i Hj Hi Hne. apply list_lookup_insert_Some in Hj as [(<- & <- & _)|[_ Hj]].
    + apply elem_of_cons in Hi as [|Hi]; [done|]. by exists lb.
    + apply list_lookup_insert_Some in Hj as [(<- & <- & _)|[_ Hj]]; [|by exists l'].
      exists (l1 ++ v :: l2). split; [done|]. apply elem_of_app in Hi as [Hi|Hi]; apply elem_of_app; [by left|by right; right].
  - intros j l' Hj Hi. apply list_lookup_insert_Some in Hj as [(<- & <- & _)|[_ Hj]]; [done|].
    destruct Hv1. by eapply elem_concat_lookup.
Qed.

Lemma moved_fields k bid v s :
  bufs (moved k bid v s) = bufs s /\ disk (moved k bid v s) = disk s /\ wlog (moved k bid v s) = wlog s /\
  bticks (moved k bid v s) = bticks s /\ bpid (moved k bid v s) = bpid s.
Proof. unfold moved. by destruct (negb _). Qed.

Definition recycled (dev blockno : Z) (k bid v : nat) (bv : buf) (s : bst) : bst :=
  set_bufs (<[v := mk_buf 0 dev blockno (mk_sl 1 (bpid s)) 1 (b_data bv) (bticks s)]> (bufs s)) (moved k bid v s).

(** The victim's fields are set and its lock is taken. *)
Lemma take_run dev blockno bid i k v bv s :
  Z.of_nat k = i -> bufs s !! v = Some bv -> sl_locked (b_lock bv) = 0 ->
  (when (negb (i =? Z.of_nat bid)) (modify (unlink v) ;;; modify (push_head (Z.of_nat bid) v)) ;;;
   modb v (with_block dev blockno) ;;; modb v (with_valid 0) ;;; modb v (with_refcnt 1) ;;;
   stamp v ;;; acquiresleep v ;;; ret v) s = Ret v (recycled dev blockno k bid v bv s).
Proof.
  intros <- Hv Hl. destruct (moved_fields k bid v s) as (E1 & _ & _ & E4 & E5).
  assert (Hm : when (negb (Z.of_nat k =? Z.of_nat bid)) (modify (unlink v) ;;; modify (push_head (Z.of_nat bid) v)) s =
    Ret tt (moved k bid v s)) by (unfold moved; by destruct (negb _)).
  rewrite (bind_Ret _ _ _ _ _ Hm). unfold recycled. rewrite <- E1, <- E4, <- E5. rewrite <- E1 in Hv.
  clear E1 E4 E5 Hm. generalize dependent (moved k bid v s). clear s. intros s Hv.
  assert (Hlt : (v < length (bufs s))%nat) by (by apply lookup_lt_Some in Hv).
  unfold stamp, acquiresleep, modb, getb, bind, gets, ret. rewrite Hv.
  repeat (cbn [bufs set_bufs bticks bpid b_lock sl_locked with_timestamp with_refcnt with_valid with_block];
    rewrite ?list_lookup_insert_eq by (by rewrite ?length_insert)).
  rewrite Hl. cbn [Z.eqb]. rewrite !set_bufs_twice, ?list_insert_insert_eq. cbn [bufs set_bufs].
  rewrite list_lookup_insert_eq by done. by rewrite set_bufs_twice, list_insert_insert_eq.
Qed.

Lemma recycle_run dev blockno bid ls s :
  cinv s ls -> (forall i b, bufs s !! i = Some b -> b_refcnt b = 0 -> sl_locked (b_lock b) = 0) ->
  forall n i, 0 <= i < NBUCKET ->
  (exists d l j b, 0 <= d < Z.of_nat n /\ ls !! Z.to_nat ((i + d) mod NBUCKET) = Some l /\ j ∈ l /\
     bufs s !! j = Some b /\ b_refcnt b = 0) ->
  exists k l v bv, ls !! k = Some l /\ lru_of s l (Some v) /\ bufs s !! v = Some bv /\
    recycle n dev blockno (Z.of_nat bid) i s = Ret v (recycled dev blockno k bid v bv s).
Proof.
  intros Hinv Hfree. induction n as [|n IH]; intros i Hi (d & l & j & b & Hd & Hl & Hj & Hb & Hz); [lia|].
  destruct (bucket_some s ls Hinv i Hi) as [li Hli].
  assert (Ei : Z.of_nat (Z.to_nat i) = i) by lia. cbn [recycle].
  unfold bind at 1, gets at 1. pose proof (suffix_ptr s ls Hinv _ _ [] li Hli eq_refl) as Hp. simpl in Hp. rewrite Ei in Hp.
  rewrite Hp. destruct (find_lru_run s ls Hinv _ li Hli li [] ring_fuel None eq_refl) as (r & Hrun & Hlru).
  { unfold ring_fuel. pose proof (bucket_length s ls Hinv _ _ Hli). lia. }
  { intros ? ? H. by apply not_elem_of_nil in H. }
  rewrite Ei in Hrun. rewrite (bind_Ret _ _ _ _ _ Hrun). destruct r as [v|].
  - pose proof Hlru as (bv & Hbv & Hz' & Hvl & _). exists (Z.to_nat i), li, v, bv. split_and!; try done.
    apply (take_run dev blockno bid i (Z.to_nat i) v bv s Ei Hbv). by eapply Hfree.
  - destruct (IH ((i + 1) mod NBUCKET)) as (k & l' & v & bv & Hk & Hlr & Hbv & Hrec).
    + apply Z.mod_pos_bound. done.
    + assert (d <> 0).
      { intros ->. rewrite Z.add_0_r, Z.mod_small in Hl by done. rewrite Hli in Hl. injection Hl as <-. by eapply (Hlru j b). }
      exists (d - 1), l, j, b. split; [lia|]. split; [|done]. rewrite Z.add_mod_idemp_l by done.
      by replace (i + 1 + (d - 1)) with (i + d) by lia.
    + by exists k, l', v, bv.
Qed.

(** ** What the cache promises

    [bio s vw H pin]: reading block [n] gives [vw n]; the process holds the
    locked buffers [H], each with its block number; block [n] has [pinv pin n]
    references beyond that. A block that is neither held nor pinned reads as it
    is on disk, so that its buffer may be recycled. *)
Definition hc (H : list (nat * Z)) (i : nat) : Z := if decide (i ∈ H.*1) then 1 else 0.

Record bio (s : bst) (vw : Z -> block) (H : list (nat * Z)) (pin : gmap Z Z) : Prop := {
  bo_inv : exists ls, cinv s ls;
  bo_root : forall i b, bufs s !! i = Some b -> b_dev b = ROOTDEV ->
    b_valid b = 1 /\ b_data b = vw (b_blockno b) /\ b_refcnt b = u32 (hc H i + pinv pin (b_blockno b));
  bo_none : forall i b, bufs s !! i = Some b -> b_dev b = 0 -> b_refcnt b = 0;
  bo_clean : forall n, n ∉ H.*2 -> pinv pin n = 0 -> vw n = disk s n;
  bo_held : forall i n, (i, n) ∈ H ->
    exists b, bufs s !! i = Some b /\ b_dev b = ROOTDEV /\ b_blockno b = n /\ b_lock b = mk_sl 1 (bpid s);
  bo_free : forall i b, bufs s !! i = Some b -> i ∉ H.*1 -> sl_locked (b_lock b) = 0;
  bo_nodup : NoDup (H.*1);
  bo_pin : forall n v, pin !! n = Some v -> v <> 0 /\ -1 <= v < 2 ^ 31 /\
    exists i b, bufs s !! i = Some b /\ b_dev b = ROOTDEV /\ b_blockno b = n }.

Lemma hc_range H i : 0 <= hc H i <= 1.
Proof. unfold hc. destruct (decide _); lia. Qed.

Lemma elem_fst (H : list (nat * Z)) i : i ∈ H.*1 <-> exists n, (i, n) ∈ H.
Proof. rewrite list_elem_of_fmap. split; [intros ([j n] & -> & Hin); by exists n|intros [n Hin]; by exists (i, n)]. Qed.
Lemma elem_snd (H : list (nat * Z)) n : n ∈ H.*2 <-> exists i, (i, n) ∈ H.
Proof. rewrite list_elem_of_fmap. split; [intros ([j m] & -> & Hin); by exists j|intros [i Hin]; by exists (i, n)]. Qed.

Section cache.
Context (s : bst) (vw : Z -> block) (H : list (nat * Z)) (pin : gmap Z Z).
Hypothesis Hbio : bio s vw H pin.

Lemma pin_range n : pinv pin n <> 0 -> is_Some (pin !! n).
Proof using Type. unfold pinv. destruct (pin !! n); [by eexists|done]. Qed.

Lemma pinv_bound n : -1 <= pinv pin n < 2 ^ 31.
Proof using Hbio.
  unfold pinv. destruct (pin !! n) as [v|] eqn:E; simpl; [|lia].
  destruct (bo_pin _ _ _ _ Hbio n v E) as (_ & ? & _). unfold id. lia.
Qed.

(** A buffer of this block that is in nobody's hands. *)
Lemma cached_free i b n : bufs s !! i = Some b -> b_blockno b = n -> n ∉ H.*2 -> i ∉ H.*1.
Proof using Hbio.
  intros Hb <- Hn [m Hin]%elem_fst. destruct (bo_held _ _ _ _ Hbio i m Hin) as (c & Hc & _ & Em & _).
  rewrite Hb in Hc. injection Hc as <-. apply Hn, elem_snd. exists i. by rewrite Em.
Qed.

(** Unreferenced means neither held nor pinned. *)
Lemma refcnt_zero i b : bufs s !! i = Some b -> b_dev b = ROOTDEV -> b_refcnt b = 0 ->
  (forall j n, (j, n) ∈ H -> pinv pin n <> -1) -> (i ∉ H.*1) /\ pinv pin (b_blockno b) = 0.
Proof using Hbio.
  intros Hb Hd Hz Hok. destruct (bo_root _ _ _ _ Hbio i b Hb Hd) as (_ & _ & Hr). rewrite Hz in Hr.
  pose proof (pinv_bound (b_blockno b)) as Hp. unfold hc in Hr. destruct (decide (i ∈ H.*1)) as [Hi|Hi].
  - apply elem_fst in Hi as [n Hin]. destruct (bo_held _ _ _ _ Hbio i n Hin) as (c & Hc & _ & En & _).
    rewrite Hb in Hc. injection Hc as <-. pose proof (Hok i n Hin) as Hne. rewrite <- En in Hne.
    unfold u32 in Hr. rewrite Z.mod_small in Hr by lia. lia.
  - split; [done|]. unfold u32 in Hr. destruct (decide (pinv pin (b_blockno b) = -1)) as [E|E].
    + rewrite E in Hr. done.
    + rewrite Z.mod_small in Hr by lia. lia.
Qed.

(** When not all buffers are busy, one can be recycled. *)
Lemma free_buffer : (size (busy H pin) < NBUF)%nat -> exists i b, bufs s !! i = Some b /\ b_refcnt b = 0.
Proof using Hbio.
  intros Hsz. destruct (bo_inv _ _ _ _ Hbio) as [ls Hinv].
  destruct (decide (Exists (fun b => b_refcnt b = 0) (bufs s))) as [Hex|Hno].
  { apply Exists_exists in Hex as (b & Hb & Hz). apply list_elem_of_lookup in Hb as [i Hi]. by exists i, b. }
  exfalso. assert (Hall : forall i b, bufs s !! i = Some b -> b_refcnt b <> 0 /\ b_dev b = ROOTDEV).
  { intros i b Hb. assert (Hz : b_refcnt b <> 0) by (intros Hz; apply Hno, Exists_exists; exists b; split; [by eapply list_elem_of_lookup_2|done]).
    split; [done|]. destruct (ci_dev _ _ Hinv i b Hb) as [E|E]; [|done]. by destruct Hz; eapply bo_none. }
  set (ns := b_blockno <$> bufs s).
  assert (Hnd : NoDup ns).
  { apply NoDup_alt. intros i j n Hi Hj. unfold ns in *. rewrite list_lookup_fmap in Hi, Hj.
    destruct (bufs s !! i) as [b|] eqn:Eb; [|done]. destruct (bufs s !! j) as [c|] eqn:Ec; [|done].
    simpl in *. eapply (ci_uniq _ _ Hinv); [exact Eb|exact Ec|by eapply Hall|by eapply Hall|congruence]. }
  assert (Hsub : list_to_set ns ⊆ busy H pin).
  { intros n Hn. apply elem_of_list_to_set in Hn. unfold ns in Hn. apply list_elem_of_fmap in Hn as (b & -> & Hb).
    apply list_elem_of_lookup in Hb as [i Hi]. destruct (Hall i b Hi) as [Hz Hd].
    destruct (bo_root _ _ _ _ Hbio i b Hi Hd) as (_ & _ & Hr). unfold busy. apply elem_of_union. unfold hc in Hr.
    destruct (decide (i ∈ H.*1)) as [Hin|Hin].
    - right. apply elem_of_list_to_set. apply elem_fst in Hin as [m Hin].
      destruct (bo_held _ _ _ _ Hbio i m Hin) as (c & Hc & _ & Em & _). rewrite Hi in Hc. injection Hc as <-.
      apply elem_snd. exists i. by rewrite Em.
    - left. apply elem_of_dom, pin_range. intros E. rewrite E in Hr. done. }
  apply subseteq_size in Hsub. rewrite size_list_to_set in Hsub by done. unfold ns in Hsub.
  rewrite length_fmap, (ci_len _ _ Hinv) in Hsub. lia.
Qed.

End cache.

(** ** Reading a block *)

Lemma hash_bucket n : exists k, HASH n = Z.of_nat k /\ Z.of_nat k < NBUCKET.
Proof.
  pose proof (Z.mod_pos_bound n NBUCKET ltac:(done)) as Hm. exists (Z.to_nat (HASH n)). unfold HASH in *. lia.
Qed.

Lemma hc_cons H i j n : hc ((i, n) :: H) j = if decide (j = i) then 1 else hc H j.
Proof.
  unfold hc. simpl. destruct (decide (j = i)) as [->|Hne]; [by rewrite decide_True by (by left)|].
  destruct (decide (j ∈ H.*1)); [by rewrite decide_True by (by right)|].
  rewrite decide_False; [done|]. intros [|]%elem_of_cons; done.
Qed.

(** The lookup finds the only buffer of a block, wherever it is. *)
Lemma lookup_run s ls n : cinv s ls ->
  exists r, find_buf ring_fuel (HASH n) ROOTDEV n (nxt s (Bhead (HASH n))) s = Ret r s /\
    match r with
    | Some i => exists b, bufs s !! i = Some b /\ b_dev b = ROOTDEV /\ b_blockno b = n
    | None => forall i b, bufs s !! i = Some b -> b_dev b = ROOTDEV -> b_blockno b <> n
    end.
Proof.
  intros Hinv. destruct (hash_bucket n) as (k & Ek & Hk).
  destruct (bucket_some s ls Hinv (Z.of_nat k)) as [l Hl]; [lia|]. rewrite Nat2Z.id in Hl.
  pose proof (suffix_ptr s ls Hinv k l [] l Hl eq_refl) as Hp. simpl in Hp.
  destruct (find_buf_run s ls Hinv k l ROOTDEV n Hl l [] ring_fuel eq_refl) as (r & Hrun & Hr).
  { unfold ring_fuel. pose proof (bucket_length s ls Hinv _ _ Hl). lia. }
  rewrite Ek, Hp. exists r. split; [done|]. destruct r as [i|]; [by destruct Hr|].
  intros i b Hb Hd En. assert (Hi : (i < NBUF)%nat) by (rewrite <- (ci_len _ _ Hinv); by apply lookup_lt_Some in Hb).
  destruct (listed s ls Hinv i Hi) as (k' & l' & Hk' & Hil). pose proof (ci_hash _ _ Hinv k' l' i b Hk' Hil Hb) as Eh.
  rewrite En, Ek in Eh. assert (k' = k) as -> by lia. rewrite Hl in Hk'. injection Hk' as <-. by apply (Hr i b).
Qed.

(** The buffer was found: one more reference, and its lock. *)
Definition touched (r : Z) (s : bst) (b : buf) : buf :=
  mk_buf (b_valid b) (b_dev b) (b_blockno b) (mk_sl 1 (bpid s)) r (b_data b) (bticks s).

Lemma hit_run s i b : bufs s !! i = Some b -> sl_locked (b_lock b) = 0 ->
  (modb i (fun b => with_refcnt (u32 (b_refcnt b + 1)) b) ;;; stamp i ;;; acquiresleep i ;;; ret i) s =
  Ret i (set_bufs (<[i := touched (u32 (b_refcnt b + 1)) s b]> (bufs s)) s).
Proof.
  intros Hb Hl. assert (Hlt : (i < length (bufs s))%nat) by (by apply lookup_lt_Some in Hb).
  unfold stamp, acquiresleep, modb, getb, bind, gets, ret. rewrite Hb.
  repeat (cbn [bufs set_bufs bticks bpid b_lock sl_locked with_timestamp with_refcnt];
    rewrite ?list_lookup_insert_eq by (by rewrite ?length_insert)).
  rewrite Hl. cbn [Z.eqb]. rewrite !set_bufs_twice, ?list_insert_insert_eq. cbn [bufs set_bufs].
  rewrite list_lookup_insert_eq by done. by rewrite set_bufs_twice, list_insert_insert_eq.
Qed.

Lemma u32_incr a b : u32 (u32 a + b) = u32 (a + b).
Proof. unfold u32. by rewrite Z.add_mod_idemp_l. Qed.

(** A cached block: its buffer joins the ones held. *)
Lemma bio_hit s vw H pin i b n :
  bio s vw H pin -> bufs s !! i = Some b -> b_dev b = ROOTDEV -> b_blockno b = n -> n ∉ H.*2 ->
  bio (set_bufs (<[i := touched (u32 (b_refcnt b + 1)) s b]> (bufs s)) s) vw ((i, n) :: H) pin.
Proof.
  intros Hbio Hb Hd Hn Hnew. pose proof (cached_free s vw H pin Hbio i b n Hb Hn Hnew) as Hfree.
  destruct Hbio as [[ls Hinv] B2 B3 B4 B5 B6 B7 B8].
  assert (Hlt : (i < length (bufs s))%nat) by (by apply lookup_lt_Some in Hb).
  set (b' := touched _ s b). assert (Hi' : <[i := b']> (bufs s) !! i = Some b') by (by apply list_lookup_insert_eq).
  assert (Hj' : forall j, j <> i -> <[i := b']> (bufs s) !! j = bufs s !! j) by (intros; by apply list_lookup_insert_ne).
  split.
  - exists ls. by eapply cinv_buf.
  - intros j c Hc Hdc. cbn [bufs set_bufs] in Hc. rewrite hc_cons. destruct (decide (j = i)) as [->|Hne].
    + rewrite Hi' in Hc. injection Hc as <-. destruct (B2 i b Hb Hd) as (V & D & R). split_and!; [done|done|].
      cbn [b' touched b_refcnt b_blockno]. rewrite R, u32_incr. f_equal. unfold hc. rewrite decide_False by done. lia.
    + rewrite Hj' in Hc by done. by apply B2.
  - intros j c Hc Hdc. cbn [bufs set_bufs] in Hc. destruct (decide (j = i)) as [->|Hne].
    + rewrite Hi' in Hc. injection Hc as <-. cbn in Hdc. rewrite Hd in Hdc. done.
    + rewrite Hj' in Hc by done. by eapply B3.
  - intros m Hm Hp. apply B4; [|done]. intros Hin. apply Hm. by right.
  - intros j m [[= -> ->]|Hin]%elem_of_cons.
    + exists b'. by split_and!.
    + destruct (B5 j m Hin) as (c & Hc & ?). exists c. cbn [bufs set_bufs]. rewrite Hj'; [done|].
      intros ->. apply Hfree, elem_fst. by exists m.
  - intros j c Hc Hni. cbn [bufs set_bufs] in Hc. simpl in Hni. apply not_elem_of_cons in Hni as [Hne Hni].
    rewrite Hj' in Hc by done. by eapply B6.
  - simpl. by apply NoDup_cons.
  - intros m v Hv. destruct (B8 m v Hv) as (V1 & V2 & j & c & Hc & Hdc & Hmc). split_and!; [done|lia|lia|].
    destruct (decide (j = i)) as [->|Hne].
    + exists i, b'. rewrite Hb in Hc. injection Hc as <-. by split_and!.
    + exists j, c. cbn [bufs set_bufs]. by rewrite Hj'.
Qed.

(** The structure after a buffer was recycled for an uncached block. *)
Lemma cinv_moved s ls k bid l v b' n :
  cinv s ls -> ls !! k = Some l -> v ∈ l -> HASH n = Z.of_nat bid -> Z.of_nat bid < NBUCKET ->
  b_dev b' = ROOTDEV -> b_blockno b' = n ->
  (forall i b, bufs s !! i = Some b -> b_dev b = ROOTDEV -> b_blockno b <> n) ->
  exists ls', cinv (set_bufs (<[v := b']> (bufs s)) (moved k bid v s)) ls'.
Proof.
  intros Hinv Hk Hv Hh Hb Hd Hn Hno.
  assert (Hbl : (bid < length ls)%nat) by (pose proof (ci_lists _ _ Hinv); lia).
  destruct (moved_rings s ls v k bid l Hinv Hk Hv Hbl) as (ls' & R & Hlen & Hperm & _ & Hold & Hnew).
  assert (Hlt : (v < length (bufs s))%nat) by (rewrite (ci_len _ _ Hinv); by eapply listed_lt).
  assert (Hcase : forall i b, <[v := b']> (bufs s) !! i = Some b -> i = v /\ b = b' \/ i <> v /\ bufs s !! i = Some b).
  { intros i b Hib. apply list_lookup_insert_Some in Hib as [(-> & -> & _)|[? ?]]; [by left|by right]. }
  exists ls'. destruct Hinv as [C1 C2 C3 C4 C5 C6 C7]. split; cbn [bufs set_bufs].
  - by rewrite length_insert.
  - by rewrite Hlen.
  - exact R.
  - by rewrite Hperm.
  - intros j l' i b Hj Hi Hib. destruct (Hcase i b Hib) as [[-> ->]|[Hne Hib']].
    + by rewrite Hn, Hh, (Hnew j l' Hj Hi).
    + destruct (Hold j l' i Hj Hi Hne) as (l0 & Hl0 & Hi0). by eapply C5.
  - intros i b Hib. destruct (Hcase i b Hib) as [[-> ->]|[Hne Hib']]; [by right|by eapply C6].
  - intros i j b c Hi Hj Hdb Hdc E. destruct (Hcase i b Hi) as [[-> ->]|[Hne Hib]], (Hcase j c Hj) as [[-> ->]|[Hne' Hjc]].
    + done.
    + exfalso. apply (Hno j c Hjc Hdc). by rewrite <- E.
    + exfalso. apply (Hno i b Hib Hdb). by rewrite E.
    + by eapply C7.
Qed.

(** An uncached block: an unreferenced buffer is filled from the disk. *)
Lemma bio_miss s ls vw H pin k bid l v bv n :
  bio s vw H pin -> cinv s ls -> ls !! k = Some l -> v ∈ l -> HASH n = Z.of_nat bid -> Z.of_nat bid < NBUCKET ->
  bufs s !! v = Some bv -> b_refcnt bv = 0 -> (forall j m, (j, m) ∈ H -> pinv pin m <> -1) -> n ∉ H.*2 ->
  (forall i b, bufs s !! i = Some b -> b_dev b = ROOTDEV -> b_blockno b <> n) ->
  bio (set_bufs (<[v := mk_buf 1 ROOTDEV n (mk_sl 1 (bpid s)) 1 (disk s n) (bticks s)]> (bufs s)) (moved k bid v s))
    vw ((v, n) :: H) pin.
Proof.
  intros Hbio Hinv Hk Hv Hh Hb Hbv Hz Hok Hnew Hno. set (b' := mk_buf _ _ _ _ _ _ _).
  destruct (moved_fields k bid v s) as (_ & E2 & _ & _ & E5).
  assert (Hlt : (v < length (bufs s))%nat) by (by apply lookup_lt_Some in Hbv).
  assert (Hvi : <[v := b']> (bufs s) !! v = Some b') by (by apply list_lookup_insert_eq).
  assert (Hj' : forall j, j <> v -> <[v := b']> (bufs s) !! j = bufs s !! j) by (intros; by apply list_lookup_insert_ne).
  assert (Hvh : v ∉ H.*1).
  { intros [m Hin]%elem_fst. destruct (bo_held _ _ _ _ Hbio v m Hin) as (c & Hc & Hdc & _). rewrite Hbv in Hc. injection Hc as <-.
    destruct (refcnt_zero s vw H pin Hbio v bv Hbv Hdc Hz Hok) as [Hx _]. apply Hx, elem_fst. by exists m. }
  assert (Hpn : pinv pin n = 0).
  { destruct (decide (pinv pin n = 0)) as [|Hne]; [done|]. destruct (pin_range pin n Hne) as [x Hx].
    destruct (bo_pin _ _ _ _ Hbio n x Hx) as (_ & _ & i & b & Hib & Hd & En). by destruct (Hno i b Hib Hd). }
  pose proof Hbio as [_ B2 B3 B4 B5 B6 B7 B8]. split; cbn [bufs set_bufs disk bpid]; rewrite ?E2, ?E5.
  - by eapply cinv_moved.
  - intros j c Hc Hdc. rewrite hc_cons. destruct (decide (j = v)) as [->|Hne].
    + rewrite Hvi in Hc. injection Hc as <-. cbn. rewrite Hpn. split_and!; [done|symmetry; by apply B4|done].
    + rewrite Hj' in Hc by done. by apply B2.
  - intros j c Hc Hdc. destruct (decide (j = v)) as [->|Hne].
    + rewrite Hvi in Hc. by injection Hc as <-.
    + rewrite Hj' in Hc by done. by eapply B3.
  - intros m Hm Hp. apply B4; [|done]. intros Hin. apply Hm. by right.
  - intros j m [[= -> ->]|Hin]%elem_of_cons; [by exists b'|].
    destruct (B5 j m Hin) as (c & Hc & Hx). exists c. rewrite Hj'; [done|]. intros ->. apply Hvh, elem_fst. by exists m.
  - intros j c Hc Hni. simpl in Hni. apply not_elem_of_cons in Hni as [Hne Hni]. rewrite Hj' in Hc by done. by eapply B6.
  - simpl. by apply NoDup_cons.
  - intros m x Hx. destruct (B8 m x Hx) as (V1 & V2 & j & c & Hc & Hdc & Hmc). split_and!; [done|lia|lia|].
    exists j, c. rewrite Hj'; [done|]. intros ->. rewrite Hbv in Hc. injection Hc as <-.
    destruct (refcnt_zero s vw H pin Hbio v bv Hbv Hdc Hz Hok) as [_ Hx']. rewrite Hmc in Hx'. unfold pinv in Hx'.
    rewrite Hx in Hx'. done.
Qed.

Lemma fill_run s v b : bufs s !! v = Some b ->
  (disk_read v ;;; modb v (with_valid 1)) s =
  Ret tt (set_bufs (<[v := with_valid 1 (with_data (disk s (b_blockno b)) b)]> (bufs s)) s).
Proof.
  intros Hb. assert (Hlt : (v < length (bufs s))%nat) by (by apply lookup_lt_Some in Hb).
  unfold disk_read, modb, getb, bind, gets, ret. rewrite Hb. cbn [bufs set_bufs].
  rewrite Hb. cbn [bufs set_bufs]. rewrite list_lookup_insert_eq by done. by rewrite set_bufs_twice, list_insert_insert_eq.
Qed.

(** [bread] returns a locked buffer with the block's contents. *)
Lemma bread_spec s vw H pin n :
  bio s vw H pin -> n ∉ H.*2 -> (forall j m, (j, m) ∈ H -> pinv pin m <> -1) ->
  n ∈ dom pin \/ (size (busy H pin) < NBUF)%nat ->
  exists i s', bread ROOTDEV n s = Ret i s' /\ bio s' vw ((i, n) :: H) pin /\
    disk s' = disk s /\ wlog s' = wlog s /\ bpid s' = bpid s.
Proof.
  intros Hbio Hnew Hok Hroom. pose proof (bo_inv _ _ _ _ Hbio) as [ls Hinv]. unfold bread, bget.
  destruct (lookup_run s ls n Hinv) as (r & Hrun & Hr).
  unfold bind at 1. unfold bind at 1, gets at 1. unfold bind at 1. rewrite Hrun. destruct r as [i|].
  - destruct Hr as (b & Hb & Hd & Hn). pose proof (cached_free s vw H pin Hbio i b n Hb Hn Hnew) as Hfree.
    rewrite (hit_run s i b Hb (bo_free _ _ _ _ Hbio i b Hb Hfree)).
    pose proof (bio_hit s vw H pin i b n Hbio Hb Hd Hn Hnew) as Hbio'. set (s' := set_bufs _ s) in *.
    assert (Hi' : bufs s' !! i = Some (touched (u32 (b_refcnt b + 1)) s b)).
    { apply list_lookup_insert_eq. by apply lookup_lt_Some in Hb. }
    rewrite (bind_Ret _ _ _ _ _ (getb_run _ _ _ Hi')). cbn [touched b_valid].
    rewrite (proj1 (bo_root _ _ _ _ Hbio i b Hb Hd)). cbn [Z.eqb when]. exists i, s'. by split_and!.
  - destruct (free_buffer s vw H pin Hbio) as (j & c & Hj & Hz).
    { destruct Hroom as [Hin|]; [|done]. apply elem_of_dom in Hin as [x Hx].
      destruct (bo_pin _ _ _ _ Hbio n x Hx) as (_ & _ & i & b & Hib & Hd & En). by destruct (Hr i b Hib Hd). }
    destruct (hash_bucket n) as (bid & Ebid & Hbid).
    assert (Hjl : (j < NBUF)%nat) by (rewrite <- (ci_len _ _ Hinv); by apply lookup_lt_Some in Hj).
    destruct (listed s ls Hinv j Hjl) as (kj & lj & Hkj & Hjin).
    assert (Hkl : Z.of_nat kj < NBUCKET) by (rewrite <- (ci_lists _ _ Hinv); apply lookup_lt_Some in Hkj; lia).
    destruct (recycle_run ROOTDEV n bid ls s Hinv) with (n := Z.to_nat NBUCKET) (i := HASH n)
      as (k & l & v & bv & Hk & Hlru & Hbv & Hrec).
    + intros i b Hb Hzb. apply (bo_free _ _ _ _ Hbio i b Hb). intros Hin.
      destruct (ci_dev _ _ Hinv i b Hb) as [E|E].
      * apply elem_fst in Hin as [m Hin]. destruct (bo_held _ _ _ _ Hbio i m Hin) as (b0 & Hb0 & Hd0 & _).
        rewrite Hb in Hb0. injection Hb0 as <-. by rewrite E in Hd0.
      * by destruct (refcnt_zero s vw H pin Hbio i b Hb E Hzb Hok).
    + rewrite Ebid. lia.
    + exists ((Z.of_nat kj - HASH n) mod NBUCKET), lj, j, c. split; [apply Z.mod_pos_bound; done|].
      rewrite Zplus_mod_idemp_r. replace (HASH n + (Z.of_nat kj - HASH n)) with (Z.of_nat kj) by lia.
      rewrite Z.mod_small by lia. by rewrite Nat2Z.id.
    + rewrite <- Ebid in Hrec. rewrite Hrec. destruct Hlru as (bv' & Hbv' & Hzv & Hvl & _).
      rewrite Hbv in Hbv'. injection Hbv' as <-.
      pose proof (bio_miss s ls vw H pin k bid l v bv n Hbio Hinv Hk Hvl Ebid Hbid Hbv Hzv Hok Hnew Hr) as Hbio'.
      destruct (moved_fields k bid v s) as (F1 & F2 & F3 & F4 & F5).
      assert (Hlt : (v < length (bufs s))%nat) by (by apply lookup_lt_Some in Hbv).
      exists v. eexists. split; [|split; [exact Hbio'|]].
      * set (s1 := recycled _ _ _ _ _ _ _).
        assert (Hv1 : bufs s1 !! v = Some (mk_buf 0 ROOTDEV n (mk_sl 1 (bpid s)) 1 (b_data bv) (bticks s)))
          by (by apply list_lookup_insert_eq).
        rewrite (bind_Ret _ _ _ _ _ (getb_run _ _ _ Hv1)). cbn [b_valid Z.eqb when].
        rewrite (bind_Ret _ _ _ _ _ (fill_run _ _ _ Hv1)). unfold s1, recycled, with_valid, with_data. cbn.
        by rewrite list_insert_insert_eq, F2.
      * by split_and!.
Qed.

(** ** Working on a held buffer *)

Lemma held_buf s vw H pin i n : bio s vw H pin -> (i, n) ∈ H ->
  exists b, bufs s !! i = Some b /\ b_dev b = ROOTDEV /\ b_blockno b = n /\ b_lock b = mk_sl 1 (bpid s) /\
    b_valid b = 1 /\ b_data b = vw n /\ b_refcnt b = u32 (1 + pinv pin n).
Proof.
  intros Hbio Hin. destruct (bo_held _ _ _ _ Hbio i n Hin) as (b & Hb & Hd & Hn & Hl).
  destruct (bo_root _ _ _ _ Hbio i b Hb Hd) as (V & D & R). exists b. rewrite Hn in *. split_and!; try done.
  rewrite R. unfold hc. rewrite decide_True; [done|]. apply elem_fst. by exists n.
Qed.

(** Two held buffers are for different blocks. *)
Lemma held_inj s vw H pin i j n : bio s vw H pin -> (i, n) ∈ H -> (j, n) ∈ H -> i = j.
Proof.
  intros Hbio Hi Hj. destruct (bo_inv _ _ _ _ Hbio) as [ls Hinv].
  destruct (held_buf s vw H pin i n Hbio Hi) as (b & Hb & Hd & Hn & _).
  destruct (held_buf s vw H pin j n Hbio Hj) as (c & Hc & Hd' & Hn' & _).
  eapply (ci_uniq _ _ Hinv); [exact Hb|exact Hc|done|done|congruence].
Qed.

(** Changing fields of a held buffer other than its block and lock. *)
Lemma bio_modify s vw vw' H pin pin' i n b b' :
  bio s vw H pin -> (i, n) ∈ H -> bufs s !! i = Some b ->
  b_dev b' = ROOTDEV -> b_blockno b' = n -> b_lock b' = b_lock b -> b_valid b' = 1 -> b_data b' = vw' n ->
  b_refcnt b' = u32 (1 + pinv pin' n) ->
  (forall m, m <> n -> vw' m = vw m) -> (forall m, m <> n -> pin' !! m = pin !! m) ->
  (forall v, pin' !! n = Some v -> v <> 0 /\ -1 <= v < 2 ^ 31) ->
  bio (set_bufs (<[i := b']> (bufs s)) s) vw' H pin'.
Proof.
  intros Hbio Hin Hb Hd' Hn' Hl' Hv' Hdat Href Hvw Hpin Hpn.
  destruct (held_buf s vw H pin i n Hbio Hin) as (b0 & Hb0 & Hd & Hn & Hl & _). rewrite Hb in Hb0. injection Hb0 as <-.
  assert (Hlt : (i < length (bufs s))%nat) by (by apply lookup_lt_Some in Hb).
  assert (Hi' : <[i := b']> (bufs s) !! i = Some b') by (by apply list_lookup_insert_eq).
  assert (Hj' : forall j, j <> i -> <[i := b']> (bufs s) !! j = bufs s !! j) by (intros; by apply list_lookup_insert_ne).
  pose proof Hbio as [[ls Hinv] B2 B3 B4 B5 B6 B7 B8].
  assert (Hno : forall j c, bufs s !! j = Some c -> b_dev c = ROOTDEV -> j <> i -> b_blockno c <> n).
  { intros j c Hc Hdc Hne E. apply Hne. eapply (ci_uniq _ _ Hinv); [exact Hc|exact Hb|done|done|congruence]. }
  split; cbn [bufs set_bufs disk bpid].
  - exists ls. eapply cinv_buf; [done|done|congruence|congruence].
  - intros j c Hc Hdc. destruct (decide (j = i)) as [->|Hne].
    + rewrite Hi' in Hc. injection Hc as <-. rewrite Hn'. split_and!; [done|done|].
      rewrite Href. unfold hc. rewrite decide_True; [done|]. apply elem_fst. by exists n.
    + rewrite Hj' in Hc by done. pose proof (Hno j c Hc Hdc Hne) as Hm. destruct (B2 j c Hc Hdc) as (V & D & R).
      rewrite Hvw by done. split_and!; [done|done|]. unfold pinv. by rewrite Hpin.
  - intros j c Hc Hdc. destruct (decide (j = i)) as [->|Hne].
    + rewrite Hi' in Hc. injection Hc as <-. by rewrite Hd' in Hdc.
    + rewrite Hj' in Hc by done. by eapply B3.
  - intros m Hm Hp. assert (m <> n) by (intros ->; apply Hm, elem_snd; by exists i).
    rewrite Hvw by done. apply B4; [done|]. unfold pinv in *. by rewrite <- Hpin.
  - intros j m Hjm. destruct (decide (j = i)) as [->|Hne].
    + destruct (B5 i m Hjm) as (c & Hc & _ & Hmc & Hlc). rewrite Hb in Hc. injection Hc as <-.
      exists b'. split_and!; [done|done|congruence|congruence].
    + destruct (B5 j m Hjm) as (c & Hc & ?). exists c. by rewrite Hj'.
  - intros j c Hc Hni. destruct (decide (j = i)) as [->|Hne].
    + destruct Hni. apply elem_fst. by exists n.
    + rewrite Hj' in Hc by done. by eapply B6.
  - done.
  - intros m v Hv. destruct (decide (m = n)) as [->|Hne].
    + destruct (Hpn v Hv). split_and!; [done|lia|lia|]. by exists i, b'.
    + rewrite Hpin in Hv by done. destruct (B8 m v Hv) as (V1 & V2 & j & c & Hc & Hdc & Hmc).
      split_and!; [done|lia|lia|]. exists j, c. rewrite Hj'; [done|]. intros ->.
      rewrite Hb in Hc. injection Hc as <-. congruence.
Qed.

Lemma set_bdata_spec s vw H pin i n d :
  bio s vw H pin -> (i, n) ∈ H ->
  exists s', set_bdata i d s = Ret tt s' /\ bio s' (<[n := d]> vw) H pin /\ disk s' = disk s /\ wlog s' = wlog s.
Proof.
  intros Hbio Hin. destruct (held_buf s vw H pin i n Hbio Hin) as (b & Hb & Hd & Hn & Hl & Hv & Hdt & Hr).
  unfold set_bdata. rewrite (modb_run _ _ _ _ Hb). eexists. split; [reflexivity|]. split; [|done].
  eapply bio_modify; try done.
  - cbn. by rewrite fn_lookup_insert.
  - intros m Hm. by rewrite fn_lookup_insert_ne.
  - intros v Hvv. destruct (bo_pin _ _ _ _ Hbio n v Hvv) as (? & ? & _). done.
Qed.

Lemma pin_spec s vw H pin i n d r :
  bio s vw H pin -> (i, n) ∈ H -> -1 <= pinv pin n + d < 2 ^ 31 ->
  (forall b, bufs s !! i = Some b -> r b = u32 (b_refcnt b + d)) ->
  exists s', modb i (fun b => with_refcnt (r b) b) s = Ret tt s' /\ bio s' vw H (pin_add n d pin) /\
    disk s' = disk s /\ wlog s' = wlog s.
Proof.
  intros Hbio Hin Hrange Hr. destruct (held_buf s vw H pin i n Hbio Hin) as (b & Hb & Hd & Hn & Hl & Hv & Hdt & Hrc).
  rewrite (modb_run _ _ _ _ Hb). eexists. split; [reflexivity|]. split; [|done].
  eapply bio_modify; try done.
  - cbn. rewrite (Hr b Hb), Hrc, u32_incr, pinv_add_eq. f_equal. lia.
  - intros m Hm. unfold pin_add. destruct (_ =? 0); [by apply lookup_delete_ne|by apply lookup_insert_ne].
  - intros v Hvv. pose proof (pinv_add_eq n d pin) as E. unfold pinv at 1 in E. rewrite Hvv in E. simpl in E.
    unfold id in E. split; [|lia]. intros ->. unfold pin_add in Hvv.
    destruct (Z.eqb_spec (pinv pin n + d) 0); [by rewrite lookup_delete_eq in Hvv|].
    rewrite lookup_insert_eq in Hvv. congruence.
Qed.

Lemma holding_run s vw H pin i n : bio s vw H pin -> (i, n) ∈ H -> holdingsleep i s = Ret true s.
Proof.
  intros Hbio Hin. destruct (held_buf s vw H pin i n Hbio Hin) as (b & Hb & _ & _ & Hl & _).
  unfold holdingsleep. rewrite (bind_Ret _ _ _ _ _ (getb_run _ _ _ Hb)). unfold bind, gets, ret. rewrite Hl. cbn.
  by rewrite Z.eqb_refl.
Qed.

Lemma bwrite_spec s vw H pin i n :
  bio s vw H pin -> (i, n) ∈ H ->
  exists s', bwrite i s = Ret tt s' /\ bio s' vw H pin /\ disk s' = <[n := vw n]> (disk s) /\
    wlog s' = wlog s ++ [(n, vw n)].
Proof.
  intros Hbio Hin. destruct (held_buf s vw H pin i n Hbio Hin) as (b & Hb & Hd & Hn & Hl & Hv & Hdt & Hrc).
  unfold bwrite. rewrite (bind_Ret _ _ _ _ _ (holding_run s vw H pin i n Hbio Hin)). cbn [negb].
  unfold disk_write. rewrite (bind_Ret _ _ _ _ _ (getb_run _ _ _ Hb)). rewrite Hn, Hdt.
  eexists. split; [reflexivity|]. split; [|done].
  destruct Hbio as [[ls [C1 C2 C3 C4 C5 C6 C7]] B2 B3 B4 B5 B6 B7 B8].
  split; cbn [bufs disk bpid]; try done; [exists ls; by split|].
  intros m Hm Hp. rewrite fn_lookup_insert_ne; [by apply B4|]. intros <-. apply Hm, elem_snd. by exists i.
Qed.

Lemma brelse_spec s vw H pin i n :
  bio s vw ((i, n) :: H) pin -> (pinv pin n = 0 -> vw n = disk s n) ->
  exists s', brelse i s = Ret tt s' /\ bio s' vw H pin /\ disk s' = disk s /\ wlog s' = wlog s.
Proof.
  intros Hbio Hcl. assert (Hin : (i, n) ∈ (i, n) :: H) by (by left).
  destruct (held_buf _ _ _ _ i n Hbio Hin) as (b & Hb & Hd & Hn & Hl & Hv & Hdt & Hrc).
  assert (Hlt : (i < length (bufs s))%nat) by (by apply lookup_lt_Some in Hb).
  set (b' := mk_buf 1 ROOTDEV n (mk_sl 0 0) (u32 (b_refcnt b - 1)) (vw n) (bticks s)).
  set (s' := set_bufs (<[i := b']> (bufs s)) s). exists s'. split.
  { unfold brelse. rewrite (bind_Ret _ _ _ _ _ (holding_run _ _ _ _ _ _ Hbio Hin)). cbn [negb].
    unfold releasesleep, stamp, modb, bind, gets. rewrite Hb. cbn [bufs set_bufs].
    rewrite list_lookup_insert_eq by done. cbn [bufs set_bufs bticks].
    rewrite list_lookup_insert_eq by (by rewrite length_insert).
    rewrite !set_bufs_twice, !list_insert_insert_eq. unfold s', b'.
    unfold with_timestamp, with_refcnt, with_lock. cbn. by rewrite Hv, Hd, Hn, Hdt. }
  split; [|done]. pose proof (bo_nodup _ _ _ _ Hbio) as Hnd. simpl in Hnd. apply NoDup_cons in Hnd as [Hih Hnd].
  assert (Hi' : <[i := b']> (bufs s) !! i = Some b') by (by apply list_lookup_insert_eq).
  assert (Hj' : forall j, j <> i -> <[i := b']> (bufs s) !! j = bufs s !! j) by (intros; by apply list_lookup_insert_ne).
  destruct Hbio as [[ls Hinv] B2 B3 B4 B5 B6 B7 B8]. unfold s'. split; cbn [bufs set_bufs disk bpid].
  - exists ls. eapply cinv_buf; [done|done|by rewrite Hd|by rewrite Hn].
  - intros j c Hc Hdc. destruct (decide (j = i)) as [->|Hne].
    + rewrite Hi' in Hc. injection Hc as <-. cbn [b' b_valid b_data b_refcnt b_blockno]. split_and!; [done|done|].
      rewrite Hrc. replace (u32 (1 + pinv pin n) - 1) with (u32 (1 + pinv pin n) + -1) by lia.
      rewrite u32_incr. f_equal. unfold hc. rewrite decide_False by done. lia.
    + rewrite Hj' in Hc by done. destruct (B2 j c Hc Hdc) as (V & D & R). split_and!; [done|done|].
      rewrite hc_cons, decide_False in R by done. done.
  - intros j c Hc Hdc. destruct (decide (j = i)) as [->|Hne].
    + rewrite Hi' in Hc. by injection Hc as <-.
    + rewrite Hj' in Hc by done. by eapply B3.
  - intros m Hm Hp. destruct (decide (m = n)) as [->|Hne]; [by apply Hcl|]. apply B4; [|done].
    simpl. rewrite elem_of_cons. tauto.
  - intros j m Hjm. destruct (B5 j m) as (c & Hc & ?); [by right|]. exists c. rewrite Hj'; [done|].
    intros ->. apply Hih, elem_fst. by exists m.
  - intros j c Hc Hni. destruct (decide (j = i)) as [->|Hne].
    + rewrite Hi' in Hc. by injection Hc as <-.
    + rewrite Hj' in Hc by done. eapply B6; [done|]. simpl. rewrite elem_of_cons. tauto.
  - done.
  - intros m v Hvv. destruct (B8 m v Hvv) as (V1 & V2 & j & c & Hc & Hdc & Hmc). split_and!; [done|lia|lia|].
    destruct (decide (j = i)) as [->|Hne].
    + rewrite Hb in Hc. injection Hc as <-. exists i, b'. split_and!; [done|done|]. cbn. congruence.
    + exists j, c. by rewrite Hj'.
Qed.

Definition bblockno (i : nat) : M bst Z := let* b := getb i in ret (b_blockno b).

#[export, refine] Instance bio_cache : Blk.BlockCache bst := {|
  Blk.bread := bread;
  Blk.bwrite := bwrite;
  Blk.brelse := brelse;
  Blk.bpin := bpin;
  Blk.bunpin := bunpin;
  Blk.bblockno := bblockno;
  Blk.bdata := bdata;
  Blk.set_bdata := set_bdata;
  Blk.rep := fun s vw dk H pin w => bio s vw H pin /\ (forall n, disk s n = dk n) /\ wlog s = w |}.
Proof.
  - intros s vw dk H H' pin w [Hb ?] Hp. split; [|done].
    destruct Hb as [B1 B2 B3 B4 B5 B6 B7 B8].
    assert (E1 : forall i, i ∈ H.*1 <-> i ∈ H'.*1) by (intros; by rewrite Hp).
    assert (E2 : forall n, n ∈ H.*2 <-> n ∈ H'.*2) by (intros; by rewrite Hp).
    split; try done.
    + intros i b Hb Hd. destruct (B2 i b Hb Hd) as (? & ? & ->). split_and!; try done. f_equal. f_equal.
      unfold hc. destruct (decide (i ∈ H.*1)) as [Hi|Hi].
      * by rewrite decide_True by (by apply E1).
      * by rewrite decide_False by (by rewrite <- E1).
    + intros n Hn. apply B4. by rewrite E2.
    + intros i n Hin. apply B5. by rewrite Hp.
    + intros i b Hb Hn. eapply B6; [done|]. by rewrite E1.
    + by rewrite <- Hp.
  - intros s vw vw' dk dk' H pin w (Hb & Hd & Hw) Ev Ed. split; [|split; [|done]].
    + destruct Hb as [B1 B2 B3 B4 B5 B6 B7 B8]. split; try done.
      * intros i b Hb Hdv. destruct (B2 i b Hb Hdv) as (? & ? & ?). by rewrite Ev.
      * intros n Hn Hp. rewrite Ev. by apply B4.
    + intros n. by rewrite Ed.
  - intros s vw dk H pin w n (Hb & Hd & _) Hn Hp. rewrite <- Hd. by apply Hb.
  - intros s vw dk H pin w n (Hb & Hd & Hw) Hn Hok Hroom.
    destruct (bread_spec s vw H pin n Hb Hn Hok Hroom) as (i & s' & Hr & Hb' & Hd' & Hw' & _).
    exists i, s'. split; [done|]. rewrite Hd', Hw'. done.
  - intros s vw dk H pin w i n (Hb & _) Hin. destruct (held_buf _ _ _ _ i n Hb Hin) as (b & Hbi & _ & Hn & _).
    unfold bblockno. rewrite (bind_Ret _ _ _ _ _ (getb_run _ _ _ Hbi)). by rewrite Hn.
  - intros s vw dk H pin w i n (Hb & _) Hin. destruct (held_buf _ _ _ _ i n Hb Hin) as (b & Hbi & _ & _ & _ & _ & Hd & _).
    unfold bdata. rewrite (bind_Ret _ _ _ _ _ (getb_run _ _ _ Hbi)). by rewrite Hd.
  - intros s vw dk H pin w i n d (Hb & Hd & Hw) Hin.
    destruct (set_bdata_spec s vw H pin i n d Hb Hin) as (s' & Hr & Hb' & Hd' & Hw'). exists s'. by rewrite Hd', Hw'.
  - intros s vw dk H pin w i n (Hb & Hd & Hw) Hin.
    destruct (bwrite_spec s vw H pin i n Hb Hin) as (s' & Hr & Hb' & Hd' & Hw'). exists s'. rewrite Hd', Hw', Hw.
    split_and!; try done. intros m. destruct (decide (m = n)) as [->|Hne]; [by rewrite !fn_lookup_insert|].
    by rewrite !fn_lookup_insert_ne.
  - intros s vw dk H pin w i n (Hb & Hd & Hw) Hc. rewrite <- Hd in Hc.
    destruct (brelse_spec s vw H pin i n Hb Hc) as (s' & Hr & Hb' & Hd' & Hw'). exists s'. by rewrite Hd', Hw'.
  - intros s vw dk H pin w i n (Hb & Hd & Hw) Hin Hp. pose proof (pinv_bound s vw H pin Hb n).
    destruct (pin_spec s vw H pin i n 1 (fun b => u32 (b_refcnt b + 1)) Hb Hin) as (s' & Hr & Hb' & Hd' & Hw'); [lia|done|].
    exists s'. by rewrite Hd', Hw'.
  - intros s vw dk H pin w i n (Hb & Hd & Hw) Hin Hp. pose proof (pinv_bound s vw H pin Hb n).
    destruct (pin_spec s vw H pin i n (-1) (fun b => u32 (b_refcnt b - 1)) Hb Hin) as (s' & Hr & Hb' & Hd' & Hw'); [lia|done|].
    exists s'. by rewrite Hd', Hw'.
  - intros s vw dk H pin w vw' dk' H' pin' w' (_ & _ & <-) (_ & _ & <-). done.
Defined.

(** ** Initialisation *)

Definition head_rings (s : bst) (i : Z) : Prop :=
  forall k, 0 <= k < i -> nxt s (Bhead k) = Bhead k /\ prv s (Bhead k) = Bhead k.

(** The heads are set up one after the other. *)
Lemma binit_heads s : exists s1,
  for_loop (Z.to_nat NBUCKET) 0 (fun i =>
    modify (set_prv (Bhead i) (Bhead i)) ;;; modify (set_nxt (Bhead i) (Bhead i))) s = Ret tt s1 /\
  head_rings s1 NBUCKET /\ bufs s1 = bufs s /\ disk s1 = disk s /\ wlog s1 = wlog s.
Proof.
  destruct (for_loop_inv (fun i s1 => head_rings s1 i /\ bufs s1 = bufs s /\ disk s1 = disk s /\ wlog s1 = wlog s)
    (fun i => modify (set_prv (Bhead i) (Bhead i)) ;;; modify (set_nxt (Bhead i) (Bhead i))) (Z.to_nat NBUCKET) 0 s)
    as (s1 & Hrun & Hh & Hx).
  - split; [|done]. intros k Hk. lia.
  - intros i s1 Hi (Hh & E). eexists. split; [reflexivity|]. split; [|done].
    intros k Hk. cbn [nxt prv set_nxt set_prv]. destruct (decide (k = i)) as [->|Hne].
    + by rewrite !fn_lookup_insert.
    + rewrite !fn_lookup_insert_ne by congruence. apply Hh. lia.
  - exists s1. by split.
Qed.

(** Buffers [0] to [b - 1] are on bucket 0. *)
Record filled (s : bst) (b : nat) : Prop := {
  fi_rings : rings (nxt s) (prv s) (reverse (seq 0 b) :: replicate 12 []);
  fi_bufs : bufs s = replicate NBUF bss_buf }.

Lemma binit_fill s b : filled s b -> (b < NBUF)%nat ->
  exists s', (modify (push_head 0 b) ;;; modb b (with_lock initsleeplock)) s = Ret tt s' /\ filled s' (S b) /\
    disk s' = disk s /\ wlog s' = wlog s.
Proof.
  intros [Hr Hb] Hlt. set (s1 := push_head 0 b s).
  assert (Hb1 : bufs s1 !! b = Some bss_buf) by (change (bufs s1) with (bufs s); rewrite Hb; by apply lookup_replicate).
  unfold bind, modify. rewrite (modb_run _ _ _ _ Hb1). eexists. split; [reflexivity|]. split; [|done]. split.
  - assert (Hnd : NoDup (concat (reverse (seq 0 b) :: replicate 12 []))).
    { simpl. rewrite app_nil_r, reverse_Permutation. apply NoDup_seq. }
    pose proof (rings_push _ _ _ 0 (reverse (seq 0 b)) b Hnd Hr eq_refl) as Hp.
    destruct (push_head_links 0 b s) as [E1 E2]. change (Z.of_nat 0) with 0 in Hp. rewrite <- E1, <- E2 in Hp.
    rewrite seq_S, reverse_snoc. apply Hp. simpl. rewrite app_nil_r, elem_of_reverse, elem_of_seq. lia.
  - cbn [bufs set_bufs]. change (bufs s1) with (bufs s). rewrite Hb. apply list_insert_id. by apply lookup_replicate.
Qed.

Lemma binit_spec s : bufs s = replicate NBUF bss_buf ->
  exists s', binit s = Ret tt s' /\ bio s' (disk s) [] ∅ /\ disk s' = disk s /\ wlog s' = wlog s.
Proof.
  intros Hb. unfold binit. destruct (binit_heads s) as (s1 & Hrun1 & Hh & E1 & E2 & E3).
  rewrite (bind_Ret _ _ _ _ _ Hrun1).
  destruct (for_loop_inv (fun b s' => filled s' (Z.to_nat b) /\ disk s' = disk s /\ wlog s' = wlog s)
    (fun b => modify (push_head 0 (Z.to_nat b)) ;;; modb (Z.to_nat b) (with_lock initsleeplock)) NBUF 0 s1)
    as (s' & Hrun & [Hr Hb'] & E4 & E5).
  - split; [|done]. split; [|congruence]. intros k l Hk.
    assert (l = [] /\ (k < 13)%nat) as [-> Hk13].
    { destruct k as [|k]; [injection Hk as <-; split; [done|lia]|]. apply lookup_replicate in Hk as [-> ?]. split; [done|lia]. }
    split; [apply NoDup_singleton|]. simpl. destruct (Hh (Z.of_nat k)) as [H1 H2]; [unfold NBUCKET; lia|]. by rewrite H1, H2.
  - intros b s2 Hlt (Hf & F4 & F5). destruct (binit_fill s2 (Z.to_nat b) Hf) as (s3 & Hrun3 & Hf3 & G4 & G5); [lia|].
    exists s3. split; [done|]. split_and!; [|congruence|congruence]. by replace (Z.to_nat (b + 1)) with (S (Z.to_nat b)) by lia.
  - exists s'. split; [done|]. split; [|done].
    assert (Hz : forall i b, bufs s' !! i = Some b -> b = bss_buf) by (intros i b; rewrite Hb'; intros [-> _]%lookup_replicate; done).
    split; try (by intros i b ->%Hz); try done.
    + exists (reverse (seq 0 NBUF) :: replicate 12 []). split; try done.
      * by rewrite Hb', length_replicate.
      * change (reverse (seq 0 NBUF) ++ [] ≡ₚ seq 0 NBUF). by rewrite app_nil_r, reverse_Permutation.
      * intros k l i b Hk Hi ->%Hz. destruct k as [|k]; [done|].
        apply lookup_replicate in Hk as [-> _]. by apply not_elem_of_nil in Hi.
      * intros i b ->%Hz. by left.
      * intros i j b c ->%Hz ->%Hz. done.
    + intros n _ _. by rewrite E4.
    + intros i n Hin. by apply not_elem_of_nil in Hin.
    + apply NoDup_nil_2.
Qed.

(** ** What the cache promises *)

(** C27: reading a block that the caller does not hold yet, while some buffer is
    not busy, returns the one buffer of the cache with that block, locked by the
    caller and holding the block's latest contents, whether it was cached or a
    buffer had to be recycled for it; all other blocks keep their contents. *)
Theorem bread_latest s vw H pin n :
  bio s vw H pin -> n ∉ H.*2 -> (forall j m, (j, m) ∈ H -> pinv pin m <> -1) ->
  n ∈ dom pin \/ (size (busy H pin) < NBUF)%nat ->
  exists i s' b, bread ROOTDEV n s = Ret i s' /\ bio s' vw ((i, n) :: H) pin /\
    disk s' = disk s /\ wlog s' = wlog s /\
    bufs s' !! i = Some b /\ b_blockno b = n /\ b_valid b = 1 /\ b_data b = vw n /\
    b_lock b = mk_sl 1 (bpid s) /\ b_refcnt b = u32 (1 + pinv pin n) /\
    forall j c, bufs s' !! j = Some c -> b_dev c = ROOTDEV -> b_blockno c = n -> j = i.
Proof.
  intros Hbio Hn Hok Hroom. destruct (bread_spec s vw H pin n Hbio Hn Hok Hroom) as (i & s' & Hrun & Hbio' & Hd & Hw & Hp).
  destruct (held_buf s' vw _ pin i n Hbio') as (b & Hb & Hdev & Hno & Hl & Hv & Hdat & Hr); [by left|].
  exists i, s', b. rewrite <- Hp. split_and!; try done. intros j c Hc Hcd Hcn.
  destruct (bo_inv _ _ _ _ Hbio') as [ls Hinv]. apply (ci_uniq _ _ Hinv j i c b); congruence.
Qed.

(** The zeroed cache over a disk whose block [n] is filled with [n]. *)
Definition demo_disk : Z -> block := fun n _ => n mod 256.
Definition demo_bst : bst := mk_bst (replicate NBUF bss_buf) (fun p => p) (fun p => p) demo_disk [] 7 1.

Lemma bread_latest_witness :
  exists s vw, bio s vw [] ∅ /\ exists i s' b, bread ROOTDEV 5 s = Ret i s' /\ bufs s' !! i = Some b /\ b_data b 0 = 5.
Proof.
  destruct (binit_spec demo_bst eq_refl) as (s & _ & Hbio & _). exists s, demo_disk. split; [exact Hbio|].
  destruct (bread_latest s demo_disk [] ∅ 5 Hbio) as (i & s' & b & Hrun & _ & _ & _ & Hb & _ & _ & Hd & _).
  - by apply not_elem_of_nil.
  - by intros j m ?%not_elem_of_nil.
  - right. rewrite busy_nil, dom_empty_L, size_empty. apply Nat.ltb_lt. reflexivity.
  - exists i, s', b. split; [exact Hrun|]. split; [exact Hb|]. by rewrite Hd.
Defined.

End Bio.
