(* ===== verification/Log.v ===== *)
(** The write-ahead log, [src/kernel/filesystem/log.c].

    System calls bracket their block updates with [begin_op] and [end_op];
    [log_write] records a block instead of writing it, and the last [end_op]
    commits: all blocks to the log, the header, all blocks to their places, the
    header again. The theorems are about any block cache that satisfies the
    interface of [Blk.v]. *)

From stdpp Require Import functions.
From S2P Require Import Prelude Mem Blk.
Import Blk.

Module Log.

Definition MAXOPBLOCKS : Z := 10.
Definition LOGSIZE : Z := MAXOPBLOCKS * 3.

(** [struct log]; [lh_n] and [lh_block] are its [struct logheader lh]. *)
Record logst := mk_log {
  lg_start : Z;
  lg_size : Z;
  outstanding : Z;
  committing : Z;
  lg_dev : Z;
  lh_n : Z;
  lh_block : list Z }.

Section log.
Context {C : Type} `{BlockCache C}.

(** The log and the block cache under it. *)
Record lst := mk_lst { lg : logst; ca : C }.

Definition cache {A} (m : M C A) : M lst A := zoom ca (fun c s => mk_lst (lg s) c) m.
Definition mod_log (f : logst -> logst) : M lst unit := modify (fun s => mk_lst (f (lg s)) (ca s)).

Definition set_n (n : Z) (l : logst) : logst :=
  mk_log (lg_start l) (lg_size l) (outstanding l) (committing l) (lg_dev l) n (lh_block l).
Definition set_blocks (b : list Z) (l : logst) : logst :=
  mk_log (lg_start l) (lg_size l) (outstanding l) (committing l) (lg_dev l) (lh_n l) b.
Definition set_outstanding (o : Z) (l : logst) : logst :=
  mk_log (lg_start l) (lg_size l) o (committing l) (lg_dev l) (lh_n l) (lh_block l).
Definition set_committing (c : Z) (l : logst) : logst :=
  mk_log (lg_start l) (lg_size l) (outstanding l) c (lg_dev l) (lh_n l) (lh_block l).

(** [log.lh.block[i]] *)
Definition get_block (i : Z) : M lst Z := let* l := gets lg in deref (aget (lh_block l) i).
Definition put_block (i b : Z) : M lst unit :=
  let* l := gets lg in
  if (0 <=? i) && (i <? alen (lh_block l)) then mod_log (set_blocks (aset (lh_block l) i b)) else fault.

(** The [struct logheader] at the start of a block: [n] at offset 0 and
    [block[i]] at offset 4 + 4 * i. *)
Definition hdr_n (d : block) : Z := s32 (load32 d 0).
Definition hdr_block (d : block) (i : Z) : Z := s32 (load32 d (4 + 4 * i)).

Definition install_trans : M lst unit :=
  let* l := gets lg in
  for_loop (Z.to_nat (lh_n l)) 0 (fun tail =>
    let* lbuf := cache (bread (lg_dev l) (u32 (lg_start l + tail + 1))) in
    let* b := get_block tail in
    let* dbuf := cache (bread (lg_dev l) (u32 b)) in
    let* d := cache (bdata lbuf) in
    cache (set_bdata dbuf d) ;;;
    cache (bwrite dbuf) ;;;
    cache (bunpin dbuf) ;;;
    cache (brelse lbuf) ;;;
    cache (brelse dbuf)).

Definition read_head : M lst unit :=
  let* l := gets lg in
  let* buf := cache (bread (lg_dev l) (u32 (lg_start l))) in
  let* d := cache (bdata buf) in
  mod_log (set_n (hdr_n d)) ;;;
  for_loop (Z.to_nat (hdr_n d)) 0 (fun i => put_block i (hdr_block d i)) ;;;
  cache (brelse buf).

Definition write_head : M lst unit :=
  let* l := gets lg in
  let* buf := cache (bread (lg_dev l) (u32 (lg_start l))) in
  let* d := cache (bdata buf) in
  cache (set_bdata buf (store32 d 0 (lh_n l))) ;;;
  for_loop (Z.to_nat (lh_n l)) 0 (fun i =>
    let* b := get_block i in
    let* d := cache (bdata buf) in
    cache (set_bdata buf (store32 d (4 + 4 * i) b))) ;;;
  cache (bwrite buf) ;;;
  cache (brelse buf).

Definition recover_from_log : M lst unit :=
  read_head ;;;
  install_trans ;;;
  mod_log (set_n 0) ;;;
  write_head.

(** [sizeof(struct logheader)] is 124. *)
Definition initlog (dev logstart nlog : Z) : M lst unit :=
  if BSIZE <=? 124 then panic "initlog: too big logheader"
  else
    mod_log (fun l => mk_log (s32 logstart) (s32 nlog) (outstanding l) (committing l) dev (lh_n l) (lh_block l)) ;;;
    recover_from_log.

(** One pass through the loop of [begin_op]: [false] when the caller goes to
    sleep on the log and tries again when it is woken. *)
Definition begin_op : M lst bool :=
  let* l := gets lg in
  if negb (committing l =? 0) then ret false
  else if LOGSIZE <? lh_n l + (outstanding l + 1) * MAXOPBLOCKS then ret false
  else mod_log (set_outstanding (outstanding l + 1)) ;;; ret true.

Definition write_log : M lst unit :=
  let* l := gets lg in
  for_loop (Z.to_nat (lh_n l)) 0 (fun tail =>
    let* to := cache (bread (lg_dev l) (u32 (lg_start l + tail + 1))) in
    let* b := get_block tail in
    let* from := cache (bread (lg_dev l) (u32 b)) in
    let* d := cache (bdata from) in
    cache (set_bdata to d) ;;;
    cache (bwrite to) ;;;
    cache (brelse from) ;;;
    cache (brelse to)).

Definition commit : M lst unit :=
  let* l := gets lg in
  when (0 <? lh_n l)
    (write_log ;;;
     write_head ;;;
     install_trans ;;;
     mod_log (set_n 0) ;;;
     write_head).

(** The first critical section of [end_op]: whether the caller commits. *)
Definition end_op_leave : M lst bool :=
  mod_log (fun l => set_outstanding (outstanding l - 1) l) ;;;
  let* l := gets lg in
  if negb (committing l =? 0) then panic "log.committing"
  else if outstanding l =? 0 then mod_log (set_committing 1) ;;; ret true
  else ret false.

Definition end_op : M lst unit :=
  let* do_commit := end_op_leave in
  when do_commit (commit ;;; mod_log (set_committing 0)).

(** [for (i = 0; i < log.lh.n; i++) if (log.lh.block[i] == b->blockno) break;] *)
Fixpoint absorb (fuel : nat) (i n blockno : Z) : M lst Z :=
  match fuel with
  | O => ret i
  | S fuel =>
      if i <? n then
        let* b := get_block i in
        if u32 b =? blockno then ret i else absorb fuel (i + 1) n blockno
      else ret i
  end.

Definition log_write (b : nat) : M lst unit :=
  let* l := gets lg in
  if (LOGSIZE <=? lh_n l) || (lg_size l - 1 <=? lh_n l) then panic "too big a transaction"
  else if outstanding l <? 1 then panic "log_write outside of trans"
  else
    let* blockno := cache (bblockno b) in
    let* i := absorb (Z.to_nat (lh_n l)) 0 (lh_n l) blockno in
    put_block i (s32 blockno) ;;;
    when (i =? lh_n l) (cache (bpin b) ;;; mod_log (set_n (lh_n l + 1))).

(** ** Runs of the log's loops *)

Lemma cache_run {A} (m : M C A) s a c : m (ca s) = Ret a c -> cache m s = Ret a (mk_lst (lg s) c).
Proof. intros E. unfold cache, zoom. by rewrite E. Qed.

(** Run the next operation of the cache. *)
Ltac cstep R := rewrite (bind_Ret _ _ _ _ _ (cache_run _ (mk_lst _ _) _ _ R)); cbn [lg].

(** The blocks of the transaction. *)
Definition logged (l : logst) : list Z := take (Z.to_nat (lh_n l)) (lh_block l).

(** A transaction that fits: its blocks are distinct and outside the log. *)
Record txn_ok (l : logst) : Prop := {
  tx_dev : lg_dev l = ROOTDEV;
  tx_start : 0 <= lg_start l;
  tx_size : 1 <= lg_size l /\ lg_start l + lg_size l < 2 ^ 31;
  tx_n : 0 <= lh_n l <= lg_size l - 1;
  tx_len : lh_n l <= alen (lh_block l);
  tx_nodup : NoDup (logged l);
  tx_home : forall b, b ∈ logged l -> 0 <= b < 2 ^ 31 /\ ~ (lg_start l <= b < lg_start l + lg_size l) }.

Lemma logged_length l : txn_ok l -> Z.of_nat (length (logged l)) = lh_n l.
Proof.
  intros [_ _ _ Hn Hl _ _]. unfold logged, alen in *. rewrite length_take. lia.
Qed.

Lemma get_block_run s t b : logged (lg s) !! t = Some b -> get_block (Z.of_nat t) s = Ret b s.
Proof.
  intros Hb. unfold get_block, bind, gets, deref, aget, logged in *. rewrite lookup_take_Some in Hb.
  rewrite (proj2 (Z.ltb_ge _ _)), Nat2Z.id by lia. by rewrite (proj1 Hb).
Qed.

(** [for (tail = 0; tail < log.lh.n; tail++)] when every round does one block. *)
Lemma tail_loop l (body : Z -> M lst unit) (P : nat -> C -> Prop) c :
  txn_ok l -> P O c ->
  (forall t b c, logged l !! t = Some b -> P t c ->
     exists c', body (Z.of_nat t) (mk_lst l c) = Ret tt (mk_lst l c') /\ P (S t) c') ->
  exists c', for_loop (Z.to_nat (lh_n l)) 0 body (mk_lst l c) = Ret tt (mk_lst l c') /\ P (length (logged l)) c'.
Proof.
  intros Hok H0 Hstep. pose proof (logged_length l Hok) as Hlen.
  destruct (for_loop_inv (fun t s => exists c, s = mk_lst l c /\ P (Z.to_nat t) c) body (Z.to_nat (lh_n l)) 0 (mk_lst l c))
    as (s' & Hrun & c' & -> & HP).
  - by exists c.
  - intros t s Ht (c1 & -> & HP). destruct (lookup_lt_is_Some_2 (logged l) (Z.to_nat t)) as [b Hb]; [lia|].
    destruct (Hstep (Z.to_nat t) b c1 Hb HP) as (c2 & Hrun & HP2).
    rewrite Z2Nat.id in Hrun by lia. exists (mk_lst l c2). split; [done|]. exists c2. split; [done|].
    by replace (Z.to_nat (t + 1)) with (S (Z.to_nat t)) by lia.
  - exists c'. split; [done|]. pose proof (tx_n l Hok). by replace (length (logged l)) with (Z.to_nat (0 + Z.of_nat (Z.to_nat (lh_n l)))) by lia.
Qed.

(** The log block of entry [t], and the writes of the two copying loops. *)
Definition lblock (l : logst) (t : nat) : Z := lg_start l + Z.of_nat t + 1.
Definition log_writes (l : logst) (vw : Z -> block) : list (Z * block) :=
  imap (fun t b => (lblock l t, vw b)) (logged l).
Definition home_writes (l : logst) (vw : Z -> block) : list (Z * block) :=
  imap (fun t b => (b, vw (lblock l t))) (logged l).

Lemma take_imap_S {A B} (f : nat -> A -> B) xs t x :
  xs !! t = Some x -> take (S t) (imap f xs) = take t (imap f xs) ++ [f t x].
Proof. intros Hx. apply take_S_r. by rewrite list_lookup_imap, Hx. Qed.

Lemma take_imap_all {A B} (f : nat -> A -> B) xs : take (length xs) (imap f xs) = imap f xs.
Proof. apply take_ge. by rewrite length_imap. Qed.

Section runs.
Context (l : logst).
Hypothesis Hok : txn_ok l.

Lemma lblock_range t b : logged l !! t = Some b ->
  lg_start l < lblock l t < lg_start l + lg_size l /\ u32 (lg_start l + Z.of_nat t + 1) = lblock l t.
Proof using Hok.
  intros Hb. apply lookup_lt_Some in Hb. pose proof (logged_length l Hok) as Hlen. destruct Hok as [_ Hs Hz Hn _ _ _].
  unfold lblock. split; [lia|]. rewrite u32_small by lia. lia.
Qed.

Lemma log_unpinned pin t b : logged l !! t = Some b ->
  (forall n, n ∈ dom pin -> ~ (lg_start l <= n < lg_start l + lg_size l)) -> pinv pin (lblock l t) = 0.
Proof using Hok.
  intros Hb Hlog. destruct (decide (pinv pin (lblock l t) = 0)) as [|Hne]; [done|].
  apply pinv_dom, Hlog in Hne. destruct (lblock_range t b Hb). lia.
Qed.

Lemma home_u32 t b : logged l !! t = Some b ->
  u32 b = b /\ ~ (lg_start l <= b < lg_start l + lg_size l).
Proof using Hok.
  intros Hb. destruct (tx_home l Hok b) as [Hr Hn]; [by eapply list_elem_of_lookup_2|]. split; [|done].
  apply u32_small. lia.
Qed.

(** Blocks of the log are not home blocks, and the other way round. *)
Lemma log_writes_blocks vw t n : n ∈ (take t (log_writes l vw)).*1 -> lg_start l < n < lg_start l + lg_size l.
Proof using Hok.
  intros Hn. apply list_elem_of_fmap in Hn as (x & -> & Hx). apply list_elem_of_lookup in Hx as [j Hj].
  apply lookup_take_Some in Hj as [Hj _]. unfold log_writes in Hj. rewrite list_lookup_imap in Hj.
  destruct (logged l !! j) as [b|] eqn:E; [|done]. injection Hj as <-. simpl. by destruct (lblock_range j b E).
Qed.

Lemma home_writes_blocks vw t n : n ∈ (take t (home_writes l vw)).*1 <-> n ∈ take t (logged l).
Proof using Type.
  unfold home_writes. rewrite fmap_take.
  assert (E : (imap (fun t b => (b, vw (lblock l t))) (logged l)).*1 = logged l).
  { apply list_eq. intros j. rewrite list_lookup_fmap, list_lookup_imap. by destruct (logged l !! j). }
  by rewrite E.
Qed.

(** Copying the transaction to the log. *)
Lemma write_log_run vw dk pin w c :
  rep c vw dk [] pin w -> (forall b, b ∈ logged l -> 0 < pinv pin b) -> (size (dom pin) < NBUF)%nat ->
  (forall n, n ∈ dom pin -> ~ (lg_start l <= n < lg_start l + lg_size l)) ->
  let lw := log_writes l vw in
  exists c', write_log (mk_lst l c) = Ret tt (mk_lst l c') /\
    rep c' (apply_writes lw vw) (apply_writes lw dk) [] pin (w ++ lw).
Proof using Hok.
  intros Hrep Hpin Hroom Hlog lw. unfold write_log, bind at 1, gets at 1. cbn [lg].
  destruct (tail_loop l (fun tail =>
      let* to := cache (bread (lg_dev l) (u32 (lg_start l + tail + 1))) in
      let* b := get_block tail in
      let* from := cache (bread (lg_dev l) (u32 b)) in
      let* d := cache (bdata from) in
      cache (set_bdata to d) ;;; cache (bwrite to) ;;; cache (brelse from) ;;; cache (brelse to))
    (fun t c => rep c (apply_writes (take t lw) vw) (apply_writes (take t lw) dk) [] pin (w ++ take t lw)) c Hok)
    as (c' & Hrun & HP).
  - by rewrite app_nil_r.
  - clear Hrep c. intros t b c Hb Hrep. destruct (lblock_range t b Hb) as [Hlr Hlu]. destruct (home_u32 t b Hb) as [Hbu Hbh].
    assert (Hbp : 0 < pinv pin b) by (apply Hpin; by eapply list_elem_of_lookup_2). rewrite (tx_dev l Hok), Hlu.
    set (V := apply_writes (take t lw) vw) in *. set (K := apply_writes (take t lw) dk) in *.
    destruct (bread_ok c V K [] pin _ (lblock l t) Hrep) as (i & c1 & R1 & Hrep1);
      [by apply not_elem_of_nil|by intros j m Hj%not_elem_of_nil|right; by rewrite busy_nil|]. cstep R1.
    rewrite (bind_Ret _ _ _ _ _ (get_block_run (mk_lst l c1) t b Hb)), Hbu.
    destruct (bread_ok c1 V K _ pin _ b Hrep1) as (j & c2 & R2 & Hrep2).
    { simpl. rewrite list_elem_of_singleton. lia. }
    { intros j m [[= -> ->]|Hj%not_elem_of_nil]%elem_of_cons; [|done]. by rewrite (log_unpinned pin t b Hb Hlog). }
    { left. apply pinv_dom. lia. }
    cstep R2. cstep (bdata_ok _ _ _ _ _ _ j b Hrep2 ltac:(by left)).
    destruct (set_bdata_ok _ _ _ _ _ _ i (lblock l t) (V b) Hrep2) as (c3 & R3 & Hrep3); [by right; left|]. cstep R3.
    destruct (bwrite_ok _ _ _ _ _ _ i (lblock l t) Hrep3) as (c4 & R4 & Hrep4); [by right; left|]. cstep R4.
    rewrite fn_lookup_insert in Hrep4.
    destruct (brelse_ok _ _ _ _ _ _ j b Hrep4) as (c5 & R5 & Hrep5); [lia|]. cstep R5.
    destruct (brelse_ok _ _ _ _ _ _ i (lblock l t) Hrep5) as (c6 & R6 & Hrep6); [by rewrite !fn_lookup_insert|].
    rewrite (cache_run _ (mk_lst l c5) _ _ R6). cbn [lg]. exists c6. split; [done|].
    unfold lw, log_writes. rewrite (take_imap_S _ _ _ _ Hb), !apply_snoc, app_assoc. cbn [fst snd].
    assert (Vb : V b = vw b). { apply apply_ne. intros Hin. apply log_writes_blocks in Hin. lia. }
    rewrite Vb in Hrep6. exact Hrep6.
  - exists c'. split; [done|]. unfold lw, log_writes in HP. rewrite take_imap_all in HP. exact HP.
Qed.

(** Installing the transaction: its blocks are written and lose a reference. *)
Lemma install_run vw dk pin w c :
  rep c vw dk [] pin w -> (forall b, b ∈ logged l -> 0 <= pinv pin b) ->
  (size (dom pin ∪ list_to_set (logged l) : gset Z) < NBUF)%nat ->
  (forall n, n ∈ dom pin -> ~ (lg_start l <= n < lg_start l + lg_size l)) ->
  let hw := home_writes l vw in
  exists c', install_trans (mk_lst l c) = Ret tt (mk_lst l c') /\
    rep c' (apply_writes hw vw) (apply_writes hw dk) [] (unpin (logged l) pin) (w ++ hw).
Proof using Hok.
  intros Hrep Hpin Hroom Hlog hw. unfold install_trans, bind at 1, gets at 1. cbn [lg].
  destruct (tail_loop l (fun tail =>
      let* lbuf := cache (bread (lg_dev l) (u32 (lg_start l + tail + 1))) in
      let* b := get_block tail in
      let* dbuf := cache (bread (lg_dev l) (u32 b)) in
      let* d := cache (bdata lbuf) in
      cache (set_bdata dbuf d) ;;; cache (bwrite dbuf) ;;; cache (bunpin dbuf) ;;;
      cache (brelse lbuf) ;;; cache (brelse dbuf))
    (fun t c => rep c (apply_writes (take t hw) vw) (apply_writes (take t hw) dk) [] (unpin (take t (logged l)) pin)
                  (w ++ take t hw)) c Hok) as (c' & Hrun & HP).
  - by rewrite app_nil_r.
  - clear Hrep c. intros t b c Hb Hrep. destruct (lblock_range t b Hb) as [Hlr Hlu]. destruct (home_u32 t b Hb) as [Hbu Hbh].
    rewrite (tx_dev l Hok), Hlu. pose proof (unpin_dom (take t (logged l)) pin) as Hdom.
    assert (Hsub : dom (unpin (take t (logged l)) pin) ⊆ dom pin ∪ list_to_set (logged l)).
    { intros n Hn. apply Hdom, elem_of_union in Hn as [Hn|Hn]; apply elem_of_union; [by left|right].
      apply elem_of_list_to_set in Hn. apply elem_of_list_to_set. by eapply elem_of_take_1. }
    assert (Hbt : b ∉ take t (logged l)) by (by apply (NoDup_take_lookup _ _ _ (tx_nodup l Hok) Hb)).
    assert (Hpb : pinv (unpin (take t (logged l)) pin) b = pinv pin b) by (by apply unpin_ne).
    set (pn := unpin (take t (logged l)) pin) in *.
    set (V := apply_writes (take t hw) vw) in *. set (K := apply_writes (take t hw) dk) in *.
    assert (Hlogn : forall n, n ∈ dom pn -> ~ (lg_start l <= n < lg_start l + lg_size l)).
    { intros n Hn. apply Hsub, elem_of_union in Hn as [Hn|Hn]; [by apply Hlog|].
      apply elem_of_list_to_set in Hn. by apply (tx_home l Hok). }
    assert (Hlu0 : pinv pn (lblock l t) = 0) by (by apply (log_unpinned pn t b)).
    destruct (bread_ok c V K [] pn _ (lblock l t) Hrep) as (i & c1 & R1 & Hrep1);
      [by apply not_elem_of_nil|by intros j m Hj%not_elem_of_nil| |].
    { right. rewrite busy_nil. eapply Nat.le_lt_trans; [by apply subseteq_size|done]. }
    cstep R1. rewrite (bind_Ret _ _ _ _ _ (get_block_run (mk_lst l c1) t b Hb)), Hbu.
    assert (Hcl : V (lblock l t) = K (lblock l t)) by (apply (rep_clean _ _ _ _ _ _ _ Hrep); [by apply not_elem_of_nil|done]).
    destruct (bread_ok c1 V K _ pn _ b Hrep1) as (j & c2 & R2 & Hrep2).
    { simpl. rewrite list_elem_of_singleton. lia. }
    { intros j m [[= -> ->]|Hj%not_elem_of_nil]%elem_of_cons; [|done]. by rewrite Hlu0. }
    { destruct (decide (b ∈ dom pn)) as [|Hnb]; [by left|right].
      eapply busy_one; [exact Hsub|exact Hnb| |exact Hroom]. apply elem_of_union_r, elem_of_list_to_set.
      by eapply list_elem_of_lookup_2. }
    cstep R2. cstep (bdata_ok _ _ _ _ _ _ i (lblock l t) Hrep2 ltac:(by right; left)).
    destruct (set_bdata_ok _ _ _ _ _ _ j b (V (lblock l t)) Hrep2) as (c3 & R3 & Hrep3); [by left|]. cstep R3.
    destruct (bwrite_ok _ _ _ _ _ _ j b Hrep3) as (c4 & R4 & Hrep4); [by left|]. cstep R4.
    rewrite fn_lookup_insert in Hrep4.
    destruct (bunpin_ok _ _ _ _ _ _ j b Hrep4) as (c5 & R5 & Hrep5); [by left| |]. { rewrite Hpb. apply Hpin. by eapply list_elem_of_lookup_2. }
    cstep R5. eapply rep_perm in Hrep5; [|apply perm_swap].
    destruct (brelse_ok _ _ _ _ _ _ i (lblock l t) Hrep5) as (c6 & R6 & Hrep6).
    { intros _. rewrite !fn_lookup_insert_ne by lia. done. }
    cstep R6. destruct (brelse_ok _ _ _ _ _ _ j b Hrep6) as (c7 & R7 & Hrep7); [by rewrite !fn_lookup_insert|].
    rewrite (cache_run _ (mk_lst l c6) _ _ R7). cbn [lg]. exists c7. split; [done|].
    assert (Vb : V (lblock l t) = vw (lblock l t)).
    { apply apply_ne. intros Hin. apply home_writes_blocks, elem_of_take_1 in Hin. apply (tx_home l Hok) in Hin. lia. }
    unfold hw, home_writes. rewrite (take_imap_S _ _ _ _ Hb), !apply_snoc, app_assoc, (take_S_r _ _ _ Hb), unpin_snoc. cbn [fst snd].
    rewrite Vb in Hrep7. exact Hrep7.
  - exists c'. split; [done|]. unfold hw, home_writes in HP. rewrite take_imap_all, take_ge in HP by done. exact HP.
Qed.

End runs.

(** ** The header block *)

Fixpoint put_blocks (d : block) (i : Z) (bs : list Z) : block :=
  match bs with
  | [] => d
  | b :: bs => put_blocks (store32 d (4 + 4 * i) b) (i + 1) bs
  end.
Definition put_head (d : block) (bs : list Z) : block := put_blocks (store32 d 0 (Z.of_nat (length bs))) 0 bs.

Lemma put_blocks_snoc bs d i b :
  put_blocks d i (bs ++ [b]) = store32 (put_blocks d i bs) (4 + 4 * (i + Z.of_nat (length bs))) b.
Proof.
  revert d i. induction bs as [|x bs IH]; intros d i; simpl; [by rewrite Z.add_0_r|].
  rewrite IH. do 3 f_equal. lia.
Qed.

Lemma put_blocks_before bs d i a : 0 <= i -> a + 4 <= 4 + 4 * i -> load32 (put_blocks d i bs) a = load32 d a.
Proof.
  revert d i. induction bs as [|x bs IH]; intros d i Hi Ha; simpl; [done|].
  rewrite IH by lia. apply load32_store32_ne. lia.
Qed.

Lemma put_blocks_at bs d i t b : 0 <= i -> bs !! t = Some b ->
  load32 (put_blocks d i bs) (4 + 4 * (i + Z.of_nat t)) = b mod 2 ^ 32.
Proof.
  revert d i t. induction bs as [|x bs IH]; intros d i t Hi Hb; [done|]. simpl. destruct t as [|t].
  - injection Hb as ->. rewrite Z.add_0_r, put_blocks_before by lia. apply load32_store32_eq.
  - simpl in Hb. replace (i + Z.of_nat (S t)) with (i + 1 + Z.of_nat t) by lia. apply IH; [lia|done].
Qed.

(** Decoding what was encoded. *)
Lemma hdr_n_put d bs : Z.of_nat (length bs) < 2 ^ 31 -> hdr_n (put_head d bs) = Z.of_nat (length bs).
Proof.
  intros Hl. unfold hdr_n, put_head. rewrite put_blocks_before, load32_store32_eq by lia. apply s32_u32. lia.
Qed.
Lemma hdr_block_put d bs t b : bs !! t = Some b -> 0 <= b < 2 ^ 31 -> hdr_block (put_head d bs) (Z.of_nat t) = b.
Proof.
  intros Hb Hr. unfold hdr_block, put_head.
  pose proof (put_blocks_at bs (store32 d 0 (Z.of_nat (length bs))) 0 t b ltac:(lia) Hb) as E.
  rewrite Z.add_0_l in E. rewrite E. apply s32_u32. lia.
Qed.

(** Writing the header: it describes the transaction. *)
Lemma write_head_run l vw dk pin w c :
  txn_ok l -> rep c vw dk [] pin w -> (size (dom pin) < NBUF)%nat ->
  let hd := put_head (vw (lg_start l)) (logged l) in
  exists c', write_head (mk_lst l c) = Ret tt (mk_lst l c') /\
    rep c' (<[lg_start l := hd]> vw) (<[lg_start l := hd]> dk) [] pin (w ++ [(lg_start l, hd)]).
Proof.
  intros Hok Hrep Hroom hd. unfold write_head, bind at 1, gets at 1. cbn [lg].
  assert (Hu : u32 (lg_start l) = lg_start l) by (destruct Hok; apply u32_small; lia).
  rewrite (tx_dev l Hok), Hu. set (a := lg_start l) in *.
  destruct (bread_ok c vw dk [] pin w a Hrep) as (i & c1 & R1 & Hrep1);
    [by apply not_elem_of_nil|by intros j m Hj%not_elem_of_nil|right; by rewrite busy_nil|]. cstep R1.
  cstep (bdata_ok _ _ _ _ _ _ i a Hrep1 ltac:(by left)).
  destruct (set_bdata_ok _ _ _ _ _ _ i a (store32 (vw a) 0 (lh_n l)) Hrep1) as (c2 & R2 & Hrep2); [by left|]. cstep R2.
  set (d0 := store32 (vw a) 0 (lh_n l)) in *.
  destruct (tail_loop l (fun k =>
      let* b := get_block k in
      let* d := cache (bdata i) in
      cache (set_bdata i (store32 d (4 + 4 * k) b)))
    (fun t c => rep c (<[a := put_blocks d0 0 (take t (logged l))]> vw) dk [(i, a)] pin w) c2 Hok) as (c3 & Hrun & Hrep3).
  - exact Hrep2.
  - clear c2 R2 Hrep2. intros t b c2 Hb Hrep2. rewrite (bind_Ret _ _ _ _ _ (get_block_run (mk_lst l c2) t b Hb)).
    cstep (bdata_ok _ _ _ _ _ _ i a Hrep2 ltac:(by left)). rewrite fn_lookup_insert.
    destruct (set_bdata_ok _ _ _ _ _ _ i a (store32 (put_blocks d0 0 (take t (logged l))) (4 + 4 * Z.of_nat t) b) Hrep2)
      as (c4 & R4 & Hrep4); [by left|]. rewrite (cache_run _ (mk_lst l c2) _ _ R4). exists c4. split; [done|].
    assert (Hlt : length (take t (logged l)) = t) by (apply lookup_lt_Some in Hb; rewrite length_take; lia).
    rewrite (take_S_r _ _ _ Hb), put_blocks_snoc, Hlt, Z.add_0_l.
    eapply rep_ext; [exact Hrep4| |done]. intros m.
    destruct (decide (m = a)) as [->|Hne]; [by rewrite !fn_lookup_insert|by rewrite !fn_lookup_insert_ne].
  - rewrite (bind_Ret _ _ _ _ _ Hrun). rewrite take_ge in Hrep3 by done.
    assert (Ehd : put_blocks d0 0 (logged l) = hd) by (unfold hd, d0, put_head; by rewrite (logged_length l Hok)). rewrite Ehd in Hrep3.
    destruct (bwrite_ok _ _ _ _ _ _ i a Hrep3) as (c4 & R4 & Hrep4); [by left|]. cstep R4.
    rewrite fn_lookup_insert in Hrep4.
    destruct (brelse_ok _ _ _ _ _ _ i a Hrep4) as (c5 & R5 & Hrep5); [by rewrite !fn_lookup_insert|].
    rewrite (cache_run _ (mk_lst l c4) _ _ R5). by exists c5.
Qed.

(** ** Commit *)

(** The writes of a commit, oldest first. *)
Definition new_writes (l : logst) (vw : Z -> block) : list (Z * block) := (fun b => (b, vw b)) <$> logged l.
Definition commit_writes (l : logst) (vw : Z -> block) : list (Z * block) :=
  log_writes l vw ++ [(lg_start l, put_head (vw (lg_start l)) (logged l))] ++ new_writes l vw ++
  [(lg_start l, put_head (put_head (vw (lg_start l)) (logged l)) [])].

Lemma log_writes_nodup l vw : txn_ok l -> NoDup ((log_writes l vw).*1).
Proof.
  intros Hok. apply NoDup_alt. intros i j n Hi Hj. unfold log_writes in *.
  rewrite list_lookup_fmap, list_lookup_imap in Hi, Hj.
  destruct (logged l !! i), (logged l !! j); try done. simpl in *. injection Hi as Hi. injection Hj as Hj.
  unfold lblock in *. lia.
Qed.

Lemma log_writes_at l vw t b d : txn_ok l -> logged l !! t = Some b -> apply_writes (log_writes l vw) d (lblock l t) = vw b.
Proof.
  intros Hok Hb. apply apply_eq; [by apply log_writes_nodup|]. apply list_elem_of_lookup. exists t.
  unfold log_writes. by rewrite list_lookup_imap, Hb.
Qed.

Lemma log_writes_out l vw d n : txn_ok l -> ~ (lg_start l < n < lg_start l + lg_size l) ->
  apply_writes (log_writes l vw) d n = d n.
Proof.
  intros Hok Hn. apply apply_ne. intros Hin. apply Hn, (log_writes_blocks l Hok vw (length (log_writes l vw))).
  by rewrite take_ge.
Qed.

Lemma new_writes_blocks l vw : (new_writes l vw).*1 = logged l.
Proof. unfold new_writes. rewrite <- list_fmap_compose. by apply list_fmap_id. Qed.

Lemma new_writes_at l vw d b : txn_ok l -> b ∈ logged l -> apply_writes (new_writes l vw) d b = vw b.
Proof.
  intros Hok Hb. apply apply_eq; [rewrite new_writes_blocks; apply Hok|]. unfold new_writes.
  apply list_elem_of_fmap. by exists b.
Qed.

Lemma new_writes_out l vw d n : n ∉ logged l -> apply_writes (new_writes l vw) d n = d n.
Proof. intros Hn. apply apply_ne. by rewrite new_writes_blocks. Qed.

Lemma start_not_logged l : txn_ok l -> lg_start l ∉ logged l.
Proof. intros Hok Hin. destruct (tx_home l Hok _ Hin) as [_ Hn]. destruct Hok. lia. Qed.

Lemma txn_ok_empty l : txn_ok l -> txn_ok (set_n 0 l).
Proof. intros []. split; simpl; try done; [lia|unfold alen; lia|constructor|]. by intros b ?%not_elem_of_nil. Qed.

Lemma commit_run l vw dk pin w c :
  txn_ok l -> 0 < lh_n l -> rep c vw dk [] pin w -> (forall b, b ∈ logged l -> 0 < pinv pin b) ->
  (size (dom pin) < NBUF)%nat -> (forall n, n ∈ dom pin -> ~ (lg_start l <= n < lg_start l + lg_size l)) ->
  exists c', commit (mk_lst l c) = Ret tt (mk_lst (set_n 0 l) c') /\
    rep c' (apply_writes (commit_writes l vw) vw) (apply_writes (commit_writes l vw) dk) [] (unpin (logged l) pin)
      (w ++ commit_writes l vw).
Proof.
  intros Hok Hn Hrep Hpin Hroom Hlog. unfold commit, bind at 1, gets at 1. cbn [lg].
  rewrite (proj2 (Z.ltb_lt _ _)) by done. cbn [when]. set (a := lg_start l).
  destruct (write_log_run l Hok vw dk pin w c Hrep Hpin Hroom Hlog) as (c1 & R1 & Hrep1).
  rewrite (bind_Ret _ _ _ _ _ R1).
  destruct (write_head_run l _ _ pin _ c1 Hok Hrep1 Hroom) as (c2 & R2 & Hrep2). rewrite (bind_Ret _ _ _ _ _ R2).
  rewrite log_writes_out in Hrep2 by (done || lia). fold a in Hrep2. set (hd := put_head (vw a) (logged l)) in *.
  assert (Hsz : (size (dom pin ∪ list_to_set (logged l) : gset Z) < NBUF)%nat).
  { eapply Nat.le_lt_trans; [|exact Hroom]. apply subseteq_size. intros b Hb.
    apply elem_of_union in Hb as [|Hb]; [done|]. apply elem_of_list_to_set in Hb. apply pinv_dom. specialize (Hpin b Hb). lia. }
  destruct (install_run l Hok _ _ pin _ c2 Hrep2) as (c3 & R3 & Hrep3); [|done|done|].
  { intros b Hb. specialize (Hpin b Hb). lia. }
  rewrite (bind_Ret _ _ _ _ _ R3).
  assert (Ehw : home_writes l (<[a := hd]> (apply_writes (log_writes l vw) vw)) = new_writes l vw).
  { unfold home_writes, new_writes. apply list_eq. intros t. rewrite list_lookup_imap, list_lookup_fmap.
    destruct (logged l !! t) as [b|] eqn:Hb; [|done]. simpl. do 2 f_equal.
    destruct (lblock_range l Hok t b Hb). rewrite fn_lookup_insert_ne by (unfold a; lia). by apply log_writes_at. }
  rewrite Ehw in Hrep3. unfold bind at 1, mod_log, modify. cbn [lg ca].
  destruct (write_head_run (set_n 0 l) _ _ _ _ c3 (txn_ok_empty l Hok) Hrep3) as (c4 & R4 & Hrep4).
  { eapply Nat.le_lt_trans; [apply subseteq_size, unpin_dom|done]. }
  exists c4. split; [done|]. change (lg_start (set_n 0 l)) with a in Hrep4. change (logged (set_n 0 l)) with (@nil Z) in Hrep4.
  rewrite new_writes_out, fn_lookup_insert in Hrep4 by (by apply start_not_logged).
  unfold commit_writes. fold a hd. rewrite !apply_app, !app_assoc. cbn [apply_writes foldl fst snd].
  rewrite <- !app_assoc in *. exact Hrep4.
Qed.

(** ** Recovery *)

(** The transaction a header block describes. *)
Definition hdr_blocks (d : block) : list Z := (fun i => hdr_block d (Z.of_nat i)) <$> seq 0 (Z.to_nat (hdr_n d)).

Lemma hdr_blocks_put d bs : Z.of_nat (length bs) < 2 ^ 31 -> (forall b, b ∈ bs -> 0 <= b < 2 ^ 31) ->
  hdr_blocks (put_head d bs) = bs.
Proof.
  intros Hl Hr. unfold hdr_blocks. rewrite hdr_n_put, Nat2Z.id by done. apply list_eq. intros t.
  rewrite list_lookup_fmap. destruct (bs !! t) as [b|] eqn:Hb.
  - rewrite lookup_seq_lt by (by eapply lookup_lt_Some). simpl. f_equal. apply hdr_block_put; [done|].
    apply Hr. by eapply list_elem_of_lookup_2.
  - rewrite lookup_seq_ge by (by apply lookup_ge_None). done.
Qed.

Lemma hdr_blocks_zero d : hdr_n d = 0 -> hdr_blocks d = [].
Proof. intros E. unfold hdr_blocks. by rewrite E. Qed.

(** The log after [read_head]. *)
Definition head_of (l : logst) (d : block) : logst :=
  set_blocks (hdr_blocks d ++ drop (length (hdr_blocks d)) (lh_block l)) (set_n (hdr_n d) l).

Lemma hdr_blocks_length d : 0 <= hdr_n d -> Z.of_nat (length (hdr_blocks d)) = hdr_n d.
Proof. intros Hn. unfold hdr_blocks. rewrite length_fmap, length_seq. lia. Qed.

Lemma logged_head_of l d : 0 <= hdr_n d -> logged (head_of l d) = hdr_blocks d.
Proof.
  intros Hn. unfold logged, head_of. cbn [lh_n lh_block set_blocks set_n]. pose proof (hdr_blocks_length d Hn).
  apply take_app_length'. lia.
Qed.

Lemma put_block_run l c i b : 0 <= i < alen (lh_block l) ->
  put_block i b (mk_lst l c) = Ret tt (mk_lst (set_blocks (aset (lh_block l) i b) l) c).
Proof.
  intros Hi. unfold put_block, bind, gets, mod_log, modify. cbn [lg ca].
  by rewrite (proj2 (Z.leb_le _ _)), (proj2 (Z.ltb_lt _ _)) by lia.
Qed.

Lemma put_block_loop (f : Z -> Z) l c n : (n <= length (lh_block l))%nat ->
  for_loop n 0 (fun i => put_block i (f i)) (mk_lst l c) =
    Ret tt (mk_lst (set_blocks (((fun i => f (Z.of_nat i)) <$> seq 0 n) ++ drop n (lh_block l)) l) c).
Proof.
  intros Hn. set (bs := fun t : nat => ((fun i => f (Z.of_nat i)) <$> seq 0 t) ++ drop t (lh_block l)).
  destruct (for_loop_inv (fun t s => 0 <= t /\ s = mk_lst (set_blocks (bs (Z.to_nat t)) l) c)
    (fun i => put_block i (f i)) n 0 (mk_lst l c)) as (s' & Hrun & _ & ->).
  - split; [done|]. unfold bs. simpl. by destruct l.
  - intros t s Ht [_ ->].
    assert (E : aset (bs (Z.to_nat t)) t (f t) = bs (Z.to_nat (t + 1))).
    { rewrite <- (Z2Nat.id t) at 2 by lia. rewrite aset_of_nat.
      replace (Z.to_nat (t + 1)) with (S (Z.to_nat t)) by lia. unfold bs.
      destruct (lookup_lt_is_Some_2 (lh_block l) (Z.to_nat t)) as [x Hx]; [lia|].
      rewrite seq_S, fmap_app, (drop_S _ _ _ Hx), <- app_assoc. simpl.
      rewrite insert_app_r_alt; rewrite length_fmap, length_seq; [|done]. rewrite Nat.sub_diag. simpl.
      by rewrite Z2Nat.id by lia. }
    eexists. split; [|split; [lia|reflexivity]]. rewrite <- E. apply (put_block_run (set_blocks _ l)).
    cbn [set_blocks lh_block]. unfold alen, bs. rewrite length_app, length_fmap, length_seq, length_drop. lia.
  - rewrite Hrun. unfold bs. by rewrite Z.add_0_l, Nat2Z.id.
Qed.

Lemma read_head_run l vw dk pin w c :
  lg_dev l = ROOTDEV -> 0 <= lg_start l < 2 ^ 31 -> 0 <= hdr_n (vw (lg_start l)) <= alen (lh_block l) ->
  rep c vw dk [] pin w -> (size (dom pin) < NBUF)%nat -> pinv pin (lg_start l) = 0 ->
  exists c', read_head (mk_lst l c) = Ret tt (mk_lst (head_of l (vw (lg_start l))) c') /\ rep c' vw dk [] pin w.
Proof.
  intros Hdev Ha Hn Hrep Hroom Hp. unfold read_head, bind at 1, gets at 1. cbn [lg].
  rewrite Hdev, u32_small by lia. set (a := lg_start l) in *.
  destruct (bread_ok c vw dk [] pin w a Hrep) as (i & c1 & R1 & Hrep1);
    [by apply not_elem_of_nil|by intros j m Hj%not_elem_of_nil|right; by rewrite busy_nil|]. cstep R1.
  cstep (bdata_ok _ _ _ _ _ _ i a Hrep1 ltac:(by left)).
  unfold bind at 1, mod_log, modify. cbn [lg ca].
  rewrite (bind_Ret _ _ _ _ _ (put_block_loop (hdr_block (vw a)) (set_n (hdr_n (vw a)) l) c1 (Z.to_nat (hdr_n (vw a)))
    ltac:(unfold alen in Hn; cbn; lia))).
  destruct (brelse_ok _ _ _ _ _ _ i a Hrep1) as (c2 & R2 & Hrep2).
  { intros _. apply (rep_clean _ _ _ _ _ _ _ Hrep); [by apply not_elem_of_nil|done]. }
  rewrite (cache_run _ (mk_lst _ c1) _ _ R2). cbn [lg]. exists c2. split; [|done]. do 2 f_equal.
  unfold head_of. f_equal. unfold hdr_blocks. by rewrite length_fmap, length_seq.
Qed.

(** What [initlog] sets up: the log lies inside the disk and its header fits. *)
Record layout (l : logst) : Prop := {
  ly_dev : lg_dev l = ROOTDEV;
  ly_start : 0 <= lg_start l;
  ly_size : 1 <= lg_size l <= LOGSIZE /\ lg_start l + lg_size l < 2 ^ 31;
  ly_len : alen (lh_block l) = LOGSIZE }.

(** Blocks outside the log. *)
Definition home (l : logst) (b : Z) : Prop := 0 <= b < 2 ^ 31 /\ ~ (lg_start l <= b < lg_start l + lg_size l).

(** A disk from which recovery produces the contents [T]: the header names
    blocks whose log copies are those of [T], all others already are. *)
Record recoverable (l : logst) (d T : Z -> block) : Prop := {
  rc_n : 0 <= hdr_n (d (lg_start l)) <= lg_size l - 1;
  rc_nodup : NoDup (hdr_blocks (d (lg_start l)));
  rc_home : forall b, b ∈ hdr_blocks (d (lg_start l)) -> home l b;
  rc_new : forall t b, hdr_blocks (d (lg_start l)) !! t = Some b -> d (lblock l t) = T b;
  rc_old : forall b, home l b -> b ∉ hdr_blocks (d (lg_start l)) -> d b = T b }.

Lemma recoverable_ext l d d' T : (forall n, d' n = d n) -> recoverable l d T -> recoverable l d' T.
Proof.
  intros E [Hn Hnd Hh Hnew Hold]. split; rewrite ?E; try done.
  - intros t b Hb. rewrite E. by apply Hnew.
  - intros b Hb Hnb. rewrite E. by apply Hold.
Qed.

(** The writes of a recovery. *)
Definition recover_writes (l : logst) (d : Z -> block) : list (Z * block) :=
  home_writes (head_of l (d (lg_start l))) d ++ [(lg_start l, put_head (d (lg_start l)) [])].

Lemma head_txn_ok l d T : layout l -> recoverable l d T -> txn_ok (head_of l (d (lg_start l))).
Proof.
  intros [Hdev Hs Hsz Hlen] [Hn Hnd Hh _ _]. split; try done; cbn [head_of set_blocks set_n lg_start lg_size lh_n lh_block].
  - lia.
  - unfold alen. rewrite length_app. pose proof (hdr_blocks_length (d (lg_start l))). lia.
  - by rewrite logged_head_of by lia.
  - intros b. rewrite logged_head_of by lia. apply Hh.
Qed.

Lemma log_not_home l n : lg_start l <= n < lg_start l + lg_size l -> ~ home l n.
Proof. intros Hn [_ Ho]. lia. Qed.

Lemma home_writes_at l d t b x : txn_ok l -> logged l !! t = Some b -> apply_writes (home_writes l d) x b = d (lblock l t).
Proof.
  intros Hok Hb. apply apply_eq.
  - replace ((home_writes l d).*1) with (logged l) by (apply list_eq; intros j; unfold home_writes;
      rewrite list_lookup_fmap, list_lookup_imap; by destruct (logged l !! j)). apply Hok.
  - apply list_elem_of_lookup. exists t. unfold home_writes. by rewrite list_lookup_imap, Hb.
Qed.

Lemma home_writes_out l d k x n : n ∉ logged l -> apply_writes (take k (home_writes l d)) x n = x n.
Proof. intros Hn. apply apply_ne. intros Hin. apply Hn. apply home_writes_blocks in Hin. by eapply elem_of_take_1. Qed.

(** A crash during recovery leaves a disk with the same outcome. *)
Lemma recover_crash l d T k : layout l -> recoverable l d T ->
  recoverable l (apply_writes (take k (recover_writes l d)) d) T.
Proof.
  intros Hly Hrc. pose proof (head_txn_ok l d T Hly Hrc) as Hok. destruct Hrc as [Hn Hnd Hh Hnew Hold].
  set (a := lg_start l) in *. set (h := head_of l (d a)) in *. assert (Hlg : logged h = hdr_blocks (d a)) by (apply logged_head_of; lia).
  assert (Hout : forall j n, n ∉ hdr_blocks (d a) -> apply_writes (take j (home_writes h d)) d n = d n).
  { intros j n Hnn. apply home_writes_out. by rewrite Hlg. }
  assert (Hlb : forall n, lg_start l <= n < lg_start l + lg_size l -> n ∉ hdr_blocks (d a)).
  { intros n Hnn Hin. by apply (log_not_home l n Hnn), Hh. }
  destruct Hly as [_ Hs Hsz _]. unfold recover_writes. fold a h. rewrite take_app, apply_app.
  destruct (k - length (home_writes h d))%nat as [|j] eqn:Ej.
  - cbn [take apply_writes foldl]. assert (Ea : apply_writes (take k (home_writes h d)) d a = d a) by (apply Hout, Hlb; lia).
    split; fold a; rewrite ?Ea; try done.
    + intros t b Hb. pose proof Hb as Hlt%lookup_lt_Some. pose proof (hdr_blocks_length (d a) ltac:(lia)).
      rewrite Hout; [by apply Hnew|]. apply Hlb. unfold lblock. lia.
    + intros b Hb Hnb. rewrite Hout by done. by apply Hold.
  - rewrite !take_ge by (simpl; lia).
    change (apply_writes [_] ?x) with (<[a := put_head (d a) []]> x). set (X := <[a := _]> _).
    assert (Ea : X a = put_head (d a) []) by apply fn_lookup_insert.
    assert (Hb0 : hdr_blocks (X a) = []) by (rewrite Ea; apply hdr_blocks_put; [done|by intros ? ?%not_elem_of_nil]).
    split; fold a; rewrite ?Hb0; try done.
    + rewrite Ea, hdr_n_put by done. simpl. lia.
    + constructor.
    + by intros b ?%not_elem_of_nil.
    + intros b Hb _. assert (Hne : b <> a) by (intros ->; destruct Hb; lia). unfold X.
      rewrite fn_lookup_insert_ne by done. destruct (decide (b ∈ hdr_blocks (d a))) as [Hin|Hnin].
      * apply list_elem_of_lookup in Hin as [t Ht]. rewrite (home_writes_at h d t b d Hok) by (by rewrite Hlg).
        by apply Hnew.
      * specialize (Hout (length (home_writes h d)) b Hnin). rewrite take_ge in Hout by done. rewrite Hout. by apply Hold.
Qed.

(** With the header cleared the disk is what recovery produces. *)
Lemma recover_done l d T b : layout l -> recoverable l d T -> home l b -> apply_writes (recover_writes l d) d b = T b.
Proof.
  intros Hly Hrc Hb. pose proof (recover_crash l d T (length (recover_writes l d)) Hly Hrc) as Hr.
  rewrite take_ge in Hr by done. apply (rc_old _ _ _ Hr); [done|]. unfold recover_writes.
  rewrite apply_snoc. cbn [fst snd]. rewrite fn_lookup_insert, hdr_blocks_put by (done || by intros ? ?%not_elem_of_nil).
  apply not_elem_of_nil.
Qed.

(** Recovery on a cache that holds nothing yet. *)
Lemma recover_run l d T w c : layout l -> recoverable l d T -> rep c d d [] ∅ w ->
  exists c', recover_from_log (mk_lst l c) = Ret tt (mk_lst (set_n 0 (head_of l (d (lg_start l)))) c') /\
    let ws := recover_writes l d in
    rep c' (apply_writes ws d) (apply_writes ws d) [] (unpin (hdr_blocks (d (lg_start l))) ∅) (w ++ ws).
Proof.
  intros Hly Hrc Hrep. pose proof (head_txn_ok l d T Hly Hrc) as Hok. pose proof Hly as [Hdev Hs Hsz Hlen].
  pose proof (rc_n _ _ _ Hrc) as Hn. set (a := lg_start l) in *. unfold recover_from_log, LOGSIZE, MAXOPBLOCKS in *.
  destruct (read_head_run l d d ∅ w c) as (c1 & R1 & Hrep1); try done; try (fold a; lia); [rewrite dom_empty_L, size_empty; unfold NBUF; lia|].
  rewrite (bind_Ret _ _ _ _ _ R1). fold a. set (h := head_of l (d a)) in *.
  assert (Hlg : logged h = hdr_blocks (d a)) by (apply logged_head_of; lia).
  assert (Hroom : (size (dom (∅ : gmap Z Z) ∪ list_to_set (logged h) : gset Z) < NBUF)%nat).
  { rewrite dom_empty_L, (left_id_L ∅ (∪)), size_list_to_set by apply Hok. rewrite Hlg.
    pose proof (hdr_blocks_length (d a)). unfold NBUF. lia. }
  destruct (install_run h Hok d d ∅ w c1 Hrep1) as (c2 & R2 & Hrep2); [by intros|done|by rewrite dom_empty_L|].
  rewrite (bind_Ret _ _ _ _ _ R2). unfold bind at 1, mod_log, modify. cbn [lg ca].
  destruct (write_head_run (set_n 0 h) _ _ _ _ c2 (txn_ok_empty h Hok) Hrep2) as (c3 & R3 & Hrep3).
  { eapply Nat.le_lt_trans; [apply subseteq_size, unpin_dom|done]. }
  exists c3. split; [exact R3|]. change (lg_start (set_n 0 h)) with a in Hrep3.
  change (logged (set_n 0 h)) with (@nil Z) in Hrep3.
  rewrite <- (take_ge (home_writes h d) (length (home_writes h d))) in Hrep3 at 2 by done.
  assert (Ea : apply_writes (home_writes h d) d a = d a).
  { rewrite <- (take_ge (home_writes h d) (length (home_writes h d))) by done.
    apply home_writes_out, (start_not_logged h), Hok. }
  unfold recover_writes. fold a h. rewrite apply_snoc, app_assoc. cbn [fst snd]. rewrite <- Hlg.
  rewrite !take_ge, Ea in Hrep3 by done. exact Hrep3.
Qed.

(** Between two transactions the header on the disk is empty, and only the
    blocks of the transaction differ from it. *)
Lemma commit_crash l vw dk k :
  layout l -> txn_ok l -> hdr_n (dk (lg_start l)) = 0 ->
  (forall b, home l b -> b ∉ logged l -> vw b = dk b) ->
  recoverable l (apply_writes (take k (commit_writes l vw)) dk) (if decide (k <= length (logged l))%nat then dk else vw).
Proof.
  intros Hly Hok H0 Hcl. set (a := lg_start l) in *. set (n := length (logged l)).
  assert (Hlw : length (log_writes l vw) = n) by (unfold log_writes; by rewrite length_imap).
  unfold commit_writes. fold a. rewrite take_app, apply_app, Hlw.
  destruct (decide (k <= n)%nat) as [Hk|Hk].
  - replace (k - n)%nat with O by lia. change (apply_writes (take 0 _) ?x) with x.
    set (X := apply_writes _ dk).
    assert (HX : forall m, ~ (a < m < a + lg_size l) -> X m = dk m).
    { intros m Hm. apply apply_ne. intros Hin. by apply Hm, (log_writes_blocks l Hok vw k). }
    assert (Ea : X a = dk a) by (apply HX; lia). split; fold a; rewrite ?Ea, ?hdr_blocks_zero, ?H0 by done; try done.
    + destruct Hly. lia.
    + constructor.
    + by intros b ?%not_elem_of_nil.
    + intros b [_ Hb] _. apply HX. fold a in Hb. lia.
  - destruct (k - n)%nat as [|j] eqn:Ej; [lia|]. rewrite (take_ge (log_writes l vw)) by lia.
    set (L := apply_writes (log_writes l vw) dk). cbn [take app].
    change (apply_writes ((a, ?h) :: ?ws) L) with (apply_writes ws (<[a := h]> L)). set (hd := put_head (vw a) (logged l)).
    assert (Hhd : hdr_blocks hd = logged l).
    { apply hdr_blocks_put; [|intros b Hb; by apply (tx_home l Hok)]. rewrite (logged_length l Hok). destruct Hok. lia. }
    assert (Hrc : recoverable l (<[a := hd]> L) vw).
    { split; fold a; rewrite ?fn_lookup_insert, ?Hhd.
      - unfold hd. rewrite hdr_n_put; rewrite (logged_length l Hok); destruct Hok; lia.
      - apply Hok.
      - apply Hok.
      - intros t b Hb. destruct (lblock_range l Hok t b Hb). rewrite fn_lookup_insert_ne by (unfold a; lia).
        by apply log_writes_at.
      - intros b [Hb0 Hb] Hnb. assert (Hba : b <> a) by (unfold a; destruct Hok; lia). rewrite fn_lookup_insert_ne by done.
        unfold L. rewrite log_writes_out by (done || lia). symmetry. by apply Hcl. }
    pose proof (recover_crash l _ _ j Hly Hrc) as Hr. eapply recoverable_ext; [|exact Hr]. intros m. do 2 f_equal.
    unfold recover_writes. fold a. rewrite fn_lookup_insert. f_equal.
    unfold home_writes, new_writes. rewrite logged_head_of by (unfold hd; rewrite hdr_n_put; rewrite (logged_length l Hok); destruct Hok; lia).
    rewrite Hhd. apply list_eq. intros t. rewrite list_lookup_imap, list_lookup_fmap.
    destruct (logged l !! t) as [b|] eqn:Hb; [|done]. simpl. do 2 f_equal.
    symmetry. by apply (rc_new _ _ _ Hrc t b); fold a; rewrite fn_lookup_insert, Hhd.
Qed.

End log.
End Log.
