(* ===== verification/Txn.v ===== *)
(** Transactions, what [log.c] promises to the file system.

    [commit] is atomic under crashes, also crashes during recovery; and the
    system calls between [begin_op] and [end_op] see a disk ([view]) that
    becomes the durable one when the last of them leaves. *)

From stdpp Require Import functions.
From S2P Require Import Prelude Mem Blk Log Bio.
Import Blk Log.

Module Txn.

Section txn.
Context {C : Type} `{BC : BlockCache C}.

(** The log's memory when the machine starts. *)
Definition boot_log : logst := mk_log 0 0 0 0 0 0 (replicate (Z.to_nat LOGSIZE) 0).

(** The disk [d'] after any number of attempts to boot from [d], each crashing
    after some of the writes of [initlog]. *)
Inductive reboots (start size : Z) (d : Z -> block) : (Z -> block) -> Prop :=
| reboots_none : reboots start size d d
| reboots_again d1 c w s vw dk pin ws k :
    reboots start size d d1 -> rep c d1 d1 [] ∅ w ->
    initlog ROOTDEV start size (mk_lst boot_log c) = Ret tt s -> rep (ca s) vw dk [] pin (w ++ ws) ->
    reboots start size d (apply_writes (take k ws) d1).

(** [initlog] on a disk from which [T] can be recovered. *)
Lemma initlog_run l d T w c : layout l -> recoverable l d T -> rep c d d [] ∅ w ->
  exists s, initlog ROOTDEV (lg_start l) (lg_size l) (mk_lst boot_log c) = Ret tt s /\
    lg_start (lg s) = lg_start l /\ lg_size (lg s) = lg_size l /\ lh_n (lg s) = 0 /\ layout (lg s) /\
    outstanding (lg s) = 0 /\ committing (lg s) = 0 /\
    let ws := recover_writes l d in
    rep (ca s) (apply_writes ws d) (apply_writes ws d) [] (unpin (hdr_blocks (d (lg_start l))) ∅) (w ++ ws).
Proof.
  intros Hly Hrc Hrep. pose proof Hly as [_ Hs Hsz _]. unfold initlog.
  change (BSIZE <=? 124) with false. cbn iota. unfold bind at 1, mod_log, modify. cbn [lg ca].
  rewrite !s32_small by lia. set (l1 := mk_log _ _ _ _ _ _ _).
  assert (Hly1 : layout l1) by (split; done || apply Hly).
  assert (Hrc1 : recoverable l1 d T) by (destruct Hrc; by split).
  destruct (recover_run l1 d T w c Hly1 Hrc1 Hrep) as (c' & Hrun & Hrep'). eexists. split; [exact Hrun|].
  cbn [lg ca lg_start lg_size lh_n set_n head_of set_blocks outstanding committing l1 boot_log]. split_and!; try done.
  - split; try done; try apply Hly. unfold alen. cbn [lh_block set_n head_of set_blocks l1].
    rewrite length_app, length_drop. pose proof (hdr_blocks_length (d (lg_start l1))) as Hl.
    pose proof (rc_n _ _ _ Hrc) as Hn. change (lg_start l1) with (lg_start l) in *. cbn [boot_log lh_block].
    rewrite length_replicate. lia.
  - assert (E : recover_writes l1 d = recover_writes l d); [|by rewrite <- E].
    unfold recover_writes. f_equal. unfold home_writes. rewrite !logged_head_of by apply Hrc1. done.
Qed.

(** Crashes on the way do not change what is recovered. *)
Lemma reboots_recoverable l d d' T : layout l -> recoverable l d T -> reboots (lg_start l) (lg_size l) d d' -> recoverable l d' T.
Proof.
  intros Hly Hrc Hre. induction Hre as [|d1 c w s vw dk pin ws k Hre IH Hrep Hrun Hrep']; [done|].
  destruct (initlog_run l d1 T w c Hly IH Hrep) as (s1 & Hrun1 & _ & _ & _ & _ & _ & _ & Hrep1).
  rewrite Hrun1 in Hrun. injection Hrun as ->. pose proof (rep_writes _ _ _ _ _ _ _ _ _ _ _ Hrep1 Hrep') as E.
  apply app_inv_head in E as <-. by apply recover_crash.
Qed.

End txn.

(** ** The references a transaction holds *)

Definition pins (bs : list Z) : gmap Z Z := list_to_map ((fun b => (b, 1)) <$> bs).

Lemma pins_fst (bs : list Z) : ((fun b => (b, 1)) <$> bs).*1 = bs.
Proof. rewrite <- list_fmap_compose. by apply list_fmap_id. Qed.

Lemma dom_pins bs : dom (pins bs) = list_to_set bs.
Proof. unfold pins. rewrite dom_list_to_map_L. by rewrite pins_fst. Qed.

Lemma pinv_pins_in bs b : b ∈ bs -> pinv (pins bs) b = 1.
Proof.
  unfold pinv, pins. induction bs as [|x bs IH]; [by intros ?%not_elem_of_nil|]. intros Hb. simpl.
  destruct (decide (b = x)) as [->|Hne]; [by rewrite lookup_insert_eq|].
  rewrite lookup_insert_ne by done. apply IH. by apply elem_of_cons in Hb as [|].
Qed.
Lemma pinv_pins_out bs b : b ∉ bs -> pinv (pins bs) b = 0.
Proof. intros Hb. unfold pinv, pins. rewrite not_elem_of_list_to_map_1; [done|]. by rewrite pins_fst. Qed.

Lemma pins_snoc bs b : b ∉ bs -> pin_add b 1 (pins bs) = pins (bs ++ [b]).
Proof.
  intros Hb. unfold pin_add. rewrite pinv_pins_out by done. simpl. unfold pins. rewrite fmap_app. simpl.
  rewrite list_to_map_snoc; [done|]. by rewrite pins_fst.
Qed.

Lemma unpin_pins bs : NoDup bs -> unpin bs (pins bs) = ∅.
Proof.
  induction bs as [|b bs IH]; [done|]. intros [Hb Hnd]%NoDup_cons.
  change (unpin bs (pin_add b (-1) (<[b := 1]> (pins bs))) = ∅). unfold pin_add.
  assert (E : pinv (<[b := 1]> (pins bs)) b = 1) by (unfold pinv; by rewrite lookup_insert_eq). rewrite E. simpl.
  rewrite delete_insert_id; [by apply IH|]. unfold pins. apply not_elem_of_list_to_map_1. by rewrite pins_fst.
Qed.

Section commits.
Context {C : Type} `{BC : BlockCache C}.

(** A transaction ready to commit: the disk has an empty header, and the view
    differs from it in the blocks of the transaction only. *)
Record ready (s : lst) (vw dk : Z -> block) (w : list (Z * block)) : Prop := {
  rd_layout : layout (lg s);
  rd_txn : txn_ok (lg s);
  rd_hdr : hdr_n (dk (lg_start (lg s))) = 0;
  rd_rep : rep (ca s) vw dk [] (pins (logged (lg s))) w }.

Lemma ready_pins s vw dk w : ready s vw dk w ->
  (forall b, b ∈ logged (lg s) -> 0 < pinv (pins (logged (lg s))) b) /\
  (size (dom (pins (logged (lg s)))) < NBUF)%nat /\
  (forall n, n ∈ dom (pins (logged (lg s))) -> ~ (lg_start (lg s) <= n < lg_start (lg s) + lg_size (lg s))).
Proof.
  intros [Hly Hok _ _]. split_and!.
  - intros b Hb. rewrite pinv_pins_in by done. lia.
  - rewrite dom_pins, size_list_to_set by apply Hok. pose proof (logged_length _ Hok). pose proof (ly_size _ Hly).
    pose proof (tx_n _ Hok). unfold NBUF, LOGSIZE, MAXOPBLOCKS in *. lia.
  - intros n. rewrite dom_pins, elem_of_list_to_set. apply Hok.
Qed.

Lemma ready_clean s vw dk w b : ready s vw dk w -> b ∉ logged (lg s) -> vw b = dk b.
Proof. intros [_ _ _ Hrep] Hb. apply (rep_clean _ _ _ _ _ _ _ Hrep); [by apply not_elem_of_nil|by apply pinv_pins_out]. Qed.

Lemma commit_writes_view l vw dk b : txn_ok l -> home l b -> (b ∉ logged l -> vw b = dk b) ->
  apply_writes (commit_writes l vw) vw b = vw b /\ apply_writes (commit_writes l vw) dk b = vw b.
Proof.
  intros Hok [Hr Hb] Hcl. assert (Hne : b <> lg_start l) by (destruct Hok; lia).
  assert (E : forall d, apply_writes (commit_writes l vw) d b = if decide (b ∈ logged l) then vw b else d b).
  { intros d. unfold commit_writes. rewrite !apply_app, !apply_one. cbn [fst snd].
    rewrite fn_lookup_insert_ne by done. destruct (decide (b ∈ logged l)) as [Hin|Hout]; [by apply new_writes_at|].
    rewrite new_writes_out, fn_lookup_insert_ne by done. apply log_writes_out; [done|lia]. }
  rewrite !E. destruct (decide (b ∈ logged l)); [done|]. by rewrite Hcl.
Qed.

Lemma commit_header l vw d : apply_writes (commit_writes l vw) d (lg_start l) = put_head (put_head (vw (lg_start l)) (logged l)) [].
Proof.
  unfold commit_writes. rewrite !app_assoc, apply_snoc. cbn [fst snd]. apply fn_lookup_insert.
Qed.

(** [commit] leaves an empty transaction, the view unchanged and on the disk. *)
Lemma commit_ready s vw dk w : ready s vw dk w -> 0 < lh_n (lg s) ->
  let ws := commit_writes (lg s) vw in
  exists s' vw' dk', commit s = Ret tt s' /\ lg s' = set_n 0 (lg s) /\ ready s' vw' dk' (w ++ ws) /\
    forall b, home (lg s) b -> vw' b = vw b /\ dk' b = vw b.
Proof.
  intros Hrd Hn ws. destruct (ready_pins _ _ _ _ Hrd) as (H1 & H2 & H3). pose proof Hrd as [Hly Hok H0 Hrep].
  destruct s as [l c]. cbn [lg ca] in *.
  destruct (commit_run l vw dk _ w c Hok Hn Hrep H1 H2 H3) as (c' & Hrun & Hrep').
  eexists _, _, _. split; [exact Hrun|]. split; [done|]. split.
  - split; cbn [lg ca].
    + destruct Hly. by split.
    + by apply txn_ok_empty.
    + change (lg_start (set_n 0 l)) with (lg_start l). rewrite commit_header. by apply hdr_n_put.
    + rewrite unpin_pins in Hrep' by apply Hok. exact Hrep'.
  - intros b Hb. apply commit_writes_view; [done|done|]. intros Hnb. by apply (ready_clean _ _ _ _ b Hrd).
Qed.

(** C1: [commit] is atomic. Whatever prefix of its block writes reaches the disk
    before a crash, and however often the machine crashes again while
    recovering, the next boot recovers a disk that is, outside the log, either
    the one before the commit (when the crash came before the header was
    written) or the committed one. Without a crash the committed view is on the
    disk and the log is empty. *)
Theorem commit_crash_atomic s vw dk w :
  ready s vw dk w -> 0 < lh_n (lg s) ->
  exists s' ws vw' dk', commit s = Ret tt s' /\ lg s' = set_n 0 (lg s) /\ ready s' vw' dk' (w ++ ws) /\
    (forall b, home (lg s) b -> vw' b = vw b /\ dk' b = vw b) /\
    forall k d c0 w0, reboots (lg_start (lg s)) (lg_size (lg s)) (apply_writes (take k ws) dk) d ->
      rep c0 d d [] ∅ w0 ->
      exists s0 d0 pin0 w1, initlog ROOTDEV (lg_start (lg s)) (lg_size (lg s)) (mk_lst boot_log c0) = Ret tt s0 /\
        rep (ca s0) d0 d0 [] pin0 w1 /\
        forall b, home (lg s) b -> d0 b = if decide (k <= length (logged (lg s)))%nat then dk b else vw b.
Proof.
  intros Hrd Hn. destruct (commit_ready s vw dk w Hrd Hn) as (s' & vw' & dk' & Hrun & Hlg & Hrd' & Hv).
  exists s', (commit_writes (lg s) vw), vw', dk'. split_and!; try done. intros k d c0 w0 Hre Hrep0.
  pose proof Hrd as [Hly Hok H0 _].
  pose proof (commit_crash (lg s) vw dk k Hly Hok H0 ltac:(intros b _ Hb; by apply (ready_clean _ _ _ _ b Hrd))) as Hrc.
  pose proof (reboots_recoverable _ _ _ _ Hly Hrc Hre) as Hrc'.
  destruct (initlog_run (lg s) d _ w0 c0 Hly Hrc' Hrep0) as (s0 & Hrun0 & _ & _ & _ & _ & _ & _ & Hrep1).
  eexists s0, _, _, _. split; [exact Hrun0|]. split; [exact Hrep1|]. intros b Hb.
  rewrite (recover_done _ _ _ _ Hly Hrc' Hb). by destruct (decide _).
Qed.

End commits.

(** ** Operations between [begin_op] and [end_op] *)

Section ops.
Context {C : Type} `{BC : BlockCache C}.

(** The log and the disk while the system calls with the remaining credits [R]
    are inside a transaction: [V] is what they see, [D] what a crash leaves,
    [L] the blocks of the transaction and [H] the buffers held. *)
Record txn (s : lst (C := C)) (V D : Z -> block) (L : list Z) (H : list (nat * Z)) (R : list Z) (w : list (Z * block)) : Prop := {
  tn_layout : layout (lg s);
  tn_txn : txn_ok (lg s);
  tn_logged : logged (lg s) = L;
  tn_out : outstanding (lg s) = alen R;
  tn_committing : committing (lg s) = 0;
  tn_credit : Forall (fun r => 0 <= r <= MAXOPBLOCKS) R;
  tn_space : lh_n (lg s) + foldr Z.add 0 R <= LOGSIZE;
  tn_idle : R = [] -> L = [];
  tn_held : forall i n, (i, n) ∈ H -> home (lg s) n;
  tn_hdr : hdr_n (D (lg_start (lg s))) = 0;
  tn_rep : rep (ca s) V D H (pins L) w }.

Lemma credit_sum R : Forall (fun r => 0 <= r <= MAXOPBLOCKS) R -> 0 <= foldr Z.add 0 R <= MAXOPBLOCKS * alen R.
Proof.
  unfold alen. induction 1 as [|r R Hr _ IH]; simpl; [lia|]. unfold MAXOPBLOCKS in *. lia.
Qed.

Lemma sum_snoc R r : foldr Z.add 0 (R ++ [r]) = foldr Z.add 0 R + r.
Proof. induction R as [|x R IH]; simpl; [lia|]. rewrite IH. lia. Qed.

Lemma sum_insert R i r r' : R !! i = Some r -> foldr Z.add 0 (<[i := r']> R) = foldr Z.add 0 R - r + r'.
Proof.
  revert i. induction R as [|x R IH]; intros i Hi; [done|]. destruct i as [|i]; simpl in *.
  - injection Hi as ->. lia.
  - rewrite (IH i) by done. lia.
Qed.

Lemma sum_delete R i r : R !! i = Some r -> foldr Z.add 0 (delete i R) = foldr Z.add 0 R - r.
Proof.
  revert i. induction R as [|x R IH]; intros i Hi; [done|]. destruct i as [|i]; simpl in *.
  - injection Hi as ->. lia.
  - change (x + foldr Z.add 0 (delete i R) = x + foldr Z.add 0 R - r). rewrite (IH i) by done. lia.
Qed.

Lemma sum_ge R i r : Forall (fun r => 0 <= r <= MAXOPBLOCKS) R -> R !! i = Some r -> r <= foldr Z.add 0 R.
Proof.
  intros HR. revert i. induction HR as [|x R Hx HR IH]; intros i Hi; [done|]. pose proof (credit_sum R HR).
  destruct i as [|i]; simpl in *; [injection Hi as ->; lia|]. specialize (IH i Hi). lia.
Qed.

(** [begin_op] that does not sleep reserves room for one more system call. *)
Lemma begin_spec s V D L H R w : txn s V D L H R w ->
  exists b s', begin_op s = Ret b s' /\ (if b then txn s' V D L H (R ++ [MAXOPBLOCKS]) w else (s' = s)) /\
    (b = true <-> lh_n (lg s) + (alen R + 1) * MAXOPBLOCKS <= LOGSIZE).
Proof.
  intros Ht. pose proof Ht as [Hly Hok HL Ho Hc Hcr Hsp Hid Hh H0 Hrep]. unfold begin_op, bind at 1, gets at 1.
  rewrite Hc, Ho. cbn [negb Z.eqb]. destruct (Z.ltb_spec LOGSIZE (lh_n (lg s) + (alen R + 1) * MAXOPBLOCKS)) as [Hf|Hf].
  - exists false, s. split_and!; try done. split; [done|lia].
  - eexists true, _. split; [reflexivity|]. split; [|split; [lia|done]]. pose proof (credit_sum R Hcr).
    split; cbn [lg ca lg_start set_outstanding outstanding committing lh_n]; try done.
    + destruct Hly. by split.
    + destruct Hok. by split.
    + unfold alen. rewrite length_app. simpl. unfold alen in Ho. lia.
    + apply Forall_app. split; [done|]. constructor; [|done]. unfold MAXOPBLOCKS. lia.
    + rewrite sum_snoc. unfold MAXOPBLOCKS, LOGSIZE in *. lia.
    + by destruct R.
Qed.

(** The search for a block already in the transaction. *)
Lemma absorb_run (s : lst (C := C)) n : txn_ok (lg s) -> 0 <= n < 2 ^ 31 -> forall fuel i, 0 <= i -> i + Z.of_nat fuel = lh_n (lg s) ->
  (forall j, (j < Z.to_nat i)%nat -> logged (lg s) !! j <> Some n) ->
  exists k, absorb fuel i (lh_n (lg s)) n s = Ret k s /\
    (logged (lg s) !! Z.to_nat k = Some n /\ 0 <= k < lh_n (lg s) \/ (n ∉ logged (lg s)) /\ k = lh_n (lg s)).
Proof.
  intros Hok Hn. pose proof (logged_length _ Hok) as Hlen.
  induction fuel as [|fuel IH]; intros i Hi Hf Hnot; cbn [absorb].
  - exists i. split; [done|]. right. split; [|lia]. intros [j Hj]%list_elem_of_lookup.
    apply (Hnot j); [|done]. apply lookup_lt_Some in Hj. lia.
  - rewrite (proj2 (Z.ltb_lt _ _)) by lia. destruct (lookup_lt_is_Some_2 (logged (lg s)) (Z.to_nat i)) as [b Hb]; [lia|].
    pose proof (get_block_run s _ b Hb) as R1. rewrite Z2Nat.id in R1 by lia. rewrite (bind_Ret _ _ _ _ _ R1).
    destruct (home_u32 (lg s) Hok _ _ Hb) as [Hbu _]. rewrite Hbu. destruct (Z.eqb_spec b n) as [->|Hne].
    + exists i. split; [done|]. left. split; [done|lia].
    + apply IH; [lia|lia|]. intros j Hj. destruct (decide (j = Z.to_nat i)) as [->|].
      * rewrite Hb. congruence.
      * apply Hnot. lia.
Qed.

Lemma logged_snoc l b : txn_ok l -> lh_n l < alen (lh_block l) ->
  logged (set_n (lh_n l + 1) (set_blocks (aset (lh_block l) (lh_n l) b) l)) = logged l ++ [b].
Proof.
  intros Hok Hl. unfold logged. cbn [lh_n lh_block set_n set_blocks]. pose proof (tx_n _ Hok). unfold alen in Hl.
  rewrite <- (Z2Nat.id (lh_n l)) at 2 by lia. rewrite aset_of_nat.
  replace (Z.to_nat (lh_n l + 1)) with (S (Z.to_nat (lh_n l))) by lia.
  rewrite (take_S_r _ _ b) by (apply list_lookup_insert_eq; lia). by rewrite take_insert_ge by lia.
Qed.

(** [log_write] of a held block: absorbed, or added at the cost of one credit. *)
Lemma log_write_spec s V D L H R w i n j r :
  txn s V D L H R w -> (i, n) ∈ H -> R !! j = Some r -> (n ∉ L -> 0 < r) -> lh_n (lg s) < lg_size (lg s) - 1 ->
  exists s', log_write i s = Ret tt s' /\
    if decide (n ∈ L) then txn s' V D L H R w else txn s' V D (L ++ [n]) H (<[j := r - 1]> R) w.
Proof.
  intros Ht Hin Hj Hr Hn. pose proof Ht as [Hly Hok HL Ho Hc Hcr Hsp Hid Hh H0 Hrep].
  pose proof (sum_ge R j r Hcr Hj) as Hge. pose proof (lookup_lt_Some _ _ _ Hj) as HjR.
  assert (Hlen : lh_n (lg s) < alen (lh_block (lg s))) by (rewrite (ly_len _ Hly); pose proof (ly_size _ Hly); lia).
  destruct (Hh i n Hin) as [Hn0 Hnl]. unfold log_write, bind at 1, gets at 1.
  rewrite !(proj2 (Z.leb_gt _ _)), (proj2 (Z.ltb_ge _ _)) by (rewrite ?Ho; pose proof (ly_size _ Hly); unfold alen; lia). cbn [orb].
  rewrite (bind_Ret _ _ _ _ _ (cache_run _ s _ _ (bblockno_ok _ _ _ _ _ _ _ _ Hrep Hin))). destruct s as [l c]. cbn [lg ca] in *.
  pose proof (tx_n _ Hok). destruct (absorb_run (mk_lst l c) n Hok Hn0 (Z.to_nat (lh_n l)) 0) as (k & Hrun & Hk);
    [lia|cbn [lg]; lia|intros; lia|]. cbn [lg] in *.
  rewrite (bind_Ret _ _ _ _ _ Hrun), s32_small by lia. destruct Hk as [[Hk Hkr]|[Hk ->]].
  - rewrite (bind_Ret _ _ _ _ _ (put_block_run l c k n ltac:(lia))), (proj2 (Z.eqb_neq _ _)) by lia. cbn [when].
    assert (E : set_blocks (aset (lh_block l) k n) l = l).
    { rewrite <- (Z2Nat.id k), aset_of_nat by lia. unfold logged in Hk. apply lookup_take_Some in Hk as [Hk _].
      rewrite list_insert_id by done. by destruct l. }
    rewrite E. eexists. split; [reflexivity|]. rewrite HL in Hk.
    rewrite decide_True by (by eapply list_elem_of_lookup_2). done.
  - rewrite (bind_Ret _ _ _ _ _ (put_block_run l c (lh_n l) n ltac:(lia))), Z.eqb_refl. cbn [when]. rewrite HL in Hk.
    destruct (bpin_ok _ _ _ _ _ _ i n Hrep Hin) as (c' & Hpin & Hrep'); [rewrite pinv_pins_out by done; lia|].
    rewrite (bind_Ret _ _ _ _ _ (cache_run _ (mk_lst _ c) _ _ Hpin)). eexists. split; [reflexivity|].
    rewrite decide_False by done. specialize (Hr Hk). cbn [lg ca]. pose proof (logged_snoc l n Hok Hlen) as El. rewrite HL in El.
    split; cbn [lg ca]; try done.
    + destruct Hly as [? ? ? Hl30]. split; cbn; try done. by rewrite alen_aset.
    + destruct Hok as [? ? ? ? ? Hnd Hho]. split; rewrite ?El; cbn [lg_dev lg_start lg_size lh_n lh_block set_n set_blocks]; try done.
      * lia.
      * rewrite alen_aset. lia.
      * rewrite HL in Hnd. apply NoDup_app. split_and!; [done| |apply NoDup_singleton].
        intros b Hb ->%list_elem_of_singleton. done.
      * intros b [Hb|Hb]%elem_of_app; [apply Hho; by rewrite HL|]. apply list_elem_of_singleton in Hb as ->. done.
    + cbn. unfold alen in *. by rewrite length_insert.
    + apply Forall_insert; [done|]. rewrite Forall_lookup in Hcr. specialize (Hcr j r Hj). simpl in *. lia.
    + cbn [lh_n set_n]. rewrite (sum_insert R j r) by done. lia.
    + intros E. destruct R; [done|]. by destruct j.
    + by rewrite <- pins_snoc.
Qed.

(** Leaving while others are inside. *)
Lemma end_other_spec s V D L H R w j r :
  txn s V D L H R w -> R !! j = Some r -> (1 < length R)%nat ->
  exists s', end_op s = Ret tt s' /\ txn s' V D L H (delete j R) w.
Proof.
  intros Ht Hj HR. pose proof Ht as [Hly Hok HL Ho Hc Hcr Hsp Hid Hh H0 Hrep].
  pose proof (length_delete R j ltac:(by eexists)) as Hd.
  unfold end_op, end_op_leave, bind, mod_log, modify, gets. cbn [lg committing outstanding set_outstanding]. rewrite Hc. cbn [negb Z.eqb].
  rewrite (proj2 (Z.eqb_neq _ _)) by (rewrite Ho; unfold alen; lia). cbn [when ret]. eexists. split; [reflexivity|].
  split; cbn [lg ca outstanding committing lh_n lg_start set_outstanding]; try done.
  - destruct Hly. by split.
  - destruct Hok. by split.
  - unfold alen in *. lia.
  - by apply Forall_delete.
  - rewrite (sum_delete R j r) by done. rewrite Forall_lookup in Hcr. specialize (Hcr j r Hj). simpl in Hcr. lia.
  - intros E. rewrite E in Hd. simpl in Hd. lia.
Qed.

(** The last to leave commits: what was seen is now durable. *)
Lemma end_last_spec s V D L w r :
  txn s V D L [] [r] w ->
  exists s' V' w', end_op s = Ret tt s' /\ txn s' V' V' [] [] [] w' /\
    lg_start (lg s') = lg_start (lg s) /\ lg_size (lg s') = lg_size (lg s) /\ forall b, home (lg s) b -> V' b = V b.
Proof.
  intros [Hly Hok HL Ho Hc Hcr Hsp Hid Hh H0 Hrep].
  unfold end_op. set (l1 := set_committing 1 (set_outstanding 0 (lg s))).
  assert (Hleave : end_op_leave s = Ret true (mk_lst l1 (ca s))).
  { unfold end_op_leave, bind, mod_log, modify, gets. cbn [lg committing outstanding set_outstanding]. by rewrite Hc, Ho. }
  rewrite (bind_Ret _ _ _ _ _ Hleave). cbn [when].
  assert (Hok1 : txn_ok l1) by (destruct Hok; by split). assert (Hly1 : layout l1) by (destruct Hly; by split).
  assert (Hend : exists c' V' w', commit (mk_lst l1 (ca s)) = Ret tt (mk_lst (set_n 0 l1) c') /\ rep c' V' V' [] ∅ w' /\
    hdr_n (V' (lg_start l1)) = 0 /\ forall b, home l1 b -> V' b = V b).
  { destruct (decide (0 < lh_n l1)) as [Hn|Hn].
    - assert (Hrd : ready (mk_lst l1 (ca s)) V D w) by (split; try done; cbn [lg ca]; change (logged l1) with (logged (lg s)); by rewrite HL).
      destruct (commit_ready _ _ _ _ Hrd Hn) as (s' & V' & D' & Hrun & Hlg & Hrd' & HV). destruct s' as [l' c']. cbn [lg] in *. subst l'.
      pose proof Hrd' as [_ _ H0' Hrep']. change (rep c' V' D' [] ∅ (w ++ commit_writes l1 V)) in Hrep'. cbn [lg lg_start set_n] in H0'.
      assert (E : forall b, D' b = V' b) by (intros b; symmetry; apply (rep_clean _ _ _ _ _ _ _ Hrep'); [by apply not_elem_of_nil|done]).
      exists c', V', (w ++ commit_writes l1 V). split_and!; [done| |by rewrite <- E|intros b Hb; by apply HV].
      eapply rep_ext; [exact Hrep'|done|]. intros b. by rewrite E.
    - pose proof (tx_n _ Hok1) as Hnn. assert (E0 : lh_n l1 = 0) by lia. assert (EL : L = []).
      { rewrite <- HL. unfold logged. change (lh_n (lg s)) with (lh_n l1). by rewrite E0. }
      subst L. rewrite EL in *.
      assert (E : forall b, V b = D b) by (intros b; apply (rep_clean _ _ _ _ _ _ _ Hrep); [by apply not_elem_of_nil|by apply pinv_pins_out, not_elem_of_nil]).
      exists (ca s), V, w. split_and!; try done.
      + unfold commit, bind at 1, gets. cbn [lg]. rewrite E0. cbn. do 2 f_equal. destruct (lg s); cbn in *. by rewrite <- E0.
      + eapply rep_ext; [exact Hrep|done|]. intros b. by rewrite E.
      + rewrite E. exact H0. }
  destruct Hend as (c' & V' & w' & Hrun & Hrep' & H0' & HV). rewrite (bind_Ret _ _ _ _ _ Hrun).
  exists (mk_lst (set_committing 0 (set_n 0 l1)) c'), V', w'. split_and!; try done.
  split; try done; cbn [lg ca].
  - destruct Hly. by split.
  - apply txn_ok_empty in Hok1. destruct Hok1. by split.
Qed.

(** A system call inside a transaction that has room for another block may
    log any buffer it holds. A block logged before is absorbed and costs
    nothing; otherwise the transaction grows by that block, one of the system
    call's [MAXOPBLOCKS] credits is used, and the reservations of the others
    still fit in the log. *)
Theorem log_write_absorbs s V D L H R w i n j r :
  txn s V D L H R w -> (i, n) ∈ H -> R !! j = Some r -> (n ∉ L -> 0 < r) -> lh_n (lg s) < lg_size (lg s) - 1 ->
  exists s', log_write i s = Ret tt s' /\
    if decide (n ∈ L) then txn s' V D L H R w else txn s' V D (L ++ [n]) H (<[j := r - 1]> R) w.
Proof. apply log_write_spec. Qed.

(** C13: when the last system call leaves, everything the transaction's system
    calls saw outside the log is durable, and the log is empty and idle. *)
Theorem end_op_commits s V D L w r :
  txn s V D L [] [r] w ->
  exists s' V' w', end_op s = Ret tt s' /\ txn s' V' V' [] [] [] w' /\ forall b, home (lg s) b -> V' b = V b.
Proof.
  intros Ht. destruct (end_last_spec s V D L w r Ht) as (s' & V' & w' & Hrun & Ht' & _ & _ & HV).
  by exists s', V', w'.
Qed.

End ops.

(** ** The log over the buffer cache *)

#[local] Existing Instance Bio.bio_cache.

(** The log of a disk made by [mkfs]: blocks 2 to 31. *)
Definition demo_log (out n : Z) (bs : list Z) : logst := mk_log 2 LOGSIZE out 0 ROOTDEV n (bs ++ replicate (30 - length bs) 0).
Definition zero_disk : Z -> block := fun _ _ => 0.
Definition zero_bst : Bio.bst := Bio.mk_bst (replicate NBUF Bio.bss_buf) (fun p => p) (fun p => p) zero_disk [] 7 1.
Definition demo_view : Z -> block := <[100 := (fun _ => 1) : block]> zero_disk.

(** Block 100 has been overwritten in the cache. *)
Lemma demo_dirty : exists (c : Bio.bst) i, rep c demo_view zero_disk [(i, 100)] ∅ [].
Proof.
  destruct (Bio.binit_spec zero_bst eq_refl) as (c & _ & Hb & Hd & Hw).
  assert (Hrep : rep c zero_disk zero_disk [] ∅ []) by (split; [exact Hb|]; by rewrite Hd, Hw).
  destruct (bread_ok c _ _ [] ∅ [] 100 Hrep) as (i & c1 & _ & Hrep1).
  - by apply not_elem_of_nil.
  - by intros j m ?%not_elem_of_nil.
  - right. rewrite busy_nil, dom_empty_L, size_empty. apply Nat.ltb_lt. reflexivity.
  - destruct (set_bdata_ok _ _ _ _ _ _ i 100 (fun _ => 1) Hrep1) as (c2 & _ & Hrep2); [by left|]. by exists c2, i.
Qed.

Lemma demo_layout out n bs : (length bs <= 30)%nat -> layout (demo_log out n bs).
Proof.
  intros Hl. split; try done. unfold alen, demo_log. cbn [lh_block]. rewrite length_app, length_replicate.
  unfold LOGSIZE, MAXOPBLOCKS. lia.
Qed.

Lemma demo_txn : exists (c : Bio.bst) i, txn (mk_lst (demo_log 1 0 []) c) demo_view zero_disk [] [(i, 100)] [10] [].
Proof.
  destruct demo_dirty as (c & i & Hrep). exists c, i. split; try done.
  - split; try done; [constructor|]. by intros b ?%not_elem_of_nil.
  - repeat constructor; unfold MAXOPBLOCKS; lia.
  - intros j n [[= -> ->]|?%not_elem_of_nil]%elem_of_cons; [|done]. split; [done|]. cbn. unfold LOGSIZE, MAXOPBLOCKS. lia.
Qed.

Lemma log_write_absorbs_witness :
  exists (c : Bio.bst) i s', log_write i (mk_lst (demo_log 1 0 []) c) = Ret tt s' /\
    txn s' demo_view zero_disk [100] [(i, 100)] [9] [].
Proof.
  destruct demo_txn as (c & i & Ht). exists c, i.
  destruct (log_write_absorbs _ _ _ _ _ _ _ i 100 0%nat 10 Ht) as (s' & Hrun & Ht'); [by left|done|done|done|].
  exists s'. split; [exact Hrun|exact Ht'].
Defined.

(** The block logged and released. *)
Lemma demo_pending : exists s : lst (C := Bio.bst), txn s demo_view zero_disk [100] [] [9] [].
Proof.
  destruct demo_txn as (c & i & Ht).
  destruct (log_write_spec _ _ _ _ _ _ _ i 100 0%nat 10 Ht) as (s' & Hrun & Ht'); [by left|done|done|done|].
  rewrite decide_False in Ht' by apply not_elem_of_nil. destruct Ht' as [Hly Hok HL Ho Hc Hcr Hsp Hid Hh H0 Hrep].
  destruct (brelse_ok _ _ _ _ _ _ i 100 Hrep) as (c2 & _ & Hrep2); [by rewrite pinv_pins_in by (by left)|].
  exists (mk_lst (lg s') c2). split; try done. by intros j n ?%not_elem_of_nil.
Qed.

Lemma end_op_commits_witness :
  exists (s s' : lst (C := Bio.bst)) V' w', txn s demo_view zero_disk [100] [] [9] [] /\
    end_op s = Ret tt s' /\ txn s' V' V' [] [] [] w'.
Proof.
  destruct demo_pending as [s Ht]. destruct (end_op_commits s demo_view zero_disk [100] [] 9 Ht) as (s' & V' & w' & Hrun & Ht' & _).
  by exists s, s', V', w'.
Defined.

Lemma commit_crash_atomic_witness :
  exists (s s' : lst (C := Bio.bst)), ready s demo_view zero_disk [] /\ commit s = Ret tt s' /\ lg s' = set_n 0 (lg s).
Proof.
  destruct demo_pending as [s [Hly Hok HL Ho Hc Hcr Hsp Hid Hh H0 Hrep]].
  assert (Hrd : ready s demo_view zero_disk []) by (split; try done; by rewrite HL).
  assert (Hn : 0 < lh_n (lg s)) by (rewrite <- (logged_length _ Hok), HL; done).
  destruct (commit_crash_atomic s demo_view zero_disk [] Hrd Hn) as (s' & ws & vw' & dk' & Hrun & Hl & _).
  by exists s, s'.
Defined.

(** [bread], [log_write] and [brelse] of a block, as the file system does. *)
Definition log_new_block (n : Z) : M (lst (C := Bio.bst)) unit :=
  let* b := cache (bread ROOTDEV n) in
  log_write b ;;;
  cache (brelse b).

(** Boot, let three system calls in, and log [n] blocks from 100 on. *)
Definition three_calls (n : nat) : M (lst (C := Bio.bst)) (bool * bool * bool) :=
  cache Bio.binit ;;;
  initlog ROOTDEV 2 LOGSIZE ;;;
  let* b1 := begin_op in
  let* b2 := begin_op in
  let* b3 := begin_op in
  for_loop n 100 log_new_block ;;;
  ret (b1, b2, b3).

(** The reservation of [begin_op] is one block short on a disk made by
    [mkfs], whose log has [LOGSIZE] blocks of which one is the header: three
    system calls that log ten blocks each, as [begin_op] lets them, end in the
    panic of [log_write] at their thirtieth block. *)
Theorem log_reservation_short :
  value (three_calls 29 (mk_lst boot_log zero_bst)) = Some (true, true, true) /\
  three_calls 30 (mk_lst boot_log zero_bst) = Panic "too big a transaction".
Proof. split; vm_compute; reflexivity. Qed.

(** Recovery loses buffers. Every block that [initlog] installs from the log
    ends in a buffer whose reference count is 2^32 - 1 although no one holds it,
    because [install_trans] drops a reference that only a running transaction
    has taken; [bget] never recycles such a buffer. *)
Theorem recovery_leaks_buffers l d T (c : Bio.bst) w :
  layout l -> recoverable l d T -> rep c d d [] ∅ w ->
  exists s, initlog ROOTDEV (lg_start l) (lg_size l) (mk_lst boot_log c) = Ret tt s /\
    forall b, b ∈ hdr_blocks (d (lg_start l)) ->
      exists i bf, Bio.bufs (ca s) !! i = Some bf /\ Bio.b_blockno bf = b /\ Bio.b_refcnt bf = 2 ^ 32 - 1 /\
        Bio.sl_locked (Bio.b_lock bf) = 0.
Proof.
  intros Hly Hrc Hrep. destruct (initlog_run l d T w c Hly Hrc Hrep) as (s & Hrun & _ & _ & _ & _ & _ & _ & Hrep').
  exists s. split; [exact Hrun|]. intros b Hb. destruct Hrep' as (Hbio & _ & _). set (pn := unpin _ _) in *.
  assert (Hp : pinv pn b = -1) by (unfold pn; rewrite unpin_eq by (done || apply Hrc); done).
  assert (Hd : b ∈ dom pn) by (apply pinv_dom; lia). apply elem_of_dom in Hd as [v Hv].
  destruct (Bio.bo_pin _ _ _ _ Hbio b v Hv) as (_ & _ & i & bf & Hbf & Hdev & Hno).
  destruct (Bio.bo_root _ _ _ _ Hbio i bf Hbf Hdev) as (_ & _ & Hr). exists i, bf. split_and!; try done.
  - rewrite Hr, Hno, Hp. reflexivity.
  - apply (Bio.bo_free _ _ _ _ Hbio i bf Hbf). apply not_elem_of_nil.
Qed.

(** A disk whose header names block 100. *)
Definition crashed_disk : Z -> block := <[2 := put_head (fun _ => 0) [100]]> zero_disk.

Lemma crashed_recoverable : recoverable (demo_log 0 0 []) crashed_disk zero_disk.
Proof.
  assert (E : hdr_blocks (crashed_disk 2) = [100]).
  { unfold crashed_disk. rewrite fn_lookup_insert. apply hdr_blocks_put; [done|]. intros b ->%list_elem_of_singleton. lia. }
  split; cbn [demo_log lg_start lg_size]; rewrite ?E.
  - unfold crashed_disk. rewrite fn_lookup_insert, hdr_n_put by done. cbn. unfold LOGSIZE, MAXOPBLOCKS. lia.
  - apply NoDup_singleton.
  - intros b ->%list_elem_of_singleton. split; [lia|]. cbn. unfold LOGSIZE, MAXOPBLOCKS. lia.
  - intros [|t] b Hb; [|done]. done.
  - intros b [Hb0 Hb] _. cbn in Hb. unfold LOGSIZE, MAXOPBLOCKS in Hb. unfold crashed_disk. rewrite fn_lookup_insert_ne by lia. done.
Qed.

Lemma recovery_leaks_buffers_witness :
  exists (c : Bio.bst) s i bf, rep c crashed_disk crashed_disk [] ∅ [] /\
    initlog ROOTDEV 2 LOGSIZE (mk_lst boot_log c) = Ret tt s /\
    Bio.bufs (ca s) !! i = Some bf /\ Bio.b_blockno bf = 100 /\ Bio.b_refcnt bf = 2 ^ 32 - 1.
Proof.
  destruct (Bio.binit_spec (Bio.mk_bst (replicate NBUF Bio.bss_buf) (fun p => p) (fun p => p) crashed_disk [] 7 1) eq_refl)
    as (c & _ & Hb & Hd & Hw).
  assert (Hrep : rep c crashed_disk crashed_disk [] ∅ []) by (split; [exact Hb|]; by rewrite Hd, Hw).
  destruct (recovery_leaks_buffers (demo_log 0 0 []) crashed_disk zero_disk c []) as (s & Hrun & Hl);
    [apply demo_layout; simpl; lia|exact crashed_recoverable|exact Hrep|].
  destruct (Hl 100) as (i & bf & H1 & H2 & H3 & _).
  { cbn [demo_log lg_start]. unfold crashed_disk. rewrite fn_lookup_insert, hdr_blocks_put; [by left|done|].
    intros b ->%list_elem_of_singleton. lia. }
  by exists c, s, i, bf.
Defined.

End Txn.
