(* ===== verification/Cbuf.v ===== *)
(** Circular buffers whose read and write positions are free-running 32-bit
    counters, as in [pipe.c] and [console.c]: the element with number [k] is in
    slot [k % N] of the array. *)

From S2P Require Import Prelude.

Module Cbuf.

(** The array [data] between the counters [r] and [w] holds the queue [q]. *)
Record cbuf {A} (N : Z) (data : list A) (r w : Z) (q : list A) : Prop := {
  cb_len : alen data = N;
  cb_r : 0 <= r < 2 ^ 32;
  cb_w : w = u32 (r + alen q);
  cb_cap : alen q <= N;
  cb_slot : forall k x, q !! k = Some x -> aget data ((r + Z.of_nat k) mod N) = Some x }.

Section cbuf.
Context {A : Type} (N : Z).
Hypothesis HN : 0 < N < 2 ^ 32.
Hypothesis Hdiv : (N | 2 ^ 32).
Implicit Types (data q : list A) (r w : Z) (x : A).

Lemma u32_slot a : u32 a mod N = a mod N.
Proof using HN Hdiv.
  unfold u32. by apply Z.mod_mod_divide.
Qed.

Lemma slot_range a : 0 <= a mod N < N.
Proof using HN Hdiv. apply Z.mod_pos_bound. lia. Qed.

Lemma cbuf_init data : alen data = N -> cbuf N data 0 0 [].
Proof using HN Hdiv. intros Hl. split; try done; unfold alen; simpl; lia. Qed.

Lemma cbuf_empty data r w q : cbuf N data r w q -> r = w <-> q = [].
Proof using HN Hdiv.
  intros [_ Hr Hw Hc _]. unfold alen, u32 in *. split.
  - intros ->. destruct q as [|x q]; [done|]. exfalso. simpl in *. revert Hw. dlia.
  - intros ->. rewrite Hw. simpl. rewrite Z.add_0_r. symmetry. by apply Z.mod_small.
Qed.

Lemma cbuf_full data r w q : cbuf N data r w q -> w = u32 (r + N) <-> alen q = N.
Proof using HN Hdiv.
  intros [_ Hr Hw Hc _]. unfold alen, u32 in *. split; [|intros <-; done]. intros E. rewrite E in Hw. revert Hw. dlia.
Qed.

Lemma cbuf_count data r w q : cbuf N data r w q -> u32 (w - r) = alen q.
Proof using HN Hdiv. intros [_ Hr -> Hc _]. unfold alen, u32 in *. dlia. Qed.

Lemma slot_neq r i j : 0 <= i < j -> j < N + i -> (r + i) mod N <> (r + j) mod N.
Proof using HN Hdiv.
  intros Hi Hj E. assert (Hd : (r + j - (r + i)) mod N = 0).
  { rewrite Zminus_mod, E, Z.sub_diag. apply Z.mod_0_l. lia. }
  replace (r + j - (r + i)) with (j - i) in Hd by lia. rewrite Z.mod_small in Hd; lia.
Qed.

Lemma cbuf_push data r w q x : cbuf N data r w q -> alen q < N ->
  cbuf N (aset data (w mod N) x) r (u32 (w + 1)) (q ++ [x]).
Proof using HN Hdiv.
  intros [Hl Hr Hw Hc Hs] Hlt. pose proof (slot_range (r + alen q)). split.
  - by rewrite alen_aset.
  - done.
  - rewrite Hw. unfold alen, u32. rewrite length_app. simpl. rewrite Zplus_mod_idemp_l. f_equal. lia.
  - unfold alen in *. rewrite length_app. simpl. lia.
  - intros k y Hk. rewrite Hw, u32_slot. apply lookup_app_Some in Hk as [Hk|[Hk Hx]].
    + rewrite aget_aset_ne; [by apply Hs| |lia]. apply lookup_lt_Some in Hk. unfold alen in *.
      apply not_eq_sym, slot_neq; lia.
    + assert (Hk' : k = length q) by (apply lookup_lt_Some in Hx; simpl in Hx; lia). subst k.
      rewrite Nat.sub_diag in Hx. injection Hx as <-. fold (alen q). apply aget_aset_eq. lia.
Qed.

Lemma cbuf_pop data r w q x : cbuf N data r w (x :: q) ->
  aget data (r mod N) = Some x /\ cbuf N data (u32 (r + 1)) w q.
Proof using HN Hdiv.
  intros [Hl Hr Hw Hc Hs]. split; [specialize (Hs O x eq_refl); by rewrite Z.add_0_r in Hs|].
  unfold alen in *. simpl in *. split; try done.
  - apply u32_range.
  - rewrite Hw. unfold alen, u32. rewrite Zplus_mod_idemp_l. f_equal. lia.
  - unfold alen. lia.
  - intros k y Hk. specialize (Hs (S k) y Hk). rewrite <- Hs. f_equal.
    rewrite <- (Zplus_mod_idemp_l (u32 _)), u32_slot, Zplus_mod_idemp_l. f_equal. lia.
Qed.

(** Taking back the element added last. *)
Lemma cbuf_unpush data r w q x : cbuf N data r w (q ++ [x]) ->
  aget data (u32 (w - 1) mod N) = Some x /\ cbuf N data r (u32 (w - 1)) q.
Proof using HN Hdiv.
  intros [Hl Hr Hw Hc Hs]. unfold alen in *. rewrite length_app in *. simpl in *.
  assert (E : u32 (w - 1) = u32 (r + Z.of_nat (length q))).
  { rewrite Hw. unfold u32. rewrite Zminus_mod_idemp_l. f_equal. lia. }
  rewrite E. split.
  - rewrite u32_slot. apply Hs. by rewrite lookup_app_r, Nat.sub_diag by lia.
  - split; try done; unfold alen; [lia|]. intros k y Hk. apply Hs. rewrite lookup_app_l; [done|by eapply lookup_lt_Some].
Qed.
End cbuf.

End Cbuf.
