(* ===== verification/Umem.v ===== *)
(** User memory as the rest of the kernel uses it.

    Pipes, the console, files and the system-call layer reach user memory only
    through [copyin] and [copyout] of [src/kernel/mm/vm.c], at most a page at a
    time. This class states what those two promise; [Vmuser.v] shows that the
    page-table code keeps the promise. *)

From S2P Require Import Prelude.

Module Umem.

Definition ULIMIT : Z := 4096.
Definition bytes (bs : list Z) : Prop := Forall (fun b => 0 <= b < 256) bs.

(** The bytes of a view up to the first address that has none. *)
Fixpoint uprefix (view : Z -> option Z) (n : nat) (va : Z) : list Z :=
  match n with
  | O => []
  | S n => match view va with Some b => b :: uprefix view n (va + 1) | None => [] end
  end.

(** [uview u va] is the byte the process reads at [va], if it has one.
    [ucopyin u va buf] pairs whether [copyin] returned 0 with what it leaves in
    the kernel's buffer, which had the bytes [buf]; [ucopyout u va bs] pairs
    whether [copyout] returned 0 with the memory it leaves. *)
Class UserMem (U : Type) := {
  uok : U -> Prop;
  uview : U -> Z -> option Z;
  ucopyin : U -> Z -> list Z -> bool * list Z;
  ucopyout : U -> Z -> list Z -> bool * U;
  uview_byte : forall u va b, uok u -> 0 <= va -> uview u va = Some b -> 0 <= b < 256;
  ucopyin_ok : forall u va buf, uok u -> 0 <= va -> alen buf <= ULIMIT -> bytes buf ->
    let got := uprefix (uview u) (length buf) va in
    ucopyin u va buf = (alen got =? alen buf, got ++ drop (length got) buf);
  ucopyout_ok : forall u va bs, uok u -> 0 <= va -> alen bs <= ULIMIT -> bytes bs ->
    exists k b u', ucopyout u va bs = (b, u') /\ uok u' /\ (k <= length bs)%nat /\ (b = true <-> k = length bs) /\
      forall a, 0 <= a -> uview u' a = if decide (va <= a < va + Z.of_nat k) then bs !! Z.to_nat (a - va) else uview u a }.

Lemma uprefix_length view n : forall va, (length (uprefix view n va) <= n)%nat.
Proof. induction n as [|n IH]; intros va; simpl; [done|]. destruct (view va); simpl; [specialize (IH (va + 1))|]; lia. Qed.

Lemma uprefix_lookup view n : forall va k b, uprefix view n va !! k = Some b -> view (va + Z.of_nat k) = Some b.
Proof.
  induction n as [|n IH]; intros va k b; simpl; [done|]. destruct (view va) as [c|] eqn:E; [|done]. destruct k as [|k]; simpl.
  - intros [= <-]. by rewrite Z.add_0_r.
  - intros Hk%IH. by replace (va + Z.of_nat (S k)) with (va + 1 + Z.of_nat k) by lia.
Qed.

(** The longest one: it ends at the first address without a byte. *)
Lemma uprefix_all view (l : list Z) n : forall va, (length l <= n)%nat ->
  (forall k b, l !! k = Some b -> view (va + Z.of_nat k) = Some b) ->
  length l = n \/ view (va + Z.of_nat (length l)) = None -> uprefix view n va = l.
Proof.
  revert l. induction n as [|n IH]; intros l va Hl Hv He.
  - by destruct l; simpl in *; [|lia].
  - simpl. destruct l as [|b l].
    + simpl in *. destruct He as [?|He]; [lia|]. rewrite Z.add_0_r in He. by rewrite He.
    + pose proof (Hv O b eq_refl) as H0. rewrite Z.add_0_r in H0. rewrite H0. f_equal. apply IH; simpl in *; [lia| |].
      * intros k c Hk. specialize (Hv (S k) c Hk). by replace (va + 1 + Z.of_nat k) with (va + Z.of_nat (S k)) by lia.
      * destruct He as [?|He]; [left; lia|right]. by replace (va + 1 + Z.of_nat (length l)) with (va + Z.of_nat (S (length l))) by lia.
Qed.

Section user.
Context {U : Type} `{UserMem U}.

(** One byte at a time. *)
Lemma ucopyin_byte u va x : uok u -> 0 <= va -> 0 <= x < 256 ->
  ucopyin u va [x] = match uview u va with Some b => (true, [b]) | None => (false, [x]) end.
Proof. intros Hu Hva Hx. rewrite ucopyin_ok by (done || by constructor). simpl. by destruct (uview u va). Qed.

Lemma ucopyout_byte u va x : uok u -> 0 <= va -> 0 <= x < 256 ->
  exists b u', ucopyout u va [x] = (b, u') /\ uok u' /\
    forall a, 0 <= a -> uview u' a = if decide (b = true /\ a = va) then Some x else uview u a.
Proof.
  intros Hu Hva Hx. destruct (ucopyout_ok u va [x] Hu Hva) as (k & b & u' & E & Hu' & Hk & Hb & Hv);
    [done|by constructor|].
  exists b, u'. split_and!; [done|done|]. intros a Ha. rewrite (Hv a Ha). simpl in *. destruct (decide (b = true)) as [->|Hne].
  - assert (k = 1%nat) as -> by (by apply Hb). destruct (decide (a = va)) as [->|Hne].
    + rewrite !decide_True by (done || lia). by rewrite Z.sub_diag.
    + rewrite !decide_False by (lia || tauto). done.
  - assert (k = 0%nat) as -> by (destruct k as [|[|]]; [done| |lia]; exfalso; apply Hne; by apply Hb).
    rewrite !decide_False by (lia || tauto). done.
Qed.
End user.

(** A flat memory: the addresses of [m] are mapped and writable. *)
Fixpoint flat_out (m : gmap Z Z) (va : Z) (bs : list Z) : bool * gmap Z Z :=
  match bs with
  | [] => (true, m)
  | x :: bs => match m !! va with Some _ => flat_out (<[va := x]> m) (va + 1) bs | None => (false, m) end
  end.

Lemma flat_out_spec bs : forall u va, bytes bs -> (forall a b, u !! a = Some b -> 0 <= b < 256) ->
  exists k b u', flat_out u va bs = (b, u') /\ (forall a b, u' !! a = Some b -> 0 <= b < 256) /\
    (k <= length bs)%nat /\ (b = true <-> k = length bs) /\
    forall a, u' !! a = if decide (va <= a < va + Z.of_nat k) then bs !! Z.to_nat (a - va) else u !! a.
Proof.
  induction bs as [|x bs IH]; intros u va Hb Hu; cbn [flat_out].
  - exists O, true, u. split_and!; try done. intros a. by rewrite decide_False by lia.
  - apply Forall_cons in Hb as [Hx Hb]. destruct (u !! va) as [y|] eqn:E.
    + destruct (IH (<[va := x]> u) (va + 1) Hb) as (k & b & u' & E' & Hu' & Hk & Hbk & Hv).
      { intros a b [[-> <-]|[_ Ha]]%lookup_insert_Some; [done|by apply (Hu a)]. }
      exists (S k), b, u'. split_and!; [done|done|simpl; lia|rewrite Hbk; simpl; lia|]. intros a. rewrite Hv.
      destruct (decide (a = va)) as [->|Hne].
      * rewrite decide_False, decide_True by lia. rewrite lookup_insert_eq, Z.sub_diag. done.
      * destruct (decide (va + 1 <= a < va + 1 + Z.of_nat k)) as [Hr|Hr].
        -- rewrite decide_True by lia. replace (Z.to_nat (a - va)) with (S (Z.to_nat (a - (va + 1)))) by lia. done.
        -- rewrite decide_False by lia. by rewrite lookup_insert_ne.
    + exists O, false, u. split_and!; try done; [simpl; lia|]. intros a. by rewrite decide_False by lia.
Qed.

#[export, refine] Instance flat_user : UserMem (gmap Z Z) := {|
  uok := fun m => forall a b, m !! a = Some b -> 0 <= b < 256;
  uview := fun m va => m !! va;
  ucopyin := fun m va buf => let got := uprefix (fun a => m !! a) (length buf) va in (alen got =? alen buf, got ++ drop (length got) buf);
  ucopyout := flat_out |}.
Proof.
  - intros u va b Hu _. apply Hu.
  - done.
  - intros u va bs Hu _ _ Hb. destruct (flat_out_spec bs u va Hb Hu) as (k & b & u' & E & Hu' & Hk & Hbk & Hv).
    exists k, b, u'. by split_and!.
Defined.

End Umem.
