(* ===== verification/Pipe.v ===== *)
(** Pipes, [src/kernel/proc/pipe.c].

    A call of [pipewrite] or [piperead] is a sequence of critical sections of
    the pipe's lock, each ended by [sleep] or by the return; a critical section
    is one function here, and the calls of any number of processes interleave
    at these points. *)

From S2P Require Import Prelude Cbuf Umem.
Import Cbuf Umem.

Module Pipe.

Definition PIPESIZE : Z := 512.

(** [struct pipe]; [p_sent] and [p_taken] record all bytes that have entered and
    left [data]. *)
Record pipe := mk_pipe {
  p_data : list Z;
  p_nread : Z;
  p_nwrite : Z;
  p_readopen : Z;
  p_writeopen : Z;
  p_sent : list Z;
  p_taken : list Z }.

(** The pipe that [pipealloc] sets up in the page [junk]. *)
Definition new_pipe (junk : list Z) : pipe := mk_pipe junk 0 0 1 1 [] [].

(** [pi->data[pi->nwrite++ % PIPESIZE] = ch] *)
Definition put_byte (ch : Z) (p : pipe) : pipe :=
  mk_pipe (aset (p_data p) (p_nwrite p mod PIPESIZE) ch) (p_nread p) (u32 (p_nwrite p + 1)) (p_readopen p) (p_writeopen p)
    (p_sent p ++ [ch]) (p_taken p).
(** [ch = pi->data[pi->nread++ % PIPESIZE]] *)
Definition next_byte (p : pipe) : Z := default 0 (aget (p_data p) (p_nread p mod PIPESIZE)).
Definition take_byte (p : pipe) : pipe :=
  mk_pipe (p_data p) (u32 (p_nread p + 1)) (p_nwrite p) (p_readopen p) (p_writeopen p) (p_sent p)
    (p_taken p ++ [next_byte p]).

(** How a critical section of [pipewrite] ends: returning the count, after
    [wakeup(&pi->nread)]; returning -1; or sleeping on [nwrite] at index [i],
    after [wakeup(&pi->nread)]. *)
Inductive wend := WRet (r : Z) | WFail | WSleep (i : Z).
Inductive rend := RRet (r : Z) | RFail | RSleep.

Section code.
Context {U : Type} `{UserMem U}.

(** The loop of [pipewrite] from index [i], with [k] bytes to go. *)
Fixpoint pipewrite (k : nat) (i addr : Z) (killed : bool) (u : U) (p : pipe) : pipe * wend :=
  match k with
  | O => (p, WRet i)
  | S k =>
      if p_nwrite p =? u32 (p_nread p + PIPESIZE) then
        if (p_readopen p =? 0) || killed then (p, WFail) else (p, WSleep i)
      else
        match ucopyin u (u64 (addr + i)) [0] with
        | (true, [ch]) => pipewrite k (i + 1) addr killed u (put_byte ch p)
        | _ => (p, WRet i)
        end
  end.

Fixpoint piperead_loop (k : nat) (i addr : Z) (u : U) (p : pipe) : pipe * U * Z :=
  match k with
  | O => (p, u, i)
  | S k =>
      if p_nread p =? p_nwrite p then (p, u, i)
      else
        match ucopyout u (u64 (addr + i)) [next_byte p] with
        | (true, u') => piperead_loop k (i + 1) addr u' (take_byte p)
        | (false, u') => (take_byte p, u', i)
        end
  end.
Definition piperead (n addr : Z) (killed : bool) (u : U) (p : pipe) : pipe * U * rend :=
  if (p_nread p =? p_nwrite p) && negb (p_writeopen p =? 0) then
    (p, u, if killed then RFail else RSleep)
  else let '(p, u, i) := piperead_loop (Z.to_nat n) 0 addr u p in (p, u, RRet i).

(** [pipeclose] clears one end; the result says whether the page is freed. *)
Definition pipeclose (writable : bool) (p : pipe) : pipe * bool :=
  let p :=
    if writable then mk_pipe (p_data p) (p_nread p) (p_nwrite p) (p_readopen p) 0 (p_sent p) (p_taken p)
    else mk_pipe (p_data p) (p_nread p) (p_nwrite p) 0 (p_writeopen p) (p_sent p) (p_taken p) in
  (p, (p_readopen p =? 0) && (p_writeopen p =? 0)).

(** ** Processes on a pipe *)

Inductive call := CWrite (i n addr : Z) | CRead (n addr : Z).
Record thread := mk_thread { t_call : call; t_asleep : bool; t_killed : bool; t_user : U }.
Record sys := mk_sys { s_pipe : pipe; s_threads : gmap nat thread; s_freed : bool }.

Definition is_read (t : thread) : bool := match t_call t with CRead _ _ => true | _ => false end.
(** [wakeup(&pi->nread)] and [wakeup(&pi->nwrite)] *)
Definition wake (readers : bool) (t : thread) : thread :=
  if eqb (is_read t) readers then mk_thread (t_call t) false (t_killed t) (t_user t) else t.
Definition wakeup (readers : bool) (ts : gmap nat thread) : gmap nat thread := wake readers <$> ts.

(** One critical section. A process calls with the end it uses open; an end is
    closed once no call is using it. [kills] says whether processes are killed
    meanwhile. *)
Inductive step (kills : bool) : sys -> sys -> Prop :=
| step_call_write p ts tid n addr u : ts !! tid = None -> p_writeopen p <> 0 -> uok u ->
    step kills (mk_sys p ts false) (mk_sys p (<[tid := mk_thread (CWrite 0 n addr) false false u]> ts) false)
| step_call_read p ts tid n addr u : ts !! tid = None -> p_readopen p <> 0 -> uok u ->
    step kills (mk_sys p ts false) (mk_sys p (<[tid := mk_thread (CRead n addr) false false u]> ts) false)
| step_write_ret p ts tid i n addr kl u p' r : ts !! tid = Some (mk_thread (CWrite i n addr) false kl u) ->
    pipewrite (Z.to_nat (n - i)) i addr kl u p = (p', WRet r) ->
    step kills (mk_sys p ts false) (mk_sys p' (wakeup true (delete tid ts)) false)
| step_write_fail p ts tid i n addr kl u p' : ts !! tid = Some (mk_thread (CWrite i n addr) false kl u) ->
    pipewrite (Z.to_nat (n - i)) i addr kl u p = (p', WFail) ->
    step kills (mk_sys p ts false) (mk_sys p' (delete tid ts) false)
| step_write_sleep p ts tid i n addr kl u p' i' : ts !! tid = Some (mk_thread (CWrite i n addr) false kl u) ->
    pipewrite (Z.to_nat (n - i)) i addr kl u p = (p', WSleep i') ->
    step kills (mk_sys p ts false) (mk_sys p' (<[tid := mk_thread (CWrite i' n addr) true kl u]> (wakeup true ts)) false)
| step_read_ret p ts tid n addr kl u p' u' r : ts !! tid = Some (mk_thread (CRead n addr) false kl u) ->
    piperead n addr kl u p = (p', u', RRet r) ->
    step kills (mk_sys p ts false) (mk_sys p' (wakeup false (delete tid ts)) false)
| step_read_fail p ts tid n addr kl u p' u' : ts !! tid = Some (mk_thread (CRead n addr) false kl u) ->
    piperead n addr kl u p = (p', u', RFail) ->
    step kills (mk_sys p ts false) (mk_sys p' (delete tid ts) false)
| step_read_sleep p ts tid n addr kl u p' u' : ts !! tid = Some (mk_thread (CRead n addr) false kl u) ->
    piperead n addr kl u p = (p', u', RSleep) ->
    step kills (mk_sys p ts false) (mk_sys p' (<[tid := mk_thread (CRead n addr) true kl u']> ts) false)
| step_kill p ts tid t : kills = true -> ts !! tid = Some t ->
    step kills (mk_sys p ts false) (mk_sys p (<[tid := mk_thread (t_call t) false true (t_user t)]> ts) false)
| step_close p ts wr p' f :
    (forall tid t, ts !! tid = Some t -> is_read t = wr) ->
    (if wr then p_writeopen p <> 0 else p_readopen p <> 0) ->
    pipeclose wr p = (p', f) ->
    step kills (mk_sys p ts false) (mk_sys p' (wakeup wr ts) f).

(** The states of a pipe after [pipealloc]. *)
Inductive reachable (kills : bool) : sys -> Prop :=
| reach_new junk : alen junk = PIPESIZE -> reachable kills (mk_sys (new_pipe junk) ∅ false)
| reach_step s s' : reachable kills s -> step kills s s' -> reachable kills s'.

(** ** The bytes a critical section moves *)

Lemma pipesize : 0 < PIPESIZE < 2 ^ 32 /\ (PIPESIZE | 2 ^ 32).
Proof. split; [done|]. by exists (2 ^ 23). Qed.

(** The pipe holds [q], and every byte sent was taken or is in [q], in order. *)
Record holds (p : pipe) (q : list Z) : Prop := {
  ho_cbuf : cbuf PIPESIZE (p_data p) (p_nread p) (p_nwrite p) q;
  ho_fifo : p_sent p = p_taken p ++ q;
  ho_bytes : bytes q }.

Lemma holds_put p q ch : holds p q -> alen q < PIPESIZE -> 0 <= ch < 256 -> holds (put_byte ch p) (q ++ [ch]).
Proof.
  intros [Hc Hf Hb] Hlt Hch. split; cbn.
  - by apply cbuf_push; try apply pipesize.
  - by rewrite Hf, app_assoc.
  - apply Forall_app. split; [done|]. by constructor.
Qed.

Lemma holds_take p x q : holds p (x :: q) -> next_byte p = x /\ 0 <= x < 256 /\ holds (take_byte p) q.
Proof.
  intros [Hc Hf [Hx0 Hb]%Forall_cons]. destruct (cbuf_pop PIPESIZE (proj1 pipesize) (proj2 pipesize) _ _ _ _ _ Hc) as [Hx Hc'].
  assert (E : next_byte p = x) by (unfold next_byte; by rewrite Hx). split; [done|]. split; [done|]. split; cbn; [done| |done].
  by rewrite E, Hf, <- app_assoc.
Qed.

Lemma holds_full p q : holds p q -> p_nwrite p = u32 (p_nread p + PIPESIZE) <-> alen q = PIPESIZE.
Proof. intros [Hc _ _]. by apply (cbuf_full PIPESIZE (proj1 pipesize) (proj2 pipesize) _ _ _ _ Hc). Qed.
Lemma holds_empty p q : holds p q -> p_nread p = p_nwrite p <-> q = [].
Proof. intros [Hc _ _]. by apply (cbuf_empty PIPESIZE (proj1 pipesize) (proj2 pipesize) _ _ _ _ Hc). Qed.
Lemma holds_cap p q : holds p q -> alen q <= PIPESIZE.
Proof. intros [Hc _ _]. by apply (cb_cap _ _ _ _ _ Hc). Qed.

(** The ends of the pipe. *)
Definition same_ends (p p' : pipe) : Prop := p_readopen p' = p_readopen p /\ p_writeopen p' = p_writeopen p.

(** The empty list has no elements. *)
Ltac nonil := by (intros ? ? Hnil; rewrite lookup_nil in Hnil).

(** A critical section of [pipewrite] appends bytes of the caller's memory. *)
Lemma pipewrite_spec k : forall i addr kl u p q, holds p q -> uok u -> 
  exists bs p' e, pipewrite k i addr kl u p = (p', e) /\ holds p' (q ++ bs) /\ same_ends p p' /\ (length bs <= k)%nat /\
    (forall j x, bs !! j = Some x -> uview u (u64 (addr + i + Z.of_nat j)) = Some x) /\
    match e with
    | WRet r => r = i + alen bs /\ (length bs = k \/ uview u (u64 (addr + r)) = None)
    | WFail => alen (q ++ bs) = PIPESIZE /\ (p_readopen p = 0 \/ kl = true)
    | WSleep i' => i' = i + alen bs /\ (length bs < k)%nat /\ alen (q ++ bs) = PIPESIZE /\ p_readopen p <> 0 /\ kl = false
    end.
Proof.
  induction k as [|k IH]; intros i addr kl u p q Hq Hu; cbn [pipewrite].
  - exists [], p, (WRet i). rewrite app_nil_r. split_and!; try done; try (by split); try nonil; [unfold alen; simpl; lia|by left].
  - destruct (Z.eqb_spec (p_nwrite p) (u32 (p_nread p + PIPESIZE))) as [Hf|Hf].
    + apply (holds_full p q Hq) in Hf. exists [], p. rewrite app_nil_r. destruct (Z.eqb_spec (p_readopen p) 0), kl; cbn [orb].
      1-3: exists WFail; split_and!; try done; try (by split); try nonil; try tauto; simpl; lia.
      exists (WSleep i). split_and!; try done; try (by split); try nonil; unfold alen; simpl; lia.
    + rewrite (holds_full p q Hq) in Hf. pose proof (holds_cap p q Hq) as Hcap. pose proof (u64_range (addr + i)).
      rewrite ucopyin_byte by (done || lia). destruct (uview u (u64 (addr + i))) as [ch|] eqn:E.
      * destruct (IH (i + 1) addr kl u (put_byte ch p) (q ++ [ch])) as (bs & p' & e & Hrun & Hh & Hs & Hl & Hv & He);
          [apply holds_put; [done|lia|by apply (uview_byte u (u64 (addr + i))); [|lia|]]|done|].
        exists (ch :: bs), p', e. rewrite <- app_assoc in *. split_and!; try done; try (by split); try nonil; [simpl; lia| |].
        -- intros [|j] x Hx; simpl in Hx; [injection Hx as <-; by rewrite Z.add_0_r|].
           rewrite <- (Hv j x Hx). f_equal. f_equal. lia.
        -- destruct e; unfold alen in *; cbn [length app] in *; simpl in He; try done.
           ++ destruct He as [-> He]. split; [lia|]. destruct He as [->|He]; [by left|right]. exact He.
           ++ destruct He as (-> & ? & ? & ? & ?). split_and!; try done; try (by split); try nonil; lia.
      * exists [], p, (WRet i). rewrite app_nil_r. split_and!; try done; try (by split); try nonil; [simpl; lia|unfold alen; simpl; lia|by right].
Qed.

(** Reading takes bytes from the front and stores them one after the other; the
    byte whose store fails is taken all the same. *)
Lemma piperead_loop_spec k : forall i addr u p q, holds p q -> uok u -> 0 <= addr -> 0 <= i -> addr + i + Z.of_nat k < 2 ^ 64 ->
  exists bs q' p' u' r, piperead_loop k i addr u p = (p', u', r) /\ q = bs ++ q' /\ holds p' q' /\ same_ends p p' /\ uok u' /\
    (length bs <= k)%nat /\ i <= r /\
    (r = i + alen bs /\ (length bs = k \/ q' = []) \/ r = i + alen bs - 1 /\ bs <> []) /\
    (forall a, 0 <= a -> uview u' a =
       if decide (addr + i <= a < addr + r) then bs !! Z.to_nat (a - (addr + i)) else uview u a).
Proof.
  induction k as [|k IH]; intros i addr u p q Hq Hu Ha Hi Hw; cbn [piperead_loop].
  - exists [], q, p, u, i. split_and!; try done; try (by split); [unfold alen; simpl; left; split; [lia|by left]|].
    intros a _. by rewrite decide_False by lia.
  - destruct (Z.eqb_spec (p_nread p) (p_nwrite p)) as [He|He].
    + apply (holds_empty p q Hq) in He as ->. exists [], [], p, u, i. split_and!; try done; try (by split); [simpl; lia| |].
      * unfold alen. simpl. left. split; [lia|by right].
      * intros a _. by rewrite decide_False by lia.
    + rewrite (holds_empty p q Hq) in He. destruct q as [|x q]; [done|]. destruct (holds_take p x q Hq) as (Hx & Hxb & Ht).
      rewrite Hx, u64_small by lia. destruct (ucopyout_byte u (addr + i) x Hu ltac:(lia) Hxb) as (b & u1 & E & Hu1 & Hv1).
      rewrite E. destruct b.
      * destruct (IH (i + 1) addr u1 (take_byte p) q Ht Hu1 Ha ltac:(lia) ltac:(lia))
          as (bs & q' & p' & u' & r & Hrun & -> & Hh & Hs & Hu' & Hl & Hr & Hd & Hv).
        exists (x :: bs), q', p', u', r. split_and!; try done; try (by split); [simpl; lia|lia| |].
        -- unfold alen in *. cbn [length]. destruct Hd as [[-> Hd]|[-> Hd]]; [left; split; [lia|]|right; split; [lia|done]].
           destruct Hd as [->|]; [by left|by right].
        -- intros a H0. rewrite (Hv a H0), (Hv1 a H0). destruct (decide (a = addr + i)) as [->|Hne].
           ++ rewrite decide_False, decide_True, decide_True by (done || lia). by rewrite Z.sub_diag.
           ++ rewrite (decide_False (P := true = true /\ a = addr + i)) by tauto.
              destruct (decide (addr + (i + 1) <= a < addr + r)).
              ** rewrite decide_True by lia. replace (Z.to_nat (a - (addr + i))) with (S (Z.to_nat (a - (addr + (i + 1))))) by lia. done.
              ** by rewrite decide_False by lia.
      * exists [x], q, (take_byte p), u1, i. split_and!; try done; try (by split); [simpl; lia| |].
        -- right. unfold alen. simpl. split; [lia|done].
        -- intros a H0. rewrite (Hv1 a H0), !decide_False by (lia || naive_solver). done.
Qed.

(** The queue of bytes and the user memory, whatever the addresses are. *)
Lemma piperead_loop_fifo k : forall i addr u p q, holds p q -> uok u ->
  exists bs q' p' u' r, piperead_loop k i addr u p = (p', u', r) /\ q = bs ++ q' /\ holds p' q' /\ same_ends p p' /\ uok u'.
Proof.
  induction k as [|k IH]; intros i addr u p q Hq Hu; cbn [piperead_loop].
  - by exists [], q, p, u, i.
  - destruct (Z.eqb_spec (p_nread p) (p_nwrite p)) as [He|He]; [by exists [], q, p, u, i|].
    rewrite (holds_empty p q Hq) in He. destruct q as [|x q]; [done|]. destruct (holds_take p x q Hq) as (Hx & Hxb & Ht). rewrite Hx.
    pose proof (u64_range (addr + i)).
    destruct (ucopyout_byte u (u64 (addr + i)) x Hu ltac:(lia) Hxb) as (b & u1 & E & Hu1 & _). rewrite E. destruct b.
    + destruct (IH (i + 1) addr u1 (take_byte p) q Ht Hu1) as (bs & q' & p' & u' & r & Hrun & -> & Hh & Hs & Hu').
      by exists (x :: bs), q', p', u', r.
    + by exists [x], q, (take_byte p), u1, i.
Qed.

Lemma piperead_spec n addr kl u p q : holds p q -> uok u ->
  exists bs q' p' u' e, piperead n addr kl u p = (p', u', e) /\ q = bs ++ q' /\ holds p' q' /\ same_ends p p' /\ uok u' /\
    match e with
    | RRet _ => q <> [] \/ p_writeopen p = 0
    | RFail => p' = p /\ kl = true
    | RSleep => p' = p /\ kl = false /\ q = [] /\ p_writeopen p <> 0
    end.
Proof.
  intros Hq Hu. unfold piperead. destruct (Z.eqb_spec (p_nread p) (p_nwrite p)) as [He|He]; cbn [andb].
  - pose proof He as Hq0. apply (holds_empty p q Hq) in Hq0 as ->. destruct (Z.eqb_spec (p_writeopen p) 0) as [Ho|Ho]; cbn [negb].
    + destruct (piperead_loop_fifo (Z.to_nat n) 0 addr u p [] Hq Hu) as (bs & q' & p' & u' & r & Hrun & E & Hh & Hs & Hu').
      rewrite Hrun. exists bs, q', p', u', (RRet r). split_and!; try done. by right.
    + destruct kl; [exists [], [], p, u, RFail|exists [], [], p, u, RSleep]; by split_and!.
  - rewrite (holds_empty p q Hq) in He.
    destruct (piperead_loop_fifo (Z.to_nat n) 0 addr u p q Hq Hu) as (bs & q' & p' & u' & r & Hrun & E & Hh & Hs & Hu').
    rewrite Hrun. exists bs, q', p', u', (RRet r). split_and!; try done. by left.
Qed.

(** ** The invariant of the interleaved calls *)

(** A sleeping writer waits for room with the reading end open; a sleeping
    reader waits for bytes with the writing end open. *)
Definition waits (p : pipe) (t : thread) : Prop :=
  if is_read t then p_nread p = p_nwrite p /\ p_writeopen p <> 0
  else p_nwrite p = u32 (p_nread p + PIPESIZE) /\ p_readopen p <> 0.

Record thread_ok (kills : bool) (p : pipe) (t : thread) : Prop := {
  th_user : uok (t_user t);
  th_open : if is_read t then p_readopen p <> 0 else p_writeopen p <> 0;
  th_killed : kills = false -> t_killed t = false;
  th_asleep : t_asleep t = true -> kills = false \/ is_read t = false -> waits p t }.

Record good (kills : bool) (s : sys) : Prop := {
  gd_holds : exists q, holds (s_pipe s) q;
  gd_threads : forall tid t, s_threads s !! tid = Some t -> thread_ok kills (s_pipe s) t;
  gd_freed : s_freed s = true -> s_threads s = ∅ }.

Lemma wakeup_ok kills p p' readers ts :
  same_ends p p' ->
  (forall tid t, ts !! tid = Some t -> thread_ok kills p t) ->
  (forall t, is_read t <> readers -> waits p t -> waits p' t) ->
  forall tid t, wakeup readers ts !! tid = Some t -> thread_ok kills p' t.
Proof.
  intros [Hr Hw] Hts Hkeep tid t Ht. unfold wakeup in Ht. rewrite lookup_fmap in Ht.
  destruct (ts !! tid) as [t0|] eqn:E; [|done]. injection Ht as <-. destruct (Hts tid t0 E) as [H1 H2 H3 H4].
  unfold wake. destruct (eqb (is_read t0) readers) eqn:Ew.
  - split; try done. change (is_read (mk_thread (t_call t0) false (t_killed t0) (t_user t0))) with (is_read t0). by rewrite Hr, Hw.
  - apply eqb_false_iff in Ew. split; try done; [by rewrite Hr, Hw|]. intros Ha Hk. apply Hkeep; [done|]. by apply H4.
Qed.

Lemma keep_ok kills p p' t : same_ends p p' -> (waits p t -> waits p' t) -> thread_ok kills p t -> thread_ok kills p' t.
Proof.
  intros [Hr Hw] Hk [H1 H2 H3 H4]. split; try done; [by rewrite Hr, Hw|]. intros Ha Hc. by apply Hk, H4.
Qed.

(** Adding bytes keeps a full pipe full, taking bytes keeps an empty one empty. *)
Lemma full_kept p p' q bs : holds p q -> holds p' (q ++ bs) -> same_ends p p' -> forall t, is_read t = false -> waits p t -> waits p' t.
Proof.
  intros Hq Hq' [Hr _] t Ht. unfold waits. rewrite Ht, Hr, (holds_full p q Hq), (holds_full p' _ Hq'). intros [Hf Ho].
  split; [|done]. pose proof (holds_cap _ _ Hq'). unfold alen in *. rewrite length_app in *. lia.
Qed.
Lemma empty_kept p p' q bs q' : holds p q -> q = bs ++ q' -> holds p' q' -> same_ends p p' ->
  forall t, is_read t = true -> waits p t -> waits p' t.
Proof.
  intros Hq -> Hq' [_ Hw] t Ht. unfold waits. rewrite Ht, Hw, (holds_empty p _ Hq), (holds_empty p' q' Hq'). intros [Hf Ho].
  split; [|done]. by apply app_eq_nil in Hf as [_ ->].
Qed.

Lemma write_step_good kills p ts tid i n addr kl u p' e :
  good kills (mk_sys p ts false) -> ts !! tid = Some (mk_thread (CWrite i n addr) false kl u) ->
  pipewrite (Z.to_nat (n - i)) i addr kl u p = (p', e) ->
  good kills (mk_sys p'
    match e with
    | WRet _ => wakeup true (delete tid ts)
    | WFail => delete tid ts
    | WSleep i' => <[tid := mk_thread (CWrite i' n addr) true kl u]> (wakeup true ts)
    end false).
Proof.
  intros [[q Hq] Hts _] Ht Hrun. cbn in *. pose proof (Hts _ _ Ht) as [Hu Ho Hk _]. cbn in *.
  destruct (pipewrite_spec (Z.to_nat (n - i)) i addr kl u p q Hq Hu) as (bs & p1 & e1 & Hrun1 & Hq' & Hends & _ & _ & He).
  rewrite Hrun1 in Hrun. injection Hrun as -> ->. split; cbn; [by exists (q ++ bs)| |done]. intros tid' t.
  assert (Hkeep : forall t, is_read t <> true -> waits p t -> waits p' t).
  { intros t0 Hr. apply (full_kept p p' q bs Hq Hq' Hends). by destruct (is_read t0). }
  destruct e as [r| |i'].
  - apply (wakeup_ok kills p p' true (delete tid ts) Hends); [|done]. intros k t0 [_ Hl]%lookup_delete_Some. by apply (Hts k).
  - intros [Hne Hl]%lookup_delete_Some. destruct (Hts tid' t Hl) as [T1 T2 T3 T4]. pose proof Hends as [Er Ew].
    split; try done; [by rewrite Er, Ew|]. intros Ha Hc. destruct (is_read t) eqn:Et; [|apply Hkeep; [congruence|by apply T4; [|right]]].
    destruct Hc as [Hc|]; [|done]. destruct He as [_ [He|He]]; [done|]. by rewrite (Hk Hc) in He.
  - intros [[-> <-]|[Hne Hl]]%lookup_insert_Some.
    + destruct Hends as [Er Ew], He as (_ & _ & Hf & Hro & Hkl). split; try done; cbn; [by rewrite Ew|]. intros _ _.
      unfold waits. cbn. rewrite (holds_full p' _ Hq'), Er. done.
    + by apply (wakeup_ok kills p p' true ts Hends Hts Hkeep tid').
Qed.

Lemma read_step_good kills p ts tid n addr kl u p' u' e :
  good kills (mk_sys p ts false) -> ts !! tid = Some (mk_thread (CRead n addr) false kl u) ->
  piperead n addr kl u p = (p', u', e) ->
  good kills (mk_sys p'
    match e with
    | RRet _ => wakeup false (delete tid ts)
    | RFail => delete tid ts
    | RSleep => <[tid := mk_thread (CRead n addr) true kl u']> ts
    end false).
Proof.
  intros [[q Hq] Hts _] Ht Hrun. cbn in *. pose proof (Hts _ _ Ht) as [Hu Ho Hk _]. cbn in *.
  destruct (piperead_spec n addr kl u p q Hq Hu) as (bs & q' & p1 & u1 & e1 & Hrun1 & Eq & Hq' & Hends & Hu1 & He).
  rewrite Hrun1 in Hrun. injection Hrun as -> -> ->. split; cbn; [by exists q'| |done]. intros tid' t.
  assert (Hkeep : forall t, is_read t <> false -> waits p t -> waits p' t).
  { intros t0 Hr. apply (empty_kept p p' q bs q' Hq Eq Hq' Hends). by destruct (is_read t0). }
  destruct e as [r| |].
  - apply (wakeup_ok kills p p' false (delete tid ts) Hends); [|done]. intros k t0 [_ Hl]%lookup_delete_Some. by apply (Hts k).
  - destruct He as [-> _]. intros [_ Hl]%lookup_delete_Some. by apply (Hts tid').
  - destruct He as (-> & -> & -> & Hw). intros [[-> <-]|[Hne Hl]]%lookup_insert_Some; [|by apply (Hts tid')].
    split; try done. intros _ _. unfold waits. cbn. split; [|done]. by apply (holds_empty p [] Hq).
Qed.

Lemma close_step_good kills p ts wr p' f :
  good kills (mk_sys p ts false) -> (forall tid t, ts !! tid = Some t -> is_read t = wr) ->
  pipeclose wr p = (p', f) -> good kills (mk_sys p' (wakeup wr ts) f).
Proof.
  intros [[q Hq] Hts _] Hall Hrun. cbn in *. unfold pipeclose in Hrun. injection Hrun as <- <-.
  split; cbn.
  - exists q. destruct Hq as [Hc Hf Hb]. destruct wr; by split.
  - intros tid t Ht. unfold wakeup in Ht. rewrite lookup_fmap in Ht. destruct (ts !! tid) as [t0|] eqn:E; [|done].
    injection Ht as <-. pose proof (Hall tid t0 E) as Er. destruct (Hts tid t0 E) as [H1 H2 H3 H4]. unfold wake. rewrite Er, eqb_reflx.
    split; try done. unfold is_read in *. cbn. rewrite Er in *. by destruct wr.
  - intros Hf. apply map_empty. intros tid. unfold wakeup. rewrite lookup_fmap. destruct (ts !! tid) as [t|] eqn:E; [|done].
    exfalso. pose proof (Hall tid t E) as Er. destruct (Hts tid t E) as [_ H2 _ _]. rewrite Er in H2. bool_cases.
    destruct wr; cbn in *; lia.
Qed.

Lemma reachable_good kills s : reachable kills s -> good kills s.
Proof.
  induction 1 as [junk Hj|s s' _ IH Hstep].
  - split; cbn; [|by intros tid t; rewrite lookup_empty|done]. exists []. split; cbn; [|done|constructor].
    by apply cbuf_init; try apply pipesize.
  - destruct Hstep as [p ts tid n addr u Hf Ho Hu|p ts tid n addr u Hf Ho Hu|p ts tid i n addr kl u p' r Ht Hr|
      p ts tid i n addr kl u p' Ht Hr|p ts tid i n addr kl u p' i' Ht Hr|p ts tid n addr kl u p' u' r Ht Hr|
      p ts tid n addr kl u p' u' Ht Hr|p ts tid n addr kl u p' u' Ht Hr|p ts tid t Hk Ht|p ts wr p' f Hall Ho Hc].
    1-2: destruct IH as [Hq Hts _]; cbn in *; split; cbn; try done;
      intros tid' t [[-> <-]|[_ Hl]]%lookup_insert_Some; [by split|by apply (Hts tid')].
    1-3: exact (write_step_good kills p ts tid i n addr kl u p' _ IH Ht Hr).
    1-3: exact (read_step_good kills p ts tid n addr kl u p' u' _ IH Ht Hr).
    + destruct IH as [Hq Hts _]. cbn in *. split; cbn; try done.
      intros tid' t' [[-> <-]|[_ Hl]]%lookup_insert_Some; [|by apply (Hts tid')].
      destruct (Hts _ _ Ht) as [H1 H2 H3 H4]. split; try done. intros Hf. congruence.
    + by apply (close_step_good kills p ts wr p' f IH).
Qed.

(** C23: whatever processes read, write, die and close, the bytes leave a pipe in
    the order in which they entered it and none is lost or made up in between:
    the bytes sent are the bytes taken followed by those in the buffer, of which
    there are at most [PIPESIZE]; and the page is only freed when no call uses
    it. *)
Theorem pipe_fifo kills s : reachable kills s ->
  (exists q, cbuf PIPESIZE (p_data (s_pipe s)) (p_nread (s_pipe s)) (p_nwrite (s_pipe s)) q /\
     p_sent (s_pipe s) = p_taken (s_pipe s) ++ q) /\
  (s_freed s = true -> s_threads s = ∅).
Proof.
  intros Hr. destruct (reachable_good kills s Hr) as [[q [Hc Hf _]] _ Hfr]. split; [by exists q|done].
Qed.

(** C24: as long as no process is killed, no wakeup is lost: a sleeping reader
    always finds the pipe empty and its writing end open, a sleeping writer finds
    it full and its reading end open, so the two never sleep at the same time. *)
Theorem pipe_no_lost_wakeup s tid t : reachable false s -> s_threads s !! tid = Some t -> t_asleep t = true ->
  waits (s_pipe s) t /\
  forall tid' t', s_threads s !! tid' = Some t' -> t_asleep t' = true -> is_read t' = is_read t.
Proof.
  intros Hr Ht Ha. destruct (reachable_good false s Hr) as [[q Hq] Hts _].
  assert (Hw : forall tid t, s_threads s !! tid = Some t -> t_asleep t = true -> waits (s_pipe s) t).
  { intros k t0 Hk H0. apply (Hts k t0 Hk); [done|by left]. }
  split; [by apply (Hw tid)|]. intros tid' t' Ht' Ha'. pose proof (Hw _ _ Ht Ha) as W. pose proof (Hw _ _ Ht' Ha') as W'.
  unfold waits in W, W'. destruct (is_read t), (is_read t'); try done; destruct W as [E _], W' as [E' _].
  - apply (holds_empty _ _ Hq) in E. apply (holds_full _ _ Hq) in E'. by subst q.
  - apply (holds_full _ _ Hq) in E. apply (holds_empty _ _ Hq) in E'. by subst q.
Qed.

(** A read from a pipe that holds bytes, into memory that can be written,
    returns how many it delivered, the lesser of what was asked for and what the
    pipe held, and stores exactly the oldest bytes of the pipe in order. *)
Theorem piperead_delivers n addr kl u p q :
  holds p q -> q <> [] -> uok u -> 0 <= addr -> 0 <= n -> addr + n < 2 ^ 64 ->
  exists p' u' r, piperead n addr kl u p = (p', u', RRet r) /\ 0 <= r <= n /\
    (forall a, 0 <= a -> uview u' a = if decide (addr <= a < addr + r) then q !! Z.to_nat (a - addr) else uview u a) /\
    (r = Z.min n (alen q) /\ holds p' (drop (Z.to_nat r) q) \/
     r < Z.min n (alen q) /\ holds p' (drop (Z.to_nat r + 1) q)).
Proof.
  intros Hq Hne Hu Ha Hn Hw. unfold piperead.
  rewrite (proj2 (Z.eqb_neq _ _)) by (by rewrite (holds_empty p q Hq)). cbn [andb].
  destruct (piperead_loop_spec (Z.to_nat n) 0 addr u p q Hq Hu Ha) as
    (bs & q' & p' & u' & r & Hrun & -> & Hh & _ & _ & Hl & Hr & Hd & Hv); [lia|lia|].
  rewrite Hrun. exists p', u', r. rewrite Z.add_0_r in Hv. unfold alen in *. rewrite length_app. split_and!; [done|done| | |].
  - destruct Hd as [[-> _]|[-> ?]]; lia.
  - intros a H0. rewrite (Hv a H0). destruct (decide (addr <= a < addr + r)); [|done]. rewrite lookup_app_l; [done|].
    destruct Hd as [[-> _]|[-> ?]]; lia.
  - destruct Hd as [[Er Hd]|[Er Hb]]; [left|right].
    + split; [|by rewrite drop_app_length' by lia]. destruct Hd as [ | -> ]; simpl; lia.
    + assert (length bs <> O) by (by destruct bs). split; [lia|]. by rewrite drop_app_length' by lia.
Qed.

End code.

(** ** Concrete pipes *)

Definition demo_user : gmap Z Z := list_to_map ((fun i => (i, i mod 256)) <$> seqZ 0 600).
Lemma demo_user_ok : uok demo_user.
Proof.
  intros a b Hab. apply elem_of_list_to_map_2, list_elem_of_fmap in Hab as (i & [= -> ->] & _). apply Z.mod_pos_bound. lia.
Qed.
Definition zeros : list Z := replicate 512 0.
Definition reader (asleep : bool) : thread := mk_thread (CRead 4 0) asleep false (∅ : gmap Z Z).
Definition writer (killed : bool) : thread := mk_thread (CWrite 0 513 0) false killed demo_user.

Lemma reader_waits kills : reachable kills (mk_sys (new_pipe zeros) {[0%nat := reader true]} false).
Proof.
  eapply reach_step; [eapply reach_step; [by apply (reach_new kills zeros)|]|].
  - by apply (step_call_read kills (new_pipe zeros) ∅ 0 4 0 (∅ : gmap Z Z)).
  - assert (E : {[0%nat := reader true]} = <[0%nat := reader true]> (<[0%nat := reader false]> ∅) :> gmap nat thread)
      by (by rewrite insert_insert_eq).
    rewrite E. by apply (step_read_sleep kills (new_pipe zeros) _ 0 4 0 false ∅ (new_pipe zeros) ∅).
Qed.

Lemma pipe_fifo_witness : exists s, reachable true s /\ p_sent (s_pipe s) = p_taken (s_pipe s) ++ [].
Proof.
  exists (mk_sys (new_pipe zeros) {[0%nat := reader true]} false). split; [apply reader_waits|].
  destruct (pipe_fifo true _ (reader_waits true)) as [[q [Hc Hf]] _]. rewrite Hf. f_equal.
  by apply (cbuf_empty PIPESIZE (proj1 pipesize) (proj2 pipesize) _ _ _ _ Hc).
Defined.

Lemma pipe_no_lost_wakeup_witness : waits (new_pipe zeros) (reader true).
Proof. apply (pipe_no_lost_wakeup _ 0 (reader true) (reader_waits false)); reflexivity. Defined.

Lemma piperead_delivers_witness : exists p' u' r,
  piperead 4 0 false demo_user (put_byte 9 (new_pipe zeros)) = (p', u', RRet r) /\ r <= 4.
Proof.
  destruct (piperead_delivers 4 0 false demo_user (put_byte 9 (new_pipe zeros)) [9]) as (p' & u' & r & Hrun & Hr & _);
    [|discriminate|exact demo_user_ok|lia|lia|lia|exists p', u', r; split; [exact Hrun|lia]].
  apply (holds_put (new_pipe zeros) []); [|reflexivity|lia]. split; [|reflexivity|constructor].
  apply cbuf_init; [apply pipesize|apply pipesize|reflexivity].
Defined.

(** A killed writer can lose a wakeup. A reader sleeps on an empty pipe; a
    process that is being killed writes more than the pipe holds: it fills the
    buffer and returns -1 without waking anyone, so the reader sleeps on while
    512 bytes wait for it. *)
Theorem pipe_killed_writer_strands_reader :
  exists s t, reachable true s /\ s_threads s !! 0%nat = Some t /\ is_read t = true /\ t_asleep t = true /\
    u32 (p_nwrite (s_pipe s) - p_nread (s_pipe s)) = PIPESIZE.
Proof.
  assert (He : (pipewrite 513 0 0 true demo_user (new_pipe zeros)).2 = WFail) by (vm_compute; reflexivity).
  assert (Hn : let p := (pipewrite 513 0 0 true demo_user (new_pipe zeros)).1 in u32 (p_nwrite p - p_nread p) = PIPESIZE)
    by (vm_compute; reflexivity).
  destruct (pipewrite 513 0 0 true demo_user (new_pipe zeros)) as [p' e] eqn:E. cbn [fst snd] in He, Hn. subst e.
  set (ts := {[0%nat := reader true]} : gmap nat thread).
  exists (mk_sys p' (delete 1%nat (<[1%nat := writer true]> (<[1%nat := writer false]> ts))) false), (reader true).
  split; [|split; [reflexivity|split; [reflexivity|split; [reflexivity|exact Hn]]]].
  eapply reach_step; [eapply reach_step; [eapply reach_step; [apply (reader_waits true)|]|]|].
  - apply (step_call_write true (new_pipe zeros) ts 1 513 0 demo_user); [reflexivity|discriminate|exact demo_user_ok].
  - apply (step_kill true (new_pipe zeros) _ 1 (writer false)); [reflexivity|]. apply lookup_insert_eq.
  - eapply (step_write_fail true (new_pipe zeros) _ 1 0 513 0 true demo_user p'); [apply lookup_insert_eq|exact E].
Qed.

End Pipe.
