(* ===== verification/Vmuser.v ===== *)
(** The page-table code keeps the promise of [Umem.v]: [copyin] and [copyout] of
    [src/kernel/mm/vm.c] on the address space of a process, with the kernel's
    buffer in its static data. *)

From S2P Require Import Prelude Mem Kalloc Pgtbl Uvm Ucopy Ucow Umem.
Import Kalloc Pgtbl Uvm Ucopy Ucow Umem.

Module Vmuser.

(** The machine [vu_s] running on CPU [vu_id], and the page table of the
    process. [vu_kend] is the end of the kernel image. *)
Record vuser := mk_vuser { vu_kend : Z; vu_id : nat; vu_s : kst; vu_P : pt }.

(** A page of the kernel image serves as the buffer. *)
Definition KBUF : Z := KERNBASE.

Fixpoint poke (m : mem) (a : Z) (bs : list Z) : mem :=
  match bs with
  | [] => m
  | b :: bs => poke (upd m a b) (a + 1) bs
  end.
Definition peek (m : mem) (a n : Z) : list Z := (fun i => m (a + i)) <$> seqZ 0 n.

Lemma poke_out bs : forall m a x, x < a \/ a + alen bs <= x -> poke m a bs x = m x.
Proof.
  unfold alen. induction bs as [|b bs IH]; intros m a x Hx; cbn [poke]; [done|]. cbn [length] in Hx.
  rewrite IH by lia. apply upd_ne. lia.
Qed.
Lemma poke_in bs : forall m a k b, bs !! k = Some b -> poke m a bs (a + Z.of_nat k) = u8 b.
Proof.
  induction bs as [|c bs IH]; intros m a k b Hk; [done|]. cbn [poke]. destruct k as [|k].
  - injection Hk as ->. rewrite Z.add_0_r, poke_out by lia. apply upd_eq.
  - replace (a + Z.of_nat (S k)) with (a + 1 + Z.of_nat k) by lia. by apply IH.
Qed.
Lemma poke_ok bs : forall m a, mem_ok m -> mem_ok (poke m a bs).
Proof. induction bs as [|b bs IH]; intros m a Hm; [done|]. cbn [poke]. by apply IH, upd_ok. Qed.

Record vok (u : vuser) : Prop := {
  vk_kend : kend_ok (vu_kend u);
  vk_buf : KBUF + PGSIZE <= vu_kend u;
  vk_id : (vu_id u < NCPU)%nat;
  vk_space : uspace (vu_kend u) (vu_s u) (vu_P u);
  vk_cow : cow_ok (vu_s u) (vu_P u) }.

Definition vcopyin (u : vuser) (va : Z) (buf : list Z) : bool * list Z :=
  match copyin (vu_id u) (root (vu_P u)) KBUF va (alen buf) (set_ram (poke (ram (vu_s u)) KBUF buf) (vu_s u)) with
  | Ret r s' => (r =? 0, peek (ram s') KBUF (alen buf))
  | _ => (false, buf)
  end.
Definition vcopyout (u : vuser) (va : Z) (bs : list Z) : bool * vuser :=
  match copyout (vu_kend u) (vu_id u) (root (vu_P u)) va KBUF (alen bs) (set_ram (poke (ram (vu_s u)) KBUF bs) (vu_s u)) with
  | Ret r s' => (r =? 0, mk_vuser (vu_kend u) (vu_id u) s' (vu_P u))
  | _ => (false, u)
  end.

Section vuser.
Context (u : vuser).
Hypothesis Hu : vok u.

(** No page frame overlaps the kernel image. *)
Lemma kbuf_no_page x q n : n <= PGSIZE -> KBUF <= x < KBUF + n -> page_ok (vu_kend u) PHYSTOP q -> q <= x < q + PGSIZE -> False.
Proof using Hu. intros Hn Hx Hq Hxq. pose proof (vk_buf u Hu). destruct Hq as [_ Hq]. lia. Qed.

Lemma kbuf_in_ram n : 0 <= n <= PGSIZE -> in_ram KBUF n = true.
Proof using Hu.
  intros Hn. pose proof (vk_buf u Hu). destruct (vk_kend u Hu) as [_ Hk]. unfold in_ram, KBUF in *.
  by rewrite (proj2 (Z.leb_le _ _)), (proj2 (Z.leb_le _ _)) by lia.
Qed.

Lemma umem_byte va b : umem (ram (vu_s u)) (vu_P u) va = Some b -> 0 <= b < 256.
Proof using Hu.
  unfold umem. destruct (_ && _ && _); [|done]. intros [= <-].
  destruct (us_vm _ _ _ (vk_space u Hu)) as ([ls Hls] & _). apply Hls.
Qed.

(** User memory does not see the buffer. *)
Lemma umem_poked bs va : alen bs <= PGSIZE -> 0 <= va ->
  (forall va, lk (poke (ram (vu_s u)) KBUF bs) (vu_P u) va = lk (ram (vu_s u)) (vu_P u) va) ->
  umem (poke (ram (vu_s u)) KBUF bs) (vu_P u) va = umem (ram (vu_s u)) (vu_P u) va.
Proof using Hu.
  intros Hlen Hva Hlk. unfold umem. rewrite Hlk. set (e := lk _ _ va).
  destruct (Z.ltb_spec va MAXVA) as [Hm|], (has e PTE_V) eqn:Hv, (has e PTE_U) eqn:HU; cbn [andb]; try done. f_equal.
  destruct (decide (va < TRAPFRAME)) as [Ht|Ht].
  - destruct (us_leaf _ _ _ (vk_space u Hu) va ltac:(lia) Hv) as [_ _ Hp _ _]. fold e in Hp.
    pose proof (Z.mod_pos_bound va PGSIZE ltac:(unfold PGSIZE; lia)). pose proof (vk_buf u Hu). destruct Hp as [_ Hp].
    apply poke_out. lia.
  - pose proof (us_high _ _ _ (vk_space u Hu) va ltac:(lia) Hv) as Hf. fold e in Hf. congruence.
Qed.

(** The machine with a buffer filled in. *)
Lemma poked_space bs : alen bs <= ULIMIT ->
  let s1 := set_ram (poke (ram (vu_s u)) KBUF bs) (vu_s u) in
  uspace (vu_kend u) s1 (vu_P u) /\ cow_ok s1 (vu_P u) /\
  (forall a, 0 <= a -> umem (ram s1) (vu_P u) a = umem (ram (vu_s u)) (vu_P u) a) /\
  forall x q, KBUF <= x < KBUF + alen bs -> page_ok (vu_kend u) PHYSTOP q -> q <= x < q + PGSIZE -> False.
Proof using Hu.
  intros Hlen s1. unfold ULIMIT in *.
  assert (Hmem : mem_ok (ram (vu_s u))) by (destruct (us_vm _ _ _ (vk_space u Hu)) as ([ls Hls] & _); apply Hls).
  assert (Hpg : forall x q, KBUF <= x < KBUF + alen bs -> page_ok (vu_kend u) PHYSTOP q -> q <= x < q + PGSIZE -> False).
  { intros x q Hx. apply (kbuf_no_page x q (alen bs)); [unfold PGSIZE; lia|done]. }
  destruct (uspace_write (vu_kend u) (vu_s u) (vu_P u) (fun x => KBUF <= x < KBUF + alen bs) (poke (ram (vu_s u)) KBUF bs))
    as [Hus1 Hlk]; [apply Hu|by apply poke_ok|intros x Hx; apply poke_out; lia|by intros x q Hx Hq Hxq; destruct (Hpg x q)|].
  fold s1 in Hus1. split_and!; try done.
  - intros a Ha; cbn [ram s1 set_ram]; rewrite Hlk; by apply Hu.
  - intros a Ha; by apply umem_poked.
Qed.

Lemma vcopyin_ok va buf : 0 <= va -> alen buf <= ULIMIT -> bytes buf ->
  let got := uprefix (umem (ram (vu_s u)) (vu_P u)) (length buf) va in
  vcopyin u va buf = (alen got =? alen buf, got ++ drop (length got) buf).
Proof using Hu.
  intros Hva Hlen Hbs. destruct (poked_space buf Hlen) as (Hus1 & _ & Hview & Hpg). unfold vcopyin, ULIMIT in *. set (s1 := set_ram _ _) in *.
  assert (Hb : kbuf (vu_kend u) s1 (vu_P u) KBUF (alen buf)).
  { split; [apply kbuf_in_ram; unfold alen, PGSIZE in *; lia|]. intros x q Hx Hq Hxq. by destruct (Hpg x q). }
  destruct (copyin_loop_spec (vu_kend u) (vk_kend u Hu) (vu_id u) (vu_P u) (copy_fuel (alen buf)) s1 KBUF va (alen buf))
    as (r & m' & k & Hrun & Hk & (_ & H1 & H2) & Hr); [done|done|done|unfold alen; lia|apply rounds_fuel; unfold alen; lia|].
  unfold copyin. rewrite Hrun. cbn [ram set_ram].
  assert (Hgot : uprefix (umem (ram (vu_s u)) (vu_P u)) (length buf) va = peek m' KBUF k).
  { assert (Hpl : length (peek m' KBUF k) = Z.to_nat k) by (unfold peek; by rewrite length_fmap, length_seqZ).
    unfold alen in *. apply uprefix_all; rewrite ?Hpl; [lia| |].
    - intros i b Hi. unfold peek in Hi. apply list_lookup_fmap_Some in Hi as (j & -> & [-> Hj]%lookup_seqZ).
      rewrite <- Hview, H1 by lia. do 2 f_equal; lia.
    - destruct Hr as [[_ ->]|(_ & Hlt & Hnone)]; [left; lia|right]. by rewrite Z2Nat.id, <- Hview by lia. }
  rewrite Hgot. f_equal.
  - unfold peek, alen. rewrite length_fmap, length_seqZ. unfold alen in *.
    destruct Hr as [[-> ->]|(-> & Hlt & _)]; cbn [Z.eqb]; symmetry; [apply Z.eqb_eq|apply Z.eqb_neq]; lia.
  - unfold peek, alen in *. rewrite length_fmap, length_seqZ. apply list_eq. intros i.
    destruct (decide (i < length buf)%nat) as [Hi|Hi]; cycle 1.
    { rewrite !lookup_ge_None_2; [done| |]; rewrite ?length_app, ?length_fmap, ?length_seqZ, ?length_drop; lia. }
    rewrite list_lookup_fmap, lookup_seqZ_lt by lia. cbn [fmap option_fmap option_map]. destruct (decide (i < Z.to_nat k)%nat) as [Hik|Hik].
    + rewrite lookup_app_l by (rewrite length_fmap, length_seqZ; lia). by rewrite list_lookup_fmap, lookup_seqZ_lt by lia.
    + rewrite lookup_app_r by (rewrite length_fmap, length_seqZ; lia). rewrite length_fmap, length_seqZ, lookup_drop, H2 by lia.
      destruct (lookup_lt_is_Some_2 buf i) as [b Hib]; [lia|]. cbn [ram s1 set_ram].
      rewrite Z.add_0_l, (poke_in buf _ KBUF i b Hib). replace (Z.to_nat k + (i - Z.to_nat k))%nat with i by lia. rewrite Hib. f_equal.
      apply u8_small. apply (proj1 (Forall_lookup _ _) Hbs _ _ Hib).
Qed.

Lemma vcopyout_ok va bs : 0 <= va -> alen bs <= ULIMIT -> bytes bs ->
  exists k b u', vcopyout u va bs = (b, u') /\ vok u' /\ (k <= length bs)%nat /\ (b = true <-> k = length bs) /\
    forall a, 0 <= a -> umem (ram (vu_s u')) (vu_P u') a =
      if decide (va <= a < va + Z.of_nat k) then bs !! Z.to_nat (a - va) else umem (ram (vu_s u)) (vu_P u) a.
Proof using Hu.
  intros Hva Hlen Hbs. destruct (poked_space bs Hlen) as (Hus1 & Hcow1 & Hview & Hpg). unfold vcopyout, ULIMIT in *. set (s1 := set_ram _ _) in *.
  assert (Hsrc : ksrc (vu_kend u) s1 (vu_P u) KBUF (alen bs)).
  { split; [apply kbuf_in_ram; unfold alen, PGSIZE in *; lia|]. intros x q Hx Hq Hxq. by destruct (Hpg x q). }
  destruct (copyout_loop_spec (vu_kend u) (vk_kend u Hu) (vu_id u) (vu_P u) (vk_id u Hu) (copy_fuel (alen bs)) s1 va KBUF (alen bs))
    as (r & s' & k & Hrun & Hus & Hcow & _ & Hk & Hw & Hr); try done; [unfold alen; lia|apply rounds_fuel; unfold alen; lia|].
  unfold copyout. rewrite Hrun. exists (Z.to_nat k), (r =? 0), (mk_vuser (vu_kend u) (vu_id u) s' (vu_P u)).
  split; [done|]. split; [destruct Hu; by split|]. unfold alen in *. split; [lia|]. split.
  { destruct Hr as [[-> ->]|(-> & Hlt & _)]; cbn [Z.eqb]; split; (done || lia). }
  intros a Ha. cbn [vu_s vu_P]. rewrite (Hw a Ha), Z2Nat.id by lia.
  destruct (Z.leb_spec va a), (Z.ltb_spec a (va + k)); cbn [andb]; [|rewrite decide_False by lia; by apply Hview..].
  rewrite decide_True by lia. destruct (lookup_lt_is_Some_2 bs (Z.to_nat (a - va))) as [b Hb]; [lia|]. rewrite Hb. f_equal.
  cbn [ram s1 set_ram]. pose proof (poke_in bs (ram (vu_s u)) KBUF _ b Hb) as E. rewrite Z2Nat.id in E by lia. rewrite E.
  apply u8_small. apply (proj1 (Forall_lookup _ _) Hbs _ _ Hb).
Qed.

End vuser.

#[export, refine] Instance vm_user : UserMem vuser := {|
  uok := vok;
  uview := fun u va => umem (ram (vu_s u)) (vu_P u) va;
  ucopyin := vcopyin;
  ucopyout := vcopyout |}.
Proof.
  - intros u va b Hu _. by apply umem_byte.
  - intros u va buf Hu. by apply vcopyin_ok.
  - intros u va bs Hu. by apply vcopyout_ok.
Defined.

End Vmuser.
