(* ===== verification/Runset.v ===== *)
(** The run queue of [SchedO1.v] as a set of processes, which is all that the
    process table code relies on. *)

From S2P Require Import Prelude SchedO1.

Module Runset.

Definition onq (st : SchedO1.runq) (i : nat) : Prop :=
  exists x, SchedO1.procs st !! i = Some x /\ SchedO1.on_runq x = true.
Definition rqok (st : SchedO1.runq) : Prop := exists qs, SchedO1.rq_repr st qs.

Lemma onq_queues st qs i : SchedO1.rq_repr st qs -> onq st i <-> i ∈ concat qs.
Proof.
  intros Hr. rewrite elem_concat. split.
  - intros (x & Hx & Hon). by apply (SchedO1.rr_on _ _ Hr i x).
  - intros (k & l & Hl & Hi). destruct (SchedO1.rr_elem _ _ Hr _ _ _ Hl Hi) as (x & Hx & Hon & _). by exists x.
Qed.

Lemma rqok_slot st i : rqok st -> (i < SchedO1.NPROC)%nat -> exists x, SchedO1.procs st !! i = Some x.
Proof. intros [qs Hr] Hi. apply lookup_lt_is_Some_2. by rewrite (SchedO1.rr_procs _ _ Hr). Qed.

Lemma onq_lt st i : rqok st -> onq st i -> (i < SchedO1.NPROC)%nat.
Proof. intros [qs Hr] (x & Hx & _). rewrite <- (SchedO1.rr_procs _ _ Hr). by eapply lookup_lt_Some. Qed.

Lemma enqueue_set st i : rqok st -> (i < SchedO1.NPROC)%nat ->
  exists st', SchedO1.runq_enqueue i st = Ret tt st' /\ rqok st' /\ forall j, onq st' j <-> onq st j \/ j = i.
Proof.
  intros [qs Hr] Hi. destruct (rqok_slot st i (ex_intro _ qs Hr) Hi) as [x Hx].
  destruct (SchedO1.runq_enqueue_spec st qs i x Hr Hx) as (st' & Hrun & _ & Hst). exists st'. split; [done|].
  destruct (SchedO1.on_runq x) eqn:Hon.
  - subst st'. split; [by exists qs|]. intros j. split; [by left|]. intros [ | -> ]; [done|by exists x].
  - destruct Hst as (l & Hl & Hr'). split; [by eexists|]. intros j. rewrite (onq_queues _ _ j Hr'), (onq_queues _ _ j Hr).
    rewrite (concat_snoc_perm qs _ l i Hl), elem_of_cons. tauto.
Qed.

Lemma remove_set st i : rqok st -> onq st i ->
  exists st', SchedO1.runq_remove i st = Ret tt st' /\ rqok st' /\ forall j, onq st' j <-> onq st j /\ j <> i.
Proof.
  intros [qs Hr] (x & Hx & Hon).
  destruct (SchedO1.runq_remove_spec st qs i x Hr Hx Hon) as (k & l1 & l2 & Hk & _ & _ & Hrun & Hr' & _).
  eexists. split; [exact Hrun|]. split; [by eexists|]. intros j. rewrite (onq_queues _ _ j Hr'), (onq_queues _ _ j Hr).
  rewrite <- (concat_remove_perm qs k l1 l2 i Hk), elem_of_cons.
  assert (Hni : i ∉ concat (<[k := l1 ++ l2]> qs)).
  { intros Hin. apply elem_concat in Hin as (k' & l' & Hl' & Hi). apply list_insert_cases in Hl' as [[-> ->]|[Hne Hl']].
    - pose proof (SchedO1.rr_nodup _ _ Hr _ _ Hk) as Hnd. apply NoDup_app in Hnd as (_ & Hd & Hnd).
      apply NoDup_cons in Hnd as [Hi2 _]. apply elem_of_app in Hi as [Hi|Hi]; [|done]. by apply (Hd i Hi), elem_of_cons; left.
    - apply Hne. apply (SchedO1.rr_same_bucket _ _ Hr k' k l' (l1 ++ i :: l2) i); [done|done|done|].
      apply elem_of_app. right. apply list_elem_of_here. }
  split; [intros Hj; split; [by right|intros ->; done]|]. intros [[->|]]; done.
Qed.

Lemma pick_set st : rqok st ->
  (SchedO1.runq_pick st = Ret None st /\ forall j, ~ onq st j) \/
  exists i st', SchedO1.runq_pick st = Ret (Some i) st' /\ rqok st' /\ onq st i /\ forall j, onq st' j <-> onq st j /\ j <> i.
Proof.
  intros [qs Hr]. destruct (SchedO1.runq_pick_spec st qs Hr) as [[Hrun Hno]|(k & i & l & st' & Hrun & Hk & _ & Hr' & _)].
  - left. split; [done|]. intros j. rewrite (onq_queues _ _ j Hr), elem_concat. intros (k & l & Hl & Hj).
    rewrite (Hno k l Hl) in Hj. by apply not_elem_of_nil in Hj.
  - right. exists i, st'. split; [done|]. split; [by eexists|]. assert (Hi : onq st i).
    { apply (onq_queues _ _ i Hr), elem_concat. exists k, (i :: l). split; [done|]. apply list_elem_of_here. }
    split; [done|]. intros j. rewrite (onq_queues _ _ j Hr'), (onq_queues _ _ j Hr).
    rewrite <- (concat_remove_perm qs k [] l i Hk), elem_of_cons. cbn [app].
    assert (Hni : i ∉ concat (<[k := l]> qs)).
    { intros Hin. apply elem_concat in Hin as (k' & l' & Hl' & Hi'). apply list_insert_cases in Hl' as [[-> ->]|[Hne Hl']].
      - pose proof (SchedO1.rr_nodup _ _ Hr _ _ Hk) as Hnd. by apply NoDup_cons in Hnd as [Hi2 _].
      - apply Hne. apply (SchedO1.rr_same_bucket _ _ Hr k' k l' (i :: l) i); try done. apply list_elem_of_here. }
    split; [intros Hj; split; [by right|intros ->; done]|]. intros [[->|]]; done.
Qed.

Lemma tick_set st r : rqok st -> (forall i, r = Some i -> (i < SchedO1.NPROC)%nat) ->
  exists st', SchedO1.sched_tick r st = Ret tt st' /\ rqok st' /\ forall j, onq st' j <-> onq st j.
Proof.
  intros [qs Hr] Hi. destruct (SchedO1.sched_tick_spec st qs r Hr Hi) as (st' & qs' & Hrun & Hr' & Hp & _).
  exists st'. split; [done|]. split; [by exists qs'|]. intros j. rewrite (onq_queues _ _ j Hr'), (onq_queues _ _ j Hr). by rewrite Hp.
Qed.

(** The scheduling fields of a process that is not queued may change. *)
Lemma modp_set st i f : rqok st -> (i < SchedO1.NPROC)%nat -> ~ onq st i ->
  (forall x, SchedO1.on_runq (f x) = SchedO1.on_runq x) ->
  exists st', SchedO1.modp i f st = Ret tt st' /\ rqok st' /\ forall j, onq st' j <-> onq st j.
Proof.
  intros [qs Hr] Hi Hoff Hf. destruct (rqok_slot st i (ex_intro _ qs Hr) Hi) as [x Hx].
  assert (Hon : SchedO1.on_runq x = false) by (apply not_true_is_false; intros E; apply Hoff; by exists x).
  eexists. split; [apply SchedO1.modp_Ret; by eexists|].
  assert (Hlk : forall j y, alter f i (SchedO1.procs st) !! j = Some y ->
    exists y0, SchedO1.procs st !! j = Some y0 /\ SchedO1.on_runq y = SchedO1.on_runq y0 /\ (j <> i -> y = y0)).
  { intros j y Hj. rewrite list_lookup_alter in Hj. case_decide as Hd; [subst j|by exists y].
    rewrite Hx in Hj. injection Hj as <-. exists x. by rewrite Hf. }
  split.
  - exists qs. destruct Hr as [R1 R2 R3 R4 R5 R6 R7 R8 R9 R10 R11]. split; try done; cbn.
    + by rewrite length_alter.
    + intros k l1 p l2 Hk. destruct (R7 k l1 p l2 Hk) as (y & Hy & Ho & Hrest). exists y. split; [|done].
      rewrite list_lookup_alter. case_decide as Hd; [subst p; congruence|done].
    + intros p y Hy Ho. destruct (Hlk p y Hy) as (y0 & Hy0 & Eo & _). apply (R9 p y0); congruence.
  - intros j. unfold onq. cbn. split.
    + intros (y & Hy & Ho). destruct (Hlk j y Hy) as (y0 & Hy0 & Eo & _). exists y0. split; [done|congruence].
    + intros (y & Hy & Ho). exists y. split; [|done]. rewrite list_lookup_alter. case_decide as Hd; [subst j; congruence|done].
Qed.

(** A change that keeps the links of a process keeps the queues. *)
Lemma modp_links_set st i f : rqok st -> (i < SchedO1.NPROC)%nat ->
  (forall x, SchedO1.links (f x) = SchedO1.links x) ->
  exists st', SchedO1.modp i f st = Ret tt st' /\ rqok st' /\ forall j, onq st' j <-> onq st j.
Proof.
  intros [qs Hr] Hi Hf. destruct (rqok_slot st i (ex_intro _ qs Hr) Hi) as [x Hx].
  eexists. split; [apply SchedO1.modp_Ret; by eexists|].
  assert (Hl : SchedO1.same_links st (SchedO1.set_procs (alter f i (SchedO1.procs st)) st)).
  { intros q. cbn. rewrite list_lookup_alter. case_decide as Hd; [subst|done].
    destruct (SchedO1.procs st !! q) as [y|]; [|done]. simpl. by rewrite Hf. }
  pose proof (SchedO1.rq_repr_links st qs _ Hr Hl) as Hr'. split; [by eexists|]. intros j.
  rewrite (onq_queues _ _ j Hr'), (onq_queues _ _ j Hr). done.
Qed.

End Runset.
