(* ===== verification/Ptable.v ===== *)
(** The process table: [struct proc] of [src/kernel/include/proc.h], except its
    lock and the scheduling fields, which are those of [SchedO1.v]. *)

From S2P Require Import Prelude.

Module Ptable.

Inductive procstate := UNUSED | SLEEPING | RUNNABLE | RUNNING | ZOMBIE.
#[global] Instance procstate_eq_dec : EqDecision procstate.
Proof. solve_decision. Defined.

(** What a process sleeps on: nothing, a process (in [wait]), or some other
    kernel object. *)
Inductive channel := Cnone | Cproc (i : nat) | Cobj (a : Z).
#[global] Instance channel_eq_dec : EqDecision channel.
Proof. solve_decision. Defined.

(** [struct vm_area] *)
Record vm_area := mk_vma {
  v_used : Z;
  v_addr : Z;
  v_len : Z;
  v_prot : Z;
  v_flags : Z;
  v_vfd : Z;
  v_vfile : Z;
  v_offset : Z }.

(** A [struct proc *] is an index into the table; pointers to other objects are
    addresses, 0 being null. *)
Record proc := mk_proc {
  p_state : procstate;
  p_parent : option nat;
  p_chan : channel;
  p_killed : Z;
  p_xstate : Z;
  p_pid : Z;
  p_kstack : Z;
  p_sz : Z;
  p_pagetable : Z;
  p_trapframe : Z;
  p_ofile : list Z;
  p_cwd : Z;
  p_name : string;
  p_trace_mask : Z;
  p_vma : list vm_area;
  p_pthread : option nat;
  p_ustack : Z;
  p_shm : Z;
  p_shmkeymask : Z;
  p_shmva : list Z;
  p_mqmask : Z;
  p_alarm_interval : Z;
  p_alarm_handler : Z;
  p_alarm_ticks : Z;
  p_alarm_trapframe : Z;
  p_alarm_goingoff : Z }.

Definition set_state (x : procstate) (p : proc) : proc :=
  mk_proc x (p_parent p) (p_chan p) (p_killed p) (p_xstate p) (p_pid p) (p_kstack p) (p_sz p) (p_pagetable p)
    (p_trapframe p) (p_ofile p) (p_cwd p) (p_name p) (p_trace_mask p) (p_vma p) (p_pthread p) (p_ustack p) (p_shm p)
    (p_shmkeymask p) (p_shmva p) (p_mqmask p) (p_alarm_interval p) (p_alarm_handler p) (p_alarm_ticks p)
    (p_alarm_trapframe p) (p_alarm_goingoff p).
Definition set_parent (x : option nat) (p : proc) : proc :=
  mk_proc (p_state p) x (p_chan p) (p_killed p) (p_xstate p) (p_pid p) (p_kstack p) (p_sz p) (p_pagetable p)
    (p_trapframe p) (p_ofile p) (p_cwd p) (p_name p) (p_trace_mask p) (p_vma p) (p_pthread p) (p_ustack p) (p_shm p)
    (p_shmkeymask p) (p_shmva p) (p_mqmask p) (p_alarm_interval p) (p_alarm_handler p) (p_alarm_ticks p)
    (p_alarm_trapframe p) (p_alarm_goingoff p).
Definition set_chan (x : channel) (p : proc) : proc :=
  mk_proc (p_state p) (p_parent p) x (p_killed p) (p_xstate p) (p_pid p) (p_kstack p) (p_sz p) (p_pagetable p)
    (p_trapframe p) (p_ofile p) (p_cwd p) (p_name p) (p_trace_mask p) (p_vma p) (p_pthread p) (p_ustack p) (p_shm p)
    (p_shmkeymask p) (p_shmva p) (p_mqmask p) (p_alarm_interval p) (p_alarm_handler p) (p_alarm_ticks p)
    (p_alarm_trapframe p) (p_alarm_goingoff p).
Definition set_killed (x : Z) (p : proc) : proc :=
  mk_proc (p_state p) (p_parent p) (p_chan p) x (p_xstate p) (p_pid p) (p_kstack p) (p_sz p) (p_pagetable p)
    (p_trapframe p) (p_ofile p) (p_cwd p) (p_name p) (p_trace_mask p) (p_vma p) (p_pthread p) (p_ustack p) (p_shm p)
    (p_shmkeymask p) (p_shmva p) (p_mqmask p) (p_alarm_interval p) (p_alarm_handler p) (p_alarm_ticks p)
    (p_alarm_trapframe p) (p_alarm_goingoff p).
Definition set_xstate (x : Z) (p : proc) : proc :=
  mk_proc (p_state p) (p_parent p) (p_chan p) (p_killed p) x (p_pid p) (p_kstack p) (p_sz p) (p_pagetable p)
    (p_trapframe p) (p_ofile p) (p_cwd p) (p_name p) (p_trace_mask p) (p_vma p) (p_pthread p) (p_ustack p) (p_shm p)
    (p_shmkeymask p) (p_shmva p) (p_mqmask p) (p_alarm_interval p) (p_alarm_handler p) (p_alarm_ticks p)
    (p_alarm_trapframe p) (p_alarm_goingoff p).
Definition set_pid (x : Z) (p : proc) : proc :=
  mk_proc (p_state p) (p_parent p) (p_chan p) (p_killed p) (p_xstate p) x (p_kstack p) (p_sz p) (p_pagetable p)
    (p_trapframe p) (p_ofile p) (p_cwd p) (p_name p) (p_trace_mask p) (p_vma p) (p_pthread p) (p_ustack p) (p_shm p)
    (p_shmkeymask p) (p_shmva p) (p_mqmask p) (p_alarm_interval p) (p_alarm_handler p) (p_alarm_ticks p)
    (p_alarm_trapframe p) (p_alarm_goingoff p).
Definition set_kstack (x : Z) (p : proc) : proc :=
  mk_proc (p_state p) (p_parent p) (p_chan p) (p_killed p) (p_xstate p) (p_pid p) x (p_sz p) (p_pagetable p)
    (p_trapframe p) (p_ofile p) (p_cwd p) (p_name p) (p_trace_mask p) (p_vma p) (p_pthread p) (p_ustack p) (p_shm p)
    (p_shmkeymask p) (p_shmva p) (p_mqmask p) (p_alarm_interval p) (p_alarm_handler p) (p_alarm_ticks p)
    (p_alarm_trapframe p) (p_alarm_goingoff p).
Definition set_sz (x : Z) (p : proc) : proc :=
  mk_proc (p_state p) (p_parent p) (p_chan p) (p_killed p) (p_xstate p) (p_pid p) (p_kstack p) x (p_pagetable p)
    (p_trapframe p) (p_ofile p) (p_cwd p) (p_name p) (p_trace_mask p) (p_vma p) (p_pthread p) (p_ustack p) (p_shm p)
    (p_shmkeymask p) (p_shmva p) (p_mqmask p) (p_alarm_interval p) (p_alarm_handler p) (p_alarm_ticks p)
    (p_alarm_trapframe p) (p_alarm_goingoff p).
Definition set_pagetable (x : Z) (p : proc) : proc :=
  mk_proc (p_state p) (p_parent p) (p_chan p) (p_killed p) (p_xstate p) (p_pid p) (p_kstack p) (p_sz p) x
    (p_trapframe p) (p_ofile p) (p_cwd p) (p_name p) (p_trace_mask p) (p_vma p) (p_pthread p) (p_ustack p) (p_shm p)
    (p_shmkeymask p) (p_shmva p) (p_mqmask p) (p_alarm_interval p) (p_alarm_handler p) (p_alarm_ticks p)
    (p_alarm_trapframe p) (p_alarm_goingoff p).
Definition set_trapframe (x : Z) (p : proc) : proc :=
  mk_proc (p_state p) (p_parent p) (p_chan p) (p_killed p) (p_xstate p) (p_pid p) (p_kstack p) (p_sz p)
    (p_pagetable p) x (p_ofile p) (p_cwd p) (p_name p) (p_trace_mask p) (p_vma p) (p_pthread p) (p_ustack p) (p_shm p)
    (p_shmkeymask p) (p_shmva p) (p_mqmask p) (p_alarm_interval p) (p_alarm_handler p) (p_alarm_ticks p)
    (p_alarm_trapframe p) (p_alarm_goingoff p).
Definition set_ofile (x : list Z) (p : proc) : proc :=
  mk_proc (p_state p) (p_parent p) (p_chan p) (p_killed p) (p_xstate p) (p_pid p) (p_kstack p) (p_sz p)
    (p_pagetable p) (p_trapframe p) x (p_cwd p) (p_name p) (p_trace_mask p) (p_vma p) (p_pthread p) (p_ustack p)
    (p_shm p) (p_shmkeymask p) (p_shmva p) (p_mqmask p) (p_alarm_interval p) (p_alarm_handler p) (p_alarm_ticks p)
    (p_alarm_trapframe p) (p_alarm_goingoff p).
Definition set_cwd (x : Z) (p : proc) : proc :=
  mk_proc (p_state p) (p_parent p) (p_chan p) (p_killed p) (p_xstate p) (p_pid p) (p_kstack p) (p_sz p)
    (p_pagetable p) (p_trapframe p) (p_ofile p) x (p_name p) (p_trace_mask p) (p_vma p) (p_pthread p) (p_ustack p)
    (p_shm p) (p_shmkeymask p) (p_shmva p) (p_mqmask p) (p_alarm_interval p) (p_alarm_handler p) (p_alarm_ticks p)
    (p_alarm_trapframe p) (p_alarm_goingoff p).
Definition set_name (x : string) (p : proc) : proc :=
  mk_proc (p_state p) (p_parent p) (p_chan p) (p_killed p) (p_xstate p) (p_pid p) (p_kstack p) (p_sz p)
    (p_pagetable p) (p_trapframe p) (p_ofile p) (p_cwd p) x (p_trace_mask p) (p_vma p) (p_pthread p) (p_ustack p)
    (p_shm p) (p_shmkeymask p) (p_shmva p) (p_mqmask p) (p_alarm_interval p) (p_alarm_handler p) (p_alarm_ticks p)
    (p_alarm_trapframe p) (p_alarm_goingoff p).
Definition set_trace_mask (x : Z) (p : proc) : proc :=
  mk_proc (p_state p) (p_parent p) (p_chan p) (p_killed p) (p_xstate p) (p_pid p) (p_kstack p) (p_sz p)
    (p_pagetable p) (p_trapframe p) (p_ofile p) (p_cwd p) (p_name p) x (p_vma p) (p_pthread p) (p_ustack p) (p_shm p)
    (p_shmkeymask p) (p_shmva p) (p_mqmask p) (p_alarm_interval p) (p_alarm_handler p) (p_alarm_ticks p)
    (p_alarm_trapframe p) (p_alarm_goingoff p).
Definition set_vma (x : list vm_area) (p : proc) : proc :=
  mk_proc (p_state p) (p_parent p) (p_chan p) (p_killed p) (p_xstate p) (p_pid p) (p_kstack p) (p_sz p)
    (p_pagetable p) (p_trapframe p) (p_ofile p) (p_cwd p) (p_name p) (p_trace_mask p) x (p_pthread p) (p_ustack p)
    (p_shm p) (p_shmkeymask p) (p_shmva p) (p_mqmask p) (p_alarm_interval p) (p_alarm_handler p) (p_alarm_ticks p)
    (p_alarm_trapframe p) (p_alarm_goingoff p).
Definition set_pthread (x : option nat) (p : proc) : proc :=
  mk_proc (p_state p) (p_parent p) (p_chan p) (p_killed p) (p_xstate p) (p_pid p) (p_kstack p) (p_sz p)
    (p_pagetable p) (p_trapframe p) (p_ofile p) (p_cwd p) (p_name p) (p_trace_mask p) (p_vma p) x (p_ustack p)
    (p_shm p) (p_shmkeymask p) (p_shmva p) (p_mqmask p) (p_alarm_interval p) (p_alarm_handler p) (p_alarm_ticks p)
    (p_alarm_trapframe p) (p_alarm_goingoff p).
Definition set_ustack (x : Z) (p : proc) : proc :=
  mk_proc (p_state p) (p_parent p) (p_chan p) (p_killed p) (p_xstate p) (p_pid p) (p_kstack p) (p_sz p)
    (p_pagetable p) (p_trapframe p) (p_ofile p) (p_cwd p) (p_name p) (p_trace_mask p) (p_vma p) (p_pthread p) x
    (p_shm p) (p_shmkeymask p) (p_shmva p) (p_mqmask p) (p_alarm_interval p) (p_alarm_handler p) (p_alarm_ticks p)
    (p_alarm_trapframe p) (p_alarm_goingoff p).
Definition set_shm (x : Z) (p : proc) : proc :=
  mk_proc (p_state p) (p_parent p) (p_chan p) (p_killed p) (p_xstate p) (p_pid p) (p_kstack p) (p_sz p)
    (p_pagetable p) (p_trapframe p) (p_ofile p) (p_cwd p) (p_name p) (p_trace_mask p) (p_vma p) (p_pthread p)
    (p_ustack p) x (p_shmkeymask p) (p_shmva p) (p_mqmask p) (p_alarm_interval p) (p_alarm_handler p)
    (p_alarm_ticks p) (p_alarm_trapframe p) (p_alarm_goingoff p).
Definition set_shmkeymask (x : Z) (p : proc) : proc :=
  mk_proc (p_state p) (p_parent p) (p_chan p) (p_killed p) (p_xstate p) (p_pid p) (p_kstack p) (p_sz p)
    (p_pagetable p) (p_trapframe p) (p_ofile p) (p_cwd p) (p_name p) (p_trace_mask p) (p_vma p) (p_pthread p)
    (p_ustack p) (p_shm p) x (p_shmva p) (p_mqmask p) (p_alarm_interval p) (p_alarm_handler p) (p_alarm_ticks p)
    (p_alarm_trapframe p) (p_alarm_goingoff p).
Definition set_shmva (x : list Z) (p : proc) : proc :=
  mk_proc (p_state p) (p_parent p) (p_chan p) (p_killed p) (p_xstate p) (p_pid p) (p_kstack p) (p_sz p)
    (p_pagetable p) (p_trapframe p) (p_ofile p) (p_cwd p) (p_name p) (p_trace_mask p) (p_vma p) (p_pthread p)
    (p_ustack p) (p_shm p) (p_shmkeymask p) x (p_mqmask p) (p_alarm_interval p) (p_alarm_handler p) (p_alarm_ticks p)
    (p_alarm_trapframe p) (p_alarm_goingoff p).
Definition set_mqmask (x : Z) (p : proc) : proc :=
  mk_proc (p_state p) (p_parent p) (p_chan p) (p_killed p) (p_xstate p) (p_pid p) (p_kstack p) (p_sz p)
    (p_pagetable p) (p_trapframe p) (p_ofile p) (p_cwd p) (p_name p) (p_trace_mask p) (p_vma p) (p_pthread p)
    (p_ustack p) (p_shm p) (p_shmkeymask p) (p_shmva p) x (p_alarm_interval p) (p_alarm_handler p) (p_alarm_ticks p)
    (p_alarm_trapframe p) (p_alarm_goingoff p).
Definition set_alarm_interval (x : Z) (p : proc) : proc :=
  mk_proc (p_state p) (p_parent p) (p_chan p) (p_killed p) (p_xstate p) (p_pid p) (p_kstack p) (p_sz p)
    (p_pagetable p) (p_trapframe p) (p_ofile p) (p_cwd p) (p_name p) (p_trace_mask p) (p_vma p) (p_pthread p)
    (p_ustack p) (p_shm p) (p_shmkeymask p) (p_shmva p) (p_mqmask p) x (p_alarm_handler p) (p_alarm_ticks p)
    (p_alarm_trapframe p) (p_alarm_goingoff p).
Definition set_alarm_handler (x : Z) (p : proc) : proc :=
  mk_proc (p_state p) (p_parent p) (p_chan p) (p_killed p) (p_xstate p) (p_pid p) (p_kstack p) (p_sz p)
    (p_pagetable p) (p_trapframe p) (p_ofile p) (p_cwd p) (p_name p) (p_trace_mask p) (p_vma p) (p_pthread p)
    (p_ustack p) (p_shm p) (p_shmkeymask p) (p_shmva p) (p_mqmask p) (p_alarm_interval p) x (p_alarm_ticks p)
    (p_alarm_trapframe p) (p_alarm_goingoff p).
Definition set_alarm_ticks (x : Z) (p : proc) : proc :=
  mk_proc (p_state p) (p_parent p) (p_chan p) (p_killed p) (p_xstate p) (p_pid p) (p_kstack p) (p_sz p)
    (p_pagetable p) (p_trapframe p) (p_ofile p) (p_cwd p) (p_name p) (p_trace_mask p) (p_vma p) (p_pthread p)
    (p_ustack p) (p_shm p) (p_shmkeymask p) (p_shmva p) (p_mqmask p) (p_alarm_interval p) (p_alarm_handler p) x
    (p_alarm_trapframe p) (p_alarm_goingoff p).
Definition set_alarm_trapframe (x : Z) (p : proc) : proc :=
  mk_proc (p_state p) (p_parent p) (p_chan p) (p_killed p) (p_xstate p) (p_pid p) (p_kstack p) (p_sz p)
    (p_pagetable p) (p_trapframe p) (p_ofile p) (p_cwd p) (p_name p) (p_trace_mask p) (p_vma p) (p_pthread p)
    (p_ustack p) (p_shm p) (p_shmkeymask p) (p_shmva p) (p_mqmask p) (p_alarm_interval p) (p_alarm_handler p)
    (p_alarm_ticks p) x (p_alarm_goingoff p).
Definition set_alarm_goingoff (x : Z) (p : proc) : proc :=
  mk_proc (p_state p) (p_parent p) (p_chan p) (p_killed p) (p_xstate p) (p_pid p) (p_kstack p) (p_sz p)
    (p_pagetable p) (p_trapframe p) (p_ofile p) (p_cwd p) (p_name p) (p_trace_mask p) (p_vma p) (p_pthread p)
    (p_ustack p) (p_shm p) (p_shmkeymask p) (p_shmva p) (p_mqmask p) (p_alarm_interval p) (p_alarm_handler p)
    (p_alarm_ticks p) (p_alarm_trapframe p) x.

End Ptable.
