(* ===== verification/Proc.v ===== *)
(** Processes, [src/kernel/proc/proc.c].

    The code that creates, ends, waits for, kills, suspends and resumes
    processes. What it asks of memory, files and the other subsystems is the
    class [Env]; the run queue is that of [SchedO1.v]. Each definition covers
    what the source does while it holds the process locks it needs. *)

From S2P Require Import Prelude SchedO1 Ptable.
Import Ptable.

Module Proc.

Definition NPROC : nat := SchedO1.NPROC.
Definition NOFILE : nat := 16.
Definition PGSIZE : Z := 4096.
Definition KERNBASE : Z := 0x80000000.

(** The registers of a trapframe that are set one by one. *)
Inductive tfreg := Repc | Rsp | Rs0 | Ra0.

(** The services of the other subsystems, on their own state [E]. *)
Class Env (E : Type) := {
  kalloc : M E Z;
  kfree : Z -> M E unit;
  proc_pagetable : Z -> M E Z;
  proc_freepagetable : Z -> Z -> M E unit;
  uvmcopy : Z -> Z -> Z -> M E Z;
  uvmalloc : Z -> Z -> Z -> M E Z;
  uvmdealloc : Z -> Z -> Z -> M E Z;
  uvmunmap : Z -> Z -> Z -> Z -> M E unit;
  uvminit : Z -> M E unit;
  kvmmap : Z -> Z -> Z -> Z -> M E unit;
  copyout : Z -> Z -> list Z -> M E Z;
  tf_copy : Z -> Z -> M E unit;
  tf_set : Z -> tfreg -> Z -> M E unit;
  filedup : Z -> M E Z;
  fileclose : Z -> M E unit;
  filewrite : Z -> Z -> Z -> M E Z;
  idup : Z -> M E Z;
  iput : Z -> M E unit;
  namei_root : M E Z;
  begin_op : M E unit;
  end_op : M E unit;
  shmaddcount : Z -> M E unit;
  shmrelease : Z -> Z -> Z -> M E unit;
  addmqcount : Z -> M E unit;
  releasemq2 : Z -> M E unit }.

Section proc.
Context {E : Type} `{Env E}.

Record pst := mk_pst {
  table : list proc;
  rq : SchedO1.runq;
  nextpid : Z;
  initproc : option nat;
  env : E }.

Definition set_table (t : list proc) (s : pst) : pst := mk_pst t (rq s) (nextpid s) (initproc s) (env s).
Definition set_rq (q : SchedO1.runq) (s : pst) : pst := mk_pst (table s) q (nextpid s) (initproc s) (env s).
Definition set_nextpid (n : Z) (s : pst) : pst := mk_pst (table s) (rq s) n (initproc s) (env s).
Definition set_initproc (i : option nat) (s : pst) : pst := mk_pst (table s) (rq s) (nextpid s) i (env s).
Definition set_env (e : E) (s : pst) : pst := mk_pst (table s) (rq s) (nextpid s) (initproc s) e.

Definition getp (i : nat) : M pst proc := fun s => deref (table s !! i) s.
Definition modp (i : nat) (f : proc -> proc) : M pst unit := fun s =>
  match table s !! i with Some p => Ret tt (set_table (<[i := f p]> (table s)) s) | None => Fault end.
Definition onrq {A} (m : M SchedO1.runq A) : M pst A := zoom rq set_rq m.
Definition onenv {A} (m : M E A) : M pst A := zoom env set_env m.

(** [KSTACK(i)]: the kernel stacks lie below the trampoline page, each with an
    unmapped page under it. *)
Definition KSTACK (i : nat) : Z := 2 ^ 38 - 4096 - (Z.of_nat i + 1) * 2 * 4096.

(** [PTE_R | PTE_W] is 6. *)
Definition procinit : M pst unit :=
  onrq SchedO1.runq_init ;;;
  for_loop NPROC 0 (fun i =>
    let* pa := onenv kalloc in
    if pa =? 0 then panic "kalloc"
    else
      let va := KSTACK (Z.to_nat i) in
      onenv (kvmmap va pa PGSIZE 6) ;;;
      modp (Z.to_nat i) (set_kstack va)).

(** [safestrcpy(np->name, p->name, sizeof(p->name))] *)
Definition copy_name (n : string) : string := String.substring 0 15 n.

(** ** Creation and destruction *)

Definition allocpid : M pst Z :=
  let* pid := gets nextpid in
  modify (set_nextpid (s32 (pid + 1))) ;;;
  ret pid.

Definition freeproc (i : nat) : M pst unit :=
  let* p := getp i in
  when (negb (p_trapframe p =? 0)) (onenv (kfree (p_trapframe p))) ;;;
  modp i (set_trapframe 0) ;;;
  when (negb (p_pagetable p =? 0)) (onenv (proc_freepagetable (p_pagetable p) (p_sz p))) ;;;
  when (negb (p_alarm_trapframe p =? 0)) (onenv (kfree (p_alarm_trapframe p))) ;;;
  modp i (fun p => set_alarm_trapframe 0 (set_pagetable 0 (set_sz 0 (set_pid 0 (set_parent None (set_name EmptyString
    (set_chan Cnone (set_killed 0 (set_xstate 0 (set_alarm_interval 0 (set_alarm_handler 0 (set_alarm_ticks 0
    (set_alarm_goingoff 0 p))))))))))))) ;;;
  let* x := onrq (SchedO1.getp i) in
  when (SchedO1.on_runq x) (onrq (SchedO1.runq_remove i)) ;;;
  modp i (set_state UNUSED) ;;;
  let* p := getp i in
  onenv (shmrelease (p_pagetable p) (p_shm p) (p_shmkeymask p)) ;;;
  modp i (fun p => set_shmkeymask 0 (set_shm KERNBASE p)).

(** The first [UNUSED] slot. *)
Fixpoint find_unused (ps : list proc) (i : nat) : option nat :=
  match ps with
  | [] => None
  | p :: ps => if decide (p_state p = UNUSED) then Some i else find_unused ps (S i)
  end.

Definition zero_vma : vm_area := mk_vma 0 0 0 0 0 0 0 0.

Definition allocproc : M pst (option nat) :=
  let* ps := gets table in
  match find_unused ps 0 with
  | None => ret None
  | Some i =>
      let* pid := allocpid in
      modp i (fun p => set_mqmask 0 (set_pid pid p)) ;;;
      onrq (SchedO1.modp i (fun x => SchedO1.set_dyn_priority 10 (SchedO1.set_wait_time 0 (SchedO1.set_cpu_time 0
        (SchedO1.set_priority 10 x))))) ;;;
      modp i (fun p => set_shmkeymask 0 (set_shm KERNBASE (set_trace_mask 0 p))) ;;;
      let* tf := onenv kalloc in
      modp i (set_trapframe tf) ;;;
      if tf =? 0 then ret None
      else
        let* atf := onenv kalloc in
        modp i (set_alarm_trapframe atf) ;;;
        if atf =? 0 then ret None
        else
          modp i (fun p => set_alarm_goingoff 0 (set_alarm_ticks 0 (set_alarm_handler 0 (set_alarm_interval 0 p)))) ;;;
          let* pt := onenv (proc_pagetable tf) in
          modp i (set_pagetable pt) ;;;
          if pt =? 0 then freeproc i ;;; ret None
          else modp i (set_vma (replicate 16 zero_vma)) ;;; ret (Some i)
  end.

(** [p->state = RUNNABLE; runq_enqueue(p)] *)
Definition make_runnable (i : nat) : M pst unit :=
  modp i (set_state RUNNABLE) ;;;
  onrq (SchedO1.runq_enqueue i).

(** The first user process. *)
Definition userinit : M pst unit :=
  let* o := allocproc in
  modify (set_initproc o) ;;;
  match o with
  | None => fault
  | Some i =>
      let* p := getp i in
      onenv (uvminit (p_pagetable p)) ;;;
      modp i (set_sz PGSIZE) ;;;
      onenv (tf_set (p_trapframe p) Repc 0) ;;;
      onenv (tf_set (p_trapframe p) Rsp PGSIZE) ;;;
      modp i (set_name "initcode") ;;;
      let* ip := onenv namei_root in
      modp i (set_cwd ip) ;;;
      make_runnable i
  end.

Definition growproc (me : nat) (n : Z) : M pst Z :=
  let* p := getp me in
  let sz := u32 (p_sz p) in
  if 0 <? n then
    let* r := onenv (uvmalloc (p_pagetable p) sz (u32 (sz + n))) in
    if u32 r =? 0 then ret (-1) else modp me (set_sz (u32 r)) ;;; ret 0
  else
    let* sz := if n <? 0 then let* r := onenv (uvmdealloc (p_pagetable p) sz (u32 (sz + n))) in ret (u32 r) else ret sz in
    modp me (set_sz sz) ;;;
    ret 0.

(** [shmkeyused]: whether key [k] is in the mask. *)
Definition shmkeyused (k mask : Z) : bool :=
  if (k <? 0) || (8 <? k) then false else Z.odd (Z.shiftr mask k).

(** [for (i = 0; i < NOFILE; i++) if (p->ofile[i]) np->ofile[i] = filedup(p->ofile[i])] *)
Fixpoint dup_files (fs : list Z) (fd np : nat) : M pst unit :=
  match fs with
  | [] => ret tt
  | f :: fs =>
      when (negb (f =? 0)) (let* g := onenv (filedup f) in modp np (fun p => set_ofile (<[fd := g]> (p_ofile p)) p)) ;;;
      dup_files fs (S fd) np
  end.
Fixpoint dup_vmas (vs : list vm_area) (k np : nat) : M pst unit :=
  match vs with
  | [] => ret tt
  | v :: vs =>
      when (negb (v_used v =? 0)) (modp np (fun p => set_vma (<[k := v]> (p_vma p)) p) ;;; onenv (filedup (v_vfile v)) ;;; ret tt) ;;;
      dup_vmas vs (S k) np
  end.
(** The shared-memory addresses in use, taken from [proc[0]]. *)
Fixpoint copy_shmva (vas : list Z) (k : Z) (mask : Z) (np : nat) : M pst unit :=
  match vas with
  | [] => ret tt
  | va :: vas =>
      when (shmkeyused k mask) (modp np (fun p => set_shmva (aset (p_shmva p) k va) p)) ;;;
      copy_shmva vas (k + 1) mask np
  end.

Definition fork (me : nat) : M pst Z :=
  let* o := allocproc in
  match o with
  | None => ret (-1)
  | Some np =>
      let* p := getp me in
      let* c := getp np in
      let* r := onenv (uvmcopy (p_pagetable p) (p_pagetable c) (p_sz p)) in
      if r <? 0 then freeproc np ;;; ret (-1)
      else
        let* p0 := getp 0 in
        modp np (fun c => set_shmkeymask (p_shmkeymask p0) (set_shm (p_shm p0) c)) ;;;
        copy_shmva (p_shmva p0) 0 (p_shmkeymask p0) np ;;;
        onenv (shmaddcount (p_shmkeymask p0)) ;;;
        onenv (addmqcount (p_mqmask p)) ;;;
        modp np (fun c => set_parent (Some me) (set_sz (p_sz p) (set_mqmask (p_mqmask p) c))) ;;;
        onenv (tf_copy (p_trapframe c) (p_trapframe p)) ;;;
        onenv (tf_set (p_trapframe c) Ra0 0) ;;;
        dup_files (p_ofile p) 0 np ;;;
        let* ip := onenv (idup (p_cwd p)) in
        modp np (set_cwd ip) ;;;
        dup_vmas (p_vma p) 0 np ;;;
        modp np (set_name (copy_name (p_name p))) ;;;
        let* c := getp np in
        modp np (fun c => set_trace_mask (p_trace_mask p) (set_state RUNNABLE c)) ;;;
        onrq (SchedO1.runq_enqueue np) ;;;
        ret (p_pid c)
  end.

(** The page [clone] copies to the thread's stack: as [kalloc] filled it, with a
    fake return address and [arg] in its last 16 bytes. *)
Definition thread_page (arg : Z) : list Z :=
  replicate 4080 5 ++ replicate 8 255 ++ ((fun k => Z.shiftr arg (8 * k) mod 256) <$> seqZ 0 8).

(** A thread: it shares the page table of its creator. [clone] up to where it releases the
    lock of the new entry, which is still [UNUSED]. *)
Definition clone_begin (me : nat) (fcn arg stack : Z) : M pst (option nat) :=
  let* o := allocproc in
  match o with
  | None => ret None
  | Some np =>
      let* p := getp me in
      modp np (fun c => set_parent None (set_ustack stack (set_pthread (Some me) (set_sz (p_sz p)
        (set_pagetable (p_pagetable p) c))))) ;;;
      let* c := getp np in
      onenv (tf_copy (p_trapframe c) (p_trapframe p)) ;;;
      let* stackin := onenv kalloc in
      onenv (tf_set (p_trapframe c) Repc fcn) ;;;
      onenv (tf_set (p_trapframe c) Rsp (u64 (stack + 4096 - 16))) ;;;
      onenv (tf_set (p_trapframe c) Rs0 (u64 (stack + 4096 - 16))) ;;;
      onenv (tf_set (p_trapframe c) Ra0 0) ;;;
      when (stackin =? 0) fault ;;;
      let* _ := onenv (copyout (p_pagetable p) stack (thread_page arg)) in
      dup_files (p_ofile p) 0 np ;;;
      let* ip := onenv (idup (p_cwd p)) in
      modp np (set_cwd ip) ;;;
      modp np (set_name (copy_name (p_name p))) ;;;
      ret (Some np)
  end.
(** The rest, after it has acquired the lock again. *)
Definition clone_finish (np : nat) : M pst Z :=
  let* c := getp np in
  make_runnable np ;;;
  ret (p_pid c).
Definition clone (me : nat) (fcn arg stack : Z) : M pst Z :=
  let* o := clone_begin me fcn arg stack in
  match o with None => ret (-1) | Some np => clone_finish np end.

(** ** Sleeping and waking *)

(** [sleep] up to the switch to the scheduler, and after it. *)
Definition sleep_enter (me : nat) (c : channel) : M pst unit :=
  modp me (fun p => set_state SLEEPING (set_chan c p)).
Definition sleep_leave (me : nat) : M pst unit := modp me (set_chan Cnone).

Definition sleeps_on (c : channel) (p : proc) : bool := bool_decide (p_state p = SLEEPING) && bool_decide (p_chan p = c).

Definition wakeup (c : channel) : M pst unit :=
  for_loop NPROC 0 (fun i =>
    let* p := getp (Z.to_nat i) in
    when (sleeps_on c p) (make_runnable (Z.to_nat i))).

Definition wakeup1 (i : nat) : M pst unit :=
  let* p := getp i in
  when (sleeps_on (Cproc i) p) (make_runnable i).

(** The first process with the given [pid]. *)
Fixpoint find_pid (ps : list proc) (i : nat) (pid : Z) : option nat :=
  match ps with
  | [] => None
  | p :: ps => if p_pid p =? pid then Some i else find_pid ps (S i) pid
  end.

Definition kill (pid : Z) : M pst Z :=
  let* ps := gets table in
  match find_pid ps 0 pid with
  | None => ret (-1)
  | Some i =>
      modp i (set_killed 1) ;;;
      let* p := getp i in
      when (bool_decide (p_state p = SLEEPING)) (make_runnable i) ;;;
      ret 0
  end.

Definition yield (me : nat) : M pst unit := make_runnable me.

(** The new priority of a process, which moves to another bucket if queued. *)
Definition reprioritize (i : nat) (priority : Z) : M SchedO1.runq unit :=
  SchedO1.modp i (SchedO1.set_priority priority) ;;;
  let* x := SchedO1.getp i in
  if SchedO1.on_runq x then SchedO1.runq_remove i ;;; SchedO1.runq_enqueue i
  else SchedO1.modp i (SchedO1.set_dyn_priority (SchedO1.runq_dyn x)).

Definition setPriority (pid priority : Z) : M pst Z :=
  let* ps := gets table in
  match find_pid ps 0 pid with
  | None => ret (-1)
  | Some i => onrq (reprioritize i priority) ;;; ret 0
  end.

Definition procnum : M pst Z :=
  gets (fun s => alen (filter (fun p => p_state p <> UNUSED) (table s))).

(** ** Ending and waiting *)

Definition reparent (me : nat) : M pst unit :=
  for_loop NPROC 0 (fun i =>
    let* pp := getp (Z.to_nat i) in
    when (bool_decide (p_parent pp = Some me))
      (let* init := gets initproc in modp (Z.to_nat i) (set_parent init))).

(** [exit] in the pieces between which it can sleep: the check; then one call into the file
    system at a time, for each open file, each mapped region and the current directory. *)
Definition exit_check (me : nat) : M pst unit :=
  let* init := gets initproc in
  if bool_decide (init = Some me) then panic "init exiting" else ret tt.

Definition close_file (me fd : nat) : M pst unit :=
  let* p := getp me in
  let* f := deref (p_ofile p !! fd) in
  when (negb (f =? 0)) (onenv (fileclose f) ;;; modp me (fun p => set_ofile (<[fd := 0]> (p_ofile p)) p)).

Definition MAP_SHARED : Z := 1.
Definition PROT_WRITE : Z := 2.

Definition vma_flush (me k : nat) : M pst unit :=
  let* p := getp me in
  let* v := deref (p_vma p !! k) in
  when (negb (v_used v =? 0))
    (when ((v_flags v =? MAP_SHARED) && negb (Z.land (v_prot v) PROT_WRITE =? 0))
       (onenv (filewrite (v_vfile v) (v_addr v) (v_len v)) ;;; ret tt)).
Definition vma_close (me k : nat) : M pst unit :=
  let* p := getp me in
  let* v := deref (p_vma p !! k) in
  when (negb (v_used v =? 0)) (onenv (fileclose (v_vfile v))).
Definition vma_unmap (me k : nat) : M pst unit :=
  let* p := getp me in
  let* v := deref (p_vma p !! k) in
  when (negb (v_used v =? 0))
    (onenv (uvmunmap (p_pagetable p) (v_addr v) (v_len v ÷ PGSIZE) 1) ;;;
     modp me (fun p => set_vma (<[k := mk_vma 0 (v_addr v) (v_len v) (v_prot v) (v_flags v) (v_vfd v) (v_vfile v) (v_offset v)]>
       (p_vma p)) p)).

Definition cwd_put (me : nat) : M pst unit :=
  let* p := getp me in
  onenv (iput (p_cwd p)).
Definition cwd_end (me : nat) : M pst unit :=
  onenv end_op ;;;
  modp me (set_cwd 0).

Definition NVMA : nat := 16.
Definition exit_pieces (me : nat) : list (M pst unit) :=
  map (close_file me) (seq 0 NOFILE) ++
  flat_map (fun k => [vma_flush me k; vma_close me k; vma_unmap me k]) (seq 0 NVMA) ++
  [onenv begin_op; cwd_put me; cwd_end me].

(** Waking [init]; reading the parent; and the rest, which ends in the scheduler. *)
Definition exit_wakeinit : M pst unit :=
  let* init := gets initproc in
  match init with Some i => wakeup1 i | None => fault end.

Definition exit_parent (me : nat) : M pst (option nat) :=
  let* p := getp me in
  ret (if bool_decide (p_parent p = None) && bool_decide (p_pthread p <> None) then p_pthread p else p_parent p).

Definition exit_finish (me : nat) (status : Z) (original_parent : option nat) : M pst unit :=
  match original_parent with
  | None => fault
  | Some q =>
      reparent me ;;;
      wakeup1 q ;;;
      modp me (fun p => set_state ZOMBIE (set_xstate status p))
  end.

(** The bytes of an [int]. *)
Definition int_bytes (x : Z) : list Z := (fun k => Z.shiftr x (8 * k) mod 256) <$> seqZ 0 4.

(** One scan of [wait] over the table: a child to reap, or whether there is any. *)
Fixpoint wait_scan (ps : list proc) (i : nat) (me : nat) (havekids : bool) : option nat * bool :=
  match ps with
  | [] => (None, havekids)
  | np :: ps =>
      if bool_decide (p_parent np = Some me) then
        if bool_decide (p_state np = ZOMBIE) then (Some i, true) else wait_scan ps (S i) me true
      else wait_scan ps (S i) me havekids
  end.

(** One round of [wait]: [None] when the caller has gone to sleep. *)
Definition wait (me : nat) (addr : Z) : M pst (option Z) :=
  let* ps := gets table in
  match wait_scan ps 0 me false with
  | (Some i, _) =>
      let* np := getp i in
      let* p := getp me in
      onenv (releasemq2 (p_mqmask p)) ;;;
      modp me (set_mqmask 0) ;;;
      let* r := if addr =? 0 then ret 0 else onenv (copyout (p_pagetable p) addr (int_bytes (p_xstate np))) in
      if r <? 0 then ret (Some (-1))
      else freeproc i ;;; ret (Some (p_pid np))
  | (None, havekids) =>
      let* p := getp me in
      if negb havekids || negb (p_killed p =? 0) then ret (Some (-1))
      else sleep_enter me (Cproc me) ;;; ret None
  end.

(** The same for threads. *)
Fixpoint join_scan (ps : list proc) (i : nat) (me : nat) (havekids : bool) : option nat * bool :=
  match ps with
  | [] => (None, havekids)
  | np :: ps =>
      if bool_decide (p_pthread np = Some me) then
        if bool_decide (p_state np = ZOMBIE) then (Some i, true) else join_scan ps (S i) me true
      else join_scan ps (S i) me havekids
  end.

Definition join (me : nat) (stackaddrout : Z) : M pst (option Z) :=
  let* ps := gets table in
  match join_scan ps 0 me false with
  | (Some i, _) =>
      let* t := getp i in
      onenv (kfree (p_kstack t)) ;;;
      modp i (fun p => set_killed 0 (set_name EmptyString (set_pthread None (set_parent None (set_pid 0
        (set_state UNUSED (set_kstack 0 p))))))) ;;;
      onenv (copyout (p_pagetable t) stackaddrout ((fun k => Z.shiftr (p_ustack t) (8 * k) mod 256) <$> seqZ 0 8)) ;;;
      ret (Some (p_pid t))
  | (None, havekids) =>
      let* p := getp me in
      if negb havekids || negb (p_killed p =? 0) then ret (Some (-1))
      else sleep_enter me (Cproc me) ;;; ret None
  end.

(** ** The scheduler *)

(** Taking a process off the run queue, and then, with its lock, running it;
    [false] when it is put back because it is not runnable. *)
Definition sched_pick : M pst (option nat) := onrq SchedO1.runq_pick.
Definition sched_run (i : nat) : M pst bool :=
  let* p := getp i in
  if bool_decide (p_state p = RUNNABLE) then
    modp i (set_state RUNNING) ;;;
    onrq (SchedO1.modp i (SchedO1.set_wait_time 0)) ;;;
    ret true
  else
    let* x := onrq (SchedO1.getp i) in
    when (negb (SchedO1.on_runq x)) (onrq (SchedO1.runq_enqueue i)) ;;;
    ret false.

End proc.

End Proc.
