(* ===== verification/Procsum.v ===== *)
(** What the operations of [Proc.v] do to the part of the process table that
    their correctness depends on: state, parent, channel, pid and thread owner of
    each process, the set of queued processes, and the next pid. *)

From S2P Require Import Prelude SchedO1 Runset Ptable Proc.
Import Runset Ptable Proc.

Module Procsum.

Record corep := mk_core {
  c_state : procstate;
  c_parent : option nat;
  c_chan : channel;
  c_pid : Z;
  c_pthread : option nat }.
Definition core (p : proc) : corep := mk_core (p_state p) (p_parent p) (p_chan p) (p_pid p) (p_pthread p).

Section sums.
Context {E : Type} `{Env E}.
Implicit Types (s : pst (E := E)).

Definition core_at s (i : nat) : option corep := core <$> (table s !! i).

(** ** Operations that leave all of it alone *)

Definition same s s' : Prop :=
  core <$> table s' = core <$> table s /\ rq s' = rq s /\ nextpid s' = nextpid s /\ initproc s' = initproc s.

#[global] Instance same_refl : Reflexive same.
Proof. by intros s. Qed.
#[global] Instance same_trans : Transitive same.
Proof. intros s1 s2 s3 (A1 & A2 & A3 & A4) (B1 & B2 & B3 & B4). split_and!; congruence. Qed.

Class Quiet {A} (m : M (pst (E := E)) A) : Prop := quiet : forall s a s', m s = Ret a s' -> same s s'.

#[global] Instance quiet_ret {A} (a : A) : Quiet (ret a).
Proof. by intros s b s' [= _ <-]. Qed.
#[global] Instance quiet_fault {A} : Quiet (@fault _ A).
Proof. by intros s b s'. Qed.
#[global] Instance quiet_panic {A} msg : Quiet (@panic _ A msg).
Proof. by intros s b s'. Qed.
#[global] Instance quiet_gets {A} (f : pst -> A) : Quiet (gets f).
Proof. by intros s b s' [= _ <-]. Qed.
#[global] Instance quiet_deref {A} (o : option A) : Quiet (deref o).
Proof. destruct o; [apply quiet_ret|apply quiet_fault]. Qed.
#[global] Instance quiet_getp i : Quiet (getp i).
Proof. intros s b s'. unfold getp, deref. destruct (table s !! i); [by intros [= _ <-]|done]. Qed.
#[global] Instance quiet_bind {A B} (m : M pst A) (k : A -> M pst B) :
  Quiet m -> (forall a, Quiet (k a)) -> Quiet (bind m k).
Proof. intros Hm Hk s b s' (a & s1 & E1 & E2)%bind_Ret_inv. etrans; [by eapply Hm|by eapply Hk]. Qed.
#[global] Instance quiet_when b (m : M pst unit) : Quiet m -> Quiet (when b m).
Proof. intros Hm. destruct b; [done|apply quiet_ret]. Qed.
#[global] Instance quiet_onenv {A} (m : M E A) : Quiet (onenv m).
Proof. intros s a s'. unfold onenv, zoom. destruct (m (env s)); [by intros [= _ <-]|done..]. Qed.

Lemma quiet_modp i f : (forall p, core (f p) = core p) -> Quiet (modp i f).
Proof.
  intros Hf s a s'. unfold modp. destruct (table s !! i) as [p|] eqn:Hp; [|done]. intros [= _ <-]. split_and!; try done. cbn.
  apply list_eq. intros j. rewrite !list_lookup_fmap. destruct (decide (j = i)) as [->|Hne].
  - rewrite list_lookup_insert_eq by (by eapply lookup_lt_Some). rewrite Hp. simpl. by rewrite Hf.
  - by rewrite list_lookup_insert_ne.
Qed.
#[local] Hint Extern 2 (Quiet (modp _ _)) => (apply quiet_modp; intros; reflexivity) : typeclass_instances.
#[local] Hint Extern 3 (Quiet (if ?b then _ else _)) => destruct b : typeclass_instances.
#[local] Hint Extern 3 (Quiet (match ?o with _ => _ end)) => destruct o : typeclass_instances.

#[global] Instance quiet_dup_files fs fd np : Quiet (dup_files fs fd np).
Proof. revert fd. induction fs as [|f fs IH]; intros fd; simpl; apply _. Qed.
#[global] Instance quiet_dup_vmas vs k np : Quiet (dup_vmas vs k np).
Proof. revert k. induction vs as [|v vs IH]; intros k; simpl; apply _. Qed.
#[global] Instance quiet_copy_shmva vas k mask np : Quiet (copy_shmva vas k mask np).
Proof. revert k. induction vas as [|va vas IH]; intros k; simpl; apply _. Qed.
#[global] Instance quiet_exit_check me : Quiet (exit_check me).
Proof. unfold exit_check. apply _. Qed.
Lemma quiet_exit_pieces me m : In m (exit_pieces me) -> Quiet m.
Proof.
  unfold exit_pieces. rewrite !in_app_iff, in_map_iff, in_flat_map. intros [(fd & <- & _)|[(k & _ & Hk)|Hc]]; [unfold close_file; apply _|..].
  - unfold vma_flush, vma_close, vma_unmap in Hk. destruct Hk as [<-|[<-|[<-|[]]]]; apply _.
  - unfold cwd_put, cwd_end in Hc. destruct Hc as [<-|[<-|[<-|[]]]]; apply _.
Qed.
#[global] Instance quiet_exit_parent me : Quiet (exit_parent me).
Proof. apply _. Qed.
#[global] Instance quiet_growproc me n : Quiet (growproc me n).
Proof. unfold growproc. apply _. Qed.

Lemma same_core s s' i : same s s' -> core_at s' i = core_at s i.
Proof. intros [Hc _]. unfold core_at. by rewrite <- !list_lookup_fmap, Hc. Qed.

(** Changing one process. *)
Lemma modp_core i f g s a s' : (forall p, core (f p) = g (core p)) -> modp i f s = Ret a s' ->
  rq s' = rq s /\ nextpid s' = nextpid s /\ initproc s' = initproc s /\
  exists c, core_at s i = Some c /\ core_at s' i = Some (g c) /\ forall j, j <> i -> core_at s' j = core_at s j.
Proof.
  intros Hf. unfold modp, core_at. destruct (table s !! i) as [p|] eqn:Hp; [|done]. intros [= _ <-]. cbn. split_and!; try done.
  exists (core p). split_and!; [done| |].
  - rewrite list_lookup_insert_eq by (by eapply lookup_lt_Some). simpl. by rewrite Hf.
  - intros j Hne. by rewrite list_lookup_insert_ne.
Qed.

(** An operation on the run queue. *)
Lemma onrq_core {A} (m : M SchedO1.runq A) s a s' : onrq m s = Ret a s' ->
  m (rq s) = Ret a (rq s') /\ table s' = table s /\ nextpid s' = nextpid s /\ initproc s' = initproc s.
Proof. unfold onrq, zoom. destruct (m (rq s)) eqn:Em; [|done..]. by intros [= <- <-]. Qed.

(** ** Operations that change one process *)

(** Only process [i] changes, from [c] to [c']; [queue] says who is queued after. *)
Record only (i : nat) (c c' : corep) (queue : nat -> Prop) (s s' : pst) : Prop := {
  on_old : core_at s i = Some c;
  on_new : core_at s' i = Some c';
  on_rest : forall j, j <> i -> core_at s' j = core_at s j;
  on_init : initproc s' = initproc s;
  on_rqok : rqok (rq s) -> rqok (rq s');
  on_queue : rqok (rq s) -> forall j, onq (rq s') j <-> queue j }.

Lemma only_upd i f g s a s' : (forall p, core (f p) = g (core p)) -> modp i f s = Ret a s' ->
  exists c, only i c (g c) (onq (rq s)) s s' /\ nextpid s' = nextpid s.
Proof.
  intros Hf Hrun. destruct (modp_core i f g s a s' Hf Hrun) as (Erq & En & Ei & c & Hc & Hc' & Ho).
  exists c. split; [|done]. split; try done; by rewrite Erq.
Qed.

Lemma only_same_r i c c' q s s1 s' : only i c c' q s s1 -> same s1 s' -> only i c c' q s s'.
Proof.
  intros [H1 H2 H3 H4 H5 H6] Hs. pose proof Hs as (_ & Hr & _ & Hi).
  split; try done; try (by rewrite Hr).
  - by rewrite (same_core s1 s' i Hs).
  - intros j Hj. rewrite (same_core s1 s' j Hs). by apply H3.
  - congruence.
Qed.

Lemma only_same_l i c c' q s s1 s' : same s s1 -> only i c c' q s1 s' -> only i c c' q s s'.
Proof.
  intros Hs [H1 H2 H3 H4 H5 H6]. pose proof Hs as (_ & Hr & _ & Hi).
  split; try done; try (by rewrite <- Hr).
  - by rewrite <- (same_core s s1 i Hs).
  - intros j Hj. rewrite <- (same_core s s1 j Hs). by apply H3.
  - congruence.
Qed.

Lemma only_queue i c c' q q' s s' : (rqok (rq s) -> forall j, q j <-> q' j) -> only i c c' q s s' -> only i c c' q' s s'.
Proof. intros Hq [H1 H2 H3 H4 H5 H6]. split; try done. intros Hr j. rewrite (H6 Hr j). by apply Hq. Qed.

Lemma only_trans i c c1 c1' c2 q1 q2 s s1 s' : only i c c1 q1 s s1 -> only i c1' c2 q2 s1 s' -> c1' = c1 /\ only i c c2 q2 s s'.
Proof.
  intros [A1 A2 A3 A4 A5 A6] [B1 B2 B3 B4 B5 B6]. rewrite A2 in B1. injection B1 as <-. split; [done|]. split; try done.
  - intros j Hj. rewrite B3 by done. by apply A3.
  - congruence.
  - intros Hr. by apply B5, A5.
  - intros Hr. by apply B6, A5.
Qed.

(** An operation on the queue that always returns and has the effect [q']. *)
Lemma only_rq {A} i c (m : M SchedO1.runq A) (q' : nat -> Prop) s a s' :
  core_at s i = Some c -> onrq m s = Ret a s' ->
  (rqok (rq s) -> exists st', m (rq s) = Ret a st' /\ rqok st' /\ forall j, onq st' j <-> q' j) ->
  only i c c q' s s' /\ nextpid s' = nextpid s.
Proof.
  intros Hc Hrun Hm. apply onrq_core in Hrun as (Er & Et & En & Ei). unfold core_at in *. split; [|done]. split; unfold core_at; rewrite ?Et; try done.
  - intros Hr. destruct (Hm Hr) as (st' & E' & Hok & _). rewrite E' in Er. by injection Er as <-.
  - intros Hr. destruct (Hm Hr) as (st' & E' & _ & Hq). rewrite E' in Er. by injection Er as <-.
Qed.

(** [p->state = RUNNABLE; runq_enqueue(p)] *)
Definition with_state (st : procstate) (c : corep) : corep := mk_core st (c_parent c) (c_chan c) (c_pid c) (c_pthread c).

(** The table has [NPROC] entries. *)
Definition sized s : Prop := forall i, is_Some (core_at s i) <-> (i < NPROC)%nat.

Lemma core_at_lt s i c : sized s -> core_at s i = Some c -> (i < NPROC)%nat.
Proof. intros Hl Hc. apply Hl. by exists c. Qed.
Lemma same_sized s s' : same s s' -> sized s -> sized s'.
Proof. intros Hs Hl i. by rewrite (same_core s s' i Hs). Qed.
Lemma only_sized i c c' q s s' : only i c c' q s s' -> sized s -> sized s'.
Proof.
  intros [H1 H2 H3 _ _ _] Hl j. destruct (decide (j = i)) as [->|Hne]; [|by rewrite H3].
  rewrite <- (Hl i), H1, H2. split; by eexists.
Qed.

Lemma enqueue_sum i c s a s' : core_at s i = Some c -> (i < NPROC)%nat -> onrq (SchedO1.runq_enqueue i) s = Ret a s' ->
  only i c c (fun j => onq (rq s) j \/ j = i) s s' /\ nextpid s' = nextpid s.
Proof.
  intros Hc Hi Hrun. eapply only_rq; [done|exact Hrun|]. intros Hr. destruct a.
  destruct (enqueue_set (rq s) i Hr Hi) as (st' & E1 & E2 & E3). by exists st'.
Qed.

Lemma runnable_sum i s a s' : sized s -> make_runnable i s = Ret a s' ->
  exists c, only i c (with_state RUNNABLE c) (fun j => onq (rq s) j \/ j = i) s s' /\ nextpid s' = nextpid s.
Proof.
  intros Hl (u & s1 & E1 & E2)%bind_Ret_inv.
  destruct (only_upd i (set_state RUNNABLE) (with_state RUNNABLE) s _ s1 ltac:(done) E1) as (c & Ho & En).
  assert (Hi : (i < NPROC)%nat) by (eapply core_at_lt; [done|apply Ho]).
  destruct (enqueue_sum i _ s1 a s' (on_new _ _ _ _ _ _ Ho) Hi E2) as [Ho2 En2].
  destruct (only_trans _ _ _ _ _ _ _ _ _ _ Ho Ho2) as [_ Ho3]. exists c. split; [|congruence].
  eapply only_queue; [|exact Ho3]. intros Hr j. cbn. by rewrite (on_queue _ _ _ _ _ _ Ho Hr).
Qed.

(** Run the heads of a sequence that change nothing. *)
Lemma quiet_head {A B} (m : M pst A) (k : A -> M pst B) s b s' : Quiet m ->
  bind m k s = Ret b s' -> exists a s1, same s s1 /\ k a s1 = Ret b s'.
Proof. intros Hm (a & s1 & E1 & E2)%bind_Ret_inv. exists a, s1. split; [by eapply Hm|done]. Qed.

Ltac merge :=
  repeat match goal with
  | H1 : same ?a ?b, H2 : same ?b ?c |- _ => pose proof (same_trans a b c H1 H2); clear H1 H2
  end.
Ltac peel H := apply (quiet_head _ _ _ _ _ _) in H as (? & ? & ? & H); merge.

Definition freed (c : corep) : corep := mk_core UNUSED None Cnone 0 (c_pthread c).

(** Dropping a process from the queue if it is there. *)
Lemma dequeue_sum i c s x a s' : core_at s i = Some c -> SchedO1.procs (rq s) !! i = Some x ->
  when (SchedO1.on_runq x) (onrq (SchedO1.runq_remove i)) s = Ret a s' ->
  only i c c (fun j => onq (rq s) j /\ j <> i) s s' /\ nextpid s' = nextpid s.
Proof.
  intros Hc Hx Hrun. destruct (SchedO1.on_runq x) eqn:Hon; cbn [when] in Hrun.
  - eapply only_rq; [done|exact Hrun|]. intros Hr. destruct a.
    destruct (remove_set (rq s) i Hr ltac:(by exists x)) as (st' & E1 & E2 & E3). by exists st'.
  - injection Hrun as _ <-. split; [|done]. split; try done. intros _ j. split; [|tauto]. intros Hj. split; [done|]. intros ->.
    destruct Hj as (y & Hy & Hon'). congruence.
Qed.

Lemma getx_run i s x s' : onrq (SchedO1.getp i) s = Ret x s' -> s' = s /\ SchedO1.procs (rq s) !! i = Some x.
Proof.
  unfold onrq, zoom, SchedO1.getp, deref. destruct (SchedO1.procs (rq s) !! i) as [y|]; [|done]. cbn. intros [= <- <-].
  split; [by destruct s|done].
Qed.

Lemma freeproc_sum i s a s' : sized s -> freeproc i s = Ret a s' ->
  exists c, only i c (freed c) (fun j => onq (rq s) j /\ j <> i) s s' /\ nextpid s' = nextpid s.
Proof.
  intros Hl Hrun. unfold freeproc in Hrun. do 5 peel Hrun.
  rename select (same s _) into Hs.
  apply bind_Ret_inv in Hrun as (? & s6 & E6 & Hrun).
  eapply (only_upd i _ (fun c => mk_core (c_state c) None Cnone 0 (c_pthread c))) in E6 as (c & O6 & N6); [|done].
  apply bind_Ret_inv in Hrun as (xq & s7 & [-> Hx]%getx_run & Hrun).
  apply bind_Ret_inv in Hrun as (? & s8 & E8 & Hrun). eapply dequeue_sum in E8 as [O8 N8]; [|apply O6|exact Hx].
  apply bind_Ret_inv in Hrun as (? & s9 & E9 & Hrun).
  eapply (only_upd i _ (with_state UNUSED)) in E9 as (c9 & O9 & N9); [|done].
  do 2 peel Hrun. apply quiet in Hrun. merge. rename select (same s9 _) into Hs9.
  destruct (only_trans _ _ _ _ _ _ _ _ _ _ O6 O8) as [_ O68]. destruct (only_trans _ _ _ _ _ _ _ _ _ _ O68 O9) as [-> O].
  pose proof (only_same_r _ _ _ _ _ _ _ (only_same_l _ _ _ _ _ _ _ Hs O) Hs9) as Hall. exists c.
  pose proof Hs as (_ & Er & En & _). pose proof Hs9 as (_ & _ & En9 & _). split; [|congruence].
  eapply only_queue; [|exact Hall]. intros Hr k. cbn. rewrite <- Er in Hr.
  rewrite (on_queue _ _ _ _ _ _ O68 Hr k), (on_queue _ _ _ _ _ _ O6 Hr k), Er. done.
Qed.

(** ** Allocation *)

Lemma find_unused_Some ps k i : find_unused ps k = Some i ->
  exists p, (k <= i)%nat /\ ps !! (i - k)%nat = Some p /\ p_state p = UNUSED.
Proof.
  revert k. induction ps as [|p ps IH]; intros k; simpl; [done|]. case_decide as Hu.
  - intros [= ->]. exists p. by rewrite Nat.sub_diag.
  - intros Hf. destruct (IH _ Hf) as (q & Hk & Hq & Hs). exists q. split; [lia|]. split; [|done].
    replace (i - k)%nat with (S (i - S k)) by lia. done.
Qed.

Definition with_pid (n : Z) (c : corep) : corep := mk_core (c_state c) (c_parent c) (c_chan c) n (c_pthread c).

Lemma allocproc_sum s o s' : sized s -> rqok (rq s) ->
  (forall i c, core_at s i = Some c -> c_state c = UNUSED -> ~ onq (rq s) i) ->
  allocproc s = Ret o s' ->
  (o = None /\ same s s') \/
  exists i c c', only i c c' (onq (rq s)) s s' /\ c_state c = UNUSED /\ nextpid s' = s32 (nextpid s + 1) /\
    match o with
    | Some k => k = i /\ c' = with_pid (nextpid s) c
    | None => c' = with_pid (nextpid s) c \/ c' = freed (with_pid (nextpid s) c)
    end.
Proof.
  intros Hl Hrq Hoff Hrun. unfold allocproc, bind at 1, gets at 1 in Hrun.
  destruct (find_unused (table s) 0) as [i|] eqn:Hf; [|injection Hrun as <- <-; by left].
  right. apply find_unused_Some in Hf as (p & _ & Hp & Hu). rewrite Nat.sub_0_r in Hp.
  assert (Hci : core_at s i = Some (core p)) by (unfold core_at; by rewrite Hp).
  pose proof (core_at_lt s i _ Hl Hci) as Hi.
  apply bind_Ret_inv in Hrun as (n & s1 & E1 & Hrun). unfold allocpid, bind, gets, modify, ret in E1. injection E1 as <- <-.
  apply bind_Ret_inv in Hrun as (? & s2 & E2 & Hrun).
  eapply (only_upd i _ (with_pid (nextpid s))) in E2 as (c & O2 & N2); [|done].
  assert (Ec : c = core p) by (pose proof (on_old _ _ _ _ _ _ O2) as Ho; unfold core_at in Ho, Hci; cbn in Ho; congruence). subst c.
  assert (Hq2 : forall j, onq (rq s2) j <-> onq (rq s) j) by apply (on_queue _ _ _ _ _ _ O2 Hrq).
  apply bind_Ret_inv in Hrun as ([] & s3 & E3 & Hrun).
  eapply (only_rq i _ _ (onq (rq s))) in E3 as [O3 N3]; [|apply O2|].
  2:{ intros Hr. destruct (modp_set (rq s2) i (fun x => SchedO1.set_dyn_priority 10 (SchedO1.set_wait_time 0
        (SchedO1.set_cpu_time 0 (SchedO1.set_priority 10 x)))) Hr Hi) as (st' & A1 & A2 & A3); [|done|].
      - rewrite Hq2. by apply (Hoff i (core p)).
      - exists st'. split_and!; try done. intros k. by rewrite A3, Hq2. }
  destruct (only_trans _ _ _ _ _ _ _ _ _ _ O2 O3) as [_ O]. clear O2 O3.
  assert (Hbase : only i (core p) (with_pid (nextpid s) (core p)) (onq (rq s)) s s3) by (destruct O; by split).
  assert (Hn3 : nextpid s3 = s32 (nextpid s + 1)) by (rewrite N3, N2; done). clear O N2 N3 Hq2.
  exists i, (core p). do 3 peel Hrun. destruct (_ =? 0).
  { injection Hrun as <- <-. rename select (same s3 _) into Hs. exists (with_pid (nextpid s) (core p)).
    pose proof Hs as (_ & _ & En & _). split_and!; [by eapply only_same_r|done|congruence|by left]. }
  do 2 peel Hrun. destruct (_ =? 0).
  { injection Hrun as <- <-. rename select (same s3 _) into Hs. exists (with_pid (nextpid s) (core p)).
    pose proof Hs as (_ & _ & En & _). split_and!; [by eapply only_same_r|done|congruence|by left]. }
  do 3 peel Hrun. destruct (_ =? 0).
  - rename select (same s3 _) into Hs. apply bind_Ret_inv in Hrun as (? & s5 & E5 & Hrun). injection Hrun as <- <-.
    pose proof (only_same_r _ _ _ _ _ _ _ Hbase Hs) as O4. pose proof Hs as (_ & _ & En & _).
    apply freeproc_sum in E5 as (c5 & O5 & N5); [|by eapply only_sized].
    destruct (only_trans _ _ _ _ _ _ _ _ _ _ O4 O5) as [-> O6]. exists (freed (with_pid (nextpid s) (core p))).
    split_and!; [|done|congruence|by right]. eapply only_queue; [|exact O6]. intros Hr k. cbn.
    rewrite (on_queue _ _ _ _ _ _ O4 Hr k). split; [tauto|]. intros Hk. split; [done|]. intros ->. by apply (Hoff i (core p)).
  - peel Hrun. injection Hrun as <- <-. rename select (same s3 _) into Hs. exists (with_pid (nextpid s) (core p)).
    pose proof Hs as (_ & _ & En & _). split_and!; [by eapply only_same_r|done|congruence|done|done].
Qed.

(** A change to an unused entry that leaves it unused. *)
Definition idle_change s s' : Prop :=
  same s s' \/
  exists i c c', only i c c' (onq (rq s)) s s' /\ c_state c = UNUSED /\ c_state c' = UNUSED /\ c_pthread c' = c_pthread c /\
    (c_parent c' = c_parent c \/ c_parent c' = None) /\ nextpid s' = s32 (nextpid s + 1).

Lemma getp_core i s p s' : getp i s = Ret p s' -> s' = s /\ core_at s i = Some (core p).
Proof. unfold getp, deref, core_at. destruct (table s !! i) as [q|]; [|done]. by intros [= <- <-]. Qed.

(** The new process of [fork]. *)
Definition child_of (me : nat) (n : Z) (c : corep) : corep := mk_core RUNNABLE (Some me) (c_chan c) n (c_pthread c).

Lemma fork_sum me s r s' : sized s -> rqok (rq s) ->
  (forall i c, core_at s i = Some c -> c_state c = UNUSED -> ~ onq (rq s) i) ->
  fork me s = Ret r s' ->
  (r = -1 /\ idle_change s s') \/
  exists np c, r = nextpid s /\ c_state c = UNUSED /\ nextpid s' = s32 (nextpid s + 1) /\
    only np c (child_of me (nextpid s) c) (fun j => onq (rq s) j \/ j = np) s s'.
Proof.
  intros Hl Hrq Hoff Hrun. unfold fork in Hrun. apply bind_Ret_inv in Hrun as (o & s1 & E1 & Hrun).
  apply allocproc_sum in E1; [|done..]. destruct E1 as [[-> Hs]|(i & c & c' & O1 & Hu & N1 & Ho)].
  { injection Hrun as <- <-. left. split; [done|by left]. }
  destruct o as [np|]; cycle 1.
  { injection Hrun as <- <-. left. split; [done|]. right. exists i, c, c'. destruct Ho as [->| ->]; split_and!; auto. }
  destruct Ho as [-> ->]. do 3 peel Hrun. destruct (_ <? 0).
  { left. rename select (same s1 _) into Hs. apply bind_Ret_inv in Hrun as (? & s3 & E3 & Hrun). injection Hrun as <- <-. split; [done|].
    pose proof (only_same_r _ _ _ _ _ _ _ O1 Hs) as O2. pose proof Hs as (_ & _ & En & _).
    apply freeproc_sum in E3 as (c3 & O3 & N3); [|by eapply only_sized].
    destruct (only_trans _ _ _ _ _ _ _ _ _ _ O2 O3) as [-> O]. right. exists i, c, (freed (with_pid (nextpid s) c)).
    split_and!; auto; [|congruence]. eapply only_queue; [|exact O]. intros Hr k. cbn.
    rewrite (on_queue _ _ _ _ _ _ O2 Hr k). split; [tauto|]. intros Hk. split; [done|]. intros ->. by apply (Hoff i c); [apply O1|..]. }
  right. exists i, c. do 5 peel Hrun. rename select (same s1 _) into Hs.
  apply bind_Ret_inv in Hrun as (? & s3 & E3 & Hrun).
  eapply (only_upd i _ (fun c => mk_core (c_state c) (Some me) (c_chan c) (c_pid c) (c_pthread c))) in E3 as (c3 & O3 & N3); [|done].
  do 7 peel Hrun. rename select (same s3 _) into Hs3.
  apply bind_Ret_inv in Hrun as (q & s4 & [-> Hq]%getp_core & Hrun).
  apply bind_Ret_inv in Hrun as (? & s5 & E5 & Hrun).
  eapply (only_upd i _ (with_state RUNNABLE)) in E5 as (c5 & O5 & N5); [|done].
  apply bind_Ret_inv in Hrun as (? & s6 & E6 & Hrun). injection Hrun as <- <-.
  eapply enqueue_sum in E6 as [O6 N6]; [|apply O5|].
  2:{ apply Hl. exists c. apply O1. }
  destruct (only_trans _ _ _ _ _ _ _ _ _ _ (only_same_r _ _ _ _ _ _ _ O1 Hs) O3) as [-> O13].
  pose proof (only_same_r _ _ _ _ _ _ _ O13 Hs3) as O14.
  destruct (only_trans _ _ _ _ _ _ _ _ _ _ O14 O5) as [-> O15].
  destruct (only_trans _ _ _ _ _ _ _ _ _ _ O15 O6) as [_ O16].
  pose proof Hs as (_ & _ & En & _). pose proof Hs3 as (_ & _ & En3 & _). split_and!; try done.
  - rewrite (on_new _ _ _ _ _ _ O14) in Hq. by inversion Hq.
  - congruence.
  - eapply only_queue; [|exact O16]. intros Hr k. cbn.
    rewrite (on_queue _ _ _ _ _ _ O15 Hr k), (on_queue _ _ _ _ _ _ O14 Hr k).
    by rewrite (on_queue _ _ _ _ _ _ (only_same_r _ _ _ _ _ _ _ O1 Hs) Hr k).
Qed.

(** The new thread of [clone]. *)
Definition thread_of (me : nat) (n : Z) (c : corep) : corep := mk_core UNUSED None (c_chan c) n (Some me).

Lemma clone_begin_sum me fcn arg stack s o s' : sized s -> rqok (rq s) ->
  (forall i c, core_at s i = Some c -> c_state c = UNUSED -> ~ onq (rq s) i) ->
  clone_begin me fcn arg stack s = Ret o s' ->
  (o = None /\ idle_change s s') \/
  exists np c, o = Some np /\ c_state c = UNUSED /\ nextpid s' = s32 (nextpid s + 1) /\ only np c (thread_of me (nextpid s) c) (onq (rq s)) s s'.
Proof.
  intros Hl Hrq Hoff Hrun. unfold clone_begin in Hrun. apply bind_Ret_inv in Hrun as (o1 & s1 & E1 & Hrun).
  apply allocproc_sum in E1; [|done..]. destruct E1 as [[-> Hs]|(i & c & c' & O1 & Hu & N1 & Ho)].
  { injection Hrun as <- <-. left. split; [done|by left]. }
  destruct o1 as [np|]; cycle 1.
  { injection Hrun as <- <-. left. split; [done|]. right. exists i, c, c'. destruct Ho as [->| ->]; split_and!; auto. }
  destruct Ho as [-> ->]. right. exists i, c. peel Hrun. rename select (same s1 _) into Hs.
  apply bind_Ret_inv in Hrun as (? & s3 & E3 & Hrun).
  eapply (only_upd i _ (fun c => mk_core (c_state c) None (c_chan c) (c_pid c) (Some me))) in E3 as (c3 & O3 & N3); [|done].
  repeat peel Hrun. injection Hrun as <- <-. rename select (same s3 _) into Hs3.
  destruct (only_trans _ _ _ _ _ _ _ _ _ _ (only_same_r _ _ _ _ _ _ _ O1 Hs) O3) as [-> O13].
  pose proof (only_same_r _ _ _ _ _ _ _ O13 Hs3) as O14. pose proof Hs as (_ & _ & En & _). pose proof Hs3 as (_ & _ & En3 & _). split_and!; try done.
  - congruence.
  - unfold thread_of. cbn in O14. rewrite Hu in O14. eapply only_queue; [|exact O14]. intros Hr k. cbn.
    by rewrite (on_queue _ _ _ _ _ _ (only_same_r _ _ _ _ _ _ _ O1 Hs) Hr k).
Qed.

Lemma clone_finish_sum np s r s' : sized s -> clone_finish np s = Ret r s' ->
  exists c, r = c_pid c /\ only np c (with_state RUNNABLE c) (fun j => onq (rq s) j \/ j = np) s s' /\ nextpid s' = nextpid s.
Proof.
  intros Hl Hrun. apply bind_Ret_inv in Hrun as (p & s1 & [-> Hp]%getp_core & Hrun). apply bind_Ret_inv in Hrun as (? & s2 & E2 & Hrun). injection Hrun as <- <-.
  apply runnable_sum in E2 as (c & O & N); [|done]. exists c. split_and!; [|done|done]. pose proof (on_old _ _ _ _ _ _ O) as Hc. rewrite Hp in Hc. by injection Hc as <-.
Qed.

(** ** Waiting *)

Lemma wait_scan_Some ps k me h i h' : wait_scan ps k me h = (Some i, h') ->
  exists p, (k <= i)%nat /\ ps !! (i - k)%nat = Some p /\ p_parent p = Some me /\ p_state p = ZOMBIE.
Proof.
  revert k h. induction ps as [|p ps IH]; intros k h; simpl; [done|].
  assert (Hnext : forall h, wait_scan ps (S k) me h = (Some i, h') -> exists p0, (k <= i)%nat /\ (p :: ps) !! (i - k)%nat = Some p0 /\
    p_parent p0 = Some me /\ p_state p0 = ZOMBIE).
  { intros h0 Hf. destruct (IH _ _ Hf) as (q & Hk & Hq & Hs). exists q. split; [lia|].
    replace (i - k)%nat with (S (i - S k)) by lia. done. }
  case_bool_decide as Hp; [|by apply Hnext]. case_bool_decide as Hz; [|by apply Hnext].
  intros [= -> _]. exists p. by rewrite Nat.sub_diag.
Qed.

Lemma wait_scan_None ps k me h h' : wait_scan ps k me h = (None, h') ->
  (forall j p, ps !! j = Some p -> p_parent p = Some me -> p_state p <> ZOMBIE) /\
  (h' = true -> h = true \/ exists j p, ps !! j = Some p /\ p_parent p = Some me).
Proof.
  revert k h. induction ps as [|p ps IH]; intros k h; simpl; [intros [= ->]; split; [done|by left]|].
  case_bool_decide as Hp; [case_bool_decide as Hz; [done|]|]; intros Hf; destruct (IH _ _ Hf) as [H1 H2]; split.
  - intros [|j] q Hq; simpl in Hq; [by injection Hq as <-|by eapply H1].
  - intros Hh. right. by exists 0%nat, p.
  - intros [|j] q Hq; simpl in Hq; [injection Hq as <-; congruence|by eapply H1].
  - intros Hh. destruct (H2 Hh) as [|(j & q & Hq & Hpq)]; [by left|right]. by exists (S j), q.
Qed.

Definition asleep_on (c : channel) (d : corep) : corep := mk_core SLEEPING (c_parent d) c (c_pid d) (c_pthread d).

Lemma core_at_inv s i c : core_at s i = Some c -> exists p, table s !! i = Some p /\ core p = c.
Proof. unfold core_at. intros (p & Hp & ->)%fmap_Some. by exists p. Qed.

Lemma wait_sum me addr s o s' : sized s -> wait me addr s = Ret o s' ->
  (exists r, o = Some r /\ same s s') \/
  (exists i c, o = Some (c_pid c) /\ c_parent c = Some me /\ c_state c = ZOMBIE /\
     only i c (freed c) (fun j => onq (rq s) j /\ j <> i) s s' /\ nextpid s' = nextpid s) \/
  (exists c, o = None /\ only me c (asleep_on (Cproc me) c) (onq (rq s)) s s' /\ nextpid s' = nextpid s /\
     (forall j d, core_at s j = Some d -> c_parent d = Some me -> c_state d <> ZOMBIE) /\
     exists j d, core_at s j = Some d /\ c_parent d = Some me).
Proof.
  intros Hl Hrun. unfold wait, bind at 1, gets at 1 in Hrun. destruct (wait_scan (table s) 0 me false) as [[i|] h] eqn:Hscan.
  - apply wait_scan_Some in Hscan as (p & _ & Hp & Hpar & Hz). rewrite Nat.sub_0_r in Hp.
    assert (Hc : core_at s i = Some (core p)) by (unfold core_at; by rewrite Hp).
    apply bind_Ret_inv in Hrun as (np & s1 & [-> Hnp]%getp_core & Hrun). rewrite Hc in Hnp.
    assert (Epid : p_pid np = c_pid (core p)) by (by inversion Hnp). do 4 peel Hrun. destruct (_ <? 0).
    + injection Hrun as <- <-. left. by eexists.
    + right. left. apply bind_Ret_inv in Hrun as (? & s2 & E2 & Hrun). injection Hrun as <- <-.
      rename select (same s _) into Hs. apply freeproc_sum in E2 as (c & O & N); [|by eapply same_sized].
      pose proof (only_same_l _ _ _ _ _ _ _ Hs O) as O'. assert (c = core p) as -> by (pose proof (on_old _ _ _ _ _ _ O'); congruence).
      pose proof Hs as (_ & Er & En & _). exists i, (core p). rewrite Epid. split_and!; try done; [|congruence].
      by rewrite Er in O'.
  - apply wait_scan_None in Hscan as [Hnz Hkid]. apply bind_Ret_inv in Hrun as (p & s1 & [-> _]%getp_core & Hrun).
    destruct (negb h || _) eqn:Hb; [injection Hrun as <- <-; left; by eexists|].
    right. right. apply bind_Ret_inv in Hrun as (? & s2 & E2 & Hrun). injection Hrun as <- <-.
    eapply (only_upd me _ (asleep_on (Cproc me))) in E2 as (c & O & N); [|done]. exists c. split_and!; try done.
    + intros j d (q & Hq & <-)%core_at_inv Hd. by eapply Hnz.
    + apply orb_false_iff in Hb as [Hh _]. apply negb_false_iff in Hh. destruct (Hkid Hh) as [|(j & q & Hq & Hpq)]; [done|].
      exists j, (core q). unfold core_at. by rewrite Hq.
Qed.

Lemma join_scan_Some ps k me h i h' : join_scan ps k me h = (Some i, h') ->
  exists t, (k <= i)%nat /\ ps !! (i - k)%nat = Some t /\ p_pthread t = Some me /\ p_state t = ZOMBIE.
Proof.
  revert k h. induction ps as [|p ps IH]; intros k h; simpl; [done|].
  assert (Hrest : forall h0, join_scan ps (S k) me h0 = (Some i, h') ->
    exists t, (k <= i)%nat /\ (p :: ps) !! (i - k)%nat = Some t /\ p_pthread t = Some me /\ p_state t = ZOMBIE).
  { intros h0 (t & Hk & Ht & ?)%IH. exists t. split; [lia|]. replace (i - k)%nat with (S (i - S k)) by lia. done. }
  case_bool_decide; [|apply Hrest]. case_bool_decide; [|apply Hrest].
  intros [= <- _]. exists p. rewrite Nat.sub_diag. by split.
Qed.

Lemma join_scan_None ps k me h h' : join_scan ps k me h = (None, h') ->
  (forall j p, ps !! j = Some p -> p_pthread p = Some me -> p_state p <> ZOMBIE) /\
  (h' = true -> h = true \/ exists j p, ps !! j = Some p /\ p_pthread p = Some me).
Proof.
  revert k h. induction ps as [|p ps IH]; intros k h; simpl; [intros [= ->]; split; [done|by left]|].
  case_bool_decide as Hp; [case_bool_decide as Hz; [done|]|]; intros Hf; destruct (IH _ _ Hf) as [H1 H2]; split.
  - intros [|j] q Hq; simpl in Hq; [by injection Hq as <-|by eapply H1].
  - intros Hh. right. by exists 0%nat, p.
  - intros [|j] q Hq; simpl in Hq; [injection Hq as <-; congruence|by eapply H1].
  - intros Hh. destruct (H2 Hh) as [|(j & q & Hq & Hpq)]; [by left|right]. by exists (S j), q.
Qed.

(** The entry of a thread after [join]. *)
Definition joined (c : corep) : corep := mk_core UNUSED None (c_chan c) 0 None.

Lemma join_sum me out s o s' : sized s -> join me out s = Ret o s' ->
  (exists r, o = Some r /\ same s s') \/
  (exists i c, o = Some (c_pid c) /\ c_pthread c = Some me /\ c_state c = ZOMBIE /\ only i c (joined c) (onq (rq s)) s s' /\ nextpid s' = nextpid s) \/
  (exists c, o = None /\ only me c (asleep_on (Cproc me) c) (onq (rq s)) s s' /\ nextpid s' = nextpid s /\
     (forall j d, core_at s j = Some d -> c_pthread d = Some me -> c_state d <> ZOMBIE) /\
     exists j d, core_at s j = Some d /\ c_pthread d = Some me).
Proof.
  intros Hl Hrun. unfold join, bind at 1, gets at 1 in Hrun. destruct (join_scan (table s) 0 me false) as [[i|] h] eqn:Hscan.
  - apply join_scan_Some in Hscan as (p & _ & Hp & Hpar & Hz). rewrite Nat.sub_0_r in Hp.
    assert (Hc : core_at s i = Some (core p)) by (unfold core_at; by rewrite Hp).
    apply bind_Ret_inv in Hrun as (np & s1 & [-> Hnp]%getp_core & Hrun). rewrite Hc in Hnp.
    assert (Epid : p_pid np = c_pid (core p)) by (by inversion Hnp). peel Hrun. rename select (same s _) into Hs.
    apply bind_Ret_inv in Hrun as (? & s2 & E2 & Hrun). eapply (only_upd i _ joined) in E2 as (c & O & N); [|done].
    peel Hrun. injection Hrun as <- <-. rename select (same s2 _) into Hs2. right. left. exists i, c.
    pose proof (only_same_r _ _ _ _ _ _ _ (only_same_l _ _ _ _ _ _ _ Hs O) Hs2) as O'. assert (c = core p) as -> by (pose proof (on_old _ _ _ _ _ _ O'); congruence).
    pose proof Hs as (_ & Er & En & _). pose proof Hs2 as (_ & _ & En2 & _). rewrite Epid. split_and!; try done; [|congruence]. by rewrite Er in O'.
  - apply join_scan_None in Hscan as [Hnz Hkid]. apply bind_Ret_inv in Hrun as (p & s1 & [-> _]%getp_core & Hrun).
    destruct (negb h || _) eqn:Hb; [injection Hrun as <- <-; left; by eexists|].
    right. right. apply bind_Ret_inv in Hrun as (? & s2 & E2 & Hrun). injection Hrun as <- <-.
    eapply (only_upd me _ (asleep_on (Cproc me))) in E2 as (c & O & N); [|done]. exists c. split_and!; try done.
    + intros j d (q & Hq & <-)%core_at_inv Hd. by eapply Hnz.
    + apply orb_false_iff in Hb as [Hh _]. apply negb_false_iff in Hh. destruct (Hkid Hh) as [|(j & q & Hq & Hpq)]; [done|].
      exists j, (core q). unfold core_at. by rewrite Hq.
Qed.

(** ** Waking *)

(** The sleeping processes in [W] become runnable and are queued. *)
Record woken (W : nat -> Prop) (s s' : pst) : Prop := {
  wk_core : forall j, (W j /\ exists c, core_at s j = Some c /\ c_state c = SLEEPING /\ core_at s' j = Some (with_state RUNNABLE c)) \/
    (~ W j /\ core_at s' j = core_at s j);
  wk_next : nextpid s' = nextpid s;
  wk_init : initproc s' = initproc s;
  wk_rqok : rqok (rq s) -> rqok (rq s');
  wk_queue : rqok (rq s) -> forall j, onq (rq s') j <-> onq (rq s) j \/ W j }.

Lemma woken_none s : woken (fun _ => False) s s.
Proof. split; try done; [intros j; right; tauto|tauto]. Qed.

Lemma woken_sized W s s' : woken W s s' -> sized s -> sized s'.
Proof.
  intros [Hc _ _ _ _] Hl j. rewrite <- (Hl j). destruct (Hc j) as [(_ & c & -> & _ & ->)|[_ ->]]; [|done]. split; by eexists.
Qed.

(** Waking one more. *)
Lemma woken_one W i s s1 a s' c : sized s -> woken W s s1 -> core_at s1 i = Some c -> c_state c = SLEEPING -> ~ W i ->
  make_runnable i s1 = Ret a s' -> woken (fun j => W j \/ j = i) s s'.
Proof.
  intros Hl Hw Hc Hs HW Hrun. destruct (runnable_sum i s1 a s' (woken_sized _ _ _ Hw Hl) Hrun) as (c' & [O1 O2 O3 O4 O5 O6] & N).
  destruct Hw as [W1 W2 W3 W4 W5]. assert (c' = c) as -> by congruence. split; try congruence.
  - intros j. destruct (decide (j = i)) as [->|Hne].
    + left. split; [by right|]. destruct (W1 i) as [[? _]|[_ E1]]; [done|]. exists c. split_and!; try done. congruence.
    + destruct (W1 j) as [(Hj & d & D1 & D2 & D3)|[Hj E1]].
      * left. split; [by left|]. exists d. split_and!; try done. by rewrite O3.
      * right. split; [tauto|]. by rewrite O3.
  - intros Hr. by apply O5, W4.
  - intros Hr j. rewrite (O6 (W4 Hr) j), (W5 Hr j). tauto.
Qed.

Lemma sleeps_on_core c p : sleeps_on c p = true <-> c_state (core p) = SLEEPING /\ c_chan (core p) = c.
Proof. unfold sleeps_on. rewrite andb_true_iff, !bool_decide_eq_true. done. Qed.

Definition sleeper (c : channel) s (j : nat) : Prop := exists d, core_at s j = Some d /\ c_state d = SLEEPING /\ c_chan d = c.

Lemma woken_ext W W' s s' : (forall j, W j <-> W' j) -> woken W s s' -> woken W' s s'.
Proof.
  intros HW [W1 W2 W3 W4 W5]. split; try done.
  - intros j. destruct (W1 j) as [[Hj ?]|[Hj ?]]; [left|right]; by rewrite <- HW.
  - intros Hr j. by rewrite (W5 Hr j), HW.
Qed.

Lemma wakeup_sum c s a s' : sized s -> wakeup c s = Ret a s' -> woken (sleeper c s) s s'.
Proof.
  intros Hl Hrun. destruct a. unfold wakeup in Hrun.
  eapply woken_ext; [|apply (for_loop_ret (fun i s1 => woken (fun j => Z.of_nat j < i /\ sleeper c s j) s s1)
    (fun i => let* p := getp (Z.to_nat i) in when (sleeps_on c p) (make_runnable (Z.to_nat i))) NPROC 0 s s'); [| |exact Hrun]].
  - intros j. rewrite Z.add_0_l. split; [tauto|]. intros Hj. split; [|done]. destruct Hj as (d & Hd & _).
    pose proof (core_at_lt s j d Hl Hd). lia.
  - eapply woken_ext; [|apply woken_none]. intros j. split; [done|]. intros [? _]. lia.
  - intros i s1 s2 Hi Hw Hb. apply bind_Ret_inv in Hb as (p & s3 & [-> Hp]%getp_core & Hb).
    destruct (sleeps_on c p) eqn:Hs; cbn [when] in Hb.
    + apply sleeps_on_core in Hs as [Hs1 Hs2]. assert (Hold : core_at s (Z.to_nat i) = Some (core p)).
      { destruct (wk_core _ _ _ Hw (Z.to_nat i)) as [([Hlt _] & _)|[_ E1]]; [lia|congruence]. }
      eapply woken_ext; [|eapply (woken_one _ (Z.to_nat i) s s1); [done|exact Hw|exact Hp|done| |exact Hb]]; [|cbn; lia].
      intros j. cbn. split.
      * intros [[Hj ?]| ->]; [split; [lia|done]|]. split; [lia|]. by exists (core p).
      * intros [Hj Hsj]. destruct (decide (j = Z.to_nat i)) as [->|]; [by right|left]. split; [lia|done].
    + injection Hb as <-. eapply woken_ext; [|exact Hw]. intros j. split; [intros [? ?]; split; [lia|done]|].
      intros [Hj Hsj]. split; [|done]. destruct (decide (j = Z.to_nat i)) as [->|]; [|lia]. exfalso.
      destruct Hsj as (d & Hd & Hd1 & Hd2). destruct (wk_core _ _ _ Hw (Z.to_nat i)) as [([Hlt _] & _)|[_ E1]]; [lia|].
      assert (core p = d) by congruence. subst d. assert (sleeps_on c p = true) by (by apply sleeps_on_core). congruence.
Qed.

Lemma wakeup1_sum i s a s' : sized s -> wakeup1 i s = Ret a s' -> woken (fun j => j = i /\ sleeper (Cproc i) s i) s s'.
Proof.
  intros Hl Hrun. apply bind_Ret_inv in Hrun as (p & s1 & [-> Hp]%getp_core & Hrun). destruct (sleeps_on _ p) eqn:Hs; cbn [when] in Hrun.
  - apply sleeps_on_core in Hs as [Hs1 Hs2]. eapply woken_ext; [|eapply (woken_one (fun _ => False) i s s); [done|apply woken_none|exact Hp|done|tauto|exact Hrun]].
    intros j. cbn. split; [|by intros [-> _]; right]. intros [[]| ->]. split; [done|]. by exists (core p).
  - injection Hrun as _ <-. eapply woken_ext; [|apply woken_none]. intros j. split; [done|]. intros [-> (d & Hd & D1 & D2)].
    assert (core p = d) by congruence. subst d. assert (sleeps_on (Cproc i) p = true) by (by apply sleeps_on_core). congruence.
Qed.

Lemma same_woken s s1 W s' : same s s1 -> woken W s1 s' -> woken W s s'.
Proof.
  intros Hs [W1 W2 W3 W4 W5]. pose proof Hs as (_ & Er & En & Ei). rewrite Er in W4, W5. split; try done; try congruence.
  intros j. rewrite <- (same_core s s1 j Hs). apply W1.
Qed.

Lemma kill_sum pid s r s' : sized s -> kill pid s = Ret r s' -> exists W, woken W s s'.
Proof.
  intros Hl Hrun. unfold kill, bind at 1, gets at 1 in Hrun. destruct (find_pid _ _ _) as [i|].
  - peel Hrun. rename select (same s _) into Hs. apply bind_Ret_inv in Hrun as (p & s2 & [-> Hp]%getp_core & Hrun).
    apply bind_Ret_inv in Hrun as (? & s3 & E3 & Hrun). injection Hrun as _ <-. case_bool_decide as Hst; cbn [when] in E3.
    + exists (fun j => False \/ j = i). eapply same_woken; [exact Hs|].
      eapply (woken_one (fun _ => False) i); [by eapply same_sized|apply woken_none|exact Hp|done|tauto|exact E3].
    + injection E3 as _ <-. exists (fun _ => False). eapply same_woken; [exact Hs|apply woken_none].
  - injection Hrun as _ <-. exists (fun _ => False). apply woken_none.
Qed.

(** ** Exit *)

Definition with_parent (q : option nat) (c : corep) : corep := mk_core (c_state c) q (c_chan c) (c_pid c) (c_pthread c).

(** The children of [me] below [n] have been given to [init]. *)
Definition given (me : nat) (n : Z) (s s' : pst) : Prop :=
  rq s' = rq s /\ nextpid s' = nextpid s /\ initproc s' = initproc s /\
  forall j, core_at s' j =
    (fun c => if decide (Z.of_nat j < n /\ c_parent c = Some me) then with_parent (initproc s) c else c) <$> core_at s j.

Lemma reparent_sum me s a s' : sized s -> reparent me s = Ret a s' -> given me (Z.of_nat NPROC) s s'.
Proof.
  intros Hl Hrun. destruct a. unfold reparent in Hrun.
  apply (for_loop_ret (fun i s1 => given me i s s1) (fun i =>
    let* pp := getp (Z.to_nat i) in
    when (bool_decide (p_parent pp = Some me)) (let* init := gets initproc in modp (Z.to_nat i) (set_parent init))) NPROC 0 s s'); [| |exact Hrun].
  - split_and!; try done. intros j. destruct (core_at s j); [|done]. simpl. by rewrite decide_False by lia.
  - intros i s1 s2 Hi (G1 & G2 & G3 & G4) Hb. apply bind_Ret_inv in Hb as (p & s3 & [-> Hp]%getp_core & Hb).
    assert (Hold : core_at s (Z.to_nat i) = Some (core p)).
    { rewrite (G4 (Z.to_nat i)) in Hp. destruct (core_at s (Z.to_nat i)) as [c|]; [|done]. simpl in Hp. rewrite decide_False in Hp by lia. congruence. }
    case_bool_decide as Hpar; cbn [when] in Hb.
    + unfold bind, gets in Hb. eapply (modp_core _ _ (with_parent (initproc s1))) in Hb as (B1 & B2 & B3 & c & Hc & Hc' & Hrest); [|done].
      split_and!; try congruence. intros j. destruct (decide (j = Z.to_nat i)) as [->|Hne].
      * rewrite Hc', Hold. simpl. rewrite decide_True by (split; [lia|done]). assert (c = core p) as -> by congruence. by rewrite G3.
      * rewrite Hrest, G4 by done. destruct (core_at s j) as [d|]; [|done]. simpl. f_equal.
        destruct (decide (Z.of_nat j < i /\ c_parent d = Some me)) as [[? ?]|Hn]; [by rewrite decide_True by (split; [lia|done])|].
        rewrite decide_False; [done|]. intros [? ?]. apply Hn. split; [lia|done].
    + injection Hb as <-. split_and!; try done. intros j. rewrite G4. destruct (core_at s j) as [d|] eqn:Hd; [|done]. simpl. f_equal.
      destruct (decide (Z.of_nat j < i /\ c_parent d = Some me)) as [[? ?]|Hn]; [by rewrite decide_True by (split; [lia|done])|].
      rewrite decide_False; [done|]. intros [? Hdp]. destruct (decide (j = Z.to_nat i)) as [->|]; [|apply Hn; split; [lia|done]].
      assert (d = core p) as -> by congruence. done.
Qed.

Lemma given_sized me n s s' : given me n s s' -> sized s -> sized s'.
Proof. intros (_ & _ & _ & Hc) Hl j. by rewrite Hc, fmap_is_Some. Qed.

Lemma exit_check_sum me s a s' : exit_check me s = Ret a s' -> s' = s /\ initproc s <> Some me.
Proof. unfold exit_check, bind, gets. case_bool_decide as Hi; [done|]. by intros [= _ <-]. Qed.

Lemma exit_wakeinit_sum s a s' : sized s -> exit_wakeinit s = Ret a s' ->
  exists init, initproc s = Some init /\ woken (fun j => j = init /\ sleeper (Cproc init) s init) s s'.
Proof.
  intros Hl Hrun. unfold exit_wakeinit, bind at 1, gets at 1 in Hrun. destruct (initproc s) as [init|]; [|done]. exists init. split; [done|].
  by apply wakeup1_sum in Hrun.
Qed.

Lemma exit_finish_sum me status q s a s' : sized s -> exit_finish me status q s = Ret a s' ->
  exists q0 s1 s2 c, q = Some q0 /\ given me (Z.of_nat NPROC) s s1 /\ woken (fun j => j = q0 /\ sleeper (Cproc q0) s1 q0) s1 s2 /\
    only me c (with_state ZOMBIE c) (onq (rq s2)) s2 s' /\ nextpid s' = nextpid s2.
Proof.
  intros Hl Hrun. destruct q as [q|]; [|done]. cbn in Hrun. apply bind_Ret_inv in Hrun as (? & s1 & E1 & Hrun).
  apply reparent_sum in E1; [|done]. apply bind_Ret_inv in Hrun as (? & s2 & E2 & Hrun).
  apply wakeup1_sum in E2; [|by eapply given_sized].
  eapply (only_upd me _ (with_state ZOMBIE)) in Hrun as (c & O & N); [|done]. by exists q, s1, s2, c.
Qed.

(** ** Scheduling *)

Lemma sched_pick_sum s o s' : rqok (rq s) -> sched_pick s = Ret o s' ->
  table s' = table s /\ nextpid s' = nextpid s /\ initproc s' = initproc s /\ rqok (rq s') /\
  match o with
  | None => forall j, ~ onq (rq s) j /\ ~ onq (rq s') j
  | Some i => onq (rq s) i /\ forall j, onq (rq s') j <-> onq (rq s) j /\ j <> i
  end.
Proof.
  intros Hr Hrun. apply onrq_core in Hrun as (Er & Et & En & Ei).
  destruct (pick_set (rq s) Hr) as [[E1 Hno]|(i & st' & E1 & Hok & Hi & Hq)]; rewrite E1 in Er; inversion Er; subst; by split_and!.
Qed.

Lemma sched_run_sum i s b s' : sized s -> sched_run i s = Ret b s' -> ~ onq (rq s) i ->
  exists c, core_at s i = Some c /\
    if b then c_state c = RUNNABLE /\ only i c (with_state RUNNING c) (onq (rq s)) s s' /\ nextpid s' = nextpid s
    else c_state c <> RUNNABLE.
Proof.
  intros Hl Hrun Hoff. apply bind_Ret_inv in Hrun as (p & s1 & [-> Hp]%getp_core & Hrun). exists (core p). split; [done|].
  case_bool_decide as Hs.
  - apply bind_Ret_inv in Hrun as (? & s2 & E2 & Hrun).
    assert (Hrq : rq s2 = rq s) by (eapply (modp_core i _ (with_state RUNNING)) in E2; [apply E2|done]).
    eapply (only_upd i _ (with_state RUNNING)) in E2 as (c & O & N); [|done].
    apply bind_Ret_inv in Hrun as ([] & s3 & E3 & Hrun). injection Hrun as <- <-.
    assert (c = core p) as -> by (pose proof (on_old _ _ _ _ _ _ O); congruence).
    pose proof (core_at_lt s i _ Hl Hp) as Hi.
    eapply (only_rq i _ _ (onq (rq s))) in E3 as [O3 N3]; [|apply O|].
    + destruct (only_trans _ _ _ _ _ _ _ _ _ _ O O3) as [_ O4]. split_and!; [done|done|congruence].
    + intros Hr. destruct (modp_set (rq s2) i (SchedO1.set_wait_time 0) Hr Hi) as (st' & A1 & A2 & A3); [by rewrite Hrq|done|].
      exists st'. split_and!; try done. intros k. by rewrite A3, Hrq.
  - apply bind_Ret_inv in Hrun as (x & s2 & _ & Hrun). apply bind_Ret_inv in Hrun as (? & s3 & _ & Hrun). by injection Hrun as <- _.
Qed.

Lemma find_pid_lt ps k pid i : find_pid ps k pid = Some i -> (k <= i < k + length ps)%nat.
Proof.
  revert k. induction ps as [|p ps IH]; intros k; simpl; [done|]. destruct (_ =? _); [intros [= ->]; lia|].
  intros Hf. apply IH in Hf. lia.
Qed.

(** An operation on the run queue that keeps who is queued. *)
Lemma rq_woken {A} (m : M SchedO1.runq A) s a s' : onrq m s = Ret a s' ->
  (rqok (rq s) -> exists st', m (rq s) = Ret a st' /\ rqok st' /\ forall j, onq st' j <-> onq (rq s) j) ->
  woken (fun _ => False) s s'.
Proof.
  intros Hrun Hm. apply onrq_core in Hrun as (Er & Et & En & Ei). split; try done.
  - intros j. right. split; [tauto|]. unfold core_at. by rewrite Et.
  - intros Hr. destruct (Hm Hr) as (st' & E' & Hok & _). rewrite E' in Er. by injection Er as <-.
  - intros Hr j. destruct (Hm Hr) as (st' & E' & _ & Hq). rewrite E' in Er. injection Er as <-. rewrite Hq. tauto.
Qed.

Lemma tick_sum r s a s' : (forall i, r = Some i -> (i < NPROC)%nat) -> onrq (SchedO1.sched_tick r) s = Ret a s' -> woken (fun _ => False) s s'.
Proof.
  intros Hr Hrun. eapply rq_woken; [exact Hrun|]. intros Hok. destruct a. by apply tick_set.
Qed.

Lemma reprioritize_set st i priority : rqok st -> (i < NPROC)%nat ->
  exists st', reprioritize i priority st = Ret tt st' /\ rqok st' /\ forall j, onq st' j <-> onq st j.
Proof.
  intros Hr Hi. unfold reprioritize.
  destruct (modp_links_set st i (SchedO1.set_priority priority) Hr Hi ltac:(done)) as (s1 & E1 & R1 & Q1).
  rewrite (bind_Ret _ _ _ _ _ E1). destruct (rqok_slot s1 i R1 Hi) as [x Hx].
  rewrite (bind_Ret _ _ _ _ _ (SchedO1.getp_Ret _ _ _ Hx)). destruct (SchedO1.on_runq x) eqn:Hon.
  - destruct (remove_set s1 i R1 ltac:(by exists x)) as (s2 & E2 & R2 & Q2). rewrite (bind_Ret _ _ _ _ _ E2).
    destruct (enqueue_set s2 i R2 Hi) as (s3 & E3 & R3 & Q3). exists s3. split_and!; try done. intros j. rewrite Q3, Q2, <- Q1.
    split; [intros [[? _]| ->]; [done|by exists x]|]. intros Hj. destruct (decide (j = i)); [by right|by left].
  - destruct (modp_set s1 i (SchedO1.set_dyn_priority (SchedO1.runq_dyn x)) R1 Hi) as (s2 & E2 & R2 & Q2); [|done|].
    + intros (y & Hy & Hon'). congruence.
    + exists s2. split_and!; try done. intros j. by rewrite Q2, Q1.
Qed.

Lemma setPriority_sum pid priority s r s' : sized s -> setPriority pid priority s = Ret r s' -> woken (fun _ => False) s s'.
Proof.
  intros Hl Hrun. unfold setPriority, bind at 1, gets at 1 in Hrun. destruct (find_pid (table s) 0 pid) as [i|] eqn:Hf.
  - apply bind_Ret_inv in Hrun as ([] & s1 & E1 & Hrun). injection Hrun as _ <-. eapply rq_woken; [exact E1|]. intros Hr.
    apply reprioritize_set; [done|]. apply find_pid_lt in Hf. apply Hl. unfold core_at.
    destruct (lookup_lt_is_Some_2 (table s) i) as [p Hp]; [lia|]. rewrite Hp. by eexists.
  - injection Hrun as _ <-. apply woken_none.
Qed.

(** The first process. *)
Lemma userinit_sum s s' : sized s -> rqok (rq s) -> (forall i, ~ onq (rq s) i) -> userinit s = Ret tt s' ->
  exists i c s1, c_state c = UNUSED /\ initproc s' = Some i /\ nextpid s' = s32 (nextpid s + 1) /\ rq s1 = rq s /\
    (forall j, core_at s1 j = core_at s j) /\
    only i c (with_state RUNNABLE (with_pid (nextpid s) c)) (fun j => onq (rq s) j \/ j = i) s1 s'.
Proof.
  intros Hl Hr Hoff Hrun. apply bind_Ret_inv in Hrun as (o & s1 & E1 & Hrun).
  apply allocproc_sum in E1; [|done..|naive_solver]. apply bind_Ret_inv in Hrun as (? & s2 & E2 & Hrun). injection E2 as _ <-.
  destruct o as [i0|]; [|done]. destruct E1 as [[? _]|(i & c & c' & O & Hu & En & -> & ->)]; [done|]. do 8 peel Hrun.
  rename select (same (set_initproc _ _) _) into Hs.
  apply runnable_sum in Hrun as (c2 & O2 & En2); [|eapply same_sized; [exact Hs|]; by eapply (only_sized _ _ _ _ s s1)].
  pose proof Hs as (_ & Hrq & Hn & Hi). cbn in Hrq, Hn, Hi.
  set (s0 := mk_pst (table s) (rq s) (nextpid s) (Some i) (env s)).
  assert (O1 : only i c (with_pid (nextpid s) c) (onq (rq s)) s0 (set_initproc (Some i) s1)).
  { destruct O as [A1 A2 A3 A4 A5 A6]. by split. }
  pose proof (only_same_r _ _ _ _ _ _ _ O1 Hs) as O3. destruct (only_trans _ _ _ _ _ _ _ _ _ _ O3 O2) as [-> O4].
  exists i, c, s0. split_and!; try done.
  - rewrite (on_init _ _ _ _ _ _ O2). congruence.
  - congruence.
  - eapply only_queue; [|exact O4]. intros Hr0 j. cbn. by rewrite (on_queue _ _ _ _ _ _ O3 Hr0).
Qed.

End sums.

End Procsum.
