(* ===== verification/Procinv.v ===== *)
(** The process table under concurrency.

    CPUs run processes and the scheduler; each step is one locked region of
    [proc.c], or one call of [exit] into the file system. In every state they
    reach the table, the run queue and the CPUs agree, pids and the process tree
    are sound, and no wakeup of [wait] and [join] is lost.

    Two bounds: pids do not run out, so [fork] and [clone] are taken while
    [nextpid] is below [2 ^ 31 - 1]; and no process is created while a [clone]
    is between its two regions. There the entry of the new thread is unlocked
    and still [UNUSED], and [allocproc] would take it a second time:
    [clone_race] is such a run. The services of [Env] are arbitrary; with the
    [kfree] of [kalloc.c] the steps in which [join] reaps a thread end in a
    panic instead ([Threads.v]). *)

From S2P Require Import Prelude SchedO1 Runset Ptable Proc Procsum.
Import Runset Ptable Proc Procsum.

Module Procinv.

Inductive cpu := Idle | Picked (i : nat) | Running (i : nat).
(** Where a process stands inside the kernel: nowhere special; in [exit], after [n]
    of its pieces, before and after reading its parent; asleep in [wait] or in
    [join]; between the two regions of [clone]; asleep elsewhere, in [exit] or not. *)
Inductive pc := Pno | Pexit0 (n : nat) | Pexit1 | Pexit2 (parent : option nat) | Pwait (addr : Z) | Pjoin (stack : Z)
  | Pclone (np : nat) | Psleep (exit : option nat).

(** Where the calls into the file system are, which sleep. *)
Definition sleeps_at (b : option nat) : pc := match b with None => Pno | Some n => Pexit0 n end.
(** In [exit]. *)
Definition exiting (x : pc) : bool :=
  match x with Pexit0 _ | Pexit1 | Pexit2 _ | Psleep (Some _) => true | _ => false end.

Definition NCPU : nat := 8.

Section inv.
Context {E : Type} `{Env E}.
Implicit Types (s : pst (E := E)) (cs : list cpu).

Record sys := mk_sys { k : pst (E := E); cpus : list cpu; pcs : nat -> pc }.

Definition set_pc (i : nat) (x : pc) (f : nat -> pc) : nat -> pc := fun j => if decide (j = i) then x else f j.

(** The process the timer finds running on CPU [n]. *)
Definition current (c : cpu) : option nat := match c with Running i => Some i | _ => None end.

(** A process can be created: a pid is left, and no [clone] is between its regions. *)
Definition creates s (ps : nat -> pc) : Prop := nextpid s < 2 ^ 31 - 1 /\ forall j np, ps j <> Pclone np.

Inductive step : sys -> sys -> Prop :=
| st_fork s cs ps n i r s' : cs !! n = Some (Running i) -> ps i = Pno -> creates s ps ->
    fork i s = Ret r s' -> step (mk_sys s cs ps) (mk_sys s' cs ps)
| st_clone_fails s cs ps n i fcn arg stack s' : cs !! n = Some (Running i) -> ps i = Pno -> creates s ps ->
    clone_begin i fcn arg stack s = Ret None s' -> step (mk_sys s cs ps) (mk_sys s' cs ps)
| st_clone_begin s cs ps n i fcn arg stack np s' : cs !! n = Some (Running i) -> ps i = Pno -> creates s ps ->
    clone_begin i fcn arg stack s = Ret (Some np) s' -> step (mk_sys s cs ps) (mk_sys s' cs (set_pc i (Pclone np) ps))
| st_clone_finish s cs ps n i np r s' : cs !! n = Some (Running i) -> ps i = Pclone np ->
    clone_finish np s = Ret r s' -> step (mk_sys s cs ps) (mk_sys s' cs (set_pc i Pno ps))
| st_join s cs ps n i stack r s' : cs !! n = Some (Running i) -> ps i = Pno ->
    join i stack s = Ret (Some r) s' -> step (mk_sys s cs ps) (mk_sys s' cs ps)
| st_join_sleep s cs ps n i stack s' : cs !! n = Some (Running i) -> ps i = Pno ->
    join i stack s = Ret None s' -> step (mk_sys s cs ps) (mk_sys s' (<[n := Idle]> cs) (set_pc i (Pjoin stack) ps))
| st_join_again s cs ps n i stack r s' : cs !! n = Some (Running i) -> ps i = Pjoin stack ->
    (sleep_leave i ;;; join i stack) s = Ret (Some r) s' -> step (mk_sys s cs ps) (mk_sys s' cs (set_pc i Pno ps))
| st_join_again_sleep s cs ps n i stack s' : cs !! n = Some (Running i) -> ps i = Pjoin stack ->
    (sleep_leave i ;;; join i stack) s = Ret None s' -> step (mk_sys s cs ps) (mk_sys s' (<[n := Idle]> cs) (set_pc i (Pjoin stack) ps))
| st_exit_check s cs ps n i s' : cs !! n = Some (Running i) -> ps i = Pno ->
    exit_check i s = Ret tt s' -> step (mk_sys s cs ps) (mk_sys s' cs (set_pc i (Pexit0 0) ps))
| st_exit_piece s cs ps n i m piece s' : cs !! n = Some (Running i) -> ps i = Pexit0 m -> exit_pieces i !! m = Some piece ->
    piece s = Ret tt s' -> step (mk_sys s cs ps) (mk_sys s' cs (set_pc i (Pexit0 (S m)) ps))
| st_exit_wakeinit s cs ps n i s' : cs !! n = Some (Running i) -> ps i = Pexit0 (length (exit_pieces (E := E) i)) ->
    exit_wakeinit s = Ret tt s' -> step (mk_sys s cs ps) (mk_sys s' cs (set_pc i Pexit1 ps))
| st_exit_parent s cs ps n i q s' : cs !! n = Some (Running i) -> ps i = Pexit1 ->
    exit_parent i s = Ret q s' -> step (mk_sys s cs ps) (mk_sys s' cs (set_pc i (Pexit2 q) ps))
| st_exit_finish s cs ps n i status q s' : cs !! n = Some (Running i) -> ps i = Pexit2 q ->
    exit_finish i status q s = Ret tt s' -> step (mk_sys s cs ps) (mk_sys s' (<[n := Idle]> cs) (set_pc i Pno ps))
| st_wait s cs ps n i addr r s' : cs !! n = Some (Running i) -> ps i = Pno ->
    wait i addr s = Ret (Some r) s' -> step (mk_sys s cs ps) (mk_sys s' cs ps)
| st_wait_sleep s cs ps n i addr s' : cs !! n = Some (Running i) -> ps i = Pno ->
    wait i addr s = Ret None s' -> step (mk_sys s cs ps) (mk_sys s' (<[n := Idle]> cs) (set_pc i (Pwait addr) ps))
| st_wait_again s cs ps n i addr r s' : cs !! n = Some (Running i) -> ps i = Pwait addr ->
    (sleep_leave i ;;; wait i addr) s = Ret (Some r) s' -> step (mk_sys s cs ps) (mk_sys s' cs (set_pc i Pno ps))
| st_wait_again_sleep s cs ps n i addr s' : cs !! n = Some (Running i) -> ps i = Pwait addr ->
    (sleep_leave i ;;; wait i addr) s = Ret None s' -> step (mk_sys s cs ps) (mk_sys s' (<[n := Idle]> cs) (set_pc i (Pwait addr) ps))
| st_sleep s cs ps n i b a s' : cs !! n = Some (Running i) -> ps i = sleeps_at b ->
    sleep_enter i (Cobj a) s = Ret tt s' -> step (mk_sys s cs ps) (mk_sys s' (<[n := Idle]> cs) (set_pc i (Psleep b) ps))
| st_sleep_leave s cs ps n i b s' : cs !! n = Some (Running i) -> ps i = Psleep b ->
    sleep_leave i s = Ret tt s' -> step (mk_sys s cs ps) (mk_sys s' cs (set_pc i (sleeps_at b) ps))
| st_wakeup s cs ps a s' : wakeup (Cobj a) s = Ret tt s' -> step (mk_sys s cs ps) (mk_sys s' cs ps)
| st_kill s cs ps pid r s' : kill pid s = Ret r s' -> step (mk_sys s cs ps) (mk_sys s' cs ps)
| st_yield s cs ps n i s' : cs !! n = Some (Running i) ->
    yield i s = Ret tt s' -> step (mk_sys s cs ps) (mk_sys s' (<[n := Idle]> cs) ps)
| st_priority s cs ps pid priority r s' : setPriority pid priority s = Ret r s' -> step (mk_sys s cs ps) (mk_sys s' cs ps)
| st_grow s cs ps n i d r s' : cs !! n = Some (Running i) ->
    growproc i d s = Ret r s' -> step (mk_sys s cs ps) (mk_sys s' cs ps)
| st_tick s cs ps n c s' : cs !! n = Some c ->
    onrq (SchedO1.sched_tick (current c)) s = Ret tt s' -> step (mk_sys s cs ps) (mk_sys s' cs ps)
| st_env s cs ps e : step (mk_sys s cs ps) (mk_sys (set_env e s) cs ps)
| st_pick s cs ps n i s' : cs !! n = Some Idle ->
    sched_pick s = Ret (Some i) s' -> step (mk_sys s cs ps) (mk_sys s' (<[n := Picked i]> cs) ps)
| st_run s cs ps n i s' : cs !! n = Some (Picked i) ->
    sched_run i s = Ret true s' -> step (mk_sys s cs ps) (mk_sys s' (<[n := Running i]> cs) ps)
| st_run_back s cs ps n i s' : cs !! n = Some (Picked i) ->
    sched_run i s = Ret false s' -> step (mk_sys s cs ps) (mk_sys s' (<[n := Idle]> cs) ps).

(** The machine after [procinit] and [userinit] on zeroed memory. *)
Definition zero_proc : proc :=
  mk_proc UNUSED None Cnone 0 0 0 0 0 0 0 (replicate NOFILE 0) 0 EmptyString 0 (replicate 16 zero_vma) None 0 0 0
    (replicate 8 0) 0 0 0 0 0 0.
Definition zero_rq : SchedO1.runq :=
  SchedO1.RunQ (replicate NPROC (SchedO1.SProc 0 0 0 0 None None false)) (replicate 21 None) (replicate 21 None) 0.
Definition zero_pst (e : E) : pst := mk_pst (replicate NPROC zero_proc) zero_rq 1 None e.

Inductive reachable : sys -> Prop :=
| reach_boot e s : (procinit ;;; userinit) (zero_pst e) = Ret tt s -> reachable (mk_sys s (replicate NCPU Idle) (fun _ => Pno))
| reach_step y y' : reachable y -> step y y' -> reachable y'.

(** ** The invariant *)

Definition live (c : corep) : Prop := c_state c <> UNUSED /\ c_state c <> ZOMBIE.
Definition on_cpu (cs : list cpu) (n i : nat) : Prop := cs !! n = Some (Picked i) \/ cs !! n = Some (Running i).

(** The pid of entry [i] is taken: it is in use, or a [clone] is about to set it going. *)
Definition held (ps : nat -> pc) (i : nat) (c : corep) : Prop := c_state c <> UNUSED \/ exists j, ps j = Pclone i.

(** What a process asleep in [wait] or in [join] waits for is still to come: it has a
    child and no zombie child, or a thread and no zombie thread. Only init may have
    missed the exit of a child. *)
Definition waits s (x : pc) (i : nat) : Prop :=
  match x with
  | Pwait _ => (exists m d, core_at s m = Some d /\ c_parent d = Some i /\ c_state d <> UNUSED) /\
      (initproc s <> Some i -> forall m d, core_at s m = Some d -> c_parent d = Some i -> c_state d <> ZOMBIE)
  | Pjoin _ => (exists m d, core_at s m = Some d /\ c_pthread d = Some i /\ c_state d <> UNUSED) /\
      (forall m d, core_at s m = Some d -> c_pthread d = Some i -> c_state d <> ZOMBIE)
  | _ => False
  end.

(** The one an exiting process wakes: for a thread its creator, otherwise its parent,
    unless it has been given to init since. *)
Definition wakes (c : corep) (init q : option nat) : Prop :=
  match c_pthread c with Some j => q = Some j | None => q = c_parent c \/ c_parent c = init end.

Record inv (y : sys) : Prop := {
  iv_sized : sized (k y);
  iv_rqok : rqok (rq (k y));
  iv_next : 0 < nextpid (k y) < 2 ^ 31;
  iv_init : exists i0 c0, initproc (k y) = Some i0 /\ core_at (k y) i0 = Some c0 /\ live c0 /\ c_parent c0 = None;
  iv_unused : forall i c, core_at (k y) i = Some c -> c_state c = UNUSED -> c_parent c = None /\ pcs y i = Pno;
  iv_zombie : forall i c, core_at (k y) i = Some c -> c_state c = ZOMBIE -> pcs y i = Pno;
  iv_thread : forall i c, core_at (k y) i = Some c -> c_pthread c <> None ->
    c_parent c = None /\ initproc (k y) <> Some i /\ held (pcs y) i c;
  iv_clone : forall j i, pcs y j = Pclone i -> exists c, core_at (k y) i = Some c /\ c_state c = UNUSED /\ c_pthread c = Some j;
  iv_queued : forall i c, core_at (k y) i = Some c ->
    c_state c = RUNNABLE <-> onq (rq (k y)) i \/ exists n, cpus y !! n = Some (Picked i);
  iv_picked : forall n i, cpus y !! n = Some (Picked i) -> is_Some (core_at (k y) i) /\ ~ onq (rq (k y)) i;
  iv_running : forall i c, core_at (k y) i = Some c -> c_state c = RUNNING <-> exists n, cpus y !! n = Some (Running i);
  iv_ran : forall n i, cpus y !! n = Some (Running i) -> is_Some (core_at (k y) i);
  iv_once : forall n m i, on_cpu (cpus y) n i -> on_cpu (cpus y) m i -> n = m;
  iv_pid : forall i c, core_at (k y) i = Some c -> held (pcs y) i c -> 0 < c_pid c < nextpid (k y);
  iv_uniq : forall i j c d, core_at (k y) i = Some c -> core_at (k y) j = Some d ->
    held (pcs y) i c -> held (pcs y) j d -> c_pid c = c_pid d -> i = j;
  iv_parent : forall i c, core_at (k y) i = Some c -> c_state c <> UNUSED -> initproc (k y) <> Some i -> c_pthread c = None ->
    exists q d, c_parent c = Some q /\ core_at (k y) q = Some d /\ live d;
  iv_noinit : forall i, exiting (pcs y i) = true -> initproc (k y) <> Some i;
  iv_exit : forall i c q, core_at (k y) i = Some c -> pcs y i = Pexit2 q -> wakes c (initproc (k y)) q;
  iv_wait : forall i c j, core_at (k y) i = Some c -> c_state c = SLEEPING -> c_chan c = Cproc j -> j = i /\ waits (k y) (pcs y i) i }.

(** ** Steps that wake processes or change nothing *)

Lemma woken_back W s s' j c' : woken W s s' -> core_at s' j = Some c' ->
  exists c, core_at s j = Some c /\ (W j /\ c_state c = SLEEPING /\ c' = with_state RUNNABLE c \/ ~ W j /\ c' = c).
Proof.
  intros [Hc _ _ _ _] Hj. destruct (Hc j) as [(HW & c & H1 & H2 & H3)|[HW E1]].
  - exists c. split; [done|]. left. split_and!; try done. congruence.
  - rewrite E1 in Hj. exists c'. split; [done|]. by right.
Qed.
Lemma woken_fwd W s s' j c : woken W s s' -> core_at s j = Some c ->
  exists c', core_at s' j = Some c' /\ (W j /\ c_state c = SLEEPING /\ c' = with_state RUNNABLE c \/ ~ W j /\ c' = c).
Proof.
  intros [Hc _ _ _ _] Hj. destruct (Hc j) as [(HW & d & H1 & H2 & H3)|[HW E1]].
  - assert (d = c) as -> by congruence. exists (with_state RUNNABLE c). split; [done|]. by left.
  - exists c. split; [congruence|]. by right.
Qed.

(** What waking does not touch. *)
Lemma woken_view W s s' j c' : woken W s s' -> core_at s' j = Some c' ->
  exists c, core_at s j = Some c /\ c_parent c' = c_parent c /\ c_pid c' = c_pid c /\ c_pthread c' = c_pthread c /\
    (c_state c' = UNUSED <-> c_state c = UNUSED) /\ (c_state c' = ZOMBIE <-> c_state c = ZOMBIE) /\ (c_state c' = SLEEPING -> c' = c).
Proof.
  intros Hw Hj. destruct (woken_back _ _ _ _ _ Hw Hj) as (c & Hc & [(_ & Hs & ->)|[_ ->]]); exists c; [|done].
  split_and!; try done; cbn; rewrite Hs; done.
Qed.
Lemma woken_view_fwd W s s' j c : woken W s s' -> core_at s j = Some c ->
  exists c', core_at s' j = Some c' /\ c_parent c' = c_parent c /\ c_pthread c' = c_pthread c /\
    (c_state c' = UNUSED <-> c_state c = UNUSED) /\ (c_state c' = ZOMBIE <-> c_state c = ZOMBIE).
Proof.
  intros Hw Hj. destruct (woken_fwd _ _ _ _ _ Hw Hj) as (c' & Hc' & [(_ & Hs & ->)|[_ ->]]); eexists; split_and!; try done; cbn; rewrite Hs; done.
Qed.

Lemma woken_waits W s s' x i : woken W s s' -> waits s x i -> waits s' x i.
Proof.
  intros Hw. unfold waits. rewrite (wk_init _ _ _ Hw). destruct x; try done.
  - intros [(m & d & Hd & Hp & Hu) Hz]. destruct (woken_view_fwd _ _ _ _ _ Hw Hd) as (d' & Hd' & Ep & _ & Eu & _). split.
    + exists m, d'. rewrite Ep, Eu. done.
    + intros Hi m' e' He' Hp'. destruct (woken_view _ _ _ _ _ Hw He') as (e & He & Ep' & _ & _ & _ & Ez & _). rewrite Ez. apply (Hz Hi m'); congruence.
  - intros [(m & d & Hd & Hp & Hu) Hz]. destruct (woken_view_fwd _ _ _ _ _ Hw Hd) as (d' & Hd' & _ & Ep & Eu & _). split.
    + exists m, d'. rewrite Ep, Eu. done.
    + intros m' e' He' Hp'. destruct (woken_view _ _ _ _ _ Hw He') as (e & He & _ & _ & Ep' & _ & Ez & _). rewrite Ez. apply (Hz m'); congruence.
Qed.

Lemma inv_woken W s s' cs ps : woken W s s' -> inv (mk_sys s cs ps) -> inv (mk_sys s' cs ps).
Proof.
  intros Hw [I1 I2 I3 I4 I5 I18 I6 I19 I7 I8 I9 I10 I11 I12 I13 I14 I17 I15 I16]. cbn in *.
  pose proof Hw as [_ Wn Wi Wr Wq]. specialize (Wq I2).
  assert (Hpick : forall n i, cs !! n = Some (Picked i) -> ~ W i).
  { intros n i Hn HW. destruct (wk_core _ _ _ Hw i) as [(_ & c & Hc & Hs & _)|[? _]]; [|done].
    assert (c_state c = RUNNABLE) by (apply (I7 i c Hc); right; by exists n). congruence. }
  split; cbn; rewrite ?Wi, ?Wn; try done; try (by apply Wr).
  - by eapply woken_sized.
  - destruct I4 as (i0 & c0 & Hi & Hc & [Hu Hz] & Hr). destruct (woken_view_fwd _ _ _ _ _ Hw Hc) as (c' & Hc' & Ep & _ & Eu & Ez).
    exists i0, c'. unfold live. rewrite Ep, Eu, Ez. done.
  - intros i c' (c & Hc & -> & _ & _ & -> & _)%(woken_view _ _ _ _ _ Hw). by apply I5.
  - intros i c' (c & Hc & _ & _ & _ & _ & -> & _)%(woken_view _ _ _ _ _ Hw). by apply I18.
  - intros i c' (c & Hc & -> & _ & -> & Eu & _)%(woken_view _ _ _ _ _ Hw). unfold held. rewrite Eu. by apply I6.
  - intros j i (c & Hc & Hu & Ht)%I19. destruct (woken_view_fwd _ _ _ _ _ Hw Hc) as (c' & Hc' & _ & Et & Eu & _). exists c'. rewrite Et, Eu. done.
  - intros i c' Hc'. rewrite Wq. destruct (woken_back _ _ _ _ _ Hw Hc') as (c & Hc & [(HW & _ & ->)|[HW ->]]).
    + split; [by left; right|done].
    + rewrite (I7 i c Hc). split; [intros [?|?]; [by left; left|by right]|intros [[?|?]|?]; [by left|done|by right]].
  - intros n i Hn. destruct (I8 n i Hn) as [[c Hc] Hq]. destruct (woken_fwd _ _ _ _ _ Hw Hc) as (c' & Hc' & _).
    split; [by exists c'|]. rewrite Wq. intros [?|?]; [done|by eapply Hpick].
  - intros i c' Hc'. destruct (woken_back _ _ _ _ _ Hw Hc') as (c & Hc & [(_ & Hs & ->)|[_ ->]]); [|by apply I9].
    rewrite <- (I9 i c Hc), Hs. cbn. split; done.
  - intros n i Hn. destruct (I10 n i Hn) as [c Hc]. destruct (woken_fwd _ _ _ _ _ Hw Hc) as (c' & Hc' & _). by exists c'.
  - intros i c' (c & Hc & _ & -> & _ & Eu & _)%(woken_view _ _ _ _ _ Hw). unfold held. rewrite Eu. by apply I12.
  - intros i j c' d' (c & Hc & _ & -> & _ & Eu & _)%(woken_view _ _ _ _ _ Hw) (d & Hd & _ & -> & _ & Ev & _)%(woken_view _ _ _ _ _ Hw).
    unfold held. rewrite Eu, Ev. by apply I13.
  - intros i c' (c & Hc & -> & _ & -> & -> & _)%(woken_view _ _ _ _ _ Hw) Hu Hi Ht.
    destruct (I14 i c Hc Hu Hi Ht) as (q & d & Hq & Hd & Hl). destruct (woken_view_fwd _ _ _ _ _ Hw Hd) as (d' & Hd' & _ & _ & Ev & Ez).
    exists q, d'. unfold live. by rewrite Ev, Ez.
  - intros i c' q (c & Hc & Ep & _ & Et & _)%(woken_view _ _ _ _ _ Hw). unfold wakes. rewrite Ep, Et. by apply I15.
  - intros i c' j Hc' Hs Hch. destruct (woken_view _ _ _ _ _ Hw Hc') as (c & Hc & _ & _ & _ & _ & _ & Ec). assert (c' = c) as -> by (by apply Ec).
    destruct (I16 i c j Hc Hs Hch) as [Hj Hx]. split; [done|by eapply woken_waits].
Qed.

Lemma same_is_woken s s' : same s s' -> woken (fun _ => False) s s'.
Proof.
  intros Hs. pose proof Hs as (_ & Er & En & Ei). split; try done; rewrite ?Er; try done; [|tauto].
  intros j. right. split; [tauto|]. by apply same_core.
Qed.

Lemma inv_same s s' cs ps : same s s' -> inv (mk_sys s cs ps) -> inv (mk_sys s' cs ps).
Proof. intros Hs. by apply (inv_woken (fun _ => False)), same_is_woken. Qed.

(** Moving inside the kernel. *)
Lemma inv_pc s cs ps i x : inv (mk_sys s cs ps) -> (forall np, ps i <> Pclone np) -> (forall np, x <> Pclone np) ->
  (exiting x = true -> initproc s <> Some i) ->
  (forall c, core_at s i = Some c -> c_state c = RUNNING /\ forall q, x = Pexit2 q -> wakes c (initproc s) q) ->
  inv (mk_sys s cs (set_pc i x ps)).
Proof.
  intros [I1 I2 I3 I4 I5 I18 I6 I19 I7 I8 I9 I10 I11 I12 I13 I14 I17 I15 I16] Hno Hnx Hn Hx. cbn in *.
  assert (E1 : forall j np, set_pc i x ps j = Pclone np <-> ps j = Pclone np).
  { intros j np. unfold set_pc. destruct (decide (j = i)) as [->|]; [|done]. split; intros Hp; [by destruct (Hnx np)|by destruct (Hno np)]. }
  assert (E2 : forall j c, held (set_pc i x ps) j c <-> held ps j c) by (intros j c; unfold held; by setoid_rewrite E1).
  split; cbn; try done; try (by setoid_rewrite E1); try (by setoid_rewrite E2).
  - intros j c Hc Hu. unfold set_pc. destruct (decide (j = i)) as [->|]; [|by apply (I5 j c)]. destruct (Hx c Hc). congruence.
  - intros j c Hc Hu. unfold set_pc. destruct (decide (j = i)) as [->|]; [|by apply (I18 j c)]. destruct (Hx c Hc). congruence.
  - intros j. unfold set_pc. destruct (decide (j = i)) as [->|]; [done|apply I17].
  - intros j c q Hc. unfold set_pc. destruct (decide (j = i)) as [->|]; [|by apply I15]. intros ->. by apply (Hx c Hc).
  - intros j c q Hc Hs. unfold set_pc. destruct (decide (j = i)) as [->|]; [|by apply I16]. destruct (Hx c Hc). congruence.
Qed.

(** ** Steps that change one process *)

(** Process [i] goes from [c] to [c'], [Q] is queued after, and the CPUs change for
    [i] only; so do the positions in the kernel, but that a running process may
    enter or leave a [clone] of [i]. *)
Record fits (i : nat) (c c' : corep) (Q : nat -> Prop) s (s' : pst (E := E)) (cs cs' : list cpu) (ps ps' : nat -> pc) : Prop := {
  ft_next : nextpid s <= nextpid s' < 2 ^ 31;
  ft_pcs : forall j, j <> i -> ps' j = ps j \/ exists d, core_at s j = Some d /\ c_state d = RUNNING /\ (ps' j = Pno \/ ps' j = Pclone i);
  ft_clones : forall j np, np <> i -> ps' j = Pclone np <-> ps j = Pclone np;
  ft_q : forall j, j <> i -> Q j <-> onq (rq s) j;
  ft_cpu : forall j, j <> i -> forall n, (cs' !! n = Some (Picked j) <-> cs !! n = Some (Picked j)) /\
    (cs' !! n = Some (Running j) <-> cs !! n = Some (Running j));
  ft_thread : c_pthread c' <> None -> c_parent c' = None /\ initproc s <> Some i /\ held ps' i c';
  ft_clone : forall j, ps' j = Pclone i -> c_state c' = UNUSED /\ c_pthread c' = Some j;
  ft_runnable : c_state c' = RUNNABLE <-> Q i \/ exists n, cs' !! n = Some (Picked i);
  ft_picked : forall n, cs' !! n = Some (Picked i) -> ~ Q i;
  ft_running : c_state c' = RUNNING <-> exists n, cs' !! n = Some (Running i);
  ft_once : forall n m, on_cpu cs' n i -> on_cpu cs' m i -> n = m;
  ft_unused : c_state c' = UNUSED -> c_parent c' = None /\ ps' i = Pno;
  ft_zombie : c_state c' = ZOMBIE -> ps' i = Pno;
  ft_pid : held ps' i c' -> 0 < c_pid c' < nextpid s' /\
    forall j d, j <> i -> core_at s j = Some d -> held ps j d -> c_pid d <> c_pid c';
  ft_parent : c_state c' <> UNUSED -> initproc s <> Some i -> c_pthread c' = None ->
    exists q d, c_parent c' = Some q /\ core_at s' q = Some d /\ live d;
  ft_live : live c' \/ initproc s <> Some i /\ forall j d, j <> i -> core_at s j = Some d -> c_parent d <> Some i;
  ft_noinit : exiting (ps' i) = true -> initproc s <> Some i;
  ft_root : initproc s = Some i -> c_parent c' = c_parent c;
  ft_exit : forall q, ps' i = Pexit2 q -> wakes c' (initproc s) q;
  ft_wait : forall j, c_state c' = SLEEPING -> c_chan c' = Cproc j -> j = i /\ waits s' (ps' i) i;
  ft_child : forall q d j, q <> i -> core_at s q = Some d -> c_state d = SLEEPING -> c_chan d = Cproc j ->
    (c_parent c = Some q -> c_state c <> UNUSED -> c_parent c' = Some q /\ c_state c' <> UNUSED) /\
    (initproc s <> Some q -> c_parent c' = Some q -> c_state c' <> ZOMBIE) /\
    (c_pthread c = Some q -> c_state c <> UNUSED -> c_pthread c' = Some q /\ c_state c' <> UNUSED) /\
    (c_pthread c' = Some q -> c_state c' <> ZOMBIE) }.

#[global] Arguments ft_next {i c c' Q s s' cs cs' ps ps'}.
#[global] Arguments ft_pcs {i c c' Q s s' cs cs' ps ps'}.
#[global] Arguments ft_clones {i c c' Q s s' cs cs' ps ps'}.
#[global] Arguments ft_q {i c c' Q s s' cs cs' ps ps'}.
#[global] Arguments ft_cpu {i c c' Q s s' cs cs' ps ps'}.
#[global] Arguments ft_thread {i c c' Q s s' cs cs' ps ps'}.
#[global] Arguments ft_clone {i c c' Q s s' cs cs' ps ps'}.
#[global] Arguments ft_runnable {i c c' Q s s' cs cs' ps ps'}.
#[global] Arguments ft_picked {i c c' Q s s' cs cs' ps ps'}.
#[global] Arguments ft_running {i c c' Q s s' cs cs' ps ps'}.
#[global] Arguments ft_once {i c c' Q s s' cs cs' ps ps'}.
#[global] Arguments ft_unused {i c c' Q s s' cs cs' ps ps'}.
#[global] Arguments ft_zombie {i c c' Q s s' cs cs' ps ps'}.
#[global] Arguments ft_pid {i c c' Q s s' cs cs' ps ps'}.
#[global] Arguments ft_parent {i c c' Q s s' cs cs' ps ps'}.
#[global] Arguments ft_live {i c c' Q s s' cs cs' ps ps'}.
#[global] Arguments ft_noinit {i c c' Q s s' cs cs' ps ps'}.
#[global] Arguments ft_root {i c c' Q s s' cs cs' ps ps'}.
#[global] Arguments ft_exit {i c c' Q s s' cs cs' ps ps'}.
#[global] Arguments ft_wait {i c c' Q s s' cs cs' ps ps'}.
#[global] Arguments ft_child {i c c' Q s s' cs cs' ps ps'}.

Lemma on_cpu_ne cs cs' j n : (forall n, (cs' !! n = Some (Picked j) <-> cs !! n = Some (Picked j)) /\
    (cs' !! n = Some (Running j) <-> cs !! n = Some (Running j))) -> on_cpu cs' n j <-> on_cpu cs n j.
Proof. intros Hc. unfold on_cpu. destruct (Hc n) as [-> ->]. done. Qed.

(** The sleepers' claims are kept. *)
Lemma only_waits i c c' Q s s' cs cs' ps ps' q d j : only i c c' Q s s' -> fits i c c' Q s s' cs cs' ps ps' ->
  q <> i -> core_at s q = Some d -> c_state d = SLEEPING -> c_chan d = Cproc j -> waits s (ps q) q -> waits s' (ps' q) q.
Proof.
  intros O F Hne Hd Hs Hch. destruct (ft_pcs F q Hne) as [->|(e & He & Hr & _)]; [|congruence].
  destruct (ft_child F q d j Hne Hd Hs Hch) as (C1 & C2 & C3 & C4). pose proof O as [Oo On Or Oi _ _].
  assert (Hcase : forall m e, core_at s' m = Some e -> m = i /\ e = c' \/ m <> i /\ core_at s m = Some e).
  { intros m e He. destruct (decide (m = i)) as [->|Hm]; [left; split; [done|congruence]|]. right. split; [done|]. by rewrite <- Or. }
  unfold waits. rewrite Oi. destruct (ps q); try done; intros [(m & e & He & Hp & Hu) Hz]; split.
  - destruct (decide (m = i)) as [->|Hm]; [|exists m, e; by rewrite Or]. assert (e = c) as -> by congruence. exists i, c'. split; [done|by apply C1].
  - intros Hi m' e' [[-> ->]|[Hm' He']]%Hcase Hp'; [by apply C2|by apply (Hz Hi m')].
  - destruct (decide (m = i)) as [->|Hm]; [|exists m, e; by rewrite Or]. assert (e = c) as -> by congruence. exists i, c'. split; [done|by apply C3].
  - intros m' e' [[-> ->]|[Hm' He']]%Hcase Hp'; [by apply C4|by apply (Hz m')].
Qed.

Lemma inv_only i c c' Q s s' cs cs' ps ps' : only i c c' Q s s' -> fits i c c' Q s s' cs cs' ps ps' ->
  inv (mk_sys s cs ps) -> inv (mk_sys s' cs' ps').
Proof.
  intros O F [I1 I2 I3 I4 I5 I18 I6 I19 I7 I8 I9 I10 I11 I12 I13 I14 I17 I15 I16]. cbn in *.
  pose proof O as [Oo On Or Oi Ok Oq]. specialize (Oq I2).
  assert (Hcase : forall j d, core_at s' j = Some d -> j = i /\ d = c' \/ j <> i /\ core_at s j = Some d).
  { intros j d Hd. destruct (decide (j = i)) as [->|Hne]; [left; split; [done|congruence]|]. right. split; [done|]. by rewrite <- Or. }
  assert (Hh : forall j d, j <> i -> held ps' j d <-> held ps j d).
  { intros j d Hne. unfold held. assert (forall m, ps' m = Pclone j <-> ps m = Pclone j) as E1 by (intros m; by apply F). by setoid_rewrite E1. }
  split; cbn; rewrite ?Oi.
  - by eapply only_sized.
  - by apply Ok.
  - destruct F. lia.
  - destruct I4 as (i0 & c0 & Hi & Hc & Hl & Hr). destruct (decide (i0 = i)) as [->|Hne].
    + exists i, c'. split; [done|]. split; [done|]. rewrite (ft_root F Hi). destruct (ft_live F) as [?|[? _]]; [|done].
      split; [done|]. congruence.
    + exists i0, c0. by rewrite Or.
  - intros j d [[-> ->]|[Hne Hd]]%Hcase Hu; [by apply (ft_unused F)|].
    destruct (ft_pcs F j Hne) as [->|(e & He & Hr & _)]; [by apply (I5 j d)|congruence].
  - intros j d [[-> ->]|[Hne Hd]]%Hcase Hz; [by apply (ft_zombie F)|].
    destruct (ft_pcs F j Hne) as [->|(e & He & Hr & _)]; [by apply (I18 j d)|congruence].
  - intros j d [[-> ->]|[Hne Hd]]%Hcase; [apply F|]. rewrite Hh by done. by apply I6.
  - intros j np Hp. destruct (decide (np = i)) as [->|Hne]; [exists c'; split; [done|by apply F]|].
    apply (ft_clones F) in Hp; [|done]. rewrite Or by done. by apply I19.
  - intros j d [[-> ->]|[Hne Hd]]%Hcase; rewrite Oq; [apply F|]. rewrite (ft_q F j Hne), (I7 j d Hd).
    assert (forall n, cs' !! n = Some (Picked j) <-> cs !! n = Some (Picked j)) as E1 by (intros; by apply F). by setoid_rewrite E1.
  - intros n j Hn. rewrite Oq. destruct (decide (j = i)) as [->|Hne]; [split; [by exists c'|by eapply F]|].
    apply (ft_cpu F j Hne) in Hn. rewrite Or, (ft_q F) by done. by apply (I8 n).
  - intros j d [[-> ->]|[Hne Hd]]%Hcase; [apply F|]. rewrite (I9 j d Hd).
    assert (forall n, cs' !! n = Some (Running j) <-> cs !! n = Some (Running j)) as E1 by (intros; by apply F). by setoid_rewrite E1.
  - intros n j Hn. destruct (decide (j = i)) as [->|Hne]; [by exists c'|].
    apply (ft_cpu F j Hne) in Hn. rewrite Or by done. by apply (I10 n).
  - intros n m j. destruct (decide (j = i)) as [->|Hne]; [apply F|].
    rewrite !(on_cpu_ne cs cs' j) by (by apply F). apply I11.
  - intros j d [[-> ->]|[Hne Hd]]%Hcase; [by apply F|]. rewrite Hh by done. intros Hu. pose proof (I12 j d Hd Hu). destruct F. lia.
  - intros j1 j2 d1 d2 [[-> ->]|[Hn1 Hd1]]%Hcase [[-> ->]|[Hn2 Hd2]]%Hcase Hu1 Hu2 Hp; [done|..].
    + apply Hh in Hu2; [|done]. destruct (ft_pid F Hu1) as [_ Hx]. by destruct (Hx j2 d2).
    + apply Hh in Hu1; [|done]. destruct (ft_pid F Hu2) as [_ Hx]. by destruct (Hx j1 d1).
    + apply Hh in Hu1; [|done]. apply Hh in Hu2; [|done]. by apply (I13 j1 j2 d1 d2).
  - intros j d [[-> ->]|[Hne Hd]]%Hcase Hu Hi Ht.
    + by apply (ft_parent F).
    + destruct (I14 j d Hd Hu Hi Ht) as (q & e & Hq & He & Hl). destruct (decide (q = i)) as [->|Hq'].
      * exists i, c'. split_and!; [done|done|]. destruct (ft_live F) as [?|[_ Hx]]; [done|]. by destruct (Hx j d).
      * exists q, e. by rewrite Or.
  - intros j. destruct (decide (j = i)) as [->|Hne]; [apply F|].
    destruct (ft_pcs F j Hne) as [->|(e & He & Hr & [->| ->])]; [apply I17|done..].
  - intros j d q [[-> ->]|[Hne Hd]]%Hcase; [apply F|].
    destruct (ft_pcs F j Hne) as [->|(e & He & Hr & [->| ->])]; [by apply I15|done..].
  - intros j d x [[-> ->]|[Hne Hd]]%Hcase Hs Hch; [by apply (ft_wait F)|].
    destruct (I16 j d x Hd Hs Hch) as [Hx Hw]. split; [done|]. by eapply only_waits.
Qed.

(** CPU [n] turns from [x] to [y], neither holding another process than [i]. *)
Definition about (i : nat) (x : cpu) : Prop := x = Idle \/ x = Picked i \/ x = Running i.

Lemma about_cpu i n x y cs : cs !! n = Some x -> about i x -> about i y -> forall j, j <> i -> forall m,
  (<[n := y]> cs !! m = Some (Picked j) <-> cs !! m = Some (Picked j)) /\
  (<[n := y]> cs !! m = Some (Running j) <-> cs !! m = Some (Running j)).
Proof.
  intros Hn Hx Hy j Hj m. pose proof (lookup_lt_Some _ _ _ Hn) as Hl. destruct (decide (m = n)) as [->|Hne].
  - rewrite list_lookup_insert_eq by done. rewrite Hn. unfold about in *. naive_solver.
  - by rewrite list_lookup_insert_ne.
Qed.

Lemma about_self i n x y cs : cs !! n = Some x -> (forall m, on_cpu cs m i -> m = n) -> forall z, z = Picked i \/ z = Running i ->
  (exists m, <[n := y]> cs !! m = Some z) <-> y = z.
Proof.
  intros Hn Ho z Hz. pose proof (lookup_lt_Some _ _ _ Hn) as Hl. split.
  - intros [m Hm]. destruct (decide (m = n)) as [->|Hne]; [rewrite list_lookup_insert_eq in Hm by done; congruence|].
    rewrite list_lookup_insert_ne in Hm by done. exfalso. apply Hne, Ho. unfold on_cpu. destruct Hz; subst; auto.
  - intros ->. exists n. by rewrite list_lookup_insert_eq.
Qed.

Lemma about_once i n y cs : (forall m, on_cpu cs m i -> m = n) -> forall m, on_cpu (<[n := y]> cs) m i -> m = n.
Proof.
  intros Ho m Hm. destruct (decide (m = n)) as [|Hne]; [done|]. apply Ho. unfold on_cpu in *. by rewrite list_lookup_insert_ne in Hm.
Qed.

(** What the invariant says of a process a CPU runs. *)
Lemma running_facts s cs ps n i : inv (mk_sys s cs ps) -> cs !! n = Some (Running i) -> exists c,
  core_at s i = Some c /\ c_state c = RUNNING /\ ~ onq (rq s) i /\ forall m, on_cpu cs m i -> m = n.
Proof.
  intros I Hn. destruct (iv_ran _ I n i Hn) as [c Hc]. exists c. cbn in *.
  assert (Hs : c_state c = RUNNING) by (apply (iv_running _ I i c Hc); by exists n). split_and!; try done.
  - intros Hq. assert (c_state c = RUNNABLE) by (apply (iv_queued _ I i c Hc); by left). congruence.
  - intros m Hm. eapply (iv_once _ I); [exact Hm|]. by right.
Qed.

Lemma unused_off s cs ps i c : inv (mk_sys s cs ps) -> core_at s i = Some c -> c_state c <> RUNNABLE -> ~ onq (rq s) i.
Proof. intros I Hc Hs Hq. apply Hs, (iv_queued _ I i c Hc). by left. Qed.

Lemma off_cpu s cs ps i c : inv (mk_sys s cs ps) -> core_at s i = Some c -> c_state c <> RUNNABLE -> c_state c <> RUNNING ->
  forall m, ~ on_cpu cs m i.
Proof.
  intros I Hc H1 H2 m [Hm|Hm]; [apply H1, (iv_queued _ I i c Hc)|apply H2, (iv_running _ I i c Hc)]; [right|]; by exists m.
Qed.

(** A process that the CPUs do not hold keeps its place; its new core must be
    neither running nor runnable unless it is queued. *)
Lemma off_fits s cs ps i c (Q : nat -> Prop) c' : inv (mk_sys s cs ps) -> core_at s i = Some c ->
  c_state c <> RUNNABLE -> c_state c <> RUNNING -> c_state c' <> RUNNING -> (c_state c' = RUNNABLE <-> Q i) ->
  (c_state c' = RUNNABLE <-> Q i \/ exists n, cs !! n = Some (Picked i)) /\ (forall n, cs !! n = Some (Picked i) -> ~ Q i) /\
  (c_state c' = RUNNING <-> exists n, cs !! n = Some (Running i)).
Proof.
  intros I Hc H1 H2 H3 H4. pose proof (off_cpu s cs ps i c I Hc H1 H2) as Ho. unfold on_cpu in Ho. split_and!.
  - rewrite H4. split; [by left|]. intros [?|[n ?]]; [done|]. exfalso. apply (Ho n). auto.
  - intros n Hn. exfalso. apply (Ho n). auto.
  - split; [done|]. intros [n ?]. exfalso. apply (Ho n). auto.
Qed.

(** Nobody's parent is unused or a zombie. *)
Lemma childless s cs ps i c : inv (mk_sys s cs ps) -> core_at s i = Some c -> ~ live c ->
  initproc s <> Some i /\ forall j d, core_at s j = Some d -> c_parent d <> Some i.
Proof.
  intros I Hc Hl. destruct (iv_init _ I) as (i0 & c0 & E0 & Ec & Hl0 & Hr0). cbn in *. split; [congruence|].
  intros j d Hd Hp. destruct (decide (c_state d = UNUSED)) as [Hu|Hu]; [destruct (iv_unused _ I j d Hd Hu); congruence|].
  destruct (decide (initproc s = Some j)) as [Hj|Hj]; [congruence|].
  destruct (decide (c_pthread d = None)) as [Ht|Ht]; [|destruct (iv_thread _ I j d Hd Ht); congruence].
  destruct (iv_parent _ I j d Hd Hu Hj Ht) as (q & e & Hq & He & Hle). cbn in *. congruence.
Qed.

(** A change of an entry that no CPU holds and that stays off them. *)
Lemma inv_off i c c' (Q : nat -> Prop) s s' cs ps ps' : inv (mk_sys s cs ps) -> only i c c' Q s s' ->
  c_state c = UNUSED \/ c_state c = ZOMBIE -> c_state c' = UNUSED \/ c_state c' = RUNNABLE -> (c_state c' = RUNNABLE <-> Q i) ->
  (forall j, j <> i -> Q j <-> onq (rq s) j) -> nextpid s <= nextpid s' < 2 ^ 31 ->
  (forall j, j <> i -> ps' j = ps j \/ exists d, core_at s j = Some d /\ c_state d = RUNNING /\ (ps' j = Pno \/ ps' j = Pclone i)) ->
  (forall j np, np <> i -> ps' j = Pclone np <-> ps j = Pclone np) -> ps' i = Pno ->
  (c_pthread c' <> None -> c_parent c' = None /\ held ps' i c') ->
  (forall j, ps' j = Pclone i -> c_state c' = UNUSED /\ c_pthread c' = Some j) ->
  (c_state c' = UNUSED -> c_parent c' = None) ->
  (held ps' i c' -> 0 < c_pid c' < nextpid s' /\ forall j d, j <> i -> core_at s j = Some d -> held ps j d -> c_pid d <> c_pid c') ->
  (c_state c' <> UNUSED -> c_pthread c' = None -> exists q d, c_parent c' = Some q /\ q <> i /\ core_at s q = Some d /\ live d) ->
  (forall q d j, core_at s q = Some d -> c_state d = SLEEPING -> c_chan d = Cproc j -> c_state c <> UNUSED ->
    c_parent c <> Some q /\ c_pthread c <> Some q) ->
  inv (mk_sys s' cs ps').
Proof.
  intros I O Hst Hst' Hq Hqs Hn Hps Hcl Hpc Ht Hc1 Hu Hpid Hpar Hw. pose proof (on_old _ _ _ _ _ _ O) as Hc.
  assert (Hnl : ~ live c) by (unfold live; destruct Hst; naive_solver).
  destruct (childless s cs ps i c I Hc Hnl) as [Hi Hch].
  destruct (off_fits s cs ps i c Q c' I Hc) as (F1 & F2 & F3); [destruct Hst; congruence..|destruct Hst'; congruence|done|].
  eapply inv_only; [exact O| |exact I]. split; try done; rewrite ?Hpc; try done.
  - intros Ht'. by destruct (Ht Ht').
  - intros n m. apply (iv_once _ I).
  - by intros Hun; split; [apply Hu|].
  - intros Hne _ Htn. destruct (Hpar Hne Htn) as (q & d & ? & ? & ? & ?). exists q, d. by rewrite (on_rest _ _ _ _ _ _ O).
  - right. split; [done|]. intros j d _. apply Hch.
  - destruct Hst'; congruence.
  - intros q d j Hne Hd Hs Hcn. split_and!.
    + intros Hp Hcu. by destruct (Hw q d j).
    + destruct Hst'; congruence.
    + intros Hp Hcu. by destruct (Hw q d j).
    + destruct Hst'; congruence.
Qed.

Lemma s32_next n : 0 < n < 2 ^ 31 - 1 -> s32 (n + 1) = n + 1.
Proof. intros. apply s32_small. lia. Qed.

(** The next pid is new. *)
Lemma pid_fresh s cs ps j d : inv (mk_sys s cs ps) -> core_at s j = Some d -> held ps j d -> c_pid d <> nextpid s.
Proof. intros I Hd Hh. pose proof (iv_pid _ I j d Hd Hh) as Hp. cbn in Hp. lia. Qed.

(** The entry [allocproc] takes while no [clone] is between its regions. *)
Lemma free_facts s cs ps i c : inv (mk_sys s cs ps) -> (forall j np, ps j <> Pclone np) -> core_at s i = Some c -> c_state c = UNUSED ->
  c_parent c = None /\ ps i = Pno /\ c_pthread c = None /\ ~ onq (rq s) i /\ forall j, ps j <> Pclone i.
Proof.
  intros I Hno Hc Hu. destruct (iv_unused _ I i c Hc Hu) as [Hpar Hpc]. cbn in *. split_and!; try done.
  - destruct (decide (c_pthread c = None)) as [|Ht]; [done|]. destruct (iv_thread _ I i c Hc Ht) as (_ & _ & [?|[j ?]]); [done|]. by destruct (Hno j i).
  - eapply unused_off; [done..|congruence].
Qed.

Lemma inv_idle s s' cs ps : inv (mk_sys s cs ps) -> creates s ps -> idle_change s s' -> inv (mk_sys s' cs ps).
Proof.
  intros I [Hn Hno] [Hs|(i & c & c' & O & Hu & Hu' & Ht & Hp & En)]; [by eapply inv_same|].
  pose proof (on_old _ _ _ _ _ _ O) as Hc. destruct (free_facts s cs ps i c I Hno Hc Hu) as (Hpar & Hpc & Htn & Hoff & Hnc).
  pose proof (iv_next _ I) as Hnx. cbn in Hnx. rewrite s32_next in En by lia.
  eapply (inv_off i c c'); [exact I|exact O|by left|by left| |done|lia|by left|done|done| | | | | |]; try congruence.
  - rewrite Hu'. split; [done|tauto].
  - intros _. destruct Hp; congruence.
  - intros [?|[j Hj]]; [done|by destruct (Hnc j)].
Qed.

(** The new process of [fork]. *)
Lemma inv_born n me np c s s' cs ps : inv (mk_sys s cs ps) -> creates s ps -> cs !! n = Some (Running me) ->
  c_state c = UNUSED -> nextpid s' = s32 (nextpid s + 1) ->
  only np c (child_of me (nextpid s) c) (fun j => onq (rq s) j \/ j = np) s s' -> inv (mk_sys s' cs ps).
Proof.
  intros I [Hn Hno] Hrun Hu En O. pose proof (on_old _ _ _ _ _ _ O) as Hc. destruct (free_facts s cs ps np c I Hno Hc Hu) as (Hpar & Hpc & Htn & Hoff & Hnc).
  pose proof (iv_next _ I) as Hnx. cbn in Hnx. rewrite s32_next in En by lia.
  destruct (running_facts s cs ps n me I Hrun) as (d & Hd & Hds & _).
  eapply (inv_off np c (child_of me (nextpid s) c)); [exact I|exact O|by left|by right| | |lia|by left|done|done| | | | | |]; cbn; try congruence.
  - split; [by right|done].
  - intros j Hj. split; [intros [?|?]; [done|congruence]|by left].
  - intros _. split; [lia|]. intros j e _. by apply pid_fresh with (cs := cs).
  - intros _ _. exists me, d. split_and!; [done|congruence|done|]. by split; rewrite Hds.
Qed.

(** The new thread of [clone], not yet set going. *)
Lemma inv_cloned n me np c s s' cs ps : inv (mk_sys s cs ps) -> creates s ps -> cs !! n = Some (Running me) ->
  c_state c = UNUSED -> nextpid s' = s32 (nextpid s + 1) ->
  only np c (thread_of me (nextpid s) c) (onq (rq s)) s s' -> inv (mk_sys s' cs (set_pc me (Pclone np) ps)).
Proof.
  intros I [Hn Hno] Hrun Hu En O. pose proof (on_old _ _ _ _ _ _ O) as Hc. destruct (free_facts s cs ps np c I Hno Hc Hu) as (Hpar & Hpc & Htn & Hoff & Hnc).
  pose proof (iv_next _ I) as Hnx. cbn in Hnx. rewrite s32_next in En by lia.
  destruct (running_facts s cs ps n me I Hrun) as (d & Hd & Hds & _). assert (Hne : np <> me) by congruence.
  assert (Hset : forall j, set_pc me (Pclone np) ps j = Pclone np -> j = me).
  { intros j. unfold set_pc. destruct (decide (j = me)) as [|]; [done|]. intros Hj. by destruct (Hnc j). }
  eapply (inv_off np c (thread_of me (nextpid s) c)); [exact I|exact O|by left|by left| |done|lia| | | | | | | | |]; cbn; try congruence.
  - split; [done|tauto].
  - intros j Hj. unfold set_pc. destruct (decide (j = me)) as [->|]; [|by left]. right. exists d. split_and!; [done|done|by right].
  - intros j np' Hj. unfold set_pc. destruct (decide (j = me)) as [->|]; [|done]. split; [congruence|]. intros Hp. by destruct (Hno me np').
  - unfold set_pc. by rewrite decide_False.
  - intros _. split; [done|]. right. exists me. unfold set_pc. by rewrite decide_True.
  - intros j ->%Hset. done.
  - intros _. split; [lia|]. intros j e _. by apply pid_fresh with (cs := cs).
Qed.

(** [clone] sets it going. *)
Lemma inv_clone_finish n me np c s s' cs ps : inv (mk_sys s cs ps) -> cs !! n = Some (Running me) -> ps me = Pclone np ->
  nextpid s' = nextpid s -> only np c (with_state RUNNABLE c) (fun j => onq (rq s) j \/ j = np) s s' ->
  inv (mk_sys s' cs (set_pc me Pno ps)).
Proof.
  intros I Hrun Hme En O. pose proof (on_old _ _ _ _ _ _ O) as Hc. destruct (iv_clone _ I me np Hme) as (c0 & Hc0 & Hu & Ht). cbn in *.
  assert (c0 = c) as -> by congruence. destruct (iv_unused _ I np c Hc Hu) as [Hpar Hpc]. cbn in *.
  pose proof (iv_next _ I) as Hnx. cbn in Hnx. destruct (running_facts s cs ps n me I Hrun) as (d & Hd & Hds & _). assert (Hne : np <> me) by congruence.
  assert (Hh : held ps np c) by (right; by exists me).
  assert (Hset : forall j, set_pc me Pno ps j <> Pclone np).
  { intros j. unfold set_pc. destruct (decide (j = me)) as [|]; [done|]. intros Hj. destruct (iv_clone _ I j np Hj) as (c1 & Hc1 & _ & Ht1). cbn in *. congruence. }
  eapply (inv_off np c (with_state RUNNABLE c)); [exact I|exact O|by left|by right| | |lia| | | | | | | | |]; cbn; try congruence.
  - split; [by right|done].
  - intros j Hj. split; [intros [?|?]; [done|congruence]|by left].
  - intros j Hj. unfold set_pc. destruct (decide (j = me)) as [->|]; [|by left]. right. exists d. split_and!; [done|done|by left].
  - intros j np' Hj. unfold set_pc. destruct (decide (j = me)) as [->|]; [|done]. split; congruence.
  - unfold set_pc. by rewrite decide_False.
  - intros _. split; [done|by left].
  - intros _. rewrite En. split; [apply (iv_pid _ I np c Hc Hh)|]. intros j e Hj He Hhe Hp. apply Hj, (iv_uniq _ I j np e c); done.
Qed.

(** A zombie is freed by its parent in [wait], by its creator in [join]. *)
Lemma inv_reap n me i c c' (Q : nat -> Prop) s s' cs ps : inv (mk_sys s cs ps) -> cs !! n = Some (Running me) ->
  c_parent c = Some me \/ c_pthread c = Some me -> c_state c = ZOMBIE -> nextpid s' = nextpid s ->
  c_state c' = UNUSED -> c_parent c' = None -> c_pthread c' = None -> ~ Q i -> (forall j, j <> i -> Q j <-> onq (rq s) j) ->
  only i c c' Q s s' -> inv (mk_sys s' cs ps).
Proof.
  intros I Hrun Hp Hz En Hu' Hp' Ht' Hqi Hqs O. pose proof (on_old _ _ _ _ _ _ O) as Hc.
  destruct (running_facts s cs ps n me I Hrun) as (d & Hd & Hds & _). pose proof (iv_next _ I) as Hnx. cbn in Hnx.
  assert (Hnc : forall j, ps j <> Pclone i).
  { intros j Hj. destruct (iv_clone _ I j i Hj) as (c1 & Hc1 & Hu1 & _). cbn in *. congruence. }
  eapply (inv_off i c c'); [exact I|exact O|by right|by left| |done|lia|by left|done| | | | | | |]; try congruence.
  - rewrite Hu'. split; [done|tauto].
  - by apply (iv_zombie _ I i c).
  - intros [?|[j Hj]]; [done|by destruct (Hnc j)].
  - intros q e j He Hs _ _. destruct (decide (c_pthread c = None)) as [Ht|Ht].
    + destruct Hp as [Hp|]; [|congruence]. split; congruence.
    + destruct (iv_thread _ I i c Hc Ht) as [Hpn _]. destruct Hp as [|Hp]; [congruence|]. split; congruence.
Qed.

(** A CPU turns from [x] to [y] with process [i], which keeps parent and pid. *)
Lemma inv_move n x y i c c' (Q : nat -> Prop) s s' cs ps ps' : inv (mk_sys s cs ps) -> only i c c' Q s s' -> live c ->
  cs !! n = Some x -> about i x -> about i y -> (forall m, on_cpu cs m i -> m = n) ->
  (c_state c' = RUNNABLE <-> Q i \/ y = Picked i) -> (y = Picked i -> ~ Q i) -> (c_state c' = RUNNING <-> y = Running i) ->
  (forall j, j <> i -> Q j <-> onq (rq s) j) -> nextpid s' = nextpid s -> (forall j, j <> i -> ps' j = ps j) ->
  c_state c' <> UNUSED -> c_parent c' = c_parent c -> c_pid c' = c_pid c -> c_pthread c' = c_pthread c ->
  (c_state c' = ZOMBIE -> ps' i = Pno /\ initproc s <> Some i /\ (forall j d, core_at s j = Some d -> c_parent d <> Some i) /\
    forall q d j, core_at s q = Some d -> c_state d = SLEEPING -> c_chan d = Cproc j ->
      (initproc s <> Some q -> c_parent c <> Some q) /\ c_pthread c <> Some q) ->
  (ps' i = ps i \/ (exiting (ps' i) = true -> exiting (ps i) = true) /\ (forall q, ps' i <> Pexit2 q) /\
    forall np, ps' i <> Pclone np /\ ps i <> Pclone np) ->
  (forall j, c_state c' = SLEEPING -> c_chan c' = Cproc j -> j = i /\ waits s' (ps' i) i) ->
  inv (mk_sys s' (<[n := y]> cs) ps').
Proof.
  intros I O [Hl1 Hl2] Hn Hx Hy Ho Hr Hpq Hrun Hqs En Hps Hu Ep Epid Et Hz Hpc Hw. pose proof (on_old _ _ _ _ _ _ O) as Hc.
  pose proof (iv_next _ I) as Hnx. cbn in Hnx. assert (Hh : held ps i c) by (by left).
  assert (Hcl : forall j np, ps' j = Pclone np <-> ps j = Pclone np).
  { intros j np. destruct (decide (j = i)) as [->|Hj]; [|by rewrite Hps]. destruct Hpc as [->|(_ & _ & Hp)]; [done|]. destruct (Hp np). done. }
  pose proof (iv_pid _ I i c Hc Hh) as Hpid. cbn in Hpid.
  eapply inv_only; [exact O| |exact I]. split; try done.
  - lia.
  - intros j Hj. left. by apply Hps.
  - by eapply about_cpu.
  - rewrite Et, Ep. intros Ht. destruct (iv_thread _ I i c Hc Ht) as (? & ? & _). split_and!; [done|done|by left].
  - intros j Hj%Hcl. destruct (iv_clone _ I j i Hj) as (c1 & Hc1 & Hu1 & _). cbn in *. congruence.
  - rewrite (about_self i n x y cs Hn Ho) by auto. done.
  - intros m Hm. apply Hpq. apply (about_self i n x y cs Hn Ho); [by auto|by exists m].
  - rewrite (about_self i n x y cs Hn Ho) by auto. done.
  - intros m m' H1 H2. apply (about_once i n y cs Ho) in H1, H2. congruence.
  - intros Hs. by apply Hz.
  - intros _. split; [lia|]. intros j d Hj Hd Hdu Hp. apply Hj. eapply (iv_uniq _ I); [done..|congruence].
  - intros _ Hi Ht. rewrite Et in Ht. destruct (iv_parent _ I i c Hc Hl1 Hi Ht) as (q & d & Hq & Hd & Hld). cbn in *.
    destruct (decide (q = i)) as [->|Hne]; [|exists q, d; rewrite (on_rest _ _ _ _ _ _ O) by done; split_and!; [congruence|done|apply Hld..]].
    exists i, c'. split; [congruence|]. split; [apply O|]. split; [done|]. intros Hs.
    destruct (Hz Hs) as (_ & _ & Hch & _). by apply (Hch i c).
  - destruct (decide (c_state c' = ZOMBIE)) as [Hs|Hs]; [|by left]. right. destruct (Hz Hs) as (_ & ? & Hch & _). split; [done|].
    intros j d _. apply Hch.
  - intros Hx'. apply (iv_noinit _ I). cbn. destruct Hpc as [<-|[A1 _]]; [done|]. by apply A1.
  - intros q Hq. unfold wakes. rewrite Ep, Et. destruct Hpc as [E1|(_ & A2 & _)]; [|by destruct (A2 q)]. apply (iv_exit _ I i c q Hc). cbn. congruence.
  - intros q d j Hq Hd Hs Hcn. rewrite Ep, Et. split_and!; [done| |done|].
    + intros Hi Hp Hs'. destruct (Hz Hs') as (_ & _ & _ & Hx'). by destruct (proj1 (Hx' q d j Hd Hs Hcn)).
    + intros Hp Hs'. destruct (Hz Hs') as (_ & _ & _ & Hx'). by destruct (proj2 (Hx' q d j Hd Hs Hcn)).
Qed.

(** ** The steps *)

Lemma running_live c : c_state c = RUNNING -> live c.
Proof. by intros Hs; split; rewrite Hs. Qed.

(** A process whose family and liveness stay leaves its own claims as they are. *)
Lemma moved_waits i c c' Q s s' x : only i c c' Q s s' -> c_parent c' = c_parent c -> c_pthread c' = c_pthread c ->
  live c' -> waits s x i -> waits s' x i.
Proof.
  intros [Oo On Or Oi _ _] Ep Et [Hu Hz]. unfold waits. rewrite Oi.
  assert (Hcase : forall m e, core_at s' m = Some e -> m = i /\ e = c' \/ m <> i /\ core_at s m = Some e).
  { intros m e He. destruct (decide (m = i)) as [->|Hm]; [left; split; [done|congruence]|]. right. split; [done|]. by rewrite <- Or. }
  destruct x; try done; intros [(m & d & Hd & Hp & Hdu) Hw]; split.
  1, 3: destruct (decide (m = i)) as [->|Hm]; [exists i, c'; split_and!; [done|congruence|done]|exists m, d; by rewrite Or].
  - intros Hi m' e' [[-> ->]|[Hm' He']]%Hcase Hp'; [done|by apply (Hw Hi m')].
  - intros m' e' [[-> ->]|[Hm' He']]%Hcase Hp'; [done|by apply (Hw m')].
Qed.

(** A running process goes to sleep. *)
Lemma inv_asleep n i ch c s s' cs ps x : inv (mk_sys s cs ps) -> cs !! n = Some (Running i) ->
  only i c (asleep_on ch c) (onq (rq s)) s s' -> nextpid s' = nextpid s ->
  (exiting x = true -> exiting (ps i) = true) -> (forall q, x <> Pexit2 q) -> (forall np, x <> Pclone np /\ ps i <> Pclone np) ->
  (forall j, ch = Cproc j -> j = i /\ waits s x i) ->
  inv (mk_sys s' (<[n := Idle]> cs) (set_pc i x ps)).
Proof.
  intros I Hn O En Hx Hq Hnp Hch. destruct (running_facts s cs ps n i I Hn) as (c0 & Hc & Hs & Hoff & Ho).
  assert (c0 = c) as -> by (pose proof (on_old _ _ _ _ _ _ O); congruence).
  assert (Ex : set_pc i x ps i = x) by (unfold set_pc; by rewrite decide_True).
  eapply (inv_move n (Running i) Idle i c _ _ s s' cs ps); [exact I|exact O|by apply running_live|done|right; by right|by left|done|..]; cbn; try done.
  - split; [done|]. by intros [?|?].
  - intros j Hj. unfold set_pc. by rewrite decide_False.
  - right. rewrite Ex. done.
  - intros j _ ->. destruct (Hch j eq_refl) as [-> Hw]. split; [done|]. rewrite Ex. by eapply moved_waits.
Qed.

Definition wide_awake (c : corep) : corep := mk_core (c_state c) (c_parent c) Cnone (c_pid c) (c_pthread c).

Lemma inv_sleep_leave n i s a s' cs ps : inv (mk_sys s cs ps) -> cs !! n = Some (Running i) -> sleep_leave i s = Ret a s' ->
  inv (mk_sys s' cs ps).
Proof.
  intros I Hn Hrun. eapply (only_upd i _ wide_awake) in Hrun as (c & O & En); [|done].
  destruct (running_facts s cs ps n i I Hn) as (c0 & Hc & Hs & Hoff & Ho).
  assert (c0 = c) as -> by (pose proof (on_old _ _ _ _ _ _ O); congruence). rewrite <- (list_insert_id cs n _ Hn).
  eapply (inv_move n (Running i) (Running i) i c _ _ s s' cs ps); [exact I|exact O|by apply running_live|done|right; by right|right; by right|done|..]; cbn; try done.
  - rewrite Hs. split; [done|]. by intros [?|?].
  - congruence.
  - congruence.
  - by left.
Qed.

(** A running process goes back to the queue. *)
Lemma inv_yield n i s a s' cs ps : inv (mk_sys s cs ps) -> cs !! n = Some (Running i) -> yield i s = Ret a s' ->
  inv (mk_sys s' (<[n := Idle]> cs) ps).
Proof.
  intros I Hn Hrun. apply runnable_sum in Hrun as (c & O & En); [|by apply (iv_sized _ I)].
  destruct (running_facts s cs ps n i I Hn) as (c0 & Hc & Hs & Hoff & Ho).
  assert (c0 = c) as -> by (pose proof (on_old _ _ _ _ _ _ O); congruence).
  eapply (inv_move n (Running i) Idle i c _ _ s s' cs ps); [exact I|exact O|by apply running_live|done|right; by right|by left|done|..]; cbn; try done.
  - split; [by left; right|done].
  - intros j Hj. split; [intros [?|?]; [done|congruence]|by left].
  - by left.
Qed.

(** A CPU takes a process off the queue. *)
Lemma inv_pick n i s s' cs ps : inv (mk_sys s cs ps) -> cs !! n = Some Idle -> sched_pick s = Ret (Some i) s' ->
  inv (mk_sys s' (<[n := Picked i]> cs) ps).
Proof.
  intros I Hn Hrun. apply sched_pick_sum in Hrun as (Et & En & Ei & Hok & Hq & Hqs); [|by apply (iv_rqok _ I)].
  assert (Hlt : (i < NPROC)%nat) by (by eapply onq_lt; [apply (iv_rqok _ I)|]).
  destruct (proj2 (iv_sized _ I i) Hlt) as [c Hc]. cbn in Hc.
  assert (Hs : c_state c = RUNNABLE) by (apply (iv_queued _ I i c Hc); by left).
  assert (O : only i c c (fun j => onq (rq s) j /\ j <> i) s s').
  { unfold core_at in *. split; try done; unfold core_at; rewrite ?Et; done. }
  eapply (inv_move n Idle (Picked i) i c _ _ s s' cs ps); [exact I|exact O|by split; rewrite Hs|done|by left|right; by left|..]; cbn; try done.
  - intros m [Hm|Hm]; exfalso.
    + by destruct (iv_picked _ I m i Hm).
    + assert (c_state c = RUNNING) by (apply (iv_running _ I i c Hc); by exists m). congruence.
  - rewrite Hs. split; [by right|done].
  - tauto.
  - rewrite Hs. done.
  - tauto.
  - by rewrite Hs.
  - by rewrite Hs.
  - by left.
  - by rewrite Hs.
Qed.

(** The scheduler switches to the process it took: it never puts it back. *)
Lemma picked_facts s cs ps n i : inv (mk_sys s cs ps) -> cs !! n = Some (Picked i) -> exists c,
  core_at s i = Some c /\ c_state c = RUNNABLE /\ ~ onq (rq s) i /\ forall m, on_cpu cs m i -> m = n.
Proof.
  intros I Hn. destruct (iv_picked _ I n i Hn) as [[c Hc] Hq]. exists c. split_and!; try done.
  - apply (iv_queued _ I i c Hc). right. by exists n.
  - intros m Hm. eapply (iv_once _ I); [exact Hm|]. by left.
Qed.

Lemma inv_run n i s b s' cs ps : inv (mk_sys s cs ps) -> cs !! n = Some (Picked i) -> sched_run i s = Ret b s' ->
  b = true /\ inv (mk_sys s' (<[n := Running i]> cs) ps).
Proof.
  intros I Hn Hrun. destruct (picked_facts s cs ps n i I Hn) as (c & Hc & Hs & Hq & Ho).
  apply sched_run_sum in Hrun as (c0 & Hc0 & Hb); [|by apply (iv_sized _ I)|done].
  assert (c0 = c) as -> by congruence. destruct b; [|congruence]. split; [done|]. destruct Hb as (_ & O & En).
  eapply (inv_move n (Picked i) (Running i) i c _ _ s s' cs ps); [exact I|exact O|by split; rewrite Hs|done|right; by left|right; by right|done|..]; cbn; try done.
  - split; [done|]. by intros [?|?].
  - by left.
Qed.

(** [reparent] by a process other than init. *)
Lemma given_back me s s' j d : given me (Z.of_nat NPROC) s s' -> sized s -> core_at s' j = Some d ->
  exists c, core_at s j = Some c /\
    (c_parent c = Some me /\ d = with_parent (initproc s) c \/ c_parent c <> Some me /\ d = c).
Proof.
  intros (_ & _ & _ & Hc) Hl Hd. rewrite Hc in Hd. destruct (core_at s j) as [c|] eqn:Hj; [|done]. exists c. split; [done|].
  simpl in Hd. pose proof (core_at_lt s j c Hl Hj). injection Hd as <-. destruct (decide (c_parent c = Some me)).
  - left. by rewrite decide_True by (split; [lia|done]).
  - right. by rewrite decide_False by tauto.
Qed.
Lemma given_fwd me s s' j c : given me (Z.of_nat NPROC) s s' -> sized s -> core_at s j = Some c ->
  exists d, core_at s' j = Some d /\
    (c_parent c = Some me /\ d = with_parent (initproc s) c \/ c_parent c <> Some me /\ d = c).
Proof.
  intros G Hl Hj. pose proof G as (_ & _ & _ & Hc). specialize (Hc j). rewrite Hj in Hc. simpl in Hc. eexists. split; [exact Hc|].
  destruct (given_back me s s' j _ G Hl Hc) as (c0 & Hc0 & Hd). assert (c0 = c) as -> by congruence. done.
Qed.

Lemma inv_given me s s' cs ps : inv (mk_sys s cs ps) -> initproc s <> Some me ->
  (forall c, core_at s me = Some c -> c_state c <> SLEEPING) -> given me (Z.of_nat NPROC) s s' -> inv (mk_sys s' cs ps).
Proof.
  intros [I1 I2 I3 I4 I5 I18 I6 I19 I7 I8 I9 I10 I11 I12 I13 I14 I17 I15 I16] Hme Hns G. cbn in *.
  pose proof G as (Gr & Gn & Gi & _).
  assert (B : forall j d, core_at s' j = Some d -> exists c, core_at s j = Some c /\ c_state d = c_state c /\ c_pid d = c_pid c /\
    c_pthread d = c_pthread c /\ c_chan d = c_chan c /\ (c_parent c = Some me /\ c_parent d = initproc s \/ c_parent c <> Some me /\ d = c)).
  { intros j d Hd. destruct (given_back me s s' j d G I1 Hd) as (c & Hc & [[? ->]|[? ->]]); exists c; split_and!; try done; [by left|by right]. }
  assert (Fw : forall j c, core_at s j = Some c -> exists d, core_at s' j = Some d /\ c_state d = c_state c /\ c_pthread d = c_pthread c /\
    (c_parent c = Some me /\ c_parent d = initproc s \/ c_parent c <> Some me /\ d = c)).
  { intros j c Hc. destruct (given_fwd me s s' j c G I1 Hc) as (d & Hd & [[? ->]|[? ->]]); eexists; split_and!; try done; [by left|by right]. }
  destruct I4 as (i0 & c0 & Hi0 & Hc0 & Hl0 & Hp0).
  split; cbn; rewrite ?Gr, ?Gn, ?Gi; try done.
  - by eapply given_sized.
  - destruct (Fw i0 c0 Hc0) as (d & Hd & _ & _ & [[? _]|[_ ->]]); [congruence|]. by exists i0, c0.
  - intros i d (c & Hc & -> & _ & _ & _ & Hcase)%B Hu. destruct (I5 i c Hc Hu) as [E1 E2]. destruct Hcase as [[? _]|[_ ->]]; [congruence|done].
  - intros i d (c & Hc & -> & _)%B Hz. by apply (I18 i c).
  - intros i d (c & Hc & Es & _ & -> & _ & Hcase)%B Ht. unfold held. rewrite Es. destruct (I6 i c Hc Ht) as (Hp & ? & ?).
    destruct Hcase as [[? _]|[_ ->]]; [congruence|done].
  - intros j i (c & Hc & Hu & Ht)%I19. destruct (Fw i c Hc) as (d & Hd & Es & Et & _). exists d. by rewrite Es, Et.
  - intros i d (c & Hc & -> & _)%B. by apply (I7 i c).
  - intros n i Hn. destruct (I8 n i Hn) as [[c Hc] Hq]. destruct (Fw i c Hc) as (d & Hd & _). by split; [exists d|].
  - intros i d (c & Hc & -> & _)%B. by apply (I9 i c).
  - intros n i Hn. destruct (I10 n i Hn) as [c Hc]. destruct (Fw i c Hc) as (d & Hd & _). by exists d.
  - intros i d (c & Hc & Es & -> & _)%B. unfold held. rewrite Es. by apply (I12 i c).
  - intros i j d e (c & Hc & Es & -> & _)%B (c' & Hc' & Es' & -> & _)%B. unfold held. rewrite Es, Es'. by apply I13.
  - intros i d (c & Hc & -> & _ & -> & _ & Hcase)%B Hu Hi Ht. destruct Hcase as [[_ Hp]|[Hp ->]].
    + destruct (Fw i0 c0 Hc0) as (e & He & _ & _ & [[? _]|[_ ->]]); [congruence|]. exists i0, c0. split; [congruence|done].
    + destruct (I14 i c Hc Hu Hi Ht) as (q & e & Hq & He & Hl). destruct (Fw q e He) as (e' & He' & Es & _).
      exists q, e'. split_and!; [done|done|]. unfold live. by rewrite Es.
  - intros i d q (c & Hc & _ & _ & Et & _ & Hcase)%B Hpc. pose proof (I15 i c q Hc Hpc) as Hw. destruct Hcase as [[Hpm Hp]|[Hp ->]]; [|done].
    unfold wakes. rewrite Et, Hp. destruct (c_pthread c) eqn:Ht; [|by right]. destruct (I6 i c Hc); congruence.
  - intros i d j (c & Hc & -> & _ & _ & -> & _)%B Hs Hch. destruct (I16 i c j Hc Hs Hch) as [Hj Hw]. split; [done|].
    assert (Hine : i <> me) by (intros ->; by apply (Hns c)). unfold waits in *. rewrite Gi.
    destruct (ps i); try done; destruct Hw as [(m & e & He & Hp & Hu) Hz]; destruct (Fw m e He) as (e' & He' & Es & Et & Hcase); split.
    + destruct Hcase as [[? _]|[_ ->]]; [congruence|]. by exists m, e.
    + intros Hi m' x' (x & Hx & -> & _ & _ & _ & Hcx)%B Hp'. destruct Hcx as [[_ ?]|[_ ->]]; [congruence|]. by apply (Hz Hi m').
    + exists m, e'. rewrite Es, Et. done.
    + intros m' x' (x & Hx & -> & _ & -> & _)%B. by apply (Hz m').
Qed.

Lemma inv_exit_finish n i status q s a s' cs ps : inv (mk_sys s cs ps) -> cs !! n = Some (Running i) -> ps i = Pexit2 q ->
  exit_finish i status q s = Ret a s' -> inv (mk_sys s' (<[n := Idle]> cs) (set_pc i Pno ps)).
Proof.
  intros I Hn Hpc Hrun. apply exit_finish_sum in Hrun as (q0 & s1 & s2 & c & -> & G & W & O & En); [|by apply (iv_sized _ I)].
  assert (Hi : initproc s <> Some i) by (apply (iv_noinit _ I i); cbn; by rewrite Hpc).
  destruct (running_facts s cs ps n i I Hn) as (ca & Hca & Hsa & _).
  assert (I1 : inv (mk_sys s1 cs ps)) by (eapply inv_given; [exact I|done| |exact G]; intros; congruence).
  assert (I2 : inv (mk_sys s2 cs ps)) by (by eapply inv_woken).
  destruct (running_facts s2 cs ps n i I2 Hn) as (cb & Hcb & Hsb & Hoff & Ho).
  assert (cb = c) as -> by (pose proof (on_old _ _ _ _ _ _ O); congruence).
  assert (Ei : initproc s2 = initproc s) by (rewrite (wk_init _ _ _ W); apply G).
  eapply (inv_move n (Running i) Idle i c _ _ s2 s' cs ps); [exact I2|exact O|by apply running_live|done|right; by right|by left|done|..]; cbn; try done.
  - split; [done|]. by intros [?|?].
  - intros j Hj. unfold set_pc. by rewrite decide_False.
  - intros _. unfold set_pc. rewrite decide_True by done. split_and!; [done|congruence| |].
    + intros j d Hd Hp. destruct (woken_back _ _ _ _ _ W Hd) as (d1 & Hd1 & Hcase).
      assert (c_parent d1 = Some i) as Hp1 by (by destruct Hcase as [(_ & _ & ->)|[_ ->]]).
      destruct (given_back i s s1 j d1 G (iv_sized _ I) Hd1) as (d0 & _ & [[_ ->]|[? ->]]); cbn in *; congruence.
    + intros p d j Hd Hs Hch. pose proof (iv_exit _ I2 i c (Some q0) Hcb Hpc) as E1. unfold wakes in E1. cbn in E1.
      assert (Hnp : q0 <> p).
      { intros ->. destruct (woken_back _ _ _ _ _ W Hd) as (d1 & Hd1 & [(_ & _ & ->)|[Hnw ->]]); [done|].
        destruct (iv_wait _ I1 p d1 j Hd1 Hs Hch) as [-> _]. apply Hnw. split; [done|]. by exists d1. }
      destruct (c_pthread c) as [j0|] eqn:Ht; [|split; [destruct E1; congruence|done]].
      destruct (iv_thread _ I2 i c Hcb) as (Hp & _); cbn in *; [congruence|]. split; congruence.
  - right. unfold set_pc. rewrite decide_True by done. split_and!; [done|done|]. intros np. split; [done|congruence].
Qed.

Lemma inv_waits n i addr s o s' cs ps : inv (mk_sys s cs ps) -> cs !! n = Some (Running i) -> (forall np, ps i <> Pclone np) ->
  wait i addr s = Ret o s' ->
  match o with
  | Some _ => inv (mk_sys s' cs ps)
  | None => inv (mk_sys s' (<[n := Idle]> cs) (set_pc i (Pwait addr) ps))
  end.
Proof.
  intros I Hn Hpc Hrun. apply wait_sum in Hrun as [(r & -> & Hs)|[(j & c & -> & Hp & Hz & O & En)|(c & -> & O & En & Hnz & j & d & Hd & Hp)]];
    [by eapply inv_same| | |by apply (iv_sized _ I)].
  - eapply (inv_reap n i j c (freed c) (fun x => onq (rq s) x /\ x <> j)); [exact I|exact Hn|by left|exact Hz|exact En|done|done| |tauto|tauto|exact O]. cbn.
    destruct (decide (c_pthread c = None)) as [|Ht]; [done|]. destruct (iv_thread _ I j c (on_old _ _ _ _ _ _ O) Ht). congruence.
  - eapply inv_asleep; [exact I|exact Hn|exact O|done|done|done|done|]. intros x [= <-]. split; [done|]. split; [|done].
    exists j, d. split_and!; [done|done|]. intros Hu. destruct (iv_unused _ I j d Hd Hu). congruence.
Qed.

Lemma inv_joins n i stack s o s' cs ps : inv (mk_sys s cs ps) -> cs !! n = Some (Running i) -> (forall np, ps i <> Pclone np) ->
  join i stack s = Ret o s' ->
  match o with
  | Some _ => inv (mk_sys s' cs ps)
  | None => inv (mk_sys s' (<[n := Idle]> cs) (set_pc i (Pjoin stack) ps))
  end.
Proof.
  intros I Hn Hpc Hrun. apply join_sum in Hrun as [(r & -> & Hs)|[(j & c & -> & Hp & Hz & O & En)|(c & -> & O & En & Hnz & j & d & Hd & Hp)]];
    [by eapply inv_same| | |by apply (iv_sized _ I)].
  - eapply (inv_reap n i j c (joined c) (onq (rq s))); [exact I|exact Hn|by right|exact Hz|exact En|done|done|done| |done|exact O].
    eapply unused_off; [exact I|apply O|congruence].
  - eapply inv_asleep; [exact I|exact Hn|exact O|done|done|done|done|]. intros x [= <-]. split; [done|]. split; [|done].
    exists j, d. split_and!; [done|done|]. intros Hu. destruct (iv_thread _ I j d Hd) as (_ & _ & [?|[m Hm]]); cbn in *; [congruence|done|].
    destruct (iv_clone _ I m j Hm) as (e & He & _ & Ht). cbn in *. assert (m = i) as -> by congruence. by destruct (Hpc j).
Qed.

(** A running process goes on to another place in the kernel. *)
Lemma inv_leave n s cs ps i x : inv (mk_sys s cs ps) -> cs !! n = Some (Running i) ->
  (forall np, ps i <> Pclone np /\ x <> Pclone np) -> (exiting x = true -> initproc s <> Some i) ->
  (forall c q, core_at s i = Some c -> x = Pexit2 q -> wakes c (initproc s) q) ->
  inv (mk_sys s cs (set_pc i x ps)).
Proof.
  intros I Hn Hnp Hi Hq. destruct (running_facts s cs ps n i I Hn) as (c & Hc & Hs & _). apply inv_pc; [done|apply Hnp..|done|].
  intros d Hd. split; [|by intros q; apply Hq]. congruence.
Qed.

Lemma exit_parent_sum i s q s' : exit_parent i s = Ret q s' -> same s s' /\ exists c, core_at s i = Some c /\
  ((c_pthread c <> None -> c_parent c = None) -> forall init, wakes c init q).
Proof.
  intros Hrun. split; [by eapply quiet_exit_parent|]. apply bind_Ret_inv in Hrun as (p & s1 & [-> Hp]%getp_core & Hrun).
  exists (core p). split; [done|]. intros Ht init. injection Hrun as <- _. unfold wakes. cbn in *.
  destruct (p_pthread p) as [j|] eqn:Hj; [|rewrite andb_false_r; by left].
  rewrite Ht by done. done.
Qed.

(** The steps of [exit] before it reads its parent. *)
Lemma inv_exits n s cs ps i x : inv (mk_sys s cs ps) -> cs !! n = Some (Running i) -> (forall np, ps i <> Pclone np /\ x <> Pclone np) ->
  (forall q, x <> Pexit2 q) -> initproc s <> Some i -> inv (mk_sys s cs (set_pc i x ps)).
Proof. intros I Hn Hnp Hx Hi. eapply inv_leave; [done..|]. intros c q _ Hq. by destruct (Hx q). Qed.

Lemma inv_step y y' : step y y' -> inv y -> inv y'.
Proof.
  intros Hst I. destruct Hst as [s cs ps n i r s' Hn Hpc Hcr Hrun|s cs ps n i fcn arg stack s' Hn Hpc Hcr Hrun|s cs ps n i fcn arg stack np s' Hn Hpc Hcr Hrun
    |s cs ps n i np r s' Hn Hpc Hrun|s cs ps n i stack r s' Hn Hpc Hrun|s cs ps n i stack s' Hn Hpc Hrun
    |s cs ps n i stack r s' Hn Hpc Hrun|s cs ps n i stack s' Hn Hpc Hrun
    |s cs ps n i s' Hn Hpc Hrun|s cs ps n i m piece s' Hn Hpc Hm Hrun|s cs ps n i s' Hn Hpc Hrun|s cs ps n i q s' Hn Hpc Hrun
    |s cs ps n i status q s' Hn Hpc Hrun|s cs ps n i addr r s' Hn Hpc Hrun|s cs ps n i addr s' Hn Hpc Hrun
    |s cs ps n i addr r s' Hn Hpc Hrun|s cs ps n i addr s' Hn Hpc Hrun|s cs ps n i b a s' Hn Hpc Hrun|s cs ps n i b s' Hn Hpc Hrun
    |s cs ps a s' Hrun|s cs ps pid r s' Hrun|s cs ps n i s' Hn Hrun|s cs ps pid pr r s' Hrun|s cs ps n i d r s' Hn Hrun
    |s cs ps n c s' Hn Hrun|s cs ps e|s cs ps n i s' Hn Hrun|s cs ps n i s' Hn Hrun|s cs ps n i s' Hn Hrun].
  all: pose proof (iv_sized _ I) as Hsz; cbn in Hsz.
  all: assert (Hoff : forall j c, core_at s j = Some c -> c_state c = UNUSED -> ~ onq (rq s) j) by
    (intros j c' Hc Hu; eapply unused_off; [done..|congruence]).
  all: try (assert (Hnp : forall np, ps i <> Pclone np) by (intros ?; rewrite Hpc; by try destruct b)).
  - apply fork_sum in Hrun; [|done|by apply (iv_rqok _ I)|done].
    destruct Hrun as [[_ Hidle]|(np & c & _ & Hu & En & O)]; [by eapply inv_idle|by eapply inv_born].
  - apply clone_begin_sum in Hrun; [|done|by apply (iv_rqok _ I)|done]. destruct Hrun as [[_ Hidle]|(np & c & ? & _)]; [by eapply inv_idle|done].
  - apply clone_begin_sum in Hrun; [|done|by apply (iv_rqok _ I)|done]. destruct Hrun as [[? _]|(np' & c & [= <-] & Hu & En & O)]; [done|by eapply inv_cloned].
  - apply clone_finish_sum in Hrun as (c & _ & O & En); [|done]. by eapply inv_clone_finish.
  - by eapply inv_joins in Hrun.
  - by eapply inv_joins in Hrun.
  - apply bind_Ret_inv in Hrun as (? & s1 & E1 & Hrun). eapply inv_sleep_leave in E1; [|done..]. eapply inv_joins in Hrun; [|done..]. by eapply inv_leave.
  - apply bind_Ret_inv in Hrun as (? & s1 & E1 & Hrun). eapply inv_sleep_leave in E1; [|done..]. by eapply inv_joins in Hrun.
  - apply exit_check_sum in Hrun as [-> Hi]. by eapply inv_exits.
  - eapply quiet_exit_pieces in Hrun; [|by eapply list_elem_of_In, list_elem_of_lookup_2]. pose proof Hrun as (_ & _ & _ & Ei).
    eapply inv_exits; [by eapply inv_same|done..|]. rewrite Ei. apply (iv_noinit _ I). cbn. by rewrite Hpc.
  - apply exit_wakeinit_sum in Hrun as (init & _ & W); [|done]. pose proof (wk_init _ _ _ W) as Ei.
    eapply inv_exits; [by eapply inv_woken|done..|]. rewrite Ei. apply (iv_noinit _ I). cbn. by rewrite Hpc.
  - apply exit_parent_sum in Hrun as [Hs (c & Hc & Hq)]. pose proof Hs as (_ & _ & _ & Ei). cbn in *.
    eapply inv_leave; [by eapply inv_same|done|done| |].
    + intros _. rewrite Ei. apply (iv_noinit _ I). cbn. by rewrite Hpc.
    + intros c0 q0 Hc0. rewrite (same_core s s' i Hs) in Hc0. assert (c0 = c) as -> by congruence. intros [= <-]. apply Hq.
      intros Ht. by destruct (iv_thread _ I i c Hc Ht).
  - by eapply inv_exit_finish.
  - by eapply inv_waits in Hrun.
  - by eapply inv_waits in Hrun.
  - apply bind_Ret_inv in Hrun as (? & s1 & E1 & Hrun). eapply inv_sleep_leave in E1; [|done..]. eapply inv_waits in Hrun; [|done..]. by eapply inv_leave.
  - apply bind_Ret_inv in Hrun as (? & s1 & E1 & Hrun). eapply inv_sleep_leave in E1; [|done..]. by eapply inv_waits in Hrun.
  - eapply (only_upd i _ (asleep_on (Cobj a))) in Hrun as (c & O & En); [|done].
    eapply inv_asleep; [done|done|exact O|done| |done| |done]; rewrite Hpc; by destruct b.
  - pose proof (iv_noinit _ I i) as Hi. cbn in Hi. rewrite Hpc in Hi. eapply inv_sleep_leave in Hrun as I'; [|done..].
    eapply (only_upd i _ wide_awake) in Hrun as (c & O & _); [|done].
    eapply inv_leave; [done|done|by destruct b| |by destruct b]. rewrite (on_init _ _ _ _ _ _ O). by destruct b.
  - by eapply inv_woken; [eapply wakeup_sum|].
  - apply kill_sum in Hrun as [W HW]; [|done]. by eapply inv_woken.
  - by eapply inv_yield.
  - by eapply inv_woken; [eapply setPriority_sum|].
  - by eapply inv_same; [eapply quiet_growproc|].
  - eapply inv_woken; [|exact I]. eapply tick_sum; [|exact Hrun]. intros i Hi. destruct c as [| |j]; try done. injection Hi as ->.
    destruct (iv_ran _ I n i Hn) as [c Hc]. by eapply core_at_lt.
  - eapply (inv_same s); [by split_and!|done].
  - by eapply inv_pick.
  - apply (inv_run n i s true s' cs ps I Hn Hrun).
  - by destruct (inv_run n i s false s' cs ps I Hn Hrun).
Qed.

(** ** Boot *)

Lemma quiet_for (body : Z -> M (pst (E := E)) unit) n lo : (forall i, Quiet (body i)) -> Quiet (for_loop n lo body).
Proof.
  intros Hb s [] s' Hrun. apply (for_loop_ret (fun _ s1 => same s s1) body n lo s s'); [done| |exact Hrun].
  intros i s1 s2 _ Hs E1. etrans; [exact Hs|by eapply Hb].
Qed.

Definition blank : corep := mk_core UNUSED None Cnone 0 None.

Lemma zero_core e i : core_at (zero_pst e) i = if decide (i < NPROC)%nat then Some blank else None.
Proof.
  unfold core_at, zero_pst. cbn [table]. destruct (decide _) as [Hlt|Hge].
  - by rewrite lookup_replicate_2.
  - rewrite (proj1 (lookup_replicate_None NPROC zero_proc i)) by lia. done.
Qed.

Lemma zero_runq : exists st', SchedO1.runq_init zero_rq = Ret tt st' /\ rqok st' /\ forall i, ~ onq st' i.
Proof.
  destruct (SchedO1.runq_init_refines zero_rq) as (st' & E2 & Ep & Hr); [done..| |].
  { intros p x Hx. apply lookup_replicate in Hx as [-> _]. done. }
  exists st'. split; [done|]. split; [by exists (replicate 21 [])|].
  intros i. rewrite (onq_queues _ _ _ Hr), elem_concat. intros (j & l & Hl & Hil).
  apply lookup_replicate in Hl as [-> _]. by apply not_elem_of_nil in Hil.
Qed.

Lemma procinit_sum s0 st' s : SchedO1.runq_init (rq s0) = Ret tt st' -> procinit s0 = Ret tt s ->
  (forall i, core_at s i = core_at s0 i) /\ rq s = st' /\ nextpid s = nextpid s0 /\ initproc s = initproc s0.
Proof.
  intros E2 ([] & s1 & E1 & Hrun)%bind_Ret_inv. apply onrq_core in E1 as (Er & Et & En & Ei).
  assert (Hs : same s1 s).
  { eapply quiet_for; [|exact Hrun]. intros i. apply quiet_bind; [apply _|]. intros pa. destruct (pa =? 0); [apply _|].
    apply quiet_bind; [apply _|]. intros _. by apply quiet_modp. }
  pose proof Hs as (_ & Hrq & Hn & Hi). rewrite E2 in Er. injection Er as Er. split_and!; try congruence.
  intros i. rewrite (same_core s1 s i Hs). unfold core_at. by rewrite Et.
Qed.

Lemma inv_boot e s : (procinit ;;; userinit) (zero_pst e) = Ret tt s -> inv (mk_sys s (replicate NCPU Idle) (fun _ => Pno)).
Proof.
  intros ([] & s1 & E1 & Hrun)%bind_Ret_inv. destruct zero_runq as (st' & E2 & Hr & Hoff).
  eapply procinit_sum in E1 as (Hc & Eq & Hn & Hi); [|exact E2]. rewrite <- Eq in Hr, Hoff. clear E2 Eq.
  assert (Hz : forall i, core_at s1 i = if decide (i < NPROC)%nat then Some blank else None) by (intros; by rewrite Hc, zero_core).
  clear Hc. rename Hz into Hc. cbn [nextpid initproc zero_pst] in Hn, Hi.
  assert (Hl : sized s1) by (intros i; rewrite Hc; destruct (decide _); split; naive_solver).
  apply userinit_sum in Hrun as (i & c & s0 & Hu & Ei & En & Er & Ec & O); [|done..]. rewrite Hn in *.
  assert (c = blank) as -> by (pose proof (on_old _ _ _ _ _ _ O) as Hci; rewrite Ec, Hc in Hci; case_decide; congruence).
  assert (Hr0 : rqok (rq s0)) by (by rewrite Er). pose proof (on_queue _ _ _ _ _ _ O Hr0) as Hq. cbn in Hq.
  assert (B : forall j d, core_at s j = Some d -> j = i /\ d = mk_core RUNNABLE None Cnone 1 None \/ j <> i /\ d = blank).
  { intros j d Hd. destruct (decide (j = i)) as [->|Hne]; [left; split; [done|]; pose proof (on_new _ _ _ _ _ _ O) as Hx; rewrite Hd in Hx; by inversion Hx|].
    right. split; [done|]. rewrite (on_rest _ _ _ _ _ _ O), Ec, Hc in Hd by done. case_decide; congruence. }
  assert (Hidle : forall n x, replicate NCPU Idle !! n = Some x -> x = Idle) by (by intros n x [-> _]%lookup_replicate).
  split; cbn; try done.
  - eapply only_sized; [exact O|]. intros j. by rewrite Ec.
  - by apply O.
  - rewrite En. done.
  - exists i. eexists. split_and!; [done|apply O|done..].
  - by intros j d [[-> ->]|[_ ->]]%B.
  - by intros j d [[-> ->]|[_ ->]]%B.
  - intros j d [[-> ->]|[Hne ->]]%B; cbn; rewrite Hq; [tauto|]. split; [done|]. intros [[Hx|?]|[n Hx%Hidle]]; [|done|done].
    by destruct (Hoff j).
  - by intros n j Hx%Hidle.
  - intros j d [[-> ->]|[Hne ->]]%B; (split; [done|]); by intros [n Hx%Hidle].
  - by intros n j Hx%Hidle.
  - by intros n m j [Hx%Hidle|Hx%Hidle].
  - intros j d [[-> ->]|[_ ->]]%B Hu'; [by rewrite En|]. destruct Hu' as [?|[? ?]]; done.
  - intros j1 j2 d1 d2 [[-> ->]|[_ ->]]%B [[-> ->]|[_ ->]]%B; [done|..]; intros H1 H2 Hp; try done.
    destruct H1 as [?|[? ?]]; done.
  - intros j d [[-> ->]|[_ ->]]%B; [congruence|done].
  - by intros j d x [[-> ->]|[_ ->]]%B.
Qed.

Lemma reachable_inv y : reachable y -> inv y.
Proof. induction 1 as [e s Hb|y y' _ IH Hst]; [by eapply inv_boot|by eapply inv_step]. Qed.

(** ** What the invariant gives *)

Lemma core_table s i p : table s !! i = Some p -> core_at s i = Some (core p).
Proof. unfold core_at. by intros ->. Qed.

(** C3: In every reachable state of the machine the process table, the run queue
    and the CPUs agree: a process is RUNNABLE exactly when it is queued or a
    scheduler has just taken it off the queue, never both; it is RUNNING exactly
    when a CPU runs it; and no two CPUs hold the same process. The machine takes
    [fork], [clone], [wait], [join], [exit], [sleep], [wakeup], [kill], [yield],
    [setPriority], [growproc], the timer and the scheduler, region by region; it
    creates a process only while pids last and while no [clone] is between its two
    regions, where [clone_race] shows that the code breaks this. *)
Theorem proc_states_consistent y i p : reachable y -> table (k y) !! i = Some p ->
  (p_state p = RUNNABLE <-> onq (rq (k y)) i \/ exists n, cpus y !! n = Some (Picked i)) /\
  (p_state p = RUNNING <-> exists n, cpus y !! n = Some (Running i)) /\
  ~ (onq (rq (k y)) i /\ exists n, on_cpu (cpus y) n i) /\
  (forall n m, on_cpu (cpus y) n i -> on_cpu (cpus y) m i -> n = m).
Proof.
  intros I%reachable_inv Hp%core_table. split_and!; [by apply (iv_queued _ I i (core p))|by apply (iv_running _ I i (core p))| |].
  - intros (Hq & n & [Hn|Hn]); [by destruct (iv_picked _ I n i Hn)|].
    assert (Hr : c_state (core p) = RUNNING) by (apply (iv_running _ I i (core p) Hp); by exists n).
    assert (Hr' : c_state (core p) = RUNNABLE) by (apply (iv_queued _ I i (core p) Hp); by left). congruence.
  - intros n m. apply (iv_once _ I).
Qed.

(** The process a scheduler takes off the run queue is RUNNABLE when it gets
    its lock, in every reachable state: the switch always happens, and the branch
    of [scheduler] that puts a process back on the queue is never taken. *)
Theorem scheduler_never_puts_back y n i : reachable y -> cpus y !! n = Some (Picked i) -> exists s', sched_run i (k y) = Ret true s'.
Proof.
  intros I%reachable_inv Hn. destruct y as [s cs ps]. cbn in *. destruct (picked_facts s cs ps n i I Hn) as (c & Hc & Hs & _).
  destruct (core_at_inv s i c Hc) as (p & Hp & <-). cbn in Hs. assert (Hlt := core_at_lt s i _ (iv_sized _ I) Hc).
  destruct (rqok_slot (rq s) i (iv_rqok _ I) Hlt) as [x Hx].
  unfold sched_run. rewrite (bind_Ret (getp i) _ s p s) by (unfold getp; by rewrite Hp).
  rewrite Hs, bool_decide_eq_true_2 by done. unfold bind, modp. rewrite Hp. unfold onrq, zoom, SchedO1.modp. cbn.
  rewrite (bind_Ret (SchedO1.getp i) _ (rq s) x (rq s)) by (unfold SchedO1.getp; by rewrite Hx). by eexists.
Qed.

(** C28: In every reachable state pids are positive and unique; every process but
    init has a parent that is alive, or it is a thread made by [clone], which has
    no parent but a creator; and a zombie or an unused entry is nobody's parent.
    The machine is that of [step], with its two bounds. *)
Theorem process_tree_sound y i p : reachable y -> table (k y) !! i = Some p ->
  (p_state p <> UNUSED -> 0 < p_pid p < nextpid (k y) /\
     (initproc (k y) <> Some i -> match p_pthread p with
        | None => exists q d, p_parent p = Some q /\ table (k y) !! q = Some d /\ p_state d <> UNUSED /\ p_state d <> ZOMBIE
        | Some _ => p_parent p = None
        end) /\
     forall j d, table (k y) !! j = Some d -> p_state d <> UNUSED -> p_pid d = p_pid p -> j = i) /\
  (p_state p = UNUSED \/ p_state p = ZOMBIE -> forall j d, table (k y) !! j = Some d -> p_parent d <> Some i).
Proof.
  intros I%reachable_inv Hp%core_table. destruct y as [s cs ps]. cbn in *. split.
  - intros Hu. assert (Hh : held ps i (core p)) by (by left). split_and!; [apply (iv_pid _ I i (core p) Hp Hh)..| |].
    + intros Hi. destruct (p_pthread p) as [j|] eqn:Ht.
      * apply (iv_thread _ I i (core p) Hp). cbn. congruence.
      * destruct (iv_parent _ I i (core p) Hp Hu Hi Ht) as (q & c & Hq & Hc & Hl). destruct (core_at_inv s q c Hc) as (d & Hd & <-). by exists q, d.
    + intros j d Hd%core_table Hdu Epid. apply (iv_uniq _ I j i (core d) (core p)); [done..|by left|by left|done].
  - intros Hs j d Hd%core_table. apply (childless s cs ps i (core p) I Hp) with (d := core d) (j := j); [|done].
    intros [? ?]. by destruct Hs.
Qed.


(** A process of pid 0 is an unused entry. *)
Lemma find_pid_Some ps l pid i : find_pid ps l pid = Some i -> exists p, ps !! (i - l)%nat = Some p /\ (l <= i)%nat /\ p_pid p = pid.
Proof.
  revert l. induction ps as [|p ps IH]; intros l; simpl; [done|]. destruct (p_pid p =? pid) eqn:E1.
  - intros [= ->]. exists p. rewrite Nat.sub_diag. split_and!; [done|lia|lia].
  - intros (q & Hq & Hl & Ep)%IH. exists q. split_and!; [|lia|done]. by replace (i - l)%nat with (S (i - S l)) by lia.
Qed.

(** [kill(0)] succeeds whenever some entry has pid 0, although no process has:
    it marks an unused entry as killed. *)
Theorem kill_zero_marks_unused y s' : reachable y -> kill 0 (k y) = Ret 0 s' ->
  exists i p, table (k y) !! i = Some p /\ p_state p = UNUSED /\ s' = set_table (<[i := set_killed 1 p]> (table (k y))) (k y).
Proof.
  intros I%reachable_inv Hrun. unfold kill, bind at 1, gets at 1 in Hrun. destruct (find_pid _ _ _) as [i|] eqn:Hf; [|done].
  apply find_pid_Some in Hf as (p & Hp & _ & Epid). rewrite Nat.sub_0_r in Hp.
  assert (Hu : p_state p = UNUSED).
  { destruct (decide (p_state p = UNUSED)) as [|Hu]; [done|]. pose proof (iv_pid _ I i (core p) (core_table _ _ _ Hp) (or_introl Hu)). cbn in *. lia. }
  exists i, p. split_and!; try done. unfold modp, bind, getp, deref in Hrun. rewrite Hp in Hrun. cbn in Hrun.
  rewrite list_lookup_insert_eq in Hrun by (by eapply lookup_lt_Some). cbn in Hrun. rewrite Hu in Hrun. by inversion Hrun.
Qed.

End inv.

(** ** A run *)

(** Services that hand out page after page and do nothing else. *)
#[local] Instance plain_env : Env Z := {|
  kalloc := fun e => Ret e (e + PGSIZE); kfree _ := ret tt;
  proc_pagetable _ := fun e => Ret e (e + PGSIZE); proc_freepagetable _ _ := ret tt;
  uvmcopy _ _ _ := ret 0; uvmalloc _ _ n := ret n; uvmdealloc _ _ n := ret n; uvmunmap _ _ _ _ := ret tt; uvminit _ := ret tt;
  kvmmap _ _ _ _ := ret tt; copyout _ _ _ := ret 0; tf_copy _ _ := ret tt; tf_set _ _ _ := ret tt;
  filedup f := ret f; fileclose _ := ret tt; filewrite _ _ _ := ret 0; idup i := ret i; iput _ := ret tt; namei_root := ret 1;
  begin_op := ret tt; end_op := ret tt; shmaddcount _ := ret tt; shmrelease _ _ _ := ret tt; addmqcount _ := ret tt; releasemq2 _ := ret tt |}.

Definition after {A} (m : M (pst (E := Z)) A) (s : pst) : pst := match m s with Ret _ s' => s' | _ => s end.
Definition proc_of (s : pst (E := Z)) (i : nat) : proc := default zero_proc (table s !! i).

(** Boot; CPU 0 runs init, which forks; CPU 1 runs the child, which forks and waits;
    CPU 2 takes the grandchild off the queue. *)
Definition s_boot : pst := after (procinit ;;; userinit) (zero_pst 4096).
Definition s_init : pst := after (sched_pick ;;; sched_run 0) s_boot.
Definition s_fork : pst := after (fork 0) s_init.
Definition s_child : pst := after (sched_pick ;;; sched_run 1) s_fork.
Definition s_fork2 : pst := after (fork 1) s_child.
Definition s_wait : pst := after (wait 1 0) s_fork2.
Definition s_pick : pst := after sched_pick s_wait.
Definition y_init : sys := mk_sys s_init (Running 0 :: replicate 7 Idle) (fun _ => Pno).
Definition y_wait : sys := mk_sys s_wait (<[1%nat := Idle]> (Running 0 :: Running 1 :: replicate 6 Idle)) (set_pc 1 (Pwait 0) (fun _ => Pno)).
Definition y_pick : sys := mk_sys s_pick (<[2%nat := Picked 2]> (cpus y_wait)) (pcs y_wait).

Lemma y_init_reachable : reachable y_init.
Proof.
  assert (R0 : reachable (mk_sys s_boot (replicate NCPU Idle) (fun _ => Pno))) by (eapply (reach_boot 4096); vm_compute; reflexivity).
  assert (R1 : reachable (mk_sys (after sched_pick s_boot) (<[0%nat := Picked 0]> (replicate NCPU Idle)) (fun _ => Pno))).
  { eapply reach_step; [exact R0|]. eapply st_pick; [reflexivity|]. vm_compute. reflexivity. }
  change (reachable (mk_sys s_init (<[0%nat := Running 0]> (<[0%nat := Picked 0]> (replicate NCPU Idle))) (fun _ => Pno))).
  eapply reach_step; [exact R1|]. eapply st_run; [reflexivity|]. vm_compute. reflexivity.
Qed.

Lemma y_wait_reachable : reachable y_wait.
Proof.
  assert (R3 : reachable (mk_sys s_fork (Running 0 :: replicate 7 Idle) (fun _ => Pno))).
  { eapply reach_step; [exact y_init_reachable|]. eapply (st_fork _ _ _ 0 0 2); [reflexivity|reflexivity|split; [by vm_compute|done]|]. vm_compute. reflexivity. }
  assert (R4 : reachable (mk_sys (after sched_pick s_fork) (<[1%nat := Picked 1]> (Running 0 :: replicate 7 Idle)) (fun _ => Pno))).
  { eapply reach_step; [exact R3|]. eapply st_pick; [reflexivity|]. vm_compute. reflexivity. }
  assert (R5 : reachable (mk_sys s_child (<[1%nat := Running 1]> (<[1%nat := Picked 1]> (Running 0 :: replicate 7 Idle))) (fun _ => Pno))).
  { eapply reach_step; [exact R4|]. eapply st_run; [reflexivity|]. vm_compute. reflexivity. }
  assert (R6 : reachable (mk_sys s_fork2 (Running 0 :: Running 1 :: replicate 6 Idle) (fun _ => Pno))).
  { eapply reach_step; [exact R5|]. eapply (st_fork _ _ _ 1 1 3); [reflexivity|reflexivity|split; [by vm_compute|done]|]. vm_compute. reflexivity. }
  eapply reach_step; [exact R6|]. eapply (st_wait_sleep _ _ _ 1 1 0); [reflexivity|reflexivity|]. vm_compute. reflexivity.
Qed.

Lemma y_pick_reachable : reachable y_pick.
Proof. eapply reach_step; [exact y_wait_reachable|]. eapply (st_pick _ _ _ 2 2); [reflexivity|]. vm_compute. reflexivity. Qed.




(** [clone] by process 0; between its regions process 1 forks and gets the entry of
    the new thread, and a CPU runs the child; the end of [clone] then puts the
    running child on the run queue. *)
Lemma clone_race : exists np s1 s2 s3 s4 s5 r, clone_begin 0 0 0 0 s_child = Ret (Some np) s1 /\ fork 1 s1 = Ret r s2 /\
  sched_pick s2 = Ret (Some np) s3 /\ sched_run np s3 = Ret true s4 /\ clone_finish np s4 = Ret r s5 /\
  p_state (proc_of s4 np) = RUNNING /\ p_state (proc_of s5 np) = RUNNABLE /\ onq (rq s5) np.
Proof.
  exists 2%nat. do 6 eexists. split; [vm_compute; reflexivity|]. split; [vm_compute; reflexivity|]. split; [vm_compute; reflexivity|].
  split; [vm_compute; reflexivity|]. split; [vm_compute; reflexivity|]. split_and!; [vm_compute; reflexivity..|]. vm_compute. eexists. split; reflexivity.
Qed.


Lemma proc_states_consistent_witness : p_state (proc_of (k y_pick) 2) = RUNNABLE /\
  ((p_state (proc_of (k y_pick) 2) = RUNNABLE <-> onq (rq (k y_pick)) 2 \/ exists n, cpus y_pick !! n = Some (Picked 2)) /\
   (p_state (proc_of (k y_pick) 2) = RUNNING <-> exists n, cpus y_pick !! n = Some (Running 2)) /\
   ~ (onq (rq (k y_pick)) 2 /\ exists n, on_cpu (cpus y_pick) n 2) /\
   (forall n m, on_cpu (cpus y_pick) n 2 -> on_cpu (cpus y_pick) m 2 -> n = m)).
Proof.
  assert (Hp : table (k y_pick) !! 2%nat = Some (proc_of (k y_pick) 2)) by (vm_compute; reflexivity).
  assert (Hs : p_state (proc_of (k y_pick) 2) = RUNNABLE) by (vm_compute; reflexivity).
  split; [exact Hs|]. exact (proc_states_consistent y_pick 2 _ y_pick_reachable Hp).
Defined.

Lemma scheduler_never_puts_back_witness : exists s', sched_run 2 (k y_pick) = Ret true s'.
Proof.
  assert (Hn : cpus y_pick !! 2%nat = Some (Picked 2)) by (vm_compute; reflexivity).
  exact (scheduler_never_puts_back y_pick 2 2 y_pick_reachable Hn).
Defined.

Lemma process_tree_sound_witness : p_state (proc_of (k y_wait) 2) = RUNNABLE /\ 0 < p_pid (proc_of (k y_wait) 2) < nextpid (k y_wait).
Proof.
  assert (Hp : table (k y_wait) !! 2%nat = Some (proc_of (k y_wait) 2)) by (vm_compute; reflexivity).
  assert (Hs : p_state (proc_of (k y_wait) 2) = RUNNABLE) by (vm_compute; reflexivity).
  assert (Hu : p_state (proc_of (k y_wait) 2) <> UNUSED) by (rewrite Hs; discriminate).
  split; [exact Hs|]. exact (proj1 (proj1 (process_tree_sound y_wait 2 _ y_wait_reachable Hp) Hu)).
Defined.

(** The child of the next [fork] is killed from the start. *)
Lemma kill_zero_marks_unused_witness :
  (exists i p, table (k y_init) !! i = Some p /\ p_state p = UNUSED /\
     after (kill 0) (k y_init) = set_table (<[i := set_killed 1 p]> (table (k y_init))) (k y_init)) /\
  p_state (proc_of (after (fork 0) (after (kill 0) (k y_init))) 1) = RUNNABLE /\
  p_killed (proc_of (after (fork 0) (after (kill 0) (k y_init))) 1) = 1.
Proof.
  split; [|split; vm_compute; reflexivity].
  assert (Hk : kill 0 (k y_init) = Ret 0 (after (kill 0) (k y_init))) by (vm_compute; reflexivity).
  exact (kill_zero_marks_unused y_init _ y_init_reachable Hk).
Defined.

End Procinv.
