(* ===== verification/Threads.v ===== *)
(** Threads: what happens to the processes [clone] makes when [join] reaps them. *)

From S2P Require Import Prelude SchedO1 Mem Kalloc Ptable Proc Procsum.
Import Ptable Proc Procsum.

Module Threads.

Section join.
Context {E : Type} `{Env E}.

Lemma kstack_high i : (i < NPROC)%nat -> Kalloc.PHYSTOP <= KSTACK i.
Proof. unfold KSTACK, NPROC, SchedO1.NPROC, Kalloc.PHYSTOP, Kalloc.KERNBASE. lia. Qed.

(** [join] cannot reap a thread. The kernel stack it frees is the address
    that [procinit] mapped it at, far above the memory that [kfree] accepts: when
    a thread of the caller has exited, [join] panics. *)
Theorem join_reaping_panics (Hkfree : forall pa e, Kalloc.PHYSTOP <= pa -> kfree pa e = Panic "kfree")
    me stackaddrout (s : pst (E := E)) i h : length (table s) = NPROC ->
  join_scan (table s) 0 me false = (Some i, h) -> (forall t, table s !! i = Some t -> p_kstack t = KSTACK i) ->
  join me stackaddrout s = Panic "kfree".
Proof.
  intros Hl Hscan Hk. destruct (join_scan_Some _ _ _ _ _ _ Hscan) as (t & _ & Ht & _). rewrite Nat.sub_0_r in Ht.
  assert (Hi : (i < NPROC)%nat) by (rewrite <- Hl; by eapply lookup_lt_Some).
  unfold join, bind at 1, gets at 1. rewrite Hscan. rewrite (bind_Ret (getp i) _ s t s) by (unfold getp; by rewrite Ht).
  unfold bind, onenv, zoom. rewrite (Hk t Ht), Hkfree; [done|by apply kstack_high].
Qed.

End join.

(** The services with the page allocator's own [kfree]. *)
#[local] Instance page_env : Env Kalloc.kst := {|
  kalloc := ret 0; kfree := Kalloc.kfree (Kalloc.KERNBASE + PGSIZE) 0;
  proc_pagetable _ := ret 0; proc_freepagetable _ _ := ret tt;
  uvmcopy _ _ _ := ret 0; uvmalloc _ _ n := ret n; uvmdealloc _ _ n := ret n; uvmunmap _ _ _ _ := ret tt; uvminit _ := ret tt;
  kvmmap _ _ _ _ := ret tt; copyout _ _ _ := ret 0; tf_copy _ _ := ret tt; tf_set _ _ _ := ret tt;
  filedup f := ret f; fileclose _ := ret tt; filewrite _ _ _ := ret 0; idup i := ret i; iput _ := ret tt; namei_root := ret 1;
  begin_op := ret tt; end_op := ret tt; shmaddcount _ := ret tt; shmrelease _ _ _ := ret tt; addmqcount _ := ret tt; releasemq2 _ := ret tt |}.

Definition a_thread (i : nat) : proc :=
  mk_proc ZOMBIE None Cnone 0 0 2 (KSTACK i) 0 0 0 (replicate NOFILE 0) 0 EmptyString 0 (replicate 16 zero_vma) (Some 0%nat) 0 0 0
    (replicate 8 0) 0 0 0 0 0 0.
Definition a_table : list proc := a_thread <$> seq 0 NPROC.

Definition a_state : pst :=
  mk_pst a_table (SchedO1.RunQ [] [] [] 0) 3 (Some 0%nat) (Kalloc.mk_kst (fun _ => 0) [] (fun _ => 0)).

Lemma join_reaping_panics_witness : join_scan a_table 0 0 false = (Some 0%nat, true) /\ join 0 0 a_state = Panic "kfree".
Proof.
  split; [vm_compute; reflexivity|]. apply (join_reaping_panics (E := Kalloc.kst)) with (i := 0%nat) (h := true).
  - intros pa e Hpa. cbn. unfold Kalloc.kfree, Kalloc.bad_page.
    replace (Kalloc.PHYSTOP <=? pa) with true by lia. by rewrite orb_true_r.
  - reflexivity.
  - vm_compute. reflexivity.
  - intros t [= <-]. reflexivity.
Defined.

End Threads.
