(* ===== verification/Store.v ===== *)
(** The disk as the file system uses it: buffers of the cache, changed inside a
    transaction of the log.

    [fs.c] reads and writes blocks only through [bread], [brelse] and
    [log_write]. This class states what they promise to one system call; the
    instance at the end shows that the log and the buffer cache keep it. *)

From stdpp Require Import functions.
From S2P Require Import Prelude Mem Blk Log Txn.

Module Store.

Abbreviation block := Blk.block.
Abbreviation BSIZE := Blk.BSIZE.
Abbreviation ROOTDEV := Blk.ROOTDEV.
Abbreviation NBUF := Blk.NBUF.

(** [sees s V D H L cap]: the system call reads [V n] from block [n], and [D n]
    is what the disk had when the transaction began; it holds the locked buffers
    [H]; the transaction has logged the blocks [L] and may log [cap] in all.
    [okb n]: [n] is a block outside the log. *)
Class Store (S : Type) := {
  bread : Z -> Z -> M S nat;
  bdata : nat -> M S block;
  set_bdata : nat -> block -> M S unit;
  log_write : nat -> M S unit;
  brelse : nat -> M S unit;
  initlog : Z -> Z -> Z -> M S unit;
  okb : Z -> Prop;
  sees : S -> (Z -> block) -> (Z -> block) -> list (nat * Z) -> gset Z -> Z -> Prop;
  sees_clean : forall s V D H L cap n, sees s V D H L cap -> n ∉ H.*2 -> n ∉ L -> V n = D n;
  sees_bread : forall s V D H L cap n, sees s V D H L cap -> okb n -> n ∉ H.*2 ->
    n ∈ L \/ (size L + length H < NBUF)%nat ->
    exists i s', bread ROOTDEV n s = Ret i s' /\ sees s' V D ((i, n) :: H) L cap;
  sees_data : forall s V D H L cap i n, sees s V D H L cap -> (i, n) ∈ H -> bdata i s = Ret (V n) s;
  sees_set : forall s V D H L cap i n d, sees s V D H L cap -> (i, n) ∈ H ->
    exists s', set_bdata i d s = Ret tt s' /\ sees s' (<[n := d]> V) D H L cap;
  sees_log : forall s V D H L cap i n, sees s V D H L cap -> (i, n) ∈ H -> n ∈ L \/ Z.of_nat (size L) < cap ->
    exists s', log_write i s = Ret tt s' /\ sees s' V D H ({[n]} ∪ L) cap;
  sees_brelse : forall s V D H L cap i n, sees s V D ((i, n) :: H) L cap -> (n ∉ L -> V n = D n) ->
    exists s', brelse i s = Ret tt s' /\ sees s' V D H L cap }.

(** Transactions of a process that is alone: [quiet s V] says that no transaction
    is open and the disk has [V]. *)
Definition quiet {S} `{Store S} (s : S) (V : Z -> block) : Prop := sees s V V [] ∅ (-1).

Class TxnStore (S : Type) `{Store S} := {
  begin_op : M S unit;
  end_op : M S unit;
  begin_quiet : forall s V, quiet s V -> exists s', begin_op s = Ret tt s' /\ sees s' V V [] ∅ Log.MAXOPBLOCKS;
  end_quiet : forall s V D L cap, sees s V D [] L cap -> 0 <= cap -> exists s', end_op s = Ret tt s' /\ quiet s' V }.

(** ** The log keeps the promise *)

Section log.
Context {C : Type} `{BC : Blk.BlockCache C}.
Abbreviation lstate := (Log.lst (C := C)).

(** A block outside the log. *)
Definition outside (start len n : Z) : Prop := 0 <= n < 2 ^ 31 /\ ~ (start <= n < start + len).
#[export] Instance outside_dec start len n : Decision (outside start len n).
Proof. unfold outside. apply _. Defined.

(** [V] and [D] are the view and the disk but for the blocks of the log. *)
Record views (start len : Z) (V D V0 D0 : Z -> block) : Prop := {
  vw_view : forall n, outside start len n -> V n = V0 n;
  vw_disk : forall n, outside start len n -> D n = D0 n;
  vw_log : forall n, ~ outside start len n -> V n = D n }.

(** The system call has [r] credits left, none if it is not inside a transaction.
    If it is alone, with [solo], [cap] is -1 outside of a transaction. *)
Definition credits (solo : bool) (R : list Z) (j : nat) (r n cap : Z) : Prop :=
  if solo then R = [r] /\ j = 0%nat /\ cap = n + r \/ R = [] /\ r = 0 /\ cap = -1
  else (R !! j = Some r \/ r = 0) /\ cap = n + r.

(** The log has a block to spare. *)
Definition log_sees (solo : bool) (start len : Z) (s : lstate) (V D : Z -> block) (H : list (nat * Z)) (L : gset Z) (cap : Z) : Prop :=
  exists V0 D0 Ll R j r w, Txn.txn s V0 D0 Ll H R w /\ views start len V D V0 D0 /\ credits solo R j r (Z.of_nat (size L)) cap /\ L = list_to_set Ll /\
    Log.lh_n (Log.lg s) + foldr Z.add 0 R < Log.lg_size (Log.lg s) - 1 /\
    Log.lg_start (Log.lg s) = start /\ Log.lg_size (Log.lg s) = len.

Lemma credits_any solo R j r n cap : credits solo R j r n cap -> R !! j = Some r \/ r = 0.
Proof. unfold credits. destruct solo; [|by intros [? _]]. intros [(-> & -> & _)|(_ & -> & _)]; [by left|by right]. Qed.

Lemma held_outside start len s V0 D0 Ll H R w i n : Txn.txn s V0 D0 Ll H R w -> Log.lg_start (Log.lg s) = start -> Log.lg_size (Log.lg s) = len -> (i, n) ∈ H -> outside start len n.
Proof. intros Ht <- <- Hi. apply (Txn.tn_held _ _ _ _ _ _ _ Ht i n Hi). Qed.

Lemma size_of_list (l : list Z) : (size (list_to_set l : gset Z) <= length l)%nat.
Proof.
  induction l as [|x l IH]; [done|]. simpl. rewrite size_union_alt.
  assert (A : (list_to_set l ∖ {[x]} : gset Z) ⊆ list_to_set l) by set_solver. apply subseteq_size in A. rewrite size_singleton. lia.
Qed.

Lemma busy_size H Ll : (size (Blk.busy H (Txn.pins Ll)) <= size (list_to_set Ll : gset Z) + length H)%nat.
Proof.
  unfold Blk.busy. rewrite Txn.dom_pins, size_union_alt.
  assert (A : (list_to_set H.*2 ∖ list_to_set Ll : gset Z) ⊆ list_to_set H.*2) by set_solver.
  apply subseteq_size in A. pose proof (size_of_list (H.*2)) as B. rewrite length_fmap in B. lia.
Qed.

Lemma rep_txn s V D Ll H R w c' V' H' : Txn.txn s V D Ll H R w -> Blk.rep c' V' D H' (Txn.pins Ll) w ->
  (forall i n, (i, n) ∈ H' -> Log.home (Log.lg s) n) -> Txn.txn (Log.mk_lst (Log.lg s) c') V' D Ll H' R w.
Proof. intros [T1 T2 T3 T4 T5 T6 T7 T8 T9 T10 T11] Hrep Hh. by split. Qed.

Lemma cache_lg {A} (m : M C A) (s : lstate) a s' : Log.cache m s = Ret a s' -> Log.lg s' = Log.lg s.
Proof. unfold Log.cache, zoom. destruct (m _); [|done..]. by intros [= _ <-]. Qed.

Lemma absorb_same fuel : forall i n b (s : lstate) k s', Log.absorb fuel i n b s = Ret k s' -> s' = s.
Proof.
  induction fuel as [|fuel IH]; intros i n b s k s'; cbn [Log.absorb]; [by intros [= _ <-]|].
  destruct (i <? n); [|by intros [= _ <-]]. intros (x & s1 & E1 & E2)%bind_Ret_inv.
  assert (s1 = s) as -> by (unfold Log.get_block, bind, gets, deref in E1; by destruct (aget (Log.lh_block (Log.lg s)) i); [injection E1|]).
  destruct (_ =? _); [by injection E2 as _ <-|by eapply IH].
Qed.

Lemma log_write_keeps i (s : lstate) s' : Log.log_write i s = Ret tt s' ->
  Log.lg_start (Log.lg s') = Log.lg_start (Log.lg s) /\ Log.lg_size (Log.lg s') = Log.lg_size (Log.lg s).
Proof.
  unfold Log.log_write, bind at 1, gets at 1. destruct (_ || _); [done|]. destruct (_ <? _); [done|].
  intros (b & s1 & E1%cache_lg & Hrun)%bind_Ret_inv. apply bind_Ret_inv in Hrun as (k & s2 & ->%absorb_same & Hrun).
  apply bind_Ret_inv in Hrun as ([] & s3 & E3 & Hrun).
  assert (K : Log.lg_start (Log.lg s3) = Log.lg_start (Log.lg s) /\ Log.lg_size (Log.lg s3) = Log.lg_size (Log.lg s)).
  { unfold Log.put_block, bind, gets in E3. destruct (_ && _); [|done]. injection E3 as <-. rewrite <- E1. by cbn. }
  destruct (k =? _); cbn [when] in Hrun; [|by injection Hrun as <-].
  apply bind_Ret_inv in Hrun as ([] & s4 & E4%cache_lg & Hrun). injection Hrun as <-. cbn. by rewrite E4.
Qed.

(** A logged block is counted, against the credits when it is new. *)
Lemma logged_sees solo start len s s' V D V0 D0 Ll R j r w H i n cap : Txn.txn s V0 D0 Ll H R w -> views start len V D V0 D0 -> R !! j = Some r ->
  credits solo R j r (Z.of_nat (size (list_to_set Ll : gset Z))) cap ->
  Log.lh_n (Log.lg s) + foldr Z.add 0 R < Log.lg_size (Log.lg s) - 1 ->
  Log.lg_start (Log.lg s) = start -> Log.lg_size (Log.lg s) = len -> Log.log_write i s = Ret tt s' ->
  (if decide (n ∈ Ll) then Txn.txn s' V0 D0 Ll H R w else Txn.txn s' V0 D0 (Ll ++ [n]) H (<[j := r - 1]> R) w) ->
  log_sees solo start len s' V D H ({[n]} ∪ list_to_set Ll) cap.
Proof.
  intros Ht Hvw Hj Hcr Hsp Hs Hl Hrun Ht'. destruct (log_write_keeps _ _ _ Hrun) as [K1 K2].
  pose proof (Log.logged_length _ (Txn.tn_txn _ _ _ _ _ _ _ Ht)) as N1. rewrite (Txn.tn_logged _ _ _ _ _ _ _ Ht) in N1.
  destruct (decide (n ∈ Ll)) as [Hn|Hn].
  all: pose proof (Log.logged_length _ (Txn.tn_txn _ _ _ _ _ _ _ Ht')) as N2; rewrite (Txn.tn_logged _ _ _ _ _ _ _ Ht') in N2.
  - exists V0, D0, Ll, R, j, r, w. assert (E : {[n]} ∪ list_to_set Ll = list_to_set Ll :> gset Z) by set_solver. rewrite E.
    split_and!; try done; congruence.
  - exists V0, D0, (Ll ++ [n]), (<[j := r - 1]> R), j, (r - 1), w. pose proof (lookup_lt_Some _ _ _ Hj).
    split_and!; try done; try congruence.
    + rewrite size_union, size_singleton by set_solver. unfold credits in *. destruct solo.
      * destruct Hcr as [(-> & -> & ->)|(-> & _)]; [left; split_and!; try done; lia|done].
      * destruct Hcr as [_ ->]. split; [left; by rewrite list_lookup_insert_eq|lia].
    + rewrite list_to_set_app_L. set_solver.
    + rewrite (Txn.sum_insert R j r) by done. rewrite length_app in N2. simpl in N2. lia.
Qed.

(** A block that is in the transaction already. *)
Lemma absorbed_sees solo start len s V D V0 D0 Ll R w H i n cap r : Txn.txn s V0 D0 Ll H R w -> views start len V D V0 D0 -> (i, n) ∈ H -> n ∈ Ll ->
  credits solo R 0 r (Z.of_nat (size (list_to_set Ll : gset Z))) cap -> r = 0 ->
  Log.lh_n (Log.lg s) + foldr Z.add 0 R < Log.lg_size (Log.lg s) - 1 -> Log.lg_start (Log.lg s) = start -> Log.lg_size (Log.lg s) = len ->
  exists s', Log.log_write i s = Ret tt s' /\ log_sees solo start len s' V D H ({[n]} ∪ list_to_set Ll) cap.
Proof.
  intros Ht Hvw Hi Hn Hcr -> Hsp Hs Hl. pose proof (Txn.credit_sum R (Txn.tn_credit _ _ _ _ _ _ _ Ht)) as Hsum.
  destruct R as [|r0 R]; [rewrite (Txn.tn_idle _ _ _ _ _ _ _ Ht eq_refl) in Hn; by apply not_elem_of_nil in Hn|].
  destruct (Txn.log_write_spec _ _ _ _ _ _ _ i n 0%nat r0 Ht Hi eq_refl) as (s' & Hrun & Ht'); [done|lia|]. rewrite decide_True in Ht' by done.
  exists s'. split; [done|]. destruct (log_write_keeps _ _ _ Hrun) as [K1 K2]. exists V0, D0, Ll, (r0 :: R), 0%nat, 0, w.
  assert (E : {[n]} ∪ list_to_set Ll = list_to_set Ll :> gset Z) by set_solver. rewrite E.
  pose proof (Log.logged_length _ (Txn.tn_txn _ _ _ _ _ _ _ Ht)) as N1. rewrite (Txn.tn_logged _ _ _ _ _ _ _ Ht) in N1.
  pose proof (Log.logged_length _ (Txn.tn_txn _ _ _ _ _ _ _ Ht')) as N2. rewrite (Txn.tn_logged _ _ _ _ _ _ _ Ht') in N2.
  split_and!; try done; congruence.
Qed.

#[export, refine] Instance log_store (solo : bool) (start len : Z) : Store lstate := {|
  bread dev n := Log.cache (Blk.bread dev n);
  bdata i := Log.cache (Blk.bdata i);
  set_bdata i d := Log.cache (Blk.set_bdata i d);
  log_write i := Log.log_write i;
  brelse i := Log.cache (Blk.brelse i);
  initlog dev start size := Log.initlog dev start size;
  okb := outside start len;
  sees := log_sees solo start len |}.
Proof.
  - intros s V D H L cap n (V0 & D0 & Ll & R & j & r & w & Ht & [Hv Hd Hlo] & _ & -> & _) HH HL.
    destruct (decide (outside start len n)) as [Hn|Hn]; [|by apply Hlo]. rewrite Hv, Hd by done.
    eapply Blk.rep_clean; [apply (Txn.tn_rep _ _ _ _ _ _ _ Ht)|done|]. apply Txn.pinv_pins_out. set_solver.
  - intros s V D H L cap n (V0 & D0 & Ll & R & j & r & w & Ht & Hvw & Hcr & -> & Hsp & Hs & Hl) Hno HH Hb.
    destruct (Blk.bread_ok _ _ _ _ _ _ n (Txn.tn_rep _ _ _ _ _ _ _ Ht) HH) as (i & c & Hrun & Hrep).
    + intros k m _. destruct (decide (m ∈ Ll)); [rewrite Txn.pinv_pins_in|rewrite Txn.pinv_pins_out]; done.
    + destruct Hb as [Hb|Hb]; [left; by rewrite Txn.dom_pins|right]. pose proof (busy_size H Ll). lia.
    + eexists i, _. split; [by apply Log.cache_run|]. exists V0, D0, Ll, R, j, r, w. split_and!; try done.
      eapply rep_txn; [done|exact Hrep|]. intros k m [[= -> ->]|Hk]%elem_of_cons; [|by eapply (Txn.tn_held _ _ _ _ _ _ _ Ht)].
      destruct Hno as [Hn Hno]. split; [done|]. by rewrite Hs, Hl.
  - intros s V D H L cap i n (V0 & D0 & Ll & R & j & r & w & Ht & Hvw & _ & _ & _ & Hs & Hl) Hi.
    pose proof (Blk.bdata_ok _ _ _ _ _ _ i n (Txn.tn_rep _ _ _ _ _ _ _ Ht) Hi) as Hrun. rewrite (Log.cache_run _ s _ _ Hrun).
    rewrite (vw_view _ _ _ _ _ _ Hvw) by (by eapply held_outside). by destruct s.
  - intros s V D H L cap i n d (V0 & D0 & Ll & R & j & r & w & Ht & [Hv Hd Hlo] & Hcr & -> & Hsp & Hs & Hl) Hi.
    destruct (Blk.set_bdata_ok _ _ _ _ _ _ i n d (Txn.tn_rep _ _ _ _ _ _ _ Ht) Hi) as (c & Hrun & Hrep).
    pose proof (held_outside start len _ _ _ _ _ _ _ _ _ Ht Hs Hl Hi) as Hno.
    eexists. split; [by apply Log.cache_run|]. exists (<[n := d]> V0), D0, Ll, R, j, r, w. split_and!; try done.
    + eapply rep_txn; [done|exact Hrep|apply (Txn.tn_held _ _ _ _ _ _ _ Ht)].
    + split; [|done|].
      * intros m Hm. destruct (decide (m = n)) as [->|]; [by rewrite !fn_lookup_insert|]. rewrite !fn_lookup_insert_ne by done. by apply Hv.
      * intros m Hm. rewrite fn_lookup_insert_ne; [by apply Hlo|]. by intros <-.
  - intros s V D H L cap i n (V0 & D0 & Ll & R & j & r & w & Ht & Hvw & Hcr & -> & Hsp & Hs & Hl) Hi Hcap.
    pose proof (Txn.credit_sum R (Txn.tn_credit _ _ _ _ _ _ _ Ht)) as Hsum. destruct (decide (r = 0 /\ R !! j <> Some 0)) as [[-> Hj0]|Hj].
    + assert (Hn : n ∈ Ll).
      { destruct Hcap as [Hn%elem_of_list_to_set|Hlt]; [done|]. unfold credits in Hcr. destruct solo; [|destruct Hcr as [_ ->]; lia].
        destruct Hcr as [(-> & -> & ->)|(_ & _ & ->)]; [done|lia]. }
      eapply absorbed_sees; try done. unfold credits in *. destruct solo; [|destruct Hcr as [_ ->]; split; [by right|done]].
      destruct Hcr as [(-> & -> & ->)|?]; [done|by right].
    + assert (Hj' : R !! j = Some r) by (destruct (credits_any _ _ _ _ _ _ Hcr) as [?| ->]; [done|]; destruct (decide (R !! j = Some 0)); [done|tauto]).
      destruct (Txn.log_write_spec _ _ _ _ _ _ _ i n j r Ht Hi Hj') as (s' & Hrun & Ht').
      * intros Hn. destruct Hcap as [?|?]; [set_solver|]. unfold credits in Hcr. destruct solo; [|destruct Hcr as [_ ->]; lia].
        destruct Hcr as [(-> & -> & ->)|(-> & _)]; [lia|done].
      * lia.
      * exists s'. split; [done|]. by eapply logged_sees.
  - intros s V D H L cap i n (V0 & D0 & Ll & R & j & r & w & Ht & Hvw & Hcr & -> & Hsp & Hs & Hl) Hcl.
    pose proof (held_outside start len _ _ _ _ _ _ _ i n Ht Hs Hl ltac:(by left)) as Hno.
    destruct (Blk.brelse_ok _ _ _ _ _ _ i n (Txn.tn_rep _ _ _ _ _ _ _ Ht)) as (c & Hrun & Hrep).
    + intros Hp. rewrite <- (vw_view _ _ _ _ _ _ Hvw n Hno), <- (vw_disk _ _ _ _ _ _ Hvw n Hno). apply Hcl.
      intros Hn. rewrite Txn.pinv_pins_in in Hp by set_solver. done.
    + eexists. split; [by apply Log.cache_run|]. exists V0, D0, Ll, R, j, r, w. split_and!; try done.
      eapply rep_txn; [done|exact Hrep|]. intros k m Hk. apply (Txn.tn_held _ _ _ _ _ _ _ Ht k). by right.
Defined.

(** [begin_op] would sleep for ever if it found no room, as nobody else runs. *)
Definition log_begin : M lstate unit := let* b := Log.begin_op in if b then ret tt else nofuel.

#[export, refine] Instance log_txn (start len : Z) (Hlen : Log.MAXOPBLOCKS < len - 1) : TxnStore lstate (H := log_store true start len) := {|
  begin_op := log_begin;
  end_op := Log.end_op |}.
Proof.
  - unfold quiet. cbn [sees log_store]. intros s V (V0 & D0 & Ll & R & j & r & w & Ht & Hvw & Hcr & HL & Hsp & Hs & Hl). unfold credits in Hcr. rewrite size_empty in Hcr.
    destruct Hcr as [(-> & _ & Hc)|(-> & -> & _)].
    { pose proof (Txn.tn_credit _ _ _ _ _ _ _ Ht) as Hr. rewrite Forall_singleton in Hr. simpl in *. lia. }
    assert (Ll = []) as -> by (by apply (Txn.tn_idle _ _ _ _ _ _ _ Ht)). pose proof (Log.logged_length _ (Txn.tn_txn _ _ _ _ _ _ _ Ht)) as Hn.
    rewrite (Txn.tn_logged _ _ _ _ _ _ _ Ht) in Hn. simpl in Hn.
    destruct (Txn.begin_spec _ _ _ _ _ _ _ Ht) as (b & s' & Hrun & Hb & Hiff). assert (b = true) as ->.
    { apply Hiff. rewrite <- Hn. done. }
    exists s'. split; [unfold log_begin; by rewrite (bind_Ret _ _ _ _ _ Hrun)|]. assert (E : Log.lg_start (Log.lg s') = start /\ Log.lg_size (Log.lg s') = len /\ Log.lh_n (Log.lg s') = Log.lh_n (Log.lg s)).
    { unfold Log.begin_op, bind, gets in Hrun. destruct (negb _); [done|]. destruct (_ <? _); [done|]. injection Hrun as <-. by cbn. }
    destruct E as (E1 & E2 & E3). exists V0, D0, [], ([] ++ [Log.MAXOPBLOCKS]), 0%nat, Log.MAXOPBLOCKS, w. split_and!; try done.
    + by left.
    + cbn [foldr app]. lia.
  - unfold quiet. cbn [sees log_store]. intros s V D L cap (V0 & D0 & Ll & R & j & r & w & Ht & Hvw & Hcr & HL & Hsp & Hs & Hl) Hcap. unfold credits in Hcr.
    destruct Hcr as [(-> & _ & _)|(_ & _ & ->)]; [|lia].
    destruct (Txn.end_last_spec _ _ _ _ _ _ Ht) as (s' & V' & w' & Hrun & Ht' & E1 & E2 & HV). exists s'. split; [done|].
    exists V', V', [], [], 0%nat, 0, w'. split_and!; try done; try congruence.
    + assert (E : forall n, outside start len n -> V n = V' n).
      { intros n Hn. rewrite (vw_view _ _ _ _ _ _ Hvw n Hn). symmetry. apply HV. unfold Log.home. rewrite Hs, Hl. exact Hn. }
      by split.
    + by right.
    + pose proof (Log.logged_length _ (Txn.tn_txn _ _ _ _ _ _ _ Ht')) as Hn. rewrite (Txn.tn_logged _ _ _ _ _ _ _ Ht') in Hn. simpl in *. rewrite E2, Hl.
      unfold Log.MAXOPBLOCKS in Hlen. lia.
Defined.

End log.

(** ** A store without a cache

    Every write is seen at once; buffers held and blocks logged are only counted. *)

Record flat := mk_flat { fl_view : Z -> block; fl_old : Z -> block; fl_held : list (nat * Z); fl_log : gset Z; fl_cap : Z }.

Definition fl_next (H : list (nat * Z)) : nat := Datatypes.S (foldr Nat.max 0%nat H.*1).
Fixpoint fl_block (H : list (nat * Z)) (i : nat) : option Z :=
  match H with [] => None | (j, n) :: H => if Nat.eqb j i then Some n else fl_block H i end.
Fixpoint fl_drop (H : list (nat * Z)) (i : nat) : list (nat * Z) :=
  match H with [] => [] | (j, n) :: H => if Nat.eqb j i then H else (j, n) :: fl_drop H i end.

Lemma fl_next_fresh H : fl_next H ∉ H.*1.
Proof.
  assert (A : forall i, i ∈ H.*1 -> (i <= foldr Nat.max 0 H.*1)%nat).
  { induction (H.*1) as [|a l IH]; intros i Hi; [by apply not_elem_of_nil in Hi|]. apply elem_of_cons in Hi as [->|Hi]; simpl; [lia|]. specialize (IH i Hi). lia. }
  intros Hi%A. unfold fl_next in Hi. lia.
Qed.

Lemma fl_block_in H i n : NoDup H.*1 -> (i, n) ∈ H -> fl_block H i = Some n.
Proof.
  induction H as [|[j m] H IH]; intros Hd Hi; [by apply not_elem_of_nil in Hi|]. apply NoDup_cons in Hd as [Hj Hd]. cbn [fl_block].
  apply elem_of_cons in Hi as [[= -> ->]|Hi]; [by rewrite Nat.eqb_refl|]. destruct (Nat.eqb_spec j i) as [->|]; [|by apply IH].
  destruct Hj. by apply (list_elem_of_fmap_2 fst _ (i, n)).
Qed.

#[export, refine] Instance flat_store : Store flat := {|
  bread dev n := fun s => Ret (fl_next (fl_held s)) (mk_flat (fl_view s) (fl_old s) ((fl_next (fl_held s), n) :: fl_held s) (fl_log s) (fl_cap s));
  bdata i := fun s => match fl_block (fl_held s) i with Some n => Ret (fl_view s n) s | None => Fault end;
  set_bdata i d := fun s => match fl_block (fl_held s) i with
    | Some n => Ret tt (mk_flat (<[n := d]> (fl_view s)) (fl_old s) (fl_held s) (fl_log s) (fl_cap s)) | None => Fault end;
  log_write i := fun s => match fl_block (fl_held s) i with
    | Some n => Ret tt (mk_flat (fl_view s) (fl_old s) (fl_held s) ({[n]} ∪ fl_log s) (fl_cap s)) | None => Fault end;
  brelse i := fun s => Ret tt (mk_flat (fl_view s) (fl_old s) (fl_drop (fl_held s) i) (fl_log s) (fl_cap s));
  initlog dev start size := ret tt;
  okb n := True;
  sees s V D H L cap := s = mk_flat V D H L cap /\ NoDup H.*1 /\ forall n, n ∉ H.*2 -> n ∉ L -> V n = D n |}.
Proof.
  - intros s V D H L cap n (_ & _ & Hc). apply Hc.
  - intros s V D H L cap n (-> & Hd & Hc) _ Hn _. eexists _, _. split; [reflexivity|]. split_and!; [done| |].
    + cbn. apply NoDup_cons. split; [apply fl_next_fresh|done].
    + intros m Hm. apply Hc. set_solver.
  - intros s V D H L cap i n (-> & Hd & Hc) Hi. cbn. by rewrite (fl_block_in H i n).
  - intros s V D H L cap i n d (-> & Hd & Hc) Hi. cbn. rewrite (fl_block_in H i n) by done. eexists. split; [reflexivity|].
    split_and!; [done|done|]. intros m Hm HL. rewrite fn_lookup_insert_ne; [by apply Hc|]. intros <-. apply Hm. by apply (list_elem_of_fmap_2 snd _ (i, n)).
  - intros s V D H L cap i n (-> & Hd & Hc) Hi _. cbn. rewrite (fl_block_in H i n) by done. eexists. split; [reflexivity|].
    split_and!; [done|done|]. set_solver.
  - intros s V D H L cap i n (-> & Hd & Hc) Hn. eexists. split; [reflexivity|]. cbn [fl_held fl_drop]. rewrite Nat.eqb_refl. apply NoDup_cons in Hd as [_ Hd].
    split_and!; [done|done|]. intros m Hm HL. destruct (decide (m = n)) as [->|]; [by apply Hn|]. apply Hc; set_solver.
Defined.

#[export, refine] Instance flat_txn : TxnStore flat := {|
  begin_op := fun s => Ret tt (mk_flat (fl_view s) (fl_view s) (fl_held s) ∅ Log.MAXOPBLOCKS);
  end_op := fun s => Ret tt (mk_flat (fl_view s) (fl_view s) (fl_held s) ∅ (-1)) |}.
Proof.
  - intros s V (-> & Hd & Hc). eexists. split; [reflexivity|]. by split_and!.
  - intros s V D L cap (-> & Hd & Hc) _. eexists. split; [reflexivity|]. by split_and!.
Defined.

End Store.
