(* ===== verification/Fs.v ===== *)
(** The file system, [src/kernel/filesystem/fs.c]: blocks, inodes, files,
    directories and path names, on the disk of [Store.v].

    A [struct inode *] is an index into the inode cache. Kernel memory, where
    names, paths and the local directory entry of the directory functions lie,
    is [kmem]; user memory is behind the interface of [Umem.v]. The functions
    run under the locks the source takes, one system call at a time. *)

From S2P Require Import Prelude Mem Kstring Umem Store.
Import Kstring Umem Store.

Module Fs.

Definition FSMAGIC : Z := 270544960.
Definition ROOTINO : Z := 1.
Definition NDIRECT : Z := 11.
Definition NADDR_PER_BLOCK : Z := BSIZE / 4.
Definition NINDIRECT : Z := BSIZE / 4.
Definition NDINDIRECT : Z := (BSIZE / 4) * (BSIZE / 4).
Definition MAXFILE : Z := NDIRECT + NINDIRECT + NDINDIRECT.
Definition IPB : Z := BSIZE / 64.
Definition BPB : Z := BSIZE * 8.
Definition DIRSIZ : Z := 14.
Definition NINODE : nat := 50.
Definition MAXPATH : nat := 128.
Definition T_DIR : Z := 1.
Definition T_FILE : Z := 2.
Definition T_DEVICE : Z := 3.
Definition T_SYMLINK : Z := 4.

Record superblock := mk_sb {
  sb_magic : Z; sb_size : Z; sb_nblocks : Z; sb_ninodes : Z; sb_nlog : Z; sb_logstart : Z; sb_inodestart : Z; sb_bmapstart : Z }.

Definition IBLOCK (i : Z) (sb : superblock) : Z := u32 (i / IPB + sb_inodestart sb).
Definition BBLOCK (b : Z) (sb : superblock) : Z := u32 (b / BPB + sb_bmapstart sb).

(** The in-memory copy of an inode. *)
Record inode := mk_inode {
  i_dev : Z; i_inum : Z; i_ref : Z; i_locked : bool; i_valid : Z;
  i_type : Z; i_mode : Z; i_major : Z; i_minor : Z; i_nlink : Z; i_size : Z; i_addrs : list Z }.

Definition with_ref (r : Z) (ip : inode) : inode :=
  mk_inode (i_dev ip) (i_inum ip) r (i_locked ip) (i_valid ip) (i_type ip) (i_mode ip) (i_major ip) (i_minor ip) (i_nlink ip) (i_size ip) (i_addrs ip).
Definition with_lock (b : bool) (ip : inode) : inode :=
  mk_inode (i_dev ip) (i_inum ip) (i_ref ip) b (i_valid ip) (i_type ip) (i_mode ip) (i_major ip) (i_minor ip) (i_nlink ip) (i_size ip) (i_addrs ip).
Definition with_valid (v : Z) (ip : inode) : inode :=
  mk_inode (i_dev ip) (i_inum ip) (i_ref ip) (i_locked ip) v (i_type ip) (i_mode ip) (i_major ip) (i_minor ip) (i_nlink ip) (i_size ip) (i_addrs ip).
Definition with_type (t : Z) (ip : inode) : inode :=
  mk_inode (i_dev ip) (i_inum ip) (i_ref ip) (i_locked ip) (i_valid ip) t (i_mode ip) (i_major ip) (i_minor ip) (i_nlink ip) (i_size ip) (i_addrs ip).
Definition with_size (n : Z) (ip : inode) : inode :=
  mk_inode (i_dev ip) (i_inum ip) (i_ref ip) (i_locked ip) (i_valid ip) (i_type ip) (i_mode ip) (i_major ip) (i_minor ip) (i_nlink ip) n (i_addrs ip).
Definition with_addr (k a : Z) (ip : inode) : inode :=
  mk_inode (i_dev ip) (i_inum ip) (i_ref ip) (i_locked ip) (i_valid ip) (i_type ip) (i_mode ip) (i_major ip) (i_minor ip) (i_nlink ip) (i_size ip)
    (aset (i_addrs ip) k a).
Definition with_nlink (n : Z) (ip : inode) : inode :=
  mk_inode (i_dev ip) (i_inum ip) (i_ref ip) (i_locked ip) (i_valid ip) (i_type ip) (i_mode ip) (i_major ip) (i_minor ip) n (i_size ip) (i_addrs ip).
Definition with_device (major minor : Z) (ip : inode) : inode :=
  mk_inode (i_dev ip) (i_inum ip) (i_ref ip) (i_locked ip) (i_valid ip) (i_type ip) (i_mode ip) major minor (i_nlink ip) (i_size ip) (i_addrs ip).
Definition with_mode (m : Z) (ip : inode) : inode :=
  mk_inode (i_dev ip) (i_inum ip) (i_ref ip) (i_locked ip) (i_valid ip) (i_type ip) m (i_major ip) (i_minor ip) (i_nlink ip) (i_size ip) (i_addrs ip).

(** ** [struct dinode] in a block: mode, type, major, minor, nlink, size and the
    thirteen addresses, 64 bytes *)

Definition dinode_at (inum : Z) : Z := (inum mod IPB) * 64.
Definition addrs_at (d : block) (off : Z) : list Z := (fun k => load32 d (off + 12 + 4 * k)) <$> seqZ 0 13.
Fixpoint put_addrs (d : block) (off : Z) (l : list Z) : block :=
  match l with
  | [] => d
  | a :: l => put_addrs (store32 d off a) (off + 4) l
  end.

(** The fields [ilock] copies out of a block, and [iupdate] into it. *)
Definition from_disk (d : block) (off : Z) (ip : inode) : inode :=
  mk_inode (i_dev ip) (i_inum ip) (i_ref ip) (i_locked ip) (i_valid ip) (d (off + 1)) (d off)
    (s16 (load16 d (off + 2))) (s16 (load16 d (off + 4))) (s16 (load16 d (off + 6))) (load32 d (off + 8)) (addrs_at d off).
Definition to_disk (ip : inode) (d : block) (off : Z) : block :=
  let d := upd d (off + 1) (i_type ip) in
  let d := store16 d (off + 2) (i_major ip) in
  let d := store16 d (off + 4) (i_minor ip) in
  let d := store16 d (off + 6) (i_nlink ip) in
  let d := store32 d (off + 8) (i_size ip) in
  let d := upd d off (i_mode ip) in
  put_addrs d (off + 12) (i_addrs ip).

(** [a[k]] of a block of addresses. *)
Definition aread (d : block) (k : Z) : Z := load32 d (4 * k).
Definition awrite (d : block) (k a : Z) : block := store32 d (4 * k) a.

Section fs.
Context {S : Type} `{Store S} {U : Type} `{UserMem U}.

Record fs := mk_fs { dsk : S; sb : superblock; icache : list inode; user : U; kmem : mem; de : Z; cwd : nat }.
Definition set_dsk (d : S) (s : fs) : fs := mk_fs d (sb s) (icache s) (user s) (kmem s) (de s) (cwd s).
Definition set_sb (x : superblock) (s : fs) : fs := mk_fs (dsk s) x (icache s) (user s) (kmem s) (de s) (cwd s).
Definition set_icache (x : list inode) (s : fs) : fs := mk_fs (dsk s) (sb s) x (user s) (kmem s) (de s) (cwd s).
Definition set_user (u : U) (s : fs) : fs := mk_fs (dsk s) (sb s) (icache s) u (kmem s) (de s) (cwd s).
Definition set_kmem (m : mem) (s : fs) : fs := mk_fs (dsk s) (sb s) (icache s) (user s) m (de s) (cwd s).

Definition disk {A} (m : M S A) : M fs A := zoom dsk set_dsk m.
Definition geti (ip : nat) : M fs inode := fun s => deref (icache s !! ip) s.
Definition modi (ip : nat) (f : inode -> inode) : M fs unit := fun s =>
  match icache s !! ip with Some x => Ret tt (set_icache (<[ip := f x]> (icache s)) s) | None => Fault end.

(** ** Blocks *)

Definition readsb (dev : Z) : M fs unit :=
  let* bp := disk (bread dev 1) in
  let* d := disk (bdata bp) in
  modify (set_sb (mk_sb (load32 d 0) (load32 d 4) (load32 d 8) (load32 d 12) (load32 d 16) (load32 d 20) (load32 d 24) (load32 d 28))) ;;;
  disk (brelse bp).

Definition fsinit (dev : Z) : M fs unit :=
  readsb dev ;;;
  let* sb := gets sb in
  if negb (sb_magic sb =? FSMAGIC) then panic "invalid file system"
  else disk (initlog dev (sb_logstart sb) (sb_nlog sb)).

Definition bzero (dev bno : Z) : M fs unit :=
  let* bp := disk (bread dev bno) in
  let* d := disk (bdata bp) in
  disk (set_bdata bp (memset d 0 0 BSIZE)) ;;;
  disk (log_write bp) ;;;
  disk (brelse bp).

(** The bit of block [b + bi] in its bitmap block. *)
Definition bit_mask (bi : Z) : Z := Z.shiftl 1 (bi mod 8).
Fixpoint find_bit (n : nat) (d : block) (b bi size : Z) : option Z :=
  match n with
  | O => None
  | Datatypes.S n =>
      if b + bi <? size then
        if Z.land (d (bi / 8)) (bit_mask bi) =? 0 then Some bi else find_bit n d b (bi + 1) size
      else None
  end.

Fixpoint balloc_from (n : nat) (dev b : Z) : M fs Z :=
  match n with
  | O => panic "balloc: out of blocks"
  | Datatypes.S n =>
      let* sb := gets sb in
      let* bp := disk (bread dev (BBLOCK b sb)) in
      let* d := disk (bdata bp) in
      match find_bit (Z.to_nat BPB) d b 0 (sb_size sb) with
      | Some bi =>
          disk (set_bdata bp (upd d (bi / 8) (Z.lor (d (bi / 8)) (bit_mask bi)))) ;;;
          disk (log_write bp) ;;;
          disk (brelse bp) ;;;
          bzero dev (b + bi) ;;;
          ret (b + bi)
      | None =>
          disk (brelse bp) ;;;
          balloc_from n dev (b + BPB)
      end
  end.
(** [for(b = 0; b < sb.size; b += BPB)]: one round for each bitmap block. *)
Definition balloc (dev : Z) : M fs Z :=
  let* sb := gets sb in
  balloc_from (Z.to_nat ((sb_size sb + BPB - 1) / BPB)) dev 0.

Definition bfree (dev b : Z) : M fs unit :=
  let* sb := gets sb in
  let* bp := disk (bread dev (BBLOCK b sb)) in
  let bi := b mod BPB in
  let* d := disk (bdata bp) in
  if Z.land (d (bi / 8)) (bit_mask bi) =? 0 then panic "freeing free block"
  else
    disk (set_bdata bp (upd d (bi / 8) (Z.land (d (bi / 8)) (Z.lnot (bit_mask bi))))) ;;;
    disk (log_write bp) ;;;
    disk (brelse bp).

(** ** Inodes *)

Definition iinit : M fs unit := for_loop NINODE 0 (fun i => modi (Z.to_nat i) (with_lock false)).

(** The search of [iget]: a cached inode, else the first entry not in use. *)
Fixpoint iget_scan (l : list inode) (k : nat) (dev inum : Z) (empty : option nat) : option nat * option nat :=
  match l with
  | [] => (None, empty)
  | ip :: l =>
      if (0 <? i_ref ip) && (i_dev ip =? dev) && (i_inum ip =? inum) then (Some k, empty)
      else iget_scan l (Datatypes.S k) dev inum
        (match empty with None => if i_ref ip =? 0 then Some k else None | Some e => Some e end)
  end.

Definition iget (dev inum : Z) : M fs nat :=
  let* l := gets icache in
  match iget_scan l 0 dev inum None with
  | (Some ip, _) => modi ip (fun x => with_ref (s32 (i_ref x + 1)) x) ;;; ret ip
  | (None, None) => panic "iget: no inodes"
  | (None, Some ip) =>
      modi ip (fun x => mk_inode dev inum 1 (i_locked x) 0 (i_type x) (i_mode x) (i_major x) (i_minor x) (i_nlink x) (i_size x) (i_addrs x)) ;;;
      ret ip
  end.

Definition idup (ip : nat) : M fs nat := modi ip (fun x => with_ref (s32 (i_ref x + 1)) x) ;;; ret ip.

Fixpoint ialloc_from (n : nat) (dev inum type : Z) : M fs nat :=
  match n with
  | O => panic "ialloc: no inodes"
  | Datatypes.S n =>
      let* sb := gets sb in
      let* bp := disk (bread dev (IBLOCK inum sb)) in
      let* d := disk (bdata bp) in
      let dip := dinode_at inum in
      if d (dip + 1) =? 0 then
        disk (set_bdata bp (upd (upd (memset d dip 0 64) (dip + 1) type) dip 3)) ;;;
        disk (log_write bp) ;;;
        disk (brelse bp) ;;;
        iget dev inum
      else
        disk (brelse bp) ;;;
        ialloc_from n dev (inum + 1) type
  end.
Definition ialloc (dev type : Z) : M fs nat :=
  let* sb := gets sb in
  ialloc_from (Z.to_nat (sb_ninodes sb - 1)) dev 1 type.

Definition iupdate (ip : nat) : M fs unit :=
  let* x := geti ip in
  let* sb := gets sb in
  let* bp := disk (bread (i_dev x) (IBLOCK (i_inum x) sb)) in
  let* d := disk (bdata bp) in
  disk (set_bdata bp (to_disk x d (dinode_at (i_inum x)))) ;;;
  disk (log_write bp) ;;;
  disk (brelse bp).

(** A process that finds the lock taken waits for ever: nobody else runs. *)
Definition ilock (p : option nat) : M fs unit :=
  match p with
  | None => panic "ilock"
  | Some ip =>
      let* x := geti ip in
      if i_ref x <? 1 then panic "ilock"
      else if i_locked x then nofuel
      else
        modi ip (with_lock true) ;;;
        if i_valid x =? 0 then
          let* sb := gets sb in
          let* bp := disk (bread (i_dev x) (IBLOCK (i_inum x) sb)) in
          let* d := disk (bdata bp) in
          modi ip (from_disk d (dinode_at (i_inum x))) ;;;
          disk (brelse bp) ;;;
          modi ip (with_valid 1) ;;;
          let* x := geti ip in
          if i_type x =? 0 then panic "ilock: no type" else ret tt
        else ret tt
  end.

Definition iunlock (p : option nat) : M fs unit :=
  match p with
  | None => panic "iunlock"
  | Some ip =>
      let* x := geti ip in
      if negb (i_locked x) || (i_ref x <? 1) then panic "iunlock" else modi ip (with_lock false)
  end.

(** ** Contents *)

(** [addrs[k]], allocated if it is 0. *)
Definition addr_of (ip : nat) (k : Z) : M fs Z :=
  let* x := geti ip in
  let* addr := deref (aget (i_addrs x) k) in
  if addr =? 0 then
    let* addr := balloc (i_dev x) in
    modi ip (with_addr k addr) ;;;
    ret addr
  else ret addr.
(** [a[k]] of the block of addresses [blk], allocated if it is 0. *)
Definition entry_of (dev blk k : Z) : M fs Z :=
  let* bp := disk (bread dev blk) in
  let* d := disk (bdata bp) in
  let* addr :=
    (if aread d k =? 0 then
       let* addr := balloc dev in
       let* d := disk (bdata bp) in
       disk (set_bdata bp (awrite d k addr)) ;;;
       disk (log_write bp) ;;;
       ret addr
     else ret (aread d k)) in
  disk (brelse bp) ;;;
  ret addr.

Definition bmap (ip : nat) (bn : Z) : M fs Z :=
  let* x := geti ip in
  if bn <? NDIRECT then addr_of ip bn
  else
    let bn := bn - NDIRECT in
    if bn <? NINDIRECT then
      let* addr := addr_of ip NDIRECT in
      entry_of (i_dev x) addr bn
    else
      let bn := bn - NINDIRECT in
      if bn <? NDINDIRECT then
        let* addr := addr_of ip (NDIRECT + 1) in
        let* addr := entry_of (i_dev x) addr (bn / NADDR_PER_BLOCK) in
        entry_of (i_dev x) addr (bn mod NADDR_PER_BLOCK)
      else panic "bmap: out of range".

(** [for(j = 0; j < n; j++) if(a[j]) each(a[j]);] with [a] the data of [bp]. *)
Definition free_entries (bp : nat) (n : nat) (each : Z -> M fs unit) : M fs unit :=
  for_loop n 0 (fun j =>
    let* d := disk (bdata bp) in
    when (negb (aread d j =? 0)) (each (aread d j))).
Definition free_indirect (dev blk : Z) : M fs unit :=
  let* bp := disk (bread dev blk) in
  free_entries bp (Z.to_nat NINDIRECT) (bfree dev) ;;;
  disk (brelse bp) ;;;
  bfree dev blk.
Definition free_double (dev blk : Z) : M fs unit :=
  let* bp := disk (bread dev blk) in
  free_entries bp (Z.to_nat NADDR_PER_BLOCK) (free_indirect dev) ;;;
  disk (brelse bp) ;;;
  bfree dev blk.

Definition trunc_addr (ip : nat) (k : Z) (free : Z -> Z -> M fs unit) : M fs unit :=
  let* x := geti ip in
  let* addr := deref (aget (i_addrs x) k) in
  when (negb (addr =? 0)) (free (i_dev x) addr ;;; modi ip (with_addr k 0)).

Definition itrunc (ip : nat) : M fs unit :=
  for_loop (Z.to_nat NDIRECT) 0 (fun i => trunc_addr ip i bfree) ;;;
  trunc_addr ip NDIRECT free_indirect ;;;
  trunc_addr ip (NDIRECT + 1) free_double ;;;
  modi ip (with_size 0) ;;;
  iupdate ip.

Definition iput (ip : nat) : M fs unit :=
  let* x := geti ip in
  (if (i_ref x =? 1) && negb (i_valid x =? 0) && (i_nlink x =? 0) then
     if i_locked x then nofuel
     else
       modi ip (with_lock true) ;;;
       itrunc ip ;;;
       modi ip (with_type 0) ;;;
       iupdate ip ;;;
       modi ip (with_valid 0) ;;;
       modi ip (with_lock false)
   else ret tt) ;;;
  modi ip (fun x => with_ref (s32 (i_ref x - 1)) x).

Definition iunlockput (ip : nat) : M fs unit := iunlock (Some ip) ;;; iput ip.

(** [stati]: the fields of [struct stat]. *)
Record stat := mk_stat { st_dev : Z; st_ino : Z; st_type : Z; st_mode : Z; st_nlink : Z; st_size : Z }.
Definition stati (ip : nat) : M fs stat :=
  let* x := geti ip in
  ret (mk_stat (s32 (i_dev x)) (i_inum x) (i_type x) (i_mode x) (i_nlink x) (i_size x)).

(** Bytes to and from user memory or kernel memory. *)
Definition either_copyout (user_dst dst : Z) (bs : list Z) : M fs Z :=
  if negb (user_dst =? 0) then
    let* u := gets user in
    match ucopyout u dst bs with (b, u') => modify (set_user u') ;;; ret (if b then 0 else -1) end
  else modify (fun s => set_kmem (put_bytes (kmem s) dst bs) s) ;;; ret 0.
(** [either_copyin(d + off, user_src, src, n)] for the bytes [off..off+n) of [d]. *)
Definition either_copyin (d : block) (off user_src src n : Z) : M fs (block * Z) :=
  if negb (user_src =? 0) then
    let* u := gets user in
    match ucopyin u src (Mem.bytes (Z.to_nat n) d off) with (b, bs) => ret (put_bytes d off bs, if b then 0 else -1) end
  else
    let* m := gets kmem in
    ret (put_bytes d off (Mem.bytes (Z.to_nat n) m src), 0).

Definition chunk (n tot off : Z) : Z := Z.min (u32 (n - tot)) (BSIZE - off mod BSIZE).

Fixpoint readi_loop (fuel : nat) (ip : nat) (user_dst dst off n tot : Z) : M fs Z :=
  match fuel with
  | O => nofuel
  | Datatypes.S fuel =>
      if tot <? n then
        let* x := geti ip in
        let* addr := bmap ip (off / BSIZE) in
        let* bp := disk (bread (i_dev x) addr) in
        let m := chunk n tot off in
        let* d := disk (bdata bp) in
        let* r := either_copyout user_dst dst (Mem.bytes (Z.to_nat m) d (off mod BSIZE)) in
        disk (brelse bp) ;;;
        if r =? -1 then ret tot
        else readi_loop fuel ip user_dst (u64 (dst + m)) (u32 (off + m)) n (u32 (tot + m))
      else ret tot
  end.

Definition io_fuel (n : Z) : nat := Z.to_nat (n / BSIZE + 3).

Definition readi (ip : nat) (user_dst dst off n : Z) : M fs Z :=
  let* x := geti ip in
  if (i_size x <? off) || (u32 (off + n) <? off) then ret 0
  else
    let n := if i_size x <? u32 (off + n) then u32 (i_size x - off) else n in
    let* tot := readi_loop (io_fuel n) ip user_dst dst off n 0 in
    ret (s32 tot).

(** The loop of [writei] returns the offset it reached. *)
Fixpoint writei_loop (fuel : nat) (ip : nat) (user_src src off n tot : Z) : M fs Z :=
  match fuel with
  | O => nofuel
  | Datatypes.S fuel =>
      if tot <? n then
        let* x := geti ip in
        let* addr := bmap ip (off / BSIZE) in
        let* bp := disk (bread (i_dev x) addr) in
        let m := chunk n tot off in
        let* d := disk (bdata bp) in
        let* '(d', r) := either_copyin d (off mod BSIZE) user_src src m in
        disk (set_bdata bp d') ;;;
        if r =? -1 then disk (brelse bp) ;;; ret off
        else
          disk (log_write bp) ;;;
          disk (brelse bp) ;;;
          writei_loop fuel ip user_src (u64 (src + m)) (u32 (off + m)) n (u32 (tot + m))
      else ret off
  end.

Definition writei (ip : nat) (user_src src off n : Z) : M fs Z :=
  let* x := geti ip in
  if (i_size x <? off) || (u32 (off + n) <? off) then ret (-1)
  else if MAXFILE * BSIZE <? u32 (off + n) then ret (-1)
  else
    let* off := writei_loop (io_fuel n) ip user_src src off n 0 in
    when (0 <? n)
      (let* x := geti ip in
       when (i_size x <? off) (modi ip (with_size off)) ;;;
       iupdate ip) ;;;
    ret (s32 n).

(** ** Directories *)

(** The local [struct dirent de]: its [inum], and its [name] at offset 2. *)
Definition de_inum : M fs Z := gets (fun s => load16 (kmem s) (de s)).
Definition namecmp (p q : Z) : M fs Z := gets (fun s => strncmp (kmem s) p q DIRSIZ).

(** An entry with its offset. *)
Fixpoint dirlookup_loop (fuel : nat) (dp : nat) (name off : Z) : M fs (option (nat * Z)) :=
  match fuel with
  | O => nofuel
  | Datatypes.S fuel =>
      let* x := geti dp in
      if off <? i_size x then
        let* de := gets de in
        let* r := readi dp 0 de off 16 in
        if negb (r =? 16) then panic "dirlookup read"
        else
          let* inum := de_inum in
          if inum =? 0 then dirlookup_loop fuel dp name (u32 (off + 16))
          else
            let* c := namecmp name (de + 2) in
            if c =? 0 then let* ip := iget (i_dev x) inum in ret (Some (ip, off))
            else dirlookup_loop fuel dp name (u32 (off + 16))
      else ret None
  end.

Definition dir_fuel (size : Z) : nat := Z.to_nat (size / 16 + 2).

Definition dirlookup (dp : nat) (name : Z) : M fs (option (nat * Z)) :=
  let* x := geti dp in
  if negb (i_type x =? T_DIR) then panic "dirlookup not DIR"
  else dirlookup_loop (dir_fuel (i_size x)) dp name 0.

(** The offset of the first free entry, or the end. *)
Fixpoint dirlink_slot (fuel : nat) (dp : nat) (off : Z) : M fs Z :=
  match fuel with
  | O => nofuel
  | Datatypes.S fuel =>
      let* x := geti dp in
      if off <? i_size x then
        let* de := gets de in
        let* r := readi dp 0 de off 16 in
        if negb (r =? 16) then panic "dirlink read"
        else
          let* inum := de_inum in
          if inum =? 0 then ret off else dirlink_slot fuel dp (off + 16)
      else ret off
  end.

Definition dirlink (dp : nat) (name inum : Z) : M fs Z :=
  let* r := dirlookup dp name in
  match r with
  | Some (ip, _) => iput ip ;;; ret (-1)
  | None =>
      let* x := geti dp in
      let* off := dirlink_slot (dir_fuel (i_size x)) dp 0 in
      let* de := gets de in
      modify (fun s => set_kmem (strncpy (kmem s) (de + 2) name DIRSIZ) s) ;;;
      modify (fun s => set_kmem (store16 (kmem s) de inum) s) ;;;
      let* r := writei dp 0 de off 16 in
      if negb (r =? 16) then panic "dirlink" else ret 0
  end.

(** ** Paths *)

Definition rd (a : Z) : M fs Z := gets (fun s => kmem s a).
(** The loops that pass slashes, and that pass a name. *)
Fixpoint skip_slashes (fuel : nat) (path : Z) : M fs Z :=
  match fuel with
  | O => nofuel
  | Datatypes.S fuel => let* c := rd path in if c =? 47 then skip_slashes fuel (path + 1) else ret path
  end.
Fixpoint skip_name (fuel : nat) (path : Z) : M fs Z :=
  match fuel with
  | O => nofuel
  | Datatypes.S fuel => let* c := rd path in if negb (c =? 47) && negb (c =? 0) then skip_name fuel (path + 1) else ret path
  end.

Definition skipelem (path name : Z) : M fs (option Z) :=
  let* s := skip_slashes (Datatypes.S MAXPATH) path in
  let* c := rd s in
  if c =? 0 then ret None
  else
    let* path := skip_name (Datatypes.S MAXPATH) s in
    let len := path - s in
    (if DIRSIZ <=? len then modify (fun st => set_kmem (memmove (kmem st) name s DIRSIZ) st)
     else
       modify (fun st => set_kmem (memmove (kmem st) name s len) st) ;;;
       modify (fun st => set_kmem (upd (kmem st) (name + len) 0) st)) ;;;
    let* path := skip_slashes (Datatypes.S MAXPATH) path in
    ret (Some path).

Fixpoint namex_loop (fuel : nat) (ip : nat) (path : Z) (nameiparent : bool) (name : Z) : M fs (option nat) :=
  match fuel with
  | O => nofuel
  | Datatypes.S fuel =>
      let* r := skipelem path name in
      match r with
      | None => if nameiparent then iput ip ;;; ret None else ret (Some ip)
      | Some path =>
          ilock (Some ip) ;;;
          let* x := geti ip in
          if negb (i_type x =? T_DIR) then iunlockput ip ;;; ret None
          else
            let* c := rd path in
            if nameiparent && (c =? 0) then iunlock (Some ip) ;;; ret (Some ip)
            else
              let* next := dirlookup ip name in
              match next with
              | None => iunlockput ip ;;; ret None
              | Some (next, _) => iunlockput ip ;;; namex_loop fuel next path nameiparent name
              end
      end
  end.

Definition namex (path : Z) (nameiparent : bool) (name : Z) : M fs (option nat) :=
  let* c := rd path in
  let* ip := (if c =? 47 then iget ROOTDEV ROOTINO else let* d := gets cwd in idup d) in
  namex_loop (Datatypes.S (Datatypes.S MAXPATH)) ip path nameiparent name.

(** [name] is the address of the local buffer of [namei]. *)
Definition namei (path name : Z) : M fs (option nat) := namex path false name.
Definition nameiparent (path name : Z) : M fs (option nat) := namex path true name.

End fs.

End Fs.
