(* ===== verification/Fsalloc.v ===== *)
(** The block allocator of the file system: [balloc], [bfree] and [bzero] on the
    bitmap, and the accounting of what a system call may still log. *)

From stdpp Require Import functions.
From S2P Require Import Prelude Mem Kstring Umem Blk Store Fs.
Import Kstring Umem Store Fs.

Module Fsalloc.

(** ** Bits *)

Lemma land_bit v k : 0 <= k -> Z.land v (Z.shiftl 1 k) = if Z.testbit v k then 2 ^ k else 0.
Proof.
  intros Hk. rewrite Z.shiftl_1_l. apply Z.bits_inj_iff. intros j. rewrite Z.land_spec.
  destruct (decide (0 <= j)) as [Hj|Hj]; [|rewrite !Z.testbit_neg_r by lia; by rewrite andb_false_r].
  rewrite Z.pow2_bits_eqb by done. destruct (Z.eqb_spec k j) as [->|Hne].
  - rewrite andb_true_r. destruct (Z.testbit v j); [by rewrite Z.pow2_bits_true|by rewrite Z.bits_0].
  - rewrite andb_false_r. destruct (Z.testbit v k); [by rewrite Z.pow2_bits_false|by rewrite Z.bits_0].
Qed.

Lemma mask_clear v bi : (Z.land v (bit_mask bi) =? 0) = negb (Z.testbit v (bi mod 8)).
Proof.
  unfold bit_mask. pose proof (Z.mod_pos_bound bi 8). rewrite land_bit by lia.
  destruct (Z.testbit v (bi mod 8)); [|done]. apply Z.eqb_neq. pose proof (Z.pow_pos_nonneg 2 (bi mod 8)). lia.
Qed.

Lemma u8_testbit v k : 0 <= k < 8 -> Z.testbit (u8 v) k = Z.testbit v k.
Proof. intros Hk. unfold u8. apply Z.mod_pow2_bits_low; lia. Qed.

Lemma lor_mask v bi k : 0 <= k < 8 -> Z.testbit (u8 (Z.lor v (bit_mask bi))) k = (k =? bi mod 8) || Z.testbit v k.
Proof.
  intros Hk. pose proof (Z.mod_pos_bound bi 8). rewrite u8_testbit by done. unfold bit_mask.
  rewrite Z.lor_spec, Z.shiftl_1_l, Z.pow2_bits_eqb, orb_comm by lia. f_equal. apply Z.eqb_sym.
Qed.
Lemma ldiff_mask v bi k : 0 <= k < 8 -> Z.testbit (u8 (Z.land v (Z.lnot (bit_mask bi)))) k = negb (k =? bi mod 8) && Z.testbit v k.
Proof.
  intros Hk. pose proof (Z.mod_pos_bound bi 8). rewrite u8_testbit by done. unfold bit_mask.
  rewrite Z.land_spec, Z.lnot_spec, Z.shiftl_1_l, Z.pow2_bits_eqb, andb_comm by lia. do 2 f_equal. apply Z.eqb_sym.
Qed.

Lemma memset_zero (d : block) x : 0 <= x < BSIZE -> memset d 0 0 BSIZE x = 0.
Proof.
  intros Hx. rewrite memset_spec by done. destruct (Z.leb_spec 0 x), (Z.ltb_spec x (0 + BSIZE)); cbn [andb]; done || lia.
Qed.

(** ** Geometry *)

Section geom.
Context {S : Type} {ST : Store S} {U : Type} {UM : UserMem U}.
Context (x : superblock) (B : gset Z).

Definition datastart : Z := sb_bmapstart x + sb_size x / BPB + 1.

(** A super block that [mkfs] could have written. *)
Record geom : Prop := {
  gm_size : 0 < sb_size x < 2 ^ 31;
  gm_ninodes : 0 < sb_ninodes x < 2 ^ 31;
  gm_inode : 0 <= sb_inodestart x;
  gm_bmap : sb_inodestart x + sb_ninodes x / IPB + 1 <= sb_bmapstart x;
  gm_data : datastart <= sb_size x;
  gm_ok : forall n, sb_inodestart x <= n < sb_size x -> okb n }.

Definition BM : gset Z := list_to_set (seqZ (sb_bmapstart x) (sb_size x / BPB + 1)).

Definition allocated (V : Z -> block) (b : Z) : bool := Z.testbit (V (BBLOCK b x) ((b mod BPB) / 8)) (b mod 8).

(** The blocks that hold no data are marked in use. *)
Record vol (V : Z -> block) : Prop := {
  vo_bytes : forall n, mem_ok (V n);
  vo_free : forall b, 0 <= b < sb_size x -> allocated V b = false -> datastart <= b }.

(** [fsees d V D H L c]: as [sees], and the system call may still log all blocks
    of [B], bitmap blocks set aside for it, and [c] others. *)
Definition fsees (d : S) (V D : Z -> block) (H : list (nat * Z)) (L : gset Z) (c : Z) : Prop :=
  exists cap, sees d V D H L cap /\ Z.of_nat (size (L ∪ B)) + c <= cap <= 27 /\ 0 <= c.

Lemma in_BM b : b ∈ BM <-> sb_bmapstart x <= b < datastart.
Proof. unfold BM, datastart. rewrite elem_of_list_to_set, elem_of_seqZ. lia. Qed.

(** ** The operations of the disk *)

Lemma fsees_bread d V D H L c n : fsees d V D H L c -> okb n -> n ∉ H.*2 -> (length H <= 2)%nat ->
  exists i d', bread ROOTDEV n d = Ret i d' /\ fsees d' V D ((i, n) :: H) L c /\ (n ∉ L -> V n = D n).
Proof.
  intros (cap & Hs & Hc & H0) Hok Hn Hl. destruct (sees_bread _ _ _ _ _ _ n Hs Hok Hn) as (i & d' & Hrun & Hs').
  - right. assert (size L <= size (L ∪ B))%nat by (apply subseteq_size; set_solver). unfold Blk.NBUF. lia.
  - exists i, d'. split_and!; [done|by exists cap|]. intros HL. eapply sees_clean; [exact Hs|done|done].
Qed.

Lemma fsees_data d V D H L c i n : fsees d V D H L c -> (i, n) ∈ H -> bdata i d = Ret (V n) d.
Proof. intros (cap & Hs & _). by eapply sees_data. Qed.

Lemma fsees_set d V D H L c i n b : fsees d V D H L c -> (i, n) ∈ H ->
  exists d', set_bdata i b d = Ret tt d' /\ fsees d' (<[n := b]> V) D H L c.
Proof.
  intros (cap & Hs & Hc & H0) Hi. destruct (sees_set _ _ _ _ _ _ i n b Hs Hi) as (d' & Hrun & Hs'). exists d'. split; [done|]. by exists cap.
Qed.

(** Logging costs nothing for a block of [B] or a block logged before. *)
Lemma fsees_log d V D H L c i n : fsees d V D H L c -> (i, n) ∈ H -> (n ∉ L -> n ∉ B -> 0 < c) ->
  exists d', log_write i d = Ret tt d' /\ fsees d' V D H ({[n]} ∪ L) (if decide (n ∈ L ∪ B) then c else c - 1).
Proof.
  intros (cap & Hs & Hc & H0) Hi Hpos. destruct (sees_log _ _ _ _ _ _ i n Hs Hi) as (d' & Hrun & Hs').
  - destruct (decide (n ∈ L)) as [|HL]; [by left|right]. destruct (decide (n ∈ B)) as [HB|HB].
    + assert (A : {[n]} ∪ L ⊆ L ∪ B) by set_solver. apply subseteq_size in A. rewrite size_union, size_singleton in A by set_solver. lia.
    + specialize (Hpos HL HB). assert (A : L ⊆ L ∪ B) by set_solver. apply subseteq_size in A. lia.
  - exists d'. split; [done|]. exists cap. split; [done|]. case_decide as HL.
    + assert (E : {[n]} ∪ L ∪ B = L ∪ B) by set_solver. rewrite E. done.
    + assert (E : {[n]} ∪ L ∪ B = {[n]} ∪ (L ∪ B)) by set_solver. rewrite E, size_union, size_singleton by set_solver.
      assert (0 < c) by (apply Hpos; set_solver). lia.
Qed.

Lemma fsees_brelse d V D H L c i n : fsees d V D ((i, n) :: H) L c -> (n ∉ L -> V n = D n) ->
  exists d', brelse i d = Ret tt d' /\ fsees d' V D H L c.
Proof.
  intros (cap & Hs & Hc & H0) Hcl. destruct (sees_brelse _ _ _ _ _ _ i n Hs Hcl) as (d' & Hrun & Hs'). exists d'. split; [done|]. by exists cap.
Qed.

Lemma fsees_weaken d V D H L c c' : fsees d V D H L c -> 0 <= c' <= c -> fsees d V D H L c'.
Proof. intros (cap & Hs & Hc & H0) Hle. exists cap. split; [done|]. lia. Qed.

Hypothesis Hx : geom.

Lemma BBLOCK_eq b : 0 <= b < sb_size x -> BBLOCK b x = b / BPB + sb_bmapstart x.
Proof using Hx.
  intros Hb. destruct Hx as [H1 H2 H3 H4 H5 _]. unfold datastart in *. unfold BBLOCK. apply u32_small.
  assert (b / BPB <= sb_size x / BPB) by (apply Z.div_le_mono; [done|lia]). assert (0 <= b / BPB) by (apply Z.div_pos; [lia|done]).
  assert (0 <= sb_ninodes x / IPB) by (apply Z.div_pos; [lia|done]). lia.
Qed.

Lemma BBLOCK_BM b : 0 <= b < sb_size x -> BBLOCK b x ∈ BM.
Proof using Hx.
  intros Hb. rewrite in_BM, BBLOCK_eq by done. unfold datastart.
  assert (b / BPB <= sb_size x / BPB) by (apply Z.div_le_mono; [done|lia]). assert (0 <= b / BPB) by (apply Z.div_pos; [lia|done]). lia.
Qed.

Lemma BM_ok n : n ∈ BM -> okb n.
Proof using Hx.
  rewrite in_BM. intros Hn. destruct Hx as [H1 H2 H3 H4 H5 H6]. apply H6.
  assert (0 <= sb_ninodes x / IPB) by (apply Z.div_pos; [lia|done]). lia.
Qed.

Lemma data_ok n : datastart <= n < sb_size x -> okb n /\ n ∉ BM.
Proof using Hx.
  intros Hn. split; [|rewrite in_BM; lia]. destruct Hx as [H1 H2 H3 H4 H5 H6]. apply H6. unfold datastart in *.
  assert (0 <= sb_ninodes x / IPB) by (apply Z.div_pos; [lia|done]). assert (0 <= sb_size x / BPB) by (apply Z.div_pos; [lia|done]). lia.
Qed.

(** ** The bitmap *)

Definition bit_of (d : block) (bi : Z) : bool := Z.testbit (d (bi / 8)) (bi mod 8).

Lemma find_bit_spec size n : forall d b bi,
  match find_bit n d b bi size with
  | Some k => bi <= k < bi + Z.of_nat n /\ b + k < size /\ bit_of d k = false /\ forall j, bi <= j < k -> bit_of d j = true
  | None => forall j, bi <= j < bi + Z.of_nat n -> b + j < size -> bit_of d j = true
  end.
Proof using Hx.
  clear Hx. induction n as [|n IH]; intros d b bi; cbn [find_bit]; [lia|]. destruct (Z.ltb_spec (b + bi) size) as [Hs|Hs]; [|lia].
  rewrite mask_clear. fold (bit_of d bi). destruct (bit_of d bi) eqn:E; cbn [negb].
  - specialize (IH d b (bi + 1)). destruct (find_bit n d b (bi + 1) size) as [k|].
    + destruct IH as (H1 & H2 & H3 & H4). split_and!; try lia; try done. intros j Hj. destruct (decide (j = bi)) as [->|]; [done|]. apply H4. lia.
    + intros j Hj Hsz. destruct (decide (j = bi)) as [->|]; [done|]. apply IH; lia.
  - split_and!; try lia; try done.
Qed.

Lemma bit_of_allocated V j bi : 0 <= bi < BPB -> 0 <= BPB * j + bi < sb_size x ->
  bit_of (V (BBLOCK (BPB * j) x)) bi = allocated V (BPB * j + bi).
Proof using Hx.
  intros Hbi Hb. unfold allocated. assert (0 <= j) by (unfold BPB, BSIZE, Blk.BSIZE in *; lia).
  rewrite !BBLOCK_eq by (unfold BPB, BSIZE, Blk.BSIZE in *; lia).
  assert (E1 : (BPB * j + bi) / BPB = j) by (symmetry; apply (Z.div_unique_pos _ _ _ bi); lia).
  assert (E2 : (BPB * j + bi) mod BPB = bi) by (symmetry; apply (Z.mod_unique_pos _ _ j); lia).
  assert (E3 : (BPB * j) / BPB = j) by (rewrite Z.mul_comm; by apply Z.div_mul).
  assert (E4 : (BPB * j + bi) mod 8 = bi mod 8) by (unfold BPB, BSIZE, Blk.BSIZE; dlia).
  rewrite E1, E2, E3, E4. done.
Qed.

(** The bitmap block of [b] with the bit of [b] changed by [f]. *)
Definition with_bit (V : Z -> block) (b v : Z) : Z -> block :=
  <[BBLOCK b x := upd (V (BBLOCK b x)) ((b mod BPB) / 8) v]> V.

Lemma with_bit_allocated V b v b' : 0 <= b < sb_size x -> 0 <= b' < sb_size x ->
  (forall k, 0 <= k < 8 -> k <> b mod 8 -> Z.testbit (u8 v) k = Z.testbit (V (BBLOCK b x) ((b mod BPB) / 8)) k) ->
  allocated (with_bit V b v) b' = if b' =? b then Z.testbit (u8 v) (b mod 8) else allocated V b'.
Proof using Hx.
  intros Hb Hb' Hv. unfold allocated, with_bit. destruct (decide (BBLOCK b' x = BBLOCK b x)) as [E|E]; cycle 1.
  { rewrite fn_lookup_insert_ne by done. destruct (Z.eqb_spec b' b) as [->|]; done. }
  rewrite E, fn_lookup_insert. rewrite !BBLOCK_eq in E by done. unfold upd.
  destruct (Z.eqb_spec ((b' mod BPB) / 8) ((b mod BPB) / 8)) as [E8|E8].
  - destruct (Z.eqb_spec b' b) as [->|Hne]; [done|]. rewrite E8. apply Hv; [dlia|]. unfold BPB, BSIZE, Blk.BSIZE in *. dlia.
  - destruct (Z.eqb_spec b' b) as [->|Hne]; [done|]. done.
Qed.

Lemma with_bit_other V b v n : n <> BBLOCK b x -> with_bit V b v n = V n.
Proof using Hx. intros Hn. unfold with_bit. by apply fn_lookup_insert_ne. Qed.
Lemma with_bit_bytes V b v : (forall n, mem_ok (V n)) -> forall n, mem_ok (with_bit V b v n).
Proof using Hx.
  intros HV n. unfold with_bit. destruct (decide (n = BBLOCK b x)) as [->|]; [rewrite fn_lookup_insert; by apply upd_ok|].
  by rewrite fn_lookup_insert_ne.
Qed.

(** [b] is the block allocated from [V], giving [V']. *)
Record allocs (V : Z -> block) (b : Z) (V' : Z -> block) : Prop := {
  al_range : datastart <= b < sb_size x;
  al_was : allocated V b = false;
  al_now : forall b', 0 <= b' < sb_size x -> allocated V' b' = (b' =? b) || allocated V b';
  al_zero : forall o, 0 <= o < BSIZE -> V' b o = 0;
  al_rest : forall n, n <> b -> n ∉ BM -> V' n = V n;
  al_vol : vol V' }.

Definition marked (V : Z -> block) (b : Z) : Z -> block :=
  with_bit V b (Z.lor (V (BBLOCK b x) ((b mod BPB) / 8)) (bit_mask b)).

Lemma mark_allocs V b : vol V -> 0 <= b < sb_size x -> allocated V b = false ->
  allocs V b (<[b := memset (marked V b b) 0 0 BSIZE]> (marked V b)).
Proof using Hx.
  intros [Hby Hfree] Hb Hf. pose proof (Hfree b Hb Hf) as Hd. destruct (data_ok b) as [_ HnB]; [lia|].
  assert (HbB := BBLOCK_BM b Hb).
  assert (Hal : forall b', 0 <= b' < sb_size x -> allocated (<[b := memset (marked V b b) 0 0 BSIZE]> (marked V b)) b' = (b' =? b) || allocated V b').
  { intros b' Hb'. assert (HB' := BBLOCK_BM b' Hb').
    assert (E : allocated (<[b := memset (marked V b b) 0 0 BSIZE]> (marked V b)) b' = allocated (marked V b) b').
    { unfold allocated. rewrite fn_lookup_insert_ne; [done|]. intros ->. done. }
    rewrite E. unfold marked. rewrite with_bit_allocated; [|done|done|].
    - destruct (Z.eqb_spec b' b) as [->|]; [|done]. rewrite lor_mask by dlia. by rewrite Z.eqb_refl.
    - intros k Hk Hne. rewrite lor_mask by done. by rewrite (proj2 (Z.eqb_neq _ _)). }
  split; try done; try lia.
  - intros o Ho. rewrite fn_lookup_insert. by apply memset_zero.
  - intros n Hn HnB'. rewrite fn_lookup_insert_ne by done. apply with_bit_other. intros ->. done.
  - split.
    + intros n. destruct (decide (n = b)) as [->|Hn]; [rewrite fn_lookup_insert; apply memset_ok|rewrite fn_lookup_insert_ne by done]; by apply with_bit_bytes.
    + intros b' Hb'. rewrite Hal by done. intros [_ ?]%orb_false_iff. by apply Hfree.
Qed.

(** ** Runs *)

Abbreviation fstate := (fs (S := S) (U := U)).

Lemma disk_run {A} (m : M S A) (s : fstate) a d : m (dsk s) = Ret a d -> disk m s = Ret a (set_dsk d s).
Proof using. intros E. unfold disk, zoom. by rewrite E. Qed.

Lemma bzero_ok (s : fstate) n V D H L c : fsees (dsk s) V D H L c -> okb n -> n ∉ H.*2 -> (length H <= 2)%nat -> 0 < c ->
  exists d', bzero ROOTDEV n s = Ret tt (set_dsk d' s) /\ fsees d' (<[n := memset (V n) 0 0 BSIZE]> V) D H ({[n]} ∪ L) (c - 1).
Proof using Hx.
  intros Hs Hok Hn Hl Hc. unfold bzero. destruct (fsees_bread _ _ _ _ _ _ n Hs Hok Hn Hl) as (i & d1 & R1 & Hs1 & _).
  rewrite (bind_Ret _ _ _ _ _ (disk_run _ s _ _ R1)).
  pose proof (fsees_data _ _ _ _ _ _ i n Hs1 ltac:(by left)) as R2. rewrite (bind_Ret _ _ _ _ _ (disk_run _ (set_dsk d1 s) _ _ R2)).
  destruct (fsees_set _ _ _ _ _ _ i n (memset (V n) 0 0 BSIZE) Hs1 ltac:(by left)) as (d3 & R3 & Hs3).
  rewrite (bind_Ret _ _ _ _ _ (disk_run _ (set_dsk d1 s) _ _ R3)).
  destruct (fsees_log _ _ _ _ _ _ i n Hs3 ltac:(by left) ltac:(done)) as (d4 & R4 & Hs4).
  rewrite (bind_Ret _ _ _ _ _ (disk_run _ (set_dsk d3 s) _ _ R4)).
  destruct (fsees_brelse _ _ _ _ _ _ i n Hs4 ltac:(set_solver)) as (d5 & R5 & Hs5).
  exists d5. split; [exact (disk_run _ (set_dsk d4 s) _ _ R5)|]. eapply fsees_weaken; [exact Hs5|]. case_decide; lia.
Qed.

(** What a system call may hold while it allocates. *)
Definition holdable (V : Z -> block) (H : list (nat * Z)) : Prop :=
  (length H <= 1)%nat /\ forall i n, (i, n) ∈ H -> datastart <= n < sb_size x /\ allocated V n = true.

Lemma held_ne V H n : holdable V H -> n ∈ BM \/ 0 <= n < sb_size x /\ allocated V n = false -> n ∉ H.*2.
Proof using Hx.
  intros [_ HH] Hn ([i m] & -> & Hin)%list_elem_of_fmap. cbn in *. destruct (HH i m Hin) as [Hd Ha].
  destruct Hn as [HB|[_ ?]]; [|congruence]. apply in_BM in HB. lia.
Qed.

(** The first free block. *)
Definition first (V : Z -> block) (b : Z) : Prop := 0 <= b < sb_size x /\ allocated V b = false /\ forall b', 0 <= b' < b -> allocated V b' = true.

Lemma balloc_from_ok (s : fstate) V D H L c : sb s = x -> vol V -> holdable V H -> 0 < c -> (forall b, first V b -> BBLOCK b x ∈ B) ->
  forall n j d, fsees d V D H L c -> 0 <= j -> j + Z.of_nat n = (sb_size x + BPB - 1) / BPB ->
  (forall b, 0 <= b < BPB * j -> b < sb_size x -> allocated V b = true) ->
  match balloc_from n ROOTDEV (BPB * j) (set_dsk d s) with
  | Ret b s' => exists d', s' = set_dsk d' s /\ first V b /\
      fsees d' (<[b := memset (marked V b b) 0 0 BSIZE]> (marked V b)) D H ({[b]} ∪ ({[BBLOCK b x]} ∪ L)) (c - 1)
  | Panic m => m = "balloc: out of blocks" /\ forall b, 0 <= b < sb_size x -> allocated V b = true
  | _ => False
  end.
Proof using Hx.
  intros Esb HV HH Hc HBf. induction n as [|n IH]; intros j d Hs Hj Hjn Hdone; cbn [balloc_from].
  { split; [done|]. intros b Hb. apply Hdone; [|lia]. replace j with ((sb_size x + BPB - 1) / BPB) by lia.
    unfold BPB, BSIZE, Blk.BSIZE in *. dlia. }
  assert (Hjs : 0 <= BPB * j < sb_size x) by (unfold BPB, BSIZE, Blk.BSIZE in *; dlia).
  unfold bind at 1, gets at 1. cbn [sb set_dsk]. rewrite Esb. assert (HB := BBLOCK_BM _ Hjs).
  destruct (fsees_bread _ _ _ _ _ _ (BBLOCK (BPB * j) x) Hs) as (i & d1 & R1 & Hs1 & Hcl);
    [by apply BM_ok|eapply held_ne; [done|by left]|destruct HH; lia|].
  rewrite (bind_Ret _ _ _ _ _ (disk_run _ (set_dsk d s) _ _ R1)).
  pose proof (fsees_data _ _ _ _ _ _ i (BBLOCK (BPB * j) x) Hs1 ltac:(by left)) as R2.
  rewrite (bind_Ret _ _ _ _ _ (disk_run _ (set_dsk d1 s) _ _ R2)).
  pose proof (find_bit_spec (sb_size x) (Z.to_nat BPB) (V (BBLOCK (BPB * j) x)) (BPB * j) 0) as Hf.
  rewrite Z2Nat.id in Hf by done. destruct (find_bit _ _ _ _ _) as [bi|].
  - destruct Hf as (Hbi & Hsz & Hb & Hfirst).
    assert (E1 : bit_of (V (BBLOCK (BPB * j) x)) bi = allocated V (BPB * j + bi)) by (apply bit_of_allocated; lia).
    rewrite E1 in Hb. assert (EB : BBLOCK (BPB * j + bi) x = BBLOCK (BPB * j) x).
    { rewrite !BBLOCK_eq by lia. f_equal. unfold BPB, BSIZE, Blk.BSIZE in *. dlia. }
    assert (EM : upd (V (BBLOCK (BPB * j) x)) (bi / 8) (Z.lor (V (BBLOCK (BPB * j) x) (bi / 8)) (bit_mask bi)) = marked V (BPB * j + bi) (BBLOCK (BPB * j) x)).
    { unfold marked, with_bit. rewrite EB, fn_lookup_insert. assert (E2 : (BPB * j + bi) mod BPB = bi) by (unfold BPB, BSIZE, Blk.BSIZE in *; dlia).
      assert (E3 : bit_mask (BPB * j + bi) = bit_mask bi) by (unfold bit_mask; f_equal; unfold BPB, BSIZE, Blk.BSIZE in *; dlia).
      by rewrite E2, E3. }
    destruct (fsees_set _ _ _ _ _ _ i _ (marked V (BPB * j + bi) (BBLOCK (BPB * j) x)) Hs1 ltac:(by left)) as (d3 & R3 & Hs3).
    rewrite EM, (bind_Ret _ _ _ _ _ (disk_run _ (set_dsk d1 s) _ _ R3)).
    assert (Hfst : first V (BPB * j + bi)).
    { split_and!; [lia..|done|]. intros b' Hb'. destruct (decide (b' < BPB * j)) as [Hlt|Hge]; [apply Hdone; lia|].
      replace b' with (BPB * j + (b' - BPB * j)) by lia. rewrite <- bit_of_allocated by lia. apply Hfirst. lia. }
    pose proof (HBf _ Hfst) as HBB. rewrite EB in HBB.
    destruct (fsees_log _ _ _ _ _ _ i (BBLOCK (BPB * j) x) Hs3 ltac:(by left) ltac:(done)) as (d4 & R4 & Hs4).
    rewrite (bind_Ret _ _ _ _ _ (disk_run _ (set_dsk d3 s) _ _ R4)). rewrite decide_True in Hs4 by set_solver.
    destruct (fsees_brelse _ _ _ _ _ _ i (BBLOCK (BPB * j) x) Hs4 ltac:(set_solver)) as (d5 & R5 & Hs5).
    rewrite (bind_Ret _ _ _ _ _ (disk_run _ (set_dsk d4 s) _ _ R5)).
    set (b := BPB * j + bi) in *. assert (Hd : datastart <= b) by (apply (vo_free V HV b); [lia|done]).
    destruct (data_ok b) as [Hokb HnB]; [lia|].
    assert (EV : <[BBLOCK (BPB * j) x := marked V b (BBLOCK (BPB * j) x)]> V = marked V b).
    { unfold marked at 2, with_bit. rewrite EB. unfold marked, with_bit. by rewrite EB, fn_lookup_insert. }
    rewrite EV, <- EB in Hs5.
    destruct (bzero_ok (set_dsk d5 s) b (marked V b) D H ({[BBLOCK b x]} ∪ L) c) as (d6 & R6 & Hs6);
      [exact Hs5|done|eapply held_ne; [done|right; split; [lia|done]]|destruct HH; lia|done|].
    rewrite (bind_Ret _ _ _ _ _ R6). by exists d6.
  - destruct (fsees_brelse _ _ _ _ _ _ i (BBLOCK (BPB * j) x) Hs1 Hcl) as (d3 & R3 & Hs3).
    rewrite (bind_Ret _ _ _ _ _ (disk_run _ (set_dsk d1 s) _ _ R3)).
    replace (BPB * j + BPB) with (BPB * (j + 1)) by lia. apply IH; [exact Hs3|lia|lia|].
    intros b Hb Hbs. destruct (decide (b < BPB * j)) as [Hlt|Hge]; [apply Hdone; lia|].
    replace b with (BPB * j + (b - BPB * j)) by lia. rewrite <- bit_of_allocated by lia. apply Hf; lia.
Qed.

Lemma balloc_run (s : fstate) V D H L c : sb s = x -> vol V -> holdable V H -> 0 < c -> (forall b, first V b -> BBLOCK b x ∈ B) -> fsees (dsk s) V D H L c ->
  match balloc ROOTDEV s with
  | Ret b s' => exists d', s' = set_dsk d' s /\ first V b /\
      fsees d' (<[b := memset (marked V b b) 0 0 BSIZE]> (marked V b)) D H ({[b]} ∪ ({[BBLOCK b x]} ∪ L)) (c - 1)
  | Panic m => m = "balloc: out of blocks" /\ forall b, 0 <= b < sb_size x -> allocated V b = true
  | _ => False
  end.
Proof using Hx.
  intros Esb HV HH Hc HBf Hs. unfold balloc, bind, gets. rewrite Esb. pose proof (gm_size Hx).
  assert (0 <= (sb_size x + BPB - 1) / BPB) by (apply Z.div_pos; [unfold BPB, BSIZE, Blk.BSIZE; lia|done]).
  assert (E : s = set_dsk (dsk s) s) by (by destruct s). rewrite E. replace 0 with (BPB * 0) by lia.
  apply (balloc_from_ok s V D H L c Esb HV HH Hc HBf); [done|lia|lia|]. intros b Hb. lia.
Qed.

(** [balloc] with a free block gives the first one, zeroed. *)
Lemma balloc_ok (s : fstate) V D H L c : sb s = x -> vol V -> holdable V H -> 0 < c -> (forall b, first V b -> BBLOCK b x ∈ B) -> fsees (dsk s) V D H L c ->
  (exists b, 0 <= b < sb_size x /\ allocated V b = false) ->
  exists b d' V', balloc ROOTDEV s = Ret b (set_dsk d' s) /\ allocs V b V' /\ first V b /\
    fsees d' V' D H ({[b]} ∪ ({[BBLOCK b x]} ∪ L)) (c - 1).
Proof using Hx.
  intros Esb HV HH Hc HBf Hs (b0 & Hb0 & Hf0). pose proof (balloc_run s V D H L c Esb HV HH Hc HBf Hs) as Hrun.
  destruct (balloc ROOTDEV s) as [b s'|m| |]; [|destruct Hrun as [_ Hfull]; specialize (Hfull b0 Hb0); congruence|done|done].
  destruct Hrun as (d' & -> & (Hb & Hf & Hlow) & Hs'). eexists b, d', _. split; [done|]. split; [by apply mark_allocs|split; [exact (conj Hb (conj Hf Hlow))|exact Hs']].
Qed.

(** Freeing [b]. *)
Record frees (V : Z -> block) (b : Z) (V' : Z -> block) : Prop := {
  fr_now : forall b', 0 <= b' < sb_size x -> allocated V' b' = negb (b' =? b) && allocated V b';
  fr_rest : forall n, n ∉ BM -> V' n = V n;
  fr_vol : vol V' }.

Lemma bfree_ok (s : fstate) V D H L c b : sb s = x -> vol V -> (length H <= 2)%nat -> (forall n, n ∈ H.*2 -> n ∉ BM) ->
  fsees (dsk s) V D H L c -> datastart <= b < sb_size x -> allocated V b = true -> BBLOCK b x ∈ B ->
  exists d' V', bfree ROOTDEV b s = Ret tt (set_dsk d' s) /\ frees V b V' /\ fsees d' V' D H ({[BBLOCK b x]} ∪ L) c.
Proof using Hx.
  intros Esb HV Hl HH Hs Hb Ha HbB. destruct (data_ok b Hb) as [_ HnB].
  assert (Hb0 : 0 <= b < sb_size x).
  { destruct Hx as [G1 G2 G3 G4 G5 _]. unfold datastart in Hb. assert (0 <= sb_ninodes x / IPB) by (apply Z.div_pos; [lia|done]).
    assert (0 <= sb_size x / BPB) by (apply Z.div_pos; [lia|done]). lia. }
  assert (HB := BBLOCK_BM b Hb0). unfold bfree, bind at 1, gets at 1. rewrite Esb.
  destruct (fsees_bread _ _ _ _ _ _ (BBLOCK b x) Hs (BM_ok _ HB)) as (i & d1 & R1 & Hs1 & _); [intros Hin; by apply (HH _ Hin)|done|].
  rewrite (bind_Ret _ _ _ _ _ (disk_run _ s _ _ R1)). cbv zeta.
  pose proof (fsees_data _ _ _ _ _ _ i (BBLOCK b x) Hs1 ltac:(by left)) as R2.
  rewrite (bind_Ret _ _ _ _ _ (disk_run _ (set_dsk d1 s) _ _ R2)).
  assert (E8 : (b mod BPB) mod 8 = b mod 8) by (unfold BPB, BSIZE, Blk.BSIZE; dlia).
  assert (EM : bit_mask (b mod BPB) = bit_mask b) by (unfold bit_mask; by rewrite E8).
  rewrite mask_clear, E8, EM. fold (allocated V b). rewrite Ha. cbn [negb].
  set (v := Z.land (V (BBLOCK b x) ((b mod BPB) / 8)) (Z.lnot (bit_mask b))).
  destruct (fsees_set _ _ _ _ _ _ i (BBLOCK b x) (upd (V (BBLOCK b x)) ((b mod BPB) / 8) v) Hs1 ltac:(by left)) as (d3 & R3 & Hs3).
  rewrite (bind_Ret _ _ _ _ _ (disk_run _ (set_dsk d1 s) _ _ R3)). fold (with_bit V b v) in Hs3.
  destruct (fsees_log _ _ _ _ _ _ i (BBLOCK b x) Hs3 ltac:(by left) ltac:(done)) as (d4 & R4 & Hs4).
  rewrite (bind_Ret _ _ _ _ _ (disk_run _ (set_dsk d3 s) _ _ R4)). rewrite decide_True in Hs4 by set_solver.
  destruct (fsees_brelse _ _ _ _ _ _ i (BBLOCK b x) Hs4 ltac:(set_solver)) as (d5 & R5 & Hs5).
  exists d5, (with_bit V b v). split; [exact (disk_run _ (set_dsk d4 s) _ _ R5)|]. split; [|exact Hs5].
  assert (Hal : forall b', 0 <= b' < sb_size x -> allocated (with_bit V b v) b' = negb (b' =? b) && allocated V b').
  { intros b' Hb'. rewrite with_bit_allocated; [|done|done|].
    - destruct (Z.eqb_spec b' b) as [->|]; [|done]. unfold v. rewrite ldiff_mask by dlia. by rewrite Z.eqb_refl.
    - intros k Hk Hne. unfold v. rewrite ldiff_mask by done. by rewrite (proj2 (Z.eqb_neq _ _)). }
  split; try done.
  - intros n Hn. apply with_bit_other. by intros ->.
  - split; [apply with_bit_bytes, HV|]. intros b' Hb'. rewrite Hal by done. destruct (Z.eqb_spec b' b) as [->|]; cbn [negb andb]; [lia|by apply HV].
Qed.

End geom.

End Fsalloc.
