(* ===== verification/Fsmap.v ===== *)
(** The block tree of an inode: what [bmap] maintains.

    A file's blocks hang off thirteen addresses, the last two through one and
    two levels of address blocks. A place for an address is a path, innermost
    index first. [bmap] gives every file block an address of its own and leaves
    all other places alone. *)

From stdpp Require Import functions.
From S2P Require Import Prelude Mem Kstring Umem Blk Store Fs Fsalloc.
Import Kstring Umem Store Fs Fsalloc.

Module Fsmap.

(** ** Places *)

Definition place := list Z.
Fixpoint val (V : Z -> block) (ad : list Z) (p : place) : Z :=
  match p with
  | [] => 0
  | k :: q => match q with
              | [] => default 0 (aget ad k)
              | _ => if val V ad q =? 0 then 0 else aread (V (val V ad q)) k
              end
  end.

(** Places of address blocks, and all places. *)
Definition inner (p : place) : Prop :=
  match p with [t] => t = NDIRECT \/ t = NDIRECT + 1 | [i; t] => t = NDIRECT + 1 /\ 0 <= i < NINDIRECT | _ => False end.
Definition okp (p : place) : Prop :=
  match p with [t] => 0 <= t < 13 | k :: q => inner q /\ 0 <= k < NINDIRECT | [] => False end.

(** The place of file block [bn]. *)
Definition leaf (bn : Z) : place :=
  if bn <? NDIRECT then [bn]
  else if bn - NDIRECT <? NINDIRECT then [bn - NDIRECT; NDIRECT]
  else [(bn - NDIRECT - NINDIRECT) mod NADDR_PER_BLOCK; (bn - NDIRECT - NINDIRECT) / NADDR_PER_BLOCK; NDIRECT + 1].

Definition fblk (V : Z -> block) (ad : list Z) (bn : Z) : Z := val V ad (leaf bn).

(** The places on the way to it: those [bmap] looks at. *)
Definition path (bn : Z) : list place :=
  match leaf bn with [k; i; t] => [[k; i; t]; [i; t]; [t]] | [k; t] => [[k; t]; [t]] | p => [p] end.

Ltac cases_const :=
  unfold NDIRECT, NINDIRECT, NDINDIRECT, NADDR_PER_BLOCK, MAXFILE, NDIRECT, NINDIRECT, NDINDIRECT, Blk.BSIZE in *; change (1024 / 4) with 256 in *.

Lemma inner_okp p : inner p -> okp p.
Proof. destruct p as [|i [|t [|]]]; try done; cbn; cases_const; [lia|]. intros [-> ?]. split; [by right|lia]. Qed.

Lemma okp_cons k q : q <> [] -> okp (k :: q) <-> inner q /\ 0 <= k < NINDIRECT.
Proof. by destruct q. Qed.

Lemma leaf_okp bn : 0 <= bn < MAXFILE -> okp (leaf bn) /\ ~ inner (leaf bn).
Proof.
  intros Hb. unfold leaf. destruct (Z.ltb_spec bn NDIRECT); [cbn; cases_const; lia|].
  destruct (Z.ltb_spec (bn - NDIRECT) NINDIRECT); cbn; cases_const; [lia|]. dlia.
Qed.

Lemma leaf_inj a b : 0 <= a < MAXFILE -> 0 <= b < MAXFILE -> leaf a = leaf b -> a = b.
Proof.
  intros Ha Hb. unfold leaf.
  destruct (Z.ltb_spec a NDIRECT), (Z.ltb_spec b NDIRECT), (Z.ltb_spec (a - NDIRECT) NINDIRECT), (Z.ltb_spec (b - NDIRECT) NINDIRECT);
    cases_const; intros E; simplify_eq; dlia.
Qed.

Lemma val_cons V ad k q : q <> [] -> val V ad (k :: q) = if val V ad q =? 0 then 0 else aread (V (val V ad q)) k.
Proof. by destruct q. Qed.

(** A block of addresses, changed at one entry. *)
Lemma awrite_eq d k a : 0 <= a < 2 ^ 32 -> aread (awrite d k a) k = a.
Proof. intros Ha. unfold aread, awrite. rewrite load32_store32_eq. by apply Z.mod_small. Qed.
Lemma awrite_ne d k j a : j <> k -> aread (awrite d k a) j = aread d j.
Proof. intros Hj. unfold aread, awrite. apply load32_store32_ne. lia. Qed.
Lemma aread_zero d k : (forall o, 0 <= o < BSIZE -> d o = 0) -> 0 <= k < NINDIRECT -> aread d k = 0.
Proof.
  intros Hd Hk. unfold aread, load32. cases_const. cbn [load]. rewrite !Hd by lia. done.
Qed.

Lemma filter_ne_length (b : Z) l : NoDup l -> (length l <= S (length (filter (fun n => n <> b) l)))%nat.
Proof.
  induction 1 as [|a l Ha Hn IH]; [simpl; lia|]. destruct (decide (a = b)) as [->|Hne].
  - rewrite filter_cons_False by tauto. simpl. assert (E : filter (fun n => n <> b) l = l); [|by rewrite E].
    clear Hn IH. induction l as [|c l IH]; [done|]. apply not_elem_of_cons in Ha as [Hc Ha].
    rewrite filter_cons_True by congruence. f_equal. by apply IH.
  - rewrite filter_cons_True by done. simpl. lia.
Qed.

Section tree.
Context {S : Type} {ST : Store S} {U : Type} {UM : UserMem U}.
Context (x : superblock) (B : gset Z).
Hypothesis Hx : geom x.
Abbreviation size := (sb_size x).

(** Every address of the tree is an allocated data block, and no two places have
    the same. *)
Record tree (V : Z -> block) (ad : list Z) : Prop := {
  tr_len : length ad = 13%nat;
  tr_data : forall p, okp p -> val V ad p <> 0 -> datastart x <= val V ad p < size /\ allocated x V (val V ad p) = true;
  tr_inj : forall p q, okp p -> okp q -> val V ad p <> 0 -> val V ad p = val V ad q -> p = q }.

(** The address blocks of the tree. *)
Definition meta (V : Z -> block) (ad : list Z) (n : Z) : Prop := n <> 0 /\ exists p, inner p /\ val V ad p = n.

(** From [V] with [ad] to [V'] with [ad'], place [p] has got the address [b]. *)
Record placed (V : Z -> block) (ad : list Z) (p : place) (b : Z) (V' : Z -> block) (ad' : list Z) : Prop := {
  pl_nz : b <> 0;
  pl_val : val V' ad' p = b;
  pl_rest : forall q, okp q -> q <> p -> val V' ad' q = val V ad q;
  pl_old : val V ad p <> 0 -> b = val V ad p;
  pl_new : val V ad p = 0 -> allocated x V b = false /\ forall o, 0 <= o < BSIZE -> V' b o = 0;
  pl_keep : forall n, allocated x V n = true -> datastart x <= n < size -> ~ meta V ad n -> V' n = V n;
  pl_inodes : forall n, n < sb_bmapstart x -> V' n = V n;
  pl_alloc : forall n, 0 <= n < size -> allocated x V n = true -> allocated x V' n = true;
  pl_fresh : forall n, 0 <= n < size -> allocated x V n = false -> n <> b -> allocated x V' n = false;
  pl_vol : vol x V';
  pl_tree : tree V' ad' }.

Lemma placed_id V ad p : vol x V -> tree V ad -> val V ad p <> 0 -> placed V ad p (val V ad p) V ad.
Proof. intros HV HT Hp. by split. Qed.

Lemma data_pos b : datastart x <= b < size -> 0 <= b < size /\ sb_bmapstart x <= b /\ 0 < b.
Proof using Hx.
  intros Hb. destruct Hx as [G1 G2 G3 G4 G5 _]. unfold datastart in *. assert (0 <= sb_ninodes x / IPB) by (apply Z.div_pos; [lia|done]).
  assert (0 <= size / BPB) by (apply Z.div_pos; [lia|done]). lia.
Qed.

(** The tree after a new block [b] got the place [p], if no other address has
    changed. *)
Lemma tree_placed V ad p b V1 V' ad' : tree V ad -> okp p -> val V ad p = 0 -> allocs x V b V1 ->
  (forall n, 0 <= n < size -> allocated x V' n = allocated x V1 n) -> length ad' = 13%nat -> val V' ad' p = b ->
  (forall q, okp q -> q <> p -> val V' ad' q = val V ad q) -> tree V' ad'.
Proof using Hx.
  intros [T1 T2 T3] Hp H0 Ha Hal Hl Hb Hrest. pose proof (al_range _ _ _ _ Ha) as Hbr.
  assert (Hval : forall q, okp q -> val V' ad' q <> 0 -> q = p /\ val V' ad' q = b \/ q <> p /\ val V' ad' q = val V ad q /\ val V ad q <> 0).
  { intros q Hq Hnz. destruct (decide (q = p)) as [->|Hne]; [by left|right]. rewrite Hrest in * by done. done. }
  assert (Hne : forall q, okp q -> val V ad q <> 0 -> val V ad q <> b).
  { intros q Hq Hnz E. destruct (T2 q Hq Hnz) as [_ Hq']. rewrite E, (al_was _ _ _ _ Ha) in Hq'. done. }
  split; [done| |].
  - intros q Hq Hnz. destruct (Hval q Hq Hnz) as [[-> ->]|(Hqp & -> & Hnz')].
    + split; [done|]. rewrite Hal, (al_now _ _ _ _ Ha), Z.eqb_refl by (pose proof (data_pos b Hbr); lia). done.
    + destruct (T2 q Hq Hnz') as [Hr Ht]. split; [done|]. destruct (data_pos _ Hr) as [Hr0 _].
      rewrite Hal, (al_now _ _ _ _ Ha), Ht by done. by rewrite orb_true_r.
  - intros q r Hq Hr Hnz E. assert (Hnr : val V' ad' r <> 0) by congruence.
    destruct (Hval q Hq Hnz) as [[-> E1]|(Hqp & E1 & Hnz')], (Hval r Hr Hnr) as [[-> E2]|(Hrp & E2 & Hnz2)]; try done.
    + destruct (Hne r Hr Hnz2). congruence.
    + destruct (Hne q Hq Hnz'). congruence.
    + apply T3; congruence.
Qed.

(** A top address. *)
Lemma placed_top V ad t b V' : tree V ad -> 0 <= t < 13 -> val V ad [t] = 0 -> allocs x V b V' -> placed V ad [t] b V' (aset ad t b).
Proof using Hx.
  intros HT Ht H0 Ha. pose proof HT as [T1 T2 T3]. pose proof (al_range _ _ _ _ Ha) as Hbr. destruct (data_pos b Hbr) as (Hb0 & Hbm & Hb1).
  assert (Hlen : alen ad = 13) by (unfold alen; by rewrite T1).
  assert (Hv : val V' (aset ad t b) [t] = b) by (cbn; by rewrite aget_aset_eq by lia).
  assert (Hrest : forall q, okp q -> q <> [t] -> val V' (aset ad t b) q = val V ad q).
  { assert (Htop : forall r, 0 <= r < 13 -> r <> t -> val V' (aset ad t b) [r] = val V ad [r]).
    { intros r Hr Hne. cbn. rewrite aget_aset_ne by lia. done. }
    assert (Hstep : forall k q, inner q -> 0 <= k < NINDIRECT -> (q <> [t] -> val V' (aset ad t b) q = val V ad q) ->
      val V' (aset ad t b) (k :: q) = val V ad (k :: q)).
    { intros k q Hq Hk IH. assert (q <> []) by (by destruct q). rewrite !val_cons by done. destruct (decide (q = [t])) as [->|Hne].
      - rewrite Hv, H0, (proj2 (Z.eqb_neq b 0)) by lia. cbn. apply aread_zero; [|done]. apply (al_zero _ _ _ _ Ha).
      - rewrite IH by done. destruct (Z.eqb_spec (val V ad q) 0) as [|Hnz]; [done|]. f_equal.
        destruct (T2 q (inner_okp q Hq) Hnz) as [Hr Hq']. apply (al_rest _ _ _ _ Ha); [|by apply (data_ok x Hx)].
        intros E. rewrite E, (al_was _ _ _ _ Ha) in Hq'. done. }
    assert (Htop' : forall r, 0 <= r < 13 -> [r] <> [t] -> val V' (aset ad t b) [r] = val V ad [r]) by (intros; apply Htop; congruence).
    intros q Hq Hne. destruct q as [|k [|j q]]; [done|by apply Htop'|].
    apply okp_cons in Hq as [Hin Hk]; [|done]. apply Hstep; [done|done|]. intros Hne'. destruct q as [|r q]; [apply Htop'; [by apply inner_okp in Hin|done]|].
    destruct q; [|done]. destruct Hin as [-> Hj]. apply Hstep; [by right|done|]. by apply Htop'. }
  split; try done; try lia.
  - intros _. split; [apply (al_was _ _ _ _ Ha)|apply (al_zero _ _ _ _ Ha)].
  - intros n Hn Hr _. apply (al_rest _ _ _ _ Ha); [intros ->; rewrite (al_was _ _ _ _ Ha) in Hn; done|by apply (data_ok x Hx)].
  - intros n Hn. apply (al_rest _ _ _ _ Ha); [lia|]. rewrite in_BM. lia.
  - intros n Hn Hal. rewrite (al_now _ _ _ _ Ha), Hal by done. by rewrite orb_true_r.
  - intros n Hn Hal Hne. rewrite (al_now _ _ _ _ Ha), Hal, (proj2 (Z.eqb_neq _ _)) by done. done.
  - apply Ha.
  - apply (tree_placed V ad [t] b V' V' (aset ad t b)); try done. pose proof (alen_aset ad t b) as E. unfold alen in E. lia.
Qed.

(** Writing an address block does not touch the bitmap. *)
Lemma allocated_insert V a d n : a ∉ BM x -> 0 <= n < size -> allocated x (<[a := d]> V) n = allocated x V n.
Proof using Hx. intros Ha Hn. unfold allocated. rewrite fn_lookup_insert_ne; [done|]. intros ->. by apply Ha, (BBLOCK_BM x Hx). Qed.

Lemma vol_insert V a d : vol x V -> a ∉ BM x -> mem_ok d -> vol x (<[a := d]> V).
Proof using Hx.
  intros [V1 V2] Ha Hd. split.
  - intros n. destruct (decide (n = a)) as [->|]; [by rewrite fn_lookup_insert|by rewrite fn_lookup_insert_ne].
  - intros b Hb. rewrite allocated_insert by done. by apply V2.
Qed.

(** An entry of an address block. *)
Lemma placed_entry V ad p k b V1 : tree V ad -> inner p -> 0 <= k < NINDIRECT -> val V ad p <> 0 -> val V ad (k :: p) = 0 ->
  allocs x V b V1 -> placed V ad (k :: p) b (<[val V ad p := awrite (V1 (val V ad p)) k b]> V1) ad.
Proof using Hx.
  intros HT Hp Hk Hnz H0 Ha. pose proof HT as [T1 T2 T3]. pose proof (al_range _ _ _ _ Ha) as Hbr. destruct (data_pos b Hbr) as (Hb0 & Hbm & Hb1).
  set (a := val V ad p) in *. set (V' := <[a := _]> V1). destruct (T2 p (inner_okp p Hp) Hnz) as [Har Haa]. fold a in Har, Haa.
  destruct (data_ok x Hx a Har) as [_ HaB].
  assert (Hab : a <> b) by (intros E; rewrite E, (al_was _ _ _ _ Ha) in Haa; done).
  assert (Hold : forall n, datastart x <= n < size -> allocated x V n = true -> n <> a -> V' n = V n).
  { intros n Hr Hn Hne. unfold V'. rewrite fn_lookup_insert_ne by done. apply (al_rest _ _ _ _ Ha); [|by apply (data_ok x Hx)].
    intros ->. rewrite (al_was _ _ _ _ Ha) in Hn. done. }
  assert (Ea : V1 a = V a) by (by apply (al_rest _ _ _ _ Ha)).
  assert (Htop : forall t, val V' ad [t] = val V ad [t]) by done.
  assert (Hpne : p <> []) by (by destruct p).
  (* the parent keeps its address *)
  assert (Hstep : forall m r, inner r -> 0 <= m < NINDIRECT -> (r <> k :: p -> val V' ad r = val V ad r) -> (r = k :: p -> val V' ad r = b) ->
    val V' ad (m :: r) = if decide (m :: r = k :: p) then b else val V ad (m :: r)).
  { intros m r Hr Hm IH IHp. assert (Hrne : r <> []) by (by destruct r). rewrite !val_cons by done.
    destruct (decide (r = k :: p)) as [->|Hne].
    - rewrite decide_False by (intros E; injection E as _ E; apply (f_equal length) in E; simpl in E; lia).
      rewrite IHp, H0, (proj2 (Z.eqb_neq b 0)) by (done || lia). cbn. apply aread_zero; [|done]. intros o Ho. unfold V'.
      rewrite fn_lookup_insert_ne by done. by apply (al_zero _ _ _ _ Ha).
    - rewrite IH by done. destruct (decide (val V ad r = a)) as [E|E].
      + assert (r = p) as -> by (apply T3; [by apply inner_okp|by apply inner_okp|congruence|done]).
        fold a. rewrite (proj2 (Z.eqb_neq a 0)) by done. unfold V'. rewrite fn_lookup_insert.
        destruct (decide (m = k)) as [->|Hmk].
        * rewrite decide_True by done. apply awrite_eq. pose proof (gm_size x Hx). lia.
        * rewrite decide_False by congruence. rewrite awrite_ne by done. by rewrite Ea.
      + rewrite decide_False by (intros [= _ ->]; by apply E). destruct (Z.eqb_spec (val V ad r) 0) as [|Hrz]; [done|]. f_equal.
        destruct (T2 r (inner_okp r Hr) Hrz) as [Hrr Hra]. by apply Hold. }
  assert (Hall : forall q, okp q -> val V' ad q = if decide (q = k :: p) then b else val V ad q).
  { intros q Hq. destruct q as [|m [|j r]]; [done| |].
    - rewrite decide_False; [apply Htop|]. intros [= _ E]. done.
    - apply okp_cons in Hq as [Hin Hm]; [|done].
      assert (Hj : val V' ad (j :: r) = if decide (j :: r = k :: p) then b else val V ad (j :: r)).
      { destruct r as [|t r]; [rewrite decide_False; [apply Htop|intros [= _ E]; done]|]. destruct r; [|done]. destruct Hin as [-> Hj].
        apply Hstep; [by right|done|intros _; apply Htop|]. intros [= _ E]. done. }
      apply Hstep; [done|done| |]; intros Hjr; rewrite Hj; [by rewrite decide_False|by rewrite decide_True]. }
  assert (Hokp : okp (k :: p)) by (by apply okp_cons). assert (HV1 := al_vol _ _ _ _ Ha).
  assert (Hal : forall n, 0 <= n < size -> allocated x V' n = allocated x V1 n) by (intros n Hn; by apply allocated_insert).
  assert (Hval : val V' ad (k :: p) = b) by (rewrite Hall by done; by rewrite decide_True).
  assert (Hrest : forall q, okp q -> q <> k :: p -> val V' ad q = val V ad q) by (intros q Hq Hne; rewrite Hall by done; by rewrite decide_False).
  split; try done; try lia.
  - intros _. split; [apply (al_was _ _ _ _ Ha)|]. intros o Ho. unfold V'. rewrite fn_lookup_insert_ne by done. by apply (al_zero _ _ _ _ Ha).
  - intros n Hn Hr Hm. apply Hold; [done|done|]. intros ->. apply Hm. split; [done|]. by exists p.
  - intros n Hn. unfold V'. destruct (data_pos a Har) as (_ & ? & _). rewrite fn_lookup_insert_ne by lia.
    apply (al_rest _ _ _ _ Ha); [lia|]. rewrite in_BM. lia.
  - intros n Hn Hn'. rewrite Hal, (al_now _ _ _ _ Ha), Hn' by done. by rewrite orb_true_r.
  - intros n Hn Hn' Hne. rewrite Hal, (al_now _ _ _ _ Ha), Hn', (proj2 (Z.eqb_neq _ _)) by done. done.
  - apply vol_insert; [done|done|]. apply store_ok, HV1.
  - by apply (tree_placed V ad (k :: p) b V1 V' ad).
Qed.

(** ** Runs *)

Abbreviation fstate := (fs (S := S) (U := U)).

Definition with_addrs (ad : list Z) (ip : inode) : inode :=
  mk_inode (i_dev ip) (i_inum ip) (i_ref ip) (i_locked ip) (i_valid ip) (i_type ip) (i_mode ip) (i_major ip) (i_minor ip) (i_nlink ip) (i_size ip) ad.

(** The state in which inode [ip] has become [xi] and the disk [d]. *)
Definition put_inode (s : fstate) (ip : nat) (xi : inode) (d : S) : fstate :=
  mk_fs d (sb s) (<[ip := xi]> (icache s)) (user s) (kmem s) (de s) (cwd s).

(** At least [k] blocks are free, the first ones with their bits in [B]. *)
Definition avail (V : Z -> block) (k : nat) : Prop :=
  exists l, NoDup l /\ (k <= length l)%nat /\ (forall b, b ∈ l -> 0 <= b < size /\ allocated x V b = false /\ BBLOCK b x ∈ B) /\
    forall b b', b ∈ l -> 0 <= b' < size -> allocated x V b' = false -> b' ∉ l -> b < b'.

Lemma avail_one V k : avail V (Datatypes.S k) ->
  (exists b, 0 <= b < size /\ allocated x V b = false) /\ forall b, first x V b -> BBLOCK b x ∈ B.
Proof using.
  intros (l & _ & Hl & Hf & Hi). destruct l as [|b l]; simpl in Hl; [lia|]. destruct (Hf b ltac:(by left)) as (Hb & Hbf & _). split; [by exists b|].
  intros b0 (Hb0 & Hf0 & Hlow). destruct (decide (b0 ∈ b :: l)) as [Hin|Hout]; [by apply Hf|].
  pose proof (Hi b b0 ltac:(by left) Hb0 Hf0 Hout). rewrite Hlow in Hbf by lia. done.
Qed.

Lemma avail_weaken V k k' : avail V k -> (k' <= k)%nat -> avail V k'.
Proof using. clear Hx. intros (l & Hn & Hl & Hf & Hi) Hk. exists l. split_and!; [done|lia|done|done]. Qed.

Lemma placed_avail V ad p b V' ad' k : okp p -> placed V ad p b V' ad' -> avail V (Datatypes.S k) -> avail V' k.
Proof using Hx.
  intros Hp HP (l & Hn & Hl & Hf & Hi). exists (filter (fun n => n <> b) l). split_and!.
  - by apply NoDup_filter.
  - pose proof (filter_ne_length b l Hn). lia.
  - intros n [Hne Hnl]%list_elem_of_filter. destruct (Hf n Hnl) as (H1 & H2 & H3). split_and!; [apply H1|apply H1| |done]. by apply (pl_fresh _ _ _ _ _ _ HP).
  - intros n n' [Hne Hnl]%list_elem_of_filter Hn' Hf' Hout. apply Hi; [done|done| |].
    + destruct (allocated x V n') eqn:E; [|done]. rewrite (pl_alloc _ _ _ _ _ _ HP) in Hf'; done.
    + intros Hin. apply Hout, list_elem_of_filter. split; [|done]. intros ->. pose proof (pl_val _ _ _ _ _ _ HP) as Ev.
      destruct (tr_data _ _ (pl_tree _ _ _ _ _ _ HP) p Hp) as [_ Hb]; [rewrite Ev; apply HP|]. rewrite Ev in Hb. congruence.
Qed.

(** What a system call may take from the bitmap while it fills the places [P]:
    [A V ad j] lets it take [j] more blocks. [avail] is one such allowance. *)
Record allowance (P : list place) (A : (Z -> block) -> list Z -> nat -> Prop) : Prop := {
  an_one : forall V ad p j, p ∈ P -> val V ad p = 0 -> A V ad (Datatypes.S j) -> (exists b, 0 <= b < size /\ allocated x V b = false) /\ forall b, first x V b -> BBLOCK b x ∈ B;
  an_weaken : forall V ad j j', A V ad j -> (j' <= j)%nat -> A V ad j';
  an_placed : forall V ad p b V' ad' j, p ∈ P -> okp p -> val V ad p = 0 -> first x V b -> placed V ad p b V' ad' -> A V ad (Datatypes.S j) -> A V' ad' j;
  an_same : forall V ad V' j, (forall n, 0 <= n < size -> allocated x V' n = allocated x V n) -> (forall q, okp q -> val V' ad q = val V ad q) ->
    A V ad j -> A V' ad j }.

Lemma avail_allowance P : allowance P (fun V _ => avail V).
Proof using Hx.
  split.
  - intros V _ _ j _ _. apply avail_one.
  - intros V _. apply avail_weaken.
  - intros V ad p b V' ad' j _ Hp _ _. by apply placed_avail.
  - intros V _ V' j Ha _ (l & H1 & H2 & H3 & H4). exists l. split_and!; [done|done| |].
    + intros b Hb. destruct (H3 b Hb) as (Hr & Hf & Hin). split_and!; [apply Hr|apply Hr| |done]. by rewrite Ha.
    + intros b b' Hb Hb'. rewrite Ha by done. by apply H4.
Qed.

(** ** What a system call needs

    The places [P] it is going to fill each need an entry of the log, unless the
    block there is in the log already, and a free block at most. *)

Definition logged (V : Z -> block) (ad : list Z) (L : gset Z) (p : place) : Prop := val V ad p <> 0 /\ val V ad p ∈ L.
#[export] Instance logged_dec V ad L p : Decision (logged V ad L p).
Proof using. unfold logged. apply _. Defined.
Definition need (V : Z -> block) (ad : list Z) (L : gset Z) (P : list place) : nat := length (filter (fun p => ~ logged V ad L p) P).

(** The places [N] have come into the log. *)
Lemma need_less V ad L V' ad' L' P N : NoDup P -> NoDup N -> N ⊆ P -> (forall q, q ∈ P -> logged V ad L q -> logged V' ad' L' q) ->
  (forall q, q ∈ N -> ~ logged V ad L q /\ logged V' ad' L' q) -> (need V' ad' L' P + length N <= need V ad L P)%nat.
Proof using.
  intros HP HN Hsub Hmono Hnew. unfold need. rewrite <- length_app. apply submseteq_length, NoDup_submseteq.
  - apply NoDup_app. split_and!; [by apply NoDup_filter| |done]. intros q [Hq _]%list_elem_of_filter Hin. by apply Hq, Hnew.
  - intros q [[Hq HqP]%list_elem_of_filter|Hq]%elem_of_app; apply list_elem_of_filter.
    + split; [|done]. intros Hl. by apply Hq, Hmono.
    + split; [by apply Hnew|by apply Hsub].
Qed.

Lemma need_pos V ad L P p : p ∈ P -> ~ logged V ad L p -> (0 < need V ad L P)%nat.
Proof using. intros Hp Hl. unfold need. assert (H : p ∈ filter (fun p => ~ logged V ad L p) P) by (by apply list_elem_of_filter). destruct (filter _ P); [by apply not_elem_of_nil in H|simpl; lia]. Qed.

(** Enough of both, with [e] log entries and [k] free blocks to spare. *)
Definition spare (A : (Z -> block) -> list Z -> nat -> Prop) (P : list place) (e k : nat) (d : S) (V D : Z -> block) (ad : list Z) (L : gset Z) : Prop :=
  fsees B d V D [] L (Z.of_nat (need V ad L P + e)) /\ A V ad (need V ad L P + k)%nat.

Lemma geti_run (s : fstate) ip xi : icache s !! ip = Some xi -> geti ip s = Ret xi s.
Proof using. intros E. unfold geti. by rewrite E. Qed.

(** A place that has been filled stays filled. *)
Lemma placed_logged V ad p b V' ad' L L' q : placed V ad p b V' ad' -> L ⊆ L' -> okp q -> logged V ad L q -> logged V' ad' L' q.
Proof using.
  clear Hx. intros HP HL Hq [Hnz Hin]. unfold logged. destruct (decide (q = p)) as [->|Hne].
  - rewrite (pl_val _ _ _ _ _ _ HP), (pl_old _ _ _ _ _ _ HP Hnz). split; [done|set_solver].
  - rewrite (pl_rest _ _ _ _ _ _ HP q Hq Hne). split; [done|set_solver].
Qed.

Section places.
Context (P : list place) (e k : nat) (A : (Z -> block) -> list Z -> nat -> Prop).
Hypothesis HA : allowance P A.
Hypothesis HPn : NoDup P.
Hypothesis HPok : forall p, p ∈ P -> okp p.

Lemma addr_of_ok (s : fstate) ip xi V D L t : sb s = x -> icache s !! ip = Some xi -> i_dev xi = ROOTDEV ->
  vol x V -> tree V (i_addrs xi) -> 0 <= t < 13 -> [t] ∈ P -> spare A P e k (dsk s) V D (i_addrs xi) L ->
  exists b d' V' ad' L', addr_of ip t s = Ret b (put_inode s ip (with_addrs ad' xi) d') /\ placed V (i_addrs xi) [t] b V' ad' /\
    spare A P e k d' V' D ad' L' /\ L ⊆ L'.
Proof using Hx HA HPn HPok.
  intros Esb Hip Hdev HV HT Ht HtP [Hs Hav]. unfold addr_of. rewrite (bind_Ret _ _ _ _ _ (geti_run s ip xi Hip)).
  destruct (aget_is_Some (i_addrs xi) t) as [a Ha]; [unfold alen; rewrite (tr_len _ _ HT); lia|].
  rewrite Ha. unfold bind at 1, deref, ret at 1. assert (Ev : val V (i_addrs xi) [t] = a) by (cbn; by rewrite Ha).
  destruct (Z.eqb_spec a 0) as [->|Hnz].
  - assert (Hnl : ~ logged V (i_addrs xi) L [t]) by (intros [? _]; done). pose proof (need_pos _ _ _ _ _ HtP Hnl) as Hpos.
    assert (Hav1 : A V (i_addrs xi) (Datatypes.S (need V (i_addrs xi) L P - 1 + k))%nat) by (eapply (an_weaken _ _ HA); [exact Hav|lia]). destruct (an_one _ _ HA _ _ _ _ HtP Ev Hav1) as [Hfree Hfirst].
    destruct (balloc_ok x B Hx s V D [] L (Z.of_nat (need V (i_addrs xi) L P + e)) Esb HV ltac:(split; [simpl; lia|by intros ?? ?%not_elem_of_nil]) ltac:(lia) Hfirst Hs Hfree) as (b & d' & V' & Hrun & Hal & Hfst & Hs').
    rewrite Hdev, (bind_Ret _ _ _ _ _ Hrun). unfold bind, modi. cbn [icache set_dsk]. rewrite Hip.
    exists b, d', V', (aset (i_addrs xi) t b), ({[b]} ∪ ({[BBLOCK b x]} ∪ L)). split; [reflexivity|].
    assert (HP : placed V (i_addrs xi) [t] b V' (aset (i_addrs xi) t b)) by (by apply placed_top).
    assert (Hless : (need V' (aset (i_addrs xi) t b) ({[b]} ∪ ({[BBLOCK b x]} ∪ L)) P + length [[t]] <= need V (i_addrs xi) L P)%nat).
    { apply need_less; [done|apply NoDup_singleton|by intros q ->%list_elem_of_singleton| |].
      - intros q Hq. eapply placed_logged; [done|set_solver|by apply HPok].
      - intros q ->%list_elem_of_singleton. split; [done|]. unfold logged. rewrite (pl_val _ _ _ _ _ _ HP). split; [apply HP|set_solver]. }
    simpl in Hless. split_and!; [done|split|set_solver].
    + eapply fsees_weaken; [exact Hs'|]. lia.
    + eapply (an_weaken _ _ HA); [by eapply (an_placed _ _ HA _ _ _ _ _ _ _ HtP (HPok _ HtP))|lia].
  - exists a, (dsk s), V, (i_addrs xi), L. rewrite <- Ev in Hnz |- *. split_and!; try done.
    + unfold put_inode. assert (E : with_addrs (i_addrs xi) xi = xi) by (by destruct xi). rewrite E, list_insert_id by done. by destruct s.
Qed.

Lemma entry_of_ok (s : fstate) V ad D L p j : sb s = x -> vol x V -> tree V ad -> inner p -> 0 <= j < NINDIRECT -> val V ad p <> 0 ->
  p ∈ P -> j :: p ∈ P -> spare A P e k (dsk s) V D ad L ->
  exists b d' V' L', entry_of ROOTDEV (val V ad p) j s = Ret b (set_dsk d' s) /\ placed V ad (j :: p) b V' ad /\ spare A P e k d' V' D ad L' /\ L ⊆ L'.
Proof using Hx HA HPn HPok.
  intros Esb HV HT Hp Hj Hnz HpP HjP [Hs Hav]. destruct (tr_data _ _ HT p (inner_okp p Hp) Hnz) as [Har Haa]. set (a := val V ad p) in *.
  destruct (data_ok x Hx a Har) as [Haok HaB]. assert (Hpne : p <> []) by (by destruct p).
  unfold entry_of. destruct (fsees_bread B _ _ _ _ _ _ a Hs Haok) as (i & d1 & R1 & Hs1 & Hcl); [set_solver|simpl; lia|].
  rewrite (bind_Ret _ _ _ _ _ (disk_run _ s _ _ R1)).
  pose proof (fsees_data B _ _ _ _ _ _ i a Hs1 ltac:(by left)) as R2. rewrite (bind_Ret _ _ _ _ _ (disk_run _ (set_dsk d1 s) _ _ R2)).
  assert (Ev : val V ad (j :: p) = aread (V a) j) by (rewrite val_cons by done; fold a; by rewrite (proj2 (Z.eqb_neq a 0))).
  destruct (Z.eqb_spec (aread (V a) j) 0) as [E0|E0].
  - assert (Hnl : ~ logged V ad L (j :: p)) by (intros [H _]; by rewrite Ev in H). pose proof (need_pos _ _ _ _ _ HjP Hnl) as Hpos.
    assert (Hav1 : A V ad (Datatypes.S (need V ad L P - 1 + k))%nat) by (eapply (an_weaken _ _ HA); [exact Hav|lia]). destruct (an_one _ _ HA _ _ _ _ HjP ltac:(by rewrite Ev) Hav1) as [Hfree Hfirst].
    assert (HH : holdable x V [(i, a)]) by (split; [done|]; by intros i' n [= -> ->]%list_elem_of_singleton).
    destruct (balloc_ok x B Hx (set_dsk d1 s) V D [(i, a)] L (Z.of_nat (need V ad L P + e)) Esb HV HH ltac:(lia) Hfirst Hs1 Hfree) as (b & d3 & V1 & R3 & Hal & Hfst & Hs3).
    pose proof (fsees_data B _ _ _ _ _ _ i a Hs3 ltac:(by left)) as R4.
    destruct (fsees_set B _ _ _ _ _ _ i a (awrite (V1 a) j b) Hs3 ltac:(by left)) as (d5 & R5 & Hs5).
    set (L' := {[a]} ∪ ({[b]} ∪ ({[BBLOCK b x]} ∪ L))). set (V' := <[a := awrite (V1 a) j b]> V1) in *.
    assert (HP : placed V ad (j :: p) b V' ad) by (apply placed_entry; try done; by rewrite Ev).
    assert (Hpj : p <> j :: p) by (intros E; apply (f_equal length) in E; simpl in E; lia).
    assert (Hpv : val V' ad p = a) by (apply (pl_rest _ _ _ _ _ _ HP p (inner_okp p Hp) Hpj)).
    set (N := if decide (a ∈ L) then [j :: p] else [j :: p; p]).
    assert (Hless : (need V' ad L' P + length N <= need V ad L P)%nat).
    { assert (HNs : forall q, q ∈ N -> q = j :: p \/ q = p /\ a ∉ L) by (intros q; unfold N; case_decide; set_solver).
      apply need_less; [done|unfold N; case_decide; repeat constructor; set_solver|intros q [->|[-> _]]%HNs; done| |].
      - intros q Hq. eapply placed_logged; [done|set_solver|by apply HPok].
      - intros q [->|[-> HaL]]%HNs; (split; [done || by intros [_ ?]|]); unfold logged; rewrite ?(pl_val _ _ _ _ _ _ HP), ?Hpv; (split; [done || apply HP|set_solver]). }
    assert (HN : length N = if decide (a ∈ L) then 1%nat else 2%nat) by (unfold N; by case_decide). clearbody N.
    destruct (fsees_log B _ _ _ _ _ _ i a Hs5 ltac:(by left)) as (d6 & R6 & Hs6); [intros HaL _; rewrite decide_False in HN by set_solver; lia|]. fold L' in Hs6.
    destruct (fsees_brelse B _ _ _ _ _ _ i a Hs6 ltac:(set_solver)) as (d7 & R7 & Hs7).
    exists b, d7, V', L'. split.
    { unfold bind at 1. rewrite (bind_Ret _ _ _ _ _ R3). rewrite (bind_Ret _ _ _ _ _ (disk_run _ (set_dsk d3 s) _ _ R4)).
      rewrite (bind_Ret _ _ _ _ _ (disk_run _ (set_dsk d3 s) _ _ R5)), (bind_Ret _ _ _ _ _ (disk_run _ (set_dsk d5 s) _ _ R6)). cbn [ret].
      rewrite (bind_Ret _ _ _ _ _ (disk_run _ (set_dsk d6 s) _ _ R7)). reflexivity. }
    split_and!; [exact HP| |set_solver]. split.
    + eapply fsees_weaken; [exact Hs7|]. destruct (decide (a ∈ L)) as [HaL|HaL]; [rewrite decide_True by set_solver; lia|]. case_decide; lia.
    + eapply (an_weaken _ _ HA); [by eapply (an_placed _ _ HA _ _ _ _ _ _ _ HjP (HPok _ HjP) ltac:(by rewrite Ev) Hfst HP)|]. assert (1 <= length N)%nat by (rewrite HN; destruct (decide (a ∈ L)); lia). lia.
  - destruct (fsees_brelse B _ _ _ _ _ _ i a Hs1 Hcl) as (d3 & R3 & Hs3). exists (aread (V a) j), d3, V, L. split.
    { unfold bind at 1, ret at 1. rewrite (bind_Ret _ _ _ _ _ (disk_run _ (set_dsk d1 s) _ _ R3)). reflexivity. }
    rewrite <- Ev in E0 |- *. split_and!; [by apply placed_id|done|done].
Qed.

(** ** [bmap] *)

(** The tree has only grown, by blocks that were free. *)
Record grown (V : Z -> block) (ad : list Z) (V' : Z -> block) (ad' : list Z) : Prop := {
  gr_val : forall q, okp q -> val V' ad' q = val V ad q \/ val V ad q = 0 /\ allocated x V (val V' ad' q) = false;
  gr_keep : forall n, allocated x V n = true -> datastart x <= n < size -> ~ meta V ad n -> V' n = V n;
  gr_inodes : forall n, n < sb_bmapstart x -> V' n = V n;
  gr_alloc : forall n, 0 <= n < size -> allocated x V n = true -> allocated x V' n = true;
  gr_vol : vol x V';
  gr_tree : tree V' ad' }.

Lemma grown_id V ad : vol x V -> tree V ad -> grown V ad V ad.
Proof using. intros HV HT. split; try done. intros q _. by left. Qed.

Lemma placed_grown V ad p b V' ad' : placed V ad p b V' ad' -> grown V ad V' ad'.
Proof using.
  intros HP. pose proof HP as [P1 P2 P3 P4 P5 P6 P7 P8 P9 P10 P11]. split; try done.
  intros q Hq. destruct (decide (q = p)) as [->|Hne]; [|left; by apply P3].
  destruct (decide (val V ad p = 0)) as [E|E]; [right|left; rewrite P2; by apply P4]. split; [done|]. rewrite P2. by apply P5.
Qed.

Lemma grown_trans V ad V1 ad1 V2 ad2 : tree V ad -> grown V ad V1 ad1 -> grown V1 ad1 V2 ad2 -> grown V ad V2 ad2.
Proof using Hx.
  intros HT [A1 A2 A3 A4 A5 A6] [B1 B2 B3 B4 B5 B6].
  assert (Hback : forall b, allocated x V1 b = false -> 0 <= b < size -> allocated x V b = false).
  { intros b Hb Hr. destruct (allocated x V b) eqn:E; [|done]. rewrite A4 in Hb by done. done. }
  split; try done.
  - intros q Hq. destruct (B1 q Hq) as [E|[E1 E2]].
    + rewrite E. apply (A1 q Hq).
    + destruct (decide (val V2 ad2 q = 0)) as [E0|E0].
      * left. destruct (A1 q Hq) as [E|[E _]]; congruence.
      * right. split; [destruct (A1 q Hq) as [E|[E _]]; congruence|]. apply Hback; [done|].
        destruct (tr_data _ _ B6 q Hq E0) as [Hr _]. apply data_pos in Hr. lia.
  - intros n Hn Hr Hm. rewrite B2; [by apply A2|apply A4; [apply data_pos in Hr; lia|done]|done|].
    intros (Hn0 & q & Hq & E). destruct (A1 q (inner_okp q Hq)) as [E1|[_ E1]].
    + apply Hm. split; [done|]. exists q. split; [done|congruence].
    + rewrite E in E1. congruence.
  - intros n Hn. rewrite B3 by done. by apply A3.
  - intros n Hn Hal. apply B4; [done|]. by apply A4.
Qed.

Record mapped (V : Z -> block) (ad : list Z) (bn b : Z) (V' : Z -> block) (ad' : list Z) : Prop := {
  mp_nz : b <> 0;
  mp_val : fblk V' ad' bn = b;
  mp_rest : forall bn', 0 <= bn' < MAXFILE -> bn' <> bn -> fblk V' ad' bn' = fblk V ad bn';
  mp_old : fblk V ad bn <> 0 -> b = fblk V ad bn;
  mp_new : fblk V ad bn = 0 -> allocated x V b = false /\ forall o, 0 <= o < BSIZE -> V' b o = 0;
  mp_grown : grown V ad V' ad' }.

Lemma placed_mapped V0 ad0 V ad bn b V' ad' : tree V0 ad0 -> grown V0 ad0 V ad -> 0 <= bn < MAXFILE ->
  (forall bn', 0 <= bn' < MAXFILE -> val V ad (leaf bn') = val V0 ad0 (leaf bn')) -> placed V ad (leaf bn) b V' ad' -> mapped V0 ad0 bn b V' ad'.
Proof using Hx.
  intros HT0 HG Hbn Hl HP. pose proof HP as [P1 P2 P3 P4 P5 P6 P7 P8 P9 P10 P11]. unfold fblk. split; try done.
  - intros bn' Hbn' Hne. unfold fblk. rewrite P3; [by apply Hl|by apply leaf_okp|]. intros E. by apply Hne, leaf_inj.
  - unfold fblk. intros Hnz. rewrite <- Hl in * by done. by apply P4.
  - unfold fblk. intros H0. rewrite <- Hl in H0 by done. destruct (P5 H0) as [Hf Hz]. split; [|done].
    destruct (allocated x V0 b) eqn:E; [|done]. rewrite (gr_alloc _ _ _ _ HG) in Hf; [done| |done].
    destruct (tr_data _ _ P11 (leaf bn)) as [Hr _]; [by apply leaf_okp|congruence|]. rewrite P2 in Hr. apply data_pos in Hr. lia.
  - eapply grown_trans; [done|exact HG|by eapply placed_grown].
Qed.

(** Filling an inner place changes no file block. *)
Lemma placed_leaves V ad p b V' ad' : inner p -> placed V ad p b V' ad' ->
  forall bn, 0 <= bn < MAXFILE -> val V' ad' (leaf bn) = val V ad (leaf bn).
Proof using.
  intros Hp HP bn Hbn. destruct (leaf_okp bn Hbn) as [H1 H2]. apply (pl_rest _ _ _ _ _ _ HP); [done|]. intros E. apply H2. by rewrite E.
Qed.

Lemma with_addrs_twice ad ad' xi : with_addrs ad' (with_addrs ad xi) = with_addrs ad' xi.
Proof using. done. Qed.

Section bmap.
Context (s : fstate) (ip : nat) (xi : inode) (V D : Z -> block) (L : gset Z) (bn : Z).
Hypothesis Esb : sb s = x.
Hypothesis Hip : icache s !! ip = Some xi.
Hypothesis Hdev : i_dev xi = ROOTDEV.
Hypothesis HV : vol x V.
Hypothesis HT : tree V (i_addrs xi).
Hypothesis Hbn : 0 <= bn < MAXFILE.
Hypothesis Hpath : path bn ⊆ P.
Hypothesis Hs : spare A P e k (dsk s) V D (i_addrs xi) L.
Abbreviation ad := (i_addrs xi).

Definition bmap_post (run : outcome fstate Z) : Prop :=
  exists b d' V' ad' L', run = Ret b (put_inode s ip (with_addrs ad' xi) d') /\ mapped V ad bn b V' ad' /\ spare A P e k d' V' D ad' L' /\ L ⊆ L'.

Lemma bmap_direct : bn < NDIRECT -> bmap_post (addr_of ip bn s).
Proof using All.
  intros H1. assert (El : leaf bn = [bn]) by (unfold leaf; by rewrite (proj2 (Z.ltb_lt _ _))). unfold path in Hpath. rewrite El in Hpath.
  destruct (addr_of_ok s ip xi V D L bn) as (b & d' & V' & ad' & L' & Hrun & HP & Hs' & HL);
    [done|done|done|done|done|unfold NDIRECT in *; lia|apply Hpath; by left|done|].
  exists b, d', V', ad', L'. split_and!; [done| |done|done].
  apply (placed_mapped V ad V ad bn b V' ad'); [done|by apply grown_id|done|done|]. by rewrite El.
Qed.

Lemma bmap_indirect : NDIRECT <= bn < NDIRECT + NINDIRECT ->
  bmap_post ((let* addr := addr_of ip NDIRECT in entry_of (i_dev xi) addr (bn - NDIRECT)) s).
Proof using All.
  intros H1. assert (El : leaf bn = [bn - NDIRECT; NDIRECT]) by (unfold leaf; by rewrite (proj2 (Z.ltb_ge _ _)), (proj2 (Z.ltb_lt _ _)) by lia).
  unfold path in Hpath. rewrite El in Hpath.
  destruct (addr_of_ok s ip xi V D L NDIRECT) as (b1 & d1 & V1 & ad1 & L1 & R1 & HP1 & Hs1 & HL1);
    [done|done|done|done|done|done|apply Hpath; right; by left|done|].
  rewrite (bind_Ret _ _ _ _ _ R1), Hdev. pose proof (pl_val _ _ _ _ _ _ HP1) as Ev1. pose proof (pl_nz _ _ _ _ _ _ HP1) as Hnz1.
  destruct (entry_of_ok (put_inode s ip (with_addrs ad1 xi) d1) V1 ad1 D L1 [NDIRECT] (bn - NDIRECT)) as (b & d' & V' & L' & Hrun & HP & Hs' & HL);
    [done|apply HP1|apply HP1|by left|lia|congruence|apply Hpath; right; by left|apply Hpath; by left|exact Hs1|].
  rewrite Ev1 in Hrun.
  pose proof (placed_leaves V ad [NDIRECT] b1 V1 ad1 ltac:(by left) HP1) as Hlv.
  exists b, d', V', ad1, L'. split_and!; [exact Hrun| |done|set_solver].
  apply (placed_mapped V ad V1 ad1 bn b V' ad1); [done|by eapply placed_grown|done|exact Hlv|by rewrite El].
Qed.

Lemma bmap_double : let m := bn - NDIRECT - NINDIRECT in 0 <= m ->
  bmap_post ((let* addr := addr_of ip (NDIRECT + 1) in
    let* addr := entry_of (i_dev xi) addr (m / NADDR_PER_BLOCK) in entry_of (i_dev xi) addr (m mod NADDR_PER_BLOCK)) s).
Proof using All.
  intros m Hm0. assert (Hm : 0 <= m < 65536) by (unfold m in *; cases_const; lia).
  assert (Hi : 0 <= m / NADDR_PER_BLOCK < NINDIRECT) by (cases_const; dlia).
  assert (Hj : 0 <= m mod NADDR_PER_BLOCK < NINDIRECT) by (cases_const; dlia).
  assert (El : leaf bn = [m mod NADDR_PER_BLOCK; m / NADDR_PER_BLOCK; NDIRECT + 1]) by (unfold leaf; by rewrite !(proj2 (Z.ltb_ge _ _)) by (unfold m in *; cases_const; lia)).
  unfold path in Hpath. rewrite El in Hpath. set (p1 := [NDIRECT + 1]) in *. set (p2 := m / NADDR_PER_BLOCK :: p1) in *.
  assert (In1 : inner p1) by (by right). assert (In2 : inner p2) by (by split).
  assert (P1 : p1 ∈ P) by (apply Hpath; right; right; by left). assert (P2 : p2 ∈ P) by (apply Hpath; right; by left).
  destruct (addr_of_ok s ip xi V D L (NDIRECT + 1)) as (b1 & d1 & V1 & ad1 & L1 & R1 & HP1 & Hs1 & HL1); [done|done|done|done|done|done|done|done|]. fold p1 in HP1.
  rewrite (bind_Ret _ _ _ _ _ R1), Hdev. pose proof (pl_val _ _ _ _ _ _ HP1) as Ev1. pose proof (pl_nz _ _ _ _ _ _ HP1) as Hnz1.
  destruct (entry_of_ok (put_inode s ip (with_addrs ad1 xi) d1) V1 ad1 D L1 p1 (m / NADDR_PER_BLOCK)) as (b2 & d2 & V2 & L2 & R2 & HP2 & Hs2 & HL2);
    [done|apply HP1|apply HP1|done|done|congruence|done|done|exact Hs1|]. fold p2 in HP2.
  rewrite Ev1 in R2. rewrite (bind_Ret _ _ _ _ _ R2). pose proof (pl_val _ _ _ _ _ _ HP2) as Ev2. pose proof (pl_nz _ _ _ _ _ _ HP2) as Hnz2.
  destruct (entry_of_ok (put_inode s ip (with_addrs ad1 xi) d2) V2 ad1 D L2 p2 (m mod NADDR_PER_BLOCK)) as (b & d' & V' & L' & Hrun & HP & Hs' & HL);
    [done|apply HP2|apply HP2|done|done|congruence|done|apply Hpath; by left|exact Hs2|].
  rewrite Ev2 in Hrun.
  assert (Hlv : forall bn', 0 <= bn' < MAXFILE -> val V2 ad1 (leaf bn') = val V ad (leaf bn')).
  { intros bn' Hbn'. rewrite (placed_leaves _ _ _ _ _ _ In2 HP2), (placed_leaves _ _ _ _ _ _ In1 HP1) by done. done. }
  exists b, d', V', ad1, L'. split_and!; [exact Hrun| |done|set_solver].
  apply (placed_mapped V ad V2 ad1 bn b V' ad1); [done| |done|exact Hlv|by rewrite El].
  eapply grown_trans; [done|by eapply placed_grown|by eapply placed_grown].
Qed.

(** [bmap] of a file block returns its block number, allocating it and the
    address blocks above it where they are missing. *)
Lemma bmap_ok : bmap_post (bmap ip bn s).
Proof using All.
  unfold bmap. rewrite (bind_Ret _ _ _ _ _ (geti_run s ip xi Hip)). destruct (Z.ltb_spec bn NDIRECT); [by apply bmap_direct|]. cbv zeta.
  destruct (Z.ltb_spec (bn - NDIRECT) NINDIRECT); [apply bmap_indirect; lia|].
  rewrite (proj2 (Z.ltb_lt _ _)) by (cases_const; lia). apply bmap_double. lia.
Qed.

End bmap.

End places.

End tree.

End Fsmap.
