(* ===== verification/Fsread.v ===== *)
(** Reading files: [readi] gives the bytes of the file, to user memory or to the
    kernel, and changes nothing on the disk. *)

From stdpp Require Import functions.
From S2P Require Import Prelude Mem Kstring Umem Blk Store Fs Fsalloc Fsmap.
Import Kstring Umem Store Fs Fsalloc Fsmap.

Module Fsread.

(** The byte of a file at offset [o]; a missing block reads as zeros. *)
Definition cont (V : Z -> block) (ad : list Z) (o : Z) : Z :=
  if fblk V ad (o / BSIZE) =? 0 then 0 else V (fblk V ad (o / BSIZE)) (o mod BSIZE).
Definition cbytes (V : Z -> block) (ad : list Z) (off n : Z) : list Z := (fun i => cont V ad (off + i)) <$> seqZ 0 n.

(** Every block below the size exists. *)
Definition nohole (V : Z -> block) (ad : list Z) (sz : Z) : Prop := forall o, 0 <= o < sz -> fblk V ad (o / BSIZE) <> 0.

Lemma cbytes_length V ad off n : 0 <= n -> alen (cbytes V ad off n) = n.
Proof. intros Hn. unfold alen, cbytes. rewrite length_fmap, length_seqZ. lia. Qed.

Lemma cbytes_lookup V ad off n i : 0 <= i < n -> cbytes V ad off n !! Z.to_nat i = Some (cont V ad (off + i)).
Proof.
  intros Hi. unfold cbytes. rewrite list_lookup_fmap, lookup_seqZ_lt by lia. cbn. by rewrite Z.add_0_l, Z2Nat.id by lia.
Qed.

Lemma cbytes_bytes V ad off m : 0 <= off -> 0 <= m <= BSIZE - off mod BSIZE -> fblk V ad (off / BSIZE) <> 0 ->
  Mem.bytes (Z.to_nat m) (V (fblk V ad (off / BSIZE))) (off mod BSIZE) = cbytes V ad off m.
Proof.
  intros Hoff Hm Hnz. apply list_eq. intros i. destruct (decide (i < Z.to_nat m)%nat) as [Hi|Hi]; cycle 1.
  { rewrite !lookup_ge_None_2; [done| |]; rewrite ?length_bytes; [|lia]. unfold cbytes. rewrite length_fmap, length_seqZ. lia. }
  rewrite bytes_lookup by done. rewrite <- (Nat2Z.id i) at 2. rewrite cbytes_lookup by lia. unfold cont.
  assert (E1 : (off + Z.of_nat i) / BSIZE = off / BSIZE) by (unfold Blk.BSIZE in *; dlia).
  assert (E2 : (off + Z.of_nat i) mod BSIZE = off mod BSIZE + Z.of_nat i) by (unfold Blk.BSIZE in *; dlia).
  rewrite E1, E2, (proj2 (Z.eqb_neq _ _)) by done. done.
Qed.

Lemma cont_byte V ad o : (forall n, mem_ok (V n)) -> 0 <= cont V ad o < 256.
Proof. intros HV. unfold cont. destruct (_ =? 0); [lia|]. apply HV. Qed.

Lemma cbytes_ok V ad off n : (forall n, mem_ok (V n)) -> Umem.bytes (cbytes V ad off n).
Proof. intros HV. apply Forall_forall. intros b (i & -> & _)%list_elem_of_fmap. by apply cont_byte. Qed.

Section read.
Context {S : Type} {ST : Store S} {U : Type} {UM : UserMem U}.
Context (x : superblock).
Hypothesis Hx : geom x.
Abbreviation fstate := (fs (S := S) (U := U)).

Lemma mapped_cont V ad bn b V' ad' : tree x V ad -> mapped x V ad bn b V' ad' ->
  forall o, 0 <= o < MAXFILE * BSIZE -> cont V' ad' o = cont V ad o.
Proof using Hx.
  intros HT HM o Ho. assert (Hbo : 0 <= o / BSIZE < MAXFILE) by (unfold Blk.BSIZE in *; dlia). unfold cont.
  assert (Hsame : fblk V ad (o / BSIZE) <> 0 -> V' (fblk V ad (o / BSIZE)) = V (fblk V ad (o / BSIZE))).
  { intros Hnz. destruct (leaf_okp _ Hbo) as [Hl Hli]. destruct (tr_data _ _ _ HT (leaf (o / BSIZE)) Hl Hnz) as [Hr Ha].
    apply (gr_keep _ _ _ _ _ (mp_grown _ _ _ _ _ _ _ HM)); [done|done|]. intros (_ & p & Hp & E). apply Hli.
    rewrite <- (tr_inj _ _ _ HT p (leaf (o / BSIZE))); [done|by apply inner_okp|done|unfold fblk in *; congruence|done]. }
  destruct (decide (o / BSIZE = bn)) as [E|Hne].
  - rewrite E in *. rewrite (mp_val _ _ _ _ _ _ _ HM), (proj2 (Z.eqb_neq b 0)) by apply HM. destruct (Z.eqb_spec (fblk V ad bn) 0) as [E0|E0].
    + apply (mp_new _ _ _ _ _ _ _ HM E0). unfold Blk.BSIZE. dlia.
    + rewrite (mp_old _ _ _ _ _ _ _ HM E0). by rewrite Hsame.
  - rewrite (mp_rest _ _ _ _ _ _ _ HM) by done. destruct (Z.eqb_spec (fblk V ad (o / BSIZE)) 0) as [|E0]; [done|]. by rewrite Hsame.
Qed.

(** ** Block addresses that exist *)

Lemma entry_hit (s : fstate) V D L cap a j : sees (dsk s) V D [] L cap -> okb a -> (size L < 28)%nat -> aread (V a) j <> 0 ->
  exists d', entry_of ROOTDEV a j s = Ret (aread (V a) j) (set_dsk d' s) /\ sees d' V D [] L cap.
Proof using.
  clear Hx. intros Hs Ha Hl Hnz. unfold entry_of.
  destruct (sees_bread _ _ _ _ _ _ a Hs Ha) as (i & d1 & R1 & Hs1); [set_solver|right; unfold Blk.NBUF; simpl; lia|].
  rewrite (bind_Ret _ _ _ _ _ (disk_run _ s _ _ R1)).
  pose proof (sees_data _ _ _ _ _ _ i a Hs1 ltac:(by left)) as R2. rewrite (bind_Ret _ _ _ _ _ (disk_run _ (set_dsk d1 s) _ _ R2)).
  rewrite (proj2 (Z.eqb_neq _ _)) by done. destruct (sees_brelse _ _ _ _ _ _ i a Hs1) as (d3 & R3 & Hs3); [intros HL; eapply (sees_clean _ _ _ _ _ _ a Hs); [set_solver|done]|].
  exists d3. split; [|done]. unfold bind at 1, ret at 1. rewrite (bind_Ret _ _ _ _ _ (disk_run _ (set_dsk d1 s) _ _ R3)). reflexivity.
Qed.

Lemma addr_hit (s : fstate) ip xi V t : icache s !! ip = Some xi -> val V (i_addrs xi) [t] <> 0 -> addr_of ip t s = Ret (val V (i_addrs xi) [t]) s.
Proof using.
  intros Hip Hnz. unfold addr_of. rewrite (bind_Ret _ _ _ _ _ (geti_run s ip xi Hip)). cbn [val] in *.
  destruct (aget (i_addrs xi) t) as [a|]; [|done]. cbn [default] in *. unfold bind, deref, ret. by rewrite (proj2 (Z.eqb_neq a 0)).
Qed.

Lemma val_parent V ad k q : q <> [] -> val V ad (k :: q) <> 0 -> val V ad q <> 0 /\ val V ad (k :: q) = aread (V (val V ad q)) k.
Proof using. intros Hq Hnz. rewrite val_cons in * by done. by destruct (Z.eqb_spec (val V ad q) 0). Qed.

Lemma bmap_hit (s : fstate) ip xi V D L cap bn : icache s !! ip = Some xi -> i_dev xi = ROOTDEV -> tree x V (i_addrs xi) ->
  sees (dsk s) V D [] L cap -> (size L < 28)%nat -> 0 <= bn < MAXFILE -> fblk V (i_addrs xi) bn <> 0 ->
  exists d', bmap ip bn s = Ret (fblk V (i_addrs xi) bn) (set_dsk d' s) /\ sees d' V D [] L cap.
Proof using Hx.
  intros Hip Hdev HT Hs Hl Hbn Hnz. unfold bmap. rewrite (bind_Ret _ _ _ _ _ (geti_run s ip xi Hip)).
  assert (Hok : forall p, inner p -> val V (i_addrs xi) p <> 0 -> okb (val V (i_addrs xi) p)).
  { intros p Hp Hpz. apply (data_ok x Hx). apply (tr_data _ _ _ HT p (inner_okp p Hp) Hpz). }
  unfold fblk, leaf in *. destruct (Z.ltb_spec bn NDIRECT) as [H1|H1].
  { exists (dsk s). split; [|done]. rewrite (addr_hit s ip xi V) by done. by destruct s. }
  cbv zeta. destruct (Z.ltb_spec (bn - NDIRECT) NINDIRECT) as [H2|H2].
  { pose proof Hnz as Hnz0. apply val_parent in Hnz as [Hp E]; [|done]. rewrite (bind_Ret _ _ _ _ _ (addr_hit s ip xi V NDIRECT Hip Hp)), Hdev.
    rewrite E. apply entry_hit; [done|by apply Hok; [left|]|done|]. congruence. }
  rewrite (proj2 (Z.ltb_lt _ _)) by (cases_const; lia). set (m := bn - NDIRECT - NINDIRECT) in *.
  pose proof Hnz as Hnz0. apply val_parent in Hnz as [Hp E]; [|done]. pose proof Hp as Hp'. apply val_parent in Hp as [Hpp E1]; [|done].
  rewrite (bind_Ret _ _ _ _ _ (addr_hit s ip xi V (NDIRECT + 1) Hip Hpp)), Hdev.
  assert (Hin : inner [m / NADDR_PER_BLOCK; NDIRECT + 1]) by (split; [done|unfold m in *; cases_const; dlia]).
  destruct (entry_hit s V D L cap (val V (i_addrs xi) [NDIRECT + 1]) (m / NADDR_PER_BLOCK)) as (d1 & R1 & Hs1);
    [done|by apply Hok; [right|]|done|congruence|]. rewrite (bind_Ret _ _ _ _ _ R1). rewrite E, <- E1.
  apply (entry_hit (set_dsk d1 s)); [done|by apply Hok|done|]. rewrite E1 in *. congruence.
Qed.

(** ** [readi] *)

(** A file that [readi] and [writei] work on. *)
Record file (V : Z -> block) (xi : inode) : Prop := {
  fi_dev : i_dev xi = ROOTDEV;
  fi_tree : tree x V (i_addrs xi);
  fi_size : 0 <= i_size xi <= MAXFILE * BSIZE;
  fi_hole : nohole V (i_addrs xi) (i_size xi) }.

(** The state with other memories and another disk. *)
Definition put_mem (s : fstate) (u : U) (m : mem) (d : S) : fstate := mk_fs d (sb s) (icache s) u m (de s) (cwd s).

(** Enough rounds for [rem] bytes from [off]. *)
Definition rounds (fuel : nat) (off rem : Z) : Prop :=
  1 <= Z.of_nat fuel /\ (0 < rem -> (off mod BSIZE + rem + BSIZE - 1) / BSIZE + 1 <= Z.of_nat fuel).

Lemma rounds_io off n : 0 <= off -> 0 <= n -> rounds (io_fuel n) off n.
Proof using. clear Hx. intros Ho Hn. unfold rounds, io_fuel, Blk.BSIZE. split; [dlia|]. intros _. dlia. Qed.

Lemma rounds_next fuel off rem : 0 <= off -> 0 < rem -> rounds (Datatypes.S fuel) off rem ->
  let m := Z.min rem (BSIZE - off mod BSIZE) in 0 < m <= rem /\ m <= BSIZE - off mod BSIZE /\ rounds fuel (off + m) (rem - m).
Proof using.
  clear Hx. intros Ho Hr [H1 H2] m. specialize (H2 Hr). unfold rounds, Blk.BSIZE in *.
  assert (0 <= off mod 1024 < 1024) by dlia. assert (Hm : 0 < m <= rem /\ m <= 1024 - off mod 1024) by lia.
  split_and!; try lia.
  - assert (1 <= (off mod 1024 + rem + 1024 - 1) / 1024) by (apply Z.div_le_lower_bound; lia). lia.
  - intros Hlt. assert (m = 1024 - off mod 1024) by lia.
    assert (E : (off + m) mod 1024 = 0) by dlia. rewrite E.
    assert (E2 : (off mod 1024 + rem + 1024 - 1) / 1024 = (0 + (rem - m) + 1024 - 1) / 1024 + 1).
    { replace (off mod 1024 + rem + 1024 - 1) with (0 + (rem - m) + 1024 - 1 + 1 * 1024) by lia. by rewrite Z.div_add by lia. }
    lia.
Qed.

Lemma chunk_min n tot off : 0 <= tot <= n -> n < 2 ^ 32 -> chunk n tot off = Z.min (n - tot) (BSIZE - off mod BSIZE).
Proof using. clear Hx. intros Ht Hn. unfold chunk. by rewrite u32_small by lia. Qed.

(** One round: the bytes of a block go to [either_copyout]. *)
Lemma readi_step (s : fstate) ip xi V D L cap ud dst off n tot fuel : icache s !! ip = Some xi -> file V xi ->
  sees (dsk s) V D [] L cap -> (size L < 28)%nat -> 0 <= tot < n -> n < 2 ^ 32 -> 0 <= off -> off + (n - tot) <= i_size xi ->
  let m := Z.min (n - tot) (BSIZE - off mod BSIZE) in
  exists d', sees d' V D [] L cap /\ forall r u k,
    either_copyout ud dst (cbytes V (i_addrs xi) off m) s = Ret r (put_mem s u k (dsk s)) ->
    readi_loop (Datatypes.S fuel) ip ud dst off n tot s =
      if r =? -1 then Ret tot (put_mem s u k d')
      else readi_loop fuel ip ud (u64 (dst + m)) (u32 (off + m)) n (u32 (tot + m)) (put_mem s u k d').
Proof using Hx.
  intros Hip HF Hs Hl Htot Hn Hoff Hend m. pose proof (fi_size _ _ HF) as Hsz.
  assert (Hm : 0 < m /\ m <= BSIZE - off mod BSIZE) by (unfold m, Blk.BSIZE in *; dlia).
  assert (Hbn : 0 <= off / BSIZE < MAXFILE) by (unfold Blk.BSIZE in *; dlia).
  assert (Hnz : fblk V (i_addrs xi) (off / BSIZE) <> 0) by (apply (fi_hole _ _ HF); lia).
  destruct (bmap_hit s ip xi V D L cap (off / BSIZE) Hip (fi_dev _ _ HF) (fi_tree _ _ HF) Hs Hl Hbn Hnz) as (d1 & R1 & Hs1).
  set (b := fblk V (i_addrs xi) (off / BSIZE)) in *.
  assert (Hb : okb b) by (apply (data_ok x Hx); apply (tr_data _ _ _ (fi_tree _ _ HF) (leaf (off / BSIZE))); [by apply leaf_okp|done]).
  destruct (sees_bread _ _ _ _ _ _ b Hs1 Hb) as (i & d2 & R2 & Hs2); [set_solver|right; unfold Blk.NBUF; simpl; lia|].
  pose proof (sees_data _ _ _ _ _ _ i b Hs2 ltac:(by left)) as R3.
  destruct (sees_brelse _ _ _ _ _ _ i b Hs2) as (d4 & R4 & Hs4); [intros HL; eapply (sees_clean _ _ _ _ _ _ b Hs1); [set_solver|done]|].
  exists d4. split; [done|]. intros r u k Hcp. cbn [readi_loop]. rewrite (proj2 (Z.ltb_lt _ _)) by lia.
  rewrite (bind_Ret _ _ _ _ _ (geti_run s ip xi Hip)), (bind_Ret _ _ _ _ _ R1), (fi_dev _ _ HF).
  rewrite (bind_Ret _ _ _ _ _ (disk_run _ (set_dsk d1 s) _ _ R2)). cbv zeta.
  rewrite (bind_Ret _ _ _ _ _ (disk_run _ (set_dsk d2 s) _ _ R3)), chunk_min by lia. fold m.
  unfold b. rewrite cbytes_bytes by (done || lia).
  assert (Hcp' : either_copyout ud dst (cbytes V (i_addrs xi) off m) (set_dsk d2 s) = Ret r (put_mem s u k d2)).
  { revert Hcp. unfold either_copyout, bind, gets, modify, ret. destruct (negb _).
    - cbn [user set_dsk]. destruct (ucopyout (user s) dst _) as [b' u']. by intros [= <- <- <-].
    - by intros [= <- <- <-]. }
  rewrite (bind_Ret _ _ _ _ _ Hcp'), (bind_Ret _ _ _ _ _ (disk_run _ (put_mem s u k d2) _ _ R4)). by destruct (r =? -1).
Qed.

Section loops.
Context (ip : nat) (xi : inode) (V D : Z -> block) (L : gset Z) (cap n : Z).
Hypothesis HF : file V xi.
Hypothesis HV : forall n, mem_ok (V n).
Hypothesis HL : (size L < 28)%nat.
Hypothesis Hn : 0 <= n < 2 ^ 32.
Abbreviation ad := (i_addrs xi).

(** To user memory: [k] bytes arrive, and all of the last block before the
    failure count. *)
Lemma readi_user_loop ud : ud <> 0 -> forall fuel (s : fstate) dst off tot, icache s !! ip = Some xi -> sees (dsk s) V D [] L cap ->
  uok (user s) -> 0 <= tot <= n -> 0 <= dst -> dst + (n - tot) < 2 ^ 64 -> 0 <= off -> off + (n - tot) <= i_size xi -> rounds fuel off (n - tot) ->
  exists tot' k u' d', readi_loop fuel ip ud dst off n tot s = Ret tot' (put_mem s u' (kmem s) d') /\ sees d' V D [] L cap /\ uok u' /\
    0 <= k <= n - tot /\ tot <= tot' <= tot + k /\ (k = n - tot <-> tot' = n) /\
    forall a, 0 <= a -> uview u' a = if decide (dst <= a < dst + k) then Some (cont V ad (off + (a - dst))) else uview (user s) a.
Proof using All.
  intros Hud. induction fuel as [|fuel IH]; intros s dst off tot Hip Hs Hu Htot Hdst Hend Hoff Hsz Hrd; [destruct Hrd; lia|].
  destruct (decide (tot = n)) as [->|Hne].
  { exists n, 0, (user s), (dsk s). cbn [readi_loop]. rewrite Z.ltb_irrefl. split_and!; try done; try lia.
    - by destruct s.
    - intros a Ha. by rewrite decide_False by lia. }
  destruct (rounds_next fuel off (n - tot) Hoff ltac:(lia) Hrd) as (Hm & Hm2 & Hrd'). set (m := Z.min (n - tot) (BSIZE - off mod BSIZE)) in *.
  destruct (readi_step s ip xi V D L cap ud dst off n tot fuel Hip HF Hs HL) as (d1 & Hs1 & Hrun); [lia..|]. fold m in Hrun.
  pose proof (fi_size _ _ HF) as Hfs. assert (HM : MAXFILE * BSIZE < 2 ^ 32) by done.
  destruct (ucopyout_ok (user s) dst (cbytes V ad off m) Hu Hdst) as (k & b & u1 & Hcp & Hu1 & Hk & Hb & Hv);
    [rewrite cbytes_length by lia; unfold ULIMIT, Blk.BSIZE in *; dlia|by apply cbytes_ok|].
  assert (Hlen : length (cbytes V ad off m) = Z.to_nat m) by (pose proof (cbytes_length V ad off m) as E; unfold alen in E; lia).
  rewrite Hlen in Hk, Hb.
  rewrite (Hrun (if b then 0 else -1) u1 (kmem s)).
  2:{ unfold either_copyout, bind, gets, modify, ret. rewrite (proj2 (Z.eqb_neq _ _)) by done. cbn [negb]. by rewrite Hcp. }
  assert (Hv1 : forall a, 0 <= a -> uview u1 a = if decide (dst <= a < dst + Z.of_nat k) then Some (cont V ad (off + (a - dst))) else uview (user s) a).
  { intros a Ha. rewrite (Hv a Ha). destruct (decide _); [|done]. apply cbytes_lookup. lia. }
  destruct b.
  - assert (Ek : k = Z.to_nat m) by (by apply Hb). cbn [Z.eqb]. rewrite !u32_small, u64_small by lia.
    destruct (IH (put_mem s u1 (kmem s) d1) (dst + m) (off + m) (tot + m)) as (tot' & k' & u' & d' & R & Hs' & Hu' & Hk' & Ht' & Hf' & Hv');
      [done|done|done|lia|lia|lia|lia|lia|by replace (n - (tot + m)) with (n - tot - m) by lia|].
    exists tot', (m + k'), u', d'. split_and!; try done; try lia. intros a Ha. rewrite Hv' by done. cbn [user put_mem]. rewrite Hv1 by done.
    destruct (decide (dst + m <= a < dst + m + k')) as [Hr|Hr].
    + rewrite decide_True by lia. do 2 f_equal. lia.
    + destruct (decide (dst <= a < dst + Z.of_nat k)); [rewrite decide_True by lia; done|rewrite decide_False by lia; done].
  - cbn [Z.eqb]. assert (k <> Z.to_nat m) by (intros E; apply Hb in E; done).
    exists tot, (Z.of_nat k), u1, d1. split_and!; try done; lia.
Qed.

(** To kernel memory. *)
Lemma readi_kern_loop fuel : forall (s : fstate) dst off tot, icache s !! ip = Some xi -> sees (dsk s) V D [] L cap ->
  0 <= tot <= n -> 0 <= dst -> dst + (n - tot) < 2 ^ 64 -> 0 <= off -> off + (n - tot) <= i_size xi -> rounds fuel off (n - tot) ->
  exists m' d', readi_loop fuel ip 0 dst off n tot s = Ret n (put_mem s (user s) m' d') /\ sees d' V D [] L cap /\
    forall a, m' a = if decide (dst <= a < dst + (n - tot)) then cont V ad (off + (a - dst)) else kmem s a.
Proof using All.
  induction fuel as [|fuel IH]; intros s dst off tot Hip Hs Htot Hdst Hend Hoff Hsz Hrd; [destruct Hrd; lia|].
  destruct (decide (tot = n)) as [->|Hne].
  { exists (kmem s), (dsk s). cbn [readi_loop]. rewrite Z.ltb_irrefl. split_and!; try done; [by destruct s|].
    intros a. by rewrite decide_False by lia. }
  destruct (rounds_next fuel off (n - tot) Hoff ltac:(lia) Hrd) as (Hm & Hm2 & Hrd'). set (m := Z.min (n - tot) (BSIZE - off mod BSIZE)) in *.
  destruct (readi_step s ip xi V D L cap 0 dst off n tot fuel Hip HF Hs HL) as (d1 & Hs1 & Hrun); [lia..|]. fold m in Hrun.
  pose proof (fi_size _ _ HF) as Hfs. assert (HM : MAXFILE * BSIZE < 2 ^ 32) by done.
  rewrite (Hrun 0 (user s) (put_bytes (kmem s) dst (cbytes V ad off m))) by done. cbn [Z.eqb]. rewrite !u32_small, u64_small by lia.
  destruct (IH (put_mem s (user s) (put_bytes (kmem s) dst (cbytes V ad off m)) d1) (dst + m) (off + m) (tot + m)) as (m' & d' & R & Hs' & Hv');
    [done|done|lia|lia|lia|lia|lia|by replace (n - (tot + m)) with (n - tot - m) by lia|].
  exists m', d'. split_and!; try done. intros a. rewrite Hv'. cbn [kmem put_mem].
  pose proof (cbytes_length V ad off m ltac:(lia)) as Hlen. unfold alen in Hlen.
  destruct (decide (dst + m <= a < dst + m + (n - (tot + m)))) as [Hr|Hr]; [rewrite decide_True by lia; f_equal; lia|].
  destruct (decide (dst <= a < dst + m)) as [Hr2|Hr2].
  - rewrite decide_True by lia. replace a with (dst + Z.of_nat (Z.to_nat (a - dst))) at 1 by lia.
    rewrite (put_bytes_in _ _ _ _ _ (cbytes_lookup V ad off m (a - dst) ltac:(lia))). apply u8_small, cont_byte, HV.
  - rewrite decide_False by lia. apply put_bytes_out. lia.
Qed.

End loops.

(** The number of bytes there are to read. *)
Definition readable (xi : inode) (off n : Z) : Z := if i_size xi <? off then 0 else Z.min n (i_size xi - off).

Lemma readi_head (s : fstate) ip xi ud dst off n : icache s !! ip = Some xi -> 0 <= i_size xi <= MAXFILE * BSIZE -> 0 <= off -> 0 <= n -> off + n < 2 ^ 32 ->
  readi ip ud dst off n s =
    if i_size xi <? off then Ret 0 s
    else (let* tot := readi_loop (io_fuel (readable xi off n)) ip ud dst off (readable xi off n) 0 in ret (s32 tot)) s.
Proof using.
  clear Hx. intros Hip Hsz Ho Hn Hend. unfold readi. rewrite (bind_Ret _ _ _ _ _ (geti_run s ip xi Hip)), u32_small by lia.
  rewrite (proj2 (Z.ltb_ge (off + n) off)) by lia. rewrite orb_false_r. assert (HM : MAXFILE * BSIZE < 2 ^ 31) by done.
  unfold readable. destruct (Z.ltb_spec (i_size xi) off) as [H1|H1]; [done|].
  destruct (Z.ltb_spec (i_size xi) (off + n)) as [H2|H2].
  - rewrite u32_small by lia. by replace (Z.min n (i_size xi - off)) with (i_size xi - off) by lia.
  - by replace (Z.min n (i_size xi - off)) with n by lia.
Qed.

Lemma readable_range xi off n : 0 <= i_size xi -> 0 <= off -> 0 <= n -> 0 <= readable xi off n <= n /\ (off <= i_size xi -> off + readable xi off n <= i_size xi).
Proof using. clear Hx. intros. unfold readable. destruct (Z.ltb_spec (i_size xi) off); lia. Qed.

Lemma readi_user (s : fstate) ip xi V D L cap ud dst off n : icache s !! ip = Some xi -> file V xi -> (forall n, mem_ok (V n)) ->
  sees (dsk s) V D [] L cap -> (size L < 28)%nat -> uok (user s) -> ud <> 0 -> 0 <= dst -> dst + n < 2 ^ 64 -> 0 <= off -> 0 <= n -> off + n < 2 ^ 32 ->
  exists r k u' d', readi ip ud dst off n s = Ret r (put_mem s u' (kmem s) d') /\ sees d' V D [] L cap /\ uok u' /\
    0 <= r <= k /\ k <= readable xi off n /\ (k = readable xi off n <-> r = readable xi off n) /\
    forall a, 0 <= a -> uview u' a = if decide (dst <= a < dst + k) then Some (cont V (i_addrs xi) (off + (a - dst))) else uview (user s) a.
Proof using Hx.
  intros Hip HF HV Hs HL Hu Hud Hdst Hdn Hoff Hn Hend. pose proof (fi_size _ _ HF) as Hsz. rewrite (readi_head s ip xi) by done.
  destruct (readable_range xi off n) as [Hr1 Hr2]; [lia..|]. assert (HM : MAXFILE * BSIZE < 2 ^ 31) by done.
  destruct (Z.ltb_spec (i_size xi) off) as [H1|H1].
  - assert (E : readable xi off n = 0) by (unfold readable; by rewrite (proj2 (Z.ltb_lt _ _))). rewrite E.
    exists 0, 0, (user s), (dsk s). split_and!; try done; [by destruct s|]. intros a Ha. by rewrite decide_False by lia.
  - specialize (Hr2 H1). destruct (readi_user_loop ip xi V D L cap (readable xi off n) HF HV HL ltac:(lia) ud Hud (io_fuel (readable xi off n)) s dst off 0)
      as (tot & k & u' & d' & R & Hs' & Hu' & Hk & Ht & Hf & Hv); [done|done|done|lia|lia|lia|lia|lia|rewrite Z.sub_0_r; apply rounds_io; lia|].
    rewrite (bind_Ret _ _ _ _ _ R). exists (s32 tot), k, u', d'. rewrite s32_small by lia. rewrite Z.sub_0_r in *. by split_and!; try lia.
Qed.

Lemma readi_kern (s : fstate) ip xi V D L cap dst off n : icache s !! ip = Some xi -> file V xi -> (forall n, mem_ok (V n)) ->
  sees (dsk s) V D [] L cap -> (size L < 28)%nat -> 0 <= dst -> dst + n < 2 ^ 64 -> 0 <= off <= i_size xi -> 0 <= n -> off + n < 2 ^ 32 ->
  exists m' d', readi ip 0 dst off n s = Ret (readable xi off n) (put_mem s (user s) m' d') /\ sees d' V D [] L cap /\
    forall a, m' a = if decide (dst <= a < dst + readable xi off n) then cont V (i_addrs xi) (off + (a - dst)) else kmem s a.
Proof using Hx.
  intros Hip HF HV Hs HL Hdst Hdn Hoff Hn Hend. pose proof (fi_size _ _ HF) as Hsz. rewrite (readi_head s ip xi) by (done || lia).
  destruct (readable_range xi off n) as [Hr1 Hr2]; [lia..|]. assert (HM : MAXFILE * BSIZE < 2 ^ 31) by done.
  rewrite (proj2 (Z.ltb_ge _ _)) by lia. specialize (Hr2 ltac:(lia)).
  destruct (readi_kern_loop ip xi V D L cap (readable xi off n) HF HV HL ltac:(lia) (io_fuel (readable xi off n)) s dst off 0)
    as (m' & d' & R & Hs' & Hv); [done|done|lia|lia|lia|lia|lia|rewrite Z.sub_0_r; apply rounds_io; lia|].
  rewrite (bind_Ret _ _ _ _ _ R). exists m', d'. unfold ret. rewrite s32_small by lia. rewrite Z.sub_0_r in Hv. done.
Qed.

End read.

End Fsread.
