(* ===== verification/Fswrite.v ===== *)
(** Writing files: [writei] replaces the bytes it is given and nothing else of
    any file, and [iupdate] makes the inode on the disk the one in memory. *)

From stdpp Require Import functions.
From S2P Require Import Prelude Mem Kstring Umem Blk Store Fs Fsalloc Fsmap Fsread.
Import Kstring Umem Store Fs Fsalloc Fsmap Fsread.

Module Fswrite.

(** ** The inode in its block *)

(** The fields fit their types. *)
Record inode_ok (xi : inode) : Prop := {
  io_type : 0 <= i_type xi < 256;
  io_mode : 0 <= i_mode xi < 256;
  io_major : - 2 ^ 15 <= i_major xi < 2 ^ 15;
  io_minor : - 2 ^ 15 <= i_minor xi < 2 ^ 15;
  io_nlink : - 2 ^ 15 <= i_nlink xi < 2 ^ 15;
  io_size : 0 <= i_size xi < 2 ^ 32;
  io_len : length (i_addrs xi) = 13%nat;
  io_addrs : Forall (fun a => 0 <= a < 2 ^ 32) (i_addrs xi) }.

Lemma put_addrs_out l : forall d off x, ~ (off <= x < off + 4 * Z.of_nat (length l)) -> put_addrs d off l x = d x.
Proof.
  induction l as [|a l IH]; intros d off x Hx; cbn [put_addrs length] in *; [done|]. rewrite IH by lia. apply store_out. simpl. lia.
Qed.

Lemma put_addrs_get l : forall d off k a, l !! k = Some a -> 0 <= a < 2 ^ 32 -> load32 (put_addrs d off l) (off + 4 * Z.of_nat k) = a.
Proof.
  induction l as [|b l IH]; intros d off k a Hk Ha; [done|]. cbn [put_addrs]. destruct k as [|k]; simpl in Hk.
  - injection Hk as ->. unfold load32. rewrite (load_ext 4 (store32 d off a)).
    + rewrite Z.add_0_r. unfold store32. rewrite load_store_eq. by apply Z.mod_small.
    + intros x Hx. apply put_addrs_out. lia.
  - replace (off + 4 * Z.of_nat (S k)) with (off + 4 + 4 * Z.of_nat k) by lia. by apply IH.
Qed.

Lemma to_disk_out xi d off x : length (i_addrs xi) = 13%nat -> ~ (off <= x < off + 64) -> to_disk xi d off x = d x.
Proof.
  intros Hl Hx. unfold to_disk. cbv zeta. rewrite put_addrs_out by (rewrite Hl; lia). rewrite upd_ne by lia.
  unfold store32, store16. rewrite !store_out by (simpl; lia). apply upd_ne. lia.
Qed.

Lemma to_disk_ok xi d off : mem_ok d -> mem_ok (to_disk xi d off).
Proof.
  intros Hd. unfold to_disk. cbv zeta.
  assert (Hp : forall l d off, mem_ok d -> mem_ok (put_addrs d off l)).
  { induction l as [|a l IH]; intros d0 o Hd0; [done|]. cbn [put_addrs]. apply IH. unfold store32. auto with kernel. }
  apply Hp. unfold store32, store16. auto 10 with kernel.
Qed.

Lemma s16_u16 v : - 2 ^ 15 <= v < 2 ^ 15 -> s16 (v mod 2 ^ 16) = v.
Proof. intros Hv. unfold s16. rewrite Z.add_mod_idemp_l by lia. rewrite Z.mod_small by lia. lia. Qed.

(** A load from a block sees through writes elsewhere. *)
Lemma load_put_addrs n d off l a : a + Z.of_nat n <= off -> load n (put_addrs d off l) a = load n d a.
Proof. intros Ha. apply load_ext. intros y Hy. apply put_addrs_out. lia. Qed.
Lemma load_upd n d a y v : ~ (a <= y < a + Z.of_nat n) -> load n (upd d y v) a = load n d a.
Proof. intros Hy. apply load_ext. intros z Hz. apply upd_ne. lia. Qed.

(** What [iupdate] writes is what [ilock] reads. *)
Lemma dinode_roundtrip xi d off y : inode_ok xi ->
  from_disk (to_disk xi d off) off y =
    mk_inode (i_dev y) (i_inum y) (i_ref y) (i_locked y) (i_valid y) (i_type xi) (i_mode xi) (i_major xi) (i_minor xi) (i_nlink xi) (i_size xi) (i_addrs xi).
Proof.
  intros [H1 H2 H3 H4 H5 H6 H7 H8]. unfold from_disk. f_equal.
  - unfold to_disk. cbv zeta. rewrite put_addrs_out, upd_ne by lia. unfold store32, store16. rewrite !store_out by (simpl; lia).
    rewrite upd_eq. by apply u8_small.
  - unfold to_disk. cbv zeta. rewrite put_addrs_out by lia. rewrite upd_eq. by apply u8_small.
  - unfold to_disk, load16, store16, store32. cbv zeta. rewrite load_put_addrs, load_upd, !load_store_ne, load_store_eq by (simpl; lia). by apply s16_u16.
  - unfold to_disk, load16, store16, store32. cbv zeta. rewrite load_put_addrs, load_upd, !load_store_ne, load_store_eq by (simpl; lia). by apply s16_u16.
  - unfold to_disk, load16, store16, store32. cbv zeta. rewrite load_put_addrs, load_upd, !load_store_ne, load_store_eq by (simpl; lia). by apply s16_u16.
  - unfold to_disk, load32, store16, store32. cbv zeta. rewrite load_put_addrs, load_upd, load_store_eq by (simpl; lia). by apply Z.mod_small.
  - unfold addrs_at. apply list_eq. intros k. rewrite list_lookup_fmap. destruct (decide (k < 13)%nat) as [Hk|Hk].
    + rewrite lookup_seqZ_lt by lia. cbn [fmap option_fmap option_map]. destruct (lookup_lt_is_Some_2 (i_addrs xi) k) as [a Ha]; [lia|]. rewrite Ha. f_equal.
      unfold to_disk. cbv zeta. rewrite Z.add_0_l. apply put_addrs_get; [done|]. by apply (proj1 (Forall_lookup _ _) H8 k a).
    + rewrite lookup_seqZ_ge by lia. cbn. symmetry. apply lookup_ge_None_2. lia.
Qed.

Section write.
Context {S : Type} {ST : Store S} {U : Type} {UM : UserMem U}.
Context (x : superblock) (B : gset Z).
Hypothesis Hx : geom x.
Abbreviation fstate := (fs (S := S) (U := U)).

(** ** Writes outside the address blocks *)

Lemma inum_block inum : 0 <= inum < sb_ninodes x ->
  sb_inodestart x <= IBLOCK inum x < sb_bmapstart x /\ okb (IBLOCK inum x) /\ IBLOCK inum x ∉ BM x.
Proof using Hx.
  intros Hi. destruct Hx as [G1 G2 G3 G4 G5 G6]. unfold datastart in *.
  assert (inum / IPB <= sb_ninodes x / IPB) by (apply Z.div_le_mono; [done|lia]). assert (0 <= inum / IPB) by (apply Z.div_pos; [lia|done]).
  assert (0 <= sb_size x / BPB) by (apply Z.div_pos; [lia|done]).
  assert (E : IBLOCK inum x = inum / IPB + sb_inodestart x) by (unfold IBLOCK; apply u32_small; lia). rewrite E.
  split; [lia|]. split; [apply G6; lia|]. rewrite in_BM. lia.
Qed.

(** Places do not see a write to a block that is no address block. *)
Lemma val_insert V ad n d : (forall p, inner p -> val V ad p <> n \/ val V ad p = 0) -> forall p, okp p -> val (<[n := d]> V) ad p = val V ad p.
Proof using.
  clear Hx. intros Hn.
  assert (Hstep : forall k q, inner q -> val (<[n := d]> V) ad q = val V ad q -> val (<[n := d]> V) ad (k :: q) = val V ad (k :: q)).
  { intros k q Hq IH. assert (q <> []) by (by destruct q). rewrite !val_cons by done. rewrite IH.
    destruct (Z.eqb_spec (val V ad q) 0) as [|Hnz]; [done|]. rewrite fn_lookup_insert_ne; [done|]. destruct (Hn q Hq) as [?|?]; congruence. }
  intros p Hp. destruct p as [|k [|j q]]; [done|done|]. apply okp_cons in Hp as [Hin _]; [|done]. apply Hstep; [done|].
  destruct q as [|t q]; [done|]. destruct q; [|done]. apply Hstep; [|done]. destruct Hin as [-> _]. by right.
Qed.

Lemma tree_insert V ad n d : n ∉ BM x -> (forall p, inner p -> val V ad p <> n \/ val V ad p = 0) -> tree x V ad -> tree x (<[n := d]> V) ad.
Proof using Hx.
  intros HB Hn [T1 T2 T3]. pose proof (val_insert V ad n d Hn) as E. split; [done| |].
  - intros p Hp Hnz. rewrite E in * by done. destruct (T2 p Hp Hnz) as [Hr Ha]. split; [done|].
    rewrite (allocated_insert x Hx); [done|done|]. pose proof (data_pos x Hx _ Hr). lia.
  - intros p q Hp Hq. rewrite !E by done. by apply T3.
Qed.

Lemma allowance_insert P A V ad n d k : allowance x B P A -> n ∉ BM x -> (forall p, inner p -> val V ad p <> n \/ val V ad p = 0) ->
  A V ad k -> A (<[n := d]> V) ad k.
Proof using Hx.
  intros HA HB Hn. apply (an_same _ _ _ _ HA); [|by apply val_insert]. intros b Hb. by apply (allocated_insert x Hx).
Qed.

(** A block below the bitmap is no address block. *)
Lemma low_inner V ad n : tree x V ad -> n < sb_bmapstart x -> forall p, inner p -> val V ad p <> n \/ val V ad p = 0.
Proof using Hx.
  intros HT Hn p Hp. destruct (decide (val V ad p = 0)) as [|Hnz]; [by right|left]. intros E.
  destruct (tr_data _ _ _ HT p (inner_okp p Hp) Hnz) as [Hr _]. pose proof (data_pos x Hx _ Hr). lia.
Qed.

Lemma cont_low V ad n d o : tree x V ad -> n < sb_bmapstart x -> 0 <= o < MAXFILE * BSIZE -> cont (<[n := d]> V) ad o = cont V ad o.
Proof using Hx.
  intros HT Hn Ho. assert (Hb : 0 <= o / BSIZE < MAXFILE) by (unfold Blk.BSIZE in *; dlia). unfold cont, fblk.
  rewrite val_insert; [|by apply low_inner|by apply leaf_okp]. destruct (Z.eqb_spec (val V ad (leaf (o / BSIZE))) 0) as [|Hnz]; [done|].
  destruct (tr_data _ _ _ HT _ (proj1 (leaf_okp _ Hb)) Hnz) as [Hr _]. pose proof (data_pos x Hx _ Hr).
  rewrite fn_lookup_insert_ne; [done|]. lia.
Qed.

(** ** [iupdate] *)

Lemma iupdate_ok (s : fstate) ip xi V D L c : sb s = x -> icache s !! ip = Some xi -> i_dev xi = ROOTDEV -> 0 <= i_inum xi < sb_ninodes x ->
  fsees B (dsk s) V D [] L c -> 0 < c ->
  let ib := IBLOCK (i_inum xi) x in
  exists d', iupdate ip s = Ret tt (set_dsk d' s) /\
    fsees B d' (<[ib := to_disk xi (V ib) (dinode_at (i_inum xi))]> V) D [] ({[ib]} ∪ L) (c - 1).
Proof using Hx.
  intros Esb Hip Hdev Hi Hs Hc ib. destruct (inum_block _ Hi) as (Hr & Hok & HB). fold ib in Hr, Hok, HB, Hc.
  unfold iupdate. rewrite (bind_Ret _ _ _ _ _ (geti_run s ip xi Hip)). unfold bind at 1, gets at 1. rewrite Esb, Hdev. fold ib.
  destruct (fsees_bread B _ _ _ _ _ _ ib Hs Hok) as (i & d1 & R1 & Hs1 & _); [set_solver|simpl; lia|].
  rewrite (bind_Ret _ _ _ _ _ (disk_run _ s _ _ R1)).
  pose proof (fsees_data B _ _ _ _ _ _ i ib Hs1 ltac:(by left)) as R2. rewrite (bind_Ret _ _ _ _ _ (disk_run _ (set_dsk d1 s) _ _ R2)).
  destruct (fsees_set B _ _ _ _ _ _ i ib (to_disk xi (V ib) (dinode_at (i_inum xi))) Hs1 ltac:(by left)) as (d3 & R3 & Hs3).
  rewrite (bind_Ret _ _ _ _ _ (disk_run _ (set_dsk d1 s) _ _ R3)).
  destruct (fsees_log B _ _ _ _ _ _ i ib Hs3 ltac:(by left)) as (d4 & R4 & Hs4); [done|].
  rewrite (bind_Ret _ _ _ _ _ (disk_run _ (set_dsk d3 s) _ _ R4)).
  destruct (fsees_brelse B _ _ _ _ _ _ i ib Hs4 ltac:(set_solver)) as (d5 & R5 & Hs5).
  exists d5. split; [exact (disk_run _ (set_dsk d4 s) _ _ R5)|].
  eapply fsees_weaken; [exact Hs5|]. case_decide; lia.
Qed.

(** ** Bytes written *)

(** The file has got the bytes [bs] at [off]. What other files own, and all
    blocks below the bitmap, are as before. *)
Record wrote (V : Z -> block) (ad : list Z) (off : Z) (bs : list Z) (V' : Z -> block) (ad' : list Z) : Prop := {
  wr_cont : forall o, 0 <= o < MAXFILE * BSIZE ->
    cont V' ad' o = if decide (off <= o < off + alen bs) then default 0 (bs !! Z.to_nat (o - off)) else cont V ad o;
  wr_val : forall q, okp q -> val V' ad' q = val V ad q \/ val V ad q = 0 /\ allocated x V (val V' ad' q) = false;
  wr_has : forall o, off <= o < off + alen bs -> fblk V' ad' (o / BSIZE) <> 0;
  wr_rest : forall n, allocated x V n = true -> datastart x <= n < sb_size x -> (forall q, okp q -> val V ad q <> n) -> V' n = V n;
  wr_low : forall n, n < sb_bmapstart x -> V' n = V n;
  wr_alloc : forall n, 0 <= n < sb_size x -> allocated x V n = true -> allocated x V' n = true;
  wr_vol : vol x V';
  wr_tree : tree x V' ad' }.

Lemma wrote_nil V ad off : vol x V -> tree x V ad -> wrote V ad off [] V ad.
Proof using.
  clear Hx. intros HV HT. split; try done.
  - intros o Ho. unfold alen. simpl. by rewrite decide_False by lia.
  - intros q _. by left.
  - unfold alen. simpl. lia.
Qed.

Lemma wr_keeps V ad off bs V' ad' bn : wrote V ad off bs V' ad' -> 0 <= bn < MAXFILE -> fblk V ad bn <> 0 -> fblk V' ad' bn = fblk V ad bn.
Proof using.
  clear Hx. intros HW Hbn Hnz. unfold fblk in *. by destruct (wr_val _ _ _ _ _ _ HW (leaf bn) (proj1 (leaf_okp _ Hbn))) as [E|[E _]]; [|rewrite E in Hnz].
Qed.

Lemma wrote_trans V ad off bs V1 ad1 bs' V2 ad2 : tree x V ad -> 0 <= off -> off + alen bs + alen bs' <= MAXFILE * BSIZE ->
  wrote V ad off bs V1 ad1 -> wrote V1 ad1 (off + alen bs) bs' V2 ad2 -> wrote V ad off (bs ++ bs') V2 ad2.
Proof using Hx.
  intros HT Hoff Hend HA HB. pose proof HA as [A1 A2 A3 A4 A5 A6 A7 A8]. pose proof HB as [B1 B2 B3 B4 B5 B6 B7 B8].
  assert (Hl : alen (bs ++ bs') = alen bs + alen bs') by (unfold alen; rewrite length_app; lia).
  assert (H0 : 0 <= alen bs /\ 0 <= alen bs') by (unfold alen; lia).
  assert (Hback : forall b, allocated x V1 b = false -> 0 <= b < sb_size x -> allocated x V b = false).
  { intros b Hb Hr. destruct (allocated x V b) eqn:E; [|done]. rewrite A6 in Hb by done. done. }
  split; try done.
  - intros o Ho. rewrite B1, Hl by done. destruct (decide (off + alen bs <= o < off + alen bs + alen bs')) as [H1|H1].
    + rewrite decide_True by lia. f_equal. unfold alen in *. rewrite lookup_app_r by lia. f_equal. lia.
    + rewrite A1 by done. destruct (decide (off <= o < off + alen bs)) as [H2|H2].
      * rewrite decide_True by lia. f_equal. unfold alen in *. rewrite lookup_app_l by lia. done.
      * by rewrite decide_False by lia.
  - intros q Hq. destruct (B2 q Hq) as [E|[E1 E2]]; [rewrite E; apply (A2 q Hq)|].
    destruct (decide (val V2 ad2 q = 0)) as [E0|E0].
    + left. destruct (A2 q Hq) as [E|[E _]]; congruence.
    + right. split; [destruct (A2 q Hq) as [E|[E _]]; congruence|]. apply Hback; [done|].
      destruct (tr_data _ _ _ B8 q Hq E0) as [Hr _]. pose proof (data_pos x Hx _ Hr). lia.
  - intros o Ho. rewrite Hl in Ho. assert (Hb : 0 <= o / BSIZE < MAXFILE) by (unfold Blk.BSIZE in *; dlia).
    destruct (decide (off + alen bs <= o)); [apply B3; lia|]. rewrite (wr_keeps _ _ _ _ _ _ _ HB Hb); apply A3; lia.
  - intros n Hn Hr Hq. pose proof (data_pos x Hx _ Hr). rewrite B4; [by apply A4|apply A6; [lia|done]|done|].
    intros q Hokq E. destruct (A2 q Hokq) as [E1|[_ E1]]; [apply (Hq q Hokq); congruence|]. rewrite E in E1. congruence.
  - intros n Hn. rewrite B5 by done. by apply A5.
  - intros n Hn Ha. apply B6; [done|]. by apply A6.
Qed.

(** One block: [bmap] and then the bytes. *)
Lemma wrote_chunk V ad off m bs b V1 ad1 : tree x V ad -> vol x V -> 0 <= off -> off + m <= MAXFILE * BSIZE -> alen bs = m -> 0 < m <= BSIZE - off mod BSIZE ->
  Umem.bytes bs -> mapped x V ad (off / BSIZE) b V1 ad1 ->
  wrote V ad off bs (<[b := put_bytes (V1 b) (off mod BSIZE) bs]> V1) ad1.
Proof using Hx.
  intros HT HV Hoff Hend Hlen Hm Hbs HM. set (V2 := <[b := _]> V1).
  assert (Hbn : 0 <= off / BSIZE < MAXFILE) by (unfold Blk.BSIZE in *; dlia).
  pose proof (mp_grown _ _ _ _ _ _ _ HM) as HG. pose proof HG as [G1 G2 G3 G4 G5 G6].
  pose proof (mp_val _ _ _ _ _ _ _ HM) as Hb. pose proof (mp_nz _ _ _ _ _ _ _ HM) as Hnz. destruct (leaf_okp _ Hbn) as [Hl Hli].
  assert (Hbd : datastart x <= b < sb_size x /\ allocated x V1 b = true) by (rewrite <- Hb; apply (tr_data _ _ _ G6); [done|by unfold fblk in Hb; rewrite Hb]).
  destruct Hbd as [Hbr Hba]. destruct (data_ok x Hx b Hbr) as [_ HbB].
  assert (Hin : forall p, inner p -> val V1 ad1 p <> b \/ val V1 ad1 p = 0).
  { intros p Hp. left. intros E. apply Hli. rewrite <- (tr_inj _ _ _ G6 p (leaf (off / BSIZE))); [done|by apply inner_okp|done|congruence|]. unfold fblk in Hb. congruence. }
  assert (Ev : forall p, okp p -> val V2 ad1 p = val V1 ad1 p) by (intros p Hp; by apply val_insert).
  assert (Ef : forall o, 0 <= o < MAXFILE * BSIZE -> fblk V2 ad1 (o / BSIZE) = fblk V1 ad1 (o / BSIZE)).
  { intros o Ho. apply Ev, leaf_okp. unfold Blk.BSIZE in *. dlia. }
  assert (Hfb : forall o, 0 <= o < MAXFILE * BSIZE -> fblk V1 ad1 (o / BSIZE) = b -> o / BSIZE = off / BSIZE).
  { intros o Ho E. assert (Hbo : 0 <= o / BSIZE < MAXFILE) by (unfold Blk.BSIZE in *; dlia). apply leaf_inj; [done|done|].
    apply (tr_inj _ _ _ G6); [by apply leaf_okp|done|unfold fblk in E; congruence|unfold fblk in *; congruence]. }
  split.
  - intros o Ho. rewrite <- (mapped_cont x Hx V ad (off / BSIZE) b V1 ad1 HT HM o Ho). unfold cont. rewrite (Ef o Ho).
    destruct (decide (off <= o < off + alen bs)) as [Hr|Hr].
    + assert (E1 : o / BSIZE = off / BSIZE) by (unfold Blk.BSIZE in *; dlia). rewrite E1, Hb, (proj2 (Z.eqb_neq b 0)) by done. unfold V2. rewrite fn_lookup_insert.
      assert (E2 : o mod BSIZE = off mod BSIZE + Z.of_nat (Z.to_nat (o - off))) by (unfold Blk.BSIZE in *; dlia). rewrite E2.
      unfold alen in *. destruct (lookup_lt_is_Some_2 bs (Z.to_nat (o - off))) as [c Hc]; [lia|]. rewrite Hc. rewrite (put_bytes_in _ _ _ _ _ Hc).
      apply u8_small. by apply (proj1 (Forall_lookup _ _) Hbs _ _ Hc).
    + destruct (Z.eqb_spec (fblk V1 ad1 (o / BSIZE)) 0) as [|Hnz']; [done|]. unfold V2. destruct (decide (fblk V1 ad1 (o / BSIZE) = b)) as [E|E].
      * rewrite E, fn_lookup_insert. apply put_bytes_out. pose proof (Hfb o Ho E) as E1. unfold alen, Blk.BSIZE in *. dlia.
      * by rewrite fn_lookup_insert_ne.
  - intros q Hq. rewrite Ev by done. apply (G1 q Hq).
  - intros o Ho. rewrite Ef by lia. assert (E1 : o / BSIZE = off / BSIZE) by (unfold Blk.BSIZE in *; dlia). by rewrite E1, Hb.
  - intros n Hn Hr Hq. unfold V2. assert (n <> b).
    { intros ->. destruct (G1 (leaf (off / BSIZE)) Hl) as [E|[_ E]]; unfold fblk in Hb; [apply (Hq _ Hl); congruence|]. rewrite Hb in E. congruence. }
    rewrite fn_lookup_insert_ne by done. apply G2; [done|done|]. intros (_ & p & Hp & E). by apply (Hq p (inner_okp p Hp)).
  - intros n Hn. unfold V2. pose proof (data_pos x Hx b Hbr). rewrite fn_lookup_insert_ne by lia. by apply G3.
  - intros n Hn Ha. unfold V2. rewrite (allocated_insert x Hx) by done. by apply G4.
  - apply (vol_insert x Hx); [done|done|]. apply put_bytes_ok, G5.
  - by apply tree_insert.
Qed.

(** ** [writei] *)

(** The bytes [bs] lie at [src] of user or kernel memory. *)
Definition source (s : fstate) (us src : Z) (bs : list Z) : Prop :=
  if us =? 0 then forall i b, bs !! i = Some b -> kmem s (src + Z.of_nat i) = b
  else uok (user s) /\ forall i b, bs !! i = Some b -> uview (user s) (src + Z.of_nat i) = Some b.

Lemma source_drop s us src bs m : source s us src bs -> 0 <= m -> source s us (src + m) (drop (Z.to_nat m) bs).
Proof using.
  clear Hx. intros Hs Hm. unfold source in *. destruct (us =? 0).
  - intros i b. rewrite lookup_drop. intros Hb%Hs. rewrite <- Hb. f_equal. lia.
  - destruct Hs as [Hu Hs]. split; [done|]. intros i b. rewrite lookup_drop. intros Hb%Hs. rewrite <- Hb. f_equal. lia.
Qed.

Lemma either_copyin_ok (s : fstate) us src bs d off m : source s us src bs -> 0 <= m <= alen bs -> m <= ULIMIT -> mem_ok d -> 0 <= src ->
  either_copyin d off us src m s = Ret (put_bytes d off (take (Z.to_nat m) bs), 0) s.
Proof using.
  clear Hx. intros Hs Hm Hml Hd Hsrc. unfold either_copyin, source, alen in *. destruct (us =? 0) eqn:E; cbn [negb].
  - unfold bind, gets, ret. do 3 f_equal. apply list_eq. intros i. destruct (decide (i < Z.to_nat m)%nat) as [Hi|Hi].
    + rewrite bytes_lookup, lookup_take_lt by done. destruct (lookup_lt_is_Some_2 bs i) as [b Hb]; [lia|]. rewrite Hb. f_equal. by apply Hs.
    + rewrite !lookup_ge_None_2; rewrite ?length_bytes, ?length_take; (done || lia).
  - destruct Hs as [Hu Hs]. unfold bind, gets, ret.
    rewrite (ucopyin_ok (user s) src (Mem.bytes (Z.to_nat m) d off) Hu Hsrc).
    + rewrite length_bytes. rewrite (uprefix_all _ (take (Z.to_nat m) bs)).
      * unfold alen. rewrite length_take, length_bytes. replace (Z.to_nat m `min` length bs)%nat with (Z.to_nat m) by lia.
        rewrite Z.eqb_refl, drop_ge by (rewrite length_bytes; lia). by rewrite app_nil_r.
      * rewrite length_take. lia.
      * intros i b Hi. apply lookup_take_Some in Hi as [Hi _]. by apply Hs.
      * left. rewrite length_take. lia.
    + unfold alen. rewrite length_bytes. lia.
    + apply Forall_forall. intros b Hb. apply list_elem_of_lookup in Hb as [i Hi]. pose proof (lookup_lt_Some _ _ _ Hi) as Hl. rewrite length_bytes in Hl.
      rewrite bytes_lookup in Hi by done. injection Hi as <-. apply Hd.
Qed.

Lemma fsees_sees d V D H L c : fsees B d V D H L c -> exists cap, sees d V D H L cap /\ (size L < 28)%nat /\
  forall d', sees d' V D H L cap -> fsees B d' V D H L c.
Proof using.
  clear Hx. intros (cap & Hs & Hc & H0). exists cap. split_and!; [done| |].
  - assert (A : L ⊆ L ∪ B) by set_solver. apply subseteq_size in A. lia.
  - intros d' Hs'. by exists cap.
Qed.

(** A data block is written and logged. *)
Lemma spare_log A P e k d d' V D ad L b dd bn : (forall p, p ∈ P -> okp p) -> NoDup P -> 0 <= bn < MAXFILE -> path bn ⊆ P -> allowance x B P A -> tree x V ad -> b = fblk V ad bn -> b <> 0 ->
  spare B A P e k d V D ad L -> fsees B d' (<[b := dd]> V) D [] ({[b]} ∪ L) (if decide (b ∈ L ∪ B) then Z.of_nat (need V ad L P + e) else Z.of_nat (need V ad L P + e) - 1) ->
  spare B A P e k d' (<[b := dd]> V) D ad ({[b]} ∪ L).
Proof using Hx.
  intros HPok HPn Hbn Hpath HA HT Eb Hb [Hs Hav] Hs'. destruct (leaf_okp _ Hbn) as [Hl Hli].
  assert (HlP : leaf bn ∈ P) by (apply Hpath; unfold path; destruct (leaf bn) as [|? [|? [|? [|]]]]; by left).
  assert (Hin : forall p, inner p -> val V ad p <> b \/ val V ad p = 0).
  { intros p Hp. left. intros E. apply Hli. rewrite <- (tr_inj _ _ _ HT p (leaf bn)); [done|by apply inner_okp|done|congruence|]. unfold fblk in Eb. congruence. }
  assert (Ev : forall p, okp p -> val (<[b := dd]> V) ad p = val V ad p) by (intros p Hp; by apply val_insert).
  set (N := if decide (b ∈ L) then [] else [leaf bn]).
  assert (Hless : (need (<[b := dd]> V) ad ({[b]} ∪ L) P + length N <= need V ad L P)%nat).
  { assert (HNs : forall q, q ∈ N -> q = leaf bn /\ b ∉ L)
      by (intros q; unfold N; destruct (decide (b ∈ L)); [by intros []%not_elem_of_nil|by intros ->%list_elem_of_singleton]).
    apply need_less; [done|unfold N; destruct (decide (b ∈ L)); [constructor|apply NoDup_singleton]|by intros q [-> _]%HNs| |].
    - intros q Hq [H1 H2]. unfold logged. rewrite Ev by (by apply HPok). split; [done|set_solver].
    - intros q [-> HbL]%HNs. unfold logged. rewrite Ev by done. assert (E : val V ad (leaf bn) = b) by done. rewrite E. split; [by intros [_ ?]|split; [done|set_solver]]. }
  assert (HN : length N = if decide (b ∈ L) then 0%nat else 1%nat) by (unfold N; by destruct (decide (b ∈ L))). clearbody N.
  destruct (data_ok x Hx b) as [_ HbB]; [subst b; apply (tr_data _ _ _ HT (leaf bn) Hl Hb)|]. split.
  - eapply fsees_weaken; [exact Hs'|]. destruct (decide (b ∈ L)) as [HbL|HbL]; [rewrite decide_True by set_solver|]; [lia|]. destruct (decide (b ∈ L ∪ B)); lia.
  - apply (allowance_insert P A); [done|done|done|]. eapply (an_weaken _ _ _ _ HA); [exact Hav|]. lia.
Qed.

Section places.
Context (P : list place) (e k : nat) (A : (Z -> block) -> list Z -> nat -> Prop).
Hypothesis HA : allowance x B P A.
Hypothesis HPn : NoDup P.
Hypothesis HPok : forall p, p ∈ P -> okp p.

Lemma writei_step (s : fstate) ip xi V D L us src off n tot bs fuel : sb s = x -> icache s !! ip = Some xi -> i_dev xi = ROOTDEV ->
  vol x V -> tree x V (i_addrs xi) -> source s us src bs -> Umem.bytes bs -> 0 <= tot < n -> n < 2 ^ 32 -> alen bs = n - tot -> 0 <= src -> src + alen bs < 2 ^ 64 ->
  0 <= off -> off + alen bs <= MAXFILE * BSIZE -> path (off / BSIZE) ⊆ P -> spare B A P e k (dsk s) V D (i_addrs xi) L ->
  let m := Z.min (n - tot) (BSIZE - off mod BSIZE) in
  exists V' ad' L' d', wrote V (i_addrs xi) off (take (Z.to_nat m) bs) V' ad' /\ spare B A P e k d' V' D ad' L' /\ L ⊆ L' /\
    writei_loop (Datatypes.S fuel) ip us src off n tot s =
      writei_loop fuel ip us (src + m) (off + m) n (tot + m) (put_inode s ip (with_addrs ad' xi) d').
Proof using Hx UM HA HPn HPok.
  intros Esb Hip Hdev HV HT Hsrc Hbs Htot Hn Hlen Hs0 Hs64 Hoff Hend Hpath Hs m.
  assert (Hm : 0 < m /\ m <= n - tot /\ m <= BSIZE - off mod BSIZE) by (unfold m, Blk.BSIZE in *; dlia).
  assert (Hbn : 0 <= off / BSIZE < MAXFILE) by (unfold Blk.BSIZE in *; dlia). assert (HM32 : MAXFILE * BSIZE < 2 ^ 31) by done.
  destruct (bmap_ok x B Hx P e k A HA HPn HPok s ip xi V D L (off / BSIZE) Esb Hip Hdev HV HT Hbn Hpath Hs) as (b & d1 & V1 & ad1 & L1 & R1 & HM & Hs1 & HL1).
  pose proof (mp_grown _ _ _ _ _ _ _ HM) as HG. pose proof (mp_val _ _ _ _ _ _ _ HM) as Eb. pose proof (mp_nz _ _ _ _ _ _ _ HM) as Hnz.
  destruct (data_ok x Hx b) as [Hokb HbB]; [rewrite <- Eb; apply (tr_data _ _ _ (gr_tree _ _ _ _ _ HG)); [by apply leaf_okp|unfold fblk in Eb; by rewrite Eb]|].
  pose proof Hs1 as [Hf1 _].
  destruct (fsees_bread B _ _ _ _ _ _ b Hf1 Hokb) as (i & d2 & R2 & Hs2 & _); [set_solver|simpl; lia|].
  pose proof (fsees_data B _ _ _ _ _ _ i b Hs2 ltac:(by left)) as R3.
  destruct (fsees_set B _ _ _ _ _ _ i b (put_bytes (V1 b) (off mod BSIZE) (take (Z.to_nat m) bs)) Hs2 ltac:(by left)) as (d4 & R4 & Hs4).
  destruct (fsees_log B _ _ _ _ _ _ i b Hs4 ltac:(by left)) as (d5 & R5 & Hs5).
  { intros HbL _. assert (0 < need V1 ad1 L1 P)%nat; [|lia]. apply (need_pos _ _ _ _ (leaf (off / BSIZE))).
    - apply Hpath. unfold path. destruct (leaf (off / BSIZE)) as [|? [|? [|? [|]]]]; by left.
    - intros [_ Hin]. unfold fblk in Eb. by rewrite Eb in Hin. }
  destruct (fsees_brelse B _ _ _ _ _ _ i b Hs5 ltac:(set_solver)) as (d6 & R6 & Hs6).
  assert (Hl : alen (take (Z.to_nat m) bs) = m) by (unfold alen in *; rewrite length_take; lia).
  exists (<[b := put_bytes (V1 b) (off mod BSIZE) (take (Z.to_nat m) bs)]> V1), ad1, ({[b]} ∪ L1), d6. split_and!.
  - eapply wrote_chunk; [done|done|done| |exact Hl|lia|by apply Forall_take|exact HM]. lia.
  - eapply spare_log; [done|done|exact Hbn|done|done|apply HG|done|done|exact Hs1|exact Hs6].
  - set_solver.
  - cbn [writei_loop]. rewrite (proj2 (Z.ltb_lt tot n)) by lia. rewrite (bind_Ret _ _ _ _ _ (geti_run s ip xi Hip)), (bind_Ret _ _ _ _ _ R1), Hdev.
    rewrite (bind_Ret _ _ _ _ _ (disk_run _ (put_inode s ip (with_addrs ad1 xi) d1) _ _ R2)). cbv zeta.
    rewrite (bind_Ret _ _ _ _ _ (disk_run _ (put_inode s ip (with_addrs ad1 xi) d2) _ _ R3)), chunk_min by lia. fold m.
    assert (Hcp := either_copyin_ok (put_inode s ip (with_addrs ad1 xi) d2) us src bs (V1 b) (off mod BSIZE) m Hsrc ltac:(lia)
      ltac:(unfold ULIMIT, Blk.BSIZE in *; dlia) (vo_bytes _ _ (gr_vol _ _ _ _ _ HG) b) Hs0).
    rewrite (bind_Ret _ _ _ _ _ Hcp), (bind_Ret _ _ _ _ _ (disk_run _ (put_inode s ip (with_addrs ad1 xi) d2) _ _ R4)). cbn [Z.eqb].
    rewrite (bind_Ret _ _ _ _ _ (disk_run _ (put_inode s ip (with_addrs ad1 xi) d4) _ _ R5)).
    rewrite (bind_Ret _ _ _ _ _ (disk_run _ (put_inode s ip (with_addrs ad1 xi) d5) _ _ R6)).
    rewrite u64_small, !u32_small by lia. reflexivity.
Qed.

(** The blocks that [rem] bytes from [off] touch. *)
Definition blocks (off rem : Z) : Z := if rem <=? 0 then 0 else (off mod BSIZE + rem + BSIZE - 1) / BSIZE.

Lemma writei_loop_ok ip us n fuel : 0 <= n < 2 ^ 32 -> forall (s : fstate) xi V D L src off tot bs, sb s = x -> icache s !! ip = Some xi -> i_dev xi = ROOTDEV ->
  vol x V -> tree x V (i_addrs xi) -> source s us src bs -> Umem.bytes bs -> 0 <= tot <= n -> alen bs = n - tot -> 0 <= src -> src + alen bs < 2 ^ 64 ->
  0 <= off -> off + alen bs <= MAXFILE * BSIZE -> rounds fuel off (n - tot) -> (forall o, off <= o < off + alen bs -> path (o / BSIZE) ⊆ P) ->
  spare B A P e k (dsk s) V D (i_addrs xi) L ->
  exists V' ad' L' d', writei_loop fuel ip us src off n tot s = Ret (off + (n - tot)) (put_inode s ip (with_addrs ad' xi) d') /\
    wrote V (i_addrs xi) off bs V' ad' /\ spare B A P e k d' V' D ad' L' /\ L ⊆ L'.
Proof using Hx UM HA HPn HPok.
  intros Hn. induction fuel as [|fuel IH]; intros s xi V D L src off tot bs Esb Hip Hdev HV HT Hsrc Hbs Htot Hlen Hs0 Hs64 Hoff Hend Hrd Hpath Hs;
    [destruct Hrd; lia|].
  destruct (decide (tot = n)) as [->|Hne].
  { assert (bs = []) as -> by (destruct bs; [done|unfold alen in Hlen; simpl in Hlen; lia]).
    exists V, (i_addrs xi), L, (dsk s). cbn [writei_loop]. rewrite Z.ltb_irrefl. split_and!; [|by apply wrote_nil|done|done].
    unfold ret. f_equal; [lia|]. unfold put_inode. assert (E1 : with_addrs (i_addrs xi) xi = xi) by (by destruct xi). rewrite E1, list_insert_id by done. by destruct s. }
  destruct (rounds_next fuel off (n - tot) Hoff ltac:(lia) Hrd) as (Hm & Hm2 & Hrd').
  set (m := Z.min (n - tot) (BSIZE - off mod BSIZE)) in *.
  destruct (writei_step s ip xi V D L us src off n tot bs fuel) as (V1 & ad1 & L1 & d1 & HW & Hs1 & HL1 & Hrun);
    [done|done|done|done|done|done|done|lia|lia|done|done|done|done|done|apply Hpath; lia|done|].
  fold m in HW, Hrun. rewrite Hrun. set (s1 := put_inode s ip (with_addrs ad1 xi) d1).
  assert (Hl1 : alen (take (Z.to_nat m) bs) = m) by (unfold alen in *; rewrite length_take; lia).
  assert (Hl2 : alen (drop (Z.to_nat m) bs) = n - (tot + m)) by (unfold alen in *; rewrite length_drop; lia).
  assert (Er : n - (tot + m) = n - tot - m) by lia.
  assert (Hip1 : icache s1 !! ip = Some (with_addrs ad1 xi)) by (cbn; apply list_lookup_insert_eq; by eapply lookup_lt_Some).
  destruct (IH s1 (with_addrs ad1 xi) V1 D L1 (src + m) (off + m) (tot + m) (drop (Z.to_nat m) bs)) as (V2 & ad2 & L2 & d2 & R2 & HW2 & Hs2 & HL2);
    [done|done|done|apply HW|apply HW|apply (source_drop s); [done|lia]|by apply Forall_drop|lia|done|lia|lia|lia|lia|by rewrite Er|intros o Ho; apply Hpath; lia|done|].
  rewrite Er in *. exists V2, ad2, L2, d2. split_and!; [| |done|set_solver].
  - rewrite R2. f_equal; [lia|]. unfold s1, put_inode. cbn. by rewrite list_insert_insert_eq.
  - rewrite <- (take_drop (Z.to_nat m) bs). eapply wrote_trans; [done|done|lia|exact HW|]. by rewrite Hl1.
Qed.

End places.

(** ** Other files *)

(** A file that shares no block with this one. *)
Definition apart (V : Z -> block) (ad ad2 : list Z) : Prop := forall p q, okp p -> okp q -> val V ad p <> 0 -> val V ad p <> val V ad2 q.

Lemma val_same V V' ad : (forall p, okp p -> val V ad p <> 0 -> V' (val V ad p) = V (val V ad p)) -> forall p, okp p -> val V' ad p = val V ad p.
Proof using.
  clear Hx. intros HV.
  assert (Hstep : forall k q, inner q -> val V' ad q = val V ad q -> val V' ad (k :: q) = val V ad (k :: q)).
  { intros k q Hq IH. assert (q <> []) by (by destruct q). rewrite !val_cons by done. rewrite IH.
    destruct (Z.eqb_spec (val V ad q) 0) as [|Hnz]; [done|]. by rewrite HV by (by try apply inner_okp). }
  intros p Hp. destruct p as [|k [|j q]]; [done|done|]. apply okp_cons in Hp as [Hin _]; [|done]. apply Hstep; [done|].
  destruct q as [|t q]; [done|]. destruct q; [|done]. apply Hstep; [|done]. destruct Hin as [-> _]. by right.
Qed.

(** A file is as before if its blocks are. *)
Lemma file_same V V' ad : tree x V ad -> (forall n, 0 <= n < sb_size x -> allocated x V n = true -> allocated x V' n = true) ->
  (forall p, okp p -> val V ad p <> 0 -> V' (val V ad p) = V (val V ad p)) ->
  tree x V' ad /\ (forall p, okp p -> val V' ad p = val V ad p) /\ forall o, 0 <= o < MAXFILE * BSIZE -> cont V' ad o = cont V ad o.
Proof using Hx.
  intros [T1 T2 T3] Hal Hsame. pose proof (val_same V V' ad Hsame) as E. split_and!; [|exact E|].
  - split; [done| |].
    + intros p Hp Hnz. rewrite E in * by done. destruct (T2 p Hp Hnz) as [Hr Ha]. split; [done|]. apply Hal; [|done]. pose proof (data_pos x Hx _ Hr). lia.
    + intros p q Hp Hq. rewrite !E by done. by apply T3.
  - intros o Ho. assert (Hb : 0 <= o / BSIZE < MAXFILE) by (unfold Blk.BSIZE in *; dlia). pose proof (proj1 (leaf_okp _ Hb)) as Hl.
    unfold cont, fblk. rewrite E by done. destruct (Z.eqb_spec (val V ad (leaf (o / BSIZE))) 0) as [|Hnz]; [done|]. by rewrite Hsame.
Qed.

Lemma wrote_others V ad off bs V' ad' ad2 : wrote V ad off bs V' ad' -> tree x V ad2 -> apart V ad ad2 ->
  tree x V' ad2 /\ (forall p, okp p -> val V' ad2 p = val V ad2 p) /\ forall o, 0 <= o < MAXFILE * BSIZE -> cont V' ad2 o = cont V ad2 o.
Proof using Hx.
  intros HW HT Hd. apply file_same; [done|apply HW|]. intros q Hq Hnz. destruct (tr_data _ _ _ HT q Hq Hnz) as [Hr Ha].
  apply (wr_rest _ _ _ _ _ _ HW); [done|done|]. intros p Hp E. apply (Hd p q Hp Hq); [congruence|done].
Qed.

(** Such a file stays apart: the blocks that were taken were free. *)
Lemma wrote_apart V ad off bs V' ad' ad2 : wrote V ad off bs V' ad' -> tree x V ad2 -> apart V ad ad2 -> apart V' ad' ad2.
Proof using Hx.
  intros HW HT Hd p q Hp Hq Hnz. destruct (wrote_others _ _ _ _ _ _ _ HW HT Hd) as (_ & E & _). rewrite (E q Hq).
  destruct (wr_val _ _ _ _ _ _ HW p Hp) as [E1|[_ Hf]]; [rewrite E1 in *; by apply Hd|].
  intros E1. rewrite E1 in *. destruct (tr_data _ _ _ HT q Hq Hnz) as [_ Ha]. congruence.
Qed.

(** The addresses of a tree fit 32 bits. *)
Lemma tree_addrs V ad : tree x V ad -> Forall (fun a => 0 <= a < 2 ^ 32) ad.
Proof using Hx.
  intros HT. apply Forall_lookup. intros k a Hk. pose proof (lookup_lt_Some _ _ _ Hk) as Hl. rewrite (tr_len _ _ _ HT) in Hl.
  destruct (decide (a = 0)) as [->|Hnz]; [lia|]. assert (E : val V ad [Z.of_nat k] = a).
  { cbn. unfold aget. rewrite (proj2 (Z.ltb_ge _ _)), Nat2Z.id, Hk by lia. done. }
  destruct (tr_data _ _ _ HT [Z.of_nat k]) as [Hr _]; [cbn; lia|congruence|]. rewrite E in Hr. pose proof (data_pos x Hx _ Hr). pose proof (gm_size _ Hx). lia.
Qed.

(** ** What [writei] does *)

Abbreviation iblk xi := (IBLOCK (i_inum xi) x).

(** From the volume [V] with inode [xi] to [V'] with [xi']: the bytes [bs] are at
    [off], the inode on the disk is the one in memory, nothing else has changed. *)
Record written (V : Z -> block) (xi : inode) (off : Z) (bs : list Z) (V' : Z -> block) (xi' : inode) : Prop := {
  wn_inode : xi' = with_size (Z.max (i_size xi) (off + alen bs)) (with_addrs (i_addrs xi') xi);
  wn_file : file x V' xi';
  wn_vol : vol x V';
  wn_cont : forall o, 0 <= o < i_size xi' ->
    cont V' (i_addrs xi') o = if decide (off <= o < off + alen bs) then default 0 (bs !! Z.to_nat (o - off)) else cont V (i_addrs xi) o;
  wn_disk : inode_ok xi -> inode_ok xi' /\ forall y, from_disk (V' (iblk xi)) (dinode_at (i_inum xi)) y =
    mk_inode (i_dev y) (i_inum y) (i_ref y) (i_locked y) (i_valid y) (i_type xi') (i_mode xi') (i_major xi') (i_minor xi') (i_nlink xi') (i_size xi') (i_addrs xi');
  wn_inodes : forall n o, n < sb_bmapstart x -> V' n o = V n o \/ n = iblk xi /\ dinode_at (i_inum xi) <= o < dinode_at (i_inum xi) + 64;
  wn_others : forall ad2, tree x V ad2 -> apart V (i_addrs xi) ad2 ->
    tree x V' ad2 /\ apart V' (i_addrs xi') ad2 /\ (forall p, okp p -> val V' ad2 p = val V ad2 p) /\ forall o, 0 <= o < MAXFILE * BSIZE -> cont V' ad2 o = cont V ad2 o }.

Lemma wrote_written V xi off bs V1 ad' : file x V xi -> vol x V -> 0 <= i_inum xi < sb_ninodes x -> 0 <= off <= i_size xi -> off + alen bs <= MAXFILE * BSIZE ->
  wrote V (i_addrs xi) off bs V1 ad' ->
  let xi' := with_size (Z.max (i_size xi) (off + alen bs)) (with_addrs ad' xi) in
  written V xi off bs (<[iblk xi := to_disk xi' (V1 (iblk xi)) (dinode_at (i_inum xi))]> V1) xi'.
Proof using Hx.
  intros HF HV Hi Hoff Hend HW xi'. destruct (inum_block _ Hi) as (Hr & Hok & HB). pose proof (wr_tree _ _ _ _ _ _ HW) as HT'. pose proof (fi_size _ _ _ HF) as Hsz.
  assert (Hlow : iblk xi < sb_bmapstart x) by lia. assert (Hlen : length ad' = 13%nat) by apply HT'.
  set (d := to_disk _ _ _). assert (Ef : forall bn, 0 <= bn < MAXFILE -> fblk (<[iblk xi := d]> V1) ad' bn = fblk V1 ad' bn).
  { intros bn Hbn. unfold fblk. apply val_insert; [by apply low_inner|by apply leaf_okp]. }
  assert (Hblk : forall o, 0 <= o < MAXFILE * BSIZE -> 0 <= o / BSIZE < MAXFILE) by (intros; unfold Blk.BSIZE in *; dlia).
  assert (Hal : 0 <= alen bs) by (unfold alen; lia).
  split; try done.
  - split; [apply HF|apply tree_insert; [done|by apply low_inner|done]|cbn; lia|].
    intros o Ho. cbn in *. rewrite Ef by (apply Hblk; lia). destruct (decide (o < i_size xi)) as [H1|H1].
    + pose proof (fi_hole _ _ _ HF o ltac:(lia)) as Hnz. rewrite (wr_keeps _ _ _ _ _ _ _ HW) by (done || apply Hblk; lia). done.
    + apply (wr_has _ _ _ _ _ _ HW). lia.
  - apply (vol_insert x Hx); [apply HW|done|]. apply to_disk_ok. apply (vo_bytes _ _ (wr_vol _ _ _ _ _ _ HW)).
  - intros o Ho. cbn in Ho |- *. rewrite cont_low by (done || lia). apply (wr_cont _ _ _ _ _ _ HW). lia.
  - intros Hio. assert (Hio' : inode_ok xi').
    { destruct Hio as [I1 I2 I3 I4 I5 I6 I7 I8]. split; try done; [cbn; assert (MAXFILE * BSIZE < 2 ^ 31) by done; lia|by apply (tree_addrs V1)]. }
    split; [done|]. intros y. rewrite fn_lookup_insert. unfold d. by rewrite dinode_roundtrip.
  - intros n o Hn. destruct (decide (n = iblk xi)) as [->|Hne].
    + rewrite fn_lookup_insert. destruct (decide (dinode_at (i_inum xi) <= o < dinode_at (i_inum xi) + 64)) as [?|Ho]; [by right|left].
      unfold d. rewrite to_disk_out by done. by rewrite (wr_low _ _ _ _ _ _ HW).
    + left. rewrite fn_lookup_insert_ne by done. by rewrite (wr_low _ _ _ _ _ _ HW).
  - intros ad2 HT2 Hd. destruct (wrote_others _ _ _ _ _ _ ad2 HW HT2 Hd) as (C1 & C2 & C3). split_and!.
    + apply tree_insert; [done|by apply low_inner|done].
    + intros p q Hp Hq. cbn [i_addrs with_size with_addrs xi']. rewrite (val_insert V1 ad'); [|by apply low_inner|done].
      rewrite (val_insert V1 ad2); [|by apply low_inner|done]. by apply (wrote_apart _ _ _ _ _ _ ad2 HW).
    + intros p Hp. rewrite val_insert; [by apply C2|by apply low_inner|done].
    + intros o Ho. rewrite cont_low by done. by apply C3.
Qed.

(** One write after another. *)
Lemma written_trans V xi off bs V1 xi1 bs' V2 xi2 : 0 <= off <= i_size xi -> written V xi off bs V1 xi1 -> written V1 xi1 (off + alen bs) bs' V2 xi2 ->
  written V xi off (bs ++ bs') V2 xi2.
Proof using.
  clear Hx. intros Hoff W1 W2. pose proof (wn_inode _ _ _ _ _ _ W1) as E1. pose proof (wn_inode _ _ _ _ _ _ W2) as E2.
  assert (La : alen (bs ++ bs') = alen bs + alen bs') by (unfold alen; rewrite length_app; lia).
  assert (Lp : 0 <= alen bs /\ 0 <= alen bs') by (unfold alen; lia).
  assert (S1 : i_size xi1 = Z.max (i_size xi) (off + alen bs)) by (rewrite E1; done). assert (S2 : i_size xi2 = Z.max (i_size xi1) (off + alen bs + alen bs')) by (rewrite E2; done).
  assert (En : i_inum xi1 = i_inum xi) by (rewrite E1; done). split.
  - clear - E1 E2 La Lp. destruct xi, xi1, xi2. unfold with_size, with_addrs in *. cbn in *. inversion E1. inversion E2. subst. f_equal; lia.
  - apply W2.
  - apply W2.
  - intros o Ho. rewrite (wn_cont _ _ _ _ _ _ W2) by done. rewrite La. destruct (decide (off + alen bs <= o < _)) as [H1|H1].
    + rewrite decide_True by lia. rewrite lookup_app_r by (unfold alen in *; lia). do 2 f_equal. unfold alen in *. lia.
    + rewrite (wn_cont _ _ _ _ _ _ W1) by lia. destruct (decide (off <= o < off + alen bs)) as [H2|H2].
      * rewrite decide_True by lia. rewrite lookup_app_l by (unfold alen in *; lia). done.
      * by rewrite decide_False by lia.
  - intros Hio. destruct (wn_disk _ _ _ _ _ _ W1 Hio) as [Hio1 _]. destruct (wn_disk _ _ _ _ _ _ W2 Hio1) as [Hio2 E]. split; [done|]. by rewrite En in E.
  - intros n o Hn. destruct (wn_inodes _ _ _ _ _ _ W2 n o Hn) as [E|E]; [|right; by rewrite En in E]. rewrite E. by apply (wn_inodes _ _ _ _ _ _ W1).
  - intros ad2 HT Ha. destruct (wn_others _ _ _ _ _ _ W1 ad2 HT Ha) as (T1 & A1 & P1 & C1). destruct (wn_others _ _ _ _ _ _ W2 ad2 T1 A1) as (T2 & A2 & P2 & C2).
    split_and!; [done|done| |]; [intros p Hp; by rewrite P2, P1|intros o Ho; by rewrite C2, C1].
Qed.

(** The lock of the inode does not matter. *)
Lemma written_lock V xi off bs V' xi' b : written V (with_lock b xi) off bs V' xi' -> written V xi off bs V' (with_lock (i_locked xi) xi').
Proof using.
  clear Hx. intros [W1 W2 W3 W4 W5 W6 W7]. split; try done.
  - rewrite W1. by destruct xi.
  - destruct W2 as [F1 F2 F3 F4]. by split.
  - intros Hio. destruct W5 as [I E]; [by destruct Hio; split|]. split; [by destruct I; split|exact E].
Qed.

(** The end of [writei]: the size, and the inode to the disk. *)
Lemma writei_tail (s : fstate) ip xi n off V D L c : sb s = x -> icache s !! ip = Some xi -> i_dev xi = ROOTDEV -> 0 <= i_inum xi < sb_ninodes x ->
  0 < n -> fsees B (dsk s) V D [] L c -> 0 < c ->
  let xi' := with_size (Z.max (i_size xi) off) xi in
  exists d', when (0 <? n) (let* y := geti ip in when (i_size y <? off) (modi ip (with_size off)) ;;; iupdate ip) s = Ret tt (put_inode s ip xi' d') /\
    fsees B d' (<[iblk xi := to_disk xi' (V (iblk xi)) (dinode_at (i_inum xi))]> V) D [] ({[iblk xi]} ∪ L) (c - 1).
Proof using Hx.
  intros Esb Hip Hdev Hi Hn Hs Hc xi'. rewrite (proj2 (Z.ltb_lt _ _)) by lia. cbn [when]. rewrite (bind_Ret _ _ _ _ _ (geti_run s ip xi Hip)).
  pose proof (lookup_lt_Some _ _ _ Hip) as Hl.
  assert (E : when (i_size xi <? off) (modi ip (with_size off)) s = Ret tt (put_inode s ip xi' (dsk s))).
  { unfold put_inode, xi'. destruct (Z.ltb_spec (i_size xi) off); cbn [when].
    - unfold modi. rewrite Hip. rewrite Z.max_r by lia. by destruct s.
    - rewrite Z.max_l by lia. assert (E1 : with_size (i_size xi) xi = xi) by (by destruct xi). rewrite E1, list_insert_id by done. by destruct s. }
  rewrite (bind_Ret _ _ _ _ _ E).
  destruct (iupdate_ok (put_inode s ip xi' (dsk s)) ip xi' V D L c) as (d' & R & Hs'); [done|cbn; by apply list_lookup_insert_eq|done|done|done|done|].
  exists d'. split; [exact R|]. exact Hs'.
Qed.

(** Writing a block of inodes needs none of what is spared for [P]. *)
Lemma spare_low A P e k d' V D ad L n dd c : (forall p, p ∈ P -> okp p) -> NoDup P -> allowance x B P A -> tree x V ad -> n < sb_bmapstart x -> n ∉ BM x ->
  A V ad (need V ad L P + k)%nat -> Z.of_nat (need V ad L P + e) <= c -> fsees B d' (<[n := dd]> V) D [] ({[n]} ∪ L) c ->
  spare B A P e k d' (<[n := dd]> V) D ad ({[n]} ∪ L).
Proof using Hx.
  intros HPok HPn HA HT Hn HB Hav Hc Hs.
  assert (Hless : (need (<[n := dd]> V) ad ({[n]} ∪ L) P + length (@nil place) <= need V ad L P)%nat).
  { apply need_less; [done|apply NoDup_nil_2|apply list_subseteq_nil| |by intros q []%not_elem_of_nil]. intros q Hq [H1 H2]. unfold logged.
    rewrite val_insert; [split; [done|set_solver]|by apply low_inner|by apply HPok]. }
  simpl in Hless. split; [eapply fsees_weaken; [exact Hs|lia]|]. apply (allowance_insert P A); [done|done|by apply low_inner|]. eapply (an_weaken _ _ _ _ HA); [exact Hav|lia].
Qed.

Lemma writei_spec (s : fstate) ip xi V D L A P e k us src off bs : NoDup P -> (forall p, p ∈ P -> okp p) -> allowance x B P A ->
  sb s = x -> icache s !! ip = Some xi -> file x V xi -> vol x V -> 0 <= i_inum xi < sb_ninodes x ->
  source s us src bs -> Umem.bytes bs -> 0 < alen bs -> 0 <= src -> src + alen bs < 2 ^ 64 -> 0 <= off <= i_size xi -> off + alen bs <= MAXFILE * BSIZE ->
  (forall o, off <= o < off + alen bs -> path (o / BSIZE) ⊆ P) -> spare B A P (Datatypes.S e) k (dsk s) V D (i_addrs xi) L ->
  exists V' xi' L' d', writei ip us src off (alen bs) s = Ret (alen bs) (put_inode s ip xi' d') /\ written V xi off bs V' xi' /\
    spare B A P e k d' V' D (i_addrs xi') L' /\ L ⊆ L'.
Proof using Hx UM.
  intros HPn HPok HA Esb Hip HF HV Hi Hsrc Hbs Hpos Hs0 Hs64 Hoff Hend Hpath Hs. pose proof (fi_size _ _ _ HF) as Hsz. assert (HM : MAXFILE * BSIZE < 2 ^ 31) by done.
  destruct (writei_loop_ok P (Datatypes.S e) k A HA HPn HPok ip us (alen bs) (io_fuel (alen bs)) ltac:(lia) s xi V D L src off 0 bs) as (V1 & ad1 & L1 & d1 & R1 & HW & [Hs1 Hav1] & HL1);
    [done|done|apply HF|done|apply HF|done|done|lia|lia|done|done|lia|lia|rewrite Z.sub_0_r; apply rounds_io; lia|done|done|].
  rewrite Z.sub_0_r in *. set (s1 := put_inode s ip (with_addrs ad1 xi) d1) in *.
  assert (Hip1 : icache s1 !! ip = Some (with_addrs ad1 xi)) by (cbn; apply list_lookup_insert_eq; by eapply lookup_lt_Some).
  destruct (writei_tail s1 ip (with_addrs ad1 xi) (alen bs) (off + alen bs) V1 D L1 (Z.of_nat (need V1 ad1 L1 P + Datatypes.S e))) as (d2 & R2 & Hs2);
    [done|done|apply HF|done|done|done|lia|].
  unfold writei. rewrite (bind_Ret _ _ _ _ _ (geti_run s ip xi Hip)), !u32_small by lia.
  rewrite (proj2 (Z.ltb_ge (i_size xi) off)), (proj2 (Z.ltb_ge (off + alen bs) off)), (proj2 (Z.ltb_ge (MAXFILE * BSIZE) _)) by lia. cbn [orb].
  rewrite (bind_Ret _ _ _ _ _ R1), (bind_Ret _ _ _ _ _ R2). destruct (inum_block _ Hi) as (Hlow & _ & HB).
  eexists _, _, _, d2. split_and!; [|exact (wrote_written V xi off bs V1 ad1 HF HV Hi ltac:(lia) Hend HW)| |].
  - unfold ret. rewrite s32_small by lia. f_equal. unfold s1, put_inode. cbn. by rewrite list_insert_insert_eq.
  - eapply spare_low; [done|done|done|apply HW|lia|done|exact Hav1| |exact Hs2]. cbn [i_addrs with_size with_addrs]. lia.
  - set_solver.
Qed.

(** ** The places of a range of bytes *)

Definition places (off n : Z) : list place := remove_dups (mjoin (path <$> seqZ (off / BSIZE) (blocks off n))).

Lemma path_okp bn p : 0 <= bn < MAXFILE -> p ∈ path bn -> okp p.
Proof using.
  clear Hx. intros Hbn. destruct (leaf_okp bn Hbn) as [Hl _]. unfold path. destruct (leaf bn) as [|k [|i [|t [|]]]]; cbn in *; try done.
  - by intros ->%list_elem_of_singleton.
  - destruct Hl as [Hi Hk]. intros [-> | ->%list_elem_of_singleton]%elem_of_cons; [done|]. destruct Hi as [->| ->]; by cbn.
  - destruct Hl as [[-> Hi] Hk]. intros [->|[-> | ->%list_elem_of_singleton]%elem_of_cons]%elem_of_cons; [done| |done]. split; [by right|done].
  - by destruct Hl.
Qed.

Lemma places_in off n o : 0 <= off -> off <= o < off + n -> path (o / BSIZE) ⊆ places off n.
Proof using.
  clear Hx. intros Hoff Ho p Hp. unfold places. apply elem_of_remove_dups, list_elem_of_join. exists (path (o / BSIZE)). split; [done|].
  apply list_elem_of_fmap. exists (o / BSIZE). split; [done|]. apply elem_of_seqZ. unfold blocks. rewrite (proj2 (Z.leb_gt n 0)) by lia. unfold Blk.BSIZE. dlia.
Qed.

Lemma places_elem off n p : p ∈ places off n -> exists bn, p ∈ path bn /\ off / BSIZE <= bn < off / BSIZE + blocks off n.
Proof using.
  clear Hx. unfold places. rewrite elem_of_remove_dups, list_elem_of_join. intros (l & Hp & (bn & -> & Hbn%elem_of_seqZ)%list_elem_of_fmap).
  by exists bn.
Qed.

Lemma places_okp off n p : 0 <= off -> off + n <= MAXFILE * BSIZE -> p ∈ places off n -> okp p.
Proof using.
  clear Hx. intros Hoff Hend (bn & Hp & Hbn)%places_elem. apply (path_okp bn); [|done]. unfold blocks in Hbn. destruct (Z.leb_spec n 0); [lia|].
  unfold Blk.BSIZE in *. dlia.
Qed.

(** The address blocks on the way to [n] blocks from [b0]. *)
Definition aboves (b0 n : Z) : list place :=
  if b0 + n <=? NDIRECT + NINDIRECT then [[NDIRECT]]
  else if b0 <? NDIRECT + NINDIRECT then [[NDIRECT]; [NDIRECT + 1]; [0; NDIRECT + 1]]
  else let i := (b0 - NDIRECT - NINDIRECT) / NADDR_PER_BLOCK in [[NDIRECT + 1]; [i; NDIRECT + 1]; [i + 1; NDIRECT + 1]].

Lemma path_aboves b0 n bn : 0 <= b0 -> n <= NINDIRECT -> b0 <= bn < b0 + n -> path bn ⊆ leaf bn :: aboves b0 n.
Proof using.
  clear Hx. intros H0 Hn Hbn. unfold path, leaf, aboves. destruct (Z.ltb_spec bn NDIRECT); [set_solver|].
  destruct (Z.ltb_spec (bn - NDIRECT) NINDIRECT) as [H1|H1].
  - destruct (Z.leb_spec (b0 + n) (NDIRECT + NINDIRECT)); [set_solver|]. rewrite (proj2 (Z.ltb_lt _ _)) by lia. set_solver.
  - rewrite (proj2 (Z.leb_gt _ _)) by lia. destruct (Z.ltb_spec b0 (NDIRECT + NINDIRECT)) as [H2|H2].
    + assert (E : (bn - NDIRECT - NINDIRECT) / NADDR_PER_BLOCK = 0) by (cases_const; dlia). rewrite E. set_solver.
    + cbv zeta. set (i := (b0 - NDIRECT - NINDIRECT) / NADDR_PER_BLOCK).
      assert (E : (bn - NDIRECT - NINDIRECT) / NADDR_PER_BLOCK = i \/ (bn - NDIRECT - NINDIRECT) / NADDR_PER_BLOCK = i + 1) by (unfold i; cases_const; dlia).
      destruct E as [-> | ->]; set_solver.
Qed.

(** At most three of them, for a quarter of a megabyte. *)
Lemma places_length off n : 0 <= off -> blocks off n <= NINDIRECT -> Z.of_nat (length (places off n)) <= Z.max 0 (blocks off n) + 3.
Proof using.
  clear Hx. intros Hoff Hn. set (b0 := off / BSIZE). set (m := blocks off n) in *.
  assert (Hs : (length (places off n) <= length ((leaf <$> seqZ b0 m) ++ aboves b0 m))%nat).
  { apply submseteq_length, NoDup_submseteq; [apply NoDup_remove_dups|]. intros p (bn & Hp & Hbn)%places_elem. fold b0 m in Hbn.
    assert (Hb0 : 0 <= b0) by (unfold b0, Blk.BSIZE; dlia).
    apply (path_aboves b0 m bn Hb0 Hn Hbn) in Hp. apply elem_of_app. apply elem_of_cons in Hp as [->|Hp]; [left|by right].
    apply list_elem_of_fmap. exists bn. split; [done|]. apply elem_of_seqZ. lia. }
  rewrite length_app, length_fmap, length_seqZ in Hs.
  assert (length (aboves b0 m) <= 3)%nat by (unfold aboves; repeat case_match; simpl; lia). lia.
Qed.

(** [writei] of at most 256 blocks: a log entry for each block, three for address
    blocks and one for the inode are enough. *)
Lemma writei_allowed (s : fstate) A ip xi V D L c k us src off bs : allowance x B (places off (alen bs)) A -> sb s = x -> icache s !! ip = Some xi -> file x V xi -> vol x V -> 0 <= i_inum xi < sb_ninodes x ->
  source s us src bs -> Umem.bytes bs -> 0 < alen bs -> 0 <= src -> src + alen bs < 2 ^ 64 -> 0 <= off <= i_size xi -> off + alen bs <= MAXFILE * BSIZE ->
  let n := blocks off (alen bs) in n <= NINDIRECT -> n + 4 <= c -> A V (i_addrs xi) (Z.to_nat (n + 3) + k)%nat -> fsees B (dsk s) V D [] L c ->
  exists V' xi' L' d', writei ip us src off (alen bs) s = Ret (alen bs) (put_inode s ip xi' d') /\ written V xi off bs V' xi' /\
    fsees B d' V' D [] L' (c - n - 4) /\ A V' (i_addrs xi') k /\ L ⊆ L'.
Proof using Hx UM.
  intros HA Esb Hip HF HV Hi Hsrc Hbs Hpos Hs0 Hs64 Hoff Hend n Hn Hc Hav Hs. set (P := places off (alen bs)).
  assert (Hnp : 0 <= n) by (unfold n, blocks, Blk.BSIZE; destruct (_ <=? _); dlia).
  assert (Hlen : Z.of_nat (length P) <= n + 3) by (pose proof (places_length off (alen bs) ltac:(lia) Hn) as Hpl; fold n in Hpl; unfold P; lia).
  assert (Hneed : (need V (i_addrs xi) L P <= length P)%nat) by (unfold need; apply length_filter).
  destruct (writei_spec s ip xi V D L A P (Z.to_nat (c - n - 4)) k us src off bs) as (V' & xi' & L' & d' & R & HW & [Hs' Hav'] & HL);
    [apply NoDup_remove_dups|intros p; apply places_okp; lia|done|done|done|done|done|done|done|done|done|done|done|done|done|intros o Ho; apply places_in; lia| |].
  { split; [eapply fsees_weaken; [exact Hs|lia]|eapply (an_weaken _ _ _ _ HA); [exact Hav|lia]]. }
  exists V', xi', L', d'. split_and!; [done|done|eapply fsees_weaken; [exact Hs'|lia]|eapply (an_weaken _ _ _ _ HA); [exact Hav'|lia]|done].
Qed.

Lemma writei_run (s : fstate) ip xi V D L c k us src off bs : sb s = x -> icache s !! ip = Some xi -> file x V xi -> vol x V -> 0 <= i_inum xi < sb_ninodes x ->
  source s us src bs -> Umem.bytes bs -> 0 < alen bs -> 0 <= src -> src + alen bs < 2 ^ 64 -> 0 <= off <= i_size xi -> off + alen bs <= MAXFILE * BSIZE ->
  let n := blocks off (alen bs) in n <= NINDIRECT -> n + 4 <= c -> avail x B V (Z.to_nat (n + 3) + k) -> fsees B (dsk s) V D [] L c ->
  exists V' xi' L' d', writei ip us src off (alen bs) s = Ret (alen bs) (put_inode s ip xi' d') /\ written V xi off bs V' xi' /\
    fsees B d' V' D [] L' (c - n - 4) /\ avail x B V' k /\ L ⊆ L'.
Proof using Hx UM. intros. by apply (writei_allowed s (fun V _ => avail x B V)); [apply avail_allowance|..]. Qed.

End write.

End Fswrite.
