(* ===== verification/Fsspec.v ===== *)
(** What the file system promises about files: the specifications of [balloc],
    [readi], [writei] and [iupdate], each for every store that keeps the laws of
    [Store.v], and for any user memory. *)

From stdpp Require Import functions.
From Stdlib Require Import FunctionalExtensionality.
From S2P Require Import Prelude Mem Kstring Umem Blk Store Fs Fsalloc Fsmap Fsread Fswrite.
Import Kstring Umem Store Fs Fsalloc Fsmap Fsread Fswrite.

Module Fsspec.

Section spec.
Context {S : Type} {ST : Store S} {U : Type} {UM : UserMem U}.
Context (x : superblock) (B : gset Z).
Hypothesis Hx : geom x.
Abbreviation fstate := (fs (S := S) (U := U)).

(** The same fields, as [ilock] takes them from the disk. *)
Definition same_fields (a b : inode) : Prop :=
  i_type a = i_type b /\ i_mode a = i_mode b /\ i_major a = i_major b /\ i_minor a = i_minor b /\ i_nlink a = i_nlink b /\
  i_size a = i_size b /\ i_addrs a = i_addrs b.

(** A cache entry that [ilock] has to fill. *)
Record stale (y : inode) (inum : Z) : Prop := {
  sl_dev : i_dev y = ROOTDEV; sl_inum : i_inum y = inum; sl_ref : 1 <= i_ref y; sl_free : i_locked y = false; sl_valid : i_valid y = 0 }.

Lemma modi_run (s : fstate) ip y f : icache s !! ip = Some y -> modi ip f s = Ret tt (set_icache (<[ip := f y]> (icache s)) s).
Proof using. clear Hx. intros Hy. unfold modi. by rewrite Hy. Qed.

(** [ilock] of such an entry. *)
Lemma ilock_stale (s : fstate) ip y V D L cap : sb s = x -> icache s !! ip = Some y -> stale y (i_inum y) -> 0 <= i_inum y < sb_ninodes x ->
  sees (dsk s) V D [] L cap -> (size L < 28)%nat ->
  let y' := with_valid 1 (from_disk (V (IBLOCK (i_inum y) x)) (dinode_at (i_inum y)) (with_lock true y)) in
  i_type y' <> 0 -> exists d', ilock (Some ip) s = Ret tt (put_inode s ip y' d') /\ sees d' V D [] L cap.
Proof using Hx.
  intros Esb Hip [D1 D2 D3 D4 D5] Hi Hs Hl y' Hty. destruct (inum_block x Hx _ Hi) as (_ & Hok & _). set (b := IBLOCK (i_inum y) x) in *.
  destruct (sees_bread _ _ _ _ _ _ b Hs Hok) as (i & d1 & R1 & Hs1); [set_solver|right; unfold Blk.NBUF; simpl; lia|].
  pose proof (sees_data _ _ _ _ _ _ i b Hs1 ltac:(by left)) as R2.
  destruct (sees_brelse _ _ _ _ _ _ i b Hs1) as (d3 & R3 & Hs3); [intros HL; eapply (sees_clean _ _ _ _ _ _ b Hs); [set_solver|done]|].
  exists d3. split; [|done]. cbn [ilock]. rewrite (bind_Ret _ _ _ _ _ (geti_run s ip y Hip)).
  rewrite (proj2 (Z.ltb_ge (i_ref y) 1)), D4 by lia. pose proof (lookup_lt_Some _ _ _ Hip) as Hlt.
  rewrite (bind_Ret _ _ _ _ _ (modi_run s ip y _ Hip)), D5. cbn [Z.eqb]. unfold bind at 1, gets at 1. cbn [sb set_icache]. rewrite Esb, D1. fold b.
  set (s1 := set_icache (<[ip := with_lock true y]> (icache s)) s).
  rewrite (bind_Ret _ _ _ _ _ (disk_run _ s1 _ _ R1)), (bind_Ret _ _ _ _ _ (disk_run _ (set_dsk d1 s1) _ _ R2)).
  rewrite (bind_Ret _ _ _ _ _ (modi_run (set_dsk d1 s1) ip (with_lock true y) _ (list_lookup_insert_eq _ _ _ Hlt))).
  set (s2 := set_icache _ (set_dsk d1 s1)). rewrite (bind_Ret _ _ _ _ _ (disk_run _ s2 _ _ R3)).
  assert (H2 : icache (set_dsk d3 s2) !! ip = Some (from_disk (V b) (dinode_at (i_inum y)) (with_lock true y)))
    by (cbn; apply list_lookup_insert_eq; by rewrite length_insert).
  rewrite (bind_Ret _ _ _ _ _ (modi_run (set_dsk d3 s2) ip _ _ H2)).
  assert (E : set_icache (<[ip := y']> (icache (set_dsk d3 s2))) (set_dsk d3 s2) = put_inode s ip y' d3).
  { unfold put_inode, set_icache. cbn. by rewrite !list_insert_insert_eq. }
  fold y'. rewrite E, (bind_Ret _ _ _ _ _ (geti_run (put_inode s ip y' d3) ip y' (list_lookup_insert_eq _ _ _ Hlt))).
  by rewrite (proj2 (Z.eqb_neq _ _)).
Qed.

(** Writing back the bytes that are there. *)
Lemma put_bytes_same (d : block) n o : mem_ok d -> put_bytes d o (Mem.bytes n d o) = d.
Proof using.
  clear Hx. intros Hd. apply functional_extensionality. intros a. destruct (decide (o <= a < o + Z.of_nat n)) as [Ha|Ha].
  - replace a with (o + Z.of_nat (Z.to_nat (a - o))) by lia. rewrite (put_bytes_in (Mem.bytes n d o) d o (Z.to_nat (a - o)) (d (o + Z.of_nat (Z.to_nat (a - o))))).
    + apply u8_small, Hd.
    + rewrite bytes_lookup by lia. done.
  - apply put_bytes_out. rewrite length_bytes. lia.
Qed.

Lemma insert_same (V : Z -> block) b : <[b := V b]> V = V.
Proof using.
  clear Hx. apply functional_extensionality. intros n. destruct (decide (n = b)) as [->|]; [by rewrite fn_lookup_insert|by rewrite fn_lookup_insert_ne].
Qed.

(** [either_copyin] from an address without a byte. *)
Lemma either_copyin_bad (s : fstate) us src d off m : us <> 0 -> uok (user s) -> 0 <= src -> uview (user s) src = None -> mem_ok d -> 0 < m <= BSIZE ->
  either_copyin d off us src m s = Ret (d, -1) s.
Proof using.
  clear Hx. intros Hus Hu Hsrc Hn Hd Hm. unfold either_copyin. rewrite (proj2 (Z.eqb_neq us 0)) by done. cbn [negb]. unfold bind, gets, ret.
  rewrite (ucopyin_ok (user s) src (Mem.bytes (Z.to_nat m) d off) Hu Hsrc).
  - rewrite length_bytes. assert (E : uprefix (uview (user s)) (Z.to_nat m) src = []) by (destruct (Z.to_nat m) eqn:E; [lia|]; cbn; by rewrite Hn).
    rewrite E. cbn [app length]. rewrite drop_0, put_bytes_same by done. unfold alen. rewrite length_bytes. cbn [length].
    rewrite (proj2 (Z.eqb_neq _ _)) by lia. done.
  - unfold alen, ULIMIT, Blk.BSIZE in *. rewrite length_bytes. lia.
  - apply Forall_forall. intros b Hb. apply list_elem_of_lookup in Hb as [i Hi]. pose proof (lookup_lt_Some _ _ _ Hi) as Hl. rewrite length_bytes in Hl.
    rewrite bytes_lookup in Hi by done. injection Hi as <-. apply Hd.
Qed.

(** C30: [balloc] takes the first block that the bitmap shows free: it is inside
    the data region, it comes back marked and filled with zeros, and no other
    block changes but the bitmap block that holds its bit. It panics exactly when
    no block is free. *)
Theorem balloc_first_free (s : fstate) V D H L c : sb s = x -> vol x V -> holdable x V H -> 0 < c -> (forall b, first x V b -> BBLOCK b x ∈ B) -> fsees B (dsk s) V D H L c ->
  match balloc ROOTDEV s with
  | Ret b s' => exists d' V', s' = set_dsk d' s /\ first x V b /\ allocs x V b V' /\
      fsees B d' V' D H ({[b]} ∪ ({[BBLOCK b x]} ∪ L)) (c - 1)
  | Panic m => m = "balloc: out of blocks"%string /\ forall b, 0 <= b < sb_size x -> allocated x V b = true
  | _ => False
  end.
Proof using Hx.
  intros Esb HV HH Hc HBf Hs. pose proof (balloc_run x B Hx s V D H L c Esb HV HH Hc HBf Hs) as Hrun.
  destruct (balloc ROOTDEV s) as [b s'|m| |]; [|done..]. destruct Hrun as (d' & -> & Hfst & Hs').
  eexists d', _. split; [done|]. split; [done|]. split; [apply (mark_allocs x Hx); [done|apply Hfst..]|done].
Qed.

(** C11: [writei] of bytes that can be read, at an offset inside the file or at
    its end, returns their number. The file then holds them there and is
    otherwise as before, its size is the larger of the old one and their end, and
    the inode on the disk is the one in memory. No other inode on the disk and no
    byte of a file that shares no block with it changes. A free block and a log
    entry for each of at most 256 blocks, three of both for address blocks, and an
    entry for the inode are enough; [B] is set aside for the bitmap. *)
Theorem writei_updates (s : fstate) ip xi V D L c k us src off bs : sb s = x -> icache s !! ip = Some xi -> file x V xi -> vol x V ->
  0 <= i_inum xi < sb_ninodes x -> source s us src bs -> Umem.bytes bs -> 0 < alen bs -> 0 <= src -> src + alen bs < 2 ^ 64 ->
  0 <= off <= i_size xi -> off + alen bs <= MAXFILE * BSIZE -> blocks off (alen bs) <= NINDIRECT -> blocks off (alen bs) + 4 <= c ->
  avail x B V (Z.to_nat (blocks off (alen bs) + 3) + k) -> fsees B (dsk s) V D [] L c ->
  exists V' xi' L' d', writei ip us src off (alen bs) s = Ret (alen bs) (put_inode s ip xi' d') /\ written x V xi off bs V' xi' /\
    fsees B d' V' D [] L' (c - blocks off (alen bs) - 4) /\ avail x B V' k.
Proof using Hx.
  intros H1 H2 H3 H4 H5 H6 H7 H8 H9 H10 H11 H12 H13 H14 H15 H16.
  destruct (writei_run x B Hx s ip xi V D L c k us src off bs H1 H2 H3 H4 H5 H6 H7 H8 H9 H10 H11 H12 H13 H14 H15 H16) as (V' & xi' & L' & d' & C1 & C2 & C3 & C4 & _).
  by exists V', xi', L', d'.
Qed.

(** C31: [readi] into user memory: a prefix of the wanted bytes, all of them if
    the memory can be written, arrives in order and nothing else of user memory
    changes; the value returned is their number when all arrived, and never more
    than arrived. The disk, the inode and the log stay as they are. *)
Theorem readi_delivers (s : fstate) ip xi V D L cap ud dst off n : icache s !! ip = Some xi -> file x V xi -> (forall n, mem_ok (V n)) ->
  sees (dsk s) V D [] L cap -> (size L < 28)%nat -> uok (user s) -> ud <> 0 -> 0 <= dst -> dst + n < 2 ^ 64 -> 0 <= off -> 0 <= n -> off + n < 2 ^ 32 ->
  exists r k u' d', readi ip ud dst off n s = Ret r (put_mem s u' (kmem s) d') /\ sees d' V D [] L cap /\ uok u' /\
    0 <= r <= k /\ k <= readable xi off n /\ (k = readable xi off n <-> r = readable xi off n) /\
    forall a, 0 <= a -> uview u' a = if decide (dst <= a < dst + k) then Some (cont V (i_addrs xi) (off + (a - dst))) else uview (user s) a.
Proof using Hx. apply (readi_user x Hx). Qed.

(** C12: bytes written to a file are the bytes read back: [writei] followed by
    [readi] of the same range into kernel memory. *)
Theorem write_read_roundtrip (s : fstate) ip xi V D L c us src off bs dst : sb s = x -> icache s !! ip = Some xi -> file x V xi -> vol x V ->
  0 <= i_inum xi < sb_ninodes x -> source s us src bs -> Umem.bytes bs -> 0 < alen bs -> 0 <= src -> src + alen bs < 2 ^ 64 ->
  0 <= off <= i_size xi -> off + alen bs <= MAXFILE * BSIZE -> blocks off (alen bs) <= NINDIRECT -> blocks off (alen bs) + 4 <= c ->
  avail x B V (Z.to_nat (blocks off (alen bs) + 3)) -> fsees B (dsk s) V D [] L c -> 0 <= dst -> dst + alen bs < 2 ^ 64 ->
  exists s', (let* w := writei ip us src off (alen bs) in let* r := readi ip 0 dst off (alen bs) in ret (w, r)) s = Ret (alen bs, alen bs) s' /\
    Mem.bytes (length bs) (kmem s') dst = bs /\ forall a, ~ (dst <= a < dst + alen bs) -> kmem s' a = kmem s a.
Proof using Hx.
  intros Esb Hip HF HV Hi Hsrc Hbs Hpos H9 H10 Hoff Hend Hnb Hc Hav Hs Hd Hde. assert (HM : MAXFILE * BSIZE < 2 ^ 31) by done.
  destruct (writei_run x B Hx s ip xi V D L c 0 us src off bs) as (V' & xi' & L' & d' & R1 & HW & Hs' & _); try done; [by rewrite Nat.add_0_r|].
  destruct (fsees_sees _ _ _ _ _ _ _ Hs') as (cap & Hs1 & Hl & _). set (s1 := put_inode s ip xi' d') in *.
  assert (Hip1 : icache s1 !! ip = Some xi') by (cbn; apply list_lookup_insert_eq; by eapply lookup_lt_Some).
  assert (Hsz : i_size xi' = Z.max (i_size xi) (off + alen bs)) by (rewrite (wn_inode _ _ _ _ _ _ _ HW); done).
  destruct (readi_kern x Hx s1 ip xi' V' D L' cap dst off (alen bs)) as (m' & d2 & R2 & _ & Hm);
    [done|apply HW|apply (wn_vol _ _ _ _ _ _ _ HW)|done|done|done|done|lia|lia|lia|].
  assert (Er : readable xi' off (alen bs) = alen bs) by (unfold readable; rewrite (proj2 (Z.ltb_ge _ _)) by lia; lia). rewrite Er in *.
  eexists. split; [by rewrite (bind_Ret _ _ _ _ _ R1), (bind_Ret _ _ _ _ _ R2)|]. cbn [kmem put_mem]. split.
  - apply list_eq. intros j. destruct (decide (j < length bs)%nat) as [Hj|Hj].
    + rewrite bytes_lookup by done. unfold alen in *. rewrite Hm, decide_True by lia. rewrite (wn_cont _ _ _ _ _ _ _ HW) by lia. unfold alen. rewrite decide_True by lia.
      destruct (lookup_lt_is_Some_2 bs j Hj) as [b Hb]. rewrite Hb. replace (Z.to_nat _) with j by lia. by rewrite Hb.
    + rewrite !lookup_ge_None_2 by (rewrite ?length_bytes; lia). done.
  - intros a Ha. rewrite Hm, decide_False by done. done.
Qed.

(** C29: an inode written by [iupdate] is the inode that [ilock] reads back into
    any cache entry for it. *)
Theorem inode_roundtrip (s : fstate) ip xi jp y V D L c : sb s = x -> icache s !! ip = Some xi -> i_dev xi = ROOTDEV -> 0 <= i_inum xi < sb_ninodes x ->
  inode_ok xi -> i_type xi <> 0 -> icache s !! jp = Some y -> stale y (i_inum xi) -> fsees B (dsk s) V D [] L c -> 0 < c ->
  exists s', (iupdate ip ;;; ilock (Some jp)) s = Ret tt s' /\
    exists y', icache s' = <[jp := y']> (icache s) /\ same_fields y' xi /\ i_dev y' = i_dev y /\ i_inum y' = i_inum y /\ i_ref y' = i_ref y /\
      i_valid y' = 1 /\ i_locked y' = true.
Proof using Hx.
  intros Esb Hip Hdev Hi Hio Hty Hjp Hst Hs Hc. destruct (iupdate_ok x B Hx s ip xi V D L c Esb Hip Hdev Hi Hs Hc) as (d1 & R1 & Hs1).
  destruct (fsees_sees _ _ _ _ _ _ _ Hs1) as (cap & Hs2 & Hl & _). pose proof (sl_inum _ _ Hst) as En.
  destruct (ilock_stale (set_dsk d1 s) jp y _ D _ cap Esb Hjp ltac:(by rewrite En) ltac:(by rewrite En) Hs2 Hl) as (d2 & R2 & _).
  - rewrite En, fn_lookup_insert, dinode_roundtrip by done. done.
  - rewrite En, fn_lookup_insert, dinode_roundtrip in R2 by done. eexists. rewrite (bind_Ret _ _ _ _ _ R1). split; [exact R2|].
    eexists. split; [reflexivity|]. unfold same_fields. cbn. by rewrite En.
Qed.

(** [writei] from an address that is not mapped, inside the file: it copies
    nothing, yet returns the number of bytes it was asked to write, not -1. *)
Theorem writei_bad_source_counts (s : fstate) ip xi V D L c us src off n : sb s = x -> icache s !! ip = Some xi -> file x V xi -> vol x V ->
  0 <= i_inum xi < sb_ninodes x -> us <> 0 -> uok (user s) -> 0 <= src -> uview (user s) src = None -> 0 < n -> 0 <= off -> off + n <= i_size xi -> 0 < c ->
  fsees B (dsk s) V D [] L c ->
  exists V' L' d', writei ip us src off n s = Ret n (put_inode s ip xi d') /\ fsees B d' V' D [] L' (c - 1) /\
    forall o, 0 <= o < MAXFILE * BSIZE -> cont V' (i_addrs xi) o = cont V (i_addrs xi) o.
Proof using Hx.
  intros Esb Hip HF HV Hi Hus Hu Hsrc Hnone Hn Hoff Hend Hc Hs. assert (HM : MAXFILE * BSIZE < 2 ^ 31) by done. pose proof (fi_size _ _ _ HF) as Hsz.
  destruct (fsees_sees _ _ _ _ _ _ _ Hs) as (cap & Hs0 & Hl & Hback).
  assert (Hbn : 0 <= off / BSIZE < MAXFILE) by (unfold Blk.BSIZE in *; dlia).
  assert (Hnz : fblk V (i_addrs xi) (off / BSIZE) <> 0) by (apply (fi_hole _ _ _ HF); lia).
  destruct (bmap_hit x Hx s ip xi V D L cap (off / BSIZE) Hip (fi_dev _ _ _ HF) (fi_tree _ _ _ HF) Hs0 Hl Hbn Hnz) as (d1 & R1 & Hs1).
  set (b := fblk V (i_addrs xi) (off / BSIZE)) in *.
  assert (Hb : okb b) by (apply (data_ok x Hx); apply (tr_data _ _ _ (fi_tree _ _ _ HF) (leaf (off / BSIZE))); [by apply leaf_okp|done]).
  destruct (sees_bread _ _ _ _ _ _ b Hs1 Hb) as (i & d2 & R2 & Hs2); [set_solver|right; unfold Blk.NBUF; simpl; lia|].
  pose proof (sees_data _ _ _ _ _ _ i b Hs2 ltac:(by left)) as R3.
  destruct (sees_set _ _ _ _ _ _ i b (V b) Hs2 ltac:(by left)) as (d4 & R4 & Hs4). rewrite insert_same in Hs4.
  destruct (sees_brelse _ _ _ _ _ _ i b Hs4) as (d5 & R5 & Hs5); [intros HL; eapply (sees_clean _ _ _ _ _ _ b Hs1); [set_solver|done]|].
  assert (Hm : 0 < Z.min (n - 0) (BSIZE - off mod BSIZE) <= BSIZE) by (unfold Blk.BSIZE in *; dlia).
  assert (R : writei_loop (io_fuel n) ip us src off n 0 s = Ret off (set_dsk d5 s)).
  { assert (E : exists f, io_fuel n = Datatypes.S f) by (unfold io_fuel; exists (Z.to_nat (n / BSIZE + 2)); assert (0 <= n / BSIZE) by (apply Z.div_pos; [lia|done]); lia). destruct E as [f ->].
    cbn [writei_loop]. rewrite (proj2 (Z.ltb_lt 0 n)) by lia. rewrite (bind_Ret _ _ _ _ _ (geti_run s ip xi Hip)), (bind_Ret _ _ _ _ _ R1), (fi_dev _ _ _ HF).
    rewrite (bind_Ret _ _ _ _ _ (disk_run _ (set_dsk d1 s) _ _ R2)). cbv zeta. rewrite (bind_Ret _ _ _ _ _ (disk_run _ (set_dsk d2 s) _ _ R3)), chunk_min by lia.
    rewrite (bind_Ret _ _ _ _ _ (either_copyin_bad (set_dsk d2 s) us src (V b) _ _ Hus Hu Hsrc Hnone (vo_bytes _ _ HV b) Hm)).
    rewrite (bind_Ret _ _ _ _ _ (disk_run _ (set_dsk d2 s) _ _ R4)). change (-1 =? -1) with true. cbv iota.
    rewrite (bind_Ret _ _ _ _ _ (disk_run _ (set_dsk d4 s) _ _ R5)). done. }
  destruct (writei_tail x B Hx (set_dsk d5 s) ip xi n off V D L c) as (d6 & R6 & Hs6); [done|done|apply HF|done|done|by apply Hback|done|].
  assert (Ex : with_size (Z.max (i_size xi) off) xi = xi) by (rewrite Z.max_l by lia; by destruct xi). rewrite Ex in *.
  eexists _, _, d6. split_and!; [|exact Hs6|].
  - unfold writei. rewrite (bind_Ret _ _ _ _ _ (geti_run s ip xi Hip)), !u32_small by lia.
    rewrite (proj2 (Z.ltb_ge (i_size xi) off)), (proj2 (Z.ltb_ge (off + n) off)), (proj2 (Z.ltb_ge (MAXFILE * BSIZE) _)) by lia. cbn [orb].
    rewrite (bind_Ret _ _ _ _ _ R), (bind_Ret _ _ _ _ _ R6). unfold ret. by rewrite s32_small by lia.
  - intros o Ho. apply (cont_low x Hx); [apply HF|apply (inum_block x Hx _ Hi)|done].
Qed.

End spec.

(** ** A volume of twenty blocks

    Block 2 has the inodes, block 3 the bitmap; the file is inode 1, four bytes
    long, in block 4. *)

Definition ex_sb : superblock := mk_sb FSMAGIC 20 16 10 0 0 2 3.
Definition ex_vol : Z -> block := fun n o => if (n =? 3) && (o =? 0) then 31 else if (n =? 4) && (o <? 4) && (0 <=? o) then 97 + o else 0.
Definition ex_addrs : list Z := 4 :: replicate 12 0.
(** The bitmap block. *)
Definition ex_B : gset Z := {[3]}.
Definition ex_inode : inode := mk_inode ROOTDEV 1 1 true 1 T_FILE 3 0 0 1 4 ex_addrs.
Definition ex_stale : inode := mk_inode ROOTDEV 1 1 false 0 0 0 0 0 0 0 [].
Definition ex_fs (u : gmap Z Z) : fs := mk_fs (mk_flat ex_vol ex_vol [] ∅ 10) ex_sb [ex_inode; ex_stale] u (fun _ => 0) 0 0.

Lemma ex_geom : geom (ST := flat_store) ex_sb.
Proof. by split. Qed.

Lemma ex_alloc b : 0 <= b < 20 -> allocated ex_sb ex_vol b = (b <? 5).
Proof.
  intros Hb. assert (A : forallb (fun b => Bool.eqb (allocated ex_sb ex_vol b) (b <? 5)) (seqZ 0 20) = true) by (vm_compute; reflexivity).
  rewrite List.forallb_forall in A. apply Bool.eqb_prop, A, list_elem_of_In, elem_of_seqZ. lia.
Qed.

Lemma ex_vol_ok : vol ex_sb ex_vol.
Proof.
  split.
  - intros n o. unfold ex_vol. destruct (_ && _); [lia|]. destruct (Z.eqb_spec n 4), (Z.ltb_spec o 4), (Z.leb_spec 0 o); cbn [andb]; lia.
  - intros b Hb Ha. change (sb_size ex_sb) with 20 in Hb. rewrite ex_alloc in Ha by done. apply Z.ltb_ge in Ha. change (datastart ex_sb) with 4. lia.
Qed.

Lemma ex_val p : okp p -> val ex_vol ex_addrs p = if decide (p = [0]) then 4 else 0.
Proof.
  assert (H1 : forall t, 0 <= t < 13 -> val ex_vol ex_addrs [t] = if decide ([t] = [0]) then 4 else 0).
  { intros t Ht. assert (A : forallb (fun t => val ex_vol ex_addrs [t] =? if decide ([t] = [0]) then 4 else 0) (seqZ 0 13) = true) by (vm_compute; reflexivity).
    rewrite List.forallb_forall in A. apply Z.eqb_eq, A, list_elem_of_In, elem_of_seqZ. lia. }
  assert (H2 : forall k q, inner q -> val ex_vol ex_addrs q = 0 -> val ex_vol ex_addrs (k :: q) = 0).
  { intros k q Hq E. rewrite val_cons by (by destruct q). by rewrite E. }
  assert (H3 : forall t, t = NDIRECT \/ t = NDIRECT + 1 -> val ex_vol ex_addrs [t] = 0) by (intros t [->| ->]; done).
  intros Hp. destruct p as [|k q]; [done|]. destruct q as [|j q]; [by apply H1|]. apply okp_cons in Hp as [Hq _]; [|done]. rewrite decide_False by done.
  apply H2; [done|]. destruct q as [|t q]; [by apply H3|]. destruct q; [|done]. destruct Hq as [-> _]. apply H2; [by right|]. apply H3. by right.
Qed.

Lemma ex_file : file ex_sb ex_vol ex_inode.
Proof.
  split; [done| |done|].
  - split; [done| |].
    + intros p Hp. rewrite ex_val by done. destruct (decide (p = [0])); [|done]. by intros _.
    + intros p q Hp Hq. rewrite !ex_val by done. by destruct (decide (p = [0])), (decide (q = [0])); subst.
  - intros o Ho. cbn in Ho. assert (E : o / BSIZE = 0) by (unfold Blk.BSIZE; dlia). by rewrite E.
Qed.

Lemma ex_avail : avail ex_sb ex_B ex_vol 4.
Proof.
  exists [5; 6; 7; 8].
  assert (A : forall b, b ∈ [5; 6; 7; 8] <-> 5 <= b <= 8) by (intros b; rewrite !elem_of_cons, elem_of_nil; lia).
  split_and!; [repeat constructor; set_solver|done| |].
  - intros b Hb%A. rewrite ex_alloc by lia. split; [cbn; lia|]. split; [apply Z.ltb_ge; lia|].
    assert (E : BBLOCK b ex_sb = 3) by (unfold BBLOCK, BPB, Blk.BSIZE; cbn [sb_bmapstart ex_sb]; rewrite Z.div_small by lia; done). rewrite E. set_solver.
  - intros b b' Hb%A Hb' Hf Hout. rewrite A in Hout. change (sb_size ex_sb) with 20 in Hb'. rewrite ex_alloc in Hf by done. apply Z.ltb_ge in Hf. lia.
Qed.

Lemma ex_sees : fsees ex_B (mk_flat ex_vol ex_vol [] ∅ 10) ex_vol ex_vol [] ∅ 9.
Proof. exists 10. split; [by split_and!; [|constructor|]|]. vm_compute. done. Qed.

Lemma ex_user (u : gmap Z Z) : bool_decide (map_Forall (fun _ b => 0 <= b < 256) u) = true -> uok u.
Proof. by intros H%bool_decide_eq_true a b Hb%H. Qed.

Lemma ex_first b : first ex_sb ex_vol b -> b = 5.
Proof.
  intros (Hb & Hf & Hall). change (sb_size ex_sb) with 20 in Hb. rewrite ex_alloc in Hf by done. apply Z.ltb_ge in Hf.
  destruct (decide (b = 5)) as [|Hne]; [done|]. specialize (Hall 5 ltac:(lia)). by rewrite ex_alloc in Hall.
Qed.

Lemma balloc_first_free_witness : exists b s', balloc ROOTDEV (ex_fs ∅) = Ret b s' /\ b = 5.
Proof.
  pose proof (balloc_first_free ex_sb ex_B ex_geom (ex_fs ∅) ex_vol ex_vol [] ∅ 9 eq_refl ex_vol_ok
    ltac:(split; [simpl; lia|intros i n []%not_elem_of_nil]) ltac:(lia) ltac:(by intros b ->%ex_first; vm_compute) ex_sees) as T.
  destruct (balloc ROOTDEV (ex_fs ∅)) as [b s'|m| |]; [|destruct T as [_ T]; by specialize (T 5 ltac:(done))|done|done].
  destruct T as (d' & V' & _ & Hf & _). exists b, s'. split; [done|]. by apply ex_first.
Defined.

Lemma writei_updates_witness : exists V' xi' d', writei 0 1 4096 3 2 (ex_fs {[ 4096 := 120; 4097 := 121 ]}) = Ret 2 (put_inode (ex_fs {[ 4096 := 120; 4097 := 121 ]}) 0 xi' d') /\
  i_size xi' = 5 /\ cont V' (i_addrs xi') 2 = 99 /\ cont V' (i_addrs xi') 4 = 121.
Proof.
  destruct (writei_updates ex_sb ex_B ex_geom (ex_fs {[ 4096 := 120; 4097 := 121 ]}) 0 ex_inode ex_vol ex_vol ∅ 9 0 1 4096 3 [120; 121]) as (V' & xi' & L' & d' & R & W & _);
    [done|done|exact ex_file|exact ex_vol_ok|done| |by repeat constructor|done|done|done|done|done|done|done|exact ex_avail|exact ex_sees|].
  { split; [apply ex_user; vm_compute; reflexivity|by intros [|[|]] b [= <-]]. }
  assert (Hs : i_size xi' = 5) by (rewrite (wn_inode _ _ _ _ _ _ _ W); done).
  exists V', xi', d'. split_and!; [exact R|done| |].
  - rewrite (wn_cont _ _ _ _ _ _ _ W) by (rewrite Hs; lia). by rewrite decide_False by (unfold alen; simpl; lia).
  - rewrite (wn_cont _ _ _ _ _ _ _ W) by (rewrite Hs; lia). by rewrite decide_True by (unfold alen; simpl; lia).
Defined.

Lemma readi_delivers_witness : exists u' d', readi 0 1 4096 1 9 (ex_fs {[ 4096 := 0; 4097 := 0; 4098 := 0 ]}) = Ret 3 (put_mem (ex_fs {[ 4096 := 0; 4097 := 0; 4098 := 0 ]}) u' (fun _ => 0) d') /\ u' !! 4097 = Some 99.
Proof.
  set (u := {[ 4096 := 0; 4097 := 0; 4098 := 0 ]} : gmap Z Z).
  destruct (readi_delivers ex_sb ex_geom (ex_fs u) 0 ex_inode ex_vol ex_vol ∅ 10 1 4096 1 9) as (r & k & u' & d' & R & _ & _ & Hr & Hk & Hf & Hv);
    [done|exact ex_file|apply (vo_bytes _ _ ex_vol_ok)|by split_and!; [|constructor|]|vm_compute; lia|apply ex_user; vm_compute; reflexivity|done|lia|lia|lia|lia|lia|].
  change (readable ex_inode 1 9) with 3 in *.
  assert (E : exists v, readi 0 1 4096 1 9 (ex_fs u) = Ret 3 v) by (eexists; vm_compute; reflexivity).
  destruct E as [v E]. rewrite R in E. injection E as -> _. assert (k = 3) as -> by (by apply Hf). exists u', d'. split; [exact R|].
  specialize (Hv 4097 ltac:(lia)). rewrite decide_True in Hv by lia. exact Hv.
Defined.

Lemma write_read_roundtrip_witness : exists s',
  (let* w := writei 0 0 500 2 3 in let* r := readi 0 0 600 2 3 in ret (w, r)) (set_kmem (fun a => if a =? 501 then 65 else 66) (ex_fs ∅)) = Ret (3, 3) s' /\
  Mem.bytes 3 (kmem s') 600 = [66; 65; 66].
Proof.
  destruct (write_read_roundtrip ex_sb ex_B ex_geom (set_kmem (fun a => if a =? 501 then 65 else 66) (ex_fs ∅)) 0 ex_inode ex_vol ex_vol ∅ 9 0 500 2 [66; 65; 66] 600)
    as (s' & R & B & _);
    [done|done|exact ex_file|exact ex_vol_ok|done| |by repeat constructor|done|done|done|done|done|done|done|exact ex_avail|exact ex_sees|done|done|].
  - by intros [|[|[|]]] b [= <-].
  - exists s'. by split.
Defined.

Lemma inode_roundtrip_witness : exists s' y', (iupdate 0 ;;; ilock (Some 1%nat)) (ex_fs ∅) = Ret tt s' /\ icache s' = [ex_inode; y'] /\ i_size y' = 4 /\ i_addrs y' = ex_addrs.
Proof.
  destruct (inode_roundtrip ex_sb ex_B ex_geom (ex_fs ∅) 0 ex_inode 1 ex_stale ex_vol ex_vol ∅ 9) as (s' & R & y' & Hc & Hf & _);
    [done|done|done|done| |done|done|done|exact ex_sees|lia|].
  { split; try done. by repeat constructor. }
  exists s', y'. split; [exact R|]. split; [exact Hc|]. by destruct Hf as (_ & _ & _ & _ & _ & -> & ->).
Defined.

Lemma writei_bad_source_counts_witness : exists V' d', writei 0 1 4096 0 4 (ex_fs ∅) = Ret 4 (put_inode (ex_fs ∅) 0 ex_inode d') /\ cont V' ex_addrs 0 = 97.
Proof.
  destruct (writei_bad_source_counts ex_sb ex_B ex_geom (ex_fs ∅) 0 ex_inode ex_vol ex_vol ∅ 9 1 4096 0 4) as (V' & L' & d' & R & _ & Hc);
    [done|done|exact ex_file|exact ex_vol_ok|done|done|done|done|done|done|done|done|done|exact ex_sees|].
  exists V', d'. split; [exact R|]. specialize (Hc 0 ltac:(done)). cbn [ex_inode i_addrs] in Hc. rewrite Hc. vm_compute. reflexivity.
Defined.

End Fsspec.
