(* ===== verification/Fsdir.v ===== *)
(** Directories: [dirlookup] and [dirlink] of [src/kernel/filesystem/fs.c] on the
    entries that the blocks of a directory hold. *)

From stdpp Require Import functions.
From S2P Require Import Prelude Mem Kstring Umem Blk Store Fs Fsalloc Fsmap Fsread Fswrite Fsspec.
Import Kstring Umem Store Fs Fsalloc Fsmap Fsread Fswrite Fsspec.

Module Fsdir.

(** ** Names *)

(** The string of at most [n] bytes at [a]; there need not be a NUL after it. *)
Fixpoint name_at (n : nat) (m : mem) (a : Z) : list Z :=
  match n with
  | O => []
  | S n => if m a =? 0 then [] else m a :: name_at n m (a + 1)
  end.

Lemma name_at_ext n : forall m m' a a', (forall i, 0 <= i < Z.of_nat n -> m' (a' + i) = m (a + i)) -> name_at n m' a' = name_at n m a.
Proof.
  induction n as [|n IH]; intros m m' a a' H; cbn [name_at]; [done|]. pose proof (H 0 ltac:(lia)) as H0. rewrite !Z.add_0_r in H0. rewrite H0.
  destruct (m a =? 0); [done|]. f_equal. apply IH. intros i Hi. rewrite <- !Z.add_assoc. apply H. lia.
Qed.

Lemma strncmp_name n : forall m p q, strncmp_from n m p q = 0 <-> name_at n m p = name_at n m q.
Proof.
  induction n as [|n IH]; intros m p q; cbn [strncmp_from name_at]; [done|]. destruct (Z.eqb_spec (m p) 0) as [E|E]; cbn [negb andb].
  - rewrite E. destruct (Z.eqb_spec (m q) 0) as [->|Hq]; [done|]. split; [lia|done].
  - destruct (Z.eqb_spec (m p) (m q)) as [Epq|Hpq].
    + rewrite <- Epq, (proj2 (Z.eqb_neq _ _)) by done. rewrite IH. split; [by intros ->|by intros [= ->]].
    + split; [lia|]. destruct (m q =? 0); [done|]. by intros [= ?].
Qed.

(** [strncpy] copies the name and fills with NULs. *)
Lemma strncpy_name n : forall m s t, s + Z.of_nat n <= t \/ t + Z.of_nat n <= s ->
  (forall i, (i < n)%nat -> strncpy_from n m s t (s + Z.of_nat i) = u8 (default 0 (name_at n m t !! i))) /\
  forall a, ~ (s <= a < s + Z.of_nat n) -> strncpy_from n m s t a = m a.
Proof.
  induction n as [|n IH]; intros m s t Hd; cbn [strncpy_from name_at]; [split; [lia|done]|]. cbv zeta. destruct (Z.eqb_spec (m t) 0) as [E|E].
  - split.
    + intros i Hi. rewrite zero_fill_spec. destruct i as [|i]; [|rewrite (proj2 (Z.leb_le _ _)), (proj2 (Z.ltb_lt _ _)) by lia; done].
      rewrite Z.add_0_r, (proj2 (Z.leb_gt _ _)) by lia. cbn [andb]. rewrite upd_eq, E. done.
    + intros a Ha. rewrite zero_fill_spec. assert (Hb : (s + 1 <=? a) && (a <? s + 1 + Z.of_nat n) = false) by (destruct (Z.leb_spec (s + 1) a), (Z.ltb_spec a (s + 1 + Z.of_nat n)); try done; lia).
      rewrite Hb. apply upd_ne. lia.
  - destruct (IH (upd m s (m t)) (s + 1) (t + 1) ltac:(lia)) as [H1 H2].
    assert (En : name_at n (upd m s (m t)) (t + 1) = name_at n m (t + 1)) by (apply name_at_ext; intros i Hi; apply upd_ne; lia). rewrite En in H1. split.
    + intros [|i] Hi; cbn.
      * rewrite Z.add_0_r, H2 by lia. apply upd_eq.
      * replace (s + Z.of_nat (S i)) with (s + 1 + Z.of_nat i) by lia. apply H1. lia.
    + intros a Ha. rewrite H2 by lia. apply upd_ne. lia.
Qed.

(** ** Entries *)

Definition e_inum (V : Z -> block) (ad : list Z) (i : Z) : Z := load16 (cont V ad) (16 * i).
Definition e_name (V : Z -> block) (ad : list Z) (i : Z) : list Z := name_at 14 (cont V ad) (16 * i + 2).
Definition e_is (V : Z -> block) (ad : list Z) (N : list Z) (i : Z) : bool := negb (e_inum V ad i =? 0) && bool_decide (e_name V ad i = N).

(** The first of [k] entries from [i] on that [p] holds of. *)
Fixpoint dfind (p : Z -> bool) (k : nat) (i : Z) : option Z :=
  match k with
  | O => None
  | S k => if p i then Some i else dfind p k (i + 1)
  end.

Lemma dfind_Some p k : forall i j, dfind p k i = Some j <-> i <= j < i + Z.of_nat k /\ p j = true /\ forall m, i <= m < j -> p m = false.
Proof.
  induction k as [|k IH]; intros i j; cbn [dfind]; [split; [done|lia]|]. destruct (p i) eqn:E.
  - split; [intros [= <-]; split_and!; [lia..|done|lia]|]. intros (H1 & H2 & H3). destruct (decide (i = j)) as [->|]; [done|]. by rewrite H3 in E by lia.
  - rewrite IH. split; intros (H1 & H2 & H3).
    + split_and!; [lia..|done|]. intros m Hm. destruct (decide (m = i)) as [->|]; [done|]. apply H3. lia.
    + assert (i <> j) by congruence. split_and!; [lia..|done|]. intros m Hm. apply H3. lia.
Qed.
Lemma dfind_None p k : forall i, dfind p k i = None <-> forall m, i <= m < i + Z.of_nat k -> p m = false.
Proof.
  induction k as [|k IH]; intros i; cbn [dfind]; [split; [lia|done]|]. destruct (p i) eqn:E.
  - split; [done|]. intros H. by rewrite H in E by lia.
  - rewrite IH. split; intros H m Hm; [|apply H; lia]. destruct (decide (m = i)) as [->|]; [done|]. apply H. lia.
Qed.

Section dir.
Context {S : Type} {ST : Store S} {U : Type} {UM : UserMem U}.
Context (x : superblock) (B : gset Z).
Hypothesis Hx : geom x.
Abbreviation fstate := (fs (S := S) (U := U)).

(** A directory: a whole number of entries. *)
Definition entries (xi : inode) : Z := i_size xi / 16.
Record dir (V : Z -> block) (xi : inode) : Prop := {
  di_file : file x V xi; di_type : i_type xi = T_DIR; di_size : i_size xi mod 16 = 0 }.

(** The inode number of a name. *)
Definition dmap (V : Z -> block) (xi : inode) (N : list Z) : option Z :=
  e_inum V (i_addrs xi) <$> dfind (e_is V (i_addrs xi) N) (Z.to_nat (entries xi)) 0.

(** A name apart from the buffer for entries. *)
Definition clear (s : fstate) (nm : Z) : Prop := (nm + 14 <= de s \/ de s + 16 <= nm) /\ 0 <= de s /\ de s + 16 < 2 ^ 64.

(** Only the buffer has changed. *)
Definition scratch (s : fstate) (m' : mem) : Prop := (forall a, ~ (de s <= a < de s + 16) -> m' a = kmem s a) /\ (mem_ok (kmem s) -> mem_ok m').
Lemma scratch_refl s : scratch s (kmem s).
Proof using. by split. Qed.
Lemma scratch_trans s m u d m' : scratch s m -> scratch (put_mem s u m d) m' -> scratch s m'.
Proof using. intros [A1 A2] [B1 B2]. split; [intros a Ha; rewrite (B1 a Ha); by apply A1|auto]. Qed.

Lemma load16_ext m m' a a' : m' a' = m a -> m' (a' + 1) = m (a + 1) -> load16 m' a' = load16 m a.
Proof using. clear Hx. intros H1 H2. unfold load16. cbn. by rewrite H1, H2. Qed.

(** Reading an entry into the buffer. *)
Lemma entry_read (s : fstate) dp xi V D L cap i : icache s !! dp = Some xi -> dir V xi -> (forall n, mem_ok (V n)) -> sees (dsk s) V D [] L cap -> (size L < 28)%nat ->
  0 <= de s -> de s + 16 < 2 ^ 64 -> 0 <= i < entries xi ->
  exists m' d', readi dp 0 (de s) (16 * i) 16 s = Ret 16 (put_mem s (user s) m' d') /\ sees d' V D [] L cap /\
    load16 m' (de s) = e_inum V (i_addrs xi) i /\ name_at 14 m' (de s + 2) = e_name V (i_addrs xi) i /\ scratch s m'.
Proof using Hx.
  intros Hip [HF Hty Hsz] HV Hs HL Hd Hd2 Hi. unfold entries in Hi. pose proof (fi_size _ _ _ HF) as Hfs. assert (HM : MAXFILE * BSIZE < 2 ^ 31) by done.
  assert (Hle : 16 * i + 16 <= i_size xi) by dlia.
  destruct (readi_kern x Hx s dp xi V D L cap (de s) (16 * i) 16 Hip HF HV Hs HL) as (m' & d' & R & Hs' & Hm); [lia..|].
  assert (Er : readable xi (16 * i) 16 = 16) by (unfold readable; rewrite (proj2 (Z.ltb_ge _ _)) by lia; lia). rewrite Er in *.
  exists m', d'. split_and!; [done|done| | |].
  - apply load16_ext; rewrite Hm, decide_True by lia; f_equal; lia.
  - apply name_at_ext. intros j Hj. rewrite Hm, decide_True by lia. f_equal. lia.
  - split; [intros a Ha; by rewrite Hm, decide_False|]. intros Hk a. rewrite Hm. destruct (decide _); [apply cont_byte, HV|apply Hk].
Qed.

Lemma dirlookup_loop_run dp xi V D L cap nm N k : dir V xi -> (forall n, mem_ok (V n)) -> (size L < 28)%nat -> forall fuel (s : fstate) i,
  icache s !! dp = Some xi -> sees (dsk s) V D [] L cap -> clear s nm -> name_at 14 (kmem s) nm = N -> 0 <= i -> entries xi = i + Z.of_nat k -> (k < fuel)%nat ->
  exists m' d', sees d' V D [] L cap /\ scratch s m' /\
    dirlookup_loop fuel dp nm (16 * i) s =
      match dfind (e_is V (i_addrs xi) N) k i with
      | Some j => (let* ip := iget (i_dev xi) (e_inum V (i_addrs xi) j) in ret (Some (ip, 16 * j))) (put_mem s (user s) m' d')
      | None => Ret None (put_mem s (user s) m' d')
      end.
Proof using Hx.
  intros HD HV HL. pose proof (fi_size _ _ _ (di_file _ _ HD)) as Hfs. pose proof (di_size _ _ HD) as Hsz. assert (HM : MAXFILE * BSIZE < 2 ^ 31) by done.
  induction k as [|k IH]; intros [|fuel] s i Hip Hs Hc HN Hi He Hf; try lia; cbn [dirlookup_loop dfind]; rewrite (bind_Ret _ _ _ _ _ (geti_run s dp xi Hip)).
  - exists (kmem s), (dsk s). split_and!; [done|apply scratch_refl|]. rewrite (proj2 (Z.ltb_ge _ _)) by (unfold entries in He; dlia). by destruct s.
  - rewrite (proj2 (Z.ltb_lt _ _)) by (unfold entries in He; dlia). pose proof Hc as (Hc1 & Hc2 & Hc3).
    destruct (entry_read s dp xi V D L cap i) as (m1 & d1 & R1 & Hs1 & En & Em & Ho); [done|done|done|done|done|done|done|lia|].
    assert (Eg : gets de s = Ret (de s) s) by done. rewrite (bind_Ret _ _ _ _ _ Eg), (bind_Ret _ _ _ _ _ R1). cbn [negb Z.eqb Pos.eqb].
    set (s1 := put_mem s (user s) m1 d1). assert (Ei : de_inum s1 = Ret (e_inum V (i_addrs xi) i) s1) by (unfold de_inum, gets, s1; cbn [kmem put_mem de]; by rewrite En).
    rewrite (bind_Ret _ _ _ _ _ Ei). assert (HN1 : name_at 14 m1 nm = N) by (rewrite <- HN; apply name_at_ext; intros j Hj; apply (proj1 Ho); lia).
    assert (Hnext : u32 (16 * i + 16) = 16 * (i + 1)) by (rewrite u32_small; [lia|unfold entries in He; dlia]). rewrite Hnext.
    assert (Hloop : exists m' d', sees d' V D [] L cap /\ scratch s m' /\ dirlookup_loop fuel dp nm (16 * (i + 1)) s1 =
        match dfind (e_is V (i_addrs xi) N) k (i + 1) with
        | Some j => (let* ip := iget (i_dev xi) (e_inum V (i_addrs xi) j) in ret (Some (ip, 16 * j))) (put_mem s (user s) m' d')
        | None => Ret None (put_mem s (user s) m' d') end).
    { destruct (IH fuel s1 (i + 1)) as (m' & d' & Hs' & Ho' & R'); [done|done|done|done|lia|lia|lia|]. exists m', d'. split; [done|]. split; [|exact R'].
      by eapply scratch_trans. }
    unfold e_is at 1. destruct (Z.eqb_spec (e_inum V (i_addrs xi) i) 0) as [Ez|Ez]; cbn [negb andb]; [exact Hloop|].
    assert (Ec : namecmp nm (de s + 2) s1 = Ret (strncmp m1 nm (de s + 2) 14) s1) by done. rewrite (bind_Ret _ _ _ _ _ Ec).
    pose proof (strncmp_name 14 m1 nm (de s + 2)) as Hcmp. rewrite HN1, Em in Hcmp. destruct (bool_decide_reflect (e_name V (i_addrs xi) i = N)) as [E|E].
    + assert (E0 : strncmp m1 nm (de s + 2) 14 = 0) by (by apply Hcmp). rewrite E0. exists m1, d1. split_and!; [done|done|]. done.
    + rewrite (proj2 (Z.eqb_neq (strncmp _ _ _ _) 0)); [exact Hloop|]. intros E0. apply E. symmetry. by apply Hcmp.
Qed.

(** [dirlookup] finds the first entry of that name. *)
Lemma dirlookup_run (s : fstate) dp xi V D L cap nm N : icache s !! dp = Some xi -> dir V xi -> (forall n, mem_ok (V n)) -> sees (dsk s) V D [] L cap -> (size L < 28)%nat ->
  clear s nm -> name_at 14 (kmem s) nm = N ->
  exists m' d', sees d' V D [] L cap /\ scratch s m' /\
    dirlookup dp nm s =
      match dfind (e_is V (i_addrs xi) N) (Z.to_nat (entries xi)) 0 with
      | Some j => (let* ip := iget (i_dev xi) (e_inum V (i_addrs xi) j) in ret (Some (ip, 16 * j))) (put_mem s (user s) m' d')
      | None => Ret None (put_mem s (user s) m' d')
      end.
Proof using Hx.
  intros Hip HD HV Hs HL Hc HN. pose proof (fi_size _ _ _ (di_file _ _ HD)) as Hfs. assert (He : 0 <= entries xi) by (unfold entries; dlia).
  unfold dirlookup. rewrite (bind_Ret _ _ _ _ _ (geti_run s dp xi Hip)), (di_type _ _ HD). cbn [negb Z.eqb].
  apply (dirlookup_loop_run dp xi V D L cap nm N (Z.to_nat (entries xi)) HD HV HL (dir_fuel (i_size xi)) s 0); try done; [lia|]. unfold entries, dir_fuel in *. lia.
Qed.

(** ** Adding an entry *)

Lemma dirlink_slot_run dp xi V D L cap k : dir V xi -> (forall n, mem_ok (V n)) -> (size L < 28)%nat -> forall fuel (s : fstate) i,
  icache s !! dp = Some xi -> sees (dsk s) V D [] L cap -> 0 <= de s -> de s + 16 < 2 ^ 64 -> 0 <= i -> entries xi = i + Z.of_nat k -> (k < fuel)%nat ->
  exists m' d', sees d' V D [] L cap /\ scratch s m' /\
    dirlink_slot fuel dp (16 * i) s = Ret (16 * default (entries xi) (dfind (fun j => e_inum V (i_addrs xi) j =? 0) k i)) (put_mem s (user s) m' d').
Proof using Hx.
  intros HD HV HL. pose proof (fi_size _ _ _ (di_file _ _ HD)) as Hfs. pose proof (di_size _ _ HD) as Hsz.
  induction k as [|k IH]; intros [|fuel] s i Hip Hs Hc2 Hc3 Hi He Hf; try lia; cbn [dirlink_slot dfind]; rewrite (bind_Ret _ _ _ _ _ (geti_run s dp xi Hip)).
  - exists (kmem s), (dsk s). split_and!; [done|apply scratch_refl|]. rewrite (proj2 (Z.ltb_ge _ _)) by (unfold entries in He; dlia). cbn. rewrite He, Z.add_0_r. by destruct s.
  - rewrite (proj2 (Z.ltb_lt _ _)) by (unfold entries in He; dlia).
    destruct (entry_read s dp xi V D L cap i) as (m1 & d1 & R1 & Hs1 & En & Em & Ho); [done|done|done|done|done|done|done|lia|].
    assert (Eg : gets de s = Ret (de s) s) by done. rewrite (bind_Ret _ _ _ _ _ Eg), (bind_Ret _ _ _ _ _ R1). cbn [negb Z.eqb Pos.eqb].
    set (s1 := put_mem s (user s) m1 d1). assert (Ei : de_inum s1 = Ret (e_inum V (i_addrs xi) i) s1) by (unfold de_inum, gets, s1; cbn [kmem put_mem de]; by rewrite En).
    rewrite (bind_Ret _ _ _ _ _ Ei). destruct (e_inum V (i_addrs xi) i =? 0); [by exists m1, d1|]. replace (16 * i + 16) with (16 * (i + 1)) by lia.
    destruct (IH fuel s1 (i + 1)) as (m' & d' & Hs' & Ho' & R'); [done|done|done|done|lia|lia|lia|]. exists m', d'. split; [done|]. split; [|exact R'].
    by eapply scratch_trans.
Qed.

(** A copy of a name, filled with NULs, is that name. *)
Lemma name_pad n : forall m t m' a, (forall i, (i < n)%nat -> m' (a + Z.of_nat i) = default 0 (name_at n m t !! i)) -> name_at n m' a = name_at n m t.
Proof using.
  clear Hx. induction n as [|n IH]; intros m t m' a H; cbn [name_at] in *; [done|]. pose proof (H 0%nat ltac:(lia)) as H0. rewrite Z.add_0_r in H0.
  destruct (Z.eqb_spec (m t) 0) as [E|E]; cbn in H0; rewrite H0; [done|]. rewrite (proj2 (Z.eqb_neq _ _)) by done. f_equal. apply IH.
  intros i Hi. replace (a + 1 + Z.of_nat i) with (a + Z.of_nat (Datatypes.S i)) by lia. exact (H (Datatypes.S i) ltac:(lia)).
Qed.

Lemma dfind_agree p p' k k' i : (k <= k')%nat -> (forall m, i <= m < i + Z.of_nat k -> p' m = p m) -> (forall m, i + Z.of_nat k <= m < i + Z.of_nat k' -> p' m = false) ->
  dfind p' k' i = dfind p k i.
Proof using.
  clear Hx. intros Hk H1 H2. destruct (dfind p k i) as [j|] eqn:E.
  - apply dfind_Some in E as (Hj & Hp & Hm). apply dfind_Some. split_and!; [lia..|by rewrite H1|]. intros m Hm'. rewrite H1 by lia. by apply Hm.
  - apply dfind_None. intros m Hm. rewrite dfind_None in E. destruct (decide (m < i + Z.of_nat k)) as [Hl|Hl]; [rewrite H1 by lia; apply E; lia|apply H2; lia].
Qed.

(** The entry at place [j] has been written: a free one, or a new one at the end. *)
Lemma written_entry V xi j bs V' xi' : dir V xi -> 0 <= j <= entries xi -> alen bs = 16 -> written x V xi (16 * j) bs V' xi' ->
  dir V' xi' /\ entries xi' = Z.max (entries xi) (j + 1) /\ (forall o, 0 <= o < 16 -> cont V' (i_addrs xi') (16 * j + o) = default 0 (bs !! Z.to_nat o)) /\
  forall i, 0 <= i < entries xi -> i <> j -> e_inum V' (i_addrs xi') i = e_inum V (i_addrs xi) i /\ e_name V' (i_addrs xi') i = e_name V (i_addrs xi) i.
Proof using.
  clear Hx. intros [HF Hty Hsz] Hj Hl HW. pose proof (wn_inode _ _ _ _ _ _ _ HW) as E. pose proof (fi_size _ _ _ HF) as Hfs.
  assert (Es : i_size xi' = Z.max (i_size xi) (16 * j + 16)) by (rewrite E, <- Hl; done). unfold entries in *.
  assert (Hout : forall i o, 0 <= i < i_size xi / 16 -> i <> j -> 0 <= o < 16 -> cont V' (i_addrs xi') (16 * i + o) = cont V (i_addrs xi) (16 * i + o)).
  { intros i o Hi Hne Ho. rewrite (wn_cont _ _ _ _ _ _ _ HW) by dlia. by rewrite decide_False by lia. }
  split_and!.
  - split; [apply HW|by rewrite E|]. rewrite Es. destruct (Z.max_spec (i_size xi) (16 * j + 16)) as [[_ ->]|[_ ->]]; [dlia|done].
  - rewrite Es. dlia.
  - intros o Ho. rewrite (wn_cont _ _ _ _ _ _ _ HW) by lia. rewrite decide_True by lia. do 2 f_equal. lia.
  - intros i Hi Hne. split.
    + apply load16_ext; [rewrite <- (Z.add_0_r (16 * i))|]; apply Hout; lia.
    + apply name_at_ext. intros o Ho. rewrite <- !Z.add_assoc. apply Hout; lia.
Qed.

(** The names of the directory afterwards, if the name was not there. *)
Lemma dmap_insert V xi j V' xi' N inum : dir V xi -> 0 <= j <= entries xi -> (j < entries xi -> e_inum V (i_addrs xi) j = 0) -> inum <> 0 ->
  entries xi' = Z.max (entries xi) (j + 1) -> e_inum V' (i_addrs xi') j = inum -> e_name V' (i_addrs xi') j = N ->
  (forall i, 0 <= i < entries xi -> i <> j -> e_inum V' (i_addrs xi') i = e_inum V (i_addrs xi) i /\ e_name V' (i_addrs xi') i = e_name V (i_addrs xi) i) ->
  dmap V xi N = None -> forall M, dmap V' xi' M = if decide (M = N) then Some inum else dmap V xi M.
Proof using.
  clear Hx. intros [HF Hty Hsz] Hj Hfree Hin Ee E1 E2 Hrest HN M. pose proof (fi_size _ _ _ HF) as Hfs. assert (He : 0 <= entries xi) by (unfold entries; dlia).
  assert (Hp : forall K i, 0 <= i < entries xi -> i <> j -> e_is V' (i_addrs xi') K i = e_is V (i_addrs xi) K i)
    by (intros K i Hi Hne; unfold e_is; by destruct (Hrest i Hi Hne) as [-> ->]).
  destruct (decide (M = N)) as [->|Hne].
  - unfold dmap in *. assert (Hf : dfind (e_is V' (i_addrs xi') N) (Z.to_nat (entries xi')) 0 = Some j).
    { apply dfind_Some. split_and!; [lia..| |].
      - unfold e_is. by rewrite E1, E2, (proj2 (Z.eqb_neq _ _)), bool_decide_eq_true_2.
      - intros m Hm. rewrite Hp by lia. destruct (dfind _ _ 0) eqn:Ed in HN; [done|]. rewrite dfind_None in Ed. apply Ed. lia. }
    rewrite Hf. change (Some (e_inum V' (i_addrs xi') j) = Some inum). by rewrite E1.
  - assert (Hj' : e_is V' (i_addrs xi') M j = false) by (unfold e_is; rewrite E2, (bool_decide_eq_false_2 (N = M)) by done; apply andb_false_r).
    assert (Ed : dfind (e_is V' (i_addrs xi') M) (Z.to_nat (entries xi')) 0 = dfind (e_is V (i_addrs xi) M) (Z.to_nat (entries xi)) 0).
    { apply dfind_agree; [lia| |]; intros m Hm; (destruct (decide (m = j)) as [->|Hmj]; [rewrite Hj'|]).
      - unfold e_is. by rewrite Hfree by lia.
      - apply Hp; lia.
      - done.
      - lia. }
    unfold dmap. rewrite Ed. destruct (dfind (e_is V (i_addrs xi) M) _ 0) as [i|] eqn:Ei; [|done].
    change (Some (e_inum V' (i_addrs xi') i) = Some (e_inum V (i_addrs xi) i)). f_equal. apply dfind_Some in Ei as (Hi & Hpi & _).
    apply Hrest; [lia|]. intros ->. unfold e_is in Hpi. by rewrite Hfree in Hpi by lia.
Qed.

(** The buffer that [dirlink] writes: the number and the name. *)
Lemma new_entry (m : mem) d nm inum : mem_ok m -> (nm + 14 <= d \/ d + 16 <= nm) -> 0 < inum < 65536 ->
  let m' := store16 (strncpy m (d + 2) nm DIRSIZ) d inum in
  mem_ok m' /\ load16 m' d = inum /\ name_at 14 m' (d + 2) = name_at 14 m nm /\ forall a, ~ (d <= a < d + 16) -> m' a = m a.
Proof using.
  clear Hx. intros Hm Hd Hi m'. destruct (strncpy_name 14 m (d + 2) nm ltac:(lia)) as [H1 H2]. change (strncpy_from 14 m (d + 2) nm) with (strncpy m (d + 2) nm DIRSIZ) in *.
  assert (Hout : forall a, ~ (d <= a < d + 2) -> m' a = strncpy m (d + 2) nm DIRSIZ a) by (intros a Ha; apply store_out; lia).
  assert (Hb : forall n p i b, name_at n m p !! i = Some b -> 0 <= b < 256).
  { induction n as [|n IH]; intros p i b; cbn [name_at]; [done|]. destruct (m p =? 0); [done|]. destruct i as [|i]; [intros [= <-]; apply Hm|apply IH]. }
  assert (Hdef : forall i, u8 (default 0 (name_at 14 m nm !! i)) = default 0 (name_at 14 m nm !! i)).
  { intros i. apply u8_small. destruct (name_at 14 m nm !! i) eqn:E; [by eapply Hb|cbn; lia]. }
  split_and!.
  - apply store_ok. intros a. destruct (decide (d + 2 <= a < d + 2 + 14)) as [Ha|Ha]; [|rewrite H2 by lia; apply Hm].
    replace a with (d + 2 + Z.of_nat (Z.to_nat (a - (d + 2)))) by lia. rewrite H1 by lia. apply u8_range.
  - unfold load16, m', store16. rewrite load_store_eq. apply Z.mod_small. cbn. lia.
  - apply name_pad. intros i Hi'. rewrite Hout by lia. rewrite H1 by lia. apply Hdef.
  - intros a Ha. rewrite Hout by lia. apply H2. lia.
Qed.

Lemma dirlink_run (s : fstate) dp xi V D L c k nm inum : let N := name_at 14 (kmem s) nm in sb s = x -> icache s !! dp = Some xi -> dir V xi -> vol x V ->
  0 <= i_inum xi < sb_ninodes x -> mem_ok (kmem s) -> clear s nm -> 0 < inum < 65536 -> dmap V xi N = None -> i_size xi + 16 <= MAXFILE * BSIZE -> 5 <= c ->
  avail x B V (4 + k) -> fsees B (dsk s) V D [] L c ->
  exists j bs V' xi' m' L' d', dirlink dp nm inum s = Ret 0 (put_inode (put_mem s (user s) m' d') dp xi' d') /\ written x V xi (16 * j) bs V' xi' /\ dir V' xi' /\
    (forall M, dmap V' xi' M = if decide (M = N) then Some inum else dmap V xi M) /\ fsees B d' V' D [] L' (c - 5) /\ avail x B V' k /\
    scratch s m'.
Proof using Hx.
  intros N Esb Hip HD HV Hi Hm Hc Hin HN Hfit Hcr Hav Hs. pose proof (fi_size _ _ _ (di_file _ _ HD)) as Hfs. assert (HM : MAXFILE * BSIZE < 2 ^ 31) by done.
  assert (He : 0 <= entries xi) by (unfold entries; dlia). pose proof Hc as (Hc1 & Hc2 & Hc3). destruct (fsees_sees _ _ _ _ _ _ _ Hs) as (cap & Hs0 & HL & Hback).
  destruct (dirlookup_run s dp xi V D L cap nm N Hip HD (vo_bytes _ _ HV) Hs0 HL Hc eq_refl) as (m1 & d1 & Hs1 & Ho1 & R1).
  unfold dmap in HN. destruct (dfind _ _ 0) eqn:Ed in HN; [done|]. rewrite Ed in R1. unfold dirlink. rewrite (bind_Ret _ _ _ _ _ R1).
  set (s1 := put_mem s (user s) m1 d1). rewrite (bind_Ret _ _ _ _ _ (geti_run s1 dp xi Hip)).
  destruct (dirlink_slot_run dp xi V D L cap (Z.to_nat (entries xi)) HD (vo_bytes _ _ HV) HL (dir_fuel (i_size xi)) s1 0) as (m2 & d2 & Hs2 & Ho2 & R2);
    [done|done|done|done|lia|lia|unfold entries, dir_fuel in *; lia|].
  rewrite (bind_Ret _ _ _ _ _ R2). set (j := default (entries xi) _) in *. set (s2 := put_mem s1 (user s1) m2 d2).
  assert (Hj : 0 <= j <= entries xi /\ (j < entries xi -> e_inum V (i_addrs xi) j = 0)).
  { unfold j. destruct (dfind (fun j => e_inum V (i_addrs xi) j =? 0) _ 0) as [i|] eqn:Ei; unfold default, from_option, id; [|lia]. apply dfind_Some in Ei as (H1 & H2 & _). split; [lia|]. intros _. by apply Z.eqb_eq. }
  destruct Hj as [Hj Hjf]. assert (Eg : gets de s2 = Ret (de s) s2) by done. rewrite (bind_Ret _ _ _ _ _ Eg).
  assert (Hm2 : scratch s m2) by (eapply scratch_trans; [exact Ho1|exact Ho2]). destruct (new_entry m2 (de s) nm inum) as (Hm3 & En & Em & Ho3); [by apply Hm2|done|done|].
  set (m3 := store16 _ _ _) in *. set (s3 := put_mem s (user s) m3 d2).
  assert (Ea : modify (fun t : fstate => set_kmem (strncpy (kmem t) (de s + 2) nm DIRSIZ) t) s2 = Ret tt (put_mem s (user s) (strncpy m2 (de s + 2) nm DIRSIZ) d2)) by done.
  assert (Eb : modify (fun t : fstate => set_kmem (store16 (kmem t) (de s) inum) t) (put_mem s (user s) (strncpy m2 (de s + 2) nm DIRSIZ) d2) = Ret tt s3) by done.
  rewrite (bind_Ret _ _ _ _ _ Ea), (bind_Ret _ _ _ _ _ Eb).
  set (bs := Mem.bytes 16 m3 (de s)). assert (Hl : alen bs = 16) by (unfold alen, bs; by rewrite length_bytes).
  assert (Hbl : blocks (16 * j) 16 = 1) by (unfold blocks, Blk.BSIZE; cbn [Z.leb Z.compare]; dlia).
  assert (Hj16 : 16 * j <= i_size xi) by (unfold entries in Hj; dlia).
  destruct (writei_run x B Hx s3 dp xi V D L c k 0 (de s) (16 * j) bs) as (V' & xi' & L' & d' & R & HW & Hs' & Hav' & _); try done; try lia.
  - apply HD.
  - intros i b Hb. pose proof (lookup_lt_Some _ _ _ Hb) as Hlt. unfold bs in *. rewrite length_bytes in Hlt. rewrite bytes_lookup in Hb by done. by injection Hb as <-.
  - unfold bs. apply Forall_lookup. intros i b Hb. pose proof (lookup_lt_Some _ _ _ Hb) as Hlt. rewrite length_bytes in Hlt. rewrite bytes_lookup in Hb by done. injection Hb as <-. apply Hm3.
  - rewrite Hl, Hbl. unfold NINDIRECT, Blk.BSIZE. change (1024 / 4) with 256. lia.
  - rewrite Hl, Hbl. lia.
  - rewrite Hl, Hbl. exact Hav.
  - by apply Hback.
  - rewrite Hl, Hbl in *. destruct (written_entry V xi j bs V' xi' HD Hj Hl HW) as (HD' & Ee & Hc' & Hrest).
    assert (Hcm : forall o, 0 <= o < 16 -> cont V' (i_addrs xi') (16 * j + o) = m3 (de s + o)).
    { intros o Ho. rewrite (Hc' o Ho). unfold bs. rewrite bytes_lookup by lia. cbn. f_equal. lia. }
    exists j, bs, V', xi', m3, L', d'. split_and!; try done.
    + rewrite (bind_Ret _ _ _ _ _ R). done.
    + eapply dmap_insert; try done; [lia| | |by unfold dmap; rewrite Ed].
      * rewrite <- En. apply load16_ext; [rewrite <- (Z.add_0_r (16 * j)), <- (Z.add_0_r (de s))|]; apply Hcm; lia.
      * unfold e_name. etransitivity; [|etransitivity; [exact Em|]].
        -- apply name_at_ext. intros o Ho. rewrite <- !Z.add_assoc. apply Hcm. lia.
        -- apply name_at_ext. intros o Ho. apply Hm2. lia.
    + by replace (c - 5) with (c - 1 - 4) by lia.
    + split; [|done]. intros a Ha. rewrite Ho3 by done. by apply Hm2.
Qed.

(** C17: [dirlookup] implements the map from names to inode numbers that the
    blocks of the directory hold: it returns nothing exactly when the name has no
    entry, and else the inode of the first entry of that name, with the entry's
    offset. Names count up to 14 bytes or a NUL. The disk and the log stay as they
    are, and of the kernel's memory only the buffer changes. *)
Theorem dirlookup_finds (s : fstate) dp xi V D L cap nm : icache s !! dp = Some xi -> dir V xi -> (forall n, mem_ok (V n)) -> sees (dsk s) V D [] L cap -> (size L < 28)%nat ->
  clear s nm -> let N := name_at 14 (kmem s) nm in
  exists m' d', sees d' V D [] L cap /\ scratch s m' /\
    match dmap V xi N with
    | None => dirlookup dp nm s = Ret None (put_mem s (user s) m' d') /\ forall i, 0 <= i < entries xi -> e_inum V (i_addrs xi) i = 0 \/ e_name V (i_addrs xi) i <> N
    | Some inum => exists j, 0 <= j < entries xi /\ e_inum V (i_addrs xi) j = inum /\ inum <> 0 /\ e_name V (i_addrs xi) j = N /\
        dirlookup dp nm s = (let* ip := iget (i_dev xi) inum in ret (Some (ip, 16 * j))) (put_mem s (user s) m' d')
    end.
Proof using Hx.
  intros Hip HD HV Hs HL Hc N. destruct (dirlookup_run s dp xi V D L cap nm N Hip HD HV Hs HL Hc eq_refl) as (m' & d' & Hs' & Ho & R).
  exists m', d'. split; [done|]. split; [done|]. unfold dmap. destruct (dfind (e_is V (i_addrs xi) N) _ 0) as [j|] eqn:E; cbn [fmap option_fmap option_map].
  - apply dfind_Some in E as (Hj & Hp & _). unfold e_is in Hp. apply andb_prop in Hp as [P1 P2]. exists j. apply bool_decide_eq_true in P2.
    split_and!; [lia..|done|by destruct (Z.eqb_spec (e_inum V (i_addrs xi) j) 0)|done|done].
  - split; [done|]. intros i Hi. rewrite dfind_None in E. specialize (E i ltac:(lia)). unfold e_is in E. apply andb_false_iff in E as [E|E].
    + left. by destruct (Z.eqb_spec (e_inum V (i_addrs xi) i) 0).
    + right. by apply bool_decide_eq_false in E.
Qed.

(** C16: [dirlink] of a name that is not there returns 0 and adds it to the map of
    the directory, and no other name changes its meaning; it takes the first free
    entry, or a new one at the end. The directory is written as [writei] writes a
    file, so no other file changes; five log entries and four free blocks are
    enough. *)
Theorem dirlink_inserts (s : fstate) dp xi V D L c k nm inum : let N := name_at 14 (kmem s) nm in sb s = x -> icache s !! dp = Some xi -> dir V xi -> vol x V ->
  0 <= i_inum xi < sb_ninodes x -> mem_ok (kmem s) -> clear s nm -> 0 < inum < 65536 -> dmap V xi N = None -> i_size xi + 16 <= MAXFILE * BSIZE -> 5 <= c ->
  avail x B V (4 + k) -> fsees B (dsk s) V D [] L c ->
  exists j bs V' xi' m' L' d', dirlink dp nm inum s = Ret 0 (put_inode (put_mem s (user s) m' d') dp xi' d') /\ written x V xi (16 * j) bs V' xi' /\ dir V' xi' /\
    (forall M, dmap V' xi' M = if decide (M = N) then Some inum else dmap V xi M) /\ fsees B d' V' D [] L' (c - 5) /\ avail x B V' k /\ scratch s m'.
Proof using Hx. apply dirlink_run. Qed.

End dir.

(** ** A directory in the block of the example *)

Definition ex_dir : inode := mk_inode ROOTDEV 1 1 true 1 T_DIR 3 0 0 1 32 ex_addrs.
(** The name [cd] at 100, and [x] at 120. *)
Definition ex_names : mem := fun a => if a =? 100 then 99 else if a =? 101 then 100 else if a =? 120 then 120 else 0.
Definition ex_dfs : fs := mk_fs (mk_flat ex_vol ex_vol [] ∅ 10) ex_sb [ex_dir; mk_inode 0 0 0 false 0 0 0 0 0 0 0 []] (∅ : gmap Z Z) ex_names 200 0.

Lemma ex_dir_ok : dir ex_sb ex_vol ex_dir.
Proof.
  split; [|done|done]. destruct ex_file as [F1 F2 F3 F4]. split; [done|exact F2|done|]. intros o Ho. cbn in Ho.
  assert (E : o / BSIZE = 0) by (unfold Blk.BSIZE; dlia). rewrite E. by apply (F4 0).
Qed.

Lemma dirlookup_finds_witness : exists s', dirlookup 0 100 ex_dfs = Ret (Some (1%nat, 0)) s'.
Proof.
  destruct (dirlookup_finds ex_sb ex_geom ex_dfs 0 ex_dir ex_vol ex_vol ∅ 10 100) as (m' & d' & _ & _ & T);
    [done|exact ex_dir_ok|apply (vo_bytes _ _ ex_vol_ok)|by split_and!; [|constructor|]|vm_compute; lia|by split; [left|]|].
  assert (E : dmap ex_vol ex_dir (name_at 14 (kmem ex_dfs) 100) = Some 25185) by (vm_compute; reflexivity). rewrite E in T.
  destruct T as (j & Hj & Ej & _ & _ & R). assert (j = 0) as ->.
  { change (entries ex_dir) with 2 in Hj. assert (E1 : e_inum ex_vol (i_addrs ex_dir) 1 = 0) by (vm_compute; reflexivity). destruct (decide (j = 1)) as [->|]; [by rewrite E1 in Ej|lia]. }
  rewrite R. eexists. reflexivity.
Defined.

Lemma dirlink_inserts_witness : exists s' V' xi', dirlink 0 120 7 ex_dfs = Ret 0 s' /\ dmap V' xi' [120] = Some 7 /\ dmap V' xi' [99; 100] = Some 25185.
Proof.
  destruct (dirlink_inserts ex_sb ex_B ex_geom ex_dfs 0 ex_dir ex_vol ex_vol ∅ 9 0 120 7) as (j & bs & V' & xi' & m' & L' & d' & R & _ & _ & Hd & _);
    [done|done|exact ex_dir_ok|exact ex_vol_ok|done| |by split; [left|]|lia|vm_compute; reflexivity|done|lia|exact ex_avail|exact ex_sees|].
  { intros a. cbn. unfold ex_names. repeat (destruct (_ =? _); [lia|]). lia. }
  eexists _, V', xi'. split; [exact R|]. rewrite !Hd. split; [by rewrite decide_True by (vm_compute; reflexivity)|]. rewrite decide_False by (vm_compute; congruence). vm_compute. reflexivity.
Defined.

End Fsdir.
