(* ===== verification/Ulib.v ===== *)
(** The C library of user programs, [src/user/program/ulib.c]: the string and
    memory functions over the byte memory of a process, as the loops of the
    source. Scans without a bound have fuel; the lemmas say how much is enough
    for a string. [char] is unsigned on RISC-V. *)

From S2P Require Import Prelude Mem Kstring.

Module Ulib.

Fixpoint strcpy (fuel : nat) (m : mem) (s t : Z) : option mem :=
  match fuel with
  | O => None
  | S fuel =>
      let c := m t in
      let m := upd m s c in
      if c =? 0 then Some m else strcpy fuel m (s + 1) (t + 1)
  end.

Fixpoint strcmp (fuel : nat) (m : mem) (p q : Z) : option Z :=
  match fuel with
  | O => None
  | S fuel => if negb (m p =? 0) && (m p =? m q) then strcmp fuel m (p + 1) (q + 1) else Some (m p - m q)
  end.

Fixpoint strlen_from (fuel : nat) (m : mem) (s n : Z) : option Z :=
  match fuel with
  | O => None
  | S fuel => if m (s + n) =? 0 then Some n else strlen_from fuel m s (n + 1)
  end.
Definition strlen (fuel : nat) (m : mem) (s : Z) : option Z := strlen_from fuel m s 0.

Fixpoint memset_from (n : nat) (m : mem) (cdst i c : Z) : mem :=
  match n with
  | O => m
  | S n => memset_from n (upd m (cdst + i) c) cdst (i + 1) c
  end.
Definition memset (m : mem) (dst c n : Z) : mem := memset_from (Z.to_nat n) m dst 0 c.

(** [strchr]: the null pointer is 0. *)
Fixpoint strchr (fuel : nat) (m : mem) (s c : Z) : option Z :=
  match fuel with
  | O => None
  | S fuel => if m s =? 0 then Some 0 else if m s =? c then Some s else strchr fuel m (s + 1) c
  end.

(** [gets] with [inp] the bytes that standard input still has. The loop makes at
    most [max - 1] rounds. *)
Fixpoint gets_loop (n : nat) (m : mem) (buf i : Z) (inp : list Z) : mem * Z * list Z :=
  match n, inp with
  | O, _ => (m, i, inp)
  | S n, [] => (m, i, inp)
  | S n, c :: inp =>
      let m := upd m (buf + i) c in
      if (c =? 10) || (c =? 13) then (m, i + 1, inp) else gets_loop n m buf (i + 1) inp
  end.
Definition gets (m : mem) (buf max : Z) (inp : list Z) : mem * list Z :=
  match gets_loop (Z.to_nat (max - 1)) m buf 0 inp with (m, i, inp) => (upd m (buf + i) 0, inp) end.

Fixpoint atoi_from (fuel : nat) (m : mem) (s n : Z) : option Z :=
  match fuel with
  | O => None
  | S fuel => if (48 <=? m s) && (m s <=? 57) then atoi_from fuel m (s + 1) (s32 (n * 10 + m s - 48)) else Some n
  end.
Definition atoi (fuel : nat) (m : mem) (s : Z) : option Z := atoi_from fuel m s 0.

Definition memmove (m : mem) (dst src n : Z) : mem :=
  if dst <? src then Kstring.move_up (Z.to_nat n) m dst src
  else Kstring.move_down (Z.to_nat n) m (dst + n) (src + n).

Fixpoint memcmp_from (n : nat) (m : mem) (p1 p2 : Z) : Z :=
  match n with
  | O => 0
  | S n => if negb (m p1 =? m p2) then m p1 - m p2 else memcmp_from n m (p1 + 1) (p2 + 1)
  end.
Definition memcmp (m : mem) (s1 s2 n : Z) : Z := memcmp_from (Z.to_nat n) m s1 s2.

Definition memcpy (m : mem) (dst src n : Z) : mem := memmove m dst src n.

Import Kstring (cstr, cstr_ext).

(** ** Behaviour *)

Lemma umemmove_spec m dst src n x : mem_ok m -> 0 <= n ->
  memmove m dst src n x = if (dst <=? x) && (x <? dst + n) then m (src + (x - dst)) else m x.
Proof.
  intros Hm Hn. unfold memmove. destruct (Z.ltb_spec dst src).
  - rewrite Kstring.move_up_spec, Z2Nat.id by (done || lia). done.
  - rewrite Kstring.move_down_spec, Z2Nat.id by (done || lia). replace (dst + n - n) with dst by lia.
    destruct (_ && _); [f_equal; lia|done].
Qed.

Lemma umemset_from_spec n : forall m cdst i c x,
  memset_from n m cdst i c x = if (cdst + i <=? x) && (x <? cdst + i + Z.of_nat n) then u8 c else m x.
Proof.
  induction n as [|n IH]; intros m cdst i c x; cbn [memset_from].
  - destruct (Z.leb_spec (cdst + i) x), (Z.ltb_spec x (cdst + i + Z.of_nat 0)); simpl; (lia || done).
  - rewrite IH. unfold upd.
    destruct (Z.leb_spec (cdst + (i + 1)) x), (Z.ltb_spec x (cdst + (i + 1) + Z.of_nat n)),
      (Z.leb_spec (cdst + i) x), (Z.ltb_spec x (cdst + i + Z.of_nat (S n))), (Z.eqb_spec x (cdst + i)); simpl; (lia || done).
Qed.

Lemma ustrlen_from_spec l : forall fuel m s n, cstr m (s + n) l -> (length l < fuel)%nat -> strlen_from fuel m s n = Some (n + Z.of_nat (length l)).
Proof.
  induction l as [|b l IH]; intros [|fuel] m s n Hl Hf; cbn [length strlen_from cstr] in *; try lia.
  - rewrite Hl. cbn. f_equal. lia.
  - destruct Hl as (Hb & Hr & Hl). rewrite Hb, (proj2 (Z.eqb_neq b 0)) by lia.
    rewrite (IH fuel m s (n + 1)); [f_equal; lia| |lia]. by rewrite Z.add_assoc.
Qed.

Lemma strcpy_spec l : forall fuel m s t, cstr m t l -> (length l < fuel)%nat -> s + Z.of_nat (length l) < t \/ t + Z.of_nat (length l) < s ->
  exists m', strcpy fuel m s t = Some m' /\ cstr m' s l /\ forall x, ~ (s <= x <= s + Z.of_nat (length l)) -> m' x = m x.
Proof.
  induction l as [|b l IH]; intros [|fuel] m s t Hl Hf Hd; cbn [length strcpy cstr] in *; try lia.
  - rewrite Hl. cbn. eexists. split; [done|]. split; [apply upd_eq|]. intros x Hx. apply upd_ne. lia.
  - destruct Hl as (Hb & Hr & Hl). rewrite Hb, (proj2 (Z.eqb_neq b 0)) by lia.
    destruct (IH fuel (upd m s b) (s + 1) (t + 1)) as (m' & E & Hc & Hx); [|lia|lia|].
    { eapply cstr_ext; [|exact Hl]. intros x Hx. apply upd_ne. lia. }
    exists m'. split; [done|]. split.
    + split; [rewrite Hx by lia; rewrite upd_eq; apply u8_small; lia|by split].
    + intros x Hx'. rewrite Hx by lia. apply upd_ne. lia.
Qed.

Lemma strcmp_spec l1 : forall fuel m p q l2, cstr m p l1 -> cstr m q l2 -> (length l1 < fuel)%nat ->
  exists r, strcmp fuel m p q = Some r /\ (r = 0 <-> l1 = l2).
Proof.
  induction l1 as [|a l1 IH]; intros [|fuel] m p q l2 H1 H2 Hf; cbn [length strcmp cstr] in *; try lia.
  - rewrite H1. cbn. eexists. split; [done|]. destruct l2 as [|b l2]; cbn [cstr] in *; [by rewrite H2|]. destruct H2 as (-> & ? & _). split; [lia|done].
  - destruct H1 as (-> & Ha & H1). rewrite (proj2 (Z.eqb_neq a 0)) by lia. cbn [negb andb]. destruct l2 as [|b l2]; cbn [cstr] in *.
    + rewrite H2, (proj2 (Z.eqb_neq a 0)) by lia. eexists. split; [done|]. split; [lia|done].
    + destruct H2 as (-> & Hb & H2). destruct (Z.eqb_spec a b) as [->|Hne].
      * destruct (IH fuel m (p + 1) (q + 1) l2 H1 H2 ltac:(lia)) as (r & E & Hr). exists r. split; [done|]. rewrite Hr. split; [by intros ->|by intros [=]].
      * eexists. split; [done|]. split; [lia|]. by intros [= ? _].
Qed.

(** The part of a string before the first [c]. *)
Fixpoint before (c : Z) (l : list Z) : option (list Z) :=
  match l with
  | [] => None
  | b :: l => if b =? c then Some [] else cons b <$> before c l
  end.

Lemma strchr_spec l : forall fuel m s c, cstr m s l -> (length l < fuel)%nat ->
  strchr fuel m s c = Some (match before c l with Some k => s + Z.of_nat (length k) | None => 0 end).
Proof.
  induction l as [|b l IH]; intros [|fuel] m s c Hl Hf; cbn [length strchr cstr before] in *; try lia.
  - by rewrite Hl.
  - destruct Hl as (-> & Hr & Hl). rewrite (proj2 (Z.eqb_neq b 0)) by lia. destruct (b =? c); [cbn; f_equal; lia|].
    rewrite (IH fuel m (s + 1) c Hl) by lia. f_equal. destruct (before c l) as [k|]; cbn; [lia|done].
Qed.

(** The line that [gets] takes from the input. *)
Fixpoint line (n : nat) (inp : list Z) : list Z * list Z :=
  match n, inp with
  | O, _ => ([], inp)
  | S n, [] => ([], [])
  | S n, c :: inp => if (c =? 10) || (c =? 13) then ([c], inp) else (c :: (line n inp).1, (line n inp).2)
  end.

Lemma gets_loop_spec n : forall m buf i inp, Forall (fun b => 0 <= b < 256) inp ->
  exists m', gets_loop n m buf i inp = (m', i + Z.of_nat (length (line n inp).1), (line n inp).2) /\
    (forall k b, (line n inp).1 !! k = Some b -> m' (buf + i + Z.of_nat k) = b) /\
    forall x, ~ (buf + i <= x < buf + i + Z.of_nat (length (line n inp).1)) -> m' x = m x.
Proof.
  induction n as [|n IH]; intros m buf i inp Hin; cbn [gets_loop line].
  { exists m. split_and!; [by rewrite Z.add_0_r|done|done]. }
  destruct inp as [|c inp]; [exists m; split_and!; [by rewrite Z.add_0_r|done|done]|]. apply Forall_cons in Hin as [Hc Hin].
  destruct ((c =? 10) || (c =? 13)).
  - eexists. split_and!; [done| |].
    + intros [|k] b [= <-]. cbn. rewrite Z.add_0_r, upd_eq. by apply u8_small.
    + intros x Hx. cbn in Hx. apply upd_ne. lia.
  - destruct (IH (upd m (buf + i) c) buf (i + 1) inp Hin) as (m' & E & H1 & H2). rewrite E. eexists. split_and!.
    + cbn [fst snd length]. f_equal. f_equal. lia.
    + intros [|k] b Hk; cbn in Hk.
      * injection Hk as <-. rewrite H2 by lia. rewrite Z.add_0_r, upd_eq. by apply u8_small.
      * rewrite <- (H1 k b Hk). f_equal. lia.
    + intros x Hx. cbn [fst length] in Hx. rewrite H2 by lia. apply upd_ne. lia.
Qed.

(** Digits in base 10. *)
Definition digit (b : Z) : Prop := 48 <= b <= 57.
Definition number (l : list Z) : Z := foldl (fun n b => n * 10 + (b - 48)) 0 l.

Lemma s32_eqm a b : (a - b) mod 2 ^ 32 = 0 -> s32 a = s32 b.
Proof. intros H. unfold s32. f_equal. apply Z.mod_divide in H as [k Hk]; [|lia]. replace (a + 2 ^ 31) with (b + 2 ^ 31 + k * 2 ^ 32) by lia. by rewrite Z.mod_add. Qed.

Lemma s32_step a c : s32 (s32 a * 10 + c) = s32 (a * 10 + c).
Proof.
  apply s32_eqm. unfold s32. pose proof (Z.div_mod (a + 2 ^ 31) (2 ^ 32) ltac:(lia)).
  replace (((a + 2 ^ 31) mod 2 ^ 32 - 2 ^ 31) * 10 + c - (a * 10 + c)) with ((- ((a + 2 ^ 31) / 2 ^ 32) * 10) * 2 ^ 32) by lia. apply Z.mod_mul. lia.
Qed.

Lemma atoi_from_spec l : forall fuel m s n r, Forall digit l -> (forall k b, l !! k = Some b -> m (s + Z.of_nat k) = b) ->
  ~ digit (m (s + Z.of_nat (length l))) -> (length l < fuel)%nat -> s32 n = s32 r -> (l = [] -> n = s32 r) ->
  atoi_from fuel m s n = Some (s32 (foldl (fun n b => n * 10 + (b - 48)) r l)).
Proof.
  induction l as [|b l IH]; intros [|fuel] m s n r Hd Hm He Hf Hn Hz; cbn [length atoi_from foldl] in *; try lia.
  - rewrite Z.add_0_r in He. unfold digit in He. destruct (Z.leb_spec 48 (m s)), (Z.leb_spec (m s) 57); cbn [andb]; try lia; f_equal; by apply Hz.
  - apply Forall_cons in Hd as [Hb Hd]. pose proof (Hm 0%nat b eq_refl) as E. rewrite Z.add_0_r in E. rewrite E. unfold digit in Hb.
    rewrite !(proj2 (Z.leb_le _ _)) by lia. cbn [andb].
    assert (Es : s32 (n * 10 + b - 48) = s32 (r * 10 + (b - 48))).
    { replace (n * 10 + b - 48) with (n * 10 + (b - 48)) by lia. rewrite <- s32_step, Hn, s32_step. done. }
    apply IH; [done| | |lia| |done].
    + intros k c Hk. specialize (Hm (S k) c Hk). by replace (s + 1 + Z.of_nat k) with (s + Z.of_nat (S k)) by lia.
    + by replace (s + 1 + Z.of_nat (length l)) with (s + Z.of_nat (S (length l))) by lia.
    + rewrite Es. apply s32_small, s32_range.
Qed.

Lemma atoi_spec fuel m s l : Forall digit l -> (forall k b, l !! k = Some b -> m (s + Z.of_nat k) = b) ->
  ~ digit (m (s + Z.of_nat (length l))) -> (length l < fuel)%nat -> atoi fuel m s = Some (s32 (number l)).
Proof. intros Hd Hm He Hf. by apply (atoi_from_spec l fuel m s 0 0). Qed.

End Ulib.
