(* ===== verification/Printf.v ===== *)
(** Formatted output: the kernel's [printf] ([src/kernel/lib/printf.c]) and the
    user library's ([src/user/program/printf.c]).

    The format and the strings lie in a byte memory that printing does not
    change, the scans of a format and of a string with fuel of their own; the
    arguments are the 64-bit values the caller passed; output is a list of bytes, for user programs with the file descriptor. The digits of a
    number go to [char buf[16]] first, and a write past it is a [Fault]. *)

From S2P Require Import Prelude Mem Kstring Ulib.

Import Kstring (cstr).

Module Printf.

(** ** Numbers *)

Section print.
Context {S : Type} (putc : Z -> M S unit) (digits : Z -> Z).

(** [buf[i++] = c] *)
Definition push (buf : list Z) (c : Z) : M S (list Z) := if alen buf <? 16 then ret (buf ++ [c]) else fault.

(** [do buf[i++] = digits[x % base]; while((x /= base) != 0)]: a 32-bit number has
    at most 32 digits. *)
Fixpoint fill (fuel : nat) (x base : Z) (buf : list Z) : M S (list Z) :=
  match fuel with
  | O => nofuel
  | Datatypes.S fuel =>
      let* buf := push buf (digits (x mod base)) in
      if x / base =? 0 then ret buf else fill fuel (x / base) base buf
  end.

Fixpoint put_all (l : list Z) : M S unit := match l with [] => ret tt | c :: l => putc c ;;; put_all l end.

(** [while(--i >= 0) putc(buf[i])] *)
Definition printint (xx base : Z) (sgn : bool) : M S unit :=
  let neg := sgn && (xx <? 0) in
  let x := if neg then u32 (- xx) else u32 xx in
  let* buf := fill 32 x base [] in
  let* buf := (if neg then push buf 45 else ret buf) in
  put_all (rev buf).

(** [for (i = 0; i < 16; i++, x <<= 4) putc(digits[x >> 60])] *)
Fixpoint printptr_loop (n : nat) (x : Z) : M S unit :=
  match n with
  | O => ret tt
  | Datatypes.S n => putc (digits (Z.shiftr x 60)) ;;; printptr_loop n (u64 (Z.shiftl x 4))
  end.
Definition printptr (x : Z) : M S unit := putc 48 ;;; putc 120 ;;; printptr_loop 16 x.

(** [for(; *s; s++) putc( *s)] *)
Fixpoint putstr (fuel : nat) (m : mem) (s : Z) : M S unit :=
  match fuel with
  | O => nofuel
  | Datatypes.S fuel => if m s =? 0 then ret tt else putc (m s) ;;; putstr fuel m (s + 1)
  end.
(** A null pointer prints as ["(null)"]. *)
Definition puts (fuel : nat) (m : mem) (s : Z) : M S unit :=
  if s =? 0 then put_all [40; 110; 117; 108; 108; 41] else putstr fuel m s.

(** [va_arg]: the next argument. *)
Definition va_arg (ap : list Z) : M S (Z * list Z) := match ap with [] => fault | v :: ap => ret (v, ap) end.
End print.

(** ** User programs *)

(** ["0123456789ABCDEF"] *)
Definition udigits (d : Z) : Z := if d <? 10 then 48 + d else 55 + d.
Definition uputc (fd c : Z) : M (list (Z * Z)) unit := modify (fun o => o ++ [(fd, u8 c)]).

(** What a character after ['%'] prints. *)
Definition udirective (sf : nat) (m : mem) (fd c : Z) (ap : list Z) : M (list (Z * Z)) (list Z) :=
  if c =? 100 then let* '(v, ap) := va_arg ap in printint (uputc fd) udigits (s32 v) 10 true ;;; ret ap
  else if c =? 108 then let* '(v, ap) := va_arg ap in printint (uputc fd) udigits (s32 v) 10 false ;;; ret ap
  else if c =? 120 then let* '(v, ap) := va_arg ap in printint (uputc fd) udigits (s32 v) 16 false ;;; ret ap
  else if c =? 112 then let* '(v, ap) := va_arg ap in printptr (uputc fd) udigits (u64 v) ;;; ret ap
  else if c =? 115 then let* '(v, ap) := va_arg ap in puts (uputc fd) sf m v ;;; ret ap
  else if c =? 99 then let* '(v, ap) := va_arg ap in uputc fd v ;;; ret ap
  else if c =? 37 then uputc fd c ;;; ret ap
  else uputc fd 37 ;;; uputc fd c ;;; ret ap.

Fixpoint vprintf_loop (fuel sf : nat) (m : mem) (fd fmt i state : Z) (ap : list Z) : M (list (Z * Z)) unit :=
  match fuel with
  | O => nofuel
  | S fuel =>
      let c := m (fmt + i) in
      if c =? 0 then ret tt
      else if state =? 0 then
        if c =? 37 then vprintf_loop fuel sf m fd fmt (i + 1) 37 ap
        else uputc fd c ;;; vprintf_loop fuel sf m fd fmt (i + 1) state ap
      else if state =? 37 then
        let* ap := udirective sf m fd c ap in
        vprintf_loop fuel sf m fd fmt (i + 1) 0 ap
      else vprintf_loop fuel sf m fd fmt (i + 1) state ap
  end.
Definition vprintf (fuel sf : nat) (m : mem) (fd fmt : Z) (ap : list Z) : M (list (Z * Z)) unit := vprintf_loop fuel sf m fd fmt 0 0 ap.
Definition fprintf (fuel sf : nat) (m : mem) (fd fmt : Z) (ap : list Z) : M (list (Z * Z)) unit := vprintf fuel sf m fd fmt ap.
Definition printf (fuel sf : nat) (m : mem) (fmt : Z) (ap : list Z) : M (list (Z * Z)) unit := vprintf fuel sf m 1 fmt ap.

(** ** The kernel *)

(** ["0123456789abcdef"] *)
Definition kdigits (d : Z) : Z := if d <? 10 then 48 + d else 87 + d.
Definition consputc (c : Z) : M (list Z) unit := modify (fun o => o ++ [u8 c]).

Definition kprintint (xx base : Z) (sign : bool) : M (list Z) unit := printint consputc kdigits xx base sign.
Definition kprintptr (x : Z) : M (list Z) unit := printptr consputc kdigits x.

Definition kdirective (sf : nat) (m : mem) (c : Z) (ap : list Z) : M (list Z) (list Z) :=
  if c =? 100 then let* '(v, ap) := va_arg ap in kprintint (s32 v) 10 true ;;; ret ap
  else if c =? 120 then let* '(v, ap) := va_arg ap in kprintint (s32 v) 16 true ;;; ret ap
  else if c =? 112 then let* '(v, ap) := va_arg ap in kprintptr (u64 v) ;;; ret ap
  else if c =? 115 then let* '(v, ap) := va_arg ap in puts consputc sf m v ;;; ret ap
  else if c =? 37 then consputc 37 ;;; ret ap
  else consputc 37 ;;; consputc c ;;; ret ap.

Fixpoint kprintf_loop (fuel sf : nat) (m : mem) (fmt i : Z) (ap : list Z) : M (list Z) unit :=
  match fuel with
  | O => nofuel
  | S fuel =>
      let c := m (fmt + i) in
      if c =? 0 then ret tt
      else if negb (c =? 37) then consputc c ;;; kprintf_loop fuel sf m fmt (i + 1) ap
      else
        let c := m (fmt + (i + 1)) in
        if c =? 0 then ret tt
        else
          let* ap := kdirective sf m c ap in
          kprintf_loop fuel sf m fmt (i + 1 + 1) ap
  end.
(** The kernel's [printf]; it runs under its lock. *)
Definition kprintf (fuel sf : nat) (m : mem) (fmt : Z) (ap : list Z) : M (list Z) unit :=
  if fmt =? 0 then panic "null fmt" else kprintf_loop fuel sf m fmt 0 ap.

(** ** Digits *)

(** The number with the digits [ds], the lowest first. *)
Definition numeral (base : Z) (ds : list Z) : Z := foldr (fun d n => d + base * n) 0 ds.

Section fill.
Context {S : Type} (digits : Z -> Z) (base : Z).
Hypothesis Hbase : 2 <= base.

(** [fill] appends the digits of [x], without a leading zero. *)
Lemma fill_spec k : forall fuel x buf (s : S), 0 <= x < base ^ Z.of_nat (Datatypes.S k) -> (k < fuel)%nat -> alen buf + Z.of_nat (Datatypes.S k) <= 16 ->
  exists ds, fill digits fuel x base buf s = Ret (buf ++ (digits <$> ds)) s /\ Forall (fun d => 0 <= d < base) ds /\
    numeral base ds = x /\ (1 <= length ds <= Datatypes.S k)%nat /\ (last ds = Some 0 -> ds = [0]).
Proof using Hbase.
  induction k as [|k IH]; intros [|fuel] x buf s Hx Hf Hb; try lia.
  all: cbn [fill]; unfold push; rewrite (proj2 (Z.ltb_lt _ _)) by lia; unfold bind at 1, ret at 1.
  all: pose proof (Z.mod_pos_bound x base ltac:(lia)) as Hm; pose proof (Z.div_mod x base ltac:(lia)) as Hd.
  - change (Z.of_nat 1) with 1 in Hx. rewrite Z.pow_1_r in Hx. rewrite Z.div_small, Z.mod_small in * by lia. exists [x].
    unfold numeral. cbn [foldr length]. split_and!; [done|apply Forall_singleton; lia|lia|lia|lia|by intros [= ->]].
  - destruct (Z.eqb_spec (x / base) 0) as [E|E].
    + exists [x mod base]. unfold numeral. cbn [foldr length]. split_and!; [done|apply Forall_singleton; lia|lia|lia|lia|by intros [= ->]].
    + destruct (IH fuel (x / base) (buf ++ [digits (x mod base)]) s) as (ds & R & Hr & Hn & Hl & Hz); [|lia| |].
      { split; [apply Z.div_pos; lia|]. apply Z.div_lt_upper_bound; [lia|]. rewrite (Nat2Z.inj_succ (Datatypes.S k)), Z.pow_succ_r in Hx by lia. lia. }
      { unfold alen in *. rewrite length_app. simpl. lia. }
      exists (x mod base :: ds). split_and!.
      * rewrite R, <- app_assoc. done.
      * by constructor.
      * unfold numeral in *. cbn [foldr]. rewrite Hn. lia.
      * simpl. lia.
      * simpl. lia.
      * destruct ds as [|d ds]; [simpl in Hl; lia|]. rewrite last_cons_cons. intros H0. specialize (Hz H0). injection Hz as -> ->.
        unfold numeral in Hn. cbn [foldr] in Hn. lia.
Qed.
End fill.

Lemma udigits_digit d : 0 <= d < 10 -> Ulib.digit (udigits d) /\ udigits d - 48 = d.
Proof. intros Hd. unfold udigits, Ulib.digit. rewrite (proj2 (Z.ltb_lt _ _)) by lia. lia. Qed.

Lemma number_rev ds : Forall (fun d => 0 <= d < 10) ds -> Ulib.number (rev (udigits <$> ds)) = numeral 10 ds.
Proof.
  unfold Ulib.number, numeral. induction 1 as [|d ds Hd _ IH]; [done|]. cbn [fmap list_fmap rev foldr]. rewrite foldl_app, IH. cbn [foldl].
  pose proof (proj2 (udigits_digit d Hd)). lia.
Qed.

Lemma put_all_uputc fd l : forall o, Forall (fun c => 0 <= c < 256) l -> put_all (uputc fd) l o = Ret tt (o ++ (pair fd <$> l)).
Proof.
  induction l as [|c l IH]; intros o Hl; cbn [put_all]; [by rewrite app_nil_r|]. apply Forall_cons in Hl as [Hc Hl].
  unfold uputc at 1, bind, modify. rewrite u8_small by done. rewrite IH by done. by rewrite <- app_assoc.
Qed.

(** ** The reference *)

(** The bytes of a text. *)
Definition chars (s : string) : list Z := (fun c => Z.of_N (Ascii.N_of_ascii c)) <$> String.list_ascii_of_string s.

(** The numeral of [n] with the digits [al]: the digit at place [i], which counts
    [base ^ i], is [n / base ^ i mod base]; there are as many places as [n] reaches. *)
Definition place (al : list Z) (base n i : Z) : Z := default 0 (al !! Z.to_nat (n / base ^ i mod base)).
Definition places (base n : Z) : Z := 1 + alen (filter (fun i => base ^ i <= n) (seqZ 1 31)).
Definition text (al : list Z) (base n k : Z) : list Z := place al base n <$> rev (seqZ 0 k).

(** What a directive does with its argument: a number of 32 bits with a sign or without
    one, an address, a string, a character. *)
Inductive conv := Signed (base : Z) | Unsigned (base : Z) | Pointer | Str | Char.
Definition user_conv (c : Z) : option conv :=
  if c =? 100 then Some (Signed 10) else if c =? 108 then Some (Unsigned 10) else if c =? 120 then Some (Unsigned 16)
  else if c =? 112 then Some Pointer else if c =? 115 then Some Str else if c =? 99 then Some Char else None.
Definition kernel_conv (c : Z) : option conv :=
  if c =? 100 then Some (Signed 10) else if c =? 120 then Some (Signed 16)
  else if c =? 112 then Some Pointer else if c =? 115 then Some Str else None.

Section reference.
Context (al : list Z) (convs : Z -> option conv) (str : Z -> option (list Z)).

Definition number (base n : Z) : list Z := text al base n (places base n).
(** The text of argument [v]; [str] has the strings by address. *)
Definition show (c : conv) (v : Z) : option (list Z) :=
  match c with
  | Signed base => Some ((if s32 v <? 0 then chars "-" else []) ++ number base (Z.abs (s32 v)))
  | Unsigned base => Some (number base (u32 v))
  | Pointer => Some (chars "0x" ++ text al 16 (u64 v) 16)
  | Str => if v =? 0 then Some (chars "(null)") else str v
  | Char => Some [u8 v]
  end.

(** What a format prints: [None] when an argument is missing or is no string. A
    percent sign stands for itself when doubled, is dropped at the end of the format,
    and is printed with the character after it when that is no directive. *)
Fixpoint render (l ap : list Z) : option (list Z) :=
  match l with
  | [] => Some []
  | c :: l =>
      if negb (c =? 37) then (c ::.) <$> render l ap
      else
        match l with
        | [] => Some []
        | d :: l =>
            match convs d with
            | Some k =>
                match ap with
                | [] => None
                | v :: ap => o ← show k v; (o ++.) <$> render l ap
                end
            | None => (if d =? 37 then (chars "%" ++.) else ((chars "%" ++ [d]) ++.)) <$> render l ap
            end
        end
  end.
End reference.

(** ** Places *)

Lemma numeral_bound base ds : 2 <= base -> Forall (fun d => 0 <= d < base) ds -> 0 <= numeral base ds < base ^ alen ds.
Proof.
  intros Hb. unfold numeral, alen. induction 1 as [|d ds Hd _ IH]; [done|]. cbn [foldr length]. rewrite Nat2Z.inj_succ, Z.pow_succ_r by lia. nia.
Qed.
Lemma numeral_place base ds : 2 <= base -> Forall (fun d => 0 <= d < base) ds -> forall i d, ds !! i = Some d -> numeral base ds / base ^ Z.of_nat i mod base = d.
Proof.
  intros Hb. induction 1 as [|e ds He Hds IH]; intros i d Hi; [done|]. change (numeral base (e :: ds)) with (e + base * numeral base ds). rewrite (Z.mul_comm base). destruct i as [|i]; cbn in Hi.
  - injection Hi as ->. change (Z.of_nat 0) with 0. rewrite Z.pow_0_r, Z.div_1_r, Z.mod_add by lia. by apply Z.mod_small.
  - rewrite Nat2Z.inj_succ, Z.pow_succ_r, <- Z.div_div by lia. rewrite Z.div_add, (Z.div_small e) by lia. by apply IH.
Qed.
Lemma numeral_high base ds : 2 <= base -> Forall (fun d => 0 <= d < base) ds -> ds <> [] -> last ds <> Some 0 -> base ^ (alen ds - 1) <= numeral base ds.
Proof.
  intros Hb. unfold numeral, alen. induction 1 as [|d ds Hd Hds IH]; intros Hn Hl; [done|]. destruct ds as [|e ds]; [cbn in *; assert (d <> 0) by congruence; lia|].
  rewrite last_cons_cons in Hl. specialize (IH ltac:(done) Hl). cbn [foldr length] in *. replace (Z.of_nat (S (S (length ds))) - 1) with (Z.succ (Z.of_nat (S (length ds)) - 1)) by lia. rewrite Z.pow_succ_r by lia. nia.
Qed.

Lemma filter_all {A} (P : A -> Prop) `{!forall x, Decision (P x)} l : Forall P l -> filter P l = l.
Proof. induction 1 as [|x l Hx _ IH]; [done|]. by rewrite filter_cons_True, IH. Qed.
Lemma filter_none {A} (P : A -> Prop) `{!forall x, Decision (P x)} l : Forall (fun x => ~ P x) l -> filter P l = [].
Proof. induction 1 as [|x l Hx _ IH]; [done|]. by rewrite filter_cons_False. Qed.

Lemma rev_reverse_fmap {A B} (f : A -> B) l : rev (f <$> l) = f <$> rev l.
Proof. symmetry. apply List.map_rev. Qed.

(** A number has as many places as digits, if the first is not zero. *)
Lemma places_numeral base ds : 2 <= base -> Forall (fun d => 0 <= d < base) ds -> (1 <= length ds <= 32)%nat -> (last ds = Some 0 -> ds = [0]) -> places base (numeral base ds) = alen ds.
Proof.
  intros Hb Hd Hl Hz. pose proof (numeral_bound base ds Hb Hd) as Hn. unfold places. assert (alen ds = Z.of_nat (length ds)) as El by done.
  assert (Hle : forall i, 1 <= i -> base ^ i <= numeral base ds <-> i < alen ds).
  { intros i Hi. split; intros H.
    - apply (Z.pow_lt_mono_r_iff base); lia.
    - destruct (decide (last ds = Some 0)) as [E|E]; [exfalso; rewrite (Hz E) in H; unfold alen in H; cbn in H; lia|]. pose proof (numeral_high base ds Hb Hd ltac:(by destruct ds; [cbn in Hl; lia|]) E). pose proof (Z.pow_le_mono_r base i (alen ds - 1)). lia. }
  replace 31 with ((alen ds - 1) + (32 - alen ds)) by lia. rewrite seqZ_app, filter_app by lia. rewrite filter_all, filter_none.
  - unfold alen in *. rewrite length_app, length_seqZ. cbn. lia.
  - apply Forall_seqZ. intros i Hi. rewrite Hle; lia.
  - apply Forall_seqZ. intros i Hi. apply Hle; lia.
Qed.
Lemma text_numeral al base ds : 2 <= base -> Forall (fun d => 0 <= d < base) ds -> text al base (numeral base ds) (alen ds) = rev ((fun d => default 0 (al !! Z.to_nat d)) <$> ds).
Proof.
  intros Hb Hd. unfold text. rewrite <- rev_reverse_fmap. f_equal. apply list_eq. intros i. rewrite !list_lookup_fmap. destruct (ds !! i) as [d|] eqn:E.
  - pose proof (lookup_lt_Some _ _ _ E). rewrite lookup_seqZ_lt by (unfold alen; lia). rewrite Z.add_0_l. cbn [fmap option_fmap option_map]. unfold place. by rewrite (numeral_place base ds Hb Hd i d E).
  - apply lookup_ge_None in E. rewrite lookup_seqZ_ge by (unfold alen; lia). done.
Qed.

Lemma u32_s32 v : u32 (s32 v) = u32 v.
Proof. unfold u32, s32. dlia. Qed.

(** ** What the directives print *)

Section directives.
Context {S : Type} (putc : Z -> M S unit) (digits : Z -> Z) (al : list Z) (out : S -> list Z -> S).
Hypothesis Hput : forall l o, Forall (fun c => 0 <= c < 256) l -> put_all putc l o = Ret tt (out o l).
Hypothesis Hout : forall o l l', out (out o l) l' = out o (l ++ l').
Hypothesis Hal : forall d, 0 <= d < 16 -> digits d = default 0 (al !! Z.to_nat d) /\ 0 <= digits d < 256.

Lemma put_one c o : 0 <= c < 256 -> putc c o = Ret tt (out o [c]).
Proof using Hput.
  intros Hc. pose proof (Hput [c] o ltac:(by constructor)) as R. cbn [put_all] in R. apply bind_Ret_inv in R as ([] & s & R1 & R2). injection R2 as <-. done.
Qed.
Lemma digits_text base ds : 2 <= base <= 16 -> Forall (fun d => 0 <= d < base) ds -> rev (digits <$> ds) = text al base (numeral base ds) (alen ds) /\ Forall (fun c => 0 <= c < 256) (rev (digits <$> ds)).
Proof using Hal.
  intros Hb Hd. rewrite (text_numeral al base ds) by (done || lia). split.
  - f_equal. apply list_fmap_ext. intros i d Hi. rewrite Forall_lookup in Hd. specialize (Hd i d Hi). apply Hal. cbv beta in Hd. lia.
  - apply List.Forall_rev, Forall_fmap. eapply Forall_impl; [exact Hd|]. intros d Hdd. cbv beta in Hdd. apply Hal. lia.
Qed.

(** The digits of an [int] fit the buffer, in base 10 and in base 16. *)
Lemma printint_text xx base sgn o : base = 10 \/ base = 16 -> - 2 ^ 31 <= xx < 2 ^ 31 ->
  printint putc digits xx base sgn o = Ret tt (out o ((if sgn && (xx <? 0) then chars "-" else []) ++ number al base (if sgn && (xx <? 0) then - xx else u32 xx))).
Proof using Hput Hal.
  intros Hb Hx. set (neg := sgn && (xx <? 0)) in *. set (x := if neg then - xx else u32 xx).
  assert (Ex : (if neg then u32 (- xx) else u32 xx) = x).
  { unfold x. destruct neg eqn:E; [|done]. apply u32_small. unfold neg in E. apply andb_true_iff in E as [_ E%Z.ltb_lt]. lia. }
  assert (Hr : 0 <= x < 2 ^ 32) by (rewrite <- Ex; destruct neg; apply u32_range).
  destruct (fill_spec digits base ltac:(lia) 9 32 x [] o) as (ds & R & Hd & Hn & Hl & Hz); [|lia|done|].
  { split; [lia|]. destruct Hb as [-> | ->]; apply Z.lt_trans with (2 ^ 32); (lia || done). }
  destruct (digits_text base ds ltac:(lia) Hd) as [Et Hc]. unfold number. rewrite <- Hn, places_numeral, <- Et by (done || lia).
  unfold printint. fold neg. rewrite Ex, (bind_Ret _ _ _ _ _ R). cbn [app]. destruct neg.
  - unfold push. rewrite (proj2 (Z.ltb_lt _ _)) by (unfold alen; rewrite length_fmap; lia). unfold bind, ret. rewrite rev_app_distr. apply Hput. by constructor.
  - unfold bind, ret. by apply Hput.
Qed.

(** The digit that [printptr] takes from the top of a number that has moved up. *)
Lemma top_digit y k n : 0 <= k -> 1 <= n -> k + n = 16 -> Z.shiftr (u64 (Z.shiftl y (4 * k))) 60 = y / 16 ^ (n - 1) mod 16.
Proof using.
  intros Hk Hn E. rewrite Z.shiftl_mul_pow2, Z.shiftr_div_pow2 by lia. unfold u64. replace (2 ^ (4 * k)) with (16 ^ k) by (by rewrite Z.pow_mul_r by lia).
  replace (2 ^ 64) with (16 ^ n * 16 ^ k) by (rewrite <- Z.pow_add_r by lia; by replace (n + k) with 16 by lia). rewrite Z.mul_mod_distr_r by (apply Z.pow_nonzero; lia).
  replace (2 ^ 60) with (16 ^ k * 16 ^ (n - 1)) by (rewrite <- Z.pow_add_r by lia; by replace (k + (n - 1)) with 15 by lia). rewrite <- Z.div_div, Z.div_mul by (try apply Z.pow_nonzero; try apply Z.pow_pos_nonneg; lia).
  replace (16 ^ n) with (16 ^ (n - 1) * 16) by (rewrite <- (Z.pow_1_r 16) at 2; rewrite <- Z.pow_add_r by lia; f_equal; lia). assert (0 < 16 ^ (n - 1)) by (apply Z.pow_pos_nonneg; lia).
  rewrite Z.rem_mul_r by lia. rewrite Z.add_comm, (Z.mul_comm (16 ^ (n - 1))), Z.div_add_l by lia. rewrite (Z.div_small (y mod _)) by (apply Z.mod_pos_bound; lia). lia.
Qed.
Lemma text_succ a base n k : text a base n (Z.of_nat (Datatypes.S k)) = place a base n (Z.of_nat k) :: text a base n (Z.of_nat k).
Proof using. unfold text. rewrite seqZ_S, rev_app_distr. done. Qed.
Lemma out_nil o : out o [] = o.
Proof using Hput. pose proof (Hput [] o ltac:(done)) as E. cbn in E. by injection E. Qed.
(** The loop of [printptr] shows the [n] lower places of the number. *)
Lemma printptr_loop_text n : forall y o, (n <= 16)%nat -> printptr_loop putc digits n (u64 (Z.shiftl y (4 * (16 - Z.of_nat n)))) o = Ret tt (out o (text al 16 y (Z.of_nat n))).
Proof using Hput Hout Hal.
  induction n as [|n IH]; intros y o Hn; cbn [printptr_loop]; [by rewrite out_nil|]. rewrite (top_digit y _ (Z.of_nat n + 1)) by lia. replace (Z.of_nat n + 1 - 1) with (Z.of_nat n) by lia.
  destruct (Hal (y / 16 ^ Z.of_nat n mod 16)) as [Ed Hd]; [apply Z.mod_pos_bound; lia|]. rewrite (bind_Ret _ _ _ _ _ (put_one _ o Hd)).
  replace (u64 (Z.shiftl (u64 (Z.shiftl y (4 * (16 - Z.of_nat (Datatypes.S n))))) 4)) with (u64 (Z.shiftl y (4 * (16 - Z.of_nat n)))).
  - rewrite IH, Hout, text_succ by lia. unfold place. by rewrite <- Ed.
  - rewrite !Z.shiftl_mul_pow2 by lia. unfold u64. rewrite Z.mul_mod_idemp_l by lia. rewrite <- Z.mul_assoc, <- Z.pow_add_r by lia. do 3 f_equal. lia.
Qed.
Lemma printptr_text v o : printptr putc digits (u64 v) o = Ret tt (out o (chars "0x" ++ text al 16 (u64 v) 16)).
Proof using Hput Hout Hal.
  unfold printptr. rewrite (bind_Ret _ _ _ _ _ (put_one 48 o ltac:(lia))), (bind_Ret _ _ _ _ _ (put_one 120 _ ltac:(lia))), Hout.
  pose proof (printptr_loop_text 16 (u64 v) (out o [48; 120]) ltac:(lia)) as R. change (4 * (16 - Z.of_nat 16)) with 0 in R. rewrite Z.shiftl_0_r, (u64_small (u64 v)) in R by apply u64_range. cbn [app]. by rewrite R, Hout.
Qed.

Lemma putstr_text m l : forall s fuel o, cstr m s l -> (length l < fuel)%nat -> putstr putc fuel m s o = Ret tt (out o l).
Proof using Hput Hout.
  induction l as [|c l IH]; intros s [|fuel] o Hl Hf; cbn [length cstr putstr] in *; try lia; [by rewrite Hl, out_nil|].
  destruct Hl as (Ec & Hc & Hl). rewrite Ec, (proj2 (Z.eqb_neq c 0)) by lia. rewrite (bind_Ret _ _ _ _ _ (put_one c o ltac:(lia))), IH, Hout by (done || lia). done.
Qed.
Lemma puts_text m str sf v t o : (forall a l, str a = Some l -> cstr m a l /\ (length l < sf)%nat) -> show al str Str v = Some t -> puts putc sf m v o = Ret tt (out o t).
Proof using Hput Hout.
  intros Hs Ht. unfold puts. cbn [show] in Ht. destruct (v =? 0); [injection Ht as <-; apply Hput; by repeat constructor|]. apply Hs in Ht as [Hl Hf]. by apply putstr_text.
Qed.
Lemma signed_text base v t o : base = 10 \/ base = 16 -> show al (fun _ => None) (Signed base) v = Some t -> printint putc digits (s32 v) base true o = Ret tt (out o t).
Proof using Hput Hal.
  intros Hb [= <-]. pose proof (s32_range v) as Hv. rewrite printint_text by done. cbn [andb]. do 4 f_equal. destruct (Z.ltb_spec (s32 v) 0); [lia|]. rewrite u32_small; lia.
Qed.
Lemma unsigned_text base v t o : base = 10 \/ base = 16 -> show al (fun _ => None) (Unsigned base) v = Some t -> printint putc digits (s32 v) base false o = Ret tt (out o t).
Proof using Hput Hal.
  intros Hb [= <-]. pose proof (s32_range v) as Hv. rewrite printint_text by done. cbn [andb app]. do 3 f_equal. apply u32_s32.
Qed.
End directives.

Lemma put_all_consputc l : forall o, Forall (fun c => 0 <= c < 256) l -> put_all consputc l o = Ret tt (o ++ l).
Proof.
  induction l as [|c l IH]; intros o Hl; cbn [put_all]; [by rewrite app_nil_r|]. apply Forall_cons in Hl as [Hc Hl].
  unfold consputc at 1, bind, modify. rewrite u8_small by done. rewrite IH by done. by rewrite <- app_assoc.
Qed.

Definition ualphabet : list Z := chars "0123456789ABCDEF".
Definition kalphabet : list Z := chars "0123456789abcdef".
Lemma below16 (P : Z -> Prop) : Forall P (seqZ 0 16) -> forall d, 0 <= d < 16 -> P d.
Proof. intros HP d Hd. rewrite Forall_seqZ in HP. apply HP. lia. Qed.
Lemma ualphabet_digits d : 0 <= d < 16 -> udigits d = default 0 (ualphabet !! Z.to_nat d) /\ 0 <= udigits d < 256.
Proof. revert d. apply below16. by repeat constructor. Qed.
Lemma kalphabet_digits d : 0 <= d < 16 -> kdigits d = default 0 (kalphabet !! Z.to_nat d) /\ 0 <= kdigits d < 256.
Proof. revert d. apply below16. by repeat constructor. Qed.

Definition uout (fd : Z) (o : list (Z * Z)) (l : list Z) : list (Z * Z) := o ++ (pair fd <$> l).
Lemma uout_app fd o l l' : uout fd (uout fd o l) l' = uout fd o (l ++ l').
Proof. unfold uout. by rewrite fmap_app, app_assoc. Qed.
Lemma kout_app (o l l' : list Z) : (o ++ l) ++ l' = o ++ (l ++ l').
Proof. by rewrite app_assoc. Qed.

Section loops.
Context (m : mem) (sf : nat) (str : Z -> option (list Z)).
Hypothesis Hstr : forall a l, str a = Some l -> cstr m a l /\ (length l < sf)%nat.

Lemma udirective_text fd d k v t ap o : user_conv d = Some k -> show ualphabet str k v = Some t -> udirective sf m fd d (v :: ap) o = Ret ap (uout fd o t).
Proof using Hstr.
  intros Hk Ht. pose proof (put_all_uputc fd : forall l o, _ -> _ = Ret tt (uout fd o l)) as Hp. unfold user_conv, udirective in *. cbn [va_arg]. repeat case_match; simplify_eq; rewrite (bind_Ret _ _ o (v, ap) o) by done; erewrite bind_Ret; try done.
  - by eapply signed_text; [exact Hp|exact ualphabet_digits|left|].
  - by eapply unsigned_text; [exact Hp|exact ualphabet_digits|left|].
  - by eapply unsigned_text; [exact Hp|exact ualphabet_digits|right|].
  - injection Ht as <-. eapply printptr_text; [exact Hp|apply uout_app|exact ualphabet_digits].
  - by eapply puts_text; [exact Hp|apply uout_app|exact Hstr|].
  - by injection Ht as <-.
Qed.
Lemma kdirective_text d k v t ap o : kernel_conv d = Some k -> show kalphabet str k v = Some t -> kdirective sf m d (v :: ap) o = Ret ap (o ++ t).
Proof using Hstr.
  intros Hk Ht. pose proof put_all_consputc as Hp. unfold kernel_conv, kdirective, kprintint, kprintptr in *. cbn [va_arg]. repeat case_match; simplify_eq; rewrite (bind_Ret _ _ o (v, ap) o) by done; erewrite bind_Ret; try done.
  - by eapply signed_text; [exact Hp|exact kalphabet_digits|left|].
  - by eapply signed_text; [exact Hp|exact kalphabet_digits|right|].
  - injection Ht as <-. eapply (printptr_text _ _ _ app); [exact Hp|apply kout_app|exact kalphabet_digits].
  - by eapply (puts_text _ _ app); [exact Hp|apply kout_app|exact Hstr|].
Qed.
Lemma udirective_none fd d ap o : 0 < d < 256 -> user_conv d = None -> udirective sf m fd d ap o = Ret ap (uout fd o (if d =? 37 then chars "%" else chars "%" ++ [d])).
Proof using.
  intros Hd Hk. unfold user_conv, udirective, uout in *. repeat case_match; try done; unfold uputc, bind, modify, ret; rewrite !u8_small by lia; [|by rewrite <- app_assoc]. by rewrite (proj1 (Z.eqb_eq d 37)).
Qed.
Lemma kdirective_none d ap o : 0 < d < 256 -> kernel_conv d = None -> kdirective sf m d ap o = Ret ap (o ++ (if d =? 37 then chars "%" else chars "%" ++ [d])).
Proof using.
  intros Hd Hk. unfold kernel_conv, kdirective in *. repeat case_match; try done; unfold consputc, bind, modify, ret; rewrite !u8_small by lia; by rewrite <- app_assoc.
Qed.

(** One directive of the reference *)
Lemma render_directive al convs d l ap t : render al convs str (37 :: d :: l) ap = Some t ->
  (exists k v ap' o t', convs d = Some k /\ ap = v :: ap' /\ show al str k v = Some o /\ render al convs str l ap' = Some t' /\ t = o ++ t') \/
  (convs d = None /\ exists t', render al convs str l ap = Some t' /\ t = (if d =? 37 then chars "%" else chars "%" ++ [d]) ++ t').
Proof using.
  intros Ht. cbn [render Z.eqb Pos.eqb negb] in Ht. destruct (convs d) as [k|]; [left|right].
  - destruct ap as [|v ap]; [done|]. apply bind_Some in Ht as (o & Ho & Ht). apply fmap_Some in Ht as (t' & Ht' & ->). by exists k, v, ap, o, t'.
  - split; [done|]. apply fmap_Some in Ht as (t' & Ht' & ->). exists t'. split; [done|]. by destruct (d =? 37).
Qed.

(** The state machine of [vprintf], with the character that it has put aside. *)
Lemma vprintf_loop_text fd fmt l : forall fuel i ap o t, cstr m (fmt + i) l -> (length l < fuel)%nat ->
  (render ualphabet user_conv str l ap = Some t -> vprintf_loop fuel sf m fd fmt i 0 ap o = Ret tt (uout fd o t)) /\
  (render ualphabet user_conv str (37 :: l) ap = Some t -> vprintf_loop fuel sf m fd fmt i 37 ap o = Ret tt (uout fd o t)).
Proof using Hstr.
  induction l as [|c l IH]; intros [|fuel] i ap o t Hl Hf; cbn [length] in Hf; try lia.
  { cbn [cstr] in Hl. cbn [vprintf_loop]. rewrite Hl. split; intros [= <-]; unfold uout; cbn; by rewrite app_nil_r. }
  cbn [cstr] in Hl. destruct Hl as (Ec & Hc & Hl). rewrite <- Z.add_assoc in Hl. cbn [vprintf_loop]. rewrite Ec, (proj2 (Z.eqb_neq c 0)) by lia. split; intros Ht.
  - cbn [Z.eqb]. destruct (Z.eqb_spec c 37) as [->|Hne]; [by apply (IH fuel (i + 1) ap o t Hl ltac:(lia))|].
    cbn [render] in Ht. rewrite (proj2 (Z.eqb_neq c 37)) in Ht by done. cbn [negb] in Ht. apply fmap_Some in Ht as (t' & Ht' & ->).
    rewrite (bind_Ret _ _ o tt (uout fd o [c])) by (unfold uputc, modify; by rewrite u8_small by lia). rewrite (proj1 (IH fuel (i + 1) ap _ t' Hl ltac:(lia)) Ht'). by rewrite uout_app.
  - change (37 =? 0) with false. change (37 =? 37) with true. cbv iota. apply render_directive in Ht as [(k & v & ap' & o' & t' & Hk & -> & Ho & Ht' & ->)|(Hk & t' & Ht' & ->)].
    + rewrite (bind_Ret _ _ _ _ _ (udirective_text fd c k v o' ap' o Hk Ho)). rewrite (proj1 (IH fuel (i + 1) ap' _ t' Hl ltac:(lia)) Ht'). by rewrite uout_app.
    + rewrite (bind_Ret _ _ _ _ _ (udirective_none fd c ap o ltac:(lia) Hk)). rewrite (proj1 (IH fuel (i + 1) ap _ t' Hl ltac:(lia)) Ht'). by rewrite uout_app.
Qed.
Lemma kprintf_loop_text fmt n : forall l fuel i ap o t, (length l < n)%nat -> cstr m (fmt + i) l -> (length l < fuel)%nat ->
  render kalphabet kernel_conv str l ap = Some t -> kprintf_loop fuel sf m fmt i ap o = Ret tt (o ++ t).
Proof using Hstr.
  induction n as [|n IH]; intros l [|fuel] i ap o t Hn Hl Hf Ht; try lia. cbn [kprintf_loop]. destruct l as [|c l]; cbn [cstr length] in *.
  { rewrite Hl. injection Ht as <-. cbn. by rewrite app_nil_r. }
  destruct Hl as (Ec & Hc & Hl). rewrite <- Z.add_assoc in Hl. rewrite Ec, (proj2 (Z.eqb_neq c 0)) by lia. destruct (Z.eqb_spec c 37) as [->|Hne]; cbn [negb].
  - destruct l as [|d l]; cbn [cstr length] in *; [rewrite Hl; injection Ht as <-; cbn; by rewrite app_nil_r|]. destruct Hl as (Ed & Hd & Hl). rewrite <- Z.add_assoc in Hl.
    rewrite Ed, (proj2 (Z.eqb_neq d 0)) by lia. apply render_directive in Ht as [(k & v & ap' & o' & t' & Hk & -> & Ho & Ht' & ->)|(Hk & t' & Ht' & ->)].
    + rewrite (bind_Ret _ _ _ _ _ (kdirective_text d k v o' ap' o Hk Ho)). rewrite (IH l fuel (i + 1 + 1) ap' _ t') by (done || lia). by rewrite app_assoc.
    + rewrite (bind_Ret _ _ _ _ _ (kdirective_none d ap o ltac:(lia) Hk)). rewrite (IH l fuel (i + 1 + 1) ap _ t') by (done || lia). by rewrite app_assoc.
  - cbn [render] in Ht. rewrite (proj2 (Z.eqb_neq c 37)) in Ht by done. cbn [negb] in Ht. apply fmap_Some in Ht as (t' & Ht' & ->).
    rewrite (bind_Ret _ _ o tt (o ++ [c])) by (unfold consputc, modify; by rewrite u8_small by lia). rewrite (IH l fuel (i + 1) ap _ t') by (done || lia). by rewrite <- app_assoc.
Qed.
End loops.

(** C39: the user library's [vprintf] and the kernel's [printf] print a format and its
    arguments as the reference says: [%d], [%l] and [%x] (in the kernel with a sign) as
    numerals whose places are the digits of the number, without leading zeros and with a
    minus sign, [%p] as [0x] and all sixteen places, [%s] as the string or [(null)], [%c]
    as the character (user programs only), and the rest of the format as it is. Fuel for
    the length of the format and of the strings is enough. [%l] takes 64 bits and prints
    the lower 32. *)
Theorem printf_reference m str sf fd fmt l fuel ap : cstr m fmt l -> fmt <> 0 -> (length l < fuel)%nat -> (forall a t, str a = Some t -> cstr m a t /\ (length t < sf)%nat) ->
  (forall t o, render ualphabet user_conv str l ap = Some t -> vprintf fuel sf m fd fmt ap o = Ret tt (o ++ (pair fd <$> t))) /\
  (forall t o, render kalphabet kernel_conv str l ap = Some t -> kprintf fuel sf m fmt ap o = Ret tt (o ++ t)).
Proof.
  intros Hl Hz Hf Hs. rewrite <- (Z.add_0_r fmt) in Hl. split; intros t o Ht.
  - by apply (vprintf_loop_text m sf str Hs fd fmt l).
  - unfold kprintf. rewrite (proj2 (Z.eqb_neq fmt 0)) by done. by apply (kprintf_loop_text m sf str Hs fmt (S (length l)) l); [lia|..].
Qed.

(** The digits of an [int] fit the buffer, in base 10 and in base 16. *)
Lemma printint_run fd xx base sgn o : base = 10 \/ base = 16 -> - 2 ^ 31 <= xx < 2 ^ 31 ->
  let x := if sgn && (xx <? 0) then - xx else u32 xx in
  exists ds, printint (uputc fd) udigits xx base sgn o =
      Ret tt (o ++ (pair fd <$> ((if sgn && (xx <? 0) then [45] else []) ++ rev (udigits <$> ds)))) /\
    Forall (fun d => 0 <= d < base) ds /\ numeral base ds = x /\ (1 <= length ds <= 10)%nat /\ (last ds = Some 0 -> ds = [0]).
Proof.
  intros Hb Hx x. set (neg := sgn && (xx <? 0)) in *.
  assert (Ex : (if neg then u32 (- xx) else u32 xx) = x).
  { unfold x. destruct neg eqn:E; [|done]. apply u32_small. unfold neg in E. apply andb_true_iff in E as [_ E%Z.ltb_lt]. lia. }
  assert (Hr : 0 <= x < 2 ^ 32) by (rewrite <- Ex; destruct neg; apply u32_range).
  destruct (fill_spec udigits base ltac:(lia) 9 32 x [] o) as (ds & R & Hd & Hn & Hl & Hz); [|lia|done|].
  { split; [lia|]. destruct Hb as [-> | ->]; [apply Z.lt_trans with (2 ^ 32); [lia|done]|apply Z.lt_trans with (2 ^ 32); [lia|done]]. }
  exists ds. split; [|by split_and!; try lia]. unfold printint. fold neg. rewrite Ex. rewrite (bind_Ret _ _ _ _ _ R). cbn [app].
  assert (Hc : Forall (fun c => 0 <= c < 256) (rev (udigits <$> ds))).
  { apply List.Forall_rev, Forall_fmap. eapply Forall_impl; [exact Hd|]. intros d Hdd. unfold compose, udigits. cbv beta in *. clear -Hdd Hb. destruct (Z.ltb_spec d 10); lia. }
  destruct neg.
  - unfold push. rewrite (proj2 (Z.ltb_lt _ _)) by (unfold alen; rewrite length_fmap; lia). unfold bind, ret.
    rewrite rev_app_distr. rewrite put_all_uputc by (by constructor). done.
  - unfold bind, ret. by rewrite put_all_uputc.
Qed.

(** [%d] of any [int] prints a sign and a decimal numeral without leading
    zeros, never overruns [buf], and [atoi] of what was printed after the sign
    gives the number back. *)
Theorem printint_roundtrip fd xx o : - 2 ^ 31 <= xx < 2 ^ 31 ->
  exists l, printint (uputc fd) udigits xx 10 true o = Ret tt (o ++ (pair fd <$> ((if xx <? 0 then [45] else []) ++ l))) /\
    Forall Ulib.digit l /\ Ulib.number l = Z.abs xx /\ (1 <= length l <= 10)%nat /\ (head l = Some 48 -> l = [48]) /\
    forall m s fuel, Mem.bytes (length l) m s = l -> ~ Ulib.digit (m (s + Z.of_nat (length l))) -> (length l < fuel)%nat ->
      Ulib.atoi fuel m s = Some (s32 (Z.abs xx)).
Proof.
  intros Hx. destruct (printint_run fd xx 10 true o ltac:(by left) Hx) as (ds & R & Hd & Hn & Hl & Hz). cbn [andb] in *.
  set (l := rev (udigits <$> ds)) in *.
  assert (Hdl : Forall Ulib.digit l).
  { apply List.Forall_rev, Forall_fmap. eapply Forall_impl; [exact Hd|]. intros d Hdd. by apply udigits_digit. }
  assert (Hnum : Ulib.number l = Z.abs xx).
  { unfold l. rewrite number_rev, Hn by done. destruct (Z.ltb_spec xx 0); [lia|]. rewrite u32_small by lia. lia. }
  assert (Hlen : length l = length ds) by (unfold l; by rewrite length_rev, length_fmap).
  exists l. split_and!; try done; try lia.
  - unfold l. intros Hh. assert (El : last (udigits <$> ds) = Some 48) by (by rewrite <- head_reverse; unfold reverse; rewrite <- rev_alt).
    rewrite fmap_last in El. destruct (last ds) as [d|] eqn:E; [|done]. cbn in El. injection El as El.
    assert (d = 0) as ->. { apply last_elem in E. rewrite Forall_forall in Hd. specialize (Hd d E). pose proof (proj2 (udigits_digit d Hd)). lia. }
    by rewrite (Hz eq_refl).
  - intros m s fuel Hm He Hf. rewrite <- Hnum. apply Ulib.atoi_spec; [done| |done|done]. intros k b Hk. rewrite <- Hm in Hk.
    pose proof (lookup_lt_Some _ _ _ Hk) as Hkl. rewrite length_bytes in Hkl. rewrite bytes_lookup in Hk by done. by injection Hk.
Qed.

Lemma printf_reference_witness : let m := put_bytes (put_bytes (fun _ => 0) 100 (chars "a%d %x %s%%%")) 200 (chars "ok") in
  vprintf 20 9 m 1 100 [-17; 255; 200] [] = Ret tt (pair 1 <$> chars "a-17 FF ok%") /\ kprintf 20 9 m 100 [-17; -255; 200] [] = Ret tt (chars "a-17 -ff ok%").
Proof.
  intros m. destruct (printf_reference m (fun a => if a =? 200 then Some (chars "ok") else None) 9 1 100 (chars "a%d %x %s%%%") 20 [-17; 255; 200]) as [H _]; [by repeat split|done|cbn; lia|intros a t; destruct (Z.eqb_spec a 200) as [->|]; intros [= <-]; split; [by repeat split|cbn; lia]|].
  destruct (printf_reference m (fun a => if a =? 200 then Some (chars "ok") else None) 9 1 100 (chars "a%d %x %s%%%") 20 [-17; -255; 200]) as [_ H']; [by repeat split|done|cbn; lia|intros a t; destruct (Z.eqb_spec a 200) as [->|]; intros [= <-]; split; [by repeat split|cbn; lia]|].
  split; [apply (H (chars "a-17 FF ok%") [])|apply (H' (chars "a-17 -ff ok%") [])]; vm_compute; reflexivity.
Defined.

Lemma printint_roundtrip_witness : exists l, printint (uputc 1) udigits (-42) 10 true [] = Ret tt (pair 1 <$> (45 :: l)) /\ Ulib.number l = 42.
Proof. destruct (printint_roundtrip 1 (-42) [] ltac:(lia)) as (l & R & _ & Hn & _). by exists l. Defined.

(** [%l] takes a 64-bit argument and prints its low 32 bits: the numbers [v]
    and [v + 2 ^ 32] print alike. *)
Theorem printf_l_truncates sf m fd v ap o : udirective sf m fd 108 (v :: ap) o = udirective sf m fd 108 (v + 2 ^ 32 :: ap) o.
Proof. unfold udirective. cbn. do 2 f_equal. unfold s32. replace (v + 2 ^ 32 + 2 ^ 31) with (v + 2 ^ 31 + 1 * 2 ^ 32) by lia. by rewrite Z.mod_add. Qed.

End Printf.
