(* ===== verification/Grep.v ===== *)
(** [src/user/program/grep.c]: the regular expression matcher, and the loop that
    prints the lines it matches.

    The matcher recurses on the pattern and on the text; its fuel bounds the
    depth, and the length of both is enough. It is compared with the meaning of
    a pattern as a list of items. *)

From S2P Require Import Prelude Mem Kstring Ulib.
Import Kstring (cstr, cstr_ext).

Module Grep.

(** ** The matcher *)

(** The loop of [matchstar], which calls [matchhere]. *)
Fixpoint matchstar (fuel : nat) (matchhere : Z -> Z -> option bool) (m : mem) (c re text : Z) : option bool :=
  match fuel with
  | O => None
  | S fuel =>
      match matchhere re text with
      | Some false => if negb (m text =? 0) && ((m text =? c) || (c =? 46)) then matchstar fuel matchhere m c re (text + 1) else Some false
      | r => r
      end
  end.

Fixpoint matchhere (fuel : nat) (m : mem) (re text : Z) : option bool :=
  match fuel with
  | O => None
  | S fuel =>
      if m re =? 0 then Some true
      else if m (re + 1) =? 42 then matchstar fuel (matchhere fuel m) m (m re) (re + 2) text
      else if (m re =? 36) && (m (re + 1) =? 0) then Some (m text =? 0)
      else if negb (m text =? 0) && ((m re =? 46) || (m re =? m text)) then matchhere fuel m (re + 1) (text + 1)
      else Some false
  end.

(** The loop of [match] with its own fuel; [hf] is the matcher's. *)
Fixpoint match_loop (fuel hf : nat) (m : mem) (re text : Z) : option bool :=
  match fuel with
  | O => None
  | S fuel =>
      match matchhere hf m re text with
      | Some false => if m text =? 0 then Some false else match_loop fuel hf m re (text + 1)
      | r => r
      end
  end.
Definition match_ (fuel hf : nat) (m : mem) (re text : Z) : option bool :=
  if m re =? 94 then matchhere hf m (re + 1) text else match_loop fuel hf m re text.

(** ** Lines *)

Section grep.
(** [buf] of 1024 bytes, and [read]: how many of the bytes [inp] that are left it
    gives to a caller who asks for [n]. *)
Context (buf : Z) (read : list Z -> Z -> Z).

Record st := mk_st { ram : mem; inp : list Z; out : list Z }.

(** [while ((q = strchr(p, '\n')) != 0)]: gives [p]. *)
Fixpoint grep_lines (fuel hf : nat) (pattern p : Z) : M st Z :=
  match fuel with
  | O => nofuel
  | S fuel =>
      let* m := gets ram in
      let* q := deref (Ulib.strchr hf m p 10) in
      if q =? 0 then ret p
      else
        let m := upd m q 0 in
        let* r := deref (match_ hf hf m pattern p) in
        (if r then
           let m := upd m q 10 in
           modify (fun s => mk_st m (inp s) (out s ++ Mem.bytes (Z.to_nat (q + 1 - p)) m p))
         else modify (fun s => mk_st m (inp s) (out s))) ;;;
        grep_lines fuel hf pattern (q + 1)
  end.

Fixpoint grep_loop (fuel hf : nat) (pattern m : Z) : M st unit :=
  match fuel with
  | O => nofuel
  | S fuel =>
      let* i := gets inp in
      let n := read i (1024 - m - 1) in
      if 0 <? n then
        modify (fun s => mk_st (put_bytes (ram s) (buf + m) (take (Z.to_nat n) i)) (drop (Z.to_nat n) i) (out s)) ;;;
        let m := m + n in
        modify (fun s => mk_st (upd (ram s) (buf + m) 0) (inp s) (out s)) ;;;
        let* p := grep_lines hf hf pattern buf in
        (if 0 <? m then
           let m := m - (p - buf) in
           modify (fun s => mk_st (Ulib.memmove (ram s) buf p m) (inp s) (out s)) ;;;
           grep_loop fuel hf pattern m
         else grep_loop fuel hf pattern m)
      else ret tt
  end.
Definition grep (fuel hf : nat) (pattern : Z) : M st unit := grep_loop fuel hf pattern 0.
End grep.

(** ** What a pattern means *)

Inductive item := One (c : Z) | Star (c : Z) | End.

Fixpoint items (l : list Z) : list item :=
  match l with
  | [] => []
  | c :: r =>
      match r with
      | d :: r' => if d =? 42 then Star c :: items r' else One c :: items r
      | [] => if c =? 36 then [End] else [One c]
      end
  end.

Definition one (c a : Z) : bool := (c =? 46) || (c =? a).

(** The items match a beginning of the text. *)
Fixpoint here (its : list item) (t : list Z) : Prop :=
  match its with
  | [] => True
  | One c :: its => exists a t', t = a :: t' /\ one c a = true /\ here its t'
  | Star c :: its => exists u v, t = u ++ v /\ Forall (fun a => one c a = true) u /\ here its v
  | End :: its => t = []
  end.

(** The pattern matches somewhere in the text, at its beginning after [^]. *)
Definition matches (re t : list Z) : Prop :=
  match re with
  | c :: re' => if c =? 94 then here (items re') t else exists u v, t = u ++ v /\ here (items re) v
  | [] => True
  end.

Fixpoint starb (c : Z) (f : list Z -> bool) (t : list Z) : bool :=
  f t || match t with [] => false | a :: t => one c a && starb c f t end.
Fixpoint hereb (its : list item) : list Z -> bool :=
  match its with
  | [] => fun _ => true
  | One c :: its => fun t => match t with [] => false | a :: t => one c a && hereb its t end
  | Star c :: its => starb c (hereb its)
  | End :: its => fun t => match t with [] => true | _ => false end
  end.
Fixpoint anyb (f : list Z -> bool) (t : list Z) : bool := f t || match t with [] => false | _ :: t => anyb f t end.
Definition matchesb (re t : list Z) : bool :=
  match re with
  | c :: re' => if c =? 94 then hereb (items re') t else anyb (hereb (items re)) t
  | [] => true
  end.

Lemma starb_spec c f t : starb c f t = true <-> exists u v, t = u ++ v /\ Forall (fun a => one c a = true) u /\ f v = true.
Proof.
  induction t as [|a t IH]; cbn [starb].
  - rewrite orb_false_r. split; [intros Hf; by exists [], []|]. intros (u & v & E & _ & Hf). symmetry in E. apply app_nil in E as [-> ->]. done.
  - rewrite orb_true_iff, andb_true_iff, IH. split.
    + intros [Hf|(Ha & u & v & -> & Hu & Hv)]; [by exists [], (a :: t)|]. exists (a :: u), v. split_and!; [done|by constructor|done].
    + intros (u & v & E & Hu & Hv). destruct u as [|b u]; cbn in E; [subst v; by left|]. injection E as -> ->. apply Forall_cons in Hu as [Hb Hu].
      right. split; [done|]. by exists u, v.
Qed.

Lemma hereb_spec its : forall t, hereb its t = true <-> here its t.
Proof.
  induction its as [|[c|c|] its IH]; intros t; cbn [hereb here].
  - done.
  - destruct t as [|a t]; [split; [done|by intros (? & ? & ? & _)]|]. rewrite andb_true_iff, IH. split.
    + intros [Ha Ht]. by exists a, t.
    + by intros (? & ? & [= <- <-] & Ha & Ht).
  - rewrite starb_spec. split; intros (u & v & E & Hu & Hv); exists u, v; (split_and!; [done|done|]); by apply IH.
  - by destruct t.
Qed.

Lemma anyb_spec f t : anyb f t = true <-> exists u v, t = u ++ v /\ f v = true.
Proof.
  induction t as [|a t IH]; cbn [anyb].
  - rewrite orb_false_r. split; [intros Hf; by exists [], []|]. intros (u & v & E & Hf). symmetry in E. by apply app_nil in E as [-> ->].
  - rewrite orb_true_iff, IH. split.
    + intros [Hf|(u & v & -> & Hv)]; [by exists [], (a :: t)|by exists (a :: u), v].
    + intros (u & v & E & Hv). destruct u as [|b u]; cbn in E; [subst v; by left|]. injection E as -> ->. right. by exists u, v.
Qed.

Lemma matchesb_spec re t : matchesb re t = true <-> matches re t.
Proof.
  unfold matchesb, matches. destruct re as [|c re]; [done|]. destruct (c =? 94); [apply hereb_spec|]. rewrite anyb_spec.
  split; intros (u & v & E & Hv); exists u, v; (split; [done|]); by apply hereb_spec.
Qed.

#[export] Instance matches_dec re t : Decision (matches re t).
Proof. destruct (matchesb re t) eqn:E; [left; by apply matchesb_spec|right; intros H%matchesb_spec; congruence]. Defined.

(** ** The matcher is right *)

Lemma one_swap c a : one c a = (a =? c) || (c =? 46).
Proof. unfold one. rewrite orb_comm, (Z.eqb_sym a c). done. Qed.

Lemma matchstar_spec m c re l : cstr m re l -> forall here t text fuel, cstr m text t ->
  (forall text' t', cstr m text' t' -> (length t' <= length t)%nat -> here re text' = Some (hereb (items l) t')) -> (length t < fuel)%nat ->
  matchstar fuel here m c re text = Some (starb c (hereb (items l)) t).
Proof.
  intros Hl here t. induction t as [|a t IH]; intros text fuel Ht Hh Hf; (destruct fuel as [|fuel]; [lia|]); cbn [matchstar]; rewrite (Hh text _ Ht) by lia; cbn [cstr length starb] in *.
  - destruct (hereb (items l) []); [done|]. by rewrite Ht.
  - destruct Ht as (-> & Ha & Ht). destruct (hereb (items l) (a :: t)); cbn [orb]; [done|]. rewrite (proj2 (Z.eqb_neq a 0)) by lia. cbn [negb andb].
    rewrite <- one_swap. destruct (one c a); cbn [andb]; [|done]. apply IH; [done|intros; apply Hh; [done|lia]|lia].
Qed.

Lemma matcher_spec m : forall fuel re text l t, cstr m re l -> cstr m text t -> (length l + length t < fuel)%nat -> matchhere fuel m re text = Some (hereb (items l) t).
Proof.
  induction fuel as [|fuel IHh]; [lia|].
  intros re text l t Hl Ht Hf. cbn [matchhere]. destruct l as [|c l]; cbn [cstr length] in *; [by rewrite Hl|].
  destruct Hl as (Ec & Hc & Hl). rewrite Ec, (proj2 (Z.eqb_neq c 0)) by lia. destruct l as [|d l]; cbn [cstr length] in *.
  + rewrite Hl. cbn [Z.eqb andb items]. rewrite andb_true_r. destruct (Z.eqb_spec c 36) as [->|Hne].
    * destruct t as [|a t]; cbn [cstr] in Ht; [by rewrite Ht|]. destruct Ht as (-> & Ha & _). by rewrite (proj2 (Z.eqb_neq a 0)) by lia.
    * destruct t as [|a t]; cbn [cstr length] in *; [by rewrite Ht|]. destruct Ht as (-> & Ha & Ht). rewrite (proj2 (Z.eqb_neq a 0)) by lia.
      cbn [negb andb hereb]. fold (one c a). destruct (one c a); cbn [andb]; [|done]. apply (IHh _ _ [] t); [done|done|simpl; lia].
  + destruct Hl as (Ed & Hd & Hl). rewrite Ed. cbn [items]. destruct (Z.eqb_spec d 42) as [->|Hne].
    * replace (re + 1 + 1) with (re + 2) in Hl by lia. apply (matchstar_spec m c (re + 2) l Hl (matchhere fuel m) t text fuel Ht); [|lia]. intros text' t' Ht' Hle. apply IHh; [done|done|lia].
    * rewrite (proj2 (Z.eqb_neq d 0)), andb_false_r by lia.
      destruct t as [|a t]; cbn [cstr length] in *; [by rewrite Ht|]. destruct Ht as (-> & Ha & Ht). rewrite (proj2 (Z.eqb_neq a 0)) by lia.
      cbn [negb andb hereb]. fold (one c a). destruct (one c a); cbn [andb]; [|done]. apply (IHh _ _ (d :: l) t); [done|done|simpl; lia].
Qed.

Lemma match_loop_spec m re l hf : cstr m re l -> forall fuel text t, cstr m text t -> (length l + length t < hf)%nat -> (length t < fuel)%nat ->
  match_loop fuel hf m re text = Some (anyb (hereb (items l)) t).
Proof.
  intros Hl. induction fuel as [|fuel IH]; intros text t Ht Hh Hf; [lia|]. cbn [match_loop].
  rewrite (matcher_spec m hf re text l t Hl Ht Hh). destruct t as [|a t]; cbn [cstr length anyb] in *.
  - destruct (hereb (items l) []); [done|]. by rewrite Ht.
  - destruct Ht as (-> & Ha & Ht). destruct (hereb (items l) (a :: t)); cbn [orb]; [done|]. rewrite (proj2 (Z.eqb_neq a 0)) by lia. apply IH; [done|lia|lia].
Qed.

Lemma match_spec m re text l t fuel hf : cstr m re l -> cstr m text t -> (length l + length t < hf)%nat -> (length t < fuel)%nat ->
  match_ fuel hf m re text = Some (matchesb l t).
Proof.
  intros Hl Ht Hh Hf. unfold match_, matchesb. destruct l as [|c l].
  - cbn [cstr] in Hl. rewrite Hl. cbn [Z.eqb]. rewrite (match_loop_spec m re [] hf Hl fuel text t Ht Hh Hf). destruct t; done.
  - pose proof Hl as (Ec & Hc & Hl'). rewrite Ec. destruct (c =? 94).
    + apply (matcher_spec m hf (re + 1) text l t Hl' Ht). simpl in Hh. lia.
    + by apply match_loop_spec.
Qed.

(** ** The lines that are printed *)

(** The complete lines of a text, and what follows the last newline. *)
Fixpoint lines (l : list Z) : list (list Z) * list Z :=
  match l with
  | [] => ([], [])
  | c :: l =>
      if c =? 10 then ([] :: (lines l).1, (lines l).2)
      else match (lines l).1 with [] => ([], c :: (lines l).2) | k :: ls => ((c :: k) :: ls, (lines l).2) end
  end.

Definition emit (re : list Z) (ls : list (list Z)) : list Z := mjoin ((fun k => if matchesb re k then k ++ [10] else []) <$> ls).

Lemma lines_before l : match Ulib.before 10 l with
  | Some k => exists l', l = k ++ 10 :: l' /\ lines l = (k :: (lines l').1, (lines l').2)
  | None => lines l = ([], l)
  end.
Proof.
  induction l as [|c l IH]; [done|]. cbn [Ulib.before lines]. destruct (Z.eqb_spec c 10) as [->|Hne]; [by exists l|].
  destruct (Ulib.before 10 l) as [k|]; cbn.
  - destruct IH as (l' & -> & E). exists l'. split; [done|]. by rewrite E.
  - by rewrite IH.
Qed.

Lemma lines_app a b : lines (a ++ b) = ((lines a).1 ++ (lines ((lines a).2 ++ b)).1, (lines ((lines a).2 ++ b)).2).
Proof.
  induction a as [|c a IH]; [cbn [lines fst snd app]; by destruct (lines b)|]. cbn [app lines]. rewrite IH. destruct (c =? 10) eqn:E; [done|].
  destruct (lines a) as [[|k ls] r]; cbn [fst snd app]; [|done]. cbn [lines]. rewrite E. by destruct (lines (r ++ b)) as [[|] ?].
Qed.

Lemma lines_rest a : lines (lines a).2 = ([], (lines a).2).
Proof.
  induction a as [|c a IH]; [done|]. cbn [lines]. destruct (c =? 10) eqn:E; [done|]. destruct (lines a) as [[|k ls] r]; cbn [fst snd] in *; [|done].
  cbn [lines]. by rewrite E, IH.
Qed.

Lemma lines_length a : (length (lines a).2 <= length a)%nat.
Proof. induction a as [|c a IH]; [done|]. cbn [lines]. destruct (c =? 10); [simpl; lia|]. destruct (lines a) as [[|k ls] r]; simpl in *; lia. Qed.

Lemma lines_elem a b : b ∈ (lines a).2 -> b ∈ a.
Proof.
  induction a as [|c a IH]; [done|]. cbn [lines]. destruct (c =? 10); [intros H%IH; by right|]. destruct (lines a) as [[|k ls] r]; cbn [fst snd] in *.
  - intros [->|H%IH]%elem_of_cons; [by left|by right].
  - intros H%IH. by right.
Qed.

(** The lines that [grep] gets to: it stops at a line that does not fit its buffer with
    the newline, and at a line with a NUL byte. *)
Definition fits (k : list Z) : bool := bool_decide (length k < 1023)%nat && bool_decide (0 ∉ k).
Fixpoint reached (ls : list (list Z)) : list (list Z) :=
  match ls with
  | [] => []
  | k :: ls => if fits k then k :: reached ls else []
  end.

Lemma reached_app ls ls' : Forall (fun k => fits k = true) ls -> reached (ls ++ ls') = ls ++ reached ls'.
Proof. induction 1 as [|k ls Hk _ IH]; [done|]. cbn [app reached]. by rewrite Hk, IH. Qed.
(** A start without a newline that already fills the buffer or has a NUL byte *)
Lemma reached_stop u c : 10 ∉ u -> 0 ∈ u \/ (1023 <= length u)%nat -> reached (lines (u ++ c)).1 = [].
Proof.
  intros Hu Hs. pose proof (lines_before (u ++ c)) as Hl. destruct (Ulib.before 10 (u ++ c)) as [k|]; [|by rewrite Hl]. destruct Hl as (l' & E & ->). cbn [fst reached].
  assert (exists k', k = u ++ k') as [k' ->].
  { destruct (app_eq_inv _ _ _ _ E) as [(w & E1 & E2)|(w & E1 & _)]; [|by exists w]. destruct w as [|x w]; [exists []; by rewrite app_nil_r in *|]. injection E2 as <- _. exfalso. apply Hu. rewrite E1. set_solver. }
  unfold fits. destruct Hs as [Hs|Hs]; [rewrite (bool_decide_eq_false_2 (0 ∉ _)) by set_solver; by rewrite andb_false_r|]. rewrite bool_decide_eq_false_2; [done|]. rewrite length_app. lia.
Qed.
Lemma lines_nonl u : lines u = ([], u) <-> 10 ∉ u.
Proof.
  induction u as [|c u IH]; [cbn; split; [set_solver|done]|]. cbn [lines]. destruct (Z.eqb_spec c 10) as [->|Hne]; [split; [done|set_solver]|].
  rewrite not_elem_of_cons, <- IH. destruct (lines u) as [[|k ls] q]; cbn [fst snd]; split.
  - intros [= ->]. by split.
  - by intros [_ [= ->]].
  - done.
  - by intros [_ ?].
Qed.
(** A line inside a full buffer fits. *)
Lemma lines_fit a : (length a <= 1023)%nat -> 0 ∉ a -> Forall (fun k => fits k = true) (lines a).1.
Proof.
  induction a as [a IH] using (induction_ltof1 _ (@length Z)). unfold ltof in IH. intros Ha H0. pose proof (lines_before a) as Hl. destruct (Ulib.before 10 a) as [k|]; [|by rewrite Hl]. destruct Hl as (l' & -> & ->).
  rewrite length_app in *. cbn [length] in *. constructor; [|apply IH; [lia|lia|set_solver]]. unfold fits. by rewrite !bool_decide_eq_true_2 by (set_solver || lia).
Qed.
(** A text up to its first NUL byte *)
Definition cut (l : list Z) : Prop := l = [] \/ exists l', l = 0 :: l'.
Lemma split_nul l : exists a b, l = a ++ b /\ (0 ∉ a) /\ cut b.
Proof.
  induction l as [|c l (a & b & -> & Ha & Hb)]; [exists [], []; split_and!; [done|set_solver|by left]|]. destruct (decide (c = 0)) as [->|Hc].
  - exists [], (0 :: a ++ b). split_and!; [done|set_solver|right; by eexists].
  - exists (c :: a), b. split_and!; [done|set_solver|done].
Qed.

(** ** [grep] *)

Lemma cstr_app m a l1 l2 : cstr m a (l1 ++ l2) -> cstr m (a + Z.of_nat (length l1)) l2.
Proof.
  revert a. induction l1 as [|b l1 IH]; intros a; cbn [app cstr length]; [by rewrite Z.add_0_r|]. intros (_ & _ & H%IH).
  by replace (a + Z.of_nat (S (length l1))) with (a + 1 + Z.of_nat (length l1)) by lia.
Qed.
Lemma cstr_prefix m m' a l1 l2 : cstr m a (l1 ++ l2) -> (forall x, a <= x < a + Z.of_nat (length l1) -> m' x = m x) -> m' (a + Z.of_nat (length l1)) = 0 -> cstr m' a l1.
Proof.
  revert a. induction l1 as [|b l1 IH]; intros a; cbn [app cstr length]; [by rewrite Z.add_0_r|]. intros (Hb & Hr & H) Hm H0.
  split; [rewrite Hm by lia; done|]. split; [done|]. apply (IH _ H); [intros x Hx; apply Hm; lia|]. by replace (a + 1 + Z.of_nat (length l1)) with (a + Z.of_nat (S (length l1))) by lia.
Qed.
Lemma cstr_bytes m a l : cstr m a l -> Mem.bytes (length l) m a = l.
Proof. revert a. induction l as [|b l IH]; intros a; cbn [cstr length Mem.bytes]; [done|]. intros (-> & _ & H). by rewrite IH. Qed.
Lemma bytes_cstr m a l : Mem.bytes (length l) m a = l -> m (a + Z.of_nat (length l)) = 0 -> Forall (fun b => 0 < b < 256) l -> cstr m a l.
Proof.
  revert a. induction l as [|b l IH]; intros a; cbn [cstr length Mem.bytes]; [by rewrite Z.add_0_r|]. intros [= Hb Hl] H0 Hp. apply Forall_cons in Hp as [Hp1 Hp].
  split; [done|]. split; [done|]. apply IH; [done| |done]. by replace (a + 1 + Z.of_nat (length l)) with (a + Z.of_nat (S (length l))) by lia.
Qed.
Lemma cstr_ok m a l : cstr m a l -> Forall (fun b => 0 < b < 256) l.
Proof. revert a. induction l as [|b l IH]; intros a; cbn [cstr]; [by constructor|]. intros (_ & Hb & H). constructor; [done|by eapply IH]. Qed.

(** The bytes at [a] in a longer piece of memory *)
Lemma bytes_split m a l1 l2 : Mem.bytes (length (l1 ++ l2)) m a = l1 ++ l2 -> Mem.bytes (length l1) m a = l1 /\ Mem.bytes (length l2) m (a + Z.of_nat (length l1)) = l2.
Proof.
  revert a. induction l1 as [|b l1 IH]; intros a H; cbn [app length Mem.bytes] in *; [by rewrite Z.add_0_r|]. injection H as Hb H. destruct (IH _ H) as [H1 H2]. split; [by rewrite Hb, H1|]. by replace (a + Z.of_nat (S (length l1))) with (a + 1 + Z.of_nat (length l1)) by lia.
Qed.
Lemma bytes_join m a l1 l2 : Mem.bytes (length l1) m a = l1 -> Mem.bytes (length l2) m (a + Z.of_nat (length l1)) = l2 -> Mem.bytes (length (l1 ++ l2)) m a = l1 ++ l2.
Proof.
  revert a. induction l1 as [|b l1 IH]; intros a H1 H2; cbn [app length Mem.bytes] in *; [by rewrite Z.add_0_r in H2|]. injection H1 as Hb H1. rewrite Hb. f_equal. apply IH; [done|]. by replace (a + 1 + Z.of_nat (length l1)) with (a + Z.of_nat (S (length l1))) by lia.
Qed.
Lemma bytes_move m a p l : mem_ok m -> Mem.bytes (length l) m p = l -> Mem.bytes (length l) (Ulib.memmove m a p (Z.of_nat (length l))) a = l.
Proof.
  intros Hm Hl. apply list_eq. intros j. destruct (decide (j < length l)%nat) as [Hj|Hj]; [|by rewrite !lookup_ge_None_2 by (rewrite ?length_bytes; lia)].
  rewrite bytes_lookup by done. rewrite Ulib.umemmove_spec, (proj2 (Z.leb_le _ _)), (proj2 (Z.ltb_lt _ _)) by (done || lia). cbn [andb].
  transitivity (Mem.bytes (length l) m p !! j); [|by rewrite Hl]. rewrite bytes_lookup by done. do 2 f_equal. lia.
Qed.

Section loop.
Context (buf : Z) (read : list Z -> Z -> Z) (pattern : Z) (re : list Z) (hf : nat).
Hypothesis Hbuf : 0 < buf.
Hypothesis Happart : pattern + Z.of_nat (length re) < buf \/ buf + 1024 <= pattern.
Hypothesis Hhf : (1024 + length re < hf)%nat.

(** Memory between the lines is only changed inside the buffer. *)
Lemma grep_lines_spec l : forall fuel p s, (length l < fuel)%nat -> mem_ok (ram s) -> buf <= p -> p + Z.of_nat (length l) < buf + 1024 ->
  cstr (ram s) p l -> cstr (ram s) pattern re ->
  exists m', grep_lines fuel hf pattern p s = Ret (p + Z.of_nat (length l) - Z.of_nat (length (lines l).2)) (mk_st m' (inp s) (out s ++ emit re (lines l).1)) /\
    mem_ok m' /\ cstr m' pattern re /\ cstr m' (p + Z.of_nat (length l) - Z.of_nat (length (lines l).2)) (lines l).2 /\ forall x, p + Z.of_nat (length l) <= x -> m' x = ram s x.
Proof using Hbuf Happart Hhf.
  induction l as [l IH] using (induction_ltof1 _ (@length Z)). unfold ltof in IH. intros [|fuel] p s Hf Hm Hp Hend Hl Hpat; [lia|]. cbn [grep_lines].
  unfold bind at 1, Prelude.gets at 1. rewrite (Ulib.strchr_spec l hf (ram s) p 10 Hl) by lia. unfold bind at 1, deref at 1, ret at 1.
  pose proof (lines_before l) as Hln. destruct (Ulib.before 10 l) as [k|].
  - destruct Hln as (l' & -> & E). rewrite E. rewrite length_app in *. cbn [length fst snd] in *. set (q := p + Z.of_nat (length k)).
    rewrite (proj2 (Z.eqb_neq q 0)) by lia. cbv zeta.
    assert (Hout : forall v x, ~ (buf <= x < buf + 1024) -> upd (ram s) q v x = ram s x) by (intros v x Hx; apply upd_ne; lia).
    assert (Hpat' : forall v, cstr (upd (ram s) q v) pattern re) by (intros v; eapply cstr_ext; [|exact Hpat]; intros x Hx; apply Hout; lia).
    assert (Hk : cstr (upd (ram s) q 0) p k) by (eapply cstr_prefix; [exact Hl|intros x Hx; apply upd_ne; lia|apply upd_eq]).
    rewrite (match_spec _ _ _ re k hf hf (Hpat' 0) Hk) by lia. unfold bind at 1, deref at 1, ret at 1.
    assert (Hl' : forall m, (forall x, q < x -> m x = ram s x) -> cstr m (q + 1) l').
    { intros m Hmm. pose proof (cstr_app _ _ _ _ Hl) as (_ & _ & Hc). eapply cstr_ext; [|exact Hc]. intros x Hx. apply Hmm. lia. }
    set (m2 := if matchesb re k then upd (upd (ram s) q 0) q 10 else upd (ram s) q 0).
    assert (Hm2x : forall x, q < x -> m2 x = ram s x) by (intros x Hx; unfold m2; destruct (matchesb re k); by rewrite !upd_ne by lia).
    assert (Hm2 : mem_ok m2 /\ cstr m2 pattern re /\ cstr m2 (q + 1) l').
    { unfold m2. destruct (matchesb re k); (split_and!; [auto with kernel| |]).
      - eapply cstr_ext; [|exact Hpat]. intros x Hx. rewrite !upd_ne by lia. done.
      - apply Hl'. intros x Hx. by rewrite !upd_ne by lia.
      - apply Hpat'.
      - apply Hl'. intros x Hx. by rewrite upd_ne by lia. }
    destruct Hm2 as (Hm2 & Hp2 & Hc2).
    assert (Hrun : forall o, exists m', grep_lines fuel hf pattern (q + 1) (mk_st m2 (inp s) o) =
        Ret (q + 1 + Z.of_nat (length l') - Z.of_nat (length (lines l').2)) (mk_st m' (inp s) (o ++ emit re (lines l').1)) /\
        mem_ok m' /\ cstr m' pattern re /\ cstr m' (q + 1 + Z.of_nat (length l') - Z.of_nat (length (lines l').2)) (lines l').2 /\ forall x, p + Z.of_nat (length k + S (length l')) <= x -> m' x = ram s x).
    { intros o. destruct (IH l' ltac:(lia) fuel (q + 1) (mk_st m2 (inp s) o)) as (m' & R & H1 & H2 & H3 & H4); [lia|done|lia|lia|done|done|]. exists m'. split_and!; try done. intros x Hx. rewrite H4 by lia. apply Hm2x. lia. }
    replace (p + Z.of_nat (length k + S (length l')) - Z.of_nat (length (lines l').2)) with (q + 1 + Z.of_nat (length l') - Z.of_nat (length (lines l').2)) by lia.
    unfold emit. cbn [fmap list_fmap mjoin list_join]. fold (emit re (lines l').1). unfold m2 in Hrun. unfold bind at 1, modify. destruct (matchesb re k).
    + destruct (Hrun (out s ++ k ++ [10])) as (m' & R & Rest). exists m'. split; [|exact Rest].
      assert (Eb : Mem.bytes (Z.to_nat (q + 1 - p)) (upd (upd (ram s) q 0) q 10) p = k ++ [10]).
      { replace (Z.to_nat (q + 1 - p)) with (length (k ++ [10])) by (rewrite length_app; simpl; lia). apply list_eq. intros j.
        destruct (decide (j < length (k ++ [10%Z]))%nat) as [Hj|Hj]; [|by rewrite !lookup_ge_None_2 by (rewrite ?length_bytes; lia)].
        rewrite bytes_lookup by done. rewrite length_app in Hj. simpl in Hj. destruct (decide (j = length k)) as [->|Hne].
        - fold q. rewrite upd_eq, lookup_app_r, Nat.sub_diag by lia. done.
        - rewrite !upd_ne by lia. rewrite lookup_app_l by lia. rewrite <- (cstr_bytes _ _ _ Hk) at 1.
          rewrite bytes_lookup by lia. rewrite upd_ne by lia. done. }
      rewrite Eb. cbn [inp out ram]. rewrite R. by rewrite <- app_assoc.
    + destruct (Hrun (out s)) as (m' & R & Rest). exists m'. split; [|exact Rest]. cbn [inp out ram]. by rewrite R.
  - rewrite Hln. cbn [fst snd]. cbn [Z.eqb]. exists (ram s). replace (p + Z.of_nat (length l) - Z.of_nat (length l)) with p by lia.
    split_and!; [|done|done|done|done]. unfold emit. cbn. rewrite app_nil_r. by destruct s.
Qed.

(** [read] gives at least a byte as long as there is one and room for it. *)
Hypothesis Hread : forall i n, 0 < n -> i <> [] -> 1 <= read i n <= Z.min n (alen i).
Hypothesis Hend : forall i n, n <= 0 \/ i = [] -> read i n <= 0.

(** What [read] and the NUL byte after it leave in the buffer *)
Lemma fill_buffer m pend ck : mem_ok m -> Mem.bytes (length pend) m buf = pend -> (length pend + length ck <= 1023)%nat -> Forall (fun b => 0 <= b < 256) ck ->
  let w := pend ++ ck in let m1 := upd (put_bytes m (buf + alen pend) ck) (buf + (alen pend + alen ck)) 0 in
  mem_ok m1 /\ Mem.bytes (length w) m1 buf = w /\ m1 (buf + alen w) = 0 /\ forall x, ~ (buf <= x < buf + 1024) -> m1 x = m x.
Proof using Hbuf Hhf.
  intros Hm Hb Hlen Hck w m1. unfold alen in *. subst w m1. split_and!.
  - apply upd_ok. clear - Hm. generalize (buf + Z.of_nat (length pend)). revert m Hm. induction ck as [|c ck IHc]; intros m Hm a; [done|]. cbn [put_bytes]. by apply IHc, upd_ok.
  - apply list_eq. intros j. destruct (decide (j < length (pend ++ ck))%nat) as [Hj|Hj]; [|by rewrite !lookup_ge_None_2 by (rewrite ?length_bytes; lia)].
    rewrite bytes_lookup by done. rewrite length_app in Hj. rewrite upd_ne by lia. destruct (decide (j < length pend)%nat) as [Hjp|Hjp].
    + rewrite put_bytes_out by lia. rewrite lookup_app_l by done. transitivity (Mem.bytes (length pend) m buf !! j); [by rewrite bytes_lookup|by rewrite Hb].
    + rewrite lookup_app_r by lia. destruct (lookup_lt_is_Some_2 ck (j - length pend)) as [b Hbj]; [lia|]. rewrite Hbj.
      replace (buf + Z.of_nat j) with (buf + Z.of_nat (length pend) + Z.of_nat (j - length pend)) by lia. rewrite (put_bytes_in _ _ _ _ _ Hbj). f_equal. apply u8_small. by apply (proj1 (Forall_lookup _ _) Hck _ _ Hbj).
  - rewrite length_app, Nat2Z.inj_add. apply upd_eq.
  - intros x Hx. rewrite upd_ne by lia. apply put_bytes_out. lia.
Qed.

(** One round after [read]: the lines in the buffer up to a NUL byte are done, and the
    rest moves to the start of the buffer. *)
Lemma grep_round m1 i o a b : mem_ok m1 -> Mem.bytes (length (a ++ b)) m1 buf = a ++ b -> m1 (buf + alen (a ++ b)) = 0 -> (length (a ++ b) <= 1023)%nat -> Forall (fun c => 0 <= c < 256) (a ++ b) ->
  0 ∉ a -> cut b -> cstr m1 pattern re -> let rest := (lines a).2 ++ b in
  exists p m2, grep_lines hf hf pattern buf (mk_st m1 i o) = Ret p (mk_st m2 i (o ++ emit re (lines a).1)) /\ alen (a ++ b) - (p - buf) = alen rest /\
    let m3 := Ulib.memmove m2 buf p (alen rest) in mem_ok m3 /\ Mem.bytes (length rest) m3 buf = rest /\ cstr m3 pattern re.
Proof using All.
  intros Hm Hb H0 Hlen Hch Ha Hc Hpat rest. destruct (bytes_split _ _ _ _ Hb) as [Hba Hbb]. unfold alen in *. rewrite length_app in *. apply Forall_app in Hch as [Hcha _].
  assert (Hca : cstr m1 buf a).
  { apply bytes_cstr; [done| |]. - destruct Hc as [-> |[b' ->]]; [by rewrite Nat.add_0_r in H0|]. cbn [length Mem.bytes] in Hbb. by injection Hbb. - apply Forall_forall. intros x Hx. pose proof (proj1 (Forall_forall _ _) Hcha x Hx) as Hr. cbv beta in Hr. assert (x <> 0) by (by intros ->). lia. }
  destruct (grep_lines_spec a hf buf (mk_st m1 i o)) as (m2 & R & Hm2 & Hp2 & Hc2 & Hfr); [lia|done|lia|lia|done|done|]. pose proof (lines_length a) as Hla. cbn [inp out ram] in *.
  eexists _, m2. split; [exact R|]. unfold rest. rewrite length_app. split; [lia|]. set (p := buf + Z.of_nat (length a) - Z.of_nat (length (lines a).2)) in *. cbv zeta.
  assert (Hbr : Mem.bytes (length ((lines a).2 ++ b)) m2 p = (lines a).2 ++ b).
  { apply bytes_join; [by apply cstr_bytes|]. replace (p + Z.of_nat (length (lines a).2)) with (buf + Z.of_nat (length a)) by lia. rewrite <- Hbb at 2. apply bytes_ext. intros x Hx. apply Hfr. lia. }
  rewrite <- length_app. split_and!.
  - intros x. rewrite Ulib.umemmove_spec by (done || lia). destruct (_ && _); apply Hm2.
  - by apply bytes_move.
  - eapply cstr_ext; [|exact Hp2]. intros x Hx. rewrite Ulib.umemmove_spec by (done || lia). rewrite length_app. destruct (Z.leb_spec buf x), (Z.ltb_spec x (buf + Z.of_nat (length (lines a).2 + length b))); cbn [andb]; done || lia.
Qed.

(** [pend] is in the buffer: the start [u] of a line, and perhaps a NUL byte and more. *)
Lemma grep_loop_spec fuel : forall u v s, (length (inp s) < fuel)%nat -> mem_ok (ram s) -> Mem.bytes (length (u ++ v)) (ram s) buf = u ++ v -> (length (u ++ v) <= 1023)%nat ->
  10 ∉ u -> 0 ∉ u -> cut v -> Forall (fun b => 0 <= b < 256) (u ++ v) -> Forall (fun b => 0 <= b < 256) (inp s) -> cstr (ram s) pattern re ->
  exists m' i', grep_loop buf read fuel hf pattern (alen (u ++ v)) s = Ret tt (mk_st m' i' (out s ++ emit re (reached (lines ((u ++ v) ++ inp s)).1))).
Proof using All.
  induction fuel as [|fuel IH]; intros u v s Hf Hm Hb Hlen Hu Hu0 Hv Hcu Hci Hpat; [lia|]. set (pend := u ++ v) in *. cbn [grep_loop]. unfold bind at 1, Prelude.gets at 1. cbv zeta.
  destruct (decide (inp s = [] \/ length pend = 1023%nat)) as [Hstop|Hgo].
  { rewrite (proj2 (Z.ltb_ge _ _)) by (apply Hend; destruct Hstop as [?|E]; [by right|left; unfold alen; rewrite E; lia]). exists (ram s), (inp s).
    assert (reached (lines (pend ++ inp s)).1 = []) as ->.
    { destruct Hv as [-> |[v' ->]]; subst pend.
      - rewrite app_nil_r in *. destruct Hstop as [E|E]; [rewrite E, app_nil_r; by rewrite (proj2 (lines_nonl u) Hu)|]. apply reached_stop; [done|right; lia].
      - replace ((u ++ 0 :: v') ++ inp s) with ((u ++ [0]) ++ (v' ++ inp s)) by (rewrite <- !app_assoc; done). apply reached_stop; [set_solver|left; set_solver]. }
    unfold emit. cbn. rewrite app_nil_r. by destruct s. }
  assert (Hi : inp s <> []) by tauto. assert (Hl : length pend <> 1023%nat) by tauto. clear Hgo. pose proof (Hread (inp s) (1024 - alen pend - 1) ltac:(unfold alen; lia) Hi) as Hn. set (n := read (inp s) (1024 - alen pend - 1)) in *.
  rewrite (proj2 (Z.ltb_lt _ _)) by lia. unfold alen in Hn. set (ck := take (Z.to_nat n) (inp s)). assert (Hck : alen ck = n) by (unfold alen, ck; rewrite length_take; lia).
  destruct (fill_buffer (ram s) pend ck Hm Hb) as (Hm1 & Hb1 & Hz1 & Ho1); [unfold alen in Hck; lia|by apply Forall_take|]. rewrite Hck in *. set (m1 := upd _ _ 0) in *.
  destruct (split_nul (pend ++ ck)) as (a & b & Ew & Ha & Hbc). rewrite Ew in *.
  destruct (grep_round m1 (drop (Z.to_nat n) (inp s)) (out s) a b) as (p & m2 & R & El & Hm3 & Hb3 & Hp3); try done.
  { rewrite <- Ew, length_app. unfold alen in Hck. lia. }
  { rewrite <- Ew. apply Forall_app. split; [done|by apply Forall_take]. }
  { eapply cstr_ext; [|exact Hpat]. intros x Hx. apply Ho1. lia. }
  unfold bind at 1, modify at 1. unfold bind at 1, modify at 1. cbn [ram inp out]. fold ck. fold m1. rewrite (bind_Ret _ _ _ _ _ R). rewrite (proj2 (Z.ltb_lt _ _)) by (unfold alen; lia).
  assert (Elen : alen pend + n = alen (a ++ b)) by (rewrite <- Ew; unfold alen in *; rewrite length_app; lia). rewrite Elen, El. unfold bind, modify. cbn [ram inp out]. set (m3 := Ulib.memmove _ _ _ _) in *.
  assert (Hla : (length (lines a).2 <= length a)%nat) by apply lines_length.
  destruct (IH (lines a).2 b (mk_st m3 (drop (Z.to_nat n) (inp s)) (out s ++ emit re (lines a).1))) as (m' & i' & R'); cbn [ram inp out]; try done.
  - rewrite length_drop. lia.
  - unfold alen in Elen. rewrite length_app in *. lia.
  - apply lines_nonl, lines_rest.
  - by intros H%lines_elem.
  - assert (Hall : Forall (fun c => 0 <= c < 256) (a ++ b)) by (rewrite <- Ew; apply Forall_app; split; [done|by apply Forall_take]). apply Forall_app in Hall as [H1 H2]. apply Forall_app. split; [|done]. apply Forall_forall. intros c Hc%lines_elem. by apply (proj1 (Forall_forall _ _) H1).
  - by apply Forall_drop.
  - exists m', i'. rewrite R'. cbn [inp out]. rewrite <- app_assoc. do 3 f_equal. replace (pend ++ inp s) with (a ++ (b ++ drop (Z.to_nat n) (inp s))) by (rewrite app_assoc, <- Ew; unfold ck; by rewrite <- app_assoc, take_drop).
    rewrite (lines_app a). cbn [fst]. rewrite reached_app by (apply lines_fit; [unfold alen in Elen; rewrite length_app in *; lia|done]). unfold emit. by rewrite fmap_app, join_app, <- app_assoc.
Qed.

(** C38: on every input [grep] prints, in order and each with its newline, the lines that
    match among those it gets to, however [read] splits the input. It gets to all the
    complete lines before the first one of 1023 bytes or more, which fills the buffer, or
    with a NUL byte, which ends the search for a newline; there it stops, and it never
    looks at a last line without a newline. *)
Theorem grep_prints_matching_lines fuel (s : st) : (length (inp s) < fuel)%nat -> mem_ok (ram s) -> Forall (fun b => 0 <= b < 256) (inp s) -> cstr (ram s) pattern re ->
  exists m' i', grep buf read fuel hf pattern s = Ret tt (mk_st m' i' (out s ++ mjoin ((fun k => k ++ [10]) <$> filter (matches re) (reached (lines (inp s)).1)))).
Proof using All.
  intros Hf Hm Hch Hpat. destruct (grep_loop_spec fuel [] [] s Hf Hm eq_refl) as (m' & i' & R); try done; [cbn; lia|set_solver|set_solver|by left|]. exists m', i'. unfold grep. change 0 with (alen (@nil Z ++ [])). rewrite R.
  cbn [app]. do 3 f_equal. unfold emit. clear. assert (J : forall (k : list Z) ls, mjoin (k :: ls) = k ++ mjoin ls) by done.
  induction (reached (lines (inp s)).1) as [|k ls IH]; [done|]. rewrite fmap_cons, J, IH.
  destruct (decide (matches re k)) as [H|H]; [rewrite filter_cons_True by done|rewrite filter_cons_False by done].
  - by rewrite (proj2 (matchesb_spec re k) H), fmap_cons, J.
  - destruct (matchesb re k) eqn:E; [by apply matchesb_spec in E|]. done.
Qed.

End loop.

(** [match] decides whether the pattern matches the text: it terminates with
    a depth of recursion bounded by the two lengths, and answers as the meaning of
    the pattern says. *)
Theorem match_decides m re text l t fuel hf : cstr m re l -> cstr m text t -> (length l + length t < hf)%nat -> (length t < fuel)%nat ->
  exists b, match_ fuel hf m re text = Some b /\ (b = true <-> matches l t).
Proof. intros Hl Ht Hh Hf. eexists. split; [by apply match_spec|]. apply matchesb_spec. Qed.

(** [a.*b$] and [xaab]. *)
Definition ex_mem : mem := put_bytes (put_bytes (fun _ => 0) 100 [97; 46; 42; 98; 36]) 200 [120; 97; 97; 98].

Lemma match_decides_witness : exists b, match_ 10 20 ex_mem 100 200 = Some b /\ (b = true <-> matches [97; 46; 42; 98; 36] [120; 97; 97; 98]).
Proof. apply match_decides; [by repeat split|by repeat split|simpl; lia|simpl; lia]. Defined.

(** The text [ab\nc\n], a line [a] with a NUL byte and another line [a], one byte at a time,
    and the pattern [a]: only the first line is printed. *)
Lemma grep_prints_matching_lines_witness : exists m' i',
  grep 5000 (fun i n => Z.min 1 (Z.min n (alen i))) 20 1100 100 (mk_st (put_bytes (fun _ => 0) 100 [97]) [97; 98; 10; 99; 10; 97; 0; 10; 97; 10] []) = Ret tt (mk_st m' i' [97; 98; 10]).
Proof.
  destruct (grep_prints_matching_lines 5000 (fun i n => Z.min 1 (Z.min n (alen i))) 100 [97] 1100 ltac:(lia) ltac:(simpl; lia) ltac:(simpl; lia)
    ltac:(intros [|] n Hn Hi; [done|]; unfold alen; simpl length; lia) ltac:(intros i n [Hn|Hi]; [lia|]; rewrite Hi; unfold alen; simpl length; lia)
    20 (mk_st (put_bytes (fun _ => 0) 100 [97]) [97; 98; 10; 99; 10; 97; 0; 10; 97; 10] [])) as (m' & i' & R).
  - simpl. lia.
  - intros a. cbn [ram put_bytes]. apply upd_ok. intros b. lia.
  - repeat constructor; lia.
  - by repeat split.
  - exists m', i'. rewrite R. f_equal.
Defined.

End Grep.
