(* ===== verification/Net.v ===== *)
(** The network stack, [src/kernel/network/net.c], [src/kernel/sysnet.c] and the rings
    of [src/kernel/network/e1000.c].

    A packet buffer and a socket each lie in a page of their own; a pointer to
    one is the number of its page, and 0 is the null pointer. A pointer into
    [buf] is an offset, and an access outside [buf] is a [Fault], as is any use
    of a page that has been freed. The address and the hardware address of the
    machine are arguments, so that a theorem can speak of two machines;
    [LOCAL_IP] and [LOCAL_MAC] are those of the source. *)

From S2P Require Import Prelude Mem Umem.
Import Umem.

Module Net.

Definition MBUF_SIZE : Z := 2048.
Definition MBUF_DEFAULT_HEADROOM : Z := 128.
Definition ETHTYPE_IP : Z := 2048.
Definition ETHTYPE_ARP : Z := 2054.
Definition IPPROTO_UDP : Z := 17.
Definition ARP_HRD_ETHER : Z := 1.
Definition ARP_OP_REQUEST : Z := 1.
Definition ARP_OP_REPLY : Z := 2.
Definition ETHADDR_LEN : Z := 6.
Definition TX_RING_SIZE : Z := 16.
Definition RX_RING_SIZE : Z := 16.

Definition MAKE_IP_ADDR (a b c d : Z) : Z := Z.lor (Z.lor (Z.lor (Z.shiftl a 24) (Z.shiftl b 16)) (Z.shiftl c 8)) d.
Definition LOCAL_IP : Z := MAKE_IP_ADDR 10 0 2 15.
Definition LOCAL_MAC : list Z := [82; 84; 0; 18; 52; 86].
Definition BROADCAST_MAC : list Z := [255; 255; 255; 255; 255; 255].

Definition bswaps (val : Z) : Z := u16 (Z.lor (Z.shiftl (Z.land val 255) 8) (Z.shiftr (Z.land val 65280) 8)).
Definition bswapl (val : Z) : Z :=
  u32 (Z.lor (Z.lor (Z.lor (Z.shiftl (Z.land val 255) 24) (Z.shiftl (Z.land val 65280) 8))
    (Z.shiftr (Z.land val 16711680) 8)) (Z.shiftr (Z.land val 4278190080) 24)).
Abbreviation htons := bswaps.
Abbreviation ntohs := bswaps.
Abbreviation htonl := bswapl.
Abbreviation ntohl := bswapl.

(** ** Data *)

(** [struct mbuf]; [m_head] is the offset of [head] in [buf]. *)
Record mbuf := mk_mbuf { m_next : Z; m_head : Z; m_len : Z; m_buf : mem }.
Record mbufq := mk_mbufq { q_head : Z; q_tail : Z }.
Record sock := mk_sock { s_next : Z; s_raddr : Z; s_lport : Z; s_rport : Z; s_rxq : mbufq }.

(** Descriptors; the address of a buffer is the page and the offset in [buf]. *)
Record tx_desc := mk_txd { td_addr : Z * Z; td_length : Z; td_cmd : Z; td_status : Z }.
Record rx_desc := mk_rxd { rd_addr : Z * Z; rd_length : Z; rd_status : Z }.
Record e1000 := mk_e1000 {
  tdt : Z; tx_ring : list tx_desc; tx_mbufs : list Z;
  rdt : Z; rx_ring : list rx_desc; rx_mbufs : list Z }.

(** [pages] are the free pages, in the order [kalloc] hands them out. *)
Record net := mk_net { pages : list Z; mbufs : gmap Z mbuf; socks : gmap Z sock; sockets : Z; nic : e1000 }.

Definition set_next (p : Z) (b : mbuf) : mbuf := mk_mbuf p (m_head b) (m_len b) (m_buf b).
Definition set_span (h l : Z) (b : mbuf) : mbuf := mk_mbuf (m_next b) h l (m_buf b).
Definition set_buf (d : mem) (b : mbuf) : mbuf := mk_mbuf (m_next b) (m_head b) (m_len b) d.
Definition set_rxq (q : mbufq) (s : sock) : sock := mk_sock (s_next s) (s_raddr s) (s_lport s) (s_rport s) q.
Definition set_snext (p : Z) (s : sock) : sock := mk_sock p (s_raddr s) (s_lport s) (s_rport s) (s_rxq s).

Definition set_pages (l : list Z) (s : net) : net := mk_net l (mbufs s) (socks s) (sockets s) (nic s).
Definition set_mbufs (x : gmap Z mbuf) (s : net) : net := mk_net (pages s) x (socks s) (sockets s) (nic s).
Definition set_socks (x : gmap Z sock) (s : net) : net := mk_net (pages s) (mbufs s) x (sockets s) (nic s).
Definition set_sockets (p : Z) (s : net) : net := mk_net (pages s) (mbufs s) (socks s) p (nic s).
Definition set_nic (n : e1000) (s : net) : net := mk_net (pages s) (mbufs s) (socks s) (sockets s) n.

Definition getm (m : Z) : M net mbuf := fun s => deref (mbufs s !! m) s.
Definition putm (m : Z) (b : mbuf) : M net unit := modify (fun s => set_mbufs (<[m := b]> (mbufs s)) s).
Definition gets_ (p : Z) : M net sock := fun s => deref (socks s !! p) s.
Definition puts_ (p : Z) (x : sock) : M net unit := modify (fun s => set_socks (<[p := x]> (socks s)) s).

(** [kalloc]; [kfree] of a page that is in use. *)
Definition kalloc : M net Z := fun s =>
  match pages s with [] => Ret 0 s | p :: l => Ret p (set_pages l s) end.
Definition kfree (p : Z) : M net unit := fun s =>
  if bool_decide (p ∈ dom (mbufs s) ∪ dom (socks s)) then
    Ret tt (mk_net (p :: pages s) (delete p (mbufs s)) (delete p (socks s)) (sockets s) (nic s))
  else Fault.

(** Bytes of [buf]. *)
Definition in_buf (off n : Z) : bool := (0 <=? off) && (off + n <=? MBUF_SIZE).
Definition rd (m off n : Z) : M net (list Z) :=
  let* b := getm m in
  if in_buf off n then ret (Mem.bytes (Z.to_nat n) (m_buf b) off) else fault.
Definition wr (m off : Z) (bs : list Z) : M net unit :=
  let* b := getm m in
  if in_buf off (alen bs) then putm m (set_buf (put_bytes (m_buf b) off bs) b) else fault.
Definition le16 (v : Z) : list Z := [v mod 256; v / 256 mod 256].
Definition le32 (v : Z) : list Z := [v mod 256; v / 256 mod 256; v / 65536 mod 256; v / 16777216 mod 256].
Definition of_le (l : list Z) : Z := foldr (fun b n => b + 256 * n) 0 l.
Definition rd8 (m off : Z) : M net Z := let* l := rd m off 1 in ret (of_le l).
Definition rd16 (m off : Z) : M net Z := let* l := rd m off 2 in ret (of_le l).
Definition rd32 (m off : Z) : M net Z := let* l := rd m off 4 in ret (of_le l).

(** ** Packet buffers *)

Definition mbufpull (m len : Z) : M net (option Z) :=
  let* b := getm m in
  if m_len b <? len then ret None
  else putm m (set_span (m_head b + len) (m_len b - len) b) ;;; ret (Some (m_head b)).
Definition mbufpush (m len : Z) : M net Z :=
  let* b := getm m in
  if m_head b - len <? 0 then panic "mbufpush"
  else putm m (set_span (m_head b - len) (u32 (m_len b + len)) b) ;;; ret (m_head b - len).
Definition mbufput (m len : Z) : M net Z :=
  let* b := getm m in
  let len' := u32 (m_len b + len) in
  if MBUF_SIZE <? len' then panic "mbufput"
  else putm m (set_span (m_head b) len' b) ;;; ret (m_head b + m_len b).
Definition mbuftrim (m len : Z) : M net (option Z) :=
  let* b := getm m in
  if m_len b <? len then ret None
  else putm m (set_span (m_head b) (m_len b - len) b) ;;; ret (Some (m_head b + (m_len b - len))).

Definition mbufalloc (headroom : Z) : M net Z :=
  if MBUF_SIZE <? headroom then ret 0
  else
    let* m := kalloc in
    if m =? 0 then ret 0
    else putm m (mk_mbuf 0 headroom 0 (fun _ => 0)) ;;; ret m.
Definition mbuffree (m : Z) : M net unit := kfree m.

(** The queue of a socket. *)
Definition mbufq_pushtail (si m : Z) : M net unit :=
  let* b := getm m in
  putm m (set_next 0 b) ;;;
  let* x := gets_ si in
  if q_head (s_rxq x) =? 0 then puts_ si (set_rxq (mk_mbufq m m) x)
  else
    let* t := getm (q_tail (s_rxq x)) in
    putm (q_tail (s_rxq x)) (set_next m t) ;;;
    puts_ si (set_rxq (mk_mbufq (q_head (s_rxq x)) m) x).
Definition mbufq_pophead (si : Z) : M net Z :=
  let* x := gets_ si in
  let head := q_head (s_rxq x) in
  if head =? 0 then ret 0
  else
    let* b := getm head in
    puts_ si (set_rxq (mk_mbufq (m_next b) (q_tail (s_rxq x))) x) ;;; ret head.
Definition mbufq_empty (si : Z) : M net bool := let* x := gets_ si in ret (q_head (s_rxq x) =? 0).

(** ** The checksum *)

Fixpoint cksum_words (n : nat) (d : mem) (w sum : Z) : Z :=
  match n with
  | O => sum
  | S n => cksum_words n d (w + 2) (u32 (sum + load16 d w))
  end.
Definition in_cksum (d : mem) (addr len : Z) : Z :=
  let sum := cksum_words (Z.to_nat (len / 2)) d addr 0 in
  let sum := if len mod 2 =? 1 then u32 (sum + d (addr + len - 1)) else sum in
  let sum := u32 (Z.land sum 65535 + Z.shiftr sum 16) in
  let sum := u32 (sum + Z.shiftr sum 16) in
  u16 (Z.lnot sum).
Definition cksum (m off len : Z) : M net Z :=
  rd m off len ;;;
  let* b := getm m in
  ret (in_cksum (m_buf b) off len).

(** ** The driver *)

Definition E1000_TXD_STAT_DD : Z := 1.
Definition E1000_RXD_STAT_DD : Z := 1.
Definition E1000_TXD_CMD_EOP : Z := 1.
Definition E1000_TXD_CMD_RS : Z := 8.

(** [e1000_transmit]; the device sends the descriptors up to [tdt] and sets [DD]
    in each when it is done with it. *)
Definition e1000_transmit (m : Z) : M net Z :=
  let* n := gets nic in
  let ind := tdt n in
  let* desc := deref (aget (tx_ring n) ind) in
  if Z.land (td_status desc) E1000_TXD_STAT_DD =? 0 then ret (-1)
  else
    let* old := deref (aget (tx_mbufs n) ind) in
    when (negb (old =? 0)) (mbuffree old) ;;;
    let* b := getm m in
    let desc := mk_txd (m, m_head b) (u16 (m_len b)) (Z.lor E1000_TXD_CMD_EOP E1000_TXD_CMD_RS) (td_status desc) in
    modify (set_nic (mk_e1000 (u32 (ind + 1) mod TX_RING_SIZE) (aset (tx_ring n) ind desc) (aset (tx_mbufs n) ind m)
      (rdt n) (rx_ring n) (rx_mbufs n))) ;;;
    ret 0.

(** ** Sending *)

Section machine.
Context (local_ip : Z) (local_mac : list Z).

Definition net_tx_eth (m ethtype : Z) : M net unit :=
  let* ethhdr := mbufpush m 14 in
  wr m (ethhdr + 6) local_mac ;;;
  wr m ethhdr BROADCAST_MAC ;;;
  wr m (ethhdr + 12) (le16 (htons ethtype)) ;;;
  let* r := e1000_transmit m in
  when (negb (r =? 0)) (mbuffree m).

Definition net_tx_ip (m proto dip : Z) : M net unit :=
  let* iphdr := mbufpush m 20 in
  wr m iphdr (replicate 20 0) ;;;
  wr m iphdr [Z.lor (Z.shiftl 4 4) (Z.shiftr 20 2)] ;;;
  wr m (iphdr + 9) [proto] ;;;
  wr m (iphdr + 12) (le32 (htonl local_ip)) ;;;
  wr m (iphdr + 16) (le32 (htonl dip)) ;;;
  let* b := getm m in
  wr m (iphdr + 2) (le16 (htons (u16 (m_len b)))) ;;;
  wr m (iphdr + 8) [100] ;;;
  let* sum := cksum m iphdr 20 in
  wr m (iphdr + 10) (le16 sum) ;;;
  net_tx_eth m ETHTYPE_IP.

Definition net_tx_udp (m dip sport dport : Z) : M net unit :=
  let* udphdr := mbufpush m 8 in
  wr m udphdr (le16 (htons sport)) ;;;
  wr m (udphdr + 2) (le16 (htons dport)) ;;;
  let* b := getm m in
  wr m (udphdr + 4) (le16 (htons (u16 (m_len b)))) ;;;
  wr m (udphdr + 6) (le16 0) ;;;
  net_tx_ip m IPPROTO_UDP dip.

Definition net_tx_arp (op : Z) (dmac : list Z) (dip : Z) : M net Z :=
  let* m := mbufalloc MBUF_DEFAULT_HEADROOM in
  if m =? 0 then ret (-1)
  else
    let* arphdr := mbufput m 28 in
    wr m arphdr (le16 (htons ARP_HRD_ETHER)) ;;;
    wr m (arphdr + 2) (le16 (htons ETHTYPE_IP)) ;;;
    wr m (arphdr + 4) [ETHADDR_LEN] ;;;
    wr m (arphdr + 5) [4] ;;;
    wr m (arphdr + 6) (le16 (htons op)) ;;;
    wr m (arphdr + 8) local_mac ;;;
    wr m (arphdr + 14) (le32 (htonl local_ip)) ;;;
    wr m (arphdr + 18) dmac ;;;
    wr m (arphdr + 24) (le32 (htonl dip)) ;;;
    net_tx_eth m ETHTYPE_ARP ;;;
    ret 0.

(** ** Receiving *)

(** The socket of a packet, from [pos] on. *)
Fixpoint find_sock (fuel : nat) (pos raddr lport rport : Z) : M net Z :=
  match fuel with
  | O => nofuel
  | S fuel =>
      if pos =? 0 then ret 0
      else
        let* x := gets_ pos in
        if (s_raddr x =? raddr) && (s_lport x =? lport) && (s_rport x =? rport) then ret pos
        else find_sock fuel (s_next x) raddr lport rport
  end.
(** Enough for a list without cycles. *)
Definition sock_fuel (s : net) : nat := S (size (socks s)).

(** [sockrecvudp]; the reader that sleeps on the queue is woken. *)
Definition sockrecvudp (m raddr lport rport : Z) : M net unit :=
  let* fuel := gets sock_fuel in
  let* first := gets sockets in
  let* si := find_sock fuel first raddr lport rport in
  if si =? 0 then mbuffree m else mbufq_pushtail si m.

Definition net_rx_arp (m : Z) : M net unit :=
  let* p := mbufpull m 28 in
  match p with
  | None => mbuffree m
  | Some arphdr =>
      let* hrd := rd16 m arphdr in
      let* pro := rd16 m (arphdr + 2) in
      let* hln := rd8 m (arphdr + 4) in
      let* pln := rd8 m (arphdr + 5) in
      if negb (ntohs hrd =? ARP_HRD_ETHER) || negb (ntohs pro =? ETHTYPE_IP) || negb (hln =? ETHADDR_LEN) || negb (pln =? 4) then mbuffree m
      else
        let* tip := rd32 m (arphdr + 24) in
        let* op := rd16 m (arphdr + 6) in
        if negb (ntohs op =? ARP_OP_REQUEST) || negb (ntohl tip =? local_ip) then mbuffree m
        else
          let* smac := rd m (arphdr + 8) ETHADDR_LEN in
          let* sip := rd32 m (arphdr + 14) in
          net_tx_arp ARP_OP_REPLY smac (ntohl sip) ;;;
          mbuffree m
  end.

Definition net_rx_udp (m len iphdr : Z) : M net unit :=
  let* p := mbufpull m 8 in
  match p with
  | None => mbuffree m
  | Some udphdr =>
      let* ulen := rd16 m (udphdr + 4) in
      if negb (ntohs ulen =? len) then mbuffree m
      else
        let len := u16 (len - 8) in
        let* b := getm m in
        if m_len b <? len then mbuffree m
        else
          mbuftrim m (u32 (m_len b - len)) ;;;
          let* src := rd32 m (iphdr + 12) in
          let* sport := rd16 m udphdr in
          let* dport := rd16 m (udphdr + 2) in
          sockrecvudp m (ntohl src) (ntohs dport) (ntohs sport)
  end.

Definition net_rx_ip (m : Z) : M net unit :=
  let* p := mbufpull m 20 in
  match p with
  | None => mbuffree m
  | Some iphdr =>
      let* vhl := rd8 m iphdr in
      if negb (vhl =? Z.lor (Z.shiftl 4 4) (Z.shiftr 20 2)) then mbuffree m
      else
        let* sum := cksum m iphdr 20 in
        if negb (sum =? 0) then mbuffree m
        else
          let* ip_off := rd16 m (iphdr + 6) in
          if negb (htons ip_off =? 0) then mbuffree m
          else
            let* dst := rd32 m (iphdr + 16) in
            if negb (htonl dst =? local_ip) then mbuffree m
            else
              let* p := rd8 m (iphdr + 9) in
              if negb (p =? IPPROTO_UDP) then mbuffree m
              else
                let* ip_len := rd16 m (iphdr + 2) in
                net_rx_udp m (u16 (ntohs ip_len - 20)) iphdr
  end.

Definition net_rx (m : Z) : M net unit :=
  let* p := mbufpull m 14 in
  match p with
  | None => mbuffree m
  | Some ethhdr =>
      let* type := rd16 m (ethhdr + 12) in
      if ntohs type =? ETHTYPE_IP then net_rx_ip m
      else if ntohs type =? ETHTYPE_ARP then net_rx_arp m
      else mbuffree m
  end.

(** [e1000_recv] takes at most [fuel] packets from the ring. *)
Fixpoint e1000_recv (fuel : nat) : M net unit :=
  match fuel with
  | O => nofuel
  | S fuel =>
      let* n := gets nic in
      let ind := u32 (rdt n + 1) mod RX_RING_SIZE in
      let* desc := deref (aget (rx_ring n) ind) in
      if Z.land (rd_status desc) E1000_RXD_STAT_DD =? 0 then ret tt
      else
        let* m := deref (aget (rx_mbufs n) ind) in
        let* b := getm m in
        putm m (set_span (m_head b) (rd_length desc) b) ;;;
        net_rx m ;;;
        let* m := mbufalloc 0 in
        let* b := getm m in
        modify (fun s => let n := nic s in
          set_nic (mk_e1000 (tdt n) (tx_ring n) (tx_mbufs n) ind
            (aset (rx_ring n) ind (mk_rxd (m, m_head b) (rd_length desc) 0)) (aset (rx_mbufs n) ind m)) s) ;;;
        e1000_recv fuel
  end.
End machine.

(** ** Sockets *)

(** The part of [sockalloc] that fills in a socket; 0 without memory. *)
Definition sock_init (raddr lport rport : Z) : M net Z :=
  let* si := kalloc in
  if si =? 0 then ret 0
  else puts_ si (mk_sock 0 raddr lport rport (mk_mbufq 0 0)) ;;; ret si.
(** The part that enters it in the list, unless one like it is there. *)
Definition sock_enter (si raddr lport rport : Z) : M net bool :=
  let* fuel := gets sock_fuel in
  let* first := gets sockets in
  let* pos := find_sock fuel first raddr lport rport in
  if negb (pos =? 0) then ret false
  else
    let* x := gets_ si in
    puts_ si (set_snext first x) ;;;
    modify (set_sockets si) ;;;
    ret true.

(** [*pos], for [pos] the address of [sockets] ([None]) or of a [next] field. *)
Definition get_link (pos : option Z) : M net Z :=
  match pos with None => gets sockets | Some p => let* x := gets_ p in ret (s_next x) end.
Definition set_link (pos : option Z) (v : Z) : M net unit :=
  match pos with None => modify (set_sockets v) | Some p => let* x := gets_ p in puts_ p (set_snext v x) end.
Fixpoint sock_unlink (fuel : nat) (pos : option Z) (si : Z) : M net unit :=
  match fuel with
  | O => nofuel
  | S fuel =>
      let* cur := get_link pos in
      if cur =? 0 then ret tt
      else if cur =? si then let* x := gets_ si in set_link pos (s_next x)
      else sock_unlink fuel (Some cur) si
  end.
(** The packets that wait. *)
Fixpoint sock_drain (fuel : nat) (si : Z) : M net unit :=
  match fuel with
  | O => nofuel
  | S fuel =>
      let* e := mbufq_empty si in
      if e then ret tt
      else let* m := mbufq_pophead si in mbuffree m ;;; sock_drain fuel si
  end.
Definition sockclose (si : Z) : M net unit :=
  let* fuel := gets sock_fuel in
  sock_unlink fuel None si ;;;
  let* fuel := gets (fun s => S (size (mbufs s))) in
  sock_drain fuel si ;;;
  kfree si.

Section user.
Context {U : Type} `{UserMem U}.

Definition on_net {A} (m : M net A) : M (net * U) A := zoom fst (fun n s => (n, snd s)) m.

(** [sockread]; a reader that finds no packet sleeps. *)
Definition sockread (killed : bool) (si addr n : Z) : M (net * U) Z :=
  let* e := on_net (mbufq_empty si) in
  if killed then ret (-1)
  else if e then nofuel
  else
    let* m := on_net (mbufq_pophead si) in
    let* b := on_net (getm m) in
    let len := if n <? s32 (m_len b) then n else s32 (m_len b) in
    if len <? 0 then fault
    else
      let* bs := on_net (rd m (m_head b) len) in
      let* u := gets snd in
      match ucopyout u addr bs with (ok, u') =>
        modify (fun s => (fst s, u')) ;;;
        on_net (mbuffree m) ;;;
        ret (if ok then len else -1)
      end.

Definition sockwrite (local_ip : Z) (local_mac : list Z) (si addr n : Z) : M (net * U) Z :=
  let* m := on_net (mbufalloc MBUF_DEFAULT_HEADROOM) in
  if m =? 0 then ret (-1)
  else
    let* dst := on_net (mbufput m (u32 n)) in
    let* bs := on_net (rd m dst n) in
    let* u := gets snd in
    match ucopyin u addr bs with (ok, bs') =>
      on_net (wr m dst bs') ;;;
      if ok then
        let* x := on_net (gets_ si) in
        on_net (net_tx_udp local_ip local_mac m (s_raddr x) (s_lport x) (s_rport x)) ;;; ret n
      else on_net (mbuffree m) ;;; ret (-1)
    end.
End user.

End Net.
