(* ===== verification/Netsum.v ===== *)
(** Byte order and the Internet checksum of [src/kernel/network/net.c]. *)

From S2P Require Import Prelude Mem Net.
Import Net.

Module Netsum.

(** ** Byte order *)

(** A byte of [v], moved from bit [k] by [j]. *)
Lemma mask_bit v k n : 0 <= k -> 0 <= n -> Z.testbit (Z.land v (Z.shiftl (Z.ones 8) k)) n = Z.testbit v n && ((k <=? n) && (n <? k + 8)).
Proof.
  intros Hk Hn. rewrite Z.land_spec, Z.shiftl_spec by done. f_equal. destruct (Z.leb_spec k n); cbn [andb].
  - rewrite Z.testbit_ones_nonneg by lia. destruct (Z.ltb_spec (n - k) 8), (Z.ltb_spec n (k + 8)); (done || lia).
  - apply Z.testbit_neg_r. lia.
Qed.
Lemma shiftl_bit a k n : 0 <= n -> Z.testbit (Z.shiftl a k) n = (k <=? n) && Z.testbit a (n - k).
Proof.
  intros Hn. rewrite Z.shiftl_spec by done. destruct (Z.leb_spec k n); [done|]. apply Z.testbit_neg_r. lia.
Qed.
Lemma mod_bit a k n : 0 <= k -> 0 <= n -> Z.testbit (a mod 2 ^ k) n = (n <? k) && Z.testbit a n.
Proof. intros Hk Hn. destruct (Z.ltb_spec n k); [by rewrite Z.mod_pow2_bits_low by lia|by rewrite Z.mod_pow2_bits_high by lia]. Qed.

Ltac swap_bits n :=
  repeat first [rewrite mod_bit by lia | rewrite Z.lor_spec | rewrite shiftl_bit by lia | rewrite Z.shiftr_spec by lia];
  change 255 with (Z.shiftl (Z.ones 8) 0); change 65280 with (Z.shiftl (Z.ones 8) 8);
  change 16711680 with (Z.shiftl (Z.ones 8) 16); change 4278190080 with (Z.shiftl (Z.ones 8) 24);
  repeat match goal with |- context [Z.leb ?a ?b] => destruct (Z.leb_spec a b) | |- context [Z.ltb ?a ?b] => destruct (Z.ltb_spec a b) end;
  cbn [andb orb]; try lia; rewrite ?mask_bit by lia;
  repeat match goal with |- context [Z.leb ?a ?b] => destruct (Z.leb_spec a b) | |- context [Z.ltb ?a ?b] => destruct (Z.ltb_spec a b) end;
  rewrite ?andb_true_r, ?andb_false_r; cbn [andb orb]; rewrite ?orb_false_r; try lia; try done; try (f_equal; lia).

Lemma bswaps_bit v n : 0 <= n -> Z.testbit (bswaps v) n = (n <? 16) && Z.testbit v (if n <? 8 then n + 8 else n - 8).
Proof. intros Hn. unfold bswaps, u16. swap_bits n. Qed.
Lemma bswapl_bit v n : 0 <= n -> Z.testbit (bswapl v) n =
  (n <? 32) && Z.testbit v (if n <? 8 then n + 24 else if n <? 16 then n + 8 else if n <? 24 then n - 8 else n - 24).
Proof. intros Hn. unfold bswapl, u32. swap_bits n. Qed.

Lemma bswaps_invol v : bswaps (bswaps v) = u16 v.
Proof.
  apply Z.bits_inj'. intros n Hn. rewrite bswaps_bit by done. unfold u16. rewrite mod_bit by lia.
  destruct (Z.ltb_spec n 16), (Z.ltb_spec n 8); cbn [andb]; try lia; try done; rewrite bswaps_bit by lia;
    repeat match goal with |- context [Z.ltb ?a ?b] => destruct (Z.ltb_spec a b) end; cbn [andb]; try lia; f_equal; lia.
Qed.
Lemma bswapl_invol v : bswapl (bswapl v) = u32 v.
Proof.
  apply Z.bits_inj'. intros n Hn. rewrite bswapl_bit by done. unfold u32. rewrite mod_bit by lia.
  destruct (Z.ltb_spec n 32), (Z.ltb_spec n 8), (Z.ltb_spec n 16), (Z.ltb_spec n 24); cbn [andb]; try lia; try done; rewrite bswapl_bit by lia;
    repeat match goal with |- context [Z.ltb ?a ?b] => destruct (Z.ltb_spec a b) end; cbn [andb]; try lia; f_equal; lia.
Qed.
Lemma bswaps_range v : 0 <= bswaps v < 65536.
Proof. apply u16_range. Qed.
Lemma bswapl_range v : 0 <= bswapl v < 2 ^ 32.
Proof. apply u32_range. Qed.

Lemma of_le16 v : of_le (le16 v) = u16 v.
Proof. unfold of_le, le16, u16. cbn [foldr]. dlia. Qed.
Lemma of_le32 v : of_le (le32 v) = u32 v.
Proof. unfold of_le, le32, u32. cbn [foldr]. dlia. Qed.

(** ** The checksum *)

Fixpoint word_sum (n : nat) (d : mem) (w : Z) : Z := match n with O => 0 | S n => load16 d w + word_sum n d (w + 2) end.
(** The two folds and the complement. *)
Definition cks (sum : Z) : Z := let a := sum mod 65536 + sum / 65536 in 65535 - (a + a / 65536) mod 65536.

Lemma load16_bytes d w : load16 d w = d w + 256 * d (w + 1).
Proof. unfold load16. cbn [load]. lia. Qed.

Lemma word_sum_range n d w : mem_ok d -> 0 <= word_sum n d w <= Z.of_nat n * 65535.
Proof.
  intros Hd. revert w. induction n as [|n IH]; intros w; cbn [word_sum]; [lia|]. specialize (IH (w + 2)). rewrite load16_bytes.
  pose proof (Hd w). pose proof (Hd (w + 1)). lia.
Qed.

Lemma cksum_words_sum n d : mem_ok d -> forall w sum, 0 <= sum -> sum + Z.of_nat n * 65535 < 2 ^ 32 -> cksum_words n d w sum = sum + word_sum n d w.
Proof.
  intros Hd. induction n as [|n IH]; intros w sum H0 H1; cbn [cksum_words word_sum]; [lia|].
  pose proof (Hd w). pose proof (Hd (w + 1)). rewrite load16_bytes. rewrite u32_small by lia. rewrite IH by lia. lia.
Qed.

Lemma in_cksum_20 d o : mem_ok d -> in_cksum d o 20 = cks (word_sum 10 d o).
Proof.
  intros Hd. unfold in_cksum. change (20 mod 2 =? 1) with false. cbn iota. change (Z.to_nat (20 / 2)) with 10%nat.
  rewrite cksum_words_sum by (done || lia). rewrite Z.add_0_l. pose proof (word_sum_range 10 d o Hd) as HS. set (x := word_sum 10 d o) in *.
  change 65535 with (Z.ones 16). rewrite Z.land_ones by lia. rewrite !Z.shiftr_div_pow2 by lia. change (2 ^ 16) with 65536.
  rewrite (u32_small (x mod 65536 + x / 65536)) by dlia. rewrite u32_small by dlia. unfold cks, u16, Z.lnot. dlia.
Qed.

(** A sum completed with its checksum folds to zero. *)
Lemma cks_complete sum : 0 < sum <= 655350 -> cks (sum + cks sum) = 0.
Proof. intros H. unfold cks. dlia. Qed.
Lemma cks_range sum : 0 <= cks sum < 65536.
Proof. unfold cks. dlia. Qed.

Lemma word_sum_ext n d d' o o' : (forall i, 0 <= i < 2 * Z.of_nat n -> d' (o' + i) = d (o + i)) -> word_sum n d' o' = word_sum n d o.
Proof.
  revert o o'. induction n as [|n IH]; intros o o' H; cbn [word_sum]; [done|]. rewrite !load16_bytes. rewrite (H 1) by lia.
  pose proof (H 0 ltac:(lia)) as H0. rewrite !Z.add_0_r in H0. rewrite H0, (IH (o + 2) (o' + 2)); [done|]. intros i Hi.
  rewrite <- !Z.add_assoc. apply H. lia.
Qed.

Lemma word_sum_split n k d o : word_sum (n + k) d o = word_sum n d o + word_sum k d (o + 2 * Z.of_nat n).
Proof.
  revert o. induction n as [|n IH]; intros o; cbn [word_sum Nat.add]; [by rewrite Z.add_0_r|]. rewrite IH.
  replace (o + 2 + 2 * Z.of_nat n) with (o + 2 * Z.of_nat (S n)) by lia. lia.
Qed.

Lemma header_sum d o : word_sum 10 d o = word_sum 5 d o + (load16 d (o + 10) + word_sum 4 d (o + 12)).
Proof.
  transitivity (word_sum 5 d o + word_sum 5 d (o + 10)); [exact (word_sum_split 5 5 d o)|].
  by replace (o + 12) with (o + 10 + 2) by lia.
Qed.

(** The checksum written at offset 10 of a header whose checksum field was zero. *)
Lemma cksum_valid d o : mem_ok d -> d o <> 0 -> d (o + 10) = 0 -> d (o + 11) = 0 ->
  in_cksum (put_bytes d (o + 10) (le16 (in_cksum d o 20))) o 20 = 0.
Proof.
  intros Hd Hnz H10 H11. set (c := in_cksum d o 20). assert (Hc : 0 <= c < 65536) by apply u16_range.
  set (d' := put_bytes d (o + 10) (le16 c)).
  assert (Hin : forall x, d' x = if x =? o + 11 then c / 256 else if x =? o + 10 then c mod 256 else d x).
  { intros x. unfold d', le16. cbn [put_bytes]. unfold upd. replace (o + 10 + 1) with (o + 11) by lia.
    destruct (x =? o + 11); [rewrite u8_small; dlia|]. destruct (x =? o + 10); [rewrite u8_small; dlia|done]. }
  assert (Hd' : mem_ok d') by (intros x; rewrite Hin; pose proof (Hd x); destruct (x =? o + 11); [dlia|destruct (x =? o + 10); dlia]).
  rewrite in_cksum_20 by done. pose proof (in_cksum_20 d o Hd) as Ec. fold c in Ec. pose proof (word_sum_range 10 d o Hd) as HS.
  assert (E : word_sum 10 d' o = word_sum 10 d o + c).
  { rewrite !header_sum. rewrite (word_sum_ext 5 d d' o o), (word_sum_ext 4 d d' (o + 12) (o + 12)).
    - rewrite !load16_bytes, !Hin. replace (o + 10 + 1) with (o + 11) by lia.
      rewrite (proj2 (Z.eqb_neq (o + 10) (o + 11))), !Z.eqb_refl, H10, H11 by lia. pose proof (Z.div_mod c 256 ltac:(lia)). lia.
    - intros i Hi. rewrite Hin, !(proj2 (Z.eqb_neq _ _)) by lia. done.
    - intros i Hi. rewrite Hin, !(proj2 (Z.eqb_neq _ _)) by lia. done. }
  rewrite E, Ec. apply cks_complete. split; [|lia].
  pose proof (word_sum_range 9 d (o + 2) Hd). change (0 < load16 d o + word_sum 9 d (o + 2)). rewrite load16_bytes.
  pose proof (Hd o). pose proof (Hd (o + 1)). lia.
Qed.

End Netsum.
