(* ===== verification/Netown.v ===== *)
(** The packet buffers of the network stack and who owns them: the operations
    of [Net.v] keep every buffer in one place. *)

From S2P Require Import Prelude Mem Net.
Import Net.

Module Netown.

(** ** Who owns a packet buffer *)

(** The code that is running, the queue of a socket, or a slot of a ring. *)
Inductive owner := Hand | InQ (si : Z) | Tx (i : nat) | Rx (i : nat).

Fixpoint lseg (mb : gmap Z mbuf) (h : Z) (q : list Z) : Prop :=
  match q with
  | [] => h = 0
  | p :: q => h = p /\ exists b, mb !! p = Some b /\ lseg mb (m_next b) q
  end.
Fixpoint chain (so : gmap Z sock) (h : Z) (l : list Z) : Prop :=
  match l with
  | [] => h = 0
  | p :: l => h = p /\ exists x, so !! p = Some x /\ chain so (s_next x) l
  end.

(** The packets [q] wait at socket [x], which is at [si]. *)
Record waiting (s : net) (own : gmap Z owner) (si : Z) (x : sock) (q : list Z) : Prop := {
  wt_seg : lseg (mbufs s) (q_head (s_rxq x)) q;
  wt_tail : q <> [] -> last q = Some (q_tail (s_rxq x));
  wt_nodup : NoDup q;
  wt_own : forall p, (p ∈ q) <-> own !! p = Some (InQ si) }.

Record ring_ok (n : e1000) (own : gmap Z owner) : Prop := {
  ri_tdt : 0 <= tdt n < TX_RING_SIZE;
  ri_ring : length (tx_ring n) = 16%nat;
  ri_len : length (tx_mbufs n) = 16%nat;
  ri_tx : forall i p, tx_mbufs n !! i = Some p -> p <> 0 -> own !! p = Some (Tx i);
  ri_own : forall p i, own !! p = Some (Tx i) -> tx_mbufs n !! i = Some p }.

(** Every page has one use, every packet buffer one owner ([own]); the list of
    sockets is [l], and [Q] has the packets that wait at each. *)
Record wf (s : net) (own : gmap Z owner) (l : list Z) (Q : gmap Z (list Z)) : Prop := {
  wf_pages : NoDup (pages s);
  wf_zero : (0 ∉ pages s) /\ mbufs s !! 0 = None /\ socks s !! 0 = None;
  wf_free : forall p, p ∈ pages s -> mbufs s !! p = None /\ socks s !! p = None;
  wf_sep : forall p b, mbufs s !! p = Some b -> socks s !! p = None;
  wf_own : forall p, is_Some (own !! p) <-> is_Some (mbufs s !! p);
  wf_chain : chain (socks s) (sockets s) l;
  wf_nodup : NoDup l;
  wf_qdom : forall si, is_Some (Q !! si) <-> is_Some (socks s !! si);
  wf_queue : forall si x q, socks s !! si = Some x -> Q !! si = Some q -> waiting s own si x q;
  wf_inq : forall p si, own !! p = Some (InQ si) -> is_Some (socks s !! si);
  wf_ring : ring_ok (nic s) own }.

Lemma lseg_ext mb mb' q : forall h, (forall p b, p ∈ q -> mb !! p = Some b -> exists b', mb' !! p = Some b' /\ m_next b' = m_next b) ->
  lseg mb h q -> lseg mb' h q.
Proof.
  induction q as [|p q IH]; intros h He; [done|]. intros [-> (b & Hb & Hq)]. split; [done|].
  destruct (He p b ltac:(by left) Hb) as (b' & Hb' & En). exists b'. split; [done|]. rewrite En. apply IH; [|done]. intros p' b0 Hp. apply He. by right.
Qed.

Lemma lseg_zero mb h q : mb !! 0 = None -> lseg mb h q -> h = 0 <-> q = [].
Proof. destruct q as [|p q]; cbn; [by intros _ ->|]. intros H0 [-> (b & Hb & _)]. split; [intros ->; congruence|done]. Qed.

Lemma chain_in so l : forall h p, chain so h l -> p ∈ l -> is_Some (so !! p).
Proof.
  induction l as [|a l IH]; intros h p Hc Hp; [by apply not_elem_of_nil in Hp|]. destruct Hc as [-> (x & Hx & Hc)].
  apply elem_of_cons in Hp as [->|Hp]; [by exists x|by eapply IH].
Qed.

Lemma chain_length so l h : NoDup l -> chain so h l -> (length l <= size so)%nat.
Proof.
  intros Hd Hc. rewrite <- size_dom. rewrite <- (size_list_to_set (C := gset Z) l Hd). apply subseteq_size.
  intros p Hp%elem_of_list_to_set. apply elem_of_dom. by eapply chain_in.
Qed.

(** A buffer at hand may be changed in any way. *)
Definition upm (m : Z) (b : mbuf) (s : net) : net := set_mbufs (<[m := b]> (mbufs s)) s.

Lemma upm_upm m b b' s : upm m b' (upm m b s) = upm m b' s.
Proof. unfold upm, set_mbufs. cbn. by rewrite insert_insert_eq. Qed.
Lemma upm_self m b s : mbufs s !! m = Some b -> upm m b s = s.
Proof. intros H. unfold upm, set_mbufs. rewrite insert_id by done. by destruct s. Qed.
Lemma upm_at m b s : mbufs (upm m b s) !! m = Some b.
Proof. apply lookup_insert_eq. Qed.

Lemma wf_at s own l Q m o : wf s own l Q -> own !! m = Some o -> exists b, mbufs s !! m = Some b.
Proof. intros Hw Ho. destruct (proj1 (wf_own _ _ _ _ Hw m) ltac:(by eexists)) as [b Hb]. by exists b. Qed.

Lemma waiting_upm s own si x q m b : waiting s own si x q -> own !! m = Some Hand -> waiting (upm m b s) own si x q.
Proof.
  intros [W1 W2 W3 W4] Hm. split; try done. eapply lseg_ext; [|exact W1]. intros p b' Hp Hb'. exists b'. split; [|done].
  cbn. rewrite lookup_insert_ne; [done|]. intros ->. apply W4 in Hp. congruence.
Qed.

Lemma wf_upm s own l Q m b : wf s own l Q -> own !! m = Some Hand -> wf (upm m b s) own l Q.
Proof.
  intros Hw Hm. destruct (wf_at _ _ _ _ _ _ Hw Hm) as [b0 Hb0]. destruct Hw as [W1 (Wz & W2 & Wz2) W3 W4 W5 W6 W7 W8 W9 W10 W11].
  assert (E : forall p, is_Some (<[m := b]> (mbufs s) !! p) <-> is_Some (mbufs s !! p)).
  { intros p. destruct (decide (p = m)) as [->|Hne]; [|by rewrite lookup_insert_ne]. rewrite lookup_insert_eq, Hb0. split; by eexists. }
  assert (N : forall p, mbufs s !! p = None -> <[m := b]> (mbufs s) !! p = None).
  { intros p Hp. apply eq_None_not_Some. rewrite E, Hp. by intros [? ?]. }
  split; cbn; try done.
  - split_and!; [done|by apply N|done].
  - intros p Hp. destruct (W3 p Hp). split; [by apply N|done].
  - intros p b' Hb'. destruct (proj1 (E p) ltac:(by eexists)) as [b1 Hb1]. by eapply W4.
  - intros p. by rewrite W5, E.
  - intros si x q Hx Hq. apply waiting_upm; [by apply W9|done].
Qed.

(** ** The operations *)

Lemma getm_run s m b : mbufs s !! m = Some b -> getm m s = Ret b s.
Proof. intros H. unfold getm. by rewrite H. Qed.
Lemma gets_run s p x : socks s !! p = Some x -> gets_ p s = Ret x s.
Proof. intros H. unfold gets_. by rewrite H. Qed.

Lemma in_buf_true off n : 0 <= off -> off + n <= MBUF_SIZE -> in_buf off n = true.
Proof. intros H1 H2. unfold in_buf. by rewrite (proj2 (Z.leb_le _ _)), (proj2 (Z.leb_le _ _)). Qed.

Lemma rd_run s m b off n : mbufs s !! m = Some b -> 0 <= off -> off + n <= MBUF_SIZE -> rd m off n s = Ret (Mem.bytes (Z.to_nat n) (m_buf b) off) s.
Proof. intros Hb H1 H2. unfold rd. by rewrite (bind_Ret _ _ _ _ _ (getm_run _ _ _ Hb)), in_buf_true. Qed.
Lemma wr_run s m b off bs : mbufs s !! m = Some b -> 0 <= off -> off + alen bs <= MBUF_SIZE ->
  wr m off bs s = Ret tt (upm m (set_buf (put_bytes (m_buf b) off bs) b) s).
Proof. intros Hb H1 H2. unfold wr. by rewrite (bind_Ret _ _ _ _ _ (getm_run _ _ _ Hb)), in_buf_true. Qed.
(** Once more to a buffer that has been written. *)
Lemma wr_upm s m b off bs : 0 <= off -> off + alen bs <= MBUF_SIZE ->
  wr m off bs (upm m b s) = Ret tt (upm m (set_buf (put_bytes (m_buf b) off bs) b) s).
Proof. intros H1 H2. rewrite (wr_run _ _ b) by (done || apply upm_at). by rewrite upm_upm. Qed.

Lemma pull_run s m b len : mbufs s !! m = Some b ->
  mbufpull m len s = if m_len b <? len then Ret None s else Ret (Some (m_head b)) (upm m (set_span (m_head b + len) (m_len b - len) b) s).
Proof. intros Hb. unfold mbufpull. rewrite (bind_Ret _ _ _ _ _ (getm_run _ _ _ Hb)). by destruct (_ <? _). Qed.
Lemma push_run s m b len : mbufs s !! m = Some b -> len <= m_head b -> 0 <= m_len b + len < 2 ^ 32 ->
  mbufpush m len s = Ret (m_head b - len) (upm m (set_span (m_head b - len) (m_len b + len) b) s).
Proof.
  intros Hb Hh Hl. unfold mbufpush. rewrite (bind_Ret _ _ _ _ _ (getm_run _ _ _ Hb)).
  rewrite (proj2 (Z.ltb_ge _ _)), u32_small by lia. done.
Qed.
Lemma put_run s m b len : mbufs s !! m = Some b -> 0 <= m_len b + len <= MBUF_SIZE ->
  mbufput m len s = Ret (m_head b + m_len b) (upm m (set_span (m_head b) (m_len b + len) b) s).
Proof.
  intros Hb Hl. unfold mbufput, MBUF_SIZE in *. rewrite (bind_Ret _ _ _ _ _ (getm_run _ _ _ Hb)). cbv zeta.
  rewrite u32_small by lia. rewrite (proj2 (Z.ltb_ge _ _)) by lia. done.
Qed.

(** Owners other than the running code stay. *)
Definition same_owned (own own' : gmap Z owner) : Prop := forall p o, o <> Hand -> own' !! p = Some o <-> own !! p = Some o.

Lemma waiting_same s s' own own' si x q : (forall p, own' !! p = Some (InQ si) <-> own !! p = Some (InQ si)) ->
  (forall p b, own !! p = Some (InQ si) -> mbufs s !! p = Some b -> mbufs s' !! p = Some b) -> waiting s own si x q -> waiting s' own' si x q.
Proof.
  intros Ho Hb [W1 W2 W3 W4]. split; try done.
  - eapply lseg_ext; [|exact W1]. intros p b Hp Hpb. exists b. split; [|done]. apply Hb; [by apply W4|done].
  - intros p. by rewrite W4, Ho.
Qed.
Lemma ring_same n own own' : same_owned own own' -> ring_ok n own -> ring_ok n own'.
Proof.
  intros Ho [R1 R2 R3 R4 R5]. split; try done.
  - intros i p Hi Hp. apply Ho; [done|]. by apply R4.
  - intros p i Hp%Ho; [|done]. by apply R5.
Qed.

(** Freeing a buffer at hand. *)
Lemma kfree_run s own l Q m : wf s own l Q -> own !! m = Some Hand ->
  exists s', kfree m s = Ret tt s' /\ wf s' (delete m own) l Q /\ nic s' = nic s /\ socks s' = socks s /\ sockets s' = sockets s /\ pages s' = m :: pages s.
Proof.
  intros Hw Hm. destruct (wf_at _ _ _ _ _ _ Hw Hm) as [b Hb]. destruct Hw as [W1 (Wz & W2 & Wz2) W3 W4 W5 W6 W7 W8 W9 W10 W11].
  pose proof (W4 m b Hb) as Hs. unfold kfree. rewrite bool_decide_true by (apply elem_of_union; left; by apply elem_of_dom_2 in Hb).
  eexists. split; [reflexivity|]. rewrite (delete_id (socks s)) by done.
  assert (D : same_owned own (delete m own)).
  { intros p o Ho. rewrite lookup_delete_Some. split; [by intros [_ ?]|]. intros Hp. split; [|done]. intros ->. congruence. }
  split_and!; try done. split; cbn; try done.
  - apply NoDup_cons. split; [|done]. intros Hin. destruct (W3 m Hin). congruence.
  - split_and!; [|by rewrite lookup_delete_None; right|done]. intros [<-|?]%elem_of_cons; [congruence|done].
  - intros p [->|Hp]%elem_of_cons; [by rewrite lookup_delete_eq|]. destruct (W3 p Hp). split; [by rewrite lookup_delete_None; right|done].
  - intros p b' [_ Hb']%lookup_delete_Some. by eapply W4.
  - intros p. destruct (decide (p = m)) as [->|Hne]; [by rewrite !lookup_delete_eq; split; intros [? ?]|]. rewrite !lookup_delete_ne by done. apply W5.
  - intros si x q Hx Hq. apply (waiting_same s _ own); [by intros p; apply D| |by apply W9]. intros p b' Hp Hb'. cbn. rewrite lookup_delete_ne; [done|]. intros <-. congruence.
  - intros p si Hp%D; [|done]. by apply W10 in Hp.
  - by apply (ring_same _ own).
Qed.

(** A page that is fresh becomes a buffer at hand. *)
Lemma mbufalloc_run s own l Q hr : wf s own l Q -> hr <= MBUF_SIZE ->
  mbufalloc hr s = Ret 0 s /\ pages s = [] \/
  exists m s' pg, mbufalloc hr s = Ret m s' /\ m <> 0 /\ own !! m = None /\ wf s' (<[m := Hand]> own) l Q /\ pages s = m :: pg /\
    s' = upm m (mk_mbuf 0 hr 0 (fun _ => 0)) (set_pages pg s).
Proof.
  intros [W1 (Wz & W2 & Wz2) W3 W4 W5 W6 W7 W8 W9 W10 W11] Hh. unfold mbufalloc. rewrite (proj2 (Z.ltb_ge _ _)) by done.
  unfold bind, kalloc. destruct (pages s) as [|m pg] eqn:E; [by left|right]. cbv beta iota.
  assert (Hm0 : m <> 0) by (intros ->; apply Wz; by left). destruct (W3 m ltac:(by left)) as [Hm Hsm].
  assert (Ho : own !! m = None) by (apply eq_None_not_Some; rewrite W5, Hm; by intros [? ?]).
  apply NoDup_cons in W1 as [Hmp W1].
  assert (D : same_owned own (<[m := Hand]> own)).
  { intros p o Ho'. destruct (decide (p = m)) as [->|Hne]; [|by rewrite lookup_insert_ne]. rewrite lookup_insert_eq, Ho. split; [by intros [= <-]|done]. }
  exists m, (upm m (mk_mbuf 0 hr 0 (fun _ => 0)) (set_pages pg s)), pg. rewrite (proj2 (Z.eqb_neq m 0)) by done. split_and!; try done. split; cbn; try done.
  - split_and!; [intros Hin; apply Wz; by right|by rewrite lookup_insert_ne|done].
  - intros p Hp. destruct (W3 p ltac:(by right)). rewrite lookup_insert_ne; [done|]. by intros ->.
  - intros p b [[<- _]|[_ Hb]]%lookup_insert_Some; [done|by eapply W4].
  - intros p. destruct (decide (p = m)) as [->|Hne]; [by rewrite !lookup_insert_eq|]. rewrite !lookup_insert_ne by done. apply W5.
  - intros si x q Hx Hq. apply (waiting_same s _ own); [by intros p; apply D| |by apply W9]. intros p b' Hp Hb'. cbn. rewrite lookup_insert_ne; [done|]. congruence.
  - intros p si Hp%D; [|done]. by apply W10 in Hp.
  - by apply (ring_same _ own).
Qed.

(** Between the running code and a slot of the ring. *)
Lemma wf_moved s own l Q m o n : wf s own l Q -> is_Some (own !! m) -> (forall si, own !! m <> Some (InQ si)) -> (forall si, o <> InQ si) ->
  ring_ok n (<[m := o]> own) -> wf (set_nic n s) (<[m := o]> own) l Q.
Proof.
  intros [W1 W2 W3 W4 W5 W6 W7 W8 W9 W10 W11] Hm Hq Ho Hr.
  assert (D : forall p si, <[m := o]> own !! p = Some (InQ si) <-> own !! p = Some (InQ si)).
  { intros p si. destruct (decide (p = m)) as [->|Hne]; [|by rewrite lookup_insert_ne]. rewrite lookup_insert_eq. split; [|by intros ?%Hq]. intros [= E]. by apply Ho in E. }
  split; cbn; try done.
  - intros p. destruct (decide (p = m)) as [->|Hne]; [|by rewrite lookup_insert_ne]. rewrite lookup_insert_eq, <- W5. split; [done|by eexists].
  - intros si x q Hx Hsq. apply (waiting_same s _ own); [by intros p; apply D|done|by apply W9].
  - intros p si Hp%D. by apply W10 in Hp.
Qed.

Definition set_tx (i : Z) (d : tx_desc) (m t : Z) (n : e1000) : e1000 :=
  mk_e1000 t (aset (tx_ring n) i d) (aset (tx_mbufs n) i m) (rdt n) (rx_ring n) (rx_mbufs n).

Lemma ring_take n own p d : ring_ok n own -> aget (tx_mbufs n) (tdt n) = Some p -> p <> 0 -> ring_ok (set_tx (tdt n) d 0 (tdt n) n) (<[p := Hand]> own).
Proof.
  intros [R1 R2 R3 R4 R5] Hp Hp0. rewrite <- (Z2Nat.id (tdt n)) in Hp |- * by lia. rewrite aget_of_nat in Hp. set (i := Z.to_nat (tdt n)) in *.
  pose proof (lookup_lt_Some _ _ _ Hp) as Hi. unfold set_tx. rewrite !aset_of_nat. split; cbn [tdt tx_ring tx_mbufs]; rewrite ?length_insert; [lia|done|done| |].
  - intros j p' Hj Hp'. apply list_lookup_insert_Some in Hj as [(_ & <- & _)|[Hne Hj]]; [done|].
    rewrite lookup_insert_ne; [by apply R4|]. intros ->. pose proof (R4 _ _ Hj Hp'). pose proof (R4 _ _ Hp Hp'). congruence.
  - intros p' j [[<- ?]|[Hne Hp']]%lookup_insert_Some; [done|]. apply R5 in Hp'. rewrite list_lookup_insert_ne; [done|]. intros ->. congruence.
Qed.

Lemma ring_give n own m d t : ring_ok n own -> aget (tx_mbufs n) (tdt n) = Some 0 -> own !! m = Some Hand -> own !! 0 = None -> 0 <= t < TX_RING_SIZE ->
  ring_ok (set_tx (tdt n) d m t n) (<[m := Tx (Z.to_nat (tdt n))]> own).
Proof.
  intros [R1 R2 R3 R4 R5] Hp Hm H0 Ht. rewrite <- (Z2Nat.id (tdt n)) in Hp |- * at 1 by lia. rewrite aget_of_nat in Hp. set (i := Z.to_nat (tdt n)) in *.
  pose proof (lookup_lt_Some _ _ _ Hp) as Hi. unfold set_tx. rewrite !aset_of_nat. split; cbn [tdt tx_ring tx_mbufs]; rewrite ?length_insert; [done|done|done| |].
  - intros j p' Hj Hp'. apply list_lookup_insert_Some in Hj as [(<- & <- & _)|[Hne Hj]]; [by rewrite lookup_insert_eq|].
    rewrite lookup_insert_ne; [by apply R4|]. intros <-. pose proof (R4 _ _ Hj Hp'). congruence.
  - intros p' j [[<- [= <-]]|[Hne Hp']]%lookup_insert_Some; [by rewrite list_lookup_insert_eq|]. pose proof (R5 _ _ Hp') as Hj. rewrite list_lookup_insert_ne; [done|].
    intros ->. rewrite Hp in Hj. injection Hj as <-. congruence.
Qed.

(** The buffer [m] has left the hands of the running code. *)
Record left (m : Z) (own own' : gmap Z owner) : Prop := {
  lf_hand : forall p, own' !! p = Some Hand <-> own !! p = Some Hand /\ p <> m;
  lf_rx : forall p i, own !! p = Some (Rx i) -> own' !! p = Some (Rx i) }.
Definition same_rx (n n' : e1000) : Prop := rdt n' = rdt n /\ rx_ring n' = rx_ring n /\ rx_mbufs n' = rx_mbufs n.
(** The sockets and the receive ring are as before. *)
Definition same_rest (s s' : net) : Prop := socks s' = socks s /\ sockets s' = sockets s /\ same_rx (nic s) (nic s').

Lemma left_delete m own : own !! m = Some Hand -> left m own (delete m own).
Proof.
  intros Hm. split.
  - intros p. rewrite lookup_delete_Some. naive_solver.
  - intros p i Hp. rewrite lookup_delete_ne; [done|]. intros <-. congruence.
Qed.

Lemma kfree_nic p s s' n : kfree p (set_nic n s) = Ret tt s' -> kfree p s = Ret tt (set_nic (nic s) s').
Proof. unfold kfree. cbn. destruct (bool_decide _); [|done]. by intros [= <-]. Qed.

(** The slot that [tdt] names is emptied. *)
Lemma clear_slot s own l Q old : wf s own l Q -> aget (tx_mbufs (nic s)) (tdt (nic s)) = Some old ->
  exists s' own' d, when (negb (old =? 0)) (mbuffree old) s = Ret tt s' /\ nic s' = nic s /\ socks s' = socks s /\ sockets s' = sockets s /\
    (forall p, p <> old -> mbufs s' !! p = mbufs s !! p) /\ (forall p, p <> old -> own' !! p = own !! p) /\ (old <> 0 -> own' !! old = None) /\
    wf (set_nic (set_tx (tdt (nic s)) d 0 (tdt (nic s)) (nic s)) s') own' l Q.
Proof.
  intros Hw Hold. pose proof (wf_ring _ _ _ _ Hw) as HR. pose proof HR as [R1 R2 R3 R4 R5]. set (n := nic s) in *.
  assert (Hd : exists d, aget (tx_ring n) (tdt n) = Some d) by (apply aget_is_Some; unfold alen; rewrite R2; done). destruct Hd as [d Hd].
  assert (Hi : aset (tx_ring n) (tdt n) d = tx_ring n).
  { rewrite <- (Z2Nat.id (tdt n)) in Hd |- * by lia. rewrite aget_of_nat in Hd. by rewrite aset_of_nat, list_insert_id. }
  assert (Hoi : own !! old = Some (Tx (Z.to_nat (tdt n))) \/ old = 0).
  { destruct (decide (old = 0)); [by right|left]. apply R4; [|done]. rewrite <- aget_of_nat, Z2Nat.id by lia. done. }
  destruct (Z.eqb_spec old 0) as [->|Hne]; cbn [negb when].
  - exists s, own, d. split_and!; try done. assert (E : set_tx (tdt n) d 0 (tdt n) n = n).
    { unfold set_tx. rewrite Hi. rewrite <- (Z2Nat.id (tdt n)) in Hold |- * at 2 by lia. rewrite aget_of_nat in Hold. rewrite aset_of_nat, list_insert_id by done. by destruct n. }
    rewrite E. unfold n, set_nic. by destruct s.
  - destruct Hoi as [Ho|]; [|done]. pose proof (ring_take n own old d HR Hold Hne) as HR'.
    pose proof (wf_moved s own l Q old Hand _ Hw ltac:(by rewrite Ho; eexists) ltac:(by rewrite Ho) ltac:(done) HR') as Hw1.
    destruct (kfree_run _ _ _ _ old Hw1 (lookup_insert_eq _ _ _)) as (s1 & K & Hw2 & E1 & E2 & E3 & E4). rewrite delete_insert_eq in Hw2.
    pose proof (kfree_nic _ _ _ _ K) as K'. exists (set_nic n s1), (delete old own), d. unfold mbuffree. split_and!; try done.
    + intros p Hp. unfold kfree in K. cbn in K. destruct (bool_decide _); [|done]. injection K as <-. cbn. by rewrite lookup_delete_ne.
    + intros p Hp. by rewrite lookup_delete_ne.
    + intros _. by rewrite lookup_delete_eq.
    + unfold set_nic in *. cbn in *. rewrite <- E1. by destruct s1.
Qed.

Lemma own_zero s own l Q : wf s own l Q -> own !! 0 = None.
Proof.
  intros Hw. apply eq_None_not_Some. rewrite (wf_own _ _ _ _ Hw). destruct (wf_zero _ _ _ _ Hw) as (_ & Hz & _). rewrite Hz. by intros [? ?].
Qed.

(** The slot's old buffer is gone and [m] is in it. *)
Lemma left_slot m old i own own1 : own !! m = Some Hand -> own !! old = Some (Tx i) \/ own !! old = None -> (forall p, p <> old -> own1 !! p = own !! p) ->
  own1 !! old = None -> left m own (<[m := Tx i]> own1).
Proof.
  intros Hm Ho E1 E2. assert (Hne : m <> old) by (intros <-; destruct Ho; congruence). split.
  - intros p. destruct (decide (p = m)) as [->|Hpm]; [rewrite lookup_insert_eq; naive_solver|]. rewrite lookup_insert_ne by done.
    destruct (decide (p = old)) as [->|Hpo]; [|rewrite E1 by done; naive_solver]. rewrite E2. destruct Ho; naive_solver.
  - intros p j Hp. rewrite lookup_insert_ne by congruence. rewrite E1; [done|]. intros ->. destruct Ho; congruence.
Qed.

Definition taken (m : Z) (b : mbuf) (desc : tx_desc) : tx_desc := mk_txd (m, m_head b) (u16 (m_len b)) 9 (td_status desc).

Lemma transmit_eq s m b desc old s1 : aget (tx_ring (nic s)) (tdt (nic s)) = Some desc -> aget (tx_mbufs (nic s)) (tdt (nic s)) = Some old ->
  when (negb (old =? 0)) (mbuffree old) s = Ret tt s1 -> mbufs s1 !! m = Some b ->
  e1000_transmit m s = if Z.land (td_status desc) E1000_TXD_STAT_DD =? 0 then Ret (-1) s
    else Ret 0 (set_nic (set_tx (tdt (nic s)) (taken m b desc) m (u32 (tdt (nic s) + 1) mod TX_RING_SIZE) (nic s)) s1).
Proof.
  intros Hd Ho K Hb. unfold e1000_transmit, bind at 1, gets at 1. rewrite (bind_Ret (deref _) _ s desc s) by (by rewrite Hd).
  destruct (Z.land _ _ =? 0); [done|]. rewrite (bind_Ret (deref _) _ s old s) by (by rewrite Ho). rewrite (bind_Ret _ _ _ _ _ K).
  by rewrite (bind_Ret _ _ _ _ _ (getm_run s1 m b Hb)).
Qed.

(** [e1000_transmit] refuses the buffer, or the slot at [tdt] takes it. *)
Lemma transmit_run s own l Q m b : wf s own l Q -> own !! m = Some Hand -> mbufs s !! m = Some b ->
  exists desc, aget (tx_ring (nic s)) (tdt (nic s)) = Some desc /\
  if Z.land (td_status desc) E1000_TXD_STAT_DD =? 0 then e1000_transmit m s = Ret (-1) s
  else exists s' own', e1000_transmit m s = Ret 0 s' /\ wf s' own' l Q /\ left m own own' /\ same_rest s s' /\ mbufs s' !! m = Some b /\
    aget (tx_ring (nic s')) (tdt (nic s)) = Some (taken m b desc) /\ own' !! m = Some (Tx (Z.to_nat (tdt (nic s)))).
Proof.
  intros Hw Hm Hb. pose proof (wf_ring _ _ _ _ Hw) as [R1 R2 R3 R4 R5]. set (n := nic s) in *.
  assert (Hd : exists d, aget (tx_ring n) (tdt n) = Some d) by (apply aget_is_Some; unfold alen; rewrite R2; done). destruct Hd as [desc Hd].
  assert (Ho : exists o, aget (tx_mbufs n) (tdt n) = Some o) by (apply aget_is_Some; unfold alen; rewrite R3; done). destruct Ho as [old Hold].
  assert (Ho : own !! old = Some (Tx (Z.to_nat (tdt n))) \/ own !! old = None).
  { destruct (decide (old = 0)) as [->|Hne]; [right; by eapply own_zero|left]. apply R4; [|done]. rewrite <- aget_of_nat, Z2Nat.id by lia. done. }
  destruct (clear_slot s own l Q old Hw Hold) as (s1 & own1 & d0 & K & E1 & E2 & E3 & E4 & E5 & E6 & Hw1). fold n in Hw1.
  assert (Hmo : m <> old) by (intros <-; destruct Ho; congruence).
  pose proof (transmit_eq s m b desc old s1 Hd Hold K ltac:(by rewrite E4)) as R. fold n in R. exists desc. split; [done|]. destruct (Z.land _ _ =? 0); [done|].
  eexists _, (<[m := Tx (Z.to_nat (tdt n))]> own1). split; [exact R|].
  set (t := u32 (tdt n + 1) mod TX_RING_SIZE). assert (Ht : 0 <= t < TX_RING_SIZE) by (apply Z.mod_pos_bound; done).
  assert (Hm1 : own1 !! m = Some Hand) by (by rewrite E5). set (nn := set_tx (tdt n) d0 0 (tdt n) n) in *.
  assert (En : set_tx (tdt n) (taken m b desc) m t n = set_tx (tdt nn) (taken m b desc) m t nn).
  { unfold nn, set_tx. cbn. f_equal; rewrite <- (Z2Nat.id (tdt n)) by lia; rewrite !aset_of_nat, list_insert_insert_eq; done. }
  assert (Ho1 : own1 !! old = None).
  { destruct (decide (old = 0)) as [->|]; [by apply (own_zero _ _ _ _ Hw1)|by apply E6]. }
  split_and!; try done.
  - rewrite En. change (set_nic ?x s1) with (set_nic x (set_nic nn s1)). apply (wf_moved _ own1); [done|by rewrite Hm1; eexists|by rewrite Hm1|done|].
    change (tdt n) with (tdt nn). apply ring_give; [apply (wf_ring _ _ _ _ Hw1)| |done|by apply (own_zero _ _ _ _ Hw1)|done].
    cbn. rewrite aget_aset_eq; [done|]. unfold alen. rewrite R3. done.
  - by apply (left_slot m old).
  - cbn. by rewrite E4.
  - cbn. rewrite aget_aset_eq; [done|]. unfold alen. rewrite R2. done.
  - by rewrite lookup_insert_eq.
Qed.

(** ** The queue of a socket *)

Lemma lseg_snoc mb m q : forall h t tb b, lseg mb h q -> last q = Some t -> mb !! t = Some tb -> NoDup q -> m ∉ q -> mb !! m = Some b -> m_next b = 0 ->
  lseg (<[t := set_next m tb]> mb) h (q ++ [m]).
Proof.
  induction q as [|p q IH]; intros h t tb b Hq Ht Htb Hd Hm Hb Hn; [done|]. destruct Hq as [-> (pb & Hpb & Hq)].
  apply NoDup_cons in Hd as [Hp Hd]. apply not_elem_of_cons in Hm as [Hmp Hm]. split; [done|]. destruct q as [|p' q].
  - injection Ht as <-. exists (set_next m tb). rewrite lookup_insert_eq. split; [done|]. split; [done|]. exists b. by rewrite lookup_insert_ne.
  - change (last (p' :: q) = Some t) in Ht. exists pb. rewrite lookup_insert_ne; [split; [done|by eapply IH]|]. intros <-. by apply Hp, last_elem.
Qed.

Lemma chain_ext so so' l : forall h, (forall p x, p ∈ l -> so !! p = Some x -> exists x', so' !! p = Some x' /\ s_next x' = s_next x) -> chain so h l -> chain so' h l.
Proof.
  induction l as [|p l IH]; intros h He; [done|]. intros [-> (x & Hx & Hl)]. split; [done|].
  destruct (He p x ltac:(by left) Hx) as (x' & Hx' & En). exists x'. split; [done|]. rewrite En. apply IH; [|done]. intros p' x0 Hp. apply He. by right.
Qed.

(** A buffer at hand goes to the end of the queue [q] of socket [si]; [mb'] has
    the links set and nothing else changed. *)
Definition relinked (mb mb' : gmap Z mbuf) (only : Z -> Prop) : Prop :=
  forall p, (~ only p -> mb' !! p = mb !! p) /\ forall b, mb !! p = Some b -> exists b', mb' !! p = Some b' /\ b' = set_next (m_next b') b.

Lemma wf_enqueue s own l Q m si x q t mb' : wf s own l Q -> own !! m = Some Hand -> socks s !! si = Some x -> Q !! si = Some q ->
  relinked (mbufs s) mb' (fun p => p = m \/ p ∈ q) -> lseg mb' t (q ++ [m]) ->
  wf (mk_net (pages s) mb' (<[si := set_rxq (mk_mbufq t m) x]> (socks s)) (sockets s) (nic s)) (<[m := InQ si]> own) l (<[si := q ++ [m]]> Q).
Proof.
  intros [W1 (Wz & W2 & Wz2) W3 W4 W5 W6 W7 W8 W9 W10 W11] Hm Hx Hq Hmb Hseg. pose proof (W9 si x q Hx Hq) as [Q1 Q2 Q3 Q4].
  assert (Hmq : m ∉ q) by (intros ?%Q4; congruence).
  assert (E : forall p, is_Some (mb' !! p) <-> is_Some (mbufs s !! p)).
  { intros p. destruct (Hmb p) as [A B]. split; [|intros [b Hb]; destruct (B b Hb) as (b' & -> & _); by eexists].
    intros Hp. destruct (mbufs s !! p) as [b|] eqn:Eb; [by eexists|]. rewrite A in Hp; [by destruct Hp|]. intros [->|Hin].
    - destruct (proj1 (W5 m) ltac:(by eexists)). congruence.
    - apply Q4 in Hin. destruct (proj1 (W5 p) ltac:(by eexists)). congruence. }
  assert (N : forall p, mbufs s !! p = None -> mb' !! p = None) by (intros p Hp; apply eq_None_not_Some; rewrite E, Hp; by intros [? ?]).
  assert (S : forall p, is_Some (<[si := set_rxq (mk_mbufq t m) x]> (socks s) !! p) <-> is_Some (socks s !! p)).
  { intros p. destruct (decide (p = si)) as [->|]; [|by rewrite lookup_insert_ne]. rewrite lookup_insert_eq, Hx. split; by eexists. }
  assert (NS : forall p, socks s !! p = None -> <[si := set_rxq (mk_mbufq t m) x]> (socks s) !! p = None) by (intros p Hp; apply eq_None_not_Some; rewrite S, Hp; by intros [? ?]).
  split; cbn; try done.
  - split_and!; [done|by apply N|by apply NS].
  - intros p [Hp1 Hp2]%W3. split; [by apply N|by apply NS].
  - intros p b Hb. apply NS. destruct (proj1 (E p) ltac:(by eexists)) as [b0 Hb0]. by eapply W4.
  - intros p. rewrite E, <- W5. destruct (decide (p = m)) as [->|]; [|by rewrite lookup_insert_ne]. rewrite lookup_insert_eq, Hm. split; by eexists.
  - eapply chain_ext; [|exact W6]. intros p x0 _ Hx0. destruct (decide (p = si)) as [->|]; [|rewrite lookup_insert_ne by done; by exists x0].
    rewrite lookup_insert_eq. eexists. split; [done|]. cbn. congruence.
  - intros p. rewrite S, <- W8. destruct (decide (p = si)) as [->|]; [|by rewrite lookup_insert_ne]. rewrite lookup_insert_eq, Hq. split; by eexists.
  - intros p x0 q0 Hx0 Hq0. destruct (decide (p = si)) as [->|Hne].
    + rewrite lookup_insert_eq in Hx0. rewrite lookup_insert_eq in Hq0. injection Hx0 as <-. injection Hq0 as <-. split; cbn; [done|intros _; apply last_snoc| |].
      * apply NoDup_app. split_and!; [done| |apply NoDup_singleton]. by intros p Hp ->%list_elem_of_singleton.
      * intros p. rewrite elem_of_app, Q4, list_elem_of_singleton. destruct (decide (p = m)) as [->|Hpm]; [rewrite lookup_insert_eq; naive_solver|].
        rewrite lookup_insert_ne by done. naive_solver.
    + rewrite lookup_insert_ne in Hx0 by done. rewrite lookup_insert_ne in Hq0 by done. apply (waiting_same s _ own); [| |by apply W9].
      * intros p0. destruct (decide (p0 = m)) as [->|Hpm]; [rewrite lookup_insert_eq, Hm; naive_solver|by rewrite lookup_insert_ne].
      * intros p0 b Ho Hb. cbn. rewrite (proj1 (Hmb p0)); [done|]. intros [->|?%Q4]; congruence.
  - intros p si' [[<- [= <-]]|[_ Hp]]%lookup_insert_Some; apply S; [by rewrite Hx; eexists|by eapply W10].
  - destruct W11 as [R1 R2 R3 R4 R5]. split; try done.
    + intros i p Hi Hp. rewrite lookup_insert_ne; [by apply R4|]. intros <-. specialize (R4 i m Hi Hp). congruence.
    + intros p i [[_ ?]|[_ Hp]]%lookup_insert_Some; [done|by apply R5].
Qed.

Lemma pushtail_run s own l Q m b si x q : wf s own l Q -> own !! m = Some Hand -> mbufs s !! m = Some b -> socks s !! si = Some x -> Q !! si = Some q ->
  exists s', mbufq_pushtail si m s = Ret tt s' /\ wf s' (<[m := InQ si]> own) l (<[si := q ++ [m]]> Q) /\ nic s' = nic s /\ pages s' = pages s /\
    mbufs s' !! m = Some (set_next 0 b).
Proof.
  intros Hw Hm Hb Hx Hq. pose proof (wf_queue _ _ _ _ Hw si x q Hx Hq) as [Q1 Q2 Q3 Q4]. destruct (wf_zero _ _ _ _ Hw) as (_ & Hz & _).
  assert (Hmq : m ∉ q) by (intros ?%Q4; congruence). pose proof (lseg_zero _ _ _ Hz Q1) as He.
  unfold mbufq_pushtail. rewrite (bind_Ret _ _ _ _ _ (getm_run _ _ _ Hb)). unfold bind at 1, putm, modify. fold (upm m (set_next 0 b) s).
  rewrite (bind_Ret _ _ _ _ _ (gets_run (upm m (set_next 0 b) s) si x Hx)). destruct (Z.eqb_spec (q_head (s_rxq x)) 0) as [E0|E0].
  - assert (q = []) as -> by (by apply He). eexists. split; [reflexivity|]. split_and!; try done; [|apply lookup_insert_eq].
    apply (wf_enqueue s own l Q m si x [] m); try done; [|split; [done|]; eexists; split; [apply lookup_insert_eq|done]].
    intros p. cbn. split; [intros Hp; rewrite lookup_insert_ne; [done|]; intros <-; apply Hp; by left|]. intros b0 Hb0. destruct (decide (p = m)) as [->|Hne].
    + rewrite lookup_insert_eq. eexists. split; [done|]. cbn. congruence.
    + rewrite lookup_insert_ne by done. exists b0. by destruct b0.
  - assert (Hne : q <> []) by (intros E; by apply E0, He). specialize (Q2 Hne). set (t := q_tail (s_rxq x)) in *.
    pose proof (last_elem _ _ Q2) as Htq. pose proof (proj1 (Q4 t) Htq) as Hto. destruct (wf_at _ _ _ _ _ _ Hw Hto) as [tb Htb].
    assert (Htm : t <> m) by (intros ->; done).
    rewrite (bind_Ret _ _ _ _ _ (getm_run (upm m (set_next 0 b) s) t tb ltac:(cbn; by rewrite lookup_insert_ne))). unfold bind, puts_, modify. eexists.
    split; [reflexivity|]. split_and!; try done; [|cbn; rewrite lookup_insert_ne by done; apply lookup_insert_eq].
    apply (wf_enqueue s own l Q m si x q (q_head (s_rxq x))); try done.
    + intros p. cbn. split; [intros Hp; rewrite !lookup_insert_ne; [done| |]; intros <-; apply Hp; [by left|by right]|]. intros b0 Hb0. destruct (decide (p = t)) as [->|Hpt].
      * rewrite lookup_insert_eq. eexists. split; [done|]. cbn. congruence.
      * rewrite lookup_insert_ne by done. destruct (decide (p = m)) as [->|Hpm]; [rewrite lookup_insert_eq; eexists; split; [done|]; cbn; congruence|].
        rewrite lookup_insert_ne by done. exists b0. by destruct b0.
    + eapply lseg_snoc; [|done|cbn; by rewrite lookup_insert_ne|done|done|cbn; apply lookup_insert_eq|done].
      eapply lseg_ext; [|exact Q1]. intros p b0 Hp Hb0. exists b0. cbn. rewrite lookup_insert_ne; [done|]. by intros <-.
Qed.

(** The first socket of the list with these addresses. *)
Definition matching (x : sock) (raddr lport rport : Z) : bool := (s_raddr x =? raddr) && (s_lport x =? lport) && (s_rport x =? rport).

Lemma find_sock_run s raddr lport rport l : forall h fuel, chain (socks s) h l -> socks s !! 0 = None -> (length l < fuel)%nat ->
  exists si, find_sock fuel h raddr lport rport s = Ret si s /\
    (si = 0 /\ (forall p x, p ∈ l -> socks s !! p = Some x -> matching x raddr lport rport = false) \/
     exists l1 l2 x, l = l1 ++ si :: l2 /\ socks s !! si = Some x /\ matching x raddr lport rport = true /\
       forall p y, p ∈ l1 -> socks s !! p = Some y -> matching y raddr lport rport = false).
Proof.
  induction l as [|p l IH]; intros h [|fuel] Hc H0 Hf; cbn [length] in Hf; try lia; cbn [find_sock chain] in *.
  - subst h. exists 0. split; [done|]. left. split; [done|]. by intros ? ? ?%not_elem_of_nil.
  - destruct Hc as [-> (x & Hx & Hc)]. assert (Hp : p <> 0) by congruence. rewrite (proj2 (Z.eqb_neq p 0)) by done.
    rewrite (bind_Ret _ _ _ _ _ (gets_run _ _ _ Hx)). destruct (matching x raddr lport rport) eqn:E; unfold matching in E; rewrite E.
    + exists p. split; [done|]. right. exists [], l, x. split_and!; try done. by intros ? ? ?%not_elem_of_nil.
    + destruct (IH (s_next x) fuel Hc H0 ltac:(lia)) as (si & R & Hsi). exists si. split; [done|]. destruct Hsi as [[-> Hno]|(l1 & l2 & y & -> & Hy & Hm & Hno)]; [left|right].
      * split; [done|]. intros p' y [->|Hp']%elem_of_cons Hy; [|by eapply Hno]. rewrite Hx in Hy. by injection Hy as <-.
      * exists (p :: l1), l2, y. split_and!; try done. intros p' y' [->|Hp']%elem_of_cons Hy'; [|by eapply Hno]. rewrite Hx in Hy'. by injection Hy' as <-.
Qed.

End Netown.
