(* ===== verification/Netspec.v ===== *)
(** What the network stack promises: a datagram sent by one machine reaches the
    socket of the other, and no frame from the network can do harm. *)

From S2P Require Import Prelude Mem Net Netsum Netown.
Import Net Netsum Netown.

Module Netspec.

(** ** Sending *)

(** The slot at [tdt] has got the packet [b], in buffer [m]. *)
Definition sent (s s' : net) (m : Z) (b : mbuf) : Prop :=
  mbufs s' !! m = Some b /\ exists desc, aget (tx_ring (nic s')) (tdt (nic s)) = Some desc /\ td_addr desc = (m, m_head b) /\ td_length desc = u16 (m_len b).

(** The packet of [b] with an Ethernet header before it. *)
Definition with_eth (mac : list Z) (ty : Z) (b : mbuf) : mbuf :=
  let h := m_head b - 14 in
  mk_mbuf (m_next b) h (m_len b + 14)
    (put_bytes (put_bytes (put_bytes (m_buf b) (h + 6) mac) h BROADCAST_MAC) (h + 12) (le16 (htons ty))).

(** One more write to a buffer. *)
Ltac wr_by La := erewrite bind_Ret by (apply wr_upm; [cbn; unfold MBUF_DEFAULT_HEADROOM; lia|rewrite La; cbn; unfold MBUF_DEFAULT_HEADROOM, MBUF_SIZE; lia]).
Ltac wr_step := erewrite bind_Ret by (apply wr_upm; [cbn; unfold MBUF_DEFAULT_HEADROOM; lia|unfold alen; cbn; unfold MBUF_DEFAULT_HEADROOM, MBUF_SIZE; lia]).

Section machine.
Context (local_ip : Z) (local_mac : list Z).
Hypothesis Hmac : length local_mac = 6%nat.

(** A packet whose bytes lie in [buf], with room for [k] bytes of headers. *)
Definition roomy (b : mbuf) (k : Z) : Prop := k <= m_head b /\ 0 <= m_len b /\ m_head b + m_len b <= MBUF_SIZE.

Lemma tx_eth_run s own l Q m b ty : wf s own l Q -> own !! m = Some Hand -> mbufs s !! m = Some b -> roomy b 14 ->
  exists s' own', net_tx_eth local_mac m ty s = Ret tt s' /\ wf s' own' l Q /\ left m own own' /\ same_rest s s' /\
    (own' !! m = None \/ sent s s' m (with_eth local_mac ty b)).
Proof using Hmac.
  intros Hw Hm Hb (Hh & Hl & Hfit). unfold MBUF_SIZE in *. unfold net_tx_eth. rewrite (bind_Ret _ _ _ _ _ (push_run s m b 14 Hb Hh ltac:(lia))).
  assert (La : alen local_mac = 6) by (unfold alen; lia).
  wr_by La. wr_step. wr_step.
  set (b' := set_buf _ _). assert (Eb : b' = with_eth local_mac ty b) by (unfold b', with_eth, set_buf, set_span; cbn; done). clearbody b'. subst b'.
  set (b' := with_eth local_mac ty b). set (s1 := upm m b' s). pose proof (wf_upm s own l Q m b' Hw Hm) as Hw1. fold s1 in Hw1.
  destruct (transmit_run s1 own l Q m b' Hw1 Hm (upm_at _ _ _)) as (desc & Hd & T). destruct (_ =? 0).
  - rewrite (bind_Ret _ _ _ _ _ T). cbn [Z.eqb negb when]. destruct (kfree_run s1 own l Q m Hw1 Hm) as (s' & K & Hw' & E1 & E2 & E3 & _).
    exists s', (delete m own). split_and!; try done; [by apply left_delete| |left; by rewrite lookup_delete_eq].
    split_and!; [by rewrite E2|by rewrite E3|by rewrite E1].
  - destruct T as (s' & own' & R & Hw' & Hlf & Hsr & Hb' & Hd' & Ho'). rewrite (bind_Ret _ _ _ _ _ R). cbn [Z.eqb negb when]. exists s', own'.
    split_and!; try done; try apply Hsr. right. split; [done|]. eexists. split; [exact Hd'|done].
Qed.

(** The running code has the buffers it had. *)
Record kept (own own' : gmap Z owner) : Prop := {
  kp_hand : forall p, own' !! p = Some Hand <-> own !! p = Some Hand;
  kp_rx : forall p i, own !! p = Some (Rx i) -> own' !! p = Some (Rx i) }.

Lemma left_fresh m own own' : own !! m = None -> left m (<[m := Hand]> own) own' -> kept own own'.
Proof using.
  clear Hmac. intros Hm [L1 L2]. split.
  - intros p. rewrite L1. destruct (decide (p = m)) as [->|]; [rewrite Hm; naive_solver|]. rewrite lookup_insert_ne by done. naive_solver.
  - intros p i Hp. apply L2. rewrite lookup_insert_ne; [done|]. intros ->. congruence.
Qed.

Lemma tx_arp_run s own l Q op dmac dip : wf s own l Q -> length dmac = 6%nat ->
  exists r s' own', net_tx_arp local_ip local_mac op dmac dip s = Ret r s' /\ wf s' own' l Q /\ kept own own' /\ same_rest s s'.
Proof using Hmac.
  intros Hw Hd. unfold net_tx_arp. destruct (mbufalloc_run s own l Q MBUF_DEFAULT_HEADROOM Hw ltac:(done)) as [[R _]|(m & s1 & pg & R & Hm & Hfr & Hw1 & Hpg & Es)].
  { rewrite (bind_Ret _ _ _ _ _ R). cbn [Z.eqb]. exists (-1), s, own. by split_and!. }
  rewrite (bind_Ret _ _ _ _ _ R), (proj2 (Z.eqb_neq m 0)) by done. set (s0 := set_pages pg s) in *. set (b0 := mk_mbuf 0 MBUF_DEFAULT_HEADROOM 0 (fun _ => 0)) in *.
  assert (Rp := put_run s1 m b0 28 ltac:(rewrite Es; apply upm_at) ltac:(done)). rewrite (bind_Ret _ _ _ _ _ Rp). rewrite Es, upm_upm. clear Rp.
  assert (La : alen local_mac = 6) by (unfold alen; lia). assert (Ld : alen dmac = 6) by (unfold alen; lia).
  do 5 wr_step. wr_by La. wr_step. wr_by Ld. wr_step.
  set (b' := set_buf _ _). pose proof (wf_upm _ _ _ _ m b' Hw1 (lookup_insert_eq _ _ _)) as Hw2. rewrite Es, upm_upm in Hw2.
  destruct (tx_eth_run _ _ _ _ m b' ETHTYPE_ARP Hw2 (lookup_insert_eq _ _ _) (upm_at _ _ _)) as (s' & own' & R' & Hw' & Hl & Hsr & _).
  { unfold b', roomy, MBUF_SIZE. cbn. unfold MBUF_DEFAULT_HEADROOM. lia. }
  rewrite (bind_Ret _ _ _ _ _ R'). exists 0, s', own'. split_and!; try done; try apply Hsr. by eapply left_fresh.
Qed.

(** ** Receiving *)

(** The buffer [m] is freed, or it is the last of the queue of a socket. *)
Definition absorbed (s : net) (own : gmap Z owner) (l : list Z) (Q : gmap Z (list Z)) (m : Z) (r : outcome net unit) : Prop :=
  exists s' own' Q', r = Ret tt s' /\ wf s' own' l Q' /\ left m own own' /\ same_rx (nic s) (nic s') /\
    (own' !! m = None /\ Q' = Q \/ exists si q, Q !! si = Some q /\ Q' = <[si := q ++ [m]]> Q /\ own' !! m = Some (InQ si)).

Lemma free_absorbed s own l Q m : wf s own l Q -> own !! m = Some Hand -> absorbed s own l Q m (mbuffree m s).
Proof using.
  clear Hmac. intros Hw Hm. destruct (kfree_run s own l Q m Hw Hm) as (s' & K & Hw' & E1 & E2 & E3 & _). exists s', (delete m own), Q.
  split_and!; try done; [by apply left_delete|by rewrite E1|left; by rewrite lookup_delete_eq].
Qed.

Lemma left_queue m own si : own !! m = Some Hand -> left m own (<[m := InQ si]> own).
Proof using.
  clear Hmac. intros Hm. split.
  - intros p. destruct (decide (p = m)) as [->|]; [rewrite lookup_insert_eq; naive_solver|]. rewrite lookup_insert_ne by done. naive_solver.
  - intros p i Hp. rewrite lookup_insert_ne; [done|]. intros <-. congruence.
Qed.

(** [sockrecvudp] delivers to the first socket with the addresses. *)
Lemma sockrecvudp_run s own l Q m b raddr lport rport : wf s own l Q -> own !! m = Some Hand -> mbufs s !! m = Some b ->
  (forall p x, p ∈ l -> socks s !! p = Some x -> matching x raddr lport rport = false) /\ absorbed s own l Q m (sockrecvudp m raddr lport rport s) \/
  exists l1 si l2 x q s', l = l1 ++ si :: l2 /\ socks s !! si = Some x /\ matching x raddr lport rport = true /\
    (forall p y, p ∈ l1 -> socks s !! p = Some y -> matching y raddr lport rport = false) /\ Q !! si = Some q /\
    sockrecvudp m raddr lport rport s = Ret tt s' /\ wf s' (<[m := InQ si]> own) l (<[si := q ++ [m]]> Q) /\ nic s' = nic s /\ mbufs s' !! m = Some (set_next 0 b).
Proof using.
  clear Hmac. intros Hw Hm Hb. destruct (wf_zero _ _ _ _ Hw) as (_ & _ & Hz). pose proof (wf_chain _ _ _ _ Hw) as Hc.
  destruct (find_sock_run s raddr lport rport l (sockets s) (sock_fuel s) Hc Hz) as (si & R & Hsi).
  { pose proof (chain_length _ _ _ (wf_nodup _ _ _ _ Hw) Hc). unfold sock_fuel. lia. }
  assert (E : sockrecvudp m raddr lport rport s = (if si =? 0 then mbuffree m else mbufq_pushtail si m) s)
    by (unfold sockrecvudp, bind at 1 2, gets; by rewrite (bind_Ret _ _ _ _ _ R)).
  rewrite E. destruct Hsi as [[-> Hno]|(l1 & l2 & x & El & Hx & Hmt & Hno)]; [left; split; [done|by apply free_absorbed]|right].
  assert (Hsi : si <> 0) by congruence. rewrite (proj2 (Z.eqb_neq si 0)) by done.
  destruct (proj2 (wf_qdom _ _ _ _ Hw si) ltac:(by rewrite Hx; eexists)) as [q Hq].
  destruct (pushtail_run s own l Q m b si x q Hw Hm Hb Hx Hq) as (s' & Rp & Hw' & E1 & _ & E2). exists l1, si, l2, x, q, s'. by split_and!.
Qed.

Lemma sockrecvudp_absorbed s own l Q m b raddr lport rport : wf s own l Q -> own !! m = Some Hand -> mbufs s !! m = Some b ->
  absorbed s own l Q m (sockrecvudp m raddr lport rport s).
Proof using.
  clear Hmac. intros Hw Hm Hb. destruct (sockrecvudp_run s own l Q m b raddr lport rport Hw Hm Hb) as [[_ A]|(l1 & si & l2 & x & q & s' & El & Hx & _ & _ & Hq & R & Hw' & E1 & _)]; [done|].
  exists s', (<[m := InQ si]> own), (<[si := q ++ [m]]> Q). split_and!; try done; [by apply left_queue|by rewrite E1|right]. exists si, q. by rewrite lookup_insert_eq.
Qed.

Lemma rd16_run s m b off : mbufs s !! m = Some b -> 0 <= off -> off + 2 <= MBUF_SIZE -> rd16 m off s = Ret (of_le (bytes 2 (m_buf b) off)) s.
Proof using. clear Hmac. intros Hb H1 H2. unfold rd16. by rewrite (bind_Ret _ _ _ _ _ (rd_run s m b off 2 Hb H1 H2)). Qed.
Lemma rd8_run s m b off : mbufs s !! m = Some b -> 0 <= off -> off + 1 <= MBUF_SIZE -> rd8 m off s = Ret (of_le (bytes 1 (m_buf b) off)) s.
Proof using. clear Hmac. intros Hb H1 H2. unfold rd8. by rewrite (bind_Ret _ _ _ _ _ (rd_run s m b off 1 Hb H1 H2)). Qed.
Lemma rd32_run s m b off : mbufs s !! m = Some b -> 0 <= off -> off + 4 <= MBUF_SIZE -> rd32 m off s = Ret (of_le (bytes 4 (m_buf b) off)) s.
Proof using. clear Hmac. intros Hb H1 H2. unfold rd32. by rewrite (bind_Ret _ _ _ _ _ (rd_run s m b off 4 Hb H1 H2)). Qed.

(** What the three layers do with a buffer. *)
Lemma rx_udp_eq s m b len iphdr : mbufs s !! m = Some b -> roomy b 0 -> 0 <= iphdr -> iphdr + 20 <= MBUF_SIZE -> 0 <= len < 65536 ->
  let h := m_head b in let d := m_buf b in
  net_rx_udp m len iphdr s =
    if m_len b <? 8 then mbuffree m s
    else if negb (ntohs (of_le (bytes 2 d (h + 4))) =? len) then mbuffree m (upm m (set_span (h + 8) (m_len b - 8) b) s)
    else if m_len b - 8 <? u16 (len - 8) then mbuffree m (upm m (set_span (h + 8) (m_len b - 8) b) s)
    else sockrecvudp m (ntohl (of_le (bytes 4 d (iphdr + 12)))) (ntohs (of_le (bytes 2 d (h + 2)))) (ntohs (of_le (bytes 2 d h)))
      (upm m (set_span (h + 8) (u16 (len - 8)) b) s).
Proof using.
  clear Hmac. intros Hb (Hh & Hl & Hfit) Hi1 Hi2 Hlen h d. unfold net_rx_udp, bind at 1.
  rewrite (pull_run s m b 8 Hb). destruct (Z.ltb_spec (m_len b) 8) as [H8|H8]; [done|]. cbv iota. fold h.
  set (b1 := set_span (h + 8) (m_len b - 8) b). set (s1 := upm m b1 s). assert (Hb1 : mbufs s1 !! m = Some b1) by apply upm_at.
  unfold MBUF_SIZE in *. fold h in Hh, Hfit.
  rewrite (bind_Ret _ _ _ _ _ (rd16_run s1 m b1 (h + 4) Hb1 ltac:(lia) ltac:(unfold MBUF_SIZE; lia))).
  destruct (negb (ntohs _ =? len)); [done|]. cbv zeta. rewrite (bind_Ret _ _ _ _ _ (getm_run s1 m b1 Hb1)). cbn [m_len b1 set_span].
  pose proof (u16_range (len - 8)) as Hu. destruct (Z.ltb_spec (m_len b - 8) (u16 (len - 8))) as [Hs|Hs]; [done|].
  unfold mbuftrim. unfold bind at 1 2. rewrite (getm_run s1 m b1 Hb1). rewrite u32_small by lia. cbn [m_len m_head b1 set_span].
  rewrite (proj2 (Z.ltb_ge _ _)) by lia. unfold bind at 1, putm, modify, ret. cbv iota.
  replace (m_len b - 8 - (m_len b - 8 - u16 (len - 8))) with (u16 (len - 8)) by lia.
  set (s2 := set_mbufs _ s1). assert (E : s2 = upm m (set_span (h + 8) (u16 (len - 8)) b) s) by (unfold s2, s1; apply upm_upm). rewrite E. clear s2 E.
  set (b2 := set_span (h + 8) (u16 (len - 8)) b). set (s2 := upm m b2 s). assert (Hb2 : mbufs s2 !! m = Some b2) by apply upm_at.
  rewrite (bind_Ret _ _ _ _ _ (rd32_run s2 m b2 (iphdr + 12) Hb2 ltac:(lia) ltac:(unfold MBUF_SIZE; lia))).
  rewrite (bind_Ret _ _ _ _ _ (rd16_run s2 m b2 h Hb2 ltac:(lia) ltac:(unfold MBUF_SIZE; lia))).
  by rewrite (bind_Ret _ _ _ _ _ (rd16_run s2 m b2 (h + 2) Hb2 ltac:(lia) ltac:(unfold MBUF_SIZE; lia))).
Qed.

Lemma rx_ip_eq s m b : mbufs s !! m = Some b -> roomy b 0 ->
  let h := m_head b in let d := m_buf b in let s1 := upm m (set_span (h + 20) (m_len b - 20) b) s in
  net_rx_ip local_ip m s =
    if m_len b <? 20 then mbuffree m s
    else if negb (of_le (bytes 1 d h) =? 69) || negb (in_cksum d h 20 =? 0) || negb (htons (of_le (bytes 2 d (h + 6))) =? 0)
      || negb (htonl (of_le (bytes 4 d (h + 16))) =? local_ip) || negb (of_le (bytes 1 d (h + 9)) =? IPPROTO_UDP) then mbuffree m s1
    else net_rx_udp m (u16 (ntohs (of_le (bytes 2 d (h + 2))) - 20)) h s1.
Proof using.
  clear Hmac. intros Hb (Hh & Hl & Hfit) h d s1. unfold net_rx_ip, bind at 1.
  rewrite (pull_run s m b 20 Hb). destruct (Z.ltb_spec (m_len b) 20) as [H8|H8]; [done|]. cbv iota. fold h. fold s1.
  set (b1 := set_span (h + 20) (m_len b - 20) b) in *. assert (Hb1 : mbufs s1 !! m = Some b1) by apply upm_at.
  unfold MBUF_SIZE in *. fold h in Hh, Hfit.
  rewrite (bind_Ret _ _ _ _ _ (rd8_run s1 m b1 h Hb1 ltac:(lia) ltac:(unfold MBUF_SIZE; lia))). change (m_buf b1) with d. change (Z.lor _ (Z.shiftr 20 2)) with 69.
  destruct (negb (_ =? 69)); [done|]. cbn [orb].
  unfold bind at 1, cksum. rewrite (bind_Ret _ _ _ _ _ (rd_run s1 m b1 h 20 Hb1 ltac:(lia) ltac:(unfold MBUF_SIZE; lia))).
  rewrite (bind_Ret _ _ _ _ _ (getm_run s1 m b1 Hb1)). cbv iota beta delta [ret]. change (m_buf b1) with d.
  destruct (negb (in_cksum d h 20 =? 0)); [done|]. cbn [orb].
  rewrite (bind_Ret _ _ _ _ _ (rd16_run s1 m b1 (h + 6) Hb1 ltac:(lia) ltac:(unfold MBUF_SIZE; lia))). change (m_buf b1) with d.
  destruct (negb (htons _ =? 0)); [done|]. cbn [orb].
  rewrite (bind_Ret _ _ _ _ _ (rd32_run s1 m b1 (h + 16) Hb1 ltac:(lia) ltac:(unfold MBUF_SIZE; lia))). change (m_buf b1) with d.
  destruct (negb (htonl _ =? local_ip)); [done|]. cbn [orb].
  rewrite (bind_Ret _ _ _ _ _ (rd8_run s1 m b1 (h + 9) Hb1 ltac:(lia) ltac:(unfold MBUF_SIZE; lia))). change (m_buf b1) with d.
  destruct (negb (_ =? IPPROTO_UDP)); [done|].
  by rewrite (bind_Ret _ _ _ _ _ (rd16_run s1 m b1 (h + 2) Hb1 ltac:(lia) ltac:(unfold MBUF_SIZE; lia))).
Qed.

Lemma rx_ip_absorbed s own l Q m b : wf s own l Q -> own !! m = Some Hand -> mbufs s !! m = Some b -> roomy b 0 -> absorbed s own l Q m (net_rx_ip local_ip m s).
Proof using.
  clear Hmac. intros Hw Hm Hb Hr. rewrite (rx_ip_eq s m b Hb Hr). destruct Hr as (Hh & Hl & Hfit). unfold MBUF_SIZE in *. cbv zeta.
  destruct (Z.ltb_spec (m_len b) 20); [by apply free_absorbed|]. set (b1 := set_span _ _ b). set (s1 := upm m b1 s).
  pose proof (wf_upm s own l Q m b1 Hw Hm) as Hw1. fold s1 in Hw1.
  destruct (_ || _); [exact (free_absorbed s1 own l Q m Hw1 Hm)|]. set (n := u16 _). pose proof (u16_range (ntohs (of_le (bytes 2 (m_buf b) (m_head b + 2))) - 20)) as Hn. fold n in Hn.
  rewrite (rx_udp_eq s1 m b1) by (apply upm_at || done || (unfold roomy, b1, MBUF_SIZE; cbn; lia)). cbv zeta.
  destruct (m_len b1 <? 8); [exact (free_absorbed s1 own l Q m Hw1 Hm)|].
  set (b2 := set_span _ (m_len b1 - 8) b1). pose proof (wf_upm s1 own l Q m b2 Hw1 Hm) as Hw2.
  destruct (negb _); [exact (free_absorbed _ own l Q m Hw2 Hm)|]. destruct (_ <? _); [exact (free_absorbed _ own l Q m Hw2 Hm)|].
  set (b3 := set_span _ (u16 _) b1). exact (sockrecvudp_absorbed _ own l Q m b3 _ _ _ (wf_upm s1 own l Q m b3 Hw1 Hm) Hm (upm_at _ _ _)).
Qed.

Lemma kept_left own own' own'' m : kept own own' -> left m own' own'' -> left m own own''.
Proof using.
  clear Hmac. intros [K1 K2] [L1 L2]. split; [intros p; by rewrite L1, K1|intros p i Hp; by apply L2, K2].
Qed.

Lemma rx_arp_absorbed s own l Q m b : wf s own l Q -> own !! m = Some Hand -> mbufs s !! m = Some b -> roomy b 0 -> absorbed s own l Q m (net_rx_arp local_ip local_mac m s).
Proof using Hmac.
  intros Hw Hm Hb (Hh & Hl & Hfit). unfold MBUF_SIZE in *. unfold net_rx_arp, bind at 1. rewrite (pull_run s m b 28 Hb).
  destruct (Z.ltb_spec (m_len b) 28) as [H8|H8]; [by apply free_absorbed|]. cbv iota. set (h := m_head b) in *.
  set (b1 := set_span (h + 28) (m_len b - 28) b). set (s1 := upm m b1 s). pose proof (wf_upm s own l Q m b1 Hw Hm) as Hw1. fold s1 in Hw1.
  assert (Hb1 : mbufs s1 !! m = Some b1) by apply upm_at. pose proof (free_absorbed s1 own l Q m Hw1 Hm) as HF.
  rewrite (bind_Ret _ _ _ _ _ (rd16_run s1 m b1 h Hb1 ltac:(lia) ltac:(unfold MBUF_SIZE; lia))).
  rewrite (bind_Ret _ _ _ _ _ (rd16_run s1 m b1 (h + 2) Hb1 ltac:(lia) ltac:(unfold MBUF_SIZE; lia))).
  rewrite (bind_Ret _ _ _ _ _ (rd8_run s1 m b1 (h + 4) Hb1 ltac:(lia) ltac:(unfold MBUF_SIZE; lia))).
  rewrite (bind_Ret _ _ _ _ _ (rd8_run s1 m b1 (h + 5) Hb1 ltac:(lia) ltac:(unfold MBUF_SIZE; lia))).
  destruct (_ || _); [exact HF|].
  rewrite (bind_Ret _ _ _ _ _ (rd32_run s1 m b1 (h + 24) Hb1 ltac:(lia) ltac:(unfold MBUF_SIZE; lia))).
  rewrite (bind_Ret _ _ _ _ _ (rd16_run s1 m b1 (h + 6) Hb1 ltac:(lia) ltac:(unfold MBUF_SIZE; lia))).
  destruct (_ || _); [exact HF|].
  rewrite (bind_Ret _ _ _ _ _ (rd_run s1 m b1 (h + 8) ETHADDR_LEN Hb1 ltac:(lia) ltac:(unfold MBUF_SIZE, ETHADDR_LEN; lia))).
  rewrite (bind_Ret _ _ _ _ _ (rd32_run s1 m b1 (h + 14) Hb1 ltac:(lia) ltac:(unfold MBUF_SIZE; lia))).
  destruct (tx_arp_run s1 own l Q ARP_OP_REPLY (bytes (Z.to_nat ETHADDR_LEN) (m_buf b1) (h + 8)) (ntohl (of_le (bytes 4 (m_buf b1) (h + 14)))) Hw1)
    as (r & s2 & own2 & R & Hw2 & HK & Hsr); [by rewrite length_bytes|]. rewrite (bind_Ret _ _ _ _ _ R).
  destruct (free_absorbed s2 own2 l Q m Hw2) as (s' & own' & Q' & R' & Hw' & Hlf & Hrx & Hend); [by apply HK|].
  exists s', own', Q'. split_and!; try done; try (by eapply kept_left). destruct Hsr as (_ & _ & Hr1). destruct Hr1 as (A1 & A2 & A3), Hrx as (B1 & B2 & B3).
  split_and!; [by rewrite B1, A1|by rewrite B2, A2|by rewrite B3, A3].
Qed.

Lemma net_rx_absorbed s own l Q m b : wf s own l Q -> own !! m = Some Hand -> mbufs s !! m = Some b -> roomy b 0 ->
  absorbed s own l Q m (net_rx local_ip local_mac m s).
Proof using Hmac.
  intros Hw Hm Hb (Hh & Hl & Hfit). unfold MBUF_SIZE in *. unfold net_rx, bind at 1. rewrite (pull_run s m b 14 Hb).
  destruct (Z.ltb_spec (m_len b) 14) as [H8|H8]; [by apply free_absorbed|]. cbv iota. set (h := m_head b) in *.
  set (b1 := set_span (h + 14) (m_len b - 14) b). set (s1 := upm m b1 s). pose proof (wf_upm s own l Q m b1 Hw Hm) as Hw1. fold s1 in Hw1.
  assert (Hb1 : mbufs s1 !! m = Some b1) by apply upm_at. assert (Hr1 : roomy b1 0) by (unfold roomy, b1, MBUF_SIZE; cbn; lia).
  rewrite (bind_Ret _ _ _ _ _ (rd16_run s1 m b1 (h + 12) Hb1 ltac:(lia) ltac:(unfold MBUF_SIZE; lia))).
  destruct (_ =? ETHTYPE_IP); [exact (rx_ip_absorbed s1 own l Q m b1 Hw1 Hm Hb1 Hr1)|].
  destruct (_ =? ETHTYPE_ARP); [exact (rx_arp_absorbed s1 own l Q m b1 Hw1 Hm Hb1 Hr1)|]. exact (free_absorbed s1 own l Q m Hw1 Hm).
Qed.

End machine.

End Netspec.
