(* ===== verification/Netudp.v ===== *)
(** Datagrams from one machine to another, and the theorems about the network. *)

From S2P Require Import Prelude Mem Net Netsum Netown Netspec.
Import Net Netsum Netown Netspec.

Module Netudp.

(** The bytes at [o] are a frame with a datagram: the fields that the receiver
    looks at, and the payload [p]. *)
Record udp_frame (d : mem) (o sip dip sport dport : Z) (p : list Z) : Prop := {
  uf_type : bytes 2 d (o + 12) = le16 (htons ETHTYPE_IP);
  uf_vhl : bytes 1 d (o + 14) = [69];
  uf_len : bytes 2 d (o + 16) = le16 (htons (28 + alen p));
  uf_off : bytes 2 d (o + 20) = [0; 0];
  uf_proto : bytes 1 d (o + 23) = [IPPROTO_UDP];
  uf_sum : in_cksum d (o + 14) 20 = 0;
  uf_src : bytes 4 d (o + 26) = le32 (htonl sip);
  uf_dst : bytes 4 d (o + 30) = le32 (htonl dip);
  uf_sport : bytes 2 d (o + 34) = le16 (htons sport);
  uf_dport : bytes 2 d (o + 36) = le16 (htons dport);
  uf_ulen : bytes 2 d (o + 38) = le16 (htons (8 + alen p));
  uf_data : bytes (length p) d (o + 42) = p }.

Lemma bytes_shift n d d' o o' k : (forall i, k <= i < k + Z.of_nat n -> d' (o' + i) = d (o + i)) -> bytes n d' (o' + k) = bytes n d (o + k).
Proof.
  intros H. apply list_eq. intros i. destruct (decide (i < n)%nat) as [Hi|Hi].
  - rewrite !bytes_lookup by done. f_equal. rewrite <- !Z.add_assoc. apply H. lia.
  - rewrite !lookup_ge_None_2; [done| |]; rewrite length_bytes; lia.
Qed.

(** The frame is the same wherever it lies, and whatever follows it. *)
Lemma udp_frame_ext d d' o o' sip dip sport dport p : mem_ok d -> mem_ok d' -> (forall i, 0 <= i < 42 + alen p -> d' (o' + i) = d (o + i)) ->
  udp_frame d o sip dip sport dport p -> udp_frame d' o' sip dip sport dport p.
Proof.
  intros Hd Hd' He [F1 F2 F3 F4 F5 F6 F7 F8 F9 F10 F11 F12]. unfold alen in *.
  assert (E : forall n k, 0 <= k -> k + Z.of_nat n <= 42 + Z.of_nat (length p) -> bytes n d' (o' + k) = bytes n d (o + k)).
  { intros n k H1 H2. apply bytes_shift. intros i Hi. apply He. lia. }
  split; try (rewrite E by lia; done).
  rewrite in_cksum_20 in F6 |- * by done. rewrite (word_sum_ext 10 d d' (o + 14) (o' + 14)); [done|]. intros i Hi. rewrite <- !Z.add_assoc. apply He. lia.
Qed.

(** ** The sender *)

Definition with_udp (sport dport : Z) (b : mbuf) : mbuf :=
  let h := m_head b - 8 in
  mk_mbuf (m_next b) h (m_len b + 8)
    (put_bytes (put_bytes (put_bytes (put_bytes (m_buf b) h (le16 (htons sport))) (h + 2) (le16 (htons dport)))
      (h + 4) (le16 (htons (u16 (m_len b + 8))))) (h + 6) (le16 0)).
Definition ip_header (sip dip len : Z) (d : mem) (h : Z) : mem :=
  put_bytes (put_bytes (put_bytes (put_bytes (put_bytes (put_bytes (put_bytes d h (replicate 20 0)) h [69]) (h + 9) [IPPROTO_UDP])
    (h + 12) (le32 (htonl sip))) (h + 16) (le32 (htonl dip))) (h + 2) (le16 (htons len))) (h + 8) [100].
Definition with_ip (sip dip : Z) (b : mbuf) : mbuf :=
  let h := m_head b - 20 in
  let d := ip_header sip dip (u16 (m_len b + 20)) (m_buf b) h in
  mk_mbuf (m_next b) h (m_len b + 20) (put_bytes d (h + 10) (le16 (in_cksum d h 20))).

Section machine.
Context (local_ip : Z) (local_mac : list Z).
Hypothesis Hmac : length local_mac = 6%nat.

Lemma tx_ip_run s own l Q m b dip : wf s own l Q -> own !! m = Some Hand -> mbufs s !! m = Some b -> roomy b 34 ->
  exists s' own', net_tx_ip local_ip local_mac m IPPROTO_UDP dip s = Ret tt s' /\ wf s' own' l Q /\ left m own own' /\ same_rest s s' /\
    (own' !! m = None \/ sent s s' m (with_eth local_mac ETHTYPE_IP (with_ip local_ip dip b))).
Proof using Hmac.
  intros Hw Hm Hb (Hh & Hl & Hfit). unfold MBUF_SIZE in *. unfold net_tx_ip. rewrite (bind_Ret _ _ _ _ _ (push_run s m b 20 Hb ltac:(lia) ltac:(lia))).
  do 5 wr_step. rewrite (bind_Ret _ _ _ _ _ (getm_run _ m _ (upm_at _ _ _))). do 2 wr_step.
  set (b1 := set_buf _ _).
  unfold cksum. erewrite bind_Ret by (erewrite bind_Ret by (apply rd_run; [apply upm_at|lia|unfold MBUF_SIZE; lia]); erewrite bind_Ret by (apply getm_run, upm_at); reflexivity).
  wr_step. set (b2 := set_buf _ b1). assert (E : b2 = with_ip local_ip dip b) by (unfold b2, b1, with_ip, ip_header, set_buf, set_span; cbn; done). rewrite E. clear E b2 b1.
  set (b2 := with_ip local_ip dip b). pose proof (wf_upm s own l Q m b2 Hw Hm) as Hw1.
  destruct (tx_eth_run local_mac Hmac _ own l Q m b2 ETHTYPE_IP Hw1 Hm (upm_at _ _ _)) as (s' & own' & R & H1 & H2 & H3 & H4).
  { unfold roomy, b2, with_ip, MBUF_SIZE. cbn. lia. }
  by exists s', own'.
Qed.

Lemma tx_udp_run s own l Q m b dip sport dport : wf s own l Q -> own !! m = Some Hand -> mbufs s !! m = Some b -> roomy b 42 ->
  exists s' own', net_tx_udp local_ip local_mac m dip sport dport s = Ret tt s' /\ wf s' own' l Q /\ left m own own' /\ same_rest s s' /\
    (own' !! m = None \/ sent s s' m (with_eth local_mac ETHTYPE_IP (with_ip local_ip dip (with_udp sport dport b)))).
Proof using Hmac.
  intros Hw Hm Hb (Hh & Hl & Hfit). unfold MBUF_SIZE in *. unfold net_tx_udp. rewrite (bind_Ret _ _ _ _ _ (push_run s m b 8 Hb ltac:(lia) ltac:(lia))).
  do 2 wr_step. rewrite (bind_Ret _ _ _ _ _ (getm_run _ m _ (upm_at _ _ _))). do 2 wr_step.
  set (b1 := set_buf _ _). assert (E : b1 = with_udp sport dport b) by (unfold b1, with_udp, set_buf, set_span; cbn; done). rewrite E. clear E b1.
  set (b1 := with_udp sport dport b). pose proof (wf_upm s own l Q m b1 Hw Hm) as Hw1.
  destruct (tx_ip_run _ own l Q m b1 dip Hw1 Hm (upm_at _ _ _)) as (s' & own' & R & H1 & H2 & H3 & H4).
  { unfold roomy, b1, with_udp, MBUF_SIZE. cbn. lia. }
  by exists s', own'.
Qed.
End machine.

Lemma bytes_put_eq n m a l k : k = a -> length l = n -> Forall (fun b => 0 <= b < 256) l -> bytes n (put_bytes m a l) k = l.
Proof.
  intros -> Hn Hl. replace a with (a + Z.of_nat 0) at 2 by lia. rewrite bytes_put_in by (done || lia). rewrite drop_0, take_ge by lia. done.
Qed.

Lemma le16_bytes v : Forall (fun b => 0 <= b < 256) (le16 v).
Proof. unfold le16. repeat constructor; dlia. Qed.
Lemma le32_bytes v : Forall (fun b => 0 <= b < 256) (le32 v).
Proof. unfold le32. repeat constructor; dlia. Qed.

(** A range of bytes that the outer writes do not touch. *)
Ltac peel := repeat (rewrite bytes_put_out by (cbn [length le16 le32 BROADCAST_MAC]; rewrite ?length_replicate; lia)).
Ltac field := peel; apply bytes_put_eq; [lia|done|first [apply le16_bytes | apply le32_bytes | by repeat constructor]].

(** The header that [net_tx_ip] builds. *)
Lemma ip_header_ok sip dip len d h : mem_ok d ->
  let d' := put_bytes (ip_header sip dip len d h) (h + 10) (le16 (in_cksum (ip_header sip dip len d h) h 20)) in
  mem_ok d' /\ bytes 1 d' h = [69] /\ bytes 2 d' (h + 2) = le16 (htons len) /\ bytes 2 d' (h + 6) = [0; 0] /\ bytes 1 d' (h + 9) = [IPPROTO_UDP] /\
  in_cksum d' h 20 = 0 /\ bytes 4 d' (h + 12) = le32 (htonl sip) /\ bytes 4 d' (h + 16) = le32 (htonl dip) /\
  forall n k, h + 20 <= k -> bytes n d' k = bytes n d k.
Proof.
  intros Hd d'. assert (Hi : mem_ok (ip_header sip dip len d h)) by (unfold ip_header; by repeat apply put_bytes_ok).
  assert (Hz : forall n k, (k + n <= 20)%nat -> bytes n (put_bytes d h (replicate 20 0)) (h + Z.of_nat k) = replicate n 0).
  { intros n k Hk. rewrite bytes_put_in; [|by repeat constructor|by rewrite length_replicate]. rewrite drop_replicate, take_replicate. f_equal. lia. }
  assert (H69 : bytes 1 (ip_header sip dip len d h) h = [69]) by (unfold ip_header; field).
  assert (H10 : bytes 2 (ip_header sip dip len d h) (h + 10) = [0; 0]) by (unfold ip_header; peel; apply (Hz 2%nat 10%nat); lia).
  cbn [bytes] in H69, H10. injection H69 as H69. injection H10 as H10 H11. replace (h + 10 + 1) with (h + 11) in H11 by lia.
  split_and!.
  - by apply put_bytes_ok.
  - unfold d', ip_header. field.
  - unfold d', ip_header. field.
  - unfold d', ip_header. peel. apply (Hz 2%nat 6%nat). lia.
  - unfold d', ip_header. field.
  - apply cksum_valid; [done|by rewrite H69|done|done].
  - unfold d', ip_header. field.
  - unfold d', ip_header. field.
  - intros n k Hk. unfold d', ip_header. by peel.
Qed.

Lemma frame_built mac sip dip sport dport b : length mac = 6%nat -> mem_ok (m_buf b) -> 0 <= m_len b -> m_len b + 28 < 65536 ->
  let b' := with_eth mac ETHTYPE_IP (with_ip sip dip (with_udp sport dport b)) in
  m_head b' = m_head b - 42 /\ m_len b' = m_len b + 42 /\ mem_ok (m_buf b') /\
  udp_frame (m_buf b') (m_head b') sip dip sport dport (bytes (Z.to_nat (m_len b)) (m_buf b) (m_head b)).
Proof.
  intros Hmac Hd Hl0 Hl b'. set (h := m_head b). set (o := h - 42). set (bu := with_udp sport dport b).
  assert (Hu : mem_ok (m_buf bu)) by (unfold bu, with_udp; cbn [m_buf]; by repeat apply put_bytes_ok).
  assert (Eo : m_head bu - 20 = o + 14) by (unfold bu, with_udp, o, h; cbn; lia).
  destruct (ip_header_ok sip dip (u16 (m_len bu + 20)) (m_buf bu) (o + 14) Hu) as (I0 & I1 & I2 & I3 & I4 & I5 & I6 & I7 & I8).
  set (di := put_bytes _ _ _) in *. assert (Ei : m_buf (with_ip sip dip bu) = di) by (unfold with_ip; cbn [m_buf]; by rewrite Eo).
  assert (Ho : m_head b' = o) by (unfold b', with_eth, with_ip, with_udp, o, h; cbn; lia).
  assert (Eb : m_buf b' = put_bytes (put_bytes (put_bytes di (o + 6) mac) o BROADCAST_MAC) (o + 12) (le16 (htons ETHTYPE_IP))).
  { unfold b', with_eth. cbn [m_buf]. fold bu. rewrite Ei. replace (m_head (with_ip sip dip bu) - 14) with o by (unfold with_ip; cbn [m_head]; lia). reflexivity. }
  assert (Hlen : m_len bu + 20 = m_len b + 28) by (unfold bu, with_udp; cbn; lia). rewrite Hlen, u16_small in I2 by lia.
  assert (Hb' : mem_ok (m_buf b')) by (rewrite Eb; by repeat apply put_bytes_ok).
  split; [rewrite Ho; done|]. split; [unfold b', with_eth, with_ip, with_udp; cbn; lia|]. split; [done|]. rewrite Ho.
  assert (X : forall n k, o + 14 <= k -> bytes n (m_buf b') k = bytes n di k) by (intros n k Hk; rewrite Eb; by peel).
  assert (Y : forall n k, o + 34 <= k -> bytes n (m_buf b') k = bytes n (m_buf bu) k) by (intros n k Hk; rewrite X, I8 by lia; done).
  assert (Lp : alen (bytes (Z.to_nat (m_len b)) (m_buf b) h) = m_len b) by (unfold alen; rewrite length_bytes; lia).
  assert (Hud : forall n k, bytes n (m_buf bu) k = bytes n (m_buf (with_udp sport dport b)) k) by done.
  assert (Eh : m_head b - 8 = o + 34) by (unfold o, h; lia).
  split; rewrite ?Lp.
  - rewrite Eb. field.
  - by rewrite X.
  - rewrite X by lia. replace (o + 16) with (o + 14 + 2) by lia. rewrite I2. do 2 f_equal. lia.
  - rewrite X by lia. by replace (o + 20) with (o + 14 + 6) by lia.
  - rewrite X by lia. by replace (o + 23) with (o + 14 + 9) by lia.
  - rewrite in_cksum_20 in I5 |- * by done. rewrite (word_sum_ext 10 di (m_buf b') (o + 14) (o + 14)); [done|]. intros i Hi.
    pose proof (X 1%nat (o + 14 + i) ltac:(lia)) as E. cbn [bytes] in E. by injection E.
  - rewrite X by lia. by replace (o + 26) with (o + 14 + 12) by lia.
  - rewrite X by lia. by replace (o + 30) with (o + 14 + 16) by lia.
  - rewrite Y by lia. unfold bu, with_udp. cbn [m_buf]. rewrite Eh. field.
  - rewrite Y by lia. unfold bu, with_udp. cbn [m_buf]. rewrite Eh. field.
  - rewrite Y by lia. unfold bu, with_udp. cbn [m_buf]. rewrite Eh, u16_small by lia. replace (8 + m_len b) with (m_len b + 8) by lia. field.
  - rewrite length_bytes, Y by lia. unfold bu, with_udp. cbn [m_buf]. rewrite Eh. peel. by replace (o + 42) with h by (unfold o; lia).
Qed.

(** ** The receiver *)

Lemma first_match_unique {A} (P : A -> Prop) (l1 l1' : list A) x x' l2 l2' : l1 ++ x :: l2 = l1' ++ x' :: l2' -> P x -> P x' ->
  (forall y, y ∈ l1 -> ~ P y) -> (forall y, y ∈ l1' -> ~ P y) -> x = x'.
Proof.
  revert l1'. induction l1 as [|a l1 IH]; intros [|a' l1'] E Hx Hx' H1 H2; cbn in E; injection E.
  - done.
  - intros _ ->. destruct (H2 a'); [by left|done].
  - intros _ <-. destruct (H1 a); [by left|done].
  - intros E' _. apply (IH l1'); [done|done|done| |]; intros y Hy; [apply H1|apply H2]; by right.
Qed.

Lemma rx_frame dip mac t r b sip sport dport p : mbufs t !! r = Some b -> roomy b 0 -> mem_ok (m_buf b) -> 42 + alen p <= m_len b ->
  udp_frame (m_buf b) (m_head b) sip dip sport dport p -> 0 <= sip < 2 ^ 32 -> 0 <= dip < 2 ^ 32 -> 0 <= sport < 65536 -> 0 <= dport < 65536 ->
  net_rx dip mac r t = sockrecvudp r sip dport sport (upm r (set_span (m_head b + 42) (alen p) b) t).
Proof.
  intros Hb (Hh & Hl & Hfit) Hd Hlen [F1 F2 F3 F4 F5 F6 F7 F8 F9 F10 F11 F12] Hsip Hdip Hsp Hdp. unfold MBUF_SIZE in *. set (h := m_head b) in *.
  assert (Hp : 0 <= alen p) by (unfold alen; lia).
  assert (N16 : forall v, 0 <= v < 65536 -> bswaps (of_le (le16 (bswaps v))) = v) by (intros v Hv; rewrite of_le16, u16_small, bswaps_invol, u16_small; [done|done|apply bswaps_range]).
  assert (N32 : forall v, 0 <= v < 2 ^ 32 -> bswapl (of_le (le32 (bswapl v))) = v) by (intros v Hv; rewrite of_le32, u32_small, bswapl_invol, u32_small; [done|done|apply bswapl_range]).
  unfold net_rx, bind at 1. rewrite (pull_run t r b 14 Hb), (proj2 (Z.ltb_ge _ _)) by lia. cbv iota. fold h.
  set (b1 := set_span (h + 14) (m_len b - 14) b). set (t1 := upm r b1 t). assert (Hb1 : mbufs t1 !! r = Some b1) by apply upm_at.
  rewrite (bind_Ret _ _ _ _ _ (rd16_run t1 r b1 (h + 12) Hb1 ltac:(lia) ltac:(unfold MBUF_SIZE; lia))). change (m_buf b1) with (m_buf b).
  rewrite F1, (N16 ETHTYPE_IP) by done. change (ETHTYPE_IP =? ETHTYPE_IP) with true. cbv iota.
  rewrite (rx_ip_eq dip t1 r b1 Hb1) by (unfold roomy, b1, MBUF_SIZE; cbn; lia). cbv zeta. change (m_head b1) with (h + 14). change (m_buf b1) with (m_buf b). change (m_len b1) with (m_len b - 14).
  rewrite (proj2 (Z.ltb_ge _ _)) by lia. rewrite F2, F6.
  replace (h + 14 + 6) with (h + 20) by lia. replace (h + 14 + 16) with (h + 30) by lia. replace (h + 14 + 9) with (h + 23) by lia.
  replace (h + 14 + 2) with (h + 16) by lia. replace (h + 14 + 20) with (h + 34) by lia.
  rewrite F4, F8, F5, F3, (N32 dip), Z.eqb_refl, (N16 (28 + alen p)) by (done || lia). change (of_le [69] =? 69) with true. change (of_le [IPPROTO_UDP] =? IPPROTO_UDP) with true.
  change (htons (of_le [0; 0]) =? 0) with true. change (0 =? 0) with true. cbn [negb orb].
  replace (28 + alen p - 20) with (8 + alen p) by lia. rewrite (u16_small (8 + alen p)) by lia.
  set (b2 := set_span (h + 34) (m_len b - 14 - 20) b1). set (t2 := upm r b2 t1).
  rewrite (rx_udp_eq t2 r b2) by (apply upm_at || lia || (unfold roomy, b2, MBUF_SIZE; cbn; lia) || (unfold MBUF_SIZE; lia)). cbv zeta.
  change (m_head b2) with (h + 34). change (m_buf b2) with (m_buf b). change (m_len b2) with (m_len b - 14 - 20).
  rewrite (proj2 (Z.ltb_ge _ 8)) by lia. replace (h + 34 + 4) with (h + 38) by lia.
  replace (h + 14 + 12) with (h + 26) by lia. replace (h + 34 + 2) with (h + 36) by lia. replace (h + 34 + 8) with (h + 42) by lia.
  rewrite F11, F7, F10, F9, (N16 (8 + alen p)), Z.eqb_refl, (N32 sip), (N16 dport), (N16 sport) by (done || lia). cbn [negb].
  replace (8 + alen p - 8) with (alen p) by lia. rewrite (u16_small (alen p)) by lia. rewrite (proj2 (Z.ltb_ge _ (alen p))) by lia.
  unfold t2, t1. rewrite !upm_upm, ?Z.eqb_refl. done.
Qed.

(** ** The theorems *)

(** C21: a datagram reaches its socket. [net_tx_udp] on the machine with address
    [sip] either drops the packet, when the transmit ring is full, or puts a
    frame into the ring. Whatever machine with address [dip] has that frame in a
    receive buffer, perhaps with padding after it, [net_rx] appends the buffer to
    the queue of the first socket for [sip] and the two ports, and what it then
    holds is the payload, byte for byte. *)
Theorem udp_delivery sip smac dip dmac s own l Q m b sport dport : length smac = 6%nat -> 0 <= sip < 2 ^ 32 -> 0 <= dip < 2 ^ 32 ->
  0 <= sport < 65536 -> 0 <= dport < 65536 -> wf s own l Q -> own !! m = Some Hand -> mbufs s !! m = Some b -> roomy b 42 -> mem_ok (m_buf b) ->
  exists s' own', net_tx_udp sip smac m dip sport dport s = Ret tt s' /\ wf s' own' l Q /\
    (own' !! m = None \/ exists f, sent s s' m f /\ m_len f = m_len b + 42 /\ mem_ok (m_buf f) /\
      forall t town tl tQ r rb l1 si l2 x q, wf t town tl tQ -> town !! r = Some Hand -> mbufs t !! r = Some rb -> roomy rb 0 -> mem_ok (m_buf rb) ->
        m_len f <= m_len rb -> (forall i, 0 <= i < m_len f -> m_buf rb (m_head rb + i) = m_buf f (m_head f + i)) ->
        tl = l1 ++ si :: l2 -> socks t !! si = Some x -> matching x sip dport sport = true ->
        (forall p y, p ∈ l1 -> socks t !! p = Some y -> matching y sip dport sport = false) -> tQ !! si = Some q ->
        exists t' rb', net_rx dip dmac r t = Ret tt t' /\ wf t' (<[r := InQ si]> town) tl (<[si := q ++ [r]]> tQ) /\ mbufs t' !! r = Some rb' /\
          m_len rb' = m_len b /\ bytes (Z.to_nat (m_len b)) (m_buf rb') (m_head rb') = bytes (Z.to_nat (m_len b)) (m_buf b) (m_head b)).
Proof.
  intros Hmac Hsip Hdip Hsp Hdp Hw Hm Hb Hr Hd. destruct (tx_udp_run sip smac Hmac s own l Q m b dip sport dport Hw Hm Hb Hr) as (s' & own' & R & Hw' & _ & _ & Hend).
  destruct Hr as (Hh & Hl & Hfit). unfold MBUF_SIZE in *. exists s', own'. split; [done|]. split; [done|]. destruct Hend as [?|Hs]; [by left|right].
  destruct (frame_built smac sip dip sport dport b Hmac Hd Hl ltac:(lia)) as (Eh & El & Hok & HF). set (f := with_eth _ _ _) in *. set (p := bytes _ _ _) in HF.
  assert (Lp : alen p = m_len b) by (unfold alen, p; rewrite length_bytes; lia).
  exists f. split; [done|]. split; [done|]. split; [done|]. intros t town tl tQ r rb l1 si l2 x q Hwt Hrh Hrb Hrr Hrd Hlen Hsame Etl Hx Hmt Hno Hq. rewrite El in *.
  pose proof (udp_frame_ext _ (m_buf rb) _ (m_head rb) _ _ _ _ p Hok Hrd ltac:(intros i Hi; apply Hsame; lia) HF) as HF2.
  rewrite (rx_frame dip dmac t r rb sip sport dport p Hrb Hrr Hrd ltac:(lia) HF2 Hsip Hdip Hsp Hdp). set (rb1 := set_span _ _ rb).
  destruct (sockrecvudp_run _ town tl tQ r rb1 sip dport sport (wf_upm t town tl tQ r rb1 Hwt Hrh) Hrh (upm_at _ _ _))
    as [[Hnone _]|(l1' & si' & l2' & x' & q' & t' & El' & Hx' & Hmt' & Hno' & Hq' & R' & Hw'' & _ & Hb'')].
  { rewrite (Hnone si x) in Hmt; [done| |done]. rewrite Etl. apply elem_of_app. right. by left. }
  assert (si' = si) as ->.
  { rewrite El' in Etl. apply (first_match_unique (fun p => exists y, socks t !! p = Some y /\ matching y sip dport sport = true) l1' l1 si' si l2' l2 Etl).
    - by exists x'.
    - by exists x.
    - intros p' Hp' (y & Hy & My). by rewrite (Hno' p' y Hp' Hy) in My.
    - intros p' Hp' (y & Hy & My). by rewrite (Hno p' y Hp' Hy) in My. }
  assert (q' = q) as -> by congruence. eexists t', _. split; [exact R'|]. split; [exact Hw''|]. split; [exact Hb''|]. cbn. split; [done|].
  pose proof (uf_data _ _ _ _ _ _ _ HF2) as E. unfold p in E at 1. rewrite length_bytes in E. exact E.
Qed.

(** C22: no frame can harm the receiver. Whatever bytes a received buffer holds,
    [net_rx] returns, without a panic and without touching a byte outside the
    buffer; the buffer is then freed or waits at one socket, an ARP reply is in
    the transmit ring or freed, and every packet buffer still has one owner. *)
Theorem net_rx_safe ip mac s own l Q m b : length mac = 6%nat -> wf s own l Q -> own !! m = Some Hand -> mbufs s !! m = Some b -> roomy b 0 ->
  exists s' own' Q', net_rx ip mac m s = Ret tt s' /\ wf s' own' l Q' /\ left m own own' /\ same_rx (nic s) (nic s') /\
    (own' !! m = None /\ Q' = Q \/ exists si q, Q !! si = Some q /\ Q' = <[si := q ++ [m]]> Q /\ own' !! m = Some (InQ si)).
Proof. intros Hmac. apply (net_rx_absorbed ip mac Hmac). Qed.

(** Nothing in the driver clears [DD], so a full ring is never noticed: from a
    ring whose descriptors all have it, as [e1000_init] leaves them,
    [e1000_transmit] accepts every packet, leaves the ring in the same condition,
    and frees the buffer that was in the slot, whether or not the device has sent
    it. *)
Theorem e1000_full_unnoticed s own l Q m b old : wf s own l Q -> own !! m = Some Hand -> mbufs s !! m = Some b ->
  Forall (fun d => td_status d = E1000_TXD_STAT_DD) (tx_ring (nic s)) -> aget (tx_mbufs (nic s)) (tdt (nic s)) = Some old ->
  exists s', e1000_transmit m s = Ret 0 s' /\ Forall (fun d => td_status d = E1000_TXD_STAT_DD) (tx_ring (nic s')) /\
    tdt (nic s') = (tdt (nic s) + 1) mod TX_RING_SIZE /\ (old <> 0 -> mbufs s' !! old = None).
Proof.
  intros Hw Hm Hb Hdd Hold. pose proof (wf_ring _ _ _ _ Hw) as [R1 R2 R3 R4 R5].
  assert (Hd : exists d, aget (tx_ring (nic s)) (tdt (nic s)) = Some d) by (apply aget_is_Some; unfold alen; rewrite R2; done). destruct Hd as [desc Hd].
  destruct (clear_slot s own l Q old Hw Hold) as (s1 & own1 & d0 & K & E1 & E2 & E3 & E4 & E5 & E6 & Hw1).
  pose proof Hold as Hold'. rewrite <- (Z2Nat.id (tdt (nic s))), aget_of_nat in Hold' by lia.
  assert (Hmo : m <> old) by (intros <-; destruct (decide (m = 0)) as [->|Hne]; [rewrite (own_zero _ _ _ _ Hw) in Hm; done|specialize (R4 _ _ Hold' Hne); congruence]).
  assert (Hst : td_status desc = E1000_TXD_STAT_DD).
  { rewrite <- (Z2Nat.id (tdt (nic s))), aget_of_nat in Hd by lia. exact (proj1 (Forall_lookup _ _) Hdd _ _ Hd). }
  rewrite (transmit_eq s m b desc old s1 Hd Hold K ltac:(by rewrite E4)), Hst. change (Z.land _ _ =? 0) with false. cbv iota. eexists. split; [reflexivity|].
  cbn [nic set_nic tx_ring tdt set_tx mbufs]. split_and!.
  - rewrite <- (Z2Nat.id (tdt (nic s))) by lia. rewrite aset_of_nat. apply Forall_insert; [done|]. exact Hst.
  - rewrite u32_small; [done|]. unfold TX_RING_SIZE in R1. lia.
  - intros Ho. destruct (mbufs s1 !! old) eqn:Eo; [|done]. destruct (proj2 (wf_own _ _ _ _ Hw1 old) ltac:(cbn; rewrite Eo; by eexists)) as [o Ho']. by rewrite E6 in Ho'.
Qed.

(** ** Two machines *)

Definition ex_nic : e1000 :=
  mk_e1000 0 (replicate 16 (mk_txd (0, 0) 0 0 1)) (replicate 16 0) 15 (replicate 16 (mk_rxd (0, 0) 0 0)) (replicate 16 0).
(** A packet of five bytes at hand, in page 1. *)
Definition ex_packet : mbuf := mk_mbuf 0 128 5 (fun i => if (128 <=? i) && (i <? 133) then i - 60 else 0).
Definition ex_sender : net := mk_net [2; 3] {[ 1 := ex_packet ]} ∅ 0 ex_nic.
(** A socket in page 7, and a buffer at hand in page 5. *)
Definition ex_sock : sock := mk_sock 0 LOCAL_IP 2000 26099 (mk_mbufq 0 0).
Definition ex_receiver (b : mbuf) : net := mk_net [2; 3] {[ 5 := b ]} {[ 7 := ex_sock ]} 7 ex_nic.

Lemma ex_ring (m : Z) : ring_ok ex_nic {[ m := Hand ]}.
Proof.
  split; try done.
  - intros i p Hi Hp. apply (lookup_replicate_1 16 0 p i) in Hi as [-> _]. done.
  - by intros p i [_ ?]%lookup_singleton_Some.
Qed.

Lemma ex_sender_wf : wf ex_sender {[ 1 := Hand ]} [] ∅.
Proof.
  split; cbn; try done.
  - apply NoDup_cons. split; [set_solver|apply NoDup_singleton].
  - split_and!; [set_solver|done|done].
  - intros p Hp. split; [|done]. apply lookup_singleton_None. set_solver.
  - intros p. destruct (decide (p = 1)) as [->|Hne]; [by rewrite !lookup_singleton_eq|]. rewrite !lookup_singleton_ne by done. done.
  - constructor.
  - intros si. by rewrite !lookup_empty; split; intros [? ?].
  - intros p si Hp%lookup_singleton_Some. by destruct Hp.
  - apply ex_ring.
Qed.

Lemma ex_receiver_wf b : wf (ex_receiver b) {[ 5 := Hand ]} [7] {[ 7 := [] ]}.
Proof.
  split; cbn; try done.
  - apply NoDup_cons. split; [set_solver|apply NoDup_singleton].
  - split_and!; [set_solver|done|done].
  - intros p Hp. split; apply lookup_singleton_None; set_solver.
  - intros p b' [<- _]%lookup_singleton_Some. by apply lookup_singleton_None.
  - intros p. destruct (decide (p = 5)) as [->|Hne]; [by rewrite !lookup_singleton_eq|]. rewrite !lookup_singleton_ne by done. done.
  - split; [done|]. exists ex_sock. by rewrite lookup_singleton_eq.
  - apply NoDup_singleton.
  - intros p. destruct (decide (p = 7)) as [->|Hne]; [by rewrite !lookup_singleton_eq|]. rewrite !lookup_singleton_ne by done. done.
  - intros si x q [<- <-]%lookup_singleton_Some Hq. rewrite lookup_singleton_eq in Hq. injection Hq as <-. split; try done; [constructor|].
    intros p. split; [by intros ?%not_elem_of_nil|]. intros Hp%lookup_singleton_Some. by destruct Hp.
  - intros p si Hp%lookup_singleton_Some. by destruct Hp.
  - apply ex_ring.
Qed.

Lemma ex_packet_ok : mem_ok (m_buf ex_packet).
Proof. intros i. cbn. destruct (Z.leb_spec 128 i), (Z.ltb_spec i 133); cbn [andb]; lia. Qed.

Lemma udp_delivery_witness : exists s' f t' rb', net_tx_udp LOCAL_IP LOCAL_MAC 1 (MAKE_IP_ADDR 10 0 2 2) 26099 2000 ex_sender = Ret tt s' /\ sent ex_sender s' 1 f /\
  net_rx (MAKE_IP_ADDR 10 0 2 2) LOCAL_MAC 5 (ex_receiver (mk_mbuf 0 0 (m_len f) (fun i => m_buf f (m_head f + i)))) = Ret tt t' /\
  mbufs t' !! 5 = Some rb' /\ bytes 5 (m_buf rb') (m_head rb') = [68; 69; 70; 71; 72].
Proof.
  destruct (udp_delivery LOCAL_IP LOCAL_MAC (MAKE_IP_ADDR 10 0 2 2) LOCAL_MAC ex_sender {[ 1 := Hand ]} [] ∅ 1 ex_packet 26099 2000)
    as (s' & own' & R & Hw & Hend); [done|done|done|done|done|exact ex_sender_wf|done|done|done|exact ex_packet_ok|].
  assert (V : match net_tx_udp LOCAL_IP LOCAL_MAC 1 (MAKE_IP_ADDR 10 0 2 2) 26099 2000 ex_sender with Ret _ s => bool_decide (is_Some (mbufs s !! 1)) | _ => false end = true) by (vm_compute; reflexivity).
  rewrite R in V. apply bool_decide_eq_true in V. destruct Hend as [Hn|(f & Hs & Hl & Hok & Hdel)]; [apply (wf_own _ _ _ _ Hw) in V; rewrite Hn in V; by destruct V|].
  change (m_len ex_packet + 42) with 47 in Hl.
  set (rb := mk_mbuf 0 0 (m_len f) (fun i => m_buf f (m_head f + i))).
  destruct (Hdel (ex_receiver rb) {[ 5 := Hand ]} [7] {[ 7 := [] ]} 5 rb [] 7 [] ex_sock [])
    as (t' & rb' & R' & _ & Hb' & _ & Hd'); [apply ex_receiver_wf|done|done| |intros i; apply Hok|done|done|done|done|done| |done|].
  { unfold roomy, rb, MBUF_SIZE. cbn. rewrite Hl. lia. }
  { intros p y Hp. destruct (not_elem_of_nil _ Hp). }
  exists s', f, t', rb'. split_and!; [exact R|exact Hs|exact R'|exact Hb'|exact Hd'].
Defined.

Lemma net_rx_safe_witness : exists s', net_rx LOCAL_IP LOCAL_MAC 1 ex_sender = Ret tt s'.
Proof.
  destruct (net_rx_safe LOCAL_IP LOCAL_MAC ex_sender {[ 1 := Hand ]} [] ∅ 1 ex_packet) as (s' & _ & _ & R & _); [done|exact ex_sender_wf|done|done|done|].
  by exists s'.
Defined.

Lemma e1000_full_unnoticed_witness : exists s', e1000_transmit 1 ex_sender = Ret 0 s' /\ tdt (nic s') = 1.
Proof.
  destruct (e1000_full_unnoticed ex_sender {[ 1 := Hand ]} [] ∅ 1 ex_packet 0) as (s' & R & _ & Ht & _);
    [exact ex_sender_wf|done|done|by repeat constructor|done|]. exists s'. split; [exact R|exact Ht].
Defined.

End Netudp.
