(* ===== verification/Console.v ===== *)
(** The console, [src/kernel/driver/console.c], and the serial line under it,
    [src/kernel/driver/uart.c].

    A critical section of the console's lock is one function; it ends with the
    return or with [sleep]. Of the serial line's device the model has what the
    driver sees: each reading of [LSR] says whether a byte can be sent, and the
    bytes given to [THR] are recorded. *)

From S2P Require Import Prelude Cbuf Umem.
Import Cbuf Umem.

Module Console.

Definition INPUT_BUF : Z := 128.
Definition UART_TX_BUF_SIZE : Z := 32.
Definition BACKSPACE : Z := 256.
(** [C(x)] *)
Definition ctrl (x : Z) : Z := x - 64.

(** ** The serial line *)

(** [lsr] are the readings of [LSR_TX_IDLE] to come; when there are no more the
    device is busy. *)
Record uart := mk_uart { tx_buf : list Z; tx_w : Z; tx_r : Z; lsr : list bool; thr : list Z }.

Fixpoint uartstart (fuel : nat) (u : uart) : option uart :=
  match fuel with
  | O => None
  | S fuel =>
      if tx_w u =? tx_r u then Some u
      else
        match lsr u with
        | true :: l =>
            match aget (tx_buf u) (tx_r u) with
            | Some c => uartstart fuel (mk_uart (tx_buf u) (tx_w u) ((tx_r u + 1) mod UART_TX_BUF_SIZE) l (thr u ++ [c]))
            | None => None
            end
        | _ :: l => Some (mk_uart (tx_buf u) (tx_w u) (tx_r u) l (thr u))
        | [] => Some u
        end
  end.
(** The buffer holds at most 31 bytes. *)
Definition start_fuel : nat := 32.

(** [uartputc]; [None] inside: it sleeps until there is space. *)
Definition uartputc (c : Z) (u : uart) : option (option uart) :=
  if (tx_w u + 1) mod UART_TX_BUF_SIZE =? tx_r u then Some None
  else
    match uartstart start_fuel (mk_uart (aset (tx_buf u) (tx_w u) (u8 c)) ((tx_w u + 1) mod UART_TX_BUF_SIZE) (tx_r u) (lsr u) (thr u)) with
    | Some u' => Some (Some u')
    | None => None
    end.

(** [uartputc_sync] waits for the device. *)
Definition uartputc_sync (c : Z) (u : uart) : uart := mk_uart (tx_buf u) (tx_w u) (tx_r u) (lsr u) (thr u ++ [u8 c]).

Definition consputc (c : Z) (u : uart) : uart :=
  if c =? BACKSPACE then uartputc_sync 8 (uartputc_sync 32 (uartputc_sync 8 u)) else uartputc_sync c u.

(** ** The console *)

Record cons := mk_cons { c_buf : list Z; c_r : Z; c_w : Z; c_e : Z; c_uart : uart }.
Definition set_e (e : Z) (c : cons) : cons := mk_cons (c_buf c) (c_r c) (c_w c) e (c_uart c).
Definition set_r (r : Z) (c : cons) : cons := mk_cons (c_buf c) r (c_w c) (c_e c) (c_uart c).
Definition echo (x : Z) (c : cons) : cons := mk_cons (c_buf c) (c_r c) (c_w c) (c_e c) (consputc x (c_uart c)).

(** [cons.buf[i % INPUT_BUF]] *)
Definition at_ (c : cons) (i : Z) : Z := default 0 (aget (c_buf c) (u32 i mod INPUT_BUF)).

(** The loop of [^U]; [k] rounds are enough for a full buffer. *)
Fixpoint kill_line (k : nat) (c : cons) : cons :=
  match k with
  | O => c
  | S k =>
      if negb (c_e c =? c_w c) && negb (at_ c (c_e c - 1) =? 10) then kill_line k (echo BACKSPACE (set_e (u32 (c_e c - 1)) c)) else c
  end.

(** [consoleintr], with whether it wakes the readers; [^P] prints the process
    list. *)
Definition consoleintr (x : Z) (c : cons) : cons * bool :=
  if x =? ctrl 80 then (c, false)
  else if x =? ctrl 85 then (kill_line (Z.to_nat INPUT_BUF) c, false)
  else if (x =? ctrl 72) || (x =? 127) then
    (if negb (c_e c =? c_w c) then echo BACKSPACE (set_e (u32 (c_e c - 1)) c) else c, false)
  else if negb (x =? 0) && (u32 (c_e c - c_r c) <? INPUT_BUF) then
    let x := if x =? 13 then 10 else x in
    let c := echo x c in
    let c := mk_cons (aset (c_buf c) (c_e c mod INPUT_BUF) (u8 x)) (c_r c) (c_w c) (u32 (c_e c + 1)) (c_uart c) in
    if (x =? 10) || (x =? ctrl 68) || (c_e c =? u32 (c_r c + INPUT_BUF)) then (mk_cons (c_buf c) (c_r c) (c_e c) (c_e c) (c_uart c), true)
    else (c, false)
  else (c, false).

(** [uartintr] with the bytes [rx] that have arrived. *)
Fixpoint uartintr (rx : list Z) (c : cons) : option cons :=
  match rx with
  | [] =>
      match uartstart start_fuel (c_uart c) with
      | Some u => Some (mk_cons (c_buf c) (c_r c) (c_w c) (c_e c) u)
      | None => None
      end
  | x :: rx => uartintr rx (fst (consoleintr x c))
  end.

(** How a critical section of [consoleread] ends; asleep with [n] bytes to go. *)
Inductive rend := RRet (r : Z) | RFail | RSleep (n dst : Z).
Inductive wend := WRet (r : Z) | WSleep (i : Z) | WStuck.

Section user.
Context {U : Type} `{UserMem U}.

(** The loop of [consoleread] with [n] bytes to go, [k] of them as fuel. *)
Fixpoint consoleread (k : nat) (target n dst : Z) (killed : bool) (u : U) (c : cons) : cons * U * rend :=
  match k with
  | O => (c, u, RRet (target - n))
  | S k =>
      if c_r c =? c_w c then (c, u, if killed then RFail else RSleep n dst)
      else
        let x := at_ c (c_r c) in
        let c := set_r (u32 (c_r c + 1)) c in
        if x =? ctrl 68 then
          (if n <? target then set_r (u32 (c_r c - 1)) c else c, u, RRet (target - n))
        else
          match ucopyout u dst [x] with
          | (false, u') => (c, u', RRet (target - n))
          | (true, u') =>
              if x =? 10 then (c, u', RRet (target - (n - 1)))
              else consoleread k target (n - 1) (u64 (dst + 1)) killed u' c
          end
  end.

(** The loop of [consolewrite] from byte [i], with [k] to go. *)
Fixpoint consolewrite (k : nat) (i src : Z) (um : U) (u : uart) : uart * wend :=
  match k with
  | O => (u, WRet i)
  | S k =>
      match ucopyin um (u64 (src + i)) [0] with
      | (true, [ch]) =>
          match uartputc ch u with
          | Some (Some u') => consolewrite k (i + 1) src um u'
          | Some None => (u, WSleep i)
          | None => (u, WStuck)
          end
      | _ => (u, WRet i)
      end
  end.
End user.

(** ** The line being edited *)

(** The lines [Q] can be read, [L] is being edited. *)
Record shows (c : cons) (Q L : list Z) : Prop := {
  sh_buf : cbuf INPUT_BUF (c_buf c) (c_r c) (c_e c) (Q ++ L);
  sh_w : c_w c = u32 (c_r c + alen Q);
  sh_line : Forall (fun x => x <> 10) L;
  sh_bytes : bytes (Q ++ L) }.

(** What a key does: [^P] nothing, [^U] clears the line, [^H] and delete take
    back a character; any other is added while there is room, and a newline,
    [^D] or the last free place of the buffer hand the line over. *)
Definition edit (x : Z) (Q L : list Z) : list Z * list Z :=
  if x =? 16 then (Q, L)
  else if x =? 21 then (Q, [])
  else if (x =? 8) || (x =? 127) then (Q, take (length L - 1) L)
  else if negb (x =? 0) && (alen Q + alen L <? INPUT_BUF) then
    let x := if x =? 13 then 10 else x in
    if (x =? 10) || (x =? 4) || (alen Q + alen L + 1 =? INPUT_BUF) then (Q ++ L ++ [x], []) else (Q, L ++ [x])
  else (Q, L).

Lemma input_buf : 0 < INPUT_BUF < 2 ^ 32 /\ (INPUT_BUF | 2 ^ 32).
Proof. split; [done|]. by exists (2 ^ 25). Qed.

Lemma alen_app {A} (a b : list A) : alen (a ++ b) = alen a + alen b.
Proof. unfold alen. rewrite length_app. lia. Qed.

Lemma shows_range c Q L : shows c Q L -> 0 <= c_r c < 2 ^ 32 /\ c_e c = u32 (c_r c + alen Q + alen L) /\ 0 <= alen Q /\ 0 <= alen L /\ alen Q + alen L <= INPUT_BUF.
Proof.
  intros [[H1 H2 H3 H4 H5] _ _ _]. rewrite alen_app in *. unfold alen in *. split_and!; try done; try lia. rewrite H3. f_equal. lia.
Qed.

(** Nothing is being edited exactly when [e] and [w] meet. *)
Lemma shows_idle c Q L : shows c Q L -> c_e c = c_w c <-> L = [].
Proof.
  intros Hs. destruct (shows_range _ _ _ Hs) as (Hr & He & HQ & HL & Hcap). rewrite He, (sh_w _ _ _ Hs). unfold INPUT_BUF in *. split.
  - intros E. destruct L as [|x L]; [done|]. exfalso. unfold alen in *. cbn [length] in *. unfold u32 in E. revert E. dlia.
  - intros ->. unfold alen. cbn [length]. by rewrite Z.add_0_r.
Qed.

(** Taking back the last character. *)
Lemma shows_back c Q L x : shows c Q (L ++ [x]) -> at_ c (c_e c - 1) = x /\ shows (echo BACKSPACE (set_e (u32 (c_e c - 1)) c)) Q L.
Proof.
  intros [H1 H2 H3 H4]. rewrite app_assoc in *. destruct (cbuf_unpush INPUT_BUF (proj1 input_buf) (proj2 input_buf) _ _ _ _ _ H1) as [Hx Hc].
  split; [unfold at_; by rewrite Hx|]. apply Forall_app in H3 as [H3 _]. apply Forall_app in H4 as [H4 _]. by split.
Qed.

Lemma kill_line_run k : forall c Q L, shows c Q L -> (length L <= k)%nat -> shows (kill_line k c) Q [].
Proof.
  induction k as [|k IH]; intros c Q L Hs Hk; cbn [kill_line].
  - by destruct L; [|cbn in Hk; lia].
  - pose proof (shows_idle _ _ _ Hs) as Hi. destruct (Z.eqb_spec (c_e c) (c_w c)) as [E|E]; cbn [negb andb]; [by rewrite (proj1 Hi E) in Hs|].
    destruct L as [|x L' _] using rev_ind; [by destruct E; apply Hi|]. destruct (shows_back _ _ _ _ Hs) as [Hx Hs']. rewrite Hx.
    pose proof (sh_line _ _ _ Hs) as [_ Hl]%Forall_app. apply Forall_cons in Hl as [Hl _]. rewrite (proj2 (Z.eqb_neq x 10)) by done. cbn [negb].
    rewrite length_app in Hk. cbn in Hk. apply (IH _ Q L'); [done|lia].
Qed.

(** Adding a character. *)
Lemma shows_add c Q L x : shows c Q L -> alen Q + alen L < INPUT_BUF -> 0 <= x < 256 ->
  cbuf INPUT_BUF (aset (c_buf c) (c_e c mod INPUT_BUF) (u8 x)) (c_r c) (u32 (c_e c + 1)) (Q ++ L ++ [x]).
Proof.
  intros Hs Hr Hx. rewrite u8_small, app_assoc by done. apply cbuf_push; try apply input_buf; [apply Hs|]. by rewrite alen_app.
Qed.

Lemma consoleintr_run c Q L x : shows c Q L -> 0 <= x < 256 ->
  shows (fst (consoleintr x c)) (fst (edit x Q L)) (snd (edit x Q L)) /\ (snd (consoleintr x c) = true <-> fst (edit x Q L) <> Q).
Proof.
  intros Hs Hx. unfold consoleintr, edit. change (ctrl 80) with 16. change (ctrl 85) with 21. change (ctrl 72) with 8. change (ctrl 68) with 4.
  destruct (x =? 16); [by split|]. destruct (shows_range _ _ _ Hs) as (Hr & He & HQ & HL & Hcap). destruct (x =? 21).
  { split; [|done]. apply (kill_line_run _ _ _ L Hs). unfold alen, INPUT_BUF in *. lia. }
  destruct ((x =? 8) || (x =? 127)).
  { split; [|done]. pose proof (shows_idle _ _ _ Hs) as Hi. cbn [fst snd]. destruct (Z.eqb_spec (c_e c) (c_w c)) as [E|E]; cbn [negb]; [by rewrite (proj1 Hi E) in *|].
    destruct L as [|y L _] using rev_ind; [by destruct E; apply Hi|]. rewrite length_app, Nat.add_sub, take_app_length. by apply (shows_back _ _ _ y). }
  assert (Ec : u32 (c_e c - c_r c) = alen Q + alen L) by (rewrite (cbuf_count INPUT_BUF (proj1 input_buf) (proj2 input_buf) _ _ _ _ (sh_buf _ _ _ Hs)); apply alen_app).
  rewrite Ec. destruct (negb (x =? 0)), (Z.ltb_spec (alen Q + alen L) INPUT_BUF) as [Hlt|Hge]; cbn [andb]; try by split.
  set (y := if x =? 13 then 10 else x). assert (Hy : 0 <= y < 256) by (unfold y; destruct (x =? 13); lia). pose proof (shows_add _ _ _ y Hs Hlt Hy) as Hadd.
  cbn [c_e c_r c_buf c_w c_uart echo]. assert (Hb : bytes (Q ++ L ++ [y])) by (rewrite app_assoc; apply Forall_app; split; [apply Hs|by apply Forall_singleton]).
  assert (Ef : (u32 (c_e c + 1) =? u32 (c_r c + INPUT_BUF)) = (alen Q + alen L + 1 =? INPUT_BUF)).
  { pose proof (cbuf_full INPUT_BUF (proj1 input_buf) (proj2 input_buf) _ _ _ _ Hadd) as Hf. rewrite !alen_app in Hf. change (alen [y]) with 1 in Hf.
    destruct (Z.eqb_spec (u32 (c_e c + 1)) (u32 (c_r c + INPUT_BUF))) as [E|E], (Z.eqb_spec (alen Q + alen L + 1) INPUT_BUF) as [E'|E']; try done; exfalso; [apply E'|apply E]; [apply Hf in E; lia|apply Hf; lia]. }
  rewrite Ef. destruct ((y =? 10) || (y =? 4) || _) eqn:Ey; cbn [fst snd].
  - split.
    + split; cbn [c_e c_r c_buf c_w]; rewrite ?app_nil_r; try done. rewrite He, !alen_app. change (alen [y]) with 1. unfold u32. rewrite Zplus_mod_idemp_l. f_equal. lia.
    + split; [|done]. intros _ E. apply (f_equal length) in E. rewrite !length_app in E. cbn in E. lia.
  - split; [|done]. split; cbn [c_e c_r c_buf c_w]; try done; [apply Hs|]. apply Forall_app. split; [apply Hs|]. apply Forall_singleton.
    apply orb_false_iff in Ey as [[Ey _]%orb_false_iff _]. by apply Z.eqb_neq.
Qed.

(** ** The bytes that wait to be sent *)

Record uholds (u : uart) (q : list Z) : Prop := {
  uh_len : alen (tx_buf u) = UART_TX_BUF_SIZE;
  uh_r : 0 <= tx_r u < UART_TX_BUF_SIZE;
  uh_w : tx_w u = (tx_r u + alen q) mod UART_TX_BUF_SIZE;
  uh_cap : alen q < UART_TX_BUF_SIZE;
  uh_slot : forall k x, q !! k = Some x -> aget (tx_buf u) ((tx_r u + Z.of_nat k) mod UART_TX_BUF_SIZE) = Some x }.

Lemma uholds_pop u x q l : uholds u (x :: q) -> aget (tx_buf u) (tx_r u) = Some x /\
  uholds (mk_uart (tx_buf u) (tx_w u) ((tx_r u + 1) mod UART_TX_BUF_SIZE) l (thr u ++ [x])) q.
Proof.
  intros [H1 H2 H3 H4 H5]. unfold UART_TX_BUF_SIZE, alen in *. cbn [length] in *. split.
  - specialize (H5 O x eq_refl). by rewrite Z.add_0_r, Z.mod_small in H5.
  - split; cbn [tx_buf tx_w tx_r]; unfold UART_TX_BUF_SIZE, alen; [done|dlia| |lia|].
    + rewrite H3, Zplus_mod_idemp_l. f_equal. lia.
    + intros k y Hk. rewrite Zplus_mod_idemp_l. rewrite <- (H5 (S k) y Hk). f_equal. f_equal. lia.
Qed.

Lemma uholds_push u q x : uholds u q -> alen q < UART_TX_BUF_SIZE - 1 ->
  uholds (mk_uart (aset (tx_buf u) (tx_w u) x) ((tx_w u + 1) mod UART_TX_BUF_SIZE) (tx_r u) (lsr u) (thr u)) (q ++ [x]).
Proof.
  intros [H1 H2 H3 H4 H5] Hc. assert (Ha : alen (q ++ [x]) = alen q + 1) by (by rewrite alen_app). unfold UART_TX_BUF_SIZE in *. unfold alen in H4, Hc.
  split; cbn [tx_buf tx_w tx_r]; unfold UART_TX_BUF_SIZE; rewrite ?alen_aset, ?Ha; try done.
  - rewrite H3, Zplus_mod_idemp_l. f_equal. lia.
  - unfold alen in *. lia.
  - intros k y Hk. apply lookup_app_Some in Hk as [Hk|[Hk Hx]].
    + rewrite aget_aset_ne; [by apply H5| |rewrite H3; unfold alen; dlia]. apply lookup_lt_Some in Hk. rewrite H3. unfold alen. dlia.
    + assert (Hk' : k = length q) by (apply lookup_lt_Some in Hx; cbn in Hx; lia). subst k. rewrite Nat.sub_diag in Hx. injection Hx as <-.
      rewrite H3. fold (alen q). apply aget_aset_eq. rewrite H1. dlia.
Qed.

(** [uartstart] sends a prefix of what waits, as much as the device takes. *)
Lemma uartstart_run fuel : forall u q, uholds u q -> (length q < fuel)%nat ->
  exists u' q1 q2 l, uartstart fuel u = Some u' /\ q = q1 ++ q2 /\ uholds u' q2 /\ thr u' = thr u ++ q1 /\
    lsr u = replicate (length q1) true ++ l /\ (q2 <> [] -> head l <> Some true).
Proof.
  induction fuel as [|fuel IH]; intros u q Hu Hf; [lia|]. cbn [uartstart]. destruct q as [|x q].
  - assert (E : tx_w u = tx_r u) by (rewrite (uh_w _ _ Hu); unfold alen; cbn; rewrite Z.add_0_r; apply Z.mod_small, Hu).
    rewrite (proj2 (Z.eqb_eq _ _) E). exists u, [], [], (lsr u). split_and!; by rewrite ?app_nil_r.
  - assert (E : tx_w u <> tx_r u).
    { rewrite (uh_w _ _ Hu). pose proof (uh_r _ _ Hu). pose proof (uh_cap _ _ Hu). unfold UART_TX_BUF_SIZE, alen in *. cbn [length] in *. dlia. }
    rewrite (proj2 (Z.eqb_neq _ _) E). destruct (lsr u) as [|[|] l] eqn:El.
    + exists u, [], (x :: q), []. split_and!; by rewrite ?app_nil_r.
    + destruct (uholds_pop u x q l Hu) as [Hx Hu']. rewrite Hx. destruct (IH _ q Hu' ltac:(cbn in Hf; lia)) as (u' & q1 & q2 & l' & R & -> & H1 & H2 & H3 & H4).
      exists u', (x :: q1), q2, l'. cbn [thr lsr] in *. split_and!; try done; [by rewrite H2, <- app_assoc|cbn; by rewrite H3].
    + exists (mk_uart (tx_buf u) (tx_w u) (tx_r u) l (thr u)), [], (x :: q), (false :: l). split_and!; rewrite ?app_nil_r; try done. by destruct Hu.
Qed.

Lemma uartputc_run u q c : uholds u q ->
  if alen q =? UART_TX_BUF_SIZE - 1 then uartputc c u = Some None
  else exists u' q', uartputc c u = Some (Some u') /\ uholds u' q' /\ thr u' ++ q' = thr u ++ q ++ [u8 c].
Proof.
  intros Hu. pose proof Hu as [H1 H2 H3 H4 H5]. unfold uartputc.
  assert (E : ((tx_w u + 1) mod UART_TX_BUF_SIZE =? tx_r u) = (alen q =? UART_TX_BUF_SIZE - 1)).
  { rewrite H3. unfold UART_TX_BUF_SIZE, alen in *. rewrite Zplus_mod_idemp_l.
    destruct (Z.eqb_spec ((tx_r u + Z.of_nat (length q) + 1) mod 32) (tx_r u)), (Z.eqb_spec (Z.of_nat (length q)) (32 - 1)); try done; dlia. }
  rewrite E. destruct (Z.eqb_spec (alen q) (UART_TX_BUF_SIZE - 1)) as [Hf|Hf]; [done|]. unfold UART_TX_BUF_SIZE in H4, Hf.
  destruct (uartstart_run start_fuel _ _ (uholds_push u q (u8 c) Hu ltac:(unfold UART_TX_BUF_SIZE; lia))) as (u' & q1 & q2 & l & R & Eq & Hu' & Ht & _).
  { rewrite length_app. cbn. unfold start_fuel, alen in *. lia. }
  rewrite R. exists u', q2. split_and!; try done. rewrite Ht. cbn [thr]. by rewrite <- app_assoc, <- Eq.
Qed.

(** ** Reading *)

Lemma shows_take c x Q L : shows c (x :: Q) L -> c_r c <> c_w c /\ at_ c (c_r c) = x /\ 0 <= x < 256 /\ shows (set_r (u32 (c_r c + 1)) c) Q L.
Proof.
  intros Hs. destruct (shows_range _ _ _ Hs) as (Hr & He & HQ & HL & Hcap). pose proof Hs as [H1 H2 H3 H4]. cbn [app] in *.
  destruct (cbuf_pop INPUT_BUF (proj1 input_buf) (proj2 input_buf) _ _ _ _ _ H1) as [Hx Hc]. apply Forall_cons in H4 as [H4 H5].
  assert (alen (x :: Q) = 1 + alen Q) by (unfold alen; cbn; lia). split_and!.
  - rewrite H2. clear -Hr Hcap HQ HL. unfold u32, alen, INPUT_BUF in *. cbn in *. dlia.
  - unfold at_. rewrite u32_small by done. by rewrite Hx.
  - apply H4.
  - apply H4.
  - split; cbn [c_buf c_r c_w c_e set_r]; try done. rewrite H2. unfold u32. rewrite Zplus_mod_idemp_l. f_equal. lia.
Qed.

(** How reading ends, with the bytes [d] read and [rest] unread: [Q] are the
    bytes left. *)
Inductive ended (target n dst : Z) (killed : bool) (d rest : list Z) : list Z -> rend -> Prop :=
| en_full : alen d = n -> ended target n dst killed d rest rest (RRet (target - n + alen d))
| en_line : last d = Some 10 -> ended target n dst killed d rest rest (RRet (target - n + alen d))
| en_eof r' : rest = 4 :: r' -> ended target n dst killed d rest (if target - n + alen d =? 0 then r' else rest) (RRet (target - n + alen d))
| en_bad x r' : rest = x :: r' -> ended target n dst killed d rest r' (RRet (target - n + alen d))
| en_empty : rest = [] -> ended target n dst killed d rest [] (if killed then RFail else RSleep (n - alen d) (dst + alen d)).

Section read.
Context {U : Type} `{UserMem U}.

(** What a reader gets in user memory. *)
Definition got (dst : Z) (d : list Z) (u u' : U) : Prop :=
  forall a, 0 <= a -> uview u' a = if decide (dst <= a < dst + alen d) then d !! Z.to_nat (a - dst) else uview u a.

Lemma got_nil dst u : got dst [] u u.
Proof. intros a Ha. by rewrite decide_False by (unfold alen; cbn; lia). Qed.
Lemma got_cons dst x d u u1 u' : (forall a, 0 <= a -> uview u1 a = if decide (a = dst) then Some x else uview u a) -> got (dst + 1) d u1 u' -> got dst (x :: d) u u'.
Proof.
  intros H1 H2 a Ha. rewrite (H2 a Ha). unfold alen. cbn [length]. destruct (decide (a = dst)) as [->|Hne].
  - rewrite decide_False, H1, !decide_True by lia. by rewrite Z.sub_diag.
  - destruct (decide (dst + 1 <= a < dst + 1 + Z.of_nat (length d))) as [Hr|Hr].
    + rewrite decide_True by lia. replace (Z.to_nat (a - dst)) with (S (Z.to_nat (a - (dst + 1)))) by lia. done.
    + rewrite decide_False, H1, decide_False by lia. done.
Qed.

(** A line read: no [^D] in it, and a newline only at its end. *)
Record one_line (d : list Z) : Prop := { ol_eof : Forall (fun x => x <> 4) d; ol_end : forall i, d !! i = Some 10 -> S i = length d }.
Lemma one_line_cons x d : x <> 4 -> x <> 10 -> one_line d -> one_line (x :: d).
Proof.
  intros H1 H2 [H3 H4]. split; [by constructor|]. intros [|i] Hi; [by injection Hi|]. cbn. f_equal. by apply H4.
Qed.
Lemma one_line_nil : one_line [].
Proof. split; [constructor|]. intros i Hi. by rewrite lookup_nil in Hi. Qed.

(** One more byte before the rest. *)
Lemma ended_cons target n dst killed x d rest Q e : ended target (n - 1) (dst + 1) killed d rest Q e -> ended target n dst killed (x :: d) rest Q e.
Proof.
  assert (E : alen (x :: d) = alen d + 1) by (unfold alen; cbn; lia). intros [H1|H1|r' H1|y r' H1|H1].
  - replace (target - (n - 1) + alen d) with (target - n + alen (x :: d)) by lia. constructor. lia.
  - replace (target - (n - 1) + alen d) with (target - n + alen (x :: d)) by lia. apply en_line. by destruct d.
  - replace (target - (n - 1) + alen d) with (target - n + alen (x :: d)) by lia. by apply en_eof.
  - replace (target - (n - 1) + alen d) with (target - n + alen (x :: d)) by lia. by eapply en_bad.
  - replace (n - 1 - alen d) with (n - alen (x :: d)) by lia. replace (dst + 1 + alen d) with (dst + alen (x :: d)) by lia. by apply en_empty.
Qed.

Lemma consoleread_run k : forall target n dst killed u c Q L, shows c Q L -> uok u -> k = Z.to_nat n -> 0 <= n <= target -> 0 <= dst -> dst + n < 2 ^ 64 ->
  exists c' u' e d rest Q', consoleread k target n dst killed u c = (c', u', e) /\ Q = d ++ rest /\ shows c' Q' L /\ uok u' /\
    ended target n dst killed d rest Q' e /\ one_line d /\ got dst d u u'.
Proof.
  induction k as [|k IH]; intros target n dst killed u c Q L Hs Hu Ek Hn Hd Hdn.
  { exists c, u, (RRet (target - n)), [], Q, Q. split_and!; try done; try apply one_line_nil; try apply got_nil.
    replace (target - n) with (target - n + alen (@nil Z)) by (unfold alen; cbn; lia). constructor. unfold alen. cbn. lia. }
  cbn [consoleread]. destruct Q as [|x Q].
  { rewrite (proj2 (Z.eqb_eq (c_r c) (c_w c))).
    2: { rewrite (sh_w _ _ _ Hs). unfold alen. cbn. rewrite Z.add_0_r. symmetry. apply u32_small, (cb_r _ _ _ _ _ (sh_buf _ _ _ Hs)). }
    eexists c, u, _, [], [], []. split_and!; try done; try apply one_line_nil; try apply got_nil.
    pose proof (en_empty target n dst killed [] [] eq_refl) as E. change (alen (@nil Z)) with 0 in E. by rewrite Z.sub_0_r, Z.add_0_r in E. }
  destruct (shows_take _ _ _ _ Hs) as (Hne & Hx & Hxr & Hs'). rewrite (proj2 (Z.eqb_neq _ _) Hne), Hx. change (ctrl 68) with 4.
  assert (E0 : target - n = target - n + alen (@nil Z)) by (unfold alen; cbn; lia).
  destruct (Z.eqb_spec x 4) as [->|Hx4].
  { eexists _, u, _, [], (4 :: Q), _. split; [reflexivity|]. split; [done|]. split; [|split; [done|]; split; [rewrite E0; by apply en_eof|]; split; [apply one_line_nil|apply got_nil]].
    rewrite <- E0. destruct (Z.ltb_spec n target), (Z.eqb_spec (target - n) 0); try lia; [|done].
    assert (E : set_r (u32 (c_r (set_r (u32 (c_r c + 1)) c) - 1)) (set_r (u32 (c_r c + 1)) c) = c); [|by rewrite E].
    unfold set_r. cbn. destruct (shows_range _ _ _ Hs) as (Hr & _). replace (u32 (u32 (c_r c + 1) - 1)) with (c_r c); [by destruct c|].
    clear -Hr. unfold u32. rewrite Zminus_mod_idemp_l, Z.add_simpl_r. symmetry. by apply Z.mod_small. }
  destruct (ucopyout_byte u dst x Hu Hd Hxr) as (b & u1 & Ec & Hu1 & Hv). rewrite Ec. destruct b.
  2: { eexists _, u1, _, [], (x :: Q), Q. split; [reflexivity|]. split; [done|]. split; [done|]. split; [done|]. split; [rewrite E0; by eapply en_bad|]. split; [apply one_line_nil|].
       intros a Ha. rewrite (Hv a Ha), decide_False by naive_solver. by rewrite decide_False by (unfold alen; cbn; lia). }
  assert (Hv1 : forall a, 0 <= a -> uview u1 a = if decide (a = dst) then Some x else uview u a).
  { intros a Ha. rewrite (Hv a Ha). destruct (decide (a = dst)); [rewrite decide_True by done|rewrite decide_False by naive_solver]; done. }
  destruct (Z.eqb_spec x 10) as [->|Hx10].
  { eexists _, u1, _, [10], Q, Q. split; [reflexivity|]. split; [done|]. split; [done|]. split; [done|]. split; [|split; [|eapply got_cons; [done|apply got_nil]]].
    - replace (target - (n - 1)) with (target - n + alen [10]) by (unfold alen; cbn; lia). by apply en_line.
    - split; [by repeat constructor|]. intros [|i] Hi; [done|]. by rewrite lookup_cons, lookup_nil in Hi. }
  rewrite u64_small by lia. destruct (IH target (n - 1) (dst + 1) killed u1 _ Q L Hs' Hu1 ltac:(lia) ltac:(lia) ltac:(lia) ltac:(lia))
    as (c' & u' & e & d & rest & Q' & R & -> & H1 & H2 & H3 & H4 & H5).
  exists c', u', e, (x :: d), rest, Q'. split_and!; try done; try (by apply ended_cons); try (by apply one_line_cons). by eapply got_cons.
Qed.

(** [consoleread] delivers one line: the bytes put into user memory are the
    next ones typed, in order, at most [n], with a newline only at their end and
    no [^D] among them. It stops there, or before a [^D], which ends the file
    once; it sleeps, or fails when killed, only if every byte that can be read
    has been delivered. The line being edited stays as it is. *)
Theorem consoleread_line target dst killed u c Q L : shows c Q L -> uok u -> 0 <= target -> 0 <= dst -> dst + target < 2 ^ 64 ->
  exists c' u' e d rest Q', consoleread (Z.to_nat target) target target dst killed u c = (c', u', e) /\ Q = d ++ rest /\ shows c' Q' L /\ uok u' /\
    ended target target dst killed d rest Q' e /\ one_line d /\ got dst d u u'.
Proof. intros Hs Hu Ht Hd Hdt. apply consoleread_run; try done; lia. Qed.
End read.

(** C34: the keyboard interrupt edits the line as its specification says: at any
    time the buffer holds the lines handed over and the line being edited, and
    the readers are woken exactly when a line is handed over. *)
Theorem console_line_editing c Q L x : shows c Q L -> 0 <= x < 256 ->
  shows (fst (consoleintr x c)) (fst (edit x Q L)) (snd (edit x Q L)) /\ (snd (consoleintr x c) = true <-> fst (edit x Q L) <> Q).
Proof. apply consoleintr_run. Qed.

(** ** Typing [hi], a correction and a newline *)

Definition ex_cons : cons := mk_cons (replicate 128 0) 0 0 0 (mk_uart (replicate 32 0) 0 0 [] []).
Lemma ex_shows : shows ex_cons [] [].
Proof. split; [by apply cbuf_init; try apply input_buf|done|constructor|constructor]. Qed.

Lemma console_line_editing_witness : shows (fst (consoleintr 104 ex_cons)) [] [104] /\ edit 8 [] [104] = ([], []).
Proof. split; [|done]. destruct (console_line_editing ex_cons [] [] 104 ex_shows ltac:(lia)) as [H _]. exact H. Defined.

Definition ex_user : gmap Z Z := {[ 100 := 0; 101 := 0; 102 := 0; 103 := 0 ]}.
Definition ex_typed : cons := fst (consoleintr 10 (fst (consoleintr 104 ex_cons))).
Lemma consoleread_line_witness : exists c' u', consoleread 4 4 4 100 false ex_user ex_typed = (c', u', RRet 2) /\ u' = <[100 := 104]> (<[101 := 10]> ex_user).
Proof.
  destruct (consoleintr_run ex_cons [] [] 104 ex_shows ltac:(lia)) as [H1 _]. destruct (consoleintr_run _ _ _ 10 H1 ltac:(lia)) as [H2 _].
  destruct (consoleread_line 4 100 false ex_user ex_typed [104; 10] [] H2) as (c' & u' & e & d & rest & Q' & R & _);
    [by apply map_Forall_to_list; repeat constructor|lia|lia|lia|]. exists c', u'.
  assert (E : (consoleread 4 4 4 100 false ex_user ex_typed).2 = RRet 2 /\ (consoleread 4 4 4 100 false ex_user ex_typed).1.2 = <[100 := 104]> (<[101 := 10]> ex_user)) by (vm_compute; done).
  change (Z.to_nat 4) with 4%nat in R. rewrite R in E. cbn in E. destruct E as [-> ->]. split; [exact R|reflexivity].
Defined.

End Console.
