(* ===== verification/File.v ===== *)
(** Open files, [src/kernel/filesystem/file.c]: the table of files, reference
    counts, and reading and writing through a file.

    The state has the file system, the table and what else a file can stand for:
    pipes, the console and sockets, whose free pages are those of [Net.v]. The
    functions run in the calling process, one system call at a time; where the
    source sleeps there is no result, since nobody else runs. What [printf]
    reports is not modelled. *)

From S2P Require Import Prelude Mem Umem Log Store Fs Pipe Console Net.
Import Umem Store Fs.

Module File.

Definition NFILE : nat := 100.
Definition NDEV : Z := 10.
Definition CONSOLE : Z := 1.

Inductive ftype := FD_NONE | FD_PIPE | FD_INODE | FD_DEVICE | FD_SOCK.

(** [struct file]; [f_pipe] and [f_sock] are pages, [f_ip] an entry of the inode
    cache. *)
Record file := mk_file {
  f_type : ftype; f_ref : Z; f_readable : Z; f_writable : Z;
  f_pipe : Z; f_ip : nat; f_sock : Z; f_off : Z; f_major : Z }.
Definition with_ref (r : Z) (f : file) : file :=
  mk_file (f_type f) r (f_readable f) (f_writable f) (f_pipe f) (f_ip f) (f_sock f) (f_off f) (f_major f).
Definition with_type (t : ftype) (f : file) : file :=
  mk_file t (f_ref f) (f_readable f) (f_writable f) (f_pipe f) (f_ip f) (f_sock f) (f_off f) (f_major f).
Definition with_off (o : Z) (f : file) : file :=
  mk_file (f_type f) (f_ref f) (f_readable f) (f_writable f) (f_pipe f) (f_ip f) (f_sock f) o (f_major f).

Section file.
Context {S : Type} `{TxnStore S} {U : Type} `{UserMem U}.
Abbreviation fstate := (fs (S := S) (U := U)).

(** [io_killed] is [myproc()->killed]; [io_pipes] has the pipes by their page. *)
Record io := mk_io {
  io_fs : fstate; io_ftable : list file; io_pipes : gmap Z Pipe.pipe; io_cons : Console.cons; io_net : Net.net; io_killed : bool }.
Definition set_fs (x : fstate) (s : io) : io := mk_io x (io_ftable s) (io_pipes s) (io_cons s) (io_net s) (io_killed s).
Definition set_ftable (x : list file) (s : io) : io := mk_io (io_fs s) x (io_pipes s) (io_cons s) (io_net s) (io_killed s).
Definition set_pipes (x : gmap Z Pipe.pipe) (s : io) : io := mk_io (io_fs s) (io_ftable s) x (io_cons s) (io_net s) (io_killed s).
Definition set_cons (x : Console.cons) (s : io) : io := mk_io (io_fs s) (io_ftable s) (io_pipes s) x (io_net s) (io_killed s).
Definition set_net (x : Net.net) (s : io) : io := mk_io (io_fs s) (io_ftable s) (io_pipes s) (io_cons s) x (io_killed s).

Definition on_fs {A} (m : M fstate A) : M io A := zoom io_fs set_fs m.
Definition on_net {A} (m : M Net.net A) : M io A := zoom io_net set_net m.
(** With the network and user memory. *)
Definition on_sock {A} (m : M (Net.net * U) A) : M io A :=
  zoom (fun s => (io_net s, user (io_fs s))) (fun p s => set_net p.1 (set_fs (set_user p.2 (io_fs s)) s)) m.
Definition get_file (f : nat) : M io file := fun s => deref (io_ftable s !! f) s.
Definition mod_file (f : nat) (g : file -> file) : M io unit := fun s =>
  match io_ftable s !! f with Some x => Ret tt (set_ftable (<[f := g x]> (io_ftable s)) s) | None => Fault end.
Definition begin_ : M io unit := on_fs (disk begin_op).
Definition end_ : M io unit := on_fs (disk end_op).

(** ** The table *)

Fixpoint free_slot (l : list file) (f : nat) : option nat :=
  match l with
  | [] => None
  | x :: l => if f_ref x =? 0 then Some f else free_slot l (Datatypes.S f)
  end.
Definition filealloc : M io (option nat) :=
  let* l := gets io_ftable in
  match free_slot l 0 with
  | Some f => mod_file f (with_ref 1) ;;; ret (Some f)
  | None => ret None
  end.

Definition filedup (f : nat) : M io nat :=
  let* x := get_file f in
  if f_ref x <? 1 then panic "filedup"
  else mod_file f (with_ref (s32 (f_ref x + 1))) ;;; ret f.

(** [pipeclose]: the page of a pipe with both ends closed is freed. *)
Definition pipeclose (pi : Z) (writable : Z) : M io unit :=
  let* ps := gets io_pipes in
  let* p := deref (ps !! pi) in
  match Pipe.pipeclose (negb (writable =? 0)) p with
  | (p', false) => modify (set_pipes (<[pi := p']> ps))
  | (_, true) =>
      modify (set_pipes (delete pi ps)) ;;;
      on_net (modify (fun n => Net.set_pages (pi :: Net.pages n) n))
  end.

Definition fileclose (f : nat) : M io unit :=
  let* x := get_file f in
  if f_ref x <? 1 then panic "fileclose"
  else
    let r := f_ref x - 1 in
    mod_file f (with_ref r) ;;;
    if 0 <? r then ret tt
    else
      let ff := x in
      mod_file f (with_ref 0) ;;;
      mod_file f (with_type FD_NONE) ;;;
      match f_type ff with
      | FD_PIPE => pipeclose (f_pipe ff) (f_writable ff)
      | FD_INODE | FD_DEVICE => begin_ ;;; on_fs (iput (f_ip ff)) ;;; end_
      | FD_SOCK => on_net (Net.sockclose (f_sock ff))
      | FD_NONE => ret tt
      end.

(** ** Metadata *)

(** [struct stat] in memory; [pad] are the four bytes between its fields. *)
Definition stat_bytes (st : stat) (pad : list Z) : list Z :=
  Net.le32 (st_dev st) ++ Net.le32 (st_ino st) ++ [u8 (st_type st); u8 (st_mode st)] ++ Net.le16 (st_nlink st) ++ pad ++
  Net.le32 (st_size st) ++ [0; 0; 0; 0].

Definition copyout_user (addr : Z) (bs : list Z) : M io Z := on_fs (either_copyout 1 addr bs).

Definition filestat (pad : list Z) (f : nat) (addr : Z) : M io Z :=
  let* x := get_file f in
  match f_type x with
  | FD_INODE | FD_DEVICE =>
      on_fs (ilock (Some (f_ip x))) ;;;
      let* st := on_fs (stati (f_ip x)) in
      on_fs (iunlock (Some (f_ip x))) ;;;
      let* r := copyout_user addr (stat_bytes st pad) in
      ret (if r <? 0 then -1 else 0)
  | _ => ret (-1)
  end.

(** ** Reading *)

Definition piperead (pi addr n : Z) : M io Z :=
  let* ps := gets io_pipes in
  let* p := deref (ps !! pi) in
  let* killed := gets io_killed in
  let* u := on_fs (gets user) in
  match Pipe.piperead n addr killed u p with (p', u', e) =>
    modify (set_pipes (<[pi := p']> ps)) ;;;
    on_fs (modify (set_user u')) ;;;
    match e with Pipe.RRet r => ret r | Pipe.RFail => ret (-1) | Pipe.RSleep => nofuel end
  end.

(** [devsw[major].read]: the console's, or none. *)
Definition devread (major addr n : Z) : M io Z :=
  if negb (major =? CONSOLE) then ret (-1)
  else
    let* killed := gets io_killed in
    let* c := gets io_cons in
    let* u := on_fs (gets user) in
    match Console.consoleread (Z.to_nat n) n n addr killed u c with (c', u', e) =>
      modify (set_cons c') ;;;
      on_fs (modify (set_user u')) ;;;
      match e with Console.RRet r => ret r | Console.RFail => ret (-1) | Console.RSleep _ _ => nofuel end
    end.

Definition fileread (f : nat) (addr n : Z) : M io Z :=
  let* x := get_file f in
  if f_readable x =? 0 then ret (-1)
  else
    match f_type x with
    | FD_PIPE => piperead (f_pipe x) addr n
    | FD_DEVICE => if (f_major x <? 0) || (NDEV <=? f_major x) then ret (-1) else devread (f_major x) addr n
    | FD_INODE =>
        on_fs (ilock (Some (f_ip x))) ;;;
        let* i := on_fs (geti (f_ip x)) in
        if Z.land (i_mode i) 1 =? 0 then on_fs (iunlock (Some (f_ip x))) ;;; ret (-1)
        else
          let* r := on_fs (readi (f_ip x) 1 addr (f_off x) (u32 n)) in
          when (0 <? r) (mod_file f (fun x => with_off (u32 (f_off x + r)) x)) ;;;
          on_fs (iunlock (Some (f_ip x))) ;;;
          ret r
    | FD_SOCK => let* killed := gets io_killed in on_sock (Net.sockread killed (f_sock x) addr n)
    | FD_NONE => panic "fileread"
    end.

(** ** Writing *)

Definition pipewrite (pi addr n : Z) : M io Z :=
  let* ps := gets io_pipes in
  let* p := deref (ps !! pi) in
  let* killed := gets io_killed in
  let* u := on_fs (gets user) in
  match Pipe.pipewrite (Z.to_nat n) 0 addr killed u p with (p', e) =>
    modify (set_pipes (<[pi := p']> ps)) ;;;
    match e with Pipe.WRet r => ret r | Pipe.WFail => ret (-1) | Pipe.WSleep _ => nofuel end
  end.

Definition devwrite (major addr n : Z) : M io Z :=
  if negb (major =? CONSOLE) then ret (-1)
  else
    let* c := gets io_cons in
    let* u := on_fs (gets user) in
    match Console.consolewrite (Z.to_nat n) 0 addr u (Console.c_uart c) with (t, e) =>
      modify (set_cons (Console.mk_cons (Console.c_buf c) (Console.c_r c) (Console.c_w c) (Console.c_e c) t)) ;;;
      match e with Console.WRet r => ret r | _ => nofuel end
    end.

(** [((MAXOPBLOCKS-1-1-2) / 2) * BSIZE]: three blocks. *)
Definition MAXWRITE : Z := ((Log.MAXOPBLOCKS - 1 - 1 - 2) / 2) * BSIZE.

(** The transaction of a round of [filewrite], for [n1] bytes from [addr + i]: what
    [writei] returns, or [None] when the inode may not be written. *)
Definition filewrite_round (f ip : nat) (addr i n1 : Z) : M io (option Z) :=
  begin_ ;;;
  on_fs (ilock (Some ip)) ;;;
  let* x := on_fs (geti ip) in
  if Z.land (i_mode x) 2 =? 0 then on_fs (iunlock (Some ip)) ;;; end_ ;;; ret None
  else
    let* y := get_file f in
    let* r := on_fs (writei ip 1 (u64 (addr + i)) (f_off y) (u32 n1)) in
    when (0 <? r) (mod_file f (fun y => with_off (u32 (f_off y + r)) y)) ;;;
    on_fs (iunlock (Some ip)) ;;;
    end_ ;;;
    ret (Some r).
(** The loop from byte [i]; it returns the bytes written. *)
Fixpoint filewrite_loop (fuel : nat) (f ip : nat) (addr n i : Z) : M io (option Z) :=
  match fuel with
  | O => nofuel
  | Datatypes.S fuel =>
      if i <? n then
        let n1 := Z.min (n - i) MAXWRITE in
        let* r := filewrite_round f ip addr i n1 in
        match r with
        | None => ret None
        | Some r =>
            if r <? 0 then ret (Some i)
            else if negb (r =? n1) then panic "short filewrite"
            else filewrite_loop fuel f ip addr n (i + r)
        end
      else ret (Some i)
  end.
Definition write_fuel (n : Z) : nat := Z.to_nat (n / MAXWRITE + 2).

Definition filewrite (local_ip : Z) (local_mac : list Z) (f : nat) (addr n : Z) : M io Z :=
  let* x := get_file f in
  if f_writable x =? 0 then ret (-1)
  else
    match f_type x with
    | FD_PIPE => pipewrite (f_pipe x) addr n
    | FD_DEVICE => if (f_major x <? 0) || (NDEV <=? f_major x) then ret (-1) else devwrite (f_major x) addr n
    | FD_INODE =>
        let* r := filewrite_loop (write_fuel n) f (f_ip x) addr n 0 in
        match r with
        | None => ret (-1)
        | Some i => ret (if i =? n then n else -1)
        end
    | FD_SOCK => on_sock (Net.sockwrite local_ip local_mac (f_sock x) addr n)
    | FD_NONE => panic "filewrite"
    end.
End file.

End File.
