(* ===== verification/Filespec.v ===== *)
(** What [file.c] promises: a write through a file, in as many transactions as it
    needs, is on the disk when [filewrite] returns. *)

From S2P Require Import Prelude Mem Umem Blk Log Store Fs Fsalloc Fsmap Fsread Fswrite Fsspec Pipe Console Net Netudp File.
Import Umem Store Fs Fsalloc Fsmap Fsread Fswrite Fsspec File.

Module Filespec.

Section spec.
Context {S : Type} {ST : Store S} {TS : TxnStore S} {U : Type} {UM : UserMem U}.
Context (x : superblock).
Hypothesis Hx : geom x.
Abbreviation fstate := (fs (S := S) (U := U)).
Abbreviation iostate := (io (S := S) (U := U)).

(** The state with another inode at [ip], disk and offset of [f]. *)
Definition after (s : iostate) (ip : nat) (xi : inode) (d : S) (f : nat) (y : file) : iostate :=
  set_ftable (<[f := y]> (io_ftable s)) (set_fs (put_inode (io_fs s) ip xi d) s).

Lemma on_fs_run {A} (m : M fstate A) (s : iostate) a t : m (io_fs s) = Ret a t -> on_fs m s = Ret a (set_fs t s).
Proof. intros E. unfold on_fs, zoom. by rewrite E. Qed.

Lemma begin_run (s : iostate) V : quiet (dsk (io_fs s)) V ->
  exists d, begin_ s = Ret tt (set_fs (set_dsk d (io_fs s)) s) /\ sees d V V [] ∅ Log.MAXOPBLOCKS.
Proof.
  intros Hq. destruct (begin_quiet _ _ Hq) as (d & R & Hs). exists d. split; [|done]. apply on_fs_run. by apply disk_run.
Qed.

Lemma end_run (s : iostate) V D L cap : sees (dsk (io_fs s)) V D [] L cap -> 0 <= cap ->
  exists d, end_ s = Ret tt (set_fs (set_dsk d (io_fs s)) s) /\ quiet d V.
Proof.
  intros Hs Hc. destruct (end_quiet _ _ _ _ _ Hs Hc) as (d & R & Hq). exists d. split; [|done]. apply on_fs_run. by apply disk_run.
Qed.

(** An inode of the cache that is in use, read from the disk, and not locked. *)
Record cached (xi : inode) : Prop := { ca_ref : 1 <= i_ref xi; ca_valid : i_valid xi <> 0; ca_free : i_locked xi = false }.

Lemma ilock_run (s : fstate) ip xi : icache s !! ip = Some xi -> cached xi -> ilock (Some ip) s = Ret tt (put_inode s ip (with_lock true xi) (dsk s)).
Proof.
  intros Hip [H1 H2 H3]. cbn [ilock]. rewrite (bind_Ret _ _ _ _ _ (geti_run s ip xi Hip)), (proj2 (Z.ltb_ge _ _)), H3 by lia.
  rewrite (bind_Ret _ _ _ _ _ (modi_run s ip xi _ Hip)), (proj2 (Z.eqb_neq _ _)) by done. by destruct s.
Qed.

Lemma iunlock_run (s : fstate) ip xi : icache s !! ip = Some xi -> i_locked xi = true -> 1 <= i_ref xi ->
  iunlock (Some ip) s = Ret tt (put_inode s ip (with_lock false xi) (dsk s)).
Proof.
  intros Hip H1 H2. cbn [iunlock]. rewrite (bind_Ret _ _ _ _ _ (geti_run s ip xi Hip)), H1, (proj2 (Z.ltb_ge _ _)) by lia. cbn [negb orb].
  rewrite (modi_run s ip xi _ Hip). by destruct s.
Qed.

Lemma mod_file_run (s : iostate) f y g : io_ftable s !! f = Some y -> mod_file f g s = Ret tt (set_ftable (<[f := g y]> (io_ftable s)) s).
Proof. intros E. unfold mod_file. by rewrite E. Qed.
Lemma get_file_run (s : iostate) f y : io_ftable s !! f = Some y -> get_file f s = Ret y s.
Proof. intros E. unfold get_file. by rewrite E. Qed.

(** ** The free blocks and what a round takes of them *)

(** The free blocks in the order in which [balloc] takes them. *)
Definition free_blocks (V : Z -> block) : list Z := filter (fun b => allocated x V b = false) (seqZ 0 (sb_size x)).
(** The bitmap blocks with the bits of [l]. *)
Definition bitmaps (l : list Z) : gset Z := list_to_set ((fun b => BBLOCK b x) <$> l).
(** The bits of any seven free blocks in a row are in at most two bitmap blocks. *)
Definition gathered (V : Z -> block) : Prop := forall i, (size (bitmaps (take 7 (drop i (free_blocks V)))) <= 2)%nat.
(** The places of [P] that have no block yet. *)
Definition missing (V : Z -> block) (ad : list Z) (P : list place) : nat := length (filter (fun p => val V ad p = 0) P).

Lemma filter_iff_in {A} (Q R : A -> Prop) `{forall a, Decision (Q a), forall a, Decision (R a)} (l : list A) :
  (forall a, a ∈ l -> Q a <-> R a) -> filter Q l = filter R l.
Proof using.
  induction l as [|a l IH]; intros Hl; [done|]. rewrite !filter_cons, IH by (intros a' Ha'; apply Hl; by right).
  pose proof (Hl a ltac:(by left)). by repeat case_decide; tauto.
Qed.

Lemma free_first V b : first x V b -> exists l, free_blocks V = b :: l /\
  forall V', (forall n, 0 <= n < sb_size x -> allocated x V' n = (n =? b) || allocated x V n) -> free_blocks V' = l.
Proof using.
  intros (Hb & Hf & Hlow). assert (E : seqZ 0 (sb_size x) = seqZ 0 b ++ b :: seqZ (b + 1) (sb_size x - b - 1)).
  { replace (sb_size x) with (b + (sb_size x - b)) at 1 by lia. rewrite seqZ_app by lia. f_equal. rewrite (seqZ_cons (0 + b)) by lia. f_equal; lia. }
  exists (filter (fun n => allocated x V n = false) (seqZ (b + 1) (sb_size x - b - 1))). unfold free_blocks. rewrite E, filter_app.
  assert (Hnil : forall V', (forall n, 0 <= n < b -> allocated x V' n = true) -> filter (fun n => allocated x V' n = false) (seqZ 0 b) = []).
  { intros V' HV'. destruct (filter _ _) as [|n l] eqn:El; [done|]. assert (Hn : n ∈ n :: l) by (by left). rewrite <- El in Hn.
    apply list_elem_of_filter in Hn as [Hn Hr%elem_of_seqZ]. rewrite HV' in Hn by lia. done. }
  split; [rewrite Hnil by done; by rewrite app_nil_l, filter_cons_True|]. intros V' HV'. rewrite filter_app, Hnil by (intros n Hn; rewrite HV', Hlow, orb_true_r by lia; done).
  rewrite app_nil_l, filter_cons_False by (rewrite HV', Z.eqb_refl by lia; done). apply filter_iff_in. intros n Hn%elem_of_seqZ.
  rewrite HV', (proj2 (Z.eqb_neq _ _)) by lia. done.
Qed.

Section round.
Context (P : list place) (V0 : Z -> block) (ad0 : list Z).
Hypothesis HPn : NoDup P.
Hypothesis HPok : forall p, p ∈ P -> okp p.
Hypothesis Hroom : (missing V0 ad0 P <= length (free_blocks V0))%nat.

(** A round that began with [V0] and [ad0] has taken the first [i] free blocks, each
    for a place of [P] that had none, and may take [j] more of the first seven. *)
Definition taking (V : Z -> block) (ad : list Z) (j : nat) : Prop :=
  exists i, free_blocks V = drop i (free_blocks V0) /\ (i + missing V ad P <= missing V0 ad0 P)%nat /\ (i + j <= 7)%nat.

Lemma missing_pos V ad p : p ∈ P -> val V ad p = 0 -> (0 < missing V ad P)%nat.
Proof using. clear Hroom. intros Hp Hv. unfold missing. assert (H : p ∈ filter (fun p => val V ad p = 0) P) by (by apply list_elem_of_filter). destruct (filter _ P); [by apply not_elem_of_nil in H|simpl; lia]. Qed.

Lemma missing_placed V ad p b V' ad' : p ∈ P -> val V ad p = 0 -> placed x V ad p b V' ad' -> (missing V' ad' P + 1 <= missing V ad P)%nat.
Proof using HPn HPok.
  intros Hp Hv HP. unfold missing. change 1%nat with (length [p]). rewrite <- length_app. apply submseteq_length, NoDup_submseteq.
  - apply NoDup_app. split_and!; [by apply NoDup_filter| |apply NoDup_singleton]. intros q [Hq _]%list_elem_of_filter ->%list_elem_of_singleton.
    rewrite (pl_val _ _ _ _ _ _ _ HP) in Hq. by apply (pl_nz _ _ _ _ _ _ _ HP).
  - intros q [[Hq HqP]%list_elem_of_filter| ->%list_elem_of_singleton]%elem_of_app; apply list_elem_of_filter; [|done]. split; [|done].
    destruct (decide (q = p)) as [->|Hne]; [done|]. rewrite <- (pl_rest _ _ _ _ _ _ _ HP q); [done|by apply HPok|done].
Qed.

Lemma taking_allowance Q : Q ⊆ P -> allowance x (bitmaps (take 7 (free_blocks V0))) Q taking.
Proof using HPn HPok Hroom.
  intros HQ. split.
  - intros V ad p j Hp Hv (i & E & Hm & Hi). pose proof (missing_pos V ad p (HQ p Hp) Hv) as Hpos.
    assert (Hl : (i < length (free_blocks V0))%nat) by lia. destruct (lookup_lt_is_Some_2 _ _ Hl) as [b Hb].
    assert (Eb : free_blocks V = b :: drop (Datatypes.S i) (free_blocks V0)) by (rewrite E; by apply drop_S). split.
    + exists b. assert (Hin : b ∈ free_blocks V) by (rewrite Eb; by left). apply list_elem_of_filter in Hin as [Hf Hr%elem_of_seqZ]. split; [lia|done].
    + intros b' (l & E' & _)%free_first. rewrite Eb in E'. injection E' as -> _. unfold bitmaps. apply elem_of_list_to_set, list_elem_of_fmap.
      exists b'. split; [done|]. apply list_elem_of_lookup. exists i. rewrite lookup_take_lt by lia. done.
  - intros V ad j j' (i & E & Hm & Hi) Hj. exists i. split_and!; [done|done|lia].
  - intros V ad p b V' ad' j Hp Hpok Hv Hfst HP (i & E & Hm & Hi). pose proof (missing_placed _ _ _ _ _ _ (HQ p Hp) Hv HP) as Hm'.
    exists (Datatypes.S i). split_and!; [|lia|lia]. destruct (free_first V b Hfst) as (l & El & Hl).
    rewrite (Hl V'); [rewrite <- (Nat.add_1_r i), <- drop_drop, <- E, El; done|]. intros n Hn. destruct (Z.eqb_spec n b) as [->|Hne]; cbn [orb].
    + rewrite <- (pl_val _ _ _ _ _ _ _ HP) at 1. apply (tr_data _ _ _ (pl_tree _ _ _ _ _ _ _ HP)); [done|]. rewrite (pl_val _ _ _ _ _ _ _ HP). apply HP.
    + destruct (allocated x V n) eqn:En; [by apply HP|]. by apply (pl_fresh _ _ _ _ _ _ _ HP).
  - intros V ad V' j Ha Hv (i & E & Hm & Hi). exists i. split_and!; [|  |done].
    + rewrite <- E. unfold free_blocks. apply filter_iff_in. intros n Hn%elem_of_seqZ. rewrite Ha by lia. done.
    + unfold missing in *. rewrite (filter_iff_in _ (fun p => val V ad p = 0)); [done|]. intros p Hp. rewrite Hv by (by apply HPok). done.
Qed.

End round.

Lemma gathered_drop V V' i : free_blocks V' = drop i (free_blocks V) -> gathered V -> gathered V'.
Proof using. intros E HG j. rewrite E, drop_drop. apply HG. Qed.

(** A round writes up to three blocks' worth of bytes: at most four blocks, three
    address blocks, the inode and two bitmap blocks fit the transaction. *)
Lemma round_run P (s : iostate) f ip y xi V addr i bs : NoDup P -> (forall p, p ∈ P -> okp p) -> places (f_off y) (alen bs) ⊆ P ->
  (missing V (i_addrs xi) P <= length (free_blocks V))%nat -> gathered V -> sb (io_fs s) = x -> quiet (dsk (io_fs s)) V -> vol x V -> Fsread.file x V xi ->
  icache (io_fs s) !! ip = Some xi -> cached xi -> 0 <= i_inum xi < sb_ninodes x -> Z.land (i_mode xi) 2 <> 0 -> io_ftable s !! f = Some y ->
  0 <= addr + i -> addr + i + alen bs < 2 ^ 64 -> source (io_fs s) 1 (addr + i) bs -> Umem.bytes bs -> 0 < alen bs <= MAXWRITE ->
  0 <= f_off y <= i_size xi -> f_off y + alen bs <= MAXFILE * BSIZE ->
  exists V' xi' d', filewrite_round f ip addr i (alen bs) s = Ret (Some (alen bs)) (after s ip xi' d' f (with_off (f_off y + alen bs) y)) /\
    written x V xi (f_off y) bs V' xi' /\ quiet d' V' /\ taking P V (i_addrs xi) V' (i_addrs xi') 0.
Proof using Hx.
  intros HPn HPok HPs Hroom HG Esb Hq HV HF Hip Hc Hi Hm Hf Ha0 Ha1 Hsrc Hbs Hn Hoff Hend. assert (HM : MAXFILE * BSIZE < 2 ^ 31) by done.
  assert (Hmax : alen bs <= 3072) by (apply Hn). pose proof (lookup_lt_Some _ _ _ Hip) as Hlt.
  assert (Hnb : blocks (f_off y) (alen bs) <= 4) by (unfold blocks, Blk.BSIZE; rewrite (proj2 (Z.leb_gt _ _)) by lia; dlia).
  assert (Hnb0 : 0 <= blocks (f_off y) (alen bs)) by (unfold blocks, Blk.BSIZE; rewrite (proj2 (Z.leb_gt _ _)) by lia; dlia).
  unfold filewrite_round. destruct (begin_run s V Hq) as (d1 & R1 & Hs1). rewrite (bind_Ret _ _ _ _ _ R1).
  set (t1 := set_dsk d1 (io_fs s)). rewrite (bind_Ret _ _ _ _ _ (on_fs_run _ (set_fs t1 s) _ _ (ilock_run t1 ip xi Hip Hc))).
  set (xl := with_lock true xi). set (t2 := put_inode t1 ip xl d1). assert (Hip2 : icache t2 !! ip = Some xl) by (by apply list_lookup_insert_eq).
  rewrite (bind_Ret _ _ _ _ _ (on_fs_run _ (set_fs t2 s) _ _ (geti_run t2 ip xl Hip2))), (proj2 (Z.eqb_neq _ _)) by done.
  rewrite (bind_Ret _ _ _ _ _ (get_file_run (set_fs t2 s) f y Hf)), u64_small, u32_small by lia.
  pose proof (HG 0%nat) as HB. rewrite drop_0 in HB. set (B := bitmaps (take 7 (free_blocks V))) in *.
  destruct (writei_allowed x B Hx t2 (taking P V (i_addrs xi)) ip xl V V ∅ 8 0 1 (addr + i) (f_off y) bs) as (V' & xi' & L' & d' & R & HW & Hs' & Hav' & _);
    [by apply taking_allowance|done|done|by destruct HF; split|done|done|done|done|lia|lia|lia|done|done|unfold NINDIRECT, Blk.BSIZE; change (1024 / 4) with 256; lia|lia| | |].
  { exists 0%nat. split_and!; [done|done|lia]. }
  { exists Log.MAXOPBLOCKS. split; [exact Hs1|]. rewrite union_empty_l_L. unfold Log.MAXOPBLOCKS. lia. }
  rewrite (bind_Ret _ _ _ _ _ (on_fs_run _ (set_fs t2 s) _ _ R)), (proj2 (Z.ltb_lt _ _)) by lia. cbn [when].
  set (t3 := put_inode t2 ip xi' d'). rewrite (bind_Ret _ _ _ _ _ (mod_file_run (set_fs t3 (set_fs t2 s)) f y _ Hf)), u32_small by lia.
  set (s3 := set_ftable _ _). assert (Hip3 : icache (io_fs s3) !! ip = Some xi') by (cbn; apply list_lookup_insert_eq; by rewrite length_insert).
  assert (Hxl : i_locked xi' = true /\ i_ref xi' = i_ref xi) by (by rewrite (wn_inode _ _ _ _ _ _ _ HW)). destruct Hxl as [Hxl Hxr].
  rewrite (bind_Ret _ _ _ _ _ (on_fs_run _ s3 _ _ (iunlock_run (io_fs s3) ip xi' Hip3 Hxl ltac:(rewrite Hxr; apply Hc)))).
  set (t4 := put_inode (io_fs s3) ip _ _). destruct Hs' as (cap & Hs' & Hcap & _).
  destruct (end_run (set_fs t4 s3) V' V L' cap Hs' ltac:(lia)) as (d5 & R5 & Hq5). rewrite (bind_Ret _ _ _ _ _ R5).
  exists V', (with_lock false xi'), d5. split_and!; [|rewrite <- (ca_free _ Hc); by eapply written_lock|done|done].
  unfold ret, after, set_fs, set_ftable, set_dsk, put_inode. cbn. by rewrite !list_insert_insert_eq.
Qed.

Lemma written_cached V xi off bs V' xi' : written x V xi off bs V' xi' -> cached xi -> cached xi'.
Proof. intros HW [C1 C2 C3]. rewrite (wn_inode _ _ _ _ _ _ _ HW). by split. Qed.

(** The transactions for [n] bytes. *)
Definition chunks (n : Z) : nat := Z.to_nat ((n + MAXWRITE - 1) / MAXWRITE).
Lemma chunks_next n : MAXWRITE < n -> chunks n = Datatypes.S (chunks (n - MAXWRITE)).
Proof. clear Hx. intros Hn. unfold chunks, MAXWRITE, Log.MAXOPBLOCKS, Blk.BSIZE in *. change ((10 - 1 - 1 - 2) / 2 * 1024) with 3072 in *. dlia. Qed.
Lemma chunks_one n : 0 < n <= MAXWRITE -> chunks n = 1%nat.
Proof. clear Hx. intros Hn. unfold chunks, MAXWRITE, Log.MAXOPBLOCKS, Blk.BSIZE in *. change ((10 - 1 - 1 - 2) / 2 * 1024) with 3072 in *. dlia. Qed.

Lemma write_fuel_enough n : 0 < n -> (chunks n < write_fuel n)%nat.
Proof. clear Hx. intros Hn. unfold chunks, write_fuel, MAXWRITE, Log.MAXOPBLOCKS, Blk.BSIZE. change ((10 - 1 - 1 - 2) / 2 * 1024) with 3072. dlia. Qed.

Lemma after_after s ip xi d f y xi' d' y' : after (after s ip xi d f y) ip xi' d' f y' = after s ip xi' d' f y'.
Proof. unfold after, set_ftable, set_fs, put_inode. cbn. by rewrite !list_insert_insert_eq. Qed.

Lemma source_take (s : fstate) us src bs m : source s us src bs -> source s us src (take m bs).
Proof.
  clear Hx. unfold source. destruct (us =? 0); [|intros [Hu Hs]; split; [done|]; revert Hs]; intros Hs i b Hi; apply Hs; by apply lookup_take_Some in Hi as [? _].
Qed.

(** The places of a part of the range. *)
Lemma places_part P off n off' n' : 0 <= off <= off' -> off' + n' <= off + n -> places off n ⊆ P -> places off' n' ⊆ P.
Proof using.
  clear Hx. intros Hoff Hend HP p (bn & Hp & Hbn)%places_elem. apply HP. unfold blocks in Hbn. destruct (Z.leb_spec n' 0) as [|Hn']; [lia|].
  assert (Ho : exists o, off' <= o < off' + n' /\ o / BSIZE = bn) by (exists (Z.max off' (bn * BSIZE)); unfold Blk.BSIZE in *; split; dlia).
  destruct Ho as (o & Ho & <-). apply (places_in off n o); [lia|lia|done].
Qed.

Lemma loop_run P f ip addr n fuel : NoDup P -> (forall p, p ∈ P -> okp p) -> forall (s : iostate) y xi V i bs, places (f_off y) (alen bs) ⊆ P ->
  (missing V (i_addrs xi) P <= length (free_blocks V))%nat -> gathered V -> sb (io_fs s) = x -> quiet (dsk (io_fs s)) V -> vol x V ->
  Fsread.file x V xi -> icache (io_fs s) !! ip = Some xi -> cached xi -> 0 <= i_inum xi < sb_ninodes x -> Z.land (i_mode xi) 2 <> 0 ->
  io_ftable s !! f = Some y -> 0 <= i -> n - i = alen bs -> 0 <= addr -> addr + n < 2 ^ 64 -> source (io_fs s) 1 (addr + i) bs -> Umem.bytes bs ->
  0 < alen bs -> (chunks (alen bs) < fuel)%nat -> 0 <= f_off y <= i_size xi -> f_off y + alen bs <= MAXFILE * BSIZE ->
  exists V' xi' d' j, filewrite_loop fuel f ip addr n i s = Ret (Some n) (after s ip xi' d' f (with_off (f_off y + alen bs) y)) /\
    written x V xi (f_off y) bs V' xi' /\ quiet d' V' /\ free_blocks V' = drop j (free_blocks V) /\ (j + missing V' (i_addrs xi') P <= missing V (i_addrs xi) P)%nat.
Proof using Hx.
  intros HPn HPok. induction fuel as [|fuel IH]; [lia|]. intros s y xi V i bs HPs Hroom HG Esb Hq HV HF Hip Hc Hi Hm Hf Hi0 Hn Ha Ha' Hsrc Hbs Hpos Hfu Hoff Hend.
  cbn [filewrite_loop]. rewrite (proj2 (Z.ltb_lt _ _)) by lia. rewrite Hn. cbv zeta. assert (HM : 0 < MAXWRITE) by done.
  destruct (decide (alen bs <= MAXWRITE)) as [Hle|Hgt].
  - rewrite Z.min_l by done. rewrite (chunks_one (alen bs)) in * by lia.
    destruct (round_run P s f ip y xi V addr i bs) as (V' & xi' & d' & R & HW & Hq' & j & Ej & Hj & _); try done; try lia.
    exists V', xi', d', j. split_and!; try done. rewrite (bind_Ret _ _ _ _ _ R), (proj2 (Z.ltb_ge _ _)), Z.eqb_refl by lia. cbn [negb].
    destruct fuel as [|fuel]; [lia|]. cbn [filewrite_loop]. rewrite (proj2 (Z.ltb_ge _ _)) by lia. unfold ret. do 2 f_equal. lia.
  - rewrite Z.min_r by lia. set (c := take (Z.to_nat MAXWRITE) bs). set (r := drop (Z.to_nat MAXWRITE) bs).
    assert (Lc : alen c = MAXWRITE) by (unfold c, alen in *; rewrite length_take; lia).
    assert (Lr : alen r = alen bs - MAXWRITE) by (unfold r, alen in *; rewrite length_drop; lia). rewrite (chunks_next (alen bs)), <- Lr in * by lia.
    destruct (round_run P s f ip y xi V addr i c) as (V1 & xi1 & d1 & R & HW & Hq1 & j1 & Ej1 & Hj1 & _);
      try done; try lia; [eapply places_part; [| |exact HPs]; lia|by eapply source_take|by apply Forall_take|].
    rewrite Lc in *. rewrite (bind_Ret _ _ _ _ _ R), (proj2 (Z.ltb_ge _ _)), Z.eqb_refl by lia. cbn [negb].
    set (s1 := after s ip xi1 d1 f _). pose proof (wn_inode _ _ _ _ _ _ _ HW) as Exi.
    assert (Hsz : i_size xi1 = Z.max (i_size xi) (f_off y + MAXWRITE)) by (rewrite Exi, Lc; done).
    destruct (IH s1 (with_off (f_off y + MAXWRITE) y) xi1 V1 (i + MAXWRITE) r) as (V2 & xi2 & d2 & j2 & R2 & HW2 & Hq2 & Ej2 & Hj2); try done; try lia.
    + cbn [f_off with_off]. eapply places_part; [| |exact HPs]; lia.
    + rewrite Ej1, length_drop. lia.
    + by eapply gathered_drop.
    + apply HW.
    + apply HW.
    + cbn. apply list_lookup_insert_eq. by eapply lookup_lt_Some.
    + by eapply written_cached.
    + by rewrite Exi.
    + by rewrite Exi.
    + cbn. apply list_lookup_insert_eq. by eapply lookup_lt_Some.
    + rewrite Z.add_assoc. by apply (source_drop (io_fs s)).
    + by apply Forall_drop.
    + cbn [f_off with_off]. lia.
    + cbn [f_off with_off]. lia.
    + exists V2, xi2, d2, (j1 + j2)%nat. split_and!; try done; [| |by rewrite Ej2, Ej1, drop_drop|lia].
      * rewrite R2. unfold s1. rewrite after_after. cbn [f_off with_off]. replace (f_off y + alen bs) with (f_off y + MAXWRITE + alen r) by lia. done.
      * cbn [f_off with_off] in HW2. rewrite <- Lc in HW2. rewrite <- (take_drop (Z.to_nat MAXWRITE) bs). fold c r. by eapply written_trans.
Qed.

(** C9: a write through a file is on the disk when [filewrite] returns. For bytes
    that can be read, at an offset inside the file or at its end, it returns their
    number and the offset has advanced by it; no transaction is open, and what the
    disk has is the volume with the bytes written there and otherwise as before.
    The number of bytes is bounded only by what fits the largest file: the write
    needs as many free blocks as places of the range have no block yet, takes no
    more, and takes the first ones. Each transaction is for at most three blocks'
    worth of bytes and stays within what [begin_op] has reserved provided that the
    bits of any seven free blocks in a row are in at most two bitmap blocks
    ([gathered]); the loop ends. *)
Theorem filewrite_durable ip0 mac (s : iostate) f y xi V addr bs : let P := places (f_off y) (alen bs) in
  (missing V (i_addrs xi) P <= length (free_blocks V))%nat -> gathered V -> sb (io_fs s) = x -> quiet (dsk (io_fs s)) V -> vol x V ->
  Fsread.file x V xi -> io_ftable s !! f = Some y -> f_type y = FD_INODE -> f_writable y <> 0 -> icache (io_fs s) !! f_ip y = Some xi -> cached xi ->
  0 <= i_inum xi < sb_ninodes x -> Z.land (i_mode xi) 2 <> 0 -> 0 <= addr -> addr + alen bs < 2 ^ 64 -> source (io_fs s) 1 addr bs -> Umem.bytes bs ->
  0 < alen bs -> 0 <= f_off y <= i_size xi -> f_off y + alen bs <= MAXFILE * BSIZE ->
  exists V' xi' d' j, filewrite ip0 mac f addr (alen bs) s = Ret (alen bs) (after s (f_ip y) xi' d' f (with_off (f_off y + alen bs) y)) /\
    quiet d' V' /\ written x V xi (f_off y) bs V' xi' /\ free_blocks V' = drop j (free_blocks V) /\ (j <= missing V (i_addrs xi) P)%nat.
Proof using Hx.
  intros P Hroom HG Esb Hq HV HF Hf Hty Hw Hip Hc Hi Hm Ha Ha' Hsrc Hbs Hpos Hoff Hend.
  destruct (loop_run P f (f_ip y) addr (alen bs) (write_fuel (alen bs)) ltac:(apply NoDup_remove_dups) ltac:(intros p; apply places_okp; lia) s y xi V 0 bs)
    as (V' & xi' & d' & j & R & HW & Hq' & Ej & Hj); try done; try lia; [by rewrite Z.add_0_r|apply write_fuel_enough; lia|].
  exists V', xi', d', j. split_and!; try done; [|lia]. unfold filewrite. rewrite (bind_Ret _ _ _ _ _ (get_file_run s f y Hf)), (proj2 (Z.eqb_neq _ _)), Hty by done.
  rewrite (bind_Ret _ _ _ _ _ R). unfold ret. by rewrite Z.eqb_refl.
Qed.

End spec.

(** ** Two bytes, on the volume of [Fsspec.v] *)

Lemma ex_gathered : gathered ex_sb ex_vol.
Proof.
  intros i. transitivity (size ({[3]} : gset Z)); [|by vm_compute; lia]. apply subseteq_size. intros n Hn.
  unfold bitmaps in Hn. apply elem_of_list_to_set, list_elem_of_fmap in Hn as (b & -> & Hb).
  apply elem_of_take in Hb as (j & Hj & _). rewrite lookup_drop in Hj. apply list_elem_of_lookup_2, list_elem_of_filter in Hj as [_ Hr%elem_of_seqZ].
  change (sb_size ex_sb) with 20 in Hr. unfold BBLOCK, BPB, Blk.BSIZE. cbn [sb_bmapstart ex_sb]. rewrite Z.div_small by lia. set_solver.
Qed.

Definition ex_open : file := mk_file FD_INODE 1 1 1 0 0 0 3 0.
Definition ex_free : inode := with_lock false ex_inode.
Definition ex_io (u : gmap Z Z) : io :=
  mk_io (mk_fs (mk_flat ex_vol ex_vol [] ∅ (-1)) ex_sb [ex_free] u (fun _ => 0) 0 0) [ex_open] ∅ Console.ex_cons Netudp.ex_sender false.

Lemma filewrite_durable_witness : exists V' xi' d', filewrite 0 [] 0 4096 2 (ex_io {[ 4096 := 120; 4097 := 121 ]}) =
    Ret 2 (after (ex_io {[ 4096 := 120; 4097 := 121 ]}) 0 xi' d' 0 (with_off 5 ex_open)) /\ quiet d' V' /\ i_size xi' = 5 /\ cont V' (i_addrs xi') 4 = 121.
Proof.
  destruct (filewrite_durable ex_sb ex_geom 0 [] (ex_io {[ 4096 := 120; 4097 := 121 ]}) 0 ex_open ex_free ex_vol 4096 [120; 121])
    as (V' & xi' & d' & j & R & Hq & W & _);
    [vm_compute; lia|exact ex_gathered|done|by split_and!; [|constructor|]|exact ex_vol_ok|by destruct ex_file; split|done|done|done|done|by split|done|done|done|done| |by repeat constructor|done|done|done|].
  { split; [apply ex_user; vm_compute; reflexivity|by intros [|[|]] b [= <-]]. }
  assert (Hs : i_size xi' = 5) by (rewrite (wn_inode _ _ _ _ _ _ _ W); done).
  exists V', xi', d'. split_and!; [exact R|exact Hq|done|].
  rewrite (wn_cont _ _ _ _ _ _ _ W) by (rewrite Hs; lia). by rewrite decide_True by (unfold alen; simpl; lia).
Defined.

End Filespec.
