(* ===== verification/Sysfile.v ===== *)
(** The system calls on files, [src/kernel/sysfile.c], with the fetching of their
    arguments, [src/kernel/syscall.c].

    The state adds to that of [File.v] the descriptors and the mapped areas of
    the calling process, its size, and the registers it trapped with. The
    buffers that the calls have on the kernel stack, and the two string
    constants of the directory code, are addresses in kernel memory. A result is
    the value of [a0] as a signed number, so that -1 is -1. [sys_exec] is not
    here. *)

From S2P Require Import Prelude Mem Kstring Umem Blk Store Fs Kalloc Pgtbl Pipe Console Net File.
Import Kstring Umem Store Fs File.

Module Sysfile.

Definition NOFILE : nat := 16.
Definition NVMA : nat := 16.
Definition MAX_SYMLINK_DEPTH : nat := 10.
Definition O_RDONLY : Z := 0.
Definition O_WRONLY : Z := 1.
Definition O_RDWR : Z := 2.
Definition O_NOFOLLOW : Z := 4.
Definition O_CREATE : Z := 512.
Definition O_TRUNC : Z := 1024.
Definition PROT_WRITE : Z := 2.
Definition MAP_SHARED : Z := 1.

(** What the system calls ask of the page table beyond [copyin] and [copyout]:
    [uresident u va] says that [walkaddr] finds [va]; [ulazy u va] gives [va] a
    page of zeros, and says whether there was memory; [ucopyinstr u va max] has
    the bytes [copyinstr] stores, and whether it returned 0; [uunmap va n] is
    [uvmunmap] of [n] pages. *)
Class UserArgs (U : Type) := {
  uresident : U -> Z -> bool;
  ulazy : U -> Z -> bool * U;
  ucopyinstr : U -> Z -> Z -> bool * list Z;
  uunmap : Z -> Z -> M U unit }.

Record vm_area := mk_vma { v_used : Z; v_addr : Z; v_len : Z; v_prot : Z; v_flags : Z; v_vfd : Z; v_vfile : nat; v_offset : Z }.

(** The addresses of the local buffers, [nm] of [namei]'s and [ude] of
    [sys_unlink]'s, and of the strings ["."] and [".."]. *)
Record locals := mk_locals { path : Z; name : Z; nm : Z; new : Z; old : Z; target : Z; ude : Z; dot : Z; dotdot : Z; pad : list Z }.

Section sys.
Context {S : Type} `{TxnStore S} {U : Type} `{UserMem U} `{!UserArgs U}.
Context (k : locals).
Abbreviation fstate := (fs (S := S) (U := U)).
Abbreviation iostate := (io (S := S) (U := U)).

Record sys := mk_sys { sio : iostate; ofile : list (option nat); vma : list vm_area; psz : Z; regs : list Z; sp : Z }.
Definition set_sio (x : iostate) (s : sys) : sys := mk_sys x (ofile s) (vma s) (psz s) (regs s) (sp s).
Definition set_ofile (x : list (option nat)) (s : sys) : sys := mk_sys (sio s) x (vma s) (psz s) (regs s) (sp s).
Definition set_vma (x : list vm_area) (s : sys) : sys := mk_sys (sio s) (ofile s) x (psz s) (regs s) (sp s).
Definition set_psz (x : Z) (s : sys) : sys := mk_sys (sio s) (ofile s) (vma s) x (regs s) (sp s).

Definition on_io {A} (m : M iostate A) : M sys A := zoom sio set_sio m.
Definition fsm {A} (m : M fstate A) : M sys A := on_io (on_fs m).
Definition netm {A} (m : M Net.net A) : M sys A := on_io (on_net m).
Definition begin_op : M sys unit := on_io begin_.
Definition end_op : M sys unit := on_io end_.
Definition usr : M sys U := fsm (gets user).
Definition set_usr (u : U) : M sys unit := fsm (modify (set_user u)).

(** ** Arguments *)

Definition argraw (n : nat) : M sys Z :=
  let* r := gets regs in
  match r !! n with Some a => ret a | None => panic "argraw" end.
Definition argint (n : nat) : M sys Z := let* a := argraw n in ret (s32 a).
(** [None] for -1. *)
Definition argaddr (n : nat) : M sys (option Z) :=
  let* a := argraw n in
  let* u := usr in
  if uresident u a then ret (Some a)
  else
    let* sp := gets sp in
    let* sz := gets psz in
    if (u64 (Kalloc.PGROUNDUP sp - 1) <? a) && (a <? sz) then
      match ulazy u a with (b, u') => set_usr u' ;;; ret (if b then Some a else None) end
    else ret None.
Definition fetchstr (addr buf max : Z) : M sys Z :=
  let* u := usr in
  match ucopyinstr u addr max with (b, bs) =>
    fsm (modify (fun s => set_kmem (put_bytes (kmem s) buf bs) s)) ;;;
    if negb b then ret (-1)
    else let* m := fsm (gets kmem) in deref (strlen (Datatypes.S (Z.to_nat max)) m buf)
  end.
Definition argstr (n : nat) (buf max : Z) : M sys Z :=
  let* a := argaddr n in
  match a with None => ret (-1) | Some a => fetchstr a buf max end.
Definition argpath (n : nat) (buf : Z) : M sys Z := argstr n buf (Z.of_nat MAXPATH).

(** The descriptor with its file. *)
Definition argfd (n : nat) : M sys (option (Z * nat)) :=
  let* fd := argint n in
  if (fd <? 0) || (Z.of_nat NOFILE <=? fd) then ret None
  else
    let* o := gets ofile in
    let* f := deref (o !! Z.to_nat fd) in
    match f with None => ret None | Some f => ret (Some (fd, f)) end.

Fixpoint free_fd (l : list (option nat)) (fd : nat) : option nat :=
  match l with
  | [] => None
  | None :: _ => Some fd
  | Some _ :: l => free_fd l (Datatypes.S fd)
  end.
Definition set_fd (fd : nat) (f : option nat) : M sys unit := modify (fun s => set_ofile (<[fd := f]> (ofile s)) s).
Definition fdalloc (f : nat) : M sys (option nat) :=
  let* o := gets ofile in
  match free_fd o 0 with
  | Some fd => set_fd fd (Some f) ;;; ret (Some fd)
  | None => ret None
  end.

(** ** Descriptors *)

Definition sys_dup : M sys Z :=
  let* a := argfd 0 in
  match a with
  | None => ret (-1)
  | Some (_, f) =>
      let* fd := fdalloc f in
      match fd with
      | None => ret (-1)
      | Some fd => on_io (filedup f) ;;; ret (Z.of_nat fd)
      end
  end.

Definition rw_args : M sys (option (nat * Z * Z)) :=
  let* a := argfd 0 in
  match a with
  | None => ret None
  | Some (_, f) =>
      let* n := argint 2 in
      let* p := argaddr 1 in
      ret (match p with None => None | Some p => Some (f, p, n) end)
  end.
Definition sys_read : M sys Z :=
  let* a := rw_args in
  match a with None => ret (-1) | Some (f, p, n) => on_io (fileread f p n) end.
Definition sys_write : M sys Z :=
  let* a := rw_args in
  match a with None => ret (-1) | Some (f, p, n) => on_io (filewrite Net.LOCAL_IP Net.LOCAL_MAC f p n) end.

Definition sys_close : M sys Z :=
  let* a := argfd 0 in
  match a with
  | None => ret (-1)
  | Some (fd, f) =>
      set_fd (Z.to_nat fd) None ;;;
      on_io (fileclose f) ;;;
      ret 0
  end.

Definition sys_fstat : M sys Z :=
  let* a := argfd 0 in
  match a with
  | None => ret (-1)
  | Some (_, f) =>
      let* st := argaddr 1 in
      match st with None => ret (-1) | Some st => on_io (filestat (pad k) f st) end
  end.

Definition sys_dup_new : M sys Z :=
  let* a := argfd 0 in
  match a with
  | None => ret (-1)
  | Some (_, f) =>
      let* newfd := argint 1 in
      if (newfd <? 0) || (Z.of_nat NOFILE <=? newfd) then ret (-1)
      else
        let* o := gets ofile in
        let* g := deref (o !! Z.to_nat newfd) in
        (match g with Some g => on_io (fileclose g) | None => ret tt end) ;;;
        let* fd := fdalloc f in
        match fd with
        | None => ret (-1)
        | Some fd => on_io (filedup f) ;;; ret (Z.of_nat fd)
        end
  end.

(** ** Names *)

Definition nlink_add (ip : nat) (d : Z) : M sys unit := fsm (modi ip (fun x => with_nlink (s16 (i_nlink x + d)) x)).

Definition sys_link : M sys Z :=
  let* r := argpath 0 (old k) in
  if r <? 0 then ret (-1)
  else
    let* r := argpath 1 (new k) in
    if r <? 0 then ret (-1)
    else
      begin_op ;;;
      let* o := fsm (namei (old k) (nm k)) in
      match o with
      | None => end_op ;;; ret (-1)
      | Some ip =>
          fsm (ilock (Some ip)) ;;;
          let* x := fsm (geti ip) in
          if i_type x =? T_DIR then fsm (iunlockput ip) ;;; end_op ;;; ret (-1)
          else
            nlink_add ip 1 ;;;
            fsm (iupdate ip) ;;;
            fsm (iunlock (Some ip)) ;;;
            let* o := fsm (nameiparent (new k) (name k)) in
            let* ok :=
              match o with
              | None => ret false
              | Some dp =>
                  fsm (ilock (Some dp)) ;;;
                  let* y := fsm (geti dp) in
                  let* x := fsm (geti ip) in
                  let* bad := if negb (i_dev y =? i_dev x) then ret true
                              else let* r := fsm (dirlink dp (name k) (i_inum x)) in ret (r <? 0) in
                  fsm (iunlockput dp) ;;; ret (negb bad)
              end in
            if ok : bool then fsm (iput ip) ;;; end_op ;;; ret 0
            else
              fsm (ilock (Some ip)) ;;;
              nlink_add ip (-1) ;;;
              fsm (iupdate ip) ;;;
              fsm (iunlockput ip) ;;;
              end_op ;;;
              ret (-1)
      end.

Fixpoint isdirempty_loop (fuel : nat) (dp : nat) (off : Z) : M fstate bool :=
  match fuel with
  | O => nofuel
  | Datatypes.S fuel =>
      let* x := geti dp in
      if off <? i_size x then
        let* de := gets de in
        let* r := readi dp 0 de off 16 in
        if negb (r =? 16) then panic "isdirempty: readi"
        else
          let* inum := de_inum in
          if negb (inum =? 0) then ret false else isdirempty_loop fuel dp (off + 16)
      else ret true
  end.
Definition isdirempty (dp : nat) : M fstate bool :=
  let* x := geti dp in
  isdirempty_loop (dir_fuel (i_size x)) dp 32.

Definition sys_unlink : M sys Z :=
  let* r := argpath 0 (path k) in
  if r <? 0 then ret (-1)
  else
    begin_op ;;;
    let* o := fsm (nameiparent (path k) (name k)) in
    match o with
    | None => end_op ;;; ret (-1)
    | Some dp =>
        let bad := fsm (iunlockput dp) ;;; end_op ;;; ret (-1) in
        fsm (ilock (Some dp)) ;;;
        let* c1 := fsm (namecmp (name k) (dot k)) in
        let* c2 := fsm (namecmp (name k) (dotdot k)) in
        if (c1 =? 0) || (c2 =? 0) then bad
        else
          let* o := fsm (dirlookup dp (name k)) in
          match o with
          | None => bad
          | Some (ip, off) =>
              fsm (ilock (Some ip)) ;;;
              let* x := fsm (geti ip) in
              if i_nlink x <? 1 then panic "unlink: nlink < 1"
              else
                let* empty := if i_type x =? T_DIR then fsm (isdirempty ip) else ret true in
                if negb empty then fsm (iunlockput ip) ;;; bad
                else
                  fsm (modify (fun s => set_kmem (memset (kmem s) (ude k) 0 16) s)) ;;;
                  let* r := fsm (writei dp 0 (ude k) off 16) in
                  if negb (r =? 16) then panic "unlink: writei"
                  else
                    let* x := fsm (geti ip) in
                    when (i_type x =? T_DIR) (nlink_add dp (-1) ;;; fsm (iupdate dp)) ;;;
                    fsm (iunlockput dp) ;;;
                    nlink_add ip (-1) ;;;
                    fsm (iupdate ip) ;;;
                    fsm (iunlockput ip) ;;;
                    end_op ;;;
                    ret 0
          end
    end.

Definition create (path type major minor : Z) : M fstate (option nat) :=
  let* o := nameiparent path (name k) in
  match o with
  | None => ret None
  | Some dp =>
      ilock (Some dp) ;;;
      let* o := dirlookup dp (name k) in
      match o with
      | Some (ip, _) =>
          iunlockput dp ;;;
          ilock (Some ip) ;;;
          let* x := geti ip in
          if (type =? T_FILE) && ((i_type x =? T_FILE) || (i_type x =? T_DEVICE)) then ret (Some ip)
          else iunlockput ip ;;; ret None
      | None =>
          let* y := geti dp in
          let* ip := ialloc (i_dev y) type in
          ilock (Some ip) ;;;
          modi ip (with_device (s16 major) (s16 minor)) ;;;
          modi ip (with_nlink 1) ;;;
          modi ip (Fs.with_type type) ;;;
          iupdate ip ;;;
          when (type =? T_DIR)
            (modi dp (fun y => with_nlink (s16 (i_nlink y + 1)) y) ;;;
             iupdate dp ;;;
             let* x := geti ip in
             let* r := dirlink ip (dot k) (i_inum x) in
             if r <? 0 then panic "create dots"
             else
               let* y := geti dp in
               let* r := dirlink ip (dotdot k) (i_inum y) in
               if r <? 0 then panic "create dots" else ret tt) ;;;
          let* x := geti ip in
          let* r := dirlink dp (name k) (i_inum x) in
          if r <? 0 then panic "create: dirlink"
          else iunlockput dp ;;; ret (Some ip)
      end
  end.

(** The loop of [sys_open] that follows symbolic links, [n] rounds to go; [None]
    after a failure, with the inode put and the transaction ended. *)
Fixpoint follow (n : nat) (ip : nat) : M sys (option nat) :=
  match n with
  | O => ret (Some ip)
  | Datatypes.S n =>
      let* r := fsm (readi ip 0 (path k) 0 (Z.of_nat MAXPATH)) in
      if negb (r =? Z.of_nat MAXPATH) then fsm (iunlockput ip) ;;; end_op ;;; ret None
      else
        fsm (iunlockput ip) ;;;
        let* o := fsm (namei (path k) (nm k)) in
        match o with
        | None => end_op ;;; ret None
        | Some ip =>
            fsm (ilock (Some ip)) ;;;
            let* x := fsm (geti ip) in
            if negb (i_type x =? T_SYMLINK) then ret (Some ip) else follow n ip
        end
  end.

(** The inode to open, locked; [None] after a failure, with the transaction
    ended. *)
Definition open_inode (omode : Z) : M sys (option nat) :=
  if negb (Z.land omode O_CREATE =? 0) then
    let* o := fsm (create (path k) T_FILE 0 0) in
    match o with None => end_op ;;; ret None | Some ip => ret (Some ip) end
  else
    let* o := fsm (namei (path k) (nm k)) in
    match o with
    | None => end_op ;;; ret None
    | Some ip =>
        fsm (ilock (Some ip)) ;;;
        let* x := fsm (geti ip) in
        if (i_type x =? T_DIR) && negb (omode =? O_RDONLY) then fsm (iunlockput ip) ;;; end_op ;;; ret None
        else ret (Some ip)
    end.

Definition open_follow (omode : Z) (ip : nat) : M sys (option nat) :=
  let* x := fsm (geti ip) in
  if (i_type x =? T_SYMLINK) && (Z.land omode O_NOFOLLOW =? 0) then
    let* o := follow MAX_SYMLINK_DEPTH ip in
    match o with
    | None => ret None
    | Some ip =>
        let* x := fsm (geti ip) in
        if i_type x =? T_SYMLINK then fsm (iunlockput ip) ;;; end_op ;;; ret None else ret (Some ip)
    end
  else ret (Some ip).

(** The file for the inode, with a descriptor. *)
Definition open_file (omode : Z) (ip : nat) : M sys Z :=
  let fail := fsm (iunlockput ip) ;;; end_op ;;; ret (-1) in
  let* o := on_io filealloc in
  match o with
  | None => fail
  | Some f =>
      let* o := fdalloc f in
      match o with
      | None => on_io (fileclose f) ;;; fail
      | Some fd =>
          let* x := fsm (geti ip) in
          on_io (mod_file f (fun y =>
            mk_file (if i_type x =? T_DEVICE then FD_DEVICE else FD_INODE) (f_ref y)
              (if Z.land omode O_WRONLY =? 0 then 1 else 0)
              (if (Z.land omode O_WRONLY =? 0) && (Z.land omode O_RDWR =? 0) then 0 else 1)
              (f_pipe y) ip (f_sock y)
              (if i_type x =? T_DEVICE then f_off y else 0) (if i_type x =? T_DEVICE then i_major x else f_major y))) ;;;
          when (negb (Z.land omode O_TRUNC =? 0) && (i_type x =? T_FILE)) (fsm (itrunc ip)) ;;;
          fsm (iunlock (Some ip)) ;;;
          end_op ;;;
          ret (Z.of_nat fd)
      end
  end.

Definition sys_open : M sys Z :=
  let* r := argpath 0 (path k) in
  if r <? 0 then ret (-1)
  else
    let* omode := argint 1 in
    begin_op ;;;
    let* o := open_inode omode in
    match o with
    | None => ret (-1)
    | Some ip =>
        let* x := fsm (geti ip) in
        if (i_type x =? T_DEVICE) && ((i_major x <? 0) || (NDEV <=? i_major x)) then fsm (iunlockput ip) ;;; end_op ;;; ret (-1)
        else
          let* o := open_follow omode ip in
          match o with None => ret (-1) | Some ip => open_file omode ip end
    end.

(** [iunlockput(ip); end_op()] when there is an inode, else [end_op()]. *)
Definition finish (o : option nat) : M sys Z :=
  match o with
  | None => end_op ;;; ret (-1)
  | Some ip => fsm (iunlockput ip) ;;; end_op ;;; ret 0
  end.

Definition sys_mkdir : M sys Z :=
  begin_op ;;;
  let* r := argpath 0 (path k) in
  if r <? 0 then finish None
  else let* o := fsm (create (path k) T_DIR 0 0) in finish o.

Definition sys_mknod : M sys Z :=
  begin_op ;;;
  let* r := argpath 0 (path k) in
  if r <? 0 then finish None
  else
    let* major := argint 1 in
    let* minor := argint 2 in
    let* o := fsm (create (path k) T_DEVICE major minor) in
    finish o.

Definition set_cwd (d : nat) (s : fstate) : fstate := mk_fs (dsk s) (sb s) (icache s) (user s) (kmem s) (de s) d.
Definition sys_chdir : M sys Z :=
  begin_op ;;;
  let* r := argpath 0 (path k) in
  let* o := if r <? 0 then ret None else fsm (namei (path k) (nm k)) in
  match o with
  | None => end_op ;;; ret (-1)
  | Some ip =>
      fsm (ilock (Some ip)) ;;;
      let* x := fsm (geti ip) in
      if negb (i_type x =? T_DIR) then fsm (iunlockput ip) ;;; end_op ;;; ret (-1)
      else
        fsm (iunlock (Some ip)) ;;;
        let* d := fsm (gets cwd) in
        fsm (iput d) ;;;
        end_op ;;;
        fsm (modify (set_cwd ip)) ;;;
        ret 0
  end.

Definition sys_symlink : M sys Z :=
  let* r := argpath 0 (target k) in
  if r <? 0 then ret (-1)
  else
    let* r := argpath 1 (path k) in
    if r <? 0 then ret (-1)
    else
      begin_op ;;;
      let* o := fsm (create (path k) T_SYMLINK 0 0) in
      match o with
      | None => end_op ;;; ret (-1)
      | Some ip =>
          let* r := fsm (writei ip 0 (target k) 0 (Z.of_nat MAXPATH)) in
          fsm (iunlockput ip) ;;;
          end_op ;;;
          ret (if r <? Z.of_nat MAXPATH then -1 else 0)
      end.

Definition sys_mkf : M sys Z :=
  let* r := argpath 0 (path k) in
  if r <? 0 then ret (-1)
  else
    begin_op ;;;
    let* o := fsm (create (path k) T_FILE 0 0) in
    match o with
    | None => end_op ;;; ret (-1)
    | Some ip => end_op ;;; let* x := fsm (geti ip) in ret (i_inum x)
    end.

Definition sys_chmod : M sys Z :=
  let* r := argpath 0 (path k) in
  if r <? 0 then ret (-1)
  else
    let* mode := argint 1 in
    begin_op ;;;
    let* o := fsm (namei (path k) (nm k)) in
    match o with
    | None => end_op ;;; ret (-1)
    | Some ip =>
        fsm (ilock (Some ip)) ;;;
        fsm (modi ip (with_mode (u8 mode))) ;;;
        fsm (iupdate ip) ;;;
        fsm (iunlock (Some ip)) ;;;
        end_op ;;;
        ret 0
    end.

Definition copyout (addr : Z) (bs : list Z) : M sys Z := on_io (copyout_user addr bs).

Definition sys_geti : M sys Z :=
  let* r := argpath 0 (path k) in
  if r <? 0 then ret (-1)
  else
    let* a := argaddr 1 in
    match a with
    | None => ret (-1)
    | Some addrsout =>
        begin_op ;;;
        let* o := fsm (namei (path k) (nm k)) in
        match o with
        | None => end_op ;;; ret (-1)
        | Some ip =>
            fsm (ilock (Some ip)) ;;;
            let* x := fsm (geti ip) in
            fsm (iunlock (Some ip)) ;;;
            end_op ;;;
            let* r := copyout addrsout (mjoin (Net.le32 <$> (i_addrs x ++ [i_size x]))) in
            ret (if r <? 0 then -1 else 0)
        end
    end.

Definition sys_recoveri : M sys Z :=
  let* blockno := argint 0 in
  let* a := argaddr 1 in
  match a with
  | None => ret (-1)
  | Some bufout =>
      let* b := fsm (disk (bread 1 (u32 blockno))) in
      let* d := fsm (disk (bdata b)) in
      let* r := copyout bufout (Mem.bytes (Z.to_nat BSIZE) d 0) in
      fsm (disk (brelse b)) ;;;
      ret (if r <? 0 then -1 else 0)
  end.

Definition sys_getcwd : M sys Z :=
  let* a := argaddr 0 in
  match a with
  | None => ret (-1)
  | Some addr =>
      let* r := copyout addr [47; 0] in
      ret (if r <? 0 then -1 else addr)
  end.

(** ** Pipes and sockets *)

(** [pipealloc]; [junk] is what the page of the pipe had. *)
Definition pipealloc (junk : list Z) : M iostate (option (nat * nat)) :=
  let* o0 := filealloc in
  match o0 with
  | None => ret None
  | Some f0 =>
      let* o1 := filealloc in
      match o1 with
      | None => fileclose f0 ;;; ret None
      | Some f1 =>
          let* pi := on_net Net.kalloc in
          if pi =? 0 then fileclose f0 ;;; fileclose f1 ;;; ret None
          else
            modify (fun s => set_pipes (<[pi := Pipe.new_pipe junk]> (io_pipes s)) s) ;;;
            mod_file f0 (fun y => mk_file FD_PIPE (f_ref y) 1 0 pi (f_ip y) (f_sock y) (f_off y) (f_major y)) ;;;
            mod_file f1 (fun y => mk_file FD_PIPE (f_ref y) 0 1 pi (f_ip y) (f_sock y) (f_off y) (f_major y)) ;;;
            ret (Some (f0, f1))
      end
  end.

Definition sys_pipe (junk : list Z) : M sys Z :=
  let* a := argaddr 0 in
  match a with
  | None => ret (-1)
  | Some fdarray =>
      let* o := on_io (pipealloc junk) in
      match o with
      | None => ret (-1)
      | Some (rf, wf) =>
          let fail := on_io (fileclose rf) ;;; on_io (fileclose wf) ;;; ret (-1) in
          let* fd0 := fdalloc rf in
          match fd0 with
          | None => fail
          | Some fd0 =>
              let* fd1 := fdalloc wf in
              match fd1 with
              | None => set_fd fd0 None ;;; fail
              | Some fd1 =>
                  let* r0 := copyout fdarray (Net.le32 (Z.of_nat fd0)) in
                  let* r1 := if r0 <? 0 then ret (-1) else copyout (u64 (fdarray + 4)) (Net.le32 (Z.of_nat fd1)) in
                  if r1 <? 0 then set_fd fd0 None ;;; set_fd fd1 None ;;; fail else ret 0
              end
          end
      end
  end.

Definition sockalloc (raddr lport rport : Z) : M iostate (option nat) :=
  let* o := filealloc in
  match o with
  | None => ret None
  | Some f =>
      let* si := on_net (Net.sock_init raddr lport rport) in
      if si =? 0 then fileclose f ;;; ret None
      else
        mod_file f (fun y => mk_file FD_SOCK (f_ref y) 1 1 (f_pipe y) (f_ip y) si (f_off y) (f_major y)) ;;;
        let* ok := on_net (Net.sock_enter si raddr lport rport) in
        if ok : bool then ret (Some f)
        else on_net (Net.kfree si) ;;; fileclose f ;;; ret None
  end.

Definition sys_connect : M sys Z :=
  let* raddr := argint 0 in
  let* lport := argint 1 in
  let* rport := argint 2 in
  let* o := on_io (sockalloc (u32 raddr) (u16 lport) (u16 rport)) in
  match o with
  | None => ret (-1)
  | Some f =>
      let* fd := fdalloc f in
      match fd with
      | None => on_io (fileclose f) ;;; ret (-1)
      | Some fd => ret (Z.of_nat fd)
      end
  end.

(** ** Mapped files *)

Fixpoint free_vma (l : list vm_area) (i : nat) : option nat :=
  match l with
  | [] => None
  | v :: l => if v_used v =? 0 then Some i else free_vma l (Datatypes.S i)
  end.

Definition sys_mmap : M sys Z :=
  let* a := argaddr 0 in
  match a with
  | None => ret (-1)
  | Some addr =>
      let* length := argint 1 in
      let* prot := argint 2 in
      let* flags := argint 3 in
      let* o := argfd 4 in
      match o with
      | None => ret (-1)
      | Some (vfd, vfile) =>
          let* offset := argint 5 in
          if negb (addr =? 0) || negb (offset =? 0) || (length <? 0) then ret (-1)
          else
            let* y := on_io (get_file vfile) in
            if (f_writable y =? 0) && negb (Z.land prot PROT_WRITE =? 0) && (flags =? MAP_SHARED) then ret (-1)
            else
              let* sz := gets psz in
              if Pgtbl.MAXVA <? u64 (sz + length) then ret (-1)
              else
                let* l := gets vma in
                match free_vma l 0 with
                | None => ret (-1)
                | Some i =>
                    modify (set_vma (<[i := mk_vma 1 sz length prot flags vfd vfile offset]> l)) ;;;
                    on_io (filedup vfile) ;;;
                    modify (set_psz (u64 (sz + length))) ;;;
                    ret sz
                end
      end
  end.

(** The area that [munmap] shrinks, and what becomes of it. *)
Fixpoint munmap_find (l : list vm_area) (i : nat) (addr length : Z) : option (nat * vm_area) :=
  match l with
  | [] => None
  | v :: l =>
      if negb (v_used v =? 0) && (length <=? v_len v) then
        if v_addr v =? addr then
          Some (i, mk_vma (v_used v) (u64 (v_addr v + length)) (s32 (v_len v - length)) (v_prot v) (v_flags v) (v_vfd v) (v_vfile v) (v_offset v))
        else if u64 (addr + length) =? u64 (v_addr v + v_len v) then
          Some (i, mk_vma (v_used v) (v_addr v) (s32 (v_len v - length)) (v_prot v) (v_flags v) (v_vfd v) (v_vfile v) (v_offset v))
        else munmap_find l (Datatypes.S i) addr length
      else munmap_find l (Datatypes.S i) addr length
  end.

Definition sys_munmap : M sys Z :=
  let* a := argaddr 0 in
  match a with
  | None => ret (-1)
  | Some addr =>
      let* length := argint 1 in
      let* l := gets vma in
      match munmap_find l 0 addr length with
      | None => ret (-1)
      | Some (i, v) =>
          modify (set_vma (<[i := v]> l)) ;;;
          when ((v_flags v =? MAP_SHARED) && negb (Z.land (v_prot v) PROT_WRITE =? 0))
            (on_io (filewrite Net.LOCAL_IP Net.LOCAL_MAC (v_vfile v) addr length) ;;; ret tt) ;;;
          fsm (zoom user set_user (uunmap addr (u64 (Z.quot length Kalloc.PGSIZE)))) ;;;
          when (v_len v =? 0)
            (on_io (fileclose (v_vfile v)) ;;;
             modify (fun s => set_vma (<[i := mk_vma 0 (v_addr v) (v_len v) (v_prot v) (v_flags v) (v_vfd v) (v_vfile v) (v_offset v)]> (vma s)) s)) ;;;
          ret 0
      end
  end.

(** ** The table *)

(** The entries of [syscalls] for the calls of this file; [junk] is what the page
    of a new pipe had. *)
Definition syscalls (junk : list Z) (num : Z) : option (M sys Z) :=
  match num with
  | 4 => Some (sys_pipe junk)
  | 5 => Some sys_read
  | 8 => Some sys_fstat
  | 9 => Some sys_chdir
  | 10 => Some sys_dup
  | 15 => Some sys_open
  | 16 => Some sys_write
  | 17 => Some sys_mknod
  | 18 => Some sys_unlink
  | 19 => Some sys_link
  | 20 => Some sys_mkdir
  | 21 => Some sys_close
  | 29 => Some sys_mmap
  | 30 => Some sys_munmap
  | 37 => Some sys_symlink
  | 38 => Some sys_mkf
  | 41 => Some sys_getcwd
  | 42 => Some sys_dup_new
  | 45 => Some sys_connect
  | 49 => Some sys_chmod
  | 50 => Some sys_geti
  | 51 => Some sys_recoveri
  | _ => None
  end.
Definition SYS_dup_new : Z := 42.

Definition set_regs (r : list Z) (p : Z) (s : sys) : sys := mk_sys (sio s) (ofile s) (vma s) (psz s) r p.
Definition set_a0 (r : Z) : M sys unit := modify (fun s => set_regs (<[0%nat := u64 r]> (regs s)) (sp s) s).

(** [syscall] with [a7], without the trace it may print; [other] are the entries
    of the table for the calls of other files. *)
Definition syscall (other : Z -> option (M sys Z)) (junk : list Z) (a7 : Z) : M sys unit :=
  let num := s32 a7 in
  match (if 0 <? num then match syscalls junk num with Some f => Some f | None => other num end else None) with
  | Some f => let* r := f in set_a0 r
  | None => set_a0 (-1)
  end.

End sys.

(** Arguments in a flat memory; a page of zeros can always be had. *)
Fixpoint flat_str (m : gmap Z Z) (n : nat) (va : Z) : bool * list Z :=
  match n with
  | O => (false, [])
  | Datatypes.S n =>
      match m !! va with
      | None => (false, [])
      | Some b => if b =? 0 then (true, [0]) else match flat_str m n (va + 1) with (r, bs) => (r, b :: bs) end
      end
  end.
#[export] Instance flat_args : UserArgs (gmap Z Z) := {|
  uresident m va := bool_decide (is_Some (m !! va));
  ulazy m va := (true, foldr (fun a m => <[a := 0]> m) m (seqZ (Kalloc.PGROUNDDOWN va) Kalloc.PGSIZE));
  ucopyinstr m va max := flat_str m (Z.to_nat max) va;
  uunmap va n := if negb (va mod Kalloc.PGSIZE =? 0) then panic "uvmunmap: not aligned"
                 else modify (fun m => foldr delete m (seqZ va (n * Kalloc.PGSIZE))) |}.

End Sysfile.
