(* ===== verification/Fdref.v ===== *)
(** Reference counts of open files: the system calls of [sysfile.c] keep the
    count of each file equal to the number of descriptors and mapped areas that
    refer to it, but for one. *)

From S2P Require Import Prelude Mem Kstring Umem Store Fs Pipe Console Net File Sysfile.
Import Umem Store Fs File Sysfile.

Module Fdref.

Create HintDb keeps.

Section refs.
Context {S : Type} {ST : Store S} {TS : TxnStore S} {U : Type} {UM : UserMem U} {UA : UserArgs U}.
Context (k : locals).
Abbreviation fstate := (fs (S := S) (U := U)).
Abbreviation iostate := (io (S := S) (U := U)).
Abbreviation state := (sys (S := S) (U := U)).

(** ** What leaves the counts alone *)

Definition frefs (s : iostate) : list Z := f_ref <$> io_ftable s.
Definition keeps {A} (m : M iostate A) : Prop := forall s a s', m s = Ret a s' -> frefs s' = frefs s.

Lemma keeps_ret {A} (a : A) : keeps (ret a).
Proof. by intros s b s' [= _ <-]. Qed.
Lemma keeps_panic {A} m : keeps (A := A) (panic m).
Proof. by intros s b s'. Qed.
Lemma keeps_nofuel {A} : keeps (A := A) nofuel.
Proof. by intros s b s'. Qed.
Lemma keeps_bind {A B} (m : M iostate A) (f : A -> M iostate B) : keeps m -> (forall a, keeps (f a)) -> keeps (bind m f).
Proof. intros Hm Hf s b s' (a & t & E1 & E2)%bind_Ret_inv. rewrite (Hf a _ _ _ E2). by apply (Hm _ a). Qed.
Lemma keeps_gets {A} (f : iostate -> A) : keeps (gets f).
Proof. by intros s b s' [= _ <-]. Qed.
Lemma keeps_deref {A} (o : option A) : keeps (deref o).
Proof. intros s b s'. unfold deref. destruct o; [|done]. by intros [= _ <-]. Qed.
Lemma keeps_zoom {T A} (proj : iostate -> T) (upd : T -> iostate -> iostate) (m : M T A) : (forall t s, io_ftable (upd t s) = io_ftable s) -> keeps (zoom proj upd m).
Proof.
  intros Hu s b s'. unfold zoom. destruct (m (proj s)); [|done..]. intros [= _ <-]. unfold frefs. by rewrite Hu.
Qed.
Lemma keeps_on_fs {A} (m : M fstate A) : keeps (on_fs m).
Proof. by apply keeps_zoom. Qed.
Lemma keeps_on_net {A} (m : M Net.net A) : keeps (on_net m).
Proof. by apply keeps_zoom. Qed.
Lemma keeps_on_sock {A} (m : M (Net.net * U) A) : keeps (on_sock m).
Proof. by apply keeps_zoom. Qed.
Lemma keeps_modify f : (forall s, io_ftable (f s) = io_ftable s) -> keeps (modify f).
Proof. intros Hf s b s' [= _ <-]. unfold frefs. by rewrite Hf. Qed.
Lemma keeps_get f : keeps (get_file f).
Proof. intros s b s'. unfold get_file, deref. destruct (_ !! f); [|done]. by intros [= _ <-]. Qed.
Lemma keeps_mod f g : (forall y, f_ref (g y) = f_ref y) -> keeps (mod_file f g).
Proof.
  intros Hg s b s'. unfold mod_file. destruct (io_ftable s !! f) as [y|] eqn:E; [|done]. intros [= _ <-]. unfold frefs. cbn.
  rewrite list_fmap_insert, Hg. apply list_insert_id. by rewrite list_lookup_fmap, E.
Qed.
Lemma keeps_when b (m : M iostate unit) : keeps m -> keeps (when b m).
Proof. destruct b; [done|]. intros _. apply keeps_ret. Qed.

End refs.

#[export] Hint Resolve keeps_ret keeps_panic keeps_nofuel keeps_bind keeps_gets keeps_deref keeps_on_fs keeps_on_net keeps_on_sock
  keeps_get keeps_mod keeps_when : keeps.
#[export] Hint Extern 1 (keeps (modify _)) => apply keeps_modify; done : keeps.
Ltac keeps := repeat (intros; cbv zeta; first [solve [eauto 3 with keeps]|apply keeps_bind|apply keeps_when|match goal with |- keeps (match ?x with _ => _ end) => destruct x end]).

Section refs.
Context {S : Type} {ST : Store S} {TS : TxnStore S} {U : Type} {UM : UserMem U} {UA : UserArgs U}.
Context (k : locals).
Abbreviation fstate := (fs (S := S) (U := U)).
Abbreviation iostate := (io (S := S) (U := U)).
Abbreviation state := (sys (S := S) (U := U)).

Lemma keeps_filestat p f a : keeps (S := S) (U := U) (filestat p f a).
Proof. unfold filestat, copyout_user. keeps. Qed.
Lemma keeps_fileread f a n : keeps (S := S) (U := U) (fileread f a n).
Proof. unfold fileread, piperead, devread. keeps. Qed.
Lemma keeps_filewrite ip mac f a n : keeps (S := S) (U := U) (filewrite ip mac f a n).
Proof.
  unfold filewrite, pipewrite, devwrite. keeps. generalize 0 as i. induction (write_fuel n) as [|fuel IH]; intros i; cbn [filewrite_loop]; [keeps|].
  unfold filewrite_round, begin_, end_. keeps.
Qed.

(** ** What changes them *)

Lemma mod_file_refs (s : iostate) f r b s' : mod_file f (with_ref r) s = Ret b s' -> (f < length (frefs s))%nat /\ frefs s' = <[f := r]> (frefs s).
Proof.
  unfold mod_file. destruct (io_ftable s !! f) as [y|] eqn:E; [|done]. intros [= _ <-]. apply lookup_lt_Some in E. split.
  - by unfold frefs; rewrite length_fmap.
  - unfold frefs. cbn. by rewrite list_fmap_insert.
Qed.
Lemma get_file_refs (s : iostate) f y s' : get_file f s = Ret y s' -> s' = s /\ frefs s !! f = Some (f_ref y).
Proof.
  unfold get_file, deref. destruct (io_ftable s !! f) as [z|] eqn:E; [|done]. intros [= <- <-]. split; [done|]. unfold frefs. by rewrite list_lookup_fmap, E.
Qed.

Lemma free_slot_zero l : forall n f, free_slot l n = Some f -> exists i, f = (n + i)%nat /\ f_ref <$> l !! i = Some 0.
Proof.
  induction l as [|y l IH]; intros n f; cbn [free_slot]; [done|]. destruct (Z.eqb_spec (f_ref y) 0) as [E|].
  - intros [= <-]. exists 0%nat. split; [lia|]. cbn. by rewrite E.
  - intros (i & -> & Hi)%IH. exists (Datatypes.S i). split; [lia|done].
Qed.

Lemma filealloc_refs (s : iostate) o s' : filealloc s = Ret o s' ->
  match o with
  | Some f => frefs s !! f = Some 0 /\ frefs s' = <[f := 1]> (frefs s)
  | None => frefs s' = frefs s
  end.
Proof.
  unfold filealloc. intros (l & t & [= <- <-] & E2)%bind_Ret_inv. destruct (free_slot (io_ftable s) 0) as [f|] eqn:Ef; [|by injection E2 as <- <-].
  apply bind_Ret_inv in E2 as (u & t & E3 & [= <- <-]). apply mod_file_refs in E3 as [_ ->]. split; [|done].
  apply free_slot_zero in Ef as (i & -> & Hi). unfold frefs. by rewrite list_lookup_fmap.
Qed.

Lemma filedup_refs (s : iostate) f g s' : filedup f s = Ret g s' -> exists r, frefs s !! f = Some r /\ 1 <= r /\ frefs s' = <[f := s32 (r + 1)]> (frefs s).
Proof.
  unfold filedup. intros (y & t & [-> Hy]%get_file_refs & E)%bind_Ret_inv. destruct (Z.ltb_spec (f_ref y) 1); [done|].
  apply bind_Ret_inv in E as (u & t & [_ E3]%mod_file_refs & [= <- <-]). exists (f_ref y). by rewrite E3.
Qed.

(** The end of [fileclose]: what the last reference lets go of. *)
Lemma fileclose_refs (s : iostate) f a s' : fileclose f s = Ret a s' -> exists r, frefs s !! f = Some r /\ 1 <= r /\ frefs s' = <[f := r - 1]> (frefs s).
Proof.
  unfold fileclose. intros (y & t & [-> Hy]%get_file_refs & E)%bind_Ret_inv. destruct (Z.ltb_spec (f_ref y) 1); [done|]. cbv zeta in E.
  exists (f_ref y). split; [done|]. split; [done|]. apply bind_Ret_inv in E as (u1 & t1 & [_ E1]%mod_file_refs & E). destruct (Z.ltb_spec 0 (f_ref y - 1)).
  { by injection E as <- <-. }
  apply bind_Ret_inv in E as (u2 & t2 & [_ E2]%mod_file_refs & E). apply bind_Ret_inv in E as (u3 & t3 & E3 & E).
  apply (keeps_mod f (with_type FD_NONE)) in E3; [|done]. replace (f_ref y - 1) with 0 in * by lia.
  assert (K : frefs s' = frefs t3).
  { refine ((_ : keeps _) _ _ _ E). unfold pipeclose, begin_, end_. keeps. }
  rewrite K, E3, E2, E1. by rewrite list_insert_insert_eq.
Qed.

(** ** Counting *)

Definition count {A} (p : A -> bool) (l : list A) : Z := foldr (fun x n => Z.b2z (p x) + n) 0 l.
Lemma count_insert {A} (p : A -> bool) l : forall i x y, l !! i = Some x -> count p (<[i := y]> l) = count p l - Z.b2z (p x) + Z.b2z (p y).
Proof.
  unfold count. induction l as [|z l IH]; intros [|i] x y; simpl; [done|done| |].
  - intros [= ->]. lia.
  - intros Hi. rewrite (IH i x y Hi). lia.
Qed.
Lemma count_bound {A} (p : A -> bool) l : 0 <= count p l <= alen l.
Proof. unfold alen. induction l as [|z l IH]; cbn [count foldr length]; [lia|]. fold (count p l). destruct (p z); cbn [Z.b2z]; lia. Qed.
Lemma count_pos {A} (p : A -> bool) l i x : l !! i = Some x -> p x = true -> 0 < count p l.
Proof.
  revert i. unfold count. induction l as [|z l IH]; intros [|i]; simpl; [done|done| |].
  - intros [= ->] ->. pose proof (count_bound p l) as Hb. unfold count in Hb. cbn. lia.
  - intros Hi Hp. specialize (IH i Hi Hp). destruct (p z); cbn; lia.
Qed.

Definition is_fd (f : nat) (o : option nat) : bool := bool_decide (o = Some f).
Definition is_vma (f : nat) (v : vm_area) : bool := negb (v_used v =? 0) && (v_vfile v =? f)%nat.

(** What the counts are about: the counts, the descriptors and the areas. *)
Definition view (s : state) : list Z * list (option nat) * list vm_area := (frefs (sio s), ofile s, vma s).

(** The count of file [f] is the number of descriptors and areas of this process
    that refer to it, and [e f] more. *)
Record counted (e : nat -> Z) (v : list Z * list (option nat) * list vm_area) : Prop := {
  ct_ref : forall f r, v.1.1 !! f = Some r -> r = count (is_fd f) v.1.2 + count (is_vma f) v.2 + e f;
  ct_live : forall f, 0 < count (is_fd f) v.1.2 + count (is_vma f) v.2 -> (f < length v.1.1)%nat;
  ct_fds : length v.1.2 = NOFILE;
  ct_vmas : length v.2 = NVMA }.

Definition add (f : nat) (d : Z) (e : nat -> Z) : nat -> Z := fun g => if (g =? f)%nat then e g + d else e g.

Lemma counted_eq e e' v : (forall f, e f = e' f) -> counted e v -> counted e' v.
Proof. intros He [C1 C2 C3 C4]. split; try done. intros f r Hr. rewrite <- He. by apply C1. Qed.

Lemma counted_ref e r o l f n n' : counted e (r, o, l) -> r !! f = Some n -> counted (add f (n' - n) e) (<[f := n']> r, o, l).
Proof.
  intros [C1 C2 C3 C4] Hf. split; try done; cbn [fst snd] in *.
  - intros g m. unfold add. destruct (Nat.eqb_spec g f) as [->|Hne].
    + rewrite list_lookup_insert_eq by (by eapply lookup_lt_Some). intros [= <-]. specialize (C1 f n Hf). lia.
    + rewrite list_lookup_insert_ne by done. apply C1.
  - rewrite length_insert. apply C2.
Qed.

Lemma counted_fd e r o l fd x y : counted e (r, o, l) -> o !! fd = Some x -> (forall f, y = Some f -> (f < length r)%nat) ->
  counted (fun f => e f + Z.b2z (is_fd f x) - Z.b2z (is_fd f y)) (r, <[fd := y]> o, l).
Proof.
  intros [C1 C2 C3 C4] Hfd Hy. split; cbn [fst snd] in *; [| |by rewrite length_insert|done].
  - intros f m Hm. rewrite (count_insert _ _ fd x y Hfd). rewrite (C1 f m Hm). lia.
  - intros f. rewrite (count_insert _ _ fd x y Hfd). destruct (is_fd f y) eqn:E.
    + intros _. apply Hy. by apply bool_decide_eq_true in E.
    + intros Hp. apply C2. destruct (is_fd f x); cbn [Z.b2z] in Hp; lia.
Qed.

Lemma counted_vma e r o l i v w : counted e (r, o, l) -> l !! i = Some v -> (v_used w <> 0 -> (v_vfile w < length r)%nat) ->
  counted (fun f => e f + Z.b2z (is_vma f v) - Z.b2z (is_vma f w)) (r, o, <[i := w]> l).
Proof.
  intros [C1 C2 C3 C4] Hi Hw. split; cbn [fst snd] in *; [| |done|by rewrite length_insert].
  - intros f m Hm. rewrite (count_insert _ _ i v w Hi). rewrite (C1 f m Hm). lia.
  - intros f. rewrite (count_insert _ _ i v w Hi). destruct (is_vma f w) eqn:E.
    + intros _. unfold is_vma in E. apply andb_prop in E as [E1 E2]. apply Nat.eqb_eq in E2 as <-. apply Hw. by intros E0; rewrite E0 in E1.
    + intros Hp. apply C2. destruct (is_vma f v); cbn [Z.b2z] in Hp; lia.
Qed.

Lemma counted_at e r o l fd f : counted e (r, o, l) -> o !! fd = Some (Some f) -> (f < length r)%nat.
Proof.
  intros C Ho. apply (ct_live _ _ C). cbn [fst snd]. pose proof (count_pos (is_fd f) o fd _ Ho ltac:(by apply bool_decide_eq_true)). pose proof (count_bound (is_vma f) l). lia.
Qed.

(** A count stays small. *)
Lemma counted_small e r o l f n : counted e (r, o, l) -> r !! f = Some n -> n <= e f + 32.
Proof.
  intros [C1 C2 C3 C4] Hf. cbn [fst snd] in *. rewrite (C1 f n Hf). pose proof (count_bound (is_fd f) o). pose proof (count_bound (is_vma f) l).
  unfold alen in *. rewrite C3 in *. rewrite C4 in *. unfold NOFILE, NVMA in *. lia.
Qed.

(** ** What leaves the view alone *)

Definition steady {A} (m : M state A) : Prop := forall s a s', m s = Ret a s' -> view s' = view s.
Lemma steady_ret {A} (a : A) : steady (ret a).
Proof. by intros s b s' [= _ <-]. Qed.
Lemma steady_panic {A} m : steady (A := A) (panic m).
Proof. by intros s b s'. Qed.
Lemma steady_bind {A B} (m : M state A) (f : A -> M state B) : steady m -> (forall a, steady (f a)) -> steady (bind m f).
Proof. intros Hm Hf s b s' (a & t & E1 & E2)%bind_Ret_inv. rewrite (Hf a _ _ _ E2). by apply (Hm _ a). Qed.
Lemma steady_gets {A} (f : state -> A) : steady (gets f).
Proof. by intros s b s' [= _ <-]. Qed.
Lemma steady_deref {A} (o : option A) : steady (deref o).
Proof. intros s b s'. unfold deref. destruct o; [|done]. by intros [= _ <-]. Qed.
Lemma on_io_inv {A} (m : M iostate A) (s : state) a s' : on_io m s = Ret a s' -> exists t, m (sio s) = Ret a t /\ s' = set_sio t s.
Proof. unfold on_io, zoom. destruct (m (sio s)); [|done..]. intros [= <- <-]. by eexists. Qed.
Lemma steady_on_io {A} (m : M iostate A) : keeps m -> steady (on_io m).
Proof. intros Hm s b s' (t & E & ->)%on_io_inv. unfold view. cbn. by rewrite (Hm _ _ _ E). Qed.
Lemma steady_fsm {A} (m : M fstate A) : steady (fsm m).
Proof. apply steady_on_io, keeps_on_fs. Qed.
Lemma steady_when b (m : M state unit) : steady m -> steady (when b m).
Proof. destruct b; [done|]. intros _. apply steady_ret. Qed.

End refs.

#[export] Hint Resolve steady_ret steady_panic steady_gets steady_deref steady_fsm steady_on_io steady_when keeps_fileread keeps_filewrite keeps_filestat : keeps.
Ltac steady := repeat (intros; cbv zeta; first [solve [eauto 3 with keeps]|apply steady_bind|apply steady_when|match goal with |- steady (match ?x with _ => _ end) => destruct x end]).

Section refs.
Context {S : Type} {ST : Store S} {TS : TxnStore S} {U : Type} {UM : UserMem U} {UA : UserArgs U}.
Context (k : locals).
Abbreviation fstate := (fs (S := S) (U := U)).
Abbreviation iostate := (io (S := S) (U := U)).
Abbreviation state := (sys (S := S) (U := U)).

Lemma steady_argint n : steady (S := S) (U := U) (argint n).
Proof. unfold argint, argraw. steady. Qed.
Lemma steady_argaddr n : steady (S := S) (U := U) (argaddr n).
Proof. unfold argaddr, argraw, usr, set_usr. steady. Qed.
Lemma steady_argpath n b : steady (S := S) (U := U) (argpath n b).
Proof. unfold argpath, argstr, fetchstr, usr. steady; apply steady_argaddr. Qed.
Lemma steady_begin : steady (S := S) (U := U) begin_op.
Proof. apply steady_on_io, keeps_on_fs. Qed.
Lemma steady_end : steady (S := S) (U := U) end_op.
Proof. apply steady_on_io, keeps_on_fs. Qed.
Lemma steady_copyout a bs : steady (S := S) (U := U) (copyout a bs).
Proof. apply steady_on_io, keeps_on_fs. Qed.
Lemma steady_argfd n : steady (S := S) (U := U) (argfd n).
Proof. unfold argfd. steady; apply steady_argint. Qed.

End refs.

#[export] Hint Resolve steady_argint steady_argaddr steady_argpath steady_begin steady_end steady_copyout steady_argfd : keeps.

Section refs.
Context {S : Type} {ST : Store S} {TS : TxnStore S} {U : Type} {UM : UserMem U} {UA : UserArgs U}.
Context (k : locals).
Abbreviation fstate := (fs (S := S) (U := U)).
Abbreviation iostate := (io (S := S) (U := U)).
Abbreviation state := (sys (S := S) (U := U)).

(** ** The calls that leave it alone *)

Lemma steady_read : steady (S := S) (U := U) sys_read.
Proof. unfold sys_read, rw_args. steady. Qed.
Lemma steady_write : steady (S := S) (U := U) sys_write.
Proof. unfold sys_write, rw_args. steady. Qed.
Lemma steady_fstat : steady (S := S) (U := U) (sys_fstat k).
Proof. unfold sys_fstat. steady. Qed.
Lemma steady_link : steady (S := S) (U := U) (sys_link k).
Proof. unfold sys_link, nlink_add. steady. Qed.
Lemma steady_unlink : steady (S := S) (U := U) (sys_unlink k).
Proof. unfold sys_unlink, nlink_add. steady. Qed.
Lemma steady_finish o : steady (S := S) (U := U) (finish o).
Proof. unfold finish. steady. Qed.
Lemma steady_mkdir : steady (S := S) (U := U) (sys_mkdir k).
Proof. unfold sys_mkdir, finish. steady. Qed.
Lemma steady_mknod : steady (S := S) (U := U) (sys_mknod k).
Proof. unfold sys_mknod, finish. steady. Qed.
Lemma steady_chdir : steady (S := S) (U := U) (sys_chdir k).
Proof. unfold sys_chdir. steady. Qed.
Lemma steady_symlink : steady (S := S) (U := U) (sys_symlink k).
Proof. unfold sys_symlink. steady. Qed.
Lemma steady_mkf : steady (S := S) (U := U) (sys_mkf k).
Proof. unfold sys_mkf. steady. Qed.
Lemma steady_chmod : steady (S := S) (U := U) (sys_chmod k).
Proof. unfold sys_chmod. steady. Qed.
Lemma steady_geti : steady (S := S) (U := U) (sys_geti k).
Proof. unfold sys_geti. steady. Qed.
Lemma steady_recoveri : steady (S := S) (U := U) sys_recoveri.
Proof. unfold sys_recoveri. steady. Qed.
Lemma steady_getcwd : steady (S := S) (U := U) sys_getcwd.
Proof. unfold sys_getcwd. steady. Qed.

Lemma steady_follow n : forall ip, steady (S := S) (U := U) (follow k n ip).
Proof. induction n as [|n IH]; intros ip; cbn [follow]; steady. Qed.
Lemma steady_open_inode m : steady (S := S) (U := U) (open_inode k m).
Proof. unfold open_inode. steady. Qed.
Lemma steady_open_follow m ip : steady (S := S) (U := U) (open_follow k m ip).
Proof. unfold open_follow. steady; apply steady_follow. Qed.

(** ** The calls that change it *)

Lemma fdalloc_inv f (s : state) o s' : fdalloc f s = Ret o s' ->
  match o with
  | Some fd => ofile s !! fd = Some None /\ view s' = (frefs (sio s), <[fd := Some f]> (ofile s), vma s)
  | None => s' = s
  end.
Proof.
  unfold fdalloc. intros (l & t & [= <- <-] & E)%bind_Ret_inv.
  assert (Hfree : forall l n fd, free_fd l n = Some fd -> exists i, fd = (n + i)%nat /\ l !! i = Some None).
  { clear. induction l as [|[y|] l IH]; intros n fd; cbn [free_fd]; [done| |].
    - intros (i & -> & Hi)%IH. exists (Datatypes.S i). split; [lia|done].
    - intros [= <-]. exists 0%nat. split; [lia|done]. }
  destruct (free_fd (ofile s) 0) as [fd|] eqn:Ef; [|by injection E as <- <-].
  apply bind_Ret_inv in E as (u & t & [= _ <-] & [= <- <-]). by apply Hfree in Ef as (i & -> & Hi).
Qed.

Lemma argfd_inv n (s : state) o s' : argfd n s = Ret o s' -> s' = s /\ forall fd f, o = Some (fd, f) -> ofile s !! Z.to_nat fd = Some (Some f).
Proof.
  unfold argfd, argint, argraw. intros (a & t & E1 & E)%bind_Ret_inv. apply bind_Ret_inv in E1 as (r & t1 & E1 & [= <- <-]).
  apply bind_Ret_inv in E1 as (l & t2 & [= <- <-] & E1). destruct (regs s !! n); [|done]. injection E1 as <- <-.
  destruct (_ || _); [by injection E as <- <-|]. apply bind_Ret_inv in E as (l & t2 & [= <- <-] & E). apply bind_Ret_inv in E as (x & t2 & E2 & E).
  unfold deref in E2. destruct (ofile s !! Z.to_nat (s32 z)) as [y|] eqn:Ey; [|done]. injection E2 as <- <-. destruct y as [f|]; injection E as <- <-; [|done].
  split; [done|]. by intros fd g [= <- <-].
Qed.

(** Counts of other processes and the kernel stay below a billion. *)
Definition small (e : nat -> Z) : Prop := forall f, e f < 2 ^ 30.

Lemma dup_counted e (s : state) f g s' : small e -> counted (add f (-1) e) (view s) -> on_io (filedup f) s = Ret g s' -> counted e (view s').
Proof.
  intros He C (t & (r & Hr & Hr1 & Et)%filedup_refs & ->)%on_io_inv. unfold view in *. cbn [sio set_sio ofile vma]. rewrite Et.
  pose proof (counted_small _ _ _ _ _ _ C Hr) as Hs. specialize (He f). unfold add in Hs. rewrite Nat.eqb_refl in Hs. rewrite s32_small by lia.
  eapply counted_eq; [|by eapply counted_ref]. intros g'. unfold add. destruct (Nat.eqb_spec g' f); lia.
Qed.

Lemma close_counted e (s : state) f a s' : counted (add f 1 e) (view s) -> on_io (fileclose f) s = Ret a s' -> counted e (view s').
Proof.
  intros C (t & (r & Hr & Hr1 & Et)%fileclose_refs & ->)%on_io_inv. unfold view in *. cbn [sio set_sio ofile vma]. rewrite Et.
  eapply counted_eq; [|by eapply counted_ref]. intros g'. unfold add. destruct (Nat.eqb_spec g' f); lia.
Qed.

(** A new descriptor takes over a reference. *)
Lemma fdalloc_counted e (s : state) f o s' : counted e (view s) -> (f < length (frefs (sio s)))%nat -> fdalloc f s = Ret o s' ->
  counted (match o with Some _ => add f (-1) e | None => e end) (view s').
Proof.
  intros C Hf E%fdalloc_inv. destruct o as [fd|]; [|by subst]. destruct E as [Ho ->].
  eapply counted_eq; [|eapply counted_fd; [exact C|exact Ho|by intros ? [= <-]]]. intros g. cbn beta. unfold add, is_fd. rewrite bool_decide_eq_false_2 by done.
  destruct (Nat.eqb_spec g f) as [->|Hne]; [rewrite bool_decide_eq_true_2 by done|rewrite bool_decide_eq_false_2 by congruence]; cbn [Z.b2z]; lia.
Qed.

(** A descriptor that is given up leaves its reference. *)
Lemma unset_counted e (s : state) fd f : counted e (view s) -> ofile s !! fd = Some (Some f) ->
  counted (add f 1 e) (view (set_ofile (<[fd := None]> (ofile s)) s)).
Proof.
  intros C Ho. eapply counted_eq; [|eapply (counted_fd _ _ _ _ fd _ None); [exact C|exact Ho|done]]. intros g. cbn beta. unfold add, is_fd.
  rewrite (bool_decide_eq_false_2 (None = _)) by done.
  destruct (Nat.eqb_spec g f) as [->|Hne]; [rewrite bool_decide_eq_true_2 by done|rewrite bool_decide_eq_false_2 by congruence]; cbn [Z.b2z]; lia.
Qed.

Lemma add_add f d e g : add f d (add f (- d) e) g = e g.
Proof. unfold add. destruct (Nat.eqb_spec g f); lia. Qed.

Lemma sys_dup_counted e (s : state) a s' : small e -> counted e (view s) -> sys_dup s = Ret a s' -> counted e (view s').
Proof.
  intros He C. unfold sys_dup. intros (o & t & [-> Ho]%argfd_inv & E)%bind_Ret_inv. destruct o as [[fd0 f]|]; [|by injection E as <- <-].
  apply bind_Ret_inv in E as (o & t & E1 & E). pose proof (counted_at _ _ _ _ _ _ C (Ho _ _ eq_refl)) as Hf.
  pose proof (fdalloc_counted e s f o t C Hf E1) as C1. destruct o as [fd|]; [|by injection E as <- <-].
  apply bind_Ret_inv in E as (g & t2 & E2 & [= <- <-]). by eapply dup_counted.
Qed.

Lemma sys_close_counted e (s : state) a s' : counted e (view s) -> sys_close s = Ret a s' -> counted e (view s').
Proof.
  intros C. unfold sys_close. intros (o & t & [-> Ho]%argfd_inv & E)%bind_Ret_inv. destruct o as [[fd f]|]; [|by injection E as <- <-].
  apply bind_Ret_inv in E as (u & t & [= _ <-] & E). apply bind_Ret_inv in E as (u2 & t & E2 & [= <- <-]).
  eapply close_counted; [|exact E2]. apply unset_counted; [done|]. by apply Ho.
Qed.

Lemma steady_counted {A} e (m : M state A) s a s' : steady m -> counted e (view s) -> m s = Ret a s' -> counted e (view s').
Proof. intros Hm C E. by rewrite (Hm _ _ _ E). Qed.

Lemma alloc_counted e (s : state) o s' : counted e (view s) -> on_io filealloc s = Ret o s' ->
  match o with Some f => counted (add f 1 e) (view s') /\ (f < length (frefs (sio s')))%nat | None => counted e (view s') end.
Proof.
  intros C (t & E%filealloc_refs & ->)%on_io_inv. destruct o as [f|]; unfold view in *; cbn [sio set_sio ofile vma].
  - destruct E as [H0 ->]. split; [exact (counted_ref e _ _ _ f 0 1 C H0)|]. rewrite length_insert. by eapply lookup_lt_Some.
  - by rewrite E.
Qed.

Lemma open_file_counted e m ip (s : state) a s' : counted e (view s) -> open_file m ip s = Ret a s' -> counted e (view s').
Proof.
  intros C. unfold open_file. cbv zeta. intros (o & t & E1 & E)%bind_Ret_inv. pose proof (alloc_counted e s o t C E1) as C1.
  destruct o as [f|]; [|eapply steady_counted; [|exact C1|exact E]; steady]. destruct C1 as [C1 Hf].
  apply bind_Ret_inv in E as (o & t2 & E2 & E). pose proof (fdalloc_counted _ t f o t2 C1 Hf E2) as C2. destruct o as [fd|].
  - eapply steady_counted; [|eapply counted_eq; [|exact C2]; intros g; apply (add_add f (-1))|exact E]. steady.
  - apply bind_Ret_inv in E as (u & t3 & E3 & E). eapply steady_counted; [|eapply close_counted; [exact C2|exact E3]|exact E]. steady.
Qed.

Lemma sys_open_counted e (s : state) a s' : counted e (view s) -> sys_open k s = Ret a s' -> counted e (view s').
Proof.
  intros C. unfold sys_open. intros (r & t & E1 & E)%bind_Ret_inv. pose proof (steady_counted e _ _ _ _ (steady_argpath _ _) C E1) as C1. clear E1.
  destruct (r <? 0); [by injection E as <- <-|]. apply bind_Ret_inv in E as (m & t2 & E2 & E). pose proof (steady_counted e _ _ _ _ (steady_argint _) C1 E2) as C2.
  apply bind_Ret_inv in E as (u & t3 & E3 & E). pose proof (steady_counted e _ _ _ _ steady_begin C2 E3) as C3.
  apply bind_Ret_inv in E as (o & t4 & E4 & E). pose proof (steady_counted e _ _ _ _ (steady_open_inode _) C3 E4) as C4.
  destruct o as [ip|]; [|by injection E as <- <-]. apply bind_Ret_inv in E as (x & t5 & E5 & E). pose proof (steady_counted e _ _ _ _ (steady_fsm _) C4 E5) as C5.
  destruct (_ && _); [eapply steady_counted; [|exact C5|exact E]; steady|].
  apply bind_Ret_inv in E as (o & t6 & E6 & E). pose proof (steady_counted e _ _ _ _ (steady_open_follow _ _) C5 E6) as C6.
  destruct o as [ip'|]; [|by injection E as <- <-]. by eapply open_file_counted.
Qed.

(** Closing a file that nothing else has used since it was allocated. *)
Lemma close_new (s t u : iostate) f a : frefs s !! f = Some 0 -> frefs t = <[f := 1]> (frefs s) -> fileclose f t = Ret a u -> frefs u = frefs s.
Proof.
  intros H0 Et (r & Hr & _ & ->)%fileclose_refs. rewrite Et in *. rewrite list_lookup_insert_eq in Hr by (by eapply lookup_lt_Some).
  injection Hr as <-. rewrite list_insert_insert_eq. by apply list_insert_id.
Qed.

Lemma pipealloc_refs junk (s : iostate) o s' : pipealloc junk s = Ret o s' ->
  match o with
  | Some (f0, f1) => frefs s !! f0 = Some 0 /\ <[f0 := 1]> (frefs s) !! f1 = Some 0 /\ frefs s' = <[f1 := 1]> (<[f0 := 1]> (frefs s))
  | None => frefs s' = frefs s
  end.
Proof.
  unfold pipealloc. intros (o0 & t0 & E0%filealloc_refs & E)%bind_Ret_inv. destruct o0 as [f0|]; [|by injection E as <- <-]. destruct E0 as [Z0 R0].
  apply bind_Ret_inv in E as (o1 & t1 & E1%filealloc_refs & E). destruct o1 as [f1|].
  2: { apply bind_Ret_inv in E as (u & t2 & E2 & [= <- <-]). by eapply close_new; [exact Z0|rewrite E1; exact R0|exact E2]. }
  destruct E1 as [Z1 R1]. apply bind_Ret_inv in E as (pi & t2 & E2%keeps_on_net & E). destruct (pi =? 0).
  - apply bind_Ret_inv in E as (u & t3 & (r & Hr & _ & R3)%fileclose_refs & E). apply bind_Ret_inv in E as (u2 & t4 & E4 & [= <- <-]).
    rewrite E2, R1 in *. rewrite R0 in *. pose proof (lookup_lt_Some _ _ _ Z0) as L0.
    assert (Hne : f0 <> f1) by (intros ->; rewrite list_lookup_insert_eq in Z1 by done; congruence).
    rewrite list_lookup_insert_ne, list_lookup_insert_eq in Hr by done. injection Hr as <-.
    rewrite list_insert_insert_ne in R3 by done. rewrite list_insert_insert_eq in R3. cbn in R3. rewrite (list_insert_id _ f0) in R3 by done.
    rewrite list_lookup_insert_ne in Z1 by done. by eapply close_new; [exact Z1|exact R3|exact E4].
  - assert (K : o = Some (f0, f1) /\ frefs s' = frefs t2).
    { apply bind_Ret_inv in E as (u & t3 & E3 & E). apply bind_Ret_inv in E as (u2 & t4 & E4 & E). apply bind_Ret_inv in E as (u3 & t5 & E5 & [= <- <-]).
      split; [done|]. apply (keeps_mod f1) in E5; [|done]. apply (keeps_mod f0) in E4; [|done]. injection E3 as _ <-. by rewrite E5, E4. }
    destruct K as [-> ->]. rewrite E2, R1. by rewrite R0 in *.
Qed.

Lemma add_comm f g d d' e h : add f d (add g d' e) h = add g d' (add f d e) h.
Proof. unfold add. destruct (Nat.eqb_spec h f), (Nat.eqb_spec h g); lia. Qed.

(** The two new files of [sys_pipe] are closed. *)
Lemma pipe_fail_counted e f0 f1 (s : state) a s' : counted (add f0 1 (add f1 1 e)) (view s) ->
  (on_io (fileclose f0) ;;; on_io (fileclose f1) ;;; ret (-1)) s = Ret a s' -> counted e (view s').
Proof.
  intros C (u1 & v1 & F1 & F)%bind_Ret_inv. apply bind_Ret_inv in F as (u2 & v2 & F2 & [= <- <-]). eapply close_counted; [|exact F2]. by eapply close_counted.
Qed.

(** Its end, with the two files that [pipealloc] has made. *)
Lemma pipe_fds_counted e f0 f1 arr (s : state) a s' : counted (add f0 1 (add f1 1 e)) (view s) -> (f0 < length (frefs (sio s)))%nat -> (f1 < length (frefs (sio s)))%nat ->
  (let* fd0 := fdalloc f0 in
   match fd0 with
   | None => on_io (fileclose f0) ;;; on_io (fileclose f1) ;;; ret (-1)
   | Some fd0 =>
       let* fd1 := fdalloc f1 in
       match fd1 with
       | None => set_fd fd0 None ;;; on_io (fileclose f0) ;;; on_io (fileclose f1) ;;; ret (-1)
       | Some fd1 =>
           let* r0 := copyout arr (Net.le32 (Z.of_nat fd0)) in
           let* r1 := if r0 <? 0 then ret (-1) else copyout (u64 (arr + 4)) (Net.le32 (Z.of_nat fd1)) in
           if r1 <? 0 then set_fd fd0 None ;;; set_fd fd1 None ;;; on_io (fileclose f0) ;;; on_io (fileclose f1) ;;; ret (-1) else ret 0
       end
   end) s = Ret a s' -> counted e (view s').
Proof.
  intros C L0 L1 (o & t & E0 & E)%bind_Ret_inv. pose proof (fdalloc_counted _ s f0 o t C L0 E0) as C0. apply fdalloc_inv in E0.
  destruct o as [fd0|]; [|by eapply pipe_fail_counted]. destruct E0 as [H0 V0]. apply (counted_eq _ (add f1 1 e)) in C0; [|intros g; apply (add_add f0 (-1))].
  assert (O0 : ofile t = <[fd0 := Some f0]> (ofile s)) by (unfold view in V0; congruence). assert (L0' : (f1 < length (frefs (sio t)))%nat) by (unfold view in V0; congruence).
  assert (A0 : ofile t !! fd0 = Some (Some f0)) by (rewrite O0; apply list_lookup_insert_eq; by eapply lookup_lt_Some).
  apply bind_Ret_inv in E as (o & t1 & E1 & E). pose proof (fdalloc_counted _ t f1 o t1 C0 L0' E1) as C1. apply fdalloc_inv in E1. destruct o as [fd1|].
  2: { subst t1. apply bind_Ret_inv in E as (u & t2 & [= _ <-] & E). eapply pipe_fail_counted; [|exact E]. by apply unset_counted. }
  destruct E1 as [H1 V1]. apply (counted_eq _ e) in C1; [|intros g; apply (add_add f1 (-1))]. assert (O1 : ofile t1 = <[fd1 := Some f1]> (ofile t)) by (unfold view in V1; congruence).
  assert (Hne : fd0 <> fd1) by congruence.
  apply bind_Ret_inv in E as (r0 & t2 & E2%steady_copyout & E). apply bind_Ret_inv in E as (r1 & t3 & E3 & E).
  assert (V3 : view t3 = view t1).
  { rewrite <- E2. destruct (r0 <? 0); [by injection E3 as <- <-|by eapply steady_copyout]. }
  rewrite <- V3 in C1. assert (O3 : ofile t3 = ofile t1) by (unfold view in V3; congruence).
  destruct (r1 <? 0); [|by injection E as <- <-]. apply bind_Ret_inv in E as (u & t4 & [= _ <-] & E). apply bind_Ret_inv in E as (u2 & t5 & [= _ <-] & E).
  eapply pipe_fail_counted; [|exact E]. eapply counted_eq; [intros g; symmetry; apply add_comm|].
  apply unset_counted; [apply unset_counted; [done|]|cbn [ofile set_ofile]; rewrite list_lookup_insert_ne by done]; rewrite O3, O1.
  - by rewrite list_lookup_insert_ne.
  - apply list_lookup_insert_eq. by eapply lookup_lt_Some.
Qed.

Lemma sys_pipe_counted e junk (s : state) a s' : counted e (view s) -> sys_pipe junk s = Ret a s' -> counted e (view s').
Proof.
  intros C. unfold sys_pipe. intros (x & t & E1 & E)%bind_Ret_inv. pose proof (steady_counted e _ _ _ _ (steady_argaddr _) C E1) as C1. clear E1.
  destruct x as [arr|]; [|by injection E as <- <-]. apply bind_Ret_inv in E as (o & t2 & (u & E2%pipealloc_refs & ->)%on_io_inv & E).
  destruct o as [[f0 f1]|]; [|injection E as <- <-; unfold view in *; cbn [sio set_sio ofile vma]; by rewrite E2]. destruct E2 as (Z0 & Z1 & R).
  cbv zeta in E. pose proof (lookup_lt_Some _ _ _ Z0) as L0. pose proof (lookup_lt_Some _ _ _ Z1) as L1. rewrite length_insert in L1.
  eapply pipe_fds_counted; [| | |exact E]; cbn [sio set_sio]; [|by rewrite R, !length_insert..].
  unfold view in *. cbn [sio set_sio ofile vma]. rewrite R. eapply counted_eq; [|exact (counted_ref _ _ _ _ f1 0 1 (counted_ref e _ _ _ f0 0 1 C1 Z0) Z1)].
  intros g. apply add_comm.
Qed.

Lemma sockalloc_refs ra lp rp (s : iostate) o s' : sockalloc ra lp rp s = Ret o s' ->
  match o with Some f => frefs s !! f = Some 0 /\ frefs s' = <[f := 1]> (frefs s) | None => frefs s' = frefs s end.
Proof.
  unfold sockalloc. intros (o0 & t0 & E0%filealloc_refs & E)%bind_Ret_inv. destruct o0 as [f|]; [|by injection E as <- <-]. destruct E0 as [Z0 R0].
  apply bind_Ret_inv in E as (si & t1 & E1%keeps_on_net & E). destruct (si =? 0).
  { apply bind_Ret_inv in E as (u & t2 & E2 & [= <- <-]). by eapply close_new; [exact Z0|rewrite E1; exact R0|exact E2]. }
  apply bind_Ret_inv in E as (u & t2 & E2 & E). apply (keeps_mod f) in E2; [|done]. apply bind_Ret_inv in E as (ok & t3 & E3%keeps_on_net & E).
  assert (R3 : frefs t3 = <[f := 1]> (frefs s)) by congruence. destruct ok; [by injection E as <- <-|].
  apply bind_Ret_inv in E as (u4 & t4 & E4%keeps_on_net & E). apply bind_Ret_inv in E as (u5 & t5 & E5 & [= <- <-]).
  by eapply close_new; [exact Z0|rewrite E4; exact R3|exact E5].
Qed.

Lemma sys_connect_counted e (s : state) a s' : counted e (view s) -> sys_connect s = Ret a s' -> counted e (view s').
Proof.
  intros C. unfold sys_connect. intros (x1 & t1 & E1 & E)%bind_Ret_inv. pose proof (steady_counted e _ _ _ _ (steady_argint _) C E1) as C1.
  apply bind_Ret_inv in E as (x2 & t2 & E2 & E). pose proof (steady_counted e _ _ _ _ (steady_argint _) C1 E2) as C2.
  apply bind_Ret_inv in E as (x3 & t3 & E3 & E). pose proof (steady_counted e _ _ _ _ (steady_argint _) C2 E3) as C3.
  apply bind_Ret_inv in E as (o & t4 & (u & E4%sockalloc_refs & ->)%on_io_inv & E).
  destruct o as [f|]; [|injection E as <- <-; unfold view in *; cbn [sio set_sio ofile vma]; by rewrite E4]. destruct E4 as [Z0 R].
  assert (C4 : counted (add f 1 e) (view (set_sio u t3))) by (unfold view in *; cbn [sio set_sio ofile vma]; rewrite R; exact (counted_ref e _ _ _ f 0 1 C3 Z0)).
  apply bind_Ret_inv in E as (o & t5 & E5 & E).
  pose proof (fdalloc_counted _ _ f o t5 C4 ltac:(cbn [sio set_sio]; rewrite R, length_insert; by eapply lookup_lt_Some) E5) as C5.
  destruct o as [fd|]; [injection E as <- <-; eapply counted_eq; [|exact C5]; intros g; apply (add_add f (-1))|].
  apply bind_Ret_inv in E as (u6 & t6 & E6 & [= <- <-]). by eapply close_counted.
Qed.

Lemma sys_mmap_counted e (s : state) a s' : small e -> counted e (view s) -> sys_mmap s = Ret a s' -> counted e (view s').
Proof.
  intros He C. unfold sys_mmap. intros (x & t & E1 & E)%bind_Ret_inv. pose proof (steady_counted e _ _ _ _ (steady_argaddr _) C E1) as C1. clear E1 C s.
  destruct x as [addr|]; [|by injection E as <- <-].
  apply bind_Ret_inv in E as (len & t1 & E1 & E). pose proof (steady_counted e _ _ _ _ (steady_argint _) C1 E1) as C2. clear E1 C1 t.
  apply bind_Ret_inv in E as (prot & t & E1 & E). pose proof (steady_counted e _ _ _ _ (steady_argint _) C2 E1) as C1. clear E1 C2 t1.
  apply bind_Ret_inv in E as (flags & t1 & E1 & E). pose proof (steady_counted e _ _ _ _ (steady_argint _) C1 E1) as C2. clear E1 C1 t.
  apply bind_Ret_inv in E as (o & t2 & [-> Ho]%argfd_inv & E). destruct o as [[vfd f]|]; [|by injection E as <- <-].
  pose proof (counted_at _ _ _ _ _ _ C2 (Ho _ _ eq_refl)) as Hf.
  apply bind_Ret_inv in E as (off & t & E1%steady_argint & E). rewrite <- E1 in C2.
  assert (Hf' : (f < length (frefs (sio t)))%nat) by (unfold view in E1; congruence). clear E1 Hf Ho.
  destruct (_ || _); [by injection E as <- <-|]. apply bind_Ret_inv in E as (y & t2 & (u & [-> _]%get_file_refs & ->)%on_io_inv & E).
  replace (set_sio (sio t) t) with t in E by (by destruct t). destruct (_ && _); [by injection E as <- <-|].
  apply bind_Ret_inv in E as (sz & t2 & [= <- <-] & E). destruct (_ <? _); [by injection E as <- <-|].
  apply bind_Ret_inv in E as (l & t2 & [= <- <-] & E).
  assert (Hfree : forall l n i, free_vma l n = Some i -> exists j v, i = (n + j)%nat /\ l !! j = Some v /\ v_used v = 0).
  { clear. induction l as [|v l IH]; intros n i; cbn [free_vma]; [done|]. destruct (Z.eqb_spec (v_used v) 0).
    - intros [= <-]. exists 0%nat, v. split; [lia|done].
    - intros (j & w & -> & Hj & Hw)%IH. exists (Datatypes.S j), w. split; [lia|done]. }
  destruct (free_vma (vma t) 0) as [i|] eqn:Ei; [|by injection E as <- <-]. apply Hfree in Ei as (j & v & -> & Hj & Hv). cbn [Nat.add] in *.
  apply bind_Ret_inv in E as (u & t2 & [= _ <-] & E). apply bind_Ret_inv in E as (g & t3 & E3 & E). apply bind_Ret_inv in E as (u2 & t4 & [= _ <-] & [= <- <-]).
  change (counted e (view t3)). eapply dup_counted; [done| |exact E3].
  eapply counted_eq; [|eapply (counted_vma _ _ _ _ j v (mk_vma 1 (psz t) len prot flags vfd f off)); [exact C2|exact Hj|done]].
  intros g'. cbn beta. unfold add, is_vma. rewrite Hv. cbn. destruct (Nat.eqb_spec f g') as [->|Hne]; [rewrite Nat.eqb_refl|rewrite (proj2 (Nat.eqb_neq g' f)) by done]; cbn [Z.b2z]; lia.
Qed.

Lemma munmap_find_inv addr len l : forall n i w, munmap_find l n addr len = Some (i, w) ->
  exists j v, i = (n + j)%nat /\ l !! j = Some v /\ v_used v <> 0 /\ v_used w = v_used v /\ v_vfile w = v_vfile v.
Proof.
  induction l as [|v l IH]; intros n i w; cbn [munmap_find]; [done|].
  assert (Hnext : munmap_find l (Datatypes.S n) addr len = Some (i, w) ->
    exists j v', i = (n + j)%nat /\ (v :: l) !! j = Some v' /\ v_used v' <> 0 /\ v_used w = v_used v' /\ v_vfile w = v_vfile v').
  { intros (j & v' & -> & H1 & H2)%IH. exists (Datatypes.S j), v'. split; [lia|done]. }
  destruct (Z.eqb_spec (v_used v) 0); [done|]. cbn [negb andb]. destruct (len <=? v_len v); [|done].
  destruct (v_addr v =? addr); [|destruct (_ =? _); [|done]]; intros [= <- <-]; exists 0%nat, v; split; by (lia || done).
Qed.

Lemma counted_same_vma e r o l i v w : counted e (r, o, l) -> l !! i = Some v -> v_used w = v_used v -> v_vfile w = v_vfile v -> counted e (r, o, <[i := w]> l).
Proof.
  intros C Hi Hu Hf. assert (Hs : forall f, is_vma f w = is_vma f v) by (intros f; unfold is_vma; by rewrite Hu, Hf).
  eapply counted_eq; [|eapply counted_vma; [exact C|exact Hi|]].
  - intros f. cbn beta. rewrite Hs. lia.
  - intros Hne. apply (ct_live _ _ C). cbn [fst snd]. pose proof (count_bound (is_fd (v_vfile w)) o).
    pose proof (count_pos (is_vma (v_vfile w)) l i v Hi) as Hp. rewrite <- Hs in Hp. unfold is_vma in Hp at 1. rewrite Nat.eqb_refl, (proj2 (Z.eqb_neq _ _)) in Hp by done.
    specialize (Hp eq_refl). lia.
Qed.

Lemma sys_munmap_counted e (s : state) a s' : counted e (view s) -> sys_munmap s = Ret a s' -> counted e (view s').
Proof.
  intros C. unfold sys_munmap. intros (x & t & E1 & E)%bind_Ret_inv. pose proof (steady_counted e _ _ _ _ (steady_argaddr _) C E1) as C1. clear E1 C s.
  destruct x as [addr|]; [|by injection E as <- <-].
  apply bind_Ret_inv in E as (len & t1 & E1 & E). pose proof (steady_counted e _ _ _ _ (steady_argint _) C1 E1) as C2. clear E1 C1 t.
  apply bind_Ret_inv in E as (l & t2 & [= <- <-] & E). destruct (munmap_find (vma t1) 0 addr len) as [[i w]|] eqn:Ef; [|by injection E as <- <-].
  apply munmap_find_inv in Ef as (j & v & -> & Hj & Hv & Hu & Hvf). cbn [Nat.add] in *. pose proof (counted_same_vma e _ _ _ j v w C2 Hj Hu Hvf) as C3.
  apply bind_Ret_inv in E as (u & t2 & [= _ <-] & E). set (t3 := set_vma _ t1) in *. change (counted e (view t3)) in C3.
  assert (Hj3 : vma t3 !! j = Some w) by (apply list_lookup_insert_eq; by eapply lookup_lt_Some). clearbody t3.
  apply bind_Ret_inv in E as (u2 & t4 & E4 & E). assert (V4 : view t4 = view t3) by (refine ((_ : steady _) _ _ _ E4); steady).
  apply bind_Ret_inv in E as (u3 & t5 & E5%steady_fsm & E). rewrite V4 in E5. rewrite <- E5 in C3. assert (Hj5 : vma t5 !! j = Some w) by (unfold view in E5; congruence).
  apply bind_Ret_inv in E as (u4 & t6 & E6 & [= <- <-]). destruct (v_len w =? 0); [|by injection E6 as _ <-].
  apply bind_Ret_inv in E6 as (u5 & t7 & E7 & [= _ <-]). assert (C7 : counted (add (v_vfile w) (-1) e) (view t7)).
  { eapply close_counted; [|exact E7]. eapply counted_eq; [|exact C3]. intros g. symmetry. apply (add_add _ 1). }
  assert (Hj7 : vma t7 !! j = Some w) by (apply on_io_inv in E7 as (q & _ & ->); exact Hj5).
  eapply counted_eq; [|eapply (counted_vma _ _ _ _ j w); [exact C7|exact Hj7|done]]. intros g. cbn beta. unfold add, is_vma. rewrite Hu.
  rewrite (proj2 (Z.eqb_neq (v_used v) 0)) by done. cbn. destruct (Nat.eqb_spec (v_vfile w) g) as [->|Hne]; [rewrite Nat.eqb_refl|rewrite (proj2 (Nat.eqb_neq g _)) by done]; cbn [Z.b2z]; lia.
Qed.

(** ** Any sequence of calls *)

(** The process sets its registers and traps, for any call on files but
    [dup_new]. *)
Inductive step : state -> state -> Prop :=
| step_call s s' r p a7 junk f : syscalls k junk (s32 a7) = Some f -> s32 a7 <> SYS_dup_new ->
    syscall k (fun _ => None) junk a7 (set_regs r p s) = Ret tt s' -> step s s'.

Lemma syscalls_counted e junk num f (s : state) a s' : small e -> counted e (view s) -> syscalls k junk num = Some f -> num <> SYS_dup_new -> f s = Ret a s' ->
  counted e (view s').
Proof.
  intros He C Hf Hn E. unfold syscalls, SYS_dup_new in *.
  assert (Hs : steady f -> counted e (view s')) by (intros Hs; by eapply steady_counted).
  repeat (lazymatch type of Hf with context [match ?n with _ => _ end] => destruct n; try done end); injection Hf as <-;
    first [by eapply sys_dup_counted|by eapply sys_close_counted|by eapply sys_open_counted|by eapply sys_pipe_counted|by eapply sys_connect_counted
          |by eapply sys_mmap_counted|by eapply sys_munmap_counted|apply Hs].
  all: first [apply steady_read|apply steady_write|apply steady_fstat|apply steady_link|apply steady_unlink|apply steady_mkdir|apply steady_mknod|apply steady_chdir
             |apply steady_symlink|apply steady_mkf|apply steady_chmod|apply steady_geti|apply steady_recoveri|apply steady_getcwd].
Qed.

Lemma step_counted e s s' : small e -> counted e (view s) -> step s s' -> counted e (view s').
Proof.
  intros He C Hst. revert C. destruct Hst as [t t' r p a7 junk f Hf Hn E]. intros C. unfold syscall in E. cbv zeta in E. assert (Hp : (0 <? s32 a7) = true).
  { unfold syscalls in Hf. destruct (s32 a7); [done|done|done]. }
  rewrite Hp, Hf in E. apply bind_Ret_inv in E as (x & u & E1 & [= <-]). change (counted e (view u)).
  exact (syscalls_counted e junk (s32 a7) f (set_regs r p t) x u He C Hf Hn E1).
Qed.

(** C14: reference counts are exact. Whatever calls on files a process makes, in
    any order and with any arguments, the count of each open file stays the
    number of its descriptors and mapped areas that refer to it, and of the [e f]
    references held elsewhere; so no descriptor refers to a file that has been
    closed, and none of these files can be handed out again. [dup_new] is the
    exception. *)
Theorem fd_refcounts_exact e s s' : small e -> (forall f, 0 <= e f) -> counted e (view s) -> rtc step s s' ->
  counted e (view s') /\ forall fd f, ofile s' !! fd = Some (Some f) -> exists y, io_ftable (sio s') !! f = Some y /\ 1 <= f_ref y.
Proof.
  intros He Hpos C Hst. assert (C' : counted e (view s')) by (induction Hst as [|? ? ? H1 _ IH]; [done|apply IH; by eapply step_counted]).
  split; [done|]. intros fd f Ho. pose proof (counted_at _ _ _ _ _ _ C' Ho) as Hl. destruct (lookup_lt_is_Some_2 _ _ Hl) as [r Hr].
  pose proof (ct_ref _ _ C' f r Hr) as Er. unfold frefs in Hr. rewrite list_lookup_fmap in Hr. destruct (io_ftable (sio s') !! f) as [y|]; [|done]. injection Hr as <-.
  exists y. split; [done|]. cbn [view fst snd] in Er. pose proof (count_pos (is_fd f) _ fd _ Ho ltac:(by apply bool_decide_eq_true)).
  pose proof (count_bound (is_vma f) (vma s')). specialize (Hpos f). lia.
Qed.

(** [sys_dup_new] onto a descriptor in use leaves it dangling: the file it
    refers to is closed, but the descriptor stays, and the copy gets another
    descriptor, whatever the one asked for. *)
Theorem dup_new_dangles (s : state) fd f newfd g spare t : regs s !! 0%nat = Some (Z.of_nat fd) -> regs s !! 1%nat = Some (Z.of_nat newfd) ->
  (fd < NOFILE)%nat -> (newfd < NOFILE)%nat -> ofile s !! fd = Some (Some f) -> ofile s !! newfd = Some (Some g) -> free_fd (ofile s) 0 = Some spare ->
  (exists y, io_ftable (sio s) !! f = Some y /\ 1 <= f_ref y < 2 ^ 30) -> f <> g -> (f_ref <$> io_ftable (sio s) !! g = Some 1) ->
  fileclose g (sio s) = Ret tt t ->
  exists s', sys_dup_new s = Ret (Z.of_nat spare) s' /\ ofile s' !! newfd = Some (Some g) /\ spare <> newfd /\ f_ref <$> io_ftable (sio s') !! g = Some 0.
Proof.
  intros R0 R1 Hfd Hnew Ho Hn Hfree (y & Hy & Hry) Hne Hg Hclose. unfold NOFILE in *.
  assert (Efd : argfd 0 s = Ret (Some (Z.of_nat fd, f)) s).
  { unfold argfd, argint, argraw, bind, gets, ret. rewrite R0, s32_small by lia. rewrite (proj2 (Z.ltb_ge _ _)), (proj2 (Z.leb_gt _ _)) by (unfold NOFILE; lia).
    cbn [orb]. rewrite Nat2Z.id, Ho. done. }
  assert (Enew : argint 1 s = Ret (Z.of_nat newfd) s) by (unfold argint, argraw, bind, gets, ret; by rewrite R1, s32_small by lia).
  destruct (fileclose_refs _ _ _ _ Hclose) as (r & Hr & _ & Et). unfold frefs in Hr at 1. rewrite list_lookup_fmap, Hg in Hr. injection Hr as <-.
  assert (Hfr : exists z, io_ftable t !! f = Some z /\ f_ref z = f_ref y).
  { assert (Hf2 : frefs t !! f = Some (f_ref y)) by (rewrite Et, list_lookup_insert_ne by done; unfold frefs; by rewrite list_lookup_fmap, Hy).
    unfold frefs in Hf2. rewrite list_lookup_fmap in Hf2. destruct (io_ftable t !! f) as [z|]; [|done]. injection Hf2 as <-. by exists z. }
  destruct Hfr as (z & Hz & Hzr). unfold sys_dup_new. rewrite (bind_Ret _ _ _ _ _ Efd), (bind_Ret _ _ _ _ _ Enew).
  rewrite (proj2 (Z.ltb_ge _ _)), (proj2 (Z.leb_gt _ _)) by (unfold NOFILE; lia). cbn [orb].
  assert (Eo : gets ofile s = Ret (ofile s) s) by done. rewrite (bind_Ret _ _ _ _ _ Eo), Nat2Z.id, Hn.
  assert (Eg : deref (Some (Some g)) s = Ret (Some g) s) by done. rewrite (bind_Ret _ _ _ _ _ Eg).
  assert (Ec : on_io (fileclose g) s = Ret tt (set_sio t s)) by (unfold on_io, zoom; by rewrite Hclose). rewrite (bind_Ret _ _ _ _ _ Ec).
  assert (Ea : fdalloc f (set_sio t s) = Ret (Some spare) (set_ofile (<[spare := Some f]> (ofile s)) (set_sio t s))).
  { unfold fdalloc, bind, gets. cbn [ofile set_sio]. by rewrite Hfree. }
  rewrite (bind_Ret _ _ _ _ _ Ea). set (s2 := set_ofile _ _).
  assert (Ed : filedup f t = Ret f (set_ftable (<[f := File.with_ref (f_ref y + 1) z]> (io_ftable t)) t)).
  { unfold filedup, get_file, mod_file, bind, deref, ret. rewrite Hz, Hzr, (proj2 (Z.ltb_ge _ _)), s32_small by lia. by rewrite Hz. }
  assert (Ed2 : on_io (filedup f) s2 = Ret f (set_sio (set_ftable (<[f := File.with_ref (f_ref y + 1) z]> (io_ftable t)) t) s2)) by (unfold on_io, zoom; cbn [s2 sio set_ofile set_sio]; by rewrite Ed).
  rewrite (bind_Ret _ _ _ _ _ Ed2). eexists. split; [reflexivity|].
  assert (Hsp : ofile s !! spare = Some None).
  { destruct (fdalloc_inv f s (Some spare) (set_ofile (<[spare := Some f]> (ofile s)) s)) as [? _]; [|done]. unfold fdalloc, bind, gets. by rewrite Hfree. }
  assert (Hsn : spare <> newfd) by congruence. split_and!; [|done|].
  - cbn [ofile set_sio s2 set_ofile]. by rewrite list_lookup_insert_ne.
  - cbn. rewrite list_lookup_insert_ne by done. change (f_ref <$> io_ftable t !! g = Some 0). rewrite <- list_lookup_fmap. fold (frefs t). rewrite Et.
    apply list_lookup_insert_eq. unfold frefs. rewrite length_fmap. destruct (io_ftable (sio s) !! g) eqn:Egg; [by eapply lookup_lt_Some|done].
Qed.

End refs.

(** ** A process with two pipe ends *)

Definition ex_locals : locals := mk_locals 0 200 220 240 400 600 800 900 910 [].
Definition ex_end (r w : Z) : file := mk_file FD_PIPE 1 r w 4096 0 0 0 0.
Definition ex_state : sys :=
  mk_sys (mk_io (mk_fs (mk_flat (fun _ _ => 0) (fun _ _ => 0) [] ∅ (-1)) (mk_sb 0 0 0 0 0 0 0 0) [] (∅ : gmap Z Z) (fun _ => 0) 0 0)
      (ex_end 1 0 :: ex_end 0 1 :: replicate 98 (mk_file FD_NONE 0 0 0 0 0 0 0 0))
      {[ 4096 := Pipe.new_pipe (replicate 512 0) ]} (Console.mk_cons [] 0 0 0 (Console.mk_uart [] 0 0 [] []))
      (Net.mk_net [] ∅ ∅ 0 (Net.mk_e1000 0 [] [] 0 [] [])) false)
    (Some 0%nat :: Some 1%nat :: replicate 14 None) (replicate 16 (mk_vma 0 0 0 0 0 0 0 0)) 4096 [0; 1; 0; 0; 0; 0] 0.

Lemma ex_counted : counted (fun _ => 0) (view ex_state).
Proof.
  set (v := view ex_state). split; [| |done|done]; intros f.
  - intros r Hr. assert (A : forallb (fun f => from_option (fun r => r =? count (is_fd f) v.1.2 + count (is_vma f) v.2 + 0) true (v.1.1 !! f)) (seq 0 100) = true) by (vm_compute; reflexivity).
    rewrite List.forallb_forall in A. pose proof (lookup_lt_Some _ _ _ Hr) as Hl. specialize (A f). rewrite Hr in A. apply Z.eqb_eq, A, in_seq. cbn in Hl. lia.
  - change (length v.1.1) with 100%nat. destruct f as [|[|f]]; [lia|lia|]. assert (Hz : count (is_fd (S (S f))) v.1.2 = 0 /\ count (is_vma (S (S f))) v.2 = 0) by done. lia.
Qed.

Lemma fd_refcounts_exact_witness : exists s', rtc (step ex_locals) ex_state s' /\ counted (fun _ => 0) (view s') /\ ofile s' !! 2%nat = Some (Some 0%nat).
Proof.
  assert (E : exists s', syscall ex_locals (fun _ => None) [] 10 (set_regs [0; 0; 0; 0; 0; 0] 0 ex_state) = Ret tt s' /\ ofile s' !! 2%nat = Some (Some 0%nat))
    by (eexists; split; [vm_compute; reflexivity|reflexivity]).
  destruct E as (s' & E & Ho). exists s'. assert (Hst : rtc (step ex_locals) ex_state s') by (apply rtc_once; apply (step_call _ _ _ [0; 0; 0; 0; 0; 0] 0 10 [] sys_dup); [reflexivity|done|exact E]).
  split; [done|]. split; [|done]. apply (fd_refcounts_exact ex_locals (fun _ => 0) ex_state s'); [done|done|exact ex_counted|done].
Defined.

Lemma dup_new_dangles_witness : exists s', sys_dup_new ex_state = Ret 2 s' /\ ofile s' !! 1%nat = Some (Some 1%nat) /\ f_ref <$> io_ftable (sio s') !! 1%nat = Some 0.
Proof.
  assert (Ec : exists t, fileclose 1 (sio ex_state) = Ret tt t) by (eexists; vm_compute; reflexivity). destruct Ec as [t Ec].
  destruct (dup_new_dangles ex_state 0 0 1 1 2 t) as (s' & R & H1 & _ & H2); [done|done|unfold NOFILE; lia|unfold NOFILE; lia|done|done|done|by exists (ex_end 1 0)|done|done|exact Ec|].
  by exists s'.
Defined.

End Fdref.
