(* ===== verification/Umalloc.v ===== *)
(** The allocator of user programs, [src/user/program/umalloc.c].

    Memory is the bytes of the process; a [Header] at address [p] is a pointer at
    [p] and a size, in units of 16 bytes, at [p + 8]. [sbrk] is [sys_sbrk] of
    [src/kernel/sysproc.c]: pages come when they are touched, so that only the
    size of the process matters here. *)

From S2P Require Import Prelude Mem Kalloc.

Module Umalloc.

Record heap := mk_heap { hm : mem; freep : Z; brk : Z }.
Definition set_hm (m : mem) (s : heap) : heap := mk_heap m (freep s) (brk s).
Definition set_freep (p : Z) (s : heap) : heap := mk_heap (hm s) p (brk s).
Definition set_brk (b : Z) (s : heap) : heap := mk_heap (hm s) (freep s) b.

(** [p->s.ptr] and [p->s.size] *)
Definition ptr (p : Z) : M heap Z := gets (fun s => load64 (hm s) p).
Definition size (p : Z) : M heap Z := gets (fun s => load32 (hm s) (p + 8)).
Definition set_ptr (p v : Z) : M heap unit := modify (fun s => set_hm (store64 (hm s) p v) s).
Definition set_size (p v : Z) : M heap unit := modify (fun s => set_hm (store32 (hm s) (p + 8) v) s).
(** [p + n] for [Header *p] *)
Definition plus (p n : Z) : Z := u64 (p + 16 * n).

(** [uvmdealloc]: whole pages go, and are zero when they come back. *)
Definition uvmdealloc (oldsz newsz : Z) : M heap Z :=
  if oldsz <=? newsz then ret oldsz
  else
    modify (fun s => set_hm (fun x => if (Kalloc.PGROUNDUP newsz <=? x) && (x <? Kalloc.PGROUNDUP oldsz) then 0 else hm s x) s) ;;;
    ret newsz.

(** [sys_sbrk]: the argument is an [int], and so is the address it returns. *)
Definition sbrk (n : Z) : M heap Z :=
  let n := s32 n in
  let* sz := gets brk in
  let addr := s32 sz in
  if 0 <? n then
    modify (set_brk (u64 (sz + n))) ;;;
    ret (u64 addr)
  else if 0 <? u64 (sz + n) then
    let* sz := uvmdealloc sz (u64 (sz + n)) in
    modify (set_brk sz) ;;;
    ret (u64 addr)
  else ret (u64 (-1)).

Section umalloc.
Context (base : Z).

(** Blocks of 16 bytes and more fit below [brk] at most this often. *)
Definition rounds (s : heap) : nat := Z.to_nat (brk s / 16) + 2.

Fixpoint free_find (fuel : nat) (bp p : Z) : M heap Z :=
  match fuel with
  | O => nofuel
  | S fuel =>
      let* q := ptr p in
      if (p <? bp) && (bp <? q) then ret p
      else if (q <=? p) && ((p <? bp) || (bp <? q)) then ret p
      else free_find fuel bp q
  end.

Definition free (ap : Z) : M heap unit :=
  let bp := plus ap (-1) in
  let* f := gets freep in
  let* fuel := gets rounds in
  let* p := free_find fuel bp f in
  let* sz := size bp in
  let* q := ptr p in
  (if plus bp sz =? q then
     let* qs := size q in
     set_size bp (u32 (sz + qs)) ;;;
     let* qq := ptr q in
     set_ptr bp qq
   else set_ptr bp q) ;;;
  let* ps := size p in
  (if plus p ps =? bp then
     let* bs := size bp in
     set_size p (u32 (ps + bs)) ;;;
     let* bq := ptr bp in
     set_ptr p bq
   else set_ptr p bp) ;;;
  modify (set_freep p).

(** The null pointer is 0. *)
Definition morecore (nu : Z) : M heap Z :=
  let nu := if nu <? 4096 then 4096 else nu in
  let* p := sbrk (nu * 16) in
  if p =? u64 (-1) then ret 0
  else
    set_size p nu ;;;
    free (plus p 1) ;;;
    gets freep.

Fixpoint malloc_loop (fuel : nat) (nunits prevp p : Z) : M heap Z :=
  match fuel with
  | O => nofuel
  | S fuel =>
      let* sz := size p in
      if nunits <=? sz then
        let* r :=
          (if sz =? nunits then
             let* q := ptr p in
             set_ptr prevp q ;;;
             ret p
           else
             set_size p (sz - nunits) ;;;
             let p := plus p (sz - nunits) in
             set_size p nunits ;;;
             ret p) in
        modify (set_freep prevp) ;;;
        ret (plus r 1)
      else
        let* f := gets freep in
        if p =? f then
          let* p := morecore nunits in
          if p =? 0 then ret 0
          else
            let* q := ptr p in
            malloc_loop fuel nunits p q
        else
          let* q := ptr p in
          malloc_loop fuel nunits p q
  end.

Definition malloc (nbytes : Z) : M heap Z :=
  let nunits := u32 ((nbytes + 15) / 16 + 1) in
  let* f := gets freep in
  let* prevp :=
    (if f =? 0 then
       modify (set_freep base) ;;;
       set_ptr base base ;;;
       set_size base 0 ;;;
       ret base
     else ret f) in
  let* fuel := gets (fun s => 2 * rounds s + 2)%nat in
  let* p := ptr prevp in
  malloc_loop fuel nunits prevp p.

End umalloc.

End Umalloc.
