(* ===== verification/Umallocspec.v ===== *)
(** What the allocator of user programs promises: [malloc] gives out memory that
    nothing else has, [free] takes it back, and neither touches a byte of the
    memory that is given out. *)

From stdpp Require Import sorting.
From S2P Require Import Prelude Mem Umalloc.
Import Umalloc.

Module Umallocspec.

(** ** Blocks *)

(** A block: the address of its header, and its size in units of 16 bytes. *)
Abbreviation block := (Z * Z)%type.
Definition stop (b : block) : Z := fst b + 16 * snd b.
Definition inside (b : block) (x : Z) : Prop := fst b <= x < stop b.
Definition infree (fl : list block) (x : Z) : Prop := exists b, b ∈ fl /\ inside b x.
(** [b] ends before [c] begins. *)
Definition before (b c : block) : Prop := stop b < fst c.
Definition fits (lo hi : Z) (b : block) : Prop := lo <= fst b /\ 1 <= snd b /\ stop b <= hi.

Lemma infree_app l1 l2 x : infree (l1 ++ l2) x <-> infree l1 x \/ infree l2 x.
Proof. unfold infree. setoid_rewrite elem_of_app. naive_solver. Qed.
Lemma infree_cons b l x : infree (b :: l) x <-> inside b x \/ infree l x.
Proof. unfold infree. setoid_rewrite elem_of_cons. naive_solver. Qed.
Lemma infree_nil x : ~ infree [] x.
Proof. intros (b & []%not_elem_of_nil & _). Qed.

(** ** Headers in memory *)

Definition hd_addr (l : list block) (z : Z) : Z := match l with b :: _ => fst b | [] => z end.
(** The headers of [l] are linked, the last to [z]. *)
Fixpoint links (m : mem) (l : list block) (z : Z) : Prop :=
  match l with
  | [] => True
  | b :: l => load64 m (fst b) = hd_addr l z /\ load32 m (fst b + 8) = snd b /\ links m l z
  end.

Lemma hlinks_app m l1 : forall l2 z, links m (l1 ++ l2) z <-> links m l1 (hd_addr l2 z) /\ links m l2 z.
Proof.
  induction l1 as [|b l1 IH]; intros l2 z; cbn [app links]; [naive_solver|]. rewrite IH.
  assert (E : hd_addr (l1 ++ l2) z = hd_addr l1 (hd_addr l2 z)) by (by destruct l1). rewrite E. naive_solver.
Qed.

Lemma load64_same m m' a : (forall x, a <= x < a + 12 -> m' x = m x) -> load64 m' a = load64 m a.
Proof. intros H. apply load_ext. intros x Hx. apply H. lia. Qed.
Lemma load32_same m m' a : (forall x, a <= x < a + 12 -> m' x = m x) -> load32 m' (a + 8) = load32 m (a + 8).
Proof. intros H. apply load_ext. intros x Hx. apply H. lia. Qed.

Lemma links_same m m' l : forall z, (forall b x, b ∈ l -> fst b <= x < fst b + 12 -> m' x = m x) -> links m l z -> links m' l z.
Proof.
  induction l as [|b l IH]; intros z H; cbn [links]; [done|]. intros (H1 & H2 & H3).
  assert (Hb : forall x, fst b <= x < fst b + 12 -> m' x = m x) by (intros x; apply H; by left).
  rewrite (load64_same m m'), (load32_same m m') by done. split_and!; [done|done|]. apply IH; [|done]. intros c x Hc. apply H. by right.
Qed.

(** The header at [p] has got the pointer [v], or the size [v]. *)
Lemma ptr_store m p v : 0 <= v < 2 ^ 64 -> load64 (store64 m p v) p = v /\ load32 (store64 m p v) (p + 8) = load32 m (p + 8) /\
  forall x, ~ (p <= x < p + 12) -> store64 m p v x = m x.
Proof.
  intros Hv. split_and!; [by apply load64_store64_eq|apply load_store_ne; lia|]. intros x Hx. apply store_out. lia.
Qed.
Lemma size_store m p v : 0 <= v < 2 ^ 32 -> load64 (store32 m (p + 8) v) p = load64 m p /\ load32 (store32 m (p + 8) v) (p + 8) = v /\
  forall x, ~ (p <= x < p + 12) -> store32 m (p + 8) v x = m x.
Proof.
  intros Hv. split_and!; [apply load_store_ne; lia| |intros x Hx; apply store_out; lia].
  unfold load32, store32. rewrite load_store_eq. by apply Z.mod_small.
Qed.

Section spec.
Context (base lo : Z).
Hypothesis Hbase : 0 < base.
Hypothesis Hlo : base + 16 <= lo.

(** ** The state *)

Definition ring (fl : list block) : list block := (base, 0) :: fl.
(** The free list [fl], in the order of addresses. *)
Record freelist (fl : list block) (s : heap) : Prop := {
  fl_brk : lo <= brk s < 2 ^ 31;
  fl_fits : Forall (fits lo (brk s)) fl;
  fl_sort : StronglySorted before fl;
  fl_links : links (hm s) (ring fl) base;
  fl_freep : exists b, b ∈ ring fl /\ fst b = freep s }.

(** The blocks [A] are given out. *)
Record given (A fl : list block) (s : heap) : Prop := {
  gv_fits : Forall (fits lo (brk s)) A;
  gv_size : forall b, b ∈ A -> load32 (hm s) (fst b + 8) = snd b;
  gv_free : forall b x, b ∈ A -> inside b x -> ~ infree fl x;
  gv_apart : forall i j b c x, A !! i = Some b -> A !! j = Some c -> inside b x -> inside c x -> i = j }.

(** Headers of free blocks. *)
Lemma ring_low fl s b : freelist fl s -> b ∈ ring fl -> 0 < fst b < 2 ^ 31 /\ 0 <= snd b < 2 ^ 31 /\ stop b < 2 ^ 31 /\ base <= fst b /\ fst b <= stop b /\ (b = (base, 0) \/ b ∈ fl).
Proof using All.
  intros [[H1 H2] HF _ _ _] [->|Hb]%elem_of_cons; [cbn; unfold stop; cbn; split_and!; [lia..|by left]|].
  destruct (proj1 (Forall_forall _ _) HF b Hb) as (F1 & F2 & F3). unfold stop in *. split_and!; [lia..|by right].
Qed.

(** Going on in the ring. *)
Lemma sorted_next fl s c1 pb nb c2 : freelist fl s -> ring fl = c1 ++ pb :: nb :: c2 -> fst pb < fst nb.
Proof using All.
  intros Hf E. destruct c1 as [|b c1]; cbn in E; injection E as <- E.
  - destruct (proj1 (Forall_forall _ _) (fl_fits _ _ Hf) nb) as (F1 & _); [rewrite E; by left|]. cbn. lia.
  - pose proof (fl_sort _ _ Hf) as Hs. rewrite E, StronglySorted_app in Hs. destruct Hs as (_ & _ & Hs). apply StronglySorted_cons in Hs as [Hs _].
    apply Forall_cons in Hs as [Hs _]. assert (Hp : pb ∈ fl) by (rewrite E; set_solver). destruct (proj1 (Forall_forall _ _) (fl_fits _ _ Hf) pb Hp) as (_ & F2 & _).
    unfold before, stop in Hs. lia.
Qed.

Lemma fring_next fl s c1 pb c2 : freelist fl s -> ring fl = c1 ++ pb :: c2 -> load64 (hm s) (fst pb) = hd_addr c2 base /\ load32 (hm s) (fst pb + 8) = snd pb.
Proof using. intros Hf E. pose proof (fl_links _ _ Hf) as Hl. rewrite E, hlinks_app in Hl. destruct Hl as (_ & H1 & H2 & _). done. Qed.

(** ** The place of a block *)

(** All of [l1] lie below [bp], all of [l2] above. *)
Definition around (bp : Z) (l1 l2 : list block) : Prop := Forall (fun b => fst b < bp) l1 /\ Forall (fun b => bp < fst b) l2.

Lemma find_forward fl s bp tb t2 : freelist fl s -> base < bp -> forall mid c1 fuel, ring fl = c1 ++ mid ++ tb :: t2 -> around bp (mid ++ [tb]) t2 -> (length mid < fuel)%nat ->
  free_find fuel bp (hd_addr mid (fst tb)) s = Ret (fst tb) s.
Proof using All.
  intros Hf Hbp. induction mid as [|pb mid IH]; intros c1 [|fuel] E [Ha Hb] Hl; cbn [length] in Hl; try lia; cbn [free_find hd_addr].
  - destruct (fring_next fl s c1 tb t2 Hf E) as [Eq _]. unfold bind at 1, ptr, gets. rewrite Eq. apply Forall_app in Ha as [_ Ha]. apply Forall_cons in Ha as [Ha _].
    destruct t2 as [|nb t2]; cbn [hd_addr].
    + rewrite (proj2 (Z.ltb_ge bp base)), andb_false_r by lia. rewrite (proj2 (Z.ltb_lt _ _)) by lia.
      destruct (ring_low fl s tb Hf) as (_ & _ & _ & L & _ & _); [rewrite E; set_solver|]. rewrite (proj2 (Z.leb_le _ _)) by lia. done.
    + apply Forall_cons in Hb as [Hb _]. rewrite !(proj2 (Z.ltb_lt _ _)) by lia. done.
  - destruct (fring_next fl s c1 pb (mid ++ tb :: t2) Hf E) as [Eq _]. unfold bind at 1, ptr, gets. rewrite Eq.
    assert (Ehd : hd_addr (mid ++ tb :: t2) base = hd_addr mid (fst tb)) by (by destruct mid). rewrite Ehd.
    assert (Hq : hd_addr mid (fst tb) < bp).
    { apply Forall_app in Ha as [Ha1 Ha2]. apply Forall_cons in Ha1 as [_ Ha1]. destruct mid as [|nb mid]; cbn; [by apply Forall_cons in Ha2 as [? _]|by apply Forall_cons in Ha1 as [? _]]. }
    assert (Hpq : fst pb < hd_addr mid (fst tb)).
    { destruct mid as [|nb mid]; cbn; [apply (sorted_next fl s c1 pb tb t2 Hf E)|apply (sorted_next fl s c1 pb nb (mid ++ tb :: t2) Hf E)]. }
    rewrite (proj2 (Z.ltb_ge bp _)), andb_false_r by lia. rewrite (proj2 (Z.leb_gt _ _)) by lia. cbn [andb].
    apply (IH (c1 ++ [pb])); [by rewrite <- app_assoc| |lia]. split; [by apply Forall_cons in Ha as [_ Ha]|done].
Qed.

Lemma find_wrap fl s bp tb t1 t2 : freelist fl s -> base < bp -> ring fl = t1 ++ tb :: t2 -> around bp (t1 ++ [tb]) t2 -> forall c2 c1 pb fuel, ring fl = c1 ++ pb :: c2 ->
  bp < fst pb -> (length c2 + 1 + length t1 < fuel)%nat -> free_find fuel bp (fst pb) s = Ret (fst tb) s.
Proof using All.
  intros Hf Hbp Et Ha. induction c2 as [|nb c2 IH]; intros c1 pb [|fuel] E Hp Hl; cbn [length] in Hl; try lia; cbn [free_find];
    destruct (fring_next fl s c1 pb _ Hf E) as [Eq _]; unfold bind at 1, ptr, gets; rewrite Eq; cbn [hd_addr]; rewrite (proj2 (Z.ltb_ge (fst pb) bp)) by lia; cbn [andb orb].
  - rewrite (proj2 (Z.ltb_ge bp base)), andb_false_r by lia. pose proof (find_forward fl s bp tb t2 Hf Hbp t1 [] fuel Et Ha ltac:(lia)) as R.
    replace (hd_addr t1 (fst tb)) with base in R; [done|]. destruct t1 as [|b t1]; cbn in Et; by injection Et as <-.
  - rewrite (proj2 (Z.leb_gt _ _)) by (by apply (sorted_next fl s c1 pb nb c2 Hf E)). cbn [andb].
    apply (IH (c1 ++ [pb])); [by rewrite <- app_assoc| |lia]. pose proof (sorted_next fl s c1 pb nb c2 Hf E). lia.
Qed.

Lemma place bp fl : StronglySorted before fl -> Forall (fun b => 1 <= snd b) fl -> Forall (fun b => fst b <> bp) fl -> exists l1 l2, fl = l1 ++ l2 /\ around bp l1 l2.
Proof using.
  clear Hbase Hlo. induction fl as [|b fl IH]; intros Hs Hp Hn; [by exists [], []|]. apply StronglySorted_cons in Hs as [Hb Hs].
  apply Forall_cons in Hn as [Hn1 Hn]. apply Forall_cons in Hp as [Hp1 Hp]. destruct (decide (fst b < bp)) as [Hlt|Hge].
  - destruct (IH Hs Hp Hn) as (l1 & l2 & -> & H1 & H2). exists (b :: l1), l2. split; [done|]. split; [by constructor|done].
  - exists [], (b :: fl). split; [done|]. split; [done|]. constructor; [lia|]. apply Forall_forall. intros c Hc. pose proof (proj1 (Forall_forall _ _) Hb c Hc) as H.
    unfold before, stop in H. lia.
Qed.

Lemma blocks_length hi fl : forall l, StronglySorted before fl -> Forall (fits l hi) fl -> l <= hi -> 16 * Z.of_nat (length fl) <= hi - l.
Proof using.
  clear Hbase Hlo. induction fl as [|b fl IH]; intros l Hs Hf Hl; cbn [length]; [lia|]. apply StronglySorted_cons in Hs as [Hb Hs].
  apply Forall_cons in Hf as [(F1 & F2 & F3) Hf]. assert (Hf' : Forall (fits (stop b) hi) fl).
  { apply Forall_forall. intros c Hc. destruct (proj1 (Forall_forall _ _) Hf c Hc) as (G1 & G2 & G3). pose proof (proj1 (Forall_forall _ _) Hb c Hc) as H.
    unfold before in H. split_and!; lia. }
  specialize (IH (stop b) Hs Hf' F3). unfold stop in *. lia.
Qed.

Lemma ring_length fl s : freelist fl s -> (length (ring fl) < rounds s)%nat.
Proof using All.
  intros Hf. pose proof (fl_brk _ _ Hf). pose proof (blocks_length (brk s) fl lo (fl_sort _ _ Hf) (fl_fits _ _ Hf) ltac:(lia)) as H1.
  unfold rounds, ring. cbn [length]. assert (Z.of_nat (length fl) <= brk s / 16) by (apply Z.div_le_lower_bound; lia). lia.
Qed.

(** The search ends at the block below [bp]. *)
Lemma find_run fl s bp l1 l2 t1 tb : freelist fl s -> base < bp -> fl = l1 ++ l2 -> around bp l1 l2 -> ring l1 = t1 ++ [tb] ->
  free_find (rounds s) bp (freep s) s = Ret (fst tb) s.
Proof using All.
  intros Hf Hbp E [Ha1 Ha2] Et. assert (Er : ring fl = t1 ++ tb :: l2) by (rewrite E; unfold ring in *; rewrite app_comm_cons, Et, <- app_assoc; done).
  assert (Ha : around bp (t1 ++ [tb]) l2) by (rewrite <- Et; split; [constructor; [cbn; lia|done]|done]).
  pose proof (ring_length fl s Hf) as Hlen. rewrite Er, length_app in Hlen. cbn [length] in Hlen.
  destruct (fl_freep _ _ Hf) as (fb & Hfb & <-). rewrite Er in Hfb. apply elem_of_app in Hfb as [Hfb|[->|Hfb]%elem_of_cons].
  - apply list_elem_of_split in Hfb as (u & v & ->). rewrite <- app_assoc in Er. cbn in Er.
    apply (find_forward fl s bp tb l2 Hf Hbp (fb :: v) u); [exact Er| |rewrite length_app in Hlen; cbn in *; lia].
    split; [|done]. destruct Ha as [Ha _]. rewrite <- app_assoc in Ha. by apply Forall_app in Ha as [_ Ha].
  - apply (find_forward fl s bp tb l2 Hf Hbp [] t1); [done| |cbn [length]; lia]. split; [|done]. destruct Ha as [Ha _]. by apply Forall_app in Ha as [_ Ha].
  - pose proof (proj1 (Forall_forall _ _) Ha2 fb Hfb) as Hgt. apply list_elem_of_split in Hfb as (u & v & Ev).
    apply (find_wrap fl s bp tb t1 l2 Hf Hbp Er Ha v (t1 ++ tb :: u) fb); [by rewrite Er, Ev, <- app_assoc|done|].
    rewrite Ev in Hlen. rewrite length_app in Hlen. cbn [length] in Hlen. lia.
Qed.

(** ** The two joins of [free] *)

Definition upper (m : mem) (bp p : Z) : mem :=
  let sz := load32 m (bp + 8) in
  let q := load64 m p in
  if plus bp sz =? q then
    let m1 := store32 m (bp + 8) (u32 (sz + load32 m (q + 8))) in store64 m1 bp (load64 m1 q)
  else store64 m bp q.
Definition lower (m : mem) (bp p : Z) : mem :=
  let ps := load32 m (p + 8) in
  if plus p ps =? bp then
    let m1 := store32 m (p + 8) (u32 (ps + load32 m (bp + 8))) in store64 m1 p (load64 m1 bp)
  else store64 m p bp.

Lemma free_eq s ap p : free_find (rounds s) (plus ap (-1)) (freep s) s = Ret p s ->
  free ap s = Ret tt (mk_heap (lower (upper (hm s) (plus ap (-1)) p) (plus ap (-1)) p) p (brk s)).
Proof using.
  clear Hbase Hlo. intros R. unfold free, bind, gets at 1 2. rewrite R. unfold size, ptr, set_size, set_ptr, gets, modify, upper, lower. cbn [hm].
  destruct (_ =? _); cbn [hm set_hm set_freep freep brk]; destruct (_ =? _); done.
Qed.

(** A block [bb] of the heap that is not free, and its place in the free list. *)
Record placed (fl : list block) (s : heap) (bb : block) (l1 l2 : list block) (tb : block) (t1 : list block) : Prop := {
  pl_list : freelist fl s;
  pl_fits : fits lo (brk s) bb;
  pl_size : load32 (hm s) (fst bb + 8) = snd bb;
  pl_free : forall x, inside bb x -> ~ infree fl x;
  pl_split : fl = l1 ++ l2;
  pl_around : around (fst bb) l1 l2;
  pl_last : ring l1 = t1 ++ [tb] }.

Lemma placed_exists fl s bb : freelist fl s -> fits lo (brk s) bb -> load32 (hm s) (fst bb + 8) = snd bb -> (forall x, inside bb x -> ~ infree fl x) ->
  exists l1 l2 tb t1, placed fl s bb l1 l2 tb t1.
Proof using All.
  intros Hf Hb Hsz Hfr. destruct (place (fst bb) fl) as (l1 & l2 & E & Ha).
  - apply Hf.
  - apply Forall_forall. intros c Hc. by destruct (proj1 (Forall_forall _ _) (fl_fits _ _ Hf) c Hc) as (_ & ? & _).
  - apply Forall_forall. intros c Hc Ec. destruct (proj1 (Forall_forall _ _) (fl_fits _ _ Hf) c Hc) as (_ & ? & _). destruct Hb as (_ & ? & _).
    apply (Hfr (fst bb)); [unfold inside, stop; lia|]. exists c. split; [done|]. unfold inside, stop. lia.
  - destruct (exists_last (l := ring l1)) as (t1 & tb & Et); [done|]. exists l1, l2, tb, t1. by split.
Qed.

Section placed.
Context (fl : list block) (s : heap) (bb : block) (l1 l2 : list block) (tb : block) (t1 : list block).
Hypothesis HP : placed fl s bb l1 l2 tb t1.

Lemma pl_below b : b ∈ l1 -> fits lo (brk s) b /\ stop b <= fst bb.
Proof using All.
  intros Hb. destruct HP as [Hf Hbb _ Hfr E [Ha _] _]. assert (Hin : b ∈ fl) by (rewrite E; set_solver). pose proof (proj1 (Forall_forall _ _) (fl_fits _ _ Hf) b Hin) as Hfit.
  split; [done|]. pose proof (proj1 (Forall_forall _ _) Ha b Hb) as Hlt. cbv beta in Hlt. destruct (decide (stop b <= fst bb)) as [|Hn]; [done|exfalso]. destruct Hbb as (_ & ? & _).
  apply (Hfr (fst bb)); [unfold inside, stop; lia|]. exists b. split; [done|]. unfold inside. lia.
Qed.
Lemma pl_above c : c ∈ l2 -> fits lo (brk s) c /\ stop bb <= fst c.
Proof using All.
  intros Hc. destruct HP as [Hf Hbb _ Hfr E [_ Ha] _]. assert (Hin : c ∈ fl) by (rewrite E; set_solver). pose proof (proj1 (Forall_forall _ _) (fl_fits _ _ Hf) c Hin) as Hfit.
  split; [done|]. pose proof (proj1 (Forall_forall _ _) Ha c Hc) as Hlt. cbv beta in Hlt. destruct (decide (stop bb <= fst c)) as [|Hn]; [done|exfalso]. destruct Hfit as (_ & ? & _).
  apply (Hfr (fst c)); [unfold inside; lia|]. exists c. split; [done|]. unfold inside, stop. lia.
Qed.

Lemma pl_tb : fst tb + 16 <= fst bb /\ stop tb <= fst bb /\ (tb = (base, 0) /\ t1 = [] /\ l1 = [] \/ exists u, t1 = ring u /\ l1 = u ++ [tb]).
Proof using All.
  pose proof HP as [Hf Hbb _ _ _ _ Et]. assert (Hc : t1 = [] \/ exists b u, t1 = b :: u) by (destruct t1; naive_solver).
  destruct Hc as [Ht|(b & u & Ht)]; rewrite Ht in Et |- *; cbn in Et; injection Et as E1 E2.
  - destruct Hbb as (? & _). rewrite <- E1. cbn. unfold stop. cbn. split_and!; [lia..|by left].
  - subst b. destruct (pl_below tb) as [(_ & ? & _) H]; [rewrite E2; set_solver|]. unfold stop in *. split_and!; [lia..|]. right. by exists u.
Qed.

Lemma pl_ring : ring fl = t1 ++ tb :: l2.
Proof using All. pose proof HP as [_ _ _ _ E _ Et]. rewrite E. unfold ring in *. rewrite app_comm_cons, Et, <- app_assoc. done. Qed.

(** Addresses of headers fit. *)
Lemma pl_addr rest : rest ⊆ l2 -> 0 <= hd_addr rest base < 2 ^ 64.
Proof using All.
  intros Hr. pose proof (fl_brk _ _ (pl_list _ _ _ _ _ _ _ HP)). destruct rest as [|c r]; cbn; [lia|].
  destruct (pl_above c) as [(? & ? & ?) _]; [apply Hr; by left|]. unfold stop in *. lia.
Qed.

Lemma plus_stop b : 0 <= fst b -> stop b < 2 ^ 64 -> 0 <= snd b -> plus (fst b) (snd b) = stop b.
Proof using. clear. intros. unfold plus, stop in *. apply u64_small. lia. Qed.

Lemma upper_run : exists nsz rest, let m1 := upper (hm s) (fst bb) (fst tb) in
  load64 m1 (fst bb) = hd_addr rest base /\ load32 m1 (fst bb + 8) = nsz /\ (forall x, ~ (fst bb <= x < fst bb + 12) -> m1 x = hm s x) /\
  (rest = l2 /\ nsz = snd bb /\ hd_addr l2 base <> stop bb \/ exists qb, l2 = qb :: rest /\ fst qb = stop bb /\ nsz = snd bb + snd qb).
Proof using All.
  pose proof HP as [Hf Hbb Hsz _ E _ _]. pose proof (fl_brk _ _ Hf) as Hbrk. destruct (fring_next fl s t1 tb l2 Hf pl_ring) as [Eq _]. destruct Hbb as (B1 & B2 & B3).
  unfold upper. rewrite Eq, Hsz, plus_stop by (unfold stop in *; lia).
  assert (Hhd : 0 <= hd_addr l2 base < 2 ^ 64).
  { apply pl_addr. done. }
  destruct (Z.eqb_spec (stop bb) (hd_addr l2 base)) as [Ej|Ej].
  - assert (Hc : l2 = [] \/ exists qb rest, l2 = qb :: rest) by (destruct l2; naive_solver).
    destruct Hc as [El|(qb & rest & El)]; rewrite El in Ej |- *; cbn [hd_addr] in Ej; [unfold stop in *; lia|]. destruct (pl_above qb) as [(Q1 & Q2 & Q3) _]; [rewrite El; by left|].
    pose proof (fl_links _ _ Hf) as Hl. rewrite pl_ring, hlinks_app in Hl. rewrite El in Hl. destruct Hl as (_ & _ & _ & Hq1 & Hq2 & _).
    set (v := u32 _). assert (Hv : v = snd bb + snd qb) by (unfold v; cbn [hd_addr]; rewrite Hq2; apply u32_small; unfold stop in *; lia).
    destruct (size_store (hm s) (fst bb) v) as (W1 & W2 & W3); [unfold stop in *; lia|]. cbn [hd_addr]. set (m1 := store32 _ _ v) in *.
    assert (Hq : load64 m1 (fst qb) = hd_addr rest base) by (rewrite <- Hq1; apply load64_same; intros x Hx; apply W3; unfold stop in *; lia).
    rewrite Hq. assert (Hr : 0 <= hd_addr rest base < 2 ^ 64).
    { apply pl_addr. rewrite El. set_solver. }
    destruct (ptr_store m1 (fst bb) (hd_addr rest base) Hr) as (U1 & U2 & U3). exists v, rest. split_and!; [done|by rewrite U2|intros x Hx; by rewrite U3, W3|].
    right. by exists qb.
  - destruct (ptr_store (hm s) (fst bb) (hd_addr l2 base) Hhd) as (U1 & U2 & U3). exists (snd bb), l2. split_and!; [done|by rewrite U2|done|]. left. by split_and!.
Qed.

(** What the first join makes of the block and the blocks above it. *)
Record joined (nb : block) (rest : list block) : Prop := {
  jn_addr : fst nb = fst bb;
  jn_fits : fits lo (brk s) nb;
  jn_big : stop bb <= stop nb;
  jn_before : Forall (before nb) rest;
  jn_sort : StronglySorted before rest;
  jn_suffix : rest `suffix_of` l2;
  jn_free : forall x, inside nb x \/ infree rest x <-> inside bb x \/ infree l2 x }.

Lemma upper_joined : exists nb rest, let m1 := upper (hm s) (fst bb) (fst tb) in
  load64 m1 (fst bb) = hd_addr rest base /\ load32 m1 (fst bb + 8) = snd nb /\ (forall x, ~ (fst bb <= x < fst bb + 12) -> m1 x = hm s x) /\ joined nb rest.
Proof using All.
  destruct upper_run as (nsz & rest & U1 & U2 & U3 & U4). exists (fst bb, nsz), rest. split_and!; [done|done|done|]. pose proof HP as [Hf Hbb _ _ E _ _]. pose proof (fl_sort _ _ Hf) as Hs.
  rewrite E, StronglySorted_app in Hs. destruct Hs as (_ & _ & Hs). destruct Hbb as (B1 & B2 & B3). destruct U4 as [(-> & -> & Hne)|(qb & El & Eq & ->)].
  - assert (Est : stop (fst bb, snd bb) = stop bb) by done. split; [done|by split_and!|by rewrite Est| |done|done|intros x; unfold inside; by rewrite Est].
    rewrite Forall_forall. intros c Hc. destruct (pl_above c Hc) as [_ Hge]. unfold before. rewrite Est.
    assert (Hc2 : l2 = [] \/ exists qb r, l2 = qb :: r) by (destruct l2; naive_solver). destruct Hc2 as [El|(qb & r & El)]; [rewrite El in Hc; by apply not_elem_of_nil in Hc|].
    rewrite El in Hc, Hne, Hs. cbn in Hne. apply elem_of_cons in Hc as [->|Hc]; [lia|]. apply StronglySorted_cons in Hs as [Hs _].
    pose proof (proj1 (Forall_forall _ _) Hs c Hc) as Hb. destruct (pl_above qb) as [(_ & Q2 & _) Q]; [rewrite El; by left|]. unfold before, stop in *. lia.
  - destruct (pl_above qb) as [(Q1 & Q2 & Q3) _]; [rewrite El; by left|]. rewrite El in Hs. apply StronglySorted_cons in Hs as [Hqb Hs].
    assert (Est : stop (fst bb, snd bb + snd qb) = stop qb) by (unfold stop in *; cbn; lia). split; [done| | | |done| |].
    + split_and!; cbn; [done|lia|by rewrite Est].
    + rewrite Est. unfold stop in *. lia.
    + rewrite Forall_forall. intros c Hc. unfold before. rewrite Est. exact (proj1 (Forall_forall _ _) Hqb c Hc).
    + rewrite El. by exists [qb].
    + intros x. rewrite El, infree_cons. unfold inside. rewrite Est. cbn [fst]. unfold stop in *. split; [intros [?|?]; [|tauto]|intros [?|[?|?]]; [left|left|tauto]]; lia.
Qed.

(** The headers below [tb] end before it. *)
Lemma t1_below b : b ∈ t1 -> fst b + 16 <= fst tb.
Proof using All.
  intros Hb. destruct pl_tb as (_ & _ & [(_ & Et & _)|(u & Et & El)]); rewrite Et in Hb; [by apply not_elem_of_nil in Hb|]. destruct (pl_below tb) as [(T1 & _) _]; [rewrite El; set_solver|].
  apply elem_of_cons in Hb as [->|Hb]; [cbn; lia|]. destruct (pl_below b) as [(_ & Hs & _) _]; [rewrite El; set_solver|].
  pose proof (fl_sort _ _ (pl_list _ _ _ _ _ _ _ HP)) as Hso. rewrite (pl_split _ _ _ _ _ _ _ HP), El, <- app_assoc in Hso.
  pose proof (StronglySorted_app_1_elem_of _ _ _ b tb Hso Hb ltac:(set_solver)) as H. unfold before, stop in H. lia.
Qed.

(** The blocks after both joins. *)
Definition final (nb : block) (rest : list block) : list block :=
  if decide (stop tb = fst bb) then t1 ++ (fst tb, snd tb + snd nb) :: rest else t1 ++ tb :: nb :: rest.

Lemma lower_run nb rest m1 : joined nb rest -> load64 m1 (fst bb) = hd_addr rest base -> load32 m1 (fst bb + 8) = snd nb ->
  (forall x, ~ (fst bb <= x < fst bb + 12) -> m1 x = hm s x) ->
  let m2 := lower m1 (fst bb) (fst tb) in links m2 (final nb rest) base /\ forall x, ~ (fst tb <= x < fst tb + 12) -> m2 x = m1 x.
Proof using All.
  intros [J1 (J2 & J3 & J4) J5 _ _ J6 _] M1 M2 M3. pose proof HP as [Hf (B1 & B2 & B3) _ _ E _ _]. pose proof (fl_brk _ _ Hf) as Hbrk.
  destruct pl_tb as (P1 & P2 & _). pose proof (fl_links _ _ Hf) as Hl. rewrite pl_ring, hlinks_app in Hl. cbn [hd_addr links] in Hl. destruct Hl as (L1 & L2 & L3 & L4).
  assert (Htb : 0 <= fst tb /\ 0 <= snd tb) by (destruct (ring_low fl s tb Hf) as (? & ? & _); [rewrite pl_ring; set_solver|lia]).
  assert (S1 : load32 m1 (fst tb + 8) = snd tb) by (rewrite <- L3; apply load32_same; intros x Hx; apply M3; lia).
  unfold lower. rewrite S1, plus_stop by (unfold stop in *; lia).
  assert (Hkeep : forall m2, (forall x, ~ (fst tb <= x < fst tb + 12) -> m2 x = m1 x) -> links m2 t1 (fst tb) /\ links m2 rest base).
  { intros m2 H2. split; [apply (links_same (hm s)); [|done]|apply (links_same (hm s))].
    - intros b x Hb Hx. pose proof (t1_below b Hb). rewrite H2, M3 by lia. done.
    - intros c x Hc Hx. destruct (pl_above c) as [_ Hge]; [destruct J6 as [pre Epre]; rewrite Epre; set_solver|]. unfold stop in *. rewrite H2, M3 by lia. done.
    - destruct J6 as [pre Epre]. rewrite Epre in L4. by apply hlinks_app in L4 as [_ L4]. }
  unfold final. destruct (decide (stop tb = fst bb)) as [Ej|Ej].
  - rewrite (proj2 (Z.eqb_eq _ _)) by done. set (v := u32 _). assert (Hv : v = snd tb + snd nb) by (unfold v; rewrite M2; apply u32_small; unfold stop in *; lia).
    destruct (size_store m1 (fst tb) v) as (W1 & W2 & W3); [unfold stop in *; lia|]. set (m1' := store32 _ _ v) in *.
    assert (Hq : load64 m1' (fst bb) = hd_addr rest base) by (rewrite <- M1; apply load64_same; intros x Hx; apply W3; lia). rewrite Hq.
    destruct (ptr_store m1' (fst tb) (hd_addr rest base)) as (U1 & U2 & U3); [apply pl_addr; destruct J6 as [pre Epre]; rewrite Epre; set_solver|].
    assert (H2 : forall x, ~ (fst tb <= x < fst tb + 12) -> store64 m1' (fst tb) (hd_addr rest base) x = m1 x) by (intros x Hx; by rewrite U3, W3).
    destruct (Hkeep _ H2) as [K1 K2]. split; [|done]. apply hlinks_app. split; [done|]. cbn [links fst snd]. by rewrite U2, W2, U1.
  - rewrite (proj2 (Z.eqb_neq _ _)) by done. destruct (ptr_store m1 (fst tb) (fst bb)) as (U1 & U2 & U3); [unfold stop in *; lia|].
    destruct (Hkeep _ U3) as [K1 K2]. split; [|done]. apply hlinks_app. split; [done|]. cbn [links hd_addr]. rewrite J1, U1, U2, S1. split_and!; try done.
    + rewrite <- M1. apply load64_same. intros x Hx. apply U3. lia.
    + rewrite <- M2. apply load32_same. intros x Hx. apply U3. lia.
Qed.

(** The free list afterwards. *)
Lemma final_list nb rest : joined nb rest -> exists fl', final nb rest = ring fl' /\ Forall (fits lo (brk s)) fl' /\ StronglySorted before fl' /\
  (forall x, infree fl' x <-> infree fl x \/ inside bb x) /\ (exists b, b ∈ fl' /\ fst b <= fst bb /\ stop bb <= stop b) /\ exists b, b ∈ ring fl' /\ fst b = fst tb.
Proof using All.
  intros [J1 J2 J3 J4 J5 [pre J6] J7]. pose proof HP as [Hf _ _ _ E _ _]. pose proof (fl_sort _ _ Hf) as Hs. pose proof (fl_fits _ _ Hf) as HF. pose proof pl_ring as Er.
  rewrite E in Hs, HF. apply StronglySorted_app in Hs as (S12 & S1 & S2). apply Forall_app in HF as [F1 F2]. assert (FR : Forall (fits lo (brk s)) rest) by (rewrite J6 in F2; by apply Forall_app in F2 as [_ ?]).
  assert (Hl1r : forall b c, b ∈ l1 -> c ∈ rest -> before b c) by (intros b c Hb Hc; apply S12; [done|]; rewrite J6; set_solver).
  assert (Hfree : forall x, infree fl x \/ inside bb x <-> infree l1 x \/ inside nb x \/ infree rest x) by (intros x; rewrite E, infree_app, (J7 x); tauto).
  unfold final. destruct pl_tb as (P1 & P2 & Htb). destruct (decide (stop tb = fst bb)) as [Ej|Ej].
  - destruct Htb as [(Et & _)|(u & Et & El)]; [rewrite Et in Ej, P1; unfold stop in Ej; cbn in *; lia|]. set (c := (fst tb, snd tb + snd nb)).
    assert (Ec : stop c = stop nb) by (unfold c, stop in *; cbn; lia). rewrite El in F1, S1. apply Forall_app in F1 as [Fu (T1 & T2 & T3)%Forall_singleton].
    apply StronglySorted_app in S1 as (Sut & Su & _). destruct J2 as (N1 & N2 & N3). exists (u ++ c :: rest). rewrite Et. split_and!.
    + done.
    + apply Forall_app. split; [done|]. constructor; [|done]. split_and!; [done|cbn; lia|by rewrite Ec].
    + apply StronglySorted_app. split_and!; [|done|].
      * intros b d Hb Hd. apply elem_of_cons in Hd as [->|Hd]; [apply (Sut b tb Hb); set_solver|apply Hl1r; [rewrite El; set_solver|done]].
      * apply StronglySorted_cons. split; [|done]. unfold before. rewrite Ec. exact J4.
    + intros x. rewrite Hfree, El, !infree_app, !infree_cons. assert (Hn := infree_nil x). unfold inside. rewrite Ec, J1, <- Ej. cbn [fst c]. unfold stop in *.
      assert (Hd : fst tb <= x < fst nb + 16 * snd nb <-> fst tb <= x < fst tb + 16 * snd tb \/ fst tb + 16 * snd tb <= x < fst nb + 16 * snd nb) by lia. tauto.
    + exists c. split; [set_solver|]. rewrite Ec. cbn. split; [lia|done].
    + exists c. split; [set_solver|done].
  - exists (l1 ++ nb :: rest). split_and!.
    + change (t1 ++ tb :: nb :: rest) with (t1 ++ [tb] ++ nb :: rest). rewrite app_assoc, <- (pl_last _ _ _ _ _ _ _ HP). done.
    + apply Forall_app. split; [done|]. by constructor.
    + apply StronglySorted_app. split_and!; [|done|by apply StronglySorted_cons].
      intros b d Hb Hd. apply elem_of_cons in Hd as [->|Hd]; [|by apply Hl1r]. unfold before. rewrite J1. destruct (pl_below b Hb) as [(_ & ? & _) Hle].
      destruct Htb as [(_ & _ & El)|(u & _ & El)]; rewrite El in Hb; [by apply not_elem_of_nil in Hb|]. apply elem_of_app in Hb as [Hb| ->%list_elem_of_singleton]; [|lia].
      rewrite El in S1. apply StronglySorted_app in S1 as (Sut & _ & _). pose proof (Sut b tb Hb ltac:(set_solver)) as Hbt. unfold before in Hbt. lia.
    + intros x. rewrite Hfree, infree_app, infree_cons. tauto.
    + exists nb. split; [set_solver|]. split; [lia|done].
    + exists tb. split; [|done]. change (tb ∈ ring l1 ++ nb :: rest). rewrite (pl_last _ _ _ _ _ _ _ HP). set_solver.
Qed.

Lemma final_length nb rest : joined nb rest -> (length (final nb rest) <= S (length (ring fl)))%nat.
Proof using All.
  intros [_ _ _ _ _ [pre J6] _]. rewrite pl_ring. unfold final. destruct (decide _); rewrite !length_app; cbn [length]; rewrite J6, length_app; lia.
Qed.

End placed.

(** [free] of a block that is not free. *)
Lemma free_run fl s bb : freelist fl s -> fits lo (brk s) bb -> load32 (hm s) (fst bb + 8) = snd bb -> (forall x, inside bb x -> ~ infree fl x) ->
  exists fl' s', free (fst bb + 16) s = Ret tt s' /\ freelist fl' s' /\ brk s' = brk s /\ (forall x, infree fl' x <-> infree fl x \/ inside bb x) /\
    (forall x, ~ infree fl' x -> ~ (base <= x < base + 16) -> hm s' x = hm s x) /\ (length fl' <= S (length fl))%nat /\ exists b, b ∈ fl' /\ fst b <= fst bb /\ stop bb <= stop b.
Proof using All.
  intros Hf Hbb Hsz Hfr. destruct (placed_exists fl s bb Hf Hbb Hsz Hfr) as (l1 & l2 & tb & t1 & HP). pose proof (fl_brk _ _ Hf) as Hbrk. destruct Hbb as (B1 & B2 & B3).
  assert (Ebp : plus (fst bb + 16) (-1) = fst bb) by (unfold plus, stop in *; rewrite u64_small; lia).
  assert (Hfind : free_find (rounds s) (plus (fst bb + 16) (-1)) (freep s) s = Ret (fst tb) s) by (rewrite Ebp; eapply find_run; [done|lia|apply HP|apply HP|apply HP]).
  rewrite (free_eq s _ _ Hfind), Ebp. destruct (upper_joined fl s bb l1 l2 tb t1 HP) as (nb & rest & M1 & M2 & M3 & HJ).
  destruct (lower_run fl s bb l1 l2 tb t1 HP nb rest _ HJ M1 M2 M3) as [HL HM]. destruct (final_list fl s bb l1 l2 tb t1 HP nb rest HJ) as (fl' & Efl & H1 & H2 & H3 & H4 & H5).
  pose proof (final_length fl s bb l1 l2 tb t1 HP nb rest HJ) as Hlen. rewrite Efl in HL, Hlen. cbn [ring length] in Hlen.
  eexists fl', _. split; [reflexivity|]. split_and!; [by split|done|done| |lia|done].
  intros x Hx Hb. cbn [hm]. destruct (pl_tb fl s bb l1 l2 tb t1 HP) as (P1 & P2 & Htb). rewrite HM, M3; [done| |].
  - intros Hin. apply Hx, H3. right. unfold inside, stop. lia.
  - intros Hin. destruct Htb as [(-> & _)|(u & _ & El)]; [cbn in Hin; lia|]. apply Hx, H3. left. exists tb. pose proof (pl_split _ _ _ _ _ _ _ HP) as E.
    split; [rewrite E, El; set_solver|]. destruct (pl_below fl s bb l1 l2 tb t1 HP tb) as [(_ & ? & _) _]; [rewrite El; set_solver|]. unfold inside, stop. lia.
Qed.

(** ** Taking a block *)

Definition last_addr (w : list block) : Z := fst (default (base, 0) (last w)).
Lemma last_addr_snoc w b : last_addr (w ++ [b]) = fst b.
Proof using. clear. unfold last_addr. by rewrite last_snoc. Qed.
Lemma ring_last w : exists t pb, ring w = t ++ [pb] /\ fst pb = last_addr w.
Proof using.
  clear. destruct w as [|b w] using rev_ind; [by exists [], (base, 0)|]. exists (ring w), b. by rewrite last_addr_snoc.
Qed.

Lemma ring_less fl s w b c2 : freelist fl s -> fl = w ++ c2 -> b ∈ ring w -> forall c, c ∈ c2 -> fst b + 16 <= fst c.
Proof using All.
  intros Hf E Hb c Hc. assert (Hc' : c ∈ fl) by (rewrite E; set_solver). destruct (proj1 (Forall_forall _ _) (fl_fits _ _ Hf) c Hc') as (C1 & _).
  apply elem_of_cons in Hb as [->|Hb]; [cbn; lia|]. assert (Hb' : b ∈ fl) by (rewrite E; set_solver). destruct (proj1 (Forall_forall _ _) (fl_fits _ _ Hf) b Hb') as (_ & B2 & _).
  pose proof (fl_sort _ _ Hf) as Hs. rewrite E in Hs. pose proof (StronglySorted_app_1_elem_of _ _ _ b c Hs Hb Hc) as H. unfold before, stop in H. lia.
Qed.

(** What [malloc] has done when it returns the block [nb]. *)
Record taken (fl : list block) (s : heap) (n : Z) (nb : block) (fl' : list block) (s' : heap) : Prop := {
  tk_list : freelist fl' s';
  tk_brk : brk s' = brk s;
  tk_fits : fits lo (brk s) nb;
  tk_units : snd nb = n;
  tk_size : load32 (hm s') (fst nb + 8) = n;
  tk_free : forall x, infree fl x <-> infree fl' x \/ inside nb x;
  tk_out : forall x, inside nb x -> ~ infree fl' x;
  tk_keep : forall x, ~ infree fl x -> ~ (base <= x < base + 16) -> hm s' x = hm s x }.

(** The header of a block of the ring. *)
Lemma ring_header fl s b x : freelist fl s -> b ∈ ring fl -> fst b <= x < fst b + 12 -> infree fl x \/ base <= x < base + 16.
Proof using All.
  intros Hf [->|Hb]%elem_of_cons Hx; [cbn in Hx; right; lia|]. left. exists b. split; [done|].
  destruct (proj1 (Forall_forall _ _) (fl_fits _ _ Hf) b Hb) as (_ & ? & _). unfold inside, stop. lia.
Qed.

Section take.
Context (fl : list block) (s : heap) (n : Z) (w : list block) (a : block) (c2 : list block) (fuel : nat).
Hypothesis Hf : freelist fl s.
Hypothesis E : fl = w ++ a :: c2.

Lemma take_facts : fits lo (brk s) a /\ Forall (fits lo (brk s)) w /\ Forall (fits lo (brk s)) c2 /\ StronglySorted before w /\ StronglySorted before c2 /\
  (forall b c, b ∈ w -> c ∈ a :: c2 -> before b c) /\ Forall (before a) c2 /\ links (hm s) (ring w) (fst a) /\ load64 (hm s) (fst a) = hd_addr c2 base /\
  load32 (hm s) (fst a + 8) = snd a /\ links (hm s) c2 base.
Proof using Hf E.
  pose proof (fl_fits _ _ Hf) as HF. pose proof (fl_sort _ _ Hf) as HS. pose proof (fl_links _ _ Hf) as HL. rewrite E in HF, HS. apply Forall_app in HF as [HF1 HF2].
  apply Forall_cons in HF2 as [HF2 HF3]. apply StronglySorted_app in HS as (S1 & S2 & S3). apply StronglySorted_cons in S3 as [S3 S4].
  assert (Er : ring fl = ring w ++ a :: c2) by (by rewrite E). rewrite Er, hlinks_app in HL. destruct HL as [L1 (L2 & L3 & L4)]. by split_and!.
Qed.

Lemma ring_less_in t pb b : ring w = t ++ [pb] -> b ∈ t -> fst b + 16 <= fst pb.
Proof using All.
  intros Et Hb. assert (Hc : t = [] \/ exists u, t = ring u /\ w = u ++ [pb]) by (destruct t as [|c u]; [by left|right; injection Et as <- Et; by exists u]).
  destruct Hc as [->|(u & -> & Ew)]; [by apply not_elem_of_nil in Hb|]. apply (ring_less fl s u b (pb :: a :: c2) Hf); [by rewrite E, Ew, <- app_assoc|done|by left].
Qed.

(** All of it. *)
Lemma take_whole t pb : ring w = t ++ [pb] -> snd a = n -> taken fl s n a (w ++ c2) (mk_heap (store64 (hm s) (fst pb) (hd_addr c2 base)) (fst pb) (brk s)).
Proof using All.
  intros Et Hn. destruct take_facts as (A & F1 & F2 & S1 & S2 & Sx & Sa & L1 & L2 & L3 & L4). pose proof (fl_brk _ _ Hf) as Hbrk. pose proof A as (A1 & A2 & A3).
  assert (Hpb : pb ∈ ring w) by (rewrite Et; set_solver). pose proof (ring_less fl s w pb (a :: c2) Hf E Hpb) as Hless. pose proof (Hless a ltac:(by left)) as Hpa.
  assert (Hhd : 0 <= hd_addr c2 base < 2 ^ 64).
  { destruct c2 as [|c r]; cbn; [lia|]. apply Forall_cons in F2 as [(? & ? & ?) _]. unfold stop in *. lia. }
  destruct (ptr_store (hm s) (fst pb) (hd_addr c2 base) Hhd) as (U1 & U2 & U3). rewrite Et, hlinks_app in L1. cbn [hd_addr links] in L1. destruct L1 as (L1 & _ & L5 & _).
  assert (Hfl : forall x, infree fl x <-> infree (w ++ c2) x \/ inside a x) by (intros x; rewrite E, !infree_app, infree_cons; tauto).
  split; [|done|done|done| |exact Hfl| |]; cbn [hm brk freep].
  - split; cbn [hm brk freep]; [done|by apply Forall_app|apply StronglySorted_app; split_and!; [intros b c Hb Hc; apply Sx; [done|by right]|done|done]| |].
    + assert (Er : ring (w ++ c2) = t ++ pb :: c2) by (unfold ring in *; rewrite app_comm_cons, Et, <- app_assoc; done). rewrite Er. apply hlinks_app. cbn [hd_addr links].
      rewrite U1, U2. split_and!; [|done|done|].
      * apply (links_same (hm s)); [|done]. intros b x Hb Hx. apply U3. pose proof (ring_less_in t pb b Et Hb). lia.
      * apply (links_same (hm s)); [|done]. intros c x Hc Hx. apply U3. pose proof (Hless c ltac:(by right)). lia.
    + exists pb. split; [|done]. unfold ring. rewrite app_comm_cons. apply elem_of_app. by left.
  - rewrite <- Hn, <- L3. apply load32_same. intros x Hx. apply U3. lia.
  - intros x Hx (b & [Hb|Hb]%elem_of_app & Hin).
    + pose proof (Sx b a Hb ltac:(by left)) as H. unfold before, inside in *. lia.
    + pose proof (proj1 (Forall_forall _ _) Sa b Hb) as H. unfold before, inside in *. lia.
  - intros x Hx Hb. apply U3. intros Hin. destruct (ring_header fl s pb x Hf) as [?|?]; [unfold ring; rewrite E, app_comm_cons; apply elem_of_app; by left|done|done|done].
Qed.

(** The upper part of it. *)
Lemma take_part (nb := (fst a + 16 * (snd a - n), n) : block) : 1 <= n -> n < snd a ->
  taken fl s n nb (w ++ (fst a, snd a - n) :: c2) (mk_heap (store32 (store32 (hm s) (fst a + 8) (snd a - n)) (fst nb + 8) n) (last_addr w) (brk s)).
Proof using All.
  intros Hn1 Hn. destruct take_facts as (A & F1 & F2 & S1 & S2 & Sx & Sa & L1 & L2 & L3 & L4). pose proof (fl_brk _ _ Hf) as Hbrk. pose proof A as (A1 & A2 & A3).
  set (r := (fst a, snd a - n) : block). assert (Er : stop r = fst nb) by (unfold stop, r, nb; cbn; lia). assert (Enb : stop nb = stop a) by (unfold stop, nb; cbn; lia).
  assert (Hnb : fst a + 16 <= fst nb /\ fst nb + 16 <= stop a) by (unfold nb, stop; cbn; lia).
  destruct (size_store (hm s) (fst a) (snd a - n)) as (U1 & U2 & U3); [unfold stop in *; lia|]. set (m1 := store32 (hm s) _ _) in *.
  destruct (size_store m1 (fst nb) n) as (V1 & V2 & V3); [unfold stop in *; lia|]. set (m2 := store32 m1 _ _) in *.
  assert (Hin : forall x, inside a x <-> inside r x \/ inside nb x) by (intros x; unfold inside; rewrite Er, Enb; unfold r; cbn [fst]; lia).
  assert (Hfl : forall x, infree fl x <-> infree (w ++ r :: c2) x \/ inside nb x) by (intros x; rewrite E, !infree_app, !infree_cons, Hin; tauto).
  split; [|done| |done|done|exact Hfl| |]; cbn [hm brk freep].
  - destruct (ring_last w) as (t & pb & Et & Ep). split; cbn [hm brk freep]; [done| | | |].
    + apply Forall_app. split; [done|]. constructor; [|done]. split_and!; [done|cbn; lia|]. rewrite Er. lia.
    + apply StronglySorted_app. split_and!; [|done|apply StronglySorted_cons; split; [|done]].
      * intros b c Hb [->|Hc]%elem_of_cons; [apply (Sx b a Hb); by left|apply Sx; [done|by right]].
      * apply (Forall_impl _ _ _ Sa). intros c Hc. unfold before in *. rewrite Er. lia.
    + change (links m2 (ring w ++ r :: c2) base). apply hlinks_app. split; [|cbn [links hd_addr fst snd r]; split_and!].
      * apply (links_same (hm s)); [|done]. intros b x Hb Hx. pose proof (ring_less fl s w b (a :: c2) Hf E Hb a ltac:(by left)). rewrite V3, U3 by lia. done.
      * rewrite (load64_same m1 m2) by (intros x Hx; apply V3; lia). by rewrite U1.
      * rewrite (load32_same m1 m2) by (intros x Hx; apply V3; lia). done.
      * apply (links_same (hm s)); [|done]. intros c x Hc Hx. pose proof (proj1 (Forall_forall _ _) Sa c Hc) as H. unfold before, stop in *. rewrite V3, U3 by (unfold nb; cbn; lia). done.
    + exists pb. split; [|done]. unfold ring. rewrite app_comm_cons. apply elem_of_app. left. change (pb ∈ ring w). rewrite Et. set_solver.
  - split_and!; [lia|done|by rewrite Enb].
  - intros x Hx (b & [Hb|[->|Hb]%elem_of_cons]%elem_of_app & Hb2).
    + pose proof (Sx b a Hb ltac:(by left)) as H. unfold before, inside in *. lia.
    + unfold inside in *. lia.
    + pose proof (proj1 (Forall_forall _ _) Sa b Hb) as H. unfold before, inside in *. lia.
  - intros x Hx _. rewrite E, infree_app, infree_cons in Hx. assert (Ha : ~ inside a x) by tauto. unfold inside, stop in *. rewrite V3, U3 by (unfold nb; cbn; lia). done.
Qed.

Lemma block_take_run : 1 <= n <= snd a -> exists nb fl' s', malloc_loop (S fuel) n (last_addr w) (fst a) s = Ret (fst nb + 16) s' /\ taken fl s n nb fl' s'.
Proof using All.
  intros Hn. destruct take_facts as ((A1 & A2 & A3) & _ & _ & _ & _ & _ & _ & _ & L2 & L3 & _). pose proof (fl_brk _ _ Hf) as Hbrk.
  cbn [malloc_loop]. unfold size at 1, gets. unfold bind at 1. rewrite L3. rewrite (proj2 (Z.leb_le _ _)) by lia. destruct (Z.eqb_spec (snd a) n) as [En|En].
  - destruct (ring_last w) as (t & pb & Et & Ep). exists a, (w ++ c2), (mk_heap (store64 (hm s) (fst pb) (hd_addr c2 base)) (fst pb) (brk s)).
    split; [|by eapply take_whole]. unfold ptr, gets, set_ptr, modify, bind, ret. rewrite L2, Ep. unfold plus. rewrite u64_small by (unfold stop in *; lia).
    unfold set_hm, set_freep. cbn [hm brk freep]. f_equal.
  - eexists _, _, _. split; [|apply take_part; lia]. unfold set_size, modify, bind, ret. unfold plus. cbn [fst]. rewrite !u64_small by (unfold stop in *; rewrite ?u64_small; lia).
    unfold set_hm, set_freep. cbn [hm brk freep]. f_equal.
Qed.

End take.

(** ** The search *)

Lemma skip_step fl s n b prevp fuel : freelist fl s -> b ∈ ring fl -> snd b < n -> fst b <> freep s ->
  malloc_loop (S fuel) n prevp (fst b) s = malloc_loop fuel n (fst b) (load64 (hm s) (fst b)) s.
Proof using.
  clear Hbase Hlo. intros Hf Hb Hn Hne. apply list_elem_of_split in Hb as (u & v & Er). destruct (fring_next fl s u b v Hf Er) as [_ Es].
  cbn [malloc_loop]. unfold size, ptr, gets. unfold bind at 1. rewrite Es, (proj2 (Z.leb_gt _ _)) by lia. unfold bind at 1. rewrite (proj2 (Z.eqb_neq _ _)) by done. done.
Qed.

Definition prev_of (prevp : Z) (mid : list block) : Z := from_option fst prevp (last mid).

Lemma skip_run fl s n : freelist fl s -> forall mid c1 k3 prevp fuel, ring fl = c1 ++ mid ++ k3 -> Forall (fun b => snd b < n /\ fst b <> freep s) mid ->
  malloc_loop (length mid + fuel) n prevp (hd_addr (mid ++ k3) base) s = malloc_loop fuel n (prev_of prevp mid) (hd_addr k3 base) s.
Proof using.
  clear Hbase Hlo. intros Hf. induction mid as [|b mid IH]; intros c1 k3 prevp fuel E HF; [done|]. apply Forall_cons in HF as [[H1 H2] HF].
  cbn [length app hd_addr Nat.add]. rewrite (skip_step fl) by (done || (rewrite E; set_solver)). destruct (fring_next fl s c1 b (mid ++ k3) Hf E) as [-> _].
  rewrite (IH (c1 ++ [b])) by (done || by rewrite <- app_assoc). f_equal. unfold prev_of. rewrite last_cons. by destruct (last mid).
Qed.

Lemma prev_ring d w : prev_of d (ring w) = last_addr w.
Proof using. clear. unfold prev_of, last_addr. destruct w as [|b w] using rev_ind; [done|]. change (ring (w ++ [b])) with (ring w ++ [b]). by rewrite !last_snoc. Qed.
Lemma prev_mid d c1 b mid : prev_of (fst b) mid = prev_of d (c1 ++ b :: mid).
Proof using. clear. unfold prev_of. rewrite last_app_cons, last_cons. by destruct (last mid). Qed.

Lemma first_fit n (l : list block) : Forall (fun b => snd b < n) l \/ exists mid a k, l = mid ++ a :: k /\ Forall (fun b => snd b < n) mid /\ n <= snd a.
Proof using.
  clear. induction l as [|b l [IH|(mid & a & k & -> & IH & Ha)]]; [by left| |]; destruct (decide (snd b < n)) as [Hb|Hb].
  - left. by constructor.
  - right. exists [], b, l. split_and!; [done|done|lia].
  - right. exists (b :: mid), a, k. split_and!; [done|by constructor|done].
  - right. exists [], b, (mid ++ a :: k). split_and!; [done|done|lia].
Qed.

Lemma ring_sorted fl s : freelist fl s -> StronglySorted (fun b c : block => fst b < fst c) (ring fl).
Proof using All.
  intros Hf. pose proof (fl_fits _ _ Hf) as HF. pose proof (fl_sort _ _ Hf) as HS. clear Hf. apply StronglySorted_cons. split.
  - apply (Forall_impl _ _ _ HF). intros c (? & _). cbn. lia.
  - induction HS as [|b fl HS IH Hb]; [constructor|]. apply Forall_cons in HF as [(_ & ? & _) HF]. constructor; [by apply IH|].
    apply (Forall_impl _ _ _ Hb). intros c Hc. unfold before, stop in Hc. lia.
Qed.

(** The ring as [malloc] goes round it: [c2] behind [freep], then [c1], then the block of [freep]. *)
Lemma ring_turn fl s : freelist fl s -> exists c1 fb c2, ring fl = c1 ++ fb :: c2 /\ fst fb = freep s /\ load64 (hm s) (freep s) = hd_addr c2 base /\
  Forall (fun b => fst b <> freep s) c1 /\ Forall (fun b => fst b <> freep s) c2.
Proof using All.
  intros Hf. destruct (fl_freep _ _ Hf) as (fb & Hfb & Efb). apply list_elem_of_split in Hfb as (c1 & c2 & Er). exists c1, fb, c2.
  pose proof (ring_sorted fl s Hf) as HS. rewrite Er in HS. apply StronglySorted_app in HS as (H1 & _ & H2). apply StronglySorted_cons in H2 as [H2 _].
  split_and!; [done|done|rewrite <- Efb; by apply (fring_next fl s c1 fb c2 Hf Er)| |].
  - apply Forall_forall. intros b Hb. pose proof (H1 b fb Hb ltac:(by left)). lia.
  - apply (Forall_impl _ _ _ H2). intros b Hb. lia.
Qed.

Lemma fring_take fl s n pre a post fuel d : freelist fl s -> 1 <= n <= snd a -> ring fl = pre ++ a :: post ->
  exists nb fl' s', malloc_loop (S fuel) n (prev_of d pre) (fst a) s = Ret (fst nb + 16) s' /\ taken fl s n nb fl' s'.
Proof using All.
  intros Hf Hn Er. destruct pre as [|b w]; cbn in Er; injection Er as <- Er; [cbn in Hn; lia|]. change (_ :: w) with (ring w). rewrite prev_ring.
  by apply (block_take_run fl s n w a post fuel Hf Er).
Qed.

Lemma search_fit fl s n fuel : freelist fl s -> 1 <= n -> (exists a, a ∈ fl /\ n <= snd a) -> (length (ring fl) <= fuel)%nat ->
  exists nb fl' s', malloc_loop fuel n (freep s) (load64 (hm s) (freep s)) s = Ret (fst nb + 16) s' /\ taken fl s n nb fl' s'.
Proof using All.
  intros Hf Hn (a0 & Ha0 & Hna) Hfuel. destruct (ring_turn fl s Hf) as (c1 & fb & c2 & Er & Efb & -> & N1 & N2).
  rewrite Er, length_app in Hfuel. cbn [length] in Hfuel. rewrite <- Efb.
  destruct (first_fit n c2) as [F2|(mid & a & k & -> & F2 & Ha)].
  - assert (R := skip_run fl s n Hf c2 (c1 ++ [fb]) [] (fst fb) (fuel - length c2)). rewrite app_nil_r in R. cbn [hd_addr] in R.
    replace (length c2 + (fuel - length c2))%nat with fuel in R by lia. rewrite R; [|by rewrite <- app_assoc|apply Forall_and; done]. clear R.
    assert (Hhd : base = hd_addr (c1 ++ fb :: c2) base) by (rewrite <- Er; done).
    destruct (first_fit n c1) as [F1|(mid & a & k & -> & F1 & Ha)].
    + assert (R := skip_run fl s n Hf c1 [] (fb :: c2) (prev_of (fst fb) c2) (fuel - length c2 - length c1) Er ltac:(apply Forall_and; done)).
      rewrite <- Hhd in R. replace (length c1 + _)%nat with (fuel - length c2)%nat in R by lia. rewrite R. cbn [hd_addr].
      destruct (fuel - length c2 - length c1)%nat as [|f] eqn:Ef; [lia|]. apply (fring_take fl s n c1 fb c2); [done| |done]. split; [done|].
      assert (Hin : a0 ∈ ring fl) by (by right). rewrite Er in Hin. apply elem_of_app in Hin as [Hin|[->|Hin]%elem_of_cons]; [|done|].
      * pose proof (proj1 (Forall_forall _ _) F1 a0 Hin) as Hx. cbv beta in Hx. lia.
      * pose proof (proj1 (Forall_forall _ _) F2 a0 Hin) as Hx. cbv beta in Hx. lia.
    + rewrite <- app_assoc in Er, Hhd. rewrite length_app in Hfuel. cbn [length] in Hfuel.
      assert (R := skip_run fl s n Hf mid [] (a :: k ++ fb :: c2) (prev_of (fst fb) c2) (fuel - length c2 - length mid) Er).
      replace (length mid + _)%nat with (fuel - length c2)%nat in R by lia. cbn [app] in Hhd. rewrite <- Hhd in R. apply Forall_app in N1 as [N1 _].
      rewrite R by (apply Forall_and; done). cbn [hd_addr]. destruct (fuel - length c2 - length mid)%nat as [|f] eqn:Ef; [lia|]. by apply (fring_take fl s n mid a (k ++ fb :: c2)).
  - rewrite length_app in Hfuel. cbn [length] in Hfuel. assert (R := skip_run fl s n Hf mid (c1 ++ [fb]) (a :: k) (fst fb) (fuel - length mid)).
    replace (length mid + _)%nat with fuel in R by lia. apply Forall_app in N2 as [N2 _]. rewrite R; [|by rewrite <- app_assoc|apply Forall_and; done].
    cbn [hd_addr]. destruct (fuel - length mid)%nat as [|f] eqn:Ef; [lia|]. rewrite (prev_mid 0 c1). apply (fring_take fl s n (c1 ++ fb :: mid) a k); [done|done|by rewrite <- app_assoc].
Qed.

(** Nothing fits: [malloc] comes round to [freep]. *)
Lemma search_none fl s n fuel : freelist fl s -> Forall (fun b => snd b < n) (ring fl) ->
  exists d, malloc_loop (length (ring fl) + fuel) n (freep s) (load64 (hm s) (freep s)) s = malloc_loop (S fuel) n d (freep s) s /\ load32 (hm s) (freep s + 8) < n.
Proof using All.
  intros Hf HF. destruct (ring_turn fl s Hf) as (c1 & fb & c2 & Er & Efb & -> & N1 & N2). rewrite Er in HF. apply Forall_app in HF as [F1 [Hfb F2]%Forall_cons].
  exists (prev_of (prev_of (freep s) c2) c1). rewrite <- Efb at 4. destruct (fring_next fl s c1 fb c2 Hf Er) as [_ ->]. split; [|done].
  rewrite Er, length_app. cbn [length]. replace (length c1 + S (length c2) + fuel)%nat with (length c2 + (length c1 + S fuel))%nat by lia.
  assert (R := skip_run fl s n Hf c2 (c1 ++ [fb]) [] (freep s) (length c1 + S fuel)). rewrite app_nil_r in R.
  rewrite R; [|by rewrite <- app_assoc|apply Forall_and; done]. cbn [hd_addr]. assert (Hhd : base = hd_addr (c1 ++ fb :: c2) base) by (rewrite <- Er; done). rewrite Hhd at 1.
  rewrite (skip_run fl s n Hf c1 [] (fb :: c2)); [|done|apply Forall_and; done]. cbn [hd_addr]. by rewrite Efb.
Qed.

(** ** More memory *)

Definition grown (n : Z) : Z := if n <? 4096 then 4096 else n.

Lemma sbrk_run s nu : 0 < nu -> 0 <= brk s -> brk s + 16 * nu < 2 ^ 31 -> sbrk (nu * 16) s = Ret (brk s) (mk_heap (hm s) (freep s) (brk s + 16 * nu)).
Proof using.
  clear. intros H1 H2 H3. unfold sbrk. rewrite (s32_small (nu * 16)) by lia. unfold bind at 1, gets. rewrite (proj2 (Z.ltb_lt _ _)) by lia.
  unfold modify, bind, ret, set_brk. rewrite s32_small by lia. rewrite !u64_small by lia. by rewrite (Z.mul_comm nu 16).
Qed.

Lemma grown_list fl s nu : freelist fl s -> 0 < nu -> brk s + 16 * nu < 2 ^ 31 ->
  let s1 := mk_heap (store32 (hm s) (brk s + 8) nu) (freep s) (brk s + 16 * nu) in
  freelist fl s1 /\ fits lo (brk s1) (brk s, nu) /\ load32 (hm s1) (brk s + 8) = nu /\ (forall x, inside (brk s, nu) x -> ~ infree fl x) /\ forall x, x < brk s -> hm s1 x = hm s x.
Proof using All.
  intros Hf Hnu Hb. pose proof (fl_brk _ _ Hf) as Hbrk. destruct (size_store (hm s) (brk s) nu) as (W1 & W2 & W3); [lia|]. cbn [hm brk].
  assert (Hlow : forall b, b ∈ ring fl -> fst b + 12 <= brk s).
  { intros b [->|H]%elem_of_cons; [cbn; lia|]. destruct (proj1 (Forall_forall _ _) (fl_fits _ _ Hf) b H) as (? & ? & ?). unfold stop in *. lia. }
  split_and!; [split; cbn [hm brk freep]|..].
  - lia.
  - apply (Forall_impl _ _ _ (fl_fits _ _ Hf)). intros b (? & ? & ?). split_and!; [done|done|lia].
  - apply Hf.
  - apply (links_same (hm s)); [|apply Hf]. intros b x H Hx. apply W3. pose proof (Hlow b H). lia.
  - apply Hf.
  - unfold fits, stop. cbn. lia.
  - done.
  - intros x Hx (b & H & Hin). destruct (proj1 (Forall_forall _ _) (fl_fits _ _ Hf) b H) as (? & ? & ?). unfold inside in *. cbn in Hx. lia.
  - intros x Hx. apply W3. lia.
Qed.

Lemma morecore_run fl s n : freelist fl s -> brk s + 16 * grown n < 2 ^ 31 ->
  exists fl' s', morecore n s = Ret (freep s') s' /\ freelist fl' s' /\ brk s' = brk s + 16 * grown n /\ (forall x, infree fl' x <-> infree fl x \/ brk s <= x < brk s') /\
    (forall x, ~ infree fl' x -> ~ (base <= x < base + 16) -> hm s' x = hm s x) /\ (length fl' <= S (length fl))%nat /\ exists b, b ∈ fl' /\ n <= snd b.
Proof using All.
  intros Hf Hb. pose proof (fl_brk _ _ Hf) as Hbrk. assert (Hg : 0 < grown n /\ n <= grown n) by (unfold grown; destruct (Z.ltb_spec n 4096); lia).
  destruct (grown_list fl s (grown n) Hf) as (G1 & G2 & G3 & G4 & G5); [lia|lia|]. set (s1 := mk_heap _ _ _) in *.
  destruct (free_run fl s1 (brk s, grown n) G1 G2 G3 G4) as (fl' & s' & R & H1 & H2 & H3 & H4 & H5 & b & H6 & H7 & H8). exists fl', s'. cbn [fst] in R.
  assert (Eb : brk s' = brk s + 16 * grown n) by (by rewrite H2). split_and!; [|done|done| | |done|].
  - unfold morecore. fold (grown n). rewrite (bind_Ret _ _ _ _ _ (sbrk_run s (grown n) ltac:(lia) ltac:(lia) Hb)).
    rewrite (proj2 (Z.eqb_neq _ _)) by (change (u64 (-1)) with (2 ^ 64 - 1); lia).
    assert (Es : set_size (brk s) (grown n) (mk_heap (hm s) (freep s) (brk s + 16 * grown n)) = Ret tt s1) by done. rewrite (bind_Ret _ _ _ _ _ Es).
    assert (Ep : plus (brk s) 1 = brk s + 16) by (unfold plus; apply u64_small; lia). rewrite Ep, (bind_Ret _ _ _ _ _ R). done.
  - intros x. rewrite H3, Eb. unfold inside, stop. cbn [fst snd]. tauto.
  - intros x Hx Hbx. rewrite H4 by done. assert (~ inside (brk s, grown n) x) by (intros ?; apply Hx, H3; by right). unfold inside, stop in *. cbn [fst snd] in *.
    unfold s1. cbn [hm]. apply store_out. lia.
  - exists b. split; [done|]. unfold stop in H8. cbn [fst snd] in *. lia.
Qed.

(** ** [malloc] *)

Lemma malloc_loop_run fl s n fuel : freelist fl s -> 1 <= n -> brk s + 16 * grown n < 2 ^ 31 -> (2 * length (ring fl) + 1 <= fuel)%nat ->
  exists fl1 s1 nb fl' s', malloc_loop fuel n (freep s) (load64 (hm s) (freep s)) s = Ret (fst nb + 16) s' /\ taken fl1 s1 n nb fl' s' /\
    brk s <= brk s1 < 2 ^ 31 /\ (forall x, infree fl1 x <-> infree fl x \/ brk s <= x < brk s1) /\ (forall x, ~ infree fl1 x -> ~ (base <= x < base + 16) -> hm s1 x = hm s x).
Proof using All.
  intros Hf Hn Hb Hfuel. pose proof (fl_brk _ _ Hf) as Hbrk. destruct (first_fit n fl) as [HF|(mid & a & k & E & _ & Ha)].
  - destruct (search_none fl s n (fuel - length (ring fl)) Hf) as (d & R & Hsz); [constructor; [cbn; lia|done]|].
    replace (length (ring fl) + _)%nat with fuel in R by lia. rewrite R.
    destruct (morecore_run fl s n Hf Hb) as (fl1 & s1 & R1 & H1 & H2 & H3 & H4 & H5 & H6).
    assert (Hg : 0 < grown n) by (unfold grown; destruct (Z.ltb_spec n 4096); lia).
    destruct (search_fit fl1 s1 n (fuel - length (ring fl)) H1 Hn H6) as (nb & fl' & s' & R2 & HT); [cbn [ring length] in *; lia|].
    exists fl1, s1, nb, fl', s'. split_and!; [|done|lia|pose proof (fl_brk _ _ H1); lia|done|done]. cbn [malloc_loop]. unfold size at 1, gets at 1. unfold bind at 1.
    rewrite (proj2 (Z.leb_gt _ _)) by done. unfold bind at 1, gets at 1. rewrite Z.eqb_refl, (bind_Ret _ _ _ _ _ R1).
    destruct (fl_freep _ _ H1) as (fb & Hfb & Efb). destruct (ring_low fl1 s1 fb H1 Hfb) as ([? _] & _). rewrite (proj2 (Z.eqb_neq _ _)) by lia. exact R2.
  - destruct (search_fit fl s n fuel Hf Hn) as (nb & fl' & s' & R & HT); [exists a; split; [rewrite E; set_solver|done]|lia|].
    exists fl, s, nb, fl', s'. split_and!; [done|done|lia|lia| |done]. intros x. split; [by left|intros [?|?]; [done|lia]].
Qed.

(** The first call makes [base] the ring. *)
Lemma first_call s : lo <= brk s < 2 ^ 31 -> let s0 := mk_heap (store32 (store64 (hm s) base base) (base + 8) 0) base (brk s) in
  freelist [] s0 /\ forall x, ~ (base <= x < base + 16) -> hm s0 x = hm s x.
Proof using All.
  intros Hb. destruct (ptr_store (hm s) base base) as (U1 & U2 & U3); [lia|]. destruct (size_store (store64 (hm s) base base) base 0) as (W1 & W2 & W3); [lia|].
  split; [split; cbn [hm brk freep]; [done|constructor|constructor| |by exists (base, 0); split; [left|]]|intros x Hx; cbn [hm]; rewrite W3, U3 by lia; done].
  cbn [links hd_addr ring fst snd]. rewrite W1, W2, U1. done.
Qed.

(** ** The allocator *)

(** The free list [fl] and the blocks [A] given out share the heap, from [lo] to
    the end of the process. *)
Definition covered (A fl : list block) (s : heap) : Prop := forall x, lo <= x < brk s <-> infree fl x \/ infree A x.

Definition allocator (A fl : list block) (s : heap) : Prop :=
  freep s = 0 /\ A = [] /\ fl = [] /\ brk s = lo /\ lo < 2 ^ 31 \/ freelist fl s /\ given A fl s /\ covered A fl s.

(** The size [malloc] looks for. *)
Definition units (nbytes : Z) : Z := (nbytes + 15) / 16 + 1.

Lemma malloc_eq nbytes s : freep s <> 0 -> 1 <= units nbytes < 2 ^ 32 ->
  malloc base nbytes s = malloc_loop (2 * rounds s + 2) (units nbytes) (freep s) (load64 (hm s) (freep s)) s.
Proof using.
  clear. intros Hf Hu. unfold malloc. unfold bind at 1, gets at 1. rewrite (proj2 (Z.eqb_neq _ _)) by done. fold (units nbytes). rewrite u32_small by lia. done.
Qed.
Lemma malloc_first nbytes s : freep s = 0 -> 1 <= units nbytes < 2 ^ 32 -> let s0 := mk_heap (store32 (store64 (hm s) base base) (base + 8) 0) base (brk s) in
  malloc base nbytes s = malloc_loop (2 * rounds s0 + 2) (units nbytes) (freep s0) (load64 (hm s0) (freep s0)) s0.
Proof using.
  clear. intros Hf Hu. unfold malloc. unfold bind at 1, gets at 1. rewrite Hf, Z.eqb_refl. fold (units nbytes). rewrite u32_small by lia. done.
Qed.

Lemma malloc_start A fl s nbytes : allocator A fl s -> 1 <= units nbytes < 2 ^ 32 ->
  exists s0, malloc base nbytes s = malloc_loop (2 * rounds s0 + 2) (units nbytes) (freep s0) (load64 (hm s0) (freep s0)) s0 /\
    freelist fl s0 /\ given A fl s0 /\ covered A fl s0 /\ brk s0 = brk s /\ forall x, ~ (base <= x < base + 16) -> hm s0 x = hm s x.
Proof using All.
  intros [(Hp & -> & -> & Hbr & Hl)|(Hf & Hg & Hc)] Hu.
  - destruct (first_call s ltac:(lia)) as [H1 H2]. eexists. split; [by apply malloc_first|]. split_and!; [done| | |done|exact H2].
    + split; [constructor|by intros b ?%not_elem_of_nil|by intros b x ?%not_elem_of_nil|done].
    + intros x. cbn [brk]. split; [lia|]. intros [[]%infree_nil|[]%infree_nil].
  - exists s. split; [|by split_and!]. apply malloc_eq; [|done]. destruct (fl_freep _ _ Hf) as (fb & Hfb & Efb). destruct (ring_low fl s fb Hf Hfb) as ([? _] & _). lia.
Qed.

(** Nothing of what is given out is in the part of the heap that is searched. *)
Lemma given_out A fl s fl1 hi x : given A fl s -> (forall y, infree fl1 y <-> infree fl y \/ brk s <= y < hi) -> infree A x -> ~ infree fl1 x /\ ~ (base <= x < base + 16).
Proof using All.
  intros HG H1 (b & Hb & Hin). destruct (proj1 (Forall_forall _ _) (gv_fits _ _ _ HG) b Hb) as (? & ? & ?). pose proof (gv_free _ _ _ HG b x Hb Hin) as Hn. unfold inside in *.
  split; [|lia]. intros [?|?]%H1; [done|lia].
Qed.

Lemma given_take A fl s fl1 s1 n nb fl' s' : given A fl s -> taken fl1 s1 n nb fl' s' -> brk s <= brk s1 ->
  (forall x, infree fl1 x <-> infree fl x \/ brk s <= x < brk s1) -> (forall x, infree A x -> hm s' x = hm s x) -> given (nb :: A) fl' s'.
Proof using All.
  intros HG [_ T2 T3 T4 T5 T6 T7 _] Hb H1 Hk. assert (Hno : forall b x, b ∈ A -> inside b x -> ~ infree fl1 x).
  { intros b x HA Hin. apply (given_out A fl s fl1 (brk s1) x HG H1). by exists b. }
  split.
  - rewrite T2. constructor; [done|]. apply (Forall_impl _ _ _ (gv_fits _ _ _ HG)). intros b (? & ? & ?). split_and!; [done|done|lia].
  - intros b [->|HA]%elem_of_cons; [by rewrite T4|]. rewrite <- (gv_size _ _ _ HG b HA). apply load32_same. intros x Hx. apply Hk. exists b. split; [done|].
    destruct (proj1 (Forall_forall _ _) (gv_fits _ _ _ HG) b HA) as (_ & ? & _). unfold inside, stop. lia.
  - intros b x [->|HA]%elem_of_cons Hin; [by apply T7|]. intros Hx. apply (Hno b x HA Hin), T6. by left.
  - intros [|i] [|j] b c x Hi Hj Hbx Hcx; cbn in Hi, Hj; [done|..].
    + injection Hi as <-. exfalso. apply list_elem_of_lookup_2 in Hj. apply (Hno c x Hj Hcx), T6. by right.
    + injection Hj as <-. exfalso. apply list_elem_of_lookup_2 in Hi. apply (Hno b x Hi Hbx), T6. by right.
    + f_equal. by apply (gv_apart _ _ _ HG i j b c x).
Qed.

Lemma malloc_run A fl s nbytes : allocator A fl s -> 0 <= nbytes -> brk s + 16 * grown (units nbytes) < 2 ^ 31 ->
  exists b fl' s', malloc base nbytes s = Ret (fst b + 16) s' /\ allocator (b :: A) fl' s' /\ snd b = units nbytes /\ brk s <= brk s' /\
    (forall x, infree A x -> hm s' x = hm s x) /\ forall x, ~ (lo <= x < brk s') -> ~ (base <= x < base + 16) -> hm s' x = hm s x.
Proof using All.
  intros HA Hn Hb. assert (Hu : 1 <= units nbytes < 2 ^ 31).
  { assert (0 <= (nbytes + 15) / 16) by (apply Z.div_pos; lia). unfold units, grown in *. destruct HA as [(_ & _ & _ & ? & _)|[[? _] _]]; destruct (Z.ltb_spec ((nbytes + 15) / 16 + 1) 4096); lia. }
  destruct (malloc_start A fl s nbytes HA) as (s0 & -> & Hf & HG & HC & Eb & Hk0); [lia|]. rewrite <- Eb in Hb |- *.
  destruct (malloc_loop_run fl s0 (units nbytes) (2 * rounds s0 + 2) Hf) as (fl1 & s1 & nb & fl' & s' & R & HT & Hb1 & H1 & H2); [lia|done|pose proof (ring_length fl s0 Hf); lia|].
  assert (Hk : forall x, ~ infree fl1 x -> ~ (base <= x < base + 16) -> hm s' x = hm s0 x).
  { intros x Hx Hbx. rewrite (tk_keep _ _ _ _ _ _ HT) by done. by apply H2. }
  assert (HkA : forall x, infree A x -> hm s' x = hm s0 x).
  { intros x Hx. destruct (given_out A fl s0 fl1 (brk s1) x HG H1 Hx). by apply Hk. }
  exists nb, fl', s'. rewrite (tk_brk _ _ _ _ _ _ HT). split_and!; [done| |apply HT|lia| |].
  - right. split_and!; [apply HT|exact (given_take A fl s0 fl1 s1 _ nb fl' s' HG HT (proj1 Hb1) H1 HkA)|]. intros x. rewrite (tk_brk _ _ _ _ _ _ HT), infree_cons. pose proof (tk_free _ _ _ _ _ _ HT x) as Hx. pose proof (HC x) as Hc.
    pose proof (fl_brk _ _ Hf) as Hbrk. rewrite H1 in Hx. split; intros Hxx.
    + assert (Hor : lo <= x < brk s0 \/ brk s0 <= x < brk s1) by lia. tauto.
    + assert (Hor : lo <= x < brk s0 \/ brk s0 <= x < brk s1) by tauto. lia.
  - intros x Hx. destruct (given_out A fl s0 fl1 (brk s1) x HG H1 Hx) as [_ Hbx]. rewrite HkA by done. by apply Hk0.
  - intros x Hx Hbx. rewrite Hk; [by apply Hk0| |done]. intros [?|?]%H1; [|pose proof (fl_brk _ _ Hf); lia]. assert (lo <= x < brk s0) by (apply HC; by left). lia.
Qed.

(** ** [free] *)

Lemma given_free A1 b A2 fl s fl' s' : given (A1 ++ b :: A2) fl s -> brk s' = brk s -> (forall x, infree fl' x <-> infree fl x \/ inside b x) ->
  (forall x, infree (A1 ++ A2) x -> hm s' x = hm s x) -> (forall x, infree (A1 ++ A2) x -> ~ inside b x) -> given (A1 ++ A2) fl' s'.
Proof using.
  clear. intros HG Eb H1 Hk Hno. assert (Hsub : forall c, c ∈ A1 ++ A2 -> c ∈ A1 ++ b :: A2) by set_solver. split.
  - rewrite Eb. pose proof (gv_fits _ _ _ HG) as HF. apply Forall_forall. intros c Hc. exact (proj1 (Forall_forall _ _) HF c (Hsub c Hc)).
  - intros c Hc. rewrite <- (gv_size _ _ _ HG c (Hsub c Hc)). apply load32_same. intros x Hx. apply Hk. exists c. split; [done|].
    destruct (proj1 (Forall_forall _ _) (gv_fits _ _ _ HG) c (Hsub c Hc)) as (_ & ? & _). unfold inside, stop. lia.
  - intros c x Hc Hin [?|?]%H1; [by apply (gv_free _ _ _ HG c x (Hsub c Hc))|]. apply (Hno x); [by exists c|done].
  - intros i j c d x Hi Hj Hc Hd.
    assert (Hup : forall k e, (A1 ++ A2) !! k = Some e -> (A1 ++ b :: A2) !! (if decide (k < length A1)%nat then k else S k) = Some e).
    { intros k e Hk'. destruct (decide (k < length A1)%nat); [by rewrite lookup_app_l in Hk' |- *|]. rewrite lookup_app_r in Hk' by lia. rewrite lookup_app_r by lia.
      by replace (S k - length A1)%nat with (S (k - length A1)) by lia. }
    pose proof (gv_apart _ _ _ HG _ _ c d x (Hup i c Hi) (Hup j d Hj) Hc Hd) as Hij. destruct (decide (i < length A1)%nat), (decide (j < length A1)%nat); lia.
Qed.

Lemma given_other A1 b A2 fl s x : given (A1 ++ b :: A2) fl s -> infree (A1 ++ A2) x -> ~ inside b x.
Proof using.
  clear. intros HG (c & Hc & Hin) Hb. assert (Hi : (A1 ++ b :: A2) !! length A1 = Some b) by (rewrite lookup_app_r, Nat.sub_diag by lia; done).
  apply elem_of_app in Hc as [Hc|Hc]; apply list_elem_of_lookup_1 in Hc as [k Hk].
  - assert (Hk' : (A1 ++ b :: A2) !! k = Some c) by (rewrite lookup_app_l by (by eapply lookup_lt_Some); done). pose proof (gv_apart _ _ _ HG _ _ _ _ x Hk' Hi Hin Hb).
    apply lookup_lt_Some in Hk. lia.
  - assert (Hk' : (A1 ++ b :: A2) !! (length A1 + S k)%nat = Some c) by (rewrite lookup_app_r by lia; by replace (length A1 + S k - length A1)%nat with (S k) by lia).
    pose proof (gv_apart _ _ _ HG _ _ _ _ x Hk' Hi Hin Hb). lia.
Qed.

Lemma free_given A1 b A2 fl s : allocator (A1 ++ b :: A2) fl s ->
  exists fl' s', free (fst b + 16) s = Ret tt s' /\ allocator (A1 ++ A2) fl' s' /\ freelist fl' s' /\ brk s' = brk s /\ (forall x, infree fl' x <-> infree fl x \/ inside b x) /\
    (forall x, infree (A1 ++ A2) x -> hm s' x = hm s x) /\ forall x, ~ (lo <= x < brk s) -> ~ (base <= x < base + 16) -> hm s' x = hm s x.
Proof using All.
  intros [(_ & HA & _)|(Hf & HG & HC)]; [by apply app_eq_nil in HA as [_ ?]|]. assert (Hb : b ∈ A1 ++ b :: A2) by set_solver.
  destruct (free_run fl s b Hf) as (fl' & s' & R & H1 & H2 & H3 & H4 & _ & _).
  { exact (proj1 (Forall_forall _ _) (gv_fits _ _ _ HG) b Hb). }
  { by apply (gv_size _ _ _ HG). }
  { intros x. by apply (gv_free _ _ _ HG). }
  assert (Hno : forall x, infree (A1 ++ A2) x -> ~ inside b x) by (intros x; by apply (given_other _ _ _ fl s)).
  assert (Hsub : forall x, infree (A1 ++ A2) x -> infree (A1 ++ b :: A2) x) by (intros x; rewrite !infree_app, infree_cons; tauto).
  assert (Hk : forall x, infree (A1 ++ A2) x -> hm s' x = hm s x).
  { intros x Hx. destruct (Hsub x Hx) as (c & Hc & Hin). apply H4.
    - intros [?|?]%H3; [by apply (gv_free _ _ _ HG c x Hc)|by apply (Hno x)].
    - destruct (proj1 (Forall_forall _ _) (gv_fits _ _ _ HG) c Hc) as (? & _). unfold inside in Hin. lia. }
  exists fl', s'. split_and!; [done| |done|done|done|done|].
  - right. split_and!; [done|by eapply given_free|]. intros x. rewrite H2, H3, (HC x), !infree_app, infree_cons. tauto.
  - intros x Hx Hbx. apply H4; [|done]. intros Hin. apply Hx, HC. rewrite infree_app, infree_cons. apply H3 in Hin. tauto.
Qed.

(** When nothing is given out, the heap is one block. *)
Lemma all_free fl s : freelist fl s -> covered [] fl s -> lo < brk s -> exists k, fl = [(lo, k)] /\ lo + 16 * k = brk s.
Proof using All.
  intros Hf HC Hlt. pose proof (fl_fits _ _ Hf) as HF. pose proof (fl_sort _ _ Hf) as HS. assert (Hc : forall x, lo <= x < brk s -> infree fl x).
  { intros x Hx. apply HC in Hx as [?|[]%infree_nil]. done. }
  destruct fl as [|b r]; [destruct (infree_nil lo); apply Hc; lia|]. apply Forall_cons in HF as [(F1 & F2 & F3) HF]. apply StronglySorted_cons in HS as [HS _].
  assert (Hlow : forall c, c ∈ r -> stop b < fst c) by (intros c H; exact (proj1 (Forall_forall _ _) HS c H)).
  assert (E1 : fst b = lo).
  { destruct (Hc lo ltac:(lia)) as (c & [->|H]%elem_of_cons & Hin); unfold inside in *; [lia|]. pose proof (Hlow c H). unfold stop in *. lia. }
  assert (E2 : stop b = brk s).
  { destruct (decide (stop b < brk s)) as [Hs|]; [|lia]. destruct (Hc (stop b)) as (c & [->|H]%elem_of_cons & Hin); unfold inside in *; [unfold stop in *; lia|lia|]. pose proof (Hlow c H). lia. }
  destruct r as [|c r]; [|pose proof (Hlow c ltac:(by left)); apply Forall_cons in HF as [(? & ? & ?) _]; unfold stop in *; lia].
  exists (snd b). unfold stop in E2. rewrite <- E1 at 1 2. split; [by destruct b|done].
Qed.

(** C37: while the heap stays below 2^31, [malloc] returns memory of at least [nbytes]
    bytes that overlaps nothing given out before; it changes no byte of that, nor of
    anything outside the heap but the list's own header; it ends, also when it has
    to ask for more memory. *)
Theorem malloc_allocates A fl s nbytes : allocator A fl s -> 0 <= nbytes -> brk s + 16 * grown (units nbytes) < 2 ^ 31 ->
  exists p n fl' s', malloc base nbytes s = Ret p s' /\ allocator ((p - 16, n) :: A) fl' s' /\ nbytes <= 16 * (n - 1) /\ lo <= p - 16 /\ p + 16 * (n - 1) <= brk s' /\
    (forall x, p - 16 <= x < p + 16 * (n - 1) -> ~ infree A x) /\ (forall x, infree A x -> hm s' x = hm s x) /\
    (forall x, ~ (lo <= x < brk s') -> ~ (base <= x < base + 16) -> hm s' x = hm s x).
Proof using All.
  intros HA Hn Hb. destruct (malloc_run A fl s nbytes HA Hn Hb) as (b & fl' & s' & R & HA' & Hu & _ & Hk & Ho). exists (fst b + 16), (snd b), fl', s'.
  assert (Eb : (fst b + 16 - 16, snd b) = b) by (destruct b; cbn; f_equal; lia). rewrite Eb. pose proof HA' as [(_ & ? & _)|(_ & HG & _)]; [done|].
  destruct (proj1 (Forall_forall _ _) (gv_fits _ _ _ HG) b ltac:(by left)) as (? & ? & ?). unfold stop in *. split_and!; [done|done| |lia|lia| |done|done].
  - rewrite Hu. unfold units. pose proof (Z.div_mod (nbytes + 15) 16). pose proof (Z.mod_pos_bound (nbytes + 15) 16). lia.
  - intros x Hx Hin. apply (given_other [] b A fl' s' x HG Hin). unfold inside, stop. lia.
Qed.

(** [free] of memory that [malloc] gave out returns it to the free list, with no
    effect on the rest of the memory given out; free neighbours are joined, so that
    when it was the last the free list is one block, the whole heap. *)
Theorem free_reclaims A1 b A2 fl s : allocator (A1 ++ b :: A2) fl s ->
  exists fl' s', free (fst b + 16) s = Ret tt s' /\ allocator (A1 ++ A2) fl' s' /\ brk s' = brk s /\ (forall x, infree fl' x <-> infree fl x \/ inside b x) /\
    (forall x, infree (A1 ++ A2) x -> hm s' x = hm s x) /\ (forall x, ~ (lo <= x < brk s) -> ~ (base <= x < base + 16) -> hm s' x = hm s x) /\
    (A1 ++ A2 = [] -> exists k, fl' = [(lo, k)] /\ lo + 16 * k = brk s).
Proof using All.
  intros HA. destruct (free_given A1 b A2 fl s HA) as (fl' & s' & R & HA' & Hf & Eb & H1 & H2 & H3). exists fl', s'. split_and!; [done..|].
  intros E. rewrite <- Eb. destruct HA as [(_ & HA & _)|(_ & HG & _)]; [by apply app_eq_nil in HA as [_ ?]|]. apply all_free; [done| |].
  - rewrite E in HA'. destruct HA' as [(Hp & _)|(_ & _ & HC)]; [|done]. destruct (fl_freep _ _ Hf) as (fb & Hfb & Efb). destruct (ring_low fl' s' fb Hf Hfb) as ([? _] & _). lia.
  - destruct (proj1 (Forall_forall _ _) (gv_fits _ _ _ HG) b ltac:(set_solver)) as (? & ? & ?). unfold stop in *. lia.
Qed.

End spec.

(** ** Examples *)

Definition heap0 : heap := mk_heap (fun _ => 0) 0 8192.
Lemma heap0_ok : allocator 4096 8192 [] [] heap0.
Proof. left. by split_and!. Qed.

Lemma malloc_allocates_witness : exists p n fl s', malloc 4096 100 heap0 = Ret p s' /\ allocator 4096 8192 [(p - 16, n)] fl s' /\ 100 <= 16 * (n - 1).
Proof.
  destruct (malloc_allocates 4096 8192 ltac:(lia) ltac:(lia) [] [] heap0 100 heap0_ok ltac:(lia) ltac:(by vm_compute)) as (p & n & fl & s' & H1 & H2 & H3 & _).
  exists p, n, fl, s'. exact (conj H1 (conj H2 H3)).
Defined.

Lemma free_reclaims_witness : exists (b : block) s s' k, malloc 4096 100 heap0 = Ret (fst b + 16) s /\ free (fst b + 16) s = Ret tt s' /\ allocator 4096 8192 [] [(8192, k)] s'.
Proof.
  destruct (malloc_run 4096 8192 ltac:(lia) ltac:(lia) [] [] heap0 100 heap0_ok ltac:(lia) ltac:(by vm_compute)) as (b & fl & s & R & HA & _).
  destruct (free_reclaims 4096 8192 ltac:(lia) ltac:(lia) [] b [] fl s HA) as (fl' & s' & R' & HA' & _ & _ & _ & _ & Hk).
  destruct (Hk eq_refl) as (k & Ek & _). rewrite Ek in HA'. exists b, s, s', k. exact (conj R (conj R' HA')).
Defined.

(** A request of nearly 2^32 bytes gets 16: the size passes through an [int]. *)
Lemma malloc_huge_unbacked : match malloc 4096 (2 ^ 32 - 1) heap0 with Ret p s => p = 8192 + 16 /\ brk s = 8192 + 16 | _ => False end.
Proof. vm_compute. by split. Qed.

End Umallocspec.
