(* ===== verification/Sem.v ===== *)
(** Semaphores: [sys_sem_create], [sys_sem_free], [sys_sem_p] and [sys_sem_v] of
    [src/kernel/sysproc.c], with the [sleep] and [wakeup] they call, interleaved.

    A step is what a process does between two operations on locks. A process that
    spins for a lock has no step. The queue of runnable processes plays no part:
    a process that was woken goes on once the scheduler has taken its lock. *)

From S2P Require Import Prelude.

Module Sem.

Definition SEM_MAX_NUM : nat := 128.
Definition NPROC : nat := 64.

Record sem := mk_sem { slock : option nat; resource_count : Z; allocated : Z }.

(** Where a process is. [Idle r]: outside, the last call having returned [r]. *)
Inductive pc :=
| Idle (r : Z)
| CreateLock (n : Z) (id : nat) | CreateBody (n : Z) (id : nat)
| FreeLock (id : nat) | FreeBody (id : nat)
| PLockProc (id : nat) | PLockSem (id : nat) | PBody (id : nat)
| PUnlockSleep (id : nat) | PSleep (id : nat) | Asleep (id : nat) | Woken
| PUnlock (id : nat) | PEnd
| VLock (id : nat) | VBody (id : nat) | VLockProc (id k : nat) | VWake (id k : nat) | VUnlock (id : nat).

#[export] Instance pc_eq_dec : EqDecision pc.
Proof. solve_decision. Defined.

Record state := mk_state { sems : list sem; sem_used_count : Z; plock : list (option nat); at_ : list pc }.

Definition put_sem (id : nat) (x : sem) (s : state) : state := mk_state (<[id := x]> (sems s)) (sem_used_count s) (plock s) (at_ s).
Definition put_used (n : Z) (s : state) : state := mk_state (sems s) n (plock s) (at_ s).
Definition put_plock (i : nat) (l : option nat) (s : state) : state := mk_state (sems s) (sem_used_count s) (<[i := l]> (plock s)) (at_ s).
Definition goto (j : nat) (p : pc) (s : state) : state := mk_state (sems s) (sem_used_count s) (plock s) (<[j := p]> (at_ s)).

Definition with_slock (l : option nat) (x : sem) : sem := mk_sem l (resource_count x) (allocated x).
Definition with_count (n : Z) (x : sem) : sem := mk_sem (slock x) n (allocated x).
Definition with_allocated (a : Z) (x : sem) : sem := mk_sem (slock x) (resource_count x) a.

Definition initsem : list sem := replicate SEM_MAX_NUM (mk_sem None 0 0).
Definition boot : state := mk_state initsem 0 (replicate NPROC None) (replicate NPROC (Idle 0)).

(** [acquire] and [release] of a semaphore's lock *)
Definition lock_sem (j id : nat) (p : pc) (s : state) : option state :=
  x ← sems s !! id; match slock x with None => Some (goto j p (put_sem id (with_slock (Some j) x) s)) | Some _ => None end.
Definition unlock_sem (j id : nat) (p : pc) (s : state) : option state :=
  x ← sems s !! id; Some (goto j p (put_sem id (with_slock None x) s)).
(** [acquire] and [release] of [proc[i].lock] *)
Definition lock_proc (j i : nat) (p : pc) (s : state) : option state :=
  l ← plock s !! i; match l with None => Some (goto j p (put_plock i (Some j) s)) | Some _ => None end.
Definition unlock_proc (j i : nat) (p : pc) (s : state) : option state :=
  Some (goto j p (put_plock i None s)).

(** [sys_sem_create], with the lock held *)
Definition create_body (j : nat) (n : Z) (id : nat) (s : state) : option state :=
  x ← sems s !! id;
  if allocated x =? 0 then
    unlock_sem j id (Idle (Z.of_nat id)) (put_used (sem_used_count s + 1) (put_sem id (with_count n (with_allocated 1 x)) s))
  else unlock_sem j id (if decide (S id < SEM_MAX_NUM)%nat then CreateLock n (S id) else Idle (-1)) s.

(** [sys_sem_free], with the lock held *)
Definition free_body (j id : nat) (s : state) : option state :=
  x ← sems s !! id;
  unlock_sem j id (Idle 0)
    (if allocated x =? 1 then put_used (sem_used_count s - 1) (put_sem id (with_count 0 (with_allocated 0 x)) s) else s).

(** [sys_sem_p] and [sys_sem_v], with the lock held *)
Definition p_body (j id : nat) (s : state) : option state :=
  x ← sems s !! id;
  let n := s32 (resource_count x - 1) in
  Some (goto j (if n <? 0 then PUnlockSleep id else PUnlock id) (put_sem id (with_count n x) s)).
Definition v_body (j id : nat) (s : state) : option state :=
  x ← sems s !! id;
  let n := s32 (resource_count x + 1) in
  Some (goto j (if n <=? 0 then VLockProc id 0 else VUnlock id) (put_sem id (with_count n x) s)).

(** One round of [wakeup], with the lock of process [k] held *)
Definition wake_body (j id k : nat) (s : state) : option state :=
  q ← at_ s !! k;
  unlock_proc j k (if decide (S k < NPROC)%nat then VLockProc id (S k) else VUnlock id)
    (if decide (q = Asleep id) then goto k Woken s else s).

(** What process [j] does next. *)
Definition step (j : nat) (s : state) : option state :=
  p ← at_ s !! j;
  match p with
  | Idle _ | Asleep _ => None
  | CreateLock n id => lock_sem j id (CreateBody n id) s
  | CreateBody n id => create_body j n id s
  | FreeLock id => lock_sem j id (FreeBody id) s
  | FreeBody id => free_body j id s
  | PLockProc id => lock_proc j j (PLockSem id) s
  | PLockSem id => lock_sem j id (PBody id) s
  | PBody id => p_body j id s
  | PUnlockSleep id => unlock_sem j id (PSleep id) s
  | PSleep id => unlock_proc j j (Asleep id) s
  | Woken => lock_proc j j PEnd s
  | PUnlock id => unlock_sem j id PEnd s
  | PEnd => unlock_proc j j (Idle 0) s
  | VLock id => lock_sem j id (VBody id) s
  | VBody id => v_body j id s
  | VLockProc id k => lock_proc j k (VWake id k) s
  | VWake id k => wake_body j id k s
  | VUnlock id => unlock_sem j id (Idle 0) s
  end.

(** The calls, with the argument that [argint] fetched. *)
Inductive call := Create (n : Z) | Free (id : Z) | P (id : Z) | V (id : Z).
Definition enter (c : call) : pc :=
  let index id := if (id <? 0) || (Z.of_nat SEM_MAX_NUM <=? id) then None else Some (Z.to_nat id) in
  match c with
  | Create n => if n <=? 0 then Idle (-1) else CreateLock n 0
  | Free id => match index id with Some i => FreeLock i | None => Idle (-1) end
  | P id => match index id with Some i => PLockProc i | None => Idle (-1) end
  | V id => match index id with Some i => VLock i | None => Idle (-1) end
  end.

(** A call, a step of a process, or [kill] of one that sleeps. *)
Inductive event := Call (j : nat) (c : call) | Step (j : nat) | Kill (j : nat).
Definition do_event (e : event) (s : state) : option state :=
  match e with
  | Call j c => match at_ s !! j with Some (Idle _) => Some (goto j (enter c) s) | _ => None end
  | Step j => step j s
  | Kill j => match at_ s !! j, plock s !! j with Some (Asleep _), Some None => Some (goto j Woken s) | _, _ => None end
  end.
Fixpoint run (es : list event) (s : state) : option state :=
  match es with [] => Some s | e :: es => do_event e s ≫= run es end.

End Sem.
