(* ===== verification/Semspec.v ===== *)
(** Semaphores: a process never sleeps through the release it waits for; and the
    order in which [sys_sem_p] and [sys_sem_v] take locks lets them wait for each
    other for ever. *)

From S2P Require Import Prelude Sem.
Import Sem.

Module Semspec.

(** ** Runs *)

(** Waiting, or about to wait, for semaphore [id]. *)
Definition waits (id : nat) (p : pc) : bool :=
  match p with PUnlockSleep i | PSleep i | Asleep i => bool_decide (i = id) | _ => false end.
(** In a [wakeup] of [id] that has yet to look at process [j]. *)
Definition will_wake (id j : nat) (p : pc) : bool :=
  match p with VLockProc i k | VWake i k => bool_decide (i = id /\ (k <= j)%nat) | _ => false end.

(** Runs in which no semaphore is made or freed while a process waits for it, and
    no count gets to the end of its range. *)
Definition orderly (e : event) (s : state) : Prop :=
  (forall id x, sems s !! id = Some x -> - 2 ^ 31 < resource_count x < 2 ^ 31 - 1) /\
  forall j id, e = Step j -> (exists n, at_ s !! j = Some (CreateBody n id)) \/ at_ s !! j = Some (FreeBody id) -> forall i p, at_ s !! i = Some p -> waits id p = false.
Inductive reach : state -> Prop :=
| reach_boot : reach boot
| reach_event e s s' : reach s -> orderly e s -> do_event e s = Some s' -> reach s'.

(** ** The invariant *)

(** The locks that a process at [p] holds: its own, a semaphore's, another's. *)
Definition holds_self (p : pc) : bool := match p with PLockSem _ | PBody _ | PUnlockSleep _ | PSleep _ | PUnlock _ | PEnd => true | _ => false end.
Definition holds_sem (p : pc) : option nat :=
  match p with
  | CreateBody _ id | FreeBody id | PBody id | PUnlockSleep id | PUnlock id | VBody id | VLockProc id _ | VWake id _ | VUnlock id => Some id
  | _ => None
  end.
Definition holds_other (p : pc) : option nat := match p with VWake _ k => Some k | _ => None end.

Record inv (s : state) : Prop := {
  inv_self : forall j p, at_ s !! j = Some p -> holds_self p = true -> plock s !! j = Some (Some j);
  inv_sem : forall j p id, at_ s !! j = Some p -> holds_sem p = Some id -> exists x, sems s !! id = Some x /\ slock x = Some j;
  inv_other : forall j p k, at_ s !! j = Some p -> holds_other p = Some k -> plock s !! k = Some (Some j);
  inv_wake : forall j p id x, at_ s !! j = Some p -> waits id p = true -> sems s !! id = Some x ->
    resource_count x < 0 \/ exists i q, at_ s !! i = Some q /\ will_wake id j q = true }.

Lemma sem_boot_inv : inv boot.
Proof.
  assert (Hat : forall j p, at_ boot !! j = Some p -> p = Idle 0) by (intros j p [-> _]%lookup_replicate; done).
  split; intros j p; [intros Hp Hh|intros id Hp Hh|intros k Hp Hh|intros id x Hp Hh _]; by apply Hat in Hp as ->.
Qed.

(** ** Steps *)

Lemma goto_lookup s j p i q : at_ (goto j p s) !! i = Some q -> i = j /\ q = p \/ i <> j /\ at_ s !! i = Some q.
Proof. cbn. intros [(-> & -> & _)|[? ?]]%list_lookup_insert_Some; [by left|right; by split]. Qed.

Lemma holder_unique s i j p q id : inv s -> at_ s !! i = Some p -> at_ s !! j = Some q -> holds_sem p = Some id -> holds_sem q = Some id -> i = j.
Proof.
  intros HI Hp Hq Hhp Hhq. destruct (inv_sem _ HI i p id Hp Hhp) as (x & Hx & Hl). destruct (inv_sem _ HI j q id Hq Hhq) as (y & Hy & Hl'). simplify_eq. congruence.
Qed.

(** What stays when process [j] goes from [old] to [new] and only the semaphores
    change. *)
Record moved (old new : pc) : Prop := {
  mv_self : holds_self new = true -> holds_self old = true;
  mv_other : holds_other new = None;
  mv_waits : forall id, waits id new = true -> waits id old = true;
  mv_wake : forall id k, will_wake id k old = true -> will_wake id k new = true }.

Lemma keep_wake s s' j old new : inv s -> at_ s !! j = Some old -> at_ s' = <[j := new]> (at_ s) -> (forall id, waits id new = true -> waits id old = true) ->
  (forall id k, will_wake id k old = true -> will_wake id k new = true) -> (forall id x', sems s' !! id = Some x' -> exists x, sems s !! id = Some x /\ resource_count x' = resource_count x) ->
  forall i p id x, at_ s' !! i = Some p -> waits id p = true -> sems s' !! id = Some x -> resource_count x < 0 \/ exists k q, at_ s' !! k = Some q /\ will_wake id i q = true.
Proof.
  intros HI Hj Eat Hw Hk Hc i p id x Hp Hwp Hx. destruct (Hc _ _ Hx) as (y & Hy & ->). rewrite Eat in *.
  assert (Hold : exists p0, at_ s !! i = Some p0 /\ waits id p0 = true).
  { apply list_lookup_insert_Some in Hp as [(-> & -> & _)|[_ Hp]]; [exists old; split; [done|by apply Hw]|by exists p]. }
  destruct Hold as (p0 & Hp0 & Hw0). destruct (inv_wake _ HI i p0 id y Hp0 Hw0 Hy) as [?|(k & q & Hq & Hkq)]; [by left|right].
  destruct (decide (k = j)) as [->|Hne]; [|exists k, q; split; [by rewrite list_lookup_insert_ne|done]].
  simplify_eq. exists j, new. split; [apply list_lookup_insert_eq; by eapply lookup_lt_Some|by apply Hk].
Qed.

Lemma lock_sem_inv s s' j id old new : inv s -> at_ s !! j = Some old -> lock_sem j id new s = Some s' -> moved old new -> holds_sem new = Some id -> inv s'.
Proof.
  intros HI Hj Hs [M1 M2 M3 M4] Hn. unfold lock_sem in Hs. destruct (sems s !! id) as [x|] eqn:Hx; [|done]. cbn in Hs. destruct (slock x) eqn:Hl; [done|]. injection Hs as <-.
  assert (Hlen : (id < length (sems s))%nat) by (by eapply lookup_lt_Some). split.
  - intros i p [[-> ->]|[_ Hp]]%goto_lookup Hh; [apply (inv_self _ HI j old Hj), M1, Hh|by apply (inv_self _ HI i p)].
  - intros i p id' [[-> ->]|[Hne Hp]]%goto_lookup Hh.
    + rewrite Hn in Hh. injection Hh as <-. exists (with_slock (Some j) x). split; [by apply list_lookup_insert_eq|done].
    + destruct (inv_sem _ HI i p id' Hp Hh) as (y & Hy & Hly). exists y. split; [|done]. cbn. rewrite list_lookup_insert_ne; [done|]. intros ->. simplify_eq.
  - intros i p k [[-> ->]|[_ Hp]]%goto_lookup Hh; [by rewrite M2 in Hh|by apply (inv_other _ HI i p)].
  - eapply (keep_wake s _ j old new); [done|done|done|done|done|]. intros id' x' [(<- & <- & _)|[_ ?]]%list_lookup_insert_Some; [by exists x|by exists x'].
Qed.

Lemma unlock_sem_inv s s' j id old new : inv s -> at_ s !! j = Some old -> unlock_sem j id new s = Some s' -> moved old new -> holds_sem old = Some id -> holds_sem new = None -> inv s'.
Proof.
  intros HI Hj Hs [M1 M2 M3 M4] Ho Hn. unfold unlock_sem in Hs. destruct (sems s !! id) as [x|] eqn:Hx; [|done]. injection Hs as <-. split.
  - intros i p [[-> ->]|[_ Hp]]%goto_lookup Hh; [apply (inv_self _ HI j old Hj), M1, Hh|by apply (inv_self _ HI i p)].
  - intros i p id' [[-> ->]|[Hne Hp]]%goto_lookup Hh; [by rewrite Hn in Hh|]. destruct (inv_sem _ HI i p id' Hp Hh) as (y & Hy & Hly). exists y. split; [|done].
    cbn. rewrite list_lookup_insert_ne; [done|]. intros ->. by destruct Hne, (holder_unique s i j p old id' HI).
  - intros i p k [[-> ->]|[_ Hp]]%goto_lookup Hh; [by rewrite M2 in Hh|by apply (inv_other _ HI i p)].
  - eapply (keep_wake s _ j old new); [done|done|done|done|done|]. intros id' x' [(<- & <- & _)|[_ ?]]%list_lookup_insert_Some; [by exists x|by exists x'].
Qed.

Lemma lock_proc_inv s s' j i old new : inv s -> at_ s !! j = Some old -> lock_proc j i new s = Some s' -> holds_sem new = holds_sem old ->
  (holds_self new = true -> i = j) -> (forall k, holds_other new = Some k -> k = i) -> (forall id, waits id new = true -> waits id old = true) ->
  (forall id k, will_wake id k old = true -> will_wake id k new = true) -> inv s'.
Proof.
  intros HI Hj Hs M0 M1 M2 M3 M4. unfold lock_proc in Hs. destruct (plock s !! i) as [[?|]|] eqn:Hl; [done| |done]. injection Hs as <-.
  assert (Hlen : (i < length (plock s))%nat) by (by eapply lookup_lt_Some). split.
  - intros k p [[-> ->]|[Hne Hp]]%goto_lookup Hh; [rewrite (M1 Hh) in *; by apply list_lookup_insert_eq|].
    pose proof (inv_self _ HI k p Hp Hh) as H. cbn. rewrite list_lookup_insert_ne; [done|]. intros ->. simplify_eq.
  - intros k p id [[-> ->]|[Hne Hp]]%goto_lookup Hh; [rewrite M0 in Hh; by apply (inv_sem _ HI j old)|by apply (inv_sem _ HI k p)].
  - intros k p m [[-> ->]|[Hne Hp]]%goto_lookup Hh; [rewrite (M2 _ Hh); by apply list_lookup_insert_eq|].
    pose proof (inv_other _ HI k p m Hp Hh) as H. cbn. rewrite list_lookup_insert_ne; [done|]. intros ->. simplify_eq.
  - eapply (keep_wake s _ j old new); [done|done|done|done|done|]. intros id x ?. by exists x.
Qed.

(** [j] gives up its own lock. *)
Lemma unlock_self_inv s s' j old new : inv s -> at_ s !! j = Some old -> unlock_proc j j new s = Some s' -> moved old new -> holds_self old = true -> holds_self new = false ->
  holds_sem new = None -> inv s'.
Proof.
  intros HI Hj Hs [M1 M2 M3 M4] Ho Hn Hns. injection Hs as <-. pose proof (inv_self _ HI j old Hj Ho) as Hl. split.
  - intros k p [[-> ->]|[Hne Hp]]%goto_lookup Hh; [by rewrite Hn in Hh|]. cbn. rewrite list_lookup_insert_ne by done. by apply (inv_self _ HI k p).
  - intros k p id [[-> ->]|[Hne Hp]]%goto_lookup Hh; [by rewrite Hns in Hh|by apply (inv_sem _ HI k p)].
  - intros k p m [[-> ->]|[Hne Hp]]%goto_lookup Hh; [by rewrite M2 in Hh|]. pose proof (inv_other _ HI k p m Hp Hh) as H. cbn. rewrite list_lookup_insert_ne; [done|]. intros ->. simplify_eq.
  - eapply (keep_wake s _ j old new); [done|done|done|done|done|]. intros id x ?. by exists x.
Qed.

(** ** The bodies *)

(** The holder of the lock changes the semaphore, and keeps the lock or not. *)
Lemma body_inv s j id old new x x' u : inv s -> at_ s !! j = Some old -> sems s !! id = Some x -> holds_sem old = Some id ->
  (holds_self new = true -> holds_self old = true) -> holds_other new = None -> (forall id', holds_sem new = Some id' -> id' = id /\ slock x' = slock x) ->
  (forall id' k, will_wake id' k old = false) ->
  (forall id', id' <> id -> waits id' new = false) -> (waits id new = true -> resource_count x' < 0) ->
  ((exists i p, at_ s !! i = Some p /\ waits id p = true) -> resource_count x < 0 -> resource_count x' < 0 \/ forall k, will_wake id k new = true) ->
  inv (goto j new (put_sem id x' (mk_state (sems s) u (plock s) (at_ s)))).
Proof.
  intros HI Hj Hx Ho M1 M2 M3 Mw M4 M5 M6. assert (Hlen : (id < length (sems s))%nat) by (by eapply lookup_lt_Some). split.
  - intros i p [[-> ->]|[_ Hp]]%goto_lookup Hh; [apply (inv_self _ HI j old Hj), M1, Hh|by apply (inv_self _ HI i p)].
  - intros i p id' [[-> ->]|[Hne Hp]]%goto_lookup Hh.
    + destruct (M3 _ Hh) as [-> Hl]. destruct (inv_sem _ HI j old id Hj Ho) as (y & Hy & Hly). simplify_eq. exists x'. split; [by apply list_lookup_insert_eq|congruence].
    + destruct (inv_sem _ HI i p id' Hp Hh) as (y & Hy & Hly). exists y. split; [|done]. cbn. rewrite list_lookup_insert_ne; [done|]. intros ->. by destruct Hne, (holder_unique s i j p old id' HI).
  - intros i p k [[-> ->]|[_ Hp]]%goto_lookup Hh; [by rewrite M2 in Hh|by apply (inv_other _ HI i p)].
  - assert (Hkeep : forall i k id' q, at_ s !! i = Some q -> will_wake id' k q = true -> at_ (goto j new s) !! i = Some q).
    { intros i k id' q Hq Hw. cbn. rewrite list_lookup_insert_ne; [done|]. intros ->. simplify_eq. by rewrite Mw in Hw. }
    intros i p id' y Hp Hw Hy. cbn in Hy. destruct (decide (id' = id)) as [->|Hne].
    + rewrite list_lookup_insert_eq in Hy by done. injection Hy as <-. apply goto_lookup in Hp as [[-> ->]|[Hij Hp]]; [left; by apply M5|].
      destruct (inv_wake _ HI i p id x Hp Hw Hx) as [Hlt|(k & q & Hq & Hkq)].
      * destruct (M6 ltac:(by exists i, p) Hlt) as [?|Hall]; [by left|right]. exists j, new. split; [apply list_lookup_insert_eq; by eapply lookup_lt_Some|done].
      * exfalso. assert (Hs : holds_sem q = Some id) by (destruct q; cbn in Hkq |- *; try done; apply bool_decide_eq_true in Hkq as [-> _]; done).
        pose proof (holder_unique s k j q old id HI Hq Hj Hs Ho) as ->. simplify_eq. by rewrite Mw in Hkq.
    + rewrite list_lookup_insert_ne in Hy by done. apply goto_lookup in Hp as [[-> ->]|[Hij Hp]]; [by rewrite M4 in Hw|].
      destruct (inv_wake _ HI i p id' y Hp Hw Hy) as [?|(k & q & Hq & Hkq)]; [by left|right]. exists k, q. split; [by eapply Hkeep|done].
Qed.

Lemma goto_inv s j old new : inv s -> at_ s !! j = Some old -> (holds_self new = true -> holds_self old = true) -> (forall id, holds_sem new = Some id -> holds_sem old = Some id) ->
  (forall k, holds_other new = Some k -> holds_other old = Some k) -> (forall id, waits id new = true -> waits id old = true) ->
  (forall id k, will_wake id k old = true -> will_wake id k new = true) -> inv (goto j new s).
Proof.
  intros HI Hj M1 M2 M3 M4 M5. split.
  - intros i p [[-> ->]|[_ Hp]]%goto_lookup Hh; [apply (inv_self _ HI j old Hj), M1, Hh|by apply (inv_self _ HI i p)].
  - intros i p id [[-> ->]|[_ Hp]]%goto_lookup Hh; [apply (inv_sem _ HI j old id Hj), M2, Hh|by apply (inv_sem _ HI i p)].
  - intros i p k [[-> ->]|[_ Hp]]%goto_lookup Hh; [apply (inv_other _ HI j old k Hj), M3, Hh|by apply (inv_other _ HI i p)].
  - eapply (keep_wake s _ j old new); [done..|]. intros id x ?. by exists x.
Qed.

Lemma wakes_after id id' k k' i : will_wake id i (VWake id' k) = true -> i <> k -> (S k < NPROC)%nat -> k' = S k -> will_wake id i (VLockProc id' k') = true.
Proof. cbn. intros [-> ?]%bool_decide_eq_true ? _ ->. apply bool_decide_eq_true. split; [done|lia]. Qed.

(** One round of [wakeup]. *)
Lemma wake_inv s s' j id k : inv s -> length (at_ s) = NPROC -> at_ s !! j = Some (VWake id k) -> wake_body j id k s = Some s' -> inv s'.
Proof.
  intros HI Hlen Hj Hs. unfold wake_body in Hs. destruct (at_ s !! k) as [q|] eqn:Hq; [|done]. cbn in Hs. set (new := if decide (S k < NPROC)%nat then _ else _) in Hs.
  pose proof (inv_other _ HI j _ k Hj eq_refl) as Hl.
  assert (Hn : holds_self new = false /\ holds_sem new = Some id /\ holds_other new = None /\ forall i, waits i new = false) by (unfold new; by destruct (decide _)).
  destruct Hn as (N1 & N2 & N3 & N4).
  assert (Hk : k <> j -> holds_self q = false).
  { intros Hne. destruct (holds_self q) eqn:E; [|done]. pose proof (inv_self _ HI k q Hq E). simplify_eq. }
  set (s1 := if decide (q = Asleep id) then goto k Woken s else s) in Hs.
  assert (HI1 : inv s1).
  { unfold s1. destruct (decide (q = Asleep id)) as [->|]; [|done]. by apply (goto_inv s k (Asleep id) Woken). }
  assert (Hj1 : at_ s1 !! j = Some (VWake id k)).
  { unfold s1. destruct (decide (q = Asleep id)) as [->|]; [|done]. cbn. rewrite list_lookup_insert_ne; [done|]. intros ->. simplify_eq. }
  assert (Hk1 : forall p, at_ s1 !! k = Some p -> waits id p = false /\ holds_self p = false).
  { intros p Hp. unfold s1 in Hp. destruct (decide (q = Asleep id)) as [->|Hna].
    - cbn in Hp. rewrite list_lookup_insert_eq in Hp by (by eapply lookup_lt_Some). by injection Hp as <-.
    - rewrite Hq in Hp. injection Hp as <-. destruct (decide (k = j)) as [->|Hne]; [by simplify_eq|]. specialize (Hk Hne). split; [|done]. destruct q; try done. cbn. apply bool_decide_eq_false. by intros ->. }
  assert (El : plock s1 = plock s /\ sems s1 = sems s) by (unfold s1; destruct (decide (q = Asleep id)); split; reflexivity). destruct El as [El Es]. injection Hs as <-. split.
  - intros i p [[-> ->]|[Hne Hp]]%goto_lookup Hh; [by rewrite N1 in Hh|]. cbn. rewrite list_lookup_insert_ne; [by apply (inv_self _ HI1 i p)|]. intros <-. destruct (Hk1 p Hp). congruence.
  - intros i p id' [[-> ->]|[Hne Hp]]%goto_lookup Hh; [rewrite N2 in Hh; injection Hh as <-; by apply (inv_sem _ HI1 j _ id Hj1)|by apply (inv_sem _ HI1 i p)].
  - intros i p m [[-> ->]|[Hne Hp]]%goto_lookup Hh; [by rewrite N3 in Hh|]. pose proof (inv_other _ HI1 i p m Hp Hh) as H. cbn. rewrite list_lookup_insert_ne; [done|]. intros <-. rewrite El in H. simplify_eq.
  - intros i p id' x [[-> ->]|[Hne Hp]]%goto_lookup Hw Hx; [by rewrite N4 in Hw|]. destruct (inv_wake _ HI1 i p id' x Hp Hw Hx) as [?|(m & r & Hr & Hmr)]; [by left|right].
    destruct (decide (m = j)) as [->|Hmj]; [|exists m, r; split; [cbn; by rewrite list_lookup_insert_ne|done]]. simplify_eq. exists j, new.
    split; [apply list_lookup_insert_eq; by eapply lookup_lt_Some|]. assert (Hid : id' = id) by (cbn in Hmr; by apply bool_decide_eq_true in Hmr as [-> _]). subst id'.
    assert (Hik : i <> k) by (intros ->; by destruct (Hk1 p Hp) as [Hf _]; rewrite Hf in Hw). assert (Hi : (i < NPROC)%nat).
    { apply lookup_lt_Some in Hp. unfold s1 in Hp. destruct (decide (q = Asleep id)); cbn in Hp; rewrite ?length_insert in Hp; by rewrite Hlen in Hp. }
    assert (Hkn : (S k < NPROC)%nat) by (cbn in Hmr; apply bool_decide_eq_true in Hmr as [_ ?]; lia). unfold new. rewrite decide_True by done. by eapply wakes_after.
Qed.

Lemma p_body_inv s s' j id : inv s -> at_ s !! j = Some (PBody id) -> (forall x, sems s !! id = Some x -> - 2 ^ 31 < resource_count x < 2 ^ 31 - 1) -> p_body j id s = Some s' -> inv s'.
Proof.
  intros HI Hj Hr Hs. unfold p_body in Hs. destruct (sems s !! id) as [x|] eqn:Hx; [|done]. cbn in Hs. injection Hs as <-. specialize (Hr x eq_refl).
  rewrite s32_small by lia. apply (body_inv s j id (PBody id) _ x _ (sem_used_count s)); try done; destruct (Z.ltb_spec (resource_count x - 1) 0); try done.
  - intros id' [= ->]. done.
  - intros id' [= ->]. done.
  - intros id' Hne. cbn. by apply bool_decide_eq_false.
  - intros _ _. by left.
  - intros _ Hlt. lia.
Qed.

Lemma v_body_inv s s' j id : inv s -> at_ s !! j = Some (VBody id) -> (forall x, sems s !! id = Some x -> - 2 ^ 31 < resource_count x < 2 ^ 31 - 1) -> v_body j id s = Some s' -> inv s'.
Proof.
  intros HI Hj Hr Hs. unfold v_body in Hs. destruct (sems s !! id) as [x|] eqn:Hx; [|done]. cbn in Hs. injection Hs as <-. specialize (Hr x eq_refl).
  rewrite s32_small by lia. apply (body_inv s j id (VBody id) _ x _ (sem_used_count s)); try done; destruct (Z.leb_spec (resource_count x + 1) 0); try done.
  - intros id' [= ->]. done.
  - intros id' [= ->]. done.
  - intros _ _. right. intros k. cbn. apply bool_decide_eq_true. split; [done|lia].
  - intros _ Hlt. lia.
Qed.

Definition unawaited (s : state) (id : nat) : Prop := forall i p, at_ s !! i = Some p -> waits id p = false.

Lemma create_body_inv s s' j n id : inv s -> at_ s !! j = Some (CreateBody n id) -> unawaited s id -> create_body j n id s = Some s' -> inv s'.
Proof.
  intros HI Hj Hu Hs. unfold create_body in Hs. destruct (sems s !! id) as [x|] eqn:Hx; [|done]. cbn in Hs. destruct (allocated x =? 0).
  - unfold unlock_sem in Hs. cbn in Hs. rewrite list_lookup_insert_eq in Hs by (by eapply lookup_lt_Some). cbn in Hs. injection Hs as <-.
    unfold put_sem, goto, put_used. cbn. rewrite list_insert_insert_eq. eapply (body_inv s j id (CreateBody n id)); try done.
    intros (i & p & Hp & Hw). by rewrite (Hu i p Hp) in Hw.
  - eapply unlock_sem_inv; [done|done|exact Hs| |done|by destruct (decide _)]. split; by destruct (decide _).
Qed.

Lemma free_body_inv s s' j id : inv s -> at_ s !! j = Some (FreeBody id) -> unawaited s id -> free_body j id s = Some s' -> inv s'.
Proof.
  intros HI Hj Hu Hs. unfold free_body in Hs. destruct (sems s !! id) as [x|] eqn:Hx; [|done]. cbn in Hs. destruct (allocated x =? 1).
  - unfold unlock_sem in Hs. cbn in Hs. rewrite list_lookup_insert_eq in Hs by (by eapply lookup_lt_Some). cbn in Hs. injection Hs as <-.
    unfold put_sem, goto, put_used. cbn. rewrite list_insert_insert_eq. eapply (body_inv s j id (FreeBody id)); try done.
    intros (i & p & Hp & Hw). by rewrite (Hu i p Hp) in Hw.
  - by eapply unlock_sem_inv.
Qed.

Lemma step_inv s s' j : inv s -> length (at_ s) = NPROC -> orderly (Step j) s -> step j s = Some s' -> inv s'.
Proof.
  intros HI Hlen [Hr Ho] Hs. unfold step in Hs. destruct (at_ s !! j) as [p|] eqn:Hj; [|done]. cbn in Hs.
  destruct p; try done;
    try (eapply lock_sem_inv; [done|done|exact Hs|by split|done]);
    try (eapply unlock_sem_inv; [done|done|exact Hs|by split|done|done]);
    try (eapply unlock_self_inv; [done|done|exact Hs|by split|done|done|done]).
  - apply (create_body_inv s s' j n id HI Hj (Ho j id eq_refl (or_introl (ex_intro _ n Hj))) Hs).
  - apply (free_body_inv s s' j id HI Hj (Ho j id eq_refl (or_intror Hj)) Hs).
  - by eapply lock_proc_inv.
  - eapply p_body_inv; [done|done|by intros x; apply Hr|done].
  - by eapply lock_proc_inv.
  - eapply v_body_inv; [done|done|by intros x; apply Hr|done].
  - eapply lock_proc_inv; [done|done|exact Hs|done|done|by intros m [= ->]|done|done].
  - by eapply wake_inv.
Qed.

Lemma event_length e s s' : do_event e s = Some s' -> length (at_ s') = length (at_ s).
Proof.
  destruct e as [j c|j|j]; cbn.
  - destruct (at_ s !! j) as [[]|]; try done. intros [= <-]. apply length_insert.
  - unfold step. destruct (at_ s !! j) as [p|]; [|done]. cbn.
    destruct p; unfold lock_sem, unlock_sem, lock_proc, unlock_proc, create_body, free_body, p_body, v_body, wake_body; intros Hs; repeat (apply bind_Some in Hs as (? & ? & Hs) || case_match || simplify_eq/=);
      unfold unlock_sem, unlock_proc in *; simplify_eq/=; rewrite ?length_insert; done.
  - destruct (at_ s !! j) as [[]|]; try done. destruct (plock s !! j) as [[]|]; try done. intros [= <-]. apply length_insert.
Qed.

Lemma event_inv e s s' : inv s -> length (at_ s) = NPROC -> orderly e s -> do_event e s = Some s' -> inv s'.
Proof.
  intros HI Hlen Ho Hs. destruct e as [j c|j|j]; cbn in Hs; [|by eapply step_inv|].
  - destruct (at_ s !! j) as [p|] eqn:Hj; [|done]. destruct p; try done. injection Hs as <-.
    apply (goto_inv s j (Idle r)); try done; destruct c; cbn; repeat case_match; try done.
  - destruct (at_ s !! j) as [p|] eqn:Hj; [|done]. destruct p; try done. destruct (plock s !! j) as [[]|]; try done. injection Hs as <-. by apply (goto_inv s j (Asleep id)).
Qed.

Lemma reach_inv s : reach s -> inv s /\ length (at_ s) = NPROC.
Proof.
  induction 1 as [|e s s' _ [IH Hl] Ho Hs]; [split; [apply sem_boot_inv|apply length_replicate]|]. split; [by eapply event_inv|]. by rewrite (event_length _ _ _ Hs).
Qed.

(** ** Results *)

(** C26: no release of a semaphore is lost. However the calls of the processes
    interleave, a process sleeps in [sys_sem_p] only while the count is below 0, or
    while a [sys_sem_v] is on its way to wake it: [sys_sem_p] holds the lock of the
    process from before the count falls until the process sleeps. *)
Theorem sem_no_lost_wakeup s j id x : reach s -> at_ s !! j = Some (Asleep id) -> sems s !! id = Some x ->
  resource_count x < 0 \/ exists i k, (k <= j)%nat /\ (at_ s !! i = Some (VLockProc id k) \/ at_ s !! i = Some (VWake id k)).
Proof.
  intros [HI _]%reach_inv Hj Hx. destruct (inv_wake _ HI j _ id x Hj) as [?|(i & q & Hq & Hw)]; [by apply bool_decide_eq_true|done|by left|right].
  exists i. destruct q; try done; cbn in Hw; apply bool_decide_eq_true in Hw as [-> ?]; exists k; split; [done|by left|done|by right].
Qed.

(** ** Executions *)

Definition orderlyb (e : event) (s : state) : bool :=
  forallb (fun x => (- 2 ^ 31 <? resource_count x) && (resource_count x <? 2 ^ 31 - 1)) (sems s) &&
  match e with
  | Step j => match at_ s !! j with Some (CreateBody _ id) | Some (FreeBody id) => forallb (fun p => negb (waits id p)) (at_ s) | _ => true end
  | _ => true
  end.

Lemma orderlyb_spec e s : orderlyb e s = true -> orderly e s.
Proof.
  intros [H1 H2]%andb_true_iff. rewrite forallb_forall in H1. split.
  - intros id x Hx. assert (Hb := H1 x). apply andb_true_iff in Hb as [? ?]; [lia|]. apply list_elem_of_In. by eapply list_elem_of_lookup_2.
  - intros j id -> Hp i p Hi.
    assert (Hf : forallb (fun p => negb (waits id p)) (at_ s) = true) by (destruct Hp as [[n Hp]|Hp]; by rewrite Hp in H2). rewrite forallb_forall in Hf.
    apply negb_true_iff, Hf, list_elem_of_In. by eapply list_elem_of_lookup_2.
Qed.

Fixpoint orderly_run (es : list event) (s : state) : option state :=
  match es with [] => Some s | e :: es => if orderlyb e s then do_event e s ≫= orderly_run es else None end.
Lemma orderly_run_reach es : forall s s', reach s -> orderly_run es s = Some s' -> reach s'.
Proof.
  induction es as [|e es IH]; intros s s' Hs; cbn; [by intros [= <-]|]. destruct (orderlyb e s) eqn:Ho; [|done]. intros (s1 & H1 & H2)%bind_Some.
  apply (IH s1); [|done]. eapply reach_event; [done|by apply orderlyb_spec|done].
Qed.

Definition steps (j n : nat) : list event := replicate n (Step j).
(** Process 0 makes a mutex and takes it; process 1 waits for it. *)
Definition contended : list event := Call 0 (Create 1) :: steps 0 2 ++ Call 0 (P 0) :: steps 0 5 ++ Call 1 (P 0) :: steps 1 5.
Definition after (es : list event) : state := default boot (orderly_run es boot).

Lemma contended_reach : reach (after contended).
Proof.
  apply (orderly_run_reach contended boot); [constructor|]. unfold after. assert (H : is_Some (orderly_run contended boot)) by (vm_compute; by eexists). by destruct H as [s ->].
Qed.

Lemma sem_no_lost_wakeup_witness : exists x, at_ (after contended) !! 1%nat = Some (Asleep 0) /\ sems (after contended) !! 0%nat = Some x /\
  (resource_count x < 0 \/ exists i k, (k <= 1)%nat /\ (at_ (after contended) !! i = Some (VLockProc 0 k) \/ at_ (after contended) !! i = Some (VWake 0 k))).
Proof.
  exists (mk_sem None (-1) 1). split; [vm_compute; reflexivity|]. split; [vm_compute; reflexivity|].
  apply (sem_no_lost_wakeup (after contended) 1 0); [apply contended_reach|vm_compute; reflexivity|vm_compute; reflexivity].
Defined.

(** ** The order of locks *)

(** A step of process [i] changes nothing that a lock of another process protects. *)
Record framed (i : nat) (s s' : state) : Prop := {
  fr_at : forall m q, m <> i -> at_ s !! m = Some q -> (forall id, q <> Asleep id) -> at_ s' !! m = Some q;
  fr_sem : forall id x m, m <> i -> sems s !! id = Some x -> slock x = Some m -> sems s' !! id = Some x;
  fr_plock : forall k m, m <> i -> plock s !! k = Some (Some m) -> plock s' !! k = Some (Some m) }.

Lemma framed_goto i p s : framed i s (goto i p s).
Proof. split; [|done|done]. intros m q Hm Hq _. cbn. by rewrite list_lookup_insert_ne. Qed.
Lemma framed_trans i s1 s2 s3 : framed i s1 s2 -> framed i s2 s3 -> framed i s1 s3.
Proof.
  intros [A1 B1 C1] [A2 B2 C2]. split; [|naive_solver..]. intros m q Hm Hq Hn. apply A2; [done|by apply A1|done].
Qed.
Lemma framed_sem i id x x' s : sems s !! id = Some x -> slock x = None \/ slock x = Some i -> framed i s (put_sem id x' s).
Proof. intros Hx Hl. split; [done| |done]. intros id' y m Hm Hy Hly. cbn. rewrite list_lookup_insert_ne; [done|]. intros ->. simplify_eq. destruct Hl; congruence. Qed.
Lemma framed_plock i k l s : plock s !! k = Some None \/ plock s !! k = Some (Some i) -> framed i s (put_plock k l s).
Proof. intros Hl. split; [done|done|]. intros k' m Hm Hk. cbn. rewrite list_lookup_insert_ne; [done|]. intros ->. destruct Hl; congruence. Qed.
Lemma framed_used i n s : framed i s (put_used n s).
Proof. by split. Qed.

Lemma lock_sem_framed i id p s s' : lock_sem i id p s = Some s' -> framed i s s'.
Proof.
  intros (x & Hx & Hs)%bind_Some. destruct (slock x) eqn:Hl; [done|]. injection Hs as <-. eapply framed_trans; [eapply framed_sem; [done|by left]|apply framed_goto].
Qed.
Lemma unlock_sem_framed i id p q s s' : inv s -> at_ s !! i = Some q -> holds_sem q = Some id -> unlock_sem i id p s = Some s' -> framed i s s'.
Proof.
  intros HI Hq Hh (x & Hx & [= <-])%bind_Some. destruct (inv_sem _ HI i q id Hq Hh) as (y & Hy & Hl). simplify_eq.
  eapply framed_trans; [eapply framed_sem; [done|by right]|apply framed_goto].
Qed.
Lemma lock_proc_framed i k p s s' : lock_proc i k p s = Some s' -> framed i s s'.
Proof.
  intros (l & Hl & Hs)%bind_Some. destruct l; [done|]. injection Hs as <-. eapply framed_trans; [eapply framed_plock; by left|apply framed_goto].
Qed.
Lemma unlock_proc_framed i k p s s' : plock s !! k = Some (Some i) -> unlock_proc i k p s = Some s' -> framed i s s'.
Proof. intros Hl [= <-]. eapply framed_trans; [eapply framed_plock; by right|apply framed_goto]. Qed.

Lemma body_framed i id q x x' u p s : inv s -> at_ s !! i = Some q -> holds_sem q = Some id -> sems s !! id = Some x ->
  framed i s (goto i p (put_sem id x' (put_used u s))).
Proof.
  intros HI Hq Hh Hx. destruct (inv_sem _ HI i q id Hq Hh) as (y & Hy & Hl). simplify_eq.
  eapply framed_trans; [apply framed_used|]. eapply framed_trans; [eapply (framed_sem i id x); [done|by right]|apply framed_goto].
Qed.

Lemma step_framed i s s' : inv s -> step i s = Some s' -> framed i s s'.
Proof.
  intros HI (p & Hp & Hs)%bind_Some. destruct p; try done; try (by eapply lock_sem_framed); try (by eapply unlock_sem_framed); try (by eapply lock_proc_framed);
    try (by eapply unlock_proc_framed; [apply (inv_self _ HI i _ Hp eq_refl)|exact Hs]).
  - apply bind_Some in Hs as (x & Hx & Hs). destruct (allocated x =? 0); [|by eapply unlock_sem_framed]. apply bind_Some in Hs as (y & Hy & [= <-]).
    unfold put_sem, put_used, goto. cbn. rewrite list_insert_insert_eq. by apply (body_framed i id (CreateBody n id) x _ (sem_used_count s + 1)).
  - apply bind_Some in Hs as (x & Hx & Hs). destruct (allocated x =? 1); [|by eapply unlock_sem_framed]. apply bind_Some in Hs as (y & Hy & [= <-]).
    unfold put_sem, put_used, goto. cbn. rewrite list_insert_insert_eq. by apply (body_framed i id (FreeBody id) x _ (sem_used_count s - 1)).
  - apply bind_Some in Hs as (x & Hx & [= <-]). by apply (body_framed i id (PBody id) x _ (sem_used_count s)).
  - apply bind_Some in Hs as (x & Hx & [= <-]). by apply (body_framed i id (VBody id) x _ (sem_used_count s)).
  - apply bind_Some in Hs as (q & Hq & Hs). pose proof (inv_other _ HI i _ k Hp eq_refl) as Hl. destruct (decide (q = Asleep id)) as [->|]; [|by eapply unlock_proc_framed].
    apply (framed_trans i s (goto k Woken s)); [|by eapply unlock_proc_framed]. split; [|done|done]. intros m r Hm Hr Hn. cbn. rewrite list_lookup_insert_ne; [done|]. intros ->. simplify_eq. by destruct (Hn id).
Qed.

(** Process [a] in [sys_sem_v] and process [c] in [sys_sem_p] wait for each other. *)
Record crossed (a c id : nat) (s : state) : Prop := {
  cr_ne : a <> c;
  cr_v : at_ s !! a = Some (VLockProc id c);
  cr_p : at_ s !! c = Some (PLockSem id) }.

Lemma crossed_event a c id e s s' : inv s -> crossed a c id s -> do_event e s = Some s' -> crossed a c id s'.
Proof.
  intros HI [Hne Hv Hp] Hs. destruct (inv_sem _ HI a _ id Hv eq_refl) as (x & Hx & Hl). pose proof (inv_self _ HI c _ Hp eq_refl) as Hc.
  destruct e as [j k|j|j]; cbn in Hs.
  - destruct (at_ s !! j) as [[]|] eqn:Hj; try done. injection Hs as <-. split; [done|..]; cbn; (rewrite list_lookup_insert_ne; [done|]); intros ->; simplify_eq.
  - assert (Hja : j <> a) by (intros ->; unfold step in Hs; rewrite Hv in Hs; cbn in Hs; unfold lock_proc in Hs; by rewrite Hc in Hs).
    assert (Hjc : j <> c) by (intros ->; unfold step in Hs; rewrite Hp in Hs; cbn in Hs; unfold lock_sem in Hs; rewrite Hx in Hs; cbn in Hs; by rewrite Hl in Hs).
    destruct (step_framed j s s' HI Hs) as [Fa _ _]. split; [done|by apply Fa|by apply Fa].
  - destruct (at_ s !! j) as [[]|] eqn:Hj; try done. destruct (plock s !! j) as [[]|]; try done. injection Hs as <-.
    split; [done|..]; cbn; (rewrite list_lookup_insert_ne; [done|]); intros ->; simplify_eq.
Qed.

Inductive later : state -> state -> Prop :=
| later_refl s : later s s
| later_event e s s1 s2 : orderly e s -> do_event e s = Some s1 -> later s1 s2 -> later s s2.

Lemma crossed_later a c id s s' : reach s -> crossed a c id s -> later s s' -> crossed a c id s'.
Proof.
  intros Hr Hc Hl. induction Hl as [|e s s1 s2 Ho Hs _ IH]; [done|]. apply IH; [by eapply reach_event|]. eapply crossed_event; [by apply reach_inv|done|done].
Qed.

(** While process 2 enters [sys_sem_p], process 0 leaves. *)
Definition collision : list event := contended ++ Call 2 (P 0) :: steps 2 1 ++ Call 0 (V 0) :: steps 0 6.

(** [sys_sem_p] takes the process's lock and then the semaphore's; [sys_sem_v]
    takes the semaphore's and then, in [wakeup], each process's. With three
    processes and one semaphore they can come to wait for each other, and then do so
    for ever, whatever the others do. *)
Theorem sem_deadlock : exists s, reach s /\ forall s', later s s' -> at_ s' !! 0%nat = Some (VLockProc 0 2) /\ at_ s' !! 2%nat = Some (PLockSem 0) /\ step 0 s' = None /\ step 2 s' = None.
Proof.
  assert (Hr : reach (after collision)).
  { apply (orderly_run_reach collision boot); [constructor|]. unfold after. assert (H : is_Some (orderly_run collision boot)) by (vm_compute; by eexists). by destruct H as [s ->]. }
  exists (after collision). split; [done|]. intros s' Hl. assert (Hr' : reach s') by (clear -Hr Hl; induction Hl as [|e s s1 s2 Ho Hs _ IH]; [done|apply IH; by eapply reach_event]).
  destruct (crossed_later 0 2 0 (after collision) s' Hr ltac:(split; [done|vm_compute; reflexivity|vm_compute; reflexivity]) Hl) as [_ Hv Hp]. destruct (reach_inv s' Hr') as [HI _].
  destruct (inv_sem _ HI 0%nat _ 0%nat Hv eq_refl) as (x & Hx & Hlx). pose proof (inv_self _ HI 2%nat _ Hp eq_refl) as Hc. split; [done|]. split; [done|].
  unfold step. rewrite Hv, Hp. cbn. unfold lock_proc, lock_sem. rewrite Hc, Hx. cbn. by rewrite Hlx.
Qed.

End Semspec.
