(* ===== verification/Virtio.v ===== *)
(** The disk driver, [src/kernel/driver/virtio_disk.c].

    The driver and the device share descriptors, two rings, and memory. Processes
    in [virtio_disk_rw], the device and the interrupt handler interleave; a step
    of a process is what it does while it holds [vdisk_lock], up to the next
    [sleep] or to its return. The handler takes two: its loop, and the acknowledgement
    of the interrupt, with steps of the device possible between them; a chain that the
    device returns while the loop runs is as one that it returned before. An address that the driver gives to the device is
    that of a header on the stack of a process, of the data of a buffer, or of a
    status byte. *)

From S2P Require Import Prelude Mem.

Module Virtio.

Definition NUM : nat := 8.
Definition BSIZE : Z := 1024.
Definition VRING_DESC_F_NEXT : Z := 1.
Definition VRING_DESC_F_WRITE : Z := 2.
Definition VIRTIO_BLK_T_IN : Z := 0.
Definition VIRTIO_BLK_T_OUT : Z := 1.

Inductive addr := Anull | Ahdr (p : nat) | Adata (b : nat) | Astatus (i : Z).
Record VRingDesc := mk_desc { d_addr : addr; d_len : Z; d_flags : Z; d_next : Z }.
Record VRingUsedElem := mk_elem { e_id : Z; e_len : Z }.
Record virtio_blk_outhdr := mk_hdr { h_type : Z; h_reserved : Z; h_sector : Z }.
Record dinfo := mk_info { i_b : option nat; i_status : Z }.
(** What the driver uses of [struct buf]; [b_data] by byte offset *)
Record dbuf := mk_dbuf { b_blockno : Z; b_disk : Z; b_data : mem }.

(** Where a process is: outside; asleep on [disk.free] or on the buffer, or woken. *)
Inductive where_ :=
| Out
| WaitFree (b : nat) (w : bool) | ReadyFree (b : nat) (w : bool)
| WaitBuf (b : nat) (w : bool) (i0 i1 i2 : Z) | ReadyBuf (b : nat) (w : bool) (i0 i1 i2 : Z).

(** [dk] is the medium, by byte; [dv_last] is how far the device has read [avail],
    [dv_open] the chains it has read and not yet returned. [notified]: the device has been
    told to look at [avail]; [isr] is its register INTERRUPT_STATUS. [acking]: the
    interrupt handler has left its loop, and still holds [vdisk_lock]. *)
Record vst := mk_vst {
  desc : list VRingDesc;
  avail_idx : Z;
  avail : list Z;
  used_id : Z;
  elems : list VRingUsedElem;
  dfree : list Z;
  used_idx : Z;
  dinfos : list dinfo;
  dbufs : list dbuf;
  hdrs : list virtio_blk_outhdr;
  procs : list where_;
  dk : Z -> Z;
  dv_last : Z;
  dv_open : list Z;
  notified : bool;
  isr : Z;
  acking : bool }.

Definition set_desc x s := mk_vst x (avail_idx s) (avail s) (used_id s) (elems s) (dfree s) (used_idx s) (dinfos s) (dbufs s) (hdrs s) (procs s) (dk s) (dv_last s) (dv_open s) (notified s) (isr s) (acking s).
Definition set_avail_idx x s := mk_vst (desc s) x (avail s) (used_id s) (elems s) (dfree s) (used_idx s) (dinfos s) (dbufs s) (hdrs s) (procs s) (dk s) (dv_last s) (dv_open s) (notified s) (isr s) (acking s).
Definition set_avail x s := mk_vst (desc s) (avail_idx s) x (used_id s) (elems s) (dfree s) (used_idx s) (dinfos s) (dbufs s) (hdrs s) (procs s) (dk s) (dv_last s) (dv_open s) (notified s) (isr s) (acking s).
Definition set_used i x s := mk_vst (desc s) (avail_idx s) (avail s) i x (dfree s) (used_idx s) (dinfos s) (dbufs s) (hdrs s) (procs s) (dk s) (dv_last s) (dv_open s) (notified s) (isr s) (acking s).
Definition set_dfree x s := mk_vst (desc s) (avail_idx s) (avail s) (used_id s) (elems s) x (used_idx s) (dinfos s) (dbufs s) (hdrs s) (procs s) (dk s) (dv_last s) (dv_open s) (notified s) (isr s) (acking s).
Definition set_used_idx x s := mk_vst (desc s) (avail_idx s) (avail s) (used_id s) (elems s) (dfree s) x (dinfos s) (dbufs s) (hdrs s) (procs s) (dk s) (dv_last s) (dv_open s) (notified s) (isr s) (acking s).
Definition set_dinfos x s := mk_vst (desc s) (avail_idx s) (avail s) (used_id s) (elems s) (dfree s) (used_idx s) x (dbufs s) (hdrs s) (procs s) (dk s) (dv_last s) (dv_open s) (notified s) (isr s) (acking s).
Definition set_dbufs x s := mk_vst (desc s) (avail_idx s) (avail s) (used_id s) (elems s) (dfree s) (used_idx s) (dinfos s) x (hdrs s) (procs s) (dk s) (dv_last s) (dv_open s) (notified s) (isr s) (acking s).
Definition set_hdrs x s := mk_vst (desc s) (avail_idx s) (avail s) (used_id s) (elems s) (dfree s) (used_idx s) (dinfos s) (dbufs s) x (procs s) (dk s) (dv_last s) (dv_open s) (notified s) (isr s) (acking s).
Definition set_procs x s := mk_vst (desc s) (avail_idx s) (avail s) (used_id s) (elems s) (dfree s) (used_idx s) (dinfos s) (dbufs s) (hdrs s) x (dk s) (dv_last s) (dv_open s) (notified s) (isr s) (acking s).
Definition set_dev k l o s := mk_vst (desc s) (avail_idx s) (avail s) (used_id s) (elems s) (dfree s) (used_idx s) (dinfos s) (dbufs s) (hdrs s) (procs s) k l o (notified s) (isr s) (acking s).
Definition set_notified x s := mk_vst (desc s) (avail_idx s) (avail s) (used_id s) (elems s) (dfree s) (used_idx s) (dinfos s) (dbufs s) (hdrs s) (procs s) (dk s) (dv_last s) (dv_open s) x (isr s) (acking s).
Definition set_isr x s := mk_vst (desc s) (avail_idx s) (avail s) (used_id s) (elems s) (dfree s) (used_idx s) (dinfos s) (dbufs s) (hdrs s) (procs s) (dk s) (dv_last s) (dv_open s) (notified s) x (acking s).
Definition set_acking x s := mk_vst (desc s) (avail_idx s) (avail s) (used_id s) (elems s) (dfree s) (used_idx s) (dinfos s) (dbufs s) (hdrs s) (procs s) (dk s) (dv_last s) (dv_open s) (notified s) (isr s) x.

(** [disk.free[i]], [disk.desc[i]], [disk.info[i]] and the fields of [b] *)
Definition get_free (i : Z) : M vst Z := let* l := gets dfree in deref (aget l i).
Definition set_free (i v : Z) : M vst unit := let* _ := get_free i in modify (fun s => set_dfree (aset (dfree s) i v) s).
Definition get_desc (i : Z) : M vst VRingDesc := let* l := gets desc in deref (aget l i).
Definition put_desc (i : Z) (x : VRingDesc) : M vst unit := let* _ := get_desc i in modify (fun s => set_desc (aset (desc s) i x) s).
Definition get_info (i : Z) : M vst dinfo := let* l := gets dinfos in deref (aget l i).
Definition put_info (i : Z) (x : dinfo) : M vst unit := let* _ := get_info i in modify (fun s => set_dinfos (aset (dinfos s) i x) s).
Definition get_buf (b : nat) : M vst dbuf := let* l := gets dbufs in deref (l !! b).
Definition put_buf (b : nat) (x : dbuf) : M vst unit := let* _ := get_buf b in modify (fun s => set_dbufs (<[b := x]> (dbufs s)) s).
Definition put_proc (p : nat) (x : where_) : M vst unit := modify (fun s => set_procs (<[p := x]> (procs s)) s).

Definition with_addr a x := mk_desc a (d_len x) (d_flags x) (d_next x).
Definition with_disk v x := mk_dbuf (b_blockno x) v (b_data x).
Definition with_data d x := mk_dbuf (b_blockno x) (b_disk x) d.
Definition with_b b x := mk_info b (i_status x).
Definition with_status v x := mk_info (i_b x) v.

(** [wakeup] of [&disk.free[0]], and of a buffer *)
Definition wake_free : M vst unit :=
  modify (fun s => set_procs ((fun x => match x with WaitFree b w => ReadyFree b w | _ => x end) <$> procs s) s).
Definition wake_buf (b : nat) : M vst unit :=
  modify (fun s => set_procs ((fun x => match x with WaitBuf c w i j k => if decide (c = b) then ReadyBuf c w i j k else x | _ => x end) <$> procs s) s).

(** ** Descriptors *)

Fixpoint alloc_desc_loop (n : nat) (i : Z) : M vst Z :=
  match n with
  | O => ret (-1)
  | S n => let* f := get_free i in if negb (f =? 0) then set_free i 0 ;;; ret i else alloc_desc_loop n (i + 1)
  end.
Definition alloc_desc : M vst Z := alloc_desc_loop NUM 0.

Definition free_desc (i : Z) : M vst unit :=
  if Z.of_nat NUM <=? i then panic "virtio_disk_intr 1"
  else
    let* f := get_free i in
    if negb (f =? 0) then panic "virtio_disk_intr 2"
    else
      let* d := get_desc i in
      put_desc i (with_addr Anull d) ;;;
      set_free i 1 ;;;
      wake_free.

(** No chain is longer than the table. *)
Fixpoint free_chain_loop (fuel : nat) (i : Z) : M vst unit :=
  match fuel with
  | O => nofuel
  | S fuel =>
      free_desc i ;;;
      let* d := get_desc i in
      if negb (Z.land (d_flags d) VRING_DESC_F_NEXT =? 0) then free_chain_loop fuel (d_next d) else ret tt
  end.
Definition free_chain : Z -> M vst unit := free_chain_loop (S NUM).

Definition alloc3_desc : M vst (option (Z * Z * Z)) :=
  let* i0 := alloc_desc in
  if i0 <? 0 then ret None
  else
    let* i1 := alloc_desc in
    if i1 <? 0 then free_desc i0 ;;; ret None
    else
      let* i2 := alloc_desc in
      if i2 <? 0 then free_desc i0 ;;; free_desc i1 ;;; ret None
      else ret (Some (i0, i1, i2)).

(** ** [virtio_disk_rw] *)

(** The end: the descriptors are given back. *)
Definition rw_finish (p : nat) (i0 : Z) : M vst unit :=
  let* x := get_info i0 in
  put_info i0 (with_b None x) ;;;
  free_chain i0 ;;;
  put_proc p Out.

(** [while(b->disk == 1) sleep(b, ...)] *)
Definition rw_wait (p b : nat) (w : bool) (i0 i1 i2 : Z) : M vst unit :=
  let* x := get_buf b in
  if b_disk x =? 1 then put_proc p (WaitBuf b w i0 i1 i2) else rw_finish p i0.

(** A write to QUEUE_NOTIFY *)
Definition queue_notify : M vst unit := modify (set_notified true).

(** The three descriptors are filled in and offered to the device. *)
Definition rw_submit (p b : nat) (w : bool) (i0 i1 i2 : Z) : M vst unit :=
  let* x := get_buf b in
  let sector := u32 (b_blockno x * (BSIZE / 512)) in
  modify (fun s => set_hdrs (<[p := mk_hdr (if w then VIRTIO_BLK_T_OUT else VIRTIO_BLK_T_IN) 0 sector]> (hdrs s)) s) ;;;
  put_desc i0 (mk_desc (Ahdr p) 16 VRING_DESC_F_NEXT i1) ;;;
  put_desc i1 (mk_desc (Adata b) BSIZE (Z.lor (if w then 0 else VRING_DESC_F_WRITE) VRING_DESC_F_NEXT) i2) ;;;
  let* y := get_info i0 in
  put_info i0 (with_status 0 y) ;;;
  put_desc i2 (mk_desc (Astatus i0) 1 VRING_DESC_F_WRITE 0) ;;;
  put_buf b (with_disk 1 x) ;;;
  let* y := get_info i0 in
  put_info i0 (with_b (Some b) y) ;;;
  modify (fun s => set_avail (aset (avail s) (avail_idx s mod Z.of_nat NUM) i0) s) ;;;
  modify (fun s => set_avail_idx (u16 (avail_idx s + 1)) s) ;;;
  queue_notify ;;;
  rw_wait p b w i0 i1 i2.

Definition rw_alloc (p b : nat) (w : bool) : M vst unit :=
  let* r := alloc3_desc in
  match r with
  | Some (i0, i1, i2) => rw_submit p b w i0 i1 i2
  | None => put_proc p (WaitFree b w)
  end.

(** ** [virtio_disk_intr] *)

Fixpoint intr_loop (fuel : nat) : M vst unit :=
  match fuel with
  | O => nofuel
  | S fuel =>
      let* ui := gets used_idx in
      let* id := gets used_id in
      if ui mod Z.of_nat NUM =? id mod Z.of_nat NUM then ret tt
      else
        let* es := gets elems in
        let* e := deref (aget es ui) in
        let* x := get_info (e_id e) in
        if negb (i_status x =? 0) then panic "virtio_disk_intr status"
        else
          let* b := deref (i_b x) in
          let* y := get_buf b in
          put_buf b (with_disk 0 y) ;;;
          wake_buf b ;;;
          modify (set_used_idx ((ui + 1) mod Z.of_nat NUM)) ;;;
          intr_loop fuel
  end.
(** The ring has fewer than [NUM] entries to look at. *)
Definition intr_scan : M vst unit := intr_loop NUM ;;; modify (set_acking true).
(** What is read from INTERRUPT_STATUS is written to INTERRUPT_ACK, which clears these
    bits; then the lock is released. *)
Definition intr_ack : M vst unit :=
  let* status := gets isr in
  modify (fun s => set_isr (Z.land (isr s) (Z.lnot (Z.land status 3))) s) ;;;
  modify (set_acking false).
(** The device can return a chain between the two. *)
Definition virtio_disk_intr : M vst unit := intr_scan ;;; intr_ack.

(** ** [virtio_disk_init] *)

Section init.
(** What the device's registers read, and the address of [disk.pages]. *)
Context (R : Z -> Z) (pages : Z).

Definition MAGIC_VALUE : Z := 0x000.
Definition VERSION : Z := 0x004.
Definition DEVICE_ID : Z := 0x008.
Definition VENDOR_ID : Z := 0x00c.
Definition DEVICE_FEATURES : Z := 0x010.
Definition DRIVER_FEATURES : Z := 0x020.
Definition GUEST_PAGE_SIZE : Z := 0x028.
Definition QUEUE_SEL : Z := 0x030.
Definition QUEUE_NUM_MAX : Z := 0x034.
Definition QUEUE_NUM : Z := 0x038.
Definition QUEUE_PFN : Z := 0x040.
Definition STATUS : Z := 0x070.

(** The registers written, in order, and the driver. *)
Record ist := mk_ist { written : list (Z * Z); driver : vst }.
Definition W (r v : Z) : M ist unit := modify (fun s => mk_ist (written s ++ [(r, u32 v)]) (driver s)).

(** [memset] of the pages that hold the descriptors and the rings *)
Definition clear_pages (s : vst) : vst :=
  set_desc (replicate NUM (mk_desc Anull 0 0 0)) (set_avail_idx 0 (set_avail (replicate NUM 0)
    (set_used 0 (replicate NUM (mk_elem 0 0)) s))).

Definition clear_bit (n x : Z) : Z := Z.land x (Z.lnot (Z.shiftl 1 n)).

Definition virtio_disk_init : M ist unit :=
  if negb (R MAGIC_VALUE =? 0x74726976) || negb (R VERSION =? 1) || negb (R DEVICE_ID =? 2) || negb (R VENDOR_ID =? 0x554d4551)
  then panic "could not find virtio disk"
  else
    W STATUS 1 ;;;
    W STATUS 3 ;;;
    W DRIVER_FEATURES (clear_bit 28 (clear_bit 29 (clear_bit 27 (clear_bit 12 (clear_bit 11 (clear_bit 7 (clear_bit 5 (R DEVICE_FEATURES)))))))) ;;;
    W STATUS 11 ;;;
    W STATUS 15 ;;;
    W GUEST_PAGE_SIZE 4096 ;;;
    W QUEUE_SEL 0 ;;;
    let max := R QUEUE_NUM_MAX in
    if max =? 0 then panic "virtio disk has no queue 0"
    else if max <? Z.of_nat NUM then panic "virtio disk max queue too short"
    else
      W QUEUE_NUM (Z.of_nat NUM) ;;;
      modify (fun s => mk_ist (written s) (clear_pages (driver s))) ;;;
      W QUEUE_PFN (Z.shiftr pages 12) ;;;
      modify (fun s => mk_ist (written s) (set_dfree (replicate NUM 1) (driver s))).

End init.

(** ** The device *)

(** A well-formed request, as the device reads it from a chain. *)
Record request := mk_req { r_buf : nat; r_status : Z; r_write : bool; r_sector : Z }.

Definition chain (s : vst) (h : Z) : option request :=
  d0 ← aget (desc s) h;
  d1 ← aget (desc s) (d_next d0);
  d2 ← aget (desc s) (d_next d1);
  match d_addr d0, d_addr d1, d_addr d2 with
  | Ahdr p, Adata b, Astatus i =>
      x ← hdrs s !! p;
      let w := h_type x =? VIRTIO_BLK_T_OUT in
      if (d_len d0 =? 16) && (d_flags d0 =? VRING_DESC_F_NEXT) && (d_len d1 =? BSIZE) &&
         (d_flags d1 =? VRING_DESC_F_NEXT + (if w then 0 else VRING_DESC_F_WRITE)) && (d_len d2 =? 1) && (d_flags d2 =? VRING_DESC_F_WRITE) &&
         ((h_type x =? VIRTIO_BLK_T_OUT) || (h_type x =? VIRTIO_BLK_T_IN))
      then Some (mk_req b i w (h_sector x)) else None
  | _, _, _ => None
  end.

(** A block of the medium, and one written from a buffer. *)
Definition from_disk (k : Z -> Z) (sector : Z) (d : mem) : mem := fun x => if (0 <=? x) && (x <? BSIZE) then k (512 * sector + x) else d x.
Definition to_disk (k : Z -> Z) (sector : Z) (d : mem) : Z -> Z := fun x => if (512 * sector <=? x) && (x <? 512 * sector + BSIZE) then d (x - 512 * sector) else k x.

(** The device takes the next chain that is offered, if it has been told to look. *)
Definition fetched (s : vst) : option vst :=
  if negb (notified s) || (dv_last s =? avail_idx s) then None
  else h ← aget (avail s) (dv_last s mod Z.of_nat NUM); Some (set_dev (dk s) (u16 (dv_last s + 1)) (dv_open s ++ [h]) s).

(** When there is none it stops looking, until it is told again. *)
Definition rested (s : vst) : option vst := if dv_last s =? avail_idx s then Some (set_notified false s) else None.

(** It completes the request [r] of chain [h]: the data moves, the status is 0, and
    the chain is returned in the other ring, with some length [len], and an interrupt
    is requested. *)
Definition served (h len : Z) (r : request) (s : vst) : option vst :=
  x ← dbufs s !! r_buf r;
  y ← aget (dinfos s) (r_status r);
  let s1 := set_dev (if r_write r then to_disk (dk s) (r_sector r) (b_data x) else dk s) (dv_last s) (filter (fun c => c <> h) (dv_open s)) s in
  let s2 := if r_write r then s1 else set_dbufs (<[r_buf r := with_data (from_disk (dk s) (r_sector r) (b_data x)) x]> (dbufs s1)) s1 in
  let s3 := set_dinfos (aset (dinfos s2) (r_status r) (with_status 0 y)) s2 in
  Some (set_isr (Z.lor (isr s3) 1) (set_used (u16 (used_id s3 + 1)) (aset (elems s3) (used_id s3 mod Z.of_nat NUM) (mk_elem h len)) s3)).

End Virtio.
