(* ===== verification/Virtiospec.v ===== *)
(** The disk driver's invariant: who owns which descriptor, and where each request
    is on its way through the two rings; every step of [virtio_disk_rw] and of
    [virtio_disk_intr] keeps it, without a panic. *)

From S2P Require Import Prelude Mem Virtio.
Import Virtio.

Module Virtiospec.

(** ** Requests *)

(** A request that has its descriptors. *)
Record rq := mk_rq { q_b : nat; q_w : bool; q_0 : Z; q_1 : Z; q_2 : Z }.
Definition req_of (x : where_) : option rq := match x with WaitBuf b w i j k | ReadyBuf b w i j k => Some (mk_rq b w i j k) | _ => None end.
Definition buf_of (x : where_) : option (nat * bool) := match x with WaitBuf b w _ _ _ | ReadyBuf b w _ _ _ | WaitFree b w | ReadyFree b w => Some (b, w) | Out => None end.
Definition req_at (s : vst) (p : nat) : option rq := procs s !! p ≫= req_of.
Definition buf_at (s : vst) (p : nat) : option (nat * bool) := procs s !! p ≫= buf_of.

Definition idxs (q : rq) : list Z := [q_0 q; q_1 q; q_2 q].
(** The descriptors of each process. *)
Definition slots (s : vst) : list (list Z) := from_option idxs [] ∘ req_of <$> procs s.
Definition nfree (l : list Z) : nat := length (filter (fun v => v <> 0) l).
Definition zNUM : Z := Z.of_nat NUM.

Section spec.
Context (nsectors : Z).

(** ** The invariant *)

(** What belongs to request [q] of process [p] for the buffer [x]. *)
Record formatted (s : vst) (p : nat) (q : rq) (x : dbuf) : Prop := {
  fm_0 : aget (desc s) (q_0 q) = Some (mk_desc (Ahdr p) 16 VRING_DESC_F_NEXT (q_1 q));
  fm_1 : aget (desc s) (q_1 q) = Some (mk_desc (Adata (q_b q)) BSIZE (Z.lor (if q_w q then 0 else VRING_DESC_F_WRITE) VRING_DESC_F_NEXT) (q_2 q));
  fm_2 : aget (desc s) (q_2 q) = Some (mk_desc (Astatus (q_0 q)) 1 VRING_DESC_F_WRITE 0);
  fm_info : aget (dinfos s) (q_0 q) = Some (mk_info (Some (q_b q)) 0);
  fm_hdr : hdrs s !! p = Some (mk_hdr (if q_w q then VIRTIO_BLK_T_OUT else VIRTIO_BLK_T_IN) 0 (2 * b_blockno x)) }.

(** The block [n] of the medium is in [d]. *)
Definition same_block (k : Z -> Z) (n : Z) (d : mem) : Prop := forall o, 0 <= o < BSIZE -> d o = k (BSIZE * n + o).

(** [U]: the chains offered and not yet taken by the device; [N]: the chains
    returned and not yet seen by the interrupt handler. *)
Record core (s : vst) (U N : list Z) : Prop := {
  co_len : length (desc s) = NUM /\ length (dfree s) = NUM /\ length (dinfos s) = NUM /\ length (avail s) = NUM /\ length (elems s) = NUM /\ length (hdrs s) = length (procs s);
  co_free : Forall (fun v => v = 0 \/ v = 1) (dfree s);
  co_own : forall p q, req_at s p = Some q -> exists x, dbufs s !! q_b q = Some x /\ formatted s p q x;
  co_nodup : NoDup (concat (slots s));
  co_taken : forall i, aget (dfree s) i = Some 0 <-> i ∈ concat (slots s);
  co_buf : forall p b w, buf_at s p = Some (b, w) -> exists x, dbufs s !! b = Some x /\ 0 <= b_blockno x /\ 2 * b_blockno x + 2 <= nsectors;
  co_apart : forall p p' b w b' w' x x', buf_at s p = Some (b, w) -> buf_at s p' = Some (b', w') -> dbufs s !! b = Some x -> dbufs s !! b' = Some x' ->
    b = b' \/ b_blockno x = b_blockno x' -> p = p';
  co_pend : NoDup (U ++ dv_open s ++ N);
  co_busy : forall h, h ∈ U ++ dv_open s ++ N <-> exists p q x, req_at s p = Some q /\ q_0 q = h /\ dbufs s !! q_b q = Some x /\ b_disk x = 1;
  co_avail : 0 <= dv_last s < 2 ^ 16 /\ avail_idx s = u16 (dv_last s + alen U) /\ forall j h, U !! j = Some h -> aget (avail s) ((dv_last s + Z.of_nat j) mod zNUM) = Some h;
  co_used : 0 <= used_idx s < zNUM /\ 0 <= used_id s < 2 ^ 16 /\ used_id s mod zNUM = (used_idx s + alen N) mod zNUM /\
    forall j h, N !! j = Some h -> exists len, aget (elems s) ((used_idx s + Z.of_nat j) mod zNUM) = Some (mk_elem h len);
  co_done : forall p q x, req_at s p = Some q -> q_0 q ∉ U ++ dv_open s -> dbufs s !! q_b q = Some x -> same_block (dk s) (b_blockno x) (b_data x) }.

Record inv (s : vst) : Prop := {
  inv_core : exists U N, core s U N;
  inv_wbuf : forall p b w i j k, procs s !! p = Some (WaitBuf b w i j k) -> exists x, dbufs s !! b = Some x /\ b_disk x = 1;
  inv_wfree : forall p b w, procs s !! p = Some (WaitFree b w) -> (nfree (dfree s) < 3)%nat;
  inv_notify : dv_last s <> avail_idx s -> notified s = true }.

(** ** Views *)

Lemma slots_at s p q : req_at s p = Some q -> slots s !! p = Some (idxs q).
Proof using. unfold req_at, slots. rewrite list_lookup_fmap. destruct (procs s !! p); [|done]. cbn. by intros ->. Qed.

Lemma idx_elem s i : i ∈ concat (slots s) <-> exists p q, req_at s p = Some q /\ i ∈ idxs q.
Proof using.
  rewrite elem_concat. split.
  - intros (p & l & Hl & Hi). unfold slots in Hl. rewrite list_lookup_fmap in Hl. destruct (procs s !! p) as [x|] eqn:Hp; [|done]. injection Hl as <-. cbn in Hi.
    destruct (req_of x) as [q|] eqn:Hq; [|by apply not_elem_of_nil in Hi]. exists p, q. unfold req_at. by rewrite Hp.
  - intros (p & q & Hp & Hi). exists p, (idxs q). split; [by apply slots_at|done].
Qed.

Lemma slots_disjoint s p p' q q' i : NoDup (concat (slots s)) -> req_at s p = Some q -> req_at s p' = Some q' -> i ∈ idxs q -> i ∈ idxs q' -> p = p'.
Proof using.
  intros Hnd Hq Hq' Hi Hi'. destruct (decide (p = p')) as [|Hne]; [done|exfalso]. by eapply concat_disjoint; [done|apply slots_at, Hq|apply slots_at, Hq'|done|..].
Qed.

Lemma slots_idxs s p q : NoDup (concat (slots s)) -> req_at s p = Some q -> NoDup (idxs q).
Proof using.
  intros Hnd Hq. apply slots_at in Hq. revert p Hq Hnd. generalize (slots s). induction l as [|l ls IH]; intros [|p] Hq Hnd; cbn in Hq; try done; cbn in Hnd; apply NoDup_app in Hnd as (H1 & _ & H2).
  - by injection Hq as ->.
  - by apply (IH p).
Qed.

Lemma concat_put {A} (ls : list (list A)) p l l' : ls !! p = Some l -> l ++ concat (<[p := l']> ls) ≡ₚ l' ++ concat ls.
Proof using.
  revert p. induction ls as [|k ls IH]; intros [|p] Hp; cbn in *; try done.
  - injection Hp as ->. apply Permutation_app_swap_app.
  - rewrite (Permutation_app_swap_app l), (Permutation_app_swap_app l'). f_equiv. by apply IH.
Qed.

(** ** Descriptors *)

Definition wakef (x : where_) : where_ := match x with WaitFree b w => ReadyFree b w | _ => x end.
Lemma wakef_req x : req_of (wakef x) = req_of x /\ buf_of (wakef x) = buf_of x.
Proof using. by destruct x. Qed.

Lemma get_free_run s i f : aget (dfree s) i = Some f -> get_free i s = Ret f s.
Proof using. intros H. unfold get_free, bind, gets. by rewrite H. Qed.
Lemma set_free_run s i f v : aget (dfree s) i = Some f -> set_free i v s = Ret tt (set_dfree (aset (dfree s) i v) s).
Proof using. intros H. unfold set_free. by rewrite (bind_Ret _ _ _ _ _ (get_free_run s i f H)). Qed.
Lemma get_desc_run s i d : aget (desc s) i = Some d -> get_desc i s = Ret d s.
Proof using. intros H. unfold get_desc, bind, gets. by rewrite H. Qed.
Lemma put_desc_run s i d x : aget (desc s) i = Some d -> put_desc i x s = Ret tt (set_desc (aset (desc s) i x) s).
Proof using. intros H. unfold put_desc. by rewrite (bind_Ret _ _ _ _ _ (get_desc_run s i d H)). Qed.
Lemma get_info_run s i d : aget (dinfos s) i = Some d -> get_info i s = Ret d s.
Proof using. intros H. unfold get_info, bind, gets. by rewrite H. Qed.
Lemma put_info_run s i d x : aget (dinfos s) i = Some d -> put_info i x s = Ret tt (set_dinfos (aset (dinfos s) i x) s).
Proof using. intros H. unfold put_info. by rewrite (bind_Ret _ _ _ _ _ (get_info_run s i d H)). Qed.
Lemma get_buf_run s b x : dbufs s !! b = Some x -> get_buf b s = Ret x s.
Proof using. intros H. unfold get_buf, bind, gets. by rewrite H. Qed.
Lemma put_buf_run s b x y : dbufs s !! b = Some x -> put_buf b y s = Ret tt (set_dbufs (<[b := y]> (dbufs s)) s).
Proof using. intros H. unfold put_buf. by rewrite (bind_Ret _ _ _ _ _ (get_buf_run s b x H)). Qed.

Lemma alloc_loop_run s n : forall i0, 0 <= i0 -> i0 + Z.of_nat n = alen (dfree s) -> (forall i f, i < i0 -> aget (dfree s) i = Some f -> f = 0) ->
  (exists i f, aget (dfree s) i = Some f /\ f <> 0 /\ alloc_desc_loop n i0 s = Ret i (set_dfree (aset (dfree s) i 0) s)) \/
  (forall i f, aget (dfree s) i = Some f -> f = 0) /\ alloc_desc_loop n i0 s = Ret (-1) s.
Proof using.
  induction n as [|n IH]; intros i0 Hi0 Hs Hz; cbn [alloc_desc_loop].
  - right. split; [|done]. intros i f H. apply (Hz i f); [|done]. apply aget_Some in H. lia.
  - destruct (aget_is_Some (dfree s) i0) as [f Hf]; [lia|].
    rewrite (bind_Ret _ _ _ _ _ (get_free_run s i0 f Hf)). destruct (Z.eqb_spec f 0) as [->|Hne]; cbn [negb].
    + apply IH; [lia|lia|]. intros i f Hi H. destruct (decide (i = i0)) as [->|]; [congruence|]. apply (Hz i f); [lia|done].
    + left. exists i0, f. split; [done|]. split; [done|]. by rewrite (bind_Ret _ _ _ _ _ (set_free_run s i0 f 0 Hf)).
Qed.
Lemma alloc_desc_run s : length (dfree s) = NUM ->
  (exists i f, aget (dfree s) i = Some f /\ f <> 0 /\ alloc_desc s = Ret i (set_dfree (aset (dfree s) i 0) s)) \/
  (forall i f, aget (dfree s) i = Some f -> f = 0) /\ alloc_desc s = Ret (-1) s.
Proof using.
  intros Hl. apply alloc_loop_run; [lia|unfold alen; rewrite Hl; done|]. intros i f Hi H. apply aget_Some in H. lia.
Qed.

Definition freed (i : Z) (d : VRingDesc) (s : vst) : vst :=
  set_procs (wakef <$> procs s) (set_dfree (aset (dfree s) i 1) (set_desc (aset (desc s) i (with_addr Anull d)) s)).
Lemma free_desc_run s i d : length (dfree s) = NUM -> aget (dfree s) i = Some 0 -> aget (desc s) i = Some d -> free_desc i s = Ret tt (freed i d s).
Proof using.
  intros Hl Hf Hd. pose proof (aget_Some _ _ _ Hf) as Hr. unfold alen in Hr. unfold free_desc. rewrite (proj2 (Z.leb_gt _ _)) by lia.
  rewrite (bind_Ret _ _ _ _ _ (get_free_run s i 0 Hf)). cbn [Z.eqb negb]. rewrite (bind_Ret _ _ _ _ _ (get_desc_run s i d Hd)), (bind_Ret _ _ _ _ _ (put_desc_run s i d _ Hd)).
  by rewrite (bind_Ret _ _ _ _ _ (set_free_run (set_desc _ s) i 0 1 Hf)).
Qed.

Lemma aget_nat {A} (l : list A) i x : aget l i = Some x -> exists n, i = Z.of_nat n /\ l !! n = Some x.
Proof using. intros H. pose proof (aget_Some _ _ _ H). exists (Z.to_nat i). split; [lia|]. rewrite <- aget_of_nat. by rewrite Z2Nat.id by lia. Qed.
Lemma length_aset {A} (l : list A) i x : length (aset l i x) = length l.
Proof using. unfold aset. destruct (i <? 0); [done|]. apply length_insert. Qed.

Lemma nfree_take l i f : aget l i = Some f -> f <> 0 -> nfree l = S (nfree (aset l i 0)).
Proof using.
  intros (n & -> & Hn)%aget_nat Hf. rewrite aset_of_nat. unfold nfree. rewrite <- (take_drop_middle l n f Hn) at 1. rewrite insert_take_drop by (by eapply lookup_lt_Some).
  rewrite !filter_app, !length_app, !filter_cons. rewrite decide_True by done. rewrite decide_False by (intros H; by apply H). cbn. lia.
Qed.
Lemma nfree_none l : (forall i f, aget l i = Some f -> f = 0) -> nfree l = 0%nat.
Proof using.
  intros H. unfold nfree. assert (Hall : filter (fun v => v <> 0) l = []); [|by rewrite Hall]. apply elem_of_nil_inv. intros x [Hne Hx]%list_elem_of_filter.
  apply list_elem_of_lookup in Hx as [n Hn]. apply Hne, (H (Z.of_nat n)). by rewrite aget_of_nat.
Qed.

Lemma aset_restore l i : aget l i = Some 1 -> aset (aset l i 0) i 1 = l.
Proof using. intros (n & -> & Hn)%aget_nat. rewrite !aset_of_nat, list_insert_insert_eq. by apply list_insert_id. Qed.
Lemma aset_comm {A} (l : list A) i j x y u v : aget l i = Some u -> aget l j = Some v -> i <> j -> aset (aset l i x) j y = aset (aset l j y) i x.
Proof using. intros (n & -> & _)%aget_nat (m & -> & _)%aget_nat Hne. rewrite !aset_of_nat. apply list_insert_insert_ne. lia. Qed.

Lemma wakef_idem (l : list where_) : wakef <$> (wakef <$> l) = wakef <$> l.
Proof using. rewrite <- list_fmap_compose. apply list_fmap_ext. intros _ x _. by destruct x. Qed.

(** A failed allocation leaves the table as it was, but for the free descriptors,
    and may have woken processes. *)
Definition released (s s' : vst) : Prop :=
  exists D l, s' = set_procs l (set_desc D s) /\ length D = length (desc s) /\ (l = procs s \/ l = wakef <$> procs s) /\
    forall i, aget (dfree s) i = Some 0 -> aget D i = aget (desc s) i.

(** One descriptor taken and given back. *)
Lemma take_one s i d l : aget l i = Some 1 -> aget (desc s) i = Some d ->
  exists D, freed i d (set_dfree (aset l i 0) s) = set_procs (wakef <$> procs s) (set_desc D (set_dfree l s)) /\ length D = length (desc s) /\
    forall j, aget l j = Some 0 -> aget D j = aget (desc s) j.
Proof using.
  intros Hl Hd. exists (aset (desc s) i (with_addr Anull d)). split; [unfold freed; cbn [dfree set_dfree set_desc desc procs]; by rewrite (aset_restore l i Hl)|]. split; [apply length_aset|].
  intros j Hj. apply aget_aset_ne; [by intros ->; rewrite Hl in Hj|]. apply aget_Some in Hl. lia.
Qed.

Lemma fail_two s i0 i1 : length (desc s) = NUM -> length (dfree s) = NUM -> aget (dfree s) i0 = Some 1 -> aget (dfree s) i1 = Some 1 -> i0 <> i1 ->
  exists s', (free_desc i0 ;;; free_desc i1 ;;; ret (@None (Z * Z * Z))) (set_dfree (aset (aset (dfree s) i0 0) i1 0) s) = Ret None s' /\ released s s'.
Proof using.
  intros Hd Hl G0 G1 Hne. pose proof (aget_Some _ _ _ G0) as P0. pose proof (aget_Some _ _ _ G1) as P1. unfold alen in P0, P1.
  destruct (aget_is_Some (desc s) i0) as [d0 D0]; [unfold alen; lia|]. destruct (aget_is_Some (desc s) i1) as [d1 D1]; [unfold alen; lia|].
  set (s1 := set_dfree _ s). assert (F0 : aget (dfree s1) i0 = Some 0).
  { unfold s1. cbn. rewrite aget_aset_ne by lia. apply aget_aset_eq. unfold alen. lia. }
  rewrite (bind_Ret _ _ _ _ _ (free_desc_run s1 i0 d0 ltac:(unfold s1; cbn; by rewrite !length_aset) F0 D0)). set (s2 := freed i0 d0 s1).
  assert (F1 : aget (dfree s2) i1 = Some 0).
  { unfold s2, s1, freed. cbn. rewrite aget_aset_ne by lia. apply aget_aset_eq. rewrite alen_aset. unfold alen. lia. }
  assert (D1' : aget (desc s2) i1 = Some d1) by (unfold s2, s1, freed; cbn; by rewrite aget_aset_ne by lia).
  rewrite (bind_Ret _ _ _ _ _ (free_desc_run s2 i1 d1 ltac:(unfold s2, s1, freed; cbn; by rewrite !length_aset) F1 D1')).
  eexists. split; [reflexivity|]. exists (aset (aset (desc s) i0 (with_addr Anull d0)) i1 (with_addr Anull d1)), (wakef <$> procs s). split_and!.
  - assert (E1 : aset (dfree s2) i1 1 = dfree s).
    { change (aset (aset (aset (aset (dfree s) i0 0) i1 0) i0 1) i1 1 = dfree s).
      rewrite (aset_comm _ i0 i1 0 0 1 1 G0 G1 Hne), (aset_restore (aset (dfree s) i1 0) i0) by (rewrite aget_aset_ne by lia; done). by apply aset_restore. }
    unfold freed. rewrite E1. change (procs s2) with (wakef <$> procs s). rewrite wakef_idem. by destruct s.
  - by rewrite !length_aset.
  - by right.
  - intros j Hj. assert (j <> i0 /\ j <> i1) by (split; intros ->; congruence). rewrite !aget_aset_ne by lia. done.
Qed.

Lemma alloc3_run s : length (desc s) = NUM -> length (dfree s) = NUM -> Forall (fun v => v = 0 \/ v = 1) (dfree s) ->
  (exists i0 i1 i2, alloc3_desc s = Ret (Some (i0, i1, i2)) (set_dfree (aset (aset (aset (dfree s) i0 0) i1 0) i2 0) s) /\ NoDup [i0; i1; i2] /\
    forall i, i ∈ [i0; i1; i2] -> aget (dfree s) i = Some 1) \/
  exists s', alloc3_desc s = Ret None s' /\ released s s' /\ (nfree (dfree s) < 3)%nat.
Proof using.
  intros Hd Hl H01. assert (H1 : forall i f, aget (dfree s) i = Some f -> f <> 0 -> aget (dfree s) i = Some 1 /\ 0 <= i < Z.of_nat NUM).
  { intros i f H Hf. pose proof (aget_Some _ _ _ H). unfold alen in *. rewrite Hl in *. destruct (aget_nat _ _ _ H) as (n & -> & Hn). pose proof (Forall_lookup_1 _ _ _ _ H01 Hn) as [?| ->]; [done|]. by split. }
  unfold alloc3_desc. destruct (alloc_desc_run s Hl) as [(i0 & f0 & F0 & N0 & R0)|[Z0 R0]]; rewrite (bind_Ret _ _ _ _ _ R0); cbn [Z.ltb Z.compare].
  2:{ right. exists s. split; [done|]. rewrite (nfree_none _ Z0). split; [|lia]. exists (desc s), (procs s). split_and!; [by destruct s|done|by left|done]. }
  destruct (H1 i0 f0 F0 N0) as [G0 P0]. rewrite (proj2 (Z.ltb_ge _ _)) by lia. set (s0 := set_dfree _ s) in *. assert (Hn0 := nfree_take _ _ _ F0 N0).
  assert (Hback : forall i f, aget (dfree s0) i = Some f -> f <> 0 -> i <> i0 /\ aget (dfree s) i = Some f).
  { intros i f H Hf. unfold s0 in H. cbn in H. destruct (decide (i = i0)) as [->|Hi]; [rewrite aget_aset_eq in H by (unfold alen; lia); congruence|]. by rewrite aget_aset_ne in H by lia. }
  destruct (alloc_desc_run s0 ltac:(unfold s0; cbn; by rewrite length_aset)) as [(i1 & f1 & F1 & N1 & R1)|[Z1 R1]]; rewrite (bind_Ret _ _ _ _ _ R1); cbn [Z.ltb Z.compare].
  2:{ destruct (aget_is_Some (desc s) i0) as [d0 D0]; [unfold alen; lia|]. right.
    rewrite (bind_Ret _ _ _ _ _ (free_desc_run s0 i0 d0 ltac:(unfold s0; cbn; by rewrite length_aset) ltac:(unfold s0; cbn; apply aget_aset_eq; unfold alen; lia) D0)).
    destruct (take_one s i0 d0 (dfree s) G0 D0) as (D & E & H2 & H3). eexists. split; [reflexivity|]. split; [|pose proof (nfree_none _ Z1) as Hz; unfold s0 in Hz; cbn [dfree set_dfree] in Hz; lia].
    unfold s0. rewrite E. exists D, (wakef <$> procs s). split_and!; [by destruct s|done|by right|done]. }
  destruct (Hback i1 f1 F1 N1) as [E10 F1']. destruct (H1 i1 f1 F1' N1) as [G1 P1]. rewrite (proj2 (Z.ltb_ge _ _)) by lia. set (s1 := set_dfree _ s0) in *. assert (Hn1 := nfree_take _ _ _ F1 N1).
  destruct (alloc_desc_run s1 ltac:(unfold s1, s0; cbn; by rewrite !length_aset)) as [(i2 & f2 & F2 & N2 & R2)|[Z2 R2]]; rewrite (bind_Ret _ _ _ _ _ R2); cbn [Z.ltb Z.compare].
  2:{ right. destruct (fail_two s i0 i1 Hd Hl G0 G1 ltac:(done)) as (s' & R & HR). exists s'. split; [exact R|]. split; [done|]. pose proof (nfree_none _ Z2) as Hz. unfold s1, s0 in Hz, Hn1. cbn [dfree set_dfree] in Hz, Hn1. lia. }
  left. exists i0, i1, i2. assert (E21 : i2 <> i1 /\ aget (dfree s0) i2 = Some f2).
  { unfold s1 in F2. cbn in F2. destruct (decide (i2 = i1)) as [->|Hi]; [rewrite aget_aset_eq in F2 by (rewrite alen_aset; unfold alen; lia); congruence|]. by rewrite aget_aset_ne in F2 by lia. }
  destruct E21 as [E21 F2']. destruct (Hback i2 f2 F2' N2) as [E20 F2'']. destruct (H1 i2 f2 F2'' N2) as [G2 P2]. rewrite (proj2 (Z.ltb_ge _ _)) by lia. split; [done|]. split.
  - apply NoDup_cons. split; [set_solver|]. apply NoDup_cons. split; [set_solver|]. apply NoDup_singleton.
  - intros i [->|[->| ->%list_elem_of_singleton]%elem_of_cons]%elem_of_cons; done.
Qed.

(** ** Processes that keep their requests *)

Definition same_views (l l' : list where_) : Prop :=
  length l' = length l /\ forall p x, l !! p = Some x -> exists y, l' !! p = Some y /\ req_of y = req_of x /\ buf_of y = buf_of x.

Lemma sv_refl l : same_views l l.
Proof using. split; [done|]. intros p x ?. by exists x. Qed.
Lemma sv_trans l1 l2 l3 : same_views l1 l2 -> same_views l2 l3 -> same_views l1 l3.
Proof using.
  intros [L1 H1] [L2 H2]. split; [congruence|]. intros p x Hx. destruct (H1 p x Hx) as (y & Hy & ? & ?). destruct (H2 p y Hy) as (z & Hz & ? & ?). exists z. split_and!; congruence.
Qed.
Lemma sv_fmap (f : where_ -> where_) l : (forall x, req_of (f x) = req_of x /\ buf_of (f x) = buf_of x) -> same_views l (f <$> l).
Proof using. intros H. split; [apply length_fmap|]. intros p x Hx. exists (f x). rewrite list_lookup_fmap, Hx. split; [done|apply H]. Qed.
Lemma sv_insert l p x y : l !! p = Some x -> req_of y = req_of x -> buf_of y = buf_of x -> same_views l (<[p := y]> l).
Proof using.
  intros Hx Hr Hb. split; [apply length_insert|]. intros i z Hz. destruct (decide (i = p)) as [->|Hne].
  - exists y. rewrite list_lookup_insert_eq by (by eapply lookup_lt_Some). by simplify_eq.
  - exists z. by rewrite list_lookup_insert_ne.
Qed.

Lemma sv_at {A} (f : where_ -> option A) l l' : length l' = length l -> (forall p x, l !! p = Some x -> exists y, l' !! p = Some y /\ f y = f x) -> forall p, l' !! p ≫= f = l !! p ≫= f.
Proof using.
  intros Hl H p. destruct (l !! p) as [x|] eqn:Hx; [destruct (H p x Hx) as (y & -> & Hf); exact Hf|].
  apply lookup_ge_None in Hx. rewrite (proj2 (lookup_ge_None l' p)); [done|lia].
Qed.
Lemma sv_req s l : same_views (procs s) l -> forall p, l !! p ≫= req_of = req_at s p.
Proof using. intros [Hl H]. apply sv_at; [done|]. naive_solver. Qed.
Lemma sv_buf s l : same_views (procs s) l -> forall p, l !! p ≫= buf_of = buf_at s p.
Proof using. intros [Hl H]. apply sv_at; [done|]. naive_solver. Qed.
Lemma sv_slots s l : same_views (procs s) l -> (from_option idxs [] ∘ req_of <$> l) = slots s.
Proof using.
  intros [Hl H]. apply list_eq. intros i. unfold slots. rewrite !list_lookup_fmap. destruct (procs s !! i) as [x|] eqn:Hx.
  - destruct (H i x Hx) as (y & -> & Hr & _). cbn. by rewrite Hr.
  - apply lookup_ge_None in Hx. by rewrite (proj2 (lookup_ge_None l i)) by lia.
Qed.

(** Only the processes' places and free descriptors change. *)
Lemma core_views s U N D l : core s U N -> same_views (procs s) l -> length D = length (desc s) -> (forall i, aget (dfree s) i = Some 0 -> aget D i = aget (desc s) i) ->
  core (set_procs l (set_desc D s)) U N.
Proof using.
  intros HC Hv HD Hd. pose proof (sv_req s l Hv) as Hr. pose proof (sv_buf s l Hv) as Hb. pose proof (sv_slots s l Hv) as Hs. destruct HC as [C1 C2 C3 C4 C5 C6 C7 C8 C9 C10 C11 C12].
  assert (Er : forall p, req_at (set_procs l (set_desc D s)) p = req_at s p) by (intros p; apply Hr).
  assert (Eb : forall p, buf_at (set_procs l (set_desc D s)) p = buf_at s p) by (intros p; apply Hb).
  assert (Es : slots (set_procs l (set_desc D s)) = slots s) by apply Hs.
  split; cbn [desc dfree dinfos avail elems hdrs procs dbufs dv_open dv_last avail_idx used_idx used_id dk set_procs set_desc]; rewrite ?Es; try done.
  - destruct C1 as (L1 & L2 & L3 & L4 & L5 & L6). destruct Hv as [Hl _]. split_and!; try done; congruence.
  - intros p q. rewrite Er. intros Hq. destruct (C3 p q Hq) as (x & Hx & [F0 F1 F2 F3 F4]). exists x. split; [done|].
    assert (Hi : forall i, i ∈ idxs q -> aget D i = aget (desc s) i) by (intros i Hi; apply Hd, C5, idx_elem; by exists p, q).
    split; cbn [desc dinfos hdrs set_procs set_desc]; [rewrite Hi; [done|set_solver]..|done|done].
  - intros p b w. rewrite Eb. apply C6.
  - intros p p' b w b' w' x x'. rewrite !Eb. apply C7.
  - intros h. rewrite (C9 h). by setoid_rewrite Er.
  - intros p q x. rewrite Er. apply C12.
Qed.

(** ** Waiting for descriptors *)

Lemma alloc_fail s s' p b w : inv s -> procs s !! p = Some (ReadyFree b w) -> alloc3_desc s = Ret None s' -> released s s' -> (nfree (dfree s) < 3)%nat ->
  exists D l, rw_alloc p b w s = Ret tt (set_procs l (set_desc D s)) /\ inv (set_procs l (set_desc D s)) /\ same_views (procs s) l.
Proof using.
  intros [(U & N & HC) HW HF HN] Hp R (D & l & -> & HD & Hl & Hd) Hn. exists D, (<[p := WaitFree b w]> l). split; [unfold rw_alloc; by rewrite (bind_Ret _ _ _ _ _ R)|].
  assert (Hlp : l !! p = Some (ReadyFree b w)) by (destruct Hl as [->| ->]; [done|]; by rewrite list_lookup_fmap, Hp).
  assert (Hv : same_views (procs s) (<[p := WaitFree b w]> l)).
  { apply (sv_trans _ l); [destruct Hl as [->| ->]; [apply sv_refl|apply sv_fmap, wakef_req]|by eapply sv_insert]. }
  split; [|done]. split; cbn [procs dbufs dfree set_procs set_desc].
  - exists U, N. by apply core_views.
  - intros i c v j k m. intros [(-> & [=] & _)|[_ Hi]]%list_lookup_insert_Some. apply (HW i c v j k m). destruct Hl as [->| ->]; [done|].
    rewrite list_lookup_fmap in Hi. destruct (procs s !! i) as [[]|]; cbn in Hi; congruence.
  - intros i c v _. done.
  - exact HN.
Qed.

(** ** Offering a request *)

Definition hdr_for (w : bool) (x : dbuf) : virtio_blk_outhdr := mk_hdr (if w then VIRTIO_BLK_T_OUT else VIRTIO_BLK_T_IN) 0 (2 * b_blockno x).
Definition descs_for (p b : nat) (w : bool) (i0 i1 i2 : Z) (D : list VRingDesc) : list VRingDesc :=
  aset (aset (aset D i0 (mk_desc (Ahdr p) 16 VRING_DESC_F_NEXT i1)) i1 (mk_desc (Adata b) BSIZE (Z.lor (if w then 0 else VRING_DESC_F_WRITE) VRING_DESC_F_NEXT) i2))
    i2 (mk_desc (Astatus i0) 1 VRING_DESC_F_WRITE 0).
Definition submitted (p b : nat) (w : bool) (i0 i1 i2 : Z) (x : dbuf) (s : vst) : vst :=
  mk_vst (descs_for p b w i0 i1 i2 (desc s)) (u16 (avail_idx s + 1)) (aset (avail s) (avail_idx s mod zNUM) i0) (used_id s) (elems s) (dfree s) (used_idx s)
    (aset (dinfos s) i0 (mk_info (Some b) 0)) (<[b := with_disk 1 x]> (dbufs s)) (<[p := hdr_for w x]> (hdrs s)) (<[p := WaitBuf b w i0 i1 i2]> (procs s))
    (dk s) (dv_last s) (dv_open s) true (isr s) (acking s).

Lemma aset_aset {A} (l : list A) i x y : aset (aset l i x) i y = aset l i y.
Proof using. unfold aset. destruct (i <? 0); [done|]. apply list_insert_insert_eq. Qed.

Lemma submit_run s p b w i0 i1 i2 x : dbufs s !! b = Some x -> 0 <= b_blockno x -> 2 * b_blockno x + 2 <= 2 ^ 32 ->
  (forall i, i ∈ [i0; i1; i2] -> 0 <= i < zNUM) -> length (desc s) = NUM -> length (dinfos s) = NUM -> rw_submit p b w i0 i1 i2 s = Ret tt (submitted p b w i0 i1 i2 x s).
Proof using.
  intros Hx Hn0 Hn1 Hi Ld Li. assert (H0 := Hi i0 ltac:(set_solver)). assert (H1 := Hi i1 ltac:(set_solver)). assert (H2 := Hi i2 ltac:(set_solver)).
  assert (Hin : forall (D : list VRingDesc) i, 0 <= i < zNUM -> length D = NUM -> is_Some (aget D i)) by (intros D i ? E; apply aget_is_Some; unfold alen, zNUM in *; rewrite E; done).
  destruct (aget_is_Some (dinfos s) i0) as [y Hy]; [unfold alen, zNUM in *; rewrite Li; done|].
  assert (Es : u32 (b_blockno x * (BSIZE / 512)) = 2 * b_blockno x) by (change (BSIZE / 512) with 2; rewrite u32_small; lia).
  unfold rw_submit. rewrite (bind_Ret _ _ _ _ _ (get_buf_run s b x Hx)), Es. unfold bind at 1, modify at 1. fold (hdr_for w x). set (s1 := set_hdrs _ s).
  destruct (Hin (desc s1) i0 H0 Ld) as [d0 D0]. rewrite (bind_Ret _ _ _ _ _ (put_desc_run s1 i0 d0 _ D0)). set (s2 := set_desc _ s1).
  destruct (Hin (desc s2) i1 H1 (eq_trans (length_aset _ _ _) Ld)) as [d1 D1]. rewrite (bind_Ret _ _ _ _ _ (put_desc_run s2 i1 d1 _ D1)). set (s3 := set_desc _ s2).
  rewrite (bind_Ret _ _ _ _ _ (get_info_run s3 i0 y Hy)), (bind_Ret _ _ _ _ _ (put_info_run s3 i0 y _ Hy)). set (s4 := set_dinfos _ s3).
  destruct (Hin (desc s4) i2 H2 (eq_trans (length_aset _ _ _) (eq_trans (length_aset _ _ _) Ld))) as [d2 D2]. rewrite (bind_Ret _ _ _ _ _ (put_desc_run s4 i2 d2 _ D2)). set (s5 := set_desc _ s4).
  rewrite (bind_Ret _ _ _ _ _ (put_buf_run s5 b x _ Hx)). set (s6 := set_dbufs _ s5).
  assert (Hy2 : aget (dinfos s6) i0 = Some (with_status 0 y)) by (apply aget_aset_eq; unfold s3, s2, s1; cbn; unfold alen, zNUM in *; rewrite Li; done).
  rewrite (bind_Ret _ _ _ _ _ (get_info_run s6 i0 _ Hy2)), (bind_Ret _ _ _ _ _ (put_info_run s6 i0 _ _ Hy2)).
  assert (Ei : aset (dinfos s6) i0 (with_b (Some b) (with_status 0 y)) = aset (dinfos s) i0 (mk_info (Some b) 0)) by (apply aset_aset). rewrite Ei. set (s7 := set_dinfos _ s6).
  assert (Hb : dbufs s7 !! b = Some (with_disk 1 x)) by (apply list_lookup_insert_eq; by eapply lookup_lt_Some).
  unfold bind at 1, modify at 1. set (s8 := set_avail _ s7). unfold bind at 1, modify at 1. set (s9 := set_avail_idx _ s8). unfold bind at 1, queue_notify, modify at 1. set (s10 := set_notified _ s9). unfold rw_wait.
  rewrite (bind_Ret _ _ _ _ _ (get_buf_run s10 b (with_disk 1 x) Hb)). reflexivity.
Qed.

(** ** At most two requests have descriptors *)

Definition heads (s : vst) : list Z := q_0 <$> omap req_of (procs s).

Lemma slots_length (l : list where_) : length (concat (from_option idxs [] ∘ req_of <$> l)) = (3 * length (q_0 <$> omap req_of l))%nat.
Proof using.
  induction l as [|x l IH]; [done|]. rewrite fmap_cons. cbn [concat]. rewrite length_app, IH. cbn [compose]. destruct (req_of x) as [q|] eqn:E; cbn; rewrite E; cbn [fmap list_fmap length]; rewrite ?length_fmap; lia.
Qed.

Lemma heads_elem s h : (exists p q, req_at s p = Some q /\ q_0 q = h) -> h ∈ heads s.
Proof using.
  intros (p & q & Hq & <-). unfold heads. apply list_elem_of_fmap. exists q. split; [done|]. apply bind_Some in Hq as (x & Hx & Hq). apply list_elem_of_omap. exists x. split; [by eapply list_elem_of_lookup_2|done].
Qed.

Lemma core_bound s U N : core s U N -> (length (U ++ dv_open s ++ N) <= 2)%nat.
Proof using.
  intros HC. assert (H1 : (length (U ++ dv_open s ++ N) <= length (heads s))%nat).
  { apply submseteq_length, NoDup_submseteq; [apply HC|]. intros h Hh. apply (co_busy _ _ _ HC) in Hh as (p & q & _ & Hq & E & _). apply heads_elem. by exists p, q. }
  assert (H2 : (length (concat (slots s)) <= NUM)%nat).
  { rewrite <- (length_fmap Z.to_nat). apply NoDup_bounded_length.
    - apply NoDup_fmap_2_strong; [|apply HC]. intros i j Hi Hj E. apply (co_taken _ _ _ HC), aget_Some in Hi. apply (co_taken _ _ _ HC), aget_Some in Hj. lia.
    - intros n (i & -> & Hi)%list_elem_of_fmap. apply (co_taken _ _ _ HC), aget_Some in Hi. unfold alen in Hi. destruct (co_len _ _ _ HC) as (_ & E & _). rewrite E in Hi. lia. }
  unfold slots in H2. rewrite slots_length in H2. fold (heads s) in H2. unfold NUM in H2. lia.
Qed.

(** ** The request is offered *)

Section submit.
Context (s : vst) (U N : list Z) (p b : nat) (w : bool) (i0 i1 i2 : Z) (x : dbuf).
Hypothesis HC : core s U N.
Hypothesis Hp : procs s !! p = Some (ReadyFree b w).
Hypothesis Hx : dbufs s !! b = Some x.
Hypothesis Hnd : NoDup [i0; i1; i2].
Hypothesis H1 : forall i, i ∈ [i0; i1; i2] -> aget (dfree s) i = Some 1.
Let F : list Z := aset (aset (aset (dfree s) i0 0) i1 0) i2 0.
Let s' : vst := submitted p b w i0 i1 i2 x (set_dfree F s).

Lemma sub_range i : i ∈ [i0; i1; i2] -> 0 <= i < zNUM.
Proof using All. intros Hi. apply H1, aget_Some in Hi. destruct (co_len _ _ _ HC) as (_ & E & _). unfold alen, zNUM in *. by rewrite E in Hi. Qed.

Lemma sub_new i p' q : i ∈ [i0; i1; i2] -> req_at s p' = Some q -> i ∉ idxs q.
Proof using All. intros Hi Hq Hin. apply H1 in Hi. assert (H0 : aget (dfree s) i = Some 0) by (apply (co_taken _ _ _ HC), idx_elem; by exists p', q). congruence. Qed.

Lemma sub_req p' : req_at s' p' = if decide (p' = p) then Some (mk_rq b w i0 i1 i2) else req_at s p'.
Proof using All.
  unfold req_at, s'. cbn [procs submitted set_dfree]. case_decide as E; [rewrite E, list_lookup_insert_eq by (by eapply lookup_lt_Some); done|by rewrite list_lookup_insert_ne].
Qed.
Lemma sub_buf p' : buf_at s' p' = buf_at s p'.
Proof using All.
  unfold buf_at, s'. cbn [procs submitted set_dfree]. destruct (decide (p' = p)) as [->|]; [rewrite list_lookup_insert_eq by (by eapply lookup_lt_Some); by rewrite Hp|by rewrite list_lookup_insert_ne].
Qed.
Lemma sub_slots : concat (slots s') ≡ₚ [i0; i1; i2] ++ concat (slots s).
Proof using All.
  unfold slots, s'. cbn [procs submitted set_dfree]. rewrite list_fmap_insert. cbn [compose req_of from_option]. change (idxs _) with [i0; i1; i2].
  rewrite <- (concat_put _ p [] [i0; i1; i2]); [done|]. by rewrite list_lookup_fmap, Hp.
Qed.

Lemma sub_dbufs b' y : dbufs s' !! b' = Some y -> exists y0, dbufs s !! b' = Some y0 /\ b_blockno y = b_blockno y0 /\ b_data y = b_data y0 /\ (b' <> b -> y = y0).
Proof using All.
  unfold s'. cbn [dbufs submitted set_dfree]. intros [(<- & <- & _)|[Hne Hy]]%list_lookup_insert_Some; [exists x; by split_and!|exists y; by split_and!].
Qed.

Lemma sub_other p' q : p' <> p -> req_at s p' = Some q -> q_b q <> b.
Proof using All.
  intros Hne Hq E. apply Hne. destruct (co_own _ _ _ HC p' q Hq) as (y & Hy & _). assert (Hb : buf_at s p' = Some (q_b q, q_w q)).
  { apply bind_Some in Hq as (z & Hz & Hq). unfold buf_at. rewrite Hz. destruct z; cbn in Hq; simplify_eq; done. }
  assert (Hbp : buf_at s p = Some (b, w)) by (unfold buf_at; by rewrite Hp). eapply (co_apart _ _ _ HC p' p); [done|done|done|done|by left].
Qed.

Lemma sub_desc i : i ∉ [i0; i1; i2] -> aget (desc s') i = aget (desc s) i.
Proof using All.
  intros Hi. unfold s'. cbn [desc submitted set_dfree]. unfold descs_for. assert (R0 := sub_range i0 ltac:(set_solver)). assert (R1 := sub_range i1 ltac:(set_solver)). assert (R2 := sub_range i2 ltac:(set_solver)).
  rewrite !aget_aset_ne by (lia || set_solver). done.
Qed.

Lemma sub_own p' q : req_at s' p' = Some q -> exists y, dbufs s' !! q_b q = Some y /\ formatted s' p' q y.
Proof using All.
  rewrite sub_req. assert (R0 := sub_range i0 ltac:(set_solver)). assert (R1 := sub_range i1 ltac:(set_solver)). assert (R2 := sub_range i2 ltac:(set_solver)).
  destruct (co_len _ _ _ HC) as (L1 & L2 & L3 & L4 & L5 & L6).
  case_decide as E.
  - intros [= <-]. subst p'. exists (with_disk 1 x). cbn [q_b]. split; [unfold s'; cbn [dbufs submitted]; apply list_lookup_insert_eq; by eapply lookup_lt_Some|].
    assert (D : i0 <> i1 /\ i0 <> i2 /\ i1 <> i2) by (apply NoDup_cons in Hnd as [? Hn]; apply NoDup_cons in Hn as [? _]; set_solver). destruct D as (D1 & D2 & D3).
    assert (La : forall (A : Type) (l : list A), length l = NUM -> alen l = zNUM) by (intros A l El; unfold alen, zNUM; by rewrite El).
    split; unfold s'; cbn [desc dinfos hdrs submitted set_dfree q_0 q_1 q_2 q_w q_b b_blockno with_disk]; unfold descs_for.
    + rewrite !aget_aset_ne by done || lia. apply aget_aset_eq. by rewrite La.
    + rewrite aget_aset_ne by done || lia. apply aget_aset_eq. rewrite alen_aset. by rewrite La.
    + apply aget_aset_eq. rewrite !alen_aset. by rewrite La.
    + apply aget_aset_eq. by rewrite La.
    + apply list_lookup_insert_eq. rewrite L6. by eapply lookup_lt_Some.
  - intros Hq. destruct (co_own _ _ _ HC p' q Hq) as (y & Hy & [F0 F1 F2 F3 F4]). exists y. pose proof (sub_other p' q E Hq) as Hb.
    assert (Hout : forall i, i ∈ idxs q -> i ∉ [i0; i1; i2]) by (intros i Hi Hin; by apply (sub_new i p' q Hin Hq)).
    split; [unfold s'; cbn [dbufs submitted]; by rewrite list_lookup_insert_ne|]. split; [rewrite sub_desc; [done|apply Hout; set_solver]..| |].
    + unfold s'. cbn [dinfos submitted set_dfree]. rewrite aget_aset_ne; [done| |lia]. intros ->. apply (Hout (q_0 q)); set_solver.
    + unfold s'. cbn [hdrs submitted set_dfree]. by rewrite list_lookup_insert_ne.
Qed.

Lemma sub_free i v : aget F i = Some v -> (i ∈ [i0; i1; i2] /\ v = 0) \/ ((i ∉ [i0; i1; i2]) /\ aget (dfree s) i = Some v).
Proof using All.
  assert (R0 := sub_range i0 ltac:(set_solver)). assert (R1 := sub_range i1 ltac:(set_solver)). assert (R2 := sub_range i2 ltac:(set_solver)).
  assert (La : alen (dfree s) = zNUM) by (unfold alen, zNUM; destruct (co_len _ _ _ HC) as (_ & E & _); by rewrite E). unfold F. intros H.
  destruct (decide (i = i2)) as [->|N2]; [rewrite aget_aset_eq in H by (rewrite !alen_aset; lia); left; split; [set_solver|congruence]|rewrite aget_aset_ne in H by done || lia].
  destruct (decide (i = i1)) as [->|N1]; [rewrite aget_aset_eq in H by (rewrite !alen_aset; lia); left; split; [set_solver|congruence]|rewrite aget_aset_ne in H by done || lia].
  destruct (decide (i = i0)) as [->|N0]; [rewrite aget_aset_eq in H by lia; left; split; [set_solver|congruence]|rewrite aget_aset_ne in H by done || lia].
  right. split; [set_solver|done].
Qed.
Lemma sub_free_new i : i ∈ [i0; i1; i2] -> aget F i = Some 0.
Proof using All.
  intros Hi. destruct (aget_is_Some F i) as [v Hv].
  - unfold F. rewrite !alen_aset. apply H1 in Hi. by apply aget_Some in Hi.
  - destruct (sub_free i v Hv) as [[_ ->]|[? _]]; done.
Qed.
Lemma sub_free_old i v : i ∉ [i0; i1; i2] -> aget (dfree s) i = Some v -> aget F i = Some v.
Proof using All.
  intros Hi Hv. destruct (aget_is_Some F i) as [v' Hv']; [unfold F; rewrite !alen_aset; by eapply aget_Some|]. destruct (sub_free i v' Hv') as [[? _]|[_ ?]]; [done|congruence].
Qed.

Lemma sub_head h : h ∈ U ++ dv_open s ++ N -> h ∉ [i0; i1; i2].
Proof using All. intros (p' & q & y & Hq & <- & _)%(co_busy _ _ _ HC) Hin. apply (sub_new (q_0 q) p' q Hin Hq). set_solver. Qed.

Lemma sub_avail j h : (U ++ [i0]) !! j = Some h -> aget (avail s') ((dv_last s' + Z.of_nat j) mod zNUM) = Some h.
Proof using All.
  destruct (co_avail _ _ _ HC) as (A1 & A2 & A3). pose proof (core_bound s U N HC) as Hb. rewrite !length_app in Hb. destruct (co_len _ _ _ HC) as (_ & _ & _ & L4 & _).
  assert (Ea : avail_idx s mod zNUM = (dv_last s + Z.of_nat (length U)) mod zNUM).
  { rewrite A2. unfold u16, alen, zNUM, NUM. dlia. }
  unfold s'. cbn [avail dv_last submitted set_dfree avail_idx]. rewrite Ea. intros [Hj|[Hj Hh]]%lookup_app_Some.
  - rewrite aget_aset_ne; [by apply A3|pose proof (lookup_lt_Some _ _ _ Hj); unfold zNUM, NUM in *; dlia|unfold zNUM, NUM; dlia].
  - destruct (j - length U)%nat eqn:Ej; [|done]. injection Hh as <-. replace j with (length U) by lia. apply aget_aset_eq. unfold alen. rewrite L4. unfold zNUM, NUM. dlia.
Qed.

Lemma submit_core : core s' (U ++ [i0]) N.
Proof using All.
  destruct (co_len _ _ _ HC) as (L1 & L2 & L3 & L4 & L5 & L6). destruct (co_avail _ _ _ HC) as (A1 & A2 & _).
  assert (Hperm : (U ++ [i0]) ++ dv_open s ++ N ≡ₚ i0 :: U ++ dv_open s ++ N) by (rewrite <- app_assoc; symmetry; apply Permutation_middle).
  split; cbn [desc dfree dinfos avail elems hdrs procs dv_open dv_last avail_idx used_idx used_id dk submitted set_dfree s'].
  - unfold F, descs_for. rewrite !length_aset, !length_insert. by split_and!.
  - apply Forall_lookup. intros n v Hv. rewrite <- aget_of_nat in Hv. destruct (sub_free _ _ Hv) as [[_ ->]|[_ H]]; [by left|].
    rewrite aget_of_nat in H. exact (Forall_lookup_1 _ _ _ _ (co_free _ _ _ HC) H).
  - apply sub_own.
  - fold s'. rewrite sub_slots. apply NoDup_app. split; [done|]. split; [|apply HC]. intros i Hi Hin. apply H1 in Hi. apply (co_taken _ _ _ HC) in Hin. congruence.
  - intros i. fold s'. rewrite sub_slots, elem_of_app, <- (co_taken _ _ _ HC i). split.
    + intros [[Hi _]|[_ Hi]]%sub_free; [by left|by right].
    + intros [Hi|Hi]; [by apply sub_free_new|]. apply sub_free_old; [|done]. intros Hin. apply H1 in Hin. congruence.
  - intros p' b' w'. fold s'. rewrite sub_buf. intros (y & Hy & H)%(co_buf _ _ _ HC). destruct (decide (b' = b)) as [->|Hne].
    + simplify_eq. exists (with_disk 1 x). split; [apply list_lookup_insert_eq; by eapply lookup_lt_Some|done].
    + exists y. split; [unfold s'; cbn [dbufs submitted set_dfree]; by rewrite list_lookup_insert_ne|done].
  - intros p1 p2 b1 w1 b2 w2 x1 x2. fold s'. rewrite !sub_buf. intros B1 B2 (y1 & Y1 & E1 & _)%sub_dbufs (y2 & Y2 & E2 & _)%sub_dbufs. rewrite E1, E2. by apply (co_apart _ _ _ HC p1 p2 b1 w1 b2 w2).
  - rewrite Hperm. apply NoDup_cons. split; [|apply HC]. intros Hin. apply (sub_head _ Hin). set_solver.
  - intros h. rewrite Hperm, elem_of_cons, (co_busy _ _ _ HC h). setoid_rewrite sub_req. split.
    + intros [->|(p' & q & y & Hq & E & Hy & Hd)].
      * exists p, (mk_rq b w i0 i1 i2), (with_disk 1 x). rewrite decide_True by done. split_and!; [done|done|apply list_lookup_insert_eq; by eapply lookup_lt_Some|done].
      * assert (Hne : p' <> p) by (intros ->; unfold req_at in Hq; by rewrite Hp in Hq). exists p', q, y. rewrite decide_False by done. split_and!; [done|done| |done].
        pose proof (sub_other p' q Hne Hq). unfold s'. cbn [dbufs submitted set_dfree]. by rewrite list_lookup_insert_ne.
    + intros (p' & q & y & Hq & E & Hy & Hd). case_decide as Ep; [injection Hq as <-; by left|right]. exists p', q, y. split_and!; [done|done| |done].
      pose proof (sub_other p' q Ep Hq). unfold s' in Hy. cbn [dbufs submitted set_dfree] in Hy. by rewrite list_lookup_insert_ne in Hy.
  - split; [done|]. split; [|apply sub_avail]. rewrite A2. unfold alen. rewrite length_app. cbn [length]. unfold u16. rewrite Zplus_mod_idemp_l. f_equal. lia.
  - apply HC.
  - intros p' q y. fold s'. rewrite sub_req. case_decide as Ep; [intros [= <-] Hn; destruct Hn; cbn; set_solver|]. intros Hq Hn (y0 & Hy0 & -> & -> & _)%sub_dbufs.
    apply (co_done _ _ _ HC p' q y0 Hq); [set_solver|done].
Qed.

End submit.

(** ** The end of a request *)

Section finish.
Context (s : vst) (U N : list Z) (p : nat) (q : rq) (x : dbuf).
Hypothesis HC : core s U N.
Hypothesis Hp : procs s !! p = Some (ReadyBuf (q_b q) (q_w q) (q_0 q) (q_1 q) (q_2 q)).
Hypothesis Hx : dbufs s !! q_b q = Some x.
Hypothesis Hd : b_disk x <> 1.
Let F : list Z := aset (aset (aset (dfree s) (q_0 q) 1) (q_1 q) 1) (q_2 q) 1.
Let D : list VRingDesc := aset (aset (aset (desc s) (q_0 q) (mk_desc Anull 16 VRING_DESC_F_NEXT (q_1 q)))
  (q_1 q) (mk_desc Anull BSIZE (Z.lor (if q_w q then 0 else VRING_DESC_F_WRITE) VRING_DESC_F_NEXT) (q_2 q))) (q_2 q) (mk_desc Anull 1 VRING_DESC_F_WRITE 0).
Let s' : vst := set_procs (<[p := Out]> (wakef <$> procs s)) (set_dfree F (set_desc D (set_dinfos (aset (dinfos s) (q_0 q) (mk_info None 0)) s))).

Lemma fin_req_at : req_at s p = Some q.
Proof using All. unfold req_at. rewrite Hp. cbn. by destruct q. Qed.
Lemma fin_form : formatted s p q x.
Proof using All. destruct (co_own _ _ _ HC p q fin_req_at) as (y & Hy & H). by simplify_eq. Qed.
Lemma fin_ne : q_0 q <> q_1 q /\ q_0 q <> q_2 q /\ q_1 q <> q_2 q.
Proof using All.
  pose proof (slots_idxs s p q (co_nodup _ _ _ HC) fin_req_at) as Hnd. apply NoDup_cons in Hnd as [? Hn]. apply NoDup_cons in Hn as [? _]. set_solver.
Qed.
Lemma fin_taken i : i ∈ idxs q -> aget (dfree s) i = Some 0 /\ 0 <= i < zNUM.
Proof using All.
  intros Hi. assert (H : aget (dfree s) i = Some 0) by (apply (co_taken _ _ _ HC), idx_elem; exists p, q; split; [apply fin_req_at|done]). split; [done|].
  apply aget_Some in H. destruct (co_len _ _ _ HC) as (_ & E & _). unfold alen, zNUM in *. by rewrite E in H.
Qed.

Lemma finish_run : rw_wait p (q_b q) (q_w q) (q_0 q) (q_1 q) (q_2 q) s = Ret tt s'.
Proof using All.
  destruct fin_form as [F0 F1 F2 F3 F4]. destruct fin_ne as (E01 & E02 & E12). destruct (co_len _ _ _ HC) as (L1 & L2 & L3 & _).
  destruct (fin_taken (q_0 q) ltac:(set_solver)) as [T0 R0]. destruct (fin_taken (q_1 q) ltac:(set_solver)) as [T1 R1]. destruct (fin_taken (q_2 q) ltac:(set_solver)) as [T2 R2].
  unfold rw_wait. rewrite (bind_Ret _ _ _ _ _ (get_buf_run s _ x Hx)), (proj2 (Z.eqb_neq _ _) Hd). unfold rw_finish.
  rewrite (bind_Ret _ _ _ _ _ (get_info_run s _ _ F3)), (bind_Ret _ _ _ _ _ (put_info_run s _ _ _ F3)). set (s1 := set_dinfos _ s).
  assert (Hfree : free_chain (q_0 q) s1 = Ret tt (freed (q_2 q) (mk_desc (Astatus (q_0 q)) 1 VRING_DESC_F_WRITE 0)
    (freed (q_1 q) (mk_desc (Adata (q_b q)) BSIZE (Z.lor (if q_w q then 0 else VRING_DESC_F_WRITE) VRING_DESC_F_NEXT) (q_2 q))
    (freed (q_0 q) (mk_desc (Ahdr p) 16 VRING_DESC_F_NEXT (q_1 q)) s1)))).
  { unfold free_chain, NUM. cbn [free_chain_loop]. rewrite (bind_Ret _ _ _ _ _ (free_desc_run s1 (q_0 q) _ L2 T0 F0)). set (t0 := freed (q_0 q) _ s1).
    assert (G0 : aget (desc t0) (q_0 q) = Some (mk_desc Anull 16 VRING_DESC_F_NEXT (q_1 q))) by (apply aget_aset_eq; unfold s1; cbn; unfold alen; rewrite L1; apply R0).
    rewrite (bind_Ret _ _ _ _ _ (get_desc_run t0 _ _ G0)). cbn [d_flags d_next]. change (Z.land VRING_DESC_F_NEXT VRING_DESC_F_NEXT =? 0) with false. cbn [negb].
    assert (X1 : aget (dfree t0) (q_1 q) = Some 0) by (unfold t0, freed; cbn; rewrite aget_aset_ne; [done|done|lia]).
    assert (Y1 : aget (desc t0) (q_1 q) = Some (mk_desc (Adata (q_b q)) BSIZE (Z.lor (if q_w q then 0 else VRING_DESC_F_WRITE) VRING_DESC_F_NEXT) (q_2 q))) by (unfold t0, freed; cbn; rewrite aget_aset_ne; [done|done|lia]).
    rewrite (bind_Ret _ _ _ _ _ (free_desc_run t0 (q_1 q) _ ltac:(unfold t0, freed; cbn; by rewrite length_aset) X1 Y1)). set (t1 := freed (q_1 q) _ t0).
    assert (G1 : aget (desc t1) (q_1 q) = Some (mk_desc Anull BSIZE (Z.lor (if q_w q then 0 else VRING_DESC_F_WRITE) VRING_DESC_F_NEXT) (q_2 q))) by (apply aget_aset_eq; unfold t0, freed; cbn; rewrite alen_aset; unfold alen; rewrite L1; apply R1).
    rewrite (bind_Ret _ _ _ _ _ (get_desc_run t1 _ _ G1)). cbn [d_flags d_next]. replace (Z.land (Z.lor (if q_w q then 0 else VRING_DESC_F_WRITE) VRING_DESC_F_NEXT) VRING_DESC_F_NEXT =? 0) with false by (by destruct (q_w q)). cbn [negb].
    assert (X2 : aget (dfree t1) (q_2 q) = Some 0) by (unfold t1, t0, freed; cbn; rewrite !aget_aset_ne; [done|done|lia|done|lia]).
    assert (Y2 : aget (desc t1) (q_2 q) = Some (mk_desc (Astatus (q_0 q)) 1 VRING_DESC_F_WRITE 0)) by (unfold t1, t0, freed; cbn; rewrite !aget_aset_ne; [done|done|lia|done|lia]).
    rewrite (bind_Ret _ _ _ _ _ (free_desc_run t1 (q_2 q) _ ltac:(unfold t1, t0, freed; cbn; by rewrite !length_aset) X2 Y2)). set (t2 := freed (q_2 q) _ t1).
    assert (G2 : aget (desc t2) (q_2 q) = Some (mk_desc Anull 1 VRING_DESC_F_WRITE 0)) by (apply aget_aset_eq; unfold t1, t0, freed; cbn; rewrite !alen_aset; unfold alen; rewrite L1; apply R2).
    rewrite (bind_Ret _ _ _ _ _ (get_desc_run t2 _ _ G2)). done. }
  rewrite (bind_Ret _ _ _ _ _ Hfree). unfold put_proc, modify. set (t0 := freed (q_0 q) _ s1). set (t1 := freed (q_1 q) _ t0). set (t2 := freed (q_2 q) _ t1).
  assert (Ep : procs t2 = wakef <$> procs s) by (change (wakef <$> (wakef <$> (wakef <$> procs s)) = wakef <$> procs s); by rewrite !wakef_idem). rewrite Ep. reflexivity.
Qed.

Lemma fin_req p' : req_at s' p' = if decide (p' = p) then None else req_at s p'.
Proof using All.
  unfold req_at, s'. cbn [procs set_procs]. case_decide as E; [rewrite E, list_lookup_insert_eq by (rewrite length_fmap; by eapply lookup_lt_Some); done|].
  rewrite list_lookup_insert_ne, list_lookup_fmap by done. destruct (procs s !! p') as [y|]; [|done]. cbn. apply wakef_req.
Qed.
Lemma fin_buf p' : buf_at s' p' = if decide (p' = p) then None else buf_at s p'.
Proof using All.
  unfold buf_at, s'. cbn [procs set_procs]. case_decide as E; [rewrite E, list_lookup_insert_eq by (rewrite length_fmap; by eapply lookup_lt_Some); done|].
  rewrite list_lookup_insert_ne, list_lookup_fmap by done. destruct (procs s !! p') as [y|]; [|done]. cbn. apply wakef_req.
Qed.
Lemma fin_slots : idxs q ++ concat (slots s') ≡ₚ concat (slots s).
Proof using All.
  assert (E : slots s' = <[p := []]> (slots s)).
  { unfold slots, s'. cbn [procs set_procs]. rewrite list_fmap_insert, <- list_fmap_compose. f_equal. apply list_fmap_ext. intros _ y _. cbn. by rewrite (proj1 (wakef_req y)). }
  rewrite E, (concat_put _ p (idxs q) []); [done|]. by apply slots_at, fin_req_at.
Qed.
Lemma fin_nodup : NoDup (concat (slots s')) /\ forall i, i ∈ idxs q -> i ∉ concat (slots s').
Proof using All. pose proof (co_nodup _ _ _ HC) as H. rewrite <- fin_slots in H. apply NoDup_app in H as (_ & H1 & H2). by split. Qed.

Lemma fin_free i v : aget F i = Some v -> (i ∈ idxs q /\ v = 1) \/ ((i ∉ idxs q) /\ aget (dfree s) i = Some v).
Proof using All.
  destruct (fin_taken (q_0 q) ltac:(set_solver)) as [T0 R0]. destruct (fin_taken (q_1 q) ltac:(set_solver)) as [T1 R1]. destruct (fin_taken (q_2 q) ltac:(set_solver)) as [T2 R2].
  apply aget_Some in T0, T1, T2. unfold F, idxs. intros H.
  destruct (decide (i = q_2 q)) as [->|N2]; [rewrite aget_aset_eq in H by (by rewrite !alen_aset); left; split; [set_solver|congruence]|rewrite aget_aset_ne in H by (done || lia)].
  destruct (decide (i = q_1 q)) as [->|N1]; [rewrite aget_aset_eq in H by (by rewrite !alen_aset); left; split; [set_solver|congruence]|rewrite aget_aset_ne in H by (done || lia)].
  destruct (decide (i = q_0 q)) as [->|N0]; [rewrite aget_aset_eq in H by done; left; split; [set_solver|congruence]|rewrite aget_aset_ne in H by (done || lia)].
  right. split; [set_solver|done].
Qed.
Lemma fin_keep {A} (l : list A) a b c i : i ∉ idxs q -> aget (aset (aset (aset l (q_0 q) a) (q_1 q) b) (q_2 q) c) i = aget l i.
Proof using All.
  intros Hi. destruct (fin_taken (q_0 q) ltac:(set_solver)) as [_ R0]. destruct (fin_taken (q_1 q) ltac:(set_solver)) as [_ R1]. destruct (fin_taken (q_2 q) ltac:(set_solver)) as [_ R2].
  unfold idxs in Hi. rewrite !aget_aset_ne by (lia || set_solver). done.
Qed.

Lemma fin_head h : h ∈ U ++ dv_open s ++ N -> h <> q_0 q.
Proof using All.
  intros (p' & q' & y & Hq & <- & Hy & H1)%(co_busy _ _ _ HC) E.
  assert (p' = p) as -> by (apply (slots_disjoint s p' p q' q (q_0 q) (co_nodup _ _ _ HC) Hq fin_req_at); [rewrite <- E|]; unfold idxs; set_solver).
  rewrite fin_req_at in Hq. injection Hq as <-. by simplify_eq.
Qed.

Lemma finish_core : core s' U N.
Proof using All.
  destruct (co_len _ _ _ HC) as (L1 & L2 & L3 & L4 & L5 & L6). destruct fin_nodup as [ND1 ND2].
  split; cbn [desc dfree dinfos avail elems hdrs procs dbufs dv_open dv_last avail_idx used_idx used_id dk set_procs set_dfree set_desc set_dinfos s']; try apply HC.
  - unfold F, D. rewrite !length_aset, !length_insert, length_fmap. by split_and!.
  - apply Forall_lookup. intros n v Hv. rewrite <- aget_of_nat in Hv. destruct (fin_free _ _ Hv) as [[_ ->]|[_ H]]; [by right|].
    rewrite aget_of_nat in H. exact (Forall_lookup_1 _ _ _ _ (co_free _ _ _ HC) H).
  - intros p' q'. fold s'. rewrite fin_req. case_decide as E; [done|]. intros Hq. destruct (co_own _ _ _ HC p' q' Hq) as (y & Hy & [F0 F1 F2 F3 F4]). exists y. split; [done|].
    assert (Hout : forall i, i ∈ idxs q' -> i ∉ idxs q) by (intros i Hi Hin; apply E; by apply (slots_disjoint s p' p q' q i (co_nodup _ _ _ HC) Hq fin_req_at)).
    split; cbn [desc dinfos hdrs s' set_procs set_dfree set_desc set_dinfos]; [unfold D; rewrite fin_keep; [done|apply Hout; unfold idxs; set_solver]..| |done].
    rewrite aget_aset_ne; [done| |destruct (fin_taken (q_0 q)) as [_ ?]; [unfold idxs; set_solver|lia]]. intros E0. apply (Hout (q_0 q')); [unfold idxs; set_solver|rewrite <- E0; unfold idxs; set_solver].
  - exact ND1.
  - intros i. fold s'. assert (Hc : i ∈ concat (slots s) <-> i ∈ idxs q \/ i ∈ concat (slots s')) by (rewrite <- fin_slots; apply elem_of_app). pose proof (co_taken _ _ _ HC i) as Ht. split.
    + intros [[_ ?]|[Hi H0]]%fin_free; [done|]. tauto.
    + intros Hi. assert (Hn : i ∉ idxs q) by (intros Hn; by apply (ND2 i Hn)). unfold F. rewrite fin_keep by done. tauto.
  - intros p' b w. fold s'. rewrite fin_buf. case_decide; [done|]. apply HC.
  - intros p1 p2 b1 w1 b2 w2 x1 x2. fold s'. rewrite !fin_buf. case_decide; [done|]. case_decide; [done|]. by apply (co_apart _ _ _ HC).
  - intros h. fold s'. rewrite (co_busy _ _ _ HC h). setoid_rewrite fin_req. split.
    + intros (p' & q' & y & Hq & E & Hy & H1). exists p', q', y. assert (Hne : p' <> p).
      { intros ->. rewrite fin_req_at in Hq. injection Hq as <-. by simplify_eq. }
      by rewrite decide_False.
    + intros (p' & q' & y & Hq & H). exists p', q', y. case_decide; [done|]. by split.
  - intros p' q' y. fold s'. rewrite fin_req. case_decide; [done|]. apply HC.
Qed.

End finish.

(** ** The interrupt handler *)

Definition wakeb (b : nat) (x : where_) : where_ := match x with WaitBuf c w i j k => if decide (c = b) then ReadyBuf c w i j k else x | _ => x end.
Lemma wakeb_req b x : req_of (wakeb b x) = req_of x /\ buf_of (wakeb b x) = buf_of x.
Proof using. destruct x; try done. cbn. by destruct (decide _). Qed.

Definition seen (b : nat) (x : dbuf) (s : vst) : vst :=
  set_used_idx ((used_idx s + 1) mod zNUM) (set_procs (wakeb b <$> procs s) (set_dbufs (<[b := with_disk 0 x]> (dbufs s)) s)).

Lemma with_disk_lookup (l : list dbuf) b x v b' y : l !! b = Some x -> <[b := with_disk v x]> l !! b' = Some y ->
  exists y0, l !! b' = Some y0 /\ b_blockno y = b_blockno y0 /\ b_data y = b_data y0 /\ (b' <> b -> y = y0) /\ (b' = b -> b_disk y = v).
Proof using. intros Hx [(<- & <- & _)|[Hne Hy]]%list_lookup_insert_Some; [exists x; by split_and!|exists y; by split_and!]. Qed.

(** The process that waits for the chain [h]. *)
Lemma core_owner s U N h : core s U N -> h ∈ U ++ dv_open s ++ N -> exists p q x, req_at s p = Some q /\ q_0 q = h /\ dbufs s !! q_b q = Some x /\ b_disk x = 1 /\ formatted s p q x.
Proof using.
  intros HC (p & q & x & Hq & E & Hx & H1)%(co_busy _ _ _ HC). exists p, q, x. split_and!; [done..|]. destruct (co_own _ _ _ HC p q Hq) as (y & Hy & H). by simplify_eq.
Qed.
Lemma owner_unique s U N p p' q q' : core s U N -> req_at s p = Some q -> req_at s p' = Some q' -> q_0 q = q_0 q' -> p = p' /\ q = q'.
Proof using.
  intros HC Hq Hq' E. assert (p = p') as <- by (apply (slots_disjoint s p p' q q' (q_0 q) (co_nodup _ _ _ HC) Hq Hq'); [|rewrite E]; unfold idxs; set_solver).
  split; [done|congruence].
Qed.
Lemma req_buf s p q : req_at s p = Some q -> buf_at s p = Some (q_b q, q_w q).
Proof using. intros (z & Hz & Hq)%bind_Some. unfold buf_at. rewrite Hz. destruct z; cbn in Hq; simplify_eq; done. Qed.
Lemma buf_unique s U N p p' q q' : core s U N -> req_at s p = Some q -> req_at s p' = Some q' -> q_b q = q_b q' -> p = p' /\ q = q'.
Proof using.
  intros HC Hq Hq' E. destruct (co_own _ _ _ HC p q Hq) as (y & Hy & _). destruct (co_own _ _ _ HC p' q' Hq') as (y' & Hy' & _).
  assert (p = p') as <-; [|split; [done|congruence]]. eapply (co_apart _ _ _ HC p p'); [by apply req_buf|by apply req_buf|done|done|by left].
Qed.

Section seen.
Context (s : vst) (U N : list Z) (h : Z) (p : nat) (q : rq) (x : dbuf).
Hypothesis HC : core s U (h :: N).
Hypothesis Hq : req_at s p = Some q.
Hypothesis Eh : q_0 q = h.
Hypothesis Hx : dbufs s !! q_b q = Some x.
Let s' : vst := seen (q_b q) x s.

Lemma seen_req p' : req_at s' p' = req_at s p'.
Proof using All. unfold req_at, s'. cbn [procs seen set_used_idx set_procs]. rewrite list_lookup_fmap. destruct (procs s !! p'); [|done]. apply wakeb_req. Qed.
Lemma seen_buf p' : buf_at s' p' = buf_at s p'.
Proof using All. unfold buf_at, s'. cbn [procs seen set_used_idx set_procs]. rewrite list_lookup_fmap. destruct (procs s !! p'); [|done]. apply wakeb_req. Qed.

Lemma seen_core : core s' U N.
Proof using All.
  destruct (co_used _ _ _ HC) as (U1 & U2 & U3 & U4). assert (Es : slots s' = slots s) by (apply sv_slots, sv_fmap, wakeb_req).
  assert (Hlook : forall b y, dbufs s' !! b = Some y -> _) by (intros b y; apply (with_disk_lookup (dbufs s) (q_b q) x 0 b y Hx)).
  assert (Hnd : NoDup (h :: U ++ dv_open s ++ N)) by (pose proof (co_pend _ _ _ HC) as H; rewrite app_assoc, <- Permutation_middle, <- app_assoc in H; done). apply NoDup_cons in Hnd as [Hh Hnd].
  split; cbn [desc dfree dinfos avail elems hdrs procs dv_open dv_last avail_idx used_idx used_id dk seen set_used_idx set_procs set_dbufs s']; try apply HC.
  - rewrite length_fmap. apply HC.
  - intros p' q'. fold s'. rewrite seen_req. intros Hq'. destruct (co_own _ _ _ HC p' q' Hq') as (y & Hy & [F0 F1 F2 F3 F4]).
    destruct (decide (q_b q' = q_b q)) as [E|E].
    + destruct (buf_unique _ _ _ p' p q' q HC Hq' Hq E) as [-> ->]. simplify_eq. exists (with_disk 0 x). split; [apply list_lookup_insert_eq; by eapply lookup_lt_Some|by split].
    + exists y. split; [unfold s'; cbn [dbufs seen set_used_idx set_procs set_dbufs]; by rewrite list_lookup_insert_ne|by split].
  - fold s'. rewrite Es. apply HC.
  - fold s'. rewrite Es. apply HC.
  - intros p' b w. fold s'. rewrite seen_buf. intros (y & Hy & H)%(co_buf _ _ _ HC). destruct (decide (b = q_b q)) as [->|Hne].
    + simplify_eq. exists (with_disk 0 x). split; [apply list_lookup_insert_eq; by eapply lookup_lt_Some|done].
    + exists y. split; [unfold s'; cbn [dbufs seen set_used_idx set_procs set_dbufs]; by rewrite list_lookup_insert_ne|done].
  - intros p1 p2 b1 w1 b2 w2 x1 x2. fold s'. rewrite !seen_buf. intros B1 B2 (y1 & Y1 & E1 & _)%Hlook (y2 & Y2 & E2 & _)%Hlook. rewrite E1, E2. by apply (co_apart _ _ _ HC p1 p2 b1 w1 b2 w2).
  - exact Hnd.
  - intros i. fold s'. setoid_rewrite seen_req. assert (Hi : i ∈ U ++ dv_open s ++ N <-> i ∈ U ++ dv_open s ++ h :: N /\ i <> h).
    { rewrite !elem_of_app, elem_of_cons. rewrite !elem_of_app in Hh. split; [|tauto]. intros Hi. split; [tauto|]. intros ->. tauto. }
    rewrite Hi, (co_busy _ _ _ HC i). split.
    + intros [(p' & q' & y & Hq' & E & Hy & H1) Hne]. exists p', q', y. split_and!; [done|done| |done]. unfold s'. cbn [dbufs seen set_used_idx set_procs set_dbufs]. rewrite list_lookup_insert_ne; [done|].
      intros E'. destruct (buf_unique _ _ _ p p' q q' HC Hq Hq' E') as [_ <-]. congruence.
    + intros (p' & q' & y & Hq' & E & (y0 & Hy0 & _ & _ & Hne & Heq)%Hlook & H1). destruct (decide (q_b q' = q_b q)) as [Eb|Eb]; [rewrite (Heq Eb) in H1; done|]. rewrite (Hne Eb) in H1.
      split; [by exists p', q', y0|]. intros Ei. destruct (owner_unique _ _ _ p' p q' q HC Hq' Hq) as [_ Eq]; [congruence|]. by apply Eb; rewrite Eq.
  - split; [apply Z.mod_pos_bound; unfold zNUM, NUM; lia|]. split; [done|]. split.
    + rewrite U3. unfold alen, zNUM, NUM in *. cbn [length]. dlia.
    + intros j i Hj. destruct (U4 (S j) i Hj) as [len Hl]. exists len. rewrite <- Hl. f_equal. unfold zNUM, NUM in *. dlia.
  - intros p' q' y. fold s'. rewrite seen_req. intros Hq' Hn (y0 & Hy0 & -> & -> & _)%Hlook. by apply (co_done _ _ _ HC p' q' y0 Hq').
Qed.

End seen.

End spec.

Arguments co_len {_} _ _ _ _.
Arguments co_free {_} _ _ _ _.
Arguments co_own {_} _ _ _ _.
Arguments co_nodup {_} _ _ _ _.
Arguments co_taken {_} _ _ _ _.
Arguments co_buf {_} _ _ _ _.
Arguments co_apart {_} _ _ _ _.
Arguments co_pend {_} _ _ _ _.
Arguments co_busy {_} _ _ _ _.
Arguments co_avail {_} _ _ _ _.
Arguments co_used {_} _ _ _ _.
Arguments co_done {_} _ _ _ _.
Arguments inv_core {_} _ _.
Arguments inv_wbuf {_} _ _.
Arguments inv_wfree {_} _ _.
Arguments inv_notify {_} _ _.
Arguments core_bound {_} _ _ _ _.
Arguments core_owner {_} _ _ _ _ _ _.
Arguments owner_unique {_} _ _ _ _ _ _ _ _ _ _ _.
Arguments buf_unique {_} _ _ _ _ _ _ _ _ _ _ _.

End Virtiospec.
