(* ===== verification/Virtioref.v ===== *)
(** What the disk driver promises: with a device that does what its specification
    says, each call of [virtio_disk_rw] reads or writes its block atomically, however
    calls, device and interrupts interleave; the driver never panics and never
    gets stuck. *)

From S2P Require Import Prelude Mem Virtio Virtiospec.
Import Virtio Virtiospec.

Module Virtioref.

Section spec.
Context (nsectors : Z).
Abbreviation core := (core nsectors).
Abbreviation inv := (inv nsectors).

(** ** The disk as its callers see it *)

Inductive aproc := AIdle | APending (b : nat) (w : bool) | ADone (b : nat) (w : bool).
(** The medium; block number and data of each buffer; the calls. *)
Record astate := mk_astate { a_disk : Z -> Z; a_bufs : list (Z * mem); a_procs : list aproc }.

(** A call, its effect, which happens at once, and its return; and a buffer that no
    call uses gets another block or other data. *)
Inductive astep : astate -> astate -> Prop :=
| a_call a p b w : a_procs a !! p = Some AIdle -> astep a (mk_astate (a_disk a) (a_bufs a) (<[p := APending b w]> (a_procs a)))
| a_read a p b n d : a_procs a !! p = Some (APending b false) -> a_bufs a !! b = Some (n, d) ->
    astep a (mk_astate (a_disk a) (<[b := (n, from_disk (a_disk a) (2 * n) d)]> (a_bufs a)) (<[p := ADone b false]> (a_procs a)))
| a_write a p b n d : a_procs a !! p = Some (APending b true) -> a_bufs a !! b = Some (n, d) ->
    astep a (mk_astate (to_disk (a_disk a) (2 * n) d) (a_bufs a) (<[p := ADone b true]> (a_procs a)))
| a_edit a b n d : (forall p w, a_procs a !! p <> Some (APending b w) /\ a_procs a !! p <> Some (ADone b w)) -> astep a (mk_astate (a_disk a) (<[b := (n, d)]> (a_bufs a)) (a_procs a))
| a_return a p b w : a_procs a !! p = Some (ADone b w) -> astep a (mk_astate (a_disk a) (a_bufs a) (<[p := AIdle]> (a_procs a))).

(** The chains that the device has been offered and has not served. *)
Definition offered (s : vst) : list Z :=
  omap (fun j => aget (avail s) ((dv_last s + Z.of_nat j) mod zNUM)) (seq 0 (Z.to_nat (u16 (avail_idx s - dv_last s)))).
Definition unserved (s : vst) : list Z := offered s ++ dv_open s.

Definition aproc_of (L : list Z) (x : where_) : aproc :=
  match buf_of x with
  | None => AIdle
  | Some (b, w) => match req_of x with Some q => if decide (q_0 q ∈ L) then APending b w else ADone b w | None => APending b w end
  end.
Definition abs (s : vst) : astate := mk_astate (dk s) ((fun x => (b_blockno x, b_data x)) <$> dbufs s) (aproc_of (unserved s) <$> procs s).

Lemma omap_seq {A} (f : nat -> option A) (l : list A) : (forall j x, l !! j = Some x -> f j = Some x) -> omap f (seq 0 (length l)) = l.
Proof using.
  induction l as [|x l IH] using rev_ind; [done|]. intros H. rewrite length_app. cbn [length]. rewrite seq_app, omap_app. cbn [seq omap list_omap].
  rewrite Nat.add_0_l, (H (length l) x) by (rewrite lookup_app_r, Nat.sub_diag; done). f_equal. apply IH. intros j y Hj. apply H. by apply lookup_app_l_Some.
Qed.

Lemma core_offered s U N : core s U N -> offered s = U.
Proof using.
  intros HC. destruct (co_avail _ _ _ HC) as (A1 & A2 & A3). pose proof (core_bound s U N HC) as Hb. rewrite !length_app in Hb. unfold offered.
  assert (E : Z.to_nat (u16 (avail_idx s - dv_last s)) = length U) by (rewrite A2; unfold u16, alen; dlia). rewrite E. by apply omap_seq.
Qed.
Lemma core_unserved s U N : core s U N -> unserved s = U ++ dv_open s.
Proof using. intros HC. unfold unserved. by rewrite (core_offered s U N HC). Qed.

Lemma aproc_same L L' x y : buf_of y = buf_of x -> req_of y = req_of x -> (forall q, req_of x = Some q -> q_0 q ∈ L' <-> q_0 q ∈ L) -> aproc_of L' y = aproc_of L x.
Proof using.
  intros Eb Er HL. unfold aproc_of. rewrite Eb, Er. destruct (buf_of x) as [[b w]|]; [|done]. destruct (req_of x) as [q|]; [|done].
  by rewrite (decide_ext _ _ _ _ (HL q eq_refl)).
Qed.

Lemma with_disk_fmap (l : list dbuf) b x v : l !! b = Some x -> (fun x => (b_blockno x, b_data x)) <$> <[b := with_disk v x]> l = (fun x => (b_blockno x, b_data x)) <$> l.
Proof using. intros Hx. rewrite list_fmap_insert. cbn. apply list_insert_id. by rewrite list_lookup_fmap, Hx. Qed.

(** The view does not change. *)
Lemma abs_same s s' : dk s' = dk s -> (fun x => (b_blockno x, b_data x)) <$> dbufs s' = (fun x => (b_blockno x, b_data x)) <$> dbufs s -> length (procs s') = length (procs s) ->
  (forall p x, procs s !! p = Some x -> exists y, procs s' !! p = Some y /\ aproc_of (unserved s') y = aproc_of (unserved s) x) -> abs s' = abs s.
Proof using.
  intros E1 E2 E3 H. unfold abs. rewrite E1, E2. f_equal. apply list_eq. intros p. rewrite !list_lookup_fmap. destruct (procs s !! p) as [x|] eqn:Hx.
  - destruct (H p x Hx) as (y & -> & E). cbn. by rewrite E.
  - apply lookup_ge_None in Hx. by rewrite (proj2 (lookup_ge_None (procs s') p)) by lia.
Qed.

(** The view of process [p] changes to [a]. *)
Lemma abs_procs s s' p a : length (procs s') = length (procs s) ->
  (forall i x, i <> p -> procs s !! i = Some x -> exists y, procs s' !! i = Some y /\ aproc_of (unserved s') y = aproc_of (unserved s) x) ->
  (forall y, procs s' !! p = Some y -> aproc_of (unserved s') y = a) -> a_procs (abs s') = <[p := a]> (a_procs (abs s)).
Proof using.
  intros E3 H Hp. cbn [a_procs abs]. apply list_eq. intros i. destruct (decide (i = p)) as [->|Hne].
  - rewrite list_lookup_fmap. destruct (procs s' !! p) as [y|] eqn:Hy.
    + rewrite list_lookup_insert_eq by (rewrite length_fmap, <- E3; by eapply lookup_lt_Some). cbn. by rewrite (Hp y).
    + apply lookup_ge_None in Hy. symmetry. apply lookup_ge_None. rewrite length_insert, length_fmap. lia.
  - rewrite list_lookup_insert_ne, !list_lookup_fmap by done. destruct (procs s !! i) as [x|] eqn:Hx.
    + destruct (H i x Hne Hx) as (y & -> & E). cbn. by rewrite E.
    + apply lookup_ge_None in Hx. by rewrite (proj2 (lookup_ge_None (procs s') i)) by lia.
Qed.

(** ** The interrupt handler *)

Lemma intr_exit s U fuel : core s U [] -> intr_loop (S fuel) s = Ret tt s.
Proof using.
  intros HC. destruct (co_used _ _ _ HC) as (U1 & U2 & U3 & _). cbn [intr_loop]. unfold bind at 1 2, gets. cbn in U3. rewrite Z.add_0_r in U3.
  rewrite (proj2 (Z.eqb_eq _ _)); [done|]. by symmetry.
Qed.

Lemma intr_iter s U h N : core s U (h :: N) -> exists p q x, req_at s p = Some q /\ q_0 q = h /\ dbufs s !! q_b q = Some x /\
  forall fuel, intr_loop (S fuel) s = intr_loop fuel (seen (q_b q) x s).
Proof using.
  intros HC. destruct (core_owner s U (h :: N) h HC) as (p & q & x & Hq & E & Hx & _ & [_ _ _ F3 _]); [set_solver|]. exists p, q, x. split_and!; [done..|]. intros fuel.
  destruct (co_used _ _ _ HC) as (U1 & U2 & U3 & U4). destruct (U4 0%nat h eq_refl) as [len Hl]. rewrite Z.add_0_r, Z.mod_small in Hl by done.
  pose proof (core_bound s U (h :: N) HC) as Hb. rewrite !length_app in Hb. cbn [length] in Hb. cbn [intr_loop]. unfold bind at 1 2, gets at 1 2.
  rewrite (proj2 (Z.eqb_neq _ _)) by (unfold zNUM in *; rewrite U3; unfold alen, NUM in *; cbn [length]; dlia).
  unfold bind at 1, gets at 1. rewrite Hl. unfold bind at 1, deref at 1, ret at 1. cbn [e_id]. rewrite E in F3. rewrite (bind_Ret _ _ _ _ _ (get_info_run s h _ F3)). cbn [i_status i_b Z.eqb negb].
  unfold bind at 1, deref at 1, ret at 1. rewrite (bind_Ret _ _ _ _ _ (get_buf_run s _ x Hx)), (bind_Ret _ _ _ _ _ (put_buf_run s _ x _ Hx)). done.
Qed.

Lemma seen_inv s U N h p q x : inv s -> core s U (h :: N) -> req_at s p = Some q -> q_0 q = h -> dbufs s !! q_b q = Some x -> inv (seen (q_b q) x s) /\ core (seen (q_b q) x s) U N.
Proof using.
  intros [_ HW HF HN] HC Hq E Hx. pose proof (seen_core nsectors s U N h p q x HC Hq E Hx) as HC'. split; [|done]. split; [by exists U, N|..]; cbn [procs dbufs dfree seen set_used_idx set_procs set_dbufs].
  - intros i b w j k m Hi. rewrite list_lookup_fmap in Hi. destruct (procs s !! i) as [y|] eqn:Hy; [|done]. cbn in Hi. destruct y; try done. cbn in Hi. case_decide; [done|]. injection Hi as <- <- <- <- <-.
    destruct (HW _ _ _ _ _ _ Hy) as (y & Hby & H1). exists y. by rewrite list_lookup_insert_ne.
  - intros i b w Hi. rewrite list_lookup_fmap in Hi. destruct (procs s !! i) as [y|] eqn:Hy; [|done]. cbn in Hi. destruct y; try done; cbn in Hi; [by eapply HF|by case_decide].
  - exact HN.
Qed.

Lemma seen_abs s U N h p q x : core s U (h :: N) -> core (seen (q_b q) x s) U N -> req_at s p = Some q -> dbufs s !! q_b q = Some x -> abs (seen (q_b q) x s) = abs s.
Proof using.
  intros HC HC' Hq Hx. apply abs_same; [done|by apply with_disk_fmap|apply length_fmap|]. intros i y Hy. exists (wakeb (q_b q) y).
  split; [cbn [procs seen set_used_idx set_procs]; by rewrite list_lookup_fmap, Hy|]. destruct (wakeb_req (q_b q) y). apply aproc_same; [done|done|]. intros r _.
  by rewrite (core_unserved _ _ _ HC), (core_unserved _ _ _ HC').
Qed.

Lemma intr_run N : forall s U fuel, inv s -> core s U N -> (length N < fuel)%nat -> exists s', intr_loop fuel s = Ret tt s' /\ inv s' /\ core s' U [] /\ abs s' = abs s.
Proof using.
  induction N as [|h N IH]; intros s U [|fuel] HI HC Hl; cbn [length] in Hl; try lia.
  - exists s. by rewrite (intr_exit s U fuel HC).
  - destruct (intr_iter s U h N HC) as (p & q & x & Hq & E & Hx & R). destruct (seen_inv s U N h p q x HI HC Hq E Hx) as [HI' HC'].
    destruct (IH (seen (q_b q) x s) U fuel HI' HC' ltac:(lia)) as (s' & R' & HI'' & HC'' & Ea). exists s'. rewrite R. split_and!; [done|done|done|]. rewrite Ea. by apply (seen_abs s U N h p q x).
Qed.

(** ** The device *)

Lemma fetched_core s s' U N : core s U N -> fetched s = Some s' -> exists h U', U = h :: U' /\ core s' U' N /\ dv_open s' = dv_open s ++ [h].
Proof using.
  intros HC Hf. destruct (co_avail _ _ _ HC) as (A1 & A2 & A3). pose proof (core_bound s U N HC) as Hb. rewrite !length_app in Hb. unfold fetched in Hf.
  destruct (negb (notified s)); [done|]. cbn [orb] in Hf. destruct (Z.eqb_spec (dv_last s) (avail_idx s)) as [|Hne]; [done|]. destruct U as [|h U'].
  { exfalso. apply Hne. rewrite A2. unfold u16, alen. cbn. rewrite Z.add_0_r, Z.mod_small; lia. }
  pose proof (A3 0%nat h eq_refl) as H0. rewrite Z.add_0_r in H0. unfold zNUM in H0. rewrite H0 in Hf. injection Hf as <-. exists h, U'. split; [done|]. split; [|done].
  assert (Hperm : U' ++ (dv_open s ++ [h]) ++ N ≡ₚ (h :: U') ++ dv_open s ++ N) by solve_Permutation.
  destruct HC as [C1 C2 C3 C4 C5 C6 C7 C8 C9 C10 C11 C12].
  split; cbn [desc dfree dinfos avail elems hdrs procs dbufs dv_open dv_last avail_idx used_idx used_id dk set_dev]; try done.
  - intros p q Hq. destruct (C3 p q Hq) as (x & Hx & [F0 F1 F2 F3 F4]). exists x. split; [done|]. by split.
  - by rewrite Hperm.
  - intros i. rewrite Hperm. apply C9.
  - split; [apply u16_range|]. split.
    + rewrite A2. unfold u16, alen. cbn [length]. rewrite Zplus_mod_idemp_l. f_equal. lia.
    + intros j i Hj. rewrite <- (A3 (S j) i Hj). f_equal. unfold u16, zNUM, NUM. dlia.
  - intros p q x Hq Hn. apply (C12 p q x Hq). set_solver.
Qed.

Lemma fetched_inv s s' : inv s -> fetched s = Some s' -> inv s' /\ abs s' = abs s.
Proof using.
  intros [(U & N & HC) HW HF HN] Hf. destruct (fetched_core s s' U N HC Hf) as (h & U' & -> & HC' & Ho).
  assert (E : procs s' = procs s /\ dbufs s' = dbufs s /\ dfree s' = dfree s /\ dk s' = dk s /\ notified s' = true).
  { unfold fetched in Hf. destruct (notified s) eqn:En; cbn [negb orb] in Hf; [|done]. case_match; [done|]. apply bind_Some in Hf as (? & _ & [= <-]). done. }
  destruct E as (E1 & E2 & E3 & E4 & E5). split; [split; rewrite ?E1, ?E2, ?E3; [by exists U', N|done|done|done]|]. apply abs_same; [done|by rewrite E2|by rewrite E1|].
  intros p x Hx. exists x. rewrite E1. split; [done|]. apply aproc_same; [done|done|]. intros q _. rewrite (core_unserved _ _ _ HC), (core_unserved _ _ _ HC'), Ho. set_solver.
Qed.

(** The device finds what the driver has written. *)
Lemma chain_of s p q x : formatted s p q x -> chain s (q_0 q) = Some (mk_req (q_b q) (q_0 q) (q_w q) (2 * b_blockno x)).
Proof using.
  intros [F0 F1 F2 F3 F4]. unfold chain. rewrite F0. cbn [mbind option_bind d_next d_addr d_len d_flags]. rewrite F1. cbn [mbind option_bind d_next d_addr d_len d_flags]. rewrite F2.
  cbn [mbind option_bind d_next d_addr d_len d_flags]. rewrite F4. cbn [mbind option_bind h_type h_sector]. by destruct (q_w q).
Qed.

Section serve.
Context (s s' : vst) (U N : list Z) (h len : Z) (p : nat) (q : rq) (x : dbuf).
Hypothesis HC : core s U N.
Hypothesis Hq : req_at s p = Some q.
Hypothesis Eh : q_0 q = h.
Hypothesis Hx : dbufs s !! q_b q = Some x.
Hypothesis Hform : formatted s p q x.
Hypothesis Hopen : h ∈ dv_open s.
Hypothesis Hs : served h len (mk_req (q_b q) (q_0 q) (q_w q) (2 * b_blockno x)) s = Some s'.

Lemma sv_eq : s' = mk_vst (desc s) (avail_idx s) (avail s) (u16 (used_id s + 1)) (aset (elems s) (used_id s mod zNUM) (mk_elem h len)) (dfree s) (used_idx s)
  (aset (dinfos s) (q_0 q) (mk_info (Some (q_b q)) 0)) (if q_w q then dbufs s else <[q_b q := with_data (from_disk (dk s) (2 * b_blockno x) (b_data x)) x]> (dbufs s))
  (hdrs s) (procs s) (if q_w q then to_disk (dk s) (2 * b_blockno x) (b_data x) else dk s) (dv_last s) (filter (fun c => c <> h) (dv_open s)) (notified s) (Z.lor (isr s) 1) (acking s).
Proof using All.
  unfold served in Hs. cbn [r_buf r_status r_write r_sector] in Hs. rewrite Hx in Hs. cbn [mbind option_bind] in Hs. destruct Hform as [_ _ _ F3 _]. rewrite F3 in Hs. cbn [mbind option_bind] in Hs. injection Hs as <-.
  by destruct (q_w q).
Qed.

Lemma sv_bufs b y : dbufs s' !! b = Some y -> exists y0, dbufs s !! b = Some y0 /\ b_blockno y = b_blockno y0 /\ b_disk y = b_disk y0 /\ (b <> q_b q -> y = y0).
Proof using All.
  rewrite sv_eq. cbn [dbufs]. destruct (q_w q); [intros Hy; by exists y|]. intros [(<- & <- & _)|[Hne Hy]]%list_lookup_insert_Some; [exists x; by split_and!|exists y; by split_and!].
Qed.
Lemma sv_bufs_ex b y0 : dbufs s !! b = Some y0 -> exists y, dbufs s' !! b = Some y /\ b_blockno y = b_blockno y0 /\ b_disk y = b_disk y0 /\ (b <> q_b q -> y = y0).
Proof using All.
  intros Hy. rewrite sv_eq. cbn [dbufs]. destruct (q_w q); [by exists y0|]. destruct (decide (b = q_b q)) as [->|Hne].
  - simplify_eq. eexists. split; [apply list_lookup_insert_eq; by eapply lookup_lt_Some|done].
  - exists y0. by rewrite list_lookup_insert_ne.
Qed.

Lemma sv_others p' q' y : req_at s p' = Some q' -> q_0 q' <> h -> dbufs s !! q_b q' = Some y -> same_block (dk s) (b_blockno y) (b_data y) -> same_block (dk s') (b_blockno y) (b_data y).
Proof using All.
  intros Hq' Hne Hy Hb. assert (Hn : b_blockno y <> b_blockno x).
  { intros E. apply Hne. assert (p' = p) as -> by (eapply (co_apart _ _ _ HC p' p); [by apply req_buf|by apply req_buf|done|done|by right]). congruence. }
  intros o Ho. rewrite (Hb o Ho), sv_eq. cbn [dk]. destruct (q_w q); [|done]. unfold to_disk, BSIZE in *.
  destruct (Z.leb_spec (512 * (2 * b_blockno x)) (1024 * b_blockno y + o)), (Z.ltb_spec (1024 * b_blockno y + o) (512 * (2 * b_blockno x) + 1024)); cbn [andb]; try done. lia.
Qed.

Lemma sv_self y : dbufs s' !! q_b q = Some y -> same_block (dk s') (b_blockno y) (b_data y).
Proof using All.
  rewrite sv_eq. cbn [dbufs dk]. destruct (q_w q); intros Hy o Ho.
  - simplify_eq. unfold to_disk, BSIZE in *. rewrite (proj2 (Z.leb_le _ _)), (proj2 (Z.ltb_lt _ _)) by lia. cbn [andb]. f_equal. lia.
  - rewrite list_lookup_insert_eq in Hy by (by eapply lookup_lt_Some). injection Hy as <-. cbn [b_data b_blockno with_data]. unfold from_disk, BSIZE in *.
    rewrite (proj2 (Z.leb_le _ _)), (proj2 (Z.ltb_lt _ _)) by lia. cbn [andb]. f_equal. lia.
Qed.

Lemma sv_open : dv_open s ≡ₚ h :: dv_open s'.
Proof using All.
  assert (Hnd : NoDup (dv_open s)) by (pose proof (co_pend _ _ _ HC) as H; apply NoDup_app in H as (_ & _ & H); by apply NoDup_app in H as (? & _)).
  rewrite sv_eq. cbn [dv_open]. apply list_elem_of_split in Hopen as (l1 & l2 & E). rewrite E in Hnd |- *. rewrite filter_app, filter_cons_False by naive_solver.
  rewrite <- Permutation_middle in Hnd |- *. apply NoDup_cons in Hnd as [Hn _]. rewrite not_elem_of_app in Hn. destruct Hn as [N1 N2]. f_equiv.
  assert (Hid : forall l : list Z, h ∉ l -> filter (fun c => c <> h) l = l).
  { clear. induction l as [|c l IH]; intros Hn; [done|]. rewrite filter_cons_True by set_solver. f_equal. apply IH. set_solver. }
  by rewrite !Hid.
Qed.

Lemma sv_used : used_id s' mod zNUM = (used_idx s' + alen (N ++ [h])) mod zNUM /\
  forall j i, (N ++ [h]) !! j = Some i -> exists len, aget (elems s') ((used_idx s' + Z.of_nat j) mod zNUM) = Some (mk_elem i len).
Proof using All.
  destruct (co_used _ _ _ HC) as (U1 & U2 & U3 & U4). pose proof (core_bound s U N HC) as Hb. rewrite !length_app in Hb. destruct (co_len _ _ _ HC) as (_ & _ & _ & _ & L5 & _).
  assert (Hpos : used_id s mod zNUM = (used_idx s + Z.of_nat (length N)) mod zNUM) by (rewrite U3; done). rewrite sv_eq. cbn [used_id used_idx elems]. split.
  - unfold alen. rewrite length_app. cbn [length]. unfold u16, zNUM, NUM in *. dlia.
  - intros j i [Hj|[Hj Hi]]%lookup_app_Some.
    + destruct (U4 j i Hj) as [l Hl]. exists l. pose proof (lookup_lt_Some _ _ _ Hj). rewrite Hpos, aget_aset_ne; [done| |]; unfold zNUM, NUM in *; dlia.
    + destruct (j - length N)%nat eqn:Ej; [|done]. injection Hi as <-. exists len. rewrite Hpos. replace j with (length N) by lia. apply aget_aset_eq. unfold alen. rewrite L5. unfold zNUM, NUM. dlia.
Qed.

Lemma serve_core : core s' U (N ++ [h]).
Proof using All.
  assert (Hperm : U ++ dv_open s' ++ N ++ [h] ≡ₚ U ++ dv_open s ++ N) by (rewrite sv_open; solve_Permutation).
  assert (Ereq : forall p', req_at s' p' = req_at s p') by (intros p'; rewrite sv_eq; done). assert (Ebuf : forall p', buf_at s' p' = buf_at s p') by (intros p'; rewrite sv_eq; done).
  assert (Esl : slots s' = slots s) by (rewrite sv_eq; done). destruct (co_len _ _ _ HC) as (L1 & L2 & L3 & L4 & L5 & L6).
  assert (Ef : desc s' = desc s /\ dfree s' = dfree s /\ dv_last s' = dv_last s /\ avail_idx s' = avail_idx s /\ avail s' = avail s /\ used_idx s' = used_idx s /\ hdrs s' = hdrs s /\ dinfos s' = dinfos s).
  { destruct Hform as [_ _ _ F3 _]. destruct (aget_nat _ _ _ F3) as (n & En & Hn). rewrite sv_eq. cbn [desc dfree dv_last avail_idx avail used_idx hdrs dinfos]. split_and!; try done.
    rewrite En, aset_of_nat. by apply list_insert_id. }
  destruct Ef as (E1 & E2 & E3 & E4 & E5 & E6 & E7 & E8).
  split; rewrite ?E1, ?E2, ?E3, ?E4, ?E5, ?E7, ?E8, ?Esl, ?Hperm; try apply HC.
  - split_and!; try done; rewrite sv_eq; cbn [elems procs]; by rewrite ?length_aset.
  - intros p' q'. rewrite Ereq. intros Hq'. destruct (co_own _ _ _ HC p' q' Hq') as (y & Hy & [F0 F1 F2 F3 F4]). destruct (sv_bufs_ex _ _ Hy) as (y' & Hy' & Eb & _ & _). exists y'. split; [done|].
    split; rewrite ?E1, ?E7, ?E8, ?Eb; done.
  - intros p' b w. rewrite Ebuf. intros (y & Hy & H)%(co_buf _ _ _ HC). destruct (sv_bufs_ex _ _ Hy) as (y' & Hy' & Eb & _ & _). exists y'. by rewrite Eb.
  - intros p1 p2 b1 w1 b2 w2 x1 x2. rewrite !Ebuf. intros B1 B2 (y1 & Y1 & X1 & _)%sv_bufs (y2 & Y2 & X2 & _)%sv_bufs. rewrite X1, X2. by apply (co_apart _ _ _ HC p1 p2 b1 w1 b2 w2).
  - intros i. rewrite Hperm, (co_busy _ _ _ HC i). setoid_rewrite Ereq. split; intros (p' & q' & y & Hq' & E & Hy & H1); exists p', q'.
    + destruct (sv_bufs_ex _ _ Hy) as (y' & Hy' & _ & Ed & _). exists y'. by rewrite Ed.
    + destruct (sv_bufs _ _ Hy) as (y' & Hy' & _ & Ed & _). exists y'. by rewrite <- Ed.
  - destruct sv_used as [V1 V2]. destruct (co_used _ _ _ HC) as (U1 & _). rewrite E6 in *. split; [done|]. split; [|by split]. rewrite sv_eq. apply u16_range.
  - intros p' q' y. rewrite Ereq. intros Hq' Hn Hy. destruct (decide (q_0 q' = h)) as [E|E].
    + destruct (owner_unique s U N p' p q' q HC Hq' Hq) as [_ ->]; [congruence|]. by apply sv_self.
    + destruct (sv_bufs _ _ Hy) as (y' & Hy' & _ & _ & Ey). assert (Hb : q_b q' <> q_b q) by (intros Eb; destruct (buf_unique s U N p' p q' q HC Hq' Hq Eb) as [_ ->]; congruence).
      rewrite (Ey Hb) in Hy |- *. apply (sv_others p' q' y' Hq' E Hy'). apply (co_done _ _ _ HC p' q' y' Hq'); [|done]. rewrite sv_open. set_solver.
Qed.

End serve.

(** ** Every step implements the disk *)

Definition implements (s s' : vst) : Prop := abs s' = abs s \/ astep (abs s) (abs s').

Lemma abs_at s p x : procs s !! p = Some x -> a_procs (abs s) !! p = Some (aproc_of (unserved s) x).
Proof using. intros Hx. cbn. by rewrite list_lookup_fmap, Hx. Qed.

Lemma req_proc s p q : req_at s p = Some q -> exists x, procs s !! p = Some x /\ req_of x = Some q /\ buf_of x = Some (q_b q, q_w q).
Proof using. intros (x & Hx & Hq)%bind_Some. exists x. split_and!; [done|done|]. destruct x; cbn in Hq; simplify_eq; done. Qed.

Lemma lor_bit x : Z.lor x 1 <> 0.
Proof using. intros E. assert (H : Z.testbit (Z.lor x 1) 0 = true) by (by rewrite Z.lor_spec, orb_true_r). by rewrite E in H. Qed.

Lemma serve_sim s s' h len : inv s -> h ∈ dv_open s -> (forall r, chain s h = Some r -> r_sector r + 2 <= nsectors -> served h len r s = Some s') ->
  inv s' /\ implements s s' /\ used_id s' = u16 (used_id s + 1) /\ isr s' <> 0 /\ acking s' = acking s.
Proof using.
  intros [(U & N & HC) HW HF HN] Ho Hs. destruct (core_owner s U N h HC) as (p & q & x & Hq & E & Hx & H1 & Hform); [set_solver|].
  assert (Hs' : served h len (mk_req (q_b q) (q_0 q) (q_w q) (2 * b_blockno x)) s = Some s').
  { apply Hs; [rewrite <- E; by eapply chain_of|]. cbn. destruct (co_buf _ _ _ HC p _ _ (req_buf s p q Hq)) as (y & Hy & _ & Hn). by simplify_eq. }
  pose proof (serve_core s s' U N h len p q x HC Hq E Hx Hform Ho Hs') as HC'. pose proof (sv_eq s s' U N h len p q x HC Hq E Hx Hform Ho Hs') as Es.
  pose proof (sv_open s s' U N h len p q x HC Hq E Hx Hform Ho Hs') as Hop. assert (Ep : procs s' = procs s /\ dfree s' = dfree s) by (rewrite Es; done). destruct Ep as [Ep Efr]. split.
  { split; [by exists U, (N ++ [h])| |by rewrite Ep, Efr|by rewrite Es]. rewrite Ep. intros i b w j k m Hi. destruct (HW _ _ _ _ _ _ Hi) as (y & Hy & Hd).
    destruct (sv_bufs_ex s s' U N h len p q x HC Hq E Hx Hform Ho Hs' b y Hy) as (y' & Hy' & _ & Ed & _). exists y'. by rewrite Ed. }
  split; [|rewrite Es; split_and!; [done|apply lor_bit|done]]. destruct (req_proc s p q Hq) as (z & Hz & Hr & Hb).
  assert (Hpend : a_procs (abs s) !! p = Some (APending (q_b q) (q_w q))).
  { rewrite (abs_at s p z Hz). unfold aproc_of. rewrite Hb, Hr, decide_True; [done|]. rewrite (core_unserved _ _ _ HC), E. set_solver. }
  assert (Hnd : h ∉ U ++ dv_open s').
  { pose proof (co_pend _ _ _ HC') as Hnd. rewrite !app_assoc in Hnd. apply NoDup_app in Hnd as (_ & Hnd & _). intros Hin. apply (Hnd h); set_solver. }
  assert (Hprocs : a_procs (abs s') = <[p := ADone (q_b q) (q_w q)]> (a_procs (abs s))).
  { apply abs_procs; [by rewrite Ep|..]; rewrite (core_unserved _ _ _ HC'), ?(core_unserved _ _ _ HC), Ep.
    - intros i y Hne Hy. exists y. split; [done|]. apply aproc_same; [done|done|]. intros r Hry. rewrite !elem_of_app, Hop, elem_of_cons. assert (q_0 r <> h); [|tauto].
      intros Eh. apply Hne. assert (Hri : req_at s i = Some r) by (unfold req_at; by rewrite Hy). by destruct (owner_unique s U N i p r q HC Hri Hq) as [-> _]; [congruence|].
    - intros y Hy. rewrite Hz in Hy. injection Hy as <-. unfold aproc_of. rewrite Hb, Hr, decide_False; [done|]. by rewrite E. }
  right. assert (Hbuf : a_bufs (abs s) !! q_b q = Some (b_blockno x, b_data x)) by (cbn; by rewrite list_lookup_fmap, Hx).
  assert (Ha : abs s' = mk_astate (a_disk (abs s')) (a_bufs (abs s')) (a_procs (abs s'))) by done. rewrite Ha, Hprocs. clear Ha Hprocs. destruct (q_w q) eqn:Ew.
  - replace (a_disk (abs s')) with (to_disk (a_disk (abs s)) (2 * b_blockno x) (b_data x)) by (rewrite Es; done). replace (a_bufs (abs s')) with (a_bufs (abs s)) by (rewrite Es; done). by apply a_write.
  - replace (a_disk (abs s')) with (a_disk (abs s)) by (rewrite Es; done).
    replace (a_bufs (abs s')) with (<[q_b q := (b_blockno x, from_disk (a_disk (abs s)) (2 * b_blockno x) (b_data x))]> (a_bufs (abs s))) by (rewrite Es; cbn; by rewrite list_fmap_insert). by apply a_read.
Qed.

(** The ring of chains returned and the interrupt are left alone. *)
Definition same_intr (s s' : vst) : Prop := used_idx s' = used_idx s /\ used_id s' = used_id s /\ isr s' = isr s /\ acking s' = acking s.

(** [virtio_disk_rw], when it has got the lock again. *)
Lemma wait_sim s p q : inv s -> procs s !! p = Some (ReadyBuf (q_b q) (q_w q) (q_0 q) (q_1 q) (q_2 q)) ->
  exists s', rw_wait p (q_b q) (q_w q) (q_0 q) (q_1 q) (q_2 q) s = Ret tt s' /\ inv s' /\ implements s s' /\ same_intr s s'.
Proof using.
  intros HI Hp. pose proof HI as [(U & N & HC) HW HF HN]. assert (Hq : req_at s p = Some q) by (unfold req_at; rewrite Hp; cbn; by destruct q).
  destruct (co_own _ _ _ HC p q Hq) as (x & Hx & _). destruct (decide (b_disk x = 1)) as [H1|H1].
  - set (y := WaitBuf (q_b q) (q_w q) (q_0 q) (q_1 q) (q_2 q)). assert (Hv : same_views (procs s) (<[p := y]> (procs s))) by (by eapply sv_insert).
    assert (HC' : core (set_procs (<[p := y]> (procs s)) s) U N) by (pose proof (core_views nsectors s U N (desc s) _ HC Hv eq_refl ltac:(done)) as H; by destruct s).
    exists (set_procs (<[p := y]> (procs s)) s). split; [unfold rw_wait; by rewrite (bind_Ret _ _ _ _ _ (get_buf_run s _ x Hx)), (proj2 (Z.eqb_eq _ _) H1)|]. split.
    + split; [by exists U, N|..]; cbn [procs dbufs dfree set_procs].
      * intros i b w j k m [(-> & Ey & _)|[_ Hi]]%list_lookup_insert_Some; [injection Ey as <- <- <- <- <-; by exists x|by eapply HW].
      * intros i b w [(_ & [=] & _)|[_ Hi]]%list_lookup_insert_Some. by eapply HF.
      * exact HN.
    + split; [|done]. left. apply abs_same; [done|done|apply length_insert|]. intros i z Hz. destruct Hv as [_ Hv]. destruct (Hv i z Hz) as (z' & Hz' & Hr & Hb). exists z'. split; [done|].
      apply aproc_same; [done|done|]. intros r _. by rewrite (core_unserved _ _ _ HC), (core_unserved _ _ _ HC').
  - eexists. split; [by eapply finish_run|]. pose proof (finish_core nsectors s U N p q x HC Hp Hx H1) as HC'. set (s' := set_procs _ _) in *. split.
    + split; [by exists U, N|..]; cbn [procs dbufs dfree set_procs set_dfree set_desc set_dinfos s'].
      * intros i b w j k m [(_ & [=] & _)|[_ Hi]]%list_lookup_insert_Some. apply (HW i b w j k m). rewrite list_lookup_fmap in Hi. destruct (procs s !! i) as [[]|]; cbn in Hi; congruence.
      * intros i b w [(_ & [=] & _)|[_ Hi]]%list_lookup_insert_Some. rewrite list_lookup_fmap in Hi. by destruct (procs s !! i) as [[]|].
      * exact HN.
    + split; [|done]. right. pose proof (fin_head nsectors s U N p q x HC Hp Hx H1 (q_0 q)) as Hn.
      assert (Hdone : a_procs (abs s) !! p = Some (ADone (q_b q) (q_w q))).
      { rewrite (abs_at s p _ Hp). unfold aproc_of. cbn [buf_of req_of]. rewrite decide_False; [done|]. cbn [q_0]. rewrite (core_unserved _ _ _ HC). intros Hin. apply Hn; [|done]. rewrite app_assoc. set_solver. }
      assert (Ea : abs s' = mk_astate (a_disk (abs s)) (a_bufs (abs s)) (a_procs (abs s'))) by done. rewrite Ea, (abs_procs s s' p AIdle); [by eapply a_return| | |].
      * cbn. by rewrite length_insert, length_fmap.
      * intros i y Hne Hy. exists (wakef y). cbn [procs set_procs s']. rewrite list_lookup_insert_ne, list_lookup_fmap, Hy by done. split; [done|]. destruct (wakef_req y). apply aproc_same; [done|done|].
        intros r _. by rewrite (core_unserved _ _ _ HC), (core_unserved _ _ _ HC').
      * intros y Hy. cbn [procs set_procs s'] in Hy. rewrite list_lookup_insert_eq in Hy by (rewrite length_fmap; by eapply lookup_lt_Some). by injection Hy as <-.
Qed.

Hypothesis Hsize : nsectors <= 2 ^ 32.

Lemma alloc_sim s p b w : inv s -> procs s !! p = Some (ReadyFree b w) -> exists s', rw_alloc p b w s = Ret tt s' /\ inv s' /\ implements s s' /\ same_intr s s'.
Proof using All.
  intros HI Hp. pose proof HI as [(U & N & HC) HW HF HN]. destruct (co_len _ _ _ HC) as (L1 & L2 & L3 & _).
  destruct (alloc3_run s L1 L2 (co_free _ _ _ HC)) as [(i0 & i1 & i2 & R & Hnd & H1)|(s1 & R & Hrel & Hn)].
  - destruct (co_buf _ _ _ HC p b w) as (x & Hx & Hn0 & Hn1); [unfold buf_at; by rewrite Hp|]. set (F := aset _ i2 0) in R.
    assert (Hr : forall i, i ∈ [i0; i1; i2] -> 0 <= i < zNUM) by (intros i Hi; by eapply (sub_range nsectors)).
    exists (submitted p b w i0 i1 i2 x (set_dfree F s)). split; [unfold rw_alloc; rewrite (bind_Ret _ _ _ _ _ R); apply submit_run; (done || lia)|].
    pose proof (submit_core nsectors s U N p b w i0 i1 i2 x HC Hp Hx Hnd H1) as HC'. fold F in HC'. set (s' := submitted _ _ _ _ _ _ _ _) in *. split.
    + split; [by exists (U ++ [i0]), N|..]; cbn [procs dbufs dfree submitted set_dfree s'].
      * intros i c v j k m [(_ & Ey & _)|[_ Hi]]%list_lookup_insert_Some.
        -- injection Ey as <- <- <- <- <-. exists (with_disk 1 x). split; [apply list_lookup_insert_eq; by eapply lookup_lt_Some|done].
        -- destruct (HW i c v j k m Hi) as (y & Hy & Hd). destruct (decide (c = b)) as [->|Hne].
           ++ exists (with_disk 1 x). split; [apply list_lookup_insert_eq; by eapply lookup_lt_Some|done].
           ++ exists y. by rewrite list_lookup_insert_ne.
      * intros i c v [(_ & [=] & _)|[_ Hi]]%list_lookup_insert_Some. apply (HF i c v) in Hi.
        assert (G0 := H1 i0 ltac:(set_solver)). assert (G1 := H1 i1 ltac:(set_solver)). assert (G2 := H1 i2 ltac:(set_solver)).
        apply NoDup_cons in Hnd as [Hn Hnd]. apply NoDup_cons in Hnd as [Hn' _]. pose proof (aget_Some _ _ _ G0) as P0. pose proof (aget_Some _ _ _ G1) as P1.
        assert (K1 : aget (aset (dfree s) i0 0) i1 = Some 1) by (rewrite aget_aset_ne; [done|set_solver|lia]).
        assert (K2 : aget (aset (aset (dfree s) i0 0) i1 0) i2 = Some 1) by (rewrite !aget_aset_ne; [done|set_solver|lia|set_solver|lia]).
        pose proof (nfree_take _ _ _ G0 ltac:(done)). pose proof (nfree_take _ _ _ K1 ltac:(done)). pose proof (nfree_take _ _ _ K2 ltac:(done)). lia.
      * done.
    + split; [|done]. left. apply abs_same; [done|by apply with_disk_fmap|apply length_insert|]. rewrite (core_unserved _ _ _ HC), (core_unserved _ _ _ HC'). cbn [procs dv_open submitted set_dfree s'].
      intros i y Hy. destruct (decide (i = p)) as [->|Hne].
      * simplify_eq. eexists. split; [apply list_lookup_insert_eq; by eapply lookup_lt_Some|]. unfold aproc_of. cbn [buf_of req_of q_0]. rewrite decide_True by set_solver. done.
      * exists y. rewrite list_lookup_insert_ne by done. split; [done|]. apply aproc_same; [done|done|]. intros r Hr'. assert (Hri : req_at s i = Some r) by (unfold req_at; by rewrite Hy).
        assert (q_0 r <> i0); [|set_solver]. intros E. apply (sub_new nsectors s U N p b w i0 i1 i2 x HC Hp Hx Hnd H1 (q_0 r) i r); [rewrite E; set_solver|done|unfold idxs; set_solver].
  - destruct (alloc_fail nsectors s s1 p b w HI Hp R Hrel Hn) as (D & l & R' & HI' & Hv). exists (set_procs l (set_desc D s)). split; [done|]. split; [done|]. split; [|done]. left.
    destruct Hv as [Hl Hv]. apply abs_same; [done|done|done|]. intros i z Hz. destruct (Hv i z Hz) as (z' & Hz' & Hr & Hb). exists z'. split; [done|]. by apply aproc_same.
Qed.

(** ** Callers *)

(** A caller holds the lock of the buffer, and each block has one buffer. *)
Definition callable (b : nat) (s : vst) : Prop :=
  exists x, dbufs s !! b = Some x /\ 0 <= b_blockno x /\ 2 * b_blockno x + 2 <= nsectors /\
    forall p' b' w' x', buf_at s p' = Some (b', w') -> dbufs s !! b' = Some x' -> b' <> b /\ b_blockno x' <> b_blockno x.
Definition unused (b : nat) (s : vst) : Prop := forall p' b' w', buf_at s p' = Some (b', w') -> b' <> b.

Definition started (p b : nat) (w : bool) (s : vst) : vst := set_procs (<[p := ReadyFree b w]> (procs s)) s.
Definition edited (b : nat) (n : Z) (d : mem) (s : vst) : vst := set_dbufs (<[b := mk_dbuf n 0 d]> (dbufs s)) s.

Lemma start_core s U N p b w : core s U N -> procs s !! p = Some Out -> callable b s -> core (started p b w s) U N.
Proof using.
  intros HC Hp (x & Hx & Hn0 & Hn1 & Hap). assert (Hlt : (p < length (procs s))%nat) by (by eapply lookup_lt_Some).
  assert (Er : forall p', req_at (started p b w s) p' = req_at s p').
  { intros p'. unfold req_at. cbn. destruct (decide (p' = p)) as [->|]; [by rewrite list_lookup_insert_eq, Hp|by rewrite list_lookup_insert_ne]. }
  assert (Eb : forall p', buf_at (started p b w s) p' = if decide (p' = p) then Some (b, w) else buf_at s p').
  { intros p'. unfold buf_at. cbn. case_decide as E; [by rewrite E, list_lookup_insert_eq|by rewrite list_lookup_insert_ne]. }
  assert (Es : slots (started p b w s) = slots s).
  { unfold slots. cbn. rewrite list_fmap_insert. cbn. apply list_insert_id. by rewrite list_lookup_fmap, Hp. }
  destruct HC as [C1 C2 C3 C4 C5 C6 C7 C8 C9 C10 C11 C12].
  split; cbn [desc dfree dinfos avail elems hdrs procs dbufs dv_open dv_last avail_idx used_idx used_id dk set_procs started]; try done.
  - by rewrite length_insert.
  - intros p' q. fold (started p b w s). rewrite Er. intros (y & Hy & [F0 F1 F2 F3 F4])%C3. exists y. split; [done|]. by split.
  - fold (started p b w s). by rewrite Es.
  - fold (started p b w s). by rewrite Es.
  - intros p' b' w'. fold (started p b w s). rewrite Eb. case_decide; [intros [= <- <-]; by exists x|apply C6].
  - intros p1 p2 b1 w1 b2 w2 x1 x2. fold (started p b w s). rewrite !Eb. case_decide; case_decide; intros B1 B2 X1 X2 E; simplify_eq; [done| | |by apply (C7 p1 p2 b1 w1 b2 w2 x1 x2)].
    + destruct (Hap p2 b2 w2 x2 B2 X2). destruct E; congruence.
    + destruct (Hap p1 b1 w1 x1 B1 X1). destruct E; congruence.
  - intros h. rewrite (C9 h). fold (started p b w s). by setoid_rewrite Er.
  - intros p' q y. fold (started p b w s). rewrite Er. apply C12.
Qed.

Lemma start_sim s p b w : inv s -> procs s !! p = Some Out -> callable b s -> inv (started p b w s) /\ implements s (started p b w s).
Proof using.
  intros [(U & N & HC) HW HF HN] Hp Hb. pose proof (start_core s U N p b w HC Hp Hb) as HC'. split.
  - split; [by exists U, N|..]; cbn [procs dbufs dfree set_procs started].
    + intros i c v j k m [(_ & [=] & _)|[_ Hi]]%list_lookup_insert_Some. by eapply HW.
    + intros i c v [(_ & [=] & _)|[_ Hi]]%list_lookup_insert_Some. by eapply HF.
    + exact HN.
  - right. assert (Ea : abs (started p b w s) = mk_astate (a_disk (abs s)) (a_bufs (abs s)) (a_procs (abs (started p b w s)))) by done. rewrite Ea, (abs_procs s _ p (APending b w)).
    + apply a_call. by rewrite (abs_at s p _ Hp).
    + apply length_insert.
    + intros i x Hne Hx. exists x. cbn [procs set_procs started]. rewrite list_lookup_insert_ne by done. split; [done|]. apply aproc_same; [done|done|].
      intros q _. by rewrite (core_unserved _ _ _ HC), (core_unserved _ _ _ HC').
    + intros y. cbn [procs set_procs started]. rewrite list_lookup_insert_eq by (by eapply lookup_lt_Some). by intros [= <-].
Qed.

Lemma edit_core s U N b n d : core s U N -> unused b s -> core (edited b n d s) U N.
Proof using.
  intros HC Hb. assert (Hr : forall p q, req_at s p = Some q -> q_b q <> b) by (intros p q Hq; by apply (Hb p _ _ (req_buf s p q Hq))).
  assert (Hk : forall b', b' <> b -> dbufs (edited b n d s) !! b' = dbufs s !! b') by (intros b' Hne; cbn; by rewrite list_lookup_insert_ne).
  destruct HC as [C1 C2 C3 C4 C5 C6 C7 C8 C9 C10 C11 C12].
  split; cbn [desc dfree dinfos avail elems hdrs procs dv_open dv_last avail_idx used_idx used_id dk set_dbufs edited]; try done.
  - intros p q Hq. destruct (C3 p q Hq) as (x & Hx & [F0 F1 F2 F3 F4]). exists x. rewrite Hk by (by eapply Hr). split; [done|]. by split.
  - intros p b' w Hp. destruct (C6 p b' w Hp) as (x & Hx & H). exists x. rewrite Hk by (by eapply Hb). done.
  - intros p1 p2 b1 w1 b2 w2 x1 x2 B1 B2. rewrite (Hk b1), (Hk b2) by (by eapply Hb). by apply (C7 p1 p2 b1 w1 b2 w2 x1 x2).
  - intros h. rewrite (C9 h). split; intros (p & q & x & Hq & E & Hx & H1); exists p, q, x; (split_and!; [done|done| |done]); rewrite Hk in * by (by eapply Hr); done.
  - intros p q x Hq Hn Hx. rewrite Hk in Hx by (by eapply Hr). by apply (C12 p q x).
Qed.

Lemma edit_sim s b n d : inv s -> unused b s -> inv (edited b n d s) /\ implements s (edited b n d s).
Proof using.
  intros [(U & N & HC) HW HF HN] Hb. pose proof (edit_core s U N b n d HC Hb) as HC'. split.
  - split; [by exists U, N| |done|exact HN]. intros p c w i j k Hp. destruct (HW p c w i j k Hp) as (x & Hx & H1). exists x. split; [|done]. cbn. rewrite list_lookup_insert_ne; [done|].
    intros <-. apply (Hb p b w); [|done]. cbn in Hp. unfold buf_at. by rewrite Hp.
  - right. assert (Ea : abs (edited b n d s) = mk_astate (a_disk (abs s)) (<[b := (n, d)]> (a_bufs (abs s))) (a_procs (abs s))) by (unfold abs; cbn; by rewrite list_fmap_insert). rewrite Ea. apply a_edit.
    intros p w. cbn. rewrite list_lookup_fmap. destruct (procs s !! p) as [x|] eqn:Hx; [|done]. cbn. unfold aproc_of.
    destruct (buf_of x) as [[b' w']|] eqn:Hbx; [|done]. assert (Hne : b' <> b) by (apply (Hb p b' w'); unfold buf_at; by rewrite Hx). destruct (req_of x) as [q|]; [case_decide|]; split; congruence.
Qed.

(** ** Runs *)

Inductive event := Start (p b : nat) (w : bool) | Edit (b : nat) (n : Z) (d : mem) | Resume (p : nat) | Intr | Ack.
(** A process that resumes and an interrupt wait for the lock. *)
Definition allowed (e : event) (s : vst) : Prop :=
  match e with
  | Start p b w => procs s !! p = Some Out /\ callable b s
  | Edit b _ _ => unused b s
  | Resume p => acking s = false /\ exists b w, buf_at s p = Some (b, w)
  | Intr => acking s = false
  | Ack => acking s = true
  end.
(** What the driver does; nothing for a process that sleeps. *)
Definition run (e : event) (s : vst) : outcome vst unit :=
  match e with
  | Start p b w => Ret tt (started p b w s)
  | Edit b n d => Ret tt (edited b n d s)
  | Resume p =>
      match procs s !! p with
      | Some (ReadyFree b w) => rw_alloc p b w s
      | Some (ReadyBuf b w i0 i1 i2) => rw_wait p b w i0 i1 i2 s
      | _ => Ret tt s
      end
  | Intr => intr_scan s
  | Ack => intr_ack s
  end.

(** Chains that were returned have an interrupt; the handler leaves its loop only when it
    has seen all of them. *)
Definition heard (s : vst) : Prop :=
  (acking s = true -> used_idx s mod zNUM = used_id s mod zNUM) /\ (used_idx s mod zNUM <> used_id s mod zNUM -> isr s <> 0).
Lemma heard_same s s' : same_intr s s' -> heard s -> heard s'.
Proof using. unfold heard. by intros (-> & -> & -> & ->). Qed.

(** Neither step of the handler changes the requests. *)
Lemma core_acking s U N v b : core s U N -> core (set_acking b (set_isr v s)) U N.
Proof using.
  intros [C1 C2 C3 C4 C5 C6 C7 C8 C9 C10 C11 C12]. split; try done.
  intros p q Hq. destruct (C3 p q Hq) as (y & Hy & [F0 F1 F2 F3 F4]). exists y. split; [done|]. by split.
Qed.
Lemma inv_acking s v b : inv s -> inv (set_acking b (set_isr v s)).
Proof using. intros [(U & N & HC) HW HF HN]. split; [|done..]. exists U, N. by apply core_acking. Qed.
Lemma core_drained s U : core s U [] -> used_idx s mod zNUM = used_id s mod zNUM.
Proof using. intros HC. destruct (co_used _ _ _ HC) as (_ & _ & -> & _). cbn. by rewrite Z.add_0_r. Qed.

Lemma scan_sim s : inv s -> exists s', intr_scan s = Ret tt s' /\ inv s' /\ implements s s' /\ heard s'.
Proof using.
  intros HI. pose proof HI as [(U & N & HC) _ _ _]. pose proof (core_bound s U N HC) as Hb. rewrite !length_app in Hb.
  destruct (intr_run N s U NUM HI HC) as (s1 & R & HI1 & HC1 & Ea); [unfold NUM; lia|]. exists (set_acking true s1).
  pose proof (core_drained s1 U HC1) as E. split; [unfold intr_scan; by rewrite (bind_Ret _ _ _ _ _ R)|]. split; [|split; [left; rewrite <- Ea; done|by split]].
  pose proof (inv_acking s1 (isr s1) true HI1) as H. by destruct s1.
Qed.

Lemma run_sim e s : inv s -> allowed e s -> exists s', run e s = Ret tt s' /\ inv s' /\ implements s s' /\ (heard s -> heard s').
Proof using All.
  intros HI He. destruct e as [p b w|b n d|p| |]; cbn [run allowed] in *.
  - destruct He as [Hp Hb]. eexists. split; [reflexivity|]. destruct (start_sim s p b w HI Hp Hb). split_and!; [done|done|by apply heard_same].
  - eexists. split; [reflexivity|]. destruct (edit_sim s b n d HI He). split_and!; [done|done|by apply heard_same].
  - destruct (procs s !! p) as [[|b w|b w|b w i0 i1 i2|b w i0 i1 i2]|] eqn:Hp; try (exists s; split; [done|]; split; [done|split; [by left|done]]).
    + destruct (alloc_sim s p b w HI Hp) as (s' & R & H1 & H2 & H3). exists s'. split_and!; [done|done|done|by apply heard_same].
    + destruct (wait_sim s p (mk_rq b w i0 i1 i2) HI Hp) as (s' & R & H1 & H2 & H3). exists s'. split_and!; [done|done|done|by apply heard_same].
  - destruct (scan_sim s HI) as (s' & R & H1 & H2 & H3). by exists s'.
  - eexists. split; [reflexivity|]. split; [by apply inv_acking|]. split; [by left|]. intros [H _]. split; [done|]. intros Hne. by destruct Hne; apply H.
Qed.

(** ** The start *)

(** Memory before the driver starts; the device has seen nothing. *)
Definition powered (s : vst) : Prop :=
  used_idx s = 0 /\ length (dinfos s) = NUM /\ Forall (fun x => x = Out) (procs s) /\ length (hdrs s) = length (procs s) /\ dv_last s = 0 /\ dv_open s = [] /\ acking s = false.
Definition booted (s : vst) : Prop := exists R pages s0 wr, powered s0 /\ virtio_disk_init R pages (mk_ist [] s0) = Ret tt (mk_ist wr s).

Lemma init_eq R pages s0 wr s : virtio_disk_init R pages (mk_ist [] s0) = Ret tt (mk_ist wr s) -> s = set_dfree (replicate NUM 1) (clear_pages s0).
Proof using. unfold virtio_disk_init, W, bind, modify, panic. destruct (_ || _); [done|]. destruct (_ =? 0); [done|]. destruct (_ <? _); [done|]. intros [= _ <-]. done. Qed.

Lemma replicate_aget {A} n (x : A) i y : aget (replicate n x) i = Some y -> y = x.
Proof using. intros (k & _ & Hk)%aget_nat. by apply lookup_replicate in Hk as [-> _]. Qed.

Lemma vboot_inv s : booted s -> inv s.
Proof using.
  intros (R & pages & s0 & wr & (P1 & P2 & P3 & P4 & P5 & P6 & P7) & Hs). apply init_eq in Hs as ->.
  assert (Hout : forall p x, procs s0 !! p = Some x -> x = Out) by (intros p x Hx; exact (Forall_lookup_1 _ _ _ _ P3 Hx)). set (s := set_dfree _ _).
  assert (Hr : forall p, req_at s p = None) by (intros p; unfold req_at; cbn; destruct (procs s0 !! p) as [x|] eqn:E; [by rewrite (Hout p x E)|done]).
  assert (Hb : forall p, buf_at s p = None) by (intros p; unfold buf_at; cbn; destruct (procs s0 !! p) as [x|] eqn:E; [by rewrite (Hout p x E)|done]).
  assert (Hn : forall i, i ∉ concat (slots s)) by (intros i (p & q & Hq & _)%idx_elem; by rewrite Hr in Hq).
  split; [exists [], []; split; cbn [desc dfree dinfos avail elems hdrs procs dbufs dv_open dv_last avail_idx used_idx used_id dk set_dfree clear_pages set_desc set_avail_idx set_avail set_used s]; rewrite ?P1, ?P5, ?P6|..].
  - by split_and!.
  - apply Forall_replicate. by right.
  - intros p q. fold s. by rewrite Hr.
  - fold s. assert (E : concat (slots s) = []) by (by apply elem_of_nil_inv). rewrite E. constructor.
  - intros i. fold s. split; [by intros ?%replicate_aget|by intros ?%Hn].
  - intros p b w. fold s. by rewrite Hb.
  - intros p p' b w b' w' x x'. fold s. by rewrite Hb.
  - constructor.
  - intros h. split; [by intros ?%not_elem_of_nil|]. intros (p & q & x & Hq & _). fold s in Hq. by rewrite Hr in Hq.
  - done.
  - done.
  - intros p q x. fold s. by rewrite Hr.
  - intros p b w i j k. cbn. by intros ?%Hout.
  - intros p b w. cbn. by intros ?%Hout.
  - done.
Qed.
Lemma vboot_heard s : booted s -> heard s.
Proof using. intros (R & pages & s0 & wr & (P1 & P2 & P3 & P4 & P5 & P6 & P7) & Hs). apply init_eq in Hs as ->. split; cbn; rewrite P1; done. Qed.

(** ** Results *)

Section device.
(** The device, of which its specification promises this: once it has been told to look
    it takes chains as they are offered, until there are none, and it serves those that
    it has, in any order, each with an interrupt. *)
Context (device : vst -> vst -> Prop).
Hypothesis device_spec : forall s s', device s s' -> fetched s = Some s' \/ rested s = Some s' \/
  exists h len, h ∈ dv_open s /\ forall r, chain s h = Some r -> r_sector r + 2 <= nsectors -> served h len r s = Some s'.

(** All runs; with [calm], those in which the device returns no chain between the end of
    the handler's loop and the acknowledgement. *)
Inductive reach (calm : bool) : vst -> Prop :=
| reach_boot s : booted s -> reach calm s
| reach_run e s s' : reach calm s -> allowed e s -> run e s = Ret tt s' -> reach calm s'
| reach_device s s' : reach calm s -> device s s' -> (calm = true -> acking s = true -> used_id s' = used_id s) -> reach calm s'.

Lemma rested_inv s s' : inv s -> rested s = Some s' -> inv s' /\ abs s' = abs s /\ same_intr s s'.
Proof using.
  intros [(U & N & HC) HW HF HN]. unfold rested. destruct (Z.eqb_spec (dv_last s) (avail_idx s)) as [E|]; [|done]. intros [= <-]. split; [|done].
  split; [|done|done|by intros []]. exists U, N. destruct HC as [C1 C2 C3 C4 C5 C6 C7 C8 C9 C10 C11 C12]. split; try done.
  intros p q Hq. destruct (C3 p q Hq) as (y & Hy & [F0 F1 F2 F3 F4]). exists y. split; [done|]. by split.
Qed.

Lemma device_sim s s' : inv s -> device s s' -> inv s' /\ implements s s' /\ ((acking s = true -> used_id s' = used_id s) -> heard s -> heard s').
Proof using All.
  intros HI Hd. destruct (device_spec s s' Hd) as [Hf|[Hr|(h & len & Ho & Hs)]].
  - destruct (fetched_inv s s' HI Hf). split_and!; [done|by left|]. intros _. apply heard_same. unfold fetched in Hf. case_match; [done|]. by apply bind_Some in Hf as (? & _ & [= <-]).
  - destruct (rested_inv s s' HI Hr) as (H1 & H2 & H3). split_and!; [done|by left|]. intros _. by apply heard_same.
  - destruct (serve_sim s s' h len HI Ho Hs) as (H1 & H2 & E & H3 & H4). split_and!; [done|done|]. intros Hc _. split; [|done]. rewrite H4. intros Ha. exfalso. specialize (Hc Ha).
    destruct HI as [(U & N & HC) _ _ _]. destruct (co_used _ _ _ HC) as (_ & Hu & _). rewrite E in Hc. unfold u16 in Hc. dlia.
Qed.

Lemma vreach_inv calm s : reach calm s -> inv s.
Proof using All.
  induction 1 as [s Hb|e s s' _ IH He Hr|s s' _ IH Hd _]; [by apply vboot_inv| |by apply (device_sim s s')].
  destruct (run_sim e s IH He) as (s1 & R & HI & _). congruence.
Qed.
Lemma vreach_heard s : reach true s -> heard s.
Proof using All.
  induction 1 as [s Hb|e s s' Hre IH He Hr|s s' Hre IH Hd Hc]; [by apply vboot_heard|..]; pose proof (vreach_inv _ _ Hre) as HI.
  - destruct (run_sim e s HI He) as (s1 & R & _ & _ & Hh). assert (s' = s1) as -> by congruence. by apply Hh.
  - apply (device_sim s s' HI Hd); [|done]. by apply Hc.
Qed.

(** C10: the driver implements a disk whose blocks are read and written at once. Each
    step of a process in [virtio_disk_rw], each interrupt and each step of the device
    is, as the callers see it, nothing or one step of that disk; the driver's steps
    end without a panic, for any device that does as specified and any callers that
    hold the locks of their buffers. *)
Theorem virtio_refines s : reach false s ->
  (forall e, allowed e s -> exists s', run e s = Ret tt s' /\ (abs s' = abs s \/ astep (abs s) (abs s'))) /\ (forall s', device s s' -> abs s' = abs s \/ astep (abs s) (abs s')).
Proof using All.
  intros HI%vreach_inv. split; [|intros s' Hd; by apply (device_sim s s')]. intros e He. destruct (run_sim e s HI He) as (s' & R & _ & H & _). by exists s'.
Qed.

(** C25: the driver does not get stuck, if the device returns no chain between the end of
    the handler's loop and the acknowledgement of the interrupt. While a call is under
    way, the handler is about to acknowledge, or some process can go on, or there is a
    request to complete and its interrupt is pending, or one to serve and the device has
    been told of it, or the device is at work: no wakeup is lost, and no process waits
    for descriptors that are free. The handler acknowledges after its loop, so that
    without the condition an interrupt is lost ([lost_interrupt]). *)
Theorem virtio_progress s p b w : reach true s -> buf_at s p = Some (b, w) ->
  acking s = true \/ (exists p' b' w', procs s !! p' = Some (ReadyFree b' w')) \/ (exists p' b' w' i0 i1 i2, procs s !! p' = Some (ReadyBuf b' w' i0 i1 i2)) \/
  (used_idx s mod zNUM <> used_id s mod zNUM /\ isr s <> 0) \/ (dv_last s <> avail_idx s /\ notified s = true) \/ dv_open s <> [].
Proof using All.
  intros Hre Hb. right. pose proof (vreach_heard s Hre) as [_ Hheard]. pose proof (vreach_inv _ s Hre) as [(U & N & HC) HW HF HN].
  enough (Hgo : (exists p' b' w', procs s !! p' = Some (ReadyFree b' w')) \/ (exists p' b' w' i0 i1 i2, procs s !! p' = Some (ReadyBuf b' w' i0 i1 i2)) \/
    used_idx s mod zNUM <> used_id s mod zNUM \/ dv_last s <> avail_idx s \/ dv_open s <> []) by (destruct Hgo as [?|[?|[?|[?|?]]]]; tauto).
  pose proof (core_bound s U N HC) as Hbd. rewrite !length_app in Hbd.
  destruct U as [|h U]; [|right; right; right; left; destruct (co_avail _ _ _ HC) as (A1 & A2 & _); rewrite A2; unfold u16, alen; cbn [length] in *; dlia].
  destruct N as [|h N]; [|right; right; left; destruct (co_used _ _ _ HC) as (U1 & _ & U3 & _); rewrite U3; unfold alen, zNUM, NUM in *; cbn [length] in *; dlia].
  destruct (dv_open s) as [|h l] eqn:Ho; [|by do 4 right]. assert (Hidle : forall p' q x, req_at s p' = Some q -> dbufs s !! q_b q = Some x -> b_disk x <> 1).
  { intros p' q x Hq Hx H1. assert (Hin : q_0 q ∈ [] ++ dv_open s ++ []) by (apply (co_busy _ _ _ HC); by exists p', q, x). rewrite Ho in Hin. by apply not_elem_of_nil in Hin. }
  assert (Hreq : (exists p' q, req_at s p' = Some q) \/ forall p', req_at s p' = None).
  { destruct (omap req_of (procs s)) as [|q r] eqn:E; [right|left].
    - intros p'. destruct (req_at s p') as [q|] eqn:Hq; [|done]. apply bind_Some in Hq as (x & Hx & Hq). assert (Hin : q ∈ omap req_of (procs s)) by (apply list_elem_of_omap; exists x; split; [by eapply list_elem_of_lookup_2|done]).
      rewrite E in Hin. by apply not_elem_of_nil in Hin.
    - assert (Hin : q ∈ omap req_of (procs s)) by (rewrite E; by left). apply list_elem_of_omap in Hin as (x & (p' & Hx)%list_elem_of_lookup & Hq). exists p', q. unfold req_at. by rewrite Hx. }
  destruct Hreq as [(p' & q & Hq)|Hnone].
  - destruct (req_proc s p' q Hq) as (x & Hx & Hr & _). destruct x; try done.
    + cbn in Hr. injection Hr as <-. destruct (HW _ _ _ _ _ _ Hx) as (y & Hy & H1). by destruct (Hidle p' _ y Hq Hy).
    + right; left. by eexists _, _, _, _, _, _.
  - left. apply bind_Some in Hb as (x & Hx & Hb). assert (Hr := Hnone p). unfold req_at in Hr. rewrite Hx in Hr. destruct x; try done; [|by eexists _, _, _]. exfalso. apply HF in Hx.
    assert (Hall : forall i v, aget (dfree s) i = Some v -> v <> 0).
    { intros i v Hv ->. apply (co_taken _ _ _ HC), idx_elem in Hv as (p' & q & Hq & _). by rewrite Hnone in Hq. }
    assert (Hlen : nfree (dfree s) = NUM); [|unfold NUM in Hlen; lia]. destruct (co_len _ _ _ HC) as (_ & <- & _). unfold nfree. f_equal.
    clear -Hall. induction (dfree s) as [|v l IH]; [done|]. rewrite filter_cons_True by (apply (Hall 0); done). f_equal. apply IH.
    intros i v' (n & -> & Hv)%aget_nat. apply (Hall (Z.of_nat (S n))). rewrite aget_of_nat. done.
Qed.

End device.

End spec.

(** ** A device *)

(** One that serves chains in the order in which it took them. *)
Definition fifo_device (s s' : vst) : Prop := fetched s = Some s' \/ rested s = Some s' \/ exists h r, head (dv_open s) = Some h /\ chain s h = Some r /\ served h 1024 r s = Some s'.
Lemma fifo_device_ok n s s' : fifo_device s s' -> fetched s = Some s' \/ rested s = Some s' \/ exists h len, h ∈ dv_open s /\ forall r, chain s h = Some r -> r_sector r + 2 <= n -> served h len r s = Some s'.
Proof.
  intros [Hf|[Hf|(h & r & Hh & Hr & Hs)]]; [by left|by right; left|right; right]. exists h, 1024. split; [by apply head_elem|]. intros r' Hr' _. by simplify_eq.
Qed.

(** A disk of 2000 sectors, two processes, and a buffer for block 5. *)
Definition demo_regs (r : Z) : Z :=
  if r =? MAGIC_VALUE then 0x74726976 else if r =? VERSION then 1 else if r =? DEVICE_ID then 2 else if r =? VENDOR_ID then 0x554d4551 else if r =? QUEUE_NUM_MAX then 1024 else 0.
Definition demo_power : vst :=
  mk_vst [] 0 [] 0 [] [] 0 (replicate NUM (mk_info None 0)) [mk_dbuf 5 0 (fun _ => 0)] (replicate 2 (mk_hdr 0 0 0)) [Out; Out] (fun x => x mod 251) 0 [] false 0 false.
Definition demo : vst := set_dfree (replicate NUM 1) (clear_pages demo_power).

Lemma demo_booted : booted demo.
Proof.
  eexists demo_regs, 0x80010000, demo_power, _. split; [|vm_compute; reflexivity]. split_and!; try done. by repeat constructor.
Qed.
Lemma demo_callable : callable 2000 0 demo.
Proof.
  eexists. split; [reflexivity|]. split; [done|]. split; [done|]. intros p b w x Hb. exfalso. unfold buf_at in Hb. by destruct p as [|[|p]].
Qed.
Lemma demo_started calm : reach 2000 fifo_device calm (started 0 0 false demo).
Proof. apply (reach_run 2000 fifo_device calm (Start 0 0 false) demo); [apply reach_boot, demo_booted|split; [done|apply demo_callable]|done]. Qed.

Lemma virtio_refines_witness : exists s', run (Start 0 0 false) demo = Ret tt s' /\ (abs s' = abs demo \/ astep (abs demo) (abs s')).
Proof.
  apply (virtio_refines 2000 ltac:(lia) fifo_device (fifo_device_ok 2000) demo); [apply reach_boot, demo_booted|]. split; [done|apply demo_callable].
Defined.

Lemma virtio_progress_witness : let s := started 0 0 false demo in
  acking s = true \/ (exists p' b' w', procs s !! p' = Some (ReadyFree b' w')) \/ (exists p' b' w' i0 i1 i2, procs s !! p' = Some (ReadyBuf b' w' i0 i1 i2)) \/
  (used_idx s mod zNUM <> used_id s mod zNUM /\ isr s <> 0) \/ (dv_last s <> avail_idx s /\ notified s = true) \/ dv_open s <> [].
Proof. apply (virtio_progress 2000 ltac:(lia) fifo_device (fifo_device_ok 2000) (started 0 0 false demo) 0 0 false); [apply demo_started|reflexivity]. Defined.

(** A whole read: the call, the device, the interrupt, the return. *)
Definition and_then (o : outcome vst unit) (f : vst -> outcome vst unit) : outcome vst unit := match o with Ret _ s => f s | _ => o end.
Definition serve_head (s : vst) : outcome vst unit :=
  match fetched s with
  | Some s1 => match head (dv_open s1) ≫= fun h => chain s1 h ≫= fun r => served h 1024 r s1 with Some s2 => Ret tt s2 | None => Fault end
  | None => Fault
  end.
Lemma demo_read :
  match and_then (and_then (and_then (and_then (run (Start 0 0 false) demo) (run (Resume 0))) serve_head) virtio_disk_intr) (run (Resume 0)) with
  | Ret _ s => procs s = [Out; Out] /\ dfree s = replicate NUM 1 /\ (fun x => b_data x 7) <$> dbufs s = [(1024 * 5 + 7) mod 251]
  | _ => False
  end.
Proof. vm_compute. by split_and!. Qed.

(** ** A lost interrupt

    Two processes read; the device returns the second chain when the handler has left its
    loop for the first, and the handler acknowledges both. *)
Definition race_power : vst :=
  mk_vst [] 0 [] 0 [] [] 0 (replicate NUM (mk_info None 0)) [mk_dbuf 5 0 (fun _ => 0); mk_dbuf 6 0 (fun _ => 0)] (replicate 2 (mk_hdr 0 0 0)) [Out; Out] (fun x => x mod 251) 0 [] false 0 false.
Definition race0 : vst := set_dfree (replicate NUM 1) (clear_pages race_power).
Definition race1 : vst := started 1 1 false (started 0 0 false race0).
Definition after (e : event) (s : vst) : vst := match run e s with Ret _ s' => s' | _ => s end.
Definition fetch_one (s : vst) : vst := default s (fetched s).
Definition serve_one (s : vst) : vst := default s (head (dv_open s) ≫= fun h => chain s h ≫= fun r => served h 1024 r s).
Definition race2 : vst := serve_one (fetch_one (fetch_one (after (Resume 1) (after (Resume 0) race1)))).
Definition race3 : vst := after (Resume 0) (after Ack (serve_one (after Intr race2))).

Lemma reach_after e s : match run e s with Ret _ _ => True | _ => False end -> reach 2000 fifo_device false s -> allowed 2000 e s -> reach 2000 fifo_device false (after e s).
Proof. intros H Hr Ha. apply (reach_run 2000 fifo_device false e s); [done|done|]. unfold after. by destruct (run e s) as [[] s'| | |]. Qed.
Lemma reach_fetch s : is_Some (fetched s) -> reach 2000 fifo_device false s -> reach 2000 fifo_device false (fetch_one s).
Proof. intros [s' Hs] Hr. apply (reach_device 2000 fifo_device false s); [done| |done]. unfold fetch_one. rewrite Hs. by left. Qed.
Lemma reach_serve s : is_Some (head (dv_open s) ≫= fun h => chain s h ≫= fun r => served h 1024 r s) -> reach 2000 fifo_device false s -> reach 2000 fifo_device false (serve_one s).
Proof.
  intros [s' Hs] Hr. apply (reach_device 2000 fifo_device false s); [done| |done]. unfold serve_one. rewrite Hs. right. right.
  apply bind_Some in Hs as (h & Hh & Hs). apply bind_Some in Hs as (r & Hc & Hs). by exists h, r.
Qed.

Lemma race_started : reach 2000 fifo_device false race1.
Proof.
  apply (reach_run 2000 fifo_device false (Start 1 1 false) (started 0 0 false race0)); [|split; [done|]|done].
  - apply (reach_run 2000 fifo_device false (Start 0 0 false) race0); [|split; [done|]|done].
    + apply reach_boot. eexists demo_regs, 0x80010000, race_power, _. split; [|vm_compute; reflexivity]. split_and!; try done. by repeat constructor.
    + eexists. split; [reflexivity|]. split; [done|]. split; [done|]. intros p b w x Hb. exfalso. unfold buf_at in Hb. by destruct p as [|[|p]].
  - eexists. split; [reflexivity|]. split; [done|]. split; [done|]. intros p b w x Hb Hx. unfold buf_at in Hb. destruct p as [|[|p]]; [|done|done]. cbn in Hb. injection Hb as <- <-. cbn in Hx. injection Hx as <-. done.
Qed.

(** The second process sleeps, its chain has been returned, and there is neither an
    interrupt nor anything left for the device to do. *)
Lemma lost_interrupt : exists s i0 i1 i2, reach 2000 fifo_device false s /\ procs s = [Out; WaitBuf 1 false i0 i1 i2] /\
  used_idx s mod zNUM <> used_id s mod zNUM /\ isr s = 0 /\ acking s = false /\ dv_last s = avail_idx s /\ dv_open s = [].
Proof.
  exists race3, 3, 4, 5. split; [|vm_compute; by split_and!].
  assert (H2 : reach 2000 fifo_device false race2).
  { apply reach_serve; [vm_compute; by eexists|]. do 2 (apply reach_fetch; [vm_compute; by eexists|]). do 2 (apply reach_after; [vm_compute; exact I| |vm_compute; split; [reflexivity|by eexists _, _]]). apply race_started. }
  apply reach_after; [vm_compute; exact I| |vm_compute; split; [reflexivity|by eexists _, _]]. apply reach_after; [vm_compute; exact I| |vm_compute; reflexivity]. apply reach_serve; [vm_compute; by eexists|]. apply reach_after; [vm_compute; exact I|exact H2|vm_compute; reflexivity].
Qed.

End Virtioref.
