(* ===== verification/Sh.v ===== *)
(** The shell, [src/user/program/sh.c]: the parser, which builds commands on the heap
    with pointers into the line, and [runcmd], which carries them out by system calls.

    A command on the heap is a node, a [struct cmd *] the number of its node; [malloc]
    gives a node that is new. A line is bytes in memory; [es] is its end. [panic] of the
    shell ends the process.

    What carries commands out is a tree of system calls: a call has what the program does
    with each result of the call, and [fork] returns 0 in the child. What [getcmd] leaves
    in the buffer for each line is an argument of [main]. *)

From S2P Require Import Prelude Mem Ulib.

Module Sh.

Definition MAXARGS : nat := 10.
Definition O_RDONLY : Z := 0x000.
Definition O_WRONLY : Z := 0x001.
Definition O_RDWR : Z := 0x002.
Definition O_CREATE : Z := 0x200.
Definition O_TRUNC : Z := 0x400.

(** [struct execcmd], [redircmd], [pipecmd], [listcmd] and [backcmd] *)
Inductive node :=
| EXEC (argv eargv : list Z)
| REDIR (cmd : nat) (file efile mode fd : Z)
| PIPE (left right : nat)
| LIST (left right : nat)
| BACK (cmd : nat).

(** [ps] is what the parser's [*ps] is. *)
Record sh := mk_sh { buf : mem; ps : Z; heap : list node }.
Definition set_ps (p : Z) (s : sh) : sh := mk_sh (buf s) p (heap s).
Definition set_heap (h : list node) (s : sh) : sh := mk_sh (buf s) (ps s) h.
Definition set_buf (m : mem) (s : sh) : sh := mk_sh m (ps s) (heap s).

Definition new_node (x : node) : M sh nat :=
  let* n := gets (fun s => length (heap s)) in
  modify (fun s => set_heap (heap s ++ [x]) s) ;;;
  ret n.
Definition get_node (p : nat) : M sh node := let* h := gets heap in deref (h !! p).

Definition execcmd : M sh nat := new_node (EXEC (replicate MAXARGS 0) (replicate MAXARGS 0)).
Definition redircmd (subcmd : nat) (file efile mode fd : Z) : M sh nat := new_node (REDIR subcmd file efile mode fd).
Definition pipecmd (left right : nat) : M sh nat := new_node (PIPE left right).
Definition listcmd (left right : nat) : M sh nat := new_node (LIST left right).
Definition backcmd (subcmd : nat) : M sh nat := new_node (BACK subcmd).

(** ** Tokens *)

Definition whitespace : list Z := [32; 9; 13; 10; 11].
Definition symbols : list Z := [60; 124; 62; 38; 59; 40; 41].
(** [strchr(l, c)] is not null. *)
Definition strchr (l : list Z) (c : Z) : bool := existsb (Z.eqb c) l.

(** [while(s < es && f( *s)) s++] *)
Fixpoint skip_loop (f : Z -> bool) (n : nat) (m : mem) (s : Z) : Z :=
  match n with O => s | S n => if f (m s) then skip_loop f n m (s + 1) else s end.
Definition skip (f : Z -> bool) (es : Z) (m : mem) (s : Z) : Z := skip_loop f (Z.to_nat (es - s)) m s.
Definition in_word (c : Z) : bool := negb (strchr whitespace c) && negb (strchr symbols c).

(** The token's code, its start and its end. *)
Definition gettoken (es : Z) : M sh (Z * Z * Z) :=
  let* m := gets buf in
  let* s := gets ps in
  let s := skip (strchr whitespace) es m s in
  let q := s in
  let c := m s in
  let '(ret_, s) :=
    (if c =? 0 then (c, s)
     else if strchr [124; 40; 41; 59; 38; 60] c then (c, s + 1)
     else if c =? 62 then if m (s + 1) =? 62 then (43, s + 2) else (c, s + 1)
     else (97, skip in_word es m s)) in
  let eq := s in
  modify (set_ps (skip (strchr whitespace) es m s)) ;;;
  ret (ret_, q, eq).

Definition peek (es : Z) (toks : list Z) : M sh bool :=
  let* m := gets buf in
  let* s := gets ps in
  let s := skip (strchr whitespace) es m s in
  modify (set_ps s) ;;;
  ret (negb (m s =? 0) && strchr toks (m s)).

(** ** The parser *)

(** Every round of a loop takes a token. *)
Definition left_ (es : Z) (s : sh) : nat := S (Z.to_nat (es - ps s)).

Fixpoint redirs_loop (fuel : nat) (es : Z) (cmd : nat) : M sh nat :=
  match fuel with
  | O => nofuel
  | S fuel =>
      let* b := peek es [60; 62] in
      if negb b then ret cmd
      else
        let* '(tok, _, _) := gettoken es in
        let* '(t, q, eq) := gettoken es in
        if negb (t =? 97) then panic "missing file for redirection"
        else
          let* cmd :=
            (if tok =? 60 then redircmd cmd q eq O_RDONLY 0
             else if tok =? 62 then redircmd cmd q eq (Z.lor (Z.lor O_WRONLY O_CREATE) O_TRUNC) 1
             else if tok =? 43 then redircmd cmd q eq (Z.lor O_WRONLY O_CREATE) 1
             else ret cmd) in
          redirs_loop fuel es cmd
  end.
Definition parseredirs (cmd : nat) (es : Z) : M sh nat := let* n := gets (left_ es) in redirs_loop n es cmd.

(** [cmd->argv[i] = q; cmd->eargv[i] = eq] *)
Definition set_arg (cmd : nat) (i q eq : Z) : M sh unit :=
  let* x := get_node cmd in
  match x with
  | EXEC argv eargv =>
      if (0 <=? i) && (i <? Z.of_nat MAXARGS)
      then modify (fun s => set_heap (<[cmd := EXEC (aset argv i q) (aset eargv i eq)]> (heap s)) s)
      else fault
  | _ => fault
  end.

Fixpoint args_loop (fuel : nat) (es : Z) (cmd : nat) (argc : Z) (r : nat) : M sh (Z * nat) :=
  match fuel with
  | O => nofuel
  | S fuel =>
      let* b := peek es [124; 41; 38; 59] in
      if b then ret (argc, r)
      else
        let* '(tok, q, eq) := gettoken es in
        if tok =? 0 then ret (argc, r)
        else if negb (tok =? 97) then panic "syntax"
        else
          set_arg cmd argc q eq ;;;
          let argc := argc + 1 in
          if Z.of_nat MAXARGS <=? argc then panic "too many args"
          else
            let* r := parseredirs r es in
            args_loop fuel es cmd argc r
  end.

(** [parseexec] without a block *)
Definition parseargs (es : Z) : M sh nat :=
  let* cmd := execcmd in
  let* n := gets (left_ es) in
  let* r := parseredirs cmd es in
  let* '(argc, r) := args_loop n es cmd 0 r in
  set_arg cmd argc 0 0 ;;;
  ret r.

Fixpoint amp_loop (fuel : nat) (es : Z) (cmd : nat) : M sh nat :=
  match fuel with
  | O => nofuel
  | S fuel =>
      let* b := peek es [38] in
      if b then
        let* _ := gettoken es in
        let* cmd := backcmd cmd in
        amp_loop fuel es cmd
      else ret cmd
  end.

(** The functions of the grammar, each with the functions it calls. *)
Definition parseline (parsepipe parseline : Z -> M sh nat) (es : Z) : M sh nat :=
  let* cmd := parsepipe es in
  let* n := gets (left_ es) in
  let* cmd := amp_loop n es cmd in
  let* b := peek es [59] in
  if b then
    let* _ := gettoken es in
    let* r := parseline es in
    listcmd cmd r
  else ret cmd.

Definition parsepipe (parseexec parsepipe : Z -> M sh nat) (es : Z) : M sh nat :=
  let* cmd := parseexec es in
  let* b := peek es [124] in
  if b then
    let* _ := gettoken es in
    let* r := parsepipe es in
    pipecmd cmd r
  else ret cmd.

Definition parseexec (parseblock : Z -> M sh nat) (es : Z) : M sh nat :=
  let* b := peek es [40] in
  if b then parseblock es else parseargs es.

Definition parseblock (parseline : Z -> M sh nat) (es : Z) : M sh nat :=
  let* b := peek es [40] in
  if negb b then panic "parseblock"
  else
    let* _ := gettoken es in
    let* cmd := parseline es in
    let* b := peek es [41] in
    if negb b then panic "syntax - missing )"
    else
      let* _ := gettoken es in
      parseredirs cmd es.

(** The functions call each other: [fuel] bounds the depth of the calls. *)
Inductive part := Line | Pipeline | Primary | Block.
Fixpoint parse (fuel : nat) (x : part) (es : Z) : M sh nat :=
  match fuel with
  | O => nofuel
  | S fuel =>
      match x with
      | Line => parseline (parse fuel Pipeline) (parse fuel Line) es
      | Pipeline => parsepipe (parse fuel Primary) (parse fuel Pipeline) es
      | Primary => parseexec (parse fuel Block) es
      | Block => parseblock (parse fuel Line) es
      end
  end.

(** A string ends with a zero, and no array is longer than [MAXARGS]. *)
Fixpoint nul_args (fuel : nat) (argv eargv : list Z) (i : Z) : M sh unit :=
  match fuel with
  | O => nofuel
  | S fuel =>
      let* a := deref (aget argv i) in
      if a =? 0 then ret tt
      else
        let* e := deref (aget eargv i) in
        modify (fun s => set_buf (upd (buf s) e 0) s) ;;;
        nul_args fuel argv eargv (i + 1)
  end.

(** A node is newer than those it points to. *)
Fixpoint nul_loop (fuel : nat) (cmd : nat) : M sh unit :=
  match fuel with
  | O => nofuel
  | S fuel =>
      let* x := get_node cmd in
      match x with
      | EXEC argv eargv => nul_args (S MAXARGS) argv eargv 0
      | REDIR c _ efile _ _ => nul_loop fuel c ;;; modify (fun s => set_buf (upd (buf s) efile 0) s)
      | PIPE l r => nul_loop fuel l ;;; nul_loop fuel r
      | LIST l r => nul_loop fuel l ;;; nul_loop fuel r
      | BACK c => nul_loop fuel c
      end
  end.
Definition nulterminate (cmd : nat) : M sh unit := nul_loop (S cmd) cmd.

(** The length of the line bounds the depth of the recursion. *)
Definition parsecmd (n : nat) : M sh nat :=
  let* m := gets buf in
  let* s := gets ps in
  let* len := match Ulib.strlen n m s with Some len => ret len | None => nofuel end in
  let es := s + len in
  let* cmd := parse (4 * Z.to_nat len + 4) Line es in
  let* _ := peek es [] in
  let* s := gets ps in
  if negb (s =? es) then panic "syntax"
  else nulterminate cmd ;;; ret cmd.

(** ** Running commands *)

(** A string that is passed to a system call: in the memory of the process, or a literal. *)
Inductive str := At (m : mem) (a : Z) | Lit (l : list Z).

Inductive prog :=
| Exit (status : Z)
| Exec (m : mem) (path : Z) (argv : list Z) (k : prog)
| Open (path : str) (mode : Z) (k : Z -> prog)
| Close (fd : Z) (k : prog)
| Dup (fd : Z) (k : prog)
| Pipe (k : option (Z * Z) -> prog)
| Fork (k : Z -> prog)
| Wait (k : prog)
| Chdir (path : str) (k : Z -> prog)
| Print (fd : Z) (msg : string) (k : prog)
| Crash
| Hang.

Definition panic_ (msg : string) : prog := Print 2 msg (Exit 1).
Definition fork1 (k : Z -> prog) : prog := Fork (fun pid => if pid =? -1 then panic_ "fork" else k pid).

(** [runcmd] does not return. *)
Fixpoint runcmd (fuel : nat) (m : mem) (h : list node) (cmd : nat) : prog :=
  match fuel with
  | O => Hang
  | S fuel =>
      match h !! cmd with
      | None => Crash
      | Some (EXEC argv _) =>
          match aget argv 0 with
          | None => Crash
          | Some a => if a =? 0 then Exit 1 else Exec m a argv (Print 2 "exec %s failed" (Exit 0))
          end
      | Some (REDIR c file _ mode fd) =>
          Close fd (Open (At m file) mode (fun r => if r <? 0 then Print 2 "open %s failed" (Exit 1) else runcmd fuel m h c))
      | Some (LIST l r) =>
          fork1 (fun pid => if pid =? 0 then runcmd fuel m h l else Wait (runcmd fuel m h r))
      | Some (PIPE l r) =>
          Pipe (fun p =>
            match p with
            | None => panic_ "pipe"
            | Some (p0, p1) =>
                fork1 (fun pid => if pid =? 0 then Close 1 (Dup p1 (Close p0 (Close p1 (runcmd fuel m h l)))) else
                fork1 (fun pid => if pid =? 0 then Close 0 (Dup p0 (Close p0 (Close p1 (runcmd fuel m h r)))) else
                Close p0 (Close p1 (Wait (Wait (Exit 0))))))
            end)
      | Some (BACK c) => fork1 (fun pid => if pid =? 0 then runcmd fuel m h c else Exit 0)
      end
  end.

(** [runcmd(parsecmd(buf))] in the child *)
Definition runline (m : mem) (line : Z) : prog :=
  match parsecmd 101 (mk_sh m line []) with
  | Ret p s => runcmd (S p) (buf s) (heap s) p
  | Panic msg => panic_ msg
  | Fault => Crash
  | NoFuel => Hang
  end.

Definition console : list Z := [99; 111; 110; 115; 111; 108; 101].
(** The loop of [main] that opens the console *)
Fixpoint console_loop (fuel : nat) (k : prog) : prog :=
  match fuel with
  | O => Hang
  | S fuel => Open (Lit console) O_RDWR (fun fd => if 0 <=? fd then (if 3 <=? fd then Close fd k else console_loop fuel k) else k)
  end.

(** The body of [main]'s second loop *)
Definition command_loop (buf : Z) (m : mem) (k : prog) : prog :=
  if (m buf =? 99) && (m (buf + 1) =? 100) && (m (buf + 2) =? 32) then
    match Ulib.strlen 101 m buf with
    | None => Hang
    | Some n => Chdir (At (upd m (buf + n - 1) 0) (buf + 3)) (fun r => if r <? 0 then Print 2 "cannot cd %s" k else k)
    end
  else fork1 (fun pid => if pid =? 0 then runline m buf else Wait k).

(** [lines] is the memory after each [gets]. *)
Fixpoint commands (buf : Z) (lines : list mem) : prog :=
  match lines with
  | [] => Exit 0
  | m :: lines => Print 2 "$ " (if m buf =? 0 then Exit 0 else command_loop buf m (commands buf lines))
  end.
Definition main (buf : Z) (lines : list mem) : prog := console_loop 4 (commands buf lines).

End Sh.
