(* ===== verification/Shspec.v ===== *)
(** The shell's parser against a grammar: [parsecmd] accepts exactly the lines of the
    grammar, and the command it builds is the one the grammar gives. *)

From S2P Require Import Prelude Mem Kstring Ulib Sh.
Import Kstring (cstr).
Import Sh.

Module Shspec.

(** ** Commands and their grammar *)

Inductive dir := In_ | Trunc | Append.
Inductive cmd := CExec (args : list (list Z)) | CRedir (c : cmd) (d : dir) (file : list Z) | CPipe (l r : cmd) | CList (l r : cmd) | CBack (c : cmd).

Inductive tok := TWord (w : list Z) | TPipe | TLp | TRp | TSemi | TAmp | TDir (d : dir).
#[export] Instance dir_eq_dec : EqDecision dir.
Proof. solve_decision. Defined.
#[export] Instance tok_eq_dec : EqDecision tok.
Proof. solve_decision. Defined.

(** Words and redirections, in any order. *)
Inductive elem := EWord (w : list Z) | EDir (d : dir) (file : list Z).
Definition elem_toks (e : elem) : list tok := match e with EWord w => [TWord w] | EDir d f => [TDir d; TWord f] end.
Definition elems_toks (es : list elem) : list tok := concat (elem_toks <$> es).
Definition words (es : list elem) : list (list Z) := omap (fun e => match e with EWord w => Some w | EDir _ _ => None end) es.
Definition wrap (c : cmd) (es : list elem) : cmd := foldl (fun c e => match e with EWord _ => c | EDir d f => CRedir c d f end) c es.

Inductive line : list tok -> cmd -> Prop :=
| line_end ts c n : pipe ts c -> line (ts ++ replicate n TAmp) (Nat.iter n CBack c)
| line_list ts c n ts' c' : pipe ts c -> line ts' c' -> line (ts ++ replicate n TAmp ++ TSemi :: ts') (CList (Nat.iter n CBack c) c')
with pipe : list tok -> cmd -> Prop :=
| pipe_one ts c : prim ts c -> pipe ts c
| pipe_two ts c ts' c' : prim ts c -> pipe ts' c' -> pipe (ts ++ TPipe :: ts') (CPipe c c')
with prim : list tok -> cmd -> Prop :=
| prim_exec es : (length (words es) < MAXARGS)%nat -> prim (elems_toks es) (wrap (CExec (words es)) es)
| prim_block ts c es : line ts c -> words es = [] -> prim (TLp :: ts ++ TRp :: elems_toks es) (wrap c es).

(** ** How tokens are spelled *)

Definition is_space (c : Z) : Prop := strchr whitespace c = true.
Definition word_char (c : Z) : Prop := 0 < c < 256 /\ in_word c = true.
Definition text (t : tok) : list Z :=
  match t with
  | TWord w => w | TPipe => [124] | TLp => [40] | TRp => [41] | TSemi => [59] | TAmp => [38]
  | TDir In_ => [60] | TDir Trunc => [62] | TDir Append => [62; 62]
  end.
Definition tok_ok (t : tok) : Prop := match t with TWord w => w <> [] /\ Forall word_char w | _ => True end.
(** [t] ends where it ends: what follows does not make it longer. *)
Definition closed (t : tok) (rest : list Z) : Prop :=
  match t with
  | TWord _ => forall c, head rest = Some c -> in_word c = false
  | TDir Trunc => head rest <> Some 62
  | _ => True
  end.
Inductive spells : list tok -> list Z -> Prop :=
| spells_nil ws : Forall is_space ws -> spells [] ws
| spells_cons ws t ts rest : Forall is_space ws -> tok_ok t -> closed t rest -> spells ts rest -> spells (t :: ts) (ws ++ text t ++ rest).

(** ** Tokens in memory *)

(** The line lies between [lb] and [ub]. *)
Section bounds.
Context (lb ub : Z) (lb_pos : 0 < lb).

(** [l] is what is left of the line. *)
Record input (es : Z) (m : mem) (p : Z) (l : list Z) : Prop := {
  in_es : p + Z.of_nat (length l) = es;
  in_lo : lb <= p;
  in_hi : es <= ub;
  in_buf : forall i c, l !! i = Some c -> m (p + Z.of_nat i) = c;
  in_chars : Forall (fun c => 0 < c < 256) l;
  in_end : m es = 0 }.

Lemma input_head es m p c l : input es m p (c :: l) -> m p = c /\ 0 < c < 256 /\ input es m (p + 1) l.
Proof.
  intros [H1 H2 H2' H3 H4 H5]. cbn [length] in H1. apply Forall_cons in H4 as [H4 H4']. cbv beta in H4. split; [|split; [done|]].
  - rewrite <- (H3 0%nat c eq_refl). f_equal. lia.
  - split; [lia|lia|done| |done|done]. intros i d Hi. rewrite <- (H3 (S i) d Hi). f_equal. lia.
Qed.
Lemma input_app es m l1 : forall p l2, input es m p (l1 ++ l2) -> input es m (p + Z.of_nat (length l1)) l2.
Proof.
  induction l1 as [|c l1 IH]; intros p l2 H; cbn [length app] in *; [by rewrite Z.add_0_r|]. apply input_head in H as (_ & _ & H). apply IH in H.
  by replace (p + Z.of_nat (S (length l1))) with (p + 1 + Z.of_nat (length l1)) by lia.
Qed.
Lemma input_nil es m p : input es m p [] -> p = es /\ m p = 0.
Proof. intros [H1 _ _ _ _ H5]. cbn in H1. rewrite Z.add_0_r in H1. by subst. Qed.
(** The byte at the front: 0 at the end. *)
Lemma input_char es m p l : input es m p l -> m p = default 0 (head l).
Proof. intros H. destruct l as [|c l]; [apply input_nil in H; naive_solver|]. apply input_head in H. naive_solver. Qed.

Lemma skip_ws_run es m f l1 : forall p l2, input es m p (l1 ++ l2) -> Forall (fun c => f c = true) l1 -> (forall c, head l2 = Some c -> f c = false) -> skip f es m p = p + Z.of_nat (length l1).
Proof.
  induction l1 as [|c l1 IH]; intros p l2 H Hf Hn; cbn [length app] in *.
  - destruct l2 as [|c l2].
    + apply input_nil in H as [-> _]. unfold skip. rewrite Z.sub_diag. change (es = es + 0). lia.
    + pose proof (in_es _ _ _ _ H) as He. apply input_head in H as (Hc & _ & _). unfold skip. destruct (Z.to_nat (es - p)) eqn:E; [cbn [length] in He; lia|]. cbn [skip_loop]. rewrite Hc, (Hn c eq_refl). lia.
  - pose proof (in_es _ _ _ _ H) as He. apply input_head in H as (Hc & _ & H). apply Forall_cons in Hf as [Hfc Hf]. specialize (IH _ _ H Hf Hn). unfold skip in *. cbn [length] in He.
    replace (Z.to_nat (es - p)) with (S (Z.to_nat (es - (p + 1)))) by lia. cbn [skip_loop]. rewrite Hc, Hfc, IH. lia.
Qed.

Lemma spells_head ts l : spells ts l -> exists ws l', l = ws ++ l' /\ Forall is_space ws /\ spells ts l' /\ (forall c, head l' = Some c -> strchr whitespace c = false) /\
  match ts with [] => l' = [] | t :: ts' => exists rest, l' = text t ++ rest /\ tok_ok t /\ closed t rest /\ spells ts' rest end.
Proof.
  intros H. inversion H as [ws Hw|ws t ts' rest Hw Ht Hc Hr]; subst.
  - exists l, []. rewrite app_nil_r. split_and!; [done|done|constructor; constructor|done|done].
  - exists ws, (text t ++ rest). split_and!; [done|done|apply (spells_cons [] t ts' rest); [constructor|done..]| |by exists rest].
    intros c Hc'. destruct t as [w| | | | | |[]]; cbn in Hc'; try (injection Hc' as <-; reflexivity). destruct Ht as [Hne Hw']. destruct w as [|d w]; [done|]. cbn in Hc'. injection Hc' as ->.
    apply Forall_cons in Hw' as [[_ Hw'] _]. unfold in_word in Hw'. apply andb_true_iff in Hw' as [Hw' _]. by apply negb_true_iff in Hw'.
Qed.

(** The state of the parser: what is left spells [ts]. *)
Definition ready (es : Z) (s : sh) (ts : list tok) : Prop := exists l, input es (buf s) (ps s) l /\ spells ts l.

Lemma ready_skip es s ts : ready es s ts -> exists l, input es (buf s) (skip (strchr whitespace) es (buf s) (ps s)) l /\ spells ts l /\
  match ts with [] => l = [] | t :: ts' => exists rest, l = text t ++ rest /\ tok_ok t /\ closed t rest /\ spells ts' rest end.
Proof.
  intros (l & Hi & Hs). destruct (spells_head ts l Hs) as (ws & l' & -> & Hw & Hs' & Hn & Ht). exists l'. rewrite (skip_ws_run es (buf s) _ ws (ps s) l' Hi Hw Hn). split_and!; [by apply input_app|done|done].
Qed.

Definition first (t : tok) : Z := default 0 (head (text t)).

Lemma first_word w rest : tok_ok (TWord w) -> exists c w', w = c :: w' /\ word_char c /\ head (w ++ rest) = Some c.
Proof. intros [Hne Hw]. destruct w as [|c w']; [done|]. apply Forall_cons in Hw as [Hc _]. by exists c, w'. Qed.

Lemma peek_run es s ts toks : ready es s ts -> exists s', peek es toks s = Ret (match ts with [] => false | t :: _ => strchr toks (first t) end) s' /\
  ready es s' ts /\ buf s' = buf s /\ heap s' = heap s.
Proof.
  intros Hr. destruct (ready_skip es s ts Hr) as (l & Hi & Hs & Ht). set (p := skip _ es (buf s) (ps s)) in *. exists (set_ps p s). split.
  - unfold peek, bind, gets, modify, ret. fold p. rewrite (input_char _ _ _ _ Hi). f_equal. destruct ts as [|t ts]; [by subst|]. destruct Ht as (rest & -> & Hok & _).
    assert (E : head (text t ++ rest) = Some (first t) /\ first t <> 0).
    { destruct t as [w| | | | | |[]]; try done. destruct (first_word w rest Hok) as (c & w' & -> & [Hc _] & _). cbn. split; [done|lia]. }
    destruct E as [-> E]. cbn. by rewrite (proj2 (Z.eqb_neq _ _)).
  - split; [by exists l|]. done.
Qed.

(** A word between two pointers. *)
Record word_at (m : mem) (q eq : Z) (w : list Z) : Prop := {
  wa_lo : lb <= q;
  wa_eq : eq = q + Z.of_nat (length w);
  wa_hi : eq <= ub;
  wa_buf : forall i c, w !! i = Some c -> m (q + Z.of_nat i) = c;
  wa_chars : Forall word_char w;
  wa_end : in_word (m eq) = false \/ m eq = 0 }.

Definition code (t : tok) : Z := match t with TWord _ => 97 | TDir Append => 43 | _ => first t end.

Lemma input_word es m p w rest : input es m p (w ++ rest) -> tok_ok (TWord w) -> closed (TWord w) rest -> word_at m p (p + Z.of_nat (length w)) w.
Proof.
  intros Hi [Hne Hw] Hc. split; [apply Hi|done| | |done|].
  - pose proof (in_es _ _ _ _ Hi) as E. pose proof (in_hi _ _ _ _ Hi). rewrite length_app in E. lia.
  - intros i c Hic. apply (in_buf _ _ _ _ Hi). by apply lookup_app_l_Some.
  - apply input_app in Hi. rewrite (input_char _ _ _ _ Hi). destruct rest as [|c rest]; [by right|left]. by apply Hc.
Qed.

Lemma gettoken_end es s : ready es s [] -> exists q eq s', gettoken es s = Ret (0, q, eq) s' /\ ready es s' [] /\ buf s' = buf s /\ heap s' = heap s.
Proof.
  intros Hr. destruct (ready_skip es s [] Hr) as (l & Hi & Hs & ->). set (p := skip _ es (buf s) (ps s)) in *. pose proof (input_nil _ _ _ Hi) as [Ep Em].
  eexists _, _, (set_ps p s). split; [|split; [by exists []|done]]. unfold gettoken, bind, gets, modify, ret. fold p. rewrite Em. cbn [Z.eqb].
  rewrite (skip_ws_run es (buf s) (strchr whitespace) [] p [] Hi ltac:(constructor) ltac:(done)). cbn [length Z.of_nat]. by rewrite Z.add_0_r.
Qed.

Lemma gettoken_run es s t ts : ready es s (t :: ts) -> exists q eq s', gettoken es s = Ret (code t, q, eq) s' /\ ready es s' ts /\ buf s' = buf s /\ heap s' = heap s /\
  forall w, t = TWord w -> word_at (buf s) q eq w.
Proof.
  intros Hr. destruct (ready_skip es s _ Hr) as (l & Hi & Hs & rest & -> & Hok & Hc & Hrest). set (p := skip _ es (buf s) (ps s)) in *.
  destruct (spells_head ts rest Hrest) as (ws & l' & -> & Hw & Hs' & Hn & _). set (e := p + Z.of_nat (length (text t))). pose proof (input_app _ _ _ _ _ Hi) as Hi'. fold e in Hi'.
  set (p' := e + Z.of_nat (length ws)). exists p, e, (set_ps p' s). split; [|split; [exists l'; split; [by apply input_app|done]|split_and!; [done|done|]]].
  - unfold gettoken, bind, gets, modify, ret. fold p. assert (Ee : skip (strchr whitespace) es (buf s) e = p') by (by apply (skip_ws_run es (buf s) _ ws e l')). rewrite (input_char _ _ _ _ Hi).
    destruct t as [w| | | | | |[]]; cbn [text code first head default app length Z.of_nat] in *; cbn [Z.eqb Pos.eqb strchr existsb orb].
    2,3,4,5,6,7: by rewrite <- Ee.
    + destruct (first_word w (ws ++ l') Hok) as (c & w' & Ew & [Hr' Hcc] & ->). cbn [default id]. unfold in_word in Hcc. apply andb_true_iff in Hcc as [_ Hcc]. apply negb_true_iff in Hcc.
      cbn [strchr existsb symbols] in Hcc. rewrite (proj2 (Z.eqb_neq c 0)) by lia. repeat (apply orb_false_iff in Hcc as [? Hcc]). cbn [strchr existsb].
      repeat match goal with H : (c =? _) = false |- _ => rewrite H; clear H end. cbn [orb].
      assert (Ew2 : skip in_word es (buf s) p = e).
      { apply (skip_ws_run es (buf s) in_word w p (ws ++ l') Hi); [|done]. destruct Hok as [_ Hw']. apply (Forall_impl _ _ _ Hw'). by intros ? [_ ?]. }
      by rewrite Ew2, Ee.
    + assert (E1 : (buf s (p + 1) =? 62) = false).
      { apply input_head in Hi as (_ & _ & Hi). rewrite (input_char _ _ _ _ Hi). apply Z.eqb_neq. cbn in Hc. destruct (ws ++ l') as [|c r]; [done|]. cbn in *. congruence. }
      rewrite E1. by rewrite <- Ee.
    + assert (E1 : (buf s (p + 1) =? 62) = true).
      { apply input_head in Hi as (_ & _ & Hi). by rewrite (input_char _ _ _ _ Hi). }
      rewrite E1. by rewrite <- Ee.
  - intros w ->. by eapply input_word.
Qed.

Lemma spells_length ts l : spells ts l -> (length ts <= length l)%nat.
Proof.
  induction 1 as [|ws t ts rest _ Ht _ _ IH]; cbn [length]; [lia|]. rewrite !length_app. destruct t as [w| | | | | |[]]; cbn [text length]; try lia.
  destruct Ht as [Hne _]. destruct w; [done|]. cbn [length]. lia.
Qed.
Lemma ready_left es s ts : ready es s ts -> (length ts < left_ es s)%nat.
Proof. intros (l & Hi & Hs). apply spells_length in Hs. pose proof (in_es _ _ _ _ Hi). unfold left_. lia. Qed.

(** ** The parser on tokens *)

Fixpoint tredirs (ts : list tok) (es : list elem) : outcome (list tok) (list elem) :=
  match ts with
  | TDir d :: TWord f :: ts' => tredirs ts' (es ++ [EDir d f])
  | TDir _ :: _ => Panic "missing file for redirection"
  | _ => Ret es ts
  end.
Fixpoint telems (ts : list tok) (es : list elem) : outcome (list tok) (list elem) :=
  match ts with
  | TWord w :: ts' => if decide (MAXARGS <= S (length (words es)))%nat then Panic "too many args" else telems ts' (es ++ [EWord w])
  | TDir d :: TWord f :: ts' => telems ts' (es ++ [EDir d f])
  | TDir _ :: _ => Panic "missing file for redirection"
  | TLp :: _ => Panic "syntax"
  | _ => Ret es ts
  end.
Fixpoint tamps (ts : list tok) (c : cmd) : outcome (list tok) cmd :=
  match ts with TAmp :: ts' => tamps ts' (CBack c) | _ => Ret c ts end.
Definition take_tok : M (list tok) (option tok) := fun ts => match ts with t :: ts' => Ret (Some t) ts' | [] => Ret None [] end.
Definition next_is (t : tok) : M (list tok) bool := fun ts => Ret (match ts with t' :: _ => bool_decide (t' = t) | [] => false end) ts.

Fixpoint tline (fuel : nat) : M (list tok) cmd :=
  match fuel with
  | O => nofuel
  | S fuel =>
      let* c := tpipe fuel in
      let* c := fun ts => tamps ts c in
      let* b := next_is TSemi in
      if b then let* _ := take_tok in let* r := tline fuel in ret (CList c r) else ret c
  end
with tpipe (fuel : nat) : M (list tok) cmd :=
  match fuel with
  | O => nofuel
  | S fuel =>
      let* c := texec fuel in
      let* b := next_is TPipe in
      if b then let* _ := take_tok in let* r := tpipe fuel in ret (CPipe c r) else ret c
  end
with texec (fuel : nat) : M (list tok) cmd :=
  match fuel with
  | O => nofuel
  | S fuel =>
      let* b := next_is TLp in
      if b then tblock fuel
      else let* es := fun ts => telems ts [] in ret (wrap (CExec (words es)) es)
  end
with tblock (fuel : nat) : M (list tok) cmd :=
  match fuel with
  | O => nofuel
  | S fuel =>
      let* b := next_is TLp in
      if negb b then panic "parseblock"
      else
        let* _ := take_tok in
        let* c := tline fuel in
        let* b := next_is TRp in
        if negb b then panic "syntax - missing )"
        else
          let* _ := take_tok in
          let* es := fun ts => tredirs ts [] in
          ret (wrap c es)
  end.

(** ** Commands on the heap *)

Definition mode_of (d : dir) : Z := match d with In_ => O_RDONLY | Trunc => Z.lor (Z.lor O_WRONLY O_CREATE) O_TRUNC | Append => Z.lor O_WRONLY O_CREATE end.
Definition fd_of (d : dir) : Z := match d with In_ => 0 | _ => 1 end.

Definition pad (l : list Z) : list Z := l ++ replicate (MAXARGS - length l) 0.

Section heap.
(** When the bytes between two pointers are a word. *)
Context (W : Z -> Z -> list Z -> Prop).

Definition args_at (argv eargv : list Z) (args : list (list Z)) : Prop :=
  exists qs es, argv = pad qs /\ eargv = pad es /\ (length args < MAXARGS)%nat /\ Forall3 W qs es args.

Fixpoint tree (h : list node) (hi p : nat) (t : cmd) : Prop :=
  (p < hi)%nat /\
  match t with
  | CExec args => exists argv eargv, h !! p = Some (EXEC argv eargv) /\ args_at argv eargv args
  | CRedir c d f => exists k q eq, h !! p = Some (REDIR k q eq (mode_of d) (fd_of d)) /\ W q eq f /\ tree h p k c
  | CPipe l r => exists i j, h !! p = Some (PIPE i j) /\ tree h p i l /\ tree h p j r
  | CList l r => exists i j, h !! p = Some (LIST i j) /\ tree h p i l /\ tree h p j r
  | CBack c => exists k, h !! p = Some (BACK k) /\ tree h p k c
  end.

Lemma tree_mono h h' t : forall hi hi' p, tree h hi p t -> (hi <= hi')%nat -> (forall i, (i < hi)%nat -> h' !! i = h !! i) -> tree h' hi' p t.
Proof using.
  induction t as [args|c IH d f|l IHl r IHr|l IHl r IHr|c IH]; intros hi hi' p; cbn [tree]; intros [Hp H] Hle Hh; (split; [lia|]); rewrite (Hh p Hp).
  - done.
  - destruct H as (k & q & eq & H1 & H2 & H3). exists k, q, eq. split_and!; [done|done|]. apply (IH p p); [done|done|]. intros i Hi. apply Hh. lia.
  - destruct H as (i & j & H1 & H2 & H3). exists i, j. split_and!; [done|apply (IHl p p)|apply (IHr p p)]; try done; intros k Hk; apply Hh; lia.
  - destruct H as (i & j & H1 & H2 & H3). exists i, j. split_and!; [done|apply (IHl p p)|apply (IHr p p)]; try done; intros k Hk; apply Hh; lia.
  - destruct H as (k & H1 & H3). exists k. split_and!; [done|]. apply (IH p p); [done|done|]. intros i Hi. apply Hh. lia.
Qed.
Lemma tree_lt h hi p t : tree h hi p t -> (p < hi)%nat.
Proof using. destruct t; cbn; intros [? _]; done. Qed.

(** [r] is [c] with the redirections of [es] around it. *)
Inductive chain (h : list node) (c : nat) : list elem -> nat -> Prop :=
| chain_nil : chain h c [] c
| chain_word es w r : chain h c es r -> chain h c (es ++ [EWord w]) r
| chain_dir es d f r r' q eq : chain h c es r -> (r < r')%nat -> h !! r' = Some (REDIR r q eq (mode_of d) (fd_of d)) -> W q eq f -> chain h c (es ++ [EDir d f]) r'.

Lemma chain_le h c es r : chain h c es r -> (c <= r)%nat.
Proof using. induction 1; lia. Qed.
Lemma chain_mono h h' c es r : chain h c es r -> (forall i, (c < i <= r)%nat -> h' !! i = h !! i) -> chain h' c es r.
Proof using.
  induction 1 as [|es w r H IH|es d f r r' q eq H IH Hlt Hr Hw]; intros Hh; [constructor|constructor; by apply IH|]. pose proof (chain_le _ _ _ _ H).
  apply (chain_dir h' c es d f r r' q eq); [apply IH; intros i Hi; apply Hh; lia|done|rewrite Hh by lia; done|done].
Qed.
Lemma chain_tree h c es r t hi : chain h c es r -> (forall hi, (c < hi)%nat -> tree h hi c t) -> (r < hi)%nat -> tree h hi r (wrap t es).
Proof using.
  intros H Ht. revert hi. induction H as [|es w r H IH|es d f r r' q eq H IH Hlt Hr Hw]; intros hi Hhi; [by apply Ht|..]; unfold wrap; rewrite foldl_app; cbn [foldl].
  - by apply IH.
  - cbn [tree]. split; [done|]. exists r, q, eq. split_and!; [done|done|]. by apply IH.
Qed.

End heap.

Definition grows (h h' : list node) : Prop := (length h <= length h')%nat /\ forall i, (i < length h)%nat -> h' !! i = h !! i.
Lemma grows_refl h : grows h h.
Proof. done. Qed.
Lemma grows_trans h1 h2 h3 : grows h1 h2 -> grows h2 h3 -> grows h1 h3.
Proof. intros [L1 H1] [L2 H2]. split; [lia|]. intros i Hi. rewrite H2 by lia. by apply H1. Qed.
Lemma grows_snoc h x : grows h (h ++ [x]).
Proof. split; [rewrite length_app; lia|]. intros i Hi. by apply lookup_app_l. Qed.
Lemma tree_grows W h h' p t : tree W h (length h) p t -> grows h h' -> tree W h' (length h') p t.
Proof. intros H [L G]. by eapply tree_mono. Qed.

(** ** The parser does on memory what it does on tokens *)

Definition sim {A B} (es : Z) (post : A -> B -> sh -> sh -> Prop) (m : M sh A) (tm : M (list tok) B) (s : sh) (ts : list tok) : Prop :=
  match tm ts with
  | Ret b ts' => exists a s', m s = Ret a s' /\ ready es s' ts' /\ buf s' = buf s /\ post a b s s'
  | Panic msg => m s = Panic msg
  | NoFuel => m s = NoFuel
  | Fault => False
  end.

Lemma sim_bind {A B C D} es (P : A -> B -> sh -> sh -> Prop) (Q : C -> D -> sh -> sh -> Prop) (m : M sh A) (tm : M (list tok) B) (k : A -> M sh C) (tk : B -> M (list tok) D) s ts :
  sim es P m tm s ts -> (forall a b s' ts', ready es s' ts' -> buf s' = buf s -> P a b s s' -> sim es (fun c d s1 s2 => Q c d s s2) (k a) (tk b) s' ts') ->
  sim es Q (bind m k) (bind tm tk) s ts.
Proof.
  unfold sim. intros H Hk. unfold bind. destruct (tm ts) as [b ts'|msg| |].
  - destruct H as (a & s' & -> & Hr & Hb & HP). specialize (Hk a b s' ts' Hr Hb HP). destruct (tk b ts') as [d ts''|msg| |]; try done.
    destruct Hk as (c & s'' & -> & Hr' & Hb' & HQ). exists c, s''. split_and!; [done|done|congruence|done].
  - by rewrite H.
  - done.
  - by rewrite H.
Qed.

(** A piece of the concrete parser that the one on tokens does not have. *)
Lemma sim_left {A C D} es (Q : C -> D -> sh -> sh -> Prop) (m : M sh A) (k : A -> M sh C) (tm : M (list tok) D) s s' a ts :
  m s = Ret a s' -> buf s' = buf s -> sim es (fun c d s1 s2 => Q c d s s2) (k a) tm s' ts -> sim es Q (bind m k) tm s ts.
Proof.
  unfold sim. intros H Hb Hk. rewrite (bind_Ret _ _ _ _ _ H). destruct (tm ts) as [d ts'|msg| |]; try done.
  destruct Hk as (c & s'' & -> & Hr & Hb' & HQ). exists c, s''. split_and!; [done|done|congruence|done].
Qed.

Lemma sim_ret {A B} es (Q : A -> B -> sh -> sh -> Prop) a b s ts : ready es s ts -> Q a b s s -> sim es Q (ret a) (ret b) s ts.
Proof. intros Hr HQ. exists a, s. by split_and!. Qed.

Definition unmoved {A} (a b : A) (s s' : sh) : Prop := a = b /\ heap s' = heap s.

Lemma ready_ok es s t ts : ready es s (t :: ts) -> tok_ok t.
Proof. intros (l & _ & H). by inversion H. Qed.

Lemma first_symbol toks t : tok_ok t -> toks ⊆ symbols -> strchr toks (first t) = match t with TWord _ => false | _ => strchr toks (first t) end.
Proof.
  intros Hok Hsub. destruct t as [w| | | | | |]; try done. destruct (first_word w [] Hok) as (c & w' & -> & [_ Hc] & _). cbn [first text head default]. unfold in_word in Hc.
  apply andb_true_iff in Hc as [_ Hc]. apply negb_true_iff in Hc. unfold strchr in *. apply not_true_iff_false. rewrite existsb_exists. intros (x & Hx & Ex%Z.eqb_eq). subst x. apply not_true_iff_false in Hc. apply Hc.
  apply existsb_exists. exists c. split; [|apply Z.eqb_refl]. apply list_elem_of_In, Hsub. by apply list_elem_of_In.
Qed.

Lemma peek_sim es s ts toks t : ready es s ts -> toks ⊆ symbols -> (forall t', (forall w, t' <> TWord w) -> strchr toks (first t') = bool_decide (t' = t)) -> (forall w, t <> TWord w) ->
  sim es unmoved (peek es toks) (next_is t) s ts.
Proof.
  intros Hr Hsub Ht Hw. destruct (peek_run es s ts toks Hr) as (s' & R & Hr' & Hb & Hh). unfold sim, next_is. eexists _, s'. split_and!; [exact R|done|done|split; [|done]].
  destruct ts as [|t' ts]; [done|]. rewrite (first_symbol toks t' (ready_ok _ _ _ _ Hr) Hsub). destruct t' as [w| | | | | |]; try (by apply Ht). symmetry. apply bool_decide_eq_false. intros E. by destruct (Hw w).
Qed.

Lemma take_sim es s t ts : ready es s (t :: ts) -> sim es (fun _ _ s s' => heap s' = heap s) (gettoken es) take_tok s (t :: ts).
Proof.
  intros Hr. destruct (gettoken_run es s t ts Hr) as (q & eq & s' & R & Hr' & Hb & Hh & _). exists (code t, q, eq), s'. by split_and!.
Qed.

(** ** Redirections and arguments *)

Definition is_dir (ts : list tok) : bool := match ts with TDir _ :: _ => true | _ => false end.

Lemma peek_dir es s ts : ready es s ts -> exists s', peek es [60; 62] s = Ret (is_dir ts) s' /\ ready es s' ts /\ buf s' = buf s /\ heap s' = heap s.
Proof.
  intros Hr. destruct (peek_run es s ts [60; 62] Hr) as (s' & R & H). exists s'. split; [|done]. rewrite R. f_equal. destruct ts as [|t ts]; [done|].
  rewrite (first_symbol _ t (ready_ok _ _ _ _ Hr)) by (unfold symbols; set_solver). by destruct t as [w| | | | | |[]].
Qed.

Lemma redirs_none es s ts fuel r : ready es s ts -> is_dir ts = false -> exists s', redirs_loop (S fuel) es r s = Ret r s' /\ ready es s' ts /\ buf s' = buf s /\ heap s' = heap s.
Proof.
  intros Hr Hd. destruct (peek_dir es s ts Hr) as (s' & R & H). exists s'. split; [|done]. cbn [redirs_loop]. rewrite (bind_Ret _ _ _ _ _ R), Hd. done.
Qed.
Lemma redirs_bad es s d ts fuel r : ready es s (TDir d :: ts) -> (forall w ts', ts <> TWord w :: ts') -> redirs_loop (S fuel) es r s = Panic "missing file for redirection".
Proof.
  intros Hr Hn. destruct (peek_dir es s _ Hr) as (s1 & R1 & Hr1 & _ & _). cbn [redirs_loop]. rewrite (bind_Ret _ _ _ _ _ R1). cbn [is_dir negb].
  destruct (gettoken_run es s1 (TDir d) ts Hr1) as (q & eq & s2 & R2 & Hr2 & _). rewrite (bind_Ret _ _ _ _ _ R2). destruct ts as [|t ts].
  - destruct (gettoken_end es s2 Hr2) as (q2 & eq2 & s3 & R3 & _). by rewrite (bind_Ret _ _ _ _ _ R3).
  - destruct (gettoken_run es s2 t ts Hr2) as (q2 & eq2 & s3 & R3 & _). rewrite (bind_Ret _ _ _ _ _ R3). destruct t as [w| | | | | |[]]; try done. by destruct (Hn w ts).
Qed.
Lemma redirs_step es s d f ts fuel r : ready es s (TDir d :: TWord f :: ts) -> exists q eq s', redirs_loop (S fuel) es r s = redirs_loop fuel es (length (heap s)) s' /\
  ready es s' ts /\ buf s' = buf s /\ heap s' = heap s ++ [REDIR r q eq (mode_of d) (fd_of d)] /\ word_at (buf s) q eq f.
Proof.
  intros Hr. destruct (peek_dir es s _ Hr) as (s1 & R1 & Hr1 & B1 & H1). cbn [redirs_loop]. rewrite (bind_Ret _ _ _ _ _ R1). cbn [is_dir negb].
  destruct (gettoken_run es s1 _ _ Hr1) as (q0 & eq0 & s2 & R2 & Hr2 & B2 & H2 & _). rewrite (bind_Ret _ _ _ _ _ R2).
  destruct (gettoken_run es s2 _ _ Hr2) as (q & eq & s3 & R3 & Hr3 & B3 & H3 & Hw). rewrite (bind_Ret _ _ _ _ _ R3). cbn [code Z.eqb Pos.eqb negb].
  exists q, eq, (set_heap (heap s ++ [REDIR r q eq (mode_of d) (fd_of d)]) s3). split; [|split_and!; [done|cbn; congruence|done|rewrite <- B1, <- B2; by apply Hw]].
  destruct d; cbn [code first text head default Z.eqb Pos.eqb id]; unfold redircmd, new_node, bind, gets, modify, ret; cbn [heap set_heap]; rewrite H3, H2, H1; done.
Qed.

Lemma chain_snoc W h c es r d f q eq : chain W h c es r -> (r < length h)%nat -> W q eq f -> chain W (h ++ [REDIR r q eq (mode_of d) (fd_of d)]) c (es ++ [EDir d f]) (length h).
Proof.
  intros Hc Hr Hw. apply (chain_dir W _ c es d f r (length h) q eq); [|done|by rewrite lookup_app_r, Nat.sub_diag by lia|done].
  apply (chain_mono W h); [done|]. intros i Hi. apply lookup_app_l. lia.
Qed.

Definition chained (c : nat) (r : nat) (es : list elem) (s s' : sh) : Prop :=
  chain (word_at (buf s)) (heap s') c es r /\ (r < length (heap s'))%nat /\ grows (heap s) (heap s').

Lemma redirs_sim es c n : forall ts fuel s es0 r, (length ts <= n)%nat -> ready es s ts -> (length ts < fuel)%nat -> chain (word_at (buf s)) (heap s) c es0 r -> (r < length (heap s))%nat ->
  sim es (chained c) (redirs_loop fuel es r) (fun ts => tredirs ts es0) s ts.
Proof.
  induction n as [|n IH]; intros ts fuel s es0 r Hn Hr Hf Hc Hlt; (destruct fuel as [|fuel]; [lia|]).
  all: destruct (is_dir ts) eqn:Hd; [destruct ts as [|[w| | | | | |d] ts]; try done|].
  - cbn in Hn. lia.
  - destruct (redirs_none es s ts fuel r Hr Hd) as (s' & R & Hr' & Hb & Hh). assert (E : tredirs ts es0 = Ret es0 ts) by (destruct ts as [|[] ts]; done). unfold sim. rewrite E.
    exists r, s'. split_and!; [done|done|done|]. split_and!; [by rewrite Hh|by rewrite Hh|rewrite Hh; apply grows_refl].
  - destruct ts as [|[w| | | | | |d'] ts]; try (unfold sim; cbn [tredirs]; eapply redirs_bad; [exact Hr|done]).
    destruct (redirs_step es s d w ts fuel r Hr) as (q & eq & s' & R & Hr' & Hb & Hh & Hw). cbn [length] in Hn, Hf.
    pose proof (IH ts fuel s' (es0 ++ [EDir d w]) (length (heap s)) ltac:(lia) Hr' ltac:(lia)) as H. rewrite Hb, Hh in H. specialize (H (chain_snoc _ _ _ _ _ d w q eq Hc Hlt Hw) ltac:(rewrite length_app; cbn; lia)).
    unfold sim in *. cbn [tredirs]. rewrite R. destruct (tredirs ts (es0 ++ [EDir d w])) as [b ts'|msg| |]; try done. destruct H as (a & s2 & Ra & Hra & Hba & (C1 & C2 & C3)).
    exists a, s2. split_and!; [done|done|congruence|]. split_and!; [by rewrite <- Hb|done|]. rewrite Hh in C3. eapply grows_trans; [apply grows_snoc|exact C3].
  - destruct (redirs_none es s ts fuel r Hr Hd) as (s' & R & Hr' & Hb & Hh). assert (E : tredirs ts es0 = Ret es0 ts) by (destruct ts as [|[] ts]; done). unfold sim. rewrite E.
    exists r, s'. split_and!; [done|done|done|]. split_and!; [by rewrite Hh|by rewrite Hh|rewrite Hh; apply grows_refl].
Qed.

Lemma length_pad l : (length l <= MAXARGS)%nat -> length (pad l) = MAXARGS.
Proof. intros H. unfold pad. rewrite length_app, length_replicate. lia. Qed.
Lemma pad_set l x : (length l < MAXARGS)%nat -> aset (pad l) (Z.of_nat (length l)) x = pad (l ++ [x]).
Proof.
  intros H. rewrite aset_of_nat. unfold pad. rewrite insert_app_r_alt, Nat.sub_diag by lia. rewrite length_app. cbn [length].
  replace (MAXARGS - length l)%nat with (S (MAXARGS - (length l + 1))) by lia. cbn. by rewrite <- app_assoc.
Qed.
Lemma pad_zero l : (length l < MAXARGS)%nat -> pad (l ++ [0]) = pad l.
Proof.
  intros H. unfold pad. rewrite length_app, <- app_assoc. cbn [length]. f_equal. replace (MAXARGS - length l)%nat with (S (MAXARGS - (length l + 1))) by lia. done.
Qed.

(** The command [c] under construction: arguments so far, redirections around it. *)
Record building (m : mem) (h : list node) (c : nat) (es : list elem) (argc : Z) (r : nat) : Prop := {
  bd_node : exists qs eqs, h !! c = Some (EXEC (pad qs) (pad eqs)) /\ Forall3 (word_at m) qs eqs (words es);
  bd_argc : argc = Z.of_nat (length (words es));
  bd_few : (length (words es) < MAXARGS)%nat;
  bd_chain : chain (word_at m) h c es r;
  bd_last : (r < length h)%nat }.

Lemma words_word es w : words (es ++ [EWord w]) = words es ++ [w].
Proof. unfold words. by rewrite omap_app. Qed.
Lemma words_dir es d f : words (es ++ [EDir d f]) = words es.
Proof. unfold words. rewrite omap_app. apply app_nil_r. Qed.

Lemma set_arg_run m h s c es argc r q eq : heap s = h -> building m h c es argc r ->
  exists qs eqs, h !! c = Some (EXEC (pad qs) (pad eqs)) /\ Forall3 (word_at m) qs eqs (words es) /\
    set_arg c argc q eq s = Ret tt (set_heap (<[c := EXEC (pad (qs ++ [q])) (pad (eqs ++ [eq]))]> h) s).
Proof.
  intros Eh [(qs & eqs & Hn & HF) -> Hfew _ _]. exists qs, eqs. split_and!; [done|done|]. pose proof (Forall3_length_lm _ _ _ _ HF) as L1. pose proof (Forall3_length_lr _ _ _ _ HF) as L2.
  unfold set_arg. assert (R : get_node c s = Ret (EXEC (pad qs) (pad eqs)) s) by (unfold get_node, bind, gets; by rewrite Eh, Hn). rewrite (bind_Ret _ _ _ _ _ R).
  rewrite (proj2 (Z.leb_le _ _)), (proj2 (Z.ltb_lt _ _)) by lia. cbn [andb]. unfold modify. rewrite <- L2 at 1. rewrite pad_set by lia. rewrite <- L2, L1, pad_set by lia. by rewrite Eh.
Qed.

Lemma chain_insert W h c x es r : chain W h c es r -> chain W (<[c := x]> h) c es r.
Proof. intros H. apply (chain_mono W h); [done|]. intros i Hi. apply list_lookup_insert_ne. lia. Qed.

Lemma building_word m h s c es argc r q eq w : heap s = h -> building m h c es argc r -> word_at m q eq w -> (S (length (words es)) < MAXARGS)%nat ->
  exists h', set_arg c argc q eq s = Ret tt (set_heap h' s) /\ building m h' c (es ++ [EWord w]) (argc + 1) r /\ length h' = length h /\ forall i, (i < c)%nat -> h' !! i = h !! i.
Proof.
  intros Eh HB Hw Hfew. destruct (set_arg_run m h s c es argc r q eq Eh HB) as (qs & eqs & Hn & HF & R). destruct HB as [_ -> _ Hc Hl].
  eexists. split; [exact R|]. split; [|split; [apply length_insert|intros i Hi; apply list_lookup_insert_ne; lia]]. split.
  - exists (qs ++ [q]), (eqs ++ [eq]). split; [apply list_lookup_insert_eq; by eapply lookup_lt_Some|]. rewrite words_word. apply Forall3_app; [done|]. by apply Forall3_cons; [|constructor].
  - rewrite words_word, length_app. cbn [length]. lia.
  - rewrite words_word, length_app. cbn [length]. lia.
  - apply chain_word. by apply chain_insert.
  - by rewrite length_insert.
Qed.

Lemma building_end m h s c es argc r : heap s = h -> building m h c es argc r -> exists h', set_arg c argc 0 0 s = Ret tt (set_heap h' s) /\ h' = h.
Proof.
  intros Eh HB. destruct (set_arg_run m h s c es argc r 0 0 Eh HB) as (qs & eqs & Hn & HF & R). pose proof (Forall3_length_lm _ _ _ _ HF). pose proof (Forall3_length_lr _ _ _ _ HF). destruct HB as [_ _ Hfew _ _].
  eexists. split; [exact R|]. rewrite !pad_zero by lia. by apply list_insert_id.
Qed.

Lemma building_dir m h c es argc r d f q eq : building m h c es argc r -> word_at m q eq f -> building m (h ++ [REDIR r q eq (mode_of d) (fd_of d)]) c (es ++ [EDir d f]) argc (length h).
Proof.
  intros [(qs & eqs & Hn & HF) Ha Hfew Hc Hl] Hw. split; rewrite ?words_dir; try done.
  - exists qs, eqs. split; [by apply lookup_app_l_Some|done].
  - by apply chain_snoc.
  - rewrite length_app. cbn. lia.
Qed.

Definition argued (c : nat) (a : Z * nat) (es : list elem) (s s' : sh) : Prop :=
  building (buf s) (heap s') c es (fst a) (snd a) /\ (length (heap s) <= length (heap s'))%nat /\ forall i, (i < c)%nat -> heap s' !! i = heap s !! i.

Lemma argued_same es c s s1 m tm ts : buf s1 = buf s -> heap s1 = heap s -> sim es (argued c) m tm s1 ts -> sim es (fun a b _ s2 => argued c a b s s2) m tm s1 ts.
Proof. intros B H. unfold sim, argued. by rewrite H, B. Qed.

Definition ends_args (t : tok) : bool := match t with TPipe | TRp | TSemi | TAmp => true | _ => false end.
Lemma peek_ends es s ts : ready es s ts -> exists s', peek es [124; 41; 38; 59] s = Ret (match ts with t :: _ => ends_args t | [] => false end) s' /\ ready es s' ts /\ buf s' = buf s /\ heap s' = heap s.
Proof.
  intros Hr. destruct (peek_run es s ts [124; 41; 38; 59] Hr) as (s' & R & H). exists s'. split; [|done]. rewrite R. f_equal. destruct ts as [|t ts]; [done|].
  rewrite (first_symbol _ t (ready_ok _ _ _ _ Hr)) by (unfold symbols; set_solver). by destruct t as [w| | | | | |[]].
Qed.

(** Arguments from where no redirection comes next. *)
Lemma args_stop es c s ts fuel es0 argc r : ready es s ts -> building (buf s) (heap s) c es0 argc r -> (ts = [] \/ exists t ts', ts = t :: ts' /\ ends_args t = true) ->
  sim es (argued c) (args_loop (S fuel) es c argc r) (fun ts => telems ts es0) s ts.
Proof.
  intros Hr HB Hts. assert (E : telems ts es0 = Ret es0 ts) by (destruct Hts as [->|(t & ts' & -> & Ht)]; [done|by destruct t]). unfold sim. rewrite E. cbn [args_loop].
  destruct (peek_ends es s ts Hr) as (s1 & R1 & Hr1 & B1 & H1). rewrite (bind_Ret _ _ _ _ _ R1). destruct Hts as [->|(t & ts' & -> & Ht)].
  - destruct (gettoken_end es s1 Hr1) as (q & eq & s2 & R2 & Hr2 & B2 & H2). rewrite (bind_Ret _ _ _ _ _ R2). cbn [Z.eqb]. exists (argc, r), s2. split_and!; [done|done|congruence|].
    unfold argued. rewrite H2, H1. by split_and!.
  - rewrite Ht. exists (argc, r), s1. split_and!; [done|done|congruence|]. unfold argued. rewrite H1. by split_and!.
Qed.

Lemma args_sim es c n : forall ts fuel1 fuel2 s es0 r argc, (length ts <= n)%nat -> ready es s ts -> (length ts < fuel1)%nat -> (length ts < fuel2)%nat -> building (buf s) (heap s) c es0 argc r ->
  sim es (argued c) (let* r := redirs_loop fuel1 es r in args_loop fuel2 es c argc r) (fun ts => telems ts es0) s ts.
Proof.
  induction n as [|n IH]; intros ts fuel1 fuel2 s es0 r argc Hn Hr Hf1 Hf2 HB; (destruct fuel1 as [|fuel1]; [lia|]); (destruct fuel2 as [|fuel2]; [lia|]).
  { destruct ts; [|cbn in Hn; lia]. destruct (redirs_none es s [] fuel1 r Hr eq_refl) as (s1 & R1 & Hr1 & B1 & H1). eapply sim_left; [exact R1|done|].
    apply argued_same; [done|done|]. apply args_stop; [done|by rewrite B1, H1|by left]. }
  destruct (is_dir ts) eqn:Hd.
  - destruct ts as [|[w| | | | | |d] ts]; try done. destruct ts as [|[f| | | | | |d'] ts]; try (unfold sim; cbn [telems]; unfold bind; erewrite redirs_bad; [done|exact Hr|done]).
    destruct (redirs_step es s d f ts fuel1 r Hr) as (q & eq & s' & R & Hr' & Hb & Hh & Hw). cbn [length] in Hn, Hf1, Hf2.
    pose proof (IH ts fuel1 (S fuel2) s' (es0 ++ [EDir d f]) (length (heap s)) argc ltac:(lia) Hr' ltac:(lia) ltac:(lia)) as H. rewrite Hb, Hh in H. specialize (H (building_dir _ _ _ _ _ _ d f q eq HB Hw)).
    assert (Hcl : (c < length (heap s))%nat) by (destruct HB as [(qs & eqs & Hx & _) _ _ _ _]; by eapply lookup_lt_Some).
    unfold sim, argued in *. cbn [telems]. rewrite Hb, Hh in H. unfold bind in *. rewrite R. destruct (telems ts (es0 ++ [EDir d f])) as [b ts'|msg| |]; try done.
    destruct H as (a & s2 & Ra & Hra & Hba & (C1 & C2 & C3)). exists a, s2. rewrite length_app in C2. split_and!; [done|done|done|done|lia|]. intros i Hi. rewrite C3 by done. apply lookup_app_l. lia.
  - destruct (redirs_none es s ts fuel1 r Hr Hd) as (s1 & R1 & Hr1 & B1 & H1). eapply sim_left; [exact R1|done|].
    assert (HB1 : building (buf s1) (heap s1) c es0 argc r) by (by rewrite B1, H1).
    apply argued_same; [done|done|]. clear HB Hr R1. destruct ts as [|t ts]; [apply args_stop; [done|done|by left]|]. destruct (ends_args t) eqn:He; [apply args_stop; [done|done|right; by exists t, ts]|].
    destruct (peek_ends es s1 _ Hr1) as (s2 & R2 & Hr2 & B2 & H2). unfold sim. cbn [args_loop]. rewrite (bind_Ret _ _ _ _ _ R2), He.
    destruct (gettoken_run es s2 t ts Hr2) as (q & eq & s3 & R3 & Hr3 & B3 & H3 & Hw). rewrite (bind_Ret _ _ _ _ _ R3). destruct t as [w| | | | | |]; try done. cbn [code Z.eqb Pos.eqb negb telems].
    specialize (Hw w eq_refl). rewrite B2 in Hw. assert (Eh : heap s3 = heap s1) by congruence. cbn [length] in Hn, Hf1, Hf2.
    destruct (decide (MAXARGS <= S (length (words es0)))%nat) as [Hmany|Hmany].
    + destruct (set_arg_run _ _ s3 c es0 argc r q eq Eh HB1) as (qs & eqs & _ & _ & R4). rewrite (bind_Ret _ _ _ _ _ R4). destruct HB1 as [_ -> _ _ _]. by rewrite (proj2 (Z.leb_le _ _)) by lia.
    + destruct (building_word _ _ s3 c es0 argc r q eq w Eh HB1 Hw ltac:(lia)) as (h' & R4 & HB' & Hl' & Hh'). rewrite (bind_Ret _ _ _ _ _ R4). rewrite (proj2 (Z.leb_gt _ _)) by (destruct HB1 as [_ -> _ _ _]; lia).
      set (s4 := set_heap h' s3) in *. assert (Hr4 : ready es s4 ts) by done.
      pose proof (IH ts (left_ es s4) fuel2 s4 (es0 ++ [EWord w]) r (argc + 1) ltac:(lia) Hr4 (ready_left _ _ _ Hr4) ltac:(lia)) as H.
      assert (Eb : buf s4 = buf s1) by (cbn; congruence). rewrite Eb in H. specialize (H HB'). unfold sim, argued in H. rewrite Eb in H.
      change ((let* r0 := parseredirs r es in args_loop fuel2 es c (argc + 1) r0) s4) with ((let* r0 := redirs_loop (left_ es s4) es r in args_loop fuel2 es c (argc + 1) r0) s4).
      destruct (telems ts (es0 ++ [EWord w])) as [b ts'|msg| |]; try done. destruct H as (a & s5 & Ra & Hra & Hba & (C1 & C2 & C3)). exists a, s5. cbn in C2, C3.
      split_and!; [done|done|done|]. split_and!; [done|lia|]. intros i Hi. rewrite C3 by done. by apply Hh'.
Qed.

(** ** The whole parser *)

Definition built (p : nat) (t : cmd) (s s' : sh) : Prop := tree (word_at (buf s)) (heap s') (length (heap s')) p t /\ grows (heap s) (heap s').

Lemma built_from es s s1 m tm ts : buf s1 = buf s -> grows (heap s) (heap s1) -> sim es built m tm s1 ts -> sim es (fun a b _ s2 => built a b s s2) m tm s1 ts.
Proof.
  intros B G. unfold sim, built. destruct (tm ts) as [t ts'|msg| |]; try done. rewrite B. intros (p & s' & R & Hr & Hb & Ht & G'). exists p, s'. split_and!; [done|done|done|done|by eapply grows_trans].
Qed.

Lemma building_tree m h c es argc r : building m h c es argc r -> tree (word_at m) h (length h) r (wrap (CExec (words es)) es).
Proof.
  intros [(qs & eqs & Hn & HF) _ Hfew Hc Hl]. apply (chain_tree _ h c es r _ _ Hc); [|done]. intros hi Hhi. cbn [tree]. split; [done|]. exists (pad qs), (pad eqs). split; [done|]. by exists qs, eqs.
Qed.

Lemma parseargs_sim es s ts : ready es s ts -> sim es built (parseargs es) (let* es := fun ts => telems ts [] in ret (wrap (CExec (words es)) es)) s ts.
Proof.
  intros Hr. set (c := length (heap s)). set (s1 := set_heap (heap s ++ [EXEC (pad []) (pad [])]) s). assert (R1 : execcmd s = Ret c s1) by done.
  unfold parseargs. eapply sim_left; [exact R1|done|]. assert (Hr1 : ready es s1 ts) by done.
  assert (Hc : heap s1 !! c = Some (EXEC (pad []) (pad []))) by (cbn; by rewrite lookup_app_r, Nat.sub_diag).
  assert (HB : building (buf s1) (heap s1) c [] 0 c).
  { split; [exists [], []; split; [done|constructor]|done|unfold MAXARGS; cbn; lia|constructor|by eapply lookup_lt_Some]. }
  pose proof (args_sim es c (length ts) ts (left_ es s1) (left_ es s1) s1 [] c 0 ltac:(lia) Hr1 (ready_left _ _ _ Hr1) (ready_left _ _ _ Hr1) HB) as H.
  unfold sim in *. assert (E : (let* es := fun ts => telems ts [] in ret (wrap (CExec (words es)) es)) ts =
    match telems ts [] with Ret es ts' => Ret (wrap (CExec (words es)) es) ts' | Panic msg => Panic msg | Fault => Fault | NoFuel => NoFuel end) by done. rewrite E. clear E.
  destruct (telems ts []) as [es' ts'|msg| |]; [| |done|].
  - destruct H as ([argc r] & s2 & R2 & Hr2 & Hb2 & (B2 & L2 & G2)). cbn [fst snd] in B2.
    destruct (building_end _ _ s2 c es' argc r eq_refl B2) as (h' & R3 & ->). exists r, s2. split_and!; [|done|done|split].
    + revert R2. unfold parseredirs, bind, gets. destruct (redirs_loop (left_ es s1) es c s1) as [r0 s0|?| |]; try done. intros ->. rewrite R3. by destruct s2.
    + by eapply building_tree.
    + split; [cbn in L2; rewrite length_app in L2; lia|]. intros i Hi. rewrite G2 by done. cbn. by apply lookup_app_l.
  - revert H. unfold parseredirs, bind, gets. destruct (redirs_loop (left_ es s1) es c s1) as [r0 s0|?| |]; try done; [by intros ->|by intros [= ->]].
  - revert H. unfold parseredirs, bind, gets. destruct (redirs_loop (left_ es s1) es c s1) as [r0 s0|?| |]; try done. by intros ->.
Qed.

(** A new node over nodes that are there. *)
Lemma new_sim es s0 s x t ts : ready es s ts -> buf s = buf s0 -> grows (heap s0) (heap s) -> tree (word_at (buf s0)) (heap s ++ [x]) (S (length (heap s))) (length (heap s)) t ->
  sim es (fun a b _ s2 => built a b s0 s2) (new_node x) (ret t) s ts.
Proof.
  intros Hr B G Ht. exists (length (heap s)), (set_heap (heap s ++ [x]) s). split_and!; [done|done|done|split].
  - cbn [heap set_heap]. rewrite length_app, Nat.add_1_r. done.
  - eapply grows_trans; [exact G|apply grows_snoc].
Qed.

Lemma tree_snoc W h x p t : tree W h (length h) p t -> tree W (h ++ [x]) (length h) p t.
Proof. intros H. apply (tree_mono W h _ t (length h)); [done|done|]. intros i Hi. by apply lookup_app_l. Qed.
Lemma snoc_last (h : list node) x : (h ++ [x]) !! length h = Some x.
Proof. by rewrite lookup_app_r, Nat.sub_diag. Qed.

Ltac peek_tac := intros Hr; apply peek_sim; [done|unfold symbols; set_solver|intros [w| | | | | |[]] Hn; try done; by destruct (Hn w)|done].
Lemma is_amp_peek es s ts : ready es s ts -> sim es unmoved (peek es [38]) (next_is TAmp) s ts.
Proof. peek_tac. Qed.
Lemma is_semi_peek es s ts : ready es s ts -> sim es unmoved (peek es [59]) (next_is TSemi) s ts.
Proof. peek_tac. Qed.
Lemma is_pipe_peek es s ts : ready es s ts -> sim es unmoved (peek es [124]) (next_is TPipe) s ts.
Proof. peek_tac. Qed.
Lemma is_lp_peek es s ts : ready es s ts -> sim es unmoved (peek es [40]) (next_is TLp) s ts.
Proof. peek_tac. Qed.
Lemma is_rp_peek es s ts : ready es s ts -> sim es unmoved (peek es [41]) (next_is TRp) s ts.
Proof. peek_tac. Qed.

(** Peeking, and the token when it is there. *)
Lemma peek_case es s ts t toks : sim es unmoved (peek es toks) (next_is t) s ts ->
  exists s', ready es s' ts /\ buf s' = buf s /\ heap s' = heap s /\ peek es toks s = Ret (match ts with t' :: _ => bool_decide (t' = t) | [] => false end) s'.
Proof. intros (b & s' & R & Hr & B & -> & H). by exists s'. Qed.

Lemma amp_sim es n : forall ts fuel s c t, (length ts <= n)%nat -> ready es s ts -> (length ts < fuel)%nat -> tree (word_at (buf s)) (heap s) (length (heap s)) c t ->
  sim es built (amp_loop fuel es c) (fun ts => tamps ts t) s ts.
Proof.
  induction n as [|n IH]; intros ts fuel s c t Hn Hr Hf Ht; (destruct fuel as [|fuel]; [lia|]); cbn [amp_loop];
    destruct (peek_case es s ts TAmp [38] (is_amp_peek es s ts Hr)) as (s1 & Hr1 & B1 & H1 & R1).
  - destruct ts; [|cbn in Hn; lia]. eapply sim_left; [exact R1|done|]. cbn [tamps]. exists c, s1. split_and!; [done|done|done|]. split; [by rewrite H1|rewrite H1; apply grows_refl].
  - destruct (decide (head ts = Some TAmp)) as [Eh|Eh].
    + destruct ts as [|t0 ts]; [done|]. cbn in Eh. injection Eh as ->. rewrite bool_decide_true in R1 by done. eapply sim_left; [exact R1|done|].
      destruct (gettoken_run es s1 TAmp ts Hr1) as (q & eq & s2 & R2 & Hr2 & B2 & H2 & _). cbn [tamps]. assert (E2 : buf s2 = buf s) by congruence. assert (G2 : heap s2 = heap s) by congruence.
      set (s3 := set_heap (heap s2 ++ [BACK c]) s2). assert (R3 : backcmd c s2 = Ret (length (heap s2)) s3) by done. cbn [length] in Hn, Hf.
      assert (T3 : tree (word_at (buf s3)) (heap s3) (length (heap s3)) (length (heap s2)) (CBack t)).
      { cbn [tree]. unfold s3. cbn [buf heap set_heap]. rewrite length_app, E2, G2. cbn [length]. split; [lia|]. exists c. split; [apply snoc_last|by apply tree_snoc]. }
      pose proof (IH ts fuel s3 (length (heap s2)) (CBack t) ltac:(lia) Hr2 ltac:(lia) T3) as H. unfold sim in *. cbv beta in H. cbn [tamps].
      rewrite (bind_Ret _ _ _ _ _ R2), (bind_Ret _ _ _ _ _ R3). destruct (tamps ts (CBack t)) as [b ts'|msg| |]; try done. destruct H as (a & s4 & Ra & Hra & Hba & Ta & Ga).
      exists a, s4. assert (E3 : buf s3 = buf s) by done. split_and!; [done|done|congruence|]. split; [by rewrite <- E3|]. eapply grows_trans; [|exact Ga]. unfold s3. cbn [heap set_heap]. rewrite G2. apply grows_snoc.
    + assert (Et : tamps ts t = Ret t ts) by (by destruct ts as [|[] ts]). assert (Eb : (match ts with t' :: _ => bool_decide (t' = TAmp) | [] => false end) = false).
      { destruct ts as [|t0 ts]; [done|]. apply bool_decide_eq_false. intros ->. done. }
      rewrite Eb in R1. eapply sim_left; [exact R1|done|]. unfold sim. rewrite Et. exists c, s1. split_and!; [done|done|done|]. split; [by rewrite H1|rewrite H1; apply grows_refl].
Qed.

(** After a token that is known to be there. *)
Lemma take_case es s ts t {A B} (Q : A -> B -> sh -> sh -> Prop) (k : Z * Z * Z -> M sh A) (tk : option tok -> M (list tok) B) : ready es s ts -> head ts = Some t ->
  (forall x s' ts', ready es s' ts' -> buf s' = buf s -> heap s' = heap s -> sim es (fun a b _ s2 => Q a b s s2) (k x) (tk (Some t)) s' ts') ->
  sim es Q (bind (gettoken es) k) (bind take_tok tk) s ts.
Proof.
  intros Hr Hh Hk. destruct ts as [|t0 ts]; [done|]. injection Hh as ->. destruct (gettoken_run es s t ts Hr) as (q & eq & s' & R & Hr' & Hb & Hh' & _).
  eapply sim_left; [exact R|done|]. assert (H := Hk (code t, q, eq) s' ts Hr' Hb Hh'). unfold sim in *. exact H.
Qed.

(** A token is looked for and then there, or not. *)
Lemma peek_branch es s ts t toks {A B} (Q : A -> B -> sh -> sh -> Prop) (k : bool -> M sh A) (tk : bool -> M (list tok) B) :
  sim es unmoved (peek es toks) (next_is t) s ts ->
  (forall s', ready es s' ts -> buf s' = buf s -> heap s' = heap s -> head ts = Some t -> sim es (fun a b _ s2 => Q a b s s2) (k true) (tk true) s' ts) ->
  (forall s', ready es s' ts -> buf s' = buf s -> heap s' = heap s -> head ts <> Some t -> sim es (fun a b _ s2 => Q a b s s2) (k false) (tk false) s' ts) ->
  sim es Q (bind (peek es toks) k) (bind (next_is t) tk) s ts.
Proof.
  intros Hp Ht Hf. destruct (peek_case es s ts t toks Hp) as (s1 & Hr1 & B1 & H1 & R1). eapply sim_left; [exact R1|done|]. unfold sim in *. unfold bind at 1, next_is at 1.
  destruct ts as [|t0 ts]; [by apply Hf|]. destruct (decide (t0 = t)) as [->|Hne].
  - rewrite bool_decide_true by done. by apply Ht.
  - rewrite bool_decide_false by done. apply Hf; [done|done|done|]. cbn. congruence.
Qed.

(** What is under a node does not depend on what is above it. *)
Lemma tree_at W h h' t hi hi' p : tree W h hi p t -> (p < hi')%nat -> (forall i, (i <= p)%nat -> h' !! i = h !! i) -> tree W h' hi' p t.
Proof.
  intros H Hp Hh. assert (T : tree W h (S p) p t) by (destruct t; cbn [tree] in *; destruct H as [_ H]; (split; [lia|done])).
  apply (tree_mono W h h' t (S p) hi'); [done|lia|]. intros i Hi. apply Hh. lia.
Qed.

(** What is built since [s0]. *)
Definition builds (es : Z) (s0 : sh) (m : M sh nat) (tm : M (list tok) cmd) (s : sh) (ts : list tok) : Prop := sim es (fun a b _ s2 => built a b s0 s2) m tm s ts.
Record since (s0 s : sh) : Prop := { since_buf : buf s = buf s0; since_heap : grows (heap s0) (heap s) }.
Lemma since_same s0 s s' : since s0 s -> buf s' = buf s -> heap s' = heap s -> since s0 s'.
Proof. intros [B G] B' G'. split; [congruence|by rewrite G']. Qed.
Lemma since_grows s0 s s' : since s0 s -> buf s' = buf s -> grows (heap s) (heap s') -> since s0 s'.
Proof. intros [B G] B' G'. split; [congruence|by eapply grows_trans]. Qed.
Lemma since_refl s : since s s.
Proof. split; [done|apply grows_refl]. Qed.
Definition holds (s0 s : sh) (p : nat) (t : cmd) : Prop := tree (word_at (buf s0)) (heap s) (length (heap s)) p t.

Lemma builds_ret es s0 s p t ts : ready es s ts -> since s0 s -> holds s0 s p t -> builds es s0 (ret p) (ret t) s ts.
Proof. intros Hr [B G] Ht. apply sim_ret; [done|]. by split. Qed.
Lemma builds_at es s0 s ts m tm : since s0 s -> sim es built m tm s ts -> builds es s0 m tm s ts.
Proof. intros [B G]. by apply built_from. Qed.
Lemma builds_bind es s0 s ts m tm k tk : since s0 s -> sim es built m tm s ts ->
  (forall p t s' ts', ready es s' ts' -> since s s' -> since s0 s' -> holds s0 s' p t -> builds es s0 (k p) (tk t) s' ts') -> builds es s0 (bind m k) (bind tm tk) s ts.
Proof.
  intros Hs H Hk. eapply sim_bind; [exact H|]. intros p t s' ts' Hr Hb [Ht Hg]. apply Hk; [done|by split|by eapply since_grows|]. unfold holds. by rewrite <- (since_buf _ _ Hs).
Qed.
Lemma builds_peek es s0 s ts t toks k tk : since s0 s -> sim es unmoved (peek es toks) (next_is t) s ts ->
  (forall s', ready es s' ts -> since s0 s' -> heap s' = heap s -> head ts = Some t -> builds es s0 (k true) (tk true) s' ts) ->
  (forall s', ready es s' ts -> since s0 s' -> heap s' = heap s -> head ts <> Some t -> builds es s0 (k false) (tk false) s' ts) ->
  builds es s0 (bind (peek es toks) k) (bind (next_is t) tk) s ts.
Proof. intros Hs Hp Ht Hf. eapply peek_branch; [exact Hp|intros s' Hr B H Hh; apply Ht|intros s' Hr B H Hh; apply Hf]; try done; by eapply since_same. Qed.
Lemma builds_take es s0 s ts t k tk : ready es s ts -> since s0 s -> head ts = Some t ->
  (forall x s' ts', ready es s' ts' -> since s0 s' -> heap s' = heap s -> builds es s0 (k x) (tk (Some t)) s' ts') -> builds es s0 (bind (gettoken es) k) (bind take_tok tk) s ts.
Proof. intros Hr Hs Hh Hk. eapply take_case; [exact Hr|exact Hh|]. intros x s' ts' Hr' B H. apply Hk; [done|by eapply since_same|done]. Qed.

Lemma builds_list es s0 s1 s ts l r p q : ready es s ts -> since s0 s -> grows (heap s1) (heap s) -> holds s0 s1 p l -> holds s0 s q r -> builds es s0 (listcmd p q) (ret (CList l r)) s ts.
Proof.
  intros Hr [B G] G1 Hl Hq. apply new_sim; [done|done|done|]. pose proof (tree_grows _ _ _ _ _ Hl G1) as Hp. cbn [tree]. split; [lia|]. exists p, q. split_and!; [apply snoc_last|by apply tree_snoc|by apply tree_snoc].
Qed.
Lemma builds_pipe es s0 s1 s ts l r p q : ready es s ts -> since s0 s -> grows (heap s1) (heap s) -> holds s0 s1 p l -> holds s0 s q r -> builds es s0 (pipecmd p q) (ret (CPipe l r)) s ts.
Proof.
  intros Hr [B G] G1 Hl Hq. apply new_sim; [done|done|done|]. pose proof (tree_grows _ _ _ _ _ Hl G1) as Hp. cbn [tree]. split; [lia|]. exists p, q. split_and!; [apply snoc_last|by apply tree_snoc|by apply tree_snoc].
Qed.
Lemma builds_redirs es s0 s ts c t : ready es s ts -> since s0 s -> holds s0 s c t -> builds es s0 (parseredirs c es) (let* es := fun ts => tredirs ts [] in ret (wrap t es)) s ts.
Proof.
  intros Hr [B G] Ht. pose proof (tree_lt _ _ _ _ _ Ht) as Hlt.
  pose proof (redirs_sim es c (length ts) ts (left_ es s) s [] c ltac:(lia) Hr (ready_left _ _ _ Hr) (chain_nil _ _ _) Hlt) as H. unfold builds, sim in *. cbv beta in H. unfold bind at 1, ret.
  change (parseredirs c es s) with (redirs_loop (left_ es s) es c s). destruct (tredirs ts []) as [es' ts'|msg| |]; try done. destruct H as (r & s' & R & Hr' & Hb & (C1 & C2 & C3)).
  exists r, s'. split_and!; [done|done|done|]. split; [|by eapply grows_trans]. rewrite B in C1. apply (chain_tree _ _ c es' r t _ C1); [|done]. intros hi Hhi. destruct C3 as [CL CG].
  apply (tree_at _ (heap s) _ t (length (heap s))); [done|done|]. intros i Hi. apply CG. lia.
Qed.

(** The recursive-descent parser on memory and on tokens. *)
Section parser.
Context (es : Z) (fuel : nat).
Context (IL : forall s ts, ready es s ts -> sim es built (parse fuel Line es) (tline fuel) s ts).
Context (IP : forall s ts, ready es s ts -> sim es built (parse fuel Pipeline es) (tpipe fuel) s ts).
Context (IE : forall s ts, ready es s ts -> sim es built (parse fuel Primary es) (texec fuel) s ts).
Context (IB : forall s ts, ready es s ts -> sim es built (parse fuel Block es) (tblock fuel) s ts).

Lemma parsepipe_step s ts : ready es s ts -> builds es s (parse (S fuel) Pipeline es) (tpipe (S fuel)) s ts.
Proof using lb_pos IP IE.
  intros Hr. cbn [parse tpipe]. unfold parsepipe. apply builds_bind; [apply since_refl|by apply IE|]. intros p t s1 ts1 Hr1 _ S1 T1.
  apply builds_peek; [done|by apply is_pipe_peek|..]; intros s2 Hr2 S2 E2 Hh; [|apply builds_ret; [done|done|]; unfold holds; by rewrite E2].
  eapply builds_take; [done|done|exact Hh|]. intros x s3 ts3 Hr3 S3 E3. apply builds_bind; [done|by apply IP|]. intros q r s4 ts4 Hr4 [_ G4] S4 T4.
  apply (builds_pipe es s s1); [done|done| |done|done]. by rewrite <- E2, <- E3.
Qed.
Lemma parseline_step s ts : ready es s ts -> builds es s (parse (S fuel) Line es) (tline (S fuel)) s ts.
Proof using lb_pos IP IL.
  intros Hr. cbn [parse tline]. unfold parseline. apply builds_bind; [apply since_refl|by apply IP|]. intros p t s1 ts1 Hr1 _ S1 T1. change (builds es s (bind (gets (left_ es)) ?k)) with (builds es s (fun s => k (left_ es s) s)).
  apply (builds_bind es s s1 ts1 (amp_loop (left_ es s1) es p) (fun ts => tamps ts t)); [done|eapply amp_sim; [done|done|by apply ready_left|]; unfold holds in T1; by rewrite (since_buf _ _ S1)|].
  clear t p T1. intros p t s2 ts2 Hr2 _ S2 T2. apply builds_peek; [done|by apply is_semi_peek|..]; intros s3 Hr3 S3 E3 Hh; [|apply builds_ret; [done|done|]; unfold holds; by rewrite E3].
  eapply builds_take; [done|done|exact Hh|]. intros x s4 ts4 Hr4 S4 E4. apply builds_bind; [done|by apply IL|]. intros q r s5 ts5 Hr5 [_ G5] S5 T5.
  apply (builds_list es s s2); [done|done| |done|done]. by rewrite <- E3, <- E4.
Qed.
Lemma parseexec_step s ts : ready es s ts -> builds es s (parse (S fuel) Primary es) (texec (S fuel)) s ts.
Proof using lb_pos IB.
  intros Hr. cbn [parse texec]. unfold parseexec. apply builds_peek; [apply since_refl|by apply is_lp_peek|..]; intros s1 Hr1 S1 E1 Hh; apply builds_at; [done|by apply IB|done|by apply parseargs_sim].
Qed.
Lemma parseblock_step s ts : ready es s ts -> builds es s (parse (S fuel) Block es) (tblock (S fuel)) s ts.
Proof using lb_pos IL.
  intros Hr. cbn [parse tblock]. unfold parseblock. apply builds_peek; [apply since_refl|by apply is_lp_peek|..]; intros s1 Hr1 S1 E1 Hh; cbn [negb]; [|done].
  eapply builds_take; [done|done|exact Hh|]. intros x s2 ts2 Hr2 S2 E2. apply builds_bind; [done|by apply IL|]. intros p t s3 ts3 Hr3 _ S3 T3.
  apply builds_peek; [done|by apply is_rp_peek|..]; intros s4 Hr4 S4 E4 Hh4; cbn [negb]; [|done].
  eapply builds_take; [done|done|exact Hh4|]. intros y s5 ts5 Hr5 S5 E5. apply builds_redirs; [done|done|]. unfold holds. by rewrite E5, E4.
Qed.
End parser.

Lemma parser_sim es fuel : forall s ts, ready es s ts ->
  sim es built (parse fuel Line es) (tline fuel) s ts /\ sim es built (parse fuel Pipeline es) (tpipe fuel) s ts /\
  sim es built (parse fuel Primary es) (texec fuel) s ts /\ sim es built (parse fuel Block es) (tblock fuel) s ts.
Proof.
  induction fuel as [|fuel IH]; intros s ts Hr; [done|].
  split_and!; [apply parseline_step|apply parsepipe_step|apply parseexec_step|apply parseblock_step]; try done; intros; by apply IH.
Qed.

End bounds.

End Shspec.
