(* ===== verification/Shparse.v ===== *)
(** The shell's parser decides the grammar of command lines: the parser on tokens is
    sound, complete and total, every line is a list of tokens, [nulterminate] makes the
    words of the command strings, and what is printed is parsed back. *)

From S2P Require Import Prelude Mem Kstring Ulib Sh Shspec.
Import Kstring (cstr).
Import Sh Shspec.

Module Shparse.

(** ** The parser on tokens *)

Lemma words_app es es' : words (es ++ es') = words es ++ words es'.
Proof. apply omap_app. Qed.
Lemma elems_toks_app es es' : elems_toks (es ++ es') = elems_toks es ++ elems_toks es'.
Proof. unfold elems_toks. by rewrite fmap_app, concat_app. Qed.

(** What may come after the words of a command. *)
Definition ends_exec (ts : list tok) : bool := match ts with [] | TPipe :: _ | TRp :: _ | TSemi :: _ | TAmp :: _ => true | _ => false end.
Definition ends_redirs (ts : list tok) : bool := match ts with TDir _ :: _ => false | _ => true end.
Definition ends_pipe (ts : list tok) : bool := match ts with [] | TRp :: _ | TSemi :: _ | TAmp :: _ => true | _ => false end.
Definition ends_line (ts : list tok) : bool := match ts with [] | TRp :: _ => true | _ => false end.

Lemma tredirs_sound n : forall ts es es' ts', (length ts <= n)%nat -> tredirs ts es = Ret es' ts' -> exists es2, es' = es ++ es2 /\ words es2 = [] /\ ts = elems_toks es2 ++ ts'.
Proof.
  induction n as [|n IH]; intros ts es es' ts' Hn H.
  - destruct ts; [|cbn in Hn; lia]. injection H as <- <-. exists []. by rewrite app_nil_r.
  - assert (D : (exists d f ts1, ts = TDir d :: TWord f :: ts1) \/ Ret es ts = Ret es' ts').
    { destruct ts as [|[w| | | | | |d] [|[f| | | | | |d'] ts]]; cbn in H; try discriminate; [by right..|by left; eauto]. }
    destruct D as [(d & f & ts1 & ->)|[= <- <-]]; [|exists []; by rewrite app_nil_r].
    cbn in H, Hn. apply IH in H as (es2 & -> & Hw & ->); [|lia]. exists (EDir d f :: es2). by rewrite <- (assoc_L (++)).
Qed.
Lemma tredirs_complete es2 : forall es rest, words es2 = [] -> ends_redirs rest = true -> tredirs (elems_toks es2 ++ rest) es = Ret (es ++ es2) rest.
Proof.
  induction es2 as [|[w|d f] es2 IH]; intros es rest Hw Hr; [|done|].
  - rewrite app_nil_r. by destruct rest as [|[w| | | | | |d] rest].
  - change (tredirs (elems_toks es2 ++ rest) (es ++ [EDir d f]) = Ret (es ++ EDir d f :: es2) rest). rewrite IH by done. by rewrite <- (assoc_L (++)).
Qed.
Lemma tredirs_total n : forall ts es, (length ts <= n)%nat -> match tredirs ts es with Ret _ _ | Panic _ => True | _ => False end.
Proof.
  induction n as [|n IH]; intros ts es Hn; [destruct ts; [done|cbn in Hn; lia]|].
  destruct ts as [|[w| | | | | |d] [|[f| | | | | |d'] ts]]; try done. cbn in *. apply IH. lia.
Qed.

Lemma telems_sound n : forall ts es es' ts', (length ts <= n)%nat -> (length (words es) < MAXARGS)%nat -> telems ts es = Ret es' ts' ->
  exists es2, es' = es ++ es2 /\ (length (words es') < MAXARGS)%nat /\ ts = elems_toks es2 ++ ts'.
Proof.
  induction n as [|n IH]; intros ts es es' ts' Hn Hm H.
  - destruct ts; [|cbn in Hn; lia]. injection H as <- <-. exists []. by rewrite app_nil_r.
  - assert (D : (exists d f ts1, ts = TDir d :: TWord f :: ts1) \/ (exists w ts1, ts = TWord w :: ts1) \/ Ret es ts = Ret es' ts').
    { destruct ts as [|[w| | | | | |d] ts]; [by right; right|by right; left; eauto|by right; right|done|by right; right..|]. left. destruct ts as [|[f| | | | | |d'] ts]; cbn in H; try discriminate. eauto. }
    destruct D as [(d & f & ts1 & ->)|[(w & ts1 & ->)|[= <- <-]]]; [| |exists []; by rewrite app_nil_r]; cbn in Hn.
    + cbn in H. apply IH in H as (es2 & -> & Hw & ->); [|lia|by rewrite words_app, app_nil_r]. exists (EDir d f :: es2). rewrite <- (assoc_L (++)) in *. done.
    + cbn [telems] in H. destruct (decide _) as [|Hlt]; [done|]. apply IH in H as (es2 & -> & Hw & ->); [|lia|rewrite words_app, length_app; cbn; lia]. exists (EWord w :: es2). rewrite <- (assoc_L (++)) in *. done.
Qed.
Lemma telems_complete es2 : forall es rest, (length (words (es ++ es2)) < MAXARGS)%nat -> ends_exec rest = true -> telems (elems_toks es2 ++ rest) es = Ret (es ++ es2) rest.
Proof.
  induction es2 as [|e es2 IH]; intros es rest Hw Hr.
  - rewrite app_nil_r. by destruct rest as [|[w| | | | | |d] rest].
  - replace (es ++ e :: es2) with ((es ++ [e]) ++ es2) in * by (by rewrite <- (assoc_L (++))). pose proof Hw as Hw'. rewrite !words_app, !length_app in Hw'. destruct e as [w|d f].
    + change (elems_toks (EWord w :: es2) ++ rest) with (TWord w :: elems_toks es2 ++ rest). cbn [telems]. destruct (decide _) as [Hle|_]; [cbn in Hw'; lia|]. by apply IH.
    + change (elems_toks (EDir d f :: es2) ++ rest) with (TDir d :: TWord f :: elems_toks es2 ++ rest). cbn [telems]. by apply IH.
Qed.
Lemma telems_total n : forall ts es, (length ts <= n)%nat -> match telems ts es with Ret _ _ | Panic _ => True | _ => False end.
Proof.
  induction n as [|n IH]; intros ts es Hn; [destruct ts; [done|cbn in Hn; lia]|].
  destruct ts as [|[w| | | | | |d] ts]; try done; cbn [telems length] in *; [destruct (decide _); [done|]; apply IH; lia|].
  destruct ts as [|[f| | | | | |d'] ts]; try done. cbn in Hn. apply IH. lia.
Qed.

Lemma tamps_run ts : forall c, exists n ts', tamps ts c = Ret (Nat.iter n CBack c) ts' /\ ts = replicate n TAmp ++ ts'.
Proof.
  induction ts as [|t ts IH]; intros c; [by exists 0%nat, []|]. destruct (decide (t = TAmp)) as [->|Hne]; [|exists 0%nat, (t :: ts); by destruct t].
  destruct (IH (CBack c)) as (n & ts' & E & ->). exists (S n), ts'. split; [|done]. cbn [tamps]. by rewrite E, Nat.iter_succ_r.
Qed.
Lemma tamps_complete n : forall c rest, head rest <> Some TAmp -> tamps (replicate n TAmp ++ rest) c = Ret (Nat.iter n CBack c) rest.
Proof.
  induction n as [|n IH]; intros c rest H; cbn [replicate app tamps]; [by destruct rest as [|[] rest]|]. by rewrite IH, Nat.iter_succ_r.
Qed.

(** What the parser takes is what the grammar has, and it takes or refuses every list. *)
Definition takes (G : list tok -> cmd -> Prop) (tm : M (list tok) cmd) (ts : list tok) : Prop :=
  match tm ts with Ret t ts' => exists ts1, ts = ts1 ++ ts' /\ G ts1 t | Panic _ => True | _ => False end.
Definition block (ts : list tok) (t : cmd) : Prop := exists ts1 c es, ts = TLp :: ts1 ++ TRp :: elems_toks es /\ line ts1 c /\ words es = [] /\ t = wrap c es.

Lemma takes_bind (G G' : list tok -> cmd -> Prop) tm k ts : takes G tm ts ->
  (forall ts1 t ts', ts = ts1 ++ ts' -> G ts1 t -> match k t ts' with Ret t' ts'' => exists ts2, ts' = ts2 ++ ts'' /\ G' (ts1 ++ ts2) t' | Panic _ => True | _ => False end) -> takes G' (bind tm k) ts.
Proof.
  unfold takes, bind. destruct (tm ts) as [t ts'|msg| |]; try done. intros (ts1 & E & H) Hk. specialize (Hk ts1 t ts' E H). destruct (k t ts') as [t' ts''|msg| |]; try done.
  destruct Hk as (ts2 & -> & H2). exists (ts1 ++ ts2). by rewrite <- (assoc_L (++)).
Qed.
Lemma next_case t {B} (k : bool -> M (list tok) B) ts : (exists ts', ts = t :: ts' /\ bind (next_is t) k ts = k true ts) \/ bind (next_is t) k ts = k false ts.
Proof.
  unfold bind, next_is. destruct ts as [|t0 ts]; [by right|]. destruct (decide (t0 = t)) as [->|Hne]; [left; exists ts; by rewrite bool_decide_true|right; by rewrite bool_decide_false].
Qed.

Lemma tpipe_takes fuel ts : (forall ts, (4 * length ts + 3 <= fuel)%nat -> takes pipe (tpipe fuel) ts) -> (forall ts, (4 * length ts + 2 <= fuel)%nat -> takes prim (texec fuel) ts) ->
  (4 * length ts + 3 <= S fuel)%nat -> takes pipe (tpipe (S fuel)) ts.
Proof.
  intros IP IE Hf. cbn [tpipe]. eapply takes_bind; [apply IE; lia|]. intros ts1 c ts' -> H1. rewrite length_app in Hf.
  destruct (next_case TPipe (fun b : bool => if b then let* _ := take_tok in let* r := tpipe fuel in ret (CPipe c r) else ret c) ts') as [(ts2 & -> & E)|E]; rewrite E; cbv beta iota.
  - change (match (let* r := tpipe fuel in ret (CPipe c r)) ts2 with Ret t' ts'' => exists ts3, TPipe :: ts2 = ts3 ++ ts'' /\ pipe (ts1 ++ ts3) t' | Panic _ => True | _ => False end).
    cbn [length] in Hf. pose proof (IP ts2 ltac:(lia)) as H2. unfold takes in H2. unfold bind, ret. destruct (tpipe fuel ts2) as [r ts''|msg| |]; try done.
    destruct H2 as (ts3 & -> & H2). exists (TPipe :: ts3). split; [done|by constructor].
  - exists []. rewrite app_nil_r. split; [done|by constructor].
Qed.

Lemma tline_takes fuel ts : (forall ts, (4 * length ts + 4 <= fuel)%nat -> takes line (tline fuel) ts) -> (forall ts, (4 * length ts + 3 <= fuel)%nat -> takes pipe (tpipe fuel) ts) ->
  (4 * length ts + 4 <= S fuel)%nat -> takes line (tline (S fuel)) ts.
Proof.
  intros IL IP Hf. cbn [tline]. eapply takes_bind; [apply IP; lia|]. intros ts1 c ts' -> H1. rewrite length_app in Hf.
  destruct (tamps_run ts' c) as (n & ts2 & E2 & ->). rewrite (bind_Ret _ _ _ _ _ E2). set (c' := Nat.iter n CBack c). rewrite length_app in Hf.
  destruct (next_case TSemi (fun b : bool => if b then let* _ := take_tok in let* r := tline fuel in ret (CList c' r) else ret c') ts2) as [(ts3 & -> & E)|E]; rewrite E; cbv beta iota.
  - change (match (let* r := tline fuel in ret (CList c' r)) ts3 with Ret t' ts'' => exists ts4, replicate n TAmp ++ TSemi :: ts3 = ts4 ++ ts'' /\ line (ts1 ++ ts4) t' | Panic _ => True | _ => False end).
    cbn [length] in Hf. pose proof (IL ts3 ltac:(lia)) as H2. unfold takes in H2. unfold bind, ret. destruct (tline fuel ts3) as [r ts''|msg| |]; try done.
    destruct H2 as (ts4 & -> & H2). exists (replicate n TAmp ++ TSemi :: ts4). split; [by rewrite <- (assoc_L (++))|by constructor].
  - exists (replicate n TAmp). split; [done|by constructor].
Qed.

Lemma texec_takes fuel ts : (forall ts, (4 * length ts + 1 <= fuel)%nat -> takes block (tblock fuel) ts) -> (4 * length ts + 2 <= S fuel)%nat -> takes prim (texec (S fuel)) ts.
Proof.
  intros IB Hf. cbn [texec]. unfold takes.
  destruct (next_case TLp (fun b : bool => if b then tblock fuel else let* es := fun ts => telems ts [] in ret (wrap (CExec (words es)) es)) ts) as [(ts2 & Ets & E)|E]; rewrite E; cbv beta iota.
  - pose proof (IB ts ltac:(lia)) as H. unfold takes in H. destruct (tblock fuel ts) as [t ts'|msg| |]; try done. destruct H as (ts1 & -> & ts3 & c & es & -> & Hl & Hw & ->). eexists. split; [done|by constructor].
  - unfold bind, ret. pose proof (telems_total (length ts) ts [] ltac:(lia)) as T. destruct (telems ts []) as [es ts'|msg| |] eqn:Et; try done.
    apply (telems_sound (length ts)) in Et as (es2 & -> & Hw & ->); [|lia|cbn; unfold MAXARGS; lia]. exists (elems_toks es2). split; [done|by constructor].
Qed.

Lemma tblock_takes fuel ts : (forall ts, (4 * length ts + 4 <= fuel)%nat -> takes line (tline fuel) ts) -> (4 * length ts + 1 <= S fuel)%nat -> takes block (tblock (S fuel)) ts.
Proof.
  intros IL Hf. cbn [tblock]. unfold takes. destruct ts as [|t ts]; [done|]. unfold bind at 1, next_is at 1. destruct (decide (t = TLp)) as [->|Hne]; [|by rewrite bool_decide_false].
  rewrite bool_decide_true by done. cbn [negb]. unfold bind at 1, take_tok at 1. cbn [length] in Hf. pose proof (IL ts ltac:(lia)) as H. unfold takes in H. unfold bind at 1.
  destruct (tline fuel ts) as [c ts'|msg| |]; try done. destruct H as (ts1 & -> & Hl). unfold bind at 1, next_is at 1. destruct ts' as [|t ts']; [done|].
  destruct (decide (t = TRp)) as [->|Hne]; [|by rewrite bool_decide_false]. rewrite bool_decide_true by done. cbn [negb]. unfold bind at 1, take_tok at 1. unfold bind, ret.
  pose proof (tredirs_total (length ts') ts' [] ltac:(lia)) as T. destruct (tredirs ts' []) as [es ts''|msg| |] eqn:Et; try done. apply (tredirs_sound (length ts')) in Et as (es2 & -> & Hw & ->); [|lia].
  exists (TLp :: ts1 ++ TRp :: elems_toks es2). cbn. rewrite <- (assoc_L (++)). split; [done|]. by exists ts1, c, es2.
Qed.

Lemma tparse_takes fuel : (forall ts, (4 * length ts + 4 <= fuel)%nat -> takes line (tline fuel) ts) /\ (forall ts, (4 * length ts + 3 <= fuel)%nat -> takes pipe (tpipe fuel) ts) /\
  (forall ts, (4 * length ts + 2 <= fuel)%nat -> takes prim (texec fuel) ts) /\ (forall ts, (4 * length ts + 1 <= fuel)%nat -> takes block (tblock fuel) ts).
Proof.
  induction fuel as [|fuel (IL & IP & IE & IB)]; [split_and!; intros; lia|].
  split_and!; intros ts Hf; [by apply tline_takes|by apply tpipe_takes|by apply texec_takes|by apply tblock_takes].
Qed.

(** The parser takes what the grammar has. *)
Scheme line_mut := Minimality for line Sort Prop with pipe_mut := Minimality for pipe Sort Prop with prim_mut := Minimality for prim Sort Prop.
Combined Scheme grammar_ind from line_mut, pipe_mut, prim_mut.

Lemma next_skip t {B} (k : bool -> M (list tok) B) ts : head ts <> Some t -> bind (next_is t) k ts = k false ts.
Proof. intros H. unfold bind, next_is. destruct ts as [|t0 ts]; [done|]. rewrite bool_decide_false; [done|]. intros ->. done. Qed.
Lemma next_there t {B} (k : bool -> M (list tok) B) ts : bind (next_is t) k (t :: ts) = k true (t :: ts).
Proof. unfold bind, next_is. by rewrite bool_decide_true. Qed.
Lemma elems_head es rest : head (elems_toks es ++ rest) = Some TLp -> head rest = Some TLp.
Proof. destruct es as [|[] es]; done. Qed.

Lemma tparse_complete :
  (forall ts t, line ts t -> forall rest fuel, ends_line rest = true -> (4 * length ts + 4 <= fuel)%nat -> tline fuel (ts ++ rest) = Ret t rest) /\
  (forall ts t, pipe ts t -> forall rest fuel, ends_pipe rest = true -> (4 * length ts + 3 <= fuel)%nat -> tpipe fuel (ts ++ rest) = Ret t rest) /\
  (forall ts t, prim ts t -> forall rest fuel, ends_exec rest = true -> (4 * length ts + 2 <= fuel)%nat -> texec fuel (ts ++ rest) = Ret t rest).
Proof.
  apply grammar_ind.
  - intros ts c n _ IH rest fuel He Hf. destruct fuel as [|fuel]; [lia|]. cbn [tline]. rewrite length_app, length_replicate in Hf. rewrite <- (assoc_L (++)).
    rewrite (bind_Ret _ _ _ c (replicate n TAmp ++ rest)) by (apply IH; [destruct n; [by destruct rest as [|[] rest]|done]|lia]).
    rewrite (bind_Ret _ _ _ (Nat.iter n CBack c) rest) by (apply tamps_complete; by destruct rest as [|[] rest]). rewrite next_skip; [done|by destruct rest as [|[] rest]].
  - intros ts c n ts' c' _ IH _ IH' rest fuel He Hf. destruct fuel as [|fuel]; [lia|]. cbn [tline]. rewrite !length_app, length_replicate in Hf. cbn [length] in Hf. rewrite <- !(assoc_L (++)).
    rewrite (bind_Ret _ _ _ c (replicate n TAmp ++ TSemi :: ts' ++ rest)) by (apply IH; [by destruct n|lia]).
    rewrite (bind_Ret _ _ _ (Nat.iter n CBack c) (TSemi :: ts' ++ rest)) by (by apply tamps_complete). rewrite next_there. rewrite (bind_Ret _ _ _ (Some TSemi) (ts' ++ rest)) by done.
    by rewrite (bind_Ret _ _ _ c' rest) by (apply IH'; [done|lia]).
  - intros ts c _ IH rest fuel He Hf. destruct fuel as [|fuel]; [lia|]. cbn [tpipe]. rewrite (bind_Ret _ _ _ c rest) by (apply IH; [by destruct rest as [|[] rest]|lia]).
    rewrite next_skip; [done|by destruct rest as [|[] rest]].
  - intros ts c ts' c' _ IH _ IH' rest fuel He Hf. destruct fuel as [|fuel]; [lia|]. cbn [tpipe]. rewrite length_app in Hf. cbn [length] in Hf. rewrite <- (assoc_L (++)).
    rewrite (bind_Ret _ _ _ c (TPipe :: ts' ++ rest)) by (apply IH; [done|lia]). rewrite next_there. rewrite (bind_Ret _ _ _ (Some TPipe) (ts' ++ rest)) by done.
    by rewrite (bind_Ret _ _ _ c' rest) by (apply IH'; [done|lia]).
  - intros es Hw rest fuel He Hf. destruct fuel as [|fuel]; [lia|]. cbn [texec]. rewrite next_skip by (intros Hh; apply elems_head in Hh; by destruct rest as [|[] rest]).
    by rewrite (bind_Ret _ _ _ es rest) by (by apply (telems_complete es [])).
  - intros ts c es _ IH Hw rest fuel He Hf. cbn [length] in Hf. rewrite length_app in Hf. cbn [length] in Hf. destruct fuel as [|[|fuel]]; [lia|lia|]. cbn [app]. rewrite <- (assoc_L (++)). cbn [texec app]. rewrite next_there.
    cbn [tblock]. rewrite next_there. cbn [negb]. rewrite (bind_Ret _ _ _ (Some TLp) (ts ++ TRp :: elems_toks es ++ rest)) by done.
    rewrite (bind_Ret _ _ _ c (TRp :: elems_toks es ++ rest)) by (apply IH; [done|lia]). rewrite next_there. cbn [negb]. rewrite (bind_Ret _ _ _ (Some TRp) (elems_toks es ++ rest)) by done.
    by rewrite (bind_Ret _ _ _ es rest) by (apply (tredirs_complete es []); [done|by destruct rest as [|[] rest]]).
Qed.

(** ** Every line is a list of tokens *)

Lemma spells_space c ts l : is_space c -> spells ts l -> spells ts (c :: l).
Proof. intros Hc H. inversion H as [ws Hw|ws t ts' rest Hw Ht Hcl Hr]; subst; [constructor; by constructor|]. apply (spells_cons (c :: ws)); [by constructor|done..]. Qed.
Lemma spells_first t ts l : tok_ok t -> closed t l -> spells ts l -> spells (t :: ts) (text t ++ l).
Proof. intros. by apply (spells_cons []). Qed.

Lemma spells_word c ts l : word_char c -> spells ts l -> exists ts', spells ts' (c :: l).
Proof.
  intros Hc H. destruct l as [|d l]; [exists (TWord [c] :: ts); apply (spells_first (TWord [c])); [by split; [|constructor]|done|done]|].
  destruct (in_word d) eqn:Ed; [|exists (TWord [c] :: ts); apply (spells_first (TWord [c])); [by split; [|constructor]|by intros ? [= <-]|done]].
  assert (Hns : strchr whitespace d = false) by (unfold in_word in Ed; apply andb_true_iff in Ed as [Ed _]; by apply negb_true_iff in Ed).
  inversion H as [ws Hw|ws t ts' rest Hw Ht Hcl Hr Ets E0]; subst.
  - apply Forall_cons in Hw as [Hw _]. unfold is_space in Hw. congruence.
  - destruct ws as [|x ws]; [|injection E0 as -> _; apply Forall_cons in Hw as [Hw _]; unfold is_space in Hw; congruence]. cbn [app] in *.
    destruct t as [w| | | | | |[]]; try (injection E0 as <- _; done). destruct Ht as [_ Hw']. exists (TWord (c :: w) :: ts'). 
    apply (spells_first (TWord (c :: w))); [by split; [|constructor]|done|done].
Qed.

Lemma symbol_cases c : strchr symbols c = true -> c = 60 \/ c = 124 \/ c = 62 \/ c = 38 \/ c = 59 \/ c = 40 \/ c = 41.
Proof. unfold strchr. intros H. apply existsb_exists in H as (x & Hx & Ex). apply Z.eqb_eq in Ex as <-. cbn in Hx. naive_solver. Qed.

Lemma spells_total n : forall l, (length l <= n)%nat -> Forall (fun c => 0 < c < 256) l -> exists ts, spells ts l.
Proof.
  induction n as [|n IH]; intros l Hn Hl; [destruct l; [|cbn in Hn; lia]; exists []; by constructor|]. destruct l as [|c l]; [exists []; by constructor|]. cbn [length] in Hn. apply Forall_cons in Hl as [Hc Hl].
  destruct (IH l ltac:(lia) Hl) as (ts & Hts). destruct (strchr whitespace c) eqn:Ew; [exists ts; by apply spells_space|].
  destruct (in_word c) eqn:Ei; [by apply (spells_word c ts)|]. unfold in_word in Ei. rewrite Ew in Ei. apply negb_false_iff in Ei. apply symbol_cases in Ei as [->|[->|[->|[->|[->|[->| ->]]]]]].
  - exists (TDir In_ :: ts). by apply (spells_first (TDir In_)).
  - exists (TPipe :: ts). by apply (spells_first TPipe).
  - destruct (decide (head l = Some 62)) as [Eh|Eh]; [|exists (TDir Trunc :: ts); by apply (spells_first (TDir Trunc))]. destruct l as [|d l]; [done|]. injection Eh as ->. cbn [length] in Hn. apply Forall_cons in Hl as [_ Hl].
    destruct (IH l ltac:(lia) Hl) as (ts' & Hts'). exists (TDir Append :: ts'). by apply (spells_first (TDir Append)).
  - exists (TAmp :: ts). by apply (spells_first TAmp).
  - exists (TSemi :: ts). by apply (spells_first TSemi).
  - exists (TLp :: ts). by apply (spells_first TLp).
  - exists (TRp :: ts). by apply (spells_first TRp).
Qed.

(** ** [nulterminate] *)

Lemma tree_weaken (W W' : Z -> Z -> list Z -> Prop) h t : (forall q eq w, W q eq w -> W' q eq w) -> forall hi p, tree W h hi p t -> tree W' h hi p t.
Proof.
  intros HW. induction t as [args|c IH d f|l IHl r IHr|l IHl r IHr|c IH]; intros hi p; cbn [tree]; intros [Hp H]; (split; [done|]).
  - destruct H as (argv & eargv & H1 & qs & es & -> & -> & Hl & H2). exists (pad qs), (pad es). split; [done|]. exists qs, es. split_and!; [done..|]. by eapply Forall3_impl.
  - destruct H as (k & q & eq & H1 & H2 & H3). exists k, q, eq. split_and!; [done|by apply HW|by apply IH].
  - destruct H as (i & j & H1 & H2 & H3). exists i, j. split_and!; [done|by apply IHl|by apply IHr].
  - destruct H as (i & j & H1 & H2 & H3). exists i, j. split_and!; [done|by apply IHl|by apply IHr].
  - destruct H as (k & H1 & H3). exists k. split_and!; [done|by apply IH].
Qed.

Lemma get_node_run p x s : heap s !! p = Some x -> get_node p s = Ret x s.
Proof. intros H. unfold get_node, bind, gets, deref. by rewrite H. Qed.

Section nul.
Context (lb ub : Z) (lb_pos : 0 < lb) (m : mem).

(** Zeros were written, and only where a word ended. *)
Definition cut (m' : mem) : Prop := forall i, m' i = m i \/ (m' i = 0 /\ lb <= i <= ub /\ (in_word (m i) = false \/ m i = 0)).
Definition ended (m' : mem) (q eq : Z) (w : list Z) : Prop := word_at lb ub m q eq w /\ m' eq = 0.
Record nulled (s s' : sh) : Prop := { nl_heap : heap s' = heap s; nl_ps : ps s' = ps s; nl_cut : cut (buf s'); nl_keep : forall i, buf s i = 0 -> buf s' i = 0 }.

Lemma nulled_trans s1 s2 s3 : nulled s1 s2 -> nulled s2 s3 -> nulled s1 s3.
Proof. intros [A1 A2 A3 A4] [B1 B2 B3 B4]. split; [congruence|congruence|done|auto]. Qed.
Lemma nulled_refl s : cut (buf s) -> nulled s s.
Proof. by split. Qed.
Lemma ended_keep s s' q eq w : nulled s s' -> ended (buf s) q eq w -> ended (buf s') q eq w.
Proof. intros H [Hw He]. split; [done|]. by apply (nl_keep _ _ H). Qed.

Lemma nul_write s q eq w : cut (buf s) -> word_at lb ub m q eq w -> exists s', modify (fun s => set_buf (upd (buf s) eq 0) s) s = Ret tt s' /\ nulled s s' /\ ended (buf s') q eq w.
Proof.
  intros Hc Hw. eexists. split; [done|]. cbn [buf set_buf]. split; [split; [done|done| |]|split; [done|by rewrite upd_eq]]; cbn [buf set_buf].
  - intros i. destruct (decide (i = eq)) as [->|Hne]; [|rewrite upd_ne by done; apply Hc]. right. rewrite upd_eq. split; [done|]. destruct Hw as [H1 H2 H3 _ _ H5]. split; [lia|done].
  - intros i Hi. destruct (decide (i = eq)) as [->|Hne]; [by rewrite upd_eq|by rewrite upd_ne].
Qed.

Lemma pad_at l1 x l2 : aget (pad (l1 ++ x :: l2)) (Z.of_nat (length l1)) = Some x.
Proof. unfold aget, pad. destruct (Z.ltb_spec (Z.of_nat (length l1)) 0); [lia|]. rewrite Nat2Z.id, <- (assoc_L (++)). cbn [app]. by rewrite lookup_app_r, Nat.sub_diag. Qed.
Lemma pad_end l : (length l < MAXARGS)%nat -> aget (pad l) (Z.of_nat (length l)) = Some 0.
Proof.
  intros H. unfold aget, pad. destruct (Z.ltb_spec (Z.of_nat (length l)) 0); [lia|]. rewrite Nat2Z.id. rewrite lookup_app_r, Nat.sub_diag by lia. apply lookup_replicate. split; [done|lia].
Qed.

Lemma nul_args_run args2 : forall qs2 es2 qs1 es1 args1 s fuel, Forall3 (word_at lb ub m) qs2 es2 args2 -> Forall3 (ended (buf s)) qs1 es1 args1 -> (length (qs1 ++ qs2) < MAXARGS)%nat -> cut (buf s) -> (length args2 < fuel)%nat ->
  exists s', nul_args fuel (pad (qs1 ++ qs2)) (pad (es1 ++ es2)) (Z.of_nat (length qs1)) s = Ret tt s' /\ nulled s s' /\ Forall3 (ended (buf s')) (qs1 ++ qs2) (es1 ++ es2) (args1 ++ args2).
Proof.
  induction args2 as [|w args2 IH]; intros qs2 es2 qs1 es1 args1 s fuel H2 H1 Hm Hc Hf; (destruct fuel as [|fuel]; [lia|]); cbn [nul_args].
  - inversion H2; subst. rewrite !app_nil_r in *. rewrite pad_end by done. exists s. split_and!; [done|by apply nulled_refl|done].
  - inversion H2 as [|q eq ? qs2' es2' ? Hw H2']; subst. pose proof (Forall3_length_lm _ _ _ _ H1) as Hl. rewrite pad_at. rewrite (bind_Ret _ _ s q s) by done.
    replace (q =? 0) with false by (symmetry; apply Z.eqb_neq; destruct Hw; lia). rewrite Hl, pad_at. rewrite (bind_Ret _ _ s eq s) by done. destruct (nul_write s q eq w Hc Hw) as (s1 & R1 & N1 & E1).
    rewrite (bind_Ret _ _ s tt s1) by done. rewrite <- Hl.
    destruct (IH qs2' es2' (qs1 ++ [q]) (es1 ++ [eq]) (args1 ++ [w]) s1 fuel H2') as (s2 & R2 & N2 & E2).
    + apply Forall3_app; [eapply Forall3_impl; [exact H1|]; intros; by eapply ended_keep|apply Forall3_cons; [done|apply Forall3_nil]].
    + rewrite <- (assoc_L (++)). done.
    + by apply nl_cut in N1.
    + cbn in Hf. lia.
    + rewrite <- !app_assoc in R2; rewrite <- !app_assoc in E2. exists s2. split_and!; [|by eapply nulled_trans|done]. rewrite length_app, Nat2Z.inj_add in R2. exact R2.
Qed.

Definition nuls (t : cmd) : Prop := forall h hi p fuel s, tree (word_at lb ub m) h hi p t -> heap s = h -> cut (buf s) -> (p < fuel)%nat ->
  exists s', nul_loop fuel p s = Ret tt s' /\ nulled s s' /\ tree (ended (buf s')) h hi p t.
Lemma nul_both l r h p i j fuel s : nuls l -> nuls r -> tree (word_at lb ub m) h p i l -> tree (word_at lb ub m) h p j r -> heap s = h -> cut (buf s) -> (i < fuel)%nat -> (j < fuel)%nat ->
  exists s', (nul_loop fuel i ;;; nul_loop fuel j) s = Ret tt s' /\ nulled s s' /\ tree (ended (buf s')) h p i l /\ tree (ended (buf s')) h p j r.
Proof.
  intros IHl IHr Hi Hj Hh Hc Fi Fj. destruct (IHl h p i fuel s Hi Hh Hc Fi) as (s1 & R1 & N1 & T1). destruct (IHr h p j fuel s1 Hj) as (s2 & R2 & N2 & T2); [by rewrite (nl_heap _ _ N1)|by apply nl_cut in N1|done|].
  exists s2. rewrite (bind_Ret _ _ s tt s1) by done. split_and!; [done|by eapply nulled_trans| |done]. eapply tree_weaken; [|exact T1]. intros; by eapply ended_keep.
Qed.
Lemma nul_loop_run t : nuls t.
Proof.
  induction t as [args|c IH d f|l IHl r IHr|l IHl r IHr|c IH]; intros h hi p fuel s; cbn [tree]; intros [Hp H] Hh Hc Hf; (destruct fuel as [|fuel]; [lia|]); cbn [nul_loop].
  - destruct H as (argv & eargv & H1 & qs & es & -> & -> & Hl & H2). rewrite (bind_Ret _ _ s (EXEC (pad qs) (pad es)) s) by (by apply get_node_run; rewrite Hh). cbv iota.
    pose proof (Forall3_length_lr _ _ _ _ H2) as Hlq.
    destruct (nul_args_run args qs es [] [] [] s (S MAXARGS) H2 (Forall3_nil _) ltac:(cbn; lia) Hc ltac:(lia)) as (s' & R & N & E). exists s'. split_and!; [exact R|done|done|]. exists (pad qs), (pad es). split; [done|]. by exists qs, es.
  - destruct H as (k & q & eq & H1 & H2 & H3). rewrite (bind_Ret _ _ s (REDIR k q eq (mode_of d) (fd_of d)) s) by (by apply get_node_run; rewrite Hh). cbv iota. pose proof (tree_lt _ _ _ _ _ H3) as Hk.
    destruct (IH h p k fuel s H3 Hh Hc ltac:(lia)) as (s1 & R1 & N1 & T1). rewrite (bind_Ret _ _ s tt s1) by done. destruct (nul_write s1 q eq f (nl_cut _ _ N1) H2) as (s2 & R2 & N2 & E2).
    exists s2. split_and!; [exact R2|by eapply nulled_trans|done|]. exists k, q, eq. split_and!; [done|done|]. eapply tree_weaken; [|exact T1]. intros; by eapply ended_keep.
  - destruct H as (i & j & H1 & H2 & H3). rewrite (bind_Ret _ _ s (PIPE i j) s) by (by apply get_node_run; rewrite Hh). cbv iota. pose proof (tree_lt _ _ _ _ _ H2). pose proof (tree_lt _ _ _ _ _ H3).
    destruct (nul_both l r h p i j fuel s IHl IHr H2 H3 Hh Hc ltac:(lia) ltac:(lia)) as (s' & R & N & T1 & T2). exists s'. split_and!; [exact R|done|done|]. by exists i, j.
  - destruct H as (i & j & H1 & H2 & H3). rewrite (bind_Ret _ _ s (LIST i j) s) by (by apply get_node_run; rewrite Hh). cbv iota. pose proof (tree_lt _ _ _ _ _ H2). pose proof (tree_lt _ _ _ _ _ H3).
    destruct (nul_both l r h p i j fuel s IHl IHr H2 H3 Hh Hc ltac:(lia) ltac:(lia)) as (s' & R & N & T1 & T2). exists s'. split_and!; [exact R|done|done|]. by exists i, j.
  - destruct H as (k & H1 & H3). rewrite (bind_Ret _ _ s (BACK k) s) by (by apply get_node_run; rewrite Hh). cbv iota. pose proof (tree_lt _ _ _ _ _ H3).
    destruct (IH h p k fuel s H3 Hh Hc ltac:(lia)) as (s1 & R1 & N1 & T1). exists s1. split_and!; [exact R1|done|done|]. by exists k.
Qed.

(** Afterwards the words are strings. *)
Lemma ended_cstr m' q eq w : cut m' -> ended m' q eq w -> cstr m' q w.
Proof.
  intros Hc [[H1 H2 H3 H4 H5 H6] He]. assert (G : forall i c, w !! i = Some c -> m' (q + Z.of_nat i) = c).
  { intros i c Hi. pose proof (H4 i c Hi) as Em. apply (Forall_lookup_1 _ _ _ _ H5) in Hi as [Hr Hin]. destruct (Hc (q + Z.of_nat i)) as [->|(_ & _ & [Hn|Hn])]; [done|..]; rewrite Em in Hn; [congruence|lia]. }
  clear H3 H4. clear H1. subst eq. clear lb_pos H6. revert q He G. induction w as [|c w IH]; intros q He G; cbn [cstr length] in *; [by rewrite Z.add_0_r in He|].
  apply Forall_cons in H5 as [[Hc' _] H5]. split_and!; [rewrite <- (G 0%nat c eq_refl); f_equal; lia|lia|lia|]. apply IH; [done|rewrite <- He; f_equal; lia|].
  intros i d Hi. rewrite <- (G (S i) d Hi). f_equal. lia.
Qed.

End nul.

(** ** [parsecmd] *)

Lemma cstr_input m a l : 0 < a -> cstr m a l -> input a (a + Z.of_nat (length l)) (a + Z.of_nat (length l)) m a l.
Proof.
  intros Ha H. assert (G : (forall i c, l !! i = Some c -> m (a + Z.of_nat i) = c) /\ Forall (fun c => 0 < c < 256) l /\ m (a + Z.of_nat (length l)) = 0).
  { clear Ha. revert a H. induction l as [|c l IH]; intros a; cbn [cstr length]; [intros H; rewrite Z.add_0_r; by split_and!|]. intros (Hm & Hc & H). destruct (IH _ H) as (G1 & G2 & G3). split_and!.
    - intros [|i] d Hi; [injection Hi as <-; by rewrite Z.add_0_r|]. rewrite <- (G1 i d Hi). f_equal. lia.
    - by constructor.
    - rewrite <- G3. f_equal. lia. }
  destruct G as (G1 & G2 & G3). split; [lia|lia|lia|done|done|done].
Qed.

Lemma peek_end lb ub es s ts : ready lb ub es s ts -> exists s', peek es [] s = Ret false s' /\ buf s' = buf s /\ heap s' = heap s /\ (ps s' =? es) = (match ts with [] => true | _ => false end).
Proof.
  intros Hr. destruct (ready_skip _ _ es s ts Hr) as (l & Hi & Hs & Ht). exists (set_ps (skip (strchr whitespace) es (buf s) (ps s)) s). split_and!; [|done|done|].
  - unfold peek, bind, gets, modify, ret. by rewrite andb_false_r.
  - cbn [ps set_ps]. pose proof (in_es _ _ _ _ _ _ Hi) as E. destruct ts as [|t ts]; [subst l; cbn in E; apply Z.eqb_eq; lia|]. destruct Ht as (rest & -> & Hok & _). apply Z.eqb_neq.
    assert (0 < length (text t))%nat by (destruct t as [[|c w]| | | | | |[]]; cbn; try lia; by destruct Hok). rewrite length_app in E. lia.
Qed.

(** A command in memory whose words are strings. *)
Definition command (s : sh) (p : nat) (t : cmd) : Prop := tree (fun q _ w => 0 < q /\ cstr (buf s) q w) (heap s) (length (heap s)) p t.

Lemma parsecmd_run s l ts n : 0 < ps s -> cstr (buf s) (ps s) l -> (length l < n)%nat -> spells ts l ->
  match parsecmd n s with
  | Ret p s' => exists t, line ts t /\ command s' p t /\ grows (heap s) (heap s') /\ (forall a, ~ ps s <= a <= ps s + Z.of_nat (length l) -> buf s' a = buf s a)
  | Panic _ => forall t, ~ line ts t
  | _ => False
  end.
Proof.
  intros Hps Hl Hn Hts. pose proof (cstr_input _ _ _ Hps Hl) as Hin. set (es := ps s + Z.of_nat (length l)) in *. assert (Hr : ready (ps s) es es s ts) by (by exists l).
  pose proof (spells_length _ _ Hts) as Hlen. unfold parsecmd. rewrite (bind_Ret _ _ s (buf s) s) by done. rewrite (bind_Ret _ _ s (ps s) s) by done.
  rewrite (bind_Ret _ _ s (Z.of_nat (length l)) s) by (unfold Ulib.strlen; rewrite (Ulib.ustrlen_from_spec l); [done|by rewrite Z.add_0_r|done]). fold es. rewrite Nat2Z.id. set (fuel := (4 * length l + 4)%nat).
  destruct (parser_sim (ps s) es Hps es fuel s ts Hr) as (Hsim & _). destruct (tparse_takes fuel) as (Htk & _). specialize (Htk ts ltac:(lia)). unfold takes, sim in *.
  assert (Hcomp : forall t, line ts t -> tline fuel ts = Ret t []).
  { intros t Ht. rewrite <- (app_nil_r ts) at 1. apply (proj1 tparse_complete ts t Ht [] fuel); [done|lia]. }
  destruct (tline fuel ts) as [t ts'|msg| |]; [|..|done|done].
  - destruct Hsim as (p & s1 & R1 & Hr1 & B1 & Ht1 & G1). rewrite (bind_Ret _ _ s p s1) by done. destruct (peek_end _ _ _ _ _ Hr1) as (s2 & R2 & B2 & H2 & E2). rewrite (bind_Ret _ _ s1 false s2) by done.
    rewrite (bind_Ret _ _ s2 (ps s2) s2) by done. rewrite E2. destruct ts' as [|t' ts']; cbn [negb]; [|intros t0 Ht0; by specialize (Hcomp t0 Ht0)].
    destruct Htk as (ts1 & -> & Hline). rewrite app_nil_r.
    destruct (nul_loop_run (ps s) es Hps (buf s) t (heap s2) (length (heap s2)) p (S p) s2) as (s3 & R3 & N3 & T3); [by rewrite H2|done|intros i; left; by rewrite B2, B1|lia|].
    unfold nulterminate. rewrite (bind_Ret _ _ s2 tt s3) by done. unfold ret. exists t. destruct N3 as [N1 _ N3 _]. split_and!; [done| |by rewrite N1, H2|].
    + unfold command. rewrite N1. eapply tree_weaken; [|exact T3]. intros q eq w He. split; [destruct He as [[H _] _]; lia|by eapply ended_cstr].
    + intros a Ha. destruct (N3 a) as [->|(_ & ? & _)]; [done|lia].
  - unfold bind at 1. rewrite Hsim. intros t Ht. by specialize (Hcomp t Ht).
Qed.

(** The grammar gives a list of tokens one command. *)
Lemma line_det ts t t' : line ts t -> line ts t' -> t = t'.
Proof.
  intros H H'. pose proof (proj1 tparse_complete ts t H [] _ eq_refl (le_n _)) as E. pose proof (proj1 tparse_complete ts t' H' [] _ eq_refl (le_n _)) as E'. congruence.
Qed.

(** ** Printing *)

Fixpoint show_toks (t : cmd) : list tok :=
  match t with
  | CExec args => TWord <$> args
  | CRedir c d f => TLp :: show_toks c ++ [TRp; TDir d; TWord f]
  | CPipe l r => (TLp :: show_toks l ++ [TRp]) ++ TPipe :: (TLp :: show_toks r ++ [TRp])
  | CList l r => (TLp :: show_toks l ++ [TRp]) ++ TSemi :: (TLp :: show_toks r ++ [TRp])
  | CBack c => (TLp :: show_toks c ++ [TRp]) ++ [TAmp]
  end.
Definition show (t : cmd) : list Z := concat ((fun x => text x ++ [32]) <$> show_toks t).
Definition word_ok (w : list Z) : Prop := w <> [] /\ Forall word_char w.
Fixpoint printable (t : cmd) : Prop :=
  match t with
  | CExec args => Forall word_ok args /\ (length args < MAXARGS)%nat
  | CRedir c _ f => printable c /\ word_ok f
  | CPipe l r | CList l r => printable l /\ printable r
  | CBack c => printable c
  end.

Lemma block_prim ts c : line ts c -> prim (TLp :: ts ++ [TRp]) c.
Proof. intros H. by apply (prim_block ts c []). Qed.
Lemma prim_line ts c : prim ts c -> line ts c.
Proof. intros H. pose proof (line_end ts c 0 (pipe_one _ _ H)) as E. cbn in E. by rewrite app_nil_r in E. Qed.
Lemma words_only args : words (EWord <$> args) = args /\ elems_toks (EWord <$> args) = TWord <$> args /\ forall c, wrap c (EWord <$> args) = c.
Proof. induction args as [|w args (IH1 & IH2 & IH3)]; [done|]. split_and!; [change (w :: words (EWord <$> args) = w :: args); by f_equal|cbn; f_equal; exact IH2|done]. Qed.

Lemma show_line t : printable t -> line (show_toks t) t.
Proof.
  induction t as [args|c IH d f|l IHl r IHr|l IHl r IHr|c IH]; cbn [printable show_toks].
  - intros [_ H]. destruct (words_only args) as (E1 & E2 & E3). pose proof (prim_exec (EWord <$> args)) as P. rewrite E1, E2, E3 in P. by apply prim_line, P.
  - intros [H _]. apply prim_line. by apply (prim_block (show_toks c) c [EDir d f]); [apply IH|].
  - intros [Hl Hr]. pose proof (pipe_two _ _ _ _ (block_prim _ _ (IHl Hl)) (pipe_one _ _ (block_prim _ _ (IHr Hr)))) as P. pose proof (line_end _ _ 0 P) as L. by rewrite app_nil_r in L.
  - intros [Hl Hr]. apply (line_list _ _ 0); [by apply pipe_one, block_prim, IHl|by apply prim_line, block_prim, IHr].
  - intros H. apply (line_end _ _ 1). by apply pipe_one, block_prim, IH.
Qed.
Lemma show_ok t : printable t -> Forall tok_ok (show_toks t).
Proof.
  induction t as [args|c IH d f|l IHl r IHr|l IHl r IHr|c IH]; cbn [printable show_toks]; intros H; [apply Forall_fmap; by eapply Forall_impl; [exact (proj1 H)|]|..];
    repeat (rewrite ?Forall_cons; rewrite ?Forall_app); rewrite ?Forall_nil; cbn [tok_ok]; naive_solver.
Qed.
Lemma show_spells ts : Forall tok_ok ts -> spells ts (concat ((fun x => text x ++ [32]) <$> ts)).
Proof.
  induction 1 as [|t ts Ht _ IH]; [by constructor|]. change (spells (t :: ts) ((text t ++ [32]) ++ concat ((fun x => text x ++ [32]) <$> ts))). rewrite <- app_assoc. apply spells_first; [done| |by apply spells_space].
  destruct t as [w| | | | | |[]]; try done. by intros c [= <-].
Qed.

(** ** The parser is correct *)

(** C20: the shell parses exactly the command lines of its grammar: a string has a
    reading as a list of words and symbols, and on it [parsecmd] either returns a command
    whose nodes are new, whose words are terminated strings and which the grammar gives to
    that reading, writing only into the line; or it stops with an error and the grammar
    has no command for the line. It never runs out of its bounds on recursion. *)
Theorem parsecmd_decides s l n : 0 < ps s -> cstr (buf s) (ps s) l -> (length l < n)%nat ->
  (exists ts, spells ts l) /\ forall ts, spells ts l ->
  match parsecmd n s with
  | Ret p s' => exists t, line ts t /\ command s' p t /\ grows (heap s) (heap s') /\ (forall a, ~ ps s <= a <= ps s + Z.of_nat (length l) -> buf s' a = buf s a)
  | Panic _ => forall t, ~ line ts t
  | _ => False
  end.
Proof.
  intros Hps Hl Hn. split; [|intros ts Hts; by apply parsecmd_run]. apply (spells_total (length l)); [done|]. by apply (in_chars _ _ _ _ _ _ (cstr_input _ _ _ Hps Hl)).
Qed.

(** C33: a command that is printed is parsed back: with its parts in brackets, every
    command whose words are words and which has fewer than [MAXARGS] of them is what
    [parsecmd] builds from its text. *)
Theorem parse_print_roundtrip s t n : printable t -> 0 < ps s -> cstr (buf s) (ps s) (show t) -> (length (show t) < n)%nat -> exists p s', parsecmd n s = Ret p s' /\ command s' p t.
Proof.
  intros Hp Hps Hl Hn. pose proof (parsecmd_run s _ _ n Hps Hl Hn (show_spells _ (show_ok t Hp))) as H. pose proof (show_line t Hp) as Ht.
  destruct (parsecmd n s) as [p s'|msg| |]; [|by destruct (H t)|done|done]. destruct H as (t' & Ht' & Hc & _). exists p, s'. split; [done|]. by rewrite (line_det _ _ _ Ht Ht').
Qed.

Definition demo_mem_of (a : Z) (l : list Z) : mem := put_bytes (fun _ => 0) a l.
(** [grep x<in|(wc;ls)>out &] and a new line *)
Definition demo_line : list Z := [103; 114; 101; 112; 32; 120; 60; 105; 110; 124; 40; 119; 99; 59; 108; 115; 41; 62; 111; 117; 116; 32; 38; 10].
Definition demo_sh (l : list Z) : sh := mk_sh (demo_mem_of 100 l) 100 [].
Lemma parsecmd_decides_witness :
  (exists ts, spells ts demo_line) /\ forall ts, spells ts demo_line ->
  match parsecmd 101 (demo_sh demo_line) with
  | Ret p s' => exists t, line ts t /\ command s' p t /\ grows [] (heap s') /\ (forall a, ~ 100 <= a <= 100 + Z.of_nat (length demo_line) -> buf s' a = buf (demo_sh demo_line) a)
  | Panic _ => forall t, ~ line ts t
  | _ => False
  end.
Proof. apply (parsecmd_decides (demo_sh demo_line) demo_line 101); [reflexivity|vm_compute; repeat split|vm_compute; lia]. Defined.

(** [printable], of a command that is given *)
Ltac printable_tac := repeat split; try discriminate; try (vm_compute; lia); repeat (apply Forall_cons; split); try apply Forall_nil; repeat split; try discriminate; repeat (apply Forall_cons; split); try apply Forall_nil; done.
Definition demo_cmd : cmd := CList (CBack (CExec [[97]; [98; 99]])) (CPipe (CExec [[120]]) (CRedir (CExec [[121]]) Append [122])).
Lemma parse_print_roundtrip_witness : exists p s', parsecmd 101 (demo_sh (show demo_cmd)) = Ret p s' /\ command s' p demo_cmd.
Proof. apply (parse_print_roundtrip (demo_sh (show demo_cmd)) demo_cmd 101); [|reflexivity|vm_compute; repeat split|vm_compute; lia].
  printable_tac.
Defined.

End Shparse.
