(* ===== verification/Shrun.v ===== *)
(** What the shell starts: the programs that [runcmd] and [main] start, with the files
    they have, are those of a reference semantics of commands in which a redirection
    changes one of three files and a pipe joins two commands.

    The system calls act on a table of open files as the kernel does: the lowest free
    number is taken. [open], [pipe], [fork] and [exec] may also fail, and then the shell
    goes on as the code says. The order in which concurrent processes run is not
    recorded. *)

From S2P Require Import Prelude Mem Kstring Ulib Sh Shspec Shparse.
Import Kstring (cstr).
Import Sh Shspec Shparse.

Module Shrun.

(** ** Tables of open files *)

Inductive obj := Inherited (k : nat) | Opened (name : list Z) (mode : Z) | PipeEnd (id : nat) (write : bool).
Definition table := list (option obj).
Definition NOFILE : nat := 16.

Fixpoint free_fd (F : table) : option nat :=
  match F with
  | [] => None
  | None :: _ => Some 0%nat
  | Some _ :: F => S <$> free_fd F
  end.
Definition close_fd (fd : Z) (F : table) : table := aset F fd None.
Definition dup_fd (fd : Z) (F : table) : table :=
  match mjoin (aget F fd), free_fd F with Some o, Some i => <[i := Some o]> F | _, _ => F end.

Definition names (x : str) (l : list Z) : Prop := match x with At m a => cstr m a l | Lit l' => l' = l end.
(** [argv] in memory is a list of strings, up to its null pointer. *)
Definition arguments (m : mem) (argv : list Z) (args : list (list Z)) : Prop :=
  exists qs rest, argv = qs ++ 0 :: rest /\ Forall (fun q => q <> 0) qs /\ Forall2 (cstr m) qs args.

(** A program that is started: its arguments and its files. *)
Definition started : Type := list (list Z) * table.

(** [execs n F p n' l]: the process with files [F] that runs [p], and the processes it
    forks, start [l]. Pipes are numbered from [n] to [n']. *)
Inductive execs : nat -> table -> prog -> nat -> list started -> Prop :=
| execs_exit n F st : execs n F (Exit st) n []
| execs_exec n F m path argv k args : hd_error argv = Some path -> arguments m argv args -> execs n F (Exec m path argv k) n [(args, F)]
| execs_exec_fail n F m path argv k n' l : execs n F k n' l -> execs n F (Exec m path argv k) n' l
| execs_open n F x mode k fd name n' l : free_fd F = Some fd -> names x name -> execs n (<[fd := Some (Opened name mode)]> F) (k (Z.of_nat fd)) n' l -> execs n F (Open x mode k) n' l
| execs_open_fail n F x mode k n' l : execs n F (k (-1)) n' l -> execs n F (Open x mode k) n' l
| execs_close n F fd k n' l : execs n (close_fd fd F) k n' l -> execs n F (Close fd k) n' l
| execs_dup n F fd k n' l : execs n (dup_fd fd F) k n' l -> execs n F (Dup fd k) n' l
| execs_pipe n F k r F1 w n' l : free_fd F = Some r -> F1 = <[r := Some (PipeEnd n false)]> F -> free_fd F1 = Some w ->
    execs (S n) (<[w := Some (PipeEnd n true)]> F1) (k (Some (Z.of_nat r, Z.of_nat w))) n' l -> execs n F (Pipe k) n' l
| execs_pipe_fail n F k n' l : execs n F (k None) n' l -> execs n F (Pipe k) n' l
| execs_fork n F k pid n1 l1 n2 l2 : 0 < pid -> execs n F (k 0) n1 l1 -> execs n1 F (k pid) n2 l2 -> execs n F (Fork k) n2 (l1 ++ l2)
| execs_fork_fail n F k n' l : execs n F (k (-1)) n' l -> execs n F (Fork k) n' l
| execs_wait n F k n' l : execs n F k n' l -> execs n F (Wait k) n' l
| execs_chdir n F x k r n' l : execs n F (k r) n' l -> execs n F (Chdir x k) n' l
| execs_print n F fd msg k n' l : execs n F k n' l -> execs n F (Print fd msg k) n' l.

(** ** The reference *)

Record io := mk_io { inp : obj; outp : obj; errp : obj }.
Definition files (x : io) : table := [Some (inp x); Some (outp x); Some (errp x)] ++ replicate (NOFILE - 3) None.
Definition redirect (d : dir) (o : obj) (x : io) : io := match d with In_ => mk_io o (outp x) (errp x) | _ => mk_io (inp x) o (errp x) end.

(** What a command starts: everything, when no call fails. *)
Inductive runs : cmd -> io -> nat -> nat -> list (list (list Z) * io) -> Prop :=
| runs_none args x n : runs (CExec args) x n n []
| runs_exec args x n : args <> [] -> runs (CExec args) x n n [(args, x)]
| runs_redir c d f x n n' l : runs c (redirect d (Opened f (mode_of d)) x) n n' l -> runs (CRedir c d f) x n n' l
| runs_redir_fail c d f x n : runs (CRedir c d f) x n n []
| runs_list c c' x n n1 n2 l l' : runs c x n n1 l -> runs c' x n1 n2 l' -> runs (CList c c') x n n2 (l ++ l')
| runs_list_fail c c' x n : runs (CList c c') x n n []
| runs_pipe c c' x n n1 n2 l l' : runs c (mk_io (inp x) (PipeEnd n true) (errp x)) (S n) n1 l -> runs c' (mk_io (PipeEnd n false) (outp x) (errp x)) n1 n2 l' ->
    runs (CPipe c c') x n n2 (l ++ l')
| runs_pipe_one c c' x n n1 l : runs c (mk_io (inp x) (PipeEnd n true) (errp x)) (S n) n1 l -> runs (CPipe c c') x n n1 l
| runs_pipe_none c c' x n : runs (CPipe c c') x n (S n) []
| runs_pipe_fail c c' x n : runs (CPipe c c') x n n []
| runs_back c x n n' l : runs c x n n' l -> runs (CBack c) x n n' l
| runs_back_fail c x n : runs (CBack c) x n n [].

Definition with_files (l : list (list (list Z) * io)) : list started := (fun y => (y.1, files y.2)) <$> l.

(** ** [runcmd] *)

Lemma panic_execs n F msg n' l : execs n F (panic_ msg) n' l <-> n' = n /\ l = [].
Proof.
  split; [|intros [-> ->]; apply execs_print, execs_exit]. intros H. inversion H as [| | | | | | | | | | | | |? ? ? ? ? ? ? H1]; subst. inversion H1; subst. done.
Qed.
Lemma fork1_execs n F k n' l : execs n F (fork1 k) n' l <->
  (n' = n /\ l = []) \/ exists pid n1 l1 l2, 0 < pid /\ execs n F (k 0) n1 l1 /\ execs n1 F (k pid) n' l2 /\ l = l1 ++ l2.
Proof.
  unfold fork1. split.
  - intros H. inversion H as [| | | | | | | | |? ? ? pid n1 l1 n2 l2 Hp H1 H2|? ? ? ? ? H1| | |]; subst; [right|left].
    + replace (pid =? -1) with false in H2 by (symmetry; apply Z.eqb_neq; lia). by exists pid, n1, l1, l2.
    + by apply panic_execs in H1.
  - intros [[-> ->]|(pid & n1 & l1 & l2 & Hp & H1 & H2 & ->)]; [by apply execs_fork_fail, panic_execs|]. apply (execs_fork n F _ pid n1); [done|done|].
    by replace (pid =? -1) with false by (symmetry; apply Z.eqb_neq; lia).
Qed.
Lemma exit_execs n F st n' l : execs n F (Exit st) n' l <-> n' = n /\ l = [].
Proof. split; [by inversion 1|intros [-> ->]; constructor]. Qed.
Lemma print_execs n F fd msg k n' l : execs n F (Print fd msg k) n' l <-> execs n F k n' l.
Proof. split; [by inversion 1|by constructor]. Qed.
Lemma wait_execs n F k n' l : execs n F (Wait k) n' l <-> execs n F k n' l.
Proof. split; [by inversion 1|by constructor]. Qed.
Lemma close_execs n F fd k n' l : execs n F (Close fd k) n' l <-> execs n (close_fd fd F) k n' l.
Proof. split; [by inversion 1|by constructor]. Qed.
Lemma dup_execs n F fd k n' l : execs n F (Dup fd k) n' l <-> execs n (dup_fd fd F) k n' l.
Proof. split; [by inversion 1|by constructor]. Qed.

Lemma cstr_det m l : forall l' a, cstr m a l -> cstr m a l' -> l = l'.
Proof.
  induction l as [|c l IH]; intros [|c' l'] a; cbn [cstr]; [done| | |].
  - intros H (H1 & H2 & _). lia.
  - intros (H1 & H2 & _) H. lia.
  - intros (H1 & _ & H) (H1' & _ & H'). f_equal; [congruence|by apply (IH l' (a + 1))].
Qed.
Lemma arguments_det m argv a a' : arguments m argv a -> arguments m argv a' -> a = a'.
Proof.
  intros (qs & r & -> & Hq & H) (qs' & r' & E & Hq' & H'). revert qs' a' E Hq' H'. clear -Hq H. revert a H. induction qs as [|q qs IH]; intros a H qs' a' E Hq' H'.
  - destruct qs' as [|q' qs']; [inversion H; by inversion H'|]. injection E as <- _. apply Forall_cons in Hq' as [? _]. done.
  - apply Forall_cons in Hq as [Hq0 Hq]. destruct qs' as [|q' qs']; [by injection E as -> _|]. injection E as <- E. apply Forall_cons in Hq' as [_ Hq']. inversion H as [|? w ? ws Hw Hws]; subst. inversion H' as [|? w' ? ws' Hw' Hws']; subst.
    f_equal; [by eapply cstr_det|by eapply IH].
Qed.

Definition Ws (m : mem) (q eq : Z) (w : list Z) : Prop := 0 < q /\ cstr m q w.
Lemma args_arguments m argv eargv args : args_at (Ws m) argv eargv args -> arguments m argv args /\ exists a, aget argv 0 = Some a /\ hd_error argv = Some a /\ (a = 0 <-> args = []).
Proof.
  intros (qs & es & -> & -> & Hl & H). pose proof (Forall3_length_lr _ _ _ _ H) as Hlq. unfold pad. replace (MAXARGS - length qs)%nat with (S (MAXARGS - length qs - 1)) by lia. cbn [replicate]. split.
  - exists qs, (replicate (MAXARGS - length qs - 1) 0). split_and!; [done|..]; clear Hl Hlq; induction H as [|q e w qs es args [Hq Hc] H IH]; constructor; try done. lia.
  - destruct H as [|q e w qs es args [Hq Hc] H]; [by exists 0|]. exists q. split_and!; [done|done|]. split; [lia|done].
Qed.

Lemma exec_execs m argv eargv args n x n' l : args_at (Ws m) argv eargv args -> args <> [] -> forall a msg, hd_error argv = Some a ->
  execs n (files x) (Exec m a argv (Print 2 msg (Exit 0))) n' l <-> n' = n /\ (l = [] \/ l = [(args, files x)]).
Proof.
  intros Ha Hne a msg Hh. destruct (args_arguments _ _ _ _ Ha) as [Hargs _]. split.
  - intros H. inversion H as [|? ? ? ? ? ? args' Hh' Hargs'|? ? ? ? ? ? ? ? H1| | | | | | | | | | |]; subst; [split; [done|]; right; by rewrite (arguments_det _ _ _ _ Hargs Hargs')|].
    rewrite print_execs, exit_execs in H1. destruct H1 as [-> ->]. split; [done|by left].
  - intros [-> [->| ->]]; [apply execs_exec_fail; by rewrite print_execs, exit_execs|by constructor].
Qed.

Lemma redir_files d o x : <[Z.to_nat (fd_of d) := Some o]> (close_fd (fd_of d) (files x)) = files (redirect d o x).
Proof. by destruct d. Qed.
Lemma redir_free d x : free_fd (close_fd (fd_of d) (files x)) = Some (Z.to_nat (fd_of d)).
Proof. by destruct d. Qed.
Lemma redir_execs m file f d x n k n' l : cstr m file f -> (forall i, 0 <= i -> k i = k 0) -> (forall F n n' l, execs n F (k (-1)) n' l <-> n' = n /\ l = []) ->
  execs n (files x) (Close (fd_of d) (Open (At m file) (mode_of d) k)) n' l <-> (n' = n /\ l = []) \/ execs n (files (redirect d (Opened f (mode_of d)) x)) (k 0) n' l.
Proof.
  intros Hf Hk Hfail. rewrite close_execs. split.
  - intros H. inversion H as [| | |? ? ? ? ? fd name ? ? Hfd Hn H1|? ? ? ? ? ? ? H1| | | | | | | | |]; subst; [right|left; by apply Hfail in H1].
    rewrite redir_free in Hfd. injection Hfd as <-. rewrite (cstr_det _ _ _ _ Hf Hn). rewrite redir_files, Hk in H1 by lia. done.
  - intros [[-> ->]|H]; [by apply execs_open_fail, Hfail|]. apply (execs_open _ _ _ _ _ _ f _ _ (redir_free d x)); [done|]. rewrite redir_files, Hk by lia. done.
Qed.

Definition piped (n : nat) (x : io) : table := [Some (inp x); Some (outp x); Some (errp x); Some (PipeEnd n false); Some (PipeEnd n true)] ++ replicate (NOFILE - 5) None.
Lemma pipe_execs x n k n' l : (forall F n n' l, execs n F (k None) n' l <-> n' = n /\ l = []) ->
  execs n (files x) (Pipe k) n' l <-> (n' = n /\ l = []) \/ execs (S n) (piped n x) (k (Some (3, 4))) n' l.
Proof.
  intros Hfail. split.
  - intros H. inversion H as [| | | | | | |? ? ? r F1 w ? ? Hr HF Hw H1|? ? ? ? ? H1| | | | |]; subst; [right|left; by apply Hfail in H1]. injection Hr as <-. injection Hw as <-. exact H1.
  - intros [[-> ->]|H]; [by apply execs_pipe_fail, Hfail|]. by eapply execs_pipe.
Qed.

(** Both children of a pipe have three files, and the shell has none of its ends left. *)
Lemma pipe_left_files n x : close_fd 4 (close_fd 3 (dup_fd 4 (close_fd 1 (piped n x)))) = files (mk_io (inp x) (PipeEnd n true) (errp x)).
Proof. done. Qed.
Lemma pipe_right_files n x : close_fd 4 (close_fd 3 (dup_fd 3 (close_fd 0 (piped n x)))) = files (mk_io (PipeEnd n false) (outp x) (errp x)).
Proof. done. Qed.

Lemma with_files_app l l' : with_files (l ++ l') = with_files l ++ with_files l'.
Proof. apply fmap_app. Qed.

Section run.
Context (m : mem) (h : list node) (fuel : nat).
Definition right_ (p : nat) (t : cmd) : Prop := forall x n n' l, execs n (files x) (runcmd fuel m h p) n' l <-> exists l0, runs t x n n' l0 /\ l = with_files l0.

Lemma pos_neq pid : 0 < pid -> (pid =? 0) = false.
Proof. intros H. apply Z.eqb_neq. lia. Qed.

Lemma run_list i j c c' x n n' l : right_ i c -> right_ j c' ->
  execs n (files x) (fork1 (fun pid => if pid =? 0 then runcmd fuel m h i else Wait (runcmd fuel m h j))) n' l <-> exists l0, runs (CList c c') x n n' l0 /\ l = with_files l0.
Proof.
  intros Hi Hj. rewrite fork1_execs. split.
  - intros [[-> ->]|(pid & n1 & l1 & l2 & Hp & H1 & H2 & ->)]; [exists []; split; [apply runs_list_fail|done]|]. rewrite pos_neq, wait_execs in H2 by done. apply Hi in H1 as (l1' & R1 & ->). apply Hj in H2 as (l2' & R2 & ->).
    exists (l1' ++ l2'). split; [by econstructor|by rewrite with_files_app].
  - intros (l0 & H & ->). inversion H as [| | | |? ? ? ? n1 ? l1 l2 R1 R2| | | | | | |]; subst; [right|by left]. exists 1, n1, (with_files l1), (with_files l2). split_and!; [done|apply Hi; eauto|apply wait_execs, Hj; eauto|apply with_files_app].
Qed.
Lemma run_back i c x n n' l : right_ i c -> execs n (files x) (fork1 (fun pid => if pid =? 0 then runcmd fuel m h i else Exit 0)) n' l <-> exists l0, runs (CBack c) x n n' l0 /\ l = with_files l0.
Proof.
  intros Hi. rewrite fork1_execs. split.
  - intros [[-> ->]|(pid & n1 & l1 & l2 & Hp & H1 & H2 & ->)]; [exists []; split; [apply runs_back_fail|done]|]. rewrite pos_neq, exit_execs in H2 by done. destruct H2 as [-> ->]. apply Hi in H1 as (l1' & R1 & ->).
    exists l1'. split; [by constructor|by rewrite app_nil_r].
  - intros (l0 & H & ->). inversion H as [| | | | | | | | | |? ? ? ? ? R1|]; subst; [right|by left]. exists 1, n', (with_files l0), []. split_and!; [done|apply Hi; eauto|by apply exit_execs|by rewrite app_nil_r].
Qed.

(** The shell's part after the second [fork] *)
Definition pipe_end_ : prog := Close 3 (Close 4 (Wait (Wait (Exit 0)))).
Lemma pipe_end_execs n F n' l : execs n F pipe_end_ n' l <-> n' = n /\ l = [].
Proof. unfold pipe_end_. by rewrite !close_execs, !wait_execs, exit_execs. Qed.

Lemma run_pipe i j c c' x n n' l : right_ i c -> right_ j c' ->
  execs n (files x) (Pipe (fun p => match p with None => panic_ "pipe" | Some (p0, p1) =>
      fork1 (fun pid => if pid =? 0 then Close 1 (Dup p1 (Close p0 (Close p1 (runcmd fuel m h i)))) else
      fork1 (fun pid => if pid =? 0 then Close 0 (Dup p0 (Close p0 (Close p1 (runcmd fuel m h j)))) else
      Close p0 (Close p1 (Wait (Wait (Exit 0)))))) end)) n' l <-> exists l0, runs (CPipe c c') x n n' l0 /\ l = with_files l0.
Proof.
  intros Hi Hj. rewrite pipe_execs by (intros; apply panic_execs). rewrite fork1_execs. fold pipe_end_. cbn [Z.eqb].
  assert (L : forall n1 l1, execs (S n) (piped n x) (Close 1 (Dup 4 (Close 3 (Close 4 (runcmd fuel m h i))))) n1 l1 <-> exists l0, runs c (mk_io (inp x) (PipeEnd n true) (errp x)) (S n) n1 l0 /\ l1 = with_files l0).
  { intros n1 l1. rewrite close_execs, dup_execs, !close_execs, pipe_left_files. apply Hi. }
  assert (R : forall n1 n2 l1, execs n1 (piped n x) (Close 0 (Dup 3 (Close 3 (Close 4 (runcmd fuel m h j))))) n2 l1 <-> exists l0, runs c' (mk_io (PipeEnd n false) (outp x) (errp x)) n1 n2 l0 /\ l1 = with_files l0).
  { intros n1 n2 l1. rewrite close_execs, dup_execs, !close_execs, pipe_right_files. apply Hj. }
  split.
  - intros [[-> ->]|[[-> ->]|(pid & n1 & l1 & l2 & Hp & H1 & H2 & ->)]]; [exists []; split; [apply runs_pipe_fail|done]|exists []; split; [apply runs_pipe_none|done]|]. apply L in H1 as (l1' & R1 & ->).
    rewrite pos_neq, fork1_execs in H2 by done. destruct H2 as [[-> ->]|(pid' & n2 & l3 & l4 & Hp' & H3 & H4 & ->)]; [exists l1'; split; [by apply runs_pipe_one|by rewrite app_nil_r]|].
    apply R in H3 as (l3' & R3 & ->). rewrite pos_neq in H4 by done. apply pipe_end_execs in H4 as [-> ->]. exists (l1' ++ l3'). split; [by econstructor|by rewrite with_files_app, app_nil_r].
  - intros (l0 & H & ->). inversion H as [| | | | | |? ? ? ? n1 ? l1 l2 R1 R2|? ? ? ? n1 ? R1| | | |]; subst; [right; right|right; right|right; by left|by left].
    + exists 1, n1, (with_files l1), (with_files l2). split_and!; [done|apply L; eauto| |apply with_files_app]. rewrite pos_neq, fork1_execs by done. right. exists 1, n', (with_files l2), [].
      split_and!; [done|apply R; eauto|by apply pipe_end_execs|by rewrite app_nil_r].
    + exists 1, n', (with_files l0), []. split_and!; [done|apply L; eauto| |by rewrite app_nil_r]. rewrite pos_neq, fork1_execs by done. by left.
Qed.
End run.

(** [runcmd] starts what the command starts in the reference. *)
Lemma runcmd_right m h t : forall hi p fuel, tree (Ws m) h hi p t -> (p < fuel)%nat -> right_ m h fuel p t.
Proof.
  induction t as [args|c IH d f|l IHl r IHr|l IHl r IHr|c IH]; intros hi p fuel; cbn [tree]; intros [Hp H] Hf; (destruct fuel as [|fuel]; [lia|]); intros x n n' l0; cbn [runcmd].
  - destruct H as (argv & eargv & -> & Ha). destruct (args_arguments _ _ _ _ Ha) as (_ & a & E & Hh & Hz). rewrite E. destruct (Z.eqb_spec a 0) as [Ea|Ea].
    + rewrite exit_execs. split; [intros [-> ->]; exists []; split; [constructor|done]|]. intros (l1 & H & ->). by inversion H; subst; [|destruct Hz; naive_solver].
    + rewrite (exec_execs m argv eargv args) by naive_solver. split.
      * intros [-> [->| ->]]; [exists []; split; [constructor|done]|exists [(args, x)]; split; [constructor; naive_solver|done]].
      * intros (l1 & H & ->). inversion H; subst; split; auto.
  - destruct H as (k & q & eq & -> & [_ Hq] & Hk). pose proof (tree_lt _ _ _ _ _ Hk). pose proof (IH p k fuel Hk ltac:(lia)) as IHk. rewrite (redir_execs m q f d).
    + cbn [Z.ltb Z.compare]. rewrite (IHk _ n n' l0). split; [intros [[-> ->]|(l1 & R & ->)]; [exists []; split; [apply runs_redir_fail|done]|exists l1; split; [by constructor|done]]|]. intros (l1 & R & ->). inversion R; subst; [right; eauto|by left].
    + done.
    + intros i Hi. by destruct (Z.ltb_spec i 0); [lia|].
    + intros. cbn [Z.ltb Z.compare]. by rewrite print_execs, exit_execs.
  - destruct H as (i & j & -> & Hi & Hj). pose proof (tree_lt _ _ _ _ _ Hi). pose proof (tree_lt _ _ _ _ _ Hj). apply run_pipe; [apply (IHl p)|apply (IHr p)]; try done; lia.
  - destruct H as (i & j & -> & Hi & Hj). pose proof (tree_lt _ _ _ _ _ Hi). pose proof (tree_lt _ _ _ _ _ Hj). apply run_list; [apply (IHl p)|apply (IHr p)]; try done; lia.
  - destruct H as (k & -> & Hk). pose proof (tree_lt _ _ _ _ _ Hk). apply run_back. apply (IH p); [done|lia].
Qed.

(** ** [main] *)

Definition is_cd (l : list Z) : Prop := take 3 l = [99; 100; 32].

(** What the lines of a session start, one after the other: a line that is not in the
    grammar starts nothing, [cd] is for the shell, and an empty line is the end. *)
Inductive session (x : io) : list (list Z) -> nat -> nat -> list (list (list Z) * io) -> Prop :=
| session_end n : session x [] n n []
| session_eof lines n : session x ([] :: lines) n n []
| session_cd l lines n n' r : is_cd l -> session x lines n n' r -> session x (l :: lines) n n' r
| session_no_fork l lines n : ~ is_cd l -> session x (l :: lines) n n []
| session_run l lines ts t n n1 n2 r r' : l <> [] -> ~ is_cd l -> spells ts l -> line ts t -> runs t x n n1 r -> session x lines n1 n2 r' -> session x (l :: lines) n n2 (r ++ r')
| session_error l lines ts n n' r : l <> [] -> ~ is_cd l -> spells ts l -> (forall t, ~ line ts t) -> session x lines n n' r -> session x (l :: lines) n n' r.

(** The buffer has 100 bytes. *)
Definition holds_line (a : Z) (m : mem) (l : list Z) : Prop := cstr m a l /\ (length l < 100)%nat.

Lemma cd_test m a l : cstr m a l -> (m a =? 99) && (m (a + 1) =? 100) && (m (a + 2) =? 32) = true <-> is_cd l.
Proof.
  intros H. unfold is_cd. rewrite !andb_true_iff, !Z.eqb_eq. destruct l as [|c1 [|c2 [|c3 l]]]; cbn [cstr take] in H.
  - split; [lia|done].
  - destruct H as (_ & _ & H). split; [lia|done].
  - destruct H as (_ & _ & _ & _ & H). replace (a + 1 + 1) with (a + 2) in H by lia. split; [lia|done].
  - destruct H as (H1 & _ & H2 & _ & H3 & _). replace (a + 1 + 1) with (a + 2) in H3 by lia. rewrite H1, H2, H3. cbn. split; [intros [[-> ->] ->]; done|intros [= -> -> ->]; done].
Qed.

(** One line in the child. *)
Lemma runline_execs a m l x n n' r : 0 < a -> holds_line a m l ->
  execs n (files x) (runline m a) n' r <->
    exists r0, r = with_files r0 /\ ((exists ts t, spells ts l /\ line ts t /\ runs t x n n' r0) \/ (exists ts, spells ts l /\ (forall t, ~ line ts t) /\ n' = n /\ r0 = [])).
Proof.
  intros Ha [Hl Hlen]. assert (Hn : (length l < 101)%nat) by lia. pose proof (in_chars _ _ _ _ _ _ (cstr_input _ _ _ Ha Hl)) as Hc.
  destruct (spells_total (length l) l (le_n _) Hc) as (ts0 & Hts0). pose proof (fun ts => parsecmd_run (mk_sh m a []) l ts 101 Ha Hl Hn) as P. unfold runline.
  destruct (parsecmd 101 (mk_sh m a [])) as [p s|msg| |]; [| |by destruct (P ts0)..].
  - pose proof (P ts0 Hts0) as (t0 & Ht0 & C0 & _). pose proof (runcmd_right (buf s) (heap s) t0 _ p (S p) C0 (Nat.lt_succ_diag_r p) x n n' r) as R. rewrite R. split.
    + intros (r0 & Hr & ->). exists r0. split; [done|]. left. by exists ts0, t0.
    + intros (r0 & -> & [(ts & t & Hts & Ht & Hr)|(ts & Hts & Hno & _)]); [|destruct (P ts Hts) as (t & Ht & _); by destruct (Hno t)].
      destruct (P ts Hts) as (t1 & Ht1 & C1 & _). pose proof (line_det _ _ _ Ht Ht1) as ->. rewrite <- R. apply (runcmd_right (buf s) (heap s) t1 _ p (S p) C1 (Nat.lt_succ_diag_r p)). by exists r0.
  - rewrite panic_execs. split; [intros [-> ->]; exists []; split; [done|]; right; exists ts0; by split_and!; [|apply P|..]|].
    intros (r0 & -> & [(ts & t & Hts & Ht & Hr)|(ts & Hts & Hno & -> & ->)]); [by destruct (P ts Hts t)|done].
Qed.

Lemma chdir_execs n F x k n' l : execs n F (Chdir x k) n' l <-> exists r, execs n F (k r) n' l.
Proof. split; [inversion 1; eauto|intros (r & H); by econstructor]. Qed.

Lemma commands_execs a x : 0 < a -> forall lines texts n n' r, Forall2 (holds_line a) lines texts ->
  execs n (files x) (commands a lines) n' r <-> exists r0, r = with_files r0 /\ session x texts n n' r0.
Proof.
  intros Ha lines texts n n' r H. revert n n' r. induction H as [|m l lines texts Hm H IH]; intros n n' r; cbn [commands].
  - rewrite exit_execs. split; [intros [-> ->]; exists []; split; [done|constructor]|intros (r0 & -> & S); by inversion S].
  - rewrite print_execs. pose proof (proj1 Hm) as Hl. destruct (Z.eqb_spec (m a) 0) as [E0|E0].
    { assert (l = []) as -> by (destruct l as [|c l]; [done|cbn in Hl; lia]). rewrite exit_execs. split; [intros [-> ->]; exists []; split; [done|constructor]|].
      intros (r0 & -> & S). inversion S; subst; try done. }
    assert (Hne : l <> []) by (intros ->; cbn in Hl; done). unfold command_loop. pose proof (cd_test m a l Hl) as Hcd. destruct ((m a =? 99) && _ && _) eqn:Ecd.
    + assert (Hc : is_cd l) by (by apply Hcd). assert (Es : Ulib.strlen 101 m a = Some (Z.of_nat (length l))) by (unfold Ulib.strlen; rewrite (Ulib.ustrlen_from_spec l); [done|by rewrite Z.add_0_r|destruct Hm; lia]).
      rewrite Es, chdir_execs. transitivity (execs n (files x) (commands a lines) n' r).
      * split; [intros (v & Hv); destruct (v <? 0); [by rewrite print_execs in Hv|done]|]. intros Hv. by exists 0.
      * rewrite IH. split; intros (r0 & -> & S); exists r0; (split; [done|]); [by apply session_cd|by inversion S].
    + assert (Hc : ~ is_cd l) by (intros Hc; apply Hcd in Hc; congruence). rewrite fork1_execs. split.
      * intros [[-> ->]|(pid & n1 & l1 & l2 & Hp & H1 & H2 & ->)]; [exists []; split; [done|by constructor]|]. cbn [Z.eqb] in H1. rewrite pos_neq, wait_execs, IH in H2 by done. destruct H2 as (r2 & -> & S2).
        apply (runline_execs a m l) in H1 as (r1 & -> & [(ts & t & Hts & Ht & Hr)|(ts & Hts & Hno & -> & ->)]); [| |done|done].
        -- exists (r1 ++ r2). split; [by rewrite with_files_app|by eapply session_run].
        -- exists r2. split; [done|by eapply session_error].
      * intros (r0 & -> & S). inversion S as [| |? ? ? ? ? Hc'| |? ? ts t ? n1 ? r1 r2 _ _ Hts Ht Hr S'|? ? ts ? ? ? _ _ Hts Hno S']; subst; [done|done|by left|right..].
        -- exists 1, n1, (with_files r1), (with_files r2). split_and!; [done|cbn [Z.eqb]; apply (runline_execs a m l); [done|done|]; exists r1; split; [done|left; by exists ts, t]|rewrite pos_neq, wait_execs, IH by done; eauto|apply with_files_app].
        -- exists 1, n, [], (with_files r0). split_and!; [done|cbn [Z.eqb]; apply (runline_execs a m l); [done|done|]; exists []; split; [done|right; by exists ts]|rewrite pos_neq, wait_execs, IH by done; eauto|done].
Qed.

(** With three files open the console is opened once more and closed. *)
Lemma console_execs n x k n' r : execs n (files x) (console_loop 4 k) n' r <-> execs n (files x) k n' r.
Proof.
  cbn [console_loop]. split.
  - intros H. inversion H as [| | |? ? ? ? ? fd name ? ? Hfd Hn H1|? ? ? ? ? ? ? H1| | | | | | | | |]; subst; [|done]. injection Hfd as <-. cbn [Z.leb Z.compare Z.of_nat] in H1. by inversion H1.
  - intros H. by apply execs_open_fail.
Qed.

(** C19: the shell starts what its commands mean: given standard files, the programs that
    [main] starts for the lines it reads, with their arguments and all their open files,
    are exactly those of the reference semantics. So a line that is not in the grammar
    starts nothing, a redirected program has the file in the place of one of its three
    files, the two sides of a pipe have its two ends, and no program holds any other file. *)
Theorem shell_starts a x lines texts n n' r : 0 < a -> Forall2 (holds_line a) lines texts ->
  execs n (files x) (main a lines) n' r <-> exists r0, r = with_files r0 /\ session x texts n n' r0.
Proof. intros Ha H. unfold main. rewrite console_execs. by apply commands_execs. Qed.

(** [(a) | ((b) > f)] *)
Definition demo_pipe : cmd := CPipe (CExec [[97]]) (CRedir (CExec [[98]]) Trunc [102]).
Definition demo_io : io := mk_io (Inherited 0) (Inherited 1) (Inherited 2).
Definition demo_started : list (list (list Z) * io) :=
  [([[97]], mk_io (Inherited 0) (PipeEnd 0 true) (Inherited 2)); ([[98]], mk_io (PipeEnd 0 false) (Opened [102] 1537) (Inherited 2))].
Lemma demo_session : session demo_io [show demo_pipe] 0 1 demo_started.
Proof.
  apply (session_run demo_io _ [] (show_toks demo_pipe) demo_pipe 0 1 1 demo_started []).
  - vm_compute. discriminate.
  - vm_compute. discriminate.
  - apply show_spells, show_ok. printable_tac.
  - apply show_line. printable_tac.
  - apply (runs_pipe _ _ demo_io 0 1 1 [_] [_]); [by apply runs_exec|apply runs_redir; by apply runs_exec].
  - constructor.
Qed.
Lemma shell_starts_witness :
  execs 0 (files demo_io) (main 100 [demo_mem_of 100 (show demo_pipe)]) 1 (with_files demo_started).
Proof.
  apply (shell_starts 100 demo_io [demo_mem_of 100 (show demo_pipe)] [show demo_pipe]); [lia| |].
  - constructor; [|constructor]. split; [|vm_compute; lia]. vm_compute. repeat split.
  - exists demo_started. split; [reflexivity|apply demo_session].
Defined.

End Shrun.
