(* ===== verification/Trap.v ===== *)
(** Traps, [src/kernel/interrupt/trap.c], with [syscall] of [src/kernel/syscall.c] and the
    alarm calls of [src/kernel/sysproc.c]: what happens between the trap of a user program
    and its return to user mode.

    The state has physical memory ([Kalloc.v], [Pgtbl.v], [Uvm.v]), the file system
    ([Fs.v]), whose kernel memory is physical memory, the table of open files, the process
    and the machine registers. [scause], [stval] and what [plic_claim] returns are
    arguments. The device handlers, the clock's wakeup and scheduler tick and [yield] are
    recorded as events: they are modelled in the files of those components. The system
    calls other than those of the alarm are a parameter. *)

From S2P Require Import Prelude Mem Kalloc Pgtbl Uvm Umem Store Fs File Sysfile.
Import Kalloc Pgtbl Uvm Umem Store Fs.
Import File (file, f_readable, f_writable, f_ip).
Import Sysfile (vm_area, mk_vma, v_used, v_addr, v_len, v_prot, v_vfile, v_offset, NVMA).

Module Trap.

(** ** Registers *)

(** [struct trapframe] *)
Inductive reg :=
| KSATP | KSP | KTRAP | EPC | KHARTID
| RA | SP | GP | TP | T0 | T1 | T2 | S0 | S1
| A0 | A1 | A2 | A3 | A4 | A5 | A6 | A7
| S2 | S3 | S4 | S5 | S6 | S7 | S8 | S9 | S10 | S11 | T3 | T4 | T5 | T6.
#[export] Instance reg_eq_dec : EqDecision reg.
Proof. solve_decision. Defined.
Definition frame : Type := reg -> Z.
Definition fset (r : reg) (v : Z) (f : frame) : frame := fun r' => if decide (r' = r) then v else f r'.
(** Set by [usertrapret] for the next trap. *)
Definition kernel_reg (r : reg) : bool := match r with KSATP | KSP | KTRAP | KHARTID => true | _ => false end.

Definition SSTATUS_SPP : Z := Z.shiftl 1 8.
Definition SSTATUS_SPIE : Z := Z.shiftl 1 5.
Definition SSTATUS_SIE : Z := Z.shiftl 1 1.
Definition SATP_SV39 : Z := Z.shiftl 8 60.
Definition MAKE_SATP (pagetable : Z) : Z := Z.lor SATP_SV39 (Z.shiftr pagetable 12).

Record hart := mk_hart { stvec : Z; sstatus : Z; sepc : Z; sip : Z; satp : Z; hartid : Z }.
Definition with_stvec (v : Z) (h : hart) : hart := mk_hart v (sstatus h) (sepc h) (sip h) (satp h) (hartid h).
Definition with_sstatus (v : Z) (h : hart) : hart := mk_hart (stvec h) v (sepc h) (sip h) (satp h) (hartid h).
Definition with_sepc (v : Z) (h : hart) : hart := mk_hart (stvec h) (sstatus h) v (sip h) (satp h) (hartid h).
Definition with_sip (v : Z) (h : hart) : hart := mk_hart (stvec h) (sstatus h) (sepc h) v (satp h) (hartid h).

(** The cause of a trap *)
Record cause := mk_cause { scause : Z; stval : Z; irq : Z }.

(** ** The process *)

Record proc := mk_proc {
  pagetable : Z; sz : Z; shm : Z; kstack : Z; killed : Z; vma : list vm_area; trapframe : frame;
  alarm_interval : Z; alarm_handler : Z; alarm_ticks : Z; alarm_trapframe : frame; alarm_goingoff : Z }.
Definition with_frame (f : frame) (p : proc) : proc :=
  mk_proc (pagetable p) (sz p) (shm p) (kstack p) (killed p) (vma p) f (alarm_interval p) (alarm_handler p) (alarm_ticks p) (alarm_trapframe p) (alarm_goingoff p).
Definition with_killed (k : Z) (p : proc) : proc :=
  mk_proc (pagetable p) (sz p) (shm p) (kstack p) k (vma p) (trapframe p) (alarm_interval p) (alarm_handler p) (alarm_ticks p) (alarm_trapframe p) (alarm_goingoff p).
Definition with_alarm (i h t : Z) (f : frame) (g : Z) (p : proc) : proc :=
  mk_proc (pagetable p) (sz p) (shm p) (kstack p) (killed p) (vma p) (trapframe p) i h t f g.

Inductive event := Uartintr | Virtio_disk_intr | E1000_intr | Complete (irq : Z) | Wakeup_ticks | Sched_tick | Yield.

Definition UART0_IRQ : Z := 10.
Definition VIRTIO0_IRQ : Z := 1.
Definition E1000_IRQ : Z := 33.
Definition SYS_sigalarm : Z := 43.
Definition SYS_sigreturn : Z := 44.
Definition NELEM : Z := 54.
Definition PROT_READ : Z := 1.
Definition PROT_WRITE : Z := 2.
Definition PROT_EXEC : Z := 4.

Section trap.
Context {S : Type} {ST : Store S} {U : Type} {UM : UserMem U}.
(** The linker's [end], the CPU, and the addresses of [kernelvec], [uservec] in the
    trampoline page, and [usertrap]. *)
Context (kend : Z) (id : nat) (kernelvec uservec usertrap_ : Z).
Abbreviation fstate := (fs (S := S) (U := U)).

Record trap := mk_trap { kst_ : kst; fs_ : fstate; ftable : list file; pr : proc; hr : hart; ticks : Z; events : list event }.
Definition set_kst (x : kst) (s : trap) : trap := mk_trap x (fs_ s) (ftable s) (pr s) (hr s) (ticks s) (events s).
Definition set_fs (x : fstate) (s : trap) : trap := mk_trap (kst_ s) x (ftable s) (pr s) (hr s) (ticks s) (events s).
Definition set_pr (x : proc) (s : trap) : trap := mk_trap (kst_ s) (fs_ s) (ftable s) x (hr s) (ticks s) (events s).
Definition set_hr (x : hart) (s : trap) : trap := mk_trap (kst_ s) (fs_ s) (ftable s) (pr s) x (ticks s) (events s).
Definition set_ticks (x : Z) (s : trap) : trap := mk_trap (kst_ s) (fs_ s) (ftable s) (pr s) (hr s) x (events s).
Definition set_events (x : list event) (s : trap) : trap := mk_trap (kst_ s) (fs_ s) (ftable s) (pr s) (hr s) (ticks s) x.

Definition vm {A} (m : M kst A) : M trap A := zoom kst_ set_kst m.
(** The file system with physical memory as its kernel memory. *)
Definition fsm {A} (m : M fstate A) : M trap A :=
  zoom (fun s => set_kmem (ram (kst_ s)) (fs_ s)) (fun x s => set_fs x (set_kst (set_ram (kmem x) (kst_ s)) s)) m.
Definition modp (f : proc -> proc) : M trap unit := modify (fun s => set_pr (f (pr s)) s).
Definition modh (f : hart -> hart) : M trap unit := modify (fun s => set_hr (f (hr s)) s).
Definition set_reg (r : reg) (v : Z) : M trap unit := modp (fun p => with_frame (fset r v (trapframe p)) p).
Definition emit (e : event) : M trap unit := modify (fun s => set_events (events s ++ [e]) s).

Definition intr_on : M trap unit := modh (fun h => with_sstatus (Z.lor (sstatus h) SSTATUS_SIE) h).
Definition intr_off : M trap unit := modh (fun h => with_sstatus (Z.land (sstatus h) (Z.lnot SSTATUS_SIE)) h).

(** ** Interrupts *)

Definition clockintr : M trap unit :=
  modify (fun s => set_ticks (u32 (ticks s + 1)) s) ;;;
  emit Wakeup_ticks ;;;
  emit Sched_tick.

Definition devintr (c : cause) : M trap Z :=
  if negb (Z.land (scause c) 0x8000000000000000 =? 0) && (Z.land (scause c) 0xff =? 9) then
    (if irq c =? UART0_IRQ then emit Uartintr
     else if irq c =? VIRTIO0_IRQ then emit Virtio_disk_intr
     else if irq c =? E1000_IRQ then emit E1000_intr
     else ret tt) ;;;
    when (negb (irq c =? 0)) (emit (Complete (irq c))) ;;;
    ret 1
  else if scause c =? 0x8000000000000001 then
    let* h := gets hr in
    when (hartid h =? 0) clockintr ;;;
    modh (fun h => with_sip (Z.land (sip h) (Z.lnot 2)) h) ;;;
    ret 2
  else ret 0.

(** ** Page faults *)

(** The first area that has [va]: the comparisons are of 64 bits. *)
Fixpoint find_vma (l : list vm_area) (va : Z) : option vm_area :=
  match l with
  | [] => None
  | v :: l => if negb (v_used v =? 0) && (v_addr v <=? u64 va) && (u64 va <=? u64 (v_addr v + v_len v - 1)) then Some v else find_vma l va
  end.
Definition prot_flags (prot : Z) : Z :=
  let f := PTE_U in
  let f := if negb (Z.land prot PROT_READ =? 0) then Z.lor f PTE_R else f in
  let f := if negb (Z.land prot PROT_WRITE =? 0) then Z.lor f PTE_W else f in
  if negb (Z.land prot PROT_EXEC =? 0) then Z.lor f PTE_X else f.

Definition mmap_handler (va cause : Z) : M trap Z :=
  let va := s32 va in
  let* p := gets pr in
  match find_vma (vma p) va with
  | None => ret (-1)
  | Some v =>
      let pte_flags := prot_flags (v_prot v) in
      let* vf := (let* t := gets ftable in deref (t !! v_vfile v)) in
      if (cause =? 13) && (f_readable vf =? 0) then ret (-1)
      else if (cause =? 15) && (f_writable vf =? 0) then ret (-1)
      else
        let* pa := vm (kalloc id) in
        if pa =? 0 then ret (-1)
        else
          vm (kmemset pa 0 PGSIZE) ;;;
          fsm (ilock (Some (f_ip vf))) ;;;
          let offset := s32 (v_offset v + PGROUNDDOWN (u64 (va - v_addr v))) in
          let* readbytes := fsm (readi (f_ip vf) 0 pa (u32 offset) PGSIZE) in
          if readbytes =? 0 then
            fsm (iunlock (Some (f_ip vf))) ;;;
            vm (kfree kend id pa) ;;;
            ret (-1)
          else
            fsm (iunlock (Some (f_ip vf))) ;;;
            let* r := vm (mappages id (pagetable p) (u64 (PGROUNDDOWN va)) PGSIZE pa pte_flags) in
            if negb (r =? 0) then vm (kfree kend id pa) ;;; ret (-1)
            else ret 0
  end.

(** A zeroed page at [fault_va], or the process is killed. *)
Definition lazy_page (pa fault_va : Z) : M trap unit :=
  let* p := gets pr in
  vm (kmemset pa 0 PGSIZE) ;;;
  let* r := vm (mappages id (pagetable p) (PGROUNDDOWN fault_va) PGSIZE pa PTE_RWXU) in
  when (negb (r =? 0)) (vm (kfree kend id pa) ;;; modp (with_killed 1)).

Definition above_stack (p : proc) (va : Z) : bool := u64 (PGROUNDUP (trapframe p SP) - 1) <? va.

Definition pagefault (c : cause) : M trap unit :=
  let fault_va := stval c in
  let* p := gets pr in
  let* cow := vm (cowpage id (pagetable p) fault_va) in
  if cow =? 0 then
    let* bad := (if sz p <=? fault_va then ret true else let* pa := vm (cowalloc kend id (pagetable p) (PGROUNDDOWN fault_va)) in ret (pa =? 0)) in
    when bad (modp (with_killed 1))
  else
    let* done := (if above_stack p fault_va && (fault_va <? sz p) then let* r := mmap_handler fault_va (scause c) in ret (r =? 0) else ret false) in
    if done : bool then ret tt
    else
      let* pa := (if above_stack p fault_va && (fault_va <? sz p) then vm (kalloc id) else ret 0) in
      if negb (pa =? 0) then lazy_page pa fault_va
      else
        let* pa := (if above_stack p fault_va && (fault_va <? shm p) then vm (kalloc id) else ret 0) in
        if negb (pa =? 0) then lazy_page pa fault_va
        else modp (with_killed 1).

(** ** Alarms *)

Definition sigalarm (n handler : Z) : M trap Z :=
  modp (fun p => with_alarm n handler n (alarm_trapframe p) (alarm_goingoff p) p) ;;;
  ret 0.
Definition sigreturn : M trap Z :=
  modp (fun p => with_frame (alarm_trapframe p) p) ;;;
  modp (fun p => with_alarm (alarm_interval p) (alarm_handler p) (alarm_ticks p) (alarm_trapframe p) 0 p) ;;;
  ret 0.
Definition sys_sigalarm : M trap Z :=
  let* p := gets pr in
  sigalarm (s32 (trapframe p A0)) (trapframe p A1).
Definition sys_sigreturn : M trap Z := sigreturn.

(** The timer's part of [usertrap] *)
Definition alarm : M trap unit :=
  let* p := gets pr in
  when (negb (alarm_interval p =? 0))
    (let t := s32 (alarm_ticks p - 1) in
     modp (fun p => with_alarm (alarm_interval p) (alarm_handler p) t (alarm_trapframe p) (alarm_goingoff p) p) ;;;
     when ((t <=? 0) && (alarm_goingoff p =? 0))
       (modp (fun p => with_alarm (alarm_interval p) (alarm_handler p) (alarm_interval p) (trapframe p) (alarm_goingoff p) p) ;;;
        modp (fun p => with_frame (fset EPC (alarm_handler p) (trapframe p)) p) ;;;
        modp (fun p => with_alarm (alarm_interval p) (alarm_handler p) (alarm_ticks p) (alarm_trapframe p) 1 p))).

(** ** System calls *)

Section syscall.
(** The other entries of [syscalls] *)
Context (others : Z -> option (M trap Z)).

Definition syscalls (num : Z) : option (M trap Z) :=
  if num =? SYS_sigalarm then Some sys_sigalarm
  else if num =? SYS_sigreturn then Some sys_sigreturn
  else others num.
Definition syscall : M trap unit :=
  let* p := gets pr in
  let num := s32 (trapframe p A7) in
  match (if (0 <? num) && (num <? NELEM) then syscalls num else None) with
  | Some f => let* r := f in set_reg A0 (u64 r)
  | None => set_reg A0 (u64 (-1))
  end.

(** ** From user mode and back *)

(** How a trap ends: at [sret] with the user's page table, or in [exit]. *)
Inductive tret := Resume (satp : Z) | Exited.

Definition usertrapret : M trap tret :=
  intr_off ;;;
  modh (with_stvec uservec) ;;;
  let* h := gets hr in
  let* p := gets pr in
  set_reg KSATP (satp h) ;;;
  set_reg KSP (u64 (kstack p + PGSIZE)) ;;;
  set_reg KTRAP usertrap_ ;;;
  set_reg KHARTID (hartid h) ;;;
  let* h := gets hr in
  let x := Z.lor (Z.land (sstatus h) (Z.lnot SSTATUS_SPP)) SSTATUS_SPIE in
  modh (with_sstatus x) ;;;
  let* p := gets pr in
  modh (with_sepc (trapframe p EPC)) ;;;
  ret (Resume (MAKE_SATP (pagetable p))).

Definition trap_end (which_dev : Z) : M trap tret :=
  let* p := gets pr in
  if negb (killed p =? 0) then ret Exited
  else
    when (which_dev =? 2) (alarm ;;; emit Yield) ;;;
    usertrapret.

Definition usertrap (c : cause) : M trap tret :=
  let* h := gets hr in
  if negb (Z.land (sstatus h) SSTATUS_SPP =? 0) then panic "usertrap: not from user mode"
  else
    modh (with_stvec kernelvec) ;;;
    set_reg EPC (sepc h) ;;;
    if scause c =? 8 then
      let* p := gets pr in
      if negb (killed p =? 0) then ret Exited
      else
        set_reg EPC (u64 (trapframe p EPC + 4)) ;;;
        intr_on ;;;
        syscall ;;;
        trap_end 0
    else
      let* which_dev := devintr c in
      if negb (which_dev =? 0) then trap_end which_dev
      else if (scause c =? 13) || (scause c =? 15) then pagefault c ;;; trap_end 0
      else modp (with_killed 1) ;;; trap_end 0.

(** A trap of kernel code; [running] is whether there is a process in state [RUNNING]. *)
Definition kerneltrap (c : cause) (running : bool) : M trap unit :=
  let* h := gets hr in
  if Z.land (sstatus h) SSTATUS_SPP =? 0 then panic "kerneltrap: not from supervisor mode"
  else if negb (Z.land (sstatus h) SSTATUS_SIE =? 0) then panic "kerneltrap: interrupts enabled"
  else
    let* which_dev := devintr c in
    if which_dev =? 0 then panic "kerneltrap"
    else
      when ((which_dev =? 2) && running) (emit Yield) ;;;
      modh (with_sepc (sepc h)) ;;;
      modh (with_sstatus (sstatus h)).

End syscall.
End trap.

End Trap.
