(* ===== verification/Trapspec.v ===== *)
(** What traps do: a program returns to user mode with interrupts set up and only if it
    is not killed; an alarm interrupts a program and [sigreturn] resumes it where it was;
    and page faults give the program the page it asked for. *)

From S2P Require Import Prelude Mem Kalloc Pgtbl Uvm Umem Store Fs File Sysfile Trap.
Import Kalloc Pgtbl Uvm Umem Store Fs Trap.

Module Trapspec.

Section spec.
Context {S : Type} {ST : Store S} {U : Type} {UM : UserMem U}.
Context (kend : Z) (id : nat) (kernelvec uservec usertrap_ : Z) (others : Z -> option (M (trap (S := S) (U := U)) Z)).
Abbreviation st := (trap (S := S) (U := U)).
Abbreviation run := (usertrap (S := S) (U := U) kend id kernelvec uservec usertrap_ others).

(** ** Going back to user mode *)

(** The machine as [sret] needs it. *)
Record user_ready (s : st) : Prop := {
  ur_killed : killed (pr s) = 0;
  ur_spp : Z.land (sstatus (hr s)) SSTATUS_SPP = 0;
  ur_spie : Z.land (sstatus (hr s)) SSTATUS_SPIE = SSTATUS_SPIE;
  ur_sie : Z.land (sstatus (hr s)) SSTATUS_SIE = 0;
  ur_stvec : stvec (hr s) = uservec;
  ur_sepc : sepc (hr s) = trapframe (pr s) EPC;
  ur_kernel : trapframe (pr s) KSATP = satp (hr s) /\ trapframe (pr s) KSP = u64 (kstack (pr s) + PGSIZE) /\ trapframe (pr s) KTRAP = usertrap_ /\ trapframe (pr s) KHARTID = hartid (hr s) }.

(** The registers for the kernel. *)
Definition kernel_regs (h : hart) (p : proc) (f : frame) : frame :=
  fset KHARTID (hartid h) (fset KTRAP usertrap_ (fset KSP (u64 (kstack p + PGSIZE)) (fset KSATP (satp h) f))).
Definition user_status (x : Z) : Z := Z.lor (Z.land (Z.land x (Z.lnot SSTATUS_SIE)) (Z.lnot SSTATUS_SPP)) SSTATUS_SPIE.
Definition returned (s : st) : st :=
  set_pr (with_frame (kernel_regs (hr s) (pr s) (trapframe (pr s))) (pr s))
    (set_hr (mk_hart uservec (user_status (sstatus (hr s))) (trapframe (pr s) EPC) (sip (hr s)) (satp (hr s)) (hartid (hr s))) s).

Lemma usertrapret_run (s : st) : usertrapret uservec usertrap_ s = Ret (Resume (MAKE_SATP (pagetable (pr s)))) (returned s).
Proof using. reflexivity. Qed.

Lemma returned_ready (s : st) : killed (pr s) = 0 -> user_ready (returned s).
Proof using.
  intros Hk. split; [done|..]; cbn [returned set_pr set_hr hr pr sstatus stvec sepc satp hartid trapframe with_frame kstack].
  - unfold user_status, SSTATUS_SPP, SSTATUS_SPIE, SSTATUS_SIE. rewrite Z.land_lor_distr_l, <- (Z.land_assoc _ _ (Z.shiftl 1 8)). change (Z.land (Z.lnot (Z.shiftl 1 8)) (Z.shiftl 1 8)) with 0. rewrite Z.land_0_r. done.
  - unfold user_status. apply Z.bits_inj'. intros n Hn. rewrite Z.land_spec, Z.lor_spec. destruct (Z.testbit SSTATUS_SPIE n); [by rewrite orb_true_r|by rewrite andb_false_r].
  - unfold user_status, SSTATUS_SPP, SSTATUS_SPIE, SSTATUS_SIE. rewrite Z.land_lor_distr_l. change (Z.land (Z.shiftl 1 5) (Z.shiftl 1 1)) with 0. rewrite Z.lor_0_r.
    rewrite <- (Z.land_assoc (sstatus (hr s))), (Z.land_comm (Z.lnot (Z.shiftl 1 1))), Z.land_assoc, <- (Z.land_assoc _ _ (Z.shiftl 1 1)). change (Z.land (Z.lnot (Z.shiftl 1 1)) (Z.shiftl 1 1)) with 0. apply Z.land_0_r.
  - done.
  - done.
  - done.
Qed.

Lemma alarm_killed (s : st) a s' : alarm s = Ret a s' -> killed (pr s') = killed (pr s).
Proof using.
  unfold alarm. unfold bind at 1, gets. destruct (negb _); cbn [when]; [|by intros [= _ <-]]. unfold bind at 1, modp at 1, modify. destruct (_ && _); cbn [when]; by intros [= _ <-].
Qed.

Lemma trap_end_ready which (s : st) r s' : trap_end uservec usertrap_ which s = Ret (Resume r) s' -> user_ready s'.
Proof using.
  unfold trap_end. unfold bind at 1, gets. destruct (killed (pr s) =? 0) eqn:E; cbn [negb]; [|done]. apply Z.eqb_eq in E. destruct (which =? 2); cbn [when].
  - destruct (alarm s) as [[] s1|msg| |] eqn:Ea; [|unfold bind; rewrite Ea; done..]. apply alarm_killed in Ea as Ek. rewrite (bind_Ret _ _ s tt (set_events (events s1 ++ [Yield]) s1)).
    + rewrite usertrapret_run. intros [= _ <-]. apply returned_ready. cbn. congruence.
    + by rewrite (bind_Ret _ _ _ _ _ Ea).
  - rewrite (bind_Ret _ _ s tt s) by done. rewrite usertrapret_run. intros [= _ <-]. by apply returned_ready.
Qed.

Lemma usertrap_ready c (s : st) r s' : run c s = Ret (Resume r) s' -> user_ready s'.
Proof using.
  unfold usertrap. intros Hr. apply bind_Ret_inv in Hr as (h & s1 & _ & Hr). destruct (negb _); [done|]. apply bind_Ret_inv in Hr as (a2 & s2 & _ & Hr). apply bind_Ret_inv in Hr as (a3 & s3 & _ & Hr).
  destruct (scause c =? 8); apply bind_Ret_inv in Hr as (a4 & s4 & _ & Hr).
  - destruct (negb _); [done|]. apply bind_Ret_inv in Hr as (a5 & s5 & _ & Hr). apply bind_Ret_inv in Hr as (a6 & s6 & _ & Hr). apply bind_Ret_inv in Hr as (a7 & s7 & _ & Hr). by apply trap_end_ready in Hr.
  - destruct (negb _); [by apply trap_end_ready in Hr|]. destruct (_ || _); apply bind_Ret_inv in Hr as (a5 & s5 & _ & Hr); by apply trap_end_ready in Hr.
Qed.

(** ** Alarms *)

(** [m] leaves the frame that an alarm saved. *)
Definition steady {A} (m : M st A) : Prop := forall s a s', m s = Ret a s' -> alarm_trapframe (pr s') = alarm_trapframe (pr s) /\ alarm_goingoff (pr s') = alarm_goingoff (pr s).

Lemma alarm_kept_bind {A B} (m : M st A) (k : A -> M st B) : steady m -> (forall a, steady (k a)) -> steady (bind m k).
Proof using. intros Hm Hk s b s'' Hr. apply bind_Ret_inv in Hr as (a & s' & R1 & R2). apply Hk in R2 as [-> ->]. by apply Hm in R1. Qed.
Lemma alarm_kept_ret {A} (a : A) : steady (ret a).
Proof using. by intros s b s' [= _ <-]. Qed.
Lemma alarm_kept_gets {A} (f : st -> A) : steady (gets f).
Proof using. by intros s b s' [= _ <-]. Qed.
Lemma alarm_kept_deref {A} (o : option A) : steady (deref o).
Proof using. intros s b s'. destruct o; [by intros [= _ <-]|done]. Qed.
Lemma alarm_kept_vm {A} (m : M kst A) : steady (vm m).
Proof using. intros s b s'. unfold vm, zoom. destruct (m (kst_ s)); try done. by intros [= _ <-]. Qed.
Lemma alarm_kept_fsm {A} (m : M (fs (S := S) (U := U)) A) : steady (fsm m).
Proof using. intros s b s'. unfold fsm, zoom. destruct (m _); try done. by intros [= _ <-]. Qed.
Lemma alarm_kept_emit e : steady (emit e).
Proof using. by intros s b s' [= _ <-]. Qed.
Lemma alarm_kept_modh f : steady (modh f).
Proof using. by intros s b s' [= _ <-]. Qed.
Lemma alarm_kept_ticks f : steady (modify (fun s : st => set_ticks (f s) s)).
Proof using. by intros s b s' [= _ <-]. Qed.
Lemma alarm_kept_killed k : steady (modp (with_killed k)).
Proof using. by intros s b s' [= _ <-]. Qed.
Lemma alarm_kept_reg r v : steady (set_reg r v).
Proof using. by intros s b s' [= _ <-]. Qed.
Lemma alarm_kept_when b m : steady m -> steady (when b m).
Proof using. intros Hm. destruct b; [done|apply alarm_kept_ret]. Qed.

Ltac steady := repeat first
  [ apply alarm_kept_bind | apply alarm_kept_ret | apply alarm_kept_gets | apply alarm_kept_deref | apply alarm_kept_vm | apply alarm_kept_fsm | apply alarm_kept_emit | apply alarm_kept_modh | apply alarm_kept_ticks
  | apply alarm_kept_killed | apply alarm_kept_reg | apply alarm_kept_when | progress intros | match goal with |- steady (if ?b then _ else _) => destruct b | |- steady (match ?o with Some _ => _ | None => _ end) => destruct o end ].

Lemma devintr_steady c : steady (devintr c).
Proof using. unfold devintr, clockintr. steady. Qed.
Lemma pagefault_steady c : steady (pagefault kend id c).
Proof using. unfold pagefault, lazy_page, mmap_handler. steady. Qed.

(** The other system calls leave the alarm alone. *)
Hypothesis others_steady : forall num f, others num = Some f -> steady f.

Lemma sigalarm_steady n h : steady (sigalarm n h).
Proof using. by intros s b s' [= _ <-]. Qed.
Lemma call_steady (x : option (M st Z)) : (forall f, x = Some f -> steady f) -> steady (match x with Some f => let* r := f in set_reg A0 (u64 r) | None => set_reg A0 (u64 (-1)) end).
Proof using. intros Hx. destruct x as [f|]; [|apply alarm_kept_reg]. apply alarm_kept_bind; [by apply Hx|intros; apply alarm_kept_reg]. Qed.
Lemma syscall_steady (s : st) a s' : s32 (trapframe (pr s) A7) <> SYS_sigreturn -> syscall others s = Ret a s' -> alarm_trapframe (pr s') = alarm_trapframe (pr s) /\ alarm_goingoff (pr s') = alarm_goingoff (pr s).
Proof using others_steady.
  intros Hn. unfold syscall. rewrite (bind_Ret _ _ s (pr s) s) by done. apply call_steady. intros f. destruct (_ && _); [|done]. unfold syscalls. rewrite (proj2 (Z.eqb_neq _ SYS_sigreturn)) by done.
  destruct (_ =? SYS_sigalarm); [|apply others_steady]. intros [= <-]. apply alarm_kept_bind; [apply alarm_kept_gets|intros p; apply sigalarm_steady].
Qed.

(** A timer interrupt while the handler runs only counts. *)
Lemma alarm_steady (s : st) a s' : alarm_goingoff (pr s) <> 0 -> alarm s = Ret a s' -> alarm_trapframe (pr s') = alarm_trapframe (pr s) /\ alarm_goingoff (pr s') = alarm_goingoff (pr s).
Proof using.
  intros Hg. unfold alarm. unfold bind at 1, gets. destruct (negb _); cbn [when]; [|by intros [= _ <-]]. unfold bind at 1, modp at 1, modify. rewrite (proj2 (Z.eqb_neq _ 0)), andb_false_r by done. cbn [when]. by intros [= _ <-].
Qed.
Lemma trap_end_steady which (s : st) r s' : alarm_goingoff (pr s) <> 0 -> trap_end uservec usertrap_ which s = Ret r s' -> alarm_trapframe (pr s') = alarm_trapframe (pr s) /\ alarm_goingoff (pr s') = alarm_goingoff (pr s).
Proof using.
  intros Hg. unfold trap_end. rewrite (bind_Ret _ _ s (pr s) s) by done. destruct (negb _); [by intros [= _ <-]|]. intros Hr. apply bind_Ret_inv in Hr as (a & s1 & R1 & R2). rewrite usertrapret_run in R2. injection R2 as _ <-. cbn.
  destruct (which =? 2); cbn [when] in R1; [|by injection R1 as _ <-]. apply bind_Ret_inv in R1 as (a1 & s2 & R1 & R2). injection R2 as _ <-. by apply alarm_steady in R1.
Qed.
Lemma usertrap_steady c (s : st) r s' : alarm_goingoff (pr s) <> 0 -> (scause c = 8 -> s32 (trapframe (pr s) A7) <> SYS_sigreturn) -> run c s = Ret r s' -> alarm_trapframe (pr s') = alarm_trapframe (pr s) /\ alarm_goingoff (pr s') = alarm_goingoff (pr s).
Proof using others_steady.
  intros Hg Hn. unfold usertrap. rewrite (bind_Ret _ _ s (hr s) s) by done. destruct (negb _); [done|]. rewrite (bind_Ret _ _ s tt (set_hr (with_stvec kernelvec (hr s)) s)) by done.
  set (s2 := set_pr (with_frame (fset EPC (sepc (hr s)) (trapframe (pr s))) (pr s)) (set_hr (with_stvec kernelvec (hr s)) s)). rewrite (bind_Ret _ _ _ tt s2) by done.
  assert (E2 : alarm_trapframe (pr s2) = alarm_trapframe (pr s) /\ alarm_goingoff (pr s2) = alarm_goingoff (pr s)) by done. destruct E2 as [E2 E2']. assert (E7 : trapframe (pr s2) A7 = trapframe (pr s) A7) by done.
  rewrite <- E2, <- E2'. rewrite <- E2' in Hg. rewrite <- E7 in Hn. clearbody s2. clear E2 E2' E7. destruct (Z.eqb_spec (scause c) 8) as [E8|E8].
  - rewrite (bind_Ret _ _ s2 (pr s2) s2) by done. destruct (negb _); [by intros [= _ <-]|]. set (s3 := set_pr (with_frame (fset EPC (u64 (trapframe (pr s2) EPC + 4)) (trapframe (pr s2))) (pr s2)) s2). rewrite (bind_Ret _ _ s2 tt s3) by done.
    set (s4 := set_hr (with_sstatus (Z.lor (sstatus (hr s3)) SSTATUS_SIE) (hr s3)) s3). rewrite (bind_Ret _ _ s3 tt s4) by done. intros Hr. apply bind_Ret_inv in Hr as (a & s5 & R5 & Hr).
    apply syscall_steady in R5 as [F5 G5]; [|by apply Hn]. apply trap_end_steady in Hr as [-> ->]; [by rewrite F5, G5|by rewrite G5].
  - intros Hr. apply bind_Ret_inv in Hr as (which & s3 & R3 & Hr). apply devintr_steady in R3 as [F3 G3]. rewrite <- F3, <- G3. rewrite <- G3 in Hg. destruct (negb _); [by apply trap_end_steady in Hr|].
    destruct (_ || _); apply bind_Ret_inv in Hr as (a & s4 & R4 & Hr).
    + apply pagefault_steady in R4 as [F4 G4]. apply trap_end_steady in Hr as [-> ->]; [by rewrite F4, G4|by rewrite G4].
    + injection R4 as _ <-. by apply trap_end_steady in Hr.
Qed.

(** ** An alarm is transparent *)

(** The user program ran, perhaps after other processes, and traps at [pc] with registers
    [u], which [uservec] has saved. Others may have killed the process meanwhile. *)
Definition user_reg (r : reg) : bool := negb (kernel_reg r) && negb (bool_decide (r = EPC)).
Definition saved (u f : frame) : frame := fun r => if user_reg r then u r else f r.
Record enters (u : frame) (pc : Z) (s s0 : st) : Prop := {
  en_pr : exists k, pr s0 = with_killed k (with_frame (saved u (trapframe (pr s))) (pr s));
  en_pc : sepc (hr s0) = pc }.
(** The program runs in user mode from [s], traps, and is back in user mode in [s']. *)
Definition round (u : frame) (pc : Z) (c : cause) (s s' : st) : Prop := exists s0 r, enters u pc s s0 /\ run c s0 = Ret (Resume r) s'.
Definition timer (c : cause) : Prop := scause c = 0x8000000000000001.
Definition calls (u : frame) (c : cause) (n : Z) : Prop := scause c = 8 /\ s32 (u A7) = n.

(** The handler runs: any traps, and no [sigreturn]. *)
Inductive handling : st -> st -> Prop :=
| handling_refl s : handling s s
| handling_round s s1 u pc c s2 : handling s s1 -> round u pc c s1 s2 -> ~ calls u c SYS_sigreturn -> handling s s2.

Lemma handling_steady s s' : handling s s' -> alarm_goingoff (pr s) <> 0 -> alarm_trapframe (pr s') = alarm_trapframe (pr s) /\ alarm_goingoff (pr s') = alarm_goingoff (pr s).
Proof using others_steady.
  induction 1 as [|s s1 u pc c s2 Hh IH (s0 & r & [(k & E) _] & Hr) Hn]; intros Hg; [done|]. destruct (IH Hg) as [<- E1]. rewrite <- E1. rewrite <- E1 in Hg.
  assert (F0 : alarm_trapframe (pr s0) = alarm_trapframe (pr s1) /\ alarm_goingoff (pr s0) = alarm_goingoff (pr s1)) by (by rewrite E). destruct F0 as [<- G0]. rewrite <- G0. apply usertrap_steady in Hr; [done|by rewrite G0|]. intros E8 E7. apply Hn. split; [done|]. by rewrite E in E7.
Qed.

Lemma devintr_timer c (s : st) : timer c -> exists s', devintr c s = Ret 2 s' /\ pr s' = pr s.
Proof using.
  unfold timer. intros E. unfold devintr. rewrite E. change (negb (Z.land 0x8000000000000001 0x8000000000000000 =? 0) && (Z.land 0x8000000000000001 0xff =? 9)) with false. rewrite Z.eqb_refl. cbv iota. rewrite (bind_Ret _ _ s (hr s) s) by done. destruct (hartid (hr s) =? 0); cbn [when]; eexists; (split; [reflexivity|done]).
Qed.

(** The first step of a trap *)
Definition entered (s : st) : st := set_pr (with_frame (fset EPC (sepc (hr s)) (trapframe (pr s))) (pr s)) (set_hr (with_stvec kernelvec (hr s)) s).
Lemma usertrap_other c (s : st) r s' : run c s = Ret r s' -> scause c <> 8 ->
  run c s = bind (devintr c) (fun which_dev => if negb (which_dev =? 0) then trap_end uservec usertrap_ which_dev
    else if (scause c =? 13) || (scause c =? 15) then pagefault kend id c ;;; trap_end uservec usertrap_ 0 else modp (with_killed 1) ;;; trap_end uservec usertrap_ 0) (entered s).
Proof using.
  intros Hr Hn. unfold usertrap in *. rewrite (bind_Ret _ _ s (hr s) s) in * by done. destruct (negb _); [done|]. rewrite (bind_Ret _ _ s tt (set_hr (with_stvec kernelvec (hr s)) s)) by done. rewrite (bind_Ret _ _ _ tt (entered s)) by done.
  by rewrite (proj2 (Z.eqb_neq _ 8)).
Qed.

Lemma alarm_fires (s : st) : alarm_interval (pr s) <> 0 -> s32 (alarm_ticks (pr s) - 1) <= 0 -> alarm_goingoff (pr s) = 0 ->
  exists s', alarm s = Ret tt s' /\ alarm_trapframe (pr s') = trapframe (pr s) /\ alarm_goingoff (pr s') = 1 /\ trapframe (pr s') = fset EPC (alarm_handler (pr s)) (trapframe (pr s)) /\ alarm_ticks (pr s') = alarm_interval (pr s).
Proof using.
  intros Hi Ht Hg. unfold alarm. rewrite (bind_Ret _ _ s (pr s) s) by done. rewrite (proj2 (Z.eqb_neq _ 0)) by done. cbn [negb when]. cbv zeta.
  rewrite (bind_Ret _ _ s tt (set_pr (with_alarm (alarm_interval (pr s)) (alarm_handler (pr s)) (s32 (alarm_ticks (pr s) - 1)) (alarm_trapframe (pr s)) (alarm_goingoff (pr s)) (pr s)) s)) by done.
  rewrite (proj2 (Z.leb_le _ _)), Hg by done. eexists. split; [reflexivity|]. done.
Qed.

Lemma fires u pc c s s1 : round u pc c s s1 -> timer c -> alarm_interval (pr s) <> 0 -> s32 (alarm_ticks (pr s) - 1) <= 0 -> alarm_goingoff (pr s) = 0 ->
  alarm_goingoff (pr s1) = 1 /\ (forall r, user_reg r = true -> alarm_trapframe (pr s1) r = u r /\ trapframe (pr s1) r = u r) /\ alarm_trapframe (pr s1) EPC = pc /\ sepc (hr s1) = alarm_handler (pr s).
Proof using.
  intros (s0 & r & [(k & E) Epc] & Hr) Ht Hi Hti Hg. assert (Hn : scause c <> 8) by (unfold timer in Ht; lia). pose proof Hr as Hr'. rewrite (usertrap_other c s0 _ _ Hr Hn) in Hr'. destruct (devintr_timer c (entered s0) Ht) as (s2 & R2 & P2).
  rewrite (bind_Ret _ _ _ _ _ R2) in Hr'. cbn [negb Z.eqb] in Hr'. unfold trap_end in Hr'. rewrite (bind_Ret _ _ s2 (pr s2) s2) in Hr' by done. destruct (negb _); [done|]. cbn [Z.eqb Pos.eqb when] in Hr'.
  assert (P : pr s2 = with_killed k (with_frame (fset EPC pc (saved u (trapframe (pr s)))) (pr s))) by (rewrite P2; cbn; rewrite E, Epc; done).
  destruct (alarm_fires s2) as (s3 & R3 & F3 & G3 & T3 & _); [by rewrite P..|]. rewrite (bind_Ret _ _ s2 tt (set_events (events s3 ++ [Yield]) s3)) in Hr' by (by rewrite (bind_Ret _ _ _ _ _ R3)). rewrite usertrapret_run in Hr'. injection Hr' as _ <-.
  cbn. rewrite T3, F3, P. cbn. split_and!; [done| |done|done]. intros x Hx. unfold user_reg in Hx. destruct x; try done.
Qed.

Lemma sigreturn_resumes u pc c s s' : round u pc c s s' -> calls u c SYS_sigreturn ->
  sepc (hr s') = alarm_trapframe (pr s) EPC /\ alarm_goingoff (pr s') = 0 /\ trapframe (pr s') A0 = 0 /\ forall r, user_reg r = true -> r <> A0 -> trapframe (pr s') r = alarm_trapframe (pr s) r.
Proof using.
  intros (s0 & r & [(k & E) _] & Hr) [E8 E7]. unfold usertrap in Hr. rewrite (bind_Ret _ _ s0 (hr s0) s0) in Hr by done. destruct (negb _); [done|].
  rewrite (bind_Ret _ _ s0 tt (set_hr (with_stvec kernelvec (hr s0)) s0)) in Hr by done. rewrite (bind_Ret _ _ _ tt (entered s0)) in Hr by done. rewrite E8 in Hr. cbn [Z.eqb Pos.eqb] in Hr.
  rewrite (bind_Ret _ _ (entered s0) (pr (entered s0)) (entered s0)) in Hr by done. destruct (negb _); [done|].
  set (s3 := set_pr (with_frame (fset EPC (u64 (trapframe (pr (entered s0)) EPC + 4)) (trapframe (pr (entered s0)))) (pr (entered s0))) (entered s0)) in *. rewrite (bind_Ret _ _ (entered s0) tt s3) in Hr by done.
  set (s4 := set_hr (with_sstatus (Z.lor (sstatus (hr s3)) SSTATUS_SIE) (hr s3)) s3) in *. rewrite (bind_Ret _ _ s3 tt s4) in Hr by done.
  assert (N : s32 (trapframe (pr s4) A7) = SYS_sigreturn) by (cbn; rewrite E; cbn; exact E7).
  set (s5 := set_pr (with_frame (fset A0 0 (alarm_trapframe (pr s4))) (with_alarm (alarm_interval (pr s4)) (alarm_handler (pr s4)) (alarm_ticks (pr s4)) (alarm_trapframe (pr s4)) 0 (pr s4))) s4).
  rewrite (bind_Ret _ _ s4 tt s5) in Hr by (unfold syscall; rewrite (bind_Ret _ _ s4 (pr s4) s4) by done; rewrite N; done).
  unfold trap_end in Hr. rewrite (bind_Ret _ _ s5 (pr s5) s5) in Hr by done. destruct (negb _); [done|]. rewrite (bind_Ret _ _ s5 tt s5) in Hr by done. rewrite usertrapret_run in Hr. injection Hr as _ <-.
  cbn. rewrite E. cbn. split_and!; [done|done|done|]. intros x Hx Hne. unfold user_reg in Hx. destruct x; done.
Qed.

(** The program is interrupted, the handler runs, and returns. *)
Lemma alarm_resumes u0 pc0 c0 s s1 s2 u pc c s3 : round u0 pc0 c0 s s1 -> timer c0 -> alarm_interval (pr s) <> 0 -> s32 (alarm_ticks (pr s) - 1) <= 0 -> alarm_goingoff (pr s) = 0 ->
  handling s1 s2 -> round u pc c s2 s3 -> calls u c SYS_sigreturn ->
  sepc (hr s1) = alarm_handler (pr s) /\ (forall r, user_reg r = true -> trapframe (pr s1) r = u0 r) /\
  sepc (hr s3) = pc0 /\ alarm_goingoff (pr s3) = 0 /\ trapframe (pr s3) A0 = 0 /\ forall r, user_reg r = true -> r <> A0 -> trapframe (pr s3) r = u0 r.
Proof using others_steady.
  intros R1 Ht Hi Hti Hg Hh R3 Hc. destruct (fires u0 pc0 c0 s s1 R1 Ht Hi Hti Hg) as (G1 & F1 & P1 & C1). destruct (handling_steady s1 s2 Hh) as [F2 G2]; [by rewrite G1|].
  destruct (sigreturn_resumes u pc c s2 s3 R3 Hc) as (P3 & G3 & A3 & F3). split_and!; [done|intros r Hr; by apply F1|congruence|done|done|]. intros r Hr Hne. rewrite F3, F2 by done. by apply F1.
Qed.

End spec.

End Trapspec.
