(* ===== verification/Trapfault.v ===== *)
(** Page faults: a copy-on-write page becomes the program's own with the same bytes, a
    page of a file that is mapped has the bytes of the file, a page that was promised by
    [sbrk] is zero, and every other byte of the program's memory stays. *)

From S2P Require Import Prelude Mem Kstring Kalloc Pgtbl Uvm Ucow Umem Blk Store Fs Fsalloc Fsmap Fsread File Filespec Sysfile Trap Trapspec.
Import Kstring Kalloc Pgtbl Uvm Ucow Umem Store Fs Fsalloc Fsmap Fsread Trap Trapspec.
Import File (f_readable, f_writable, f_ip).
Import Sysfile (v_used, v_addr, v_len, v_prot, v_vfile, v_offset).
Import Filespec (cached, ca_ref, ca_valid, ca_free, ilock_run, iunlock_run).

Module Trapfault.

Lemma page_base va : 0 <= va -> PGROUNDDOWN va mod PGSIZE = 0 /\ 0 <= PGROUNDDOWN va <= va /\ vpn va = vpn (PGROUNDDOWN va).
Proof. unfold vpn. rewrite PGROUNDDOWN_spec. unfold PGSIZE. intros. dlia. Qed.
(** The place of the file that the handler reads for the page of [va] *)
Definition page_offset (v : Sysfile.vm_area) (va : Z) : Z := v_offset v + PGROUNDDOWN (va - v_addr v).
Lemma page_offset_run v va : 0 <= v_addr v <= va -> va < 2 ^ 31 -> 0 <= v_offset v -> page_offset v va + PGSIZE < 2 ^ 31 ->
  s32 (v_offset v + PGROUNDDOWN (u64 (va - v_addr v))) = page_offset v va /\ 0 <= page_offset v va.
Proof.
  unfold page_offset. intros Hle Hva Ho He. assert (0 <= PGROUNDDOWN (va - v_addr v)) by (rewrite PGROUNDDOWN_spec; unfold PGSIZE in *; dlia).
  rewrite u64_small by lia. split; [apply s32_small; unfold PGSIZE in *; lia|lia].
Qed.
Lemma page_offset_aligned v va : v_addr v mod PGSIZE = 0 -> page_offset v va = v_offset v + (PGROUNDDOWN va - v_addr v).
Proof. unfold page_offset. rewrite !PGROUNDDOWN_spec. unfold PGSIZE. intros. dlia. Qed.
Lemma find_vma_in l va v : find_vma l va = Some v -> 0 <= va < 2 ^ 31 -> v_addr v <= va.
Proof.
  intros Hf Hva. induction l as [|w l IH]; [done|]. cbn [find_vma] in Hf. rewrite (u64_small va) in Hf by lia. destruct (_ && _ && _) eqn:E; [|by apply IH]. injection Hf as <-. apply andb_true_iff in E as [E _]. apply andb_true_iff in E as [_ E]. by apply Z.leb_le.
Qed.
Lemma prot_flags_ok prot : 0 <= prot_flags prot < 1024 /\ 0 <= Z.lor (prot_flags prot) PTE_V < 1024 /\ Z.lor (prot_flags prot) PTE_V <> PTE_V /\ has (Z.lor (prot_flags prot) PTE_V) PTE_V = true /\ has (Z.lor (prot_flags prot) PTE_V) PTE_U = true.
Proof. unfold prot_flags. by destruct (Z.land prot PROT_READ =? 0), (Z.land prot PROT_WRITE =? 0), (Z.land prot PROT_EXEC =? 0). Qed.

(** ** A new page in an address space *)

Section page.
Context (kend : Z) (id : nat).
Hypothesis Hkend : kend_ok kend.
Hypothesis Hid : (id < NCPU)%nat.

(** From [s] with table [P] to [s'] with [P'], page [a] was mapped to a frame that was
    free, with flags [f] and bytes [b], and nothing else of the address space changed. *)
Record paged (s : kst) (P : pt) (a f : Z) (b : Z -> Z) (s' : kst) (P' : pt) : Prop := {
  pg_space : uspace kend s' P';
  pg_root : root P' = root P;
  pg_frame : frame_on kend (is_node P) s s';
  pg_used : forall q, page_ok kend PHYSTOP q -> 0 < cnt s (q / PGSIZE) -> 0 < cnt s' (q / PGSIZE);
  pg_in : exists r, page_ok kend PHYSTOP r /\ cnt s (r / PGSIZE) = 0 /\ cnt s' (r / PGSIZE) = 1 /\
    (forall va, a <= va < a + PGSIZE -> lk (ram s') P' va = mk_pte r f) /\ (forall i, 0 <= i < PGSIZE -> ram s' (r + i) = b i);
  pg_out : forall va, 0 <= va < MAXVA -> ~ (a <= va < a + PGSIZE) -> lk (ram s') P' va = lk (ram s) P va }.
(** Nothing of the address space changed. *)
Record kept (s : kst) (P : pt) (s' : kst) (P' : pt) : Prop := {
  kt_space : uspace kend s' P';
  kt_root : root P' = root P;
  kt_frame : frame_on kend (is_node P) s s';
  kt_lk : forall va, 0 <= va < MAXVA -> lk (ram s') P' va = lk (ram s) P va }.
Lemma kept_refl s P : uspace kend s P -> kept s P s P.
Proof using. intros Hus. split; [done|done|apply frame_refl|done]. Qed.

Definition page_free (s : kst) (P : pt) (a : Z) : Prop := forall va, a <= va < a + PGSIZE -> has (lk (ram s) P va) PTE_V = false.

(** Memory is out: only the frame that was just given back is free. *)
Definition scarce (s : kst) : Prop := exists r, forall p, page_ok kend PHYSTOP p -> p <> r -> 0 < cnt s (p / PGSIZE).
Lemma full_scarce s : mem_full kend s -> scarce s.
Proof using. intros H. exists 0. intros p Hp _. by apply H. Qed.

Lemma scarce_paged s P a f b s' P' : scarce s -> paged s P a f b s' P' -> scarce s'.
Proof using. intros [r Hr] Hpg. exists r. intros p Hp Hne. apply (pg_used _ _ _ _ _ _ _ Hpg); [done|by apply Hr]. Qed.

(** Giving back one frame of a full memory *)
Lemma full_kfree s P r s' : vm_inv kend s P -> page_ok kend PHYSTOP r -> mem_full kend s -> kfree kend id r s = Ret tt s' -> scarce s'.
Proof using Hkend Hid.
  intros ([ls Hls] & _) Hr Hf R. destruct (kfree_spec kend Hkend s ls id r Hls Hid Hr (Hf r Hr)) as (s4 & ls4 & R4 & _ & Hc & _). rewrite R in R4. injection R4 as <-.
  exists r. intros p Hp Hne. rewrite Hc, (cnt_set_ne kend PHYSTOP) by (done || congruence). by apply Hf.
Qed.

(** [mappages] of a new page that was filled, and [kfree] when it fails. *)
Lemma map_filled s P r s1 m a perm : uspace kend s P -> fresh_page kend s r s1 -> mem_ok m -> (forall x, ~ (r <= x < r + PGSIZE) -> m x = ram s1 x) ->
  a mod PGSIZE = 0 -> 0 <= a < TRAPFRAME -> page_free s P a -> 0 <= perm < 1024 -> Z.lor perm PTE_V <> PTE_V ->
  exists c s3 P3, mappages id (root P) a PGSIZE r perm (set_ram m s1) = Ret c s3 /\
    ((c = 0 /\ paged s P a (Z.lor perm PTE_V) (fun i => m (r + i)) s3 P3) \/ (c = -1 /\ exists s4, kfree kend id r s3 = Ret tt s4 /\ kept s P s4 P3 /\ scarce s4)).
Proof using Hkend Hid.
  intros Hus Hfp Hm Hout Ham Ha Hno Hperm HpV. pose proof trapframe_maxva as Ht. destruct (fresh_written kend Hkend s P r s1 m Hus Hfp Hm Hout) as (Hus2 & Hlk2 & Hc2 & Hnode & Hneq & Hfr2). set (s2 := set_ram m s1) in *.
  pose proof Hfp as [Hr Hz Hcnt _ _]. pose proof (page_small kend Hkend r Hr) as Hrs. assert (r < PHYSTOP) by apply Hr. assert (Hup : PGROUNDUP (a + PGSIZE) = a + PGSIZE) by (rewrite PGROUNDUP_spec; unfold PGSIZE in *; dlia).
  assert (Hdn : PGROUNDDOWN a = a) by (rewrite PGROUNDDOWN_spec; lia).
  destruct (mappages_spec kend id Hkend Hid s2 P a PGSIZE r perm) as (c & s3 & P3 & e & Hrun & Hst & Hc & Hlk3); try (unfold PGSIZE, PHYSTOP, KERNBASE in *; lia); [apply Hus2| |].
  { rewrite Hup, Hdn. intros v Hv. rewrite Hlk2. by apply Hno. }
  exists c, s3, P3. split; [done|]. rewrite Hup, Hdn in *. destruct Hc as [[-> ->]|(-> & He & Hem)]; [left|right]; (split; [done|]).
  - assert (Hl : forall va, 0 <= va < MAXVA -> lk (ram s3) P3 va = if (a <=? va) && (va <? a + PGSIZE) then mk_pte r (Z.lor perm PTE_V) else lk (ram s2) P va).
    { intros va Hva. rewrite Hlk3 by done. unfold Pgtbl.mapped. destruct (Z.leb_spec a va), (Z.ltb_spec va (a + PGSIZE)); cbn [andb]; try done. f_equal. rewrite PGROUNDDOWN_spec. unfold PGSIZE in *. dlia. }
    assert (Hf3 : frame_on kend (is_node P) s2 s3) by (apply framed_on, Hst).
    split; [|by eapply vstep_root| | | |].
    + eapply (uspace_add kend s2 P s3 P3 a r (Z.lor perm PTE_V)); try done; [lia| |apply lor_flags; [done|unfold PTE_V; lia]]. intros va Hva. rewrite Hlk2. intros Hv _. by apply Hneq.
    + eapply frame_trans; [eapply frame_weaken; [exact Hfr2|tauto]|exact Hf3|done].
    + intros q Hq Hc. pose proof (fo_cnt _ _ _ _ Hfr2 q Hq Hc ltac:(tauto)) as E2. rewrite (fr_cnt _ _ _ _ (vs_fr _ _ _ _ _ Hst)); [|done|]; lia.
    + exists r. split_and!; [done|done|rewrite (fo_cnt _ _ _ _ Hf3) by (done || lia); done| |].
      * intros va Hva. rewrite Hl by (unfold PGSIZE in *; lia). by rewrite (proj2 (Z.leb_le _ _)), (proj2 (Z.ltb_lt _ _)) by lia.
      * intros i Hi. rewrite (frame_page kend _ s2 s3 r (r + i) Hf3) by (done || lia). done.
    + intros va Hva Hn. rewrite Hl by done. rewrite Hlk2. destruct (Z.leb_spec a va), (Z.ltb_spec va (a + PGSIZE)); cbn [andb]; (done || lia).
  - assert (e = a) as -> by (unfold PGSIZE in *; dlia). destruct (fresh_free kend Hkend id Hid s P a a s P r s2 s3 P3) as (s4 & R4 & [F1 F2 F3 F4 F5 F6]); try done; [apply Hus|lia|lia|by apply fresh_range_refl| |].
    + intros va Hva. rewrite Hlk3 by done. unfold Pgtbl.mapped. destruct (Z.leb_spec a va), (Z.ltb_spec va a); cbn [andb]; (done || lia).
    + exists s4. split; [done|]. split.
      * split; [done|by eapply vstep_root|done|]. intros va Hva. apply F4; [done|lia].
      * eapply (full_kfree s3 P3 r); [apply Hst|done| |done]. eapply (mappages_full kend id Hkend Hid s2 P a r perm); try done; [apply Hus2|lia|unfold PHYSTOP, KERNBASE, PGSIZE in *; lia|]. rewrite Hlk2. apply Hno. unfold PGSIZE. lia.
Qed.

Lemma free_filled s P r s1 m : uspace kend s P -> fresh_page kend s r s1 -> mem_ok m -> (forall x, ~ (r <= x < r + PGSIZE) -> m x = ram s1 x) -> exists s4, kfree kend id r (set_ram m s1) = Ret tt s4 /\ kept s P s4 P.
Proof using Hkend Hid.
  intros Hus Hfp Hm Hout. destruct (fresh_written kend Hkend s P r s1 m Hus Hfp Hm Hout) as (Hus2 & Hlk2 & Hc2 & Hnode & Hneq & Hfr2). pose proof Hfp as [Hr Hz Hcnt _ _].
  destruct (fresh_free kend Hkend id Hid s P 0 0 s P r (set_ram m s1) (set_ram m s1) P) as (s4 & R4 & [F1 F2 F3 F4 F5 F6]); try done; [apply Hus|by apply fresh_range_refl|apply vstep_refl, Hus2|].
  exists s4. split; [done|]. split; [done|done|done|]. intros va Hva. apply F4; [done|lia].
Qed.

Lemma frame_umem s P s' P' va : uspace kend s P -> uspace kend s' P' -> frame_on kend (is_node P) s s' -> 0 <= va -> (va < MAXVA -> lk (ram s') P' va = lk (ram s) P va) -> umem (ram s') P' va = umem (ram s) P va.
Proof using Hkend Hid.
  intros Hus Hus' Hfr Hva Hlk. unfold umem. destruct (Z.ltb_spec va MAXVA) as [HM|]; [|done]. rewrite Hlk by done. cbn [andb]. destruct (has (lk (ram s) P va) PTE_V) eqn:Hv; [|done].
  destruct (has (lk (ram s) P va) PTE_U) eqn:Hu; [|done]. cbn [andb]. f_equal. assert (va < TRAPFRAME) by (destruct (Z.lt_ge_cases va TRAPFRAME) as [|Hge]; [done|]; rewrite (us_high _ _ _ Hus va ltac:(lia) Hv) in Hu; done).
  destruct (us_leaf _ _ _ Hus va ltac:(lia) Hv) as [_ _ Hpg Hc Hn]. apply (frame_page kend _ s s' _ _ Hfr Hpg Hc Hn). pose proof (Z.mod_pos_bound va PGSIZE). unfold PGSIZE in *. lia.
Qed.
Lemma paged_umem s P a f b s' P' va : uspace kend s P -> paged s P a f b s' P' -> a mod PGSIZE = 0 -> 0 <= a < TRAPFRAME -> 0 <= f < 1024 -> has f PTE_V = true -> has f PTE_U = true -> 0 <= va ->
  umem (ram s') P' va = if (a <=? va) && (va <? a + PGSIZE) then Some (b (va - a)) else umem (ram s) P va.
Proof using Hkend Hid.
  intros Hus [Hus' _ Hfr _ (r & Hr & _ & _ & Hin & Hb) Hout] Ham Ha Hf HV HU Hva. pose proof trapframe_maxva as Ht. destruct (Z.leb_spec a va) as [H1|H1], (Z.ltb_spec va (a + PGSIZE)) as [H2|H2]; cbn [andb]; try (eapply frame_umem; [done|done|done|done|intros; apply Hout; lia]).
  unfold umem. rewrite Hin by lia. rewrite (proj2 (Z.ltb_lt va MAXVA)) by (unfold PGSIZE in *; lia). pose proof (page_small kend Hkend r Hr). rewrite !mk_pte_has by (try done; unfold PTE_V, PTE_U; lia). rewrite HV, HU. cbn [andb]. rewrite mk_pte_pa by (try apply Hr; done). f_equal. rewrite <- Hb by lia. f_equal. f_equal. unfold PGSIZE in *. dlia.
Qed.
Lemma kept_umem s P s' P' va : uspace kend s P -> kept s P s' P' -> 0 <= va -> umem (ram s') P' va = umem (ram s) P va.
Proof using Hkend Hid. intros Hus [Hus' _ Hfr Hlk] Hva. eapply frame_umem; [done|done|done|done|intros; apply Hlk; lia]. Qed.

(** [kalloc], [memset] and [mappages] of one page *)
Lemma kalloc_page s P : uspace kend s P -> exists r s1, kalloc id s = Ret r s1 /\
  ((r = 0 /\ s1 = s /\ mem_full kend s) \/ (r <> 0 /\ fresh_page kend s r s1 /\ kmemset r 0 PGSIZE s1 = Ret tt (set_ram (memset (ram s1) r 0 PGSIZE) s1) /\ mem_ok (memset (ram s1) r 0 PGSIZE))).
Proof using Hkend Hid.
  intros Hus. pose proof (us_vm _ _ _ Hus) as ([ls Hls] & _). destruct (kalloc_any kend s ls id Hkend Hls Hid) as (r & s1 & Hk & Hc). exists r, s1. split; [done|]. destruct Hc as [(-> & -> & Hf)|(Hnz & Hfp)]; [by left|right].
  destruct (fresh_zeroed kend Hkend s P r s1 Hus Hfp) as (Hset & _). split_and!; [done|done|done|]. pose proof (fp_inv _ _ _ _ Hfp) as [ls1 Hls1]. apply memset_ok, Hls1.
Qed.

End page.

(** ** Faults *)

Section fault.
Context {S : Type} {ST : Store S} {U : Type} {UM : UserMem U}.
Context (kend : Z) (id : nat) (kernelvec uservec usertrap_ : Z) (others : Z -> option (M (trap (S := S) (U := U)) Z)).
Hypothesis Hkend : kend_ok kend.
Hypothesis Hid : (id < NCPU)%nat.
Abbreviation st := (trap (S := S) (U := U)).
Abbreviation run := (usertrap (S := S) (U := U) kend id kernelvec uservec usertrap_ others).

Lemma vm_run {A} (m : M kst A) (s : st) a k : m (kst_ s) = Ret a k -> vm m s = Ret a (set_kst k s).
Proof using. intros E. unfold vm, zoom. by rewrite E. Qed.

Definition fault (c : cause) : Prop := scause c = 13 \/ scause c = 15.
Lemma usertrap_fault c (s : st) : Z.land (sstatus (hr s)) SSTATUS_SPP = 0 -> fault c -> run c s = (pagefault kend id c ;;; trap_end uservec usertrap_ 0) (entered kernelvec s).
Proof using.
  intros Hs Hc. unfold usertrap. rewrite (bind_Ret _ _ s (hr s) s) by done. rewrite Hs. cbn [Z.eqb negb]. rewrite (bind_Ret _ _ s tt (set_hr (with_stvec kernelvec (hr s)) s)) by done. rewrite (bind_Ret _ _ _ tt (entered kernelvec s)) by done.
  assert (D : devintr c (entered kernelvec s) = Ret 0 (entered kernelvec s)) by (unfold devintr; by destruct Hc as [-> | ->]). destruct Hc as [E|E]; rewrite E; cbn [Z.eqb Pos.eqb]; by rewrite (bind_Ret _ _ _ _ _ D).
Qed.

(** The program goes on where it was, with its registers, files and alarm. *)
Record resumed (s s' : st) : Prop := {
  re_ready : user_ready uservec usertrap_ s';
  re_pc : sepc (hr s') = sepc (hr s);
  re_regs : forall r, user_reg r = true -> trapframe (pr s') r = trapframe (pr s) r;
  re_fs : fs_ s' = fs_ s;
  re_files : ftable s' = ftable s }.

Lemma trap_end_alive (s : st) : killed (pr s) = 0 -> trap_end uservec usertrap_ 0 s = Ret (Resume (MAKE_SATP (pagetable (pr s)))) (returned uservec usertrap_ s).
Proof using. intros E. unfold trap_end. rewrite (bind_Ret _ _ s (pr s) s) by done. rewrite E. cbn [Z.eqb negb when]. rewrite (bind_Ret _ _ s tt s) by done. apply usertrapret_run. Qed.
Lemma trap_end_dead (s : st) : killed (pr s) <> 0 -> trap_end uservec usertrap_ 0 s = Ret Exited s.
Proof using. intros E. unfold trap_end. rewrite (bind_Ret _ _ s (pr s) s) by done. by rewrite (proj2 (Z.eqb_neq _ 0)). Qed.

Lemma not_cow (s : st) P va : uspace kend (kst_ s) P -> pagetable (pr s) = root P -> 0 <= va < MAXVA -> has (lk (ram (kst_ s)) P va) PTE_V && has (lk (ram (kst_ s)) P va) PTE_F = false -> vm (cowpage id (pagetable (pr s)) va) s = Ret (-1) s.
Proof using Hkend Hid others.
  intros Hus Hpt Hva E. assert (R : cowpage id (pagetable (pr s)) va (kst_ s) = Ret (-1) (kst_ s)) by (rewrite Hpt, (cowpage_spec kend id Hkend (kst_ s) P va) by (try apply (us_vm _ _ _ Hus); lia); by rewrite E).
  rewrite (vm_run _ s _ _ R). by destruct s.
Qed.

(** After a fault that was dealt with *)
Lemma fault_resumes (s : st) k : killed (pr s) = 0 -> resumed s (returned uservec usertrap_ (set_kst k (entered kernelvec s))).
Proof using.
  intros Hk. split; [by apply returned_ready|done| |done|done]. intros r Hr. destruct r; done.
Qed.

Lemma lazy_page_run (s : st) P r k1 va : uspace kend (kst_ s) P -> pagetable (pr s) = root P -> fresh_page kend (kst_ s) r k1 -> kmemset r 0 PGSIZE k1 = Ret tt (set_ram (memset (ram k1) r 0 PGSIZE) k1) -> mem_ok (memset (ram k1) r 0 PGSIZE) ->
  0 <= va < TRAPFRAME -> page_free (kst_ s) P (PGROUNDDOWN va) ->
  exists k P', (lazy_page kend id r va (set_kst k1 s) = Ret tt (set_kst k s) /\ paged kend (kst_ s) P (PGROUNDDOWN va) RWXUV (fun _ => 0) k P') \/
    (lazy_page kend id r va (set_kst k1 s) = Ret tt (set_pr (with_killed 1 (pr s)) (set_kst k s)) /\ kept kend (kst_ s) P k P' /\ scarce kend k).
Proof using Hkend Hid others.
  intros Hus Hpt Hfp Hset Hm Hva Hno. unfold lazy_page. rewrite (bind_Ret _ _ _ (pr s) (set_kst k1 s)) by done. rewrite (bind_Ret _ _ _ _ _ (vm_run _ (set_kst k1 s) _ _ Hset)). set (m := memset (ram k1) r 0 PGSIZE) in *.
  assert (Ham : PGROUNDDOWN va mod PGSIZE = 0 /\ 0 <= PGROUNDDOWN va < TRAPFRAME) by (rewrite PGROUNDDOWN_spec; unfold PGSIZE in *; dlia). destruct Ham as [Ham Har].
  assert (Hsp : forall x, m x = if (r <=? x) && (x <? r + PGSIZE) then 0 else ram k1 x) by (intros x; apply memset_spec; unfold PGSIZE; lia).
  destruct (map_filled kend id Hkend Hid (kst_ s) P r k1 m (PGROUNDDOWN va) PTE_RWXU Hus Hfp Hm) as (c & k3 & P3 & R3 & Hc); [intros x Hx; rewrite Hsp; destruct (Z.leb_spec r x), (Z.ltb_spec x (r + PGSIZE)); cbn [andb]; (lia || done)|done|done|done|vm_compute; done|vm_compute; done|].
  rewrite Hpt. rewrite (bind_Ret _ _ _ _ _ (vm_run _ (set_kst (set_ram m k1) (set_kst k1 s)) _ _ R3)). destruct Hc as [[-> Hpg]|(-> & k4 & R4 & Hk)]; cbn [Z.eqb negb when].
  - exists k3, P3. left. split; [done|]. destruct Hpg as [H1 H2 H3 H4 (q & Hq & Hq0 & Hq1 & Hqi & Hqb) H5]. split; [done|done|done|done| |done]. exists q. split_and!; [done|done|done|done|]. intros i Hi. rewrite Hqb by done.
    rewrite Hsp. rewrite (proj2 (Z.leb_le _ _)), (proj2 (Z.ltb_lt _ _)) by lia. done.
  - exists k4, P3. right. split; [|done]. by rewrite (bind_Ret _ _ _ _ _ (vm_run _ (set_kst k3 (set_kst (set_ram m k1) (set_kst k1 s))) _ _ R4)).
Qed.

(** [pagefault] after the handler of mapped files has refused *)
Definition lazy_alloc (va : Z) (s : st) : outcome st unit :=
  (let* pa := (if above_stack (pr s) va && (va <? sz (pr s)) then vm (kalloc id) else ret 0) in
   if negb (pa =? 0) then lazy_page kend id pa va
   else
     let* pa := (if above_stack (pr s) va && (va <? shm (pr s)) then vm (kalloc id) else ret 0) in
     if negb (pa =? 0) then lazy_page kend id pa va else modp (with_killed 1)) s.

Lemma lazy_alloc_run (s : st) P va : uspace kend (kst_ s) P -> pagetable (pr s) = root P -> sz (pr s) <= TRAPFRAME -> 0 <= va < sz (pr s) -> above_stack (pr s) va = true -> page_free (kst_ s) P (PGROUNDDOWN va) ->
  exists s2, lazy_alloc va s = Ret tt s2 /\ exists k P', (s2 = set_kst k s /\ paged kend (kst_ s) P (PGROUNDDOWN va) RWXUV (fun _ => 0) k P') \/ (s2 = set_pr (with_killed 1 (pr s)) (set_kst k s) /\ kept kend (kst_ s) P k P' /\ scarce kend k).
Proof using Hkend Hid others.
  intros Hus Hpt Hsz Hva Hab Hno. unfold lazy_alloc. rewrite Hab, (proj2 (Z.ltb_lt va (sz (pr s)))) by lia. cbn [andb].
  destruct (kalloc_page kend id Hkend Hid (kst_ s) P Hus) as (r & k1 & Hkr & Hcase). rewrite (bind_Ret _ _ _ _ _ (vm_run _ s _ _ Hkr)). destruct Hcase as [(-> & -> & Hfull)|(Hnz & Hfp & Hset & Hm)].
  - cbn [Z.eqb negb]. replace (set_kst (kst_ s) s) with s by (by destruct s).
    assert (R2 : (if va <? shm (pr s) then vm (kalloc id) else ret 0) s = Ret 0 s) by (destruct (va <? shm (pr s)); [rewrite (vm_run _ s _ _ Hkr); by destruct s|done]). rewrite (bind_Ret _ _ _ _ _ R2). cbn [Z.eqb negb].
    eexists. split; [reflexivity|]. exists (kst_ s), P. right. split_and!; [by destruct s|by apply kept_refl|by apply full_scarce].
  - rewrite (proj2 (Z.eqb_neq r 0)) by done. cbn [negb]. destruct (lazy_page_run s P r k1 va) as (k & P' & [[R Hpg]|[R Hkp]]); try done; [lia|..]; (eexists; split; [exact R|]); exists k, P'; [by left|by right].
Qed.

(** A fault above the stack on an address that has no page *)
Lemma pagefault_above c (s : st) P : let va := stval c in uspace kend (kst_ s) P -> pagetable (pr s) = root P -> sz (pr s) <= TRAPFRAME -> 0 <= va < sz (pr s) -> above_stack (pr s) va = true -> page_free (kst_ s) P (PGROUNDDOWN va) ->
  forall r s1, mmap_handler kend id va (scause c) s = Ret r s1 -> pr s1 = pr s -> pagefault kend id c s = if r =? 0 then Ret tt s1 else lazy_alloc va s1.
Proof using Hkend Hid others.
  cbv zeta. intros Hus Hpt Hsz Hva Hab Hno r s1 R Epr. set (va := stval c) in *. pose proof trapframe_maxva as Ht.
  assert (Ev : has (lk (ram (kst_ s)) P va) PTE_V = false) by (apply Hno; rewrite PGROUNDDOWN_spec; unfold PGSIZE in *; dlia).
  unfold pagefault. fold va. rewrite (bind_Ret _ _ s (pr s) s) by done. rewrite (bind_Ret _ _ s (-1) s) by (apply (not_cow s P); [done|done|unfold PGSIZE in *; lia|by rewrite Ev]). cbn [Z.eqb].
  unfold lazy_alloc. rewrite Epr, Hab, (proj2 (Z.ltb_lt va (sz (pr s)))) by lia. cbn [andb]. rewrite (bind_Ret _ _ s (r =? 0) s1) by (by rewrite (bind_Ret _ _ _ _ _ R)). by destruct (r =? 0).
Qed.

(** A fault on an address that has no page and no file: a page of zeros, or the end of the
    program when memory is out. *)
Lemma lazy_fault_run c (s : st) P : let va := stval c in
  Z.land (sstatus (hr s)) SSTATUS_SPP = 0 -> fault c -> killed (pr s) = 0 -> uspace kend (kst_ s) P -> pagetable (pr s) = root P -> sz (pr s) <= TRAPFRAME -> 0 <= va < sz (pr s) -> above_stack (pr s) va = true ->
  page_free (kst_ s) P (PGROUNDDOWN va) -> find_vma (vma (pr s)) (s32 va) = None ->
  exists r s' P', run c s = Ret r s' /\
    ((r = Resume (MAKE_SATP (root P)) /\ resumed s s' /\ paged kend (kst_ s) P (PGROUNDDOWN va) RWXUV (fun _ => 0) (kst_ s') P') \/ (r = Exited /\ kept kend (kst_ s) P (kst_ s') P' /\ scarce kend (kst_ s'))).
Proof using Hkend Hid others.
  cbv zeta. intros Hs Hc Hk Hus Hpt Hsz Hva Hab Hno Hf. rewrite usertrap_fault by done. set (s1 := entered kernelvec s). set (va := stval c) in *. pose proof trapframe_maxva as Ht.
  assert (Em : mmap_handler kend id va (scause c) s1 = Ret (-1) s1) by (unfold mmap_handler; rewrite (bind_Ret _ _ s1 (pr s1) s1) by done; change (vma (pr s1)) with (vma (pr s)); by rewrite Hf).
  destruct (lazy_alloc_run s1 P va) as (s2 & R2 & k & P' & Hcase); try done. pose proof (pagefault_above c s1 P Hus Hpt Hsz Hva Hab Hno (-1) s1 Em eq_refl) as E. cbn [Z.eqb] in E. fold va in E. rewrite R2 in E. clear R2. rename E into R2.
  destruct Hcase as [[-> Hpg]|[-> Hkp]]; rewrite (bind_Ret _ _ _ _ _ R2).
  - rewrite trap_end_alive by done. eexists _, _, P'. split; [reflexivity|]. left. split; [cbn; by rewrite Hpt|]. split; [by apply fault_resumes|done].
  - rewrite trap_end_dead by done. eexists _, _, P'. split; [reflexivity|]. by right.
Qed.

(** A store to a page that is shared since [fork]: the page becomes the program's own. *)
Definition owned (s : kst) (P : pt) (va : Z) : Prop :=
  let e := lk (ram s) P va in has e PTE_V = true /\ has e PTE_W = true /\ has e PTE_U = true /\ has e PTE_F = false /\ cnt s (PTE2PA e / PGSIZE) = 1.

Lemma cowed_owned k P va k' r : uspace kend k P -> va mod PGSIZE = 0 -> 0 <= va < TRAPFRAME -> has (lk (ram k) P va) PTE_V = true -> has (lk (ram k) P va) PTE_U = true -> cowed kend k P va k' r -> owned k' P va.
Proof using Hkend Hid others.
  intros Hus Hm Hva Hv Hu [_ Hlk Hpg Hone _ _ _ _]. pose proof trapframe_maxva as Ht. pose proof (page_small kend Hkend r Hpg) as Hps. pose proof (PTE_FLAGS_range (lk (ram k) P va)) as Hfr. pose proof (unshare_range _ Hfr) as Hur.
  unfold owned. rewrite Hlk by (unfold PGSIZE in *; lia). rewrite Z.eqb_refl. rewrite mk_pte_pa by (try apply Hpg; done).
  assert (Hf : forall j, 0 <= j < 10 -> has (mk_pte r (unshare (PTE_FLAGS (lk (ram k) P va)))) (2 ^ j) = has (unshare (PTE_FLAGS (lk (ram k) P va))) (2 ^ j)).
  { intros j Hj. apply mk_pte_has; [lia|]. pose proof (Z.pow_lt_mono_r 2 j 10). pose proof (Z.pow_pos_nonneg 2 j). lia. }
  split_and!; [|..|done].
  - change PTE_V with (2 ^ 0). rewrite Hf, unshare_has by lia. change (2 ^ 0) with PTE_V. by rewrite PTE_FLAGS_has, Hv by (unfold PTE_V; lia).
  - change PTE_W with (2 ^ 2). rewrite Hf, unshare_has by lia. by rewrite orb_true_r.
  - change PTE_U with (2 ^ 4). rewrite Hf, unshare_has by lia. change (2 ^ 4) with PTE_U. by rewrite PTE_FLAGS_has, Hu by (unfold PTE_U; lia).
  - change PTE_F with (2 ^ 8). rewrite Hf, unshare_has by lia. by rewrite andb_false_r.
Qed.

Lemma cow_fault_run c (s : st) P : let va := stval c in let e := lk (ram (kst_ s)) P va in
  Z.land (sstatus (hr s)) SSTATUS_SPP = 0 -> fault c -> killed (pr s) = 0 -> uspace kend (kst_ s) P -> cow_ok (kst_ s) P -> pagetable (pr s) = root P -> sz (pr s) <= TRAPFRAME -> 0 <= va < sz (pr s) ->
  has e PTE_V = true -> has e PTE_U = true -> has e PTE_F = true ->
  exists r s', run c s = Ret r s' /\
    ((r = Resume (MAKE_SATP (root P)) /\ resumed s s' /\ uspace kend (kst_ s') P /\ cow_ok (kst_ s') P /\ keeps kend (kst_ s) P (kst_ s') /\ owned (kst_ s') P va /\ forall va', 0 <= va' -> umem (ram (kst_ s')) P va' = umem (ram (kst_ s)) P va') \/
     (r = Exited /\ kst_ s' = kst_ s /\ forall p, page_ok kend PHYSTOP p -> 0 < cnt (kst_ s) (p / PGSIZE))).
Proof using Hkend Hid others.
  cbv zeta. intros Hs Hc Hk Hus Hcow Hpt Hsz Hva Hv Hu Hf. rewrite usertrap_fault by done. set (s1 := entered kernelvec s). set (va := stval c) in *. pose proof trapframe_maxva as Ht. set (a := PGROUNDDOWN va).
  destruct (page_base va ltac:(lia)) as (Ham & Har & Hvp). fold a in Ham, Har, Hvp.
  assert (El : lk (ram (kst_ s)) P va = lk (ram (kst_ s)) P a) by (apply lk_vpn; unfold PGSIZE in *; (lia || done)). rewrite El in Hv, Hu, Hf.
  destruct (cowalloc_spec kend Hkend id (kst_ s) P a Hid Hus Ham ltac:(lia) Hv Hu) as (r & k & R & Hcase).
  assert (Epf : pagefault kend id c s1 = Ret tt (if r =? 0 then set_pr (with_killed 1 (pr s1)) (set_kst k s1) else set_kst k s1)).
  { unfold pagefault. fold va. rewrite (bind_Ret _ _ s1 (pr s1) s1) by done. assert (R1 : cowpage id (pagetable (pr s1)) va (kst_ s1) = Ret 0 (kst_ s1)).
    { change (pagetable (pr s1)) with (pagetable (pr s)). change (kst_ s1) with (kst_ s). rewrite Hpt, (cowpage_spec kend id Hkend (kst_ s) P va) by (try apply (us_vm _ _ _ Hus); unfold PGSIZE in *; lia). by rewrite El, Hv, Hf. }
    rewrite (bind_Ret _ _ _ _ _ (vm_run _ s1 _ _ R1)). replace (set_kst (kst_ s1) s1) with s1 by (by destruct s1). cbn [Z.eqb]. change (sz (pr s1)) with (sz (pr s)). rewrite (proj2 (Z.leb_gt (sz (pr s)) va)) by lia.
    change (pagetable (pr s1)) with (pagetable (pr s)). fold a. rewrite Hpt. rewrite (bind_Ret _ _ s1 (r =? 0) (set_kst k s1)) by (by rewrite (bind_Ret _ _ _ _ _ (vm_run _ s1 _ _ R))). by destruct (r =? 0). }
  rewrite (bind_Ret _ _ _ _ _ Epf). destruct Hcase as [(-> & -> & Hfull)|(Hnz & Hcw)].
  - cbn [Z.eqb]. rewrite trap_end_dead by done. eexists _, _. split; [reflexivity|]. right. done.
  - rewrite (proj2 (Z.eqb_neq r 0)) by done. rewrite trap_end_alive by done. eexists _, _. split; [reflexivity|]. left. destruct (cowed_effect kend Hkend (kst_ s) P a k r Hus Ham ltac:(lia) Hv Hu Hcw Hcow) as (Hc' & Hkp & _ & Hum).
    split_and!; [cbn; by rewrite Hpt|by apply fault_resumes|apply Hcw|done|done| |done]. change (owned k P va). unfold owned. rewrite (lk_vpn (ram k) P va a); [|unfold PGSIZE in *; lia|unfold PGSIZE in *; lia|exact Hvp]. apply (cowed_owned (kst_ s) P a k r); (lia || done).
Qed.

(** ** A kernel panic *)

Lemma mappages_present k P a r perm : pt_inv kend (ram k) P -> 0 <= a < MAXVA -> a mod PGSIZE = 0 -> has (lk (ram k) P a) PTE_V = true -> mappages id (root P) a PGSIZE r perm k = Panic "remap".
Proof using Hkend Hid others.
  intros Hpt Ha Hm Hv. destruct (pte_addr P a) as [x|] eqn:Ea; [|unfold lk in Hv; by rewrite Ea in Hv]. unfold mappages. assert (PGROUNDDOWN a = a) as -> by (rewrite PGROUNDDOWN_spec; lia).
  assert (E : exists n, mappages_fuel a (PGROUNDDOWN (u64 (a + PGSIZE - 1))) = Datatypes.S n) by (unfold mappages_fuel; destruct (_ <=? _); eauto). destruct E as (n & ->). cbn [mappages_loop].
  rewrite (bind_Ret _ _ _ _ _ (walk_exists kend id Hkend k P a x true Hpt Ha Ea)). rewrite (proj2 (Z.eqb_neq x 0)) by (by eapply pte_addr_nonzero). rewrite (bind_Ret _ _ _ _ _ (rd_leaf kend Hkend k P a x Hpt Ea)). by rewrite Hv.
Qed.

(** A fault on a page that is mapped, for what its flags do not allow: the handler maps
    a page over it, and [mappages] panics. *)
Lemma present_fault_run c (s : st) P : let va := stval c in let e := lk (ram (kst_ s)) P va in
  Z.land (sstatus (hr s)) SSTATUS_SPP = 0 -> fault c -> uspace kend (kst_ s) P -> pagetable (pr s) = root P -> sz (pr s) <= TRAPFRAME -> 0 <= va < sz (pr s) -> above_stack (pr s) va = true ->
  has e PTE_V = true -> has e PTE_F = false -> find_vma (vma (pr s)) (s32 va) = None -> (exists p, page_ok kend PHYSTOP p /\ cnt (kst_ s) (p / PGSIZE) = 0) ->
  run c s = Panic "remap".
Proof using Hkend Hid others.
  cbv zeta. intros Hs Hc Hus Hpt Hsz Hva Hab Hv HF Hf (p & Hp & Hp0). rewrite usertrap_fault by done. set (s1 := entered kernelvec s). set (va := stval c) in *. pose proof trapframe_maxva as Ht. set (a := PGROUNDDOWN va).
  destruct (page_base va ltac:(lia)) as (Ham & Har & Hvp). fold a in Ham, Har, Hvp.
  assert (HM : va < MAXVA) by (unfold PGSIZE in *; lia). assert (El : lk (ram (kst_ s)) P va = lk (ram (kst_ s)) P a) by (apply lk_vpn; (lia || done)).
  unfold bind at 1. enough (E : pagefault kend id c s1 = Panic "remap") by (by rewrite E).
  unfold pagefault. fold va. rewrite (bind_Ret _ _ s1 (pr s1) s1) by done. rewrite (bind_Ret _ _ s1 (-1) s1) by (apply (not_cow s1 P); [done|done|lia|cbn; by rewrite Hv, HF]). cbn [Z.eqb].
  change (above_stack (pr s1) va) with (above_stack (pr s) va). change (sz (pr s1)) with (sz (pr s)). rewrite Hab, (proj2 (Z.ltb_lt va (sz (pr s)))) by lia. cbn [andb].
  rewrite (bind_Ret _ _ s1 false s1) by (unfold mmap_handler; rewrite (bind_Ret _ _ s1 (-1) s1); [done|]; rewrite (bind_Ret _ _ s1 (pr s1) s1) by done; change (vma (pr s1)) with (vma (pr s)); by rewrite Hf). cbv iota.
  pose proof (us_vm _ _ _ Hus) as ([ls Hls] & _). destruct (kalloc_any kend (kst_ s) ls id Hkend Hls Hid) as (r & k1 & Hkr & [(_ & _ & Hfull)|(Hnz & Hfp)]); [specialize (Hfull p Hp); lia|].
  rewrite (bind_Ret _ _ _ _ _ (vm_run _ s1 _ _ Hkr)), (proj2 (Z.eqb_neq r 0)) by done. cbn [negb]. destruct (fresh_zeroed kend Hkend (kst_ s) P r k1 Hus Hfp) as (Hset & Hus2 & Hlk2 & _). set (k2 := set_ram _ k1) in *.
  unfold lazy_page. rewrite (bind_Ret _ _ _ (pr s1) (set_kst k1 s1)) by done. rewrite (bind_Ret _ _ _ _ _ (vm_run _ (set_kst k1 s1) _ _ Hset)). unfold bind at 1, vm, zoom. fold a. change (pagetable (pr s1)) with (pagetable (pr s)). rewrite Hpt.
  change (kst_ (set_kst k2 (set_kst k1 s1))) with k2. rewrite mappages_present; [done|apply (us_vm _ _ _ Hus2)|lia|done|by rewrite Hlk2, <- El].
Qed.

(** ** Pages of files *)

Context (x : superblock).
Hypothesis Hx : geom x.

Lemma fsm_run {A} (m : M (fs (S := S) (U := U)) A) (s : st) a t : m (set_kmem (ram (kst_ s)) (fs_ s)) = Ret a t -> fsm m s = Ret a (set_fs t (set_kst (set_ram (kmem t) (kst_ s)) s)).
Proof using. intros E. unfold fsm, zoom. by rewrite E. Qed.

(** The state of the trap with other memory and a file system with another disk, whose
    inode [ip] is [xi]. *)
Definition with_fs (s : st) (k : kst) (ip : nat) (xi : inode) (d : S) : st := set_fs (set_kmem (ram k) (put_inode (fs_ s) ip xi d)) (set_kst k s).

Lemma read_page (s : st) k ip xi V D L cap pa off : icache (fs_ s) !! ip = Some xi -> cached xi -> Fsread.file x V xi -> (forall n, mem_ok (V n)) -> sees (dsk (fs_ s)) V D [] L cap -> (size L < 28)%nat ->
  0 <= pa -> pa + PGSIZE < 2 ^ 64 -> 0 <= off -> off + PGSIZE < 2 ^ 32 -> mem_ok (ram k) ->
  exists s1 s2 d m, fsm (ilock (Some ip)) (set_kst k s) = Ret tt s1 /\ fsm (readi ip 0 pa off PGSIZE) s1 = Ret (readable xi off PGSIZE) s2 /\
    fsm (iunlock (Some ip)) s2 = Ret tt (with_fs s (set_ram m k) ip xi d) /\ sees d V D [] L cap /\ mem_ok m /\
    forall a, m a = if decide (pa <= a < pa + readable xi off PGSIZE) then cont V (i_addrs xi) (off + (a - pa)) else ram k a.
Proof using Hid Hx.
  intros Hip Hca HF HV Hs HL Hpa Hpe Ho Hoe Hm. set (t := set_kmem (ram k) (fs_ s)). pose proof (ilock_run t ip xi Hip Hca) as R1. set (xl := with_lock true xi) in *. set (t1 := put_inode t ip xl (dsk t)) in *.
  assert (Hlt : (ip < length (icache (fs_ s)))%nat) by (by eapply lookup_lt_Some). assert (Hip1 : icache t1 !! ip = Some xl) by (cbn; by apply list_lookup_insert_eq).
  assert (HF1 : Fsread.file x V xl) by (destruct HF; by split). assert (Er : readable xl off PGSIZE = readable xi off PGSIZE) by done.
  assert (R2 : exists m' d', readi ip 0 pa off PGSIZE t1 = Ret (readable xl off PGSIZE) (put_mem t1 (user t1) m' d') /\ sees d' V D [] L cap /\ forall a, m' a = if decide (pa <= a < pa + readable xl off PGSIZE) then cont V (i_addrs xl) (off + (a - pa)) else kmem t1 a).
  { destruct (Z.le_gt_cases off (i_size xi)) as [Hle|Hgt]; [apply (readi_kern x Hx t1 ip xl V D L cap pa off PGSIZE); (done || (unfold PGSIZE in *; lia))|].
    exists (kmem t1), (dsk t1). assert (E0 : readable xl off PGSIZE = 0) by (unfold readable; rewrite (proj2 (Z.ltb_lt (i_size xl) off)) by done; done). rewrite E0. split_and!; [|done|intros a; by rewrite decide_False by lia].
    unfold readi. rewrite (bind_Ret _ _ t1 xl t1) by (by apply geti_run). rewrite (proj2 (Z.ltb_lt (i_size xl) off)) by done. cbn [orb]. by destruct t1. }
  destruct R2 as (m' & d' & R2 & Hs' & Hm'). rewrite Er in *. set (t2 := put_mem t1 (user t1) m' d') in *. assert (Hip2 : icache t2 !! ip = Some xl) by done.
  pose proof (iunlock_run t2 ip xl Hip2 eq_refl (ca_ref _ Hca)) as R3. assert (Ex : with_lock false xl = xi) by (destruct xi; cbn; f_equal; by rewrite <- (ca_free _ Hca)).
  eexists _, _, d', m'. split; [apply (fsm_run _ (set_kst k s)); exact R1|]. split; [apply fsm_run; exact R2|]. split; [erewrite fsm_run; [|exact R3]|split_and!; [done| |done]].
  - unfold with_fs, put_inode. cbn. rewrite Ex. by rewrite list_insert_insert_eq.
  - intros a. rewrite Hm'. destruct (decide _); [by apply cont_byte|apply Hm].
Qed.

(** The program may do this to the file. *)
Definition permitted (c : Z) (y : File.file) : bool := negb ((c =? 13) && (f_readable y =? 0)) && negb ((c =? 15) && (f_writable y =? 0)).
(** The bytes of a page at [off] of a file, with zeros after its end *)
Definition file_page (V : Z -> block) (xi : inode) (off i : Z) : Z := if off + i <? i_size xi then cont V (i_addrs xi) (off + i) else 0.

(** The process, its files and the file system are as they were. *)
Record undisturbed (s s' : st) (V D : Z -> block) (L : gset Z) (cap : Z) : Prop := {
  un_pr : pr s' = pr s; un_hr : hr s' = hr s; un_ftable : ftable s' = ftable s; un_icache : icache (fs_ s') = icache (fs_ s); un_disk : sees (dsk (fs_ s')) V D [] L cap }.

Lemma mmap_run (s : st) P va c v y xi V D L cap : let a := PGROUNDDOWN va in let off := page_offset v va in
  uspace kend (kst_ s) P -> pagetable (pr s) = root P -> 0 <= va < 2 ^ 31 -> page_free (kst_ s) P a -> find_vma (vma (pr s)) va = Some v -> 0 <= v_addr v -> 0 <= v_offset v -> off + PGSIZE < 2 ^ 31 ->
  ftable s !! v_vfile v = Some y -> icache (fs_ s) !! f_ip y = Some xi -> cached xi -> Fsread.file x V xi -> (forall n, mem_ok (V n)) -> sees (dsk (fs_ s)) V D [] L cap -> (size L < 28)%nat ->
  exists r s' P', mmap_handler kend id va c s = Ret r s' /\ undisturbed s s' V D L cap /\
    ((r = 0 /\ permitted c y = true /\ off < i_size xi /\ paged kend (kst_ s) P a (Z.lor (prot_flags (v_prot v)) PTE_V) (file_page V xi off) (kst_ s') P') \/ (r = -1 /\ kept kend (kst_ s) P (kst_ s') P' /\ (permitted c y = false \/ i_size xi <= off \/ scarce kend (kst_ s')))).
Proof using Hkend Hid Hx.
  clear others. cbv zeta. intros Hus Hpt Hva Hno Hf Hv0 Ho0 Hoe Hy Hip Hca HF HV Hs HL. set (a := PGROUNDDOWN va) in *. set (off := page_offset v va) in *. pose proof (find_vma_in _ _ _ Hf Hva) as Hle.
  destruct (page_base va ltac:(lia)) as (Ham & Har & _). fold a in Ham, Har. assert (HT : 2 ^ 31 < TRAPFRAME) by done.
  destruct (page_offset_run v va ltac:(lia) ltac:(lia) Ho0 Hoe) as [Eo Hoff]. fold off in Eo, Hoff.
  assert (U0 : undisturbed s s V D L cap) by done. assert (K0 : kept kend (kst_ s) P (kst_ s) P) by (by apply kept_refl).
  unfold mmap_handler. rewrite (s32_small va) by lia. rewrite (bind_Ret _ _ s (pr s) s) by done. rewrite Hf. rewrite (bind_Ret _ _ s y s) by (rewrite (bind_Ret _ _ s (ftable s) s) by done; by rewrite Hy).
  destruct ((c =? 13) && (f_readable y =? 0)) eqn:E13; [exists (-1), s, P; split_and!; [done|done|right; split_and!; [done|done|left; unfold permitted; by rewrite E13]]|]. destruct ((c =? 15) && (f_writable y =? 0)) eqn:E15; [exists (-1), s, P; split_and!; [done|done|right; split_and!; [done|done|left; unfold permitted; by rewrite E15, andb_false_r]]|].
  destruct (kalloc_page kend id Hkend Hid (kst_ s) P Hus) as (r & k1 & Hkr & Hcase). rewrite (bind_Ret _ _ _ _ _ (vm_run _ s _ _ Hkr)). destruct Hcase as [(-> & -> & Hfull)|(Hnz & Hfp & Hset & Hm)].
  { exists (-1), s, P. split_and!; [by destruct s|done|right]. split_and!; [done|done|right; right; by apply full_scarce]. }
  rewrite (proj2 (Z.eqb_neq r 0)) by done. rewrite (bind_Ret _ _ _ _ _ (vm_run _ (set_kst k1 s) _ _ Hset)). set (m := memset (ram k1) r 0 PGSIZE) in *. replace (set_kst (set_ram m k1) (set_kst k1 s)) with (set_kst (set_ram m k1) s) by done.
  pose proof (fp_page _ _ _ _ Hfp) as Hr. pose proof (page_small kend Hkend r Hr) as Hrs. assert (Hpos : 0 <= r) by (destruct Hr as [_ [? _]]; destruct Hkend; unfold KERNBASE in *; lia).
  destruct (read_page s (set_ram m k1) (f_ip y) xi V D L cap r off Hip Hca HF HV Hs HL) as (s1 & s2 & d & m' & R1 & R2 & R3 & Hs' & Hm' & Hb); [done|unfold PGSIZE in *; lia|done|unfold PGSIZE in *; lia|done|].
  rewrite (bind_Ret _ _ _ _ _ R1). rewrite Eo, (u32_small off) by (unfold PGSIZE in *; lia). rewrite (bind_Ret _ _ _ _ _ R2). set (s3 := with_fs s (set_ram m' (set_ram m k1)) (f_ip y) xi d) in *.
  change (ram (set_ram m k1)) with m in Hb. assert (U3 : forall k, undisturbed s (set_kst k s3) V D L cap) by (intros k; split; [done|done|done|cbn; by apply list_insert_id|done]).
  assert (Hsp : forall z, m z = if (r <=? z) && (z <? r + PGSIZE) then 0 else ram k1 z) by (intros z; apply memset_spec; unfold PGSIZE; lia).
  assert (Hrd : 0 <= readable xi off PGSIZE <= PGSIZE) by (unfold readable; destruct (Z.ltb_spec (i_size xi) off); unfold PGSIZE; lia).
  assert (Hout : forall z, ~ (r <= z < r + PGSIZE) -> m' z = ram k1 z).
  { intros z Hz. rewrite Hb, decide_False, Hsp by lia. destruct (Z.leb_spec r z), (Z.ltb_spec z (r + PGSIZE)); cbn [andb]; (lia || done). }
  destruct (Z.eqb_spec (readable xi off PGSIZE) 0) as [E0|E0]; rewrite (bind_Ret _ _ _ _ _ R3).
  { destruct (free_filled kend id Hkend Hid (kst_ s) P r k1 m' Hus Hfp Hm' Hout) as (k4 & R4 & Hk). rewrite (bind_Ret _ _ _ _ _ (vm_run _ s3 _ _ R4)). exists (-1), (set_kst k4 s3), P. split_and!; [done|done|right]. split_and!; [done|done|right; left]. unfold readable in E0. destruct (Z.ltb_spec (i_size xi) off); unfold PGSIZE in *; lia. }
  destruct (prot_flags_ok (v_prot v)) as (Hp1 & Hp2 & Hp3 & _). fold a. rewrite (u64_small a) by (unfold PGSIZE in *; lia).
  destruct (map_filled kend id Hkend Hid (kst_ s) P r k1 m' a (prot_flags (v_prot v)) Hus Hfp Hm' Hout Ham ltac:(lia) Hno Hp1 Hp3) as (q & k5 & P5 & R5 & Hq). rewrite Hpt. rewrite (bind_Ret _ _ _ _ _ (vm_run _ s3 _ _ R5)).
  destruct Hq as [[-> Hpg]|(-> & k6 & R6 & Hk & Hsc)]; cbn [Z.eqb negb].
  - exists 0, (set_kst k5 s3), P5. split_and!; [done|done|left]. split_and!; [done|unfold permitted; by rewrite E13, E15| |].
    + unfold readable in E0. destruct (Z.ltb_spec (i_size xi) off); [done|]. lia.
    + destruct Hpg as [G1 G2 G3 G4 (q & Gq & Gq0 & Gq1 & Gqi & Gqb) G5]. split; [done|done|done|done| |done]. exists q. split_and!; [done|done|done|done|]. intros i Hi. rewrite Gqb by done. rewrite Hb. unfold file_page. unfold readable in *.
      destruct (Z.ltb_spec (i_size xi) off); [done|]. destruct (Z.ltb_spec (off + i) (i_size xi)).
      * rewrite decide_True by lia. f_equal. lia.
      * rewrite decide_False by lia. rewrite Hsp. by rewrite (proj2 (Z.leb_le _ _)), (proj2 (Z.ltb_lt _ _)) by lia.
  - rewrite (bind_Ret _ _ _ _ _ (vm_run _ (set_kst k5 s3) _ _ R6)). exists (-1), (set_kst k6 s3), P5. split_and!; [done|exact (U3 k6)|right]. split_and!; [done|done|by right; right].
Qed.

(** A page of a file that is there already, for an access its flags do not allow: the
    handler reads the file once more, and [mappages] panics. *)
Lemma present_mmap_run c (s : st) P v y xi V D L cap : let va := stval c in let e := lk (ram (kst_ s)) P va in let off := v_offset v + (PGROUNDDOWN va - v_addr v) in
  Z.land (sstatus (hr s)) SSTATUS_SPP = 0 -> fault c -> uspace kend (kst_ s) P -> pagetable (pr s) = root P -> 0 <= va < sz (pr s) -> va < 2 ^ 31 -> above_stack (pr s) va = true ->
  has e PTE_V = true -> has e PTE_F = false -> find_vma (vma (pr s)) va = Some v -> 0 <= v_addr v -> v_addr v mod PGSIZE = 0 -> 0 <= v_offset v -> off + PGSIZE < 2 ^ 31 -> off < i_size xi ->
  ftable s !! v_vfile v = Some y -> permitted (scause c) y = true -> icache (fs_ s) !! f_ip y = Some xi -> cached xi -> Fsread.file x V xi -> (forall n, mem_ok (V n)) -> sees (dsk (fs_ s)) V D [] L cap -> (size L < 28)%nat ->
  (exists p, page_ok kend PHYSTOP p /\ cnt (kst_ s) (p / PGSIZE) = 0) -> run c s = Panic "remap".
Proof using Hkend Hid others Hx.
  cbv zeta. intros Hs Hc Hus Hpt Hva Hv31 Hab Hv HFl Hf Hv0 Hvm Ho0 Hoe Hos Hy Hpm Hip Hca HF HV Hse HL (p & Hp & Hp0). rewrite usertrap_fault by done. set (s1 := entered kernelvec s). set (va := stval c) in *.
  set (a := PGROUNDDOWN va) in *. set (off := v_offset v + (a - v_addr v)) in *. pose proof (find_vma_in _ _ _ Hf ltac:(lia)) as Hle. assert (HT : 2 ^ 31 < TRAPFRAME) by done. pose proof trapframe_maxva as Ht.
  destruct (page_base va ltac:(lia)) as (Ham & Har & Hvp). fold a in Ham, Har, Hvp.
  assert (HM : va < MAXVA) by (unfold PGSIZE in *; lia). assert (El : lk (ram (kst_ s)) P va = lk (ram (kst_ s)) P a) by (apply lk_vpn; (lia || done)).
  pose proof (page_offset_aligned v va Hvm) as Eoff. fold a off in Eoff. destruct (page_offset_run v va ltac:(lia) ltac:(lia) Ho0 ltac:(lia)) as [Eo Hoff]. rewrite Eoff in Eo, Hoff.
  unfold bind at 1. enough (E : pagefault kend id c s1 = Panic "remap") by (by rewrite E).
  unfold pagefault. fold va. rewrite (bind_Ret _ _ s1 (pr s1) s1) by done. rewrite (bind_Ret _ _ s1 (-1) s1) by (apply (not_cow s1 P); [done|done|lia|cbn; by rewrite Hv, HFl]). cbn [Z.eqb].
  change (above_stack (pr s1) va) with (above_stack (pr s) va). change (sz (pr s1)) with (sz (pr s)). rewrite Hab, (proj2 (Z.ltb_lt va (sz (pr s)))) by lia. cbn [andb].
  unfold bind at 1. enough (E : mmap_handler kend id va (scause c) s1 = Panic "remap") by (unfold bind at 1; by rewrite E).
  unfold mmap_handler. rewrite (s32_small va) by lia. rewrite (bind_Ret _ _ s1 (pr s1) s1) by done. change (vma (pr s1)) with (vma (pr s)). rewrite Hf. rewrite (bind_Ret _ _ s1 y s1) by (rewrite (bind_Ret _ _ s1 (ftable s) s1) by done; by rewrite Hy).
  unfold permitted in Hpm. apply andb_true_iff in Hpm as [Hp1 Hp2]. apply negb_true_iff in Hp1, Hp2. rewrite Hp1, Hp2.
  pose proof (us_vm _ _ _ Hus) as ([ls Hls] & _). destruct (kalloc_any kend (kst_ s) ls id Hkend Hls Hid) as (r & k1 & Hkr & [(_ & _ & Hfull)|(Hnz & Hfp)]); [specialize (Hfull p Hp); lia|].
  rewrite (bind_Ret _ _ _ _ _ (vm_run _ s1 _ _ Hkr)), (proj2 (Z.eqb_neq r 0)) by done. destruct (fresh_zeroed kend Hkend (kst_ s) P r k1 Hus Hfp) as (Hset & _). set (m := memset (ram k1) r 0 PGSIZE) in *.
  rewrite (bind_Ret _ _ _ _ _ (vm_run _ (set_kst k1 s1) _ _ Hset)). replace (set_kst (set_ram m k1) (set_kst k1 s1)) with (set_kst (set_ram m k1) s1) by done.
  pose proof (fp_page _ _ _ _ Hfp) as Hr. pose proof (page_small kend Hkend r Hr) as Hrs. assert (Hpos : 0 <= r) by (destruct Hr as [_ [? _]]; destruct Hkend; unfold KERNBASE in *; lia).
  assert (Hm : mem_ok m) by (pose proof (fp_inv _ _ _ _ Hfp) as [ls1 Hls1]; apply memset_ok, Hls1).
  destruct (read_page s1 (set_ram m k1) (f_ip y) xi V D L cap r off Hip Hca HF HV Hse HL) as (t1 & t2 & d & m' & R2 & R3 & R4 & Hs' & Hm' & Hb); [done|unfold PGSIZE in *; lia|done|unfold PGSIZE in *; lia|done|].
  rewrite (bind_Ret _ _ _ _ _ R2). rewrite Eo, (u32_small off) by (unfold PGSIZE in *; lia). rewrite (bind_Ret _ _ _ _ _ R3). rewrite (proj2 (Z.eqb_neq (readable xi off PGSIZE) 0)) by (unfold readable; rewrite (proj2 (Z.ltb_ge _ _)) by lia; unfold PGSIZE; lia).
  rewrite (bind_Ret _ _ _ _ _ R4). set (s3 := with_fs s1 (set_ram m' (set_ram m k1)) (f_ip y) xi d) in *. fold a. rewrite (u64_small a) by (unfold PGSIZE in *; lia). change (pagetable (pr s1)) with (pagetable (pr s)). rewrite Hpt.
  unfold bind at 1, vm, zoom. change (kst_ s3) with (set_ram m' k1). change (ram (set_ram m k1)) with m in Hb.
  assert (Hsp : forall z, m z = if (r <=? z) && (z <? r + PGSIZE) then 0 else ram k1 z) by (intros z; apply memset_spec; unfold PGSIZE; lia).
  destruct (fresh_written kend Hkend (kst_ s) P r k1 m' Hus Hfp Hm') as (Hus2 & Hlk2 & _).
  { intros z Hz. rewrite Hb, decide_False, Hsp by (unfold readable; destruct (_ <? _); lia). destruct (Z.leb_spec r z), (Z.ltb_spec z (r + PGSIZE)); cbn [andb]; (lia || done). }
  rewrite mappages_present; [done|apply (us_vm _ _ _ Hus2)|lia|done|by rewrite Hlk2, <- El].
Qed.

(** The program goes on where it was, with its registers and its files. *)
Record goes_on (s s' : st) (V D : Z -> block) (L : gset Z) (cap : Z) : Prop := {
  go_ready : user_ready uservec usertrap_ s';
  go_pc : sepc (hr s') = sepc (hr s);
  go_regs : forall r, user_reg r = true -> trapframe (pr s') r = trapframe (pr s) r;
  go_ftable : ftable s' = ftable s;
  go_icache : icache (fs_ s') = icache (fs_ s);
  go_disk : sees (dsk (fs_ s')) V D [] L cap }.

Lemma undisturbed_goes_on (s s1 : st) V D L cap : killed (pr s) = 0 -> undisturbed (entered kernelvec s) s1 V D L cap -> goes_on s (returned uservec usertrap_ s1) V D L cap.
Proof using.
  clear. intros Hk [E1 E2 E3 E4 E5]. split; [apply returned_ready; by rewrite E1|cbn; by rewrite E1| |done|done|done].
  intros r Hr. cbn [returned set_pr pr trapframe with_frame]. rewrite E1, E2. destruct r; done.
Qed.
Lemma undisturbed_kst (s s1 : st) k V D L cap : undisturbed s s1 V D L cap -> undisturbed s (set_kst k s1) V D L cap.
Proof using. intros [E1 E2 E3 E4 E5]. by split. Qed.
Lemma kept_free k P k1 P1 a : kept kend k P k1 P1 -> 0 <= a -> a + PGSIZE <= MAXVA -> page_free k P a -> page_free k1 P1 a.
Proof using. clear Hkend Hid Hx. intros Hk Ha He Hno va Hva. rewrite (kt_lk _ _ _ _ _ Hk) by lia. by apply Hno. Qed.

(** A fault in a mapped area, on an address that has no page: a page of the file, or, if
    the handler refuses, a page of zeros, or the end of the program when memory is out. *)
Lemma mmap_fault_run c (s : st) P v y xi V D L cap : let va := stval c in let a := PGROUNDDOWN va in let off := page_offset v va in
  Z.land (sstatus (hr s)) SSTATUS_SPP = 0 -> fault c -> killed (pr s) = 0 -> uspace kend (kst_ s) P -> pagetable (pr s) = root P -> sz (pr s) <= TRAPFRAME -> 0 <= va < sz (pr s) -> va < 2 ^ 31 -> above_stack (pr s) va = true ->
  page_free (kst_ s) P a -> find_vma (vma (pr s)) va = Some v -> 0 <= v_addr v -> 0 <= v_offset v -> off + PGSIZE < 2 ^ 31 ->
  ftable s !! v_vfile v = Some y -> icache (fs_ s) !! f_ip y = Some xi -> cached xi -> Fsread.file x V xi -> (forall n, mem_ok (V n)) -> sees (dsk (fs_ s)) V D [] L cap -> (size L < 28)%nat ->
  exists r s' k P1 P', run c s = Ret r s' /\ kept kend (kst_ s) P k P1 /\
    ((r = Resume (MAKE_SATP (root P)) /\ goes_on s s' V D L cap /\ permitted (scause c) y = true /\ off < i_size xi /\ paged kend (kst_ s) P a (Z.lor (prot_flags (v_prot v)) PTE_V) (file_page V xi off) (kst_ s') P') \/
     (r = Resume (MAKE_SATP (root P)) /\ goes_on s s' V D L cap /\ (permitted (scause c) y = false \/ i_size xi <= off \/ scarce kend (kst_ s')) /\ paged kend k P1 a RWXUV (fun _ => 0) (kst_ s') P') \/
     (r = Exited /\ scarce kend (kst_ s') /\ kept kend k P1 (kst_ s') P')).
Proof using Hkend Hid others Hx.
  cbv zeta. intros Hs Hc Hk Hus Hpt Hsz Hva Hv31 Hab Hno Hf Hv0 Ho0 Hoe Hy Hip Hca HF HV Hse HL. rewrite usertrap_fault by done. set (s1 := entered kernelvec s).
  destruct (mmap_run s1 P (stval c) (scause c) v y xi V D L cap) as (r & s2 & P2 & R & Hun & Hcase); try done; [lia|]. pose proof Hun as [Upr Uhr Uft _ _]. pose proof trapframe_maxva as Ht.
  pose proof (pagefault_above c s1 P Hus Hpt Hsz Hva Hab Hno r s2 R Upr) as Epf. destruct (page_base (stval c) ltac:(lia)) as (Ham & Har & _).
  assert (Hpt2 : forall k, pagetable (pr (set_kst k s2)) = root P) by (intros k; cbn; by rewrite Upr).
  destruct Hcase as [(-> & Hpm & Hlt & Hpg)|(-> & Hkp & Hwhy)]; cbn [Z.eqb] in Epf.
  - rewrite (bind_Ret _ _ _ _ _ Epf), trap_end_alive by (by rewrite Upr). eexists _, _, (kst_ s), P, P2. split; [reflexivity|]. split; [by apply kept_refl|]. left. split_and!; [by rewrite Upr, <- Hpt|by apply undisturbed_goes_on|done|done|done].
  - destruct (lazy_alloc_run s2 P2 (stval c)) as (s3 & R3 & k & P3 & Hl); [apply Hkp|rewrite (kt_root _ _ _ _ _ Hkp), Upr; exact Hpt|by rewrite Upr|by rewrite Upr|by rewrite Upr|eapply kept_free; [exact Hkp|lia|unfold PGSIZE in *; lia|exact Hno]|].
    rewrite R3 in Epf. rewrite (bind_Ret _ _ _ _ _ Epf). destruct Hl as [[-> Hpg]|(-> & Hkp3 & Hsc)].
    + rewrite trap_end_alive by (cbn; by rewrite Upr). eexists _, _, (kst_ s2), P2, P3. split; [reflexivity|]. split; [done|]. right. left. split_and!; [by rewrite Hpt2|by apply undisturbed_goes_on, undisturbed_kst| |done].
      destruct Hwhy as [?|[?|Hsc]]; [by left|by right; left|right; right]. by eapply scarce_paged.
    + rewrite trap_end_dead by done. eexists _, _, (kst_ s2), P2, P3. split; [reflexivity|]. split; [done|]. right. by right.
Qed.

End fault.

End Trapfault.
