(* ===== verification/Trapuser.v ===== *)
(** What a user program sees of its traps: page faults, files that are mapped, alarms,
    and a fault that stops the kernel. *)

From S2P Require Import Prelude Mem Kalloc Pgtbl Uvm Ucow Vmspec Umem Store Fs Fsalloc Fsmap Fsread Fsspec File Filespec Sysfile Trap Trapspec Trapfault.
Import Kalloc Pgtbl Uvm Ucow Vmspec Umem Store Fs Fsalloc Fsmap Fsread Trap Trapspec Trapfault.
Import File (f_readable, f_writable, f_ip).
Import Sysfile (v_used, v_addr, v_len, v_prot, v_vfile, v_offset, mk_vma).
Import Fsspec (ex_inode, ex_stale, ex_fs, ex_file, ex_geom, ex_sb, ex_vol, ex_vol_ok).
Import Filespec (cached).

Module Trapuser.

Section user.
Context {S : Type} {ST : Store S} {U : Type} {UM : UserMem U}.
Context (kend : Z) (id : nat) (kernelvec uservec usertrap_ : Z) (others : Z -> option (M (trap (S := S) (U := U)) Z)).
Abbreviation st := (trap (S := S) (U := U)).
Abbreviation run := (usertrap (S := S) (U := U) kend id kernelvec uservec usertrap_ others).

(** A page that [fork] shared, or one that was promised and is not there yet *)
Definition shared_page (s : st) (P : pt) (va : Z) : Prop := let e := lk (ram (kst_ s)) P va in has e PTE_V = true /\ has e PTE_U = true /\ has e PTE_F = true.
Definition promised_page (s : st) (P : pt) (va : Z) : Prop := page_free (kst_ s) P (PGROUNDDOWN va) /\ above_stack (pr s) va = true /\ find_vma (vma (pr s)) (s32 va) = None.
Definition same_page (va va' : Z) : bool := (PGROUNDDOWN va <=? va') && (va' <? PGROUNDDOWN va + PGSIZE).


(** C6: a page fault inside the program's memory is resolved: on a page shared since
    [fork] and on a page that [sbrk] promised, the program goes on at the same instruction
    with the same registers, the page is there and can be written, a promised page reads
    as zeros, and every other byte of memory is as before. Only when memory is out, with
    at most one free frame left, the program ends, and its memory has not changed. *)
Theorem page_fault_resolved c (s : st) P : let va := stval c in
  kend_ok kend -> (id < NCPU)%nat -> Z.land (sstatus (hr s)) SSTATUS_SPP = 0 -> fault c -> killed (pr s) = 0 -> uspace kend (kst_ s) P -> cow_ok (kst_ s) P -> pagetable (pr s) = root P -> sz (pr s) <= TRAPFRAME -> 0 <= va < sz (pr s) ->
  shared_page s P va \/ promised_page s P va ->
  exists r s' P', run c s = Ret r s' /\ uspace kend (kst_ s') P' /\ root P' = root P /\
    ((r = Resume (MAKE_SATP (root P)) /\ resumed uservec usertrap_ s s' /\ has (lk (ram (kst_ s')) P' va) PTE_W = true /\
      forall va', 0 <= va' -> umem (ram (kst_ s')) P' va' = if same_page va va' && negb (has (lk (ram (kst_ s)) P va) PTE_V) then Some 0 else umem (ram (kst_ s)) P va') \/
     (r = Exited /\ scarce kend (kst_ s') /\ forall va', 0 <= va' -> umem (ram (kst_ s')) P' va' = umem (ram (kst_ s)) P va')).
Proof using.
  cbv zeta. intros Hk Hid Hs Hc Hkl Hus Hcow Hpt Hsz Hva [(Hv & Hu & Hf)|(Hno & Hab & Hf)].
  - destruct (cow_fault_run kend id kernelvec uservec usertrap_ others Hk Hid c s P Hs Hc Hkl Hus Hcow Hpt Hsz Hva Hv Hu Hf) as (r & s' & R & [(-> & Hre & Hus' & _ & _ & (_ & Hw & _) & Hum)|(-> & E & Hfull)]); eexists _, s', P; (split; [exact R|]).
    + split_and!; [done|done|left]. split_and!; [done|done|done|]. intros va' Hva'. rewrite Hv, andb_false_r. by apply Hum.
    + rewrite E. split_and!; [done|done|right]. split_and!; [done|by apply full_scarce|done].
  - destruct (lazy_fault_run kend id kernelvec uservec usertrap_ others Hk Hid c s P Hs Hc Hkl Hus Hpt Hsz Hva Hab Hno Hf) as (r & s' & P' & R & [(-> & Hre & Hpg)|(-> & Hkp & Hsc)]); eexists _, s', P'; (split; [exact R|]).
    + destruct (page_base (stval c) ltac:(lia)) as (Ham & Har & _). pose proof (fun va' => paged_umem kend id Hk Hid _ _ _ _ _ _ _ va' Hus Hpg Ham ltac:(lia) ltac:(done) eq_refl eq_refl) as Hum.
      assert (Hin : PGROUNDDOWN (stval c) <= stval c < PGROUNDDOWN (stval c) + PGSIZE) by (rewrite PGROUNDDOWN_spec; unfold PGSIZE; dlia).
      split_and!; [apply Hpg|apply Hpg|left]. split_and!; [done|done| |].
      * destruct (pg_in _ _ _ _ _ _ _ _ Hpg) as (q & Hq & _ & _ & Hin' & _). rewrite Hin' by done. pose proof (page_small kend Hk q Hq). rewrite mk_pte_has by (unfold PTE_W; lia). done.
      * intros va' Hva'. rewrite Hum by done. unfold same_page. rewrite (Hno (stval c) Hin). by rewrite andb_true_r.
    + split_and!; [apply Hkp|apply Hkp|right]. split_and!; [done|done|]. intros va' Hva'. by apply (kept_umem kend id Hk Hid).
Qed.


(** C15: an alarm interrupts a program and [sigreturn] resumes it: when the timer goes off
    the handler starts with the program's registers, and whatever traps it takes, other
    than [sigreturn], [sigreturn] goes on at the instruction that was interrupted with
    every register as it was, but for [a0]: the system call's result, 0, is stored in it.
    The test's comment asks for all registers. *)
Theorem alarm_transparent u0 pc0 c0 (s s1 s2 s3 : st) u pc c : (forall num f, others num = Some f -> steady f) ->
  round kend id kernelvec uservec usertrap_ others u0 pc0 c0 s s1 -> timer c0 -> alarm_interval (pr s) <> 0 -> s32 (alarm_ticks (pr s) - 1) <= 0 -> alarm_goingoff (pr s) = 0 ->
  handling kend id kernelvec uservec usertrap_ others s1 s2 -> round kend id kernelvec uservec usertrap_ others u pc c s2 s3 -> calls u c SYS_sigreturn ->
  sepc (hr s1) = alarm_handler (pr s) /\ (forall r, user_reg r = true -> trapframe (pr s1) r = u0 r) /\
  user_ready uservec usertrap_ s3 /\ sepc (hr s3) = pc0 /\ alarm_goingoff (pr s3) = 0 /\ trapframe (pr s3) A0 = 0 /\ forall r, user_reg r = true -> r <> A0 -> trapframe (pr s3) r = u0 r.
Proof using.
  intros Ho R1 Ht Hi Hti Hg Hh R3 Hc. destruct (alarm_resumes kend id kernelvec uservec usertrap_ others Ho u0 pc0 c0 s s1 s2 u pc c s3 R1 Ht Hi Hti Hg Hh R3 Hc) as (E1 & E2 & E3 & E4 & E5 & E6). split_and!; try done.
  destruct R3 as (s0 & r & _ & R). by apply usertrap_ready in R.
Qed.

(** C40: a program can stop the kernel: after it has read a page of a file that it mapped
    for reading only, and that it has open for writing too, a store to the page makes the
    handler map the page again, and [mappages] panics. *)
Theorem mmap_store_panics x c (s : st) P v y xi V D L cap : let va := stval c in let e := lk (ram (kst_ s)) P va in
  geom x -> kend_ok kend -> (id < NCPU)%nat -> Z.land (sstatus (hr s)) SSTATUS_SPP = 0 -> scause c = 15 -> uspace kend (kst_ s) P -> pagetable (pr s) = root P -> 0 <= va < sz (pr s) -> va < 2 ^ 31 -> above_stack (pr s) va = true ->
  has e PTE_V = true -> has e PTE_W = false -> has e PTE_F = false -> find_vma (vma (pr s)) va = Some v -> 0 <= v_addr v -> v_addr v mod PGSIZE = 0 -> 0 <= v_offset v -> v_offset v + (PGROUNDDOWN va - v_addr v) + PGSIZE < 2 ^ 31 -> v_offset v + (PGROUNDDOWN va - v_addr v) < i_size xi ->
  ftable s !! v_vfile v = Some y -> f_writable y <> 0 -> icache (fs_ s) !! f_ip y = Some xi -> cached xi -> Fsread.file x V xi -> (forall n, mem_ok (V n)) -> sees (dsk (fs_ s)) V D [] L cap -> (size L < 28)%nat ->
  (exists p, page_ok kend PHYSTOP p /\ cnt (kst_ s) (p / PGSIZE) = 0) -> run c s = Panic "remap".
Proof using.
  cbv zeta. intros Hx Hk Hid Hs Hc Hus Hpt Hva Hv31 Hab Hv _ HF Hf Hv0 Hvm Ho0 Hoe Hos Hy Hw. intros. eapply (present_mmap_run kend id kernelvec uservec usertrap_ others Hk Hid x Hx c s P v y xi V D L cap); try done; [by right|].
  unfold permitted. rewrite Hc. cbn [Z.eqb Pos.eqb andb negb]. by rewrite (proj2 (Z.eqb_neq _ 0)).
Qed.

End user.

(** ** A small machine

    The parent of [Vmspec.v] with a second page, for reading only, and a program that has
    a file of four bytes mapped there. *)
Definition demo_ro : Z := mk_pte (pg 5) (Z.lor (Z.lor PTE_U PTE_R) PTE_V).
Definition demo_kst2 : kst := set_ram (store64 demo_ram (pg 3 + 8) demo_ro) demo_kst.

Lemma demo_pte : pte_addr demo_parent 4096 = Some (pg 3 + 8).
Proof. done. Qed.
Lemma demo_lk2 va : 0 <= va < MAXVA -> lk (ram demo_kst2) demo_parent va = if (4096 <=? va) && (va <? 4096 + PGSIZE) then demo_ro else lk demo_ram demo_parent va.
Proof.
  intros Hva. cbn [ram demo_kst2 set_ram]. rewrite (lk_store demo_kend demo_ram demo_parent 4096 (pg 3 + 8) demo_ro va); [|apply demo_vmP|done|done|done|done].
  pose proof (vpn_page 4096 va eq_refl) as Hv. destruct (Z.eqb_spec (vpn va) (vpn 4096)) as [E|E].
  - apply Hv in E. by rewrite (proj2 (Z.leb_le _ _)), (proj2 (Z.ltb_lt _ _)) by lia.
  - destruct (Z.leb_spec 4096 va), (Z.ltb_spec va (4096 + PGSIZE)); cbn [andb]; try done. lia.
Qed.
Lemma demo_uspace2 : uspace demo_kend demo_kst2 demo_parent.
Proof.
  destruct (demo_used 5) as [H5 C5]; [lia|]. apply (uspace_add demo_kend demo_kst demo_parent demo_kst2 demo_parent 4096 (pg 5) (Z.lor (Z.lor PTE_U PTE_R) PTE_V));
    [apply demo_uspaceP|apply (vstep_pte demo_kend demo_kst demo_parent 4096); [apply demo_vmP|exact demo_pte]|reflexivity|split; [discriminate|reflexivity]|exact H5|rewrite C5; reflexivity| |exact demo_kend_ok| |split; [discriminate|reflexivity]|discriminate|].
  - intros [n [[_ E]|[[_ E]|[_ E]]]%demo_nodeP]; by apply pg_inj in E.
  - pose proof trapframe_maxva as Ht. intros va Hva Hv _. change (ram demo_kst) with demo_ram in *. apply demo_valid in Hv as [-> _]; [discriminate|unfold PGSIZE in *; lia].
  - intros va Hva. by apply demo_lk2.
Qed.

Definition demo_open : inode := with_lock false ex_inode.
Definition demo_fs : fs (S := flat) (U := gmap Z Z) := set_icache [demo_open; ex_stale] (ex_fs ∅).
Definition demo_file : File.file := File.mk_file File.FD_INODE 1 1 1 0 0 0 0 0.
Definition demo_area : Sysfile.vm_area := mk_vma 1 4096 4096 1 2 3 0 0.
Definition demo_proc (areas : list Sysfile.vm_area) : proc := mk_proc (pg 1) 8192 0 0 0 areas (fun r => if decide (r = SP) then 1 else 0) 0 0 0 (fun _ => 0) 0.
Definition demo_hart : hart := mk_hart 0 0 4 0 0 0.
Definition demo_trap (k : kst) (areas : list Sysfile.vm_area) : trap (S := flat) (U := gmap Z Z) := mk_trap k demo_fs [demo_file] (demo_proc areas) demo_hart 0 [].
Definition no_others : Z -> option (M (trap (S := flat) (U := gmap Z Z)) Z) := fun _ => None.

Lemma demo_promised : promised_page (demo_trap demo_kst []) demo_parent 4100.
Proof.
  split; [|done]. intros va Hva. change (PGROUNDDOWN 4100) with 4096 in Hva. pose proof trapframe_maxva as Ht. cbn [kst_ demo_trap]. change (ram demo_kst) with demo_ram. rewrite demo_lkP by (unfold MAXVA, PGSIZE in *; lia).
  rewrite (proj2 (Z.eqb_neq _ 0)); [done|]. unfold vpn, PGSIZE in *. dlia.
Qed.

Definition demo_cause (c va : Z) : cause := mk_cause c va 0.
Lemma page_fault_resolved_witness : exists r s' P', usertrap demo_kend 0 1 2 3 no_others (demo_cause 15 4100) (demo_trap demo_kst []) = Ret r s' /\ uspace demo_kend (kst_ s') P' /\ root P' = pg 1 /\
    ((r = Resume (MAKE_SATP (pg 1)) /\ resumed 2 3 (demo_trap demo_kst []) s' /\ has (lk (ram (kst_ s')) P' 4100) PTE_W = true /\
      forall va', 0 <= va' -> umem (ram (kst_ s')) P' va' = if same_page 4100 va' && negb (has (lk demo_ram demo_parent 4100) PTE_V) then Some 0 else umem demo_ram demo_parent va') \/
     (r = Exited /\ scarce demo_kend (kst_ s') /\ forall va', 0 <= va' -> umem (ram (kst_ s')) P' va' = umem demo_ram demo_parent va')).
Proof.
  apply (page_fault_resolved demo_kend 0 1 2 3 no_others (demo_cause 15 4100) (demo_trap demo_kst []) demo_parent);
    [exact demo_kend_ok|unfold NCPU; lia|reflexivity|right; reflexivity|reflexivity|exact demo_uspaceP|exact (proj1 demo_cow)|reflexivity|discriminate|split; [discriminate|reflexivity]|right; exact demo_promised].
Defined.

Lemma demo_cached : cached demo_open.
Proof. by split. Qed.
Lemma demo_open_file : Fsread.file ex_sb ex_vol demo_open.
Proof. destruct ex_file. by split. Qed.
Lemma demo_sees : sees (mk_flat ex_vol ex_vol [] ∅ 10) ex_vol ex_vol [] ∅ 10.
Proof. by split_and!; [|constructor|]. Qed.


Lemma mmap_store_panics_witness : usertrap demo_kend 0 1 2 3 no_others (demo_cause 15 4100) (demo_trap demo_kst2 [demo_area]) = Panic "remap".
Proof.
  assert (El : lk (ram demo_kst2) demo_parent 4100 = demo_ro) by (by rewrite demo_lk2).
  apply (mmap_store_panics demo_kend 0 1 2 3 no_others ex_sb (demo_cause 15 4100) (demo_trap demo_kst2 [demo_area]) demo_parent demo_area demo_file demo_open ex_vol ex_vol ∅ 10);
    [exact ex_geom|exact demo_kend_ok|unfold NCPU; lia|reflexivity|reflexivity|exact demo_uspace2|reflexivity|split; [discriminate|reflexivity]|reflexivity|reflexivity| | | |reflexivity|discriminate|reflexivity|discriminate|reflexivity|reflexivity|reflexivity|discriminate|reflexivity|exact demo_cached|exact demo_open_file|apply (vo_bytes _ _ ex_vol_ok)|exact demo_sees|vm_compute; lia|].
  - change (has (lk (ram demo_kst2) demo_parent 4100) PTE_V = true). by rewrite El.
  - change (has (lk (ram demo_kst2) demo_parent 4100) PTE_W = false). by rewrite El.
  - change (has (lk (ram demo_kst2) demo_parent 4100) PTE_F = false). by rewrite El.
  - exists (pg 6). split; [apply demo_page; exists 6; split; [reflexivity|lia]|reflexivity].
Defined.

(** A program with an alarm at address 1000 that goes off at the next tick *)
Definition demo_alarm : trap (S := flat) (U := gmap Z Z) := set_pr (with_alarm 2 1000 1 (fun _ => 0) 0 (demo_proc [])) (demo_trap demo_kst []).
(** The trap at [pc] with registers [u] from [s] *)
Definition at_trap (u : frame) (pc : Z) (s : trap (S := flat) (U := gmap Z Z)) : trap (S := flat) (U := gmap Z Z) := set_hr (with_sepc pc (hr s)) (set_pr (with_frame (saved u (trapframe (pr s))) (pr s)) s).
Definition after (c : cause) (s : trap (S := flat) (U := gmap Z Z)) : trap (S := flat) (U := gmap Z Z) := match usertrap demo_kend 0 1 2 3 no_others c s with Ret _ s' => s' | _ => s end.
Definition demo_tick : cause := mk_cause 0x8000000000000001 0 0.
Definition demo_ecall : cause := mk_cause 8 0 0.
Definition demo_u : frame := fun _ => 77.
Definition demo_u' : frame := fun r => if decide (r = A7) then SYS_sigreturn else 5.
Definition demo_s1 := after demo_tick (at_trap demo_u 4 demo_alarm).
Definition demo_s3 := after demo_ecall (at_trap demo_u' 1008 demo_s1).
Lemma at_trap_enters u pc s : enters u pc s (at_trap u pc s).
Proof. split; [exists (killed (pr s)); by destruct s as [? ? ? [] []]|done]. Qed.

Lemma after_run c s r : match usertrap demo_kend 0 1 2 3 no_others c s with Ret x _ => x = r | _ => False end -> usertrap demo_kend 0 1 2 3 no_others c s = Ret r (after c s).
Proof. unfold after. destruct (usertrap _ _ _ _ _ _ c s); [by intros ->|done..]. Qed.

Lemma alarm_transparent_witness : sepc (hr demo_s1) = 1000 /\ sepc (hr demo_s3) = 4 /\ trapframe (pr demo_s3) A0 = 0 /\ trapframe (pr demo_s3) A1 = 77.
Proof.
  destruct (alarm_transparent demo_kend 0 1 2 3 no_others demo_u 4 demo_tick demo_alarm demo_s1 demo_s1 demo_s3 demo_u' 1008 demo_ecall) as (E1 & _ & _ & E3 & _ & E5 & E6); [done| |reflexivity|discriminate|discriminate|reflexivity|constructor| |split; reflexivity|].
  - exists (at_trap demo_u 4 demo_alarm), (MAKE_SATP (pg 1)). split; [apply at_trap_enters|apply after_run; vm_compute; reflexivity].
  - exists (at_trap demo_u' 1008 demo_s1), (MAKE_SATP (pg 1)). split; [apply at_trap_enters|apply after_run; vm_compute; reflexivity].
  - exact (conj E1 (conj E3 (conj E5 (E6 A1 eq_refl ltac:(discriminate))))).
Defined.

End Trapuser.
